(* ===== verification/_CoqProject ===== *)
-Q . S2P
Prelude.v
Errno.v
Locks.v
Bitmap.v
Phys.v
Math.v
Heap.v
Event.v
Ring.v
Str.v
Path.v
Net.v
Ports.v
Tcp.v
TcpProps.v
TcpProtocol.v
Ipv4.v
Udp.v
Arp.v
Frames.v
Paging.v
PagingProps.v
Block.v
InodeFile.v
Fs.v
Iso.v
Elf.v
Modules.v
Exec.v
Smart.v
Devices.v
Pci.v
Sched.v
Containers.v
Mmap.v
Syscall.v
Ipc.v
Input.v
Tty.v
Thread.v
Platform.v
Process.v
Signal.v
