(* ===== verification/Prelude.v ===== *)
(** * The AEX/2 kernel: a verification library

    AEX/2 is a multiprocessor kernel for x86-64 in C++.  This library models its
    core and proves what makes it correct.  File and function names below are those
    of the sources.

    ** The program

    The physical frame allocator ([mem/phys.cpp]) hands out frames from bitmaps; the
    page maps ([arch/x86_64/mem/paging.cpp]) build four-level page tables in such
    frames; the heap ([mem/heap.cpp]) cuts blocks out of pages; containers
    ([mem/vector.hpp], [mem/lazyvector.hpp]) and the circular buffer
    ([mem/circularbuffer.cpp]) live on the heap.  Spinlocks, mutexes and
    reader-writer locks ([kernel/]) protect shared state; events ([ipc/event.cpp])
    block and wake threads; the scheduler ([proc/scheduler.cpp]) picks threads from
    a ring ([proc/proc.cpp]).  Threads ([proc/thread.cpp]) exit, join and detach,
    processes ([proc/process.cpp]) exit and are waited for, signals
    ([ipc/process.cpp], [ipc/thread.cpp]) interrupt threads, message queues and pipes
    ([ipc/]) carry bytes between them.  Block handles ([dev/blockhandle.cpp]) read
    bytes from sectors, paths ([fs/path.cpp]) are split and canonized, file objects
    ([fs/]) walk directories and read files through a block cache from ISO 9660
    disks ([mod/init/iso9660]) and list the devices.  The keyboard driver
    ([arch/x86_64/mod/core/ps2]) turns scan codes into keys, which [dev/input.cpp]
    hands to its listeners; terminals ([dev/tty/]) parse escape sequences, draw text
    and turn keys into input, and [printk] writes to the first of them.  ELF images
    ([kernel/elf.cpp]) are the kernel, its modules ([kernel/module/]), which are linked
    against it, and the programs, which [elf64executor.cpp] loads into a process.
    Files are mapped into memory page by page ([mem/mmap.cpp]).  Devices have names
    ([dev/name.cpp]) and sit in a tree with the buses that bind them to drivers
    ([dev/tree/]); smart pointers and arrays ([mem/smartptr.hpp], [mem/smartarray.hpp])
    count the references to them.  Devices are found on the PCI bus
    ([arch/x86_64/sys/pci.cpp]) and the tables of the firmware ([sys/acpi.cpp]); the clock
    ([sys/time.cpp], [rtc.cpp]) counts seconds, and interrupts run the handlers that
    drivers registered ([sys/irq.cpp]).  Programs reach files and identities through system
    calls ([arch/x86_64/mod/core/syscall]).  The network stack ([mod/core/netstack]) implements TCP
    and UDP sockets over IPv4, which finds hardware addresses through ARP.

    ** The files

    - Prelude (this file): outcomes ([Done], [Panic] for [kpanic] and failed
      assertions, [Fault] for an access outside an object), checked array accesses,
      machine integers ([u8] to [i64]), the state monad [stateM] with its loops
      [sfor], [siter] and [sturns], generic lemmas, hints.
    - Locks: [Spinlock] and [Mutex] as step relations at the granularity of their
      atomic operations, [RWMutex] and [RWSpinlock].
    - Bitmap, Phys: word arrays as bits; [FramePiece] ([frame_piece]) and [Phys]
      ([alloc], [free], [init]).
    - Math, Heap: the helpers of [math.hpp]; [Slab] and [Heap] ([malloc], [free],
      [realloc], [msize], [init]) with the bytes of every block.
    - Event, Ring, Ipc: [Event] and [SimpleEvent]; [CircularBuffer]; [MessageQueue]
      and [Pipe] on top of it.
    - Str, Path: [string.hpp], [string.cpp], [snprintf.cpp]; [path.cpp].
    - Net, Tcp, TcpProps: byte order and checksum; [TCPSocket] with its blocks,
      queues, segments and timer, and what two such sockets do to each other.
    - Ports, TcpProtocol, Udp: the bitmap of ports in use, which both protocols
      hold; [TCPProtocol] (dispatch, timer, creation and destruction of sockets);
      [UDPSocket], [UDPProtocol], [UDPLayer] and the loopback device.
    - Ipv4, Arp: [IPv4Layer] (interfaces, encapsulation, parsing, routing, the
      retransmission queue) over the classes [Link] and [Transport], which Udp
      instantiates; [ARPTable] and [ARPLayer].
    - Frames, Paging, PagingProps: the class [FrameAllocator] with its laws, which
      [Phys] implements ([Phys_laws]); the operations of [Pagemap] over any frame
      allocator; their properties.
    - Block, Containers: [BlockHandle]; [Vector] and [LazyVector].
    - Errno: [error_t] with its codes and texts.
    - InodeFile, Fs, Iso: [INodeFile] (read with its cache, seek, dup) over any
      inode; the record [ControlBlock] of a file system, [findINode], the mount table,
      [File] and the file system of devices; the ISO 9660 file system.
    - Input: [Ps2] (scan codes), [Input] (keys, modifiers, lights, handles, keymap).
    - Tty: [Abstractor] (escape sequences, [printk]), the text and the graphics
      screens, [TTYChar] with the thread that reads the keys.
    - Elf, Modules, Exec: [ELF] (tables, strings, symbols, relocations of an image);
      the loader, the relocator, the symbols and the order of the modules; the
      sections and the arguments of a program in the pages of its process.
    - Mmap: regions on files with their cache of pages, the page fault, the regions
      of a process.
    - Smart, Devices: [SmartPointer] and [SmartArray] on a heap of objects and
      counters; [Names] and [Tree].
    - Syscall: [Sec] (identities and nice), [Syscall] (the calls on descriptors, paths
      and the working directory, pipes, the descriptors of fork and exec).
    - Pci, Platform: [Pci] (configuration space, base addresses, the scan, the names of
      the classes) over any hardware registers; [Time] (calendar and clock), [Acpi] (the
      tables in physical memory) and [Irq] (handlers, in the thread they interrupt).
    - Sched: [CircularList] (the rings of processes and threads) and [Sched]
      ([schedule]).
    - Thread, Process, Signal: [Life] (exit, join, detach, abort), [ProcessTree]
      (creation, exit, wait), [Signal] (action tables, delivery, handler frames).

    A class or namespace of the sources is a [Module] with the same name where Rocq
    allows it, its members a [Record] and its methods definitions with the names of
    the sources.  A method that yields is cut at the yield: a section is one atomic
    step, and sections of different threads interleave in a step relation.

    ** The theorems

    Memory: [malloc] and [realloc] return fresh blocks disjoint from all others,
    [free] gives them back, a double free panics (Heap); [Phys::alloc] is first fit
    and [free] undoes it, [init] establishes the invariant, and an address more than
    2 GiB into a piece wraps (Phys); [paddrof] is the walk of the processor, [alloc],
    [map] and [free] change the translation of their pages only, the search for pages
    ends (PagingProps); vectors are lists and lazy vectors are maps (Containers).
    Concurrency: exclusion of the locks (Locks); no lost waiter (Event); threads are
    finished once (Thread).  Scheduling: the ring is a list, [schedule] is round
    robin (Sched).  Processes: the tree stays rooted and exit codes reach the parent
    (Process); handlers run on the right frame and [sigret] undoes it (Signal).
    Streams: first-in
    first-out of the buffer and of message queues (Ring, Ipc).  Strings and paths:
    [snprintf] truncates, [canonize_path] is a stack machine.  Network: the wire
    format round trip, the handshake, in-order delivery, stale segments, the output
    stream (TcpProps); dispatch to the right socket (TcpProtocol); the port table is
    a set (Ports), sockets have different ports, and a datagram sent over the
    loopback device is queued at the socket bound to its port (Udp); what IPv4
    encapsulates it parses back, and the retransmission queue drains (Ipv4); the ARP
    exchange of two machines resolves an address (Arp).  Disks and files: a read of a
    block handle is a byte read (Block), devices are found by their names (Fs), the
    path of a file on a mounted ISO 9660 volume leads to its bytes (Iso).  Keyboard:
    the modifier flags follow the keys (Input).  Terminals: a typed text is read,
    [printk] puts its text on the screen, no escape sequence writes outside the
    buffers (Tty).  Modules and programs: an image is read back as it was laid out
    (Elf), linking stores the value of every relocation, the symbols of a module are
    found and modules are loaded in order (Modules), a program sees its sections and
    its arguments (Exec).  Mappings: loads return the bytes of the file although pages
    are evicted (Mmap).  Devices: no object is used after it was deleted (Smart), names
    are numbered per pattern, every driver meets every device of its bus (Devices).
    System calls: the descriptor table is a finite map with the lowest free number, [open]
    resolves the path of the caller, and a privilege that was dropped does not come back
    (Syscall).  Platform: the base addresses of a device are found and left as they were
    (Pci); [dt2epoch] is the calendar up to three stated deviations, the tables that [init]
    leaves have right checksums, and an interrupted thread goes on with the state it had
    (Platform).
    Theorems and lemmas that describe a deviation of the code from its evident purpose
    say so in their comment.

    ** Bounds and fuel

    Integers keep their width.  Loops whose bound is a loop counter run on that
    counter.  The others have fuel that is proved, or is by construction, enough:
    the search for pages visits at most [2 ^ 52] pages ([contiguous_fuel], one more;
    [findContiguous_terminates]), [fork] at most [2 ^ 43] tables ([fork_fuel]), a
    block read takes a byte per turn of a 32-bit length ([read_fuel]), scans of
    bitmaps and strings are bounded by the memory they run over; a section of a program
    takes a turn for each page it touches ([load_chunks_ok]).

    ** Not modelled

    Hardware access (the interrupt controllers, timers, disk and network drivers), the
    uptime, which is computed in floating point, the boot code before the allocators are
    ready, assembly, context switches beyond the choice of the thread, debug output.  The code that is left is of these kinds: it
    reads and writes registers of a device whose behaviour the sources do not give, or
    it passes the registers of a system call or of a fault on to the operations that are
    modelled here, or it prints. *)
From stdpp Require Export prelude gmap list_numbers strings.

(** ** Outcomes

    A kernel function either returns a value, stops the machine through
    [kpanic] (also the expansion of a failed [AEX_ASSERT]), or touches memory
    outside the object it works on, which the C++ abstract machine leaves
    undefined; the last case is [Fault]. *)

Inductive outcome (A : Type) : Type :=
| Done (a : A)
| Panic (why : string)
| Fault.
Arguments Done {A} a.
Arguments Panic {A} why.
Arguments Fault {A}.

#[global] Instance outcome_ret : MRet outcome := @Done.
#[global] Instance outcome_bind : MBind outcome := λ A B f m,
  match m with
  | Done a => f a
  | Panic w => Panic w
  | Fault => Fault
  end.

(** [kpanic]'s expansion of [AEX_ASSERT(condition)]. *)
Definition aex_assert (condition : bool) : outcome unit :=
  if condition then Done tt else Panic "Assertion failed!".

(** Checked array accesses: an index outside the array is [Fault]. *)
Definition rd {A} (l : list A) (i : Z) : outcome A :=
  if (i <? 0)%Z then Fault
  else match l !! Z.to_nat i with Some a => Done a | None => Fault end.

Definition wr {A} (l : list A) (i : Z) (a : A) : outcome (list A) :=
  if ((0 <=? i) && (i <? Z.of_nat (length l)))%Z
  then Done (<[Z.to_nat i := a]> l) else Fault.

(** Checked block accesses: [n] entries from [off] on ([memcpy]'s source), and
    the entries [bs] stored from [off] on ([memcpy]'s and [memset]'s
    destination). *)
Definition get {A} (l : list A) (off n : Z) : outcome (list A) :=
  if ((0 <=? off) && (0 <=? n) && (off + n <=? Z.of_nat (length l)))%Z
  then Done (take (Z.to_nat n) (drop (Z.to_nat off) l)) else Fault.

Definition put {A} (l : list A) (off : Z) (bs : list A) : outcome (list A) :=
  if ((0 <=? off) && (off + Z.of_nat (length bs) <=? Z.of_nat (length l)))%Z
  then Done (take (Z.to_nat off) l ++ bs ++ drop (Z.to_nat off + length bs) l)
  else Fault.

(** Little-endian integers in memory. *)
Definition le_bytes (n v : Z) : list Z := Z_to_little_endian n 8 v.
Definition le_value (bs : list Z) : Z := little_endian_to_Z 8 bs.
Definition bytes (l : list Z) : Prop := Forall (λ b, 0 ≤ b < 2 ^ 8)%Z l.

(** ** Machine integers *)

Definition wrap (w z : Z) : Z := (z `mod` 2 ^ w)%Z.
Definition swrap (w z : Z) : Z := ((z + 2 ^ (w - 1)) `mod` 2 ^ w - 2 ^ (w - 1))%Z.

Declare Scope aex_scope.
Delimit Scope aex_scope with aex.
Abbreviation u8 := (wrap 8).
Abbreviation u16 := (wrap 16).
Abbreviation u32 := (wrap 32).
Abbreviation u64 := (wrap 64).
Abbreviation i16 := (swrap 16).
Abbreviation i32 := (swrap 32).
Abbreviation i64 := (swrap 64).
Notation "l '.[' i ']'" := (rd l i) (at level 1, format "l .[ i ]") : aex_scope.
Notation "l '.[' i ':=' a ']'" := (wr l i a)
  (at level 1, format "l .[ i  :=  a ]") : aex_scope.
Open Scope aex_scope.
Local Open Scope Z_scope.

(** ** State

    A stateful function is a state transformer over [outcome]. *)

Definition stateM (S A : Type) : Type := S → outcome (A * S).
#[global] Instance stateM_ret S : MRet (stateM S) := λ A a s, Done (a, s).
#[global] Instance stateM_bind S : MBind (stateM S) := λ A B f m s, '(a, s) ← m s; f a s.

Definition gets {S A} (f : S → A) : stateM S A := λ s, Done (f s, s).
Definition modify {S} (f : S → S) : stateM S unit := λ s, Done (tt, f s).
Definition lift {S A} (o : outcome A) : stateM S A := λ s, a ← o; Done (a, s).
Definition when {S} (b : bool) (m : stateM S unit) : stateM S unit := if b then m else mret tt.

(** [n] turns of a loop with a counter. *)
Fixpoint sfor {S} (n : nat) (i : Z) (body : Z → stateM S unit) : stateM S unit :=
  match n with O => mret tt | Datatypes.S n => body i;; sfor n (i + 1)%Z body end.

(** A loop that ends by [inr]: at most [fuel] turns, with a binary counter so
    that bounds such as [2 ^ 52] stay executable. *)
Fixpoint siter {S C R} (fuel : positive) (body : C → stateM S (C + R)) (c : C) : stateM S (C + R) :=
  match fuel with
  | xH => body c
  | xO p => r ← siter p body c; match r with inl c => siter p body c | inr _ => mret r end
  | xI p =>
      r ← body c;
      match r with
      | inl c => r ← siter p body c; match r with inl c => siter p body c | inr _ => mret r end
      | inr _ => mret r
      end
  end.

(** The same loop with a unary counter. *)
Fixpoint sturns {S C R} (n : nat) (body : C → stateM S (C + R)) (c : C) : stateM S (C + R) :=
  match n with
  | O => mret (inl c)
  | Datatypes.S n => r ← body c; match r with inl c => sturns n body c | inr _ => mret r end
  end.

(** ** Generic lemmas *)

Lemma bind_Done {A B} (m : outcome A) (f : A → outcome B) b :
  m ≫= f = Done b ↔ ∃ a, m = Done a ∧ f a = Done b.
Proof. destruct m; simpl; naive_solver. Qed.

Lemma bind_ret {A B} (a : A) (f : A → outcome B) : Done a ≫= f = f a.
Proof. reflexivity. Qed.

(** Rewriting under the binder of a monadic step. *)
#[global] Instance outcome_bind_proper A B :
  Proper (pointwise_relation A eq ==> eq ==> eq) (@mbind outcome _ A B).
Proof. intros f g Hfg m ? <-. destruct m; simpl; [apply Hfg|done..]. Qed.

Lemma aex_assert_Done b u : aex_assert b = Done u ↔ b = true.
Proof. destruct b, u; naive_solver. Qed.

Lemma aex_assert_true b : b = true → aex_assert b = Done tt.
Proof. by intros ->. Qed.

Lemma rd_Done {A} (l : list A) i a :
  l.[i] = Done a ↔ 0 ≤ i ∧ l !! Z.to_nat i = Some a.
Proof.
  unfold rd. destruct (Z.ltb_spec i 0).
  - split; [done | lia].
  - destruct (l !! Z.to_nat i); naive_solver.
Qed.

Lemma rd_in_range {A} (l : list A) i :
  0 ≤ i < Z.of_nat (length l) → ∃ a, l.[i] = Done a ∧ l !! Z.to_nat i = Some a.
Proof.
  intros Hi. destruct (lookup_lt_is_Some_2 l (Z.to_nat i)) as [a Ha]; [lia|].
  exists a. split; [|done]. apply rd_Done; split; [lia|done].
Qed.

Lemma rd_out {A} (l : list A) i :
  Z.of_nat (length l) ≤ i → l.[i] = Fault.
Proof.
  intros Hi. unfold rd. destruct (i <? 0); [done|].
  rewrite lookup_ge_None_2; [done|lia].
Qed.

Lemma wr_Done {A} (l l' : list A) i a :
  l.[i := a] = Done l' ↔
  0 ≤ i < Z.of_nat (length l) ∧ l' = <[Z.to_nat i := a]> l.
Proof.
  unfold wr. destruct (Z.leb_spec 0 i), (Z.ltb_spec i (Z.of_nat (length l)));
    simpl; naive_solver lia.
Qed.

Lemma wr_in_range {A} (l : list A) i a :
  0 ≤ i < Z.of_nat (length l) → l.[i := a] = Done (<[Z.to_nat i := a]> l).
Proof. intros; by apply wr_Done. Qed.

Lemma get_Done {A} (l bs : list A) off n :
  get l off n = Done bs ↔
  0 ≤ off ∧ 0 ≤ n ∧ off + n ≤ Z.of_nat (length l) ∧ Z.of_nat (length bs) = n ∧
  ∀ i, (i < length bs)%nat → bs !! i = l !! (Z.to_nat off + i)%nat.
Proof.
  unfold get. split.
  - destruct (_ && _) eqn:E; [|done]. intros [= <-].
    assert (length (take (Z.to_nat n) (drop (Z.to_nat off) l)) = Z.to_nat n)
      by (rewrite length_take, length_drop; lia).
    split_and!; try lia. intros i Hi.
    rewrite lookup_take_lt by lia. apply lookup_drop.
  - intros (H1 & H2 & H3 & H4 & Hl).
    replace ((0 <=? off) && (0 <=? n) && (off + n <=? Z.of_nat (length l))) with true by lia.
    f_equal. apply list_eq. intros i. destruct (decide (i < length bs)%nat).
    + rewrite Hl, lookup_take_lt by lia. apply lookup_drop.
    + rewrite (lookup_ge_None_2 bs) by lia. apply lookup_ge_None_2.
      rewrite length_take. lia.
Qed.

Lemma get_eq {A} (l : list A) off n :
  0 ≤ off → 0 ≤ n → off + n ≤ Z.of_nat (length l) →
  get l off n = Done (take (Z.to_nat n) (drop (Z.to_nat off) l)).
Proof.
  intros. unfold get. by replace ((0 <=? off) && (0 <=? n) && (off + n <=? Z.of_nat (length l)))
    with true by lia.
Qed.

Lemma get_in_range {A} (l : list A) off n :
  0 ≤ off → 0 ≤ n → off + n ≤ Z.of_nat (length l) →
  ∃ bs, get l off n = Done bs ∧ Z.of_nat (length bs) = n.
Proof.
  intros. exists (take (Z.to_nat n) (drop (Z.to_nat off) l)). split.
  - unfold get. by replace ((0 <=? off) && (0 <=? n) && (off + n <=? Z.of_nat (length l)))
      with true by lia.
  - rewrite length_take, length_drop. lia.
Qed.

Lemma put_Done {A} (l l' bs : list A) off :
  put l off bs = Done l' →
  0 ≤ off ∧ off + Z.of_nat (length bs) ≤ Z.of_nat (length l) ∧ length l' = length l ∧
  ∀ i, l' !! i = if decide (Z.to_nat off ≤ i < Z.to_nat off + length bs)%nat
                 then bs !! (i - Z.to_nat off)%nat else l !! i.
Proof.
  unfold put. destruct (_ && _) eqn:E; [|done]. intros [= <-].
  split_and!; try lia; [rewrite !length_app, length_take, length_drop; lia|].
  intros i. case_decide.
  - rewrite lookup_app_r, length_take by (rewrite length_take; lia).
    replace (Z.to_nat off `min` length l)%nat with (Z.to_nat off) by lia.
    by rewrite lookup_app_l by lia.
  - destruct (decide (i < Z.to_nat off)%nat).
    + rewrite lookup_app_l by (rewrite length_take; lia). by apply lookup_take_lt.
    + rewrite lookup_app_r, length_take by (rewrite length_take; lia).
      replace (Z.to_nat off `min` length l)%nat with (Z.to_nat off) by lia.
      rewrite lookup_app_r, lookup_drop by lia. f_equal. lia.
Qed.

Lemma put_eq {A} (l bs : list A) off :
  0 ≤ off → off + Z.of_nat (length bs) ≤ Z.of_nat (length l) →
  put l off bs = Done (take (Z.to_nat off) l ++ bs ++ drop (Z.to_nat off + length bs) l).
Proof.
  intros. unfold put.
  by replace ((0 <=? off) && (off + Z.of_nat (length bs) <=? Z.of_nat (length l))) with true by lia.
Qed.

Lemma put_in_range {A} (l bs : list A) off :
  0 ≤ off → off + Z.of_nat (length bs) ≤ Z.of_nat (length l) →
  ∃ l', put l off bs = Done l'.
Proof.
  intros. unfold put.
  replace ((0 <=? off) && (off + Z.of_nat (length bs) <=? Z.of_nat (length l)))
    with true by lia. eauto.
Qed.

Lemma get_put_same {A} (l l' bs : list A) off :
  put l off bs = Done l' → get l' off (Z.of_nat (length bs)) = Done bs.
Proof.
  intros (H1 & H2 & Hlen & Hl)%put_Done. apply get_Done. split_and!; try lia.
  intros i Hi. rewrite Hl. case_decide; [|lia]. f_equal. lia.
Qed.

Lemma get_put_other {A} (l l' bs : list A) off off' n :
  put l off bs = Done l' → off' + n ≤ off ∨ off + Z.of_nat (length bs) ≤ off' →
  get l' off' n = get l off' n.
Proof.
  intros (H1 & H2 & Hlen & Hl)%put_Done Hdisj.
  destruct (get l' off' n) as [xs| |] eqn:E.
  - symmetry. apply get_Done in E as (? & ? & ? & Hxs & E). apply get_Done.
    split_and!; try lia. intros i Hi. rewrite (E i Hi), Hl. case_decide; [lia|done].
  - unfold get in E. by destruct (_ && _).
  - unfold get in *. rewrite Hlen in E. by destruct (_ && _).
Qed.

(** Part of a stored block. *)
Lemma get_put_sub {A} (l l' bs : list A) off off' n :
  put l off bs = Done l' → off ≤ off' → 0 ≤ n → off' + n ≤ off + Z.of_nat (length bs) →
  get l' off' n = get bs (off' - off) n.
Proof.
  intros (H1 & H2 & Hlen & Hl)%put_Done Hlo Hn Hhi.
  destruct (get_in_range bs (off' - off) n) as (xs & Hxs & _); [lia..|].
  rewrite Hxs. apply get_Done in Hxs as (? & ? & ? & Hlx & E). apply get_Done.
  split_and!; try lia. intros i Hi. rewrite (E i Hi), Hl. case_decide; [|lia]. f_equal. lia.
Qed.

(** Storing what is already there changes nothing. *)
Lemma put_get_id {A} (l bs : list A) off :
  get l off (Z.of_nat (length bs)) = Done bs → put l off bs = Done l.
Proof.
  intros (? & ? & ? & _ & Hbs)%get_Done.
  destruct (put_in_range l bs off) as [l' Hl']; [lia..|]. rewrite Hl'.
  apply put_Done in Hl' as (_ & _ & _ & Hl). f_equal. apply list_eq. intros i.
  rewrite Hl. case_decide; [|done]. rewrite Hbs by lia. f_equal. lia.
Qed.

Lemma get_bytes l off n bs : bytes l → get l off n = Done bs → bytes bs.
Proof.
  intros Hl (_ & _ & _ & _ & Hbs)%get_Done. apply Forall_lookup_2. intros i b Hi.
  rewrite Hbs in Hi by (by eapply lookup_lt_Some). exact (Forall_lookup_1 _ _ _ _ Hl Hi).
Qed.

Lemma put_bytes l off bs l' : bytes l → bytes bs → put l off bs = Done l' → bytes l'.
Proof.
  intros Hl Hbs (_ & _ & _ & Hl')%put_Done. apply Forall_lookup_2. intros i b Hi.
  rewrite Hl' in Hi. case_decide; by eapply Forall_lookup_1 in Hi; eauto.
Qed.

Lemma le_bytes_length n v : 0 ≤ n → Z.of_nat (length (le_bytes n v)) = n.
Proof. apply length_Z_to_little_endian. Qed.

Lemma le_bytes_bytes n v : 0 ≤ n → bytes (le_bytes n v).
Proof. intros. unfold bytes, le_bytes. by apply Z_to_little_endian_bound. Qed.

Lemma le_value_bytes n v : 0 ≤ n → le_value (le_bytes n v) = wrap (8 * n) v.
Proof.
  intros. unfold le_value, le_bytes, wrap.
  rewrite little_endian_to_Z_to_little_endian by lia. f_equal. f_equal. lia.
Qed.

Lemma le_bytes_value bs : bytes bs → le_bytes (Z.of_nat (length bs)) (le_value bs) = bs.
Proof. intros. by apply Z_to_little_endian_to_Z. Qed.

Lemma le_value_cons b bs : 0 ≤ b < 2 ^ 8 → le_value (b :: bs) = b + 256 * le_value bs.
Proof.
  intros Hb. unfold le_value. simpl. set (v := little_endian_to_Z 8 bs).
  rewrite <-Z.lxor_lor, <-Z.add_nocarry_lxor; [rewrite Z.shiftl_mul_pow2 by lia; lia|..];
    apply Z.bits_inj'; intros k Hk; rewrite Z.land_spec, Z.bits_0;
    (destruct (decide (k < 8)); [rewrite (Z.shiftl_spec_low v) by lia; apply andb_false_r|]);
    rewrite <-(Z.mod_small b (2 ^ 8)) by done; by rewrite Z.mod_pow2_bits_high by lia.
Qed.

Lemma le_value_bound bs : bytes bs → 0 ≤ le_value bs < 2 ^ (8 * Z.of_nat (length bs)).
Proof.
  intros. unfold le_value. pose proof (little_endian_to_Z_bound 8 bs ltac:(lia) H).
  by rewrite Z.mul_comm.
Qed.

Lemma wrap_small w z : 0 ≤ z < 2 ^ w → wrap w z = z.
Proof. apply Z.mod_small. Qed.

Lemma wrap_bound w z : 0 ≤ w → 0 ≤ wrap w z < 2 ^ w.
Proof. intros. apply Z.mod_pos_bound. lia. Qed.

Lemma wrap_wrap w z : 0 ≤ w → wrap w (wrap w z) = wrap w z.
Proof. intros. apply wrap_small, wrap_bound; done. Qed.

Lemma wrap_add_l w a b : 0 ≤ w → wrap w (wrap w a + b) = wrap w (a + b).
Proof. intros. unfold wrap. rewrite Zplus_mod_idemp_l. done. Qed.

Lemma wrap_add_r w a b : 0 ≤ w → wrap w (a + wrap w b) = wrap w (a + b).
Proof. intros. unfold wrap. rewrite Zplus_mod_idemp_r. done. Qed.

Lemma swrap_small w z : 0 < w → - 2 ^ (w - 1) ≤ z < 2 ^ (w - 1) → swrap w z = z.
Proof.
  intros Hw Hz. unfold swrap. rewrite Z.mod_small; [lia|].
  rewrite <-(Z.succ_pred w) at 3. rewrite Z.pow_succ_r by lia.
  rewrite <-Z.sub_1_r. lia.
Qed.

Lemma swrap_bound w z : 0 < w → - 2 ^ (w - 1) ≤ swrap w z < 2 ^ (w - 1).
Proof.
  intros Hw. unfold swrap.
  pose proof (Z.mod_pos_bound (z + 2 ^ (w - 1)) (2 ^ w)) as H.
  replace (2 ^ w) with (2 * 2 ^ (w - 1)) in *; [|rewrite <-Z.pow_succ_r by lia; f_equal; lia].
  lia.
Qed.

(** A non-negative number whose bits from [n] on are clear is below [2 ^ n]. *)
Lemma bits_bound n w :
  0 ≤ n → 0 ≤ w → (∀ k, n ≤ k → Z.testbit w k = false) → w < 2 ^ n.
Proof.
  intros Hn Hw Hk. destruct (Z.lt_ge_cases w (2 ^ n)) as [|Hge]; [done|].
  assert (0 < w) by (pose proof (Z.pow_pos_nonneg 2 n); lia).
  pose proof (Z.log2_le_pow2 w n ltac:(lia)) as [Hlog _].
  specialize (Hk (Z.log2 w) (Hlog Hge)). by rewrite Z.bit_log2 in Hk by lia.
Qed.

Lemma high_bits n w k : 0 ≤ n → 0 ≤ w < 2 ^ n → n ≤ k → Z.testbit w k = false.
Proof.
  intros Hn Hw Hk. rewrite <-(Z.mod_small w (2 ^ n)) by done.
  apply Z.mod_pow2_bits_high. lia.
Qed.

Lemma lxor_bound n a b :
  0 ≤ n → 0 ≤ a < 2 ^ n → 0 ≤ b < 2 ^ n → 0 ≤ Z.lxor a b < 2 ^ n.
Proof.
  intros Hn Ha Hb. assert (0 ≤ Z.lxor a b) by (apply Z.lxor_nonneg; lia).
  split; [done|]. apply bits_bound; [done..|]. intros k Hk.
  by rewrite Z.lxor_spec, (high_bits n a), (high_bits n b).
Qed.

(** *** Running a state transformer *)

Lemma run_bind {S A B} (m : stateM S A) (f : A → stateM S B) s :
  (m ≫= f) s = match m s with Done p => f p.1 p.2 | Panic w => Panic w | Fault => Fault end.
Proof. unfold mbind, stateM_bind. by destruct (m s) as [[]| |]. Qed.

(** The primitive steps, one by one. *)
Lemma gets_bind {S A B} (f : S → A) (k : A → stateM S B) s : (gets f ≫= k) s = k (f s) s.
Proof. done. Qed.
Lemma modify_bind {S B} (f : S → S) (k : unit → stateM S B) s : (modify f ≫= k) s = k tt (f s).
Proof. done. Qed.
Lemma mret_bind {S A B} (a : A) (k : A → stateM S B) s : (mret a ≫= k) s = k a s.
Proof. done. Qed.
Lemma lift_bind {S A B} (o : outcome A) (a : A) (k : A → stateM S B) s : o = Done a → (lift o ≫= k) s = k a s.
Proof. by intros ->. Qed.
Lemma sbind_Done {S A B} (m : stateM S A) (f : A → stateM S B) s r : (m ≫= f) s = Done r → ∃ a s1, m s = Done (a, s1) ∧ f a s1 = Done r.
Proof. rewrite run_bind. destruct (m s) as [[a s1]| |]; [|done..]. intros He. by exists a, s1. Qed.
Lemma lift_Done_inv {S A} (o : outcome A) (a : A) (s s' : S) : lift o s = Done (a, s') → o = Done a ∧ s' = s.
Proof. unfold lift. destruct o; [|done..]. by intros [= -> ->]. Qed.
Lemma lift_fault {S A B} (o : outcome A) (k : A → stateM S B) s : o = Fault → (lift o ≫= k) s = Fault.
Proof. by intros ->. Qed.
Lemma stateM_assoc {S A B C} (m : stateM S A) (f : A → stateM S B) (g : B → stateM S C) s :
  ((m ≫= f) ≫= g) s = (m ≫= λ a, f a ≫= g) s.
Proof. unfold mbind, stateM_bind. by destruct (m s) as [[]| |]. Qed.

Lemma sturns_add {S C R} n k (body : C → stateM S (C + R)) c s :
  sturns (n + k) body c s =
  (r ← sturns n body c; match r with inl c => sturns k body c | inr _ => mret r end) s.
Proof.
  revert c s. induction n as [|n IH]; intros c s; [by rewrite run_bind|]. cbn [sturns Nat.add].
  rewrite !run_bind. destruct (body c s) as [[[c'|r] s']| |]; [|done..]. cbn. rewrite IH. by rewrite run_bind.
Qed.

Lemma siter_turns {S C R} fuel (body : C → stateM S (C + R)) c s :
  siter fuel body c s = sturns (Pos.to_nat fuel) body c s.
Proof.
  revert c s. induction fuel as [p IH|p IH|]; intros c s.
  - rewrite Pos2Nat.inj_xI. replace (Datatypes.S (2 * Pos.to_nat p))%nat with (1 + (Pos.to_nat p + Pos.to_nat p))%nat by lia.
    cbn [siter sturns Nat.add]. rewrite !run_bind. destruct (body c s) as [[[c'|r] s']| |]; [|done..]. cbn.
    rewrite sturns_add, !run_bind, IH. destruct (sturns _ _ _ _) as [[[c''|r] s'']| |]; [|done..]. apply IH.
  - rewrite Pos2Nat.inj_xO. replace (2 * Pos.to_nat p)%nat with (Pos.to_nat p + Pos.to_nat p)%nat by lia.
    cbn [siter]. rewrite sturns_add, !run_bind, IH. destruct (sturns _ _ _ _) as [[[c'|r] s']| |]; [|done..]. apply IH.
  - cbn [siter]. change (Pos.to_nat 1) with 1%nat. cbn [sturns]. rewrite run_bind.
    by destruct (body c s) as [[[c'|r] s']| |].
Qed.

(** A loop whose turns keep [Inv] and lower the measure [mu] ends, in [Post],
    when the fuel is above the measure. *)
Lemma siter_ends {S C R} (Inv : C → S → Prop) (Post : R → S → Prop) (mu : C → Z) fuel (body : C → stateM S (C + R)) c s :
  (∀ c s, Inv c s → 0 ≤ mu c ∧
     ((∃ r s', body c s = Done (inr r, s') ∧ Post r s') ∨
      (∃ c' s', body c s = Done (inl c', s') ∧ Inv c' s' ∧ mu c' < mu c))) →
  Inv c s → mu c < Zpos fuel →
  ∃ r s', siter fuel body c s = Done (inr r, s') ∧ Post r s'.
Proof.
  intros Hbody Hc Hmu. rewrite siter_turns. assert (Hn : mu c < Z.of_nat (Pos.to_nat fuel)) by lia.
  clear Hmu. revert c s Hc Hn. generalize (Pos.to_nat fuel) as n. induction n as [|n IH]; intros c s Hc Hn.
  - destruct (Hbody c s Hc). lia.
  - cbn [sturns]. rewrite run_bind. destruct (Hbody c s Hc) as (? & [(r & s' & -> & Hp)|(c' & s' & -> & Hi & Hlt)]).
    + by exists r, s'.
    + apply IH; [done|lia].
Qed.

(** A loop whose first turn ends it. *)
Lemma siter_first {S C R} fuel (body : C → stateM S (C + R)) c s r s' :
  body c s = Done (inr r, s') → siter fuel body c s = Done (inr r, s').
Proof.
  intros He. rewrite siter_turns. destruct (Pos2Nat.is_succ fuel) as [n ->]. cbn [sturns]. by rewrite run_bind, He.
Qed.

(** A counted loop that keeps an indexed invariant. *)
Lemma sfor_keeps {S} (Inv : Z → S → Prop) n i (body : Z → stateM S unit) s :
  (∀ k s, i ≤ k < i + Z.of_nat n → Inv k s → ∃ s', body k s = Done (tt, s') ∧ Inv (k + 1) s') →
  Inv i s → ∃ s', sfor n i body s = Done (tt, s') ∧ Inv (i + Z.of_nat n) s'.
Proof.
  revert i s. induction n as [|n IH]; intros i s Hbody Hi.
  - exists s. split; [done|]. by replace (i + Z.of_nat 0) with i by lia.
  - destruct (Hbody i s ltac:(lia) Hi) as (s1 & He & Hi1). cbn [sfor]. rewrite run_bind, He. cbn.
    destruct (IH (i + 1) s1) as (s2 & He2 & Hi2); [intros k s' Hk; apply Hbody; lia|done|].
    exists s2. split; [done|]. by replace (i + Z.of_nat (Datatypes.S n)) with (i + 1 + Z.of_nat n) by lia.
Qed.

(** ** Automation *)

Create HintDb aex.
#[export] Hint Resolve wrap_small swrap_small : aex.
Create Rewrite HintDb aex.
#[export] Hint Rewrite @bind_ret @length_insert : aex.

(** Run the steps of a state transformer whose results are known. *)
Ltac srun := repeat first [rewrite gets_bind | rewrite modify_bind | rewrite mret_bind
  | rewrite stateM_assoc | erewrite lift_bind by eassumption]; cbv beta zeta.

(** Invert a chain of successful monadic steps. *)
Ltac done_inv :=
  repeat match goal with
  | H : mbind _ _ = Done _ |- _ => apply bind_Done in H as (? & ? & H)
  | H : Done _ = Done _ |- _ => injection H as H
  | H : mret _ = Done _ |- _ => unfold mret, outcome_ret in H
  | H : aex_assert _ = Done _ |- _ => apply aex_assert_Done in H
  | H : rd _ _ = Done _ |- _ => apply rd_Done in H as [? ?]
  | H : wr _ _ _ = Done _ |- _ => apply wr_Done in H as [? ?]
  | H : Panic _ = Done _ |- _ => discriminate H
  | H : Fault = Done _ |- _ => discriminate H
  end; simplify_eq/=.
