(* ===== verification/Errno.v ===== *)
(** * Error codes

    [include/aex/errno.hpp] and [kernel/errno.cpp]: the codes, in the order of the
    enumeration, and the table of their descriptions. *)
From S2P Require Import Prelude.
Local Open Scope Z_scope.

Inductive error_t :=
| ENONE | E2BIG | EACCES | EADDRINUSE | EADDRNOTAVAIL | EAGAIN | EBADF | EBADMSG | EBOTHER
| EBUSY | ECANCELED | ECHILD | ECONNABORTED | ECONNREFUSED | ECONNRESET | EDEADLK
| EDESTADDRREQ | EDOM | EDQUOT | EEXIST | EFAULT | EFBIG | EHOSTUNREACH | EIDRM | EILSEQ
| EINPROGRESS | EINTR | EINVAL | EIO | EISCONN | EISDIR | ELOOP | EMFILE | EMLINK | EMSGSIZE
| EMULTIHOP | ENAMETOOLONG | ENETDOWN | ENETRESET | ENETUNREACH | ENFILE | ENOBUFS | ENODATA
| ENODEV | ENOENT | ENOEXEC | ENOLINK | ENOMEM | ENOMSG | ENOPROTOOPT | ENOSPC | ENOSR | ENOSTR
| ENOSYS | ENOTBLK | ENOTCONN | ENOTDIR | ENOTEMPTY | ENOTRECOVERABLE | ENOTSOCK | ENOTSUP
| ENOTTY | ENXIO | EOPNOTSUPP | EOVERFLOW | EOWNERDEAD | EPERM | EPIPE | EPROTO
| EPROTONOSUPPORT | EPROTOTYPE | ERANGE | EROFS | ESPIPE | ESHUTDOWN | ESOCKTNOSUPPORT | ESRCH
| ETIMEDOUT.

#[global] Instance error_t_dec : EqDecision error_t.
Proof. solve_decision. Defined.

(** The values of the enumeration in their order. *)
Definition error_codes : list error_t := [
  ENONE; E2BIG; EACCES; EADDRINUSE; EADDRNOTAVAIL; EAGAIN; EBADF; EBADMSG; EBOTHER; EBUSY;
  ECANCELED; ECHILD; ECONNABORTED; ECONNREFUSED; ECONNRESET; EDEADLK; EDESTADDRREQ; EDOM;
  EDQUOT; EEXIST; EFAULT; EFBIG; EHOSTUNREACH; EIDRM; EILSEQ; EINPROGRESS; EINTR; EINVAL; EIO;
  EISCONN; EISDIR; ELOOP; EMFILE; EMLINK; EMSGSIZE; EMULTIHOP; ENAMETOOLONG; ENETDOWN;
  ENETRESET; ENETUNREACH; ENFILE; ENOBUFS; ENODATA; ENODEV; ENOENT; ENOEXEC; ENOLINK; ENOMEM;
  ENOMSG; ENOPROTOOPT; ENOSPC; ENOSR; ENOSTR; ENOSYS; ENOTBLK; ENOTCONN; ENOTDIR; ENOTEMPTY;
  ENOTRECOVERABLE; ENOTSOCK; ENOTSUP; ENOTTY; ENXIO; EOPNOTSUPP; EOVERFLOW; EOWNERDEAD; EPERM;
  EPIPE; EPROTO; EPROTONOSUPPORT; EPROTOTYPE; ERANGE; EROFS; ESPIPE; ESHUTDOWN;
  ESOCKTNOSUPPORT; ESRCH; ETIMEDOUT].

(** [(int) code]. *)
Fixpoint position (e : error_t) (l : list error_t) : Z :=
  match l with [] => 0 | x :: l => if decide (x = e) then 0 else 1 + position e l end.
Definition error_code (e : error_t) : Z := position e error_codes.

(** The entries of [error_names]. *)
Definition error_name (e : error_t) : string :=
  match e with
  | ENONE => "None"
  | E2BIG => "Argument list too long"
  | EACCES => "Permission denied"
  | EADDRINUSE => "Address already in use"
  | EADDRNOTAVAIL => "Cannot assign requested address"
  | EAGAIN => "Try again"
  | EBADF => "Bad file number"
  | EBADMSG => "Bad message"
  | EBOTHER => "Cannot be bothered to implement"
  | EBUSY => "Device or resource busy"
  | ECANCELED => "Operation canceled"
  | ECHILD => "No child processes"
  | ECONNABORTED => "Software caused connection abort"
  | ECONNREFUSED => "Connection refused"
  | ECONNRESET => "Connection reset by peer"
  | EDEADLK => "Resource deadlock would occur"
  | EDESTADDRREQ => "Destination address required"
  | EDOM => "Mathematics argument out of domain of function"
  | EDQUOT => "Reserved"
  | EEXIST => "File exists"
  | EFAULT => "Bad address"
  | EFBIG => "File too large"
  | EHOSTUNREACH => "No route to host"
  | EIDRM => "Identifier removed"
  | EILSEQ => "Illegal byte sequence"
  | EINPROGRESS => "Operation in progress"
  | EINTR => "Interrupted system call"
  | EINVAL => "Invalid argument"
  | EIO => "I/O error"
  | EISCONN => "Transport endpoint is already connected"
  | EISDIR => "Is a directory"
  | ELOOP => "Too many levels of symbolic links"
  | EMFILE => "File descriptor value too large"
  | EMLINK => "Too many links"
  | EMSGSIZE => "Message too large"
  | EMULTIHOP => "Reserved"
  | ENAMETOOLONG => "Filename too long"
  | ENETDOWN => "Network is down"
  | ENETRESET => "Network dropped connection because of reset"
  | ENETUNREACH => "Network is unreachable"
  | ENFILE => "Too many files open in system"
  | ENOBUFS => "No buffer space available"
  | ENODATA => "No message is available on the STREAM head read queue"
  | ENODEV => "No such device"
  | ENOENT => "No such file or directory"
  | ENOEXEC => "Exec format error"
  | ENOLINK => "Reserved"
  | ENOMEM => "Out of memory"
  | ENOMSG => "No message of the desired type"
  | ENOPROTOOPT => "Protocol not available"
  | ENOSPC => "No space left on device"
  | ENOSR => "No STREAM resources"
  | ENOSTR => "Not a STREAM"
  | ENOSYS => "Not implemented"
  | ENOTBLK => "Block device required"
  | ENOTCONN => "Transport endpoint is not connected"
  | ENOTDIR => "Not a directory"
  | ENOTEMPTY => "Directory not empty"
  | ENOTRECOVERABLE => "State not recoverable"
  | ENOTSOCK => "Not a socket"
  | ENOTSUP => "Not supported"
  | ENOTTY => "Iappropriate I/O control operation"
  | ENXIO => "No such device of address"
  | EOPNOTSUPP => "Operation not supported on socket"
  | EOVERFLOW => "Value too large to be stored in data type"
  | EOWNERDEAD => "Previous owner died"
  | EPERM => "Operation not permitted"
  | EPIPE => "Broken pipe"
  | EPROTO => "Protocol error"
  | EPROTONOSUPPORT => "Protocol not supported"
  | EPROTOTYPE => "Protocol wrong type for socket"
  | ERANGE => "Result too large"
  | EROFS => "Read-only filesystem"
  | ESPIPE => "Invalid seek"
  | ESHUTDOWN => "Cannot send after transport endpoint shutdown"
  | ESOCKTNOSUPPORT => "Socket type not supported"
  | ESRCH => "No such process"
  | ETIMEDOUT => "Connection timed out"
  end.

(** [error_names], 128 pointers: the entries behind the last code are null. *)
Definition error_names : list (option string) :=
  ((λ e, Some (error_name e)) <$> error_codes) ++ replicate (128 - length error_codes) None.

(** [strerror]: a pointer, possibly null. *)
Definition strerror (code : Z) : outcome (option string) :=
  if code <? 0 then Done (Some "Unknown") else error_names.[code].

(** Every code has its description. *)
Lemma strerror_names e : strerror (error_code e) = Done (Some (error_name e)).
Proof. by destruct e. Qed.

(** Codes are numbered apart, from 0 for [ENONE] on. *)
Lemma error_code_at e : error_codes !! Z.to_nat (error_code e) = Some e.
Proof. by destruct e. Qed.

Lemma error_code_inj e e' : error_code e = error_code e' → e = e'.
Proof. intros H. pose proof (error_code_at e) as He. rewrite H, error_code_at in He. by injection He. Qed.

(** A code behind the last one has no text: up to 127 the pointer is null, and from
    128 on the table is left. *)
Lemma strerror_unknown code :
  (78 ≤ code < 128 → strerror code = Done None) ∧ (128 ≤ code → strerror code = Fault).
Proof.
  unfold strerror. split; intros Hc; (destruct (Z.ltb_spec code 0); [lia|]).
  - apply rd_Done. split; [lia|]. unfold error_names. rewrite lookup_app_r by (cbn; lia). apply lookup_replicate. split; [done|cbn; lia].
  - apply rd_out. cbn. lia.
Qed.
