(* ===== verification/Locks.v ===== *)
(** * Locks

    [kernel/spinlock.cpp], [kernel/mutex.cpp], [kernel/rwmutex.cpp] and
    [kernel/rwspinlock.cpp]. *)
From S2P Require Import Prelude.
From stdpp Require Import gmap relations functions.
Local Open Scope Z_scope.

(** ** The sequential view

    What one thread observes of a spinlock while no other thread runs.
    [acquire] on a held lock spins until its iteration counter trips the
    [kpanic("spinlock ... hung")]; [release] on a free lock is
    [kpanic("spinlock: Too many releases")].  The components that guard their
    state with a spinlock carry the lock bit and use these two operations, so
    a path that forgets a release, releases twice or re-acquires a lock it
    holds is visible in its outcome. *)

Definition spin_acquire (m_lock : bool) : outcome bool :=
  if m_lock then Panic "spinlock hung" else Done true.

Definition spin_release (m_lock : bool) : outcome bool :=
  if m_lock then Done false else Panic "spinlock: Too many releases".

(** ** Locks under interleaving

    [Spinlock] and [Mutex] at the granularity of their atomic operations.
    Every thread runs calls on the lock one after the other; a step is one
    access to the lock or to the thread's own counters.  [guard] is what the
    calls on this lock add to the thread's [m_critical] or [m_busy]. *)
Record lock_state (PC : Type) := mk_lock {
  m_lock : bool;
  m_thread : option nat;
  guard : nat → Z;
  held_mutexes : nat → Z;
  at_ : nat → PC;
}.
Arguments mk_lock {PC}. Arguments m_lock {PC}. Arguments m_thread {PC}.
Arguments guard {PC}. Arguments held_mutexes {PC}. Arguments at_ {PC}.

Definition add_at (f : nat → Z) (t : nat) (d : Z) : nat → Z := <[t := f t + d]> f.

Lemma fn_update {A} (f : nat → A) (t u : nat) (a : A) : <[t := a]> f u = if decide (t = u) then a else f u.
Proof.
  destruct (decide (t = u)) as [->|]; [by rewrite fn_lookup_insert|by rewrite fn_lookup_insert_ne].
Qed.

Section Exclusion.
Context {PC : Type} (owns raised : PC → bool).

(** The lock is taken exactly when a thread owns it, at most one does, and the
    guard counter of a thread is raised exactly inside a call that holds or is
    trying the lock. *)
Definition lock_inv (s : lock_state PC) : Prop :=
  (m_lock s = true ↔ ∃ t, owns (at_ s t) = true) ∧
  (∀ t u, owns (at_ s t) = true → owns (at_ s u) = true → t = u) ∧
  (∀ t, guard s t = if raised (at_ s t) then 1 else 0).

(** A step that moves one thread, keeping the lock and who owns it. *)
Lemma inv_keep s t p th h d :
  lock_inv s → owns p = owns (at_ s t) → d = (if raised p then 1 else 0) - (if raised (at_ s t) then 1 else 0) →
  lock_inv (mk_lock (m_lock s) th (add_at (guard s) t d) h (<[t := p]> (at_ s))).
Proof.
  intros (Hlk & Hone & Hcr) Hp Hd.
  assert (Howns : ∀ u, owns (<[t := p]> (at_ s) u) = owns (at_ s u)).
  { intros u. rewrite fn_update. by destruct (decide (t = u)) as [<-|]. }
  unfold lock_inv; simpl. split_and!.
  - rewrite Hlk. split; intros [u Hu]; exists u; [by rewrite Howns|by rewrite Howns in Hu].
  - intros u v. rewrite !Howns. apply Hone.
  - intros u. unfold add_at. rewrite !fn_update. destruct (decide (t = u)) as [<-|]; [rewrite Hcr; lia|apply Hcr].
Qed.

Lemma inv_keep0 s t p th h :
  lock_inv s → owns p = owns (at_ s t) → raised p = raised (at_ s t) →
  lock_inv (mk_lock (m_lock s) th (guard s) h (<[t := p]> (at_ s))).
Proof.
  intros (Hlk & Hone & Hcr) Hp Hr.
  destruct (inv_keep s t p th h 0) as (H1 & H2 & _); [done|done|rewrite Hr; lia|].
  unfold lock_inv; simpl in *. split_and!; [done..|].
  intros u. rewrite fn_update, Hcr. by destruct (decide (t = u)) as [<-|]; [rewrite Hr|].
Qed.

(** Taking and dropping the lock. *)
Lemma inv_take s t p th h :
  lock_inv s → m_lock s = false → owns p = true → raised p = raised (at_ s t) →
  lock_inv (mk_lock true th (guard s) h (<[t := p]> (at_ s))).
Proof.
  intros (Hlk & Hone & Hcr) Hfree Hp Hr.
  assert (Hno : ∀ u, owns (at_ s u) = false).
  { intros u. apply not_true_is_false. intros Hu. rewrite Hfree in Hlk.
    assert (false = true) by (apply Hlk; by exists u). done. }
  assert (Howns : ∀ u, owns (<[t := p]> (at_ s) u) = true → t = u)
    by (intros u; rewrite fn_update; destruct (decide (t = u)); [done|by rewrite Hno]).
  unfold lock_inv; simpl. split_and!.
  - split; [|done]. intros _. exists t. by rewrite fn_lookup_insert.
  - intros u v <-%Howns <-%Howns. done.
  - intros u. rewrite fn_update, Hcr. by destruct (decide (t = u)) as [<-|]; [rewrite Hr|].
Qed.

Lemma inv_drop s t p th h :
  lock_inv s → owns (at_ s t) = true → owns p = false → raised p = raised (at_ s t) →
  lock_inv (mk_lock false th (guard s) h (<[t := p]> (at_ s))).
Proof.
  intros (Hlk & Hone & Hcr) Ht Hp Hr.
  assert (Howns : ∀ u, owns (<[t := p]> (at_ s) u) = false).
  { intros u. rewrite fn_update. destruct (decide (t = u)) as [|Hne]; [done|].
    apply not_true_is_false. intros Hu. by apply Hne, Hone. }
  unfold lock_inv; simpl. split_and!.
  - split; [done|]. intros [u Hu]. by rewrite Howns in Hu.
  - intros u v Hu. by rewrite Howns in Hu.
  - intros u. rewrite fn_update, Hcr. by destruct (decide (t = u)) as [<-|]; [rewrite Hr|].
Qed.

Lemma inv_init p : owns p = false → raised p = false → lock_inv (mk_lock false None (λ _, 0) (λ _, 0) (λ _, p)).
Proof.
  intros Ho Hr. unfold lock_inv; simpl. split_and!.
  - split; [done|]. intros []. congruence.
  - congruence.
  - intros t. by rewrite Hr.
Qed.

End Exclusion.

(** One step of a lock machine preserves the invariant. *)
Ltac lock_step Ht :=
  match goal with
  | |- lock_inv _ _ (mk_lock true _ _ _ _) => eapply inv_take; [done|done|done|by rewrite Ht]
  | |- lock_inv _ _ (mk_lock false _ _ _ _) => eapply inv_drop; [done|by rewrite Ht|done|by rewrite Ht]
  | |- lock_inv _ _ (mk_lock _ _ (add_at _ _ _) _ _) =>
      apply inv_keep; [done|rewrite Ht; try destruct (_ >? _); done|rewrite Ht; try destruct (_ >? _); done]
  | |- _ => apply inv_keep0; [done|by rewrite Ht|by rewrite Ht]
  end.

Module Spinlock.

(** Where a thread is in a call, and [count] of [acquire]. *)
Inductive pc :=
  | Idle
  | Cas (count : Z)        (** before the compare-and-swap of [acquire] *)
  | Failed (count : Z)     (** it failed: before [subCritical] *)
  | Paused (count : Z)     (** before [addCritical] and the next attempt *)
  | SetOwner               (** it succeeded: before [m_thread = current] *)
  | Held
  | TryCas                 (** before the compare-and-swap of [tryAcquire] *)
  | TryFailed              (** before its [subCritical] *)
  | ReleaseSub             (** after the swap of [release]: before [subCritical] *)
  | ReleaseOwner           (** before [m_thread = nullptr] *)
  | RawCas (count : Z)     (** before the compare-and-swap of [acquireRaw] *)
  | RawHeld                (** after [acquireRaw] or [tryAcquireRaw] *)
  | Hung                   (** [kpanic]: the counter ran out *)
  | TooManyReleases.       (** [kpanic]: the lock was free *)

(** [count > 12212222 * 50] in [acquire], [count > 12212222 * 10] in [acquireRaw]. *)
Definition hang_limit : Z := 12212222 * 50.
Definition hang_limit_raw : Z := 12212222 * 10.

(** A step; the swaps of [release] and of [releaseRaw] and [tryReleaseRaw] say which
    thread calls them. *)
Inductive label := Tau | Release (t : nat) | ReleaseRaw (t : nat).

(** Between two calls; a thread that calls [acquire] again while it holds the lock spins
    until the counter runs out ([spin_acquire]) and is left out.  No release asks who
    holds the lock. *)
Definition between (p : pc) : bool := match p with Idle | Held | RawHeld => true | _ => false end.

Inductive step : label → lock_state pc → lock_state pc → Prop :=
  | acquire_start s t :
      at_ s t = Idle →
      step Tau s (mk_lock (m_lock s) (m_thread s) (add_at (guard s) t 1) (held_mutexes s) (<[t := Cas 0]> (at_ s)))
  | acquire_ok s t n :
      at_ s t = Cas n → m_lock s = false →
      step Tau s (mk_lock true (m_thread s) (guard s) (held_mutexes s) (<[t := SetOwner]> (at_ s)))
  | acquire_fail s t n :
      at_ s t = Cas n → m_lock s = true →
      step Tau s (mk_lock (m_lock s) (m_thread s) (guard s) (held_mutexes s) (<[t := Failed n]> (at_ s)))
  | acquire_sub s t n :
      at_ s t = Failed n →
      step Tau s (mk_lock (m_lock s) (m_thread s) (add_at (guard s) t (-1)) (held_mutexes s)
                (<[t := if n + 1 >? hang_limit then Hung else Paused (n + 1)]> (at_ s)))
  | acquire_again s t n :
      at_ s t = Paused n →
      step Tau s (mk_lock (m_lock s) (m_thread s) (add_at (guard s) t 1) (held_mutexes s) (<[t := Cas n]> (at_ s)))
  | acquire_owner s t :
      at_ s t = SetOwner →
      step Tau s (mk_lock (m_lock s) (Some t) (guard s) (held_mutexes s) (<[t := Held]> (at_ s)))
  | try_start s t :
      at_ s t = Idle →
      step Tau s (mk_lock (m_lock s) (m_thread s) (add_at (guard s) t 1) (held_mutexes s) (<[t := TryCas]> (at_ s)))
  | try_ok s t :
      at_ s t = TryCas → m_lock s = false →
      step Tau s (mk_lock true (m_thread s) (guard s) (held_mutexes s) (<[t := Held]> (at_ s)))
  | try_fail s t :
      at_ s t = TryCas → m_lock s = true →
      step Tau s (mk_lock (m_lock s) (m_thread s) (guard s) (held_mutexes s) (<[t := TryFailed]> (at_ s)))
  | try_sub s t :
      at_ s t = TryFailed →
      step Tau s (mk_lock (m_lock s) (m_thread s) (add_at (guard s) t (-1)) (held_mutexes s) (<[t := Idle]> (at_ s)))
  | raw_start s t :
      at_ s t = Idle →
      step Tau s (mk_lock (m_lock s) (m_thread s) (guard s) (held_mutexes s) (<[t := RawCas 0]> (at_ s)))
  | raw_ok s t n :
      at_ s t = RawCas n → m_lock s = false →
      step Tau s (mk_lock true (m_thread s) (guard s) (held_mutexes s) (<[t := RawHeld]> (at_ s)))
  | raw_fail s t n :
      at_ s t = RawCas n → m_lock s = true →
      step Tau s (mk_lock (m_lock s) (m_thread s) (guard s) (held_mutexes s) (<[t := if n + 1 >? hang_limit_raw then Hung else RawCas (n + 1)]> (at_ s)))
  | raw_try_ok s t :
      at_ s t = Idle → m_lock s = false →
      step Tau s (mk_lock true (m_thread s) (guard s) (held_mutexes s) (<[t := RawHeld]> (at_ s)))
  | raw_try_fail s t : at_ s t = Idle → m_lock s = true → step Tau s s
  | release_ok s t :
      between (at_ s t) = true → m_lock s = true →
      step (Release t) s (mk_lock false (m_thread s) (guard s) (held_mutexes s) (<[t := ReleaseSub]> (at_ s)))
  | release_panic s t :
      between (at_ s t) = true → m_lock s = false →
      step (Release t) s (mk_lock (m_lock s) (m_thread s) (guard s) (held_mutexes s) (<[t := TooManyReleases]> (at_ s)))
  | raw_release_ok s t :
      between (at_ s t) = true → m_lock s = true →
      step (ReleaseRaw t) s (mk_lock false (m_thread s) (guard s) (held_mutexes s) (<[t := Idle]> (at_ s)))
  | raw_release_panic s t :
      between (at_ s t) = true → m_lock s = false →
      step (ReleaseRaw t) s (mk_lock (m_lock s) (m_thread s) (guard s) (held_mutexes s) (<[t := TooManyReleases]> (at_ s)))
  | raw_try_release_fail s t :
      between (at_ s t) = true → m_lock s = false → step (ReleaseRaw t) s s
  | release_sub s t :
      at_ s t = ReleaseSub →
      step Tau s (mk_lock (m_lock s) (m_thread s) (add_at (guard s) t (-1)) (held_mutexes s) (<[t := ReleaseOwner]> (at_ s)))
  | release_owner s t :
      at_ s t = ReleaseOwner →
      step Tau s (mk_lock (m_lock s) None (guard s) (held_mutexes s) (<[t := Idle]> (at_ s))).

Definition init : lock_state pc := mk_lock false None (λ _, 0) (λ _, 0) (λ _, Idle).

(** The thread owns the lock; the thread's counter is raised. *)
Definition owns (p : pc) : bool := match p with SetOwner | Held | RawHeld => true | _ => false end.
Definition raised (p : pc) : bool :=
  match p with Cas _ | Failed _ | SetOwner | Held | TryCas | TryFailed | ReleaseSub => true | _ => false end.

(** The discipline of the callers: a thread releases the lock it holds, [release] after
    [acquire] and [tryAcquire], [releaseRaw] and [tryReleaseRaw] after their raw
    counterparts. *)
Definition paired (s s' : lock_state pc) : Prop :=
  ∃ l, step l s s' ∧ match l with Tau => True | Release t => at_ s t = Held | ReleaseRaw t => at_ s t = RawHeld end.

(** An owner finds the lock taken. *)
Lemma owner_locked (s : lock_state pc) t : lock_inv owns raised s → owns (at_ s t) = true → m_lock s = true.
Proof. intros (Hlk & _) Ht. apply Hlk. by exists t. Qed.

Lemma spin_inv_step s s' : paired s s' → lock_inv owns raised s → lock_inv owns raised s'.
Proof.
  intros [l [Hs Hp]] Hinv.
  assert (Hfree : ∀ t, at_ s t = Held ∨ at_ s t = RawHeld → m_lock s = false → False).
  { intros t Ht Hl. rewrite (owner_locked s t) in Hl; [done|done|]. destruct Ht as [-> | ->]; done. }
  destruct Hs as [s t Ht|s t n Ht Hl|s t n Ht Hl|s t n Ht|s t n Ht|s t Ht|s t Ht|s t Ht Hl|s t Ht Hl|s t Ht|s t Ht|s t n Ht Hl|s t n Ht Hl|s t Ht Hl|s t Ht Hl|
    s t _ Hl|s t _ Hl|s t _ Hl|s t _ Hl|s t _ Hl|s t Ht|s t Ht]; try done; try (by destruct (Hfree t); [auto|]); try lock_step Ht; try lock_step Hp.
  apply inv_keep0; [done|rewrite Ht; by destruct (_ >? _)|rewrite Ht; by destruct (_ >? _)].
Qed.

Lemma spin_inv_reachable s : rtc paired init s → lock_inv owns raised s.
Proof.
  intros Hr. apply (rtc_ind_r (lock_inv owns raised) init) in Hr; [done|by apply inv_init|].
  intros x y _ Hxy. by apply spin_inv_step.
Qed.

(** C29 (safety). Mutual exclusion: in every interleaving in which threads release only
    the lock they hold, in the kind they took it, at most one thread owns the spinlock,
    through [acquire], [tryAcquire] or their raw variants; the lock bit is set while it
    does; an owner through [acquire] or [tryAcquire] is critical (so it is neither
    preempted nor killed), one through the raw variants is not made critical; and no step
    takes an owner to the panic for too many releases. *)
Theorem spinlock_exclusion s t u :
  rtc paired init s → owns (at_ s t) = true → owns (at_ s u) = true →
  t = u ∧ m_lock s = true ∧ guard s t = match at_ s t with RawHeld => 0 | _ => 1 end ∧
  ∀ l s', step l s s' → at_ s' t ≠ TooManyReleases.
Proof.
  intros Hr Ht Hu. pose proof (spin_inv_reachable s Hr) as Hinv. pose proof Hinv as (Hlk & Hone & Hcr). pose proof (owner_locked s t Hinv Ht) as Hl.
  split_and!; [by apply Hone|done|rewrite Hcr; by destruct (at_ s t)|].
  intros l s' Hs. destruct Hs; simpl; rewrite ?fn_update; try (case_decide; [subst|]); try congruence; try (by destruct (at_ s t)); try (by destruct (_ >? _)); intros E; by rewrite E in Ht.
Qed.

(** A thread that got the lock through [tryAcquire] holds it with a null owner
    field. *)
Lemma try_leaves_owner_null : ∃ s, rtc paired init s ∧ at_ s 1%nat = Held ∧ m_thread s = None.
Proof.
  eexists. split.
  { eapply rtc_l; [exists Tau; split; [apply (try_start init 1%nat); reflexivity|done]|].
    eapply rtc_l; [exists Tau; split; [eapply (try_ok _ 1%nat); reflexivity|done]|]. apply rtc_refl. }
  split; reflexivity.
Qed.

(** Without the discipline there is no exclusion: [release] does not ask who holds the
    lock, so another thread can release it and take it. *)
Lemma foreign_release_breaks : ∃ s, rtc (λ s s', ∃ l, step l s s') init s ∧ at_ s 1%nat = RawHeld ∧ at_ s 2%nat = RawHeld.
Proof.
  eexists. split.
  { eapply rtc_l; [exists Tau; apply (raw_try_ok init 1%nat); reflexivity|]. eapply rtc_l; [eexists; eapply (raw_release_ok _ 2%nat); reflexivity|].
    eapply rtc_l; [exists Tau; eapply (raw_try_ok _ 2%nat); reflexivity|]. apply rtc_refl. }
  split; reflexivity.
Qed.

Lemma spinlock_exclusion_witness :
  ∃ s, rtc paired init s ∧ at_ s 1%nat = SetOwner ∧ guard s 1%nat = 1.
Proof.
  set (s1 := mk_lock (m_lock init) (m_thread init) (add_at (guard init) 1%nat 1) (held_mutexes init) (<[1%nat := Cas 0]> (at_ init))).
  set (s2 := mk_lock true (m_thread s1) (guard s1) (held_mutexes s1) (<[1%nat := SetOwner]> (at_ s1))).
  assert (Hr : rtc paired init s2).
  { eapply rtc_l; [exists Tau; split; [apply (acquire_start init 1%nat); reflexivity|exact I]|].
    eapply rtc_l; [exists Tau; split; [apply (acquire_ok s1 1%nat 0); reflexivity|exact I]|]. apply rtc_refl. }
  exists s2. split; [exact Hr|]. split; [reflexivity|].
  apply (spinlock_exclusion s2 1%nat 1%nat); [exact Hr|reflexivity|reflexivity].
Defined.

End Spinlock.

Module Mutex.

Inductive pc :=
  | Idle
  | Cas (count : Z)
  | Failed (count : Z)     (** before [subBusy] *)
  | Paused (count : Z)     (** before [addBusy] and the next attempt *)
  | SetOwner | IncHeld     (** before [m_thread = current], before [held_mutexes++] *)
  | Held
  | TryCas | TryFailed | TryOwner | TryInc
  | ReleaseOwner | ReleaseHeld | ReleaseSub  (** after the swap of [release] *)
  | Hung                   (** [kpanic]: the counter ran out *)
  | Assertion.             (** a failed assertion of [release] *)

Definition hang_limit : Z := 12212222 * 50.

Definition move (s : lock_state pc) (t : nat) (p : pc) : lock_state pc :=
  mk_lock (m_lock s) (m_thread s) (guard s) (held_mutexes s) (<[t := p]> (at_ s)).

Inductive step : lock_state pc → lock_state pc → Prop :=
  | acquire_start s t :
      at_ s t = Idle →
      step s (mk_lock (m_lock s) (m_thread s) (add_at (guard s) t 1) (held_mutexes s) (<[t := Cas 0]> (at_ s)))
  | acquire_ok s t n :
      at_ s t = Cas n → m_lock s = false →
      step s (mk_lock true (m_thread s) (guard s) (held_mutexes s) (<[t := SetOwner]> (at_ s)))
  | acquire_fail s t n : at_ s t = Cas n → m_lock s = true → step s (move s t (Failed n))
  | acquire_sub s t n :
      at_ s t = Failed n →
      step s (mk_lock (m_lock s) (m_thread s) (add_at (guard s) t (-1)) (held_mutexes s)
                (<[t := if n + 1 >? hang_limit then Hung else Paused (n + 1)]> (at_ s)))
  | acquire_again s t n :
      at_ s t = Paused n →
      step s (mk_lock (m_lock s) (m_thread s) (add_at (guard s) t 1) (held_mutexes s) (<[t := Cas n]> (at_ s)))
  | acquire_owner s t :
      at_ s t = SetOwner →
      step s (mk_lock (m_lock s) (Some t) (guard s) (held_mutexes s) (<[t := IncHeld]> (at_ s)))
  | acquire_held s t :
      at_ s t = IncHeld →
      step s (mk_lock (m_lock s) (m_thread s) (guard s) (add_at (held_mutexes s) t 1) (<[t := Held]> (at_ s)))
  | try_start s t :
      at_ s t = Idle →
      step s (mk_lock (m_lock s) (m_thread s) (add_at (guard s) t 1) (held_mutexes s) (<[t := TryCas]> (at_ s)))
  | try_ok s t :
      at_ s t = TryCas → m_lock s = false →
      step s (mk_lock true (m_thread s) (guard s) (held_mutexes s) (<[t := TryOwner]> (at_ s)))
  | try_fail s t : at_ s t = TryCas → m_lock s = true → step s (move s t TryFailed)
  | try_sub s t :
      at_ s t = TryFailed →
      step s (mk_lock (m_lock s) (m_thread s) (add_at (guard s) t (-1)) (held_mutexes s) (<[t := Idle]> (at_ s)))
  | try_owner s t :
      at_ s t = TryOwner →
      step s (mk_lock (m_lock s) (Some t) (guard s) (held_mutexes s) (<[t := TryInc]> (at_ s)))
  | try_held s t :
      at_ s t = TryInc →
      step s (mk_lock (m_lock s) (m_thread s) (guard s) (add_at (held_mutexes s) t 1) (<[t := Held]> (at_ s)))
  | release_ok s t :
      at_ s t = Held → guard s t > 0 → m_lock s = true →
      step s (mk_lock false (m_thread s) (guard s) (held_mutexes s) (<[t := ReleaseOwner]> (at_ s)))
  | release_assert s t : at_ s t = Held → guard s t ≤ 0 ∨ m_lock s = false → step s (move s t Assertion)
  | release_owner s t :
      at_ s t = ReleaseOwner →
      step s (mk_lock (m_lock s) None (guard s) (held_mutexes s) (<[t := ReleaseHeld]> (at_ s)))
  | release_held s t :
      at_ s t = ReleaseHeld →
      step s (mk_lock (m_lock s) (m_thread s) (guard s) (add_at (held_mutexes s) t (-1)) (<[t := ReleaseSub]> (at_ s)))
  | release_sub s t :
      at_ s t = ReleaseSub →
      step s (mk_lock (m_lock s) (m_thread s) (add_at (guard s) t (-1)) (held_mutexes s) (<[t := Idle]> (at_ s))).

Definition init : lock_state pc := mk_lock false None (λ _, 0) (λ _, 0) (λ _, Idle).

Definition owns (p : pc) : bool :=
  match p with SetOwner | IncHeld | Held | TryOwner | TryInc => true | _ => false end.
Definition raised (p : pc) : bool :=
  match p with Idle | Paused _ | Hung | Assertion => false | _ => true end.
Definition counted (p : pc) : bool :=
  match p with Held | ReleaseOwner | ReleaseHeld | Assertion => true | _ => false end.

(** The exclusion invariant, and [held_mutexes] counts the mutex while it is
    held. *)
Definition inv (s : lock_state pc) : Prop :=
  lock_inv owns raised s ∧ ∀ t, held_mutexes s t = if counted (at_ s t) then 1 else 0.

Lemma inv_owner s t : inv s → owns (at_ s t) = true → m_lock s = true ∧ guard s t = 1.
Proof.
  intros ((Hlk & _ & Hg) & _) Ht. split; [apply Hlk; by exists t|]. rewrite Hg. by destruct (at_ s t).
Qed.

Lemma mutex_inv_step s s' : step s s' → inv s → inv s'.
Proof.
  intros Hs [Hinv Hheld].
  assert (Hno : ∀ t, at_ s t = Held → guard s t ≤ 0 ∨ m_lock s = false → False).
  { intros t Ht Hor. destruct (inv_owner s t) as [? ?]; [done|by rewrite Ht|]. destruct Hor; [lia|congruence]. }
  split.
  - destruct Hs as [s t Ht|s t n Ht Hl|s t n Ht Hl|s t n Ht|s t n Ht|s t Ht|s t Ht|s t Ht|s t Ht Hl|
      s t Ht Hl|s t Ht|s t Ht|s t Ht|s t Ht Hg Hl|s t Ht Hor|s t Ht|s t Ht|s t Ht]; unfold move; try lock_step Ht.
    by destruct (Hno t).
  - destruct Hs as [s t Ht|s t n Ht Hl|s t n Ht Hl|s t n Ht|s t n Ht|s t Ht|s t Ht|s t Ht|s t Ht Hl|
      s t Ht Hl|s t Ht|s t Ht|s t Ht|s t Ht Hg Hl|s t Ht Hor|s t Ht|s t Ht|s t Ht]; intros u; simpl; unfold add_at;
      rewrite !fn_update; (destruct (decide (t = u)) as [<-|]; [|apply Hheld]);
      rewrite ?Hheld, Ht; try destruct (_ >? _); done.
Qed.

Lemma mutex_inv_reachable s : rtc step init s → inv s.
Proof.
  intros Hr. apply (rtc_ind_r inv init) in Hr; [done| |].
  - split; [by apply inv_init|done].
  - intros x y _ Hxy. by apply mutex_inv_step.
Qed.

(** Mutual exclusion for [Mutex]: at most one owner, which is busy
    (so it cannot be killed); a thread's [held_mutexes] is 1 exactly while it
    holds the mutex, and neither assertion of [release] fails. *)
Lemma mutex_exclusion s t u :
  rtc step init s → owns (at_ s t) = true → owns (at_ s u) = true →
  t = u ∧ guard s t = 1 ∧ m_lock s = true ∧ (at_ s t = Held → held_mutexes s t = 1) ∧
  ∀ s', step s s' → ∀ v, at_ s v ≠ Assertion → at_ s' v ≠ Assertion.
Proof.
  intros Hr Ht Hu. pose proof (mutex_inv_reachable s Hr) as Hinv. pose proof Hinv as ((_ & Hone & _) & Hheld).
  destruct (inv_owner s t Hinv Ht) as [Hl Hg]. split_and!; [by apply Hone|done|done| |].
  - intros Hh. by rewrite Hheld, Hh.
  - intros s' Hs v Hv. destruct Hs as [s w|s w|s w|s w n|s w|s w|s w|s w|s w|s w|s w|s w|s w|s w|s w Hw Hor|s w|s w|s w];
      simpl; rewrite fn_update; (destruct (decide (w = v)) as [->|]; [|done]); try done; [by destruct (_ >? _)|].
    destruct (inv_owner s v Hinv) as [? ?]; [by rewrite Hw|]. destruct Hor; [lia|congruence].
Qed.

Lemma mutex_exclusion_witness :
  ∃ s, rtc step init s ∧ at_ s 1%nat = SetOwner ∧ guard s 1%nat = 1.
Proof.
  set (s1 := mk_lock (m_lock init) (m_thread init) (add_at (guard init) 1%nat 1) (held_mutexes init) (<[1%nat := Cas 0]> (at_ init))).
  set (s2 := mk_lock true (m_thread s1) (guard s1) (held_mutexes s1) (<[1%nat := SetOwner]> (at_ s1))).
  assert (Hr : rtc step init s2).
  { eapply rtc_l; [apply (acquire_start init 1%nat); reflexivity|].
    eapply rtc_l; [apply (acquire_ok s1 1%nat 0); reflexivity|]. apply rtc_refl. }
  exists s2. split; [exact Hr|]. split; [reflexivity|].
  apply (mutex_exclusion s2 1%nat 1%nat); [exact Hr|reflexivity|reflexivity].
Defined.

End Mutex.

(** ** Reader-writer locks

    [RWMutex] and [RWSpinlock].  The body of each call between
    [m_lock.acquire()] and [m_lock.release()] is one step; a loop that found
    [m_write] set has changed nothing and tries again, which is [None].  The
    second component is the caller's guard counter ([m_busy] of a thread that
    uses a mutex, [m_critical] for a spinlock). *)
Record rw := mk_rw { m_read : Z; m_write : Z }.

Module RWMutex.

Definition acquire_read (l : rw) (busy : Z) : option (rw * Z) :=
  if negb (m_write l =? 0) then None else Some (mk_rw (i32 (m_read l + 1)) (m_write l), busy + 1).

Definition acquire_write (l : rw) (busy : Z) : option (rw * Z) :=
  if negb (m_write l =? 0) then None else Some (mk_rw (m_read l) (i32 (m_write l + 1)), busy + 1).

Definition tryAcquire_read (l : rw) (busy : Z) : bool * rw * Z :=
  if negb (m_write l =? 0) then (false, l, busy)
  else (true, mk_rw (i32 (m_read l + 1)) (m_write l), busy + 1).

Definition tryAcquire_write (l : rw) (busy : Z) : bool * rw * Z :=
  if negb (m_write l =? 0) then (false, l, busy)
  else (true, mk_rw (m_read l) (i32 (m_write l + 1)), busy + 1).

Definition upgrade (l : rw) (busy : Z) : option (rw * Z) :=
  if negb (m_write l =? 0) then None
  else Some (mk_rw (i32 (m_read l - 1)) (i32 (m_write l + 1)), busy).

Definition downgrade (l : rw) (busy : Z) : rw * Z :=
  (mk_rw (i32 (m_read l + 1)) (i32 (m_write l - 1)), busy).

Definition release_read (l : rw) (busy : Z) : outcome (rw * Z) :=
  _ ← aex_assert (m_read l >? 0); Done (mk_rw (i32 (m_read l - 1)) (m_write l), busy - 1).

Definition release_write (l : rw) (busy : Z) : outcome (rw * Z) :=
  _ ← aex_assert (m_write l >? 0); Done (mk_rw (m_read l) (i32 (m_write l - 1)), busy - 1).

End RWMutex.

Module RWSpinlock.

Definition acquire_read (l : rw) (critical : Z) : option (rw * Z) :=
  if negb (m_write l =? 0) then None else Some (mk_rw (i32 (m_read l + 1)) (m_write l), critical + 1).

Definition acquire_write (l : rw) (critical : Z) : option (rw * Z) :=
  if negb (m_write l =? 0) then None else Some (mk_rw (m_read l) (i32 (m_write l + 1)), critical + 1).

Definition upgrade (l : rw) (critical : Z) : option (rw * Z) :=
  if negb (m_write l =? 0) then None
  else Some (mk_rw (i32 (m_read l - 1)) (i32 (m_write l + 1)), critical).

Definition downgrade (l : rw) (critical : Z) : rw * Z :=
  (mk_rw (i32 (m_read l + 1)) (i32 (m_write l - 1)), critical).

Definition release_read (l : rw) (critical : Z) : outcome (rw * Z) :=
  _ ← aex_assert (m_read l >? 0); Done (mk_rw (i32 (m_read l - 1)) (m_write l), critical - 1).

Definition release_write (l : rw) (critical : Z) : outcome (rw * Z) :=
  _ ← aex_assert (m_write l >? 0); Done (mk_rw (m_read l) (i32 (m_write l - 1)), critical - 1).

End RWSpinlock.

Module RWLock.

(** The lock and the sets of threads that hold it for reading and for writing;
    threads release only what they hold.  The spinlock's operations are the
    mutex's with the other counter, so one system covers both. *)
Record state := mk_state { lock : rw; readers : gset nat; writers : gset nat }.

(** [n] bounds the thread numbers. *)
Inductive step (n : nat) : state → state → Prop :=
  | do_acquire_read s t l c :
      (t < n)%nat → t ∉ readers s → t ∉ writers s → RWMutex.acquire_read (lock s) 0 = Some (l, c) →
      step n s (mk_state l ({[t]} ∪ readers s) (writers s))
  | do_acquire_write s t l c :
      (t < n)%nat → t ∉ readers s → t ∉ writers s → RWMutex.acquire_write (lock s) 0 = Some (l, c) →
      step n s (mk_state l (readers s) ({[t]} ∪ writers s))
  | do_upgrade s t l c :
      t ∈ readers s → t ∉ writers s → RWMutex.upgrade (lock s) 0 = Some (l, c) →
      step n s (mk_state l (readers s ∖ {[t]}) ({[t]} ∪ writers s))
  | do_downgrade s t l c :
      (t < n)%nat → t ∈ writers s → t ∉ readers s → RWMutex.downgrade (lock s) 0 = (l, c) →
      step n s (mk_state l ({[t]} ∪ readers s) (writers s ∖ {[t]}))
  | do_release_read s t l c :
      t ∈ readers s → RWMutex.release_read (lock s) 1 = Done (l, c) →
      step n s (mk_state l (readers s ∖ {[t]}) (writers s))
  | do_release_write s t l c :
      t ∈ writers s → RWMutex.release_write (lock s) 1 = Done (l, c) →
      step n s (mk_state l (readers s) (writers s ∖ {[t]})).

Definition init : state := mk_state (mk_rw 0 0) ∅ ∅.

(** The counters count the holders, and there is at most one writer. *)
Definition inv (n : nat) (s : state) : Prop :=
  m_read (lock s) = Z.of_nat (size (readers s)) ∧ m_write (lock s) = Z.of_nat (size (writers s)) ∧
  (size (writers s) ≤ 1)%nat ∧ readers s ⊆ set_seq 0 n.

Lemma size_add (X : gset nat) t : t ∉ X → size ({[t]} ∪ X) = S (size X).
Proof. intros. rewrite size_union by set_solver. by rewrite size_singleton. Qed.
Lemma size_del (X : gset nat) t : t ∈ X → size (X ∖ {[t]}) = (size X - 1)%nat ∧ (0 < size X)%nat.
Proof.
  intros Ht. split; [by rewrite size_difference, size_singleton by set_solver|].
  apply Nat.neq_0_lt_0. intros H0%size_empty_inv. set_solver.
Qed.

Lemma readers_bound n (X : gset nat) : X ⊆ set_seq 0 n → (size X ≤ n)%nat.
Proof.
  intros H. apply subseteq_size in H. by rewrite size_set_seq in H.
Qed.

Lemma rw_inv_step n s s' : Z.of_nat n < 2 ^ 31 - 1 → step n s s' → inv n s → inv n s'.
Proof.
  intros Hn Hs (Hr & Hw & Hone & Hsub). pose proof (readers_bound n _ Hsub) as Hb.
  destruct Hs as [s t l c Htn Ht Htw Hop|s t l c Htn Ht Htw Hop|s t l c Ht Htw Hop|s t l c Htn Ht Htr Hop|s t l c Ht Hop|s t l c Ht Hop];
    unfold inv; cbn [lock readers writers].
  - unfold RWMutex.acquire_read in Hop. destruct (Z.eqb_spec (m_write (lock s)) 0); [|done]. injection Hop as <- <-.
    rewrite size_add by done. simpl. rewrite swrap_small by lia. split_and!; [lia|done|done|].
    intros u. rewrite elem_of_union, elem_of_singleton, elem_of_set_seq. intros [->|Hu]; [lia|]. apply Hsub in Hu. by apply elem_of_set_seq in Hu.
  - unfold RWMutex.acquire_write in Hop. destruct (Z.eqb_spec (m_write (lock s)) 0); [|done]. injection Hop as <- <-.
    rewrite size_add by done. simpl. rewrite swrap_small by lia. split_and!; [done|lia|lia|done].
  - unfold RWMutex.upgrade in Hop. destruct (Z.eqb_spec (m_write (lock s)) 0); [|done]. injection Hop as <- <-.
    destruct (size_del _ _ Ht) as [-> ?]. rewrite size_add by done. simpl. rewrite !swrap_small by lia.
    split_and!; [lia|lia|lia|set_solver].
  - unfold RWMutex.downgrade in Hop. injection Hop as <- <-. destruct (size_del _ _ Ht) as [-> ?].
    rewrite size_add by done. simpl. rewrite !swrap_small by lia. split_and!; [lia|lia|lia|].
    intros u. rewrite elem_of_union, elem_of_singleton, elem_of_set_seq. intros [->|Hu]; [lia|]. apply Hsub in Hu. by apply elem_of_set_seq in Hu.
  - unfold RWMutex.release_read in Hop. apply bind_Done in Hop as ([] & _ & [= <- <-]).
    destruct (size_del _ _ Ht) as [-> ?]. simpl. rewrite swrap_small by lia. split_and!; [lia|done|done|set_solver].
  - unfold RWMutex.release_write in Hop. apply bind_Done in Hop as ([] & _ & [= <- <-]).
    destruct (size_del _ _ Ht) as [-> ?]. simpl. rewrite swrap_small by lia. split_and!; [done|lia|lia|done].
Qed.

Lemma rw_inv_reachable n s : Z.of_nat n < 2 ^ 31 - 1 → rtc (step n) init s → inv n s.
Proof.
  intros Hn Hr. apply (rtc_ind_r (inv n) init) in Hr; [done| |].
  - split_and!; [done|done|by vm_compute; lia|set_solver].
  - intros x y _ Hxy. by apply rw_inv_step.
Qed.

(** Reader-writer locks: in every reachable state the counters
    count the readers and the writers, two threads never both hold the lock for
    writing, and the assertion of a holder's release never fails. *)
Lemma rwlock_single_writer n s :
  Z.of_nat n < 2 ^ 31 - 1 → rtc (step n) init s →
  m_read (lock s) = Z.of_nat (size (readers s)) ∧ m_write (lock s) = Z.of_nat (size (writers s)) ∧
  (∀ t u, t ∈ writers s → u ∈ writers s → t = u) ∧
  (∀ t, t ∈ readers s → ∃ l, RWMutex.release_read (lock s) 1 = Done (l, 0)) ∧
  (∀ t, t ∈ writers s → ∃ l, RWSpinlock.release_write (lock s) 1 = Done (l, 0)).
Proof.
  intros Hn Hr. destruct (rw_inv_reachable n s Hn Hr) as (Hm & Hw & Hone & Hsub). split_and!; [done|done| | |].
  - intros t u Ht Hu. destruct (decide (t = u)) as [|Hne]; [done|].
    assert (({[t; u]} : gset nat) ⊆ writers s) as H%subseteq_size by set_solver.
    rewrite size_union, !size_singleton in H by set_solver. lia.
  - intros t [_ ?]%size_del. unfold RWMutex.release_read. rewrite Hm.
    destruct (Z.gtb_spec (Z.of_nat (size (readers s))) 0); [|lia]. by eexists.
  - intros t [_ ?]%size_del. unfold RWSpinlock.release_write. rewrite Hw.
    destruct (Z.gtb_spec (Z.of_nat (size (writers s))) 0); [|lia]. by eexists.
Qed.

(** Deviation: [acquire_write] looks only at [m_write], so it succeeds
    while readers hold the lock: with any set of readers and no writer, the next
    [acquire_write], of either lock, returns at once. *)
Lemma writer_ignores_readers n s t :
  Z.of_nat n < 2 ^ 31 - 1 → rtc (step n) init s → (t < n)%nat → writers s = ∅ → t ∉ readers s →
  RWSpinlock.acquire_write (lock s) 0 = RWMutex.acquire_write (lock s) 0 ∧
  ∃ s', rtc (step n) init s' ∧ readers s' = readers s ∧ t ∈ writers s'.
Proof.
  intros Hn Hr Ht Hw Htr. split; [done|]. destruct (rw_inv_reachable n s Hn Hr) as (_ & Hmw & _).
  rewrite Hw, size_empty in Hmw.
  exists (mk_state (mk_rw (m_read (lock s)) 1) (readers s) ({[t]} ∪ writers s)).
  split; [|split; [done|simpl; set_solver]]. eapply rtc_r; [exact Hr|].
  apply (do_acquire_write n s t _ 1); [done|done|rewrite Hw; set_solver|].
  unfold RWMutex.acquire_write. by rewrite Hmw.
Qed.

(** One reader. *)
Definition one_reader : state := mk_state (mk_rw 1 0) ({[1%nat]} ∪ ∅) ∅.

Lemma one_reader_reachable : rtc (step 4) init one_reader.
Proof. apply rtc_once, (do_acquire_read 4 init 1%nat (mk_rw 1 0) 1); [lia|set_solver|set_solver|done]. Qed.

Lemma rwlock_single_writer_witness : m_read (lock one_reader) = Z.of_nat (size (readers one_reader)).
Proof. apply (rwlock_single_writer 4 one_reader); [lia|apply one_reader_reachable]. Defined.

Lemma writer_ignores_readers_witness :
  ∃ s', rtc (step 4) init s' ∧ readers s' = readers one_reader ∧ 2%nat ∈ writers s'.
Proof.
  apply (writer_ignores_readers 4 one_reader 2%nat);
    [lia|apply one_reader_reachable|lia|reflexivity|apply (bool_decide_unpack _); vm_compute; exact I].
Defined.

End RWLock.
