(* ===== verification/Bitmap.v ===== *)
(** * Allocation bitmaps

    The frame allocator ([mem/frame_piece.hpp]) and the heap slabs
    ([mem/heap.cpp]) both keep an array of 32-bit words with one bit per unit
    and walk it with a word index and a bit index.  This file holds what the
    two share: the bit view of a word array, the cursor step, ranges, the
    first-fit specification, and the lemmas that relate word updates to the
    bit view. *)
From S2P Require Import Prelude.
Local Open Scope Z_scope.

(** Bit [i] of the array, [false] outside it. *)
Definition bit_at (ws : list Z) (i : Z) : bool :=
  match ws !! Z.to_nat (i / 32) with
  | Some w => Z.testbit w (i mod 32)
  | None => false
  end.

(** Every entry is a [uint32_t]. *)
Definition words (ws : list Z) : Prop := Forall (λ w, 0 ≤ w < 2 ^ 32) ws.

Definition bits_len (ws : list Z) : Z := 32 * Z.of_nat (length ws).

(** [uint32_t tmp = 1 << ib] *)
Definition bit_mask (ib : Z) : Z := u32 (Z.shiftl 1 ib).

(** [ib++; if (ib >= 32) { ii++; ib = 0; }] with an [ib] of [w] bits. *)
Definition advance (w ii ib : Z) : Z * Z :=
  let ib := wrap w (ib + 1) in
  if ib >=? 32 then (u32 (ii + 1), 0) else (ii, ib).

(** Units [s .. s + n - 1] are free (taken). *)
Definition free_run (ws : list Z) (s n : Z) : Prop :=
  ∀ j, s ≤ j < s + n → bit_at ws j = false.
Definition taken_run (ws : list Z) (s n : Z) : Prop :=
  ∀ j, s ≤ j < s + n → bit_at ws j = true.

(** [j] is one of [s .. s + n - 1]. *)
Definition in_run (s n j : Z) : bool := (s <=? j) && (j <? s + n).

(** What an allocator's search promises: the lowest start of a free run of
    [amount] units inside the first [size] units. *)
Definition first_fit (ws : list Z) (size amount s : Z) : Prop :=
  0 ≤ s ∧ s + amount ≤ size ∧ free_run ws s amount ∧
  ∀ s', 0 ≤ s' < s → ¬ free_run ws s' amount.

(** ** Bits of words *)

Lemma bit_mask_pow ib : 0 ≤ ib < 32 → bit_mask ib = 2 ^ ib.
Proof.
  intros. unfold bit_mask. rewrite Z.shiftl_1_l. apply wrap_small.
  split; [lia|]. apply Z.pow_lt_mono_r; lia.
Qed.

Lemma land_mask_zero w ib :
  0 ≤ ib < 32 → (Z.land w (bit_mask ib) =? 0) = negb (Z.testbit w ib).
Proof.
  intros Hib. rewrite bit_mask_pow by done.
  destruct (Z.testbit w ib) eqn:Hb; simpl.
  - apply Z.eqb_neq. intros H.
    apply (f_equal (λ z, Z.testbit z ib)) in H.
    rewrite Z.land_spec, Hb, Z.pow2_bits_true, Z.bits_0 in H by lia. done.
  - apply Z.eqb_eq. apply Z.bits_inj'. intros k Hk.
    rewrite Z.land_spec, Z.bits_0, Z.pow2_bits_eqb by lia.
    destruct (Z.eqb_spec ib k); subst; [by rewrite Hb|apply andb_false_r].
Qed.

Lemma lor_mask_testbit w ib k :
  0 ≤ ib < 32 → 0 ≤ k →
  Z.testbit (Z.lor w (bit_mask ib)) k = Z.testbit w k || (ib =? k).
Proof. intros. rewrite bit_mask_pow, Z.lor_spec, Z.pow2_bits_eqb by lia. done. Qed.

Lemma clear_mask_testbit w ib k :
  0 ≤ ib < 32 → 0 ≤ k →
  Z.testbit (Z.land w (Z.lnot (bit_mask ib))) k = Z.testbit w k && negb (ib =? k).
Proof.
  intros. rewrite bit_mask_pow, Z.land_spec, Z.lnot_spec, Z.pow2_bits_eqb by lia. done.
Qed.

Lemma word_testbit_bound w :
  0 ≤ w → (∀ k, 32 ≤ k → Z.testbit w k = false) → w < 2 ^ 32.
Proof. by apply bits_bound. Qed.

Lemma word_high_bits w k : 0 ≤ w < 2 ^ 32 → 32 ≤ k → Z.testbit w k = false.
Proof. by apply high_bits. Qed.

Lemma lor_mask_bound w ib :
  0 ≤ ib < 32 → 0 ≤ w < 2 ^ 32 → 0 ≤ Z.lor w (bit_mask ib) < 2 ^ 32.
Proof.
  intros Hib Hw.
  assert (0 ≤ Z.lor w (bit_mask ib)).
  { apply Z.lor_nonneg. split; [lia|]. rewrite bit_mask_pow by done. lia. }
  split; [done|]. apply word_testbit_bound; [done|].
  intros k Hk. rewrite lor_mask_testbit, word_high_bits by lia.
  simpl. apply Z.eqb_neq. lia.
Qed.

Lemma clear_mask_bound w ib :
  0 ≤ ib < 32 → 0 ≤ w < 2 ^ 32 → 0 ≤ Z.land w (Z.lnot (bit_mask ib)) < 2 ^ 32.
Proof.
  intros Hib Hw.
  assert (0 ≤ Z.land w (Z.lnot (bit_mask ib))) by (apply Z.land_nonneg; lia).
  split; [done|]. apply word_testbit_bound; [done|].
  intros k Hk. by rewrite clear_mask_testbit, word_high_bits by lia.
Qed.

(** ** Bits of arrays *)

Lemma cursor_div ii ib : 0 ≤ ib < 32 → (32 * ii + ib) / 32 = ii.
Proof. intros. rewrite Z.mul_comm, Z.div_add_l, Z.div_small by lia. lia. Qed.

Lemma cursor_mod ii ib : 0 ≤ ib < 32 → (32 * ii + ib) mod 32 = ib.
Proof. intros. rewrite Z.add_comm, Z.mul_comm, Z.mod_add, Z.mod_small by lia. lia. Qed.

Lemma bit_at_cursor ws ii ib w :
  0 ≤ ib < 32 → ws !! Z.to_nat ii = Some w → bit_at ws (32 * ii + ib) = Z.testbit w ib.
Proof. intros. unfold bit_at. rewrite cursor_div, cursor_mod by lia. by simplify_option_eq. Qed.

Lemma bit_at_out ws i : bits_len ws ≤ i → bit_at ws i = false.
Proof.
  intros Hi. unfold bit_at, bits_len in *.
  rewrite lookup_ge_None_2; [done|].
  assert (Z.of_nat (length ws) ≤ i / 32) by (apply Z.div_le_lower_bound; lia). lia.
Qed.

Lemma bit_at_update ws ii w w' b j ib :
  0 ≤ ii → 0 ≤ ib < 32 → ws !! Z.to_nat ii = Some w → 0 ≤ j →
  (∀ k, 0 ≤ k < 32 → Z.testbit w' k = if ib =? k then b else Z.testbit w k) →
  bit_at (<[Z.to_nat ii := w']> ws) j =
    if 32 * ii + ib =? j then b else bit_at ws j.
Proof.
  intros Hii Hib Hw Hj Hk.
  assert (Hlen : (Z.to_nat ii < length ws)%nat) by (by eapply lookup_lt_Some).
  pose proof (Z.div_mod j 32 ltac:(lia)) as Hdm.
  pose proof (Z.mod_pos_bound j 32 ltac:(lia)).
  pose proof (Z.div_pos j 32 ltac:(lia) ltac:(lia)).
  unfold bit_at. destruct (decide (ii = j / 32)) as [->|Hne].
  - rewrite list_lookup_insert_eq, Hw, Hk by done.
    destruct (Z.eqb_spec ib (j mod 32)), (Z.eqb_spec (32 * (j / 32) + ib) j); lia || done.
  - rewrite list_lookup_insert_ne by lia.
    destruct (Z.eqb_spec (32 * ii + ib) j) as [<-|]; [|done].
    exfalso. apply Hne. by rewrite cursor_div.
Qed.

Lemma bit_at_set ws ii ib w j :
  0 ≤ ii → 0 ≤ ib < 32 → ws !! Z.to_nat ii = Some w → 0 ≤ j →
  bit_at (<[Z.to_nat ii := Z.lor w (bit_mask ib)]> ws) j =
    if 32 * ii + ib =? j then true else bit_at ws j.
Proof.
  intros. eapply bit_at_update; [done..|]. intros k Hk.
  rewrite lor_mask_testbit by lia.
  destruct (ib =? k); [apply orb_true_r | apply orb_false_r].
Qed.

Lemma bit_at_clear ws ii ib w j :
  0 ≤ ii → 0 ≤ ib < 32 → ws !! Z.to_nat ii = Some w → 0 ≤ j →
  bit_at (<[Z.to_nat ii := Z.land w (Z.lnot (bit_mask ib))]> ws) j =
    if 32 * ii + ib =? j then false else bit_at ws j.
Proof.
  intros. eapply bit_at_update; [done..|]. intros k Hk.
  rewrite clear_mask_testbit by lia.
  destruct (ib =? k); [apply andb_false_r | apply andb_true_r].
Qed.

Lemma bit_at_zero n j : bit_at (replicate n 0) j = false.
Proof.
  unfold bit_at. destruct (replicate n 0 !! Z.to_nat (j / 32)) as [w|] eqn:E; [|done].
  apply lookup_replicate in E as [-> _]. apply Z.bits_0.
Qed.

Lemma words_insert ws i w : words ws → 0 ≤ w < 2 ^ 32 → words (<[i := w]> ws).
Proof. intros. by apply Forall_insert. Qed.

Lemma words_lookup ws i w : words ws → ws !! i = Some w → 0 ≤ w < 2 ^ 32.
Proof. intros Hws Hi. exact (Forall_lookup_1 _ _ _ _ Hws Hi). Qed.

(** Two word arrays of one length with the same bits are equal. *)
Lemma bitmap_ext ws ws' :
  words ws → words ws' → length ws = length ws' →
  (∀ j, 0 ≤ j → bit_at ws j = bit_at ws' j) → ws = ws'.
Proof.
  intros Hws Hws' Hlen Hbits. apply list_eq. intros i.
  destruct (ws !! i) as [w|] eqn:Hi.
  - destruct (lookup_lt_is_Some_2 ws' i) as [w' Hi'];
      [apply lookup_lt_Some in Hi; lia|].
    rewrite Hi'. f_equal. apply Z.bits_inj'. intros k Hk.
    destruct (Z.lt_ge_cases k 32).
    + specialize (Hbits (32 * Z.of_nat i + k) ltac:(lia)).
      rewrite (bit_at_cursor ws _ _ w), (bit_at_cursor ws' _ _ w') in Hbits
        by (lia || by rewrite Nat2Z.id). done.
    + rewrite (word_high_bits w), (word_high_bits w'); [done|..];
        first [lia | by eapply words_lookup; [|eassumption]].
  - symmetry. apply lookup_ge_None. rewrite <-Hlen. by apply lookup_ge_None.
Qed.

(** ** The cursor *)

(** [ii] and [ib] address unit [i]. *)
Definition cursor (i ii ib : Z) : Prop := i = 32 * ii + ib ∧ 0 ≤ ii < 2 ^ 32 - 1 ∧ 0 ≤ ib < 32.

Lemma advance_cursor w i ii ib :
  6 ≤ w → cursor i ii ib → i + 1 < 32 * (2 ^ 32 - 1) →
  ∃ ii' ib', advance w ii ib = (ii', ib') ∧ cursor (i + 1) ii' ib'.
Proof.
  intros Hw (-> & Hii & Hib) Hi. unfold advance.
  assert (2 ^ 6 ≤ 2 ^ w) by (apply Z.pow_le_mono_r; lia).
  rewrite (wrap_small w) by lia. rewrite Z.geb_leb.
  destruct (Z.leb_spec 32 (ib + 1)).
  - eexists _, _; split; [done|]. rewrite wrap_small by lia. unfold cursor. lia.
  - eexists _, _; split; [done|]. unfold cursor. lia.
Qed.

Lemma cursor_start i :
  0 ≤ i < 32 * (2 ^ 32 - 1) → cursor i (i / 32) (i mod 32).
Proof.
  intros. pose proof (Z.div_mod i 32 ltac:(lia)).
  pose proof (Z.mod_pos_bound i 32 ltac:(lia)).
  assert (0 ≤ i / 32) by (apply Z.div_pos; lia).
  unfold cursor. lia.
Qed.

Lemma cursor_word ws i ii ib :
  cursor i ii ib → i < bits_len ws →
  ∃ w, ws.[ii] = Done w ∧ ws !! Z.to_nat ii = Some w ∧ bit_at ws i = Z.testbit w ib.
Proof.
  intros (-> & Hii & Hib) Hi. unfold bits_len in Hi.
  destruct (rd_in_range ws ii ltac:(lia)) as (w & Hrd & Hl).
  exists w. split_and!; [done..|]. by apply bit_at_cursor.
Qed.

(** ** Runs *)

Lemma free_run_cons ws s n :
  0 < n → free_run ws s n ↔ bit_at ws s = false ∧ free_run ws (s + 1) (n - 1).
Proof.
  intros Hn. unfold free_run. split.
  - intros H. split; [apply H; lia|]. intros j Hj. apply H. lia.
  - intros [Hs H] j Hj. destruct (decide (j = s)) as [->|]; [done|]. apply H. lia.
Qed.

Lemma free_run_snoc ws s n :
  0 ≤ n → free_run ws s (n + 1) ↔ free_run ws s n ∧ bit_at ws (s + n) = false.
Proof.
  intros Hn. unfold free_run. split.
  - intros H. split; [intros j Hj; apply H; lia | apply H; lia].
  - intros [H Hs] j Hj. destruct (decide (j = s + n)) as [->|]; [done|]. apply H. lia.
Qed.

Lemma free_run_sub ws s n s' n' :
  free_run ws s n → s ≤ s' → s' + n' ≤ s + n → free_run ws s' n'.
Proof. intros H ?? j Hj. apply H. lia. Qed.

Lemma free_run_blocked ws s n j :
  bit_at ws j = true → s ≤ j < s + n → ¬ free_run ws s n.
Proof. intros Hb Hj H. specialize (H j Hj). congruence. Qed.

Lemma in_run_true s n j : in_run s n j = true ↔ s ≤ j < s + n.
Proof. unfold in_run. lia. Qed.

Lemma in_run_false s n j : in_run s n j = false ↔ ¬ s ≤ j < s + n.
Proof. unfold in_run. lia. Qed.

Lemma in_run_0 s j : in_run s 0 j = false.
Proof. apply in_run_false. lia. Qed.

Lemma in_run_cons s n j : 0 < n → in_run s n j = (s =? j) || in_run (s + 1) (n - 1) j.
Proof. unfold in_run. lia. Qed.

#[export] Hint Resolve free_run_sub words_insert lor_mask_bound clear_mask_bound : aex.

(** ** Scanning

    The state of a first-fit scan that has looked at units [0 .. i-1]: a
    maximal free run of [found < amount] units ends at [i], and no run of
    [amount] units ends before. *)
Definition scan_inv (ws : list Z) (amount i found : Z) : Prop :=
  0 ≤ found < amount ∧ found ≤ i ∧ free_run ws (i - found) found ∧
  (found = i ∨ bit_at ws (i - found - 1) = true) ∧
  (∀ s, 0 ≤ s → s + amount ≤ i → ¬ free_run ws s amount).

Lemma scan_inv_start ws amount : 0 < amount → scan_inv ws amount 0 0.
Proof. intros. split_and!; try lia. intros j Hj; lia. Qed.

(** A taken unit restarts the run. *)
Lemma scan_inv_taken ws amount i found :
  scan_inv ws amount i found → bit_at ws i = true → scan_inv ws amount (i + 1) 0.
Proof.
  intros (Hf & Hfi & Hrun & Hmax & Hnone) Hb. split_and!; try lia.
  - intros j Hj; lia.
  - right. rewrite <-Hb. f_equal. lia.
  - intros s Hs Hs'. destruct (decide (s + amount ≤ i)); [auto|].
    apply (free_run_blocked _ _ _ i); [done|lia].
Qed.

(** A free unit extends the run while it stays short ... *)
Lemma scan_inv_free ws amount i found :
  scan_inv ws amount i found → bit_at ws i = false → found + 1 < amount →
  scan_inv ws amount (i + 1) (found + 1).
Proof.
  intros (Hf & Hfi & Hrun & Hmax & Hnone) Hb Hlt.
  split_and!; try lia.
  - replace (i + 1 - (found + 1)) with (i - found) by lia.
    apply free_run_snoc; [lia|]. split; [done|]. rewrite <-Hb. f_equal. lia.
  - destruct Hmax as [->|Hmax]; [left; lia|right].
    rewrite <-Hmax. f_equal. lia.
  - intros s Hs Hs'. destruct (decide (s + amount ≤ i)); [auto|].
    destruct Hmax as [|Hmax]; [lia|].
    apply (free_run_blocked _ _ _ (i - found - 1)); [done|lia].
Qed.

(** ... and completes the first fit when it is long enough. *)
Lemma scan_inv_hit ws amount i found size :
  scan_inv ws amount i found → bit_at ws i = false → found + 1 = amount → i < size →
  first_fit ws size amount (i - found).
Proof.
  intros (Hf & Hfi & Hrun & Hmax & Hnone) Hb Heq Hi. split_and!; try lia.
  - replace amount with (found + 1) by lia. apply free_run_snoc; [lia|].
    split; [done|]. rewrite <-Hb. f_equal. lia.
  - intros s' Hs'. destruct (decide (s' + amount ≤ i)); [apply Hnone; lia|].
    destruct Hmax as [|Hmax]; [lia|].
    apply (free_run_blocked _ _ _ (i - found - 1)); [done|lia].
Qed.

Lemma scan_inv_none ws amount size found :
  scan_inv ws amount size found → ∀ s, ¬ first_fit ws size amount s.
Proof. intros (_ & _ & _ & _ & Hnone) s (Hs & Hle & Hrun & _). by eapply Hnone. Qed.

Lemma first_fit_unique ws size amount s s' :
  first_fit ws size amount s → first_fit ws size amount s' → s = s'.
Proof.
  intros (? & ? & Hr & Hm) (? & ? & Hr' & Hm').
  destruct (Z.lt_trichotomy s s') as [|[|]]; [|done|].
  - exfalso. apply (Hm' s); [lia|done].
  - exfalso. apply (Hm s'); [lia|done].
Qed.

(** A run inside the array that is free has a first fit at or before it. *)
Lemma first_fit_exists ws size amount s :
  0 ≤ s → s + amount ≤ size → free_run ws s amount → ∃ s', first_fit ws size amount s'.
Proof.
  induction s as [s IH] using (well_founded_induction (Z.lt_wf 0)). intros Hs Hle Hrun.
  assert (Hdec : ∀ n : nat, Z.of_nat n ≤ s →
    (∃ s', 0 ≤ s' < Z.of_nat n ∧ free_run ws s' amount) ∨
    (∀ s', 0 ≤ s' < Z.of_nat n → ¬ free_run ws s' amount)).
  { induction n as [|n IHn]; intros Hn; [right; lia|].
    destruct IHn as [(s' & ? & ?)|Hno]; [lia|left; exists s'; split; [lia|done]|].
    destruct (decide (Forall (λ j, bit_at ws j = false)
      (seqZ (Z.of_nat n) amount))) as [Hall|Hnall].
    - left. exists (Z.of_nat n). split; [lia|].
      intros j Hj. rewrite Forall_forall in Hall. apply Hall, elem_of_seqZ. lia.
    - right. intros s' Hs'. destruct (decide (s' = Z.of_nat n)) as [->|]; [|apply Hno; lia].
      intros Hf. apply Hnall, Forall_forall. intros j Hj%elem_of_seqZ. apply Hf. lia. }
  destruct (Hdec (Z.to_nat s) ltac:(lia)) as [(s' & ? & ?)|Hno].
  - apply (IH s'); [lia|lia|lia|done].
  - exists s. split_and!; [done..|]. intros s' Hs'. apply Hno. lia.
Qed.

(** The first clear unit of a range that has one. *)
Lemma first_clear ws i n :
  (∃ j, i ≤ j < i + Z.of_nat n ∧ bit_at ws j = false) →
  ∃ k, (k < n)%nat ∧ taken_run ws i (Z.of_nat k) ∧ bit_at ws (i + Z.of_nat k) = false.
Proof.
  revert i. induction n as [|n IH]; intros i (j & Hj & Hb); [lia|].
  destruct (bit_at ws i) eqn:E.
  - destruct (IH (i + 1)) as (k & Hk & Ht & Hk').
    { exists j. split; [|done]. destruct (decide (j = i)); [congruence|lia]. }
    exists (S k). split_and!; [lia| |by rewrite <-Hk'; f_equal; lia].
    intros j' Hj'. destruct (decide (j' = i)) as [->|]; [done|]. apply Ht. lia.
  - exists 0%nat. split_and!; [lia|intros j' Hj'; lia|]. rewrite <-E. f_equal. lia.
Qed.

(** ** Clearing bytes *)

(** [memset(bitmap, 0, n)] on the word array, in bytes of a little-endian
    machine: byte [b] of word [k] is byte [4 * k + b] of the memory. *)
Definition zero_bytes (ws : list Z) (n : Z) : list Z :=
  imap (λ k w, let b := 8 * (0 `max` ((n - 4 * Z.of_nat k) `min` 4)) in
               Z.shiftl (Z.shiftr w b) b) ws.

Lemma zero_bytes_length ws n : length (zero_bytes ws n) = length ws.
Proof. apply length_imap. Qed.

Lemma zero_bytes_bit ws n j :
  0 ≤ j → bit_at (zero_bytes ws n) j = if j <? 8 * n then false else bit_at ws j.
Proof.
  intros Hj. unfold bit_at, zero_bytes. rewrite list_lookup_imap.
  destruct (ws !! Z.to_nat (j / 32)) as [w|]; simpl; [|by destruct (j <? 8 * n)].
  pose proof (Z.div_mod j 32 ltac:(lia)). pose proof (Z.mod_pos_bound j 32 ltac:(lia)).
  assert (0 ≤ j / 32) by (apply Z.div_pos; lia). rewrite Z2Nat.id by done.
  set (b := 8 * (0 `max` ((n - 4 * (j / 32)) `min` 4))).
  rewrite Z.shiftl_spec by lia.
  destruct (Z.ltb_spec j (8 * n)).
  - apply Z.testbit_neg_r. subst b. lia.
  - rewrite Z.shiftr_spec; [f_equal; lia|]. subst b. lia.
Qed.

Lemma zero_bytes_words ws n : words ws → words (zero_bytes ws n).
Proof.
  intros Hws. apply Forall_lookup_2. intros i w. unfold zero_bytes.
  rewrite list_lookup_imap. intros (w0 & Hw0 & ->)%fmap_Some.
  pose proof (words_lookup _ _ _ Hws Hw0).
  set (b := 8 * _). assert (0 ≤ b) by lia.
  assert (0 ≤ Z.shiftl (Z.shiftr w0 b) b) by (apply Z.shiftl_nonneg, Z.shiftr_nonneg; lia).
  split; [done|]. apply word_testbit_bound; [done|]. intros k Hk.
  rewrite Z.shiftl_spec by lia.
  destruct (Z.lt_ge_cases k b); [apply Z.testbit_neg_r; lia|].
  rewrite Z.shiftr_spec by lia. apply word_high_bits; [done|lia].
Qed.

(** ** Counting free units *)

Fixpoint count_free (ws : list Z) (i : Z) (n : nat) : Z :=
  match n with
  | O => 0
  | S n => (if bit_at ws i then 0 else 1) + count_free ws (i + 1) n
  end.

Lemma count_free_bound ws i n : 0 ≤ count_free ws i n ≤ Z.of_nat n.
Proof.
  revert i. induction n as [|n IH]; intros i; simpl; [lia|].
  specialize (IH (i + 1)). destruct (bit_at ws i); lia.
Qed.

Lemma count_free_app ws i n m :
  count_free ws i (n + m) = count_free ws i n + count_free ws (i + Z.of_nat n) m.
Proof.
  revert i. induction n as [|n IH]; intros i; simpl.
  - replace (i + Z.of_nat 0) with i by lia. lia.
  - rewrite IH. replace (i + 1 + Z.of_nat n) with (i + Z.of_nat (S n)) by lia. lia.
Qed.

Lemma count_free_ext ws ws' i n :
  (∀ j, i ≤ j < i + Z.of_nat n → bit_at ws j = bit_at ws' j) →
  count_free ws i n = count_free ws' i n.
Proof.
  revert i. induction n as [|n IH]; intros i H; simpl; [done|].
  rewrite H by lia. rewrite (IH (i + 1)); [done|]. intros j Hj. apply H. lia.
Qed.

Lemma count_free_run ws i n : free_run ws i (Z.of_nat n) → count_free ws i n = Z.of_nat n.
Proof.
  revert i. induction n as [|n IH]; intros i H; simpl; [done|].
  apply free_run_cons in H as [-> H]; [|lia].
  rewrite IH; [lia|]. eapply free_run_sub; [done|lia|lia].
Qed.

Lemma count_free_ge ws size s n :
  0 ≤ s → 0 ≤ n → s + n ≤ Z.of_nat size → free_run ws s n → n ≤ count_free ws 0 size.
Proof.
  intros Hs Hn Hle Hrun.
  assert (size = (Z.to_nat s + (Z.to_nat n + (size - Z.to_nat (s + n)))))%nat as -> by lia.
  rewrite !count_free_app, !Z.add_0_l, !Z2Nat.id by lia.
  rewrite (count_free_run ws s) by (by rewrite Z2Nat.id by lia).
  pose proof (count_free_bound ws 0 (Z.to_nat s)).
  pose proof (count_free_bound ws (s + n) (size - Z.to_nat (s + n))). lia.
Qed.

Lemma count_taken_run ws i n : taken_run ws i (Z.of_nat n) → count_free ws i n = 0.
Proof.
  revert i. induction n as [|n IH]; intros i H; simpl; [done|].
  rewrite (H i) by lia. rewrite IH; [done|]. intros j Hj. apply H. lia.
Qed.

(** Flipping a free run inside the first [size] units to taken lowers the
    count by its length. *)
Lemma count_free_take ws ws' size s n :
  0 ≤ s → 0 ≤ n → s + n ≤ Z.of_nat size → free_run ws s n →
  (∀ j, 0 ≤ j → bit_at ws' j = bit_at ws j || in_run s n j) →
  count_free ws' 0 size = count_free ws 0 size - n.
Proof.
  intros Hs Hn Hle Hrun Hbits.
  assert (size = (Z.to_nat s + (Z.to_nat n + (size - Z.to_nat (s + n)))))%nat as -> by lia.
  rewrite !count_free_app, !Z.add_0_l, !Z2Nat.id by lia.
  rewrite (count_free_run ws s) by (by rewrite Z2Nat.id by lia).
  rewrite (count_taken_run ws' s).
  2:{ intros j Hj. rewrite Hbits, (proj2 (in_run_true s n j)) by lia. apply orb_true_r. }
  rewrite (count_free_ext ws' ws 0), (count_free_ext ws' ws (s + n)).
  - lia.
  - intros j Hj. rewrite Hbits, (proj2 (in_run_false s n j)) by lia. apply orb_false_r.
  - intros j Hj. rewrite Hbits, (proj2 (in_run_false s n j)) by lia. apply orb_false_r.
Qed.
