(* ===== verification/Phys.v ===== *)
(** * The physical frame allocator

    [mem/frame_piece.hpp] (module [FramePiece]) and [mem/phys.cpp] (module
    [Phys]). *)
From S2P Require Import Prelude Locks Bitmap.
Local Open Scope Z_scope.

Definition PAGE_SIZE : Z := 4096.

(** [ceiltopg<int32_t>] and [ceiltopg<size_t>] of [include/aex/mem/phys.hpp]. *)
Definition ceiltopg_i32 (a : Z) : Z := Z.quot (i32 (a + (PAGE_SIZE - 1))) PAGE_SIZE.
Definition ceiltopg_u64 (a : Z) : Z := u64 (a + (PAGE_SIZE - 1)) / PAGE_SIZE.

Module FramePiece.

(** The linked list of pieces is the list order; [m_bitmap] is the memory
    that follows the struct. *)
Record frame_piece := mk_piece {
  start : Z;
  size : Z;
  frames_free : Z;
  m_bitmap : list Z;
}.

(** [sizeof(frame_piece)]: 8 + 4 + 4 + 8. *)
Definition sizeof_frame_piece : Z := 24.

(** [init] over the memory [mem] the piece was placed on; [next = nullptr] is
    the end of the list. *)
Definition init (mem : list Z) (addr amnt : Z) : outcome frame_piece :=
  if amnt / 8 <=? 4 * Z.of_nat (length mem)
  then Done (mk_piece addr amnt amnt (zero_bytes mem (amnt / 8)))
  else Fault.

Fixpoint alloc_loop (n : nat) (bm : list Z) (ii ib : Z) : outcome (list Z) :=
  match n with
  | O => Done bm
  | S n =>
      let tmp := bit_mask ib in
      w ← bm.[ii];
      _ ← aex_assert (Z.land w tmp =? 0);
      bm ← bm.[ii := Z.lor w tmp];
      let '(ii, ib) := advance 16 ii ib in
      alloc_loop n bm ii ib
  end.

Definition alloc (p : frame_piece) (lid amount : Z) : outcome frame_piece :=
  let ii := u32 (u64 lid / 32) in
  let ib := u16 (u64 lid mod 32) in
  bm ← alloc_loop (Z.to_nat amount) (m_bitmap p) ii ib;
  Done (mk_piece (start p) (size p) (u32 (frames_free p - amount)) bm).

Fixpoint free_loop (n : nat) (bm : list Z) (ii ib : Z) : outcome (list Z) :=
  match n with
  | O => Done bm
  | S n =>
      let tmp := bit_mask ib in
      w ← bm.[ii];
      _ ← aex_assert (negb (Z.land w tmp =? 0));
      bm ← bm.[ii := Z.land w (Z.lnot tmp)];
      let '(ii, ib) := advance 16 ii ib in
      free_loop n bm ii ib
  end.

Definition free (p : frame_piece) (lid amount : Z) : outcome frame_piece :=
  let ii := u32 (u64 lid / 32) in
  let ib := u16 (u64 lid mod 32) in
  bm ← free_loop (Z.to_nat amount) (m_bitmap p) ii ib;
  Done (mk_piece (start p) (size p) (u32 (frames_free p + amount)) bm).

(** The [for] loop of [find]; [n] is [size - i]. *)
Fixpoint find_loop (n : nat) (bm : list Z) (i ii ib found start amount : Z) : outcome Z :=
  match n with
  | O => Done (-1)
  | S n =>
      let tmp := bit_mask ib in
      w ← bm.[ii];
      let '(ii', ib') := advance 16 ii ib in
      if Z.land w tmp =? 0 then
        let start := if start =? -1 then i32 i else start in
        let found := u32 (found + 1) in
        if found =? amount then Done start
        else find_loop n bm (i + 1) ii' ib' found start amount
      else find_loop n bm (i + 1) ii' ib' 0 (-1) amount
  end.

Definition find (p : frame_piece) (amount : Z) : outcome Z :=
  if (amount =? 0) || (amount >? frames_free p) then Done (-1)
  else find_loop (Z.to_nat (size p)) (m_bitmap p) 0 0 0 0 (-1) amount.

(** The invariant: the bitmap covers the piece and [frames_free] counts its
    clear bits. *)
Definition inv (p : frame_piece) : Prop :=
  words (m_bitmap p) ∧ 0 ≤ size p < 2 ^ 31 ∧ size p ≤ bits_len (m_bitmap p) ∧
  frames_free p = count_free (m_bitmap p) 0 (Z.to_nat (size p)).

(** The piece after frames [s .. s + n - 1] were taken. *)
Definition taken_at (p p' : frame_piece) (s n : Z) : Prop :=
  start p' = start p ∧ size p' = size p ∧
  frames_free p' = frames_free p - n ∧
  length (m_bitmap p') = length (m_bitmap p) ∧
  (∀ j, 0 ≤ j → bit_at (m_bitmap p') j =
     bit_at (m_bitmap p) j || in_run s n j).

(** ** Loop lemmas *)

Lemma alloc_loop_spec n bm i ii ib :
  words bm → cursor i ii ib → i + Z.of_nat n ≤ bits_len bm →
  i + Z.of_nat n < 32 * (2 ^ 32 - 1) → free_run bm i (Z.of_nat n) →
  ∃ bm', alloc_loop n bm ii ib = Done bm' ∧ words bm' ∧ length bm' = length bm ∧
    ∀ j, 0 ≤ j → bit_at bm' j = bit_at bm j || in_run i (Z.of_nat n) j.
Proof.
  revert bm i ii ib. induction n as [|n IH]; intros bm i ii ib Hws Hc Hlen Hmax Hrun; simpl.
  { eexists; split_and!; [done..|]. intros j Hj. by rewrite in_run_0, orb_false_r. }
  destruct (cursor_word bm i ii ib Hc) as (w & Hrd & Hlk & Hbit); [lia|].
  apply free_run_cons in Hrun as [Hfree Hrun]; [|lia].
  destruct Hc as (Hi & Hii & Hib). pose proof Hlk as Hlt%lookup_lt_Some.
  rewrite Hrd; simpl. rewrite land_mask_zero, <-Hbit, Hfree by done; simpl.
  rewrite wr_in_range by lia; simpl.
  destruct (advance_cursor 16 i ii ib) as (ii' & ib' & -> & Hc'); [done|done|lia|].
  set (bm1 := <[Z.to_nat ii := Z.lor w (bit_mask ib)]> bm).
  assert (Hb : ∀ j, 0 ≤ j → bit_at bm1 j = if i =? j then true else bit_at bm j)
    by (intros; subst i; apply bit_at_set; auto; lia).
  edestruct (IH bm1 (i + 1) ii' ib') as (bm' & Hal & Hw' & Hl' & Hb').
  - apply words_insert, lor_mask_bound; eauto using words_lookup.
  - exact Hc'.
  - unfold bits_len, bm1 in *. rewrite length_insert. lia.
  - lia.
  - intros j Hj. rewrite Hb by lia. destruct (Z.eqb_spec i j); [lia|]. apply Hrun. lia.
  - exists bm'. split_and!; [done..| |].
    + unfold bm1 in Hl'. by rewrite Hl', length_insert.
    + intros j Hj. rewrite Hb', Hb, (in_run_cons i) by lia.
      replace (Z.of_nat (S n) - 1) with (Z.of_nat n) by lia.
      destruct (Z.eqb_spec i j) as [<-|]; [|done]. by rewrite Hfree.
Qed.

Lemma free_loop_spec n bm i ii ib :
  words bm → cursor i ii ib → i + Z.of_nat n ≤ bits_len bm →
  i + Z.of_nat n < 32 * (2 ^ 32 - 1) → taken_run bm i (Z.of_nat n) →
  ∃ bm', free_loop n bm ii ib = Done bm' ∧ words bm' ∧ length bm' = length bm ∧
    ∀ j, 0 ≤ j → bit_at bm' j = bit_at bm j && negb (in_run i (Z.of_nat n) j).
Proof.
  revert bm i ii ib. induction n as [|n IH]; intros bm i ii ib Hws Hc Hlen Hmax Hrun; simpl.
  { eexists; split_and!; [done..|]. intros j Hj. by rewrite in_run_0, andb_true_r. }
  destruct (cursor_word bm i ii ib Hc) as (w & Hrd & Hlk & Hbit); [lia|].
  pose proof (Hrun i ltac:(lia)) as Htaken.
  destruct Hc as (Hi & Hii & Hib). pose proof Hlk as Hlt%lookup_lt_Some.
  rewrite Hrd; simpl. rewrite land_mask_zero, <-Hbit, Htaken by done; simpl.
  rewrite wr_in_range by lia; simpl.
  destruct (advance_cursor 16 i ii ib) as (ii' & ib' & -> & Hc'); [done|done|lia|].
  set (bm1 := <[Z.to_nat ii := Z.land w (Z.lnot (bit_mask ib))]> bm).
  assert (Hb : ∀ j, 0 ≤ j → bit_at bm1 j = if i =? j then false else bit_at bm j)
    by (intros; subst i; apply bit_at_clear; auto; lia).
  edestruct (IH bm1 (i + 1) ii' ib') as (bm' & Hal & Hw' & Hl' & Hb').
  - apply words_insert, clear_mask_bound; eauto using words_lookup.
  - exact Hc'.
  - unfold bits_len, bm1 in *. rewrite length_insert. lia.
  - lia.
  - intros j Hj. rewrite Hb by lia. destruct (Z.eqb_spec i j); [lia|]. apply Hrun. lia.
  - exists bm'. split_and!; [done..| |].
    + unfold bm1 in Hl'. by rewrite Hl', length_insert.
    + intros j Hj. rewrite Hb', Hb, (in_run_cons i) by lia.
      replace (Z.of_nat (S n) - 1) with (Z.of_nat n) by lia.
      destruct (Z.eqb_spec i j) as [<-|]; [|done]. by rewrite Htaken.
Qed.

(** The loops stop at the first frame in the wrong state. *)
Lemma free_loop_panics n k bm i ii ib :
  words bm → cursor i ii ib → i + Z.of_nat n ≤ bits_len bm →
  i + Z.of_nat n < 32 * (2 ^ 32 - 1) →
  (k < n)%nat → taken_run bm i (Z.of_nat k) → bit_at bm (i + Z.of_nat k) = false →
  free_loop n bm ii ib = Panic "Assertion failed!".
Proof.
  revert n bm i ii ib. induction k as [|k IH]; intros [|n] bm i ii ib Hws Hc Hlen Hmax Hk Hrun Hbad;
    try lia; simpl;
    destruct (cursor_word bm i ii ib Hc) as (w & Hrd & Hlk & Hbit); try lia;
    rewrite Hrd; simpl; (rewrite land_mask_zero, <-Hbit by apply Hc).
  - replace (i + Z.of_nat 0) with i in Hbad by lia. by rewrite Hbad.
  - rewrite (Hrun i) by lia. simpl.
    destruct Hc as (Hi & Hii & Hib). pose proof Hlk as Hlt%lookup_lt_Some.
    rewrite wr_in_range by lia; simpl.
    destruct (advance_cursor 16 i ii ib) as (ii' & ib' & -> & Hc'); [done|done|lia|].
    assert (Hb : ∀ j, 0 ≤ j → bit_at (<[Z.to_nat ii := Z.land w (Z.lnot (bit_mask ib))]> bm) j =
      if i =? j then false else bit_at bm j)
      by (intros; subst i; apply bit_at_clear; auto; lia).
    eapply IH; [|exact Hc'|..]; try lia.
    + apply words_insert, clear_mask_bound; eauto using words_lookup.
    + unfold bits_len in *. rewrite length_insert. lia.
    + intros j Hj. rewrite Hb by lia. destruct (Z.eqb_spec i j); [lia|]. apply Hrun. lia.
    + rewrite Hb by lia. destruct (Z.eqb_spec i (i + 1 + Z.of_nat k)); [lia|].
      rewrite <-Hbad. f_equal. lia.
Qed.

Lemma find_loop_spec n bm i ii ib found start amount :
  words bm → cursor i ii ib → i + Z.of_nat n ≤ bits_len bm → i + Z.of_nat n < 2 ^ 31 →
  amount < 2 ^ 32 → scan_inv bm amount i found →
  start = (if found =? 0 then -1 else i - found) →
  ∃ r, find_loop n bm i ii ib found start amount = Done r ∧
    ((r = -1 ∧ ∀ s, ¬ first_fit bm (i + Z.of_nat n) amount s) ∨
     first_fit bm (i + Z.of_nat n) amount r).
Proof.
  revert i ii ib found start.
  induction n as [|n IH]; intros i ii ib found start Hws Hc Hlen Hmax Ham Hinv Hst; simpl.
  { exists (-1). split; [done|left]. split; [done|].
    replace (i + Z.of_nat 0) with i by lia. by eapply scan_inv_none. }
  destruct (cursor_word bm i ii ib Hc) as (w & Hrd & Hlk & Hbit); [lia|].
  pose proof Hc as (Hi & Hii & Hib). rewrite Hrd; simpl.
  destruct (advance_cursor 16 i ii ib) as (ii' & ib' & -> & Hc'); [done|done|lia|].
  rewrite land_mask_zero, <-Hbit by done.
  replace (i + Z.of_nat (S n)) with (i + 1 + Z.of_nat n) in * by lia.
  pose proof Hinv as (Hf & Hfi & _).
  destruct (bit_at bm i) eqn:Hb; simpl.
  - eapply IH; eauto using scan_inv_taken.
  - rewrite (wrap_small 32 (found + 1)) by lia.
    assert ((if start =? -1 then i32 i else start) = i - found) as ->.
    { subst start. destruct (Z.eqb_spec found 0) as [->|]; simpl.
      - rewrite swrap_small by lia. lia.
      - destruct (Z.eqb_spec (i - found) (-1)); lia. }
    destruct (Z.eqb_spec (found + 1) amount).
    + eexists; split; [done|right]. eapply scan_inv_hit; eauto; lia.
    + eapply IH; eauto.
      * eapply scan_inv_free; eauto; lia.
      * destruct (Z.eqb_spec (found + 1) 0); lia.
Qed.

(** ** Operation lemmas *)

Lemma lid_cursor lid : 0 ≤ lid < 2 ^ 31 → cursor lid (u32 (u64 lid / 32)) (u16 (u64 lid mod 32)).
Proof.
  intros. rewrite (wrap_small 64) by lia.
  pose proof (cursor_start lid ltac:(lia)) as Hc. pose proof Hc as (? & ? & ?).
  by rewrite !wrap_small by lia.
Qed.

Lemma find_spec p amount :
  inv p → 0 ≤ amount < 2 ^ 32 →
  ∃ r, find p amount = Done r ∧
    ((r = -1 ∧ (amount = 0 ∨ ∀ s, ¬ first_fit (m_bitmap p) (size p) amount s)) ∨
     first_fit (m_bitmap p) (size p) amount r).
Proof.
  intros (Hws & Hsz & Hlen & Hff) Ham. unfold find.
  destruct (Z.eqb_spec amount 0); simpl; [eexists; split; [done|]; left; auto|].
  rewrite Z.gtb_ltb. destruct (Z.ltb_spec (frames_free p) amount).
  - exists (-1). split; [done|left]. split; [done|right].
    intros s (Hs & Hle & Hrun & _).
    pose proof (count_free_ge _ (Z.to_nat (size p)) s amount Hs ltac:(lia) ltac:(lia) Hrun). lia.
  - edestruct (find_loop_spec (Z.to_nat (size p)) (m_bitmap p) 0 0 0 0 (-1) amount)
      as (r & Hr & Hcase); [done|unfold cursor; lia|lia|lia|lia|apply scan_inv_start; lia|done|].
    exists r. rewrite Z.add_0_l, Z2Nat.id in Hcase by lia. split; [done|]. naive_solver.
Qed.

Lemma alloc_spec p s n :
  inv p → 0 ≤ s → 0 ≤ n → s + n ≤ size p → free_run (m_bitmap p) s n →
  ∃ p', alloc p s n = Done p' ∧ inv p' ∧ taken_at p p' s n.
Proof.
  intros (Hws & Hsz & Hlen & Hff) Hs Hn Hle Hrun. unfold alloc.
  edestruct (alloc_loop_spec (Z.to_nat n) (m_bitmap p) s) as (bm' & -> & Hw & Hl & Hb);
    [done|apply lid_cursor; lia|lia|lia|by rewrite Z2Nat.id by lia|].
  rewrite Z2Nat.id in Hb by lia. simpl.
  assert (Hcnt : count_free bm' 0 (Z.to_nat (size p)) = frames_free p - n)
    by (rewrite Hff; apply (count_free_take _ _ _ s n); done || lia).
  pose proof (count_free_bound bm' 0 (Z.to_nat (size p))).
  eexists; split; [done|]. unfold inv, taken_at; simpl.
  rewrite wrap_small by lia. unfold bits_len. rewrite Hl. split_and!; done || lia.
Qed.

Lemma free_spec p s n :
  inv p → 0 ≤ s → 0 ≤ n → s + n ≤ size p → taken_run (m_bitmap p) s n →
  ∃ p', free p s n = Done p' ∧ inv p' ∧ taken_at p' p s n ∧ free_run (m_bitmap p') s n.
Proof.
  intros (Hws & Hsz & Hlen & Hff) Hs Hn Hle Hrun. unfold free.
  edestruct (free_loop_spec (Z.to_nat n) (m_bitmap p) s) as (bm' & -> & Hw & Hl & Hb);
    [done|apply lid_cursor; lia|lia|lia|by rewrite Z2Nat.id by lia|].
  rewrite Z2Nat.id in Hb by lia. simpl.
  assert (Hfr : free_run bm' s n).
  { intros j Hj. rewrite Hb, (proj2 (in_run_true s n j)) by lia. apply andb_false_r. }
  assert (Hback : ∀ j, 0 ≤ j → bit_at (m_bitmap p) j = bit_at bm' j || in_run s n j).
  { intros j Hj. rewrite Hb by lia. destruct (in_run s n j) eqn:E; simpl.
    - apply in_run_true in E. rewrite orb_true_r. apply Hrun. lia.
    - by rewrite andb_true_r, orb_false_r. }
  assert (Hcnt : frames_free p = count_free bm' 0 (Z.to_nat (size p)) - n)
    by (rewrite Hff; apply (count_free_take _ _ _ s n); done || lia).
  pose proof (count_free_bound bm' 0 (Z.to_nat (size p))).
  eexists; split; [done|]. unfold inv, taken_at; simpl.
  rewrite wrap_small by lia. unfold bits_len. rewrite Hl. split_and!; done || lia.
Qed.

Lemma inv_ext p p' :
  inv p → inv p' → start p = start p' → size p = size p' →
  length (m_bitmap p) = length (m_bitmap p') →
  (∀ j, 0 ≤ j → bit_at (m_bitmap p) j = bit_at (m_bitmap p') j) → p = p'.
Proof.
  destruct p as [st sz ff bm], p' as [st' sz' ff' bm']; unfold inv; simpl.
  intros (? & ? & ? & ->) (? & ? & ? & ->) <- <- Hl Hb.
  assert (bm = bm') as -> by (apply bitmap_ext; done). done.
Qed.

End FramePiece.

Module Phys.
Import FramePiece.

(** The globals of [mem/phys.cpp]: [pieces] is the list from [first_piece] to
    [current_piece]. *)
Record state := mk_state {
  pieces : list frame_piece;
  frames_available : Z;
  frames_taken_by_kernel : Z;
  lock : bool;
}.

(** The [do ... while] of [alloc]: the address of the run and the updated
    list, or [None] when the list is exhausted. *)
Fixpoint alloc_in (ps : list frame_piece) (frames : Z) : outcome (option (Z * list frame_piece)) :=
  match ps with
  | [] => Done None
  | p :: ps =>
      let next :=
        r ← alloc_in ps frames;
        Done (match r with Some (a, ps) => Some (a, p :: ps) | None => None end) in
      if frames_free p <? frames then next
      else
        start_ ← find p frames;
        if start_ =? -1 then next
        else
          p' ← FramePiece.alloc p start_ frames;
          Done (Some (u64 (start p' + i32 (start_ * PAGE_SIZE)), p' :: ps))
  end.

Definition alloc (s : state) (amount : Z) : outcome (Z * state) :=
  let frames := u32 (ceiltopg_i32 amount) in
  lk ← spin_acquire (lock s);
  match pieces s with
  | [] => Fault
  | ps =>
      r ← alloc_in ps frames;
      lk ← spin_release lk;
      match r with
      | Some (a, ps) =>
          Done (a, mk_state ps (u64 (frames_available s - frames)) (frames_taken_by_kernel s) lk)
      | None => Panic "Failed to AEX::Mem::Phys::alloc()"
      end
  end.

Fixpoint free_in (ps : list frame_piece) (addr frames : Z) : outcome (option (list frame_piece)) :=
  match ps with
  | [] => Done None
  | p :: ps =>
      if start p >? addr then
        r ← free_in ps addr frames;
        Done (match r with Some ps => Some (p :: ps) | None => None end)
      else
        p' ← FramePiece.free p (i32 ((addr - start p) / PAGE_SIZE)) frames;
        Done (Some (p' :: ps))
  end.

Definition free (s : state) (addr amount : Z) : outcome state :=
  match pieces s with
  | [] => Fault
  | first_piece :: _ =>
      if addr <? start first_piece then Done s
      else
        let frames := u32 (ceiltopg_i32 amount) in
        lk ← spin_acquire (lock s);
        r ← free_in (pieces s) addr frames;
        lk ← spin_release lk;
        match r with
        | Some ps =>
            Done (mk_state ps (u64 (frames_available s + frames)) (frames_taken_by_kernel s) lk)
        | None => Panic "Failed to AEX::Mem::Phys::free()"
        end
  end.

(** Start-up.  [kernel_bytes] is [&_end_bss - &_start_text] of the linker
    script; [phys_mem a n] is what the [n] words of physical memory at [a]
    hold when a new piece is placed there; [root_mem] is the bitmap part of
    [root_piece_memory]. *)
Section Init.
Context (kernel_bytes : Z) (phys_mem : Z → Z → list Z).

(** The words of [root_piece_memory] after the struct, zero at boot. *)
Definition root_bitmap : list Z := replicate 2042 0.

Definition root_frames : Z := (8192 - sizeof_frame_piece) * 8.

Definition createPieces (s : state) (addr frames : Z) : outcome state :=
  '(s, addr, frames) ←
    match pieces s with
    | [first_piece] =>
        let amnt := root_frames `min` i32 frames in
        let frames := u32 (frames - amnt) in
        p ← FramePiece.init (m_bitmap first_piece) addr (u32 amnt);
        let taken := ceiltopg_u64 kernel_bytes in
        p ← FramePiece.alloc p 0 (u32 taken);
        Done (mk_state [p] (frames_available s) taken (lock s),
              u64 (addr + i32 (amnt * PAGE_SIZE)), frames)
    | _ => Done (s, addr, frames)
    end;
  if frames =? 0 then Done s
  else
    let frp_size := i32 (ceiltopg_u64 (sizeof_frame_piece + u32 (frames + 1) / 8) * PAGE_SIZE) in
    '(a, s) ← alloc s frp_size;
    p ← FramePiece.init (phys_mem (a + sizeof_frame_piece) ((frp_size - sizeof_frame_piece) / 4)) addr frames;
    Done (mk_state (pieces s ++ [p]) (frames_available s) (frames_taken_by_kernel s) (lock s)).

(** One entry of the multiboot memory map: [type], [addr], [len]. *)
Record mmap_entry := mk_entry { type : Z; addr : Z; len : Z }.

Definition init_entry (s : state) (e : mmap_entry) : outcome state :=
  if negb (type e =? 1) || (addr e <? 0x100000) then Done s
  else if negb (Z.land (addr e) 0xFFF =? 0) then Panic "Misaligned memory region encountered"
  else
    let frames := len e / PAGE_SIZE in
    if frames <? 8 then Done s
    else
      createPieces (mk_state (pieces s) (u64 (frames_available s + frames))
                     (frames_taken_by_kernel s) (lock s)) (addr e) (u32 frames).

Fixpoint init_entries (s : state) (es : list mmap_entry) : outcome state :=
  match es with
  | [] => Done s
  | e :: es => s ← init_entry s e; init_entries s es
  end.

(** [init], from the zeroed globals: [first_piece] sits on the zeroed
    [root_piece_memory]. *)
Definition init (mmap : list mmap_entry) : outcome state :=
  let first_piece := mk_piece 0 0 0 root_bitmap in
  init_entries (mk_state [first_piece] 0 0 false) mmap.

End Init.

(** ** Invariant and frames *)

(** No piece is larger than the [int] arithmetic of [start * PAGE_SIZE]
    covers, and none wraps the address space. *)
Definition small (p : frame_piece) : Prop :=
  size p * PAGE_SIZE ≤ 2 ^ 31 ∧ 0 ≤ start p ∧ start p + size p * PAGE_SIZE < 2 ^ 64.

Definition inv (s : state) : Prop :=
  lock s = false ∧ pieces s ≠ [] ∧
  Forall (λ p, FramePiece.inv p ∧ small p) (pieces s).

(** Frame [j] of piece [k]. *)
Definition frame_taken (s : state) (k : nat) (j : Z) : option bool :=
  p ← pieces s !! k; Some (bit_at (m_bitmap p) j).

(** ** Lemmas *)

(** The search over the pieces: the outcome of [alloc_in]. *)
Definition alloc_in_post (ps : list frame_piece) (frames : Z)
    (r : option (Z * list frame_piece)) : Prop :=
  match r with
  | None => ∀ k p s, ps !! k = Some p → ¬ first_fit (m_bitmap p) (size p) frames s
  | Some (a, ps') => ∃ k p p' s,
      ps !! k = Some p ∧ first_fit (m_bitmap p) (size p) frames s ∧
      (∀ k' q s', (k' < k)%nat → ps !! k' = Some q →
         ¬ first_fit (m_bitmap q) (size q) frames s') ∧
      FramePiece.inv p' ∧ taken_at p p' s frames ∧
      ps' = <[k := p']> ps ∧ a = start p + s * PAGE_SIZE
  end.

Lemma alloc_in_post_cons p ps frames r :
  (∀ s, ¬ first_fit (m_bitmap p) (size p) frames s) →
  alloc_in_post ps frames r →
  alloc_in_post (p :: ps) frames
    (match r with Some (a, ps) => Some (a, p :: ps) | None => None end).
Proof.
  intros Hp. destruct r as [[a ps']|]; simpl.
  - intros (k & q & q' & s & Hk & Hff & Hbefore & Hinv & Ht & -> & ->).
    exists (S k), q, q', s. split_and!; try done.
    intros [|k'] q0 s' Hk' Hq0; simplify_eq/=; [apply Hp|]. apply (Hbefore k'); [lia|done].
  - intros H [|k] q s Hq; simplify_eq/=; eauto.
Qed.

Lemma first_fit_small p s frames :
  small p → 0 < frames → first_fit (m_bitmap p) (size p) frames s →
  u64 (start p + i32 (s * PAGE_SIZE)) = start p + s * PAGE_SIZE.
Proof.
  intros (H1 & H2 & H3) Hf (Hs & Hle & _). unfold PAGE_SIZE in *.
  rewrite swrap_small by lia. apply wrap_small. lia.
Qed.

Lemma alloc_in_spec ps frames :
  Forall (λ p, FramePiece.inv p ∧ small p) ps → 0 < frames < 2 ^ 32 →
  ∃ r, alloc_in ps frames = Done r ∧ alloc_in_post ps frames r.
Proof.
  intros Hps Hf. induction Hps as [|p ps [Hp Hsm] Hps (r & Hr & Hpost)]; simpl.
  { exists None. split; [done|]. intros k p s H. by rewrite lookup_nil in H. }
  destruct (find_spec p frames Hp ltac:(lia)) as (st & Hfind & Hcase).
  destruct (Z.ltb_spec (frames_free p) frames) as [Hlt|Hge].
  - rewrite Hr; simpl. eexists; split; [done|]. apply alloc_in_post_cons; [|done].
    intros s (Hs & Hle & Hrun & _). destruct Hp as (_ & Hsz & _ & Hff).
    pose proof (count_free_ge _ (Z.to_nat (size p)) s frames Hs ltac:(lia) ltac:(lia) Hrun). lia.
  - rewrite Hfind; simpl. destruct (Z.eqb_spec st (-1)) as [->|Hne].
    + rewrite Hr; simpl. eexists; split; [done|]. apply alloc_in_post_cons; [|done].
      destruct Hcase as [(_ & [|])|(? & _)]; [lia|done|lia].
    + destruct Hcase as [(? & _)|Hff]; [lia|]. pose proof Hff as (Hs & Hle & Hrun & _).
      destruct (alloc_spec p st frames) as (p' & -> & Hinv' & Ht); [done|lia|lia|lia|done|].
      simpl. eexists; split; [done|]. exists 0%nat, p, p', st.
      pose proof Ht as (-> & _). rewrite (first_fit_small p st frames) by (done || lia).
      split_and!; try done. intros; lia.
Qed.

Lemma frames_of_amount amount :
  0 < amount → amount + (PAGE_SIZE - 1) < 2 ^ 31 →
  u32 (ceiltopg_i32 amount) = (amount + (PAGE_SIZE - 1)) / PAGE_SIZE ∧
  0 < (amount + (PAGE_SIZE - 1)) / PAGE_SIZE < 2 ^ 32.
Proof.
  unfold ceiltopg_i32, PAGE_SIZE. intros Ha Hb.
  assert (0 < (amount + (4096 - 1)) / 4096 < 2 ^ 32).
  { split; [apply Z.div_str_pos; lia | apply Z.div_lt_upper_bound; lia]. }
  rewrite swrap_small by lia. rewrite Z.quot_div_nonneg by lia.
  rewrite wrap_small by lia. done.
Qed.

(** The shape of a successful or failed [alloc]. *)
Lemma alloc_cases s amount :
  inv s → 0 < amount → amount + (PAGE_SIZE - 1) < 2 ^ 31 →
  let frames := (amount + (PAGE_SIZE - 1)) / PAGE_SIZE in
  ∃ r, alloc_in_post (pieces s) frames r ∧
    alloc s amount =
      match r with
      | Some (a, ps) => Done (a, mk_state ps (u64 (frames_available s - frames))
                                   (frames_taken_by_kernel s) false)
      | None => Panic "Failed to AEX::Mem::Phys::alloc()"
      end.
Proof.
  intros (Hlk & Hne & Hps) Ha Hb frames.
  destruct (frames_of_amount amount Ha Hb) as [Hfr Hbound].
  unfold alloc. rewrite Hlk, Hfr; cbn -[alloc_in].
  destruct (alloc_in_spec (pieces s) frames Hps Hbound) as (r & Hr & Hpost).
  exists r. split; [done|]. destruct (pieces s) as [|p ps] eqn:E; [done|].
  fold frames. rewrite Hr; cbn. destruct r as [[a ps']|]; done.
Qed.

Lemma inv_insert s k p p' a b :
  inv s → pieces s !! k = Some p → FramePiece.inv p' →
  start p' = start p → size p' = size p →
  inv (mk_state (<[k := p']> (pieces s)) a b false).
Proof.
  intros (Hlk & Hne & Hps) Hk Hinv Hst Hsz. split_and!; simpl; [done| |].
  - intros H%(f_equal length). rewrite length_insert in H.
    apply lookup_lt_Some in Hk. simpl in H. lia.
  - apply Forall_insert; [done|]. split; [done|].
    destruct (Forall_lookup_1 _ _ _ _ Hps Hk) as [_ Hsm].
    unfold small in *. by rewrite Hst, Hsz.
Qed.

(** [free] of an address in the first piece. *)
Lemma free_first s p ps addr amount :
  inv s → pieces s = p :: ps → 0 < amount → amount + (PAGE_SIZE - 1) < 2 ^ 31 →
  start p ≤ addr → addr < start p + size p * PAGE_SIZE →
  let frames := (amount + (PAGE_SIZE - 1)) / PAGE_SIZE in
  free s addr amount =
    p' ← FramePiece.free p ((addr - start p) / PAGE_SIZE) frames;
    Done (mk_state (p' :: ps) (u64 (frames_available s + frames))
            (frames_taken_by_kernel s) false).
Proof.
  intros (Hlk & Hne & Hps) Hp Ha Hb Hlo Hhi frames.
  destruct (frames_of_amount amount Ha Hb) as [Hfr Hbound].
  unfold free. rewrite Hp, Hlk, Hfr; simpl.
  destruct (Z.ltb_spec addr (start p)); [lia|].
  rewrite Z.gtb_ltb. destruct (Z.ltb_spec addr (start p)); [lia|].
  rewrite Hp in Hps. apply Forall_cons in Hps as [[Hinv Hsm] _].
  rewrite swrap_small.
  - fold frames. by destruct (FramePiece.free p _ frames).
  - lia.
  - destruct Hinv as (_ & Hsz & _). unfold PAGE_SIZE in *. split.
    + assert (0 ≤ (addr - start p) / 4096) by (apply Z.div_pos; lia). lia.
    + apply Z.div_lt_upper_bound; lia.
Qed.

(** With a fit in the first piece, [alloc] takes it from there. *)
Lemma alloc_first s p ps amount j :
  inv s → pieces s = p :: ps → 0 < amount → amount + (PAGE_SIZE - 1) < 2 ^ 31 →
  let frames := (amount + (PAGE_SIZE - 1)) / PAGE_SIZE in
  first_fit (m_bitmap p) (size p) frames j →
  ∃ p', FramePiece.inv p' ∧ taken_at p p' j frames ∧
    alloc s amount = Done (start p + j * PAGE_SIZE,
      mk_state (p' :: ps) (u64 (frames_available s - frames)) (frames_taken_by_kernel s) false).
Proof.
  intros Hinv Hp Ha Hb frames Hff.
  destruct (alloc_cases s amount Hinv Ha Hb) as (r & Hpost & Hal). rewrite Hp in Hpost.
  destruct r as [[a ps']|]; [|by destruct (Hpost 0%nat p j)].
  destruct Hpost as ([|k] & q & q' & j' & Hk & Hff' & Hbefore & Hinv' & Ht & -> & ->);
    simplify_eq/=.
  - rewrite (first_fit_unique _ _ _ _ _ Hff Hff'). eauto.
  - exfalso. apply (Hbefore 0%nat p j); [lia|done..].
Qed.

Lemma mk_state_eta s : s = mk_state (pieces s) (frames_available s) (frames_taken_by_kernel s) (lock s).
Proof. by destruct s. Qed.

Lemma words_zeros n : words (replicate n 0).
Proof. apply Forall_replicate. lia. Qed.

Lemma zero_bytes_zeros n k : zero_bytes (replicate n 0) k = replicate n 0.
Proof.
  apply bitmap_ext; auto using zero_bytes_words, words_zeros, zero_bytes_length.
  intros j Hj. rewrite zero_bytes_bit, bit_at_zero by done. by destruct (j <? 8 * k).
Qed.

(** [createPieces] on a region that fits in the root piece, while the root
    piece is the only one. *)
Lemma createPieces_root kernel_bytes phys_mem s q addr n :
  let K := ceiltopg_u64 kernel_bytes in
  pieces s = [q] → words (m_bitmap q) → length (m_bitmap q) = 2042%nat →
  8 ≤ n ≤ root_frames → 0 ≤ K ≤ 8 * (n / 8) →
  ∃ p, createPieces kernel_bytes phys_mem s addr n =
      Done (mk_state [p] (frames_available s) K (lock s)) ∧
    start p = addr ∧ size p = n ∧ frames_free p = n - K ∧
    words (m_bitmap p) ∧ length (m_bitmap p) = 2042%nat ∧
    ∀ j, 0 ≤ j → bit_at (m_bitmap p) j =
      (if j <? 8 * (n / 8) then false else bit_at (m_bitmap q) j) || in_run 0 K j.
Proof.
  intros K Hq Hws Hlen Hn HK. change root_frames with 65344 in Hn.
  pose proof (Z.div_mod n 8 ltac:(lia)). pose proof (Z.mod_pos_bound n 8 ltac:(lia)).
  unfold createPieces. rewrite Hq. change root_frames with 65344.
  rewrite (swrap_small 32 n), Z.min_r, (wrap_small 32 n) by lia.
  unfold FramePiece.init. rewrite Hlen. destruct (Z.leb_spec (n / 8) (4 * Z.of_nat 2042)); [|lia].
  cbn [mbind outcome_bind]. fold K. rewrite (wrap_small 32 K) by lia.
  set (bm0 := zero_bytes (m_bitmap q) (n / 8)).
  assert (Hb0 : ∀ j, 0 ≤ j → bit_at bm0 j = if j <? 8 * (n / 8) then false else bit_at (m_bitmap q) j)
    by (intros; by apply zero_bytes_bit).
  assert (Hl0 : length bm0 = 2042%nat) by (unfold bm0; by rewrite zero_bytes_length).
  edestruct (alloc_loop_spec (Z.to_nat K) bm0 0) as (bm' & Hal & Hw & Hl & Hb);
    [by apply zero_bytes_words|by apply lid_cursor|unfold bits_len; lia|lia| |].
  { intros j Hj. rewrite Hb0 by lia. destruct (Z.ltb_spec j (8 * (n / 8))); [done|lia]. }
  unfold FramePiece.alloc; simpl. rewrite Hal; simpl.
  rewrite Z.sub_diag, (wrap_small 32 0), Z.eqb_refl by lia.
  eexists; split; [done|]. simpl. rewrite wrap_small by lia. rewrite Hl, Hl0.
  split_and!; try done. intros j Hj. rewrite Hb, Hb0 by done. by rewrite Z2Nat.id by lia.
Qed.

Lemma init_entry_usable kernel_bytes phys_mem s a n :
  0x100000 ≤ a → a mod 4096 = 0 → 8 ≤ n < 2 ^ 32 →
  init_entry kernel_bytes phys_mem s (mk_entry 1 a (n * PAGE_SIZE)) =
  createPieces kernel_bytes phys_mem
    (mk_state (pieces s) (u64 (frames_available s + n)) (frames_taken_by_kernel s) (lock s)) a n.
Proof.
  intros Ha Hal Hn. unfold init_entry; cbn -[createPieces].
  destruct (Z.ltb_spec a 0x100000); [lia|]. simpl.
  replace (Z.land a 0xFFF) with (a mod 4096) by (change 0xFFF with (Z.ones 12); by rewrite Z.land_ones).
  rewrite Hal, Z.div_mul by done. simpl. destruct (Z.ltb_spec n 8); [lia|].
  by rewrite (wrap_small 32 n) by lia.
Qed.

(** ** Properties *)

(** C2 (functional).  On a well-formed allocator [alloc] either hands out a
    run of frames that were all free, in the first piece that has one and at
    the lowest place in it, marks exactly these frames taken, keeps every
    other frame and piece as it was, accounts for them, releases the lock and
    stays well-formed; or there is no piece with a long enough free run and
    it panics. *)
Theorem alloc_correct s amount :
  inv s → 0 < amount → amount + (PAGE_SIZE - 1) < 2 ^ 31 →
  let frames := (amount + (PAGE_SIZE - 1)) / PAGE_SIZE in
  (∃ a s' k p j,
     alloc s amount = Done (a, s') ∧ inv s' ∧
     pieces s !! k = Some p ∧ a = start p + j * PAGE_SIZE ∧
     first_fit (m_bitmap p) (size p) frames j ∧
     (∀ k' q j', (k' < k)%nat → pieces s !! k' = Some q →
        ¬ first_fit (m_bitmap q) (size q) frames j') ∧
     frames_available s' = u64 (frames_available s - frames) ∧
     (∀ i, 0 ≤ i → frame_taken s' k i =
        Some (bit_at (m_bitmap p) i || in_run j frames i)) ∧
     (∀ k' i, k' ≠ k → frame_taken s' k' i = frame_taken s k' i))
  ∨ (alloc s amount = Panic "Failed to AEX::Mem::Phys::alloc()" ∧
     ∀ k p j, pieces s !! k = Some p → ¬ first_fit (m_bitmap p) (size p) frames j).
Proof.
  intros Hinv Ha Hb frames.
  destruct (alloc_cases s amount Hinv Ha Hb) as ([[a ps]|] & Hpost & Hal); [left|right].
  - destruct Hpost as (k & p & p' & j & Hk & Hff & Hbefore & Hinv' & Ht & -> & ->).
    pose proof Ht as (Hst & Hsz & _ & _ & Hbits).
    eexists _, _, k, p, j. split_and!; [exact Hal|by eapply inv_insert|done..| |].
    + intros i Hi. unfold frame_taken; simpl.
      rewrite list_lookup_insert_eq by (by eapply lookup_lt_Some). simpl. by rewrite Hbits.
    + intros k' i Hne. unfold frame_taken; simpl. by rewrite list_lookup_insert_ne.
  - by split.
Qed.

(** Freeing what [alloc] took from the first piece restores
    the whole allocator state. *)
Lemma alloc_free_roundtrip s p ps amount j a s' :
  inv s → 0 ≤ frames_available s < 2 ^ 64 → pieces s = p :: ps →
  0 < amount → amount + (PAGE_SIZE - 1) < 2 ^ 31 →
  first_fit (m_bitmap p) (size p) ((amount + (PAGE_SIZE - 1)) / PAGE_SIZE) j →
  alloc s amount = Done (a, s') → free s' a amount = Done s.
Proof.
  intros Hinv Hfa Hp Ha Hb Hff Hal.
  destruct (alloc_first s p ps amount j Hinv Hp Ha Hb Hff) as (p' & Hinv' & Ht & Hal').
  rewrite Hal' in Hal. simplify_eq. pose proof Ht as (Hst & Hsz & Hfree & Hlen & Hbits).
  pose proof Hff as (Hj & Hle & Hrun & _).
  destruct (frames_of_amount amount Ha Hb) as [_ Hfr].
  set (frames := (amount + (PAGE_SIZE - 1)) / PAGE_SIZE) in *.
  set (s1 := mk_state _ _ _ _).
  assert (Hinv1 : inv s1).
  { pose proof (inv_insert s 0 p p' (u64 (frames_available s - frames))
      (frames_taken_by_kernel s) Hinv) as H. rewrite Hp in H. by apply H. }
  rewrite (free_first s1 p' ps) by (done || unfold PAGE_SIZE in *; lia).
  rewrite Hst. replace (start p + j * PAGE_SIZE - start p) with (j * PAGE_SIZE) by lia.
  rewrite Z.div_mul by done. fold frames.
  destruct (free_spec p' j frames) as (p2 & -> & Hinv2 & Ht2 & Hrun2); [done|lia|lia|lia| |].
  { intros i Hi. rewrite Hbits, (proj2 (in_run_true j frames i)) by lia. apply orb_true_r. }
  destruct Ht2 as (Hst2 & Hsz2 & Hfree2 & Hlen2 & Hbits2). simpl.
  assert (p2 = p) as ->.
  { apply inv_ext; try (congruence || done).
    - destruct Hinv as (_ & _ & HF). rewrite Hp in HF. by apply Forall_cons in HF as [[? _] _].
    - intros i Hi. specialize (Hbits2 i Hi). rewrite Hbits in Hbits2 by done.
      destruct (in_run j frames i) eqn:E; [|by rewrite !orb_false_r in Hbits2].
      apply in_run_true in E. rewrite Hrun, Hrun2 by lia. done. }
  rewrite (mk_state_eta s), Hp. f_equal. f_equal; [|by destruct Hinv as (-> & _)].
  cbn [frames_available]. rewrite wrap_add_l by done. rewrite wrap_small; lia.
Qed.

(** [free] of a run in the first piece that contains a frame
    which is not taken (a double free, or a free of a too long run) panics
    through the assertion and never clears the accounting silently. *)
Lemma free_unallocated_panics s p ps addr amount i :
  inv s → pieces s = p :: ps → 0 < amount → amount + (PAGE_SIZE - 1) < 2 ^ 31 →
  let frames := (amount + (PAGE_SIZE - 1)) / PAGE_SIZE in
  start p ≤ addr → (addr - start p) / PAGE_SIZE + frames ≤ size p →
  (addr - start p) / PAGE_SIZE ≤ i < (addr - start p) / PAGE_SIZE + frames →
  bit_at (m_bitmap p) i = false →
  free s addr amount = Panic "Assertion failed!".
Proof.
  intros Hinv Hp Ha Hb frames Hlo Hhi Hi Hbit.
  destruct (frames_of_amount amount Ha Hb) as [_ Hfr]. fold frames in Hfr.
  set (l := (addr - start p) / PAGE_SIZE) in *.
  assert (Hl : 0 ≤ l) by (apply Z.div_pos; unfold PAGE_SIZE; lia).
  rewrite (free_first s p ps) by
    (done || (unfold PAGE_SIZE in *; pose proof (Z.div_mod (addr - start p) 4096 ltac:(lia));
              pose proof (Z.mod_pos_bound (addr - start p) 4096 ltac:(lia)); lia)).
  fold l frames. unfold FramePiece.free.
  destruct Hinv as (_ & _ & HF). rewrite Hp in HF. apply Forall_cons in HF as [[Hinv _] _].
  destruct Hinv as (Hws & Hsz & Hlen & _).
  destruct (first_clear (m_bitmap p) l (Z.to_nat frames)) as (k & Hk & Htk & Hbk).
  { exists i. split; [lia|done]. }
  erewrite free_loop_panics; [done|done|by apply lid_cursor; lia|lia|lia|exact Hk|done|done].
Qed.

(** [free] always works on the first piece: the
    address of a frame beyond it, for example one [alloc] handed out from the
    second piece, indexes the first piece's bitmap out of bounds. *)
Lemma free_later_piece_faults s p ps addr amount :
  inv s → pieces s = p :: ps → 0 < amount → amount + (PAGE_SIZE - 1) < 2 ^ 31 →
  start p + bits_len (m_bitmap p) * PAGE_SIZE ≤ addr →
  (addr - start p) / PAGE_SIZE < 2 ^ 31 →
  free s addr amount = Fault.
Proof.
  intros (Hlk & _ & HF) Hp Ha Hb Hlo Hlid.
  destruct (frames_of_amount amount Ha Hb) as [Hfr Hbound].
  rewrite Hp in HF. apply Forall_cons in HF as [[(Hws & Hsz & Hlen & _) _] _].
  unfold free. rewrite Hp, Hfr, Hlk; cbn -[free_in]. unfold PAGE_SIZE, bits_len in *.
  destruct (Z.ltb_spec addr (start p)); [lia|]. simpl.
  rewrite Z.gtb_ltb. destruct (Z.ltb_spec addr (start p)); [lia|].
  assert (bits_len (m_bitmap p) ≤ (addr - start p) / 4096)
    by (apply Z.div_le_lower_bound; unfold bits_len; lia).
  unfold bits_len, PAGE_SIZE in *. rewrite swrap_small by lia. unfold FramePiece.free.
  set (l := (addr - start p) / 4096) in *.
  assert (Hc : cursor l (u32 (u64 l / 32)) (u16 (u64 l mod 32))) by (apply lid_cursor; lia).
  destruct (Z.to_nat ((amount + (4096 - 1)) / 4096)) as [|n] eqn:E; [lia|]. simpl.
  destruct Hc as (Hc & _ & ?). rewrite rd_out by lia. done.
Qed.

(** C40 (bounds).  [start * PAGE_SIZE] is computed in [int]: in an allocator with one
    piece, a run at the offset [off] in the piece gets the address of its frames less
    4 GiB for every 4 GiB that [off + 2 GiB] reaches: right below 2 GiB, 4 GiB too low
    from 2 GiB up to 6 GiB, 8 GiB too low from there up to 10 GiB, and so on. *)
Theorem alloc_address_wraps s p amount j :
  lock s = false → pieces s = [p] → FramePiece.inv p →
  0 < amount → amount + (PAGE_SIZE - 1) < 2 ^ 31 →
  first_fit (m_bitmap p) (size p) ((amount + (PAGE_SIZE - 1)) / PAGE_SIZE) j →
  ∃ s', alloc s amount = Done (u64 (start p + j * PAGE_SIZE - 2 ^ 32 * ((j * PAGE_SIZE + 2 ^ 31) / 2 ^ 32)), s') ∧
    ∀ i, j ≤ i < j + (amount + (PAGE_SIZE - 1)) / PAGE_SIZE → frame_taken s' 0 i = Some true.
Proof.
  intros Hlk Hp Hinv Ha Hb Hff.
  destruct (frames_of_amount amount Ha Hb) as [Hfr Hbound].
  set (frames := (amount + (PAGE_SIZE - 1)) / PAGE_SIZE) in *.
  pose proof Hff as (Hj0 & Hle & Hrun & _).
  pose proof Hinv as (_ & Hsz & _ & Hcnt).
  pose proof (count_free_ge _ (Z.to_nat (size p)) j frames Hj0 ltac:(lia) ltac:(lia) Hrun).
  destruct (find_spec p frames Hinv ltac:(lia)) as (r & Hfind & Hcase).
  assert (r = j) as ->.
  { destruct Hcase as [(_ & [|Hno])|Hff']; [lia|by destruct (Hno j)|by eapply first_fit_unique]. }
  destruct (alloc_spec p j frames) as (p' & Hal & _ & Hst & _ & _ & _ & Hbits); [done|lia|lia|lia|done|].
  unfold alloc. rewrite Hlk, Hp, Hfr; cbn -[alloc_in]. simpl.
  destruct (Z.ltb_spec (frames_free p) frames); [lia|]. rewrite Hfind; simpl.
  destruct (Z.eqb_spec j (-1)); [lia|]. rewrite Hal; simpl.
  eexists; split.
  - do 3 f_equal. rewrite Hst. f_equal.
    unfold swrap. change (2 ^ (32 - 1)) with (2 ^ 31). rewrite Z.mod_eq by lia. lia.
  - intros i Hi. unfold frame_taken; simpl.
    rewrite Hbits, (proj2 (in_run_true j frames i)) by lia. by rewrite orb_true_r.
Qed.

(** A boot memory map with one usable region that fits in
    the root piece gives a well-formed allocator whose only taken frames are
    the kernel's. *)
Lemma init_one_region kernel_bytes phys_mem a n :
  let K := ceiltopg_u64 kernel_bytes in
  0x100000 ≤ a < 2 ^ 63 → a mod 4096 = 0 → 8 ≤ n ≤ root_frames → 0 ≤ K ≤ 8 * (n / 8) →
  ∃ s, init kernel_bytes phys_mem [mk_entry 1 a (n * PAGE_SIZE)] = Done s ∧ inv s ∧
    frames_available s = n ∧ frames_taken_by_kernel s = K ∧
    ∀ j, 0 ≤ j → frame_taken s 0 j = Some (j <? K).
Proof.
  intros K Ha Hal Hn HK. pose proof Hn as Hn'. change root_frames with 65344 in Hn'.
  unfold init; cbn [init_entries]. rewrite init_entry_usable by lia.
  edestruct (createPieces_root kernel_bytes phys_mem) as (p & -> & Hst & Hsz & Hff & Hws & Hl & Hb);
    [done|apply words_zeros|done|exact Hn|exact HK|].
  fold K in Hff, Hb. rewrite bind_ret. cbn [init_entries m_bitmap] in *. eexists; split; [done|].
  assert (Hbits : ∀ j, 0 ≤ j → bit_at (m_bitmap p) j = (j <? K)).
  { intros j Hj. unfold root_bitmap in Hb. rewrite Hb, bit_at_zero by done. destruct (j <? 8 * (n / 8)); simpl;
      destruct (in_run 0 K j) eqn:E;
      (apply in_run_true in E || apply in_run_false in E); lia. }
  split_and!; simpl; [|rewrite wrap_small; lia|done|intros; unfold frame_taken; simpl; by rewrite Hbits].
  split_and!; [done|done|]. apply Forall_singleton. split.
  - assert (K ≤ n). { pose proof (Z.div_mod n 8 ltac:(lia)). pose proof (Z.mod_pos_bound n 8 ltac:(lia)). lia. }
    unfold FramePiece.inv, bits_len. rewrite Hsz, Hl, Hff. split_and!; try done || lia.
    assert (count_free (m_bitmap p) 0 (Z.to_nat n) = count_free (replicate 2042 0) 0 (Z.to_nat n) - K) as ->.
    { apply (count_free_take _ _ _ 0 K); try lia; [intros j Hj; apply bit_at_zero|].
      intros j Hj. rewrite Hbits, bit_at_zero by done. simpl. unfold in_run. lia. }
    rewrite count_free_run; [lia|]. intros j Hj. apply bit_at_zero.
  - unfold small, PAGE_SIZE. rewrite Hst, Hsz. lia.
Qed.

(** [_createPieces] tests for "first piece" with
    [current_piece == first_piece]: when the first usable region fits in the
    root piece, the second region initialises the root piece again, and the
    frames of the first region are lost although they stay counted in
    [frames_available]. *)
Lemma init_second_region_replaces_first kernel_bytes phys_mem a1 n1 a2 n2 :
  let K := ceiltopg_u64 kernel_bytes in
  0x100000 ≤ a1 → a1 mod 4096 = 0 → 8 ≤ n1 ≤ root_frames → 0 ≤ K ≤ 8 * (n1 / 8) →
  0x100000 ≤ a2 → a2 mod 4096 = 0 → 8 ≤ n2 ≤ root_frames → 0 ≤ K ≤ 8 * (n2 / 8) →
  ∃ p, init kernel_bytes phys_mem
         [mk_entry 1 a1 (n1 * PAGE_SIZE); mk_entry 1 a2 (n2 * PAGE_SIZE)] =
       Done (mk_state [p] (n1 + n2) K false) ∧ start p = a2 ∧ size p = n2.
Proof.
  intros K Ha1 Hal1 Hn1 HK1 Ha2 Hal2 Hn2 HK2.
  pose proof Hn1 as Hn1'. pose proof Hn2 as Hn2'. change root_frames with 65344 in Hn1', Hn2'.
  unfold init; cbn [init_entries]. rewrite init_entry_usable by lia.
  edestruct (createPieces_root kernel_bytes phys_mem) as (p & -> & _ & _ & _ & Hws & Hl & _);
    [done|apply words_zeros|done|exact Hn1|exact HK1|].
  rewrite bind_ret. cbn [init_entries]. rewrite init_entry_usable by lia.
  edestruct (createPieces_root kernel_bytes phys_mem) as (p' & -> & Hst & Hsz & _);
    [done|exact Hws|exact Hl|exact Hn2|exact HK2|].
  exists p'. split_and!; [|done|done]. simpl. do 2 f_equal.
  rewrite !wrap_small by (rewrite ?wrap_small; lia). lia.
Qed.

(** ** Witnesses *)

Lemma find_first_fit p n r :
  FramePiece.inv p → 0 < n < 2 ^ 32 → find p n = Done r → r ≠ -1 →
  first_fit (m_bitmap p) (size p) n r.
Proof.
  intros Hinv Hn Hr Hne. destruct (find_spec p n Hinv ltac:(lia)) as (r' & Hr' & Hcase).
  rewrite Hr in Hr'. injection Hr' as <-. by destruct Hcase as [[??]|].
Qed.

(** A 64-frame piece whose first four frames hold the kernel, and one more
    piece above it. *)
Definition demo_piece : frame_piece := mk_piece 0x100000 64 60 [0xF; 0].
Definition demo_piece2 : frame_piece := mk_piece 0x1000000 32 32 [0].
Definition demo_state : state := mk_state [demo_piece; demo_piece2] 92 4 false.

Lemma demo_piece_inv : FramePiece.inv demo_piece.
Proof. split_and!; [|done..]. repeat constructor; done. Qed.

Lemma demo_inv : inv demo_state.
Proof.
  split_and!; [done..|]. repeat apply Forall_cons_2; [| |apply Forall_nil_2].
  - split; [apply demo_piece_inv|done].
  - split; [|done]. split_and!; [|done..]. repeat constructor; done.
Qed.

Lemma alloc_correct_witness : ∃ a s', alloc demo_state 8192 = Done (a, s') ∧ inv s'.
Proof.
  destruct (alloc_correct demo_state 8192 demo_inv ltac:(done) ltac:(done))
    as [(a & s' & k & p & j & Hal & Hinv & _)|[H _]].
  - exists a, s'. split; [exact Hal|exact Hinv].
  - exfalso. vm_compute in H. discriminate H.
Defined.

Lemma alloc_free_roundtrip_witness :
  ∃ a s', alloc demo_state 8192 = Done (a, s') ∧ free s' a 8192 = Done demo_state.
Proof.
  eexists _, _. split; [vm_compute; reflexivity|].
  apply (alloc_free_roundtrip demo_state demo_piece [demo_piece2] 8192 4);
    [apply demo_inv|done|done|done|done| |vm_compute; reflexivity].
  apply (find_first_fit demo_piece); [apply demo_piece_inv|done|vm_compute; reflexivity|done].
Defined.

Lemma free_unallocated_panics_witness :
  free demo_state (0x100000 + 3 * 4096) 8192 = Panic "Assertion failed!".
Proof.
  apply (free_unallocated_panics demo_state demo_piece [demo_piece2] _ 8192 4);
    [apply demo_inv|vm_compute; done..].
Defined.

Lemma free_later_piece_faults_witness : free demo_state 0x1000000 4096 = Fault.
Proof.
  apply (free_later_piece_faults demo_state demo_piece [demo_piece2]);
    [apply demo_inv|vm_compute; done..].
Defined.

Lemma bit_at_ones_zeros a b j :
  0 ≤ j → bit_at (replicate a (2 ^ 32 - 1) ++ replicate b 0) j = (j <? 32 * Z.of_nat a).
Proof.
  intros Hj. unfold bit_at.
  pose proof (Z.div_mod j 32 ltac:(lia)). pose proof (Z.mod_pos_bound j 32 ltac:(lia)).
  assert (0 ≤ j / 32) by (apply Z.div_pos; lia).
  destruct (Z.ltb_spec j (32 * Z.of_nat a)).
  - rewrite lookup_app_l by (rewrite length_replicate; lia).
    rewrite lookup_replicate_2 by lia.
    change (2 ^ 32 - 1) with (Z.ones 32). apply Z.ones_spec_low. lia.
  - rewrite lookup_app_r by (rewrite length_replicate; lia).
    destruct (replicate b 0 !! _) as [w|] eqn:E; [|done].
    apply lookup_replicate in E as [-> _]. apply Z.bits_0.
Qed.

(** A 4 GiB piece with its first 2 GiB taken. *)
Definition big_bitmap : list Z :=
  replicate (Z.to_nat 16384) (2 ^ 32 - 1) ++ replicate (Z.to_nat 16384) 0.
Definition big_piece : frame_piece := mk_piece 0x100000 1048576 524288 big_bitmap.

Lemma big_piece_inv : FramePiece.inv big_piece.
Proof.
  unfold FramePiece.inv, big_piece. cbn [m_bitmap size frames_free].
  split_and!; try lia.
  - apply Forall_app. split; apply Forall_replicate; lia.
  - unfold bits_len, big_bitmap. rewrite length_app, !length_replicate. lia.
  - replace (Z.to_nat 1048576) with (Z.to_nat 524288 + Z.to_nat 524288)%nat by lia.
    rewrite count_free_app, count_taken_run, count_free_run.
    + lia.
    + intros j Hj. unfold big_bitmap. rewrite bit_at_ones_zeros by lia. apply Z.ltb_ge. lia.
    + intros j Hj. unfold big_bitmap. rewrite bit_at_ones_zeros by lia. apply Z.ltb_lt. lia.
Qed.

Lemma alloc_address_wraps_witness :
  ∃ s', alloc (mk_state [big_piece] 524288 0 false) 4096 =
    Done (u64 (0x100000 + 524288 * PAGE_SIZE - 2 ^ 32), s').
Proof.
  destruct (alloc_address_wraps (mk_state [big_piece] 524288 0 false) big_piece 4096 524288)
    as (s' & H & _); [done|done|apply big_piece_inv|done|done| |by exists s'].
  split_and!; [done|done| |].
  - intros j Hj. cbn [m_bitmap big_piece]. unfold big_bitmap. rewrite bit_at_ones_zeros; [|lia].
    apply Z.ltb_ge. lia.
  - intros s Hs. apply (free_run_blocked _ _ _ s).
    + cbn [m_bitmap big_piece]. unfold big_bitmap. rewrite bit_at_ones_zeros; [|lia].
      apply Z.ltb_lt. lia.
    + change ((4096 + (PAGE_SIZE - 1)) / PAGE_SIZE) with 1. lia.
Defined.

Lemma init_one_region_witness :
  ∃ s, init 0x300000 (λ _ _, []) [mk_entry 1 0x100000 (8192 * PAGE_SIZE)] = Done s ∧ inv s.
Proof.
  destruct (init_one_region 0x300000 (λ _ _, []) 0x100000 8192) as (s & Hs & Hinv & _);
    [vm_compute; done..|]. exists s. split; [exact Hs|exact Hinv].
Defined.

Lemma init_second_region_witness :
  ∃ p, init 0x300000 (λ _ _, [])
    [mk_entry 1 0x100000 (8192 * PAGE_SIZE); mk_entry 1 0x8000000 (16384 * PAGE_SIZE)] =
    Done (mk_state [p] 24576 768 false) ∧ start p = 0x8000000 ∧ size p = 16384.
Proof.
  exact (init_second_region_replaces_first 0x300000 (λ _ _, []) 0x100000 8192 0x8000000 16384
    ltac:(done) ltac:(done) ltac:(done) ltac:(done) ltac:(done) ltac:(done) ltac:(done) ltac:(done)).
Defined.

End Phys.
