(* ===== verification/Math.v ===== *)
(** * Integer helpers

    [include/aex/math.hpp] at the widths the kernel instantiates it with. *)
From S2P Require Import Prelude.
Local Open Scope Z_scope.

(** [int_floor] and [int_ceil] on a [w]-bit unsigned type. *)
Definition int_floor (w val alignment : Z) : Z := wrap w (val / alignment * alignment).
Definition int_ceil (w val alignment : Z) : Z :=
  wrap w (wrap w (val + alignment - 1) / alignment * alignment).

(** [int_ceil<int>]: two's complement and division toward zero. *)
Definition int_ceil_i32 (val alignment : Z) : Z :=
  i32 (Z.quot (i32 (val + alignment - 1)) alignment * alignment).

Definition clamp (a minv maxv : Z) : Z := (a `min` maxv) `max` minv.

Definition inrange (val lo hi : Z) : bool := (val >=? lo) && (val <=? hi).

Lemma int_ceil_spec w val al :
  0 < w → 0 < al → 0 ≤ val → val + al - 1 < 2 ^ w →
  int_ceil w val al = (val + al - 1) / al * al ∧
  val ≤ int_ceil w val al < val + al ∧ int_ceil w val al mod al = 0.
Proof.
  intros Hw Hal Hv Hb. unfold int_ceil. rewrite (wrap_small w (val + al - 1)) by lia.
  pose proof (Z.div_mod (val + al - 1) al ltac:(lia)).
  pose proof (Z.mod_pos_bound (val + al - 1) al ltac:(lia)).
  rewrite wrap_small by nia. split_and!; [done|nia|nia|].
  by rewrite Z.mod_mul by lia.
Qed.

Lemma int_ceil_i32_spec val al :
  0 < al → 0 ≤ val → val + al - 1 < 2 ^ 31 → val ≤ int_ceil_i32 val al < val + al ∧ int_ceil_i32 val al mod al = 0.
Proof.
  intros Hal Hv Hb. unfold int_ceil_i32. rewrite (swrap_small 32 (val + al - 1)), Z.quot_div_nonneg by lia.
  pose proof (Z.div_mod (val + al - 1) al ltac:(lia)). pose proof (Z.mod_pos_bound (val + al - 1) al ltac:(lia)).
  rewrite swrap_small by nia. split; [nia|by rewrite Z.mod_mul by lia].
Qed.

Lemma int_floor_spec w val al :
  0 < al → 0 ≤ val < 2 ^ w →
  int_floor w val al = val / al * al ∧
  int_floor w val al ≤ val < int_floor w val al + al ∧ int_floor w val al mod al = 0.
Proof.
  intros Hal Hv. unfold int_floor.
  pose proof (Z.div_mod val al ltac:(lia)).
  pose proof (Z.mod_pos_bound val al ltac:(lia)).
  assert (0 ≤ val / al) by (apply Z.div_pos; lia).
  rewrite wrap_small by nia. split_and!; [done|nia|nia|].
  by rewrite Z.mod_mul by lia.
Qed.

Lemma clamp_bounds a lo hi : lo ≤ hi → lo ≤ clamp a lo hi ≤ hi.
Proof. unfold clamp. lia. Qed.
