(* ===== verification/Heap.v ===== *)
(** * The kernel heap

    [mem/heap.cpp]: slabs of 16-byte pieces with a bitmap, a header piece in
    front of every block, and the list of slabs. *)
From S2P Require Import Prelude Locks Bitmap Math.
Local Open Scope Z_scope.

Definition ALLOC_SIZE : Z := 16.
Definition SANITY_XOR : Z := 0x28AC829B1F5231EC.

Definition ceilToAllocSize (val : Z) : Z := int_ceil 64 val ALLOC_SIZE.
Definition ceilToPiece (val : Z) : Z := int_ceil 64 val ALLOC_SIZE / ALLOC_SIZE.

Module Slab.

(** The memory behind the struct is [bitmap] (words), then [pad] unused bytes,
    then the data pieces: [rest] holds these bytes.  [data] is the address of
    the first data byte. *)
Record Slab := mk_slab {
  pieces : Z;
  free_pieces : Z;
  lock : bool;
  data : Z;
  bitmap : list Z;
  pad : Z;
  rest : list Z;
}.

Definition set_lock (s : Slab) (l : bool) : Slab :=
  mk_slab (pieces s) (free_pieces s) l (data s) (bitmap s) (pad s) (rest s).
Definition set_bitmap (s : Slab) (bm : list Z) : Slab :=
  mk_slab (pieces s) (free_pieces s) (lock s) (data s) bm (pad s) (rest s).
Definition set_rest (s : Slab) (r : list Z) : Slab :=
  mk_slab (pieces s) (free_pieces s) (lock s) (data s) (bitmap s) (pad s) r.

(** [sizeof(Slab)]: two [size_t], two pointers and the 16-byte [Spinlock]. *)
Definition sizeof_Slab : Z := 48.

(** [createFromVMem] on the zeroed pages at [mem] that
    [kernel_pagemap->alloc] returned; the [memset] of the bitmap writes zeros
    over zeros. *)
Definition slab_pieces (size : Z) : Z := int_floor 64 (size / ALLOC_SIZE) 32.
Definition data_offset (size : Z) : Z :=
  ceilToAllocSize (sizeof_Slab + ceilToAllocSize (slab_pieces size / 8)).
Definition createFromVMem (mem size : Z) : Slab :=
  let n := slab_pieces size in
  let off := data_offset size in
  let pd := off - sizeof_Slab - n / 8 in
  mk_slab n n false (u64 (mem + off)) (replicate (Z.to_nat (n / 32)) 0)
    pd (replicate (Z.to_nat (pd + n * ALLOC_SIZE)) 0).

(** [bitmap[ii]]: past the bitmap the index runs on into [rest]. *)
Definition rdw (s : Slab) (ii : Z) : outcome Z :=
  let n := Z.of_nat (length (bitmap s)) in
  if ii <? n then (bitmap s).[ii]
  else bs ← get (rest s) (4 * (ii - n)) 4; Done (le_value bs).

Definition wrw (s : Slab) (ii v : Z) : outcome Slab :=
  let n := Z.of_nat (length (bitmap s)) in
  if ii <? n then bm ← (bitmap s).[ii := v]; Done (set_bitmap s bm)
  else r ← put (rest s) (4 * (ii - n)) (le_bytes 4 v); Done (set_rest s r).

Fixpoint mark_loop (n : nat) (s : Slab) (buffer ii ib : Z) : outcome Slab :=
  match n with
  | O => wrw s ii buffer
  | S n =>
      let buffer := Z.lor buffer (bit_mask ib) in
      let ib := u32 (ib + 1) in
      if ib >=? 32 then
        s ← wrw s ii buffer;
        let ii := u32 (ii + 1) in
        buffer ← rdw s ii;
        mark_loop n s buffer ii 0
      else mark_loop n s buffer ii ib
  end.

Definition mark (s : Slab) (start amount : Z) : outcome Slab :=
  if amount =? 0 then Done s
  else
    let ii := start / 32 in
    let ib := start mod 32 in
    buffer ← rdw s ii;
    mark_loop (Z.to_nat amount) s buffer ii ib.

Fixpoint unmark_loop (n : nat) (s : Slab) (buffer ii ib : Z) : outcome Slab :=
  match n with
  | O => wrw s ii buffer
  | S n =>
      let buffer := Z.land buffer (Z.lnot (bit_mask ib)) in
      let ib := u32 (ib + 1) in
      if ib >=? 32 then
        s ← wrw s ii buffer;
        let ii := u32 (ii + 1) in
        buffer ← rdw s ii;
        unmark_loop n s buffer ii 0
      else unmark_loop n s buffer ii ib
  end.

Definition unmark (s : Slab) (start amount : Z) : outcome Slab :=
  if amount =? 0 then Done s
  else
    let ii := start / 32 in
    let ib := start mod 32 in
    buffer ← rdw s ii;
    unmark_loop (Z.to_nat amount) s buffer ii ib.

(** The [for] loop of [findFree] over one word: the state it leaves, or the
    value it returns. *)
Fixpoint scan_word (n : nat) (buffer i index combo start amount : Z) : (Z * Z * Z) + Z :=
  match n with
  | O => inl (index, combo, start)
  | S n =>
      if Z.land buffer (bit_mask i) =? 0 then
        let combo := u32 (combo + 1) in
        let start := if start =? -1 then index else start in
        if combo =? amount then inr start
        else scan_word n buffer (i + 1) (u32 (index + 1)) combo start amount
      else scan_word n buffer (i + 1) (u32 (index + 1)) 0 (-1) amount
  end.

(** The [while] loop of [findFree].  Every turn reads word [ii] and moves to
    the next one, and a read outside the slab is a [Fault], so as many turns
    as the slab has words and one more are enough. *)
Fixpoint findFree_loop (fuel : nat) (s : Slab) (index ii combo start amount : Z) : outcome Z :=
  match fuel with
  | O => Fault
  | S fuel =>
      if index <=? pieces s then
        buffer ← rdw s ii;
        if buffer =? 2 ^ 32 - 1 then
          findFree_loop fuel s (u32 (index + 32)) (u32 (ii + 1)) 0 (-1) amount
        else
          let left := u64 (pieces s - index) `min` 32 in
          match scan_word (Z.to_nat left) buffer 0 index combo start amount with
          | inr r => Done r
          | inl (index, combo, start) =>
              findFree_loop fuel s index (u32 (ii + 1)) combo start amount
          end
      else Done (-1)
  end.

Definition findFree_fuel (s : Slab) : nat := (length (bitmap s) + length (rest s) + 2)%nat.

Definition findFree (s : Slab) (amount : Z) : outcome Z :=
  if (amount >? free_pieces s) || (amount =? 0) then Done (-1)
  else findFree_loop (findFree_fuel s) s 0 0 0 (-1) amount.

(** Offset of the data address [addr] in [rest]. *)
Definition off (s : Slab) (addr : Z) : Z := pad s + (addr - data s).

(** The first two fields of [alloc_block]: [sanity] and [len]; [page] and the
    padding stay as they are. *)
Definition header_bytes (ptr len : Z) : list Z :=
  le_bytes 8 (Z.lxor ptr SANITY_XOR) ++ le_bytes 4 len.

(** [alloc] with the global [heap_free]; a null pointer is 0. *)
Definition alloc (s : Slab) (heap_free size : Z) : outcome (Z * Slab * Z) :=
  if size =? 0 then Done (0, s, heap_free)
  else
    let size := u64 (size + ALLOC_SIZE) in
    lk ← spin_acquire (lock s);
    let pcs := ceilToPiece size in
    start ← findFree s (u32 pcs);
    if start =? -1 then
      lk ← spin_release lk;
      Done (0, set_lock s lk, heap_free)
    else
      s ← mark s (u32 start) (u32 pcs);
      lk ← spin_release lk;
      let addr := u64 (data s + start * ALLOC_SIZE) in
      r ← put (rest s) (off s addr) (replicate (Z.to_nat (pcs * ALLOC_SIZE)) 0);
      r ← put r (off s addr) (header_bytes (u64 (addr + ALLOC_SIZE)) (u32 pcs));
      Done (u64 (addr + ALLOC_SIZE), set_lock (set_rest s r) lk,
            u64 (heap_free - u64 (pcs * ALLOC_SIZE))).

(** The [alloc_block] header at address [block]: [sanity] and [len]. *)
Definition read_header (s : Slab) (block : Z) : outcome (Z * Z) :=
  sanity ← get (rest s) (off s block) 8;
  len ← get (rest s) (off s block + 8) 4;
  Done (le_value sanity, le_value len).

Definition free (s : Slab) (heap_free ptr : Z) : outcome (Slab * Z) :=
  let block := u64 (ptr - ALLOC_SIZE) in
  '(sanity, len) ← read_header s block;
  if negb (sanity =? Z.lxor ptr SANITY_XOR) then Panic "heap: free() sanity check failed"
  else
    lk ← spin_acquire (lock s);
    s ← unmark s (u32 (block - data s) / ALLOC_SIZE) len;
    let heap_free := u64 (heap_free + u64 (len * ALLOC_SIZE)) in
    r ← put (rest s) (off s block) (replicate (Z.to_nat (u32 (len * ALLOC_SIZE))) 0x5A);
    lk ← spin_release lk;
    Done (set_lock (set_rest s r) lk, heap_free).

Definition owns (s : Slab) (ptr : Z) : bool :=
  (data s <=? ptr) && (ptr <=? u64 (data s + pieces s * ALLOC_SIZE)).

Definition size (s : Slab) (ptr : Z) : outcome Z :=
  '(sanity, len) ← read_header s (u64 (ptr - ALLOC_SIZE));
  if negb (sanity =? Z.lxor ptr SANITY_XOR) then Panic "heap: size() sanity check failed"
  else Done (u32 (u32 (len - 1) * ALLOC_SIZE)).

(** ** Well-formed slabs *)

Definition wf (s : Slab) : Prop :=
  words (bitmap s) ∧ pieces s = bits_len (bitmap s) ∧ 0 < pieces s < 2 ^ 26 ∧
  free_pieces s = pieces s ∧ lock s = false ∧
  bytes (rest s) ∧ 0 ≤ pad s < 32 ∧ Z.of_nat (length (rest s)) = pad s + pieces s * ALLOC_SIZE ∧
  0 < data s ∧ data s + pieces s * ALLOC_SIZE < 2 ^ 64.

(** Word [k] past the bitmap reads as all ones; some word past it does. *)
Definition sentinel (s : Slab) (k : Z) : bool :=
  match get (rest s) (4 * k) 4 with
  | Done bs => le_value bs =? 2 ^ 32 - 1
  | _ => false
  end.
Definition has_sentinel (s : Slab) : bool :=
  existsb (sentinel s) (seqZ 0 (Z.of_nat (length (rest s)))).

(** ** Word accesses *)

Lemma rdw_in s ii w : bitmap s !! Z.to_nat ii = Some w → 0 ≤ ii → rdw s ii = Done w.
Proof.
  intros Hw Hii. unfold rdw. pose proof Hw as Hlt%lookup_lt_Some.
  destruct (Z.ltb_spec ii (Z.of_nat (length (bitmap s)))); [|lia]. by apply rd_Done.
Qed.

Lemma wrw_in s ii v :
  0 ≤ ii < Z.of_nat (length (bitmap s)) →
  wrw s ii v = Done (set_bitmap s (<[Z.to_nat ii := v]> (bitmap s))).
Proof.
  intros Hii. unfold wrw. destruct (Z.ltb_spec ii (Z.of_nat (length (bitmap s)))); [|lia].
  by rewrite wr_in_range.
Qed.

Lemma rdw_out s ii :
  Z.of_nat (length (bitmap s)) ≤ ii →
  rdw s ii = bs ← get (rest s) (4 * (ii - Z.of_nat (length (bitmap s)))) 4; Done (le_value bs).
Proof.
  intros. unfold rdw. destruct (Z.ltb_spec ii (Z.of_nat (length (bitmap s)))); [lia|done].
Qed.

(** Reading the word just past the bitmap and writing it back is harmless. *)
Lemma rdw_wrw_past s :
  bytes (rest s) → 4 ≤ Z.of_nat (length (rest s)) →
  ∃ w, rdw s (Z.of_nat (length (bitmap s))) = Done w ∧
       wrw s (Z.of_nat (length (bitmap s))) w = Done s.
Proof.
  intros Hb Hlen. unfold rdw, wrw. rewrite Z.ltb_irrefl, Z.sub_diag, Z.mul_0_r.
  destruct (get_in_range (rest s) 0 4) as (bs & Hbs & Hlbs); [lia..|].
  exists (le_value bs). rewrite Hbs. split; [done|].
  assert (le_bytes 4 (le_value bs) = bs) as ->
    by (rewrite <-Hlbs; apply le_bytes_value; by eapply get_bytes).
  rewrite (put_get_id (rest s) bs 0); [by destruct s|by rewrite Hlbs].
Qed.

(** ** [mark] and [unmark] are one loop *)

Section Update.
Context (f : Z → Z → Z) (b : bool).
Hypothesis f_bits : ∀ w ib k, 0 ≤ ib < 32 → 0 ≤ k < 32 →
  Z.testbit (f w ib) k = if ib =? k then b else Z.testbit w k.
Hypothesis f_bound : ∀ w ib, 0 ≤ ib < 32 → 0 ≤ w < 2 ^ 32 → 0 ≤ f w ib < 2 ^ 32.

Fixpoint upd_loop (n : nat) (s : Slab) (buffer ii ib : Z) : outcome Slab :=
  match n with
  | O => wrw s ii buffer
  | S n =>
      let buffer := f buffer ib in
      let ib := u32 (ib + 1) in
      if ib >=? 32 then
        s ← wrw s ii buffer;
        let ii := u32 (ii + 1) in
        buffer ← rdw s ii;
        upd_loop n s buffer ii 0
      else upd_loop n s buffer ii ib
  end.

Lemma upd_loop_spec n s buffer ii ib i :
  words (bitmap s) → bytes (rest s) → 4 ≤ Z.of_nat (length (rest s)) →
  cursor i ii ib → i + Z.of_nat n ≤ bits_len (bitmap s) → bits_len (bitmap s) < 2 ^ 32 →
  ii < Z.of_nat (length (bitmap s)) → 0 ≤ buffer < 2 ^ 32 →
  ∃ bm, upd_loop n s buffer ii ib = Done (set_bitmap s bm) ∧
    words bm ∧ length bm = length (bitmap s) ∧
    ∀ j, 0 ≤ j → bit_at bm j = if in_run i (Z.of_nat n) j then b
                  else bit_at (<[Z.to_nat ii := buffer]> (bitmap s)) j.
Proof.
  revert s buffer ii ib i.
  induction n as [|n IH]; intros s buffer ii ib i Hws Hby Hr Hc Hi Hmax Hii Hbuf; simpl.
  { pose proof Hc as (_ & ? & _). rewrite wrw_in by lia.
    eexists; split_and!; [done|by apply words_insert|by rewrite length_insert|].
    intros j Hj. by rewrite in_run_0. }
  pose proof Hc as (-> & Hii0 & Hib). rewrite (wrap_small 32 (ib + 1)), Z.geb_leb by lia.
  set (buf := f buffer ib). set (bm0 := <[Z.to_nat ii := buffer]> (bitmap s)).
  set (bm1 := <[Z.to_nat ii := buf]> (bitmap s)).
  assert (Hbuf' : 0 ≤ buf < 2 ^ 32) by (by apply f_bound).
  assert (Hstep : ∀ j, 0 ≤ j → bit_at bm1 j = if 32 * ii + ib =? j then b else bit_at bm0 j).
  { intros j Hj. replace bm1 with (<[Z.to_nat ii := buf]> bm0)
      by (unfold bm0, bm1; by rewrite list_insert_insert_eq).
    apply (bit_at_update bm0 ii buffer buf b j ib); [lia|lia| |done|by intros; apply f_bits].
    unfold bm0. apply list_lookup_insert_eq. lia. }
  assert (Hgoal : ∀ bm, (∀ j, 0 ≤ j → bit_at bm j =
      if in_run (32 * ii + ib + 1) (Z.of_nat n) j then b else bit_at bm1 j) →
    ∀ j, 0 ≤ j → bit_at bm j =
      if in_run (32 * ii + ib) (Z.of_nat (S n)) j then b else bit_at bm0 j).
  { intros bm Hbm j Hj. rewrite Hbm, Hstep, (in_run_cons (32 * ii + ib)) by lia.
    replace (Z.of_nat (S n) - 1) with (Z.of_nat n) by lia.
    by destruct (in_run _ _ j), (32 * ii + ib =? j). }
  destruct (Z.leb_spec 32 (ib + 1)) as [Hov|Hin].
  - rewrite wrw_in by lia. simpl. fold bm1. rewrite wrap_small by lia.
    destruct (decide (ii + 1 < Z.of_nat (length (bitmap s)))) as [Hlt|Hge].
    + destruct (rd_in_range bm1 (ii + 1)) as (w & _ & Hw); [unfold bm1; rewrite length_insert; lia|].
      rewrite (rdw_in (set_bitmap s bm1) _ w) by (done || lia). simpl.
      edestruct (IH (set_bitmap s bm1) w (ii + 1) 0) as (bm & Hrun & Hw' & Hl & Hb); cbn [bitmap rest set_bitmap];
        [by apply words_insert|done|done| | | | | |].
      * replace (32 * ii + ib + 1) with (32 * (ii + 1) + 0) by lia.
        instantiate (1 := 32 * ii + ib + 1). unfold cursor. lia.
      * unfold bits_len, bm1 in *. rewrite length_insert. lia.
      * unfold bits_len, bm1 in *. rewrite length_insert. lia.
      * unfold bm1. rewrite length_insert. lia.
      * eapply words_lookup; [|exact Hw]. by apply words_insert.
      * exists bm. split_and!; [done|done|unfold bm1 in Hl; simpl in Hl; by rewrite length_insert in Hl|].
        apply Hgoal. intros j Hj. rewrite Hb by done. cbn [bitmap set_bitmap].
        by rewrite list_insert_id.
    + assert (n = 0%nat) as -> by (unfold bits_len in *; lia).
      destruct (rdw_wrw_past (set_bitmap s bm1)) as (w & Hrw & Hww); [done|done|].
      cbn [bitmap set_bitmap] in Hrw, Hww. unfold bm1 in Hrw, Hww. rewrite length_insert in Hrw, Hww.
      replace (ii + 1) with (Z.of_nat (length (bitmap s))) by lia. fold bm1 in Hrw, Hww.
      rewrite Hrw. simpl. rewrite Hww. exists bm1.
      split_and!; [done|by apply words_insert|by unfold bm1; rewrite length_insert|].
      apply Hgoal. intros j Hj. by rewrite in_run_0.
  - edestruct (IH s buf ii (ib + 1)) as (bm & Hrun & Hw' & Hl & Hb);
      [done|done|done| | |done|done|done|].
    + instantiate (1 := 32 * ii + ib + 1). unfold cursor. lia.
    + lia.
    + exists bm. split_and!; [done..|]. by apply Hgoal.
Qed.

End Update.

Lemma mark_loop_upd n s buffer ii ib :
  mark_loop n s buffer ii ib = upd_loop (λ w ib, Z.lor w (bit_mask ib)) n s buffer ii ib.
Proof.
  revert s buffer ii ib. induction n as [|n IH]; intros; simpl; [done|].
  rewrite IH. destruct (_ >=? 32); [|done].
  destruct (wrw s ii _) as [s'| |]; simpl; [|done..].
  destruct (rdw s' _); simpl; [apply IH|done..].
Qed.

Lemma unmark_loop_upd n s buffer ii ib :
  unmark_loop n s buffer ii ib =
  upd_loop (λ w ib, Z.land w (Z.lnot (bit_mask ib))) n s buffer ii ib.
Proof.
  revert s buffer ii ib. induction n as [|n IH]; intros; simpl; [done|].
  rewrite IH. destruct (_ >=? 32); [|done].
  destruct (wrw s ii _) as [s'| |]; simpl; [|done..].
  destruct (rdw s' _); simpl; [apply IH|done..].
Qed.

(** What a marked or unmarked run leaves. *)
Definition run_set (bm bm' : list Z) (st n : Z) (b : bool) : Prop :=
  words bm' ∧ length bm' = length bm ∧
  ∀ j, 0 ≤ j → bit_at bm' j = if in_run st n j then b else bit_at bm j.

Lemma update_spec f b s st n :
  (∀ w ib k, 0 ≤ ib < 32 → 0 ≤ k < 32 →
     Z.testbit (f w ib) k = if ib =? k then b else Z.testbit w k) →
  (∀ w ib, 0 ≤ ib < 32 → 0 ≤ w < 2 ^ 32 → 0 ≤ f w ib < 2 ^ 32) →
  wf s → 0 ≤ st → 0 < n → st + n ≤ pieces s →
  ∃ bm, (buffer ← rdw s (st / 32);
         upd_loop f (Z.to_nat n) s buffer (st / 32) (st mod 32)) = Done (set_bitmap s bm) ∧
    run_set (bitmap s) bm st n b.
Proof.
  intros Hf1 Hf2 (Hws & Hpc & Hpb & _ & _ & Hby & Hpad & Hlen & _) Hst Hn Hle.
  assert (Hc : cursor st (st / 32) (st mod 32)) by (apply cursor_start; lia).
  destruct (cursor_word (bitmap s) st (st / 32) (st mod 32) Hc) as (w & Hrd & Hw & _); [lia|].
  pose proof Hc as (_ & ? & _). pose proof Hw as Hlt%lookup_lt_Some.
  rewrite (rdw_in _ _ w) by (done || lia). simpl.
  edestruct (upd_loop_spec f b Hf1 Hf2 (Z.to_nat n) s w) as (bm & -> & Hw' & Hl & Hb);
    [done|done|unfold ALLOC_SIZE in *; unfold bits_len in *; lia|exact Hc|lia|lia|lia|by eapply words_lookup|].
  exists bm. split; [done|]. split_and!; [done..|]. intros j Hj.
  rewrite Hb, list_insert_id, Z2Nat.id by (done || lia). done.
Qed.

Lemma mark_spec s st n :
  wf s → 0 ≤ st → 0 < n → st + n ≤ pieces s →
  ∃ bm, mark s st n = Done (set_bitmap s bm) ∧ run_set (bitmap s) bm st n true.
Proof.
  intros Hwf Hst Hn Hle. unfold mark. destruct (Z.eqb_spec n 0); [lia|].
  setoid_rewrite mark_loop_upd. apply update_spec; try done.
  - intros. rewrite lor_mask_testbit by lia. destruct (ib =? k); [apply orb_true_r|apply orb_false_r].
  - intros. by apply lor_mask_bound.
Qed.

Lemma unmark_spec s st n :
  wf s → 0 ≤ st → 0 < n → st + n ≤ pieces s →
  ∃ bm, unmark s st n = Done (set_bitmap s bm) ∧ run_set (bitmap s) bm st n false.
Proof.
  intros Hwf Hst Hn Hle. unfold unmark. destruct (Z.eqb_spec n 0); [lia|].
  setoid_rewrite unmark_loop_upd. apply update_spec; try done.
  - intros. rewrite clear_mask_testbit by lia. destruct (ib =? k); [apply andb_false_r|apply andb_true_r].
  - intros. by apply clear_mask_bound.
Qed.

(** ** [findFree] *)

(** The state of the scan as [findFree] keeps it. *)
Definition scan_start (index combo : Z) : Z := if combo =? 0 then -1 else index - combo.

Lemma scan_word_spec n bm buffer ii i index combo amount :
  (∀ k, 0 ≤ k < 32 → bit_at bm (32 * ii + k) = Z.testbit buffer k) →
  index = 32 * ii + i → 0 ≤ i → i + Z.of_nat n ≤ 32 → 0 ≤ ii →
  index + Z.of_nat n < 2 ^ 32 → amount < 2 ^ 32 → scan_inv bm amount index combo →
  match scan_word n buffer i index combo (scan_start index combo) amount with
  | inl (index', combo', start') =>
      index' = index + Z.of_nat n ∧ scan_inv bm amount index' combo' ∧
      start' = scan_start index' combo'
  | inr r => ∀ size, index + Z.of_nat n ≤ size → first_fit bm size amount r
  end.
Proof.
  revert i index combo.
  induction n as [|n IH]; intros i index combo Hbits Hidx Hi Hn Hii Hmax Ham Hinv; simpl.
  { replace (index + Z.of_nat 0) with index by lia. done. }
  rewrite land_mask_zero, <-Hbits, <-Hidx by lia.
  pose proof Hinv as (Hf & Hfi & _). rewrite (wrap_small 32 (index + 1)) by lia.
  replace (index + Z.of_nat (S n)) with (index + 1 + Z.of_nat n) by lia.
  destruct (bit_at bm index) eqn:Hb; simpl.
  - apply (IH (i + 1) (index + 1) 0); try done || lia. by eapply scan_inv_taken.
  - rewrite (wrap_small 32 (combo + 1)) by lia.
    assert ((if scan_start index combo =? -1 then index else scan_start index combo) = index - combo)
      as ->.
    { unfold scan_start. destruct (Z.eqb_spec combo 0) as [->|]; simpl; [lia|].
      destruct (Z.eqb_spec (index - combo) (-1)); lia. }
    destruct (Z.eqb_spec (combo + 1) amount).
    + intros size Hsize. eapply scan_inv_hit; eauto; lia.
    + replace (index - combo) with (scan_start (index + 1) (combo + 1))
        by (unfold scan_start; destruct (Z.eqb_spec (combo + 1) 0); lia).
      apply (IH (i + 1) (index + 1) (combo + 1)); try done || lia.
      eapply scan_inv_free; eauto; lia.
Qed.

(** An all-ones word restarts the scan after it. *)
Lemma scan_inv_skip bm amount i combo n :
  scan_inv bm amount i combo → taken_run bm i (Z.of_nat (S n)) →
  scan_inv bm amount (i + Z.of_nat (S n)) 0.
Proof.
  revert i combo. induction n as [|n IH]; intros i combo Hinv Ht.
  - eapply scan_inv_taken; [done|]. apply Ht. lia.
  - replace (i + Z.of_nat (S (S n))) with (i + 1 + Z.of_nat (S n)) by lia.
    apply (IH (i + 1) 0).
    + eapply scan_inv_taken; [done|]. apply Ht. lia.
    + intros j Hj. apply Ht. lia.
Qed.

Lemma ones_testbit k : 0 ≤ k < 32 → Z.testbit (2 ^ 32 - 1) k = true.
Proof. intros. change (2 ^ 32 - 1) with (Z.ones 32). apply Z.ones_spec_low. lia. Qed.

(** Past the bitmap the loop can only leave through an all-ones word. *)
Lemma findFree_overrun_fault fuel s k combo start amount :
  wf s → 0 ≤ k ≤ Z.of_nat (length (rest s)) → (∀ k', k ≤ k' → sentinel s k' = false) →
  findFree_loop fuel s (pieces s) (Z.of_nat (length (bitmap s)) + k) combo start amount = Fault.
Proof.
  intros Hwf. revert k combo start. induction fuel as [|fuel IH]; intros k combo start Hk Hno; simpl; [done|].
  rewrite Z.leb_refl, rdw_out by lia.
  replace (Z.of_nat (length (bitmap s)) + k - Z.of_nat (length (bitmap s))) with k by lia.
  pose proof (Hno k ltac:(lia)) as Hs. unfold sentinel in Hs.
  destruct (get (rest s) (4 * k) 4) as [bs| |] eqn:Hget; simpl; [|by unfold get in Hget; destruct (_ && _)|done].
  rewrite Hs, Z.sub_diag. simpl. apply get_Done in Hget as (_ & _ & ? & _).
  destruct Hwf as (_ & Hpc & Hpb & _ & _ & _ & Hpad & Hlen & _). unfold bits_len, ALLOC_SIZE in *.
  rewrite wrap_small by lia.
  replace (Z.of_nat (length (bitmap s)) + k + 1) with (Z.of_nat (length (bitmap s)) + (k + 1)) by lia.
  apply IH; [lia|]. intros. apply Hno. lia.
Qed.

Lemma findFree_overrun_stop d fuel s k combo start amount :
  wf s → 0 ≤ k → sentinel s (k + Z.of_nat d) = true → (d + 2 ≤ fuel)%nat →
  findFree_loop fuel s (pieces s) (Z.of_nat (length (bitmap s)) + k) combo start amount = Done (-1).
Proof.
  intros Hwf. revert fuel k combo start.
  induction d as [|d IH]; intros [|fuel] k combo start Hk Hs Hfuel; try lia; simpl;
    rewrite Z.leb_refl, rdw_out by lia;
    replace (Z.of_nat (length (bitmap s)) + k - Z.of_nat (length (bitmap s))) with k by lia;
    destruct (sentinel s k) eqn:Hk0.
  1, 3: unfold sentinel in Hk0; destruct (get (rest s) (4 * k) 4) as [bs| |]; try done;
    simpl; rewrite Hk0; destruct Hwf as (_ & _ & Hpb & _);
    destruct fuel as [|fuel]; [lia|]; simpl;
    rewrite wrap_small by lia; by destruct (Z.leb_spec (pieces s + 32) (pieces s)); [lia|].
  - replace (k + Z.of_nat 0) with k in Hs by lia. congruence.
  - pose proof Hs as Hs'. unfold sentinel in Hs'.
    destruct (get (rest s) (4 * (k + Z.of_nat (S d))) 4) as [bs'| |] eqn:Hget'; try done.
    apply get_Done in Hget' as (_ & _ & Hr & _).
    destruct (get_in_range (rest s) (4 * k) 4) as (bs & Hget & _); [lia..|].
    unfold sentinel in Hk0. rewrite Hget in *. simpl. rewrite Hk0, Z.sub_diag. simpl.
    pose proof Hwf as (_ & Hpc & Hpb & _ & _ & _ & Hpad & Hlen & _). unfold bits_len, ALLOC_SIZE in *.
    rewrite wrap_small by lia.
    replace (Z.of_nat (length (bitmap s)) + k + 1) with (Z.of_nat (length (bitmap s)) + (k + 1)) by lia.
    apply IH; [lia| |lia]. rewrite <-Hs. f_equal. lia.
Qed.

(** The loop over the bitmap itself: it stops at the first fit, or arrives at
    its end without one. *)
Lemma findFree_loop_spec m fuel s ii combo amount :
  wf s → 0 ≤ ii → ii + Z.of_nat m = Z.of_nat (length (bitmap s)) → amount < 2 ^ 32 →
  scan_inv (bitmap s) amount (32 * ii) combo →
  (∃ r, findFree_loop (m + fuel) s (32 * ii) ii combo (scan_start (32 * ii) combo) amount = Done r ∧
     first_fit (bitmap s) (pieces s) amount r) ∨
  ((∀ r, ¬ first_fit (bitmap s) (pieces s) amount r) ∧
   ∃ combo' start', findFree_loop (m + fuel) s (32 * ii) ii combo (scan_start (32 * ii) combo) amount =
     findFree_loop fuel s (pieces s) (Z.of_nat (length (bitmap s)) + 0) combo' start' amount).
Proof.
  intros Hwf. pose proof Hwf as (Hws & Hpc & Hpb & _). unfold bits_len in Hpc.
  revert ii combo. induction m as [|m IH]; intros ii combo Hii Hm Ham Hinv.
  { right. replace ii with (Z.of_nat (length (bitmap s))) in * by lia. rewrite <-Hpc in *.
    split; [intros r; by eapply scan_inv_none|]. exists combo, (scan_start (pieces s) combo).
    simpl. by rewrite Z.add_0_r. }
  destruct (rd_in_range (bitmap s) ii) as (w & _ & Hw); [lia|].
  assert (Hbits : ∀ k, 0 ≤ k < 32 → bit_at (bitmap s) (32 * ii + k) = Z.testbit w k)
    by (intros; by apply bit_at_cursor).
  simpl. destruct (Z.leb_spec (32 * ii) (pieces s)); [|lia].
  rewrite (rdw_in s ii w) by done. simpl. rewrite (wrap_small 32 (ii + 1)) by lia.
  destruct (Z.eqb_spec w (2 ^ 32 - 1)) as [->|Hne].
  - rewrite wrap_small by lia. replace (32 * ii + 32) with (32 * (ii + 1)) by lia.
    apply (IH (ii + 1) 0); [lia|lia|done|].
    replace (32 * (ii + 1)) with (32 * ii + Z.of_nat (S 31)) by lia.
    eapply scan_inv_skip; [done|]. intros j Hj.
    replace j with (32 * ii + (j - 32 * ii)) by lia. rewrite Hbits by lia. apply ones_testbit. lia.
  - rewrite (wrap_small 64), Z.min_r by lia.
    pose proof (scan_word_spec (Z.to_nat 32) (bitmap s) w ii 0 (32 * ii) combo amount Hbits
      ltac:(lia) ltac:(lia) ltac:(lia) Hii ltac:(lia) Ham Hinv) as Hscan.
    destruct (scan_word _ _ _ _ _ _ _) as [[[index' combo'] start']|r].
    + destruct Hscan as (-> & Hinv' & ->).
      replace (32 * ii + Z.of_nat (Z.to_nat 32)) with (32 * (ii + 1)) in * by lia.
      apply (IH (ii + 1) combo'); [lia|lia|done|done].
    + left. exists r. split; [done|]. apply Hscan. lia.
Qed.

Lemma has_sentinel_false s k : has_sentinel s = false → 0 ≤ k → sentinel s k = false.
Proof.
  intros Hno Hk. destruct (sentinel s k) eqn:E; [|done].
  unfold has_sentinel in Hno. apply not_true_iff_false in Hno. exfalso. apply Hno.
  apply existsb_exists. exists k. split; [|done]. apply list_elem_of_In, elem_of_seqZ.
  unfold sentinel in E. destruct (get (rest s) (4 * k) 4) eqn:G; try done.
  apply get_Done in G as (_ & _ & ? & _). lia.
Qed.

Lemma findFree_spec s amount :
  wf s → 0 < amount ≤ pieces s →
  (∃ r, findFree s amount = Done r ∧ first_fit (bitmap s) (pieces s) amount r) ∨
  ((∀ r, ¬ first_fit (bitmap s) (pieces s) amount r) ∧
   findFree s amount = if has_sentinel s then Done (-1) else Fault).
Proof.
  intros Hwf Ham. pose proof Hwf as (_ & _ & Hpb & Hfp & _). unfold findFree, findFree_fuel.
  rewrite Hfp, Z.gtb_ltb. destruct (Z.ltb_spec (pieces s) amount); [lia|].
  destruct (Z.eqb_spec amount 0); [lia|]. simpl.
  replace (length (bitmap s) + length (rest s) + 2)%nat
    with (length (bitmap s) + (length (rest s) + 2))%nat by lia.
  destruct (findFree_loop_spec (length (bitmap s)) (length (rest s) + 2) s 0 0 amount)
    as [(r & Hr & Hff)|(Hno & combo & start & Hr)];
    [done|lia|lia|lia|apply scan_inv_start; lia|left; eauto|right; split; [done|]].
  change (32 * 0) with 0 in Hr. change (scan_start 0 0) with (-1) in Hr. rewrite Hr.
  destruct (has_sentinel s) eqn:Hs.
  - apply existsb_exists in Hs as (k & Hk & Hsk).
    apply list_elem_of_In, elem_of_seqZ in Hk.
    apply (findFree_overrun_stop (Z.to_nat k)); [done|lia|by rewrite Z.add_0_l, Z2Nat.id by lia|lia].
  - apply findFree_overrun_fault; [done|lia|]. intros. by apply has_sentinel_false.
Qed.

(** ** Live blocks

    The abstract state of a slab: the map from the first piece of each live
    block (its header) to the number of its pieces. *)

Definition covered (B : gmap Z Z) (j : Z) : Prop :=
  ∃ st n, B !! st = Some n ∧ st ≤ j < st + n.

Definition ptr_of (s : Slab) (st : Z) : Z := data s + st * ALLOC_SIZE + ALLOC_SIZE.

Definition header_at (s : Slab) (st n : Z) : Prop :=
  read_header s (data s + st * ALLOC_SIZE) = Done (Z.lxor (ptr_of s st) SANITY_XOR, n).

(** The bytes of a block after its header. *)
Definition contents (s : Slab) (st n : Z) : outcome (list Z) :=
  get (rest s) (off s (ptr_of s st)) ((n - 1) * ALLOC_SIZE).

Definition live (s : Slab) (B : gmap Z Z) : Prop :=
  wf s ∧
  (∀ j, 0 ≤ j < pieces s → bit_at (bitmap s) j = true ↔ covered B j) ∧
  (∀ st n, B !! st = Some n → 0 ≤ st ∧ 0 < n ∧ st + n ≤ pieces s ∧ header_at s st n) ∧
  (∀ st n st' n', B !! st = Some n → B !! st' = Some n' → st ≠ st' →
     st + n ≤ st' ∨ st' + n' ≤ st).

(** [alloc] for a request of [size] bytes takes this many pieces. *)
Definition need (size : Z) : Z := (size + ALLOC_SIZE + 15) / ALLOC_SIZE.

Lemma need_bounds size : 0 < size → size < 2 ^ 40 →
  ceilToPiece (u64 (size + ALLOC_SIZE)) = need size ∧
  size ≤ (need size - 1) * ALLOC_SIZE < size + ALLOC_SIZE ∧ 2 ≤ need size.
Proof.
  intros Hs Hb. unfold ceilToPiece, need, ALLOC_SIZE. rewrite wrap_small by lia.
  destruct (int_ceil_spec 64 (size + 16) 16) as (-> & _ & _); [lia..|].
  replace (size + 16 + 16 - 1) with (size + 16 + 15) by lia.
  rewrite Z.div_mul by lia.
  pose proof (Z.div_mod (size + 16 + 15) 16 ltac:(lia)).
  pose proof (Z.mod_pos_bound (size + 16 + 15) 16 ltac:(lia)). lia.
Qed.

(** [r] agrees with the slab's memory outside the pieces [st .. st + n - 1]. *)
Definition same_outside (s : Slab) (r : list Z) (st n : Z) : Prop :=
  ∀ o m, o + m ≤ pad s + st * ALLOC_SIZE ∨ pad s + (st + n) * ALLOC_SIZE ≤ o →
    get r o m = get (rest s) o m.

(** The slab with a new bitmap and new memory, its lock released. *)
Definition updated (s : Slab) (bm r : list Z) : Slab :=
  set_lock (set_rest (set_bitmap s bm) r) false.

Lemma updated_wf s bm r :
  wf s → words bm → length bm = length (bitmap s) → bytes r → length r = length (rest s) →
  wf (updated s bm r).
Proof.
  intros (Hws & Hpc & Hpb & Hfp & Hlk & Hby & Hpad & Hlen & Hd & Hd') Hbm Hl Hr Hlr.
  unfold wf, bits_len in *; simpl. rewrite Hl, Hlr. split_and!; done || lia.
Qed.

Lemma updated_header s bm r st n st' n' :
  same_outside s r st n → 0 < n' → st + n ≤ st' ∨ st' + n' ≤ st →
  header_at s st' n' → header_at (updated s bm r) st' n'.
Proof.
  unfold header_at, read_header, off, ptr_of; simpl. intros Hsame Hn' Hdisj Hh.
  unfold same_outside, ALLOC_SIZE in *. by rewrite !Hsame by lia.
Qed.

Lemma updated_contents s bm r st n st' n' :
  same_outside s r st n → 0 < n' → st + n ≤ st' ∨ st' + n' ≤ st →
  contents (updated s bm r) st' n' = contents s st' n'.
Proof.
  unfold contents, off, ptr_of; simpl. intros Hsame Hn' Hdisj.
  unfold same_outside, ALLOC_SIZE in *. rewrite Hsame by lia. done.
Qed.

(** A free run keeps clear of every live block. *)
Lemma live_free_run s B st n st' n' :
  live s B → 0 ≤ st → 0 < n → st + n ≤ pieces s → free_run (bitmap s) st n →
  B !! st' = Some n' → st + n ≤ st' ∨ st' + n' ≤ st.
Proof.
  intros (_ & Hcov & Hblk & _) Hst Hn Hle Hrun HB. destruct (Hblk _ _ HB) as (? & ? & ? & _).
  destruct (decide (st + n ≤ st')) as [|]; [by left|].
  destruct (decide (st' + n' ≤ st)) as [|]; [by right|]. exfalso.
  assert (bit_at (bitmap s) (st `max` st') = true) as Hb.
  { apply Hcov; [lia|]. exists st', n'. split; [done|lia]. }
  rewrite Hrun in Hb; [done|lia].
Qed.

(** Taking a free run and writing its header adds a live block. *)
Lemma live_insert s B bm r st n :
  live s B → 0 ≤ st → 0 < n → st + n ≤ pieces s → free_run (bitmap s) st n →
  run_set (bitmap s) bm st n true → bytes r → length r = length (rest s) →
  same_outside s r st n → header_at (updated s bm r) st n →
  live (updated s bm r) (<[st := n]> B).
Proof.
  intros Hlive Hst Hn Hle Hrun (Hbm & Hbl & Hbits) Hr Hrl Hsame Hhdr.
  assert (Hsep : ∀ st' n', B !! st' = Some n' → st + n ≤ st' ∨ st' + n' ≤ st)
    by (intros; by eapply live_free_run).
  pose proof Hlive as (Hwf & Hcov & Hblk & Hdis). split_and!.
  - by apply updated_wf.
  - simpl. intros j Hj. rewrite Hbits by lia. destruct (in_run st n j) eqn:E.
    + split; [|done]. intros _. exists st, n. rewrite lookup_insert_eq.
      split; [done|]. by apply in_run_true.
    + apply in_run_false in E. rewrite (Hcov j Hj). split; intros (st' & n' & HB & Hr').
      * exists st', n'. rewrite lookup_insert_ne; [done|]. intros <-. destruct (Hsep _ _ HB); lia.
      * rewrite lookup_insert in HB. case_decide; [simplify_eq; lia|]. by exists st', n'.
  - intros st' n'. rewrite lookup_insert. case_decide as Heq.
    + subst st'. intros [= <-]. done.
    + intros HB. destruct (Hblk _ _ HB) as (? & ? & ? & Hh). split_and!; [lia|lia|done|].
      eapply updated_header; eauto.
  - intros st1 n1 st2 n2. rewrite !lookup_insert.
    case_decide; case_decide; intros H1 H2 Hne; simplify_eq; eauto.
    destruct (Hsep _ _ H1); auto.
Qed.

(** Clearing the run of a live block removes it. *)
Lemma live_delete s B bm r st n :
  live s B → B !! st = Some n → run_set (bitmap s) bm st n false →
  bytes r → length r = length (rest s) → same_outside s r st n →
  live (updated s bm r) (delete st B).
Proof.
  intros (Hwf & Hcov & Hblk & Hdis) HB (Hbm & Hbl & Hbits) Hr Hrl Hsame.
  destruct (Hblk _ _ HB) as (Hst & Hn & Hle & _). split_and!.
  - by apply updated_wf.
  - simpl. intros j Hj. rewrite Hbits by lia. destruct (in_run st n j) eqn:E.
    + split; [done|]. intros (st' & n' & [Hne HB']%lookup_delete_Some & Hr').
      apply in_run_true in E. destruct (Hdis _ _ _ _ HB HB' Hne); lia.
    + apply in_run_false in E. rewrite (Hcov j Hj). split; intros (st' & n' & HB' & Hr').
      * exists st', n'. rewrite lookup_delete_ne; [done|]. intros <-. simplify_eq. lia.
      * apply lookup_delete_Some in HB' as [_ HB']. by exists st', n'.
  - intros st' n' [Hne HB']%lookup_delete_Some.
    destruct (Hblk _ _ HB') as (? & ? & ? & Hh). split_and!; [lia|lia|done|].
    eapply updated_header; eauto.
  - intros st1 n1 st2 n2 [_ H1]%lookup_delete_Some [_ H2]%lookup_delete_Some. eauto.
Qed.

Lemma header_bytes_length ptr len : Z.of_nat (length (header_bytes ptr len)) = 12.
Proof. unfold header_bytes. rewrite length_app, Nat2Z.inj_add, !le_bytes_length; lia. Qed.

Lemma header_bytes_bytes ptr len : bytes (header_bytes ptr len).
Proof. apply Forall_app; split; by apply le_bytes_bytes. Qed.

Lemma header_bytes_read ptr len :
  0 ≤ ptr < 2 ^ 64 → 0 ≤ len < 2 ^ 32 →
  (sanity ← get (header_bytes ptr len) 0 8; l ← get (header_bytes ptr len) 8 4;
   Done (le_value sanity, le_value l)) = Done (Z.lxor ptr SANITY_XOR, len).
Proof.
  intros Hp Hl. unfold header_bytes. set (a := le_bytes 8 _). set (b := le_bytes 4 _).
  pose proof (le_bytes_length 8 (Z.lxor ptr SANITY_XOR) ltac:(lia)) as Ha.
  pose proof (le_bytes_length 4 len ltac:(lia)) as Hb. fold a in Ha. fold b in Hb.
  assert (get (a ++ b) 0 8 = Done a) as ->.
  { apply get_Done. rewrite length_app. split_and!; try lia. intros i Hi. by rewrite lookup_app_l by lia. }
  assert (get (a ++ b) 8 4 = Done b) as ->.
  { apply get_Done. rewrite length_app. split_and!; try lia. intros i Hi.
    rewrite lookup_app_r by lia. f_equal. lia. }
  simpl. unfold a, b. rewrite !le_value_bytes by lia. rewrite (wrap_small (8 * 4) len) by lia.
  rewrite wrap_small; [done|]. by apply lxor_bound.
Qed.

(** The two stores of [alloc]: zeros over the run, then the header. *)
Lemma alloc_stores s bm st n :
  wf s → 0 ≤ st → 1 < n → st + n ≤ pieces s →
  ∃ r, (r ← put (rest s) (pad s + st * ALLOC_SIZE) (replicate (Z.to_nat (n * ALLOC_SIZE)) 0);
        put r (pad s + st * ALLOC_SIZE) (header_bytes (ptr_of s st) n)) = Done r ∧
    bytes r ∧ length r = length (rest s) ∧ same_outside s r st n ∧
    header_at (updated s bm r) st n ∧
    contents (updated s bm r) st n = Done (replicate (Z.to_nat ((n - 1) * ALLOC_SIZE)) 0).
Proof.
  intros (Hws & Hpc & Hpb & Hfp & Hlk & Hby & Hpad & Hlen & Hd & Hd') Hst Hn Hle.
  unfold ALLOC_SIZE in *.
  destruct (put_in_range (rest s) (replicate (Z.to_nat (n * 16)) 0) (pad s + st * 16))
    as [r1 Hr1]; [lia|rewrite length_replicate; lia|].
  pose proof Hr1 as (_ & _ & Hl1 & _)%put_Done. pose proof (header_bytes_length (ptr_of s st) n) as Hhl.
  destruct (put_in_range r1 (header_bytes (ptr_of s st) n) (pad s + st * 16)) as [r Hr2]; [lia..|].
  pose proof Hr2 as (_ & _ & Hl2 & _)%put_Done.
  exists r. rewrite Hr1; simpl. split_and!; [done| |congruence|..].
  - eapply put_bytes; [|apply header_bytes_bytes|exact Hr2].
    eapply put_bytes; [exact Hby| |exact Hr1]. by apply Forall_replicate.
  - intros o m Hdisj. unfold ALLOC_SIZE in Hdisj.
    rewrite (get_put_other _ _ _ _ _ _ Hr2), (get_put_other _ _ _ _ _ _ Hr1);
      rewrite ?length_replicate; [done|lia..].
  - unfold header_at, read_header, off, ALLOC_SIZE; simpl.
    replace (pad s + (data s + st * 16 - data s)) with (pad s + st * 16) by lia.
    rewrite !(get_put_sub _ _ _ _ _ _ Hr2) by lia. rewrite Z.sub_diag.
    replace (pad s + st * 16 + 8 - (pad s + st * 16)) with 8 by lia.
    change (ptr_of (updated s bm r) st) with (ptr_of s st).
    apply header_bytes_read; unfold ptr_of, ALLOC_SIZE; lia.
  - unfold contents, off, ptr_of, ALLOC_SIZE; simpl.
    rewrite (get_put_other _ _ _ _ _ _ Hr2) by lia.
    rewrite (get_put_sub _ _ _ _ _ _ Hr1) by (rewrite ?length_replicate; lia).
    apply get_Done. rewrite !length_replicate. split_and!; try lia.
    intros i Hi. by rewrite !lookup_replicate_2 by lia.
Qed.

Lemma alloc_fit s B hf sz st :
  live s B → 0 < sz < 2 ^ 40 → first_fit (bitmap s) (pieces s) (need sz) st →
  ∃ s', alloc s hf sz = Done (ptr_of s st, s', u64 (hf - u64 (need sz * ALLOC_SIZE))) ∧
    live s' (<[st := need sz]> B) ∧ B !! st = None ∧ data s' = data s ∧ pieces s' = pieces s ∧
    contents s' st (need sz) = Done (replicate (Z.to_nat ((need sz - 1) * ALLOC_SIZE)) 0) ∧
    (∀ st' n', B !! st' = Some n' → contents s' st' n' = contents s st' n').
Proof.
  intros Hlive Hsz Hff. pose proof Hff as (Hst & Hle & Hrun & _).
  pose proof Hlive as (Hwf & _ & Hblk & _).
  pose proof Hwf as (_ & _ & Hpb & _ & Hlk & _ & _ & _ & Hd & Hd').
  destruct (need_bounds sz) as (Hcp & Hn1 & Hn2); [lia..|]. set (n := need sz) in *.
  destruct (mark_spec s st n Hwf) as (bm & Hmark & Hrs); [lia..|].
  destruct (alloc_stores s bm st n Hwf) as (r & Hput & Hr & Hrl & Hsame & Hhdr & Hzero); [lia..|].
  exists (updated s bm r). split_and!; [|by apply live_insert; auto; lia| |done|done|done|].
  - unfold alloc. destruct (Z.eqb_spec sz 0); [lia|]. rewrite Hlk, Hcp; simpl.
    rewrite (wrap_small 32 n) by lia.
    destruct (findFree_spec s n Hwf) as [(st' & -> & Hff')|(Hno & _)]; [lia| |by destruct (Hno st)].
    rewrite (first_fit_unique _ _ _ _ _ Hff' Hff). simpl.
    destruct (Z.eqb_spec st (-1)); [lia|]. rewrite (wrap_small 32 st), Hmark by lia. simpl.
    unfold ALLOC_SIZE in *. rewrite (wrap_small 64 (data s + st * 16)) by lia.
    rewrite (wrap_small 64 (data s + st * 16 + 16)) by lia.
    replace (off (set_bitmap s bm) (data s + st * 16)) with (pad s + st * 16) by (unfold off; simpl; lia).
    change (data s + st * 16 + 16) with (ptr_of s st).
    destruct (put (rest s) _ _) as [r1| |]; simpl in *; [|done..]. by rewrite Hput.
  - destruct (B !! st) as [n'|] eqn:HB; [|done].
    destruct (Hblk _ _ HB) as (_ & ? & _).
    destruct (live_free_run s B st n st n' Hlive) as [|]; [lia..|done|done|lia|lia].
  - intros st' n' HB. destruct (Hblk _ _ HB) as (? & ? & ? & _).
    eapply updated_contents; [done|lia|]. eapply live_free_run; eauto; lia.
Qed.

Lemma free_live s B hf st n :
  live s B → B !! st = Some n →
  ∃ s', free s hf (ptr_of s st) = Done (s', u64 (hf + u64 (n * ALLOC_SIZE))) ∧
    live s' (delete st B) ∧ data s' = data s ∧ pieces s' = pieces s ∧
    free_run (bitmap s') st n ∧
    (∀ st' n', st' ≠ st → B !! st' = Some n' → contents s' st' n' = contents s st' n') ∧
    get (rest s') (off s' (data s + st * ALLOC_SIZE)) (n * ALLOC_SIZE) =
      Done (replicate (Z.to_nat (n * ALLOC_SIZE)) 0x5A).
Proof.
  intros Hlive HB. pose proof Hlive as (Hwf & _ & Hblk & Hdis).
  pose proof Hwf as (_ & _ & Hpb & _ & Hlk & Hby & Hpad & Hlen & Hd & Hd').
  destruct (Hblk _ _ HB) as (Hst & Hn & Hle & Hhdr).
  destruct (unmark_spec s st n Hwf) as (bm & Hun & Hrs); [lia..|].
  unfold ALLOC_SIZE in *.
  destruct (put_in_range (rest s) (replicate (Z.to_nat (n * 16)) 0x5A) (pad s + st * 16))
    as [r Hr]; [lia|rewrite length_replicate; lia|].
  pose proof Hr as (_ & _ & Hrl & _)%put_Done.
  assert (Hsame : same_outside s r st n).
  { intros o m Hdisj. unfold ALLOC_SIZE in Hdisj. apply (get_put_other _ _ _ _ _ _ Hr).
    rewrite length_replicate. lia. }
  exists (updated s bm r). split_and!; [| |done|done| | |].
  - unfold free, ALLOC_SIZE. replace (ptr_of s st - 16) with (data s + st * 16)
      by (unfold ptr_of, ALLOC_SIZE; lia).
    rewrite (wrap_small 64 (data s + st * 16)) by lia.
    unfold header_at, ALLOC_SIZE in Hhdr. rewrite Hhdr; simpl. rewrite Z.eqb_refl, Hlk; simpl.
    replace (data s + st * 16 - data s) with (st * 16) by lia.
    rewrite (wrap_small 32 (st * 16)), Z.div_mul, Hun by lia. simpl.
    replace (off (set_bitmap s bm) (data s + st * 16)) with (pad s + st * 16) by (unfold off; simpl; lia).
    rewrite (wrap_small 32 (n * 16)), Hr by lia. done.
  - apply (live_delete s B bm r st n); try done.
    eapply put_bytes; [exact Hby| |exact Hr]. by apply Forall_replicate.
  - destruct Hrs as (_ & _ & Hbits). intros j Hj. simpl.
    by rewrite Hbits, (proj2 (in_run_true st n j)) by lia.
  - intros st' n' Hne HB'. destruct (Hblk _ _ HB') as (? & ? & ? & _).
    eapply updated_contents; [done|lia|]. by eapply Hdis.
  - pose proof (get_put_same _ _ _ _ Hr) as Hg. rewrite length_replicate, Z2Nat.id in Hg by lia.
    replace (off (updated s bm r) _) with (pad s + st * 16) by (unfold off; simpl; lia). exact Hg.
Qed.

(** A freed block fails the sanity check. *)
Lemma poisoned_header s st n :
  0 < n → get (rest s) (off s (data s + st * ALLOC_SIZE)) (n * ALLOC_SIZE) =
    Done (replicate (Z.to_nat (n * ALLOC_SIZE)) 0x5A) →
  ∃ len, read_header s (data s + st * ALLOC_SIZE) = Done (0x5A5A5A5A5A5A5A5A, len).
Proof.
  intros Hn (H1 & H2 & H3 & Hl & Hg)%get_Done. unfold ALLOC_SIZE in *.
  assert (∀ o m : nat, (o + m ≤ 16)%nat →
    get (rest s) (off s (data s + st * 16) + Z.of_nat o) (Z.of_nat m) = Done (replicate m 0x5A)) as Hget.
  { intros o m Hom. apply get_Done. rewrite length_replicate in *. split_and!; try lia.
    intros i Hi. replace (Z.to_nat _ + i)%nat with (Z.to_nat (off s (data s + st * 16)) + (o + i))%nat by lia.
    rewrite <-Hg by lia.
    by rewrite !lookup_replicate_2 by lia. }
  unfold read_header, ALLOC_SIZE.
  pose proof (Hget 0%nat 8%nat ltac:(lia)) as Hs. rewrite Z.add_0_r in Hs.
  pose proof (Hget 8%nat 4%nat ltac:(lia)) as Hw.
  change (Z.of_nat 8) with 8 in *. change (Z.of_nat 4) with 4 in *. rewrite Hs, Hw. by eexists.
Qed.

Lemma free_again s B hf st n :
  live s B → B !! st = Some n → ptr_of s st mod ALLOC_SIZE = 0 →
  ∃ s', free s hf (ptr_of s st) = Done (s', u64 (hf + u64 (n * ALLOC_SIZE))) ∧
    data s' = data s ∧ pieces s' = pieces s ∧
    ∀ hf', free s' hf' (ptr_of s st) = Panic "heap: free() sanity check failed".
Proof.
  intros Hl Hst Hal. destruct (free_live s B hf st n Hl Hst) as (s' & Hf & Hl' & Hd & Hp & _ & _ & Hpoison).
  destruct Hl as (Hwf & _ & Hb & _). destruct (Hb _ _ Hst) as (? & ? & ? & _).
  destruct Hwf as (_ & _ & _ & _ & _ & _ & _ & _ & ? & ?).
  rewrite <-Hd in Hpoison. destruct (poisoned_header s' st n) as (len & Hh); [done..|].
  exists s'. split_and!; [done..|]. intros hf'. unfold free.
  replace (u64 (ptr_of s st - ALLOC_SIZE)) with (data s' + st * ALLOC_SIZE)
    by (unfold ptr_of, ALLOC_SIZE in *; rewrite wrap_small; lia).
  rewrite Hh. cbn [mbind outcome_bind].
  destruct (Z.eqb_spec 0x5A5A5A5A5A5A5A5A (Z.lxor (ptr_of s st) SANITY_XOR)) as [Heq|]; [|done].
  apply (f_equal (λ z, Z.lxor z SANITY_XOR)) in Heq.
  rewrite Z.lxor_assoc, Z.lxor_nilpotent, Z.lxor_0_r in Heq.
  rewrite <-Heq in Hal. by vm_compute in Hal.
Qed.

Lemma size_live s B st n :
  live s B → B !! st = Some n → size s (ptr_of s st) = Done ((n - 1) * ALLOC_SIZE).
Proof.
  intros (Hwf & _ & Hblk & _) HB. pose proof Hwf as (_ & _ & Hpb & _ & _ & _ & _ & _ & Hd & Hd').
  destruct (Hblk _ _ HB) as (Hst & Hn & Hle & Hhdr). unfold size, header_at, ALLOC_SIZE in *.
  replace (ptr_of s st - 16) with (data s + st * 16) by (unfold ptr_of, ALLOC_SIZE; lia).
  rewrite wrap_small, Hhdr by lia. simpl. rewrite Z.eqb_refl; simpl.
  by rewrite (wrap_small 32 (n - 1)), (wrap_small 32) by lia.
Qed.

Lemma owns_live s B st n : live s B → B !! st = Some n → owns s (ptr_of s st) = true.
Proof.
  intros (Hwf & _ & Hblk & _) HB. pose proof Hwf as (_ & _ & Hpb & _ & _ & _ & _ & _ & Hd & Hd').
  destruct (Hblk _ _ HB) as (Hst & Hn & Hle & _). unfold owns, ptr_of, ALLOC_SIZE in *.
  rewrite wrap_small by lia. lia.
Qed.

(** Storing into the bytes of a live block. *)
Lemma live_write s B st n r bs :
  live s B → B !! st = Some n → bytes bs → Z.of_nat (length bs) ≤ (n - 1) * ALLOC_SIZE →
  put (rest s) (off s (ptr_of s st)) bs = Done r →
  live (set_rest s r) B ∧
  (∀ st' n', st' ≠ st → B !! st' = Some n' → contents (set_rest s r) st' n' = contents s st' n') ∧
  ∃ cs, contents (set_rest s r) st n = Done cs ∧ take (length bs) cs = bs.
Proof.
  intros Hlive HB Hbb Hbl Hr. pose proof Hlive as (Hwf & Hcov & Hblk & Hdis).
  pose proof Hwf as (Hw & Hp & Hpb & Hfp & Hlk & Hby & Hpad & Hlen & Hd & Hd').
  pose proof Hr as (_ & _ & Hrl & _)%put_Done.
  destruct (Hblk _ _ HB) as (Hst & Hn & Hle & _).
  assert (Hoff : ∀ st', off s (ptr_of s st') = pad s + st' * 16 + 16)
    by (intros; unfold off, ptr_of, ALLOC_SIZE; lia). rewrite Hoff in Hr.
  assert (Hhdr : ∀ st' n', B !! st' = Some n' → header_at s st' n' → header_at (set_rest s r) st' n').
  { intros st' n' HB' Hh. unfold header_at, read_header in *. destruct (Hblk _ _ HB') as (? & ? & ? & _).
    assert (st' = st ∨ st' + n' ≤ st ∨ st + n ≤ st').
    { destruct (decide (st' = st)); [by left|right]. by eapply Hdis. }
    replace (off (set_rest s r) _) with (off s (data s + st' * ALLOC_SIZE)) by done.
    replace (off s (data s + st' * ALLOC_SIZE)) with (pad s + st' * 16) in * by (unfold off, ALLOC_SIZE; lia).
    unfold ALLOC_SIZE in *. cbn [rest set_rest].
    by rewrite !(get_put_other _ _ _ _ _ _ Hr) by lia. }
  split_and!.
  - split_and!; [|done| |done].
    + destruct s; unfold wf in *; simpl in *. split_and!; try done; try lia.
      exact (put_bytes _ _ _ _ Hby Hbb Hr).
    + intros st' n' HB'. destruct (Hblk _ _ HB') as (? & ? & ? & ?). split_and!; auto.
  - intros st' n' Hne HB'. destruct (Hblk _ _ HB') as (? & ? & ? & _).
    unfold contents. replace (off (set_rest s r) _) with (off s (ptr_of s st')) by done.
    rewrite Hoff. unfold ALLOC_SIZE in *. apply (get_put_other _ _ _ _ _ _ Hr).
    destruct (Hdis _ _ _ _ HB' HB Hne); lia.
  - unfold contents. replace (off (set_rest s r) _) with (off s (ptr_of s st)) by done.
    rewrite Hoff. unfold ALLOC_SIZE in *.
    destruct (get_in_range r (pad s + st * 16 + 16) ((n - 1) * 16)) as (cs & Hcs & Hlc); [lia..|].
    exists cs. split; [done|]. apply get_Done in Hcs as (_ & _ & _ & _ & Hcs).
    apply put_Done in Hr as (_ & _ & _ & Hr). apply list_eq. intros i.
    destruct (decide (i < length bs)%nat).
    + rewrite lookup_take_lt, Hcs, Hr by lia. case_decide; [f_equal|]; lia.
    + rewrite lookup_take_ge by lia. symmetry. apply lookup_ge_None. lia.
Qed.

(** [alloc] on a slab without room: the request is larger than the slab, or
    the scan past the bitmap meets an all-ones word. *)
Lemma alloc_no_fit s hf sz :
  wf s → 0 < sz < 2 ^ 40 → need sz < 2 ^ 32 →
  (∀ r, ¬ first_fit (bitmap s) (pieces s) (need sz) r) →
  pieces s < need sz ∨ has_sentinel s = true →
  alloc s hf sz = Done (0, s, hf).
Proof.
  intros Hwf Hsz Hn32 Hno Hor. pose proof Hwf as (_ & _ & Hpb & Hfp & Hlk & _).
  destruct (need_bounds sz) as (Hcp & Hn1 & Hn2); [lia..|].
  assert (Hff : findFree s (need sz) = Done (-1)).
  { destruct (decide (pieces s < need sz)).
    - unfold findFree. rewrite Hfp, Z.gtb_ltb.
      by destruct (Z.ltb_spec (pieces s) (need sz)); [|lia].
    - destruct Hor as [|Hs]; [lia|].
      destruct (findFree_spec s (need sz) Hwf) as [(r & _ & Hr)|(_ & ->)]; [lia|by destruct (Hno r)|].
      by rewrite Hs. }
  unfold alloc. destruct (Z.eqb_spec sz 0); [lia|]. rewrite Hlk, Hcp; simpl.
  rewrite (wrap_small 32 (need sz)), Hff by lia. simpl. destruct s; simpl in *; by subst.
Qed.

(** A created slab. *)
Lemma create_layout sz :
  512 ≤ sz ≤ 2 ^ 28 →
  let n := slab_pieces sz in
  sz / 16 - 31 ≤ n ≤ sz / 16 ∧ n mod 32 = 0 ∧ 32 ≤ n ∧
  0 ≤ data_offset sz - sizeof_Slab - n / 8 < 32 ∧ data_offset sz < 2 ^ 28.
Proof.
  intros Hsz n. unfold n, data_offset, slab_pieces, ceilToAllocSize, ALLOC_SIZE, sizeof_Slab.
  assert (32 ≤ sz / 16) by (apply Z.div_le_lower_bound; lia).
  assert (sz / 16 ≤ 2 ^ 24) by (apply Z.div_le_upper_bound; lia).
  destruct (int_floor_spec 64 (sz / 16) 32) as (_ & Hf & Hm); [lia..|].
  set (k := int_floor 64 (sz / 16) 32) in *.
  assert (Hk : 32 ≤ k).
  { pose proof (Z.div_mod k 32 ltac:(lia)). assert (1 ≤ k / 32); [|lia].
    assert (0 < k) by lia. apply Z.div_le_lower_bound; [lia|].
    destruct (Z.eqb_spec (k / 32) 0); lia. }
  assert (0 ≤ k / 8 ≤ 2 ^ 21) by (split; [apply Z.div_pos; lia|apply Z.div_le_upper_bound; lia]).
  destruct (int_ceil_spec 64 (k / 8) 16) as (_ & Hc1 & Hm1); [lia..|].
  destruct (int_ceil_spec 64 (48 + int_ceil 64 (k / 8) 16) 16) as (_ & Hc2 & Hm2); [lia..|].
  pose proof (Z.div_mod (int_ceil 64 (k / 8) 16) 16 ltac:(lia)).
  pose proof (Z.div_mod (int_ceil 64 (48 + int_ceil 64 (k / 8) 16) 16) 16 ltac:(lia)).
  split_and!; lia.
Qed.

Lemma create_live mem sz :
  512 ≤ sz ≤ 2 ^ 28 → 0 < mem → mem + sz + data_offset sz < 2 ^ 64 →
  live (createFromVMem mem sz) ∅.
Proof.
  intros Hsz Hm Hw. destruct (create_layout sz Hsz) as (Hn & Hn32 & Hn0 & Hpad & Hoff).
  set (n := slab_pieces sz) in *.
  pose proof (Z.div_mod n 32 ltac:(lia)) as Hdm.
  assert (sz / 16 * 16 ≤ sz) by (pose proof (Z.div_mod sz 16 ltac:(lia)); pose proof (Z.mod_pos_bound sz 16 ltac:(lia)); lia).
  assert (0 ≤ n / 8) by (apply Z.div_pos; lia). unfold sizeof_Slab, ALLOC_SIZE in *.
  assert (sz / 16 ≤ 2 ^ 24) by (apply Z.div_le_upper_bound; lia).
  unfold createFromVMem. fold n. unfold sizeof_Slab, ALLOC_SIZE.
  rewrite (wrap_small 64) by lia. clearbody n. set (d := data_offset sz) in *. clearbody d.
  unfold live, wf, bits_len. cbn [pieces free_pieces lock data bitmap pad rest].
  rewrite !length_replicate. unfold ALLOC_SIZE. split_and!; try (reflexivity || lia).
  - apply Forall_replicate. lia.
  - apply Forall_replicate. lia.
  - intros j Hj. split.
    + rewrite bit_at_zero. done.
    + intros (st & k & HB & _). by rewrite lookup_empty in HB.
  - intros st k HB. by rewrite lookup_empty in HB.
  - intros st k st' k' HB. by rewrite lookup_empty in HB.
Qed.

(** Its first pieces are a fit for any request it has room for. *)
Lemma create_fit mem sz n :
  0 < n ≤ slab_pieces sz → first_fit (bitmap (createFromVMem mem sz)) (slab_pieces sz) n 0.
Proof.
  intros Hn. split_and!; try lia. intros j Hj. apply bit_at_zero.
Qed.

End Slab.

Module Heap.
Import Slab.

(** The globals: the slab list from [rootSlab] on, the two counters and the
    lock of [malloc]. *)
Record state := mk_state {
  slabs : list Slab;
  heap_allocated : Z;
  heap_free : Z;
  malloc_lock : bool;
}.

(** One pass of [malloc] over the existing slabs. *)
Fixpoint malloc_in (ss : list Slab) (hf size : Z) : outcome (option (Z * list Slab * Z)) :=
  match ss with
  | [] => Done None
  | s :: ss =>
      '(addr, s, hf) ← Slab.alloc s hf size;
      if negb (addr =? 0) then Done (Some (addr, s :: ss, hf))
      else
        r ← malloc_in ss hf size;
        Done (match r with Some (a, ss, hf) => Some (a, s :: ss, hf) | None => None end)
  end.

Section Malloc.

(** [kernel_pagemap->alloc(size, PAGE_WRITE)]: the address of zeroed pages for
    the [n]-th slab. *)
Context (kalloc : nat → Z → Z).

(** The tail of the loop: the last slab has no [next], so one is created and
    tried; each turn creates one slab.  A created slab always has room
    ([malloc_grow_total]), so one turn is enough. *)
Fixpoint malloc_grow (fuel : nat) (h : state) (size : Z) : outcome (Z * state) :=
  match fuel with
  | O => Panic "heap: malloc() failed"
  | S fuel =>
      lk ← spin_acquire (malloc_lock h);
      let want := u64 (size * 2) `max` 0x100000 in
      let s := createFromVMem (kalloc (length (slabs h))
                 (u64 (want + data_offset want))) want in
      let ha := u64 (heap_allocated h + u64 (pieces s * ALLOC_SIZE)) in
      let hf := u64 (heap_free h + u64 (pieces s * ALLOC_SIZE)) in
      lk ← spin_release lk;
      '(addr, s, hf) ← Slab.alloc s hf size;
      let h := mk_state (slabs h ++ [s]) ha hf lk in
      if negb (addr =? 0) then Done (addr, h) else malloc_grow fuel h size
  end.

Definition malloc (h : state) (size : Z) : outcome (Z * state) :=
  if size =? 0 then Done (0, h)
  else if size >? 67108864 then Done (0, h)
  else
    match slabs h with
    | [] => Fault
    | ss =>
        r ← malloc_in ss (heap_free h) size;
        match r with
        | Some (addr, ss, hf) => Done (addr, mk_state ss (heap_allocated h) hf (malloc_lock h))
        | None => malloc_grow 2 h size
        end
    end.

Fixpoint free_in (ss : list Slab) (hf ptr : Z) : outcome (list Slab * Z) :=
  match ss with
  | [] => Panic "heap: free() failed"
  | s :: ss =>
      if owns s ptr then '(s, hf) ← Slab.free s hf ptr; Done (s :: ss, hf)
      else '(ss, hf) ← free_in ss hf ptr; Done (s :: ss, hf)
  end.

Definition free (h : state) (ptr : Z) : outcome state :=
  if ptr =? 0 then Done h
  else
    match slabs h with
    | [] => Fault
    | ss =>
        '(ss, hf) ← free_in ss (heap_free h) ptr;
        Done (mk_state ss (heap_allocated h) hf (malloc_lock h))
    end.

Fixpoint msize_in (ss : list Slab) (ptr : Z) : outcome Z :=
  match ss with
  | [] => Panic "AEX::Heap::msize() failed"
  | s :: ss => if owns s ptr then Slab.size s ptr else msize_in ss ptr
  end.

Definition msize (h : state) (ptr : Z) : outcome Z :=
  if ptr =? 0 then Done 0
  else match slabs h with [] => Fault | ss => msize_in ss ptr end.

Definition msize_total (h : state) (ptr : Z) : outcome Z :=
  n ← msize h ptr; Done (u64 (n + ALLOC_SIZE)).

Definition msize_total_len (len : Z) : Z := u64 (int_ceil 64 len ALLOC_SIZE + ALLOC_SIZE).

(** The bytes at a heap address, for the [memcpy] of [realloc]. *)
Fixpoint read_in (ss : list Slab) (ptr n : Z) : outcome (list Z) :=
  match ss with
  | [] => Fault
  | s :: ss => if owns s ptr then get (rest s) (off s ptr) n else read_in ss ptr n
  end.

Fixpoint write_in (ss : list Slab) (ptr : Z) (bs : list Z) : outcome (list Slab) :=
  match ss with
  | [] => Fault
  | s :: ss =>
      if owns s ptr then r ← put (rest s) (off s ptr) bs; Done (set_rest s r :: ss)
      else ss ← write_in ss ptr bs; Done (s :: ss)
  end.

Definition memcpy (h : state) (dst src n : Z) : outcome state :=
  bs ← read_in (slabs h) src n;
  ss ← write_in (slabs h) dst bs;
  Done (mk_state ss (heap_allocated h) (heap_free h) (malloc_lock h)).

Definition realloc (h : state) (ptr size : Z) : outcome (Z * state) :=
  if ptr =? 0 then malloc h size
  else if size =? 0 then h ← free h ptr; Done (0, h)
  else
    oldsize ← msize h ptr;
    '(newptr, h) ← malloc h size;
    if newptr =? 0 then h ← free h ptr; Done (0, h)
    else
      h ← memcpy h newptr ptr (oldsize `min` size);
      h ← free h ptr;
      Done (newptr, h).

Definition init : outcome state :=
  let s := createFromVMem (kalloc 0 (u64 (0x100000 + data_offset 0x100000))) 0x100000 in
  let n := u64 (pieces s * ALLOC_SIZE) in
  let h := mk_state [s] n n false in
  '(a, h) ← malloc h 24;
  '(b, h) ← malloc h 24;
  h ← free h a;
  '(c, h) ← malloc h 24;
  if negb (a =? c) then Panic "AEX::Heap is braindead"
  else h ← free h b; free h c.

End Malloc.

(** ** The heap as a collection of live blocks *)

(** No address belongs to two slabs. *)
Definition apart (ss : list Slab) : Prop :=
  ∀ i j s t p, i ≠ j → ss !! i = Some s → ss !! j = Some t → owns s p = true → owns t p = false.

(** [Bs] lists, slab by slab, the live blocks. *)
Definition heap_inv (h : state) (Bs : list (gmap Z Z)) : Prop :=
  malloc_lock h = false ∧ slabs h ≠ [] ∧ Forall2 live (slabs h) Bs ∧ apart (slabs h).

(** [ptr] is a live block of [n] pieces whose bytes are [bs]. *)
Definition block (h : state) (Bs : list (gmap Z Z)) (ptr n : Z) (bs : list Z) : Prop :=
  ∃ k s B st, slabs h !! k = Some s ∧ Bs !! k = Some B ∧ B !! st = Some n ∧
    ptr = ptr_of s st ∧ contents s st n = Done bs.

(** A request that finds no room in a slab leaves its scan. *)
Definition scan_stops (s : Slab) (size : Z) : Prop :=
  (∃ st, first_fit (bitmap s) (pieces s) (need size) st) ∨
  (∀ st, ¬ first_fit (bitmap s) (pieces s) (need size) st) ∧
    (pieces s < need size ∨ has_sentinel s = true).

(** The slab has no run of pieces for the request. *)
Definition no_room (s : Slab) (size : Z) : Prop := ∀ st, ¬ first_fit (bitmap s) (pieces s) (need size) st.

(** The walk over the slabs reaches one without room, large enough for the request, whose
    scan finds no all-ones word behind the bitmap. *)
Definition overruns (ss : list Slab) (size : Z) : Prop :=
  ∃ k s, ss !! k = Some s ∧ no_room s size ∧ need size ≤ pieces s ∧ has_sentinel s = false ∧
    ∀ j t, (j < k)%nat → ss !! j = Some t → no_room t size.

(** What [Pagemap::alloc] promises: pages outside every slab. *)
Definition fresh_pages (ss : list Slab) (mem len : Z) : Prop :=
  0 < mem ∧ mem + len < 2 ^ 64 ∧ ∀ s p, s ∈ ss → mem ≤ p ≤ mem + len → owns s p = false.

(** ** Slab lists *)

Lemma owns_same s s' p : data s' = data s → pieces s' = pieces s → owns s' p = owns s p.
Proof. intros Hd Hp. unfold owns. by rewrite Hd, Hp. Qed.

Lemma apart_cons s ss : apart (s :: ss) → apart ss.
Proof. intros H i j t u p Hne Hi Hj. apply (H (S i) (S j) t u p); [lia|done..]. Qed.

Lemma apart_insert ss k s s' :
  apart ss → ss !! k = Some s → data s' = data s → pieces s' = pieces s → apart (<[k := s']> ss).
Proof.
  intros H Hk Hd Hp i j t u p Hne Hi Hj Ho. pose proof Hk as Hlt%lookup_lt_Some.
  assert (Hold : ∀ m v, <[k := s']> ss !! m = Some v →
    ∃ v', ss !! m = Some v' ∧ owns v p = owns v' p).
  { intros m v. destruct (decide (m = k)) as [->|].
    - rewrite list_lookup_insert_eq by done. intros [= <-]. exists s. split; [done|].
      by apply owns_same.
    - rewrite list_lookup_insert_ne by done. eauto. }
  destruct (Hold _ _ Hi) as (t' & Ht & Ho1), (Hold _ _ Hj) as (u' & Hu & Ho2).
  rewrite Ho2. rewrite Ho1 in Ho. by apply (H i j t' u' p).
Qed.

(** The list walks of [free], [msize] and [memcpy] stop at the owner. *)
Lemma apart_tail_not_owned s ss k t p :
  apart (s :: ss) → ss !! k = Some t → owns t p = true → owns s p = false.
Proof. intros H Hk Ho. apply (H (S k) 0%nat t s p); done. Qed.

Lemma free_in_at ss k s hf ptr :
  apart ss → ss !! k = Some s → owns s ptr = true →
  free_in ss hf ptr = '(s', hf') ← Slab.free s hf ptr; Done (<[k := s']> ss, hf').
Proof.
  revert k. induction ss as [|t ss IH]; intros [|k] Hap Hk Ho; simplify_eq/=.
  - rewrite Ho. by destruct (Slab.free s hf ptr) as [[]| |].
  - rewrite (apart_tail_not_owned _ _ _ _ _ Hap Hk Ho).
    rewrite (IH k) by eauto using apart_cons. by destruct (Slab.free s hf ptr) as [[]| |].
Qed.

Lemma msize_in_at ss k s ptr :
  apart ss → ss !! k = Some s → owns s ptr = true → msize_in ss ptr = Slab.size s ptr.
Proof.
  revert k. induction ss as [|t ss IH]; intros [|k] Hap Hk Ho; simplify_eq/=; [by rewrite Ho|].
  rewrite (apart_tail_not_owned _ _ _ _ _ Hap Hk Ho). eauto using apart_cons.
Qed.

Lemma read_in_at ss k s ptr n :
  apart ss → ss !! k = Some s → owns s ptr = true →
  read_in ss ptr n = get (rest s) (off s ptr) n.
Proof.
  revert k. induction ss as [|t ss IH]; intros [|k] Hap Hk Ho; simplify_eq/=; [by rewrite Ho|].
  rewrite (apart_tail_not_owned _ _ _ _ _ Hap Hk Ho). eauto using apart_cons.
Qed.

Lemma write_in_at ss k s ptr bs :
  apart ss → ss !! k = Some s → owns s ptr = true →
  write_in ss ptr bs = r ← put (rest s) (off s ptr) bs; Done (<[k := set_rest s r]> ss).
Proof.
  revert k. induction ss as [|t ss IH]; intros [|k] Hap Hk Ho; simplify_eq/=.
  - rewrite Ho. by destruct (put _ _ _).
  - rewrite (apart_tail_not_owned _ _ _ _ _ Hap Hk Ho).
    rewrite (IH k) by eauto using apart_cons. by destruct (put _ _ _).
Qed.

(** ** Updating one slab of a heap *)

Lemma heap_inv_lookup h Bs k s :
  heap_inv h Bs → slabs h !! k = Some s → ∃ B, Bs !! k = Some B ∧ live s B.
Proof.
  intros (_ & _ & HF & _) Hk. destruct (Forall2_lookup_l _ _ _ _ _ HF Hk) as (B & HB & Hl). eauto.
Qed.

Lemma heap_inv_insert h Bs k s s' B' ha hf :
  heap_inv h Bs → slabs h !! k = Some s → live s' B' →
  data s' = data s → pieces s' = pieces s →
  heap_inv (mk_state (<[k := s']> (slabs h)) ha hf false) (<[k := B']> Bs).
Proof.
  intros (Hlk & Hne & HF & Hap) Hk Hl Hd Hp. split_and!; simpl; [done| | |].
  - intros H%(f_equal length). rewrite length_insert in H.
    apply lookup_lt_Some in Hk. simpl in H. lia.
  - by apply Forall2_insert.
  - by eapply apart_insert.
Qed.

(** Blocks of other slabs, and blocks of slab [k] that the update keeps. *)
Lemma block_insert h Bs k s s' B B' ha hf lk ptr n bs :
  slabs h !! k = Some s → Bs !! k = Some B → data s' = data s →
  (∀ st m, B !! st = Some m → ptr = ptr_of s st →
     B' !! st = Some m ∧ contents s' st m = contents s st m) →
  block h Bs ptr n bs →
  block (mk_state (<[k := s']> (slabs h)) ha hf lk) (<[k := B']> Bs) ptr n bs.
Proof.
  intros Hk HBk Hd Hkeep (k' & t & Bt & st & Hk' & HBt & HB & -> & Hc).
  pose proof Hk as Hlt%lookup_lt_Some. pose proof HBk as Hlt'%lookup_lt_Some.
  destruct (decide (k' = k)) as [->|Hne].
  - simplify_eq. destruct (Hkeep st n HB eq_refl) as [HB' Hc'].
    exists k, s', B', st. simpl. rewrite !list_lookup_insert_eq by done.
    split_and!; [done..|unfold ptr_of; by rewrite Hd|by rewrite Hc'].
  - exists k', t, Bt, st. simpl. by rewrite !list_lookup_insert_ne by done.
Qed.

Lemma block_owner h Bs ptr n bs :
  heap_inv h Bs → block h Bs ptr n bs →
  ∃ k s B st, slabs h !! k = Some s ∧ Bs !! k = Some B ∧ live s B ∧ B !! st = Some n ∧
    ptr = ptr_of s st ∧ contents s st n = Done bs ∧ owns s ptr = true.
Proof.
  intros Hinv (k & s & B & st & Hk & HB & Hst & -> & Hc).
  destruct (heap_inv_lookup h Bs k s Hinv Hk) as (B' & HB' & Hl). simplify_eq.
  exists k, s, B, st. split_and!; try done. by eapply owns_live.
Qed.

Lemma ptr_of_pos s B st n : live s B → B !! st = Some n → 0 < ptr_of s st < 2 ^ 64.
Proof.
  intros (Hwf & _ & Hblk & _) HB. destruct (Hblk _ _ HB) as (? & ? & ? & _).
  destruct Hwf as (_ & _ & ? & _ & _ & _ & _ & _ & ? & ?). unfold ptr_of, ALLOC_SIZE in *. lia.
Qed.

(** Two blocks, headers included, do not overlap. *)
Definition disjoint_blocks (p n q m : Z) : Prop :=
  p - ALLOC_SIZE + n * ALLOC_SIZE ≤ q - ALLOC_SIZE ∨ q - ALLOC_SIZE + m * ALLOC_SIZE ≤ p - ALLOC_SIZE.

Lemma apart_ranges s t :
  wf s → wf t → (∀ p, owns s p = true → owns t p = false) →
  data s + pieces s * ALLOC_SIZE < data t ∨ data t + pieces t * ALLOC_SIZE < data s.
Proof.
  intros (_ & _ & Hs & _ & _ & _ & _ & _ & Hs1 & Hs2) (_ & _ & Ht & _ & _ & _ & _ & _ & Ht1 & Ht2) H.
  pose proof (H (data s)) as H1. pose proof (H (data t)) as H2. unfold owns, ALLOC_SIZE in *.
  rewrite (wrap_small 64 (data s + _)), (wrap_small 64 (data t + _)) in H1, H2 by lia. lia.
Qed.

Lemma blocks_disjoint h Bs p n bs q m cs :
  heap_inv h Bs → block h Bs p n bs → block h Bs q m cs → p ≠ q → disjoint_blocks p n q m.
Proof.
  intros Hinv Hp Hq Hne.
  destruct (block_owner _ _ _ _ _ Hinv Hp) as (k & s & B & st & Hk & HB & Hl & Hst & -> & _ & Ho).
  destruct (block_owner _ _ _ _ _ Hinv Hq) as (k' & t & C & st' & Hk' & HC & Hl' & Hst' & -> & _ & Ho').
  pose proof Hl as (Hwf & _ & Hblk & Hdis). pose proof Hl' as (Hwf' & _ & Hblk' & _).
  destruct (Hblk _ _ Hst) as (? & ? & ? & _). destruct (Hblk' _ _ Hst') as (? & ? & ? & _).
  unfold disjoint_blocks, ptr_of in *. destruct (decide (k = k')) as [<-|Hkk].
  - simplify_eq. destruct (Hdis st n st' m) as [|]; [done|done|congruence|..]; unfold ALLOC_SIZE; lia.
  - destruct Hinv as (_ & _ & _ & Hap).
    destruct (apart_ranges s t Hwf Hwf') as [|];
      [intros p; by apply (Hap k k' s t p)|unfold ALLOC_SIZE in *; lia..].
Qed.

(** ** [malloc] *)

Lemma overruns_cons s ss size : no_room s size → scan_stops s size → overruns (s :: ss) size ↔ overruns ss size.
Proof.
  intros Hno Hst. split.
  - intros ([|k] & t & Hk & Ht & Hle & Hse & Hb); simplify_eq/=.
    { destruct Hst as [(st & Hf)|(_ & [|])]; [by apply Hno in Hf|lia|congruence]. }
    exists k, t. split_and!; [done..|]. intros j u Hj Hu. apply (Hb (S j)); [lia|done].
  - intros (k & t & Hk & Ht & Hle & Hse & Hb). exists (S k), t. split_and!; [done..|].
    intros [|j] u Hj Hu; simplify_eq/=; [done|]. apply (Hb j); [lia|done].
Qed.

Lemma stops_no_overrun ss size : (∀ s, s ∈ ss → scan_stops s size) → ¬ overruns ss size.
Proof.
  intros Hst (k & s & Hk & Hno & Hle & Hse & _). apply list_elem_of_lookup_2 in Hk.
  destruct (Hst s Hk) as [(st & Hf)|(_ & [|])]; [by apply Hno in Hf|lia|congruence].
Qed.

(** The three ways a scan of one slab ends. *)
Lemma slab_scan s size :
  wf s → 0 < size ≤ 67108864 →
  (∃ st, first_fit (bitmap s) (pieces s) (need size) st) ∨
  no_room s size ∧ scan_stops s size ∨
  no_room s size ∧ need size ≤ pieces s ∧ has_sentinel s = false ∧ ∀ hf, Slab.alloc s hf size = Fault.
Proof.
  intros Hwf Hsz. pose proof Hwf as (_ & _ & Hpb & _ & Hlk & _). destruct (need_bounds size) as (Hcp & _ & Hn); [lia..|].
  destruct (decide (pieces s < need size)) as [Hlt|Hge].
  { assert (no_room s size) by (intros st (? & ? & _); lia). right. left. split; [done|]. right. auto. }
  destruct (findFree_spec s (need size) Hwf) as [(r & _ & Hr)|[Hno Hff]]; [lia|eauto|]. right.
  destruct (has_sentinel s) eqn:Hse; [left; split; [done|right; auto]|]. right. split_and!; [done|lia|done|].
  intros hf. unfold Slab.alloc. destruct (Z.eqb_spec size 0) as [|_]; [lia|]. rewrite Hlk. simpl.
  by rewrite Hcp, (wrap_small 32 (need size)), Hff by lia.
Qed.

Lemma malloc_in_spec ss Bs hf size :
  Forall2 live ss Bs → 0 < size ≤ 67108864 →
  overruns ss size ∧ malloc_in ss hf size = Fault ∨
  ¬ overruns ss size ∧
  ((∃ k s B st, ss !! k = Some s ∧ Bs !! k = Some B ∧
     first_fit (bitmap s) (pieces s) (need size) st ∧
     malloc_in ss hf size =
       '(a, s', hf') ← Slab.alloc s hf size; Done (Some (a, <[k := s']> ss, hf'))) ∨
   ((∀ s, s ∈ ss → no_room s size) ∧ malloc_in ss hf size = Done None)).
Proof.
  intros HF Hsz. induction HF as [|s B ss Bs Hl HF IH]; simpl.
  { right. split; [by intros (k & s & Hk & _)|]. right. split; [|done]. intros s Hs. by apply elem_of_nil in Hs. }
  assert (need size < 2 ^ 32) by (unfold need, ALLOC_SIZE; apply Z.div_lt_upper_bound; lia).
  pose proof Hl as (Hwf & _). destruct (slab_scan s size Hwf Hsz) as [(st & Hff)|[(Hno & Hst)|(Hno & Hle & Hse & Hal)]].
  - right. split.
    { intros ([|k] & t & Hk & Ht & _ & _ & Hb); simplify_eq/=; [by apply Ht in Hff|]. by apply (Hb 0%nat s) in Hff; [|lia|]. }
    left. exists 0%nat, s, B, st. split_and!; [done..|].
    destruct (alloc_fit s B hf size st Hl ltac:(lia) Hff) as (s' & -> & Hl' & HB & _). simpl.
    assert (0 < ptr_of s st) by (destruct Hff as (? & _); destruct Hl as
      ((_ & _ & _ & _ & _ & _ & _ & _ & ? & _) & _); unfold ptr_of, ALLOC_SIZE; lia).
    by destruct (Z.eqb_spec (ptr_of s st) 0); [lia|].
  - rewrite overruns_cons by done. rewrite alloc_no_fit; [|done|lia|lia|done|by destruct Hst as [(st & Hf)|(_ & ?)]; [apply Hno in Hf|]]. simpl.
    destruct IH as [(Hov & ->)|(Hov & [(k & t & C & st & Hk & HC & Hff & ->)|(Hnone & ->)])]; [by left|right; split; [done|]..].
    + left. exists (S k), t, C, st. split_and!; [done..|]. by destruct (Slab.alloc t hf size) as [[[a t'] hf']| |].
    + right. split; [|done]. intros t [->|Ht]%elem_of_cons; eauto.
  - left. rewrite Hal. split; [|done]. exists 0%nat, s. split_and!; [done..|]. intros j t Hj. lia.
Qed.

(** What [malloc] promises its clients. *)
Definition malloc_post (h : state) (Bs : list (gmap Z Z)) (size : Z) (r : Z * state) : Prop :=
  ∃ Bs', heap_inv r.2 Bs' ∧
    block r.2 Bs' r.1 (need size) (replicate (Z.to_nat ((need size - 1) * ALLOC_SIZE)) 0) ∧
    ∀ p n bs, block h Bs p n bs → p ≠ r.1 ∧ block r.2 Bs' p n bs.

(** Allocation in an existing slab. *)
Lemma malloc_at h Bs size k s B st ha :
  heap_inv h Bs → 0 < size ≤ 67108864 → slabs h !! k = Some s → Bs !! k = Some B →
  first_fit (bitmap s) (pieces s) (need size) st →
  ∃ s' hf', Slab.alloc s (heap_free h) size = Done (ptr_of s st, s', hf') ∧
    malloc_post h Bs size (ptr_of s st, mk_state (<[k := s']> (slabs h)) ha hf' false).
Proof.
  intros Hinv Hsz Hk HBk Hff.
  destruct (heap_inv_lookup h Bs k s Hinv Hk) as (B' & HB' & Hl). simplify_eq.
  destruct (alloc_fit s B (heap_free h) size st Hl ltac:(lia) Hff)
    as (s' & Hal & Hl' & Hnone & Hd & Hp & Hzero & Hkeep).
  eexists _, _. split; [exact Hal|]. exists (<[k := <[st := need size]> B]> Bs). simpl.
  pose proof Hk as Hlt%lookup_lt_Some. pose proof HBk as Hlt'%lookup_lt_Some.
  split_and!.
  - by eapply heap_inv_insert.
  - exists k, s', (<[st := need size]> B), st. simpl. rewrite !list_lookup_insert_eq by done.
    split_and!; [done|done|apply lookup_insert_eq|unfold ptr_of; by rewrite Hd|done].
  - intros p n bs Hb. split.
    + destruct (block_owner _ _ _ _ _ Hinv Hb) as (k' & t & C & st' & Hk' & HC & Hlt0 & Hst' & -> & _ & Ho).
      intros Heq. destruct (decide (k' = k)) as [->|Hne]; simplify_eq.
      * assert (st' = st) as -> by (unfold ptr_of, ALLOC_SIZE in Heq; lia). congruence.
      * destruct Hinv as (_ & _ & _ & Hap).
        assert (owns s (ptr_of s st) = true) as Hos.
        { rewrite <-(owns_same s s') by done.
          replace (ptr_of s st) with (ptr_of s' st) by (unfold ptr_of; by rewrite Hd).
          eapply owns_live; [exact Hl'|apply lookup_insert_eq]. }
        rewrite Heq in Ho. rewrite (Hap k k' s t _ ltac:(done) Hk Hk' Hos) in Ho. done.
    + eapply block_insert; [done|done|done| |done].
      intros st' m Hst' _. rewrite lookup_insert_ne by congruence. auto.
Qed.

(** The size [malloc] asks a new slab for, and the pages it takes. *)
Definition grow_want (size : Z) : Z := u64 (size * 2) `max` 0x100000.
Definition grow_len (size : Z) : Z := u64 (grow_want size + data_offset (grow_want size)).

Lemma heap_inv_app h Bs s ha hf :
  heap_inv h Bs → live s ∅ → (∀ t p, t ∈ slabs h → owns s p = true → owns t p = false) →
  heap_inv (mk_state (slabs h ++ [s]) ha hf false) (Bs ++ [∅]).
Proof.
  intros (_ & _ & HF & Hap) Hl Hfr. split_and!; simpl; [done| | |].
  - by intros ?%app_nil%proj2.
  - apply Forall2_app; [done|]. apply Forall2_cons_2; [done|]. apply Forall2_nil_2.
  - intros i j t u p Hne [Hi|(? & Hi)]%lookup_app_Some [Hj|(? & Hj)]%lookup_app_Some Ho.
    + by apply (Hap i j t u p).
    + apply list_lookup_singleton_Some in Hj as [_ <-].
      destruct (owns s p) eqn:Hs; [|done].
      rewrite (Hfr t p) in Ho; [done|by eapply list_elem_of_lookup_2|done].
    + apply list_lookup_singleton_Some in Hi as [_ <-].
      apply Hfr; [by eapply list_elem_of_lookup_2|done].
    + apply list_lookup_singleton_Some in Hi as [? _], Hj as [? _]. lia.
Qed.

Lemma block_app h Bs s ha hf lk B p n bs :
  block h Bs p n bs → block (mk_state (slabs h ++ [s]) ha hf lk) (Bs ++ [B]) p n bs.
Proof.
  intros (k & t & C & st & Hk & HC & Hst & -> & Hc). exists k, t, C, st.
  split_and!; [by apply lookup_app_l_Some..|done|done|done].
Qed.

(** The slab a growing heap creates. *)
Lemma grow_slab mem ss size :
  0 < size ≤ 67108864 → fresh_pages ss mem (grow_len size) →
  let s := createFromVMem mem (grow_want size) in
  live s ∅ ∧ first_fit (bitmap s) (pieces s) (need size) 0 ∧
  (∀ t p, t ∈ ss → owns s p = true → owns t p = false).
Proof.
  intros Hsz (Hm & Hend & Hfr) s. unfold grow_len in *.
  assert (Hw : grow_want size = (size * 2) `max` 0x100000)
    by (unfold grow_want; rewrite wrap_small; lia).
  destruct (create_layout (grow_want size)) as (Hn & Hmod & H32 & Hpad & Hoff); [lia|].
  assert (0 ≤ slab_pieces (grow_want size) / 8) by (apply Z.div_pos; lia).
  rewrite wrap_small in Hend, Hfr by (unfold sizeof_Slab in *; lia).
  assert (Hlv : live s ∅) by (apply create_live; lia).
  split_and!; [done| |].
  - apply create_fit. unfold need, ALLOC_SIZE.
    split; [apply Z.div_str_pos; lia|]. etrans; [|apply Hn].
    apply (Z.le_trans _ (grow_want size / 16 - 31)); [|lia].
    pose proof (Z.div_mod (size + 16 + 15) 16 ltac:(lia)). pose proof (Z.mod_pos_bound (size + 16 + 15) 16 ltac:(lia)).
    pose proof (Z.div_mod (grow_want size) 16 ltac:(lia)). pose proof (Z.mod_pos_bound (grow_want size) 16 ltac:(lia)).
    lia.
  - intros t p Ht Ho. apply Hfr; [done|]. unfold owns, s, createFromVMem in Ho. simpl in Ho.
    pose proof (Z.div_mod (grow_want size) 16 ltac:(lia)). pose proof (Z.mod_pos_bound (grow_want size) 16 ltac:(lia)).
    unfold ALLOC_SIZE, sizeof_Slab in *.
    set (n := slab_pieces (grow_want size)) in *.
    rewrite (wrap_small 64 (mem + _)), wrap_small in Ho by (rewrite ?wrap_small; lia). lia.
Qed.

Section MallocProofs.
Context (kalloc : nat → Z → Z).

Lemma malloc_grow_total fuel h Bs size :
  heap_inv h Bs → 0 < size ≤ 67108864 →
  fresh_pages (slabs h) (kalloc (length (slabs h)) (grow_len size)) (grow_len size) →
  ∃ r, malloc_grow kalloc (S fuel) h size = Done r ∧ malloc_post h Bs size r.
Proof.
  intros Hinv Hsz Hfr. destruct (grow_slab _ _ _ Hsz Hfr) as (Hl & Hff & Hap). simpl in Hl, Hff, Hap.
  pose proof Hinv as (Hlk & _ & HF & _). pose proof (Forall2_length _ _ _ HF) as Hlen.
  simpl. rewrite Hlk. simpl. fold (grow_want size) (grow_len size).
  set (s := createFromVMem _ _) in *.
  set (hf := u64 (heap_free h + _)). set (ha := u64 (heap_allocated h + _)).
  set (h' := mk_state (slabs h ++ [s]) ha hf false).
  assert (Hinv' : heap_inv h' (Bs ++ [∅])) by (by apply heap_inv_app).
  destruct (malloc_at h' (Bs ++ [∅]) size (length (slabs h)) s ∅ 0 ha) as (s' & hf' & Hal & Bs' & Hi & Hb & Hk);
    [done|done|by apply list_lookup_middle|by apply list_lookup_middle|done|].
  simpl in Hal, Hi, Hb, Hk. rewrite Hal. simpl.
  rewrite insert_app_r_alt, Nat.sub_diag in Hi, Hb, Hk by lia. simpl in Hi, Hb, Hk.
  assert (0 < ptr_of s 0) by (destruct Hl as ((_ & _ & _ & _ & _ & _ & _ & _ & ? & _) & _); unfold ptr_of, ALLOC_SIZE; lia).
  destruct (Z.eqb_spec (ptr_of s 0) 0) as [|_]; [lia|]. simpl.
  eexists; split; [done|]. exists Bs'. split_and!; [done|done|].
  intros p n bs Hp. apply Hk. by apply block_app.
Qed.

Lemma malloc_walk h size :
  slabs h ≠ [] → 0 < size ≤ 67108864 →
  malloc kalloc h size =
    r ← malloc_in (slabs h) (heap_free h) size;
    match r with
    | Some (addr, ss, hf) => Done (addr, mk_state ss (heap_allocated h) hf (malloc_lock h))
    | None => malloc_grow kalloc 2 h size
    end.
Proof.
  intros Hne Hsz. unfold malloc. destruct (Z.eqb_spec size 0); [lia|].
  destruct (Z.gtb_spec size 67108864); [lia|]. by destruct (slabs h).
Qed.

Lemma malloc_total h Bs size :
  heap_inv h Bs → 0 < size ≤ 67108864 →
  fresh_pages (slabs h) (kalloc (length (slabs h)) (grow_len size)) (grow_len size) →
  overruns (slabs h) size ∧ malloc kalloc h size = Fault ∨
  ¬ overruns (slabs h) size ∧ ∃ r, malloc kalloc h size = Done r ∧ malloc_post h Bs size r.
Proof.
  intros Hinv Hsz Hfr. pose proof Hinv as (Hlk & Hne & HF & _). rewrite malloc_walk by done.
  destruct (malloc_in_spec (slabs h) Bs (heap_free h) size HF Hsz)
    as [(Hov & ->)|(Hov & [(k & s & B & st & Hk & HB & Hff & Hm)|[_ Hm]])]; [by left|right; split; [done|]..].
  - destruct (malloc_at h Bs size k s B st (heap_allocated h)) as (s' & hf' & Hal & Hpost); [done..|].
    rewrite Hm, Hal. simpl. rewrite Hlk. eauto.
  - rewrite Hm. cbn [mbind outcome_bind]. destruct (malloc_grow_total 1 h Bs size Hinv Hsz Hfr) as (r & -> & Hp). eauto.
Qed.

End MallocProofs.

(** ** [free], [msize] and [realloc] on live blocks *)

Lemma msize_block h Bs p n bs :
  heap_inv h Bs → block h Bs p n bs → msize h p = Done ((n - 1) * ALLOC_SIZE).
Proof.
  intros Hinv Hb. pose proof Hinv as (_ & Hne & _ & Hap).
  destruct (block_owner _ _ _ _ _ Hinv Hb) as (k & s & B & st & Hk & HB & Hl & Hst & -> & _ & Ho).
  pose proof (ptr_of_pos _ _ _ _ Hl Hst). unfold msize.
  destruct (Z.eqb_spec (ptr_of s st) 0) as [|_]; [lia|].
  destruct (slabs h) eqn:E; [done|]. rewrite (msize_in_at _ k s) by done. by eapply size_live.
Qed.

(** What [free] promises: the block is gone, every other block stays. *)
Definition free_post (h : state) (Bs : list (gmap Z Z)) (p n : Z) (h' : state) : Prop :=
  ∃ Bs', heap_inv h' Bs' ∧ (∀ m cs, ¬ block h' Bs' p m cs) ∧
    heap_free h' = u64 (heap_free h + u64 (n * ALLOC_SIZE)) ∧
    length (slabs h') = length (slabs h) ∧
    ∀ q m cs, q ≠ p → block h Bs q m cs → block h' Bs' q m cs.

Lemma free_block h Bs p n bs :
  heap_inv h Bs → block h Bs p n bs → ∃ h', free h p = Done h' ∧ free_post h Bs p n h'.
Proof.
  intros Hinv Hb. pose proof Hinv as (Hlk & Hne & _ & Hap).
  destruct (block_owner _ _ _ _ _ Hinv Hb) as (k & s & B & st & Hk & HB & Hl & Hst & -> & _ & Ho).
  pose proof (ptr_of_pos _ _ _ _ Hl Hst). unfold free.
  destruct (Z.eqb_spec (ptr_of s st) 0) as [|_]; [lia|].
  destruct (free_live s B (heap_free h) st n Hl Hst) as (s' & Hf & Hl' & Hd & Hp & _ & Hkeep & _).
  exists (mk_state (<[k := s']> (slabs h)) (heap_allocated h) (u64 (heap_free h + u64 (n * ALLOC_SIZE))) (malloc_lock h)).
  split.
  { pose proof (free_in_at (slabs h) k s (heap_free h) (ptr_of s st) Hap Hk Ho) as Hfi. rewrite Hf in Hfi.
    destruct (slabs h) eqn:E; [done|]. by rewrite Hfi. }
  assert (Hinv' := heap_inv_insert h Bs k s s' _ (heap_allocated h)
    (u64 (heap_free h + u64 (n * ALLOC_SIZE))) Hinv Hk Hl' Hd Hp).
  rewrite Hlk. exists (<[k := delete st B]> Bs). split_and!; [done| |done| |].
  - intros m cs Hb'.
    destruct (block_owner _ _ _ _ _ Hinv' Hb') as (k' & t & C & st' & Hk' & HC & Hlt & Hst' & Heq & _ & Ho').
    pose proof Hk as Hlen%lookup_lt_Some. pose proof HB as Hlen'%lookup_lt_Some. simpl in Hk'.
    destruct (decide (k' = k)) as [->|Hkk].
    + rewrite list_lookup_insert_eq in Hk' by done. rewrite list_lookup_insert_eq in HC by done. simplify_eq.
      assert (st' = st) as -> by (unfold ptr_of, ALLOC_SIZE in *; lia).
      by rewrite lookup_delete_eq in Hst'.
    + rewrite list_lookup_insert_ne in Hk' by done.
      by rewrite (Hap k k' s t (ptr_of s st)) in Ho' by done.
  - simpl. apply length_insert.
  - intros q m cs Hqp Hq. eapply block_insert; [done|done|done| |done].
    intros st' m' Hst' ->. assert (st' ≠ st) by congruence.
    rewrite lookup_delete_ne by congruence. auto.
Qed.

(** [memcpy] between two live blocks. *)
Lemma memcpy_blocks h Bs p n bs q m cs len :
  heap_inv h Bs → block h Bs p n bs → block h Bs q m cs → p ≠ q →
  0 ≤ len ≤ (n - 1) * ALLOC_SIZE → len ≤ (m - 1) * ALLOC_SIZE →
  ∃ h' ds, memcpy h q p len = Done h' ∧ heap_inv h' Bs ∧ slabs h' ≠ [] ∧
    block h' Bs q m ds ∧ take (Z.to_nat len) ds = take (Z.to_nat len) bs ∧
    heap_free h' = heap_free h ∧ length (slabs h') = length (slabs h) ∧
    ∀ r k es, r ≠ q → block h Bs r k es → block h' Bs r k es.
Proof.
  intros Hinv Hp Hq Hne Hl1 Hl2. pose proof Hinv as (Hlk & Hnil & _ & Hap).
  destruct (block_owner _ _ _ _ _ Hinv Hp) as (k & s & B & st & Hk & HB & Hl & Hst & -> & Hc & Ho).
  destruct (block_owner _ _ _ _ _ Hinv Hq) as (k' & t & C & st' & Hk' & HC & Hlt & Hst' & -> & _ & Ho').
  pose proof Hl as ((_ & _ & _ & _ & _ & Hby & _) & _).
  pose proof Hlt as ((_ & _ & _ & _ & _ & _ & Hpad & Hlen & _) & _ & Hblk & _).
  destruct (Hblk _ _ Hst') as (? & ? & ? & _).
  assert (Hget : get (rest s) (off s (ptr_of s st)) len = Done (take (Z.to_nat len) bs)).
  { apply get_Done in Hc as (? & ? & ? & Hlb & Hbs). apply get_Done.
    rewrite length_take. split_and!; try lia. intros i Hi. rewrite lookup_take_lt, Hbs by lia. done. }
  destruct (put_in_range (rest t) (take (Z.to_nat len) bs) (off t (ptr_of t st'))) as [r Hr].
  { unfold off, ptr_of, ALLOC_SIZE. lia. }
  { apply get_Done in Hget as (_ & _ & _ & -> & _). unfold off, ptr_of, ALLOC_SIZE in *. lia. }
  destruct (live_write t C st' m r (take (Z.to_nat len) bs) Hlt Hst') as (Hlv & Hoth & ds & Hds & Htk);
    [by eapply get_bytes|by apply get_Done in Hget as (_ & _ & _ & -> & _)|done|].
  exists (mk_state (<[k' := set_rest t r]> (slabs h)) (heap_allocated h) (heap_free h) (malloc_lock h)), ds.
  assert (Hinv' := heap_inv_insert h Bs k' t (set_rest t r) C (heap_allocated h) (heap_free h) Hinv Hk' Hlv eq_refl eq_refl).
  rewrite (list_insert_id Bs) in Hinv' by done. rewrite Hlk in *.
  pose proof Hk' as Hlen'%lookup_lt_Some.
  split_and!; [|done|by destruct Hinv' as (_ & ? & _)| | |done|simpl; apply length_insert|].
  - unfold memcpy. rewrite (read_in_at _ k s), Hget by done. simpl.
    rewrite (write_in_at _ k' t), Hr by done. simpl. by rewrite Hlk.
  - exists k', (set_rest t r), C, st'. simpl. by rewrite list_lookup_insert_eq by done.
  - etrans; [|exact Htk]. f_equal.
    apply get_Done in Hget as (_ & _ & _ & Hll & _). lia.
  - intros p' k0 es Hpq Hb. rewrite <-(list_insert_id Bs k' C) by done.
    eapply block_insert; [done|done|done| |done].
    intros st0 m0 Hst0 ->. split; [done|]. apply Hoth; [congruence|done].
Qed.

(** ** The properties of the heap *)

(** C1 (functional). A request of 1 to 64 MiB bytes on a well-formed heap, when the page
    map has fresh pages for a new slab, ends in one of two ways.  When the walk over the
    slabs meets a slab without room for it, large enough, with no all-ones word behind the
    bitmap, before a slab with room, the scan leaves the memory of the slab ([Fault]).
    In every other case the request returns a fresh block: large enough, zeroed, its
    [msize] that of the pieces it took, disjoint from every live block, all of which keep
    their contents; a new slab is created when no slab has room. *)
Theorem malloc_correct (kalloc : nat → Z → Z) h Bs size :
  heap_inv h Bs → 0 < size ≤ 67108864 →
  fresh_pages (slabs h) (kalloc (length (slabs h)) (grow_len size)) (grow_len size) →
  overruns (slabs h) size ∧ malloc kalloc h size = Fault ∨
  ¬ overruns (slabs h) size ∧
  ∃ p h' Bs' n, malloc kalloc h size = Done (p, h') ∧ heap_inv h' Bs' ∧
    block h' Bs' p n (replicate (Z.to_nat ((n - 1) * ALLOC_SIZE)) 0) ∧
    msize h' p = Done ((n - 1) * ALLOC_SIZE) ∧ size ≤ (n - 1) * ALLOC_SIZE < size + ALLOC_SIZE ∧
    ∀ q m cs, block h Bs q m cs → block h' Bs' q m cs ∧ disjoint_blocks p n q m.
Proof.
  intros Hinv Hsz Hfr.
  destruct (malloc_total kalloc h Bs size Hinv Hsz Hfr) as [|(Hov & [p h'] & Hm & Bs' & Hinv' & Hb & Hk)]; [by left|right; split; [done|]].
  simpl in *. exists p, h', Bs', (need size). destruct (need_bounds size) as (_ & Hn & _); [lia..|].
  split_and!; try done; try lia; [by eapply msize_block|].
  intros q m cs Hq. destruct (Hk q m cs Hq) as [Hne Hq']. split; [done|].
  by eapply blocks_disjoint.
Qed.

(** C38 (functional). Freeing a live block gives it back: no block starts at
    the pointer any more, the free counter grows by its pieces and every other
    live block stays with its contents. *)
Theorem heap_free_correct h Bs p n bs :
  heap_inv h Bs → block h Bs p n bs →
  ∃ h' Bs', free h p = Done h' ∧ heap_inv h' Bs' ∧ (∀ m cs, ¬ block h' Bs' p m cs) ∧
    heap_free h' = u64 (heap_free h + u64 (n * ALLOC_SIZE)) ∧
    ∀ q m cs, q ≠ p → block h Bs q m cs → block h' Bs' q m cs.
Proof.
  intros Hinv Hb. destruct (free_block h Bs p n bs Hinv Hb) as (h' & Hf & Bs' & ? & ? & ? & _ & ?).
  exists h', Bs'. by split_and!.
Qed.

(** C39 (error). A second [free] of the same pointer panics: the first one
    overwrote the header with 0x5A, which never matches the sanity value of a
    16-byte aligned pointer. *)
Theorem double_free_panics h Bs p n bs :
  heap_inv h Bs → block h Bs p n bs → p mod ALLOC_SIZE = 0 →
  (h' ← free h p; free h' p) = Panic "heap: free() sanity check failed".
Proof.
  intros Hinv Hb Hal. pose proof Hinv as (Hlk & Hne & _ & Hap).
  destruct (block_owner _ _ _ _ _ Hinv Hb) as (k & s & B & st & Hk & HB & Hl & Hst & -> & _ & Ho).
  pose proof (ptr_of_pos _ _ _ _ Hl Hst) as Hpos. pose proof Hk as Hlt%lookup_lt_Some.
  destruct (free_again s B (heap_free h) st n Hl Hst Hal) as (s' & Hf & Hd & Hp & Hagain).
  assert (Hap' : apart (<[k := s']> (slabs h))) by (by eapply apart_insert).
  assert (Ho' : owns s' (ptr_of s st) = true) by (by rewrite (owns_same s s')).
  pose proof (list_lookup_insert_eq _ _ s' Hlt) as Hk'.
  unfold free. destruct (Z.eqb_spec (ptr_of s st) 0) as [|_]; [lia|].
  pose proof (free_in_at (slabs h) k s (heap_free h) _ Hap Hk Ho) as Hfi. rewrite Hf in Hfi. simpl in Hfi.
  destruct (slabs h) as [|t ss] eqn:E; [done|]. rewrite Hfi. cbn [mbind outcome_bind slabs heap_free].
  destruct (<[k := s']> (t :: ss)) as [|u us] eqn:E'; [done|].
  by rewrite (free_in_at _ k s'), Hagain by done.
Qed.

(** [realloc] of a live block moves it: the new block is
    large enough and starts with the old bytes, as many as both blocks hold;
    the old block is gone and every other one keeps its contents. *)
Lemma realloc_correct (kalloc : nat → Z → Z) h Bs p n bs size :
  heap_inv h Bs → block h Bs p n bs → 0 < size ≤ 67108864 →
  (∀ s, s ∈ slabs h → scan_stops s size) →
  fresh_pages (slabs h) (kalloc (length (slabs h)) (grow_len size)) (grow_len size) →
  ∃ q h' Bs' m cs, realloc kalloc h p size = Done (q, h') ∧ heap_inv h' Bs' ∧ q ≠ p ∧
    block h' Bs' q m cs ∧ size ≤ (m - 1) * ALLOC_SIZE ∧
    take (Z.to_nat (((n - 1) * ALLOC_SIZE) `min` size)) cs =
      take (Z.to_nat (((n - 1) * ALLOC_SIZE) `min` size)) bs ∧
    (∀ k es, ¬ block h' Bs' p k es) ∧
    ∀ r k es, r ≠ p → block h Bs r k es → block h' Bs' r k es.
Proof.
  intros Hinv Hb Hsz Hst Hfr.
  destruct (malloc_total kalloc h Bs size Hinv Hsz Hfr) as [[Hov _]|(_ & [q h1] & Hm & Bs1 & Hinv1 & Hq & Hk)]; [by apply stops_no_overrun in Hov|].
  simpl in *. destruct (Hk p n bs Hb) as [Hpq Hp1].
  destruct (need_bounds size) as (_ & Hn & _); [lia..|].
  assert (Hn1 : 0 < n) by (destruct (block_owner _ _ _ _ _ Hinv Hb) as (? & ? & ? & ? & _ & _ & (_ & _ & Hblk & _) & HB & _);
    by destruct (Hblk _ _ HB) as (? & ? & _)).
  set (len := ((n - 1) * ALLOC_SIZE) `min` size) in *.
  destruct (memcpy_blocks h1 Bs1 p n bs q (need size) _ len Hinv1 Hp1 Hq Hpq) as
    (h2 & ds & Hcp & Hinv2 & _ & Hq2 & Htk & _ & _ & Hk2); [unfold len, ALLOC_SIZE in *; lia..|].
  destruct (free_block h2 Bs1 p n bs Hinv2) as (h3 & Hf & Bs3 & Hinv3 & Hgone & _ & _ & Hk3); [by apply Hk2|].
  exists q, h3, Bs3, (need size), ds.
  split_and!; [|done|congruence|by apply Hk3|lia|done|done|].
  - pose proof (msize_block _ _ _ _ _ Hinv Hb) as Hms.
    destruct (block_owner _ _ _ _ _ Hinv Hb) as (? & ? & ? & ? & _ & _ & Hl & HB & Heq & _).
    destruct (block_owner _ _ _ _ _ Hinv1 Hq) as (? & ? & ? & ? & _ & _ & Hl' & HB' & Heq' & _).
    pose proof (ptr_of_pos _ _ _ _ Hl HB). pose proof (ptr_of_pos _ _ _ _ Hl' HB').
    unfold realloc. destruct (Z.eqb_spec p 0) as [|_]; [lia|]. destruct (Z.eqb_spec size 0) as [|_]; [lia|].
    rewrite Hms; simpl. rewrite Hm; simpl. destruct (Z.eqb_spec q 0) as [|_]; [lia|].
    fold len. rewrite Hcp; simpl. by rewrite Hf.
  - intros r k es Hr Hbr. apply Hk3; [done|]. destruct (Hk r k es Hbr). by apply Hk2.
Qed.

(** Deviation: a request that fits no slab of a one-slab heap
    should make [findFree] return -1 and [malloc] add a slab; [findFree] tests
    [index <= pieces], reads on past the bitmap and, with no all-ones word
    behind it, leaves the slab's memory. *)
Lemma malloc_scan_overruns (kalloc : nat → Z → Z) s ha hf size :
  wf s → 0 < size ≤ 67108864 → need size ≤ pieces s →
  no_room s size → has_sentinel s = false →
  malloc kalloc (mk_state [s] ha hf false) size = Fault.
Proof.
  intros Hwf Hsz Hle Hno Hse. rewrite malloc_walk by done. simpl.
  destruct (slab_scan s size Hwf Hsz) as [(st & Hf)|[(_ & [(st & Hf)|(_ & [|])])|(_ & _ & _ & ->)]]; [by apply Hno in Hf..|lia|congruence|done].
Qed.

(** ** The self test of [init] *)

Lemma live_first_fit s B st n :
  live s B → 0 ≤ st → st + n ≤ pieces s →
  (∀ j, st ≤ j < st + n → ¬ covered B j) →
  (∀ st', 0 ≤ st' < st → ∃ j, st' ≤ j < st' + n ∧ covered B j) →
  first_fit (bitmap s) (pieces s) n st.
Proof.
  intros (_ & Hcov & _) Hst Hle Hfree Htaken. split_and!; [done|done| |].
  - intros j Hj. apply not_true_is_false. rewrite Hcov by lia. by apply Hfree.
  - intros st' Hst' Hrun. destruct (Htaken st' Hst') as (j & Hj & Hc).
    apply Hcov in Hc; [|lia]. by rewrite Hrun in Hc.
Qed.

(** [malloc] and [free] on a heap of one slab. *)
Lemma malloc_one (kalloc : nat → Z → Z) s B ha hf size st :
  live s B → 0 < size ≤ 67108864 → first_fit (bitmap s) (pieces s) (need size) st →
  ∃ s', malloc kalloc (mk_state [s] ha hf false) size =
      Done (ptr_of s st, mk_state [s'] ha (u64 (hf - u64 (need size * ALLOC_SIZE))) false) ∧
    live s' (<[st := need size]> B) ∧ data s' = data s ∧ pieces s' = pieces s.
Proof.
  intros Hl Hsz Hff. destruct (alloc_fit s B hf size st Hl ltac:(lia) Hff) as (s' & Hal & Hl' & _ & Hd & Hp & _).
  exists s'. split_and!; [|done..]. rewrite malloc_walk by done. simpl. rewrite Hal. simpl.
  pose proof (ptr_of_pos s' _ st (need size) Hl' (lookup_insert_eq _ _ _)) as Hpos.
  replace (ptr_of s' st) with (ptr_of s st) in Hpos by (unfold ptr_of; by rewrite Hd).
  by destruct (Z.eqb_spec (ptr_of s st) 0) as [|_]; [lia|].
Qed.

Lemma free_one s B ha hf st n :
  live s B → B !! st = Some n →
  ∃ s', free (mk_state [s] ha hf false) (ptr_of s st) =
      Done (mk_state [s'] ha (u64 (hf + u64 (n * ALLOC_SIZE))) false) ∧
    live s' (delete st B) ∧ data s' = data s ∧ pieces s' = pieces s.
Proof.
  intros Hl HB. destruct (free_live s B hf st n Hl HB) as (s' & Hf & Hl' & Hd & Hp & _).
  exists s'. split_and!; [|done..]. unfold free. pose proof (ptr_of_pos _ _ _ _ Hl HB).
  destruct (Z.eqb_spec (ptr_of s st) 0) as [|_]; [lia|]. simpl.
  by rewrite (owns_live _ _ _ _ Hl HB), Hf.
Qed.

Lemma heap_inv_one s B ha hf : live s B → heap_inv (mk_state [s] ha hf false) [B].
Proof.
  intros Hl. split_and!; [done|done|by apply Forall2_cons_2, Forall2_nil_2|].
  intros [|i] [|j] t u p Hne Hi Hj; simpl in *; naive_solver.
Qed.

(** The blocks [a], [b] and [c] of [init], 3 pieces each. *)
Definition test_a : gmap Z Z := <[0 := 3]> ∅.
Definition test_ab : gmap Z Z := <[3 := 3]> test_a.
Definition test_b : gmap Z Z := delete 0 test_ab.
Definition test_bc : gmap Z Z := <[0 := 3]> test_b.

Lemma test_fit_b s : live s test_a → 6 ≤ pieces s → first_fit (bitmap s) (pieces s) (need 24) 3.
Proof.
  intros Hl Hp. change (need 24) with 3. apply (live_first_fit _ _ _ _ Hl); [lia..| |].
  - intros j Hj (st & n & HB & Hjj). unfold test_a in HB.
    apply lookup_insert_Some in HB as [[<- <-]|[_ HB]]; [lia|by rewrite lookup_empty in HB].
  - intros st Hst. exists st. split; [lia|]. exists 0, 3. split; [apply lookup_insert_eq|lia].
Qed.

Lemma test_fit_c s : live s test_b → 6 ≤ pieces s → first_fit (bitmap s) (pieces s) (need 24) 0.
Proof.
  intros Hl Hp. change (need 24) with 3. apply (live_first_fit _ _ _ _ Hl); [lia..| |lia].
  intros j Hj (st & n & HB & Hjj). unfold test_b, test_ab, test_a in HB. apply lookup_delete_Some in HB as [Hne HB].
  apply lookup_insert_Some in HB as [[<- <-]|[_ HB]]; [lia|].
  apply lookup_insert_Some in HB as [[<- <-]|[_ HB]]; [lia|by rewrite lookup_empty in HB].
Qed.

(** Whatever pages the boot slab gets, the self test of
    [init] passes: the third allocation reuses the freed first block, and the
    heap it leaves is one slab with no live block and full counters. *)
Lemma init_self_test (kalloc : nat → Z → Z) :
  0 < kalloc 0%nat 1056816 → kalloc 0%nat 1056816 + 1056816 < 2 ^ 64 →
  ∃ s, init kalloc = Done (mk_state [s] 1048576 1048576 false) ∧
    pieces s = 65536 ∧ heap_inv (mk_state [s] 1048576 1048576 false) [∅].
Proof.
  intros Hm Hm'. unfold init.
  change (u64 (0x100000 + data_offset 0x100000)) with 1056816.
  set (s0 := createFromVMem _ _).
  assert (Hl0 : live s0 ∅) by (apply create_live; [lia|done|];
    change (data_offset 0x100000) with 8240; lia).
  assert (Hp0 : pieces s0 = 65536) by done. cbn zeta. rewrite Hp0.
  change (u64 (65536 * ALLOC_SIZE)) with 1048576.
  destruct (malloc_one kalloc s0 ∅ 1048576 1048576 24 0 Hl0) as (s1 & -> & Hl1 & Hd1 & Hp1);
    [lia|by apply create_fit|]. cbn [mbind outcome_bind].
  match goal with |- context[mk_state _ _ ?x _] => change x with 1048528 end.
  destruct (malloc_one kalloc s1 test_a 1048576 1048528 24 3 Hl1) as (s2 & -> & Hl2 & Hd2 & Hp2);
    [lia|apply test_fit_b; [done|lia]|]. cbn [mbind outcome_bind].
  replace (ptr_of s0 0) with (ptr_of s2 0) by (unfold ptr_of; by rewrite Hd2, Hd1).
  replace (ptr_of s1 3) with (ptr_of s2 3) by (unfold ptr_of; by rewrite Hd2).
  destruct (free_one s2 test_ab 1048576 1048480 0 3 Hl2 eq_refl) as (s3 & Hf3 & Hl3 & Hd3 & Hp3).
  match goal with |- context[mk_state _ _ ?x _] => change x with 1048480 end.
  rewrite Hf3. cbn [mbind outcome_bind].
  destruct (malloc_one kalloc s3 test_b 1048576 1048528 24 0 Hl3) as (s4 & Hm4 & Hl4 & Hd4 & Hp4);
    [lia|apply test_fit_c; [done|lia]|].
  match goal with |- context[mk_state _ _ ?x _] => change x with 1048528 end.
  rewrite Hm4. cbn [mbind outcome_bind].
  replace (ptr_of s2 0) with (ptr_of s3 0) by (unfold ptr_of; by rewrite Hd3).
  rewrite Z.eqb_refl. cbn [negb].
  replace (ptr_of s2 3) with (ptr_of s4 3) by (unfold ptr_of; by rewrite Hd4, Hd3).
  destruct (free_one s4 test_bc 1048576 1048480 3 3 Hl4 eq_refl) as (s5 & Hf5 & Hl5 & Hd5 & Hp5).
  match goal with |- context[mk_state _ _ ?x _] => change x with 1048480 end.
  rewrite Hf5. cbn [mbind outcome_bind].
  replace (ptr_of s3 0) with (ptr_of s5 0) by (unfold ptr_of; by rewrite Hd5, Hd4).
  destruct (free_one s5 (delete 3 test_bc) 1048576 1048528 0 3 Hl5 eq_refl) as (s6 & Hf6 & Hl6 & Hd6 & Hp6).
  exists s6. split_and!; [exact Hf6|lia|]. by apply heap_inv_one.
Qed.

(** ** Witnesses: a slab of 32 pieces with one block of 24 bytes *)

Definition demo_slab : Slab := createFromVMem 0x1000 512.
Definition demo_used : Slab :=
  match Slab.alloc demo_slab 512 24 with Done (_, s, _) => s | _ => demo_slab end.
Definition demo_heap : state := mk_state [demo_used] 512 464 false.
Definition demo_pages (n : nat) (_ : Z) : Z := 0x10000000 * Z.of_nat n.

Lemma demo_live : live demo_used (<[0 := 3]> ∅).
Proof.
  unfold demo_used.
  by destruct (alloc_fit demo_slab ∅ 512 24 0) as (s' & -> & Hl & _); [by apply create_live|lia|by apply create_fit|].
Qed.

Lemma heap_demo_inv : heap_inv demo_heap [<[0 := 3]> ∅].
Proof. apply heap_inv_one, demo_live. Qed.

Lemma demo_block : block demo_heap [<[0 := 3]> ∅] 4176 3 (replicate 32 0).
Proof.
  exists 0%nat, demo_used, (<[0 := 3]> ∅), 0.
  split_and!; by vm_compute.
Qed.

Lemma demo_fresh size :
  grow_len size = 1056816 → fresh_pages (slabs demo_heap) (demo_pages (length (slabs demo_heap)) (grow_len size)) (grow_len size).
Proof.
  intros ->. split_and!; [by vm_compute..|]. intros s p Hs Hp.
  replace (demo_pages _ _) with 0x10000000 in Hp by done.
  apply list_elem_of_lookup in Hs as ([|k] & Hk); [|by destruct k]. injection Hk as <-.
  unfold owns. apply andb_false_intro2. apply Z.leb_gt.
  match goal with |- ?x < _ => change x with 4672 end. lia.
Qed.

Lemma demo_scan size : need size = 7 → ∀ s, s ∈ slabs demo_heap → scan_stops s size.
Proof.
  intros Hn s Hs. apply list_elem_of_lookup in Hs as ([|k] & Hk); [|by destruct k].
  destruct (heap_inv_lookup _ _ 0%nat s heap_demo_inv Hk) as (B & [= <-] & Hl). left. exists 3. rewrite Hn.
  injection Hk as <-. apply (live_first_fit _ _ _ _ Hl); [lia|by vm_compute| |].
  - intros j Hj (st & n & HB & Hjj).
    apply lookup_insert_Some in HB as [[<- <-]|[_ HB]]; [lia|by rewrite lookup_empty in HB].
  - intros st Hst. exists st. split; [lia|]. exists 0, 3. split; [apply lookup_insert_eq|lia].
Qed.

Lemma malloc_correct_witness :
  ∃ p h', malloc demo_pages demo_heap 90 = Done (p, h') ∧ msize h' p = Done 96.
Proof.
  destruct (malloc_correct demo_pages demo_heap [<[0 := 3]> ∅] 90) as [[Hov _]|(_ & p & h' & Bs' & n & Hm & _ & _ & Hs & Hn & _)];
    [apply heap_demo_inv|lia|by apply demo_fresh|by apply stops_no_overrun in Hov; [|apply demo_scan]|].
  exists p, h'. split; [exact Hm|]. rewrite Hs. f_equal. unfold ALLOC_SIZE in *. lia.
Defined.

Lemma heap_free_correct_witness : ∃ h', free demo_heap 4176 = Done h' ∧ heap_free h' = 512.
Proof.
  destruct (heap_free_correct demo_heap [<[0 := 3]> ∅] 4176 3 (replicate 32 0)) as (h' & Bs' & Hf & _ & _ & Hc & _);
    [apply heap_demo_inv|apply demo_block|]. exists h'. split; [exact Hf|].
  rewrite Hc. vm_compute. reflexivity.
Defined.

Lemma double_free_panics_witness :
  (h' ← free demo_heap 4176; free h' 4176) = Panic "heap: free() sanity check failed".
Proof.
  apply (double_free_panics demo_heap [<[0 := 3]> ∅] 4176 3 (replicate 32 0));
    [apply heap_demo_inv|apply demo_block|reflexivity].
Defined.

Lemma realloc_correct_witness : ∃ q h', realloc demo_pages demo_heap 4176 90 = Done (q, h') ∧ q ≠ 4176.
Proof.
  destruct (realloc_correct demo_pages demo_heap [<[0 := 3]> ∅] 4176 3 (replicate 32 0) 90)
    as (q & h' & Bs' & m & cs & Hr & _ & Hq & _);
    [apply heap_demo_inv|apply demo_block|lia|by apply demo_scan|by apply demo_fresh|]. exists q, h'. split; [exact Hr|exact Hq].
Defined.

(** 29 pieces are free; a request of 30 walks off the slab. *)
Lemma malloc_scan_overruns_witness : malloc demo_pages demo_heap 460 = Fault.
Proof.
  apply (malloc_scan_overruns demo_pages demo_used 512 464 460);
    [apply demo_live|lia|by vm_compute| |by vm_compute].
  by destruct (findFree_spec demo_used 30 (proj1 demo_live)) as [(r & Hr & _)|[Hno _]];
    [split; vm_compute|vm_compute in Hr|exact Hno].
Defined.

Lemma init_self_test_witness : ∃ s, init (λ _ _, 0x1000) = Done (mk_state [s] 1048576 1048576 false).
Proof. destruct (init_self_test (λ _ _, 0x1000)) as (s & Hs & _); [lia|lia|]. exists s. exact Hs. Defined.

End Heap.
