(* ===== verification/Event.v ===== *)
(** * Events

    [ipc/event.cpp]: a queue of threads blocked on an event, and the
    single-waiter variant.  The methods run under the event's spinlock, so each
    is one atomic step on the event and the threads' statuses. *)
From S2P Require Import Prelude.
From stdpp Require Import gmap.
Local Open Scope Z_scope.

Module Threads.

(** [status_t], and the fields of [Thread] the events and the scheduler use. *)
Inductive status_t := TS_FRESH | TS_RUNNABLE | TS_SLEEPING | TS_BLOCKED | TS_DEAD.

#[export] Instance status_eq_dec : EqDecision status_t.
Proof. solve_decision. Defined.

Record Thread := mk_thread {
  status : status_t;
  wakeup_at : Z;
  m_busy : Z;
  m_critical : Z;
}.

Abbreviation tid := nat (only parsing).
Abbreviation threads := (gmap nat Thread) (only parsing).

(** [Thread::setStatus] on the thread [t] points to; a pointer to no thread is
    a [Fault]. *)
Definition setStatus (ts : threads) (t : tid) (st : status_t) : outcome threads :=
  match ts !! t with
  | None => Fault
  | Some th =>
      if bool_decide (st = TS_DEAD) && (m_busy th >? 1) then Panic "getBusy() <= 1"
      else Done (<[t := mk_thread st (wakeup_at th) (m_busy th) (m_critical th)]> ts)
  end.

Definition setWakeup (ts : threads) (t : tid) (at_ : Z) : outcome threads :=
  match ts !! t with
  | None => Fault
  | Some th => Done (<[t := mk_thread (status th) at_ (m_busy th) (m_critical th)]> ts)
  end.

Definition status_of (ts : threads) (t : tid) : option status_t := status <$> ts !! t.

Lemma setStatus_alive ts t th st :
  ts !! t = Some th → st ≠ TS_DEAD →
  setStatus ts t st = Done (<[t := mk_thread st (wakeup_at th) (m_busy th) (m_critical th)]> ts).
Proof. intros Ht Hst. unfold setStatus. rewrite Ht. by rewrite bool_decide_false. Qed.

End Threads.

Module Event.
Import Threads.

Record Event := mk_event { m_tiddies : list tid; m_defunct : bool }.

(** [Event::wait(timeout)] by [current] at time [uptime]; what follows it (the
    yield of a thread that is not critical) is the scheduler's step. *)
Definition wait (e : Event) (ts : threads) (current : tid) (timeout uptime : Z) : outcome (Event * threads) :=
  if m_defunct e then Done (e, ts)
  else
    let is_on_queue := existsb (Nat.eqb current) (m_tiddies e) in
    let e := if is_on_queue then e else mk_event (m_tiddies e ++ [current]) (m_defunct e) in
    if timeout =? 0 then
      ts ← setStatus ts current TS_BLOCKED;
      Done (e, ts)
    else
      ts ← setStatus ts current TS_SLEEPING;
      ts ← setWakeup ts current (i64 (uptime + u64 (u64 timeout * 1000000)));
      Done (e, ts).

(** The loop of [raise] and [defunct]. *)
Fixpoint wake (q : list tid) (ts : threads) : outcome threads :=
  match q with
  | [] => Done ts
  | t :: q =>
      match ts !! t with
      | None => Fault
      | Some th =>
          if bool_decide (status th = TS_DEAD) then Panic "m_tiddies.at(i)->status != TS_DEAD"
          else ts ← setStatus ts t TS_RUNNABLE; wake q ts
      end
  end.

Definition raise (e : Event) (ts : threads) : outcome (Z * Event * threads) :=
  let total := Z.of_nat (length (m_tiddies e)) in
  ts ← wake (m_tiddies e) ts;
  Done (total, mk_event [] (m_defunct e), ts).

Definition defunct (e : Event) (ts : threads) : outcome (Z * Event * threads) :=
  let total := Z.of_nat (length (m_tiddies e)) in
  ts ← wake (m_tiddies e) ts;
  Done (total, mk_event [] true, ts).

(** ** Waking a queue *)

Definition alive (ts : threads) (t : tid) : Prop :=
  ∃ th, ts !! t = Some th ∧ status th ≠ TS_DEAD.

Definition woken (th : Thread) : Thread :=
  mk_thread TS_RUNNABLE (wakeup_at th) (m_busy th) (m_critical th).

Lemma wake_spec q ts :
  (∀ t, t ∈ q → alive ts t) →
  ∃ ts', wake q ts = Done ts' ∧
    ∀ t, ts' !! t = if decide (t ∈ q) then woken <$> ts !! t else ts !! t.
Proof.
  revert ts. induction q as [|t q IH]; intros ts Hq; simpl.
  { exists ts. split; [done|]. intros u. by destruct (decide (u ∈ [])) as [?%elem_of_nil|]. }
  destruct (Hq t) as (th & Ht & Hal); [left|]. rewrite Ht, bool_decide_false by done.
  rewrite (setStatus_alive _ _ th) by done. cbn [mbind outcome_bind].
  set (ts1 := <[t := _]> ts). destruct (IH ts1) as (ts' & -> & Hts').
  { intros u Hu. unfold ts1, alive. destruct (decide (u = t)) as [->|Hne].
    - exists (woken th). by rewrite lookup_insert_eq.
    - destruct (Hq u) as (uh & Huh & ?); [by right|]. exists uh. by rewrite lookup_insert_ne by done. }
  exists ts'. split; [done|]. intros u. rewrite Hts'. unfold ts1.
  destruct (decide (u = t)) as [->|Hne].
  - rewrite lookup_insert_eq, Ht. destruct (decide (t ∈ t :: q)) as [_|Hn]; [|by destruct Hn; left].
    by destruct (decide _).
  - rewrite lookup_insert_ne by done. destruct (decide (u ∈ q)).
    + by rewrite decide_True by (by right).
    + rewrite decide_False; [done|]. by rewrite elem_of_cons; intros [].
Qed.

(** A dead thread on the queue stops [raise]. *)
Lemma wake_dead q1 t q2 ts th :
  (∀ u, u ∈ q1 → alive ts u ∧ u ≠ t) → ts !! t = Some th → status th = TS_DEAD →
  wake (q1 ++ t :: q2) ts = Panic "m_tiddies.at(i)->status != TS_DEAD".
Proof.
  revert ts. induction q1 as [|u q1 IH]; intros ts Hq Ht Hd; simpl.
  { by rewrite Ht, bool_decide_true. }
  destruct (Hq u) as ((uh & Hu & Hal) & Hut); [left|]. rewrite Hu, bool_decide_false by done.
  rewrite (setStatus_alive _ _ uh) by done. apply IH; [|by rewrite lookup_insert_ne|done].
  intros v Hv. destruct (Hq v) as ((vh & Hvh & ?) & ?); [by right|]. split; [|done].
  destruct (decide (v = u)) as [->|]; [exists (woken uh); by rewrite lookup_insert_eq|].
  exists vh. by rewrite lookup_insert_ne.
Qed.

(** ** Threads and one event *)

(** The steps that touch the event or a waiting thread: a running thread waits
    on the event, somebody raises it or makes it defunct, the timer wakes a
    sleeping thread, a running thread that is not critical exits, a thread that
    has exited is deleted.  Without [timed] no thread waits with a timeout. *)
Inductive step (timed : bool) : Event * threads → Event * threads → Prop :=
  | step_wait e ts e' ts' t timeout up :
      timed = true ∨ timeout = 0 → status_of ts t = Some TS_RUNNABLE → wait e ts t timeout up = Done (e', ts') →
      step timed (e, ts) (e', ts')
  | step_raise e ts n e' ts' : raise e ts = Done (n, e', ts') → step timed (e, ts) (e', ts')
  | step_defunct e ts n e' ts' : defunct e ts = Done (n, e', ts') → step timed (e, ts) (e', ts')
  | step_timer e ts t th :
      ts !! t = Some th → status th = TS_SLEEPING → step timed (e, ts) (e, <[t := woken th]> ts)
  | step_exit e ts ts' t :
      status_of ts t = Some TS_RUNNABLE → setStatus ts t TS_DEAD = Done ts' →
      step timed (e, ts) (e, ts')
  | step_delete e ts t : status_of ts t = Some TS_DEAD → step timed (e, ts) (e, delete t ts).

(** Queue entries are distinct, and a thread blocked on the event is on its
    queue. *)
Definition queued (s : Event * threads) : Prop :=
  NoDup (m_tiddies s.1) ∧
  ∀ t, status_of s.2 t = Some TS_BLOCKED → t ∈ m_tiddies s.1.

Lemma wake_inv q ts ts' : wake q ts = Done ts' → ∀ t, t ∈ q → alive ts t ∨ ∃ q1 q2, q = q1 ++ t :: q2 ∧ t ∈ q1.
Proof.
  revert ts. induction q as [|u q IH]; intros ts Hw t Ht; simpl in *; [by apply elem_of_nil in Ht|].
  destruct (ts !! u) as [uh|] eqn:Hu; [|done]. case_bool_decide; [done|].
  rewrite (setStatus_alive _ _ uh) in Hw by done. simpl in Hw.
  destruct (decide (t = u)) as [->|Hne]; [left; by exists uh|].
  apply elem_of_cons in Ht as [->|Ht]; [done|].
  destruct (IH _ Hw t Ht) as [(th & Hth & ?)|(q1 & q2 & -> & Hq1)].
  - left. exists th. by rewrite lookup_insert_ne in Hth.
  - right. exists (u :: q1), q2. split; [done|by right].
Qed.

Lemma wake_Done q ts ts' :
  NoDup q → wake q ts = Done ts' →
  ∀ t, ts' !! t = if decide (t ∈ q) then woken <$> ts !! t else ts !! t.
Proof.
  intros Hnd Hw. destruct (wake_spec q ts) as (ts'' & Hw' & Hts).
  { intros t Ht. destruct (wake_inv _ _ _ Hw t Ht) as [|(q1 & q2 & -> & Hq1)]; [done|].
    apply NoDup_app in Hnd as (_ & Hnd & _). exfalso. apply (Hnd t Hq1). left. }
  rewrite Hw in Hw'. injection Hw' as <-. exact Hts.
Qed.

Lemma wake_not_blocked q ts ts' t :
  NoDup q → (∀ u, status_of ts u = Some TS_BLOCKED → u ∈ q) → wake q ts = Done ts' →
  status_of ts' t ≠ Some TS_BLOCKED.
Proof.
  intros Hnd Hq Hw Hb. unfold status_of in *. rewrite (wake_Done q ts ts' Hnd Hw) in Hb.
  destruct (decide (t ∈ q)) as [|Hn]; [by destruct (ts !! t)|]. by apply Hn, Hq.
Qed.

(** What a finished [wait] leaves. *)
Lemma wait_Done e ts t timeout up e' ts' :
  wait e ts t timeout up = Done (e', ts') →
  (m_defunct e = true ∧ e' = e ∧ ts' = ts) ∨
  (m_defunct e = false ∧ m_defunct e' = false ∧
   m_tiddies e' = (if decide (t ∈ m_tiddies e) then m_tiddies e else m_tiddies e ++ [t]) ∧
   status_of ts' t = Some (if timeout =? 0 then TS_BLOCKED else TS_SLEEPING) ∧
   ∀ u, u ≠ t → ts' !! u = ts !! u).
Proof.
  unfold wait. destruct (m_defunct e) eqn:Hdf; [intros [= <- <-]; by left|]. intros Hw. right.
  assert (Hq : m_tiddies (if existsb (Nat.eqb t) (m_tiddies e) then e else mk_event (m_tiddies e ++ [t]) (m_defunct e)) =
    if decide (t ∈ m_tiddies e) then m_tiddies e else m_tiddies e ++ [t]).
  { destruct (existsb _ _) eqn:E.
    - apply existsb_exists in E as (u & Hu%list_elem_of_In & ->%Nat.eqb_eq). by rewrite decide_True.
    - rewrite decide_False; [done|]. intros Hin%list_elem_of_In.
      apply not_true_iff_false in E. apply E, existsb_exists. exists t. by rewrite Nat.eqb_refl. }
  assert (Hd : m_defunct (if existsb (Nat.eqb t) (m_tiddies e) then e else mk_event (m_tiddies e ++ [t]) (m_defunct e)) = false)
    by (by destruct (existsb _ _)). rewrite Hdf in *.
  destruct (timeout =? 0); unfold setStatus, setWakeup in Hw; destruct (ts !! t) as [th|]; simpl in Hw; try done.
  - injection Hw as <- <-. split_and!; [done..| |].
    + unfold status_of. by rewrite lookup_insert_eq.
    + intros u Hu. by rewrite lookup_insert_ne.
  - rewrite lookup_insert_eq in Hw. simpl in Hw. injection Hw as <- <-. split_and!; [done..| |].
    + unfold status_of. by rewrite lookup_insert_eq.
    + intros u Hu. by rewrite !lookup_insert_ne.
Qed.

Lemma queued_step timed s s' : step timed s s' → queued s → queued s'.
Proof.
  intros Hs [Hnd Hq].
  destruct Hs as [e ts e' ts' t timeout up _ Hr Hw|e ts n e' ts' Hr|e ts n e' ts' Hr|e ts t th Ht Hsl|e ts ts' t Hr Hd|e ts t Hd];
    simpl in *.
  - apply wait_Done in Hw as [(_ & -> & ->)|(_ & _ & Hqq & Hst & Hoth)]; [done|]. split; simpl; rewrite Hqq.
    + destruct (decide _); [done|]. apply NoDup_app. split_and!; [done| |apply NoDup_singleton].
      by intros u Hu ->%list_elem_of_singleton.
    + intros u Hu. destruct (decide (u = t)) as [->|Hne].
      * destruct (decide _); [done|]. apply elem_of_app. right. by apply list_elem_of_singleton.
      * unfold status_of in Hu. rewrite Hoth in Hu by done. apply Hq in Hu.
        destruct (decide _); [done|]. by apply elem_of_app; left.
  - unfold raise in Hr. apply bind_Done in Hr as (ts1 & Hw & [= <- <- <-]). split; simpl; [constructor|].
    intros u Hu. by apply (wake_not_blocked _ _ _ u Hnd Hq) in Hw.
  - unfold defunct in Hr. apply bind_Done in Hr as (ts1 & Hw & [= <- <- <-]). split; simpl; [constructor|].
    intros u Hu. by apply (wake_not_blocked _ _ _ u Hnd Hq) in Hw.
  - split; [done|]. intros u Hu. simpl in *. apply Hq. unfold status_of in *. destruct (decide (u = t)) as [->|].
    + by rewrite lookup_insert_eq in Hu.
    + by rewrite lookup_insert_ne in Hu.
  - unfold setStatus in Hd. destruct (ts !! t) as [th|]; [|done]. destruct (_ && _); [done|].
    injection Hd as <-. split; [done|]. intros u Hu. simpl in *. apply Hq. unfold status_of in *.
    destruct (decide (u = t)) as [->|]; [by rewrite lookup_insert_eq in Hu|by rewrite lookup_insert_ne in Hu].
  - split; [done|]. intros u Hu. simpl in *. apply Hq. unfold status_of in *. destruct (decide (u = t)) as [->|]; [by rewrite lookup_delete_eq in Hu|by rewrite lookup_delete_ne in Hu].
Qed.

(** Without timeouts the threads of the queue are blocked, so none of them can exit. *)
Definition all_blocked (s : Event * threads) : Prop := ∀ t, t ∈ m_tiddies s.1 → status_of s.2 t = Some TS_BLOCKED.

Lemma blocked_step s s' : step false s s' → all_blocked s → all_blocked s'.
Proof.
  intros Hs Hq. assert (Hother : ∀ t th, s.2 !! t = Some th → status th ≠ TS_BLOCKED → ∀ u, u ∈ m_tiddies s.1 → t ≠ u).
  { intros t th Ht Hst u Hu ->. specialize (Hq u Hu). unfold status_of in Hq. rewrite Ht in Hq. by injection Hq. }
  destruct Hs as [e ts e' ts' t timeout up Hto Hr Hw|e ts n e' ts' Hr|e ts n e' ts' Hr|e ts t th Ht Hsl|e ts ts' t Hr Hd|e ts t Hd]; simpl in *; intros u Hu; simpl in *.
  - destruct Hto as [| ->]; [done|]. apply wait_Done in Hw as [(_ & -> & ->)|(_ & _ & Hqq & Hst & Hoth)]; [by apply Hq|]. destruct (decide (u = t)) as [->|Hne]; [done|].
    unfold status_of. rewrite Hoth by done. apply Hq. rewrite Hqq in Hu. destruct (decide _); [done|]. apply elem_of_app in Hu as [Hu|Hu%list_elem_of_singleton]; done.
  - unfold raise in Hr. apply bind_Done in Hr as (ts1 & Hw & [= <- <- <-]). by apply elem_of_nil in Hu.
  - unfold defunct in Hr. apply bind_Done in Hr as (ts1 & Hw & [= <- <- <-]). by apply elem_of_nil in Hu.
  - unfold status_of. rewrite lookup_insert_ne; [by apply Hq|]. eapply Hother; [exact Ht|by rewrite Hsl|done].
  - unfold status_of in Hr. destruct (ts !! t) as [th|] eqn:Et; [|done]. injection Hr as Hr. unfold setStatus in Hd. rewrite Et in Hd. destruct (_ && _); [done|]. injection Hd as <-.
    unfold status_of. rewrite lookup_insert_ne; [by apply Hq|]. eapply Hother; [exact Et|by rewrite Hr|done].
  - unfold status_of in Hd. destruct (ts !! t) as [th|] eqn:Et; [|done]. injection Hd as Hd. unfold status_of. rewrite lookup_delete_ne; [by apply Hq|]. eapply Hother; [exact Et|by rewrite Hd|done].
Qed.

Lemma raise_dead e ts t r : NoDup (m_tiddies e) → t ∈ m_tiddies e → ¬ alive ts t → raise e ts ≠ Done r.
Proof.
  intros Hnd Ht Hno He. unfold raise in He. apply bind_Done in He as (ts1 & Hw & _). destruct (wake_inv _ _ _ Hw t Ht) as [Hal|(q1 & q2 & E & Hq1)]; [done|].
  rewrite E in Hnd. apply NoDup_app in Hnd as (_ & Hnd & _). apply (Hnd t Hq1). left.
Qed.

(** C30 (liveness). No blocked thread is lost: from a state in which nobody
    waits, whatever the interleaving of waits, raises, timeouts, exits and
    deletions of threads, [raise] makes every thread of the queue runnable, so that
    none is left blocked, and empties the queue, provided that no thread of the
    queue has exited; it fails exactly when one has.  Without timeouts none can, so
    [raise] always returns. *)
Theorem no_lost_waiter timed e0 ts0 e ts :
  m_tiddies e0 = [] → (∀ t, status_of ts0 t ≠ Some TS_BLOCKED) → rtc (step timed) (e0, ts0) (e, ts) →
  (timed = false → ∀ t, t ∈ m_tiddies e → alive ts t) ∧
  ((∀ t, t ∈ m_tiddies e → alive ts t) → ∃ ts', raise e ts = Done (Z.of_nat (length (m_tiddies e)), mk_event [] (m_defunct e), ts') ∧
     (∀ t, status_of ts' t ≠ Some TS_BLOCKED) ∧
     ∀ t, status_of ts' t = if decide (t ∈ m_tiddies e) then Some TS_RUNNABLE else status_of ts t) ∧
  (∀ t, t ∈ m_tiddies e → ¬ alive ts t → ∀ r, raise e ts ≠ Done r).
Proof.
  intros H0 Hnb Hrtc.
  assert (Hinv : queued (e, ts)).
  { apply (rtc_ind_r (λ s, queued s) (e0, ts0)) in Hrtc; [done| |].
    - split; simpl; [rewrite H0; constructor|]. by intros t Ht%Hnb.
    - intros s s' _ Hs. by apply (queued_step timed). }
  destruct Hinv as [Hnd Hq]. split_and!.
  - intros ->. assert (Hall : all_blocked (e, ts)).
    { apply (rtc_ind_r (λ s, all_blocked s) (e0, ts0)) in Hrtc; [done| |].
      - intros t Ht. simpl in Ht. rewrite H0 in Ht. by apply elem_of_nil in Ht.
      - intros s s' _ Hs. by apply blocked_step. }
    intros t Ht. specialize (Hall t Ht). unfold status_of in Hall. simpl in Hall. destruct (ts !! t) as [th|] eqn:E; [|done]. injection Hall as Hall. exists th. by rewrite Hall.
  - intros Hal. destruct (wake_spec (m_tiddies e) ts Hal) as (ts' & Hw & Hts). exists ts'. split; [unfold raise; by rewrite Hw|]. split; [intros t; by eapply wake_not_blocked|].
    intros t. unfold status_of. rewrite Hts. destruct (decide _) as [Hin|]; [|done]. destruct (Hal t Hin) as (th & -> & _). done.
  - intros t Ht Hno r. by eapply raise_dead.
Qed.

(** Deviation: [wait] with a timeout leaves the thread on the queue when
    the timer wakes it (nothing calls the declared [nevermind]); if it exits
    before the next [raise], that [raise] fails its assertion. *)
Lemma raise_after_timed_out_exit_panics e ts t th timeout :
  m_defunct e = false → m_tiddies e = [] → ts !! t = Some th → status th = TS_RUNNABLE → m_busy th ≤ 1 →
  timeout ≠ 0 →
  ∃ s1 s2 s3, step true (e, ts) s1 ∧ step true s1 s2 ∧ step true s2 s3 ∧
    raise s3.1 s3.2 = Panic "m_tiddies.at(i)->status != TS_DEAD".
Proof.
  intros Hd Hq Ht Hst Hb Hto.
  set (th1 := mk_thread TS_SLEEPING (i64 (0 + u64 (u64 timeout * 1000000))) (m_busy th) (m_critical th)).
  set (ts1 := <[t := th1]> (<[t := mk_thread TS_SLEEPING (wakeup_at th) (m_busy th) (m_critical th)]> ts)).
  set (ts2 := <[t := woken th1]> ts1).
  set (ts3 := <[t := mk_thread TS_DEAD (wakeup_at th1) (m_busy th) (m_critical th)]> ts2).
  exists (mk_event [t] false, ts1), (mk_event [t] false, ts2), (mk_event [t] false, ts3). split_and!.
  - apply (step_wait _ _ _ _ _ t timeout 0); [by left|unfold status_of; by rewrite Ht, <-Hst|].
    unfold wait. rewrite Hd, Hq. simpl. destruct (Z.eqb_spec timeout 0) as [|_]; [done|].
    rewrite (setStatus_alive _ _ th) by done. simpl. unfold setWakeup. by rewrite lookup_insert_eq.
  - apply (step_timer _ _ _ t th1); [apply lookup_insert_eq|done].
  - apply (step_exit _ _ _ _ t); [unfold status_of, ts2; by rewrite lookup_insert_eq|].
    unfold setStatus, ts2. rewrite lookup_insert_eq. simpl.
    destruct (Z.gtb_spec (m_busy th) 1); [lia|]. done.
  - simpl. unfold raise. simpl. unfold ts3. by rewrite lookup_insert_eq.
Qed.

Definition idle_thread : Thread := mk_thread TS_RUNNABLE 0 0 0.

Lemma no_lost_waiter_witness :
  ∃ ts', raise (mk_event [1%nat] false) (<[1%nat := mk_thread TS_BLOCKED 0 0 0]> ∅) = Done (1, mk_event [] false, ts') ∧ status_of ts' 1%nat = Some TS_RUNNABLE.
Proof.
  destruct (no_lost_waiter false (mk_event [] false) (<[1%nat := idle_thread]> ∅) (mk_event [1%nat] false) (<[1%nat := mk_thread TS_BLOCKED 0 0 0]> ∅)) as (Hal & Hr & _).
  - reflexivity.
  - intros t. unfold status_of. destruct (decide (t = 1%nat)) as [->|]; [by rewrite lookup_insert_eq|].
    by rewrite lookup_insert_ne, lookup_empty.
  - apply rtc_once. by apply (step_wait _ _ _ _ _ 1%nat 0 0); [right|..].
  - destruct (Hr (Hal eq_refl)) as (ts' & He & _ & Hst). exists ts'. split; [exact He|]. rewrite Hst. reflexivity.
Defined.

Lemma raise_after_timed_out_exit_panics_witness :
  ∃ s1 s2 s3, step true (mk_event [] false, <[1%nat := idle_thread]> ∅) s1 ∧ step true s1 s2 ∧ step true s2 s3 ∧
    raise s3.1 s3.2 = Panic "m_tiddies.at(i)->status != TS_DEAD".
Proof.
  by apply (raise_after_timed_out_exit_panics (mk_event [] false) (<[1%nat := idle_thread]> ∅) 1%nat idle_thread 500).
Defined.

End Event.

(** The single-waiter variant. *)
Module SimpleEvent.
Import Threads.

Record SimpleEvent := mk_simple { m_tiddie : option tid; m_defunct : bool }.

Definition wait (e : SimpleEvent) (ts : threads) (current : tid) (timeout uptime : Z)
    : outcome (SimpleEvent * threads) :=
  if m_defunct e then Done (e, ts)
  else
    match m_tiddie e with
    | Some _ => Panic "!m_tiddie"
    | None =>
        let e := mk_simple (Some current) (m_defunct e) in
        if timeout =? 0 then ts ← setStatus ts current TS_BLOCKED; Done (e, ts)
        else
          ts ← setStatus ts current TS_SLEEPING;
          ts ← setWakeup ts current (i64 (uptime + u64 (u64 timeout * 1000000)));
          Done (e, ts)
    end.

Definition wake_one (e : SimpleEvent) (ts : threads) : outcome threads :=
  match m_tiddie e with Some t => setStatus ts t TS_RUNNABLE | None => Done ts end.

Definition raise (e : SimpleEvent) (ts : threads) : outcome (SimpleEvent * threads) :=
  ts ← wake_one e ts; Done (mk_simple None (m_defunct e), ts).

Definition defunct (e : SimpleEvent) (ts : threads) : outcome (SimpleEvent * threads) :=
  ts ← wake_one e ts; Done (mk_simple None true, ts).

End SimpleEvent.
