(* ===== verification/Ring.v ===== *)
(** * The circular buffer

    [mem/circularbuffer.cpp].  A call runs in sections: the loop body under
    [m_lock], from an [acquire] to the [release] before the next yield or the
    return.  A section is one atomic step; sections of different calls
    interleave. *)
From S2P Require Import Prelude.
Local Open Scope Z_scope.

Module CircularBuffer.

(** [m_event] and [m_lock] are left out: a section is one atomic step, and a
    waiting call is resumed by another section. *)
Record CircularBuffer := mk_ring {
  m_size : Z;
  m_buffer : list Z;
  m_readPos : Z;
  m_writePos : Z;
}.

Definition create (size : Z) : CircularBuffer :=
  mk_ring size (replicate (Z.to_nat size) 0) 0 0.

Definition findDistance (r : CircularBuffer) (a b : Z) : Z :=
  let a := if a <? 0 then a + m_size r else a in
  let b := if b <? 0 then b + m_size r else b in
  let c := b - a in
  if c <? 0 then c + m_size r else c.

Definition readAvailable (r : CircularBuffer) : Z :=
  m_size r `min` findDistance r (m_readPos r) (m_writePos r).
Definition writeAvailable (r : CircularBuffer) : Z :=
  m_size r `min` findDistance r (m_writePos r) (m_readPos r - 1).

Definition readAvailableCut (r : CircularBuffer) : Z :=
  (m_size r `min` (m_size r - m_readPos r)) `min` findDistance r (m_readPos r) (m_writePos r).
Definition writeAvailableCut (r : CircularBuffer) : Z :=
  (m_size r `min` (m_size r - m_writePos r)) `min` findDistance r (m_writePos r) (m_readPos r - 1).

(** A section of a call that still has [len] bytes to go and has done [done_]
    (the bytes read so far, or the number written): it finishes the call or
    leaves it waiting. *)
Inductive section (A : Type) := Finished (r : CircularBuffer) (a : A) | Waiting (r : CircularBuffer) (a : A) (len : Z).
Arguments Finished {A}. Arguments Waiting {A}.

(** [read]: [got] are the bytes already copied to the caller.  Every turn that
    does not leave the loop copies at least one byte, so [len] turns and one
    more are enough. *)
Fixpoint read_loop (fuel : nat) (r : CircularBuffer) (got : list Z) (len quota : Z) (interrupted : bool)
    : outcome (section (list Z)) :=
  match fuel with
  | O => Fault
  | S fuel =>
      if len >? 0 then
        let clen := len `min` readAvailableCut r in
        let offset := Z.of_nat (length got) in
        if clen =? 0 then
          if ((writeAvailable r <? len) && interrupted) ||
             ((readAvailable r <=? len) && negb (quota =? -1) && (quota <=? offset))
          then Done (Finished r got)
          else Done (Waiting r got len)
        else
          bs ← get (m_buffer r) (m_readPos r) clen;
          let pos := m_readPos r + clen in
          let r := mk_ring (m_size r) (m_buffer r) (if pos =? m_size r then 0 else pos) (m_writePos r) in
          read_loop fuel r (got ++ bs) (len - clen) quota interrupted
      else Done (Finished r got)
  end.

Definition read_section (r : CircularBuffer) (got : list Z) (len quota : Z) (interrupted : bool)
    : outcome (section (list Z)) :=
  read_loop (S (Z.to_nat len)) r got len quota interrupted.

(** The first section of [read(buffer, len, quota)]. *)
Definition read (r : CircularBuffer) (len quota : Z) (interrupted : bool) : outcome (section (list Z)) :=
  if len <=? 0 then Done (Finished r []) else read_section r [] len quota interrupted.

(** [write]: [src] are the bytes still to be written. *)
Fixpoint write_loop (fuel : nat) (r : CircularBuffer) (src : list Z) (offset : Z) (interrupted : bool)
    : outcome (section Z) :=
  match fuel with
  | O => Fault
  | S fuel =>
      let len := Z.of_nat (length src) in
      if len >? 0 then
        let clen := len `min` writeAvailableCut r in
        if clen =? 0 then
          if (writeAvailable r <? len) && interrupted then Done (Finished r offset)
          else Done (Waiting r offset len)
        else
          bs ← get src 0 clen;
          buf ← put (m_buffer r) (m_writePos r) bs;
          let pos := m_writePos r + clen in
          let r := mk_ring (m_size r) buf (m_readPos r) (if pos =? m_size r then 0 else pos) in
          write_loop fuel r (drop (Z.to_nat clen) src) (offset + clen) interrupted
      else Done (Finished r offset)
  end.

Definition write_section (r : CircularBuffer) (src : list Z) (offset : Z) (interrupted : bool)
    : outcome (section Z) :=
  write_loop (S (length src)) r src offset interrupted.

Definition write (r : CircularBuffer) (src : list Z) (interrupted : bool) : outcome (section Z) :=
  if Z.of_nat (length src) <=? 0 then Done (Finished r 0) else write_section r src 0 interrupted.

(** [writeAtomic] waits until everything fits in one copy. *)
Definition writeAtomic_section (r : CircularBuffer) (src : list Z) (interrupted : bool) : outcome (section Z) :=
  let len := Z.of_nat (length src) in
  if len >? 0 then
    let clen := len `min` writeAvailableCut r in
    if clen <? len then
      if (writeAvailable r <? len) && interrupted then Done (Finished r 0)
      else Done (Waiting r 0 len)
    else
      buf ← put (m_buffer r) (m_writePos r) src;
      let pos := m_writePos r + clen in
      Done (Finished (mk_ring (m_size r) buf (m_readPos r) (if pos =? m_size r then 0 else pos)) clen)
  else Done (Finished r 0).

(** [resize]: [Heap::realloc] keeps the common prefix of the block and zeroes
    the rest; [m_size] is not assigned. *)
Definition resize (r : CircularBuffer) (new_size : Z) : CircularBuffer :=
  let n := Z.to_nat new_size in
  mk_ring (m_size r) (take n (m_buffer r) ++ replicate (n - length (m_buffer r)) 0) 0 0.

(** ** The byte queue a ring stands for *)

Definition wf (r : CircularBuffer) : Prop :=
  0 < m_size r ∧ Z.of_nat (length (m_buffer r)) = m_size r ∧
  0 ≤ m_readPos r < m_size r ∧ 0 ≤ m_writePos r < m_size r.

(** The bytes from the read position up to the write position, around the end
    of the buffer. *)
Definition distance (r : CircularBuffer) : Z := (m_writePos r - m_readPos r) mod m_size r.
Definition contents (r : CircularBuffer) : list Z :=
  take (Z.to_nat (distance r)) (drop (Z.to_nat (m_readPos r)) (m_buffer r ++ m_buffer r)).

Lemma distance_cases r :
  wf r → 0 ≤ distance r < m_size r ∧
  distance r = if m_readPos r <=? m_writePos r then m_writePos r - m_readPos r
               else m_writePos r - m_readPos r + m_size r.
Proof.
  intros (? & Hl & ? & ?). unfold distance. split; [by apply Z.mod_pos_bound|].
  destruct (Z.leb_spec (m_readPos r) (m_writePos r)).
  - apply Z.mod_small. lia.
  - rewrite <-(Z_mod_plus_full _ 1), Z.mul_1_l. apply Z.mod_small. lia.
Qed.

Lemma contents_length r : wf r → Z.of_nat (length (contents r)) = distance r.
Proof.
  intros Hwf. pose proof (distance_cases r Hwf) as [? _]. destruct Hwf as (? & Hl & ? & ?).
  unfold contents. rewrite length_take, length_drop, length_app. lia.
Qed.

Lemma findDistance_read r : wf r → findDistance r (m_readPos r) (m_writePos r) = distance r.
Proof.
  intros Hwf. destruct (distance_cases r Hwf) as [_ ->]. destruct Hwf as (? & Hl & ? & ?).
  unfold findDistance. repeat match goal with |- context[Z.ltb ?a ?b] => destruct (Z.ltb_spec a b) end;
    destruct (Z.leb_spec (m_readPos r) (m_writePos r)); lia.
Qed.

Lemma findDistance_write r :
  wf r → findDistance r (m_writePos r) (m_readPos r - 1) = m_size r - 1 - distance r.
Proof.
  intros Hwf. destruct (distance_cases r Hwf) as [_ ->]. destruct Hwf as (? & Hl & ? & ?).
  unfold findDistance. repeat match goal with |- context[Z.ltb ?a ?b] => destruct (Z.ltb_spec a b) end;
    destruct (Z.leb_spec (m_readPos r) (m_writePos r)); lia.
Qed.

(** Byte [i] of the queue. *)
Definition slot (r : CircularBuffer) (i : Z) : Z :=
  if m_readPos r + i <? m_size r then m_readPos r + i else m_readPos r + i - m_size r.

Lemma contents_lookup r i :
  wf r → (i < length (contents r))%nat →
  contents r !! i = m_buffer r !! Z.to_nat (slot r (Z.of_nat i)).
Proof.
  intros Hwf Hi. pose proof (contents_length r Hwf) as Hc. pose proof (distance_cases r Hwf) as [Hd _].
  destruct Hwf as (? & Hl & ? & ?). unfold contents, slot.
  rewrite lookup_take_lt, lookup_drop by lia.
  destruct (Z.ltb_spec (m_readPos r + Z.of_nat i) (m_size r)).
  - rewrite lookup_app_l by lia. f_equal. lia.
  - rewrite lookup_app_r by lia. f_equal. lia.
Qed.

(** A ring's contents from its length and its bytes. *)
Lemma contents_eq r l :
  wf r → distance r = Z.of_nat (length l) →
  (∀ i, (i < length l)%nat → l !! i = m_buffer r !! Z.to_nat (slot r (Z.of_nat i))) → contents r = l.
Proof.
  intros Hwf Hd Hl. pose proof (contents_length r Hwf) as Hc. apply list_eq. intros i.
  destruct (decide (i < length l)%nat).
  - rewrite Hl, contents_lookup by (done || lia). done.
  - rewrite !(proj2 (lookup_ge_None _ _)) by lia. done.
Qed.

(** One copy out of the buffer takes the front of the queue. *)
Definition after_read (r : CircularBuffer) (n : Z) : CircularBuffer :=
  let pos := m_readPos r + n in
  mk_ring (m_size r) (m_buffer r) (if pos =? m_size r then 0 else pos) (m_writePos r).

Lemma read_copy r n :
  wf r → 0 < n → n ≤ distance r → n ≤ m_size r - m_readPos r →
  get (m_buffer r) (m_readPos r) n = Done (take (Z.to_nat n) (contents r)) ∧
  wf (after_read r n) ∧ contents (after_read r n) = drop (Z.to_nat n) (contents r).
Proof.
  intros Hwf Hn Hnd Hns. pose proof (contents_length r Hwf) as Hc.
  pose proof (distance_cases r Hwf) as [Hd Hdc].
  assert (Hwf' : wf (after_read r n)).
  { destruct Hwf as (? & ? & ? & ?). unfold wf, after_read. simpl.
    destruct (Z.eqb_spec (m_readPos r + n) (m_size r)); lia. }
  pose proof (distance_cases _ Hwf') as [_ Hdc']. pose proof Hwf as (? & Hl & ? & ?).
  split_and!; [|done|].
  - apply get_Done. rewrite length_take. split_and!; try lia.
    intros i Hi. rewrite lookup_take_lt, contents_lookup by (done || lia). unfold slot.
    destruct (Z.ltb_spec (m_readPos r + Z.of_nat i) (m_size r)); [f_equal|]; lia.
  - apply contents_eq; [done| |].
    + rewrite length_drop, Hdc'. unfold after_read in *. simpl in *.
      destruct (Z.eqb_spec (m_readPos r + n) (m_size r)),
        (Z.leb_spec (m_readPos r) (m_writePos r));
        repeat match goal with |- context[Z.leb ?a ?b] => destruct (Z.leb_spec a b) end; lia.
    + intros i Hi. rewrite length_drop in Hi. rewrite lookup_drop, contents_lookup by (done || lia).
      f_equal. unfold slot, after_read. simpl.
      destruct (Z.eqb_spec (m_readPos r + n) (m_size r));
        repeat match goal with |- context[Z.ltb ?a ?b] => destruct (Z.ltb_spec a b) end; lia.
Qed.

(** One copy into the buffer appends to the queue. *)
Definition after_write (r : CircularBuffer) (buf : list Z) (n : Z) : CircularBuffer :=
  let pos := m_writePos r + n in
  mk_ring (m_size r) buf (m_readPos r) (if pos =? m_size r then 0 else pos).

Lemma write_copy r bs :
  wf r → let n := Z.of_nat (length bs) in
  0 < n → n ≤ m_size r - 1 - distance r → n ≤ m_size r - m_writePos r →
  ∃ buf, put (m_buffer r) (m_writePos r) bs = Done buf ∧
    wf (after_write r buf n) ∧ contents (after_write r buf n) = contents r ++ bs.
Proof.
  intros Hwf n Hn Hnd Hns. pose proof (contents_length r Hwf) as Hc.
  pose proof (distance_cases r Hwf) as [Hd Hdc]. pose proof Hwf as (? & Hl & ? & ?).
  destruct (put_in_range (m_buffer r) bs (m_writePos r)) as [buf Hb]; [lia..|].
  exists buf. split; [done|]. apply put_Done in Hb as (_ & _ & Hlb & Hb).
  assert (Hwf' : wf (after_write r buf n)).
  { unfold wf, after_write. simpl. destruct (Z.eqb_spec (m_writePos r + n) (m_size r)); lia. }
  split; [done|]. pose proof (distance_cases _ Hwf') as [_ Hdc']. apply contents_eq; [done| |].
  - rewrite length_app, Hdc'. unfold after_write in *. simpl in *.
    destruct (Z.eqb_spec (m_writePos r + n) (m_size r)), (Z.leb_spec (m_readPos r) (m_writePos r));
      repeat match goal with |- context[Z.leb ?a ?b] => destruct (Z.leb_spec a b) end; lia.
  - intros i Hi. rewrite length_app in Hi. unfold after_write, slot. simpl.
    destruct (decide (i < length (contents r))%nat).
    + rewrite lookup_app_l, contents_lookup by (done || lia). unfold slot. rewrite Hb.
      case_decide as Hin; [exfalso|done]. revert Hin.
      destruct (Z.ltb_spec (m_readPos r + Z.of_nat i) (m_size r)), (Z.leb_spec (m_readPos r) (m_writePos r)); lia.
    + rewrite lookup_app_r by lia. rewrite Hb.
      destruct (Z.ltb_spec (m_readPos r + Z.of_nat i) (m_size r)), (Z.leb_spec (m_readPos r) (m_writePos r));
        (case_decide; [f_equal|]; lia).
Qed.

(** ** Sections *)

Lemma readAvailable_eq r : wf r → readAvailable r = Z.of_nat (length (contents r)).
Proof.
  intros Hwf. unfold readAvailable. rewrite findDistance_read, contents_length by done.
  pose proof (distance_cases r Hwf) as [? _]. lia.
Qed.

Lemma writeAvailable_eq r : wf r → writeAvailable r = m_size r - 1 - Z.of_nat (length (contents r)).
Proof.
  intros Hwf. unfold writeAvailable. rewrite findDistance_write, contents_length by done.
  pose proof (distance_cases r Hwf) as [? _]. lia.
Qed.

(** What a reader that took all it could does next: return, or wait with
    [len] bytes to go. *)
Definition read_result (r : CircularBuffer) (got : list Z) (len quota : Z) (interrupted : bool) : section (list Z) :=
  if (len >? 0) && negb (((m_size r - 1 <? len) && interrupted) ||
                         (negb (quota =? -1) && (quota <=? Z.of_nat (length got))))
  then Waiting r got len else Finished r got.

Lemma read_loop_spec fuel r got len quota i :
  wf r → 0 ≤ len → (Z.to_nat len < fuel)%nat →
  let k := len `min` Z.of_nat (length (contents r)) in
  ∃ r', wf r' ∧ m_size r' = m_size r ∧ contents r' = drop (Z.to_nat k) (contents r) ∧
    read_loop fuel r got len quota i =
      Done (read_result r' (got ++ take (Z.to_nat k) (contents r)) (len - k) quota i).
Proof.
  revert r got len. induction fuel as [|fuel IH]; intros r got len Hwf Hlen Hfuel k; [lia|]. simpl.
  rewrite Z.gtb_ltb. destruct (Z.ltb_spec 0 len) as [Hpos|]; [|exists r; unfold read_result;
    replace k with 0 by lia; rewrite take_0, drop_0, app_nil_r; by destruct (Z.gtb_spec (len - 0) 0); [lia|]].
  pose proof (contents_length r Hwf) as Hc. pose proof (distance_cases r Hwf) as [Hd _].
  pose proof Hwf as (Hs & _ & Hr & _).
  assert (Hcut : readAvailableCut r = (m_size r - m_readPos r) `min` distance r)
    by (unfold readAvailableCut; rewrite findDistance_read by done; lia).
  rewrite Hcut. destruct (Z.eqb_spec (len `min` ((m_size r - m_readPos r) `min` distance r)) 0) as [H0|H0].
  - assert (Hnil : contents r = []) by (apply length_zero_iff_nil; lia).
    exists r. unfold k. rewrite Hnil. simpl. rewrite Z.min_r, Z.sub_0_r, app_nil_r by lia.
    split_and!; [done..|]. unfold read_result. rewrite readAvailable_eq, writeAvailable_eq, Hnil by done. simpl.
    rewrite Z.sub_0_r, Z.gtb_ltb. destruct (Z.ltb_spec 0 len); [|lia]. change (Z.of_nat 0) with 0. destruct (Z.leb_spec 0 len); [|lia]. simpl.
    by destruct (_ || _).
  - remember (len `min` ((m_size r - m_readPos r) `min` distance r)) as n eqn:Hn in *. destruct (read_copy r n Hwf) as (Hg & Hwf' & Hct); [lia..|].
    rewrite Hg. cbn [mbind outcome_bind]. fold (after_read r n).
    destruct (IH (after_read r n) (got ++ take (Z.to_nat n) (contents r)) (len - n)) as (r' & ? & ? & Hr' & Hrun); [done|lia..|].
    exists r'. rewrite Hct, length_drop in Hr', Hrun. unfold k. split_and!; [done..| |].
    + rewrite Hr', drop_drop. f_equal. lia.
    + rewrite Hrun, <-app_assoc, take_take_drop. do 2 f_equal; [|lia]. do 2 f_equal. lia.
Qed.

Definition write_result (r : CircularBuffer) (offset len : Z) (interrupted : bool) : section Z :=
  if (len >? 0) && negb interrupted then Waiting r offset len else Finished r offset.

Lemma write_loop_spec fuel r src offset i :
  wf r → (length src < fuel)%nat →
  let len := Z.of_nat (length src) in
  let k := len `min` (m_size r - 1 - Z.of_nat (length (contents r))) in
  ∃ r', wf r' ∧ m_size r' = m_size r ∧ contents r' = contents r ++ take (Z.to_nat k) src ∧
    write_loop fuel r src offset i = Done (write_result r' (offset + k) (len - k) i).
Proof.
  revert r src offset. induction fuel as [|fuel IH]; intros r src offset Hwf Hfuel len k; [lia|]. simpl. fold len.
  pose proof (contents_length r Hwf) as Hc. pose proof (distance_cases r Hwf) as [Hd _].
  rewrite Z.gtb_ltb. destruct (Z.ltb_spec 0 len) as [Hpos|]; [|exists r; unfold write_result;
    replace k with 0 by lia; rewrite take_0, app_nil_r, Z.add_0_r; by destruct (Z.gtb_spec (len - 0) 0); [lia|]].
  pose proof Hwf as (Hs & _ & _ & Hw).
  assert (Hcut : writeAvailableCut r = (m_size r - m_writePos r) `min` (m_size r - 1 - distance r))
    by (unfold writeAvailableCut; rewrite findDistance_write by done; lia).
  rewrite Hcut. destruct (Z.eqb_spec (len `min` ((m_size r - m_writePos r) `min` (m_size r - 1 - distance r))) 0) as [H0|H0].
  - exists r. assert (Hk : k = 0) by lia. rewrite Hk, take_0, app_nil_r, Z.add_0_r, Z.sub_0_r.
    split_and!; [done..|]. unfold write_result. rewrite writeAvailable_eq by done.
    destruct (Z.ltb_spec (m_size r - 1 - Z.of_nat (length (contents r))) len); [|lia].
    destruct (Z.gtb_spec len 0); [|lia]. by destruct i.
  - remember (len `min` ((m_size r - m_writePos r) `min` (m_size r - 1 - distance r))) as n eqn:Hn in *. rewrite get_eq by lia. cbn [mbind outcome_bind]. rewrite Z2Nat.inj_0, drop_0.
    destruct (write_copy r (take (Z.to_nat n) src) Hwf) as (buf & Hp & Hwf' & Hct);
      [rewrite length_take; lia..|]. rewrite Hp. cbn [mbind outcome_bind].
    replace (Z.of_nat (length (take (Z.to_nat n) src))) with n in Hwf', Hct by (rewrite length_take; lia).
    fold (after_write r buf n).
    destruct (IH (after_write r buf n) (drop (Z.to_nat n) src) (offset + n)) as (r' & ? & ? & Hr' & Hrun);
      [done|rewrite length_drop; lia|].
    exists r'. rewrite Hct, length_app, length_take, length_drop in Hr', Hrun. simpl m_size in Hr', Hrun.
    split_and!; [done..| |].
    + rewrite Hr', <-app_assoc. f_equal. rewrite take_take_drop. f_equal. lia.
    + rewrite Hrun. match goal with |- Done (write_result _ ?a ?b _) = Done (write_result _ ?c ?d _) =>
        replace c with a by (unfold after_write in *; simpl in *; lia);
        replace d with b by (unfold after_write in *; simpl in *; lia) end. done.
Qed.

Lemma writeAtomic_spec r src i :
  wf r → src ≠ [] →
  let len := Z.of_nat (length src) in
  if (len <=? m_size r - m_writePos r) && (len <=? m_size r - 1 - Z.of_nat (length (contents r)))
  then ∃ r', writeAtomic_section r src i = Done (Finished r' len) ∧ wf r' ∧ m_size r' = m_size r ∧
         contents r' = contents r ++ src
  else writeAtomic_section r src i =
         Done (if (m_size r - 1 - Z.of_nat (length (contents r)) <? len) && i
               then Finished r 0 else Waiting r 0 len).
Proof.
  intros Hwf Hne len. pose proof (contents_length r Hwf) as Hc. pose proof (distance_cases r Hwf) as [Hd _].
  assert (0 < len) by (destruct src; [done|simpl in *; lia]). pose proof Hwf as (Hs & _ & _ & Hw).
  unfold writeAtomic_section. fold len. rewrite Z.gtb_ltb. destruct (Z.ltb_spec 0 len); [|lia].
  assert (Hcut : writeAvailableCut r = (m_size r - m_writePos r) `min` (m_size r - 1 - distance r))
    by (unfold writeAvailableCut; rewrite findDistance_write by done; lia). rewrite Hcut.
  destruct (_ && _) eqn:E; apply andb_true_iff in E || apply andb_false_iff in E.
  - destruct (Z.ltb_spec (len `min` ((m_size r - m_writePos r) `min` (m_size r - 1 - distance r))) len); [lia|].
    destruct (write_copy r src Hwf) as (buf & Hp & Hwf' & Hct); [lia..|]. fold len in Hwf', Hct.
    rewrite Hp. cbn [mbind outcome_bind]. exists (after_write r buf len).
    rewrite Z.min_l by lia. by split_and!.
  - destruct (Z.ltb_spec (len `min` ((m_size r - m_writePos r) `min` (m_size r - 1 - distance r))) len); [|lia].
    rewrite writeAvailable_eq by done. by destruct (_ && _).
Qed.

(** ** Interleaved calls

    [inp] and [out] log every byte that sections of [write] and [writeAtomic]
    put into the ring and that sections of [read] took out, over all calls of
    all threads. *)
Definition section_ring {A} (s : section A) : CircularBuffer :=
  match s with Finished r _ => r | Waiting r _ _ => r end.
Definition section_val {A} (s : section A) : A :=
  match s with Finished _ a => a | Waiting _ a _ => a end.

Inductive step : CircularBuffer * list Z * list Z → CircularBuffer * list Z * list Z → Prop :=
  | step_read r inp out got len quota i s :
      0 ≤ len → read_section r got len quota i = Done s →
      step (r, inp, out) (section_ring s, inp, out ++ drop (length got) (section_val s))
  | step_write r inp out src offset i s :
      write_section r src offset i = Done s →
      step (r, inp, out) (section_ring s, inp ++ take (Z.to_nat (section_val s - offset)) src, out)
  | step_writeAtomic r inp out src i s :
      writeAtomic_section r src i = Done s →
      step (r, inp, out) (section_ring s, inp ++ take (Z.to_nat (section_val s)) src, out).

Definition queue_inv (s : CircularBuffer * list Z * list Z) : Prop :=
  let '(r, inp, out) := s in wf r ∧ inp = out ++ contents r.

Lemma queue_step s s' : step s s' → queue_inv s → queue_inv s'.
Proof.
  intros [r inp out got len quota i sec Hlen Hs|r inp out src offset i sec Hs|r inp out src i sec Hs] [Hwf ->].
  - destruct (read_loop_spec (S (Z.to_nat len)) r got len quota i) as (r' & Hwf' & _ & Hct & Hrun); [done|lia..|].
    unfold read_section in Hs. rewrite Hrun in Hs. injection Hs as <-. unfold read_result.
    destruct (_ && _); simpl; (split; [done|]); by rewrite drop_app_length, Hct, <-app_assoc, take_drop.
  - destruct (write_loop_spec (S (length src)) r src offset i) as (r' & Hwf' & _ & Hct & Hrun); [done|lia|].
    unfold write_section in Hs. rewrite Hrun in Hs. injection Hs as <-. unfold write_result.
    destruct (_ && _); simpl; (split; [done|]); rewrite Hct, app_assoc; do 2 f_equal; lia.
  - destruct src as [|b src].
    { injection Hs as <-. simpl. by rewrite app_nil_r. }
    pose proof (writeAtomic_spec r (b :: src) i Hwf ltac:(done)) as Hsp. cbv zeta in Hsp.
    destruct (_ && _) eqn:E in Hsp.
    + destruct Hsp as (r' & Hrun & Hwf' & _ & Hct). rewrite Hrun in Hs. injection Hs as <-.
      cbn [section_ring section_val]. split; [done|]. rewrite Hct, app_assoc. f_equal. apply take_ge. simpl. lia.
    + rewrite Hsp in Hs. clear Hsp E. destruct (_ && i) in Hs; injection Hs as <-; simpl; by rewrite app_nil_r.
Qed.

Lemma create_wf size : 0 < size → wf (create size) ∧ contents (create size) = [].
Proof.
  intros Hs. assert (Hwf : wf (create size)) by (unfold wf, create; simpl; rewrite length_replicate; lia).
  split; [done|]. apply length_zero_iff_nil. pose proof (contents_length _ Hwf) as Hl.
  destruct (distance_cases _ Hwf) as [_ Hd]. simpl in Hd. lia.
Qed.

(** C31 (invariant). FIFO: for any interleaving of the sections of concurrent
    reads and writes on a new buffer, the bytes read so far followed by those
    still buffered are exactly the bytes written, in order; the positions stay
    in the buffer and at most [size - 1] bytes are buffered. *)
Theorem ring_fifo size r inp out :
  0 < size → rtc step (create size, [], []) (r, inp, out) →
  inp = out ++ contents r ∧ wf r ∧ Z.of_nat (length (contents r)) ≤ m_size r - 1.
Proof.
  intros Hs Hr. destruct (create_wf size Hs) as [Hwf Hct].
  assert (Hinv : queue_inv (r, inp, out)).
  { apply (rtc_ind_r queue_inv (create size, [], [])) in Hr; [done|by split; [|rewrite Hct]|].
    intros s s' _ Hst. by apply queue_step. }
  destruct Hinv as [Hwf' Hq]. split_and!; [done..|].
  rewrite contents_length by done. destruct (distance_cases r Hwf'). lia.
Qed.

(** One section of [read] for [len] bytes takes the front of
    the queue, as much as is there, and finishes the call when it got
    everything, or it is over quota, or it was interrupted while asking for more
    than the buffer can ever hold; else the call waits for the rest. *)
Lemma read_correct r len quota i :
  wf r → 0 < len →
  let k := len `min` Z.of_nat (length (contents r)) in
  ∃ r', wf r' ∧ contents r' = drop (Z.to_nat k) (contents r) ∧
    read r len quota i = Done (read_result r' (take (Z.to_nat k) (contents r)) (len - k) quota i).
Proof.
  intros Hwf Hlen k. unfold read. destruct (Z.leb_spec len 0); [lia|].
  destruct (read_loop_spec (S (Z.to_nat len)) r [] len quota i) as (r' & ? & _ & ? & ?); [done|lia..|].
  by exists r'.
Qed.

(** One section of [write] appends as many bytes as fit and
    returns when all did or it was interrupted, else waits for the rest. *)
Lemma write_correct r src i :
  wf r → src ≠ [] →
  let len := Z.of_nat (length src) in
  let k := len `min` (m_size r - 1 - Z.of_nat (length (contents r))) in
  ∃ r', wf r' ∧ contents r' = contents r ++ take (Z.to_nat k) src ∧
    write r src i = Done (write_result r' k (len - k) i).
Proof.
  intros Hwf Hne len k. unfold write. destruct src as [|b src]; [done|].
  destruct (Z.leb_spec (Z.of_nat (length (b :: src))) 0); [simpl in *; lia|].
  destruct (write_loop_spec (S (length (b :: src))) r (b :: src) 0 i) as (r' & ? & _ & ? & ?); [done|lia|].
  by exists r'.
Qed.

(** Deviation: [writeAtomic] waits whenever the bytes do not fit
    before the end of the buffer, although [writeAvailable] says they fit; on an
    empty buffer nobody can ever move the write position, so the call never
    returns, interrupted or not. *)
Lemma writeAtomic_stuck r src i :
  wf r → contents r = [] →
  m_size r - m_writePos r < Z.of_nat (length src) ≤ m_size r - 1 →
  writeAvailable r = m_size r - 1 ∧
  writeAtomic_section r src i = Done (Waiting r 0 (Z.of_nat (length src))) ∧
  ∀ got len i', 0 < len < m_size r → read_section r got len (-1) i' = Done (Waiting r got len).
Proof.
  intros Hwf Hct Hlen. rewrite writeAvailable_eq, Hct by done. split_and!; [simpl; lia| |].
  - assert (Hne : src ≠ []) by (destruct Hwf as (_ & _ & _ & ?); intros ->; simpl in *; lia).
    pose proof (writeAtomic_spec r src i Hwf Hne) as Hs. cbv zeta in Hs. rewrite Hct in Hs.
    change (Z.of_nat (length (@nil Z))) with 0 in Hs.
    destruct (Z.leb_spec (Z.of_nat (length src)) (m_size r - m_writePos r)); [lia|]. simpl in Hs. rewrite Hs.
    by destruct (Z.ltb_spec (m_size r - 1 - 0) (Z.of_nat (length src))); [lia|].
  - intros got len i' Hl. unfold read_section. simpl.
    assert (Hcut : readAvailableCut r = 0).
    { unfold readAvailableCut. rewrite findDistance_read, <-contents_length, Hct by done.
      destruct Hwf as (_ & _ & ? & _). simpl. lia. }
    rewrite Hcut, Z.gtb_ltb. destruct (Z.ltb_spec 0 len); [|lia]. rewrite Z.min_r by lia. simpl.
    rewrite writeAvailable_eq, Hct by done. simpl.
    destruct (Z.ltb_spec (m_size r - 1 - Z.of_nat 0) len); [lia|]. simpl. by rewrite andb_false_r.
Qed.

(** Deviation: [resize] does not set [m_size], so after shrinking
    the buffer a write of more than the new size runs past the allocation. *)
Lemma resize_shrink_overruns r new_size src i :
  wf r → 0 ≤ new_size → new_size < Z.of_nat (length src) ≤ m_size r - 1 →
  write (resize r new_size) src i = Fault.
Proof.
  intros (Hs & Hl & _ & _) Hn Hlen. unfold write. destruct (Z.leb_spec (Z.of_nat (length src)) 0); [lia|].
  unfold write_section. set (r' := resize r new_size). cbn [write_loop]. rewrite Z.gtb_ltb.
  destruct (Z.ltb_spec 0 (Z.of_nat (length src))); [|lia].
  assert (Hcut : writeAvailableCut r' = m_size r - 1).
  { unfold writeAvailableCut, findDistance, r', resize. cbn [m_size m_readPos m_writePos].
    repeat match goal with |- context[Z.ltb ?a ?b] => destruct (Z.ltb_spec a b) end; lia. }
  rewrite Hcut, Z.min_l by lia. destruct (Z.eqb_spec (Z.of_nat (length src)) 0); [lia|].
  rewrite get_eq by lia. cbn [mbind outcome_bind].
  assert (Hput : put (m_buffer r') (m_writePos r') (take (Z.to_nat (Z.of_nat (length src))) (drop (Z.to_nat 0) src)) = Fault).
  { unfold put. rewrite Z2Nat.inj_0, drop_0, length_take, Nat2Z.id, Nat.min_id.
    assert (Hlb : Z.of_nat (length (m_buffer r')) = new_size)
      by (unfold r'; simpl; rewrite length_app, length_take, length_replicate; lia).
    rewrite Hlb. simpl. by destruct (Z.leb_spec (0 + Z.of_nat (length src)) new_size); [lia|]. }
  by rewrite Hput.
Qed.

(** ** Witnesses *)

(** A buffer of 8 whose positions have moved to 6. *)
Definition demo_ring : CircularBuffer := mk_ring 8 [1; 2; 3; 4; 5; 6; 7; 8] 6 6.

Lemma ring_fifo_witness :
  rtc step (create 4, [], []) (mk_ring 4 [7; 8; 0; 0] 1 2, [7; 8], [7]) ∧
  [7; 8] = [7] ++ contents (mk_ring 4 [7; 8; 0; 0] 1 2).
Proof.
  assert (Hr : rtc step (create 4, [], []) (mk_ring 4 [7; 8; 0; 0] 1 2, [7; 8], [7])).
  { eapply rtc_l; [by apply (step_write (create 4) [] [] [7; 8] 0 false (Finished (mk_ring 4 [7; 8; 0; 0] 0 2) 2))|].
    apply rtc_once. by apply (step_read (mk_ring 4 [7; 8; 0; 0] 0 2) [7; 8] [] [] 1 (-1) false (Finished (mk_ring 4 [7; 8; 0; 0] 1 2) [7])). }
  split; [exact Hr|]. apply (ring_fifo 4 (mk_ring 4 [7; 8; 0; 0] 1 2) [7; 8] [7]); [lia|exact Hr].
Defined.

Lemma read_correct_witness :
  ∃ r', contents r' = [] ∧ read (mk_ring 8 [1; 2; 3; 4; 5; 6; 7; 8] 6 1) 4 2 false = Done (read_result r' [7; 8; 1] 1 2 false).
Proof.
  destruct (read_correct (mk_ring 8 [1; 2; 3; 4; 5; 6; 7; 8] 6 1) 4 2 false) as (r' & _ & Hc & Hr);
    [by repeat split|lia|]. exists r'. split; [exact Hc|exact Hr].
Defined.

Lemma write_correct_witness :
  ∃ r', contents r' = [11; 12; 13] ∧ write demo_ring [11; 12; 13] false = Done (write_result r' 3 0 false).
Proof.
  destruct (write_correct demo_ring [11; 12; 13] false) as (r' & _ & Hc & Hr); [by repeat split|done|].
  exists r'. split; [exact Hc|exact Hr].
Defined.

Lemma writeAtomic_stuck_witness :
  writeAvailable demo_ring = 7 ∧ writeAtomic_section demo_ring [11; 12; 13] true = Done (Waiting demo_ring 0 3).
Proof.
  destruct (writeAtomic_stuck demo_ring [11; 12; 13] true) as (Ha & Hw & _); [by repeat split|done|simpl; lia|].
  split; [exact Ha|exact Hw].
Defined.

Lemma resize_shrink_overruns_witness : write (resize demo_ring 2) [11; 12; 13] false = Fault.
Proof. apply (resize_shrink_overruns demo_ring 2); [by repeat split|lia|simpl; lia]. Defined.

End CircularBuffer.
