(* ===== verification/Str.v ===== *)
(** * Strings and formatting

    [kernel/string.cpp], [include/aex/string.hpp] and [kernel/snprintf.cpp].
    Characters are bytes.  A [char*] that is only read forward is the list of
    the bytes from it to the end of its object, the terminating NUL included;
    reading past the object is a [Fault]. *)
From S2P Require Import Prelude Math.
Local Open Scope Z_scope.

Module Str.

(** [*p] and [++p]. *)
Definition deref (p : list Z) : outcome Z :=
  match p with c :: _ => Done c | [] => Fault end.
Definition incr (p : list Z) : outcome (list Z) :=
  match p with _ :: p => Done p | [] => Fault end.

(** The C string [s] in memory, and [char] comparisons, which are signed. *)
Definition cstr (s : list Z) : list Z := s ++ [0].
Definition char (c : Z) : Z := swrap 8 c.

Fixpoint strlen_from (p : list Z) (len : Z) : outcome Z :=
  match p with
  | [] => Fault
  | c :: p => if c =? 0 then Done len else strlen_from p (len + 1)
  end.
Definition strlen (str : list Z) : outcome Z := strlen_from str 0.

Fixpoint strcmp (a b : list Z) : outcome Z :=
  match a, b with
  | ca :: a', cb :: b' =>
      if char ca <? char cb then Done (-1)
      else if char ca >? char cb then Done 1
      else if negb (ca =? 0) && negb (cb =? 0) then strcmp a' b'
      else Done 0
  | _, _ => Fault
  end.

(** [for (i = 0; i < len; i++) dst[i] = src[i]]. *)
Fixpoint copy_chars (n : nat) (i : Z) (dst src : list Z) : outcome (list Z) :=
  match n with
  | O => Done dst
  | S n => c ← src.[i]; dst ← dst.[i := c]; copy_chars n (i + 1) dst src
  end.

(** [int len = min((size_t) strlen(src), num - 1)]. *)
Definition strncpy (dst src : list Z) (num : Z) : outcome (list Z) :=
  n ← strlen src;
  let len := i32 (n `min` u64 (num - 1)) in
  if len <? 0 then Done dst
  else
    dst ← copy_chars (Z.to_nat len) 0 dst src;
    dst.[len := 0].

Fixpoint fill (n : nat) (i : Z) (mem : list Z) (v : Z) : outcome (list Z) :=
  match n with O => Done mem | S n => mem ← mem.[i := v]; fill n (i + 1) mem v end.
Definition memset (mem : list Z) (c len : Z) : outcome (list Z) := fill (Z.to_nat len) 0 mem c.

Fixpoint memcpy_loop (n : nat) (i : Z) (dst src : list Z) : outcome (list Z) :=
  match n with
  | O => Done dst
  | S n => c ← src.[i]; dst ← dst.[i := c]; memcpy_loop n (i + 1) dst src
  end.
Definition memcpy (dst src : list Z) (size : Z) : outcome (list Z) :=
  memcpy_loop (Z.to_nat size) 0 dst src.

Fixpoint memcmp_loop (n : nat) (i : Z) (a b : list Z) : outcome Z :=
  match n with
  | O => Done 0
  | S n =>
      x ← a.[i]; y ← b.[i];
      if x <? y then Done (-1) else if x >? y then Done 1 else memcmp_loop n (i + 1) a b
  end.
Definition memcmp (a b : list Z) (num : Z) : outcome Z := memcmp_loop (Z.to_nat num) 0 a b.

Definition tolower (c : Z) : Z := if inrange (char c) 65 90 then char (c + 32) else c.
Definition toupper (c : Z) : Z := if inrange (char c) 97 122 then char (c - 32) else c.

(** A string literal's characters. *)
Definition lit (s : string) : list Z := (λ a, Z.of_nat (Ascii.nat_of_ascii a)) <$> String.list_ascii_of_string s.

Definition xtox_dictionary : list Z :=
  lit "zyxwvutsrqponmlkjihgfedcba9876543210123456789abcdefghijklmnopqrstuvwxyz".

(** The digit loop of [itos], lowest digit first; C division rounds toward
    zero, so a negative [num] has negative remainders.  [num] loses a bit per
    turn, so 65 turns are enough for the widths up to 64 bits. *)
Fixpoint itos_digits (fuel : nat) (num base : Z) : outcome (list Z) :=
  match fuel with
  | O => Fault
  | S fuel =>
      c ← xtox_dictionary.[35 + Z.rem num base];
      let num := Z.quot num base in
      if num =? 0 then Done [c] else ds ← itos_digits fuel num base; Done (c :: ds)
  end.

(** [itos] at the start of [buffer]: sign, digits and terminator; the digits
    are stored lowest first and then reversed in place. *)
Definition itos (num base : Z) (buffer : list Z) : outcome (list Z) :=
  if (base <? 2) || (base >? 36) then buffer.[0 := 0]
  else
    let sign := if (num <? 0) && (base =? 10) then [45] else [] in
    ds ← itos_digits 65 num base;
    put buffer 0 (sign ++ rev ds ++ [0]).

(** [stoi] on a [w]-bit signed [T]. *)
Fixpoint stoi_loop (w base res : Z) (p : list Z) : outcome Z :=
  match p with
  | [] => Fault
  | c :: p => if c =? 0 then Done res else stoi_loop w base (swrap w (res * base + char c - 48)) p
  end.
Definition stoi (w base : Z) (str : list Z) : outcome Z :=
  c ← deref str;
  if c =? 45 then res ← stoi_loop w base 0 (drop 1 str); Done (swrap w (-1 * res))
  else stoi_loop w base 0 str.

(** ** [snprintf] *)

(** A [va_list]: integers, and pointers to the strings at an address.  An
    integer taken as a pointer points to no object. *)
Inductive arg := Num (v : Z) | Text (addr : Z) (s : list Z).
Definition va_num (args : list arg) : outcome (Z * list arg) :=
  match args with
  | Num v :: args => Done (v, args)
  | Text a _ :: args => Done (a, args)
  | [] => Fault
  end.
Definition va_text (args : list arg) : outcome (list Z * list arg) :=
  match args with
  | Text _ s :: args => Done (s, args)
  | Num _ :: args => Done ([], args)
  | [] => Fault
  end.

Inductive size := SIZE_SHORT | SIZE_INT | SIZE_LONG.

(** [buffer] as memory and the index it has advanced to, and [len]. *)
Record sink := mk_sink { mem : list Z; pos : Z; left : Z }.

Definition put_char (k : sink) (c : Z) : outcome sink :=
  if left k >? 0 then m ← (mem k).[pos k := c]; Done (mk_sink m (pos k + 1) (left k - 1)) else Done k.

Fixpoint pad (n : nat) (k : sink) (c : Z) : outcome sink :=
  match n with
  | O => Done k
  | S n => m ← (mem k).[pos k := c]; pad n (mk_sink m (pos k + 1) (left k)) c
  end.

Definition snprintf_common (k : sink) (padchar padlen : Z) (str : list Z) : outcome sink :=
  if left k =? 0 then Done k
  else
    n ← strlen str;
    let pad_len := u64 (i32 (padlen - n) `max` 0) `min` left k in
    k ← pad (Z.to_nat pad_len) (mk_sink (mem k) (pos k) (left k - pad_len)) padchar;
    if left k =? 0 then Done k
    else
      let total_len := n `min` left k in
      if total_len =? 0 then Done k
      else
        bs ← get str 0 total_len;
        m ← put (mem k) (pos k) bs;
        Done (mk_sink m (pos k + total_len) (left k - total_len)).

(** The digit loop: [tmp_buffer] is 72 bytes, [tmp] what it holds so far. *)
Fixpoint width_loop (fmt tmp : list Z) : outcome (list Z * list Z) :=
  match fmt with
  | [] => Fault
  | c :: fmt' =>
      if (char c >=? 48) && (char c <=? 57) then
        if Z.of_nat (length tmp) <? 72 then width_loop fmt' (tmp ++ [c]) else Fault
      else if Z.of_nat (length tmp) <? 72 then Done (tmp, fmt) else Fault
  end.

(** After [%]: the pad character, the width, the length modifier and the rest
    of the format, at the conversion character. *)
Definition directive (fmt : list Z) : outcome (Z * Z * size * list Z) :=
  c ← deref fmt;
  '(padchar, fmt) ← (if c =? 48 then fmt ← incr fmt; Done (48, fmt) else Done (32, fmt));
  '(tmp, fmt) ← width_loop fmt [];
  padlen ← (if Z.of_nat (length tmp) =? 0 then Done 0 else stoi 32 10 (cstr tmp));
  c ← deref fmt;
  if c =? 108 then fmt ← incr fmt; Done (padchar, padlen, SIZE_LONG, fmt)
  else if c =? 104 then fmt ← incr fmt; Done (padchar, padlen, SIZE_SHORT, fmt)
  else Done (padchar, padlen, SIZE_INT, fmt).

Definition tmp_buffer : list Z := replicate 72 0.

Definition signed_of (sz : size) (v : Z) : Z :=
  match sz with SIZE_SHORT => i16 v | SIZE_INT => i32 v | SIZE_LONG => i64 v end.
Definition unsigned_of (sz : size) (v : Z) : Z :=
  match sz with SIZE_SHORT => u16 v | SIZE_INT => u32 v | SIZE_LONG => u64 v end.

(** The second [switch]: the conversion character [c]. *)
Definition convert (k : sink) (padchar padlen : Z) (sz : size) (c : Z) (args : list arg)
    : outcome (sink * list arg) :=
  let number v base :=
    tmp ← itos v base tmp_buffer; snprintf_common k padchar padlen tmp in
  if c =? 0 then Done (k, args)
  else if c =? 115 then '(s, args) ← va_text args; k ← snprintf_common k padchar padlen s; Done (k, args)
  else if c =? 99 then
    if left k =? 0 then Done (k, args)
    else
      '(v, args) ← va_num args;
      k ← snprintf_common k padchar padlen [u8 v; 0];
      Done (k, args)
  else if c =? 105 then '(v, args) ← va_num args; k ← number (signed_of sz v) 10; Done (k, args)
  else if c =? 117 then '(v, args) ← va_num args; k ← number (unsigned_of sz v) 10; Done (k, args)
  else if c =? 120 then '(v, args) ← va_num args; k ← number (unsigned_of sz v) 16; Done (k, args)
  else if c =? 112 then '(v, args) ← va_num args; k ← number (u64 v) 16; Done (k, args)
  else k ← put_char k c; Done (k, args).

(** The [do] loop; the pointer moves on every turn, so as many turns as the
    format has bytes are enough. *)
Fixpoint snprintf_loop (fuel : nat) (k : sink) (fmt : list Z) (args : list arg) : outcome sink :=
  match fuel with
  | O => Fault
  | S fuel =>
      c ← deref fmt;
      '(k, fmt, args) ←
        (if c =? 37 then
           fmt ← incr fmt;
           '(padchar, padlen, sz, fmt) ← directive fmt;
           c ← deref fmt;
           '(k, args) ← convert k padchar padlen sz c args;
           Done (k, fmt, args)
         else k ← put_char k c; Done (k, fmt, args));
      fmt ← incr fmt;
      c ← deref fmt;
      if c =? 0 then Done k else snprintf_loop fuel k fmt args
  end.

Definition snprintf (buffer : list Z) (len : Z) (fmt : list Z) (args : list arg) : outcome (list Z) :=
  if len =? 0 then Done buffer
  else
    k ← snprintf_loop (length fmt) (mk_sink buffer 0 (u64 (len - 1))) fmt args;
    (mem k).[pos k := 0].

Example snprintf_demo :
  snprintf (replicate 20 1) 20 (cstr (lit "a%05i,%s%%|%3x")) [Num (-42); Text 0x1000 (cstr (lit "xyz")); Num 255]
  = Done (lit "a00-42,xyz%| ff" ++ [0; 1; 1; 1; 1]).
Proof. vm_compute. reflexivity. Qed.

(** ** C strings *)

(** The bytes of a C string before its NUL. *)
Definition text (s : list Z) : Prop := Forall (λ c, 0 < c < 256) s.

Lemma strlen_text s rest : text s → strlen (s ++ 0 :: rest) = Done (Z.of_nat (length s)).
Proof.
  intros Hs. unfold strlen. assert (∀ k, strlen_from (s ++ 0 :: rest) k = Done (k + Z.of_nat (length s))) as H.
  { induction Hs as [|c s Hc Hs IH]; intros k; simpl; [f_equal; lia|].
    destruct (Z.eqb_spec c 0); [lia|]. rewrite IH. f_equal. lia. }
  rewrite H. done.
Qed.

Lemma char_byte c : 0 ≤ c < 256 → char c = if c <? 128 then c else c - 256.
Proof.
  intros Hc. unfold char, swrap. change (2 ^ (8 - 1)) with 128. change (2 ^ 8) with 256.
  destruct (Z.ltb_spec c 128); [rewrite Z.mod_small by lia; lia|].
  replace (c + 128) with (c - 128 + 1 * 256) by lia. rewrite Z_mod_plus_full, Z.mod_small by lia. lia.
Qed.

(** [strcmp] returns 0 exactly on equal strings. *)
Lemma strcmp_text a b r1 r2 :
  text a → text b → ∃ z, strcmp (a ++ 0 :: r1) (b ++ 0 :: r2) = Done z ∧ (z = 0 ↔ a = b).
Proof.
  intros Ha. revert b. induction Ha as [|c a Hc Ha IH]; intros b Hb; destruct Hb as [|d b Hd Hb]; simpl;
    rewrite ?char_byte by lia.
  - exists 0. by simpl.
  - destruct (Z.ltb_spec d 128), (Z.ltb_spec 0 128); try lia.
    + destruct (Z.ltb_spec 0 d); [|lia]. exists (-1). done.
    + destruct (Z.ltb_spec 0 (d - 256)), (Z.gtb_spec 0 (d - 256)); try lia. exists 1. done.
  - destruct (Z.ltb_spec c 128), (Z.ltb_spec 0 128); try lia.
    + destruct (Z.ltb_spec c 0), (Z.gtb_spec c 0); try lia. exists 1. done.
    + destruct (Z.ltb_spec (c - 256) 0); [|lia]. exists (-1). done.
  - set (x := if c <? 128 then c else c - 256). set (y := if d <? 128 then d else d - 256).
    assert (Hxy : x = y ↔ c = d) by (unfold x, y; destruct (Z.ltb_spec c 128), (Z.ltb_spec d 128); lia).
    destruct (Z.ltb_spec x y); [exists (-1); split; [done|split; [done|intros [= -> ->]; lia]]|].
    destruct (Z.gtb_spec x y); [exists 1; split; [done|split; [done|intros [= -> ->]; lia]]|].
    destruct (Z.eqb_spec c 0), (Z.eqb_spec d 0); try lia. simpl.
    destruct (IH b Hb) as (z & -> & Hz). exists z. split; [done|]. assert (c = d) as -> by lia.
    rewrite Hz. split; [by intros ->|by intros [= ->]].
Qed.

Lemma copy_chars_spec n s i dst src :
  (∀ k, (k < length s)%nat → src !! (Z.to_nat i + k)%nat = s !! k) → n = length s →
  0 ≤ i → i + Z.of_nat n ≤ Z.of_nat (length dst) →
  copy_chars n i dst src = Done (take (Z.to_nat i) dst ++ s ++ drop (Z.to_nat i + n) dst).
Proof.
  revert s i dst. induction n as [|n IH]; intros s i dst Hsrc Hn Hi Hle.
  { destruct s; [|done]. simpl. by rewrite Nat.add_0_r, take_drop. }
  destruct s as [|c s]; [done|]. injection Hn as Hn. simpl.
  rewrite (proj2 (rd_Done src i c)) by (split; [lia|]; specialize (Hsrc 0%nat); simpl in Hsrc; rewrite Nat.add_0_r in Hsrc; apply Hsrc; lia).
  simpl. rewrite wr_in_range by lia. simpl.
  rewrite (IH s) by (try rewrite length_insert; try lia; intros k Hk; specialize (Hsrc (S k)); simpl in Hsrc;
    rewrite <-Hsrc by lia; f_equal; lia).
  f_equal. replace (Z.to_nat (i + 1)) with (S (Z.to_nat i)) by lia.
  rewrite (take_S_r _ _ c), take_insert_ge by (lia || (apply list_lookup_insert_eq; lia)).
  rewrite drop_insert_lt by lia. rewrite <-app_assoc. simpl. do 4 f_equal. lia.
Qed.

Lemma fill_middle v pre mid rest :
  fill (length mid) (Z.of_nat (length pre)) (pre ++ mid ++ rest) v = Done (pre ++ replicate (length mid) v ++ rest).
Proof.
  revert pre. induction mid as [|c mid IH]; intros pre; [done|]. cbn [fill replicate length]. rewrite wr_in_range, bind_ret by (rewrite length_app; cbn; lia).
  rewrite Nat2Z.id. cbn [app]. rewrite insert_app_r_alt, Nat.sub_diag by lia. cbn [insert list_insert].
  replace (Z.of_nat (length pre) + 1) with (Z.of_nat (length (pre ++ [v]))) by (rewrite length_app; cbn; lia).
  change (pre ++ v :: mid ++ rest) with (pre ++ [v] ++ mid ++ rest). rewrite app_assoc, IH, <-app_assoc. done.
Qed.

Lemma memset_buffer b : length b = 32%nat → memset b 0 32 = Done (replicate 32 0).
Proof.
  intros Hl. unfold memset. change (Z.to_nat 32) with 32%nat. rewrite <-Hl. pose proof (fill_middle 0 [] b []) as Hf. rewrite !app_nil_r in Hf. exact Hf.
Qed.

(** [strncpy] of a string that fits. *)
Lemma strncpy_text dst s rest num :
  text s → Z.of_nat (length s) < 2 ^ 31 → Z.of_nat (length s) < num < 2 ^ 64 →
  Z.of_nat (length s) < Z.of_nat (length dst) →
  strncpy dst (s ++ 0 :: rest) num = Done (s ++ 0 :: drop (S (length s)) dst).
Proof.
  intros Hs Hmax Hnum Hd. unfold strncpy. rewrite strlen_text by done. cbn [mbind outcome_bind].
  rewrite (wrap_small 64) by lia. rewrite Z.min_l by lia. rewrite swrap_small by lia.
  destruct (Z.ltb_spec (Z.of_nat (length s)) 0); [lia|].
  rewrite (copy_chars_spec _ s) by (lia || (intros k Hk; simpl; by rewrite lookup_app_l)).
  cbn [mbind outcome_bind]. rewrite Nat2Z.id. simpl take. rewrite app_nil_l. simpl Nat.add.
  rewrite wr_in_range by (rewrite length_app, length_drop; lia). f_equal. rewrite Nat2Z.id.
  rewrite insert_app_r_alt, Nat.sub_diag by lia.
  destruct (drop (length s) dst) as [|d ds] eqn:E.
  - apply (f_equal length) in E. rewrite length_drop in E. simpl in E. lia.
  - simpl. f_equal. rewrite <-Nat.add_1_r, <-drop_drop, E. done.
Qed.

(** ** Numbers *)

(** The value of a string of decimal digits. *)
Definition dval (ds : list Z) : Z := fold_left (λ r c, r * 10 + c - 48) ds 0.

Lemma dictionary_digit m :
  -36 < m < 36 → ∃ c, xtox_dictionary.[35 + m] = Done c ∧ 0 < c < 128 ∧ (-10 < m < 10 → c = 48 + Z.abs m).
Proof.
  intros Hm. assert (Hall : forallb (λ k, match xtox_dictionary.[35 + (Z.of_nat k - 35)] with
    | Done c => (0 <? c) && (c <? 128) && ((Z.of_nat k - 35 <=? -10) || (10 <=? Z.of_nat k - 35) || (c =? 48 + Z.abs (Z.of_nat k - 35)))
    | _ => false end) (seq 0 71) = true) by reflexivity.
  assert (Hin : In (Z.to_nat (m + 35)) (seq 0 71)) by (apply in_seq; lia).
  rewrite forallb_forall in Hall. specialize (Hall _ Hin).
  rewrite Z2Nat.id in Hall by lia. replace (m + 35 - 35) with m in Hall by lia.
  destruct (xtox_dictionary.[35 + m]) as [c| |]; [exists c|discriminate Hall..].
  rewrite !andb_true_iff, !orb_true_iff in Hall. split_and!; [done|lia..].
Qed.

Lemma itos_digits_spec fuel n base :
  2 ≤ base ≤ 36 → Z.abs n < 2 ^ Z.of_nat fuel → 0 < Z.of_nat fuel →
  ∃ ds, itos_digits fuel n base = Done ds ∧ (0 < length ds ≤ fuel)%nat ∧
    Forall (λ c, 0 < c < 128) ds ∧ (base = 10 → Forall (λ c, 48 ≤ c ≤ 57) ds ∧ dval (rev ds) = Z.abs n).
Proof.
  intros Hb. revert n. induction fuel as [|fuel IH]; intros n Hn Hf; [lia|]. simpl.
  pose proof (Z.quot_rem n base ltac:(lia)) as Hqr.
  pose proof (Z.rem_bound_abs n base ltac:(lia)) as Hrb.
  destruct (dictionary_digit (Z.rem n base)) as (c & -> & Hc & Hdig); [lia|]. cbn [mbind outcome_bind].
  assert (Habs : Z.abs (Z.quot n base) = Z.abs n / base ∧ Z.abs (Z.rem n base) = Z.abs n mod base).
  { rewrite <-Z.quot_abs, Z.quot_div_nonneg, <-Z.rem_abs, Z.rem_mod_nonneg by lia.
    rewrite (Z.abs_eq base) by lia. done. }
  destruct Habs as [Hq Hr].
  assert (Hten : base = 10 → c = 48 + Z.abs n mod 10) by (intros ->; rewrite Hdig by lia; lia).
  destruct (Z.eqb_spec (Z.quot n base) 0) as [H0|H0].
  - exists [c]. split_and!; [done|simpl; lia|simpl; lia|by repeat constructor; lia|].
    intros ->. rewrite Hten by done. pose proof (Z.mod_pos_bound (Z.abs n) 10 ltac:(lia)).
    split; [repeat constructor; lia|]. unfold dval. simpl.
    pose proof (Z.div_mod (Z.abs n) 10 ltac:(lia)). lia.
  - assert (Hlt : Z.abs (Z.quot n base) < 2 ^ Z.of_nat fuel).
    { rewrite Hq. apply Z.div_lt_upper_bound; [lia|]. rewrite Nat2Z.inj_succ, Z.pow_succ_r in Hn by lia. nia. }
    destruct (IH (Z.quot n base) Hlt) as (ds & -> & Hl & Hall & Hd); [destruct fuel; simpl in *; lia|].
    exists (c :: ds). split_and!; [done|simpl; lia|simpl; lia|by constructor|].
    intros ->. destruct (Hd eq_refl) as [Hdd Hv]. rewrite Hten by done.
    pose proof (Z.mod_pos_bound (Z.abs n) 10 ltac:(lia)). split; [constructor; [lia|done]|].
    unfold dval in *. simpl. rewrite fold_left_app, Hv, Hq. simpl.
    pose proof (Z.div_mod (Z.abs n) 10 ltac:(lia)). lia.
Qed.

(** [itos] stores a C string without a NUL inside. *)
Definition no_nul (s : list Z) : Prop := Forall (λ c, 0 < c < 128) s.

Lemma itos_spec n base buf :
  2 ≤ base ≤ 36 → Z.abs n < 2 ^ 64 → 67 ≤ Z.of_nat (length buf) →
  ∃ s buf', itos n base buf = Done (cstr s ++ buf') ∧ no_nul s ∧ (0 < length s)%nat ∧
    (base = 10 → ∃ ds, s = (if n <? 0 then [45] else []) ++ ds ∧
       Forall (λ c, 48 ≤ c ≤ 57) ds ∧ dval ds = Z.abs n ∧ ds ≠ []).
Proof.
  intros Hb Hn Hlen. destruct (itos_digits_spec 65 n base Hb) as (ds & Hds & Hl & Hall & Hten); [lia..|].
  unfold itos. destruct (Z.ltb_spec base 2), (Z.gtb_spec base 36); try lia. cbn [orb]. rewrite Hds. cbn [mbind outcome_bind].
  set (sg := if (n <? 0) && (base =? 10) then [45] else []).
  assert (Hsg : (length sg ≤ 1)%nat ∧ no_nul sg)
    by (unfold sg, no_nul; destruct (_ && _); split; simpl; repeat constructor; lia).
  exists (sg ++ rev ds), (drop (length (sg ++ rev ds ++ [0])) buf).
  split_and!.
  - rewrite put_eq by (rewrite ?length_app, ?length_rev; simpl; lia).
    unfold cstr. by rewrite <-!app_assoc.
  - unfold no_nul. apply Forall_app. split; [apply Hsg|]. by apply Forall_rev.
  - rewrite length_app, length_rev. lia.
  - intros ->. destruct (Hten eq_refl) as [Hd Hv]. exists (rev ds). split_and!.
    + unfold sg. by rewrite andb_true_r.
    + by apply Forall_rev.
    + done.
    + intros Hnil%(f_equal length). rewrite length_rev in Hnil. simpl in Hnil. lia.
Qed.

Lemma char_ascii c : 0 ≤ c < 128 → char c = c.
Proof. intros. apply swrap_small; lia. Qed.

Lemma dval_mono ds r : Forall (λ c, 48 ≤ c ≤ 57) ds → 0 ≤ r → r ≤ fold_left (λ r c, r * 10 + c - 48) ds r.
Proof.
  intros Hds. revert r. induction Hds as [|c ds Hc Hds IH]; intros r Hr; simpl; [done|].
  etrans; [|apply IH; lia]. lia.
Qed.

Lemma stoi_loop_digits w ds r rest :
  0 < w → Forall (λ c, 48 ≤ c ≤ 57) ds → 0 ≤ r →
  fold_left (λ r c, r * 10 + c - 48) ds r < 2 ^ (w - 1) →
  stoi_loop w 10 r (ds ++ 0 :: rest) = Done (fold_left (λ r c, r * 10 + c - 48) ds r).
Proof.
  intros Hw Hds. revert r. induction Hds as [|c ds Hc Hds IH]; intros r Hr Hlt; simpl in *; [done|].
  destruct (Z.eqb_spec c 0); [lia|]. rewrite char_ascii by lia.
  pose proof (dval_mono ds (r * 10 + c - 48) Hds ltac:(lia)).
  rewrite swrap_small by lia. apply IH; lia.
Qed.

(** Printing an integer in base 10 and reading it back at any
    width that holds it gives the integer, its sign included. *)
Lemma itos_stoi_roundtrip n w buf :
  0 < w ≤ 64 → Z.abs n < 2 ^ (w - 1) → 67 ≤ Z.of_nat (length buf) →
  (s ← itos n 10 buf; stoi w 10 s) = Done n.
Proof.
  intros Hw Hn Hlen.
  assert (2 ^ (w - 1) ≤ 2 ^ 63) by (apply Z.pow_le_mono_r; lia).
  destruct (itos_spec n 10 buf) as (s & buf' & -> & Hs & _ & Hten); [lia..|]. cbn [mbind outcome_bind].
  destruct (Hten eq_refl) as (ds & -> & Hds & Hv & Hne). unfold cstr, stoi.
  destruct (Z.ltb_spec n 0).
  - simpl. rewrite <-app_assoc. simpl.
    rewrite drop_0, stoi_loop_digits by (done || lia || (unfold dval in Hv; lia)). simpl.
    fold (dval ds). rewrite Hv, swrap_small by lia. f_equal. lia.
  - simpl. rewrite <-app_assoc. simpl. destruct ds as [|d ds]; [done|]. simpl.
    destruct (Z.eqb_spec d 45); [inversion Hds; lia|].
    change (d :: ds ++ 0 :: buf') with ((d :: ds) ++ 0 :: buf').
    pose proof (stoi_loop_digits w (d :: ds) 0 buf' ltac:(lia) Hds ltac:(lia)) as Hst.
    fold (dval (d :: ds)) in Hst. rewrite Hv in Hst. simpl in Hst |- *. rewrite Hst by lia. f_equal. lia.
Qed.

(** ** The text a format stands for

    The reference for [snprintf]: the whole text, without a buffer. *)

Definition text_of (s : list Z) : outcome (list Z) := n ← strlen s; get s 0 n.

Lemma text_of_text s rest : text s → text_of (s ++ 0 :: rest) = Done s.
Proof.
  intros Hs. unfold text_of. rewrite strlen_text by done. cbn [mbind outcome_bind].
  rewrite get_eq by (rewrite ?length_app; lia). by rewrite Nat2Z.id, drop_0, take_app_length.
Qed.

Definition padded (padchar padlen : Z) (s : list Z) : list Z :=
  replicate (Z.to_nat (i32 (padlen - Z.of_nat (length s)) `max` 0)) padchar ++ s.

Definition render_number (padchar padlen v base : Z) : outcome (list Z) :=
  tmp ← itos v base tmp_buffer; t ← text_of tmp; Done (padded padchar padlen t).

Definition render_conv (padchar padlen : Z) (sz : size) (c : Z) (args : list arg) : outcome (list Z * list arg) :=
  if c =? 0 then Done ([], args)
  else if c =? 115 then '(s, args) ← va_text args; t ← text_of s; Done (padded padchar padlen t, args)
  else if c =? 99 then
    '(v, args) ← va_num args; t ← text_of [u8 v; 0]; Done (padded padchar padlen t, args)
  else if c =? 105 then '(v, args) ← va_num args; t ← render_number padchar padlen (signed_of sz v) 10; Done (t, args)
  else if c =? 117 then '(v, args) ← va_num args; t ← render_number padchar padlen (unsigned_of sz v) 10; Done (t, args)
  else if c =? 120 then '(v, args) ← va_num args; t ← render_number padchar padlen (unsigned_of sz v) 16; Done (t, args)
  else if c =? 112 then '(v, args) ← va_num args; t ← render_number padchar padlen (u64 v) 16; Done (t, args)
  else Done ([c], args).

Fixpoint render_loop (fuel : nat) (fmt : list Z) (args : list arg) : outcome (list Z) :=
  match fuel with
  | O => Fault
  | S fuel =>
      c ← deref fmt;
      '(t, fmt, args) ←
        (if c =? 37 then
           fmt ← incr fmt;
           '(padchar, padlen, sz, fmt) ← directive fmt;
           c ← deref fmt;
           '(t, args) ← render_conv padchar padlen sz c args;
           Done (t, fmt, args)
         else Done ([c], fmt, args));
      fmt ← incr fmt;
      c ← deref fmt;
      if c =? 0 then Done t else r ← render_loop fuel fmt args; Done (t ++ r)
  end.

Definition render (fmt : list Z) (args : list arg) : outcome (list Z) := render_loop (length fmt) fmt args.

(** The sink after the text [t] went into [buf] with room for [n] characters. *)
Definition sink_for (buf : list Z) (n : Z) (t : list Z) : sink :=
  let m := n `min` Z.of_nat (length t) in
  mk_sink (take (Z.to_nat m) t ++ drop (Z.to_nat m) buf) m (n - m).

Lemma sink_put buf n t bs :
  0 ≤ n ≤ Z.of_nat (length buf) → Z.of_nat (length bs) ≤ left (sink_for buf n t) → bs ≠ [] →
  put (mem (sink_for buf n t)) (pos (sink_for buf n t)) bs = Done (mem (sink_for buf n (t ++ bs))) ∧
  pos (sink_for buf n (t ++ bs)) = pos (sink_for buf n t) + Z.of_nat (length bs) ∧
  left (sink_for buf n (t ++ bs)) = left (sink_for buf n t) - Z.of_nat (length bs).
Proof.
  intros Hn Hbs Hne. unfold sink_for in *. cbn [mem pos left] in *.
  assert (0 < Z.of_nat (length bs)) by (destruct bs; [done|simpl; lia]).
  rewrite length_app. assert (n `min` Z.of_nat (length t) = Z.of_nat (length t)) as Hm by lia. rewrite Hm in *.
  rewrite Z.min_r by lia. split_and!; [|lia..].
  rewrite put_eq by (rewrite ?length_app, ?length_take, ?length_drop; lia). f_equal.
  rewrite !Nat2Z.id, firstn_all, take_app_length, drop_app_add', drop_drop by lia.
  rewrite (take_ge (t ++ bs)), <-app_assoc by (rewrite length_app; lia). do 3 f_equal; lia.
Qed.

(** Text past the room does not matter. *)
Lemma sink_full buf n t bs :
  0 ≤ n → sink_for buf n (t ++ take (Z.to_nat (n - Z.of_nat (length t))) bs) = sink_for buf n (t ++ bs).
Proof.
  intros Hn. unfold sink_for. rewrite !length_app, length_take.
  replace (n `min` Z.of_nat (length t + length bs))
    with (n `min` Z.of_nat (length t + (Z.to_nat (n - Z.of_nat (length t)) `min` length bs))) by lia.
  f_equal. f_equal. rewrite !take_app, take_take. do 2 f_equal. lia.
Qed.

Lemma sink_left buf n t : left (sink_for buf n t) = n - n `min` Z.of_nat (length t).
Proof. done. Qed.

Lemma sink_sat buf n t bs : 0 ≤ n → left (sink_for buf n t) = 0 → sink_for buf n (t ++ bs) = sink_for buf n t.
Proof.
  intros Hn Hl. rewrite <-sink_full by done. rewrite sink_left in Hl.
  replace (Z.to_nat (n - Z.of_nat (length t))) with 0%nat by lia. by rewrite take_0, app_nil_r.
Qed.

Lemma wr_put (l : list Z) i c l' : put l i [c] = Done l' → l.[i := c] = Done l'.
Proof.
  intros H. pose proof H as (Hi & Hlt & _ & Hl)%put_Done. simpl in Hlt. rewrite wr_in_range by lia. f_equal.
  apply list_eq. intros j. rewrite Hl. simpl. case_decide.
  - replace j with (Z.to_nat i) by lia. rewrite list_lookup_insert_eq by lia. by rewrite Nat.sub_diag.
  - rewrite list_lookup_insert_ne by lia. done.
Qed.

Lemma sink_wr buf n t c :
  0 ≤ n ≤ Z.of_nat (length buf) → 0 < left (sink_for buf n t) →
  (mem (sink_for buf n t)).[pos (sink_for buf n t) := c] = Done (mem (sink_for buf n (t ++ [c]))) ∧
  pos (sink_for buf n (t ++ [c])) = pos (sink_for buf n t) + 1 ∧
  left (sink_for buf n (t ++ [c])) = left (sink_for buf n t) - 1.
Proof.
  intros Hn Hl. destruct (sink_put buf n t [c]) as (Hp & Hpos & Hleft); [done|cbn [length]; lia|done|].
  split_and!; [by apply wr_put|exact Hpos|exact Hleft].
Qed.

Lemma put_char_for buf n t c :
  0 ≤ n ≤ Z.of_nat (length buf) → put_char (sink_for buf n t) c = Done (sink_for buf n (t ++ [c])).
Proof.
  intros Hn. unfold put_char. pose proof (sink_left buf n t) as Hl.
  destruct (Z.gtb_spec (left (sink_for buf n t)) 0); [|by rewrite sink_sat by lia].
  destruct (sink_wr buf n t c) as (Hp & Hpos & Hleft); [done|lia|].
  rewrite Hp. cbn [mbind outcome_bind]. by rewrite <-Hpos, <-Hleft.
Qed.

Lemma pad_for m buf n t l c :
  0 ≤ n ≤ Z.of_nat (length buf) → Z.of_nat m ≤ left (sink_for buf n t) →
  let k := sink_for buf n (t ++ replicate m c) in
  pad m (mk_sink (mem (sink_for buf n t)) (pos (sink_for buf n t)) l) c = Done (mk_sink (mem k) (pos k) l).
Proof.
  intros Hn. revert t. induction m as [|m IH]; intros t Hm; cbn [pad replicate]; [by rewrite app_nil_r|].
  destruct (sink_wr buf n t c) as (Hp & Hpos & Hleft); [done|lia|].
  cbn [mem pos left]. rewrite Hp. cbn [mbind outcome_bind].
  rewrite <-Hpos, (IH (t ++ [c])) by lia. by rewrite <-app_assoc.
Qed.

Lemma text_of_Done str s :
  text_of str = Done s → strlen str = Done (Z.of_nat (length s)) ∧ get str 0 (Z.of_nat (length s)) = Done s.
Proof.
  unfold text_of. intros (m & Hm & Hg)%bind_Done. pose proof Hg as (_ & _ & _ & Hl & _)%get_Done. by rewrite Hl.
Qed.

Lemma common_for buf n t pc pl str s :
  0 ≤ n ≤ Z.of_nat (length buf) → text_of str = Done s →
  snprintf_common (sink_for buf n t) pc pl str = Done (sink_for buf n (t ++ padded pc pl s)).
Proof.
  intros Hn [Hsl Hg]%text_of_Done. unfold snprintf_common. set (k := sink_for buf n t).
  destruct (Z.eqb_spec (left k) 0) as [H0|H0]; [by rewrite sink_sat by (lia || exact H0)|].
  rewrite Hsl. cbn [mbind outcome_bind]. unfold padded.
  set (x := i32 (pl - Z.of_nat (length s)) `max` 0).
  assert (Hx : 0 ≤ x < 2 ^ 31) by (pose proof (swrap_bound 32 (pl - Z.of_nat (length s)) ltac:(lia)); lia).
  rewrite wrap_small by lia. assert (Hl : 0 ≤ left k ∧ left k = n - n `min` Z.of_nat (length t)) by (split; [unfold k; rewrite sink_left; lia|done]).
  remember (x `min` left k) as m eqn:Hm.
  unfold k at 1 2. rewrite (pad_for (Z.to_nat m) buf n t) by (fold k; lia). cbn [mbind outcome_bind].
  set (t1 := t ++ replicate (Z.to_nat m) pc). cbn [left mem pos].
  assert (Hk1 : left (sink_for buf n t1) = left k - m)
    by (unfold t1; rewrite sink_left, length_app, length_replicate; lia).
  destruct (Z.eqb_spec (left k - m) 0) as [H1|H1].
  { f_equal. rewrite <-(sink_full buf n t (_ ++ _)) by lia.
    replace (take _ (replicate (Z.to_nat x) pc ++ s)) with (replicate (Z.to_nat m) pc).
    - fold t1. by rewrite <-Hk1.
    - rewrite take_app_le, take_replicate by (rewrite length_replicate; lia). f_equal. lia. }
  assert (Hm' : m = x) by lia. rewrite app_assoc, <-Hm'. fold t1.
  destruct (Z.eqb_spec (Z.of_nat (length s) `min` (left k - m)) 0) as [H2|H2].
  { assert (s = []) as -> by (apply length_zero_iff_nil; lia). rewrite app_nil_r, <-Hk1. done. }
  rewrite <-(sink_full buf n t1) by lia.
  set (bs := take (Z.to_nat (n - Z.of_nat (length t1))) s).
  assert (Hbs : get str 0 (Z.of_nat (length s) `min` (left k - m)) = Done bs).
  { apply get_Done in Hg as (_ & _ & Hls & _ & Hg). apply get_Done.
    assert (Hlt1 : left k - m = n - Z.of_nat (length t1)) by (rewrite <-Hk1, sink_left in *; lia).
    unfold bs. rewrite length_take. split_and!; try lia.
    intros i Hi. rewrite lookup_take_lt, Hg by lia. done. }
  rewrite Hbs. cbn [mbind outcome_bind]. pose proof Hbs as (_ & _ & _ & Hlb & _)%get_Done.
  destruct (sink_put buf n t1 bs) as (Hp & Hpos & Hleft);
    [done|lia|intros Hnil; rewrite Hnil in Hlb; simpl in Hlb; lia|].
  rewrite Hp. cbn [mbind outcome_bind]. by rewrite <-Hlb, <-Hpos, <-Hk1, <-Hleft.
Qed.

(** Once the buffer is full the arguments may lag behind: [%c] then takes
    none. *)
Definition aligned (buf : list Z) (n : Z) (t : list Z) (args args' : list arg) : Prop :=
  args' = args ∨ (left (sink_for buf n t) = 0 ∧ (length args ≤ length args')%nat).

Section Snprintf.
Context (buf : list Z) (n : Z).
Hypothesis room : 0 ≤ n ≤ Z.of_nat (length buf).

Lemma common_sat k pc pl str : left k = 0 → snprintf_common k pc pl str = Done k.
Proof. intros H. unfold snprintf_common. by rewrite H. Qed.

Definition number (k : sink) (pc pl v base : Z) : outcome sink :=
  tmp ← itos v base tmp_buffer; snprintf_common k pc pl tmp.

Lemma number_for t pc pl v base r :
  render_number pc pl v base = Done r →
  number (sink_for buf n t) pc pl v base = Done (sink_for buf n (t ++ r)).
Proof.
  intros (tmp & Ht & (s & Hs & [= <-])%bind_Done)%bind_Done. unfold number. rewrite Ht.
  cbn [mbind outcome_bind]. by apply common_for.
Qed.

Lemma number_sat k pc pl v base :
  left k = 0 → Z.abs v < 2 ^ 64 → 2 ≤ base ≤ 36 → number k pc pl v base = Done k.
Proof.
  intros Hk Hv Hb. destruct (itos_spec v base tmp_buffer Hb Hv) as (s & b & Hs & _); [by vm_compute|].
  unfold number. rewrite Hs. cbn [mbind outcome_bind]. by apply common_sat.
Qed.

Lemma va_num_lag (args args2 : list arg) v args' :
  (length args ≤ length args2)%nat → va_num args = Done (v, args') →
  ∃ v2 args2', va_num args2 = Done (v2, args2') ∧ (length args' ≤ length args2')%nat.
Proof.
  intros Hl Hv. destruct args2 as [|[|] args2], args as [|[|] args]; simpl in *; try done; try lia;
    injection Hv as <- <-; eexists _, _; (split; [done|lia]).
Qed.

Lemma va_text_lag (args args2 : list arg) s args' :
  (length args ≤ length args2)%nat → va_text args = Done (s, args') →
  ∃ s2 args2', va_text args2 = Done (s2, args2') ∧ (length args' ≤ length args2')%nat.
Proof.
  intros Hl Hv. destruct args2 as [|[|] args2], args as [|[|] args]; simpl in *; try done; try lia;
    injection Hv as <- <-; eexists _, _; (split; [done|lia]).
Qed.

Lemma signed_bound sz v : Z.abs (signed_of sz v) < 2 ^ 64.
Proof.
  destruct sz; simpl; [pose proof (swrap_bound 16 v ltac:(lia))|pose proof (swrap_bound 32 v ltac:(lia))|
    pose proof (swrap_bound 64 v ltac:(lia))]; lia.
Qed.
Lemma unsigned_bound sz v : Z.abs (unsigned_of sz v) < 2 ^ 64.
Proof.
  destruct sz; simpl; [pose proof (wrap_bound 16 v ltac:(lia))|pose proof (wrap_bound 32 v ltac:(lia))|
    pose proof (wrap_bound 64 v ltac:(lia))]; lia.
Qed.

(** One numeric conversion, the value [f v] of the next argument. *)
Lemma convert_number t pc pl base f args args2 r args' :
  (∀ v, Z.abs (f v) < 2 ^ 64) → 2 ≤ base ≤ 36 → aligned buf n t args args2 →
  ('(v, args) ← va_num args; t ← render_number pc pl (f v) base; Done (t, args)) = Done (r, args') →
  ∃ args2', ('(v, args) ← va_num args2; k ← number (sink_for buf n t) pc pl (f v) base; Done (k, args)) =
    Done (sink_for buf n (t ++ r), args2') ∧ aligned buf n (t ++ r) args' args2'.
Proof.
  intros Hf Hb Hal ([v a] & Hv & (t' & Ht & [= -> ->])%bind_Done)%bind_Done.
  destruct Hal as [->|[Hsat Hlen]].
  - exists args'. rewrite Hv. cbn [mbind outcome_bind]. rewrite (number_for t pc pl _ _ r Ht). split; [done|by left].
  - destruct (va_num_lag _ _ _ _ Hlen Hv) as (v2 & a2 & -> & Hl2). exists a2. cbn [mbind outcome_bind].
    rewrite number_sat by auto. unfold aligned. rewrite sink_sat by (done || lia). split; [done|by right].
Qed.

Lemma convert_for t pc pl sz c args args2 r args' :
  render_conv pc pl sz c args = Done (r, args') → aligned buf n t args args2 →
  ∃ args2', convert (sink_for buf n t) pc pl sz c args2 = Done (sink_for buf n (t ++ r), args2') ∧
    aligned buf n (t ++ r) args' args2'.
Proof.
  intros Hr Hal. unfold render_conv in Hr. unfold convert. repeat fold (number (sink_for buf n t) pc pl).
  destruct (c =? 0). { injection Hr as <- <-. rewrite app_nil_r. eauto. }
  destruct (c =? 115).
  { apply bind_Done in Hr as ([s a] & Hv & Hr). apply bind_Done in Hr as (t' & Ht & [= <- <-]).
    destruct Hal as [->|[Hsat Hlen]].
    - exists a. rewrite Hv. cbn [mbind outcome_bind]. rewrite (common_for _ _ _ _ _ _ t') by done.
      split; [done|by left].
    - destruct (va_text_lag _ _ _ _ Hlen Hv) as (v2 & a2 & -> & Hl2). exists a2. cbn [mbind outcome_bind].
      rewrite common_sat by done. unfold aligned. rewrite sink_sat by (done || lia). split; [done|by right]. }
  destruct (c =? 99).
  { apply bind_Done in Hr as ([v a] & Hv & Hr). apply bind_Done in Hr as (t' & Ht & [= <- <-]).
    destruct (Z.eqb_spec (left (sink_for buf n t)) 0) as [Hsat|Hsat].
    - exists args2. unfold aligned. rewrite sink_sat by (done || lia). split; [done|right]. split; [done|].
      assert (length args ≤ length args2)%nat by (destruct Hal as [->|[_ ?]]; done).
      destruct args as [|[|] args]; simpl in *; simplify_eq; lia.
    - destruct Hal as [->|[? _]]; [|done]. exists a. rewrite Hv. cbn [mbind outcome_bind].
      rewrite (common_for _ _ _ _ _ _ t') by done. split; [done|by left]. }
  destruct (c =? 105). { by apply (convert_number _ _ _ 10 (signed_of sz) args); [apply signed_bound|lia|..]. }
  destruct (c =? 117). { by apply (convert_number _ _ _ 10 (unsigned_of sz) args); [apply unsigned_bound|lia|..]. }
  destruct (c =? 120). { by apply (convert_number _ _ _ 16 (unsigned_of sz) args); [apply unsigned_bound|lia|..]. }
  destruct (c =? 112). { by apply (convert_number _ _ _ 16 (λ v, u64 v) args); [apply (unsigned_bound SIZE_LONG)|lia|..]. }
  injection Hr as <- <-. rewrite put_char_for by done. exists args2. cbn [mbind outcome_bind]. split; [done|].
  destruct Hal as [->|[Hsat Hlen]]; [by left|right]. by rewrite sink_sat by (done || lia).
Qed.

Lemma snprintf_loop_for fuel t fmt args args2 r :
  render_loop fuel fmt args = Done r → aligned buf n t args args2 →
  snprintf_loop fuel (sink_for buf n t) fmt args2 = Done (sink_for buf n (t ++ r)).
Proof.
  revert t fmt args args2 r. induction fuel as [|fuel IH]; intros t fmt args args2 r Hr Hal; [done|].
  cbn [render_loop snprintf_loop] in *. apply bind_Done in Hr as (c & -> & Hr). cbn [mbind outcome_bind].
  apply bind_Done in Hr as ([[r1 f1] a1] & Hstep & Hr).
  assert (Hs : ∃ a2, (if c =? 37 then fmt ← incr fmt; '(padchar, padlen, sz, fmt) ← directive fmt;
      c ← deref fmt; '(k, args) ← convert (sink_for buf n t) padchar padlen sz c args2; Done (k, fmt, args)
    else k ← put_char (sink_for buf n t) c; Done (k, fmt, args2)) = Done (sink_for buf n (t ++ r1), f1, a2) ∧
    aligned buf n (t ++ r1) a1 a2).
  { destruct (c =? 37).
    - apply bind_Done in Hstep as (f & -> & Hstep). cbn [mbind outcome_bind].
      apply bind_Done in Hstep as ([[[pc pl] sz] f'] & -> & Hstep). cbn [mbind outcome_bind].
      apply bind_Done in Hstep as (c' & -> & Hstep). cbn [mbind outcome_bind].
      apply bind_Done in Hstep as ([t' a'] & Hc & [= -> -> ->]).
      destruct (convert_for t _ _ _ _ _ args2 _ _ Hc Hal) as (a2 & -> & Hal2). eauto.
    - injection Hstep as <- <- <-. rewrite put_char_for by done. exists args2. split; [done|].
      destruct Hal as [->|[Hsat Hlen]]; [by left|right]. by rewrite sink_sat by (done || lia). }
  destruct Hs as (a2 & -> & Hal2). cbn [mbind outcome_bind].
  apply bind_Done in Hr as (f & -> & Hr). cbn [mbind outcome_bind].
  apply bind_Done in Hr as (c' & -> & Hr). cbn [mbind outcome_bind].
  destruct (c' =? 0); [by injection Hr as <-|].
  apply bind_Done in Hr as (r2 & Hr2 & [= <-]). rewrite app_assoc. by eapply IH.
Qed.

End Snprintf.

(** What [snprintf] stores for a text. *)
Lemma snprintf_stores buf len fmt args t :
  0 < len ≤ Z.of_nat (length buf) → len < 2 ^ 64 → render fmt args = Done t →
  snprintf buf len fmt args =
    Done (take (Z.to_nat (len - 1)) t ++ [0] ++ drop (S (Z.to_nat (len - 1) `min` length t)) buf).
Proof.
  intros Hlen Hmax Hr. unfold snprintf. destruct (Z.eqb_spec len 0); [lia|]. rewrite wrap_small by lia.
  assert (H0 : mk_sink buf 0 (len - 1) = sink_for buf (len - 1) [])
    by (unfold sink_for; simpl; rewrite Z.min_r by lia; simpl; f_equal; lia).
  rewrite H0, (snprintf_loop_for buf (len - 1) ltac:(lia) _ [] fmt args args t Hr) by (by left).
  cbn [mbind outcome_bind]. rewrite app_nil_l. unfold sink_for. cbn [mem pos].
  set (m := (len - 1) `min` Z.of_nat (length t)).
  assert (Hmt : length (take (Z.to_nat m) t) = Z.to_nat m) by (rewrite length_take; lia).
  apply wr_put. rewrite put_eq by (rewrite ?length_app, ?length_drop, ?Hmt; simpl; lia). f_equal.
  rewrite take_app_length' by done. rewrite drop_app_add' by done. rewrite drop_drop. simpl. f_equal.
  - unfold m. destruct (decide (Z.to_nat (len - 1) ≤ length t)%nat);
      [f_equal; lia|rewrite !take_ge by lia; done].
  - do 2 f_equal. lia.
Qed.

(** C37 (refinement). Whenever a format with its arguments stands for a text,
    [snprintf] into a buffer of at least [len] bytes returns, stores as much of
    the text as fits in [len - 1] bytes and a NUL after it, and leaves the bytes
    behind the NUL as they were. *)
Theorem snprintf_truncates buf len fmt args t :
  0 < len ≤ Z.of_nat (length buf) → len < 2 ^ 64 → render fmt args = Done t →
  snprintf buf len fmt args =
    Done (take (Z.to_nat (len - 1)) t ++ [0] ++ drop (S (Z.to_nat (len - 1) `min` length t)) buf).
Proof. intros Hlen Hmax Hr. by apply snprintf_stores. Qed.

(** Deviation: an empty format, and a format that is a single [%],
    make [snprintf] step over the terminator and read past the format string. *)
Lemma snprintf_reads_past_format buf len args :
  0 < len < 2 ^ 64 → len ≤ Z.of_nat (length buf) →
  snprintf buf len (cstr []) args = Fault ∧ snprintf buf len (cstr (lit "%")) args = Fault.
Proof.
  intros Hlen Hb. unfold snprintf. destruct (Z.eqb_spec len 0); [lia|]. rewrite wrap_small by lia.
  split; [|done]. simpl. unfold put_char. cbn [left mem pos].
  destruct (Z.gtb_spec (len - 1) 0); [|done]. by rewrite wr_in_range by lia.
Qed.

Lemma itos_stoi_roundtrip_witness : (s ← itos (-2147483647) 10 tmp_buffer; stoi 32 10 s) = Done (-2147483647).
Proof. apply (itos_stoi_roundtrip (-2147483647) 32 tmp_buffer); [lia|lia|by vm_compute]. Defined.

Lemma snprintf_truncates_witness :
  snprintf (replicate 9 1) 6 (cstr (lit "%i %s")) [Num 25; Text 0x1000 (cstr (lit "pages"))]
  = Done (lit "25 pa" ++ [0; 1; 1; 1]).
Proof.
  rewrite (snprintf_truncates (replicate 9 1) 6 (cstr (lit "%i %s"))
    [Num 25; Text 0x1000 (cstr (lit "pages"))] (lit "25 pages")); [reflexivity|vm_compute; split; [reflexivity|discriminate]|lia|reflexivity].
Defined.

Lemma snprintf_reads_past_format_witness : snprintf (replicate 8 0) 8 (cstr []) [] = Fault.
Proof. apply (snprintf_reads_past_format (replicate 8 0) 8 []); [lia|vm_compute; discriminate]. Defined.

End Str.
