(* ===== verification/Path.v ===== *)
(** * Paths

    [fs/path.cpp]: the path walker, the validity checks, [get_filename] and
    [canonize_path].  A path is the memory of a C string, read by index. *)
From S2P Require Import Prelude Math Str.
Local Open Scope Z_scope.
Import Str.

Module Path.

Definition MAX_PATH_LEN : Z := 2048.
Definition MAX_FILENAME_LEN : Z := 256.
Definition slash : Z := 47.

(** [while (path[index] == '/') index++] and
    [while (path[index] && path[index] != '/') index++]; both stop at the NUL,
    so the length of the path is enough fuel. *)
Fixpoint skip_slashes (fuel : nat) (path : list Z) (index : Z) : outcome Z :=
  match fuel with
  | O => Fault
  | S fuel => c ← path.[index]; if c =? slash then skip_slashes fuel path (index + 1) else Done index
  end.

Fixpoint skip_piece (fuel : nat) (path : list Z) (index : Z) : outcome Z :=
  match fuel with
  | O => Fault
  | S fuel =>
      c ← path.[index];
      if negb (c =? 0) && negb (c =? slash) then skip_piece fuel path (index + 1) else Done index
  end.

Fixpoint count_levels_loop (fuel : nat) (path : list Z) (index total : Z) : outcome Z :=
  match fuel with
  | O => Fault
  | S fuel =>
      c ← path.[index];
      if c =? 0 then Done total
      else
        index ← skip_piece (length path) path index;
        index ← skip_slashes (length path) path index;
        count_levels_loop fuel path index (total + 1)
  end.

Definition count_levels (path : list Z) : outcome Z :=
  index ← skip_slashes (length path) path 0;
  count_levels_loop (length path) path index 0.

Record Walker := mk_walker {
  m_buffer : list Z;
  m_index : Z;
  m_path : list Z;
  m_too_long : bool;
  m_level : Z;
  m_levels : Z;
}.

Definition walker (path : list Z) : outcome Walker :=
  n ← count_levels path;
  Done (mk_walker (replicate (Z.to_nat MAX_FILENAME_LEN) 0) 0 path false 0 n).

(** The loop over one piece: the buffer, the index and the piece's length, or
    [None] for a piece that is too long. *)
Fixpoint piece_loop (fuel : nat) (path buffer : list Z) (index chars : Z) : outcome (option (Z * Z) * list Z) :=
  match fuel with
  | O => Fault
  | S fuel =>
      c ← path.[index];
      if negb (c =? 0) && negb (c =? slash) then
        if chars >=? MAX_FILENAME_LEN - 1 then Done (None, buffer)
        else buffer ← buffer.[chars := c]; piece_loop fuel path buffer (index + 1) (chars + 1)
      else Done (Some (index, chars), buffer)
  end.

(** [Walker::next]: the buffer with the piece, or a null pointer.  The index a
    too long piece leaves does not matter: every later call returns at once. *)
Definition next (w : Walker) : outcome (option (list Z) * Walker) :=
  c ← (m_path w).[m_index w];
  if (c =? 0) || m_too_long w then Done (None, w)
  else
    index ← skip_slashes (length (m_path w)) (m_path w) (m_index w);
    '(r, buffer) ← piece_loop (length (m_path w)) (m_path w) (m_buffer w) index 0;
    match r with
    | None => Done (None, mk_walker buffer index (m_path w) true (m_level w) (m_levels w))
    | Some (index, chars) =>
        if chars =? 0 then
          Done (None, mk_walker buffer index (m_path w) (m_too_long w) (m_level w) (m_levels w))
        else
          buffer ← buffer.[chars := 0];
          Done (Some buffer, mk_walker buffer index (m_path w) (m_too_long w) (m_level w + 1) (m_levels w))
    end.

Definition isFinal (w : Walker) : bool := m_level w =? m_levels w.

(** [get_filename]: the path itself, or the buffer. *)
Fixpoint last_slash (n : nat) (path : list Z) (i last : Z) : outcome Z :=
  match n with
  | O => Done last
  | S n => c ← path.[i]; last_slash n path (i + 1) (if c =? slash then i + 1 else last)
  end.

Definition get_filename (buffer path : list Z) (num : Z) : outcome (list Z) :=
  len ← strlen path;
  if len <=? 1 then Done path
  else
    c ← path.[len - 1];
    let len := if c =? slash then len - 1 else len in
    last ← last_slash (Z.to_nat len) path 0 0;
    strncpy buffer (drop (Z.to_nat last) path) (u64 (i32 num `min` (len - last + 1))).

Definition check_length (path : list Z) : outcome bool :=
  len ← strlen path; Done (u64 (len + 1) <? MAX_PATH_LEN).

Definition ends_with_slash (path : list Z) : outcome bool :=
  len ← strlen path; c ← path.[len - 1]; Done (c =? slash).

(** The inner loop of [is_valid]: [None] is its [return false]. *)
Fixpoint valid_piece (fuel : nat) (path : list Z) (index chars : Z) : outcome (option (Z * Z)) :=
  match fuel with
  | O => Fault
  | S fuel =>
      c ← path.[index];
      if negb (c =? 0) && negb (c =? slash) then
        if chars >=? MAX_FILENAME_LEN - 1 then Done None else valid_piece fuel path (index + 1) (chars + 1)
      else Done (Some (index, chars))
  end.

Fixpoint is_valid_loop (fuel : nat) (path : list Z) (index chars : Z) : outcome bool :=
  match fuel with
  | O => Fault
  | S fuel =>
      c ← path.[index];
      if c =? 0 then Done true
      else
        r ← valid_piece (length path) path index chars;
        match r with
        | None => Done false
        | Some (index, chars) =>
            index ← skip_slashes (length path) path index;
            is_valid_loop fuel path index chars
        end
  end.

Definition is_valid (path : list Z) : outcome bool :=
  ok ← check_length path;
  if negb ok then Done false
  else
    c ← path.[0];
    if negb (c =? slash) then Done false
    else
      index ← skip_slashes (length path) path 1;
      is_valid_loop (length path) path index 0.

(** [while (index > 0 && buffer[index] != '/') index--]. *)
Fixpoint up (n : nat) (buffer : list Z) (index : Z) : outcome Z :=
  match n with
  | O => Done index
  | S n => c ← buffer.[index]; if c =? slash then Done index else up n buffer (index - 1)
  end.

Definition strncpy_at (buffer : list Z) (index : Z) (src : list Z) (num : Z) : outcome (list Z) :=
  d ← strncpy (drop (Z.to_nat index) buffer) src num; Done (take (Z.to_nat index) buffer ++ d).

(** The loop of [canonize_path] over the pieces; [None] is a null pointer.
    Every turn but the last takes a piece, so the length of the path and one
    more turn are enough. *)
Fixpoint canonize_loop (fuel : nat) (w : Walker) (buffer : list Z) (index buffer_len : Z)
    : outcome (option (list Z * Z)) :=
  match fuel with
  | O => Fault
  | S fuel =>
      '(p, w) ← next w;
      match p with
      | None => Done (Some (buffer, index))
      | Some piece =>
          dot ← strcmp piece (cstr (lit "."));
          if dot =? 0 then canonize_loop fuel w buffer index buffer_len
          else
            dots ← strcmp piece (cstr (lit ".."));
            if dots =? 0 then
              index ← up (Z.to_nat index) buffer index;
              if index =? 0 then canonize_loop fuel w buffer index buffer_len
              else buffer ← buffer.[index := 0]; canonize_loop fuel w buffer index buffer_len
            else
              piece_len ← strlen piece;
              if index + piece_len >=? buffer_len then Done None
              else
                buffer ← buffer.[index := slash];
                let index := index + 1 in
                buffer ← strncpy_at buffer index piece MAX_PATH_LEN;
                let index := index + piece_len in
                buffer ← buffer.[index := 0];
                canonize_loop fuel w buffer index buffer_len
      end
  end.

(** The copy of the base path, for a path that is not absolute: the buffer and
    [index].  [base_path] is not null: [strlen] runs before the test. *)
Definition canonize_start (path base_path buffer : list Z) (buffer_len : Z) : outcome (option (list Z * Z)) :=
  base_len ← strlen base_path;
  c ← path.[0];
  if (base_len >? 0) && negb (c =? slash) then
    if base_len >? buffer_len then Done None
    else
      bs ← get base_path 0 base_len;
      buffer ← put buffer 0 bs;
      buffer ← buffer.[base_len := 0];
      c ← buffer.[base_len - 1];
      Done (Some (buffer, if c =? slash then base_len - 1 else base_len))
  else Done (Some (buffer, 0)).

Definition canonize_path (path base_path buffer : list Z) (buffer_len : Z) : outcome (option (list Z)) :=
  if buffer_len <? 2 then Done None
  else
    let buffer_len := buffer_len - 1 in
    buffer ← buffer.[0 := slash];
    buffer ← buffer.[1 := 0];
    buffer ← buffer.[buffer_len := 0];
    start ← canonize_start path base_path buffer buffer_len;
    match start with
    | None => Done None
    | Some (buffer, index) =>
        w ← walker path;
        r ← canonize_loop (S (length path)) w buffer index buffer_len;
        match r with
        | None => Done None
        | Some (buffer, index) =>
            e ← ends_with_slash path;
            if (e : bool) then
              if index >=? buffer_len then Done None
              else
                buffer ← buffer.[index := slash];
                buffer ← buffer.[index + 1 := 0];
                Done (Some buffer)
            else Done (Some buffer)
        end
    end.

Definition canon (path base : string) : outcome (option (list Z)) :=
  r ← canonize_path (cstr (lit path)) (cstr (lit base)) (replicate 64 1) 64;
  match r with None => Done None | Some b => t ← text_of b; Done (Some t) end.

(** ** The pieces of a path *)

(** The maximal runs without a slash. *)
Fixpoint pieces (s : list Z) : list (list Z) :=
  match s with
  | [] => []
  | c :: s' =>
      if c =? slash then pieces s'
      else match s' with
           | d :: _ => if d =? slash then [c] :: pieces s'
                       else match pieces s' with p :: ps => (c :: p) :: ps | [] => [[c]] end
           | [] => [[c]]
           end
  end.

(** Characters of a path, of a piece, and where a piece ends. *)
Definition clean (s : list Z) : Prop := Forall (λ c, 0 < c < 256) s.
Definition plain (p : list Z) : Prop := Forall (λ c, 0 < c < 256 ∧ c ≠ slash) p.
Definition slashes (s : list Z) : Prop := Forall (λ c, c = slash) s.
Definition stops (s : list Z) : Prop := s = [] ∨ ∃ r, s = slash :: r.

Lemma pieces_slashes sl s : slashes sl → pieces (sl ++ s) = pieces s.
Proof. induction 1 as [|c sl -> Hsl IH]; [done|]. simpl. exact IH. Qed.

Lemma pieces_plain p rest :
  plain p → p ≠ [] → stops rest → pieces (p ++ rest) = p :: pieces rest.
Proof.
  induction 1 as [|c p [Hc Hcs] Hp IH]; [done|]. intros _ Hst. simpl.
  destruct (Z.eqb_spec c slash); [done|]. destruct p as [|d p].
  - simpl. destruct rest as [|e rest]; [done|]. destruct Hst as [|[r [= -> _]]]; [done|]. done.
  - simpl app. inversion Hp as [|? ? [_ Hds]]; subst. destruct (Z.eqb_spec d slash); [done|].
    change (d :: p ++ rest) with ((d :: p) ++ rest). rewrite IH by done. done.
Qed.

(** Every path is slashes, a piece and a rest. *)
Lemma path_split s :
  clean s → ∃ sl p rest, s = sl ++ p ++ rest ∧ slashes sl ∧ plain p ∧ stops rest ∧ clean rest ∧
    pieces s = (if decide (p = []) then [] else p :: pieces rest) ∧ (p = [] → rest = []).
Proof.
  induction 1 as [|c s Hc Hs (sl & p & rest & -> & Hsl & Hp & Hst & Hcr & Hps & Hnil)].
  { exists [], [], []. split_and!; try constructor; done. }
  destruct (Z.eqb_spec c slash) as [->|Hne].
  { exists (slash :: sl), p, rest. split_and!; try done; by constructor. }
  destruct sl as [|d sl].
  - exists [], (c :: p), rest. split_and!; try done; [by constructor|].
    rewrite decide_False by done. simpl app. change (c :: p ++ rest) with ((c :: p) ++ rest).
    apply pieces_plain; [by constructor|done|done].
  - inversion Hsl; subst. exists [], [c], (slash :: sl ++ p ++ rest).
    assert (stops (slash :: sl ++ p ++ rest)) by (right; eauto).
    split_and!; try done; [apply Forall_nil_2|by apply Forall_singleton|].
    rewrite decide_False by done. change (c :: (slash :: sl) ++ p ++ rest) with ([c] ++ slash :: sl ++ p ++ rest).
    apply pieces_plain; [by apply Forall_singleton|done|done].
Qed.

(** ** The index loops *)

Lemma rd_middle (pre suf : list Z) c : (pre ++ c :: suf).[Z.of_nat (length pre)] = Done c.
Proof. apply rd_Done. split; [lia|]. rewrite Nat2Z.id. by apply list_lookup_middle. Qed.

Lemma rd_stop pre rest : stops rest → ∃ c, (pre ++ cstr rest).[Z.of_nat (length pre)] = Done c ∧
  (c = 0 ∨ c = slash) ∧ (c = 0 ↔ rest = []).
Proof.
  intros [->|[r ->]].
  - exists 0. split; [apply rd_middle|]. naive_solver.
  - exists slash. split; [apply rd_middle|]. split; [by right|]. by split.
Qed.

Lemma skip_slashes_spec fuel pre sl s :
  slashes sl → (length sl < fuel)%nat → (∀ r, s ≠ slash :: r) →
  skip_slashes fuel (pre ++ sl ++ cstr s) (Z.of_nat (length pre)) = Done (Z.of_nat (length (pre ++ sl))).
Proof.
  intros Hsl. revert fuel pre. induction Hsl as [|c sl -> Hsl IH]; intros fuel pre Hf Hs;
    (destruct fuel as [|fuel]; [simpl in *; lia|]); simpl skip_slashes.
  - rewrite app_nil_r. simpl app. destruct s as [|c s]; unfold cstr; simpl app; rewrite rd_middle; simpl; [done|].
    destruct (Z.eqb_spec c slash) as [->|]; [by destruct (Hs s)|done].
  - simpl app. rewrite rd_middle. simpl.
    replace (pre ++ slash :: sl ++ cstr s) with ((pre ++ [slash]) ++ sl ++ cstr s) by (by rewrite <-app_assoc).
    replace (Z.of_nat (length pre) + 1) with (Z.of_nat (length (pre ++ [slash]))) by (rewrite length_app; simpl; lia).
    rewrite IH by (simpl in *; done || lia). by rewrite <-app_assoc.
Qed.

Lemma skip_piece_spec fuel pre p rest :
  plain p → (length p < fuel)%nat → stops rest →
  skip_piece fuel (pre ++ p ++ cstr rest) (Z.of_nat (length pre)) = Done (Z.of_nat (length (pre ++ p))).
Proof.
  intros Hp. revert fuel pre. induction Hp as [|c p [Hc Hcs] Hp IH]; intros fuel pre Hf Hst;
    (destruct fuel as [|fuel]; [simpl in *; lia|]); simpl skip_piece.
  - rewrite app_nil_r. destruct (rd_stop pre rest Hst) as (c & Hrd & Hc & _). simpl app. rewrite Hrd. simpl.
    by destruct Hc as [-> | ->].
  - simpl app. rewrite rd_middle. simpl. destruct (Z.eqb_spec c 0), (Z.eqb_spec c slash); try lia. simpl.
    replace (pre ++ c :: p ++ cstr rest) with ((pre ++ [c]) ++ p ++ cstr rest) by (by rewrite <-app_assoc).
    replace (Z.of_nat (length pre) + 1) with (Z.of_nat (length (pre ++ [c]))) by (rewrite length_app; simpl; lia).
    rewrite IH by (simpl in *; done || lia). by rewrite <-app_assoc.
Qed.

(** Where the slashes of a stopped rest end. *)
Lemma stop_split rest : clean rest → stops rest → ∃ sl s, rest = sl ++ s ∧ slashes sl ∧ clean s ∧
  (∀ r, s ≠ slash :: r) ∧ pieces rest = pieces s ∧ (rest ≠ [] → sl ≠ []).
Proof.
  intros Hc Hst. destruct (path_split rest Hc) as (sl & p & r & -> & Hsl & Hp & Hr & Hcr & Hps & Hnil).
  exists sl, (p ++ r). split_and!; [done|done| | |by apply pieces_slashes|].
  - apply Forall_app in Hc as [_ Hc]. done.
  - intros r' Hr'. destruct p as [|c p]; [by rewrite Hnil in Hr'|]. inversion Hp as [|? ? [_ ?]]; subst.
    by injection Hr' as ->.
  - intros Hne ->. destruct Hst as [?|[r' Heq]]; [done|]. destruct p as [|c p]; [by rewrite Hnil in Hne|].
    inversion Hp as [|? ? [_ ?]]; subst. by injection Heq as ->.
Qed.

Lemma cstr_app a b : cstr (a ++ b) = a ++ cstr b.
Proof. unfold cstr. by rewrite app_assoc. Qed.

Lemma cstr_length s : length (cstr s) = S (length s).
Proof. unfold cstr. rewrite length_app. simpl. lia. Qed.

(** A string that does not start with a slash: a piece, slashes, the rest. *)
Lemma next_split s :
  clean s → (∀ r, s ≠ slash :: r) → s ≠ [] →
  ∃ p sl s', s = p ++ sl ++ s' ∧ plain p ∧ p ≠ [] ∧ stops (sl ++ s') ∧ slashes sl ∧ clean s' ∧
    (∀ r, s' ≠ slash :: r) ∧ pieces s = p :: pieces s' ∧ (length s' < length s)%nat.
Proof.
  intros Hc Hns Hne. destruct (path_split s Hc) as (sl & p & rest & -> & Hsl & Hp & Hst & Hcr & Hps & Hnil).
  destruct sl as [|c sl]; [|inversion Hsl; subst; by destruct (Hns (sl ++ p ++ rest))].
  destruct (decide (p = [])) as [->|Hp0]; [by rewrite Hnil in Hne|].
  destruct (stop_split rest Hcr Hst) as (sl & s' & -> & Hsl' & Hc' & Hns' & Hps' & _).
  exists p, sl, s'. split_and!; try done; [by rewrite Hps, Hps'|].
  rewrite !length_app. destruct p; [done|simpl; lia].
Qed.

Lemma rd_first pre c s : (pre ++ cstr (c :: s)).[Z.of_nat (length pre)] = Done c.
Proof. apply rd_middle. Qed.

Lemma rd_end pre : (pre ++ cstr []).[Z.of_nat (length pre)] = Done 0.
Proof. apply rd_middle. Qed.

Lemma count_levels_loop_spec fuel pre s total :
  clean s → (∀ r, s ≠ slash :: r) → (length s < fuel)%nat →
  count_levels_loop fuel (pre ++ cstr s) (Z.of_nat (length pre)) total =
    Done (total + Z.of_nat (length (pieces s))).
Proof.
  revert pre s total. induction fuel as [|fuel IH]; intros pre s total Hc Hns Hf; [lia|].
  cbn [count_levels_loop]. destruct s as [|c s]; [rewrite rd_end; simpl; f_equal; lia|].
  rewrite rd_first. cbn [mbind outcome_bind]. inversion Hc; subst. destruct (Z.eqb_spec c 0); [lia|].
  destruct (next_split (c :: s)) as (p & sl & s' & Hs & Hp & Hp0 & Hst & Hsl & Hc' & Hns' & Hps & Hlen); [done..|].
  rewrite Hps, Hs, cstr_app, skip_piece_spec by (done || rewrite ?length_app, ?cstr_length; lia). simpl.
  rewrite cstr_app, app_assoc, skip_slashes_spec by (done || rewrite ?length_app, ?cstr_length; lia). simpl.
  rewrite app_assoc, IH by (done || lia). f_equal. lia.
Qed.

Lemma count_levels_spec s : clean s → count_levels (cstr s) = Done (Z.of_nat (length (pieces s))).
Proof.
  intros Hc. unfold count_levels.
  destruct (path_split s Hc) as (sl & p & rest & -> & Hsl & Hp & Hst & Hcr & Hps & Hnil).
  assert (Hns : ∀ r, p ++ rest ≠ slash :: r).
  { intros r Hr. destruct p as [|c p]; [by rewrite Hnil in Hr|]. inversion Hp as [|? ? [_ ?]]; subst. by injection Hr as ->. }
  rewrite !cstr_app, <-(cstr_app p rest).
  pose proof (skip_slashes_spec (length (sl ++ cstr (p ++ rest))) [] sl (p ++ rest) Hsl) as Hsk.
  change (Z.of_nat (length (@nil Z))) with 0 in Hsk. rewrite !app_nil_l in Hsk.
  rewrite Hsk by (done || rewrite ?length_app, ?cstr_length; lia). simpl.
  rewrite count_levels_loop_spec by (done || (by apply Forall_app in Hc as [_ ?]) || rewrite ?length_app, ?cstr_length, ?length_app; lia).
  rewrite (pieces_slashes sl) by done. f_equal.
Qed.

(** ** The walker *)

(** [w] stands before the suffix [suf] of its path. *)
Definition before (w : Walker) (suf : list Z) : Prop :=
  clean suf ∧ Z.of_nat (length (m_buffer w)) = MAX_FILENAME_LEN ∧ m_too_long w = false ∧
  ∃ pre, m_path w = pre ++ cstr suf ∧ m_index w = Z.of_nat (length pre).

Lemma piece_loop_spec fuel pre p rest done_ buffer :
  plain p → stops rest → (length p < fuel)%nat →
  Z.of_nat (length buffer) = MAX_FILENAME_LEN → take (length done_) buffer = done_ →
  Z.of_nat (length done_) + Z.of_nat (length p) < MAX_FILENAME_LEN →
  ∃ buffer', piece_loop fuel (pre ++ p ++ cstr rest) buffer (Z.of_nat (length pre)) (Z.of_nat (length done_)) =
      Done (Some (Z.of_nat (length (pre ++ p)), Z.of_nat (length (done_ ++ p))), buffer') ∧
    Z.of_nat (length buffer') = MAX_FILENAME_LEN ∧ take (length (done_ ++ p)) buffer' = done_ ++ p.
Proof.
  unfold MAX_FILENAME_LEN.
  intros Hp Hst. revert fuel pre done_ buffer. induction Hp as [|c p [Hc Hcs] Hp IH];
    intros fuel pre done_ buffer Hf Hb Htk Hlen; (destruct fuel as [|fuel]; [simpl in *; lia|]); simpl piece_loop.
  - exists buffer. destruct (rd_stop pre rest Hst) as (c & Hrd & Hc & _). rewrite !app_nil_r. simpl app.
    rewrite Hrd. simpl. by destruct Hc as [-> | ->].
  - simpl app. rewrite rd_middle. simpl. destruct (Z.eqb_spec c 0), (Z.eqb_spec c slash); try lia. simpl.
    simpl in Hlen. unfold MAX_FILENAME_LEN. destruct (Z.geb_spec (Z.of_nat (length done_)) (256 - 1)); [lia|].
    rewrite wr_in_range by lia. simpl.
    replace (pre ++ c :: p ++ cstr rest) with ((pre ++ [c]) ++ p ++ cstr rest) by (by rewrite <-app_assoc).
    replace (Z.of_nat (length pre) + 1) with (Z.of_nat (length (pre ++ [c]))) by (rewrite length_app; simpl; lia).
    replace (Z.of_nat (length done_) + 1) with (Z.of_nat (length (done_ ++ [c]))) by (rewrite length_app; simpl; lia).
    destruct (IH fuel (pre ++ [c]) (done_ ++ [c]) (<[Z.to_nat (Z.of_nat (length done_)) := c]> buffer)) as (b' & Hrun & Hb' & Htk').
    + simpl in Hf. lia.
    + by rewrite length_insert.
    + rewrite length_app, Nat2Z.id. simpl. rewrite Nat.add_1_r, (take_S_r _ _ c) by (apply list_lookup_insert_eq; lia).
      by rewrite take_insert_ge, Htk by lia.
    + rewrite length_app. simpl. lia.
    + exists b'. rewrite Hrun, <-!app_assoc. rewrite <-app_assoc in Htk'. done.
Qed.

(** A piece that is too long stops the loop. *)
Lemma piece_loop_long fuel pre p rest (done_ : list Z) buffer :
  plain p → (length p < fuel)%nat → Z.of_nat (length buffer) = MAX_FILENAME_LEN →
  Z.of_nat (length done_) < MAX_FILENAME_LEN ≤ Z.of_nat (length done_) + Z.of_nat (length p) →
  ∃ buffer', piece_loop fuel (pre ++ p ++ cstr rest) buffer (Z.of_nat (length pre)) (Z.of_nat (length done_)) =
    Done (None, buffer').
Proof.
  unfold MAX_FILENAME_LEN.
  intros Hp. revert fuel pre done_ buffer. induction Hp as [|c p [Hc Hcs] Hp IH];
    intros fuel pre done_ buffer Hf Hb Hlen; [simpl in *; lia|]. destruct fuel as [|fuel]; [simpl in *; lia|].
  simpl piece_loop. simpl app. rewrite rd_middle. simpl. destruct (Z.eqb_spec c 0), (Z.eqb_spec c slash); try lia. simpl.
  unfold MAX_FILENAME_LEN. destruct (Z.geb_spec (Z.of_nat (length done_)) (256 - 1)); [eauto|].
  rewrite wr_in_range by lia. simpl.
  replace (pre ++ c :: p ++ cstr rest) with ((pre ++ [c]) ++ p ++ cstr rest) by (by rewrite <-app_assoc).
  replace (Z.of_nat (length pre) + 1) with (Z.of_nat (length (pre ++ [c]))) by (rewrite length_app; simpl; lia).
  replace (Z.of_nat (length done_) + 1) with (Z.of_nat (length (done_ ++ [c]))) by (rewrite length_app; simpl; lia).
  apply IH; [simpl in Hf; lia|by rewrite length_insert|rewrite length_app; simpl in *; lia].
Qed.

(** What [next] does before the suffix [suf]. *)
Lemma next_spec w suf :
  before w suf →
  match pieces suf with
  | [] => ∃ w', next w = Done (None, w') ∧ m_level w' = m_level w ∧ m_levels w' = m_levels w ∧ m_too_long w' = false
  | p :: ps =>
      if Z.of_nat (length p) <? MAX_FILENAME_LEN then
        ∃ w' rest suf', next w = Done (Some (p ++ 0 :: rest), w') ∧ before w' suf' ∧ pieces suf' = ps ∧
          plain p ∧ p ≠ [] ∧ m_level w' = m_level w + 1 ∧ m_levels w' = m_levels w ∧
          (length suf' < length suf)%nat
      else ∃ w', next w = Done (None, w') ∧ m_too_long w' = true
  end.
Proof.
  intros (Hc & Hb & Htl & pre & Hpath & Hidx). unfold next. rewrite Hpath, Hidx, Htl.
  destruct (path_split suf Hc) as (sl & p & rest & -> & Hsl & Hp & Hst & Hcr & -> & Hnil).
  destruct (decide (sl ++ p ++ rest = [])) as [He|Hne].
  { rewrite He. apply app_eq_nil in He as [_ [-> _]%app_eq_nil]. rewrite rd_end. simpl. eexists; by split_and!. }
  assert (∃ c, (pre ++ cstr (sl ++ p ++ rest)).[Z.of_nat (length pre)] = Done c ∧ c ≠ 0) as (c & -> & Hc0).
  { destruct (sl ++ p ++ rest) as [|c s]; [done|]. exists c. split; [apply rd_first|]. inversion Hc; lia. }
  cbn [mbind outcome_bind]. destruct (Z.eqb_spec c 0); [done|]. cbn [orb].
  assert (Hns : ∀ r, p ++ rest ≠ slash :: r).
  { intros r Hr. destruct p as [|d p]; [by rewrite Hnil in Hr|]. inversion Hp as [|? ? [_ ?]]; subst. by injection Hr as ->. }
  rewrite cstr_app, skip_slashes_spec by (done || rewrite ?length_app, ?cstr_length; lia). cbn [mbind outcome_bind].
  rewrite cstr_app, app_assoc. set (pre' := pre ++ sl).
  assert (Hfuel : (length p < length (pre' ++ p ++ cstr rest))%nat) by (rewrite !length_app, cstr_length; lia).
  assert (Hrest : clean rest) by done.
  destruct (Z.ltb_spec (Z.of_nat (length p)) MAX_FILENAME_LEN) as [Hlt|Hge].
  - destruct (piece_loop_spec (length (pre' ++ p ++ cstr rest)) pre' p rest [] (m_buffer w)) as (b & Hrun & Hlb & Htk);
      [done..|simpl; lia|]. rewrite app_nil_l in *. change (Z.of_nat (length (@nil Z))) with 0 in Hrun. rewrite Hrun. cbn [mbind outcome_bind].
    destruct (decide (p = [])) as [->|Hp0].
    { simpl. eexists; by split_and!. }
    destruct (Z.eqb_spec (Z.of_nat (length p)) 0) as [H0|_]; [destruct p; [done|simpl in H0; lia]|].
    destruct (Z.ltb_spec (Z.of_nat (length p)) MAX_FILENAME_LEN) as [_|]; [|lia].
    unfold MAX_FILENAME_LEN in *. rewrite wr_in_range by lia. cbn [mbind outcome_bind].
    rewrite Nat2Z.id, insert_take_drop, Htk by lia.
    eexists _, _, rest. split_and!; [done| |done|done|done|done|done|].
    + split_and!; [done| |done|]; cbn [m_buffer m_path m_index].
      * rewrite length_app. simpl. rewrite length_drop. unfold MAX_FILENAME_LEN. lia.
      * exists (pre' ++ p). split; [by rewrite <-app_assoc|done].
    + rewrite !length_app. destruct p; [done|simpl; lia].
  - destruct (piece_loop_long (length (pre' ++ p ++ cstr rest)) pre' p rest [] (m_buffer w)) as (b & Hrun);
      [done..|unfold MAX_FILENAME_LEN in *; simpl; lia|]. change (Z.of_nat (length (@nil Z))) with 0 in Hrun. rewrite Hrun. cbn [mbind outcome_bind].
    destruct (decide (p = [])) as [->|Hp0]; [unfold MAX_FILENAME_LEN in *; simpl in *; lia|].
    destruct (Z.ltb_spec (Z.of_nat (length p)) MAX_FILENAME_LEN); [lia|]. eexists; by split_and!.
Qed.

(** Calling [next] until it returns a null pointer: the pieces and the walker. *)
Fixpoint walk (fuel : nat) (w : Walker) : outcome (list (list Z) * Walker) :=
  match fuel with
  | O => Fault
  | S fuel =>
      '(p, w) ← next w;
      match p with
      | None => Done ([], w)
      | Some b => t ← text_of b; '(ps, w) ← walk fuel w; Done (t :: ps, w)
      end
  end.

Lemma walker_before s : clean s → ∃ w, walker (cstr s) = Done w ∧ before w s ∧
  m_level w = 0 ∧ m_levels w = Z.of_nat (length (pieces s)).
Proof.
  intros Hc. unfold walker. rewrite count_levels_spec by done. eexists. split_and!; [done| |done|done].
  split_and!; [done|reflexivity|done|]. by exists [].
Qed.

Lemma plain_text p : plain p → text p.
Proof. intros Hp. eapply Forall_impl; [exact Hp|]. by intros c [? _]. Qed.

Lemma walk_spec fuel w suf :
  before w suf → (length suf < fuel)%nat → Forall (λ p, Z.of_nat (length p) < MAX_FILENAME_LEN) (pieces suf) →
  ∃ w', walk fuel w = Done (pieces suf, w') ∧ m_level w' = m_level w + Z.of_nat (length (pieces suf)) ∧
    m_levels w' = m_levels w ∧ m_too_long w' = false.
Proof.
  revert w suf. induction fuel as [|fuel IH]; intros w suf Hb Hf Hall; [lia|].
  pose proof (next_spec w suf Hb) as Hn. simpl. destruct (pieces suf) as [|p ps].
  { destruct Hn as (w' & -> & Hl & Hls & Ht). simpl. exists w'. split_and!; [done|lia|done|done]. }
  inversion Hall as [|? ? Hp Hps]; subst.
  destruct (Z.ltb_spec (Z.of_nat (length p)) MAX_FILENAME_LEN); [|lia].
  destruct Hn as (w' & rest & suf' & -> & Hb' & Hps' & Hpl & Hp0 & Hl & Hls & Hlen). cbn [mbind outcome_bind].
  rewrite text_of_text by (by apply plain_text). cbn [mbind outcome_bind].
  destruct (IH w' suf' Hb') as (w2 & -> & Hl2 & Hls2 & Ht2); [lia|by rewrite Hps'|].
  cbn [mbind outcome_bind]. exists w2. rewrite Hps' in *. split_and!; [done|simpl; lia|congruence|done].
Qed.

(** A walker over any path whose pieces fit its buffer yields
    the path's pieces in order and then a null pointer; its level counts them,
    and it reports the final piece exactly when all were taken. *)
Lemma walker_enumerates s :
  clean s → Forall (λ p, Z.of_nat (length p) < MAX_FILENAME_LEN) (pieces s) →
  ∃ w w', walker (cstr s) = Done w ∧ walk (S (length s)) w = Done (pieces s, w') ∧
    m_level w' = Z.of_nat (length (pieces s)) ∧ isFinal w' = true ∧ m_too_long w' = false.
Proof.
  intros Hc Hall. destruct (walker_before s Hc) as (w & Hw & Hb & Hl & Hls).
  destruct (walk_spec (S (length s)) w s Hb) as (w' & Hk & Hl' & Hls' & Ht); [lia|done|].
  exists w, w'. split_and!; [done|done|lia| |done]. unfold isFinal. apply Z.eqb_eq. lia.
Qed.

(** ** [is_valid] *)

Lemma valid_piece_spec fuel pre p rest chars :
  plain p → stops rest → (length p < fuel)%nat → 0 ≤ chars →
  valid_piece fuel (pre ++ p ++ cstr rest) (Z.of_nat (length pre)) chars =
    Done (if decide (p = []) then Some (Z.of_nat (length pre), chars)
          else if chars + Z.of_nat (length p) <=? MAX_FILENAME_LEN - 1
          then Some (Z.of_nat (length (pre ++ p)), chars + Z.of_nat (length p)) else None).
Proof.
  intros Hp Hst. revert fuel pre chars. induction Hp as [|c p [Hc Hcs] Hp IH]; intros fuel pre chars Hf Hch;
    (destruct fuel as [|fuel]; [simpl in *; lia|]); cbn [valid_piece].
  - destruct (rd_stop pre rest Hst) as (c & Hrd & Hc & _). rewrite app_nil_l, Hrd. simpl. by destruct Hc as [-> | ->].
  - rewrite decide_False by done. change ((c :: p) ++ cstr rest) with (c :: p ++ cstr rest). rewrite rd_middle. cbn [mbind outcome_bind].
    destruct (Z.eqb_spec c 0), (Z.eqb_spec c slash); try lia. cbn [negb andb].
    replace (pre ++ c :: p ++ cstr rest) with ((pre ++ [c]) ++ p ++ cstr rest) by (by rewrite <-app_assoc).
    replace (Z.of_nat (length pre) + 1) with (Z.of_nat (length (pre ++ [c]))) by (rewrite length_app; simpl; lia).
    rewrite Z.geb_leb. unfold MAX_FILENAME_LEN in *. cbn [length] in *.
    destruct (Z.leb_spec (256 - 1) chars) as [Hge|Hlt].
    + by destruct (Z.leb_spec (chars + Z.of_nat (S (length p))) (256 - 1)); [lia|].
    + rewrite IH by lia. rewrite <-app_assoc. simpl app.
      destruct (decide (p = [])) as [->|Hp0]; simpl.
      * change (Z.of_nat 1) with 1. by destruct (Z.leb_spec (chars + 1) (256 - 1)); [|lia].
      * replace (chars + 1 + Z.of_nat (length p)) with (chars + Z.of_nat (S (length p))) by lia. done.
Qed.

Lemma is_valid_loop_spec fuel pre s chars :
  clean s → (∀ r, s ≠ slash :: r) → (length s < fuel)%nat → 0 ≤ chars ≤ 255 →
  is_valid_loop fuel (pre ++ cstr s) (Z.of_nat (length pre)) chars =
    Done (chars + Z.of_nat (length (concat (pieces s))) <=? 255).
Proof.
  revert pre s chars. induction fuel as [|fuel IH]; intros pre s chars Hc Hns Hf Hch; [lia|].
  cbn [is_valid_loop]. destruct s as [|c s].
  { rewrite rd_end. simpl. f_equal. symmetry. apply Z.leb_le. lia. }
  rewrite rd_first. cbn [mbind outcome_bind]. inversion Hc; subst. destruct (Z.eqb_spec c 0); [lia|].
  destruct (next_split (c :: s)) as (p & sl & s' & Hs & Hp & Hp0 & Hst & Hsl & Hc' & Hns' & Hps & Hlen); [done..|].
  rewrite Hps, Hs, cstr_app, valid_piece_spec by (done || lia || rewrite ?length_app, ?cstr_length; lia).
  rewrite decide_False by done. cbn [mbind outcome_bind concat]. rewrite (length_app p (concat _)). unfold MAX_FILENAME_LEN.
  destruct (Z.leb_spec (chars + Z.of_nat (length p)) (256 - 1)).
  - cbv beta iota. rewrite cstr_app, app_assoc, skip_slashes_spec by (done || rewrite ?length_app, ?cstr_length; lia).
    cbn [mbind outcome_bind]. rewrite app_assoc, IH by (done || lia). do 2 f_equal. lia.
  - cbv beta iota. f_equal. symmetry. apply Z.leb_gt. lia.
Qed.

(** Deviation: [is_valid] accepts a path exactly when it starts
    with a slash, is shorter than [MAX_PATH_LEN - 1], and its pieces have at most
    255 characters together: the counter of one piece is never reset, so a path
    of short pieces is rejected once they add up. *)
Lemma is_valid_bounds_the_sum s :
  clean s → Z.of_nat (length s) < 2 ^ 31 →
  is_valid (cstr s) =
    Done ((Z.of_nat (length s) + 1 <? MAX_PATH_LEN) &&
          match s with c :: _ => c =? slash | [] => false end &&
          (Z.of_nat (length (concat (pieces s))) <=? 255)).
Proof.
  intros Hc Hmax. unfold is_valid, check_length.
  change (strlen (cstr s)) with (strlen (s ++ 0 :: [])). rewrite strlen_text by done.
  cbn [mbind outcome_bind]. rewrite wrap_small by lia.
  destruct (Z.of_nat (length s) + 1 <? MAX_PATH_LEN); [|done]. cbn [negb andb].
  destruct s as [|c s]; [done|]. pose proof (rd_first [] c s) as Hrd. change (Z.of_nat (length (@nil Z))) with 0 in Hrd.
  rewrite app_nil_l in Hrd. rewrite Hrd. cbn [mbind outcome_bind].
  destruct (Z.eqb_spec c slash) as [->|]; [|done]. cbn [negb andb].
  inversion Hc as [|? ? _ Hc']; subst.
  assert (Hst : ∃ sl s', s = sl ++ s' ∧ slashes sl ∧ clean s' ∧ (∀ r, s' ≠ slash :: r) ∧ pieces s = pieces s').
  { destruct (stop_split (slash :: s)) as (sl & s' & Heq & Hsl & Hcs & Hns & Hps & Hne); [done|right; eauto|].
    destruct sl as [|d sl]; [by destruct (Hne ltac:(done))|]. inversion Hsl as [|? ? -> Hsl']; subst. injection Heq as ->.
    exists sl, s'. split_and!; [done|done|done|done|]. exact Hps. }
  destruct Hst as (sl & s' & -> & Hsl & Hcs & Hns & Hps).
  change (slash :: sl ++ s') with ([slash] ++ sl ++ s'). rewrite !cstr_app.
  change 1 with (Z.of_nat (length [slash])) at 1.
  rewrite skip_slashes_spec by (done || rewrite ?length_app, ?cstr_length; simpl; lia). cbn [mbind outcome_bind].
  rewrite app_assoc, is_valid_loop_spec by (done || lia || rewrite ?length_app, ?cstr_length; simpl; lia).
  rewrite Z.add_0_l. do 5 f_equal. exact (eq_sym Hps).
Qed.

(** ** [canonize_path] *)

(** The reference: a stack of pieces. *)
Definition apply_piece (st : list (list Z)) (p : list Z) : list (list Z) :=
  if decide (p = lit ".") then st
  else if decide (p = lit "..") then removelast st
  else st ++ [p].
Definition canon_stack (st ps : list (list Z)) : list (list Z) := fold_left apply_piece ps st.

Definition render_stack (st : list (list Z)) : list Z := concat ((λ p, slash :: p) <$> st).
Definition wide (ps : list (list Z)) : Z := Z.of_nat (length (render_stack ps)).

Lemma render_app st p : render_stack (st ++ [p]) = render_stack st ++ slash :: p.
Proof. unfold render_stack. by rewrite fmap_app, concat_app; simpl; rewrite app_nil_r. Qed.

Lemma wide_cons p ps : wide (p :: ps) = 1 + Z.of_nat (length p) + wide ps.
Proof. unfold wide, render_stack. cbn [fmap list_fmap concat]. rewrite length_app. cbn [length]. lia. Qed.

Lemma wide_app st p : wide (st ++ [p]) = wide st + 1 + Z.of_nat (length p).
Proof. unfold wide. rewrite render_app, length_app. cbn [length]. lia. Qed.

(** The buffer holds the stack up to [index]; behind a stack that is not empty
    there is a NUL, and a slash at the start of the buffer otherwise. *)
Definition holds (buffer : list Z) (index len : Z) (st : list (list Z)) : Prop :=
  index = wide st ∧ index ≤ len ∧ len < Z.of_nat (length buffer) ∧
  take (Z.to_nat index) buffer = render_stack st ∧ Forall (λ p, plain p ∧ p ≠ []) st ∧
  buffer !! Z.to_nat index = Some (if decide (st = []) then slash else 0).

Lemma up_spec n buffer index k :
  Z.of_nat n = index → 0 ≤ k ≤ index →
  (∀ j, k < j ≤ index → ∃ c, buffer !! Z.to_nat j = Some c ∧ c ≠ slash) →
  (k = 0 ∨ buffer !! Z.to_nat k = Some slash) → up n buffer index = Done k.
Proof.
  revert index. induction n as [|n IH]; intros index Hn Hk Hj Hs; simpl; [f_equal; lia|].
  destruct (decide (k = index)) as [->|Hne].
  - destruct Hs as [|Hs]; [lia|]. by rewrite (proj2 (rd_Done buffer index slash)) by (split; [lia|done]).
  - destruct (Hj index) as (c & Hc & Hcs); [lia|].
    rewrite (proj2 (rd_Done buffer index c)) by (split; [lia|done]). simpl.
    destruct (Z.eqb_spec c slash); [done|]. apply IH; [lia|lia| |done]. intros j Hjj. apply Hj. lia.
Qed.

Lemma holds_lookup buffer index len st i :
  holds buffer index len st → (i < length (render_stack st))%nat → buffer !! i = render_stack st !! i.
Proof.
  intros (-> & _ & _ & Htk & _) Hi. rewrite <-Htk, lookup_take_lt; [done|]. unfold wide. lia.
Qed.

(** [..] on a stack that is not empty, and on the empty one. *)
Lemma up_pop buffer index len st p :
  holds buffer index len (st ++ [p]) → up (Z.to_nat index) buffer index = Done (wide st) ∧
  buffer !! Z.to_nat (wide st) = Some slash.
Proof.
  intros Hh. pose proof Hh as (Hi & Hle & Hlen & Htk & Hall & Hend). rewrite wide_app in Hi.
  apply Forall_app in Hall as [_ [[Hp Hp0] _]%Forall_cons].
  assert (Hlk : ∀ i, (i ≤ length p)%nat → buffer !! Z.to_nat (wide st + Z.of_nat i) = (slash :: p) !! i).
  { intros i Hil. rewrite (holds_lookup _ _ _ _ _ Hh) by (rewrite render_app, length_app; unfold wide; simpl; lia).
    rewrite render_app, lookup_app_r by (unfold wide; lia). f_equal. unfold wide. lia. }
  assert (Hsl : buffer !! Z.to_nat (wide st) = Some slash).
  { specialize (Hlk 0%nat ltac:(lia)). by rewrite Z.add_0_r in Hlk. }
  split; [|done]. apply up_spec; [unfold wide in *; lia|unfold wide in *; lia| |by right].
  intros j Hj. destruct (decide (j = index)) as [->|Hne].
  - exists 0. rewrite Hend, decide_False by (by destruct st). done.
  - specialize (Hlk (Z.to_nat (j - wide st)) ltac:(lia)).
    replace (wide st + Z.of_nat (Z.to_nat (j - wide st))) with j in Hlk by lia.
    destruct (lookup_lt_is_Some_2 (slash :: p) (Z.to_nat (j - wide st))) as [c Hc]; [simpl; lia|].
    exists c. rewrite Hlk. split; [done|].
    destruct (Z.to_nat (j - wide st)) as [|i] eqn:E; [lia|]. simpl in Hc.
    by destruct (Forall_lookup_1 _ _ _ _ Hp Hc) as [_ ?].
Qed.

Lemma holds_pop buffer index len st p :
  holds buffer index len (st ++ [p]) → st ≠ [] → holds (<[Z.to_nat (wide st) := 0]> buffer) (wide st) len st.
Proof.
  intros Hh Hne. pose proof Hh as (Hi & Hle & Hlen & Htk & Hall & Hend). rewrite wide_app in Hi.
  apply Forall_app in Hall as [Hall _]. split_and!; [done|unfold wide in *; lia|by rewrite length_insert| |done|].
  - rewrite take_insert_ge by lia. rewrite render_app, Hi in Htk.
    apply (f_equal (take (Z.to_nat (wide st)))) in Htk. rewrite take_take, Nat.min_l in Htk by lia.
    rewrite Htk. unfold wide. rewrite Nat2Z.id. apply take_app_length.
  - rewrite decide_False by done. apply list_lookup_insert_eq. unfold wide in *. lia.
Qed.

Lemma holds_pop_root buffer index len p :
  holds buffer index len [p] → holds buffer 0 len [].
Proof.
  intros Hh. destruct (up_pop buffer index len [] p Hh) as [_ Hs].
  destruct Hh as (Hi & Hle & Hlen & _). split_and!; try done; unfold wide in *; lia.
Qed.

(** The stores of a push. *)
Lemma holds_push buffer index len st p rest :
  holds buffer index len st → plain p → p ≠ [] → Z.of_nat (length p) < MAX_FILENAME_LEN →
  wide st + 1 + Z.of_nat (length p) ≤ len →
  ∃ buffer', (buffer ← buffer.[index := slash]; buffer ← strncpy_at buffer (index + 1) (p ++ 0 :: rest) MAX_PATH_LEN;
      buffer.[index + 1 + Z.of_nat (length p) := 0]) = Done buffer' ∧
    holds buffer' (index + 1 + Z.of_nat (length p)) len (st ++ [p]).
Proof.
  intros (Hi & Hle & Hlen & Htk & Hall & _) Hp Hp0 Hpl Hfit. unfold MAX_FILENAME_LEN in Hpl.
  assert (Hi0 : 0 ≤ index) by (unfold wide in Hi; lia). pose proof (plain_text p Hp) as Ht.
  rewrite wr_in_range by lia. cbn [mbind outcome_bind]. unfold strncpy_at, MAX_PATH_LEN.
  rewrite strncpy_text by (done || lia || (rewrite length_drop, length_insert; lia)).
  cbn [mbind outcome_bind]. replace (Z.to_nat (index + 1)) with (S (Z.to_nat index)) by lia.
  rewrite (take_S_r _ _ slash) by (apply list_lookup_insert_eq; lia). rewrite take_insert_ge, Htk by lia.
  set (b1 := (render_stack st ++ [slash]) ++ p ++ 0 :: _).
  assert (Hb1 : b1 = render_stack (st ++ [p]) ++ 0 :: drop (S (length p)) (drop (S (Z.to_nat index)) (<[Z.to_nat index := slash]> buffer)))
    by (unfold b1; rewrite render_app, <-!app_assoc; done).
  pose proof (wide_app st p) as Hw.
  assert (Hl : Z.of_nat (length (render_stack (st ++ [p]))) = index + 1 + Z.of_nat (length p)) by (unfold wide in Hw; unfold wide in Hi; lia).
  assert (Hlb : length b1 = length buffer).
  { rewrite Hb1, length_app. cbn [length]. rewrite !length_drop, length_insert. lia. }
  rewrite wr_in_range by lia. eexists. split; [done|].
  split_and!; [unfold wide in *; lia|unfold wide in *; lia|by rewrite length_insert, Hlb| | |].
  - rewrite take_insert_ge, Hb1 by lia. rewrite <-Hl, Nat2Z.id. apply take_app_length.
  - apply Forall_app. split; [done|]. by apply Forall_singleton.
  - rewrite decide_False by (by destruct st). apply list_lookup_insert_eq. lia.
Qed.

Lemma strcmp_piece p rest s : plain p → text s →
  ∃ z, strcmp (p ++ 0 :: rest) (cstr s) = Done z ∧ (z = 0 ↔ p = s).
Proof. intros Hp Hs. apply strcmp_text; [by apply plain_text|done]. Qed.

Lemma apply_dot st p : p = lit "." → apply_piece st p = st.
Proof. intros. unfold apply_piece. by rewrite decide_True. Qed.
Lemma apply_dots st p : p ≠ lit "." → p = lit ".." → apply_piece st p = removelast st.
Proof. intros. unfold apply_piece. by rewrite decide_False, decide_True. Qed.
Lemma apply_push st p : p ≠ lit "." → p ≠ lit ".." → apply_piece st p = st ++ [p].
Proof. intros. unfold apply_piece. by rewrite !decide_False. Qed.
Lemma wide_nonneg ps : 0 ≤ wide ps.
Proof. unfold wide. lia. Qed.

Lemma canonize_loop_spec fuel w suf buffer index len st :
  before w suf → (length suf < fuel)%nat →
  Forall (λ p, Z.of_nat (length p) < MAX_FILENAME_LEN) (pieces suf) →
  holds buffer index len st → wide st + wide (pieces suf) ≤ len →
  ∃ buffer', let st' := canon_stack st (pieces suf) in
    canonize_loop fuel w buffer index len = Done (Some (buffer', wide st')) ∧
    holds buffer' (wide st') len st'.
Proof.
  revert w suf buffer index st. induction fuel as [|fuel IH]; intros w suf buffer index st Hb Hf Hall Hh Hfit; [lia|].
  pose proof (next_spec w suf Hb) as Hn. cbn [canonize_loop]. pose proof Hh as (Hi & _).
  destruct (pieces suf) as [|p ps].
  { destruct Hn as (w' & -> & _). cbn [mbind outcome_bind canon_stack fold_left]. exists buffer. by rewrite <-Hi. }
  inversion Hall as [|? ? Hp Hps]; subst. rewrite wide_cons in Hfit.
  destruct (Z.ltb_spec (Z.of_nat (length p)) MAX_FILENAME_LEN) as [Hpl|]; [|lia].
  destruct Hn as (w' & rest & suf' & -> & Hb' & Hps' & Hpp & Hp0 & _ & _ & Hlen). cbn [mbind outcome_bind].
  rewrite <-Hps' in Hps, Hfit. cbn [canon_stack fold_left]. fold (canon_stack (apply_piece st p) ps). rewrite <-Hps'.
  destruct (strcmp_piece p rest (lit ".")) as (z1 & -> & Hz1); [done|by vm_compute; repeat constructor|].
  cbn [mbind outcome_bind]. destruct (decide (p = lit ".")) as [Hd|Hd].
  { rewrite (apply_dot st p Hd), (proj2 Hz1 Hd). cbn [Z.eqb]. apply IH; try done; lia. }
  destruct (Z.eqb_spec z1 0) as [Hz|_]; [by apply Hz1 in Hz|].
  destruct (strcmp_piece p rest (lit "..")) as (z2 & -> & Hz2); [done|by vm_compute; repeat constructor|].
  cbn [mbind outcome_bind]. destruct (decide (p = lit "..")) as [Hdd|Hdd].
  - rewrite (apply_dots st p Hd Hdd), (proj2 Hz2 Hdd). cbn [Z.eqb]. destruct st as [|q st _] using rev_ind.
    { replace (wide []) with 0 by done. cbn [Z.to_nat up mbind outcome_bind Z.eqb removelast].
      apply IH; try done; unfold wide in *; simpl in *; lia. }
    destruct (up_pop _ _ _ _ _ Hh) as [-> Hsl]. cbn [mbind outcome_bind]. rewrite removelast_last.
    rewrite wide_app in Hfit. destruct (Z.eqb_spec (wide st) 0) as [H0|H0].
    + assert (st = []) as -> by (destruct st; [done|rewrite wide_cons in H0; unfold wide in H0; lia]).
      rewrite H0. apply IH; try done; [lia|by eapply holds_pop_root|unfold wide in *; simpl in *; lia].
    + assert (st ≠ []) by (by intros ->). pose proof Hh as (_ & Hle & Hlb & _). rewrite wide_app in Hle.
      rewrite wr_in_range by (unfold wide in *; lia). cbn [mbind outcome_bind].
      apply IH; try done; [lia| |lia]. by eapply holds_pop.
  - rewrite (apply_push st p Hd Hdd). destruct (Z.eqb_spec z2 0) as [Hz|_]; [by apply Hz2 in Hz|].
    rewrite strlen_text by (by apply plain_text). cbn [mbind outcome_bind]. rewrite Z.geb_leb.
    pose proof (wide_nonneg (pieces suf')).
    destruct (Z.leb_spec len (wide st + Z.of_nat (length p))); [lia|].
    destruct (holds_push buffer (wide st) len st p rest) as (b' & Hst & Hh'); [done..|lia|].
    apply bind_Done in Hst as (b1 & -> & Hst). cbn [mbind outcome_bind].
    apply bind_Done in Hst as (b2 & -> & Hst). cbn [mbind outcome_bind].
    rewrite Hst. cbn [mbind outcome_bind]. apply IH; try done; [lia|rewrite wide_app; lia].
Qed.

(** A canonical base path, and the stack a path starts from. *)
Definition base_text (st : list (list Z)) : list Z := if decide (st = []) then [slash] else render_stack st.
Definition start_stack (s : list Z) (st : list (list Z)) : list (list Z) :=
  match s with c :: _ => if c =? slash then [] else st | [] => st end.

Lemma render_text st : Forall (λ p, plain p ∧ p ≠ []) st → text (render_stack st).
Proof.
  intros Hall. apply Forall_concat, Forall_fmap. eapply Forall_impl; [exact Hall|].
  intros p [Hp _]. constructor; [by vm_compute|by apply plain_text].
Qed.

Lemma base_text_text st : Forall (λ p, plain p ∧ p ≠ []) st → text (base_text st).
Proof.
  intros Hall. unfold base_text. destruct (decide _); [|by apply render_text].
  by apply Forall_singleton; vm_compute.
Qed.

Lemma render_last st p : plain p → p ≠ [] →
  ∃ c, render_stack (st ++ [p]) !! (length (render_stack (st ++ [p])) - 1)%nat = Some c ∧ c ≠ slash.
Proof.
  intros Hp Hne. destruct (exists_last Hne) as (q & c & ->). exists c.
  apply Forall_app in Hp as [_ [[_ Hc] _]%Forall_cons]. split; [|done].
  rewrite render_app. change (slash :: q ++ [c]) with ((slash :: q) ++ [c]). rewrite app_assoc.
  apply list_lookup_middle. rewrite length_app. simpl. lia.
Qed.

Lemma canonize_start_spec s st0 buffer len :
  clean s → s ≠ [] → Forall (λ p, plain p ∧ p ≠ []) st0 → 1 ≤ len → wide st0 ≤ len →
  Z.of_nat (length buffer) = len + 1 → buffer !! 0%nat = Some slash →
  ∃ buffer' index, canonize_start (cstr s) (cstr (base_text st0)) buffer len = Done (Some (buffer', index)) ∧
    holds buffer' index len (start_stack s st0).
Proof.
  intros Hc Hne Hall Hlen Hw Hlb Hb0. unfold canonize_start.
  pose proof (base_text_text st0 Hall) as Hbt. pose proof (strlen_text (base_text st0) [] Hbt) as Hsl.
  change (base_text st0 ++ 0 :: []) with (cstr (base_text st0)) in Hsl. rewrite Hsl. cbn [mbind outcome_bind].
  destruct s as [|c s]; [done|]. pose proof (rd_first [] c s) as Hrd.
  change (Z.of_nat (length (@nil Z))) with 0 in Hrd. rewrite app_nil_l in Hrd. rewrite Hrd. cbn [mbind outcome_bind start_stack].
  assert (Hbl : 1 ≤ Z.of_nat (length (base_text st0)) ≤ len).
  { unfold base_text. destruct (decide _); [simpl; lia|]. unfold wide in Hw. split; [|done].
    destruct st0 as [|q st0]; [done|]. unfold render_stack. simpl. rewrite ?length_app. lia. }
  destruct (Z.gtb_spec (Z.of_nat (length (base_text st0))) 0); [|lia]. cbn [andb].
  destruct (Z.eqb_spec c slash) as [->|Hcs]; cbn [negb].
  { exists buffer, 0. split; [done|]. split_and!; try done; try (unfold wide; simpl; lia). }
  destruct (Z.gtb_spec (Z.of_nat (length (base_text st0))) len); [lia|].
  rewrite get_eq by (rewrite ?cstr_length; lia). cbn [mbind outcome_bind]. rewrite Z2Nat.inj_0, drop_0, Nat2Z.id.
  unfold cstr. rewrite take_app_length, put_eq by lia. cbn [mbind outcome_bind].
  rewrite Z2Nat.inj_0, take_0, app_nil_l. simpl Nat.add.
  set (n := length (base_text st0)) in *. rewrite wr_in_range by (rewrite length_app, length_drop; lia).
  cbn [mbind outcome_bind]. rewrite Nat2Z.id. set (b1 := <[n := 0]> _).
  assert (Hlb1 : length b1 = length buffer) by (unfold b1; rewrite length_insert, length_app, length_drop; lia).
  assert (Hlk : ∀ i, (i < n)%nat → b1 !! i = base_text st0 !! i)
    by (intros i Hi; unfold b1; rewrite list_lookup_insert_ne by lia; by apply lookup_app_l).
  assert (Hn0 : b1 !! n = Some 0) by (unfold b1; apply list_lookup_insert_eq; rewrite length_app, length_drop; lia).
  assert (Htk : take n b1 = base_text st0) by (unfold b1; rewrite take_insert_ge by lia; apply take_app_length).
  destruct st0 as [|q st0 _] using rev_ind.
  { change n with 1%nat in *. specialize (Hlk 0%nat ltac:(lia)).
    rewrite (proj2 (rd_Done b1 _ slash)) by (split; [done|exact Hlk]). cbn [mbind outcome_bind Z.eqb].
    exists b1, 0. split; [done|].
    split_and!; [done|lia|lia|done|apply Forall_nil_2|exact Hlk]. }
  assert (Hbe : base_text (st0 ++ [q]) = render_stack (st0 ++ [q])) by (unfold base_text; by rewrite decide_False by (by destruct st0)).
  pose proof Hall as [_ [[Hq Hq0] _]%Forall_cons]%Forall_app.
  destruct (render_last st0 q Hq Hq0) as (d & Hd & Hds). rewrite <-Hbe in Hd. fold n in Hd.
  rewrite (proj2 (rd_Done b1 _ d)); [|split; [lia|]; rewrite <-Hd, <-Hlk by lia; f_equal; lia].
  cbn [mbind outcome_bind]. destruct (Z.eqb_spec d slash); [done|].
  assert (Hwn : wide (st0 ++ [q]) = Z.of_nat n) by (unfold wide, n; by rewrite Hbe).
  eexists _, _. split; [done|]. split_and!; [done|lia|lia|by rewrite Nat2Z.id, Htk|done|].
  rewrite Nat2Z.id, Hn0, decide_False; [done|by destruct st0].
Qed.

Lemma holds_text buffer index len st :
  holds buffer index len st → st ≠ [] → text_of buffer = Done (render_stack st).
Proof.
  intros (Hi & _ & Hlb & Htk & Hall & Hend) Hne. rewrite decide_False in Hend by done.
  rewrite <-(take_drop_middle _ _ _ Hend), Htk. apply text_of_text. by apply render_text.
Qed.

Lemma canon_wide st ps : wide (canon_stack st ps) ≤ wide st + wide ps.
Proof.
  revert st. induction ps as [|p ps IH]; intros st; [unfold wide at 3; simpl; lia|].
  rewrite wide_cons. cbn [canon_stack fold_left]. etrans; [apply IH|].
  assert (wide (apply_piece st p) ≤ wide st + 1 + Z.of_nat (length p)); [|lia].
  unfold apply_piece. destruct (decide _); [lia|]. destruct (decide _); [|rewrite wide_app; lia].
  destruct st as [|q st _] using rev_ind; [unfold wide; simpl; lia|]. rewrite removelast_last, wide_app. lia.
Qed.

(** The two stores that end the buffer with a slash. *)
Lemma holds_slash buffer index len st :
  holds buffer index len st → index < len →
  ∃ buffer', (b ← buffer.[index := slash]; b.[index + 1 := 0]) = Done buffer' ∧
    text_of buffer' = Done (render_stack st ++ [slash]).
Proof.
  intros (Hi & _ & Hlb & Htk & Hall & _) Hlt. pose proof (wide_nonneg st).
  rewrite wr_in_range by lia. cbn [mbind outcome_bind]. rewrite wr_in_range by (rewrite length_insert; lia).
  eexists. split; [done|]. set (b := <[_ := 0]> _).
  assert (Hb0 : b !! Z.to_nat (index + 1) = Some 0) by (apply list_lookup_insert_eq; rewrite length_insert; lia).
  rewrite <-(take_drop_middle _ _ _ Hb0). replace (take (Z.to_nat (index + 1)) b) with (render_stack st ++ [slash]).
  - apply text_of_text, Forall_app. split; [by apply render_text|by apply Forall_singleton; vm_compute].
  - unfold b. rewrite take_insert_ge by lia. replace (Z.to_nat (index + 1)) with (S (Z.to_nat index)) by lia.
    rewrite (take_S_r _ _ slash) by (apply list_lookup_insert_eq; lia). by rewrite take_insert_ge, Htk by lia.
Qed.

(** [canonize_path] of a path and a canonical base: the stack
    of the base, or the empty one for an absolute path, with the path's pieces
    pushed, [.] dropped and [..] popping, printed with a leading slash each and
    a trailing one if the path has it; for a buffer that holds every piece,
    and a result that is not the root or that a trailing slash ends. *)
Lemma canonize_correct s st0 buffer buffer_len :
  clean s → s ≠ [] → Forall (λ p, plain p ∧ p ≠ []) st0 →
  Forall (λ p, Z.of_nat (length p) < MAX_FILENAME_LEN) (pieces s) →
  Z.of_nat (length buffer) = buffer_len → wide st0 + wide (pieces s) + 2 < buffer_len →
  let st := canon_stack (start_stack s st0) (pieces s) in
  let trailing := bool_decide (last s = Some slash) in
  st ≠ [] ∨ trailing = true →
  ∃ buffer', canonize_path (cstr s) (cstr (base_text st0)) buffer buffer_len = Done (Some buffer') ∧
    text_of buffer' = Done (render_stack st ++ if trailing then [slash] else []).
Proof.
  intros Hc Hne Hst0 Hall Hlb Hfit st trailing Hor. unfold canonize_path.
  pose proof (wide_nonneg st0). pose proof (wide_nonneg (pieces s)).
  destruct (Z.ltb_spec buffer_len 2); [lia|]. set (len := buffer_len - 1).
  rewrite !wr_in_range by (rewrite ?length_insert; lia). cbn [mbind outcome_bind].
  rewrite !wr_in_range by (rewrite ?length_insert; lia). cbn [mbind outcome_bind].
  rewrite !wr_in_range by (rewrite ?length_insert; lia). cbn [mbind outcome_bind].
  destruct (canonize_start_spec s st0 (<[Z.to_nat len := 0]> (<[Z.to_nat 1 := 0]> (<[Z.to_nat 0 := slash]> buffer))) len)
    as (b1 & index & -> & Hh); [done..|lia|lia|rewrite !length_insert; lia| |].
  { rewrite !list_lookup_insert_ne by lia. apply list_lookup_insert_eq. lia. }
  cbn [mbind outcome_bind]. destruct (walker_before s Hc) as (w & -> & Hb & _). cbn [mbind outcome_bind].
  assert (Hws : wide (start_stack s st0) ≤ wide st0)
    by (unfold start_stack; destruct s as [|c s]; [done|]; destruct (c =? slash); [unfold wide; simpl; lia|done]).
  destruct (canonize_loop_spec (S (length (cstr s))) w s b1 index len (start_stack s st0)) as (b2 & -> & Hh2);
    [done|rewrite cstr_length; lia|done|done|lia|]. cbn [mbind outcome_bind]. fold st in Hh2 |- *.
  unfold ends_with_slash. change (strlen (cstr s)) with (strlen (s ++ 0 :: [])).
  rewrite strlen_text by done. cbn [mbind outcome_bind].
  destruct (exists_last Hne) as (s' & c & Hs).
  assert (Hrd : (cstr s).[Z.of_nat (length s) - 1] = Done c).
  { rewrite Hs, cstr_app, length_app. replace (Z.of_nat (length s' + length [c]) - 1) with (Z.of_nat (length s')) by (simpl; lia).
    apply rd_first. }
  rewrite Hrd. cbn [mbind outcome_bind].
  assert (Htr : trailing = (c =? slash)).
  { unfold trailing. rewrite Hs, last_snoc. destruct (Z.eqb_spec c slash) as [->|]; [by apply bool_decide_true|].
    apply bool_decide_false. congruence. }
  rewrite Htr in Hor |- *. destruct (c =? slash).
  - pose proof (canon_wide (start_stack s st0) (pieces s)) as Hcw. fold st in Hcw.
    rewrite Z.geb_leb. destruct (Z.leb_spec len (wide st)); [lia|].
    destruct (holds_slash b2 (wide st) len st Hh2) as (b3 & Hb3 & Ht3); [lia|].
    apply bind_Done in Hb3 as (b' & -> & Hb3). cbn [mbind outcome_bind]. rewrite Hb3. eauto.
  - rewrite app_nil_r. exists b2. split; [done|]. eapply holds_text; [done|]. by destruct Hor.
Qed.

(** Deviation: [..] that leads to the root writes no terminator, so
    [/a/..] stays [/a]; and a base path that ends in a slash absorbs the first
    [..], so [..] from [/a/b/] stays in [/a/b]. *)
Lemma canonize_parent_ignored :
  canon "/a/.." "/" = Done (Some (lit "/a")) ∧ canon_stack [] (pieces (lit "/a/..")) = [] ∧
  canon ".." "/a/b/" = Done (Some (lit "/a/b")) ∧
  canon_stack (pieces (lit "/a/b/")) (pieces (lit "..")) = [lit "a"].
Proof. split_and!; vm_compute; reflexivity. Qed.

(** ** Witnesses *)

Lemma lit_clean : clean (lit "/usr/./lib//x/../y/").
Proof. apply (bool_decide_unpack _). vm_compute. exact I. Qed.

Lemma walker_enumerates_witness :
  ∃ w w', walker (cstr (lit "/usr/./lib//x/../y/")) = Done w ∧
    walk 20 w = Done ([lit "usr"; lit "."; lit "lib"; lit "x"; lit ".."; lit "y"], w').
Proof.
  destruct (walker_enumerates (lit "/usr/./lib//x/../y/")) as (w & w' & Hw & Hk & _);
    [apply lit_clean|apply (bool_decide_unpack _); vm_compute; exact I|].
  exists w, w'. split; [exact Hw|exact Hk].
Defined.

(** Two pieces of 200 characters: each fits, the path does not. *)
Lemma is_valid_bounds_the_sum_witness :
  is_valid (cstr (slash :: replicate 200 97 ++ slash :: replicate 200 98)) = Done false.
Proof.
  rewrite (is_valid_bounds_the_sum (slash :: replicate 200 97 ++ slash :: replicate 200 98));
    [reflexivity|apply (bool_decide_unpack _); vm_compute; exact I|reflexivity].
Defined.

Lemma canonize_correct_witness :
  ∃ b, canonize_path (cstr (lit "/usr/./lib//x/../y/")) (cstr (base_text [])) (replicate 64 1) 64 = Done (Some b) ∧
    text_of b = Done (lit "/usr/lib/y/").
Proof.
  destruct (canonize_correct (lit "/usr/./lib//x/../y/") [] (replicate 64 1) 64) as (b & Hb & Ht);
    [apply lit_clean|discriminate|apply Forall_nil_2|apply (bool_decide_unpack _); vm_compute; exact I|reflexivity|
     reflexivity|right; reflexivity|].
  exists b. split; [exact Hb|exact Ht].
Defined.

End Path.
