(* ===== verification/Net.v ===== *)
(** * Packets

    [include/aex/byte.hpp], the Internet checksum of
    [mod/core/netstack/checksum.hpp], the TCP header and
    [layer/transport/tcp.cpp], on the little-endian machine the kernel is built
    for. *)
From S2P Require Import Prelude.
Local Open Scope Z_scope.

Module Bytes.

Definition bswap16 (x : Z) : Z :=
  u16 (Z.lor (Z.shiftr (Z.land x 0xFF00) 8) (Z.shiftl x 8)).
Definition bswap32 (x : Z) : Z :=
  u32 (Z.lor (Z.lor (Z.lor (Z.shiftr (Z.land x 0xFF000000) 24) (Z.shiftr (Z.land x 0x00FF0000) 8))
                    (Z.shiftl (Z.land x 0x0000FF00) 8)) (Z.shiftl x 24)).

(** [big_endian<T>]: [operator=] on the bytes of the struct, and the conversion
    back to [T]. *)
Definition be16_set (value : Z) : list Z := le_bytes 2 (bswap16 value).
Definition be16_get (m_value : list Z) : Z := bswap16 (le_value m_value).
Definition be32_set (value : Z) : list Z := le_bytes 4 (bswap32 value).
Definition be32_get (m_value : list Z) : Z := bswap32 (le_value m_value).

Definition fromBCD (val : Z) : Z :=
  swrap 8 (Z.shiftr (Z.land val 0xF0) 1 + Z.shiftr (Z.land val 0xF0) 3 + Z.land val 0x0F).

Lemma mask_bit n k : 0 ≤ n → Z.testbit (Z.shiftl 255 n) k = (n <=? k) && (k <? n + 8).
Proof.
  intros. destruct (decide (k < 0)); [rewrite Z.testbit_neg_r by lia; lia|]. rewrite Z.shiftl_spec by lia. change 255 with (Z.ones 8).
  destruct (decide (k < n)); [rewrite Z.testbit_neg_r by lia; lia|]. rewrite Z.testbit_ones_nonneg by lia. lia.
Qed.

(** Bit [k] of a shifted byte. *)
Lemma shl_bit x n k : 0 ≤ k → Z.testbit (Z.shiftl x n) k = Z.testbit x (k - n).
Proof. intros. by apply Z.shiftl_spec. Qed.

Ltac swap_bits :=
  unfold wrap; rewrite Z.mod_pow2_bits_low by lia;
  repeat first [rewrite Z.lor_spec | rewrite mask_bit by lia | rewrite Z.land_spec |
    rewrite Z.shiftr_spec by lia | rewrite shl_bit by lia];
  repeat match goal with
  | |- context[(?a <=? ?b)%Z && (?c <? ?d)%Z] =>
      first [replace ((a <=? b) && (c <? d)) with true by lia | replace ((a <=? b) && (c <? d)) with false by lia]
  end;
  rewrite ?andb_false_r, ?andb_true_r, ?orb_false_r, ?orb_false_l.

Lemma bswap16_bit x k : 0 ≤ x < 2 ^ 16 → 0 ≤ k < 16 →
  Z.testbit (bswap16 x) k = Z.testbit x (if k <? 8 then k + 8 else k - 8).
Proof.
  intros Hx Hk. unfold bswap16. change 0xFF00 with (Z.shiftl 255 8).
  destruct (Z.ltb_spec k 8).
  - swap_bits. by rewrite (Z.testbit_neg_r x (k - 8)), orb_false_r by lia.
  - swap_bits. done.
Qed.

Lemma bswap32_bit x k : 0 ≤ x < 2 ^ 32 → 0 ≤ k < 32 →
  Z.testbit (bswap32 x) k =
  Z.testbit x (if k <? 8 then k + 24 else if k <? 16 then k + 8 else if k <? 24 then k - 8 else k - 24).
Proof.
  intros Hx Hk. unfold bswap32. change 0xFF000000 with (Z.shiftl 255 24).
  change 0x00FF0000 with (Z.shiftl 255 16). change 0x0000FF00 with (Z.shiftl 255 8).
  destruct (Z.ltb_spec k 8); [|destruct (Z.ltb_spec k 16); [|destruct (Z.ltb_spec k 24)]].
  1-3: swap_bits; rewrite (Z.testbit_neg_r x (k - 24)), ?orb_false_r by lia; done.
  swap_bits. done.
Qed.

Lemma bits_eq n a b : 0 ≤ n → 0 ≤ a < 2 ^ n → 0 ≤ b < 2 ^ n →
  (∀ k, 0 ≤ k < n → Z.testbit a k = Z.testbit b k) → a = b.
Proof.
  intros Hn Ha Hb H. apply Z.bits_inj'. intros k Hk. destruct (decide (k < n)); [apply H; lia|].
  by rewrite (high_bits n a), (high_bits n b) by lia.
Qed.

Lemma bswap16_bswap16 x : 0 ≤ x < 2 ^ 16 → bswap16 (bswap16 x) = x.
Proof.
  intros Hx. pose proof (wrap_bound 16 (Z.lor (Z.shiftr (Z.land x 0xFF00) 8) (Z.shiftl x 8)) ltac:(lia)) as Hb.
  apply (bits_eq 16); [lia|apply wrap_bound; lia|done|]. intros k Hk.
  rewrite bswap16_bit, bswap16_bit by (done || destruct (Z.ltb_spec k 8); lia).
  f_equal. destruct (Z.ltb_spec k 8); [destruct (Z.ltb_spec (k + 8) 8)|destruct (Z.ltb_spec (k - 8) 8)]; lia.
Qed.

Lemma bswap32_bswap32 x : 0 ≤ x < 2 ^ 32 → bswap32 (bswap32 x) = x.
Proof.
  intros Hx. assert (Hb : 0 ≤ bswap32 x < 2 ^ 32) by (apply wrap_bound; lia).
  apply (bits_eq 32); [lia|apply wrap_bound; lia|done|]. intros k Hk.
  rewrite bswap32_bit, bswap32_bit by (done || destruct (Z.ltb_spec k 8), (Z.ltb_spec k 16), (Z.ltb_spec k 24); lia).
  f_equal. repeat match goal with |- context[Z.ltb ?a ?b] => destruct (Z.ltb_spec a b) end; lia.
Qed.

Lemma be16_get_set v : 0 ≤ v < 2 ^ 16 → be16_get (be16_set v) = v.
Proof.
  intros. unfold be16_get, be16_set. rewrite le_value_bytes by lia.
  rewrite wrap_small by (apply wrap_bound; lia). by apply bswap16_bswap16.
Qed.

Lemma be32_get_set v : 0 ≤ v < 2 ^ 32 → be32_get (be32_set v) = v.
Proof.
  intros. unfold be32_get, be32_set. rewrite le_value_bytes by lia.
  rewrite wrap_small by (apply wrap_bound; lia). by apply bswap32_bswap32.
Qed.

End Bytes.

Module Checksum.
Import Bytes.

(** The loop of [sum_bytes] over 16-bit words; [total] is a [uint32_t]. *)
Fixpoint sum_words (n : nat) (i total : Z) (buffer : list Z) : outcome Z :=
  match n with
  | O => Done total
  | S n => w ← get buffer (2 * i) 2; sum_words n (i + 1) (u32 (total + le_value w)) buffer
  end.

Definition sum_bytes (buffer : list Z) (len : Z) : outcome Z :=
  total ← sum_words (Z.to_nat (len / 2)) 0 0 buffer;
  if Z.odd len then b ← buffer.[2 * (len / 2)]; Done (u32 (total + b)) else Done total.

(** A 32-bit [total] is below 2^16 after at most three turns. *)
Fixpoint fold (fuel : nat) (total : Z) : Z :=
  match fuel with
  | O => total
  | S fuel =>
      if Z.shiftr total 16 =? 0 then total
      else fold fuel (u32 (Z.land total 0xFFFF + Z.shiftr total 16))
  end.

Definition to_checksum (total : Z) : Z := bswap16 (u16 (Z.lnot (fold 3 total))).

(** The sum of a byte string as little-endian words, the odd byte last. *)
Fixpoint wsum (l : list Z) : Z :=
  match l with
  | a :: b :: l => a + 256 * b + wsum l
  | [a] => a
  | [] => 0
  end.

Lemma pair_ind (P : list Z → Prop) :
  P [] → (∀ a, P [a]) → (∀ a b l, P l → P (a :: b :: l)) → ∀ l, P l.
Proof.
  intros H0 H1 H2 l. enough (P l ∧ ∀ a, P (a :: l)) as [? _] by done.
  induction l as [|b l [IH1 IH2]]; [by split|]. split; [apply IH2|]. intros a. by apply H2.
Qed.

Lemma wsum_app l l' : Nat.even (length l) = true → wsum (l ++ l') = wsum l + wsum l'.
Proof.
  induction l as [|a|a b l IH] using pair_ind; intros He; simpl in *; [done|done|]. rewrite IH by done. lia.
Qed.

Lemma wsum_bound l : bytes l → 0 ≤ wsum l ≤ 32768 * Z.of_nat (length l).
Proof.
  induction l as [|a|a b l IH] using pair_ind; intros Hl; simpl wsum.
  - simpl. lia.
  - inversion Hl; subst. cbn [length]. lia.
  - inversion Hl as [|? ? Ha Hl']; subst. inversion Hl' as [|? ? Hb Hl'']; subst.
    specialize (IH Hl''). cbn [length]. lia.
Qed.

Lemma sum_words_spec l pre total rest :
  bytes l → 0 ≤ total → total + 32768 * Z.of_nat (length l) < 2 ^ 32 → Nat.even (length pre) = true →
  sum_words (Nat.div2 (length l)) (Z.of_nat (length pre) / 2) total (pre ++ l ++ rest) =
    Done (total + wsum (take (2 * Nat.div2 (length l)) l)).
Proof.
  revert pre total. induction l as [|a|a b l IH] using pair_ind; intros pre total Hl Ht Hmax Hp.
  - simpl. f_equal. lia.
  - simpl. f_equal. lia.
  - cbn [length Nat.div2 sum_words]. inversion Hl as [|? ? Ha Hl']; subst. inversion Hl' as [|? ? Hb Hl'']; subst.
    assert (He : 2 * (Z.of_nat (length pre) / 2) = Z.of_nat (length pre)).
    { apply Nat.even_spec in Hp as [m ->]. replace (Z.of_nat (2 * m)) with (Z.of_nat m * 2) by lia. rewrite Z.div_mul; lia. }
    rewrite He, get_eq by (rewrite ?length_app; cbn [length]; lia). cbn [mbind outcome_bind].
    rewrite Nat2Z.id, drop_app_length.
    change (take (Z.to_nat 2) ((a :: b :: l) ++ rest)) with [a; b]. cbn [length] in Hmax.
    rewrite !le_value_cons by done. change (le_value []) with 0.
    rewrite wrap_small by lia.
    replace (Z.of_nat (length pre) / 2 + 1) with (Z.of_nat (length (pre ++ [a; b])) / 2)
      by (rewrite length_app; cbn [length]; replace (Z.of_nat (length pre + 2)) with (Z.of_nat (length pre) + 1 * 2) by lia;
          by rewrite Z.div_add by lia).
    replace (pre ++ (a :: b :: l) ++ rest) with ((pre ++ [a; b]) ++ l ++ rest) by (by rewrite <-app_assoc).
    rewrite IH by (done || lia || (rewrite length_app, Nat.even_add, Hp; done)). f_equal.
    replace (2 * S (Nat.div2 (length l)))%nat with (S (S (2 * Nat.div2 (length l)))) by lia. simpl take. simpl wsum. lia.
Qed.

(** Words beyond the end of the buffer. *)
Lemma sum_words_fault n i total buffer :
  0 ≤ i → (0 < n)%nat → Z.of_nat (length buffer) < 2 * (i + Z.of_nat n) → sum_words n i total buffer = Fault.
Proof.
  revert i total. induction n as [|n IH]; intros i total Hi Hn Hl; [lia|]. cbn [sum_words].
  destruct (decide (2 * i + 2 ≤ Z.of_nat (length buffer))).
  - rewrite get_eq, bind_ret by lia. apply IH; lia.
  - unfold get. replace ((0 <=? 2 * i) && (0 <=? 2) && (2 * i + 2 <=? Z.of_nat (length buffer))) with false by lia. done.
Qed.

Lemma div2_nat n : Z.to_nat (Z.of_nat n / 2) = Nat.div2 n.
Proof. rewrite Nat.div2_div. change 2 with (Z.of_nat 2). by rewrite <-Nat2Z.inj_div, Nat2Z.id. Qed.

(** [sum_bytes] over the first [len] bytes. *)
Lemma sum_bytes_spec l rest :
  bytes l → Z.of_nat (length l) < 2 ^ 16 → sum_bytes (l ++ rest) (Z.of_nat (length l)) = Done (wsum l).
Proof.
  intros Hl Hlen. unfold sum_bytes. rewrite div2_nat.
  pose proof (sum_words_spec l [] 0 rest Hl ltac:(lia) ltac:(lia) eq_refl) as Hs.
  change (Z.of_nat (length (@nil Z)) / 2) with 0 in Hs. rewrite app_nil_l in Hs. rewrite Hs. cbn [mbind outcome_bind].
  assert (Hodd : Z.odd (Z.of_nat (length l)) = Nat.odd (length l)).
  { clear. induction (length l) as [|n IH]; [done|]. rewrite Nat2Z.inj_succ, Z.odd_succ, Nat.odd_succ.
    by rewrite <-Z.negb_odd, <-Nat.negb_odd, IH. }
  pose proof (Nat.div2_odd (length l)) as Hd. rewrite Hodd. destruct (Nat.odd (length l)) eqn:E.
  - simpl Nat.b2n in Hd. destruct (lookup_lt_is_Some_2 l (2 * Nat.div2 (length l))) as [b Hb]; [lia|].
    rewrite (proj2 (rd_Done (l ++ rest) _ b)).
    + cbn [mbind outcome_bind]. pose proof (take_drop_middle _ _ _ Hb) as Hm.
      rewrite drop_ge in Hm by lia. set (t := take (2 * Nat.div2 (length l)) l) in *.
      assert (Hev : Nat.even (length t) = true).
      { unfold t. rewrite length_take_le by lia. rewrite Nat.even_mul. done. }
      assert (Hw : wsum l = wsum t + b) by (rewrite <-Hm, wsum_app by done; done).
      pose proof (wsum_bound l Hl). rewrite wrap_small by lia. f_equal. lia.
    + split; [apply Z.mul_nonneg_nonneg; [lia|apply Z.div_pos; lia]|].
      replace (Z.to_nat (2 * (Z.of_nat (length l) / 2))) with (2 * Nat.div2 (length l))%nat
        by (rewrite <-div2_nat; pose proof (Z.div_pos (Z.of_nat (length l)) 2 ltac:(lia) ltac:(lia)); lia).
      by apply lookup_app_l_Some.
  - simpl Nat.b2n in Hd. rewrite take_ge by lia. f_equal; lia.
Qed.

(** ** Ones' complement *)

Lemma fold_step total : 0 ≤ total < 2 ^ 32 →
  Z.land total 0xFFFF = total mod 65536 ∧ Z.shiftr total 16 = total / 65536 ∧
  0 ≤ total mod 65536 < 65536 ∧ 0 ≤ total / 65536 < 65536 ∧ total = 65536 * (total / 65536) + total mod 65536.
Proof.
  intros Ht. change 0xFFFF with (Z.ones 16). rewrite Z.land_ones, Z.shiftr_div_pow2 by lia.
  change (2 ^ 16) with 65536. pose proof (Z.mod_pos_bound total 65536 ltac:(lia)).
  pose proof (Z.div_mod total 65536 ltac:(lia)).
  assert (0 ≤ total / 65536 < 65536) by (split; [apply Z.div_pos; lia|apply Z.div_lt_upper_bound; lia]).
  by split_and!; try lia.
Qed.

(** Folding keeps the residue modulo 65535 and ends between 1 and 65535,
    except for 0. *)
Lemma fold_spec total :
  0 ≤ total < 2 ^ 32 →
  0 ≤ fold 3 total ≤ 65535 ∧ (fold 3 total - total) mod 65535 = 0 ∧ (0 < total → 0 < fold 3 total).
Proof.
  assert (Hgen : ∀ fuel bound total, 0 ≤ total ≤ bound → bound < 2 ^ 32 →
    (bound ≤ 65535 ∨ (fuel = 1%nat ∧ bound ≤ 131070) ∨ (2 ≤ fuel)%nat) →
    0 ≤ fold fuel total ≤ 65535 ∧ (fold fuel total - total) mod 65535 = 0 ∧ (0 < total → 0 < fold fuel total)).
  { induction fuel as [|fuel IH]; intros bound t Ht Hb Hor; simpl.
    { rewrite Z.sub_diag. split_and!; [lia|lia|done|done]. }
    destruct (fold_step t) as (-> & -> & Hm & Hd & Heq); [lia|].
    destruct (Z.eqb_spec (t / 65536) 0) as [H0|H0].
    { rewrite Z.sub_diag. split_and!; [lia|lia|done|done]. }
    rewrite wrap_small by lia.
    destruct (IH (if decide (fuel = 0%nat) then 65535 else 131070) (t mod 65536 + t / 65536)) as (H1 & H2 & H3).
    - destruct (decide _); lia.
    - destruct (decide _); lia.
    - destruct (decide _); lia.
    - split_and!; [lia|lia| |lia].
      replace (fold fuel (t mod 65536 + t / 65536) - t)
        with (fold fuel (t mod 65536 + t / 65536) - (t mod 65536 + t / 65536) + (- (t / 65536)) * 65535) by lia.
      by rewrite Z_mod_plus_full. }
  intros Ht. apply (Hgen 3%nat (2 ^ 32 - 1)); lia.
Qed.

Lemma lnot_u16 x : 0 ≤ x ≤ 65535 → u16 (Z.lnot x) = 65535 - x.
Proof.
  intros Hx. unfold Z.lnot, wrap. change (2 ^ 16) with 65536.
  replace (Z.pred (- x)) with (65535 - x + (-1) * 65536) by lia. rewrite Z_mod_plus_full. apply Z.mod_small. lia.
Qed.

(** A sum that contains its own checksum checks. *)
Lemma checksum_self total :
  0 ≤ total < 2 ^ 32 - 65536 → 0 < total → to_checksum (total + le_value (be16_set (to_checksum total))) = 0.
Proof.
  intros Ht Hpos. destruct (fold_spec total) as (Hf & Hmod & Hfp); [lia|].
  unfold to_checksum at 2. unfold be16_set. rewrite le_value_bytes by lia.
  rewrite lnot_u16 by lia. rewrite bswap16_bswap16 by lia. rewrite wrap_small by lia.
  destruct (fold_spec (total + (65535 - fold 3 total))) as (Hf' & Hmod' & Hfp'); [lia|].
  unfold to_checksum. assert (fold 3 (total + (65535 - fold 3 total)) = 65535) as ->; [|done].
  apply Z.mod_divide in Hmod as [q Hq]; [|lia]. apply Z.mod_divide in Hmod' as [q' Hq']; [|lia]. lia.
Qed.

(** ** Fields of a packet *)

Lemma get_field {A} (l pre x post : list A) off n :
  l = pre ++ x ++ post → Z.of_nat (length pre) = off → Z.of_nat (length x) = n → get l off n = Done x.
Proof.
  intros -> <- <-. rewrite get_eq by (rewrite ?length_app; lia).
  by rewrite !Nat2Z.id, drop_app_length, take_app_length.
Qed.

Lemma put_field {A} (l pre x y post : list A) off :
  l = pre ++ x ++ post → Z.of_nat (length pre) = off → length x = length y → put l off y = Done (pre ++ y ++ post).
Proof.
  intros -> <- Hx. rewrite put_eq by (rewrite ?length_app; lia). rewrite Nat2Z.id, take_app_length.
  do 3 f_equal. rewrite drop_app_add, <-Hx. apply drop_app_length.
Qed.

Lemma wr_field {A} (l pre : list A) i (x y : A) post :
  l = pre ++ x :: post → Z.of_nat (length pre) = i → l.[i := y] = Done (pre ++ y :: post).
Proof.
  intros -> <-. rewrite wr_in_range by (rewrite length_app; cbn [length]; lia).
  by rewrite Nat2Z.id, insert_app_r_alt, Nat.sub_diag by lia.
Qed.

(** Run the store of a byte, or of a field, behind the known bytes [pre]. *)
Ltac byte_at pre :=
  match goal with |- context [wr ?l ?i ?y] => rewrite (wr_field l pre i _ y _ eq_refl eq_refl) end; cbn [mbind outcome_bind app].
Ltac field_at pre x :=
  match goal with |- context [put ?l ?i ?y] => rewrite (put_field l pre x y _ i eq_refl eq_refl) end; [cbn [mbind outcome_bind app]|].

Lemma be16_length v : Z.of_nat (length (be16_set v)) = 2.
Proof. by apply le_bytes_length. Qed.
Lemma be32_length v : Z.of_nat (length (be32_set v)) = 4.
Proof. by apply le_bytes_length. Qed.
Lemma be16_bytes v : bytes (be16_set v).
Proof. by apply le_bytes_bytes. Qed.
Lemma be32_bytes v : bytes (be32_set v).
Proof. by apply le_bytes_bytes. Qed.

(** Lengths of concatenated fields. *)
Ltac field_length :=
  rewrite ?length_app, ?Nat2Z.inj_add, ?be16_length, ?be32_length, ?le_bytes_length by lia; cbn [length]; lia.

Lemma wsum_be16 v : wsum (be16_set v) = le_value (be16_set v).
Proof.
  pose proof (be16_length v) as Hl. pose proof (be16_bytes v) as Hb.
  destruct (be16_set v) as [|a [|b [|]]]; simpl length in Hl; try lia.
  inversion Hb as [|? ? Ha Hb']; subst. inversion Hb'; subst.
  rewrite !le_value_cons by done. change (le_value []) with 0. simpl. lia.
Qed.

Lemma even_be16 v : Nat.even (length (be16_set v)) = true.
Proof. pose proof (be16_length v). by replace (length (be16_set v)) with 2%nat by lia. Qed.

End Checksum.
