(* ===== verification/Ports.v ===== *)
(** * Port tables

    [UDPProtocol] and [TCPProtocol] ([mod/core/netstack/protocol/inet]) each keep a
    bitmap of the ports in use and the port handed out last; the code of the two is
    the same.  The calls run under [m_ports_lock], so each is one step. *)
From S2P Require Import Prelude Bitmap.
Local Open Scope Z_scope.

Module Ports.

Record ports := mk_ports { m_port_bitmap : list Z; m_port_dynamic_last : Z }.

Abbreviation M := (stateM ports).

(** [new uint32_t\[65536 / sizeof(uint32_t) / 8\]]: [new] takes the zeroed memory of
    [Heap::malloc]. *)
Definition init : ports := mk_ports (replicate (Z.to_nat (65536 / 4 / 8)) 0) 49151.

(** The inner loop: the first clear bit of [buffer] from [ib] on. *)
Fixpoint free_bit (n : nat) (buffer ib : Z) : option Z :=
  match n with
  | O => None
  | S n =>
      if ib <? 4 * 8 then
        if negb (Z.land buffer (bit_mask ib) =? 0) then free_bit n buffer (u16 (ib + 1)) else Some ib
      else None
  end.

(** The outer loop, with [n] turns to go. *)
Fixpoint search (n : nat) (ii ib : Z) : M Z :=
  match n with
  | O => mret 0
  | S n =>
      bitmap ← gets m_port_bitmap;
      buffer ← lift (bitmap.[ii]);
      match free_bit 33 buffer ib with
      | Some ib =>
          bitmap ← lift (bitmap.[ii := Z.lor buffer (bit_mask ib)]);
          let port := u16 (ii * 32 + ib) in
          modify (λ _, mk_ports bitmap port);; mret port
      | None =>
          let ii := u32 (ii + 1) in
          search n (if ii >=? 8192 then 49152 / 4 else ii) 0
      end
  end.

(** [m_port_dynamic_last++], and back to the first dynamic port after 65535. *)
Definition dynamic_start (last : Z) : Z :=
  let last := u16 (last + 1) in if last =? 0 then 49152 else last.

Definition allocateDynamicPort : M Z :=
  modify (λ p, mk_ports (m_port_bitmap p) (dynamic_start (m_port_dynamic_last p)));;
  last ← gets m_port_dynamic_last;
  search (Z.to_nat (65536 - 49152 + 1)) (last / (4 * 8)) (last mod (4 * 8)).

Definition allocatePort (port : Z) : M bool :=
  let ii := port / (4 * 8) in
  let ib := port mod (4 * 8) in
  p ← gets id;
  w ← lift ((m_port_bitmap p).[ii]);
  if negb (Z.land w (bit_mask ib) =? 0) then mret false
  else
    bitmap ← lift ((m_port_bitmap p).[ii := Z.lor w (bit_mask ib)]);
    modify (λ p, mk_ports bitmap (m_port_dynamic_last p));; mret true.

Definition freePort (port : Z) : M unit :=
  let ii := port / (4 * 8) in
  let ib := port mod (4 * 8) in
  p ← gets id;
  w ← lift ((m_port_bitmap p).[ii]);
  bitmap ← lift ((m_port_bitmap p).[ii := Z.land w (Z.lnot (bit_mask ib))]);
  modify (λ p, mk_ports bitmap (m_port_dynamic_last p)).

(** ** The table as a set *)

Definition used (p : ports) (port : Z) : bool := bit_at (m_port_bitmap p) port.

Definition ports_inv (p : ports) : Prop :=
  words (m_port_bitmap p) ∧ length (m_port_bitmap p) = 2048%nat ∧ 0 ≤ m_port_dynamic_last p < 2 ^ 16.

Lemma init_ports : ports_inv init ∧ ∀ port, used init port = false.
Proof.
  split; [|intros; apply bit_at_zero]. split_and!; [apply Forall_replicate; lia|done|cbn; lia|cbn; lia].
Qed.

Lemma port_word p port :
  ports_inv p → 0 ≤ port < 65536 →
  ∃ w, (m_port_bitmap p).[port / 32] = Done w ∧ m_port_bitmap p !! Z.to_nat (port / 32) = Some w ∧ 0 ≤ w < 2 ^ 32 ∧
       0 ≤ port / 32 < 2048 ∧ 0 ≤ port mod 32 < 32 ∧ port = 32 * (port / 32) + port mod 32 ∧
       used p port = Z.testbit w (port mod 32).
Proof.
  intros (Hw & Hl & _) Hp. pose proof (Z.div_mod port 32 ltac:(lia)). pose proof (Z.mod_pos_bound port 32 ltac:(lia)).
  destruct (rd_in_range (m_port_bitmap p) (port / 32)) as (w & Hrd & Hw'); [lia|].
  exists w. split_and!; try done; try lia; [by eapply words_lookup..|].
  unfold used, bit_at. by rewrite Hw'.
Qed.

(** Writing the word of a port. *)
Lemma port_write p port w' b last :
  ports_inv p → 0 ≤ port < 65536 → 0 ≤ w' < 2 ^ 32 → 0 ≤ last < 2 ^ 16 →
  (∀ w k, m_port_bitmap p !! Z.to_nat (port / 32) = Some w → 0 ≤ k < 32 →
     Z.testbit w' k = if port mod 32 =? k then b else Z.testbit w k) →
  ∃ bitmap, (m_port_bitmap p).[port / 32 := w'] = Done bitmap ∧ ports_inv (mk_ports bitmap last) ∧
    ∀ j, 0 ≤ j → used (mk_ports bitmap last) j = if port =? j then b else used p j.
Proof.
  intros Hp Hport Hw' Hlast Hbits. destruct (port_word p port Hp Hport) as (w & _ & Hw & _ & Hii & Hib & Heq & _).
  destruct Hp as (Hws & Hl & _). rewrite wr_in_range by lia. eexists. split; [done|]. split.
  - split_and!; cbn; [by apply words_insert|by rewrite length_insert|lia..].
  - intros j Hj. unfold used. cbn. rewrite (bit_at_update _ _ w w' b j (port mod 32)) by (done || lia || (intros k Hk; by apply Hbits)).
    by rewrite <-Heq.
Qed.

(** The calls as set operations; the port handed out last stays. *)
Lemma freePort_spec p port :
  ports_inv p → 0 ≤ port < 65536 →
  ∃ p', freePort port p = Done (tt, p') ∧ ports_inv p' ∧ m_port_dynamic_last p' = m_port_dynamic_last p ∧
        ∀ j, 0 ≤ j → used p' j = negb (port =? j) && used p j.
Proof.
  intros Hp Hport. destruct (port_word p port Hp Hport) as (w & Hrd & Hw & Hwb & Hii & Hib & Heq & Hu).
  pose proof Hp as (_ & _ & Hlast).
  destruct (port_write p port (Z.land w (Z.lnot (bit_mask (port mod 32)))) false (m_port_dynamic_last p)) as (bm & Hbm & Hi & Hj); try done.
  { by apply clear_mask_bound. }
  { intros w0 k Hw0 Hk. simplify_eq. rewrite clear_mask_testbit by lia. destruct (_ =? k); [apply andb_false_r|apply andb_true_r]. }
  eexists. split; [|split_and!; [exact Hi|done|intros j Hj0; rewrite Hj by done; by destruct (port =? j)]].
  unfold freePort. change (4 * 8) with 32. by srun.
Qed.

Lemma allocatePort_used p port :
  ports_inv p → 0 ≤ port < 65536 → used p port = true → allocatePort port p = Done (false, p).
Proof.
  intros Hp Hport Ht. destruct (port_word p port Hp Hport) as (w & Hrd & _ & _ & _ & Hib & _ & Hu).
  unfold allocatePort. change (4 * 8) with 32. srun.
  by rewrite land_mask_zero, <-Hu, Ht by done.
Qed.

Lemma allocatePort_free p port :
  ports_inv p → 0 ≤ port < 65536 → used p port = false →
  ∃ p', allocatePort port p = Done (true, p') ∧ ports_inv p' ∧ m_port_dynamic_last p' = m_port_dynamic_last p ∧
        ∀ j, 0 ≤ j → used p' j = (port =? j) || used p j.
Proof.
  intros Hp Hport Hf. destruct (port_word p port Hp Hport) as (w & Hrd & Hw & Hwb & Hii & Hib & Heq & Hu).
  pose proof Hp as (_ & _ & Hlast).
  destruct (port_write p port (Z.lor w (bit_mask (port mod 32))) true (m_port_dynamic_last p)) as (bm & Hbm & Hi & Hj); try done.
  { by apply lor_mask_bound. }
  { intros w0 k Hw0 Hk. simplify_eq. rewrite lor_mask_testbit by lia. destruct (_ =? k); [apply orb_true_r|apply orb_false_r]. }
  eexists. split; [|split_and!; [exact Hi|done|intros j Hj0; rewrite Hj by done; by destruct (port =? j)]].
  unfold allocatePort. change (4 * 8) with 32. srun.
  rewrite land_mask_zero, <-Hu, Hf by done. cbn [negb]. by srun.
Qed.

Lemma ports_ext p p' :
  ports_inv p → ports_inv p' → m_port_dynamic_last p = m_port_dynamic_last p' →
  (∀ j, 0 ≤ j → used p j = used p' j) → p = p'.
Proof.
  destruct p as [b l], p' as [b' l']. intros (Hw & Hl & _) (Hw' & Hl' & _) Hlast Hj. simpl in *. subst l'. f_equal.
  by apply bitmap_ext; try congruence.
Qed.

(** The port table is a set of ports.  [allocatePort] fails and
    changes nothing on a port in use and adds any other port; [freePort] removes
    the port; a port that was free is free again after both, in the same table. *)
Lemma port_table_refines p port :
  ports_inv p → 0 ≤ port < 65536 →
  (used p port = true → allocatePort port p = Done (false, p)) ∧
  (used p port = false → ∃ p', allocatePort port p = Done (true, p') ∧ ports_inv p' ∧
     (∀ j, 0 ≤ j → used p' j = (port =? j) || used p j) ∧ freePort port p' = Done (tt, p)) ∧
  (∃ p', freePort port p = Done (tt, p') ∧ ports_inv p' ∧ ∀ j, 0 ≤ j → used p' j = negb (port =? j) && used p j).
Proof.
  intros Hp Hport. split_and!; [by apply allocatePort_used|intros Hf|].
  - destruct (allocatePort_free p port Hp Hport Hf) as (p1 & He & Hp1 & Hl1 & Hu1). exists p1. split_and!; [done..|].
    destruct (freePort_spec p1 port Hp1 Hport) as (p2 & -> & Hp2 & Hl2 & Hu2). do 2 f_equal.
    apply ports_ext; [done..|congruence|]. intros j Hj. rewrite Hu2, Hu1 by done.
    destruct (Z.eqb_spec port j) as [->|]; [by rewrite Hf|done].
  - destruct (freePort_spec p port Hp Hport) as (p1 & ? & ? & _ & ?). by exists p1.
Qed.

Lemma port_table_refines_witness :
  used init 80 = false ∧ ∃ p', allocatePort 80 init = Done (true, p') ∧ freePort 80 p' = Done (tt, init).
Proof.
  destruct init_ports as [Hi Hu]. split; [by apply Hu|].
  destruct (port_table_refines init 80 Hi ltac:(lia)) as (_ & Hf & _).
  destruct (Hf (Hu 80)) as (p' & ? & _ & _ & ?). by exists p'.
Defined.

(** ** Dynamic ports *)

Lemma free_bit_hit n w ib k :
  0 ≤ ib ≤ k → k < 32 → (k - ib < Z.of_nat n) → Z.testbit w k = false → (∀ j, ib ≤ j < k → Z.testbit w j = true) →
  free_bit n w ib = Some k.
Proof.
  revert ib. induction n as [|n IH]; intros ib Hib Hk Hn Hf Ht; [lia|]. cbn [free_bit].
  replace (ib <? 4 * 8) with true by lia. rewrite land_mask_zero, negb_involutive by lia.
  destruct (decide (ib = k)) as [->|]; [by rewrite Hf|]. rewrite (Ht ib) by lia. rewrite wrap_small by lia.
  apply IH; try done; try lia. intros j Hj. apply Ht. lia.
Qed.

Lemma free_bit_full n w ib :
  0 ≤ ib → 32 - ib < Z.of_nat n → (∀ j, ib ≤ j < 32 → Z.testbit w j = true) → free_bit n w ib = None.
Proof.
  revert ib. induction n as [|n IH]; intros ib Hib Hn Ht; [done|]. cbn [free_bit].
  destruct (Z.ltb_spec ib (4 * 8)); [|done]. rewrite land_mask_zero, negb_involutive, (Ht ib), wrap_small by lia.
  apply IH; [lia..|]. intros j Hj. apply Ht. lia.
Qed.

(** A turn on a full rest of a word. *)
Lemma search_full n p ii ib :
  ports_inv p → 0 ≤ ii < 2048 → 0 ≤ ib < 32 → taken_run (m_port_bitmap p) (32 * ii + ib) (32 - ib) →
  search (S n) ii ib p = search n (ii + 1) 0 p.
Proof.
  intros (Hw & Hl & _) Hii Hib Ht. destruct (rd_in_range (m_port_bitmap p) ii) as (w & Hrd & Hlk); [lia|].
  assert (Hf : free_bit 33 w ib = None).
  { apply free_bit_full; [lia..|]. intros j Hj. rewrite <-(bit_at_cursor _ ii j w) by (done || lia). apply Ht. lia. }
  cbn [search]. srun. rewrite Hf.
  rewrite wrap_small by lia. by replace (ii + 1 >=? 8192) with false by lia.
Qed.

Lemma search_hit n p ii ib port :
  ports_inv p → 0 ≤ ii → 0 ≤ ib < 32 → 32 * ii + ib ≤ port < 65536 → port / 32 - ii < Z.of_nat n →
  used p port = false → taken_run (m_port_bitmap p) (32 * ii + ib) (port - (32 * ii + ib)) →
  ∃ p', search n ii ib p = Done (port, p') ∧ ports_inv p' ∧ m_port_dynamic_last p' = port ∧
        ∀ j, 0 ≤ j → used p' j = (port =? j) || used p j.
Proof.
  revert ii ib. induction n as [|n IH]; intros ii ib Hp Hii Hib Hport Hn Hf Ht;
    destruct (port_word p port Hp ltac:(lia)) as (w & Hrd & Hw & Hwb & Hpi & Hpb & Heq & Hu); [lia|].
  destruct (decide (ii = port / 32)) as [->|Hne].
  - assert (Hfb : free_bit 33 w ib = Some (port mod 32)).
    { apply free_bit_hit; [lia..|congruence|]. intros j Hj. rewrite <-(bit_at_cursor _ (port / 32) j w) by (done || lia). apply Ht. lia. }
    destruct (port_write p port (Z.lor w (bit_mask (port mod 32))) true port) as (bm & Hbm & Hi & Hj); [done|lia| |lia| |].
    { by apply lor_mask_bound. }
    { intros w0 k Hw0 Hk. simplify_eq. rewrite lor_mask_testbit by lia. destruct (_ =? k); [apply orb_true_r|apply orb_false_r]. }
    eexists. split; [|split_and!; [exact Hi|done|intros j Hj0; rewrite Hj by done; by destruct (port =? j)]].
    cbn [search]. srun. rewrite Hfb. srun.
    by rewrite (Z.mul_comm (port / 32)), <-Heq, wrap_small by lia.
  - rewrite search_full by (done || lia || (intros j Hj; apply Ht; lia)).
    apply IH; try done; try lia. intros j Hj. apply Ht. lia.
Qed.

Lemma search_runs_off n p ii ib :
  ports_inv p → 0 ≤ ii → 0 ≤ ib < 32 → 2048 - ii < Z.of_nat n → 32 * ii + ib ≤ 65536 →
  taken_run (m_port_bitmap p) (32 * ii + ib) (65536 - (32 * ii + ib)) → search n ii ib p = Fault.
Proof.
  revert ii ib. induction n as [|n IH]; intros ii ib Hp Hii Hib Hn Hle Ht; [lia|].
  destruct (decide (ii = 2048)) as [->|].
  - cbn [search]. srun. apply lift_fault, rd_out.
    destruct Hp as (_ & -> & _). lia.
  - rewrite search_full by (done || lia || (intros j Hj; apply Ht; lia)).
    apply IH; try done; try lia. intros j Hj. apply Ht. lia.
Qed.

Lemma start_range p : ports_inv p → 0 < dynamic_start (m_port_dynamic_last p) < 65536.
Proof.
  intros (_ & _ & Hlast). unfold dynamic_start. pose proof (wrap_bound 16 (m_port_dynamic_last p + 1) ltac:(lia)).
  destruct (Z.eqb_spec (u16 (m_port_dynamic_last p + 1)) 0); lia.
Qed.

(** The search starts behind the last port. *)
Lemma dynamic_search p :
  ports_inv p →
  let start := dynamic_start (m_port_dynamic_last p) in
  let q := mk_ports (m_port_bitmap p) start in
  ports_inv q ∧ allocateDynamicPort p = search (Z.to_nat (65536 - 49152 + 1)) (start / 32) (start mod 32) q ∧
  0 ≤ start / 32 < 2048 ∧ 0 ≤ start mod 32 < 32 ∧ start = 32 * (start / 32) + start mod 32.
Proof.
  intros Hp start q. pose proof Hp as (Hw & Hl & Hlast). pose proof (start_range p Hp) as Hs. fold start in Hs.
  assert (Hq : ports_inv q) by (split_and!; try done; cbn; lia).
  destruct (port_word q start Hq ltac:(lia)) as (w & _ & _ & _ & Hii & Hib & Heq & _).
  split_and!; try done; lia.
Qed.

Lemma dynamic_hit p port :
  ports_inv p → dynamic_start (m_port_dynamic_last p) ≤ port < 65536 → used p port = false →
  (∀ j, dynamic_start (m_port_dynamic_last p) ≤ j < port → used p j = true) →
  ∃ p', allocateDynamicPort p = Done (port, p') ∧ ports_inv p' ∧ m_port_dynamic_last p' = port ∧
        ∀ j, 0 ≤ j → used p' j = (port =? j) || used p j.
Proof.
  intros Hp Hport Hf Ht. destruct (dynamic_search p Hp) as (Hq & Hrun & Hii & Hib & Heq).
  set (start := dynamic_start _) in *. assert (port / 32 < 2048) by (apply Z.div_lt_upper_bound; lia). rewrite Hrun.
  apply (search_hit _ (mk_ports (m_port_bitmap p) start)); try done; try lia. intros j Hj. apply Ht. lia.
Qed.

Lemma dynamic_miss p :
  ports_inv p → (∀ j, dynamic_start (m_port_dynamic_last p) ≤ j < 65536 → used p j = true) → allocateDynamicPort p = Fault.
Proof.
  intros Hp Ht. destruct (dynamic_search p Hp) as (Hq & Hrun & Hii & Hib & Heq). set (start := dynamic_start _) in *.
  pose proof (start_range p Hp). fold start in H. rewrite Hrun.
  apply search_runs_off; try done; try lia. intros j Hj. apply Ht. lia.
Qed.

(** What a port that was handed out is. *)
Lemma dynamic_inv p port p' :
  ports_inv p → allocateDynamicPort p = Done (port, p') →
  0 < port < 65536 ∧ used p port = false ∧ ports_inv p' ∧ ∀ j, 0 ≤ j → used p' j = (port =? j) || used p j.
Proof.
  intros Hp He. pose proof (start_range p Hp) as Hs. set (start := dynamic_start _) in *.
  destruct (decide (Exists (λ j, used p j = false) (seqZ start (65536 - start)))) as [(k & Hk%elem_of_seqZ & Hu)%Exists_exists|Hno].
  - destruct (first_clear (m_port_bitmap p) start (Z.to_nat (65536 - start))) as (n & Hn & Ht & Hc).
    { exists k. split; [lia|done]. }
    destruct (dynamic_hit p (start + Z.of_nat n)) as (q & Hq & Hinv & _ & Hj); [done|fold start; lia|done|intros j Hj; apply Ht; fold start in Hj; lia|].
    rewrite Hq in He. simplify_eq. split_and!; [lia..|done|done|done].
  - rewrite dynamic_miss in He; [done..|]. fold start. intros j Hj. destruct (used p j) eqn:E; [done|].
    exfalso. apply Hno, Exists_exists. exists j. split; [apply elem_of_seqZ; lia|done].
Qed.

(** [allocateDynamicPort] returns the first free port after the
    one handed out last, up to 65535, and takes exactly that port.  When every
    port from there to 65535 is in use, the search leaves the bitmap: it wraps
    round at word 8192 of the 2048 words, so it never gets back to port 49152,
    and ports below that are free again are not found. *)
Lemma dynamic_port_next p :
  ports_inv p →
  let start := dynamic_start (m_port_dynamic_last p) in
  (∀ port, start ≤ port < 65536 → used p port = false → (∀ j, start ≤ j < port → used p j = true) →
     ∃ p', allocateDynamicPort p = Done (port, p') ∧ ports_inv p' ∧ m_port_dynamic_last p' = port ∧
           ∀ j, 0 ≤ j → used p' j = (port =? j) || used p j) ∧
  ((∀ j, start ≤ j < 65536 → used p j = true) → allocateDynamicPort p = Fault).
Proof. intros Hp start. split; [intros port; by apply dynamic_hit|by apply dynamic_miss]. Qed.

Lemma dynamic_port_next_witness :
  ∃ p', allocateDynamicPort init = Done (49152, p') ∧ used p' 49152 = true.
Proof.
  destruct init_ports as [Hi Hu]. destruct (dynamic_port_next init Hi) as [Hf _].
  destruct (Hf 49152) as (p' & ? & _ & _ & Hj); [vm_compute; split; congruence|apply Hu|vm_compute dynamic_start; lia|].
  exists p'. split; [done|]. by rewrite Hj.
Defined.

End Ports.
