(* ===== verification/Tcp.v ===== *)
(** * TCP

    [mod/core/netstack/socket/inet/tcp.cpp]: the socket with its control block,
    its two circular buffers, the retransmission queue and the queues of a
    listening socket.  A call is modelled from the calling thread's view: the
    lock bit is the sequential one of [Locks], so a call that acquires a lock it
    holds is visible, and the [wait] loops are cut at their yields into
    sections. *)
From S2P Require Import Prelude Locks Math Ring Net.
Local Open Scope Z_scope.
Import Bytes Checksum CircularBuffer.

Module Tcp.

Definition TCP_RETRANSMIT_INTERVAL : Z := 2 * 1000000000.
Definition TCP_CONNECTION_TIMEOUT : Z := 7 * 1000000000.
Definition TCP_RETRIES : Z := 5.
Definition TCP_TX_BUFFER_SIZE : Z := 4096.
Definition TCP_RX_BUFFER_SIZE : Z := 8192 + 64.
Definition TCP_MIN_MSS : Z := 256.
Definition TCP_PROBE_SLACK : Z := 64.

Inductive tcp_state_t :=
  TCP_LISTEN | TCP_SYN_SENT | TCP_SYN_RECEIVED | TCP_ESTABLISHED | TCP_FIN_WAIT_1 | TCP_FIN_WAIT_2
  | TCP_CLOSE_WAIT | TCP_CLOSING | TCP_LAST_ACK | TCP_TIME_WAIT | TCP_CLOSED.

#[export] Instance tcp_state_eq_dec : EqDecision tcp_state_t.
Proof. solve_decision. Defined.

(** [equals_one] on a state. *)
Definition one_of (s : tcp_state_t) (l : list tcp_state_t) : bool := existsb (λ t, bool_decide (s = t)) l.

Definition TCP_FIN : Z := 0x01.
Definition TCP_SYN : Z := 0x02.
Definition TCP_RST : Z := 0x04.
Definition TCP_PSH : Z := 0x08.
Definition TCP_ACK : Z := 0x10.
Definition has (flags f : Z) : bool := negb (Z.land flags f =? 0).

(** ** Sequence numbers *)

Definition is_before (val start : Z) (extent : Z) : bool :=
  if val =? start then false
  else if val >? start then u32 (u32 (0xFFFFFFFF - val) + start) <=? extent
  else if val <? start then u32 (start - val) <=? extent
  else false.

Definition is_before_or_equal (val start : Z) (extent : Z) : bool :=
  if val =? start then true
  else if val >? start then u32 (u32 (0xFFFFFFFF - val) + start) <=? extent
  else if val <? start then u32 (start - val) <=? extent
  else false.

Definition is_after (val start extent : Z) : bool := negb (is_before_or_equal val start extent).
Definition is_after_or_equal (val start extent : Z) : bool := negb (is_before val start extent).

(** The default [extent]. *)
Definition half : Z := 2147483647.

(** ** Data *)

Record tcp_block := mk_block {
  state : tcp_state_t;
  snd_una : Z;
  snd_nxt : Z;
  snd_wnd : Z;
  snd_mss : Z;
  rcv_nxt : Z;
  sending_comp_ack : bool;
  notify_of_window_size : bool;
  closing : bool;
  send_shut : bool;
  receive_shut : bool;
}.

Definition set_state (v : tcp_state_t) (b : tcp_block) : tcp_block :=
  mk_block v (snd_una b) (snd_nxt b) (snd_wnd b) (snd_mss b) (rcv_nxt b) (sending_comp_ack b)
    (notify_of_window_size b) (closing b) (send_shut b) (receive_shut b).
(** [snd_una], [snd_nxt], [snd_wnd] and [snd_mss] together. *)
Definition set_snd (una nxt wnd mss : Z) (b : tcp_block) : tcp_block :=
  mk_block (state b) una nxt wnd mss (rcv_nxt b) (sending_comp_ack b)
    (notify_of_window_size b) (closing b) (send_shut b) (receive_shut b).
Definition set_rcv_nxt (v : Z) (b : tcp_block) : tcp_block :=
  mk_block (state b) (snd_una b) (snd_nxt b) (snd_wnd b) (snd_mss b) v (sending_comp_ack b)
    (notify_of_window_size b) (closing b) (send_shut b) (receive_shut b).
Definition set_comp_ack (v : bool) (b : tcp_block) : tcp_block :=
  mk_block (state b) (snd_una b) (snd_nxt b) (snd_wnd b) (snd_mss b) (rcv_nxt b) v
    (notify_of_window_size b) (closing b) (send_shut b) (receive_shut b).
Definition set_notify (v : bool) (b : tcp_block) : tcp_block :=
  mk_block (state b) (snd_una b) (snd_nxt b) (snd_wnd b) (snd_mss b) (rcv_nxt b) (sending_comp_ack b)
    v (closing b) (send_shut b) (receive_shut b).
Definition set_closing (v : bool) (b : tcp_block) : tcp_block :=
  mk_block (state b) (snd_una b) (snd_nxt b) (snd_wnd b) (snd_mss b) (rcv_nxt b) (sending_comp_ack b)
    (notify_of_window_size b) v (send_shut b) (receive_shut b).
Definition set_shut (snd rcv : bool) (b : tcp_block) : tcp_block :=
  mk_block (state b) (snd_una b) (snd_nxt b) (snd_wnd b) (snd_mss b) (rcv_nxt b) (sending_comp_ack b)
    (notify_of_window_size b) (closing b) snd rcv.

(** [segment]; [len] is the length of [data]. *)
Record segment := mk_seg {
  seq : Z;
  ack_no : Z;
  ack_with : Z;
  flags : Z;
  retransmit_at : Z;
  retries : Z;
  header_len : Z;
  data : list Z;
}.

(** [tcp_listen_entry] without the unused data buffer, and the socket that
    [TCPSocket(parent, entry)] makes of it. *)
Record entry := mk_entry { source_address : Z; source_port : Z; e_block : tcp_block }.
Record child := mk_child {
  c_source_address : Z; c_source_port : Z; c_destination_address : Z; c_destination_port : Z; c_block : tcp_block;
}.

(** [sent] logs the segments handed to [IPv4Layer::route] with their
    destination; [tx_raised] and [rx_raised] count the raises of the events. *)
Record sock := mk_sock {
  m_lock : bool;
  m_block : tcp_block;
  m_tx_buffer : CircularBuffer;
  m_rx_buffer : CircularBuffer;
  m_retransmission_queue : list segment;
  m_listen_queue : option (list entry);
  m_accept_queue : option (list child);
  m_listen_backlog : Z;
  m_async_id : Z;
  local_address : Z;
  local_port : Z;
  destination_address : Z;
  destination_port : Z;
  sent : list (Z * list Z);
  tx_raised : nat;
  rx_raised : nat;
}.

Definition upd_lock (v : bool) (s : sock) : sock :=
  mk_sock v (m_block s) (m_tx_buffer s) (m_rx_buffer s) (m_retransmission_queue s) (m_listen_queue s)
    (m_accept_queue s) (m_listen_backlog s) (m_async_id s) (local_address s) (local_port s)
    (destination_address s) (destination_port s) (sent s) (tx_raised s) (rx_raised s).
Definition upd_block (f : tcp_block → tcp_block) (s : sock) : sock :=
  mk_sock (m_lock s) (f (m_block s)) (m_tx_buffer s) (m_rx_buffer s) (m_retransmission_queue s) (m_listen_queue s)
    (m_accept_queue s) (m_listen_backlog s) (m_async_id s) (local_address s) (local_port s)
    (destination_address s) (destination_port s) (sent s) (tx_raised s) (rx_raised s).
Definition upd_buffers (tx rx : CircularBuffer) (s : sock) : sock :=
  mk_sock (m_lock s) (m_block s) tx rx (m_retransmission_queue s) (m_listen_queue s)
    (m_accept_queue s) (m_listen_backlog s) (m_async_id s) (local_address s) (local_port s)
    (destination_address s) (destination_port s) (sent s) (tx_raised s) (rx_raised s).
Definition upd_queue (q : list segment) (s : sock) : sock :=
  mk_sock (m_lock s) (m_block s) (m_tx_buffer s) (m_rx_buffer s) q (m_listen_queue s)
    (m_accept_queue s) (m_listen_backlog s) (m_async_id s) (local_address s) (local_port s)
    (destination_address s) (destination_port s) (sent s) (tx_raised s) (rx_raised s).
Definition upd_listen (l : option (list entry)) (a : option (list child)) (backlog : Z) (s : sock) : sock :=
  mk_sock (m_lock s) (m_block s) (m_tx_buffer s) (m_rx_buffer s) (m_retransmission_queue s) l
    a backlog (m_async_id s) (local_address s) (local_port s)
    (destination_address s) (destination_port s) (sent s) (tx_raised s) (rx_raised s).
Definition upd_peer (addr port : Z) (s : sock) : sock :=
  mk_sock (m_lock s) (m_block s) (m_tx_buffer s) (m_rx_buffer s) (m_retransmission_queue s) (m_listen_queue s)
    (m_accept_queue s) (m_listen_backlog s) (u16 (m_async_id s + 1)) (local_address s) (local_port s)
    addr port (sent s) (tx_raised s) (rx_raised s).
Definition upd_local (addr port : Z) (s : sock) : sock :=
  mk_sock (m_lock s) (m_block s) (m_tx_buffer s) (m_rx_buffer s) (m_retransmission_queue s) (m_listen_queue s)
    (m_accept_queue s) (m_listen_backlog s) (m_async_id s) addr port
    (destination_address s) (destination_port s) (sent s) (tx_raised s) (rx_raised s).
Definition upd_sent (p : Z * list Z) (s : sock) : sock :=
  mk_sock (m_lock s) (m_block s) (m_tx_buffer s) (m_rx_buffer s) (m_retransmission_queue s) (m_listen_queue s)
    (m_accept_queue s) (m_listen_backlog s) (m_async_id s) (local_address s) (local_port s)
    (destination_address s) (destination_port s) (sent s ++ [p]) (tx_raised s) (rx_raised s).
Definition upd_raised (tx rx : nat) (s : sock) : sock :=
  mk_sock (m_lock s) (m_block s) (m_tx_buffer s) (m_rx_buffer s) (m_retransmission_queue s) (m_listen_queue s)
    (m_accept_queue s) (m_listen_backlog s) (m_async_id s) (local_address s) (local_port s)
    (destination_address s) (destination_port s) (sent s) (tx_raised s + tx) (rx_raised s + rx).

(** ** The monad of a socket's methods *)

Abbreviation M := (stateM sock).

Definition lock_acquire : M unit := λ s, l ← spin_acquire (m_lock s); Done (tt, upd_lock l s).
Definition lock_release : M unit := λ s, l ← spin_release (m_lock s); Done (tt, upd_lock l s).
Definition block {A} (f : tcp_block → A) : M A := gets (λ s, f (m_block s)).
Definition set_block (f : tcp_block → tcp_block) : M unit := modify (upd_block f).
Definition raise_tx : M unit := modify (upd_raised 1 0).
Definition raise_rx : M unit := modify (upd_raised 0 1).

(** ** Segments on the wire *)

(** The [tcp_header] [sendSegment] fills in, with the checksum field [csum]. *)
Definition header_bytes (sport dport sq ak bits window csum : Z) : list Z :=
  be16_set sport ++ be16_set dport ++ be32_set sq ++ be32_set ak ++ be16_set bits ++ be16_set window ++
  be16_set csum ++ be16_set 0.

Definition fake_header (src dst length_ : Z) : list Z :=
  le_bytes 4 src ++ le_bytes 4 dst ++ [0; 6] ++ be16_set length_.

(** The payload of the packet [sendSegment] routes: header and data. *)
Definition encode (seg : segment) (src sport dst dport window : Z) : outcome (list Z) :=
  let bits := u16 (Z.lor (Z.shiftl (header_len seg / 4) 12) (flags seg)) in
  let len := Z.of_nat (length (data seg)) in
  let hdr := header_bytes sport dport (seq seg) (ack_no seg) bits window 0 in
  a ← sum_bytes (fake_header src dst (u16 (len + 20))) 12;
  b ← sum_bytes hdr 20;
  c ← sum_bytes (data seg) (u16 len);
  Done (header_bytes sport dport (seq seg) (ack_no seg) bits window (to_checksum (u32 (u32 (a + b) + c))) ++ data seg).

(** The fields [packetReceived] reads. *)
Record header := mk_header { h_hdr_len : Z; h_flags : Z; h_seqn : Z; h_ackn : Z; h_window : Z }.
Definition read_header (buffer : list Z) : outcome header :=
  sq ← get buffer 4 4; ak ← get buffer 8 4; bits ← get buffer 12 2; w ← get buffer 14 2;
  let bits := be16_get bits in
  Done (mk_header (u16 (Z.shiftr bits 12 * 4)) bits (be32_get sq) (be32_get ak) (be16_get w)).

(** [TCPLayer::parse]: [Some] (source port, destination port) when the packet goes up to
    [TCPProtocol::packetReceived]. *)
Definition parse (buffer : list Z) (len src dst : Z) : outcome (option (Z * Z)) :=
  if len <? 20 then Done None
  else
    bits ← get buffer 12 2;
    if Z.shiftr (be16_get bits) 10 >? len then Done None
    else
      a ← sum_bytes (fake_header src dst len) 12;
      b ← sum_bytes buffer len;
      if negb (to_checksum (u32 (a + b)) =? 0) then Done None
      else sp ← get buffer 0 2; dp ← get buffer 2 2; Done (Some (be16_get sp, be16_get dp)).

(** [readOptions]; [i] grows on every turn, so [hdr_len] turns are enough. *)
Fixpoint readOptions (fuel : nat) (b : tcp_block) (buffer : list Z) (hdr_len i : Z) : outcome tcp_block :=
  match fuel with
  | O => Done b
  | S fuel =>
      if i <? hdr_len then
        kind ← buffer.[i];
        len ← buffer.[i + 1];
        let len := if len <? 2 then 2 else len in
        if kind =? 0 then readOptions fuel b buffer hdr_len (65536 + len)
        else if kind =? 1 then Done b
        else if kind =? 2 then
          m ← get buffer (i + 2) 2;
          readOptions fuel (set_snd (snd_una b) (snd_nxt b) (snd_wnd b) (clamp (be16_get m) TCP_MIN_MSS 1460) b)
            buffer hdr_len (i + len)
        else readOptions fuel b buffer hdr_len (i + len)
      else Done b
  end.

Section Socket.

(** [IPv4Layer::get_interface]: the address of the interface a destination is
    reached through, if there is one. *)
Context (get_interface : Z → option Z).

Definition getWindow (s : sock) : Z :=
  let window := (TCP_RX_BUFFER_SIZE - 1) - readAvailable (m_rx_buffer s) in
  0 `max` (window - TCP_PROBE_SLACK).

(** [_close]: the queues are deleted. *)
Definition _close : M unit :=
  set_block (set_state TCP_CLOSED);;
  set_block (set_shut true true);;
  raise_tx;; raise_rx;;
  backlog ← gets m_listen_backlog;
  modify (upd_listen None None backlog);;
  modify (upd_queue []).

Definition reset : M bool :=
  b ← gets m_block;
  let verdict := negb (closing b || one_of (state b) [TCP_LISTEN; TCP_CLOSED]) in
  set_block (set_closing true);;
  _close;;
  mret verdict.

(** [sendSegment]: with no interface, a closed socket is reset (which never
    asks for an RST, its state being [TCP_CLOSED]) and any other one goes on to
    read the missing interface's address. *)
Definition sendSegmentTo (seg : segment) (addr port : Z) : M bool :=
  st ← block state;
  match get_interface addr with
  | None =>
      if bool_decide (st = TCP_CLOSED) then _ ← reset; mret false
      else lift Fault
  | Some src =>
      s ← gets (λ s, s);
      bytes ← lift (encode seg src (local_port s) addr port (u16 (getWindow s)));
      modify (upd_sent (addr, bytes));;
      mret true
  end.

Definition sendSegment (seg : segment) : M bool :=
  a ← gets destination_address; p ← gets destination_port; sendSegmentTo seg a p.

Definition mss_option : list Z := [0x02; 0x04; 0x05; 0xb4].

Definition push_segment (seg : segment) : M unit := modify (λ s, upd_queue (m_retransmission_queue s ++ [seg]) s).

(** The initial sequence number of [syn] at [uptime]. *)
Definition initial_seq (uptime : Z) : Z := u32 (u64 (u64 (uptime - uptime mod 10000) + 2137)).

Definition syn (uptime : Z) : M unit :=
  let isn := initial_seq uptime in
  set_block (λ b, set_snd (snd_una b) isn (snd_wnd b) TCP_MIN_MSS b);;
  set_block (λ b, set_snd isn (u32 (isn + 1)) (snd_wnd b) (snd_mss b) b);;
  let seg := mk_seg isn 0 (u32 (isn + 1)) TCP_SYN (u64 (uptime + TCP_RETRANSMIT_INTERVAL)) 0 24 mss_option in
  lock_acquire;; push_segment seg;; lock_release;;
  _ ← sendSegment seg; mret tt.

(** [ack()] and [ack(manual)]. *)
Definition ack : M unit := set_block (set_comp_ack true).
Definition ack_now (manual : Z) : M unit :=
  nxt ← block snd_nxt;
  _ ← sendSegment (mk_seg nxt manual 0 TCP_ACK 0 0 20 []); mret tt.

Definition rst : M unit :=
  b ← gets m_block;
  let a := if bool_decide (state b = TCP_SYN_RECEIVED) then rcv_nxt b else 0 in
  _ ← sendSegment (mk_seg (snd_nxt b) a 0 TCP_RST 0 0 20 []); mret tt.

Definition fin (uptime : Z) : M unit :=
  b ← gets m_block;
  let seg := mk_seg (snd_nxt b) (rcv_nxt b) (u32 (snd_nxt b + 1)) (Z.lor TCP_FIN TCP_ACK)
               (u64 (uptime + TCP_RETRANSMIT_INTERVAL)) 0 20 [] in
  set_block (set_comp_ack false);;
  set_block (λ b, set_snd (snd_una b) (u32 (snd_nxt b + 1)) (snd_wnd b) (snd_mss b) b);;
  lock_acquire;; push_segment seg;; lock_release;;
  _ ← sendSegment seg; mret tt.

Definition windowUpdate : M unit :=
  b ← gets m_block;
  _ ← sendSegment (mk_seg (snd_nxt b) (rcv_nxt b) 0 TCP_ACK 0 0 20 []); mret tt.

(** The tail of the failure paths: [bool send_rst = reset(); m_lock.release();
    if (send_rst) rst();]. *)
Definition reset_and_rst : M unit :=
  send_rst ← reset;
  lock_release;;
  when send_rst rst.

(** The loop of [packetReceived] over the retransmission queue: the segments
    kept so far, those still to look at.  [true] is the early return. *)
Fixpoint ack_loop (ackn : Z) (kept queue : list segment) : M bool :=
  match queue with
  | [] => modify (upd_queue kept);; mret false
  | seg :: queue =>
      if negb (is_before_or_equal (ack_with seg) ackn half) then ack_loop ackn (kept ++ [seg]) queue
      else
        st ← block state;
        if has (flags seg) TCP_FIN then
          if bool_decide (st = TCP_FIN_WAIT_1) then
            set_block (set_state TCP_FIN_WAIT_2);; raise_rx;;
            ack_loop ackn kept queue
          else if one_of st [TCP_LAST_ACK; TCP_CLOSING] then
            _close;; set_block (set_state TCP_CLOSED);; lock_release;; mret true
          else ack_loop ackn kept queue
        else if has (flags seg) TCP_SYN then
          if bool_decide (st = TCP_SYN_RECEIVED) then
            set_block (set_state TCP_ESTABLISHED);; raise_rx;;
            ack_loop ackn kept queue
          else ack_loop ackn kept queue
        else ack_loop ackn kept queue
  end.

(** The [TCP_ACK] part: [true] is an early return. *)
Definition on_ack (h : header) : M bool :=
  b ← gets m_block;
  when (is_after_or_equal (h_ackn h) (snd_una b) half)
    (set_block (λ b, set_snd (h_ackn h) (snd_nxt b) (h_window h) (snd_mss b) b));;
  if one_of (state b) [TCP_SYN_SENT; TCP_SYN_RECEIVED] && negb (h_ackn h =? snd_nxt b) then
    set_block (λ b, set_snd (snd_una b) (h_ackn h) (snd_wnd b) (snd_mss b) b);;
    set_block (set_rcv_nxt (h_seqn h));;
    reset_and_rst;; mret true
  else
    q ← gets m_retransmission_queue;
    ack_loop (h_ackn h) [] q.

(** [CircularBuffer::write] of bytes that fit: a call that would wait blocks
    the caller. *)
Definition rx_write (bs : list Z) : M unit := λ s,
  w ← CircularBuffer.write (m_rx_buffer s) bs false;
  match w with
  | Finished r _ => Done (tt, upd_buffers (m_tx_buffer s) r s)
  | Waiting _ _ _ => Panic "blocked in CircularBuffer::write"
  end.

(** The data part: [true] is an early return. *)
Definition on_data (h : header) (expected_seqn : Z) (buffer : list Z) (data_len : Z) : M bool :=
  if data_len =? 0 then mret false
  else if h_seqn h =? expected_seqn then
    av ← gets (λ s, writeAvailable (m_rx_buffer s));
    if data_len >? av then reset_and_rst;; mret true
    else
      set_block (λ b, set_rcv_nxt (u32 (rcv_nxt b + data_len)) b);;
      shut ← block receive_shut;
      when (negb shut) (bs ← lift (get buffer (h_hdr_len h) data_len); rx_write bs);;
      ack;;
      w ← gets getWindow;
      when (w <? TCP_RX_BUFFER_SIZE / 2) (set_block (set_notify true));;
      raise_rx;; mret false
  else
    nxt ← block rcv_nxt;
    when (is_before_or_equal (u32 (h_seqn h + data_len)) nxt half)
      (lock_release;; ack_now (u32 (h_seqn h + data_len));; lock_acquire);;
    mret false.

Definition on_fin : M unit :=
  set_block (λ b, set_shut (send_shut b) true b);;
  st ← block state;
  let accept := set_block (λ b, set_rcv_nxt (u32 (rcv_nxt b + 1)) b);; ack in
  match st with
  | TCP_FIN_WAIT_1 => accept;; set_block (set_state TCP_CLOSING)
  | TCP_FIN_WAIT_2 => accept
  | TCP_ESTABLISHED => accept;; set_block (set_state TCP_CLOSE_WAIT)
  | _ => mret tt
  end;;
  raise_rx.

(** The part of [packetReceived] for a connected socket, from the lock on. *)
Definition packetReceivedConnected (buffer : list Z) (len : Z) : M unit :=
  lock_acquire;;
  h ← lift (read_header buffer);
  expected_seqn ← block rcv_nxt;
  let data_len := if h_hdr_len h >=? len then 0 else u16 (len - h_hdr_len h) in
  b ← gets m_block;
  b ← lift (readOptions (Z.to_nat (h_hdr_len h)) b buffer (h_hdr_len h) 20);
  set_block (λ _, b);;
  if has (h_flags h) TCP_RST then
    window ← gets getWindow;
    (if bool_decide (state b = TCP_SYN_SENT) && has (h_flags h) TCP_ACK && (h_ackn h =? snd_nxt b) then
       _ ← reset; mret tt
     else when (is_after_or_equal (h_seqn h) expected_seqn half &&
                is_before (h_seqn h) (u32 (expected_seqn + window)) half) (_ ← reset; mret tt));;
    lock_release
  else
    when (has (h_flags h) TCP_SYN && bool_decide (state b = TCP_SYN_SENT))
      (set_block (set_rcv_nxt (u32 (h_seqn h + 1)));;
       lock_release;; ack_now (u32 (h_seqn h + 1));; lock_acquire;;
       set_block (set_state TCP_SYN_RECEIVED);; raise_rx);;
    early ← (if has (h_flags h) TCP_ACK then on_ack h else mret false);
    if (early : bool) then mret tt
    else
      early ← on_data h expected_seqn buffer data_len;
      if (early : bool) then mret tt
      else
        when (has (h_flags h) TCP_FIN && (h_seqn h =? expected_seqn)) on_fin;;
        lock_release.

(** ** A listening socket *)

Fixpoint find_entry (l : list entry) (addr port : Z) (i : nat) : option nat :=
  match l with
  | [] => None
  | e :: l => if (source_address e =? addr) && (source_port e =? port) then Some i else find_entry l addr port (S i)
  end.

Definition fresh_block : tcp_block :=
  mk_block TCP_CLOSED 0 0 0 0 0 false false false false false.

(** [tryCreateListenEntry]: the queue with a new entry, or [None] when the peer
    has one already. *)
Definition tryCreateListenEntry (l : list entry) (addr port : Z) : option (list entry) :=
  match find_entry l addr port 0 with
  | Some _ => None
  | None => Some (l ++ [mk_entry addr port fresh_block])
  end.

Definition getListenEntry (l : list entry) (addr port : Z) : option nat := find_entry l addr port 0.

Fixpoint removeEntry (l : list entry) (addr port : Z) : list entry :=
  match l with
  | [] => []
  | e :: l =>
      if negb (source_address e =? addr) || negb (source_port e =? port) then e :: removeEntry l addr port
      else removeEntry l addr port
  end.

(** [m_listen_queue] behind its pointer; a null pointer is a [Fault]. *)
Definition listen_queue : M (list entry) := λ s,
  match m_listen_queue s with Some l => Done (l, s) | None => Fault end.
Definition set_listen_queue (l : list entry) : M unit :=
  modify (λ s, upd_listen (Some l) (m_accept_queue s) (m_listen_backlog s) s).

Definition accept_queue : M (list child) := λ s,
  match m_accept_queue s with Some l => Done (l, s) | None => Fault end.

(** [TCPSocket(parent, listen_entry)]. *)
Definition spawn (e : entry) : M child := λ s,
  match get_interface (source_address e) with
  | None => Panic "dev"
  | Some a => Done (mk_child a (local_port s) (source_address e) (source_port e) (e_block e), s)
  end.

(** The [TCP_SYN] part: [true] is the early return. *)
Definition on_listen_syn (src src_port : Z) (h : header) (uptime : Z) : M bool :=
  l ← listen_queue;
  let isn := u32 (u64 (u64 (uptime - uptime mod 10000) + 2137 + 1)) in
  let b := mk_block TCP_SYN_RECEIVED isn isn (h_window h) TCP_MIN_MSS (u32 (h_seqn h + 1)) false false false false false in
  match tryCreateListenEntry l src src_port with
  | Some _ => set_listen_queue (l ++ [mk_entry src src_port b])
  | None => mret tt
  end;;
  l ← listen_queue;
  match getListenEntry l src src_port with
  | None => lock_release;; mret true
  | Some i =>
      e ← lift (l.[Z.of_nat i]);
      let seg := mk_seg (u32 (snd_nxt (e_block e) - 1)) (rcv_nxt (e_block e)) 0 (Z.lor TCP_SYN TCP_ACK) 0 0 24 mss_option in
      lock_release;; _ ← sendSegmentTo seg src src_port; lock_acquire;;
      mret false
  end.

Definition packetReceivedListen (src src_port : Z) (buffer : list Z) (len uptime : Z) : M unit :=
  h ← lift (read_header buffer);
  lock_acquire;;
  if has (h_flags h) TCP_RST then lock_release
  else
    early ← (if has (h_flags h) TCP_SYN then on_listen_syn src src_port h uptime else mret false);
    if (early : bool) then mret tt
    else
      l ← listen_queue;
      match getListenEntry l src src_port with
      | None => lock_release
      | Some i =>
          e ← lift (l.[Z.of_nat i]);
          b ← lift (readOptions (Z.to_nat (h_hdr_len h)) (e_block e) buffer (h_hdr_len h) 20);
          backlog ← gets m_listen_backlog;
          (if has (h_flags h) TCP_ACK && bool_decide (state b = TCP_SYN_RECEIVED) &&
              is_after_or_equal (h_ackn h) (snd_nxt b) half && (backlog >? 0) then
             let e := mk_entry src src_port (set_state TCP_ESTABLISHED b) in
             c ← spawn e;
             aq ← accept_queue;
             modify (upd_listen (Some (removeEntry l src src_port)) (Some (aq ++ [c])) (backlog - 1));;
             raise_rx
           else
             l ← lift (l.[Z.of_nat i := mk_entry src src_port b]);
             set_listen_queue l);;
          lock_release
      end.

Definition packetReceived (src src_port : Z) (buffer : list Z) (len uptime : Z) : M unit :=
  st ← block state;
  da ← gets destination_address; dp ← gets destination_port;
  if negb (bool_decide (st = TCP_LISTEN)) && negb (src =? da) && negb (src_port =? dp) then mret tt
  else if bool_decide (st = TCP_CLOSED) then mret tt
  else if bool_decide (st = TCP_LISTEN) then packetReceivedListen src src_port buffer len uptime
  else packetReceivedConnected buffer len.

(** ** The user's calls

    A call that blocks has released the lock and is resumed by its [_turn]
    after re-acquiring it: [None] is a call that waits. *)

Inductive error_t := ENONE | EINVAL | EISCONN | ECONNREFUSED | ENOTCONN | EPIPE.

Definition clearState : M unit :=
  modify (λ s, upd_buffers (resize (m_tx_buffer s) TCP_TX_BUFFER_SIZE) (resize (m_rx_buffer s) TCP_RX_BUFFER_SIZE) s);;
  modify (upd_queue []);;
  set_block (λ _, mk_block TCP_CLOSED 0 0 0 TCP_MIN_MSS 0 false false false false false).

(** [connect] from the loop on, the lock held. *)
Definition connect_turn (timeout_at uptime : Z) : M (option error_t) :=
  st ← block state;
  if negb (one_of st [TCP_ESTABLISHED; TCP_CLOSED]) && (uptime <? timeout_at) then lock_release;; mret None
  else if negb (one_of st [TCP_ESTABLISHED; TCP_FIN_WAIT_1; TCP_FIN_WAIT_2; TCP_CLOSE_WAIT]) then
    reset_and_rst;; mret (Some ECONNREFUSED)
  else lock_release;; mret (Some ENONE).

Definition connect (addr : option (Z * Z)) (uptime : Z) : M (option error_t) :=
  match addr with
  | None => mret (Some EINVAL)
  | Some (a, p) =>
      lock_acquire;;
      st ← block state;
      if negb (bool_decide (st = TCP_CLOSED)) then lock_release;; mret (Some EISCONN)
      else
        modify (upd_peer a p);;
        clearState;;
        set_block (set_state TCP_SYN_SENT);;
        lock_release;;
        syn uptime;;
        lock_acquire;;
        connect_turn (u64 (uptime + TCP_CONNECTION_TIMEOUT)) uptime
  end.

Definition bind (addr : option (Z * Z)) : M error_t :=
  match addr with
  | None => mret EINVAL
  | Some (a, p) => lock_acquire;; modify (upd_local a p);; lock_release;; mret ENONE
  end.

Definition listen (backlog : Z) : M error_t :=
  lock_acquire;;
  st ← block state;
  if negb (bool_decide (st = TCP_CLOSED)) then lock_release;; mret EISCONN
  else
    set_block (set_state TCP_LISTEN);;
    modify (upd_listen (Some []) (Some []) (clamp backlog 0 128));;
    modify (λ s, upd_buffers (resize (m_tx_buffer s) 0) (resize (m_rx_buffer s) 0) s);;
    lock_release;; mret ENONE.

(** [accept]: the loop waits before it looks at the queue. *)
Definition accept_wait : M (option (error_t + child)) :=
  st ← block state;
  if bool_decide (st = TCP_CLOSED) then lock_release;; mret (Some (inl EINVAL))
  else lock_release;; mret None.

Definition accept : M (option (error_t + child)) :=
  lock_acquire;;
  st ← block state;
  if negb (bool_decide (st = TCP_LISTEN)) then lock_release;; mret (Some (inl EINVAL)) else accept_wait.

Definition accept_turn : M (option (error_t + child)) :=
  lock_acquire;;
  q ← accept_queue;
  match q with
  | [] => accept_wait
  | c :: q =>
      modify (λ s, upd_listen (m_listen_queue s) (Some q) (m_listen_backlog s + 1) s);;
      lock_release;; mret (Some (inr c))
  end.

Definition tx_write (bs : list Z) : M unit := λ s,
  w ← CircularBuffer.write (m_tx_buffer s) bs false;
  match w with
  | Finished r _ => Done (tt, upd_buffers r (m_rx_buffer s) s)
  | Waiting _ _ _ => Panic "blocked in CircularBuffer::write"
  end.

Definition tx_read (n : Z) : M (list Z) := λ s,
  r ← CircularBuffer.read (m_tx_buffer s) n (-1) false;
  match r with
  | Finished r bs => Done (bs, upd_buffers r (m_rx_buffer s) s)
  | Waiting _ _ _ => Panic "blocked in CircularBuffer::read"
  end.

Definition rx_read (n : Z) : M (list Z) := λ s,
  r ← CircularBuffer.read (m_rx_buffer s) n (-1) false;
  match r with
  | Finished r bs => Done (bs, upd_buffers (m_tx_buffer s) r s)
  | Waiting _ _ _ => Panic "blocked in CircularBuffer::read"
  end.

(** The loop of [sendTo], the lock held, with [rest] still to write: every turn
    writes a byte, so the length of [rest] and one turn more are enough. *)
Fixpoint sendTo_loop (fuel : nat) (rest : list Z) (req_len : Z) : M (option (error_t + Z) * list Z) :=
  match fuel with
  | O => lift Fault
  | S fuel =>
      shut ← block send_shut;
      if (Z.of_nat (length rest) =? 0) || shut then lock_release;; mret (Some (inr req_len), rest)
      else
        av ← gets (λ s, writeAvailable (m_tx_buffer s));
        if av =? 0 then lock_release;; mret (None, rest)
        else
          let av := av `min` Z.of_nat (length rest) in
          tx_write (take (Z.to_nat av) rest);;
          sendTo_loop fuel (drop (Z.to_nat av) rest) req_len
  end.

Definition sendTo (buffer : list Z) (dst_addr : option (Z * Z)) : M (option (error_t + Z) * list Z) :=
  let len := Z.of_nat (length buffer) in
  shut ← block send_shut;
  if len =? 0 then mret (Some (inl EINVAL), buffer)
  else if (shut : bool) then mret (Some (inl EPIPE), buffer)
  else match dst_addr with
  | Some _ => mret (Some (inl EISCONN), buffer)
  | None =>
      lock_acquire;;
      st ← block state;
      if negb (bool_decide (st = TCP_ESTABLISHED)) then lock_release;; mret (Some (inl ENOTCONN), buffer)
      else sendTo_loop (S (length buffer)) buffer len
  end.

(** The loop of [receiveFrom], the lock held: [got] so far, [len] to go. *)
Fixpoint receiveFrom_loop (fuel : nat) (got : list Z) (len : Z) (waitall : bool) : M (option (error_t + list Z)) :=
  match fuel with
  | O => lift Fault
  | S fuel =>
      if len =? 0 then lock_release;; mret (Some (inr got))
      else
        av ← gets (λ s, readAvailable (m_rx_buffer s));
        shut ← block receive_shut;
        if av =? 0 then
          if (negb waitall && (Z.of_nat (length got) >? 0)) || shut then lock_release;; mret (Some (inr got))
          else lock_release;; mret None
        else
          let av := av `min` len in
          bs ← rx_read av;
          notify ← block notify_of_window_size;
          when notify (set_block (set_notify false);; lock_release;; windowUpdate;; lock_acquire);;
          receiveFrom_loop fuel (got ++ bs) (len - av) waitall
  end.

Definition receiveFrom (len : Z) (waitall : bool) (src_addr : bool) : M (option (error_t + list Z)) :=
  if len =? 0 then mret (Some (inl EINVAL))
  else if src_addr then mret (Some (inl EISCONN))
  else
    lock_acquire;;
    st ← block state;
    if negb (bool_decide (st = TCP_ESTABLISHED)) then lock_release;; mret (Some (inl ENOTCONN))
    else receiveFrom_loop (S (Z.to_nat len)) [] len waitall.

(** ** The timer *)

(** The loop of [package], the lock held; every turn takes a byte of the
    buffer. *)
Fixpoint package_loop (fuel : nat) (uptime : Z) : M unit :=
  match fuel with
  | O => lift Fault
  | S fuel =>
      av ← gets (λ s, readAvailable (m_tx_buffer s));
      if av =? 0 then mret tt
      else
        b ← gets m_block;
        if snd_wnd b =? 0 then lift (Panic "m_block.snd_wnd != 0")
        else
          let size := (av `min` snd_wnd b) `min` snd_mss b in
          bs ← tx_read size;
          let seg := mk_seg (snd_nxt b) (rcv_nxt b) (u32 (snd_nxt b + size)) (Z.lor TCP_PSH TCP_ACK)
                       (u64 (uptime + TCP_RETRANSMIT_INTERVAL)) 0 20 bs in
          set_block (λ b, set_snd (snd_una b) (u32 (snd_nxt b + size)) (u16 (snd_wnd b - size)) (snd_mss b) b);;
          push_segment seg;;
          lock_release;; _ ← sendSegment seg; lock_acquire;;
          set_block (set_comp_ack false);;
          package_loop fuel uptime
  end.

Definition package (uptime : Z) : M unit :=
  lock_acquire;;
  av ← gets (λ s, readAvailable (m_tx_buffer s));
  package_loop (S (Z.to_nat av)) uptime;;
  lock_release;;
  comp ← block sending_comp_ack;
  when comp (nxt ← block rcv_nxt; ack_now nxt;; set_block (set_comp_ack false)).

(** The loop of [retransmit] from index [i], with [n] entries to go; [true] is
    the early return. *)
Fixpoint retransmit_loop (n : nat) (i : nat) (uptime : Z) : M bool :=
  match n with
  | O => mret false
  | S n =>
      q ← gets m_retransmission_queue;
      seg ← lift (q.[Z.of_nat i]);
      if uptime <? retransmit_at seg then retransmit_loop n (S i) uptime
      else
        let r := u8 (retries seg + 1) in
        let seg' := mk_seg (seq seg) (ack_no seg) (ack_with seg) (flags seg)
                      (if r >? TCP_RETRIES then retransmit_at seg else u64 (retransmit_at seg + TCP_RETRANSMIT_INTERVAL))
                      r (header_len seg) (data seg) in
        q ← lift (q.[Z.of_nat i := seg']);
        modify (upd_queue q);;
        if r >? TCP_RETRIES then reset_and_rst;; mret true
        else lock_release;; _ ← sendSegment seg'; lock_acquire;; retransmit_loop n (S i) uptime
  end.

Definition retransmit (uptime : Z) : M unit :=
  lock_acquire;;
  q ← gets m_retransmission_queue;
  early ← retransmit_loop (length q) 0 uptime;
  if (early : bool) then mret tt else raise_tx;; lock_release.

Definition tick (uptime : Z) : M unit :=
  st ← block state;
  if bool_decide (st = TCP_CLOSED) then mret tt else package uptime;; retransmit uptime.

(** ** Closing *)

(** The two waits of [shutdown], the lock held. *)
Definition shutdown_wait_closed : M (option error_t) :=
  st ← block state;
  if bool_decide (st = TCP_CLOSED) then lock_release;; mret (Some ENONE) else lock_release;; mret None.

Definition shutdown_drained (uptime : Z) : M (option error_t) :=
  av ← gets (λ s, readAvailable (m_tx_buffer s));
  b ← gets m_block;
  if negb (av =? 0) || negb (snd_una b =? snd_nxt b) then lock_release;; mret None
  else
    match state b with
    | TCP_ESTABLISHED => set_block (set_state TCP_FIN_WAIT_1)
    | TCP_CLOSE_WAIT => set_block (set_state TCP_LAST_ACK)
    | _ => mret tt
    end;;
    lock_release;; fin uptime;; lock_acquire;;
    shutdown_wait_closed.

Definition SHUT_RD : Z := 1.
Definition SHUT_WR : Z := 2.

Definition shutdown (how uptime : Z) : M (option error_t) :=
  if how =? 0 then mret (Some EINVAL)
  else
    lock_acquire;;
    b ← gets m_block;
    if one_of (state b) [TCP_LISTEN; TCP_SYN_SENT; TCP_SYN_RECEIVED; TCP_CLOSED] then
      lock_release;; mret (Some ENOTCONN)
    else
      when (has how SHUT_RD && negb (receive_shut b)) (set_block (λ b, set_shut (send_shut b) true b));;
      if has how SHUT_WR && negb (send_shut b) then
        set_block (λ b, set_shut true (receive_shut b) b);;
        shutdown_drained uptime
      else lock_release;; mret (Some ENONE).

Definition close_turn : M (option error_t) :=
  st ← block state;
  if bool_decide (st = TCP_CLOSED) then lock_release;; mret (Some ENONE) else lock_release;; mret None.

Definition close (uptime : Z) : M (option error_t) :=
  lock_acquire;;
  st ← block state;
  (if bool_decide (st = TCP_CLOSE_WAIT) then fin uptime
   else if one_of st [TCP_LAST_ACK; TCP_CLOSED] then mret tt
   else reset_and_rst;; lock_acquire);;
  close_turn.

End Socket.

(** ** Sequence numbers *)

(** Both comparisons on distinct numbers, as a distance test. *)
Lemma is_before_cases a b :
  0 ≤ a < 2 ^ 32 → 0 ≤ b < 2 ^ 32 →
  is_before a b half = if a =? b then false else if b <? a then 2 ^ 31 <=? a - b else b - a <? 2 ^ 31.
Proof.
  intros Ha Hb. unfold is_before, half. destruct (Z.eqb_spec a b); [done|]. rewrite Z.gtb_ltb.
  destruct (Z.ltb_spec b a).
  - rewrite (wrap_small 32 (0xFFFFFFFF - a)) by lia. rewrite wrap_small by lia.
    destruct (Z.leb_spec (0xFFFFFFFF - a + b) 2147483647), (Z.leb_spec (2 ^ 31) (a - b)); lia.
  - destruct (Z.ltb_spec a b); [|lia]. rewrite wrap_small by lia.
    destruct (Z.leb_spec (b - a) 2147483647), (Z.ltb_spec (b - a) (2 ^ 31)); lia.
Qed.

Lemma is_before_or_equal_cases a b : is_before_or_equal a b half = (a =? b) || is_before a b half.
Proof. unfold is_before_or_equal, is_before. by destruct (a =? b). Qed.

Lemma wrap_add_cases a n :
  0 ≤ a < 2 ^ 32 → 0 ≤ n < 2 ^ 32 →
  u32 (a + n) = if a + n <? 2 ^ 32 then a + n else a + n - 2 ^ 32.
Proof.
  intros. unfold wrap. destruct (Z.ltb_spec (a + n) (2 ^ 32)); [by apply Z.mod_small; lia|].
  rewrite <-(Z_mod_plus_full _ (-1)). rewrite Z.mod_small; lia.
Qed.

Lemma is_before_add a n :
  0 ≤ a < 2 ^ 32 → 0 < n < 2 ^ 31 → is_before a (u32 (a + n)) half = true ∧ is_before (u32 (a + n)) a half = false.
Proof.
  intros Ha Hn. rewrite !is_before_cases by (done || apply wrap_bound; lia). rewrite wrap_add_cases by lia.
  destruct (Z.ltb_spec (a + n) (2 ^ 32)).
  - destruct (Z.eqb_spec a (a + n)), (Z.eqb_spec (a + n) a), (Z.ltb_spec (a + n) a), (Z.ltb_spec a (a + n)),
      (Z.leb_spec (2 ^ 31) (a + n - a)), (Z.ltb_spec (a + n - a) (2 ^ 31)); lia.
  - repeat match goal with |- context[Z.eqb ?x ?y] => destruct (Z.eqb_spec x y)
      | |- context[Z.ltb ?x ?y] => destruct (Z.ltb_spec x y) | |- context[Z.leb ?x ?y] => destruct (Z.leb_spec x y) end; lia.
Qed.

(** The sequence-number comparison is a strict order on every
    half of the number circle, wrap-around included: of two distinct numbers
    exactly one is before the other, a number is before every number up to
    [2^31 - 1] ahead of it, and [is_after] is its mirror image. *)
Lemma seq_order a b n :
  0 ≤ a < 2 ^ 32 → 0 ≤ b < 2 ^ 32 → 0 < n < 2 ^ 31 →
  (a ≠ b → is_before b a half = negb (is_before a b half)) ∧
  is_before a a half = false ∧
  is_before a (u32 (a + n)) half = true ∧
  is_after (u32 (a + n)) a half = true ∧
  is_after a b half = is_before b a half.
Proof.
  intros Ha Hb Hn.
  assert (Hanti : ∀ x y, 0 ≤ x < 2 ^ 32 → 0 ≤ y < 2 ^ 32 → x ≠ y → is_before y x half = negb (is_before x y half)).
  { intros x y Hx Hy Hne. rewrite !is_before_cases by done.
    repeat match goal with |- context[Z.eqb ?x ?y] => destruct (Z.eqb_spec x y)
      | |- context[Z.ltb ?x ?y] => destruct (Z.ltb_spec x y) | |- context[Z.leb ?x ?y] => destruct (Z.leb_spec x y) end; lia. }
  destruct (is_before_add a n Ha Hn) as [Hlt Hge]. unfold is_after. rewrite !is_before_or_equal_cases.
  assert (Hne : u32 (a + n) ≠ a) by (intros Heq; rewrite Heq in Hlt; unfold is_before in Hlt; by rewrite Z.eqb_refl in Hlt).
  split_and!; [by apply Hanti|unfold is_before; by rewrite Z.eqb_refl|done|by rewrite (proj2 (Z.eqb_neq _ _) Hne), Hge|].
  destruct (Z.eqb_spec a b) as [->|]; [unfold is_before; by rewrite Z.eqb_refl|]. by rewrite (Hanti a b).
Qed.

Lemma seq_order_witness :
  is_before 0xFFFFFFF0 5 half = true ∧ is_before 5 0xFFFFFFF0 half = negb (is_before 0xFFFFFFF0 5 half).
Proof.
  destruct (seq_order 0xFFFFFFF0 5 21) as (Hb & _ & Hn & _); [lia..|]. split; [exact Hn|apply Hb; lia].
Defined.

End Tcp.
