(* ===== verification/TcpProps.v ===== *)
(** * TCP: theorems

    Sequence-number order, the wire format, the handshake, in-order delivery,
    packaging of the output stream, acknowledgement and closing. *)
From S2P Require Import Prelude Locks Math Ring Net Tcp.
Local Open Scope Z_scope.
Import Bytes Checksum CircularBuffer Tcp.

Module TcpProps.

(** ** The wire format *)

(** The two halves of the header around the checksum. *)
Definition header_front (sport dport sq ak bits window : Z) : list Z :=
  be16_set sport ++ be16_set dport ++ be32_set sq ++ be32_set ak ++ be16_set bits ++ be16_set window.

Lemma header_split sport dport sq ak bits window csum :
  header_bytes sport dport sq ak bits window csum =
  header_front sport dport sq ak bits window ++ be16_set csum ++ be16_set 0.
Proof. unfold header_bytes, header_front. by rewrite <-!app_assoc. Qed.

Lemma header_front_length sport dport sq ak bits window :
  length (header_front sport dport sq ak bits window) = 16%nat.
Proof. apply Nat2Z.inj. unfold header_front. field_length. Qed.

Lemma header_length sport dport sq ak bits window csum :
  length (header_bytes sport dport sq ak bits window csum) = 20%nat.
Proof. apply Nat2Z.inj. unfold header_bytes. field_length. Qed.

Lemma tcp_header_bytes sport dport sq ak bits window csum :
  bytes (header_bytes sport dport sq ak bits window csum).
Proof. unfold header_bytes, bytes. rewrite !Forall_app. split_and!; first [apply be16_bytes|apply be32_bytes]. Qed.

Lemma fake_header_length src dst len : length (fake_header src dst len) = 12%nat.
Proof. apply Nat2Z.inj. unfold fake_header. field_length. Qed.

Lemma fake_header_bytes src dst len : bytes (fake_header src dst len).
Proof.
  unfold fake_header, bytes. rewrite !Forall_app. split_and!; first [by apply le_bytes_bytes | repeat constructor; lia].
Qed.

Lemma wsum_fake_pos src dst len : 0 < wsum (fake_header src dst len).
Proof.
  unfold fake_header. rewrite !wsum_app.
  - pose proof (wsum_bound (le_bytes 4 src) ltac:(by apply le_bytes_bytes)).
    pose proof (wsum_bound (le_bytes 4 dst) ltac:(by apply le_bytes_bytes)).
    pose proof (wsum_bound (be16_set len) (be16_bytes _)). change (wsum [0; 6]) with 1536. lia.
  - done.
  - pose proof (le_bytes_length 4 dst ltac:(lia)). by replace (length (le_bytes 4 dst)) with 4%nat by lia.
  - pose proof (le_bytes_length 4 src ltac:(lia)). by replace (length (le_bytes 4 src)) with 4%nat by lia.
Qed.

(** The sums [encode] and [parse] make. *)
Lemma wsum_header sport dport sq ak bits window csum dat :
  wsum (header_bytes sport dport sq ak bits window csum ++ dat) =
  wsum (header_bytes sport dport sq ak bits window 0) + le_value (be16_set csum) + wsum dat.
Proof.
  rewrite wsum_app by (by rewrite header_length). rewrite !header_split.
  rewrite !(wsum_app (header_front _ _ _ _ _ _)) by (by rewrite header_front_length).
  assert (He : ∀ v, Nat.even (length (be16_set v)) = true)
    by (intros v; pose proof (be16_length v); by replace (length (be16_set v)) with 2%nat by lia).
  rewrite !(wsum_app (be16_set _)) by done. rewrite (wsum_be16 csum). change (wsum (be16_set 0)) with 0. lia.
Qed.

(** A segment the sender can make. *)
Definition sendable (seg : segment) : Prop :=
  0 ≤ seq seg < 2 ^ 32 ∧ 0 ≤ ack_no seg < 2 ^ 32 ∧ 0 ≤ flags seg < 64 ∧ bytes (data seg) ∧
  (∃ k, header_len seg = 4 * k ∧ 5 ≤ k < 16) ∧
  header_len seg ≤ 20 + Z.of_nat (length (data seg)) < 2 ^ 16.

Definition seg_bits (seg : segment) : Z := Z.lor (Z.shiftl (header_len seg / 4) 12) (flags seg).

Lemma seg_bits_eq seg : sendable seg →
  seg_bits seg = header_len seg * 1024 + flags seg ∧ 0 ≤ seg_bits seg < 2 ^ 16.
Proof.
  intros (_ & _ & Hf & _ & (k & Hk & Hkb) & _). unfold seg_bits. rewrite Hk.
  replace (4 * k / 4) with k by (rewrite Z.mul_comm, Z.div_mul; lia).
  assert (Hz : Z.land (Z.shiftl k 12) (flags seg) = 0).
  { apply Z.bits_inj'. intros i Hi. rewrite Z.land_spec, Z.bits_0.
    destruct (decide (i < 12)); [by rewrite (Z.shiftl_spec_low k) by lia|].
    rewrite (high_bits 12 (flags seg)) by lia. apply andb_false_r. }
  rewrite <-Z.lxor_lor, <-Z.add_nocarry_lxor, Z.shiftl_mul_pow2 by (done || lia). lia.
Qed.

Lemma seg_bits_fields seg : sendable seg →
  u16 (Z.shiftr (seg_bits seg) 12 * 4) = header_len seg ∧ Z.shiftr (seg_bits seg) 10 = header_len seg ∧
  ∀ f, 0 ≤ f < 64 → has (seg_bits seg) f = has (flags seg) f.
Proof.
  intros Hs. destruct (seg_bits_eq seg Hs) as [Heq _]. pose proof Hs as (_ & _ & Hf & _ & (k & Hk & Hkb) & _).
  split_and!.
  - rewrite Heq, Z.shiftr_div_pow2 by lia. replace (header_len seg * 1024 + flags seg) with (flags seg + k * 2 ^ 12) by lia.
    rewrite Z.div_add, Z.div_small by lia. rewrite wrap_small; lia.
  - rewrite Heq, Z.shiftr_div_pow2 by lia. replace (header_len seg * 1024 + flags seg) with (flags seg + header_len seg * 2 ^ 10) by lia.
    rewrite Z.div_add, Z.div_small by lia. lia.
  - intros f Hfb. unfold has, seg_bits. rewrite Z.land_lor_distr_l.
    replace (Z.land (Z.shiftl (header_len seg / 4) 12) f) with 0; [done|].
    symmetry. apply Z.bits_inj'. intros i Hi. rewrite Z.land_spec, Z.bits_0.
    destruct (decide (i < 12)); [by rewrite Z.shiftl_spec_low by lia|].
    rewrite (high_bits 12 f) by lia. apply andb_false_r.
Qed.

(** The payload of [sendSegment]'s packet. *)
Definition wire (seg : segment) (src sport dst dport window : Z) : list Z :=
  header_bytes sport dport (seq seg) (ack_no seg) (seg_bits seg) window
    (to_checksum (wsum (fake_header src dst (Z.of_nat (length (data seg)) + 20)) +
                  wsum (header_bytes sport dport (seq seg) (ack_no seg) (seg_bits seg) window 0) + wsum (data seg)))
  ++ data seg.

Lemma wire_length seg src sport dst dport window :
  Z.of_nat (length (wire seg src sport dst dport window)) = 20 + Z.of_nat (length (data seg)).
Proof. unfold wire. rewrite length_app, header_length. lia. Qed.

Lemma encode_wire seg src sport dst dport window :
  sendable seg → encode seg src sport dst dport window = Done (wire seg src sport dst dport window).
Proof.
  intros Hs. destruct (seg_bits_eq seg Hs) as [_ Hb]. destruct Hs as (_ & _ & _ & Hd & _ & Hl).
  unfold encode. fold (seg_bits seg). rewrite (wrap_small 16 (seg_bits seg)) by done.
  rewrite (wrap_small 16 (_ + 20)) by lia. rewrite (wrap_small 16 (Z.of_nat _)) by lia.
  set (F := fake_header _ _ _). set (H := header_bytes _ _ _ _ _ _ 0).
  pose proof (wsum_bound F (fake_header_bytes _ _ _)) as HF. pose proof (wsum_bound H (tcp_header_bytes _ _ _ _ _ _ _)) as HH.
  pose proof (wsum_bound (data seg) Hd) as HD.
  pose proof (sum_bytes_spec F [] (fake_header_bytes _ _ _)) as HsF.
  pose proof (sum_bytes_spec H [] (tcp_header_bytes _ _ _ _ _ _ _)) as HsH.
  pose proof (sum_bytes_spec (data seg) [] Hd) as HsD.
  rewrite app_nil_r in HsF, HsH, HsD. unfold F, H in HsF, HsH, HF, HH. rewrite fake_header_length in HsF, HF. rewrite header_length in HsH, HH.
  change (Z.of_nat 12) with 12 in *. change (Z.of_nat 20) with 20 in *.
  unfold F, H. rewrite HsF, HsH, HsD by lia. cbn [mbind outcome_bind].
  rewrite (wrap_small 32 (_ + wsum (header_bytes _ _ _ _ _ _ _))) by lia. rewrite wrap_small by lia. done.
Qed.

Lemma wire_header seg src sport dst dport window :
  sendable seg → 0 ≤ window < 2 ^ 16 →
  read_header (wire seg src sport dst dport window) =
    Done (mk_header (header_len seg) (seg_bits seg) (seq seg) (ack_no seg) window).
Proof.
  intros Hs Hw. destruct (seg_bits_eq seg Hs) as [_ Hb]. destruct (seg_bits_fields seg Hs) as (Hh & _ & _).
  destruct Hs as (Hsq & Hak & _). unfold read_header, wire. generalize (to_checksum (wsum (fake_header src dst (Z.of_nat (length (data seg)) + 20)) +
    wsum (header_bytes sport dport (seq seg) (ack_no seg) (seg_bits seg) window 0) + wsum (data seg))) as c. intros c.
  set (l := header_bytes _ _ _ _ _ _ _ ++ _).
  assert (H4 : get l 4 4 = Done (be32_set (seq seg))).
  { eapply (get_field l (be16_set sport ++ be16_set dport)); [unfold l, header_bytes; by rewrite <-!app_assoc|field_length..]. }
  assert (H8 : get l 8 4 = Done (be32_set (ack_no seg))).
  { eapply (get_field l (be16_set sport ++ be16_set dport ++ be32_set (seq seg)));
      [unfold l, header_bytes; by rewrite <-!app_assoc|field_length..]. }
  assert (H12 : get l 12 2 = Done (be16_set (seg_bits seg))).
  { eapply (get_field l (be16_set sport ++ be16_set dport ++ be32_set (seq seg) ++ be32_set (ack_no seg)));
      [unfold l, header_bytes; by rewrite <-!app_assoc|field_length..]. }
  assert (H14 : get l 14 2 = Done (be16_set window)).
  { eapply (get_field l (be16_set sport ++ be16_set dport ++ be32_set (seq seg) ++ be32_set (ack_no seg) ++ be16_set (seg_bits seg)));
      [unfold l, header_bytes; by rewrite <-!app_assoc|field_length..]. }
  rewrite H4, H8, H12, H14. cbn [mbind outcome_bind].
  rewrite !be16_get_set, !be32_get_set by done. by rewrite Hh.
Qed.

Lemma wire_parse seg src sport dst dport window :
  sendable seg → 0 ≤ sport < 2 ^ 16 → 0 ≤ dport < 2 ^ 16 →
  parse (wire seg src sport dst dport window) (20 + Z.of_nat (length (data seg))) src dst = Done (Some (sport, dport)).
Proof.
  intros Hs Hsp Hdp. destruct (seg_bits_eq seg Hs) as [_ Hb]. destruct (seg_bits_fields seg Hs) as (_ & Hh & _).
  pose proof Hs as (_ & _ & _ & Hd & _ & Hl). unfold parse.
  destruct (Z.ltb_spec (20 + Z.of_nat (length (data seg))) 20); [lia|].
  assert (Hc : ∃ c, wire seg src sport dst dport window =
      header_bytes sport dport (seq seg) (ack_no seg) (seg_bits seg) window c ++ data seg ∧
      c = to_checksum (wsum (fake_header src dst (Z.of_nat (length (data seg)) + 20)) +
            wsum (header_bytes sport dport (seq seg) (ack_no seg) (seg_bits seg) window 0) + wsum (data seg))) by (eexists; by split).
  destruct Hc as (c & Hwire & Hc).
  pose proof (wire_length seg src sport dst dport window) as Hwl.
  set (l := wire seg src sport dst dport window) in *.
  assert (H12 : get l 12 2 = Done (be16_set (seg_bits seg))).
  { eapply (get_field l (be16_set sport ++ be16_set dport ++ be32_set (seq seg) ++ be32_set (ack_no seg)));
      [rewrite Hwire; unfold header_bytes; by rewrite <-!app_assoc|field_length..]. }
  assert (H0 : get l 0 2 = Done (be16_set sport)).
  { eapply (get_field l []); [rewrite Hwire; unfold header_bytes; by rewrite <-!app_assoc|done|field_length]. }
  assert (H2 : get l 2 2 = Done (be16_set dport)).
  { eapply (get_field l (be16_set sport)); [rewrite Hwire; unfold header_bytes; by rewrite <-!app_assoc|field_length..]. }
  rewrite H12. cbn [mbind outcome_bind]. rewrite be16_get_set, Hh by done.
  rewrite Z.gtb_ltb. destruct (Z.ltb_spec (20 + Z.of_nat (length (data seg))) (header_len seg)); [lia|].
  rewrite (Z.add_comm 20) at 1. set (F := fake_header _ _ _) in *.
  pose proof (sum_bytes_spec F [] (fake_header_bytes _ _ _)) as HsF. rewrite app_nil_r in HsF.
  assert (HFl : length F = 12%nat) by apply fake_header_length. rewrite HFl in HsF. change (Z.of_nat 12) with 12 in HsF.
  assert (Hlb : bytes l) by (rewrite Hwire; apply Forall_app; split; [apply tcp_header_bytes|done]).
  pose proof (sum_bytes_spec l [] Hlb) as Hsl. rewrite app_nil_r, Hwl in Hsl.
  rewrite HsF, Hsl by lia. cbn [mbind outcome_bind]. rewrite H0, H2. cbn [mbind outcome_bind].
  rewrite !be16_get_set by done.
  assert (Hsum : wsum l = wsum (header_bytes sport dport (seq seg) (ack_no seg) (seg_bits seg) window 0) + le_value (be16_set c) + wsum (data seg))
    by (rewrite Hwire; apply wsum_header).
  pose proof (wsum_bound F (fake_header_bytes _ _ _)) as HF. rewrite HFl in HF.
  pose proof (wsum_bound l Hlb) as HL. rewrite Hwl in HL.
  pose proof (wsum_bound (header_bytes sport dport (seq seg) (ack_no seg) (seg_bits seg) window 0) (tcp_header_bytes _ _ _ _ _ _ _)) as HH.
  rewrite header_length in HH. pose proof (wsum_bound (data seg) Hd) as HD.
  pose proof (wsum_fake_pos src dst (Z.of_nat (length (data seg)) + 20)) as Hpos. fold F in Hpos.
  rewrite wrap_small by lia.
  replace (wsum F + wsum l) with (wsum F + wsum (header_bytes sport dport (seq seg) (ack_no seg) (seg_bits seg) window 0) + wsum (data seg) + le_value (be16_set c)) by lia.
  rewrite Hc, checksum_self by lia. done.
Qed.

(** What [sendSegment] puts on the wire is what the receiver
    reads: the checksum over the pseudo-header is accepted by [TCPLayer::parse],
    the ports, sequence and acknowledgement numbers, the window, the header
    length and every flag come back, and the data follow the first 20 bytes. *)
Lemma segment_roundtrip seg src sport dst dport window :
  sendable seg → 0 ≤ sport < 2 ^ 16 → 0 ≤ dport < 2 ^ 16 → 0 ≤ window < 2 ^ 16 →
  ∃ bs bits, encode seg src sport dst dport window = Done bs ∧
    parse bs (Z.of_nat (length bs)) src dst = Done (Some (sport, dport)) ∧
    read_header bs = Done (mk_header (header_len seg) bits (seq seg) (ack_no seg) window) ∧
    (∀ f, 0 ≤ f < 64 → has bits f = has (flags seg) f) ∧
    get bs 20 (Z.of_nat (length (data seg))) = Done (data seg).
Proof.
  intros Hs Hsp Hdp Hw. exists (wire seg src sport dst dport window), (seg_bits seg).
  split; [by apply encode_wire|]. rewrite wire_length. split; [by apply wire_parse|]. split; [by apply wire_header|].
  split; [by apply seg_bits_fields|].
  eapply (get_field _ (header_bytes _ _ _ _ _ _ _) _ []); [by rewrite app_nil_r|by rewrite header_length|done].
Qed.

Definition demo_segment : segment := mk_seg 4294967290 77 4294967293 (Z.lor TCP_PSH TCP_ACK) 0 0 20 [104; 101; 121].

Lemma demo_sendable : sendable demo_segment.
Proof.
  unfold sendable, demo_segment, bytes. cbn [seq ack_no flags data header_len length]. unfold TCP_PSH, TCP_ACK.
  change (Z.lor 8 16) with 24. split_and!; try lia; [repeat constructor; lia|by exists 5].
Qed.

Lemma segment_roundtrip_witness :
  ∃ bs bits, encode demo_segment 0x0100007F 80 0x0200007F 12345 4096 = Done bs ∧
    read_header bs = Done (mk_header 20 bits 4294967290 77 4096) ∧ get bs 20 3 = Done [104; 101; 121].
Proof.
  destruct (segment_roundtrip demo_segment 0x0100007F 80 0x0200007F 12345 4096)
    as (bs & bits & H1 & _ & H3 & _ & H5); [exact demo_sendable|lia..|].
  exists bs, bits. split; [exact H1|split; [exact H3|exact H5]].
Defined.

(** ** Receiving *)

(** Run the methods' monad on a socket whose relevant fields are known. *)
Ltac fields :=
  cbv delta [upd_lock upd_block upd_buffers upd_queue upd_listen upd_peer upd_local upd_sent upd_raised
       set_state set_snd set_rcv_nxt set_comp_ack set_notify set_closing set_shut];
  cbn [fst snd mbind outcome_bind mret stateM_ret outcome_ret gets modify lift when block set_block raise_tx raise_rx
       lock_acquire lock_release ack spin_acquire spin_release push_segment
       m_lock m_block m_tx_buffer m_rx_buffer m_retransmission_queue m_listen_queue m_accept_queue m_listen_backlog
       m_async_id local_address local_port destination_address destination_port sent tx_raised rx_raised
       state snd_una snd_nxt snd_wnd snd_mss rcv_nxt sending_comp_ack notify_of_window_size closing send_shut receive_shut
       h_hdr_len h_flags h_seqn h_ackn h_window andb orb negb].
Ltac run := fields; repeat (rewrite run_bind; fields).

Lemma acquire_free s : m_lock s = false → lock_acquire s = Done (tt, upd_lock true s).
Proof. unfold lock_acquire. by intros ->. Qed.
Lemma release_held s : m_lock s = true → lock_release s = Done (tt, upd_lock false s).
Proof. unfold lock_release. by intros ->. Qed.

Definition unacked (ackn : Z) (q : list segment) : list segment :=
  List.filter (λ seg, negb (is_before_or_equal (ack_with seg) ackn half)) q.

(** In a state no acknowledgement changes, the acknowledged segments leave the
    queue and the others keep their order. *)
Lemma ack_loop_quiet ackn kept q s :
  one_of (state (m_block s)) [TCP_FIN_WAIT_1; TCP_LAST_ACK; TCP_CLOSING; TCP_SYN_RECEIVED] = false →
  ack_loop ackn kept q s = Done (false, upd_queue (kept ++ unacked ackn q) s).
Proof.
  intros Hst. revert kept. induction q as [|seg q IH]; intros kept.
  { simpl. by rewrite app_nil_r. }
  cbn [ack_loop unacked List.filter]. destruct (negb _).
  { rewrite IH. by rewrite <-app_assoc. }
  run. destruct (state (m_block s)) eqn:E; try discriminate Hst;
    destruct (has (flags seg) TCP_FIN), (has (flags seg) TCP_SYN); apply IH.
Qed.

Lemma read_options_none fuel b buffer : readOptions fuel b buffer 20 20 = Done b.
Proof. by destruct fuel. Qed.

Lemma rx_write_ok s bs :
  wf (m_rx_buffer s) → bs ≠ [] →
  Z.of_nat (length bs) ≤ m_size (m_rx_buffer s) - 1 - Z.of_nat (length (contents (m_rx_buffer s))) →
  ∃ r, wf r ∧ m_size r = m_size (m_rx_buffer s) ∧ contents r = contents (m_rx_buffer s) ++ bs ∧
    rx_write bs s = Done (tt, upd_buffers (m_tx_buffer s) r s).
Proof.
  intros Hwf Hne Hfit. unfold rx_write, CircularBuffer.write.
  assert (0 < Z.of_nat (length bs)) by (destruct bs; [done|simpl; lia]).
  destruct (Z.leb_spec (Z.of_nat (length bs)) 0); [lia|].
  destruct (write_loop_spec (S (length bs)) (m_rx_buffer s) bs 0 false) as (r & Hr & Hsz & Hct & Hrun); [done|lia|].
  unfold write_section. rewrite Hrun. rewrite Z.min_l in * by lia. rewrite Nat2Z.id, take_ge in Hct by lia.
  exists r. split_and!; [done..|]. cbn [mbind outcome_bind]. unfold write_result. by rewrite Z.sub_diag.
Qed.

(** A pure data segment on the wire. *)
Definition data_segment (seg : segment) : Prop :=
  sendable seg ∧ header_len seg = 20 ∧ flags seg = Z.lor TCP_PSH TCP_ACK ∧ data seg ≠ [].

(** The socket after the acknowledgement part of a received segment. *)
Definition acked (ackn window : Z) (s : sock) : sock :=
  upd_lock true (upd_queue (unacked ackn (m_retransmission_queue s))
    (upd_block (λ b, if is_after_or_equal ackn (snd_una b) half then set_snd ackn (snd_nxt b) window (snd_mss b) b else b) s)).

Lemma on_ack_quiet gi h s :
  one_of (state (m_block s)) [TCP_SYN_SENT; TCP_FIN_WAIT_1; TCP_LAST_ACK; TCP_CLOSING; TCP_SYN_RECEIVED] = false →
  m_lock s = true → on_ack gi h s = Done (false, acked (h_ackn h) (h_window h) s).
Proof.
  destruct s as [lk b tx rx q lq aq bl aid la lp da dp snt txr rxr]. cbn [m_block m_lock].
  intros Hst ->. unfold on_ack. run.
  assert (Hst' : one_of (state b) [TCP_SYN_SENT; TCP_SYN_RECEIVED] = false) by (by destruct (state b)).
  unfold acked. fields. destruct (is_after_or_equal _ _ _); run; rewrite Hst'; run;
    (rewrite ack_loop_quiet; [done|]); fields; by destruct (state b).
Qed.

(** A data segment at an established socket: the acknowledgement part, then the
    data part. *)
Lemma receive_data gi s seg src sport dst dport window uptime :
  data_segment seg → 0 ≤ window < 2 ^ 16 → m_lock s = false → state (m_block s) = TCP_ESTABLISHED →
  let bs := wire seg src sport dst dport window in
  let h := mk_header 20 (seg_bits seg) (seq seg) (ack_no seg) window in
  packetReceived gi (destination_address s) (destination_port s) bs (Z.of_nat (length bs)) uptime s =
  (early ← on_data gi h (rcv_nxt (m_block s)) bs (Z.of_nat (length (data seg)));
   if (early : bool) then mret tt else lock_release) (acked (ack_no seg) window s).
Proof.
  intros (Hs & Hhl & Hfl & Hne) Hw Hlock Hst bs h. unfold bs. rewrite wire_length.
  destruct (seg_bits_fields seg Hs) as (_ & _ & Hbits). pose proof Hs as (_ & _ & _ & _ & _ & Hlen).
  assert (Hf : has (seg_bits seg) TCP_RST = false ∧ has (seg_bits seg) TCP_SYN = false ∧
               has (seg_bits seg) TCP_ACK = true ∧ has (seg_bits seg) TCP_FIN = false)
    by (rewrite !Hbits, Hfl by (unfold TCP_RST, TCP_SYN, TCP_ACK, TCP_FIN; lia); done).
  destruct Hf as (Hrst & Hsyn & Hack & Hfin).
  destruct s as [lk b tx rx q lq aq bl aid la lp da dp snt txr rxr]. cbn [m_lock m_block] in Hlock, Hst. subst lk.
  unfold packetReceived. run. rewrite Hst. rewrite Z.eqb_refl, andb_false_r. cbn [andb].
  repeat (rewrite bool_decide_eq_false_2 by done). unfold packetReceivedConnected. run.
  rewrite wire_header by done. run. rewrite Hhl, read_options_none. run. rewrite Hrst, Hsyn, Hack, Hfin. run.
  rewrite on_ack_quiet by (fields; by rewrite ?Hst). run.
  assert (0 < Z.of_nat (length (data seg))) by (destruct (data seg); [done|simpl; lia]).
  rewrite Z.geb_leb. destruct (Z.leb_spec (20 + Z.of_nat (length (data seg))) 20); [lia|].
  rewrite wrap_small by lia. replace (20 + Z.of_nat (length (data seg)) - 20) with (Z.of_nat (length (data seg))) by lia.
  unfold acked. fields. fold h. destruct (on_data _ _ _ _ _ _) as [[[] s']| |]; run; done.
Qed.

Lemma wire_data seg src sport dst dport window :
  get (wire seg src sport dst dport window) 20 (Z.of_nat (length (data seg))) = Done (data seg).
Proof. eapply (get_field _ (header_bytes _ _ _ _ _ _ _) _ []); [by rewrite app_nil_r|by rewrite header_length|done]. Qed.

(** C6 (functional). Delivery: a data segment, as [sendSegment] encodes it,
    that arrives in order at an established socket with room for it is appended
    to the receive buffer byte for byte; [rcv_nxt] moves past it, an
    acknowledgement is scheduled, the segments it acknowledges leave the
    retransmission queue and the lock is free again. *)
Theorem data_delivered gi s seg src sport dport window uptime bs :
  data_segment seg → 0 ≤ window < 2 ^ 16 →
  encode seg src sport (local_address s) dport window = Done bs →
  m_lock s = false → state (m_block s) = TCP_ESTABLISHED → receive_shut (m_block s) = false →
  rcv_nxt (m_block s) = seq seg → wf (m_rx_buffer s) →
  Z.of_nat (length (data seg)) ≤ writeAvailable (m_rx_buffer s) →
  ∃ s', packetReceived gi (destination_address s) (destination_port s) bs (Z.of_nat (length bs)) uptime s = Done (tt, s') ∧
    wf (m_rx_buffer s') ∧ contents (m_rx_buffer s') = contents (m_rx_buffer s) ++ data seg ∧
    rcv_nxt (m_block s') = u32 (seq seg + Z.of_nat (length (data seg))) ∧
    sending_comp_ack (m_block s') = true ∧
    m_retransmission_queue s' = unacked (ack_no seg) (m_retransmission_queue s) ∧
    state (m_block s') = TCP_ESTABLISHED ∧ m_lock s' = false ∧
    m_tx_buffer s' = m_tx_buffer s ∧ sent s' = sent s.
Proof.
  intros Hd Hw Henc Hlock Hst Hshut Hrcv Hwf Hav. pose proof Hd as (Hs & _ & _ & Hne).
  rewrite encode_wire in Henc by done. injection Henc as <-. rewrite receive_data by done.
  assert (0 < Z.of_nat (length (data seg))) by (destruct (data seg); [done|simpl; lia]).
  destruct s as [lk b tx rx q lq aq bl aid la lp da dp snt txr rxr]. unfold acked. fields.
  cbn [m_lock m_block m_rx_buffer] in *. rewrite writeAvailable_eq in Hav by done.
  run. unfold on_data. destruct (Z.eqb_spec (Z.of_nat (length (data seg))) 0); [lia|]. run.
  rewrite Hrcv, Z.eqb_refl. run. rewrite writeAvailable_eq, Z.gtb_ltb by done.
  destruct (Z.ltb_spec (m_size rx - 1 - Z.of_nat (length (contents rx))) (Z.of_nat (length (data seg)))); [lia|]. run.
  set (b' := if is_after_or_equal _ _ _ then _ else _).
  assert (Hb' : receive_shut b' = false ∧ state b' = TCP_ESTABLISHED ∧ rcv_nxt b' = seq seg)
    by (unfold b'; by destruct (is_after_or_equal _ _ _)).
  destruct Hb' as (-> & Hst' & Hrcv'). run. rewrite wire_data. run.
  match goal with |- context[rx_write _ ?s0] => destruct (rx_write_ok s0 (data seg)) as (r & Hr & _ & Hct & ->); [done|done|fields; lia|] end.
  run. destruct (_ <? _); run; eexists; (split; [reflexivity|]); fields; by rewrite Hrcv', Hst'.
Qed.

(** An established socket at its peer's next byte. *)
Definition demo_socket (q : list segment) : sock :=
  mk_sock false (mk_block TCP_ESTABLISHED 70 77 512 256 4294967290 false false false false false)
    (create 4096) (create 16) q None None 0 1 0x0200007F 12345 0x0100007F 80 [] 0 0.

Lemma data_delivered_witness :
  ∃ bs s', encode demo_segment 0x0100007F 80 0x0200007F 12345 4096 = Done bs ∧
    packetReceived (λ _, None) 0x0100007F 80 bs (Z.of_nat (length bs)) 0 (demo_socket []) = Done (tt, s') ∧
    contents (m_rx_buffer s') = [104; 101; 121] ∧ rcv_nxt (m_block s') = 4294967293.
Proof.
  exists (wire demo_segment 0x0100007F 80 0x0200007F 12345 4096).
  destruct (data_delivered (λ _, None) (demo_socket []) demo_segment 0x0100007F 80 12345 4096 0
              (wire demo_segment 0x0100007F 80 0x0200007F 12345 4096)) as (s' & Hr & _ & Hc & Hn & _);
    [split; [exact demo_sendable|done]|lia|apply encode_wire, demo_sendable|done|done|done|done|
     apply create_wf; lia|vm_compute; discriminate|].
  exists s'. split; [apply encode_wire, demo_sendable|]. split; [exact Hr|]. split; [exact Hc|exact Hn].
Defined.

Lemma sendable_ack nxt manual :
  0 ≤ nxt < 2 ^ 32 → 0 ≤ manual < 2 ^ 32 → sendable (mk_seg nxt manual 0 TCP_ACK 0 0 20 []).
Proof.
  intros. unfold sendable, TCP_ACK. cbn [seq ack_no flags data header_len length].
  split_and!; try lia; [constructor|by exists 5].
Qed.

(** [ack(manual)] through an interface. *)
Lemma ack_now_ok gi manual s a :
  gi (destination_address s) = Some a → 0 ≤ snd_nxt (m_block s) < 2 ^ 32 → 0 ≤ manual < 2 ^ 32 →
  ack_now gi manual s = Done (tt, upd_sent (destination_address s,
    wire (mk_seg (snd_nxt (m_block s)) manual 0 TCP_ACK 0 0 20 []) a (local_port s) (destination_address s)
      (destination_port s) (u16 (getWindow s))) s).
Proof.
  intros Hgi Hn Hm. unfold ack_now, sendSegment, sendSegmentTo. run. rewrite Hgi. run.
  rewrite encode_wire by (by apply sendable_ack). by run.
Qed.

(** No byte is delivered twice or out of order: a data segment
    that does not start at [rcv_nxt] leaves the receive buffer and [rcv_nxt]
    alone; one that lies wholly before [rcv_nxt] (a retransmission) is answered
    at once with an acknowledgement of its end, any other is dropped. *)
Lemma stale_data_ignored gi s seg src sport dport window uptime bs a :
  data_segment seg → 0 ≤ window < 2 ^ 16 →
  encode seg src sport (local_address s) dport window = Done bs →
  m_lock s = false → state (m_block s) = TCP_ESTABLISHED → 0 ≤ snd_nxt (m_block s) < 2 ^ 32 →
  rcv_nxt (m_block s) ≠ seq seg → gi (destination_address s) = Some a →
  let end_ := u32 (seq seg + Z.of_nat (length (data seg))) in
  ∃ s', packetReceived gi (destination_address s) (destination_port s) bs (Z.of_nat (length bs)) uptime s = Done (tt, s') ∧
    m_rx_buffer s' = m_rx_buffer s ∧ rcv_nxt (m_block s') = rcv_nxt (m_block s) ∧
    state (m_block s') = TCP_ESTABLISHED ∧ m_lock s' = false ∧
    if is_before_or_equal end_ (rcv_nxt (m_block s)) half
    then ∃ reply, sent s' = sent s ++ [(destination_address s, reply)] ∧
           ∃ w, read_header reply = Done (mk_header 20 (20 * 1024 + TCP_ACK) (snd_nxt (m_block s)) end_ w)
    else sent s' = sent s.
Proof.
  intros Hd Hw Henc Hlock Hst Hnxt Hrcv Hgi end_. pose proof Hd as (Hs & _ & _ & Hne).
  rewrite encode_wire in Henc by done. injection Henc as <-. rewrite receive_data by done.
  assert (0 < Z.of_nat (length (data seg))) by (destruct (data seg); [done|simpl; lia]).
  destruct s as [lk b tx rx q lq aq bl aid la lp da dp snt txr rxr]. unfold acked. fields.
  cbn [m_lock m_block m_rx_buffer destination_address destination_port sent] in *.
  run. unfold on_data. destruct (Z.eqb_spec (Z.of_nat (length (data seg))) 0); [lia|]. run.
  destruct (Z.eqb_spec (seq seg) (rcv_nxt b)); [congruence|]. run.
  set (b' := if is_after_or_equal _ _ _ then _ else _).
  assert (Hb' : snd_nxt b' = snd_nxt b ∧ state b' = TCP_ESTABLISHED ∧ rcv_nxt b' = rcv_nxt b)
    by (unfold b'; by destruct (is_after_or_equal _ _ _)).
  destruct Hb' as (Hn' & Hst' & Hr'). rewrite Hr'. fold end_.
  assert (He : 0 ≤ end_ < 2 ^ 32) by (by apply wrap_bound).
  destruct (is_before_or_equal end_ (rcv_nxt b) half); run.
  - match goal with |- context[ack_now _ _ ?s0] => rewrite (ack_now_ok gi end_ s0 a) by (fields; by rewrite ?Hn') end.
    run. eexists. split; [reflexivity|]. fields. split_and!; [done..|]. eexists. split; [done|].
    eexists. rewrite wire_header by ((by apply sendable_ack; rewrite ?Hn') || by apply wrap_bound).
    fields. rewrite Hn'. reflexivity.
  - eexists. split; [reflexivity|]. by fields.
Qed.

Lemma stale_data_ignored_witness :
  ∃ s', packetReceived (λ _, Some 0x0200007F) 0x0100007F 80 (wire demo_segment 0x0100007F 80 0x0200007F 12345 4096) 23 0
      (upd_block (set_rcv_nxt 4294967293) (demo_socket [])) = Done (tt, s') ∧ m_rx_buffer s' = create 16 ∧ length (sent s') = 1%nat.
Proof.
  destruct (stale_data_ignored (λ _, Some 0x0200007F) (upd_block (set_rcv_nxt 4294967293) (demo_socket [])) demo_segment 0x0100007F 80 12345 4096 0
     (wire demo_segment 0x0100007F 80 0x0200007F 12345 4096) 0x0200007F) as (s' & Hr & Hrx & _ & _ & _ & Hsent);
    [split; [exact demo_sendable|done]|lia|apply encode_wire, demo_sendable|done|done|cbn; lia|done|done|].
  exists s'. split; [exact Hr|]. split; [exact Hrx|]. destruct Hsent as (reply & Hs & _). rewrite Hs. done.
Defined.

(** ** Packaging the output stream *)

Lemma tx_read_ok s n :
  wf (m_tx_buffer s) → 0 < n ≤ Z.of_nat (length (contents (m_tx_buffer s))) →
  ∃ r, wf r ∧ contents r = drop (Z.to_nat n) (contents (m_tx_buffer s)) ∧
    tx_read n s = Done (take (Z.to_nat n) (contents (m_tx_buffer s)), upd_buffers r (m_rx_buffer s) s).
Proof.
  intros Hwf Hn. unfold tx_read, CircularBuffer.read. destruct (Z.leb_spec n 0); [lia|].
  destruct (read_loop_spec (S (Z.to_nat n)) (m_tx_buffer s) [] n (-1) false) as (r & Hr & _ & Hct & Hrun); [done|lia..|].
  unfold read_section. rewrite Hrun. rewrite Z.min_l in * by lia. exists r. split_and!; [done..|].
  unfold read_result. by rewrite Z.sub_diag.
Qed.

(** Data segments that cut a stream from [nxt] on into pieces of at most [mss]. *)
Fixpoint chained (nxt ack mss uptime : Z) (segs : list segment) : Prop :=
  match segs with
  | [] => True
  | seg :: segs =>
      let len := Z.of_nat (length (data seg)) in
      seg = mk_seg nxt ack (u32 (nxt + len)) (Z.lor TCP_PSH TCP_ACK) (u64 (uptime + TCP_RETRANSMIT_INTERVAL)) 0 20 (data seg) ∧
      0 < len ≤ mss ∧ chained (u32 (nxt + len)) ack mss uptime segs
  end.

Definition to_peer (s : sock) (a : Z) (seg : segment) : Z * list Z :=
  (destination_address s,
   wire seg a (local_port s) (destination_address s) (destination_port s) (u16 (getWindow s))).

(** What [package] needs of the socket: a sane buffer and control block. *)
Definition can_package (s : sock) : Prop :=
  wf (m_tx_buffer s) ∧ bytes (contents (m_tx_buffer s)) ∧
  0 ≤ snd_nxt (m_block s) < 2 ^ 32 ∧ 0 ≤ rcv_nxt (m_block s) < 2 ^ 32 ∧
  0 < snd_mss (m_block s) ≤ 1460 ∧ 0 ≤ snd_wnd (m_block s) < 2 ^ 16.

(** The socket after the bytes of [r]'s queue were cut off as [seg]. *)
Definition packaged (r : CircularBuffer) (seg : segment) (p : Z * list Z) (s : sock) : sock :=
  let size := Z.of_nat (length (data seg)) in
  let b := m_block s in
  mk_sock true
    (mk_block (state b) (snd_una b) (u32 (snd_nxt b + size)) (u16 (snd_wnd b - size)) (snd_mss b) (rcv_nxt b) false
       (notify_of_window_size b) (closing b) (send_shut b) (receive_shut b))
    r (m_rx_buffer s) (m_retransmission_queue s ++ [seg]) (m_listen_queue s) (m_accept_queue s)
    (m_listen_backlog s) (m_async_id s) (local_address s) (local_port s) (destination_address s) (destination_port s)
    (sent s ++ [p]) (tx_raised s) (rx_raised s).

(** One turn of the loop. *)
Lemma package_turn gi s a fuel uptime :
  can_package s → m_lock s = true → gi (destination_address s) = Some a →
  contents (m_tx_buffer s) ≠ [] → snd_wnd (m_block s) ≠ 0 →
  ∃ r bs, let b := m_block s in
    let seg := mk_seg (snd_nxt b) (rcv_nxt b) (u32 (snd_nxt b + Z.of_nat (length bs))) (Z.lor TCP_PSH TCP_ACK)
                 (u64 (uptime + TCP_RETRANSMIT_INTERVAL)) 0 20 bs in
    wf r ∧ contents (m_tx_buffer s) = bs ++ contents r ∧
    0 < Z.of_nat (length bs) ≤ snd_mss b ∧ Z.of_nat (length bs) ≤ snd_wnd b ∧
    package_loop gi (S fuel) uptime s = package_loop gi fuel uptime (packaged r seg (to_peer s a seg) s).
Proof.
  intros (Hwf & Hb & Hn & Hr & Hm & Hw) Hlock Hgi Hne Hw0.
  assert (0 < Z.of_nat (length (contents (m_tx_buffer s)))) by (destruct (contents _); [done|simpl; lia]).
  set (size := (Z.of_nat (length (contents (m_tx_buffer s))) `min` snd_wnd (m_block s)) `min` snd_mss (m_block s)).
  assert (Hsz : 0 < size ≤ Z.of_nat (length (contents (m_tx_buffer s))) ∧ size ≤ snd_wnd (m_block s) ∧ size ≤ snd_mss (m_block s))
    by (unfold size; lia).
  destruct (tx_read_ok s size) as (r & Hr' & Hct & Hread); [done|lia|].
  set (bs := take (Z.to_nat size) (contents (m_tx_buffer s))) in *.
  assert (Hbs : Z.of_nat (length bs) = size) by (unfold bs; rewrite length_take; lia).
  exists r, bs. cbv zeta. split_and!; [done|unfold bs; by rewrite Hct, take_drop|lia|lia|lia|].
  cbn [package_loop]. run. rewrite readAvailable_eq by done.
  destruct (Z.eqb_spec (Z.of_nat (length (contents (m_tx_buffer s)))) 0); [lia|]. run.
  destruct (Z.eqb_spec (snd_wnd (m_block s)) 0); [done|]. fold size. run. rewrite Hread. run. rewrite Hlock. run.
  unfold sendSegment, sendSegmentTo. run. rewrite Hgi. run. rewrite Hbs.
  rewrite encode_wire; [run|].
  - unfold packaged, to_peer. fields. cbn [data]. rewrite Hbs. reflexivity.
  - unfold sendable, TCP_PSH, TCP_ACK. cbn [seq ack_no flags data header_len]. change (Z.lor 8 16) with 24.
    split_and!; try lia; [by apply Forall_take|by exists 5].
Qed.

Lemma getWindow_rx s s' : m_rx_buffer s = m_rx_buffer s' → getWindow s = getWindow s'.
Proof. unfold getWindow. by intros ->. Qed.

Lemma wrap_snd_wnd w n : 0 ≤ w < 2 ^ 16 → 0 ≤ n ≤ w → u16 (w - n) = w - n.
Proof. intros. apply wrap_small. lia. Qed.

(** A packaged socket can package again. *)
Lemma packaged_can s r seg p :
  can_package s → wf r → (∃ bs, contents (m_tx_buffer s) = bs ++ contents r) →
  Z.of_nat (length (data seg)) ≤ snd_wnd (m_block s) → can_package (packaged r seg p s).
Proof.
  intros (Hwf & Hb & Hn & Hr & Hm & Hw) Hwr [bs Hbs] Hlen. unfold can_package, packaged. fields.
  rewrite Hbs in Hb. apply Forall_app in Hb as [_ Hb]. rewrite wrap_snd_wnd by lia.
  pose proof (wrap_bound 32 (snd_nxt (m_block s) + Z.of_nat (length (data seg))) ltac:(lia)).
  split_and!; first [done|lia].
Qed.

(** The loop empties the buffer when the peer's window covers it. *)
Lemma package_loop_spec gi a uptime fuel s :
  can_package s → m_lock s = true → gi (destination_address s) = Some a →
  Z.of_nat (length (contents (m_tx_buffer s))) ≤ snd_wnd (m_block s) →
  (length (contents (m_tx_buffer s)) < fuel)%nat →
  ∃ s' segs, package_loop gi fuel uptime s = Done (tt, s') ∧
    let b := m_block s in
    chained (snd_nxt b) (rcv_nxt b) (snd_mss b) uptime segs ∧
    concat (map data segs) = contents (m_tx_buffer s) ∧ contents (m_tx_buffer s') = [] ∧ wf (m_tx_buffer s') ∧
    m_retransmission_queue s' = m_retransmission_queue s ++ segs ∧
    sent s' = sent s ++ map (to_peer s a) segs ∧
    snd_nxt (m_block s') = u32 (snd_nxt b + Z.of_nat (length (contents (m_tx_buffer s)))) ∧
    snd_wnd (m_block s') = snd_wnd b - Z.of_nat (length (contents (m_tx_buffer s))) ∧
    m_lock s' = true ∧ m_rx_buffer s' = m_rx_buffer s ∧ rcv_nxt (m_block s') = rcv_nxt b ∧ state (m_block s') = state b ∧
    sending_comp_ack (m_block s') = match segs with [] => sending_comp_ack b | _ => false end.
Proof.
  revert s. induction fuel as [|fuel IH]; intros s Hc Hlock Hgi Hwnd Hfuel; [lia|].
  destruct (decide (contents (m_tx_buffer s) = [])) as [Hnil|Hne].
  { exists s, []. cbn [package_loop]. run. pose proof Hc as (Hwf & _ & Hn & _). rewrite readAvailable_eq, Hnil by done.
    simpl. rewrite !app_nil_r, Z.add_0_r, Z.sub_0_r, wrap_small by done. by split_and!. }
  assert (0 < Z.of_nat (length (contents (m_tx_buffer s)))) by (destruct (contents _); [done|simpl; lia]).
  destruct (package_turn gi s a fuel uptime) as (r & bs & Hwr & Hbs & Hlen & Hlw & Hturn); [done..|lia|].
  cbv zeta in Hturn. set (seg := mk_seg _ _ _ _ _ _ _ bs) in *. rewrite Hturn.
  pose proof Hc as (_ & _ & _ & _ & _ & Hw). rewrite Hbs, length_app in Hfuel, Hwnd.
  destruct (IH (packaged r seg (to_peer s a seg) s)) as (s' & segs & Hrun & Hsp);
    [apply packaged_can; eauto|done|done| |cbn; lia|].
  { unfold packaged. fields. cbn [data seg]. rewrite wrap_snd_wnd by lia. lia. }
  exists s', (seg :: segs). rewrite Hrun. split; [done|]. unfold packaged in Hsp. revert Hsp. fields. cbn [data seg chained map concat].
  rewrite wrap_snd_wnd by lia. intros (Hch & Hcat & Hnil & Hwf' & Hq & Hsent & Hnxt & Hsw & Hl & Hrx & Hrn & Hst & Hca).
  split_and!; try done; try lia.
  - by rewrite Hcat, Hbs.
  - by rewrite Hq, <-app_assoc.
  - rewrite Hsent, <-app_assoc. f_equal. 
  - rewrite Hnxt, Hbs, length_app, wrap_add_l by lia. f_equal. lia.
  - rewrite Hsw, Hbs, length_app. lia.
  - rewrite Hca. by destruct segs.
Qed.

(** Beyond the window the assertion is reached. *)
Lemma package_loop_panics gi a uptime fuel s :
  can_package s → m_lock s = true → gi (destination_address s) = Some a →
  snd_wnd (m_block s) < Z.of_nat (length (contents (m_tx_buffer s))) →
  (length (contents (m_tx_buffer s)) < fuel)%nat →
  package_loop gi fuel uptime s = Panic "m_block.snd_wnd != 0".
Proof.
  revert s. induction fuel as [|fuel IH]; intros s Hc Hlock Hgi Hwnd Hfuel; [lia|].
  pose proof Hc as (Hwf & _ & _ & _ & _ & Hw).
  assert (Hne : contents (m_tx_buffer s) ≠ []) by (intros Hn; rewrite Hn in Hwnd; simpl in Hwnd; lia).
  destruct (decide (snd_wnd (m_block s) = 0)) as [H0|H0].
  { cbn [package_loop]. run. rewrite readAvailable_eq by done.
    destruct (Z.eqb_spec (Z.of_nat (length (contents (m_tx_buffer s)))) 0); [lia|]. run. by rewrite H0. }
  destruct (package_turn gi s a fuel uptime) as (r & bs & Hwr & Hbs & Hlen & Hlw & Hturn); [done..|].
  cbv zeta in Hturn. rewrite Hturn. rewrite Hbs, length_app in Hfuel, Hwnd.
  apply IH; [apply packaged_can; eauto|done|done| |cbn; lia].
  unfold packaged. fields. cbn [data]. rewrite wrap_snd_wnd by lia. lia.
Qed.

(** [package] cuts the whole output buffer into segments: in
    order, contiguous in sequence space, none empty or longer than the peer's
    MSS, their data together exactly the buffered bytes; each is queued for
    retransmission and sent to the peer, and [snd_nxt] and the window move by
    the number of bytes. *)
Lemma package_streams gi a uptime s :
  can_package s → m_lock s = false → gi (destination_address s) = Some a →
  contents (m_tx_buffer s) ≠ [] → Z.of_nat (length (contents (m_tx_buffer s))) ≤ snd_wnd (m_block s) →
  ∃ s' segs, package gi uptime s = Done (tt, s') ∧
    chained (snd_nxt (m_block s)) (rcv_nxt (m_block s)) (snd_mss (m_block s)) uptime segs ∧
    concat (map data segs) = contents (m_tx_buffer s) ∧ contents (m_tx_buffer s') = [] ∧
    m_retransmission_queue s' = m_retransmission_queue s ++ segs ∧
    sent s' = sent s ++ map (to_peer s a) segs ∧
    snd_nxt (m_block s') = u32 (snd_nxt (m_block s) + Z.of_nat (length (contents (m_tx_buffer s)))) ∧
    snd_wnd (m_block s') = snd_wnd (m_block s) - Z.of_nat (length (contents (m_tx_buffer s))) ∧
    m_lock s' = false.
Proof.
  intros Hc Hlock Hgi Hne Hwnd. pose proof Hc as (Hwf & _). unfold package. run. rewrite acquire_free by done. run. rewrite readAvailable_eq by done.
  match goal with |- context[package_loop _ _ _ ?s0] =>
    destruct (package_loop_spec gi a uptime (S (Z.to_nat (Z.of_nat (length (contents (m_tx_buffer s)))))) s0)
      as (s' & segs & Hrun & Hsp); [done|done|done|done|cbn; lia|] end.
  cbv zeta in Hsp. revert Hsp. fields. intros (Hch & Hcat & Hnil & Hwf' & Hq & Hsent & Hnxt & Hsw & Hl & Hrx & Hrn & Hst & Hca).
  rewrite Hrun. run. rewrite release_held by done. run. destruct segs as [|seg segs]; [by rewrite <-Hcat in Hne|]. rewrite Hca. run.
  eexists _, (seg :: segs). split; [reflexivity|]. fields. by split_and!.
Qed.

(** Deviation: when more bytes are buffered than the peer's window
    takes, [package] does not wait for the window to open but sends what fits
    and then panics the kernel on its assertion. *)
Lemma package_beyond_window_panics gi a uptime s :
  can_package s → m_lock s = false → gi (destination_address s) = Some a →
  snd_wnd (m_block s) < Z.of_nat (length (contents (m_tx_buffer s))) →
  package gi uptime s = Panic "m_block.snd_wnd != 0".
Proof.
  intros Hc Hlock Hgi Hwnd. pose proof Hc as (Hwf & _). unfold package. run. rewrite acquire_free by done. run. rewrite readAvailable_eq by done.
  by rewrite (package_loop_panics gi a) by (done || cbn; lia).
Qed.

(** An established socket with [n] bytes to send, the peer's window 512 wide. *)
Definition sender (n : nat) : sock :=
  upd_buffers (mk_ring 4096 (replicate 4096 7) 4000 (Z.of_nat n - 96)) (create 16) (demo_socket []).

Lemma sender_can n : (96 ≤ n ≤ 600)%nat → can_package (sender n) ∧ length (contents (m_tx_buffer (sender n))) = n.
Proof.
  intros Hn. assert (Hwf : wf (m_tx_buffer (sender n)))
    by (unfold wf, sender; cbn [m_tx_buffer upd_buffers m_size m_buffer m_readPos m_writePos]; rewrite length_replicate; lia).
  split.
  - split_and!; [exact Hwf| |cbn; lia..]. unfold contents. apply Forall_take, Forall_drop, Forall_app.
    split; (apply Forall_replicate; lia).
  - apply Nat2Z.inj. rewrite contents_length by done. destruct (distance_cases _ Hwf) as [_ ->].
    unfold sender. cbn [m_tx_buffer upd_buffers m_size m_readPos m_writePos]. destruct (Z.leb_spec 4000 (Z.of_nat n - 96)); lia.
Qed.

Lemma package_streams_witness :
  ∃ s' segs, package (λ _, Some 0x0200007F) 0 (sender 300) = Done (tt, s') ∧
    concat (map data segs) = contents (m_tx_buffer (sender 300)) ∧ contents (m_tx_buffer s') = [].
Proof.
  destruct (sender_can 300 ltac:(lia)) as [Hc Hl].
  destruct (package_streams (λ _, Some 0x0200007F) 0x0200007F 0 (sender 300)) as (s' & segs & Hr & _ & Hd & He & _);
    [exact Hc|done|done|intros Hn; by rewrite Hn in Hl|rewrite Hl; cbn; lia|].
  exists s', segs. split; [exact Hr|]. split; [exact Hd|exact He].
Defined.

Lemma package_beyond_window_panics_witness :
  package (λ _, Some 0x0200007F) 0 (sender 513) = Panic "m_block.snd_wnd != 0".
Proof.
  destruct (sender_can 513 ltac:(lia)) as [Hc Hl].
  apply (package_beyond_window_panics (λ _, Some 0x0200007F) 0x0200007F 0 (sender 513)); [exact Hc|done|done|rewrite Hl; cbn; lia].
Defined.

(** ** Closing *)

(** The peer's FIN, as [fin] makes it. *)
Definition fin_segment (seg : segment) : Prop :=
  sendable seg ∧ header_len seg = 20 ∧ flags seg = Z.lor TCP_FIN TCP_ACK ∧ data seg = [].

Lemma on_data_none gi h e bs s : on_data gi h e bs 0 s = Done (false, s).
Proof. reflexivity. Qed.

Lemma receive_fin gi s seg src sport dst dport window uptime :
  fin_segment seg → 0 ≤ window < 2 ^ 16 → m_lock s = false →
  one_of (state (m_block s)) [TCP_ESTABLISHED; TCP_FIN_WAIT_2; TCP_CLOSE_WAIT; TCP_TIME_WAIT] = true →
  rcv_nxt (m_block s) = seq seg →
  let bs := wire seg src sport dst dport window in
  packetReceived gi (destination_address s) (destination_port s) bs (Z.of_nat (length bs)) uptime s =
  (on_fin;; lock_release) (acked (ack_no seg) window s).
Proof.
  intros (Hs & Hhl & Hfl & Hd) Hw Hlock Hst Hrcv bs. unfold bs. rewrite wire_length, Hd.
  destruct (seg_bits_fields seg Hs) as (_ & _ & Hbits).
  assert (Hf : has (seg_bits seg) TCP_RST = false ∧ has (seg_bits seg) TCP_SYN = false ∧
               has (seg_bits seg) TCP_ACK = true ∧ has (seg_bits seg) TCP_FIN = true)
    by (rewrite !Hbits, Hfl by (unfold TCP_RST, TCP_SYN, TCP_ACK, TCP_FIN; lia); done).
  destruct Hf as (Hrst & Hsyn & Hack & Hfin).
  destruct s as [lk b tx rx q lq aq bl aid la lp da dp snt txr rxr]. cbn [m_lock m_block] in Hlock, Hst, Hrcv. subst lk.
  unfold packetReceived. run. rewrite Z.eqb_refl, andb_false_r. cbn [andb].
  rewrite (bool_decide_eq_false_2 (state b = TCP_CLOSED)), (bool_decide_eq_false_2 (state b = TCP_LISTEN)) by (by intros He; rewrite He in Hst).
  unfold packetReceivedConnected. run.
  rewrite wire_header by done. run. rewrite Hhl, read_options_none. run. rewrite Hrst, Hsyn, Hack, Hfin. run.
  rewrite on_ack_quiet by (fields; done || by destruct (state b)). run. rewrite Hrcv, Z.eqb_refl.
  change (if 20 >=? 20 + Z.of_nat (length (@nil Z)) then 0 else u16 (20 + Z.of_nat (length (@nil Z)) - 20)) with 0.
  rewrite on_data_none. run. unfold acked. by fields.
Qed.

Lemma close_wait_hangs gi uptime s :
  m_lock s = false → state (m_block s) = TCP_CLOSE_WAIT → close gi uptime s = Panic "spinlock hung".
Proof.
  intros Hlock Hst. destruct s as [lk b tx rx q lq aq bl aid la lp da dp snt txr rxr]. cbn in Hlock, Hst. subst lk.
  unfold close. run. rewrite Hst. unfold fin. by run.
Qed.

(** The FIN part in [TCP_ESTABLISHED]. *)
Lemma on_fin_established s :
  state (m_block s) = TCP_ESTABLISHED →
  ∃ s', on_fin s = Done (tt, s') ∧ state (m_block s') = TCP_CLOSE_WAIT ∧ rcv_nxt (m_block s') = u32 (rcv_nxt (m_block s) + 1) ∧
    receive_shut (m_block s') = true ∧ sending_comp_ack (m_block s') = true ∧ m_lock s' = m_lock s.
Proof.
  intros Hst. destruct s as [lk b tx rx q lq aq bl aid la lp da dp snt txr rxr]. cbn in Hst.
  unfold on_fin. run. rewrite Hst. run. eexists. split; [reflexivity|]. by fields.
Qed.

(** Deviation: the passive close. A FIN that arrives in order at
    an established socket is accepted ([TCP_CLOSE_WAIT], [rcv_nxt] past it, the
    receive side shut, an acknowledgement scheduled); the [close] that should
    then send the own FIN calls [fin] with the lock held, which acquires it
    again: the spinlock hangs. *)
Lemma close_after_peer_fin_hangs gi s seg src sport dport window uptime uptime' bs :
  fin_segment seg → 0 ≤ window < 2 ^ 16 →
  encode seg src sport (local_address s) dport window = Done bs →
  m_lock s = false → state (m_block s) = TCP_ESTABLISHED → rcv_nxt (m_block s) = seq seg →
  ∃ s', packetReceived gi (destination_address s) (destination_port s) bs (Z.of_nat (length bs)) uptime s = Done (tt, s') ∧
    state (m_block s') = TCP_CLOSE_WAIT ∧ rcv_nxt (m_block s') = u32 (seq seg + 1) ∧
    receive_shut (m_block s') = true ∧ sending_comp_ack (m_block s') = true ∧ m_lock s' = false ∧
    close gi uptime' s' = Panic "spinlock hung".
Proof.
  intros Hf Hw Henc Hlock Hst Hrcv. pose proof Hf as (Hs & _). rewrite encode_wire in Henc by done. injection Henc as <-.
  rewrite receive_fin by (done || by rewrite Hst). rewrite run_bind.
  assert (Hst' : state (m_block (acked (ack_no seg) window s)) = TCP_ESTABLISHED ∧
                 rcv_nxt (m_block (acked (ack_no seg) window s)) = seq seg)
    by (unfold acked; fields; by destruct (is_after_or_equal _ _ _)).
  destruct Hst' as [Hst' Hrcv'].
  destruct (on_fin_established _ Hst') as (s' & -> & Hs1 & Hs2 & Hs3 & Hs4 & Hl). cbn [snd].
  rewrite release_held by done. exists (upd_lock false s'). rewrite Hrcv' in Hs2. split_and!; [done..|].
  by apply close_wait_hangs.
Qed.

Definition demo_fin : segment := mk_seg 4294967290 77 4294967291 (Z.lor TCP_FIN TCP_ACK) 0 0 20 [].

Lemma demo_fin_segment : fin_segment demo_fin.
Proof.
  split; [|done]. unfold sendable, demo_fin, bytes. cbn [seq ack_no flags data header_len length]. unfold TCP_FIN, TCP_ACK.
  change (Z.lor 1 16) with 17. split_and!; try lia; [constructor|by exists 5].
Qed.

Lemma close_after_peer_fin_hangs_witness :
  ∃ s', packetReceived (λ _, Some 0) 0x0100007F 80 (wire demo_fin 0x0100007F 80 0x0200007F 12345 4096) 20 0 (demo_socket []) = Done (tt, s') ∧
    close (λ _, Some 0) 9 s' = Panic "spinlock hung".
Proof.
  destruct (close_after_peer_fin_hangs (λ _, Some 0) (demo_socket []) demo_fin 0x0100007F 80 12345 4096 0 9
     (wire demo_fin 0x0100007F 80 0x0200007F 12345 4096)) as (s' & Hr & _ & _ & _ & _ & _ & Hc);
    [exact demo_fin_segment|lia|apply encode_wire, demo_fin_segment|done|done|done|].
  exists s'. split; [exact Hr|exact Hc].
Defined.

(** The peer's FIN in [TCP_FIN_WAIT_2] is accepted, but there is no way on: the
    state stays, and the [shutdown] that waits for [TCP_CLOSED] keeps waiting. *)
Lemma fin_wait_2_stays gi s seg src sport dst dport window uptime :
  fin_segment seg → 0 ≤ window < 2 ^ 16 → m_lock s = false →
  state (m_block s) = TCP_FIN_WAIT_2 → rcv_nxt (m_block s) = seq seg →
  let bs := wire seg src sport dst dport window in
  ∃ s', packetReceived gi (destination_address s) (destination_port s) bs (Z.of_nat (length bs)) uptime s = Done (tt, s') ∧
    state (m_block s') = TCP_FIN_WAIT_2 ∧ rcv_nxt (m_block s') = u32 (seq seg + 1) ∧
    shutdown_wait_closed (upd_lock true s') = Done (None, s').
Proof.
  intros Hf Hw Hlock Hst Hrcv bs. unfold bs. rewrite receive_fin by (done || by rewrite Hst).
  destruct s as [lk b tx rx q lq aq bl aid la lp da dp snt txr rxr]. cbn in Hlock, Hst, Hrcv. unfold acked. fields.
  set (b' := if is_after_or_equal _ _ _ then _ else _).
  assert (Hb' : state b' = TCP_FIN_WAIT_2 ∧ rcv_nxt b' = seq seg) by (unfold b'; by destruct (is_after_or_equal _ _ _)).
  clearbody b'. destruct Hb' as [Hst' Hrcv']. unfold on_fin. run. rewrite Hst'. run. rewrite Hrcv'.
  eexists. split; [reflexivity|]. fields. split_and!; [done..|]. unfold shutdown_wait_closed. run. by rewrite bool_decide_eq_false_2.
Qed.

(** ** The handshake *)

(** Two ends of an established connection: each expects the other's next
    sequence number, and both use the MSS this stack announces. *)
Definition synchronized (b b' : tcp_block) : Prop :=
  state b = TCP_ESTABLISHED ∧ state b' = TCP_ESTABLISHED ∧
  rcv_nxt b' = snd_nxt b ∧ rcv_nxt b = snd_nxt b' ∧ snd_mss b = 1460 ∧ snd_mss b' = 1460.

Lemma rd_app_r {A} (l d : list A) i : 0 ≤ i → (l ++ d).[Z.of_nat (length l) + i] = d.[i].
Proof.
  intros Hi. unfold rd. destruct (Z.ltb_spec (Z.of_nat (length l) + i) 0), (Z.ltb_spec i 0); try lia.
  rewrite lookup_app_r by lia. by replace (Z.to_nat (Z.of_nat (length l) + i) - length l)%nat with (Z.to_nat i) by lia.
Qed.

(** A SYN or SYN|ACK of this stack: it carries the MSS option. *)
Definition syn_segment (seg : segment) (fl : Z) : Prop :=
  0 ≤ seq seg < 2 ^ 32 ∧ 0 ≤ ack_no seg < 2 ^ 32 ∧ flags seg = fl ∧ header_len seg = 24 ∧ data seg = mss_option.

Lemma syn_sendable seg fl : syn_segment seg fl → 0 ≤ fl < 64 → sendable seg.
Proof.
  intros (? & ? & Hfl & Hh & Hd) Hf. unfold sendable. rewrite Hfl, Hh, Hd. unfold mss_option. cbn [length].
  split_and!; try lia; [repeat constructor; lia|by exists 6].
Qed.

Lemma mss_read fuel b seg fl src sport dst dport window :
  syn_segment seg fl → (1 < fuel)%nat →
  readOptions fuel b (wire seg src sport dst dport window) 24 20 =
    Done (set_snd (snd_una b) (snd_nxt b) (snd_wnd b) 1460 b).
Proof.
  intros (_ & _ & _ & _ & Hd) Hf. destruct fuel as [|[|fuel]]; [lia..|].
  assert (Hr : ∀ i, 0 ≤ i → (wire seg src sport dst dport window).[20 + i] = mss_option.[i]).
  { intros i Hi. unfold wire. rewrite Hd. match goal with |- (?h ++ _).[_] = _ => pose proof (rd_app_r h mss_option i Hi) as Hra end.
    rewrite header_length in Hra. exact Hra. }
  assert (Hg : get (wire seg src sport dst dport window) 22 2 = Done [0x05; 0xb4]).
  { unfold wire. rewrite Hd. match goal with |- get (?h ++ _) _ _ = _ =>
      apply (get_field _ (h ++ [0x02; 0x04]) [0x05; 0xb4] []) end; [by rewrite <-app_assoc|by rewrite length_app, header_length|done]. }
  cbn [readOptions]. change (20 <? 24) with true. cbv iota.
  rewrite (Hr 0 ltac:(lia) : (wire seg src sport dst dport window).[20] = Done 2). cbn [mbind outcome_bind].
  rewrite (Hr 1 ltac:(lia) : (wire seg src sport dst dport window).[20 + 1] = Done 4). cbn [mbind outcome_bind].
  change (20 + 2) with 22. rewrite Hg. reflexivity.
Qed.

(** The control block of a client that sent its SYN. *)
Definition syn_sent_block (isn : Z) : tcp_block :=
  mk_block TCP_SYN_SENT isn (u32 (isn + 1)) 0 TCP_MIN_MSS 0 false false false false false.
Definition first_segment (isn uptime : Z) : segment :=
  mk_seg isn 0 (u32 (isn + 1)) TCP_SYN (u64 (uptime + TCP_RETRANSMIT_INTERVAL)) 0 24 mss_option.

Lemma first_segment_syn isn uptime : 0 ≤ isn < 2 ^ 32 → syn_segment (first_segment isn uptime) TCP_SYN.
Proof. intros. split_and!; simpl; lia || done. Qed.

Lemma connect_sends_syn gi c addr port uptime a :
  m_lock c = false → state (m_block c) = TCP_CLOSED → gi addr = Some a →
  0 ≤ uptime < 2 ^ 64 - TCP_CONNECTION_TIMEOUT →
  let isn := initial_seq uptime in
  ∃ c1 w, connect gi (Some (addr, port)) uptime c = Done (None, c1) ∧ 0 ≤ w < 2 ^ 16 ∧
    m_block c1 = syn_sent_block isn ∧ m_lock c1 = false ∧
    m_retransmission_queue c1 = [first_segment isn uptime] ∧
    destination_address c1 = addr ∧ destination_port c1 = port ∧ local_port c1 = local_port c ∧
    sent c1 = sent c ++ [(addr, wire (first_segment isn uptime) a (local_port c) addr port w)].
Proof.
  intros Hlock Hst Hgi Hup isn. destruct c as [lk b tx rx q lq aq bl aid la lp da dp snt txr rxr]. cbn in Hlock, Hst. subst lk.
  assert (Hisn : 0 ≤ isn < 2 ^ 32) by (by apply wrap_bound).
  unfold connect. run. rewrite Hst. cbn [negb]. rewrite bool_decide_eq_true_2 by done. run.
  unfold clearState. run. unfold syn. run. fold isn. fold (first_segment isn uptime).
  unfold sendSegment, sendSegmentTo. run. rewrite Hgi. run.
  rewrite encode_wire by (by eapply syn_sendable; [apply first_segment_syn|]). run.
  unfold connect_turn. run. change (one_of TCP_SYN_SENT [TCP_ESTABLISHED; TCP_CLOSED]) with false. cbn [negb andb].
  rewrite (wrap_small 64) by (unfold TCP_CONNECTION_TIMEOUT in *; lia).
  destruct (Z.ltb_spec uptime (uptime + TCP_CONNECTION_TIMEOUT)); [|unfold TCP_CONNECTION_TIMEOUT in *; lia]. run.
  eexists _, _. split; [reflexivity|]. fields. split; [by apply wrap_bound|]. done.
Qed.

(** The listener's entry for a SYN numbered [sq], at [uptime]. *)
Definition listen_isn (uptime : Z) : Z := u32 (u64 (u64 (uptime - uptime mod 10000) + 2137 + 1)).
Definition syn_received_block (isn sq window mss : Z) : tcp_block :=
  mk_block TCP_SYN_RECEIVED isn isn window mss (u32 (sq + 1)) false false false false false.
Definition reply_segment (isn sq : Z) : segment :=
  mk_seg (u32 (isn - 1)) (u32 (sq + 1)) 0 (Z.lor TCP_SYN TCP_ACK) 0 0 24 mss_option.

Lemma reply_segment_syn isn sq : syn_segment (reply_segment isn sq) (Z.lor TCP_SYN TCP_ACK).
Proof. split_and!; simpl; try done; apply wrap_bound; lia. Qed.

Lemma syn_flags seg fl : syn_segment seg fl → fl = TCP_SYN ∨ fl = Z.lor TCP_SYN TCP_ACK →
  has (seg_bits seg) TCP_RST = false ∧ has (seg_bits seg) TCP_SYN = true ∧ has (seg_bits seg) TCP_FIN = false ∧
  has (seg_bits seg) TCP_ACK = has fl TCP_ACK.
Proof.
  intros Hs Hfl. assert (Hf : 0 ≤ fl < 64) by (destruct Hfl as [-> | ->]; by vm_compute).
  destruct (seg_bits_fields seg (syn_sendable _ _ Hs Hf)) as (_ & _ & Hbits). destruct Hs as (_ & _ & Hfs & _).
  rewrite !Hbits, Hfs by (unfold TCP_RST, TCP_SYN, TCP_ACK, TCP_FIN; lia). destruct Hfl as [-> | ->]; done.
Qed.

Lemma find_one addr n b : find_entry [mk_entry addr n b] addr n 0 = Some 0%nat.
Proof. cbn. by rewrite !Z.eqb_refl. Qed.
Lemma rd_one {A} (x : A) : [x].[Z.of_nat 0] = Done x.
Proof. reflexivity. Qed.
Lemma wr_one {A} (x y : A) : [x].[Z.of_nat 0 := y] = Done [y].
Proof. reflexivity. Qed.

Lemma listen_answers_syn gi l seg src sport dst dport window uptime addr a n :
  m_lock l = false → state (m_block l) = TCP_LISTEN → m_listen_queue l = Some [] → m_accept_queue l = Some [] →
  syn_segment seg TCP_SYN → 0 ≤ window < 2 ^ 16 → gi addr = Some a →
  let isn := listen_isn uptime in
  ∃ l1 w, packetReceived gi addr n (wire seg src sport dst dport window) 24 uptime l = Done (tt, l1) ∧ 0 ≤ w < 2 ^ 16 ∧
    m_lock l1 = false ∧ state (m_block l1) = TCP_LISTEN ∧ m_accept_queue l1 = Some [] ∧ m_listen_backlog l1 = m_listen_backlog l ∧
    m_listen_queue l1 = Some [mk_entry addr n (syn_received_block isn (seq seg) window 1460)] ∧ local_port l1 = local_port l ∧
    sent l1 = sent l ++ [(addr, wire (reply_segment isn (seq seg)) a (local_port l) addr n w)].
Proof.
  intros Hlock Hst Hlq Haq Hs Hw Hgi isn.
  destruct l as [lk b tx rx q lq aq bl aid la lp da dp snt txr rxr]. cbn in Hlock, Hst, Hlq, Haq. subst lk lq aq.
  destruct (syn_flags seg TCP_SYN Hs (or_introl eq_refl)) as (Hrst & Hsyn & _ & Hack).
  pose proof Hs as (_ & _ & _ & Hhl & _).
  unfold packetReceived. run. rewrite Hst. cbn [negb andb].
  rewrite (bool_decide_eq_true_2 (TCP_LISTEN = TCP_LISTEN)), (bool_decide_eq_false_2 (TCP_LISTEN = TCP_CLOSED)) by done. cbn [negb andb].
  unfold packetReceivedListen. run. rewrite wire_header by (done || by eapply syn_sendable). run.
  rewrite Hrst, Hsyn, Hhl. run. unfold on_listen_syn. run.
  unfold listen_queue, set_listen_queue. run. unfold tryCreateListenEntry, getListenEntry. cbn [find_entry]. run.
  cbn [app]. fold (listen_isn uptime). fold isn. rewrite find_one. run. rewrite rd_one. run. cbn [e_block]. fields.
  fold (reply_segment isn (seq seg)). unfold sendSegmentTo. run. rewrite Hgi. run.
  rewrite encode_wire by (eapply syn_sendable; [apply reply_segment_syn|by vm_compute]). run.
  rewrite find_one. run. rewrite rd_one. run. cbn [e_block]. erewrite mss_read by (done || lia). run. rewrite Hack. cbn [andb].
  change (has TCP_SYN TCP_ACK) with false. cbn [andb]. run. rewrite wr_one. run.
  eexists _, _. split; [reflexivity|]. fields. split; [by apply wrap_bound|]. done.
Qed.

(** The client takes the SYN|ACK. *)
Lemma client_takes_reply gi c isn uptime0 seg src sport dst dport window uptime a :
  m_lock c = false → 0 ≤ isn < 2 ^ 32 → m_block c = syn_sent_block isn →
  m_retransmission_queue c = [first_segment isn uptime0] →
  syn_segment seg (Z.lor TCP_SYN TCP_ACK) → ack_no seg = u32 (isn + 1) → 0 ≤ window < 2 ^ 16 →
  gi (destination_address c) = Some a →
  ∃ c2 w, packetReceived gi (destination_address c) (destination_port c) (wire seg src sport dst dport window) 24 uptime c = Done (tt, c2) ∧
    0 ≤ w < 2 ^ 16 ∧ m_lock c2 = false ∧ m_retransmission_queue c2 = [] ∧
    m_block c2 = mk_block TCP_ESTABLISHED (u32 (isn + 1)) (u32 (isn + 1)) window 1460 (u32 (seq seg + 1)) false false false false false ∧
    sent c2 = sent c ++ [(destination_address c, wire (mk_seg (u32 (isn + 1)) (u32 (seq seg + 1)) 0 TCP_ACK 0 0 20 []) a (local_port c)
       (destination_address c) (destination_port c) w)].
Proof.
  intros Hlock Hisn Hb Hq Hs Hack Hw Hgi.
  destruct c as [lk b tx rx q lq aq bl aid la lp da dp snt txr rxr]. cbn in Hlock, Hb, Hq, Hgi. subst lk b q.
  destruct (syn_flags seg _ Hs (or_intror eq_refl)) as (Hrst & Hsyn & Hfin & Hacked).
  change (has (Z.lor TCP_SYN TCP_ACK) TCP_ACK) with true in Hacked. pose proof Hs as (_ & _ & _ & Hhl & _).
  assert (Hn1 : 0 ≤ u32 (isn + 1) < 2 ^ 32) by (by apply wrap_bound).
  unfold packetReceived. run. cbn [syn_sent_block state]. rewrite Z.eqb_refl, andb_false_r. cbn [andb].
  rewrite !(bool_decide_eq_false_2 (TCP_SYN_SENT = _)) by done. unfold packetReceivedConnected. run.
  rewrite wire_header by (done || by eapply syn_sendable). run. rewrite Hhl, Hrst, Hsyn, Hfin, Hacked.
  erewrite mss_read by (done || lia). run. cbn [syn_sent_block snd_una snd_nxt snd_wnd state rcv_nxt]. fields.
  rewrite (bool_decide_eq_true_2 (TCP_SYN_SENT = _)) by done. run.
  match goal with |- context[ack_now _ _ ?s0] =>
    rewrite (ack_now_ok gi (u32 (seq seg + 1)) s0 a) by (fields; done || by apply wrap_bound) end. run.
  unfold on_ack. run.
  assert (Haft : is_after_or_equal (ack_no seg) isn half = true)
    by (unfold is_after_or_equal; rewrite Hack; by rewrite (proj2 (is_before_add isn 1 Hisn ltac:(lia)))).
  rewrite Haft. run. cbn [one_of existsb]. rewrite Hack, Z.eqb_refl. cbn [negb]. rewrite andb_false_r. run.
  cbn [ack_loop ack_with first_segment flags]. unfold is_before_or_equal. rewrite Z.eqb_refl. cbn [negb].
  change (has TCP_SYN TCP_FIN) with false. change (has TCP_SYN TCP_SYN) with true. run.
  rewrite (bool_decide_eq_true_2 (TCP_SYN_RECEIVED = TCP_SYN_RECEIVED)) by done. run.
  change (if 24 >=? 24 then 0 else u16 (24 - 24)) with 0. rewrite on_data_none. run.
  eexists _, _. split; [reflexivity|]. fields. split; [by apply wrap_bound|]. done.
Qed.

(** The listener takes the final acknowledgement. *)
Lemma listen_takes_ack gi l seg src sport dst dport window uptime addr n a b :
  m_lock l = false → state (m_block l) = TCP_LISTEN → m_listen_queue l = Some [mk_entry addr n b] → m_accept_queue l = Some [] →
  0 < m_listen_backlog l → state b = TCP_SYN_RECEIVED →
  sendable seg → header_len seg = 20 → flags seg = TCP_ACK → data seg = [] → ack_no seg = snd_nxt b →
  0 ≤ window < 2 ^ 16 → gi addr = Some a →
  ∃ l2, packetReceived gi addr n (wire seg src sport dst dport window) 20 uptime l = Done (tt, l2) ∧
    m_lock l2 = false ∧ m_listen_queue l2 = Some [] ∧ m_listen_backlog l2 = m_listen_backlog l - 1 ∧
    m_accept_queue l2 = Some [mk_child a (local_port l) addr n (set_state TCP_ESTABLISHED b)].
Proof.
  intros Hlock Hst Hlq Haq Hbl Hb Hs Hhl Hfl Hd Hack Hw Hgi.
  destruct l as [lk b0 tx rx q lq aq bl aid la lp da dp snt txr rxr]. cbn in Hlock, Hst, Hlq, Haq, Hbl. subst lk lq aq.
  destruct (seg_bits_fields seg Hs) as (_ & _ & Hbits).
  unfold packetReceived. run. rewrite Hst. cbn [negb andb].
  rewrite (bool_decide_eq_true_2 (TCP_LISTEN = TCP_LISTEN)), (bool_decide_eq_false_2 (TCP_LISTEN = TCP_CLOSED)) by done. cbn [negb andb].
  unfold packetReceivedListen. run. rewrite wire_header by done. run.
  rewrite !Hbits, Hfl by (unfold TCP_RST, TCP_SYN, TCP_ACK; lia).
  change (has TCP_ACK TCP_RST) with false. change (has TCP_ACK TCP_SYN) with false. change (has TCP_ACK TCP_ACK) with true. run.
  unfold listen_queue, set_listen_queue, accept_queue, getListenEntry. run. rewrite find_one. run. rewrite rd_one. run. cbn [e_block].
  rewrite Hhl, read_options_none. run. rewrite Hb, Hack. unfold is_after_or_equal, is_before. rewrite Z.eqb_refl. cbn [negb].
  rewrite bool_decide_eq_true_2 by done. cbn [andb]. rewrite Z.gtb_ltb. destruct (Z.ltb_spec 0 bl); [|lia].
  unfold spawn. run. cbn [source_address source_port e_block]. rewrite Hgi. run.
  cbn [removeEntry source_address source_port]. rewrite !Z.eqb_refl. cbn [negb orb]. run.
  eexists. split; [reflexivity|]. by fields.
Qed.

(** C5 (functional). The three-way handshake between two hosts of this stack: a
    closed client connects to a listening socket with room in its backlog, and
    each segment sent is delivered to the other side.  The client waits in
    [TCP_SYN_SENT], the listener answers SYN|ACK, the client's SYN leaves the
    retransmission queue and it acknowledges, and the listener queues an
    established child; both ends agree on each other's next sequence number and
    use the announced MSS. *)
Theorem three_way_handshake gc gl c l addr port ca la u1 u2 u3 u4 :
  m_lock c = false → state (m_block c) = TCP_CLOSED → gc addr = Some ca →
  0 ≤ u1 < 2 ^ 64 - TCP_CONNECTION_TIMEOUT →
  m_lock l = false → state (m_block l) = TCP_LISTEN → m_listen_queue l = Some [] → m_accept_queue l = Some [] →
  0 < m_listen_backlog l → gl ca = Some la →
  ∃ c1 syn l1 synack c2 ack l2 ch,
    connect gc (Some (addr, port)) u1 c = Done (None, c1) ∧ state (m_block c1) = TCP_SYN_SENT ∧
    sent c1 = sent c ++ [(addr, syn)] ∧
    packetReceived gl ca (local_port c) syn (Z.of_nat (length syn)) u2 l = Done (tt, l1) ∧
    sent l1 = sent l ++ [(ca, synack)] ∧
    packetReceived gc addr port synack (Z.of_nat (length synack)) u3 c1 = Done (tt, c2) ∧
    sent c2 = sent c1 ++ [(addr, ack)] ∧
    packetReceived gl ca (local_port c) ack (Z.of_nat (length ack)) u4 l1 = Done (tt, l2) ∧
    synchronized (m_block c2) (c_block ch) ∧ m_retransmission_queue c2 = [] ∧ m_lock c2 = false ∧
    m_listen_queue l2 = Some [] ∧ m_accept_queue l2 = Some [ch] ∧ m_listen_backlog l2 = m_listen_backlog l - 1 ∧ m_lock l2 = false ∧
    c_destination_address ch = ca ∧ c_destination_port ch = local_port c ∧ c_source_port ch = local_port l.
Proof.
  intros Hcl Hcs Hgc Hu1 Hll Hls Hlq Haq Hbl Hgl.
  assert (Hisn : 0 ≤ initial_seq u1 < 2 ^ 32) by (by apply wrap_bound).
  assert (Hn1 : 0 ≤ u32 (initial_seq u1 + 1) < 2 ^ 32) by (by apply wrap_bound).
  destruct (connect_sends_syn gc c addr port u1 ca) as (c1 & w1 & Hc1 & Hw1 & Hb1 & Hl1 & Hq1 & Hda & Hdp & Hlp & Hs1); [done..|].
  destruct (listen_answers_syn gl l (first_segment (initial_seq u1) u1) ca (local_port c) addr port w1 u2 ca la (local_port c))
    as (l1 & w2 & Hr1 & Hw2 & Hll1 & Hls1 & Haq1 & Hbl1 & Hlq1 & Hlp1 & Hs2); [done|done|done|done|by apply first_segment_syn|done|done|].
  destruct (client_takes_reply gc c1 (initial_seq u1) u1 (reply_segment (listen_isn u2) (initial_seq u1)) la (local_port l) ca (local_port c) w2 u3 ca)
    as (c2 & w3 & Hr2 & Hw3 & Hl2 & Hq2 & Hb2 & Hs3); [done|done|done|done|apply reply_segment_syn|done|done|by rewrite Hda|].
  rewrite Hda, Hdp, Hlp in *. cbn [seq first_segment reply_segment] in *.
  assert (Hisn2 : 0 ≤ listen_isn u2 < 2 ^ 32) by (by apply wrap_bound).
  assert (Hback : u32 (u32 (listen_isn u2 - 1) + 1) = listen_isn u2)
    by (rewrite wrap_add_l by lia; replace (listen_isn u2 - 1 + 1) with (listen_isn u2) by lia; by apply wrap_small).
  rewrite Hback in *.
  destruct (listen_takes_ack gl l1 (mk_seg (u32 (initial_seq u1 + 1)) (listen_isn u2) 0 TCP_ACK 0 0 20 []) ca (local_port c) addr port w3 u4
     ca (local_port c) la (syn_received_block (listen_isn u2) (initial_seq u1) w1 1460))
    as (l2 & Hr3 & Hl3 & Hlq3 & Hbl3 & Haq3); [done|done|done|done|lia|done|by apply sendable_ack|done|done|done|done|done|done|].
  eexists c1, _, l1, _, c2, _, l2,
    (mk_child la (local_port l) ca (local_port c) (set_state TCP_ESTABLISHED (syn_received_block (listen_isn u2) (initial_seq u1) w1 1460))).
  rewrite !wire_length.
  split; [exact Hc1|]. split; [by rewrite Hb1|]. split; [exact Hs1|]. split; [exact Hr1|]. split; [exact Hs2|].
  split; [exact Hr2|]. split; [exact Hs3|]. split; [exact Hr3|]. unfold synchronized. rewrite Hb2. cbn [state snd_nxt rcv_nxt snd_mss].
  split_and!; first [done|lia|by rewrite <-Hlp1].
Qed.

(** A closed socket and a listening one. *)
Definition demo_client : sock := upd_block (set_state TCP_CLOSED) (demo_socket []).
Definition demo_listener : sock := upd_listen (Some []) (Some []) 4 (upd_block (set_state TCP_LISTEN) (demo_socket [])).

Lemma three_way_handshake_witness :
  ∃ c1 l2 ch, connect (λ _, Some 5) (Some (6, 80)) 100000 demo_client = Done (None, c1) ∧ m_accept_queue l2 = Some [ch] ∧
    c_destination_address ch = 5.
Proof.
  destruct (three_way_handshake (λ _, Some 5) (λ _, Some 6) demo_client demo_listener 6 80 5 6 100000 100001 100002 100003)
    as (c1 & ? & ? & ? & ? & ? & l2 & ch & H); [done..|by vm_compute|done|done|done|done|by vm_compute|done|].
  exists c1, l2, ch. split; [apply H|]. split; apply H.
Defined.

End TcpProps.
