(* ===== verification/TcpProtocol.v ===== *)
(** * The TCP protocol table

    [TCPProtocol] ([mod/core/netstack/protocol/inet/tcp.cpp]): the vector of sockets,
    the choice of the socket a segment belongs to, the timer loop, and the
    destructor of [TCPSocket].  The calls run under [sockets_lock]. *)
From S2P Require Import Prelude Locks Ring Ports Net Tcp.
Local Open Scope Z_scope.
Import CircularBuffer Tcp.

Module TcpProtocol.

(** The sockets of the vector, in its order, and the port table. *)
Record protocol := mk_protocol { sockets : list sock; t_ports : Ports.ports }.

Abbreviation PM := (stateM protocol).

(** [TCPSocket()] *)
Definition new_socket : sock :=
  mk_sock false fresh_block (create TCP_TX_BUFFER_SIZE) (create TCP_RX_BUFFER_SIZE) [] None None 0 0 0 0 0 0 [] 0 0.

Section Protocol.
Context (get_interface : Z → option Z).

(** A method of the socket at position [i]. *)
Definition on_socket {A} (i : nat) (m : M A) : PM A := λ p,
  s ← (sockets p).[Z.of_nat i];
  '(a, s) ← m s;
  l ← (sockets p).[Z.of_nat i := s];
  Done (a, mk_protocol l (t_ports p)).

(** The two conditions of [packetReceived]. *)
Definition is_connection (src_port dst_port : Z) (s : sock) : bool :=
  negb (negb (dst_port =? local_port s) || negb (src_port =? destination_port s) ||
        bool_decide (state (m_block s) = TCP_LISTEN) || bool_decide (state (m_block s) = TCP_CLOSED)).
Definition is_listener (dst_port : Z) (s : sock) : bool :=
  negb (negb (dst_port =? local_port s) || negb (bool_decide (state (m_block s) = TCP_LISTEN))).

Fixpoint find_socket (f : sock → bool) (l : list sock) : option nat :=
  match l with
  | [] => None
  | s :: l => if f s then Some 0%nat else S <$> find_socket f l
  end.

(** [TCPSocket(parent, entry)] pushes itself on the vector: the sockets of the
    entries that a call has added to the accept queue. *)
Definition child_socket (c : child) : sock :=
  mk_sock false (c_block c) (create TCP_TX_BUFFER_SIZE) (create TCP_RX_BUFFER_SIZE) [] None None 0 0
    (c_source_address c) (c_source_port c) (c_destination_address c) (c_destination_port c) [] 0 0.
Definition accepted (s : sock) : list child := default [] (m_accept_queue s).
Definition pushSocket (s : sock) : PM unit := modify (λ p, mk_protocol (sockets p ++ [s]) (t_ports p)).

Definition packetReceived (src src_port dst dst_port : Z) (buffer : list Z) (len uptime : Z) : PM unit :=
  if dst_port =? 0 then mret tt
  else
    l ← gets sockets;
    match find_socket (is_connection src_port dst_port) l with
    | Some i => on_socket i (Tcp.packetReceived get_interface src src_port buffer len uptime)
    | None =>
        match find_socket (is_listener dst_port) l with
        | Some i =>
            before ← on_socket i (gets accepted);
            on_socket i (Tcp.packetReceived get_interface src src_port buffer len uptime);;
            after ← on_socket i (gets accepted);
            modify (λ p, mk_protocol (sockets p ++ (child_socket <$> drop (length before) after)) (t_ports p))
        | None => mret tt
        end
    end.

(** A turn of [loop]: [n] sockets from position [i] on. *)
Fixpoint tick_all (n i : nat) (uptime : Z) : PM unit :=
  match n with
  | O => mret tt
  | S n => on_socket i (tick get_interface uptime);; tick_all n (S i) uptime
  end.
Definition loop (uptime : Z) : PM unit := l ← gets sockets; tick_all (length l) 0 uptime.

Inductive created := ESOCKTNOSUPPORT | ENOMEM | Created (i : nat).
Definition in_ports {A} (m : stateM Ports.ports A) : PM A := λ p,
  '(a, ps) ← m (t_ports p); Done (a, mk_protocol (sockets p) ps).

(** The port table of [TCPProtocol], the same code as that of [UDPProtocol]. *)
Definition allocateDynamicPort : PM Z := in_ports Ports.allocateDynamicPort.
Definition allocatePort (port : Z) : PM bool := in_ports (Ports.allocatePort port).
Definition freePort (port : Z) : PM unit := in_ports (Ports.freePort port).

(** [delete socket] in [createSocket] comes before the socket is on the vector. *)
Definition createSocket (stream : bool) : PM created :=
  if negb stream then mret ESOCKTNOSUPPORT
  else
    port ← allocateDynamicPort;
    if port =? 0 then mret ENOMEM
    else
      i ← gets (λ p, length (sockets p));
      pushSocket (upd_local 0 port new_socket);;
      mret (Created i).

(** [~TCPSocket] of the socket at position [i]. *)
Definition destroy (i : nat) : PM unit :=
  on_socket i lock_acquire;;
  send_rst ← on_socket i reset;
  on_socket i lock_release;;
  when send_rst (on_socket i (rst get_interface));;
  port ← on_socket i (gets local_port);
  modify (λ p, mk_protocol (delete i (sockets p)) (t_ports p));;
  when (negb (port =? 0)) (freePort port).

(** ** The choice of the socket *)

Lemma find_socket_Some f l i : find_socket f l = Some i ↔
  (∃ s, l !! i = Some s ∧ f s = true) ∧ ∀ j s, (j < i)%nat → l !! j = Some s → f s = false.
Proof.
  revert i. induction l as [|s l IH]; intros i; cbn [find_socket]; [split; [done|by intros [(? & ? & _) _]]|].
  destruct (f s) eqn:E.
  - split.
    + intros [= <-]. split; [by exists s|]. lia.
    + intros [_ H]. destruct i as [|i]; [done|]. specialize (H 0%nat s ltac:(lia) eq_refl). congruence.
  - rewrite fmap_Some. split.
    + intros (k & [[t [Ht Hf]] Hlt]%IH & ->). split; [by exists t|]. intros [|j] t' Hj Ht'; [by simplify_eq/=|]. apply (Hlt j); [lia|done].
    + intros [(t & Ht & Hf) Hlt]. destruct i as [|i]; [simplify_eq/=; congruence|]. exists i. split; [|done]. apply IH. split; [by exists t|].
      intros j t' Hj Ht'. apply (Hlt (S j)); [lia|done].
Qed.

Lemma find_socket_None f l : find_socket f l = None ↔ ∀ s, s ∈ l → f s = false.
Proof.
  induction l as [|s l IH]; cbn [find_socket]; [split; [by intros _ s ?%elem_of_nil|done]|].
  destruct (f s) eqn:E; [split; [done|intros H; specialize (H s ltac:(left)); congruence]|].
  rewrite fmap_None, IH. set_solver.
Qed.

(** The source address of a segment plays no part for a socket that does not
    listen: [packetReceived] ignores a segment only when both the address and the
    port differ. *)
Lemma address_ignored src buffer len uptime s :
  state (m_block s) ≠ TCP_LISTEN →
  Tcp.packetReceived get_interface src (destination_port s) buffer len uptime s =
  Tcp.packetReceived get_interface (destination_address s) (destination_port s) buffer len uptime s.
Proof.
  intros Hst. unfold Tcp.packetReceived. rewrite !run_bind. cbn. rewrite !run_bind. cbn. rewrite !run_bind. cbn.
  rewrite (Z.eqb_refl (destination_port s)), !andb_false_r. by rewrite (bool_decide_eq_false_2 (state (m_block s) = TCP_LISTEN)).
Qed.

(** A segment goes to the first socket connected to its two ports,
    and to the first listening socket of its destination port only when there is
    none; to nobody otherwise, and no other socket changes.  The addresses are not
    compared: a connection takes the segment of any host that uses its peer's port
    as if it came from the peer. *)
Lemma tcp_dispatch p src sp dst dp buffer len uptime :
  dp ≠ 0 →
  (∀ i s s', sockets p !! i = Some s → is_connection sp dp s = true →
     (∀ j t, (j < i)%nat → sockets p !! j = Some t → is_connection sp dp t = false) →
     Tcp.packetReceived get_interface (destination_address s) (destination_port s) buffer len uptime s = Done (tt, s') →
     packetReceived src sp dst dp buffer len uptime p = Done (tt, mk_protocol (<[i := s']> (sockets p)) (t_ports p))) ∧
  (∀ i s s', (∀ t, t ∈ sockets p → is_connection sp dp t = false) → sockets p !! i = Some s → is_listener dp s = true →
     (∀ j t, (j < i)%nat → sockets p !! j = Some t → is_listener dp t = false) →
     Tcp.packetReceived get_interface src sp buffer len uptime s = Done (tt, s') →
     packetReceived src sp dst dp buffer len uptime p =
       Done (tt, mk_protocol (<[i := s']> (sockets p) ++ (child_socket <$> drop (length (accepted s)) (accepted s'))) (t_ports p))) ∧
  ((∀ t, t ∈ sockets p → is_connection sp dp t = false ∧ is_listener dp t = false) →
     packetReceived src sp dst dp buffer len uptime p = Done (tt, p)).
Proof.
  intros Hdp. unfold packetReceived. replace (dp =? 0) with false by lia. rewrite gets_bind.
  assert (Hrun : ∀ {A} i s (m : M A) a s', sockets p !! i = Some s → m s = Done (a, s') →
    on_socket i m p = Done (a, mk_protocol (<[i := s']> (sockets p)) (t_ports p))).
  { intros A i s m a s' Hi Hm. unfold on_socket. rewrite (proj2 (rd_Done _ _ s)) by (rewrite Nat2Z.id; split; [lia|done]).
    cbn. rewrite Hm. cbn. rewrite wr_in_range by (apply lookup_lt_Some in Hi; lia). by rewrite Nat2Z.id. }
  split_and!.
  - intros i s s' Hi Hc Hfirst He. rewrite (proj2 (find_socket_Some _ _ _) (conj (ex_intro _ s (conj Hi Hc)) Hfirst)).
    apply (Hrun _ i s); [done|]. unfold is_connection in Hc. rewrite !negb_orb, !negb_involutive in Hc.
    apply andb_true_iff in Hc as [[[_ Hsp%Z.eqb_eq]%andb_true_iff Hl%negb_true_iff%bool_decide_eq_false]%andb_true_iff _].
    rewrite Hsp, address_ignored by done. exact He.
  - intros i s s' Hno Hi Hl Hfirst He. rewrite (proj2 (find_socket_None _ _) Hno).
    rewrite (proj2 (find_socket_Some _ _ _) (conj (ex_intro _ s (conj Hi Hl)) Hfirst)).
    rewrite run_bind, (Hrun _ i s (gets accepted) (accepted s) s Hi eq_refl). cbn [fst snd]. rewrite list_insert_id by done.
    replace (mk_protocol (sockets p) (t_ports p)) with p by (by destruct p).
    rewrite run_bind, (Hrun _ i s _ tt s' Hi He). cbn [fst snd]. rewrite run_bind. unfold on_socket. cbn [sockets t_ports].
    pose proof (lookup_lt_Some _ _ _ Hi). rewrite (proj2 (rd_Done _ _ s')) by (rewrite Nat2Z.id; split; [lia|by apply list_lookup_insert_eq]).
    cbn. rewrite wr_in_range by (rewrite length_insert; lia). cbn. by rewrite Nat2Z.id, list_insert_insert_eq.
  - intros Hno. rewrite (proj2 (find_socket_None _ _)) by naive_solver. by rewrite (proj2 (find_socket_None _ _)) by naive_solver.
Qed.

End Protocol.

(** A connection to a peer at address 7, and a segment with no flags. *)
Definition demo_connection : sock :=
  upd_block (set_state TCP_ESTABLISHED) (upd_peer 7 4000 (upd_local 3 80 new_socket)).
Definition demo_segment : list Z := Tcp.header_bytes 4000 80 0 0 (Z.shiftl 5 12) 100 0.

Lemma tcp_dispatch_witness :
  ∃ s', packetReceived (λ _, Some 3) 99 4000 3 80 demo_segment 20 0 (mk_protocol [new_socket; demo_connection] Ports.init) =
    Done (tt, mk_protocol [new_socket; s'] Ports.init).
Proof.
  destruct (tcp_dispatch (λ _, Some 3) (mk_protocol [new_socket; demo_connection] Ports.init) 99 4000 3 80 demo_segment 20 0) as [Hc _]; [lia|].
  assert (Hr : ∃ s', Tcp.packetReceived (λ _, Some 3) 7 4000 demo_segment 20 0 demo_connection = Done (tt, s'))
    by (eexists; vm_compute; reflexivity).
  destruct Hr as [s' Hr]. exists s'. apply (Hc 1%nat demo_connection s'); [done|done| |exact Hr].
  intros [|j] t Hj Ht; [by injection Ht as <-|lia].
Defined.

End TcpProtocol.
