(* ===== verification/Ipv4.v ===== *)
(** * IPv4

    Addresses ([include/aex/net/ipv4.hpp]), the addresses of a network device
    ([dev/netdevice.cpp]) and [IPv4Layer]
    ([mod/core/netstack/layer/network/ipv4.cpp]): the choice of an interface,
    encapsulation, sending, parsing and the retransmission queue. *)
From S2P Require Import Prelude Math Heap Net.
Local Open Scope Z_scope.
Import Bytes Checksum.

Module Ipv4.

(** ** Addresses

    An [ipv4_addr] is the 32-bit load of its four bytes, so that [memcmp] of the
    bytes is equality. *)

Definition ipv4 (a b c d : Z) : Z := le_value [a; b; c; d].
Definition of_u32 (v : Z) : Z :=
  ipv4 (u8 (Z.shiftr v 24)) (u8 (Z.shiftr v 16)) (u8 (Z.shiftr v 8)) (u8 (Z.shiftr v 0)).
Definition to_u32 (a : Z) : Z := bswap32 a.

Definition addr_or (a b : Z) : Z := of_u32 (bswap32 (Z.lor a b)).
Definition addr_and (a b : Z) : Z := of_u32 (bswap32 (Z.land a b)).
Definition addr_xor (a b : Z) : Z := of_u32 (bswap32 (Z.lxor a b)).
Definition addr_not (a : Z) : Z := of_u32 (bswap32 (u32 (Z.lnot a))).

Definition isSubnettedWith (this destination mask : Z) : bool := addr_and this mask =? addr_and destination mask.

Definition IPv4_ANY : Z := ipv4 0 0 0 0.
Definition IPv4_BROADCAST : Z := ipv4 255 255 255 255.

(** ** Devices *)

(** [NetDevice] with its [ipv4_info]. *)
Record netdev := mk_dev { mac : list Z; addr : Z; mask : Z; broadcast : Z; gateway : Z; metric : Z }.

Definition setIPv4Address (a : Z) (d : netdev) : netdev :=
  mk_dev (mac d) a (mask d) (addr_or a (addr_not (mask d))) (gateway d) (metric d).
Definition setIPv4Mask (m : Z) (d : netdev) : netdev :=
  mk_dev (mac d) (addr d) m (addr_or (addr d) (addr_not m)) (gateway d) (metric d).
Definition setIPv4Gateway (g : Z) (d : netdev) : netdev :=
  mk_dev (mac d) (addr d) (mask d) (broadcast d) g (metric d).
Definition setMetric (m : Z) (d : netdev) : netdev :=
  mk_dev (mac d) (addr d) (mask d) (broadcast d) (gateway d) m.

(** The array [Dev::devices]: an empty slot, a device of another type, a network
    device. *)
Inductive device := OtherDevice | NetDevice (d : netdev).
Abbreviation devices := (list (option device)).

(** [devices.get] *)
Definition devices_get (devs : devices) (index : Z) : option device :=
  if (index <? 0) || (index >=? Z.of_nat (length devs)) then None else mjoin (devs !! Z.to_nat index).

Definition get_net_device (devs : devices) (id : Z) : option netdev :=
  match devices_get devs id with Some (NetDevice d) => Some d | _ => None end.

(** The loop of [get_interface]: the index of the device it returns. *)
Fixpoint interface_loop (l : devices) (index best_generic best_metric a : Z) : Z :=
  match l with
  | [] => best_generic
  | Some (NetDevice d) :: l =>
      let '(best_generic, best_metric) :=
        if metric d <? best_metric then (index, metric d) else (best_generic, best_metric) in
      if negb (addr_and (addr d) (mask d) =? addr_and a (mask d))
      then interface_loop l (index + 1) best_generic best_metric a
      else index
  | _ :: l => interface_loop l (index + 1) best_generic best_metric a
  end.

Definition get_interface (devs : devices) (a : Z) : option (Z * netdev) :=
  let index := interface_loop devs 0 (-1) 23232323 a in
  d ← get_net_device devs index; Some (index, d).

(** ** The header *)

Definition IPv4_TCP : Z := 6.
Definition IPv4_UDP : Z := 17.
Definition header_size : Z := 20.

Definition encaps_len (payload_len : Z) : Z := header_size + payload_len.

(** The fields of [ipv4_header] that [encapsulate] writes; the two bit fields share
    byte 0. *)
Definition encapsulate (buffer : list Z) (len dst protocol : Z) : outcome (list Z) :=
  b ← buffer.[0]; buffer ← buffer.[0 := Z.lor (Z.land b 0xF0) 5];
  b ← buffer.[0]; buffer ← buffer.[0 := Z.lor (Z.land b 0x0F) (Z.shiftl 4 4)];
  buffer ← buffer.[1 := 0];
  buffer ← put buffer 2 (be16_set (u16 (len + header_size)));
  buffer ← put buffer 4 (be16_set 0x2137);
  buffer ← put buffer 6 (be16_set 0x4000);
  buffer ← buffer.[8 := 72];
  buffer ← buffer.[9 := u8 protocol];
  put buffer 16 (le_bytes 4 dst).

Inductive error_t :=
  ENONE | EAGAIN | ENETUNREACH | EINVAL | ENOTCONN | EADDRINUSE | ENOMEM | ESOCKTNOSUPPORT | ENOSYS | EOTHER (code : Z).
#[global] Instance ipv4_error_eq : EqDecision error_t.
Proof. solve_decision. Defined.

(** [NetDevice::send], virtual: what a device does to the rest of the system, of
    state [W], with a packet of type [NET_IPv4]. *)
Class Link (W : Type) := link_send : Z → list Z → Z → stateM W error_t.

(** What [IPv4Layer] hands payloads to: [TCPLayer::parse] and [UDPLayer::parse], with
    the bytes from the payload on, the length, the source and the destination. *)
Class Transport (W : Type) := {
  tcp_parse : list Z → Z → Z → Z → stateM W unit;
  udp_parse : list Z → Z → Z → Z → stateM W unit;
}.

Definition parse `{Transport W} (dev : netdev) (buffer : list Z) (len : Z) : stateM W unit :=
  b ← lift (buffer.[0]);
  let header_len := Z.land b 0xF * 4 in
  if (header_len <? 20) || (len <? header_len) then mret tt
  else
    dst ← lift (get buffer 16 4);
    let dst := le_value dst in
    if negb (dst =? addr dev) && negb (dst =? IPv4_BROADCAST) && negb (dst =? broadcast dev) then mret tt
    else
      total ← lift (sum_bytes buffer header_len);
      if negb (to_checksum total =? 0) then mret tt
      else
        total_len ← lift (get buffer 2 2);
        let total_len := be16_get total_len in
        if total_len <? header_len then mret tt
        else
          let payload := drop (Z.to_nat header_len) buffer in
          let len := u16 (total_len `min` len - header_len) in
          protocol ← lift (buffer.[9]);
          source ← lift (get buffer 12 4);
          let source := le_value source in
          if protocol =? IPv4_TCP then tcp_parse payload len source dst
          else if protocol =? IPv4_UDP then udp_parse payload len source dst
          else mret tt.

(** [send] fills the packet in place: the buffer it leaves is returned. *)
Definition send `{Link W} (devs : devices) (buffer : list Z) (len : Z) : stateM W (error_t * list Z) :=
  dst ← lift (get buffer 16 4);
  match get_interface devs (le_value dst) with
  | None => mret (ENETUNREACH, buffer)
  | Some (index, dev) =>
      buffer ← lift (put buffer 12 (le_bytes 4 (addr dev)));
      buffer ← lift (put buffer 10 (be16_set 0));
      total ← lift (sum_bytes buffer header_size);
      buffer ← lift (put buffer 10 (be16_set (to_checksum total)));
      err ← link_send index buffer len;
      mret (err, buffer)
  end.

(** ** Retransmission *)

Record retx_frame := mk_frame { tries : Z; f_data : list Z; f_len : Z }.
(** The size of the struct: [uint8_t], pointer, [uint16_t]. *)
Definition sizeof_retx_frame : Z := 24.
Definition MAX_RETX_QUEUE_SIZE : Z := 65536.
Definition MAX_RETX_TRIES : Z := 8.

(** What a frame counts for in [m_retx_queue_size]. *)
Definition frame_cost (len : Z) : Z := sizeof_retx_frame + Heap.msize_total_len len.

(** The static members, and the rest of the system. *)
Record layer (W : Type) := mk_layer { m_retx_queue : list retx_frame; m_retx_queue_size : Z; world : W }.
Arguments mk_layer {W}.
Arguments m_retx_queue {W}.
Arguments m_retx_queue_size {W}.
Arguments world {W}.

Definition in_world {W A} (m : stateM W A) : stateM (layer W) A := λ s,
  '(a, w) ← m (world s); Done (a, mk_layer (m_retx_queue s) (m_retx_queue_size s) w).

Definition retx_add {W} (buffer : list Z) (len : Z) : stateM (layer W) unit := λ s,
  if u64 (m_retx_queue_size s + frame_cost len) >? MAX_RETX_QUEUE_SIZE then Done (tt, s)
  else
    data ← get buffer 0 len;
    Done (tt, mk_layer (m_retx_queue s ++ [mk_frame 0 data len]) (u32 (m_retx_queue_size s + frame_cost len)) (world s)).

Definition route `{Link W} (devs : devices) (buffer : list Z) (len : Z) : stateM (layer W) error_t :=
  r ← in_world (send devs buffer len);
  when (bool_decide (r.1 = EAGAIN)) (retx_add r.2 len);;
  mret r.1.

(** The loop of [retx] over the frames from position [i] on; [erase] and [i--] take
    a frame out, the others stay.  The code reads the count again in every turn, so a frame
    that another thread or [send] itself adds meanwhile is reached in the same pass; here
    no frame is added while it runs. *)
Fixpoint retx_loop `{Link W} (devs : devices) (q : list retx_frame) : stateM (layer W) (list retx_frame) :=
  match q with
  | [] => mret []
  | f :: q =>
      let tries := u8 (tries f + 1) in
      r ← in_world (send devs (f_data f) (f_len f));
      if bool_decide (r.1 = ENONE) || (tries =? MAX_RETX_TRIES) then
        modify (λ s, mk_layer (m_retx_queue s) (u32 (m_retx_queue_size s - frame_cost (f_len f))) (world s));;
        retx_loop devs q
      else
        kept ← retx_loop devs q;
        mret (mk_frame tries r.2 (f_len f) :: kept)
  end.

Definition retx `{Link W} (devs : devices) : stateM (layer W) bool :=
  q ← gets m_retx_queue;
  kept ← retx_loop devs q;
  modify (λ s, mk_layer kept (m_retx_queue_size s) (world s));;
  mret (bool_decide (kept = [])).

(** ** Address arithmetic *)

Definition is_addr (a : Z) : Prop := 0 ≤ a < 2 ^ 32.

Lemma of_u32_bswap v : is_addr v → of_u32 v = bswap32 v.
Proof.
  intros Hv. assert (Hb : bytes [u8 (Z.shiftr v 24); u8 (Z.shiftr v 16); u8 (Z.shiftr v 8); u8 (Z.shiftr v 0)])
    by (repeat constructor; apply wrap_bound; lia).
  apply (bits_eq 32); [lia|exact (le_value_bound _ Hb)|apply wrap_bound; lia|]. intros k Hk.
  rewrite bswap32_bit by done. pose proof (Z.div_mod k 8 ltac:(lia)). pose proof (Z.mod_pos_bound k 8 ltac:(lia)).
  assert (Hbit : ∀ n, 0 ≤ n → Z.testbit (u8 (Z.shiftr v n)) (k mod 8) = Z.testbit v (k mod 8 + n)).
  { intros n Hn. unfold wrap. rewrite Z.mod_pow2_bits_low by lia. by rewrite Z.shiftr_spec by lia. }
  assert (Hspec : ∀ i b, k / 8 = Z.of_nat i → [u8 (Z.shiftr v 24); u8 (Z.shiftr v 16); u8 (Z.shiftr v 8); u8 (Z.shiftr v 0)] !! i = Some b →
    Z.testbit (of_u32 v) k = Z.testbit b (k mod 8)).
  { intros i b Hi Hl. unfold of_u32, ipv4, le_value. rewrite (little_endian_to_Z_spec 8 _ k b); [done|lia|lia|exact Hb|].
    by rewrite Hi, Nat2Z.id. }
  destruct (Z.ltb_spec k 8); [|destruct (Z.ltb_spec k 16); [|destruct (Z.ltb_spec k 24)]].
  - rewrite (Hspec 0%nat _ ltac:(lia) eq_refl), Hbit by lia. f_equal; lia.
  - rewrite (Hspec 1%nat _ ltac:(lia) eq_refl), Hbit by lia. f_equal; lia.
  - rewrite (Hspec 2%nat _ ltac:(lia) eq_refl), Hbit by lia. f_equal; lia.
  - rewrite (Hspec 3%nat _ ltac:(lia) eq_refl), Hbit by lia. f_equal; lia.
Qed.

Lemma of_u32_of_bswap x : is_addr x → of_u32 (bswap32 x) = x.
Proof. intros Hx. rewrite of_u32_bswap by (apply wrap_bound; lia). by apply bswap32_bswap32. Qed.

Lemma land_addr a b : is_addr a → 0 ≤ b → is_addr (Z.land a b).
Proof.
  intros Ha Hb. assert (0 ≤ Z.land a b) by (apply Z.land_nonneg; unfold is_addr in *; lia).
  split; [done|]. apply bits_bound; [lia|done|]. intros k Hk. by rewrite Z.land_spec, (high_bits 32 a) by (done || lia).
Qed.

Lemma addr_and_land a b : is_addr a → is_addr b → addr_and a b = Z.land a b.
Proof. intros Ha Hb. apply of_u32_of_bswap, land_addr; [done|apply Hb]. Qed.

Lemma lor_addr a b : is_addr a → is_addr b → is_addr (Z.lor a b).
Proof.
  intros Ha Hb. assert (0 ≤ Z.lor a b) by (apply Z.lor_nonneg; unfold is_addr in *; lia).
  split; [done|]. apply bits_bound; [lia|done|]. intros k Hk. by rewrite Z.lor_spec, (high_bits 32 a), (high_bits 32 b) by (done || lia).
Qed.

(** The broadcast address agrees with the address where the mask is set and is all
    ones elsewhere. *)
Lemma broadcast_bits a m k :
  is_addr a → is_addr m → 0 ≤ k < 32 →
  Z.testbit (addr_or a (addr_not m)) k = if Z.testbit m k then Z.testbit a k else true.
Proof.
  intros Ha Hm Hk. assert (Hn : is_addr (u32 (Z.lnot m))) by (apply wrap_bound; lia).
  unfold addr_or, addr_not. rewrite (of_u32_of_bswap (u32 _)), of_u32_of_bswap by (try apply lor_addr; done).
  rewrite Z.lor_spec. unfold wrap. rewrite Z.mod_pow2_bits_low, Z.lnot_spec by lia.
  destruct (Z.testbit m k); [apply orb_false_r|apply orb_true_r].
Qed.

(** ** The choice of an interface *)

(** [best devs n r]: the answer of the metric among the first [n] slots. *)
Definition best (devs : devices) (n r : Z) : Prop :=
  (r = -1 ∧ ∀ j d, j < n → get_net_device devs j = Some d → 23232323 ≤ metric d) ∨
  (r < n ∧ ∃ d, get_net_device devs r = Some d ∧ metric d < 23232323 ∧
     ∀ j d', j < n → get_net_device devs j = Some d' → metric d ≤ metric d').

Definition best_metric_of (devs : devices) (r : Z) : Z :=
  match get_net_device devs r with Some d => metric d | None => 23232323 end.

Lemma net_device_at (pre l : devices) x :
  get_net_device (pre ++ x :: l) (Z.of_nat (length pre)) = match x with Some (NetDevice d) => Some d | _ => None end.
Proof.
  unfold get_net_device, devices_get. rewrite length_app. cbn [length].
  destruct (Z.ltb_spec (Z.of_nat (length pre)) 0), (Z.geb_spec (Z.of_nat (length pre)) (Z.of_nat (length pre + S (length l)))); try lia.
  cbn [orb].
  rewrite Nat2Z.id, list_lookup_middle by done. by destruct x as [[]|].
Qed.

Lemma net_device_neg devs j d : get_net_device devs j = Some d → 0 ≤ j.
Proof. unfold get_net_device, devices_get. destruct (Z.ltb_spec j 0); [done|lia]. Qed.

Lemma net_device_in devs j d : get_net_device devs j = Some d → j < Z.of_nat (length devs).
Proof. unfold get_net_device, devices_get. destruct (Z.geb_spec j (Z.of_nat (length devs))); [by rewrite orb_true_r|lia]. Qed.

Lemma best_skip devs n r : best devs n r → get_net_device devs n = None → best devs (n + 1) r.
Proof.
  intros Hb Hn. assert (Hj : ∀ j d, j < n + 1 → get_net_device devs j = Some d → j < n)
    by (intros j d ? Hd; destruct (decide (j = n)); [congruence|lia]).
  destruct Hb as [[-> Hb]|(Hr & d & Hd & Hm & Hb)]; [left|right; split; [lia|exists d]]; naive_solver.
Qed.

Lemma best_take devs n r d :
  best devs n r → get_net_device devs n = Some d →
  best devs (n + 1) (if metric d <? best_metric_of devs r then n else r).
Proof.
  intros Hb Hn. assert (Hj : ∀ j, j < n + 1 → j < n ∨ j = n) by lia.
  destruct Hb as [[-> Hb]|(Hr & d' & Hd & Hm & Hb)].
  - change (best_metric_of devs (-1)) with 23232323. destruct (Z.ltb_spec (metric d) 23232323).
    + right. split; [lia|]. exists d. split_and!; [done..|]. intros j d'' [?| ->]%Hj Hd''; [|by simplify_eq].
      pose proof (Hb j d'' ltac:(done) Hd''). lia.
    + left. split; [done|]. intros j d'' [?| ->]%Hj Hd''; [naive_solver|by simplify_eq].
  - unfold best_metric_of. rewrite Hd. destruct (Z.ltb_spec (metric d) (metric d')).
    + right. split; [lia|]. exists d. split_and!; [done|lia|]. intros j d'' [?| ->]%Hj Hd''; [|by simplify_eq].
      pose proof (Hb j d'' ltac:(done) Hd''). lia.
    + right. split; [lia|]. exists d'. split_and!; [done..|]. intros j d'' [?| ->]%Hj Hd''; [naive_solver|by simplify_eq].
Qed.

Definition subnetted (a : Z) (d : netdev) : Prop := isSubnettedWith (addr d) a (mask d) = true.

Lemma interface_loop_spec a l pre r :
  best (pre ++ l) (Z.of_nat (length pre)) r →
  (∀ j d, j < Z.of_nat (length pre) → get_net_device (pre ++ l) j = Some d → ¬ subnetted a d) →
  let index := interface_loop l (Z.of_nat (length pre)) r (best_metric_of (pre ++ l) r) a in
  (∃ d, get_net_device (pre ++ l) index = Some d ∧ subnetted a d ∧
     ∀ j d', j < index → get_net_device (pre ++ l) j = Some d' → ¬ subnetted a d') ∨
  ((∀ j d, get_net_device (pre ++ l) j = Some d → ¬ subnetted a d) ∧ best (pre ++ l) (Z.of_nat (length (pre ++ l))) index).
Proof.
  revert pre r. induction l as [|x l IH]; intros pre r Hb Hno; cbn [interface_loop].
  { right. rewrite app_nil_r in *. split; [|done]. intros j d Hd. apply (Hno j d); [by eapply net_device_in|done]. }
  pose proof (net_device_at pre l x) as Hx. specialize (IH (pre ++ [x])). rewrite length_app, <-app_assoc in IH. cbn [length app] in IH.
  replace (Z.of_nat (length pre + 1)) with (Z.of_nat (length pre) + 1) in IH by lia.
  assert (Hskip : get_net_device (pre ++ x :: l) (Z.of_nat (length pre)) = None →
    ∀ j d, j < Z.of_nat (length pre) + 1 → get_net_device (pre ++ x :: l) j = Some d → ¬ subnetted a d).
  { intros Hn j d Hj Hd. apply (Hno j d); [|done]. destruct (decide (j = Z.of_nat (length pre))); [congruence|lia]. }
  destruct x as [[|d]|]; [apply IH; [by apply best_skip|by apply Hskip]| |apply IH; [by apply best_skip|by apply Hskip]].
  pose proof (best_take _ _ _ _ Hb Hx) as Hb'. specialize (IH _ Hb').
  assert (He : (if metric d <? best_metric_of (pre ++ Some (NetDevice d) :: l) r then (Z.of_nat (length pre), metric d)
               else (r, best_metric_of (pre ++ Some (NetDevice d) :: l) r)) =
    let r' := if metric d <? best_metric_of (pre ++ Some (NetDevice d) :: l) r then Z.of_nat (length pre) else r in
    (r', best_metric_of (pre ++ Some (NetDevice d) :: l) r')).
  { cbv zeta. destruct (_ <? _); [|done]. unfold best_metric_of at 1. by rewrite Hx. }
  rewrite He. cbv zeta. fold (isSubnettedWith (addr d) a (mask d)).
  destruct (isSubnettedWith (addr d) a (mask d)) eqn:Es; cbn [negb].
  - left. exists d. split_and!; [done..|]. intros j d' Hj Hd'. by apply (Hno j d').
  - apply IH. intros j d' Hj Hd'. destruct (decide (j = Z.of_nat (length pre))) as [->|]; [|apply (Hno j d'); [lia|done]].
    simplify_eq. unfold subnetted. congruence.
Qed.

(** [get_interface] takes the first network device whose subnet
    contains the address; when there is none, a device of the least metric; and
    nothing when no device has a metric below 23232323. *)
Lemma interface_choice devs a :
  match get_interface devs a with
  | Some (index, d) =>
      get_net_device devs index = Some d ∧
      ((subnetted a d ∧ ∀ j d', j < index → get_net_device devs j = Some d' → ¬ subnetted a d') ∨
       ((∀ j d', get_net_device devs j = Some d' → ¬ subnetted a d') ∧
        ∀ j d', get_net_device devs j = Some d' → metric d ≤ metric d'))
  | None => ∀ j d', get_net_device devs j = Some d' → ¬ subnetted a d' ∧ 23232323 ≤ metric d'
  end.
Proof.
  pose proof (interface_loop_spec a devs [] (-1)) as H. cbn -[best get_net_device] in H.
  specialize (H (or_introl (conj eq_refl (λ j d Hj Hd, False_ind _ (proj1 (Z.lt_nge _ _) Hj (net_device_neg _ _ _ Hd)))))).
  specialize (H ltac:(intros j d Hj Hd%net_device_neg; lia)). change (best_metric_of devs (-1)) with 23232323 in H.
  unfold get_interface. set (index := interface_loop _ _ _ _ _) in *.
  destruct H as [(d & Hd & Hs & Hfirst)|[Hno Hb]].
  - rewrite Hd. cbn. split; [done|]. by left.
  - destruct Hb as [[-> Hb]|(_ & d & Hd & _ & Hb)].
    + cbn. intros j d' Hd'. split; [by eapply Hno|]. eapply Hb; [by eapply net_device_in|done].
    + rewrite Hd. cbn. split; [done|]. right. split; [done|]. intros j d' Hd'. eapply Hb; [by eapply net_device_in|done].
Qed.

(** ** Packets *)

(** The header [encapsulate] makes, with the checksum field [csum] and the source
    field [src]. *)
Definition ip_header (total protocol : Z) (csum src : list Z) (dst : Z) : list Z :=
  [0x45; 0] ++ be16_set total ++ be16_set 0x2137 ++ be16_set 0x4000 ++ [72; protocol] ++ csum ++ src ++ le_bytes 4 dst.

Lemma le4_length v : Z.of_nat (length (le_bytes 4 v)) = 4.
Proof. by apply le_bytes_length. Qed.

Ltac ip_length := rewrite ?length_app, ?Nat2Z.inj_add, ?be16_length, ?le4_length; cbn [length]; lia.

Lemma ip_header_length total protocol csum src dst :
  length csum = 2%nat → length src = 4%nat → length (ip_header total protocol csum src dst) = 20%nat.
Proof. intros Hc Hs. apply Nat2Z.inj. unfold ip_header. rewrite !length_app, Hc, Hs. ip_length. Qed.

Lemma first_byte b : Z.lor (Z.land (Z.lor (Z.land b 0xF0) 5) 0x0F) (Z.shiftl 4 4) = 0x45.
Proof. rewrite Z.land_lor_distr_l, <-Z.land_assoc. change (Z.land 0xF0 0x0F) with 0. by rewrite Z.land_0_r. Qed.

Lemma length_2 {A} (l : list A) : length l = 2%nat → ∃ a b, l = [a; b].
Proof. destruct l as [|a [|b [|]]]; naive_solver. Qed.

(** [encapsulate] on a buffer with any content. *)
Lemma encapsulate_header junk rest len dst protocol :
  length junk = 20%nat →
  ∃ csum src, length csum = 2%nat ∧ length src = 4%nat ∧
    encapsulate (junk ++ rest) len dst protocol = Done (ip_header (u16 (len + header_size)) (u8 protocol) csum src dst ++ rest).
Proof.
  intros Hj. destruct junk as [|b0 [|b1 [|b2 [|b3 [|b4 [|b5 [|b6 [|b7 [|b8 [|b9 junk]]]]]]]]]]; try done.
  destruct junk as [|c0 [|c1 [|s0 [|s1 [|s2 [|s3 [|d0 [|d1 [|d2 [|d3 [|]]]]]]]]]]]; try done.
  exists [c0; c1], [s0; s1; s2; s3]. split_and!; [done..|]. unfold encapsulate.
  cbn [app]. change (rd (b0 :: ?l) 0) with (Done b0). cbn [mbind outcome_bind]. byte_at (@nil Z).
  change (rd (?x :: ?l) 0) with (Done x). cbn [mbind outcome_bind]. byte_at (@nil Z). rewrite first_byte. byte_at [0x45].
  destruct (length_2 (be16_set (u16 (len + header_size)))) as (t0 & t1 & Et); [pose proof (be16_length (u16 (len + header_size))); lia|].
  destruct (length_2 (be16_set 0x2137)) as (i0 & i1 & Ei); [done|].
  destruct (length_2 (be16_set 0x4000)) as (f0 & f1 & Ef); [done|]. unfold ip_header. rewrite Et, Ei, Ef.
  field_at [0x45; 0] [b2; b3]; [|done]. field_at [0x45; 0; t0; t1] [b4; b5]; [|done]. field_at [0x45; 0; t0; t1; i0; i1] [b6; b7]; [|done].
  byte_at [0x45; 0; t0; t1; i0; i1; f0; f1]. byte_at [0x45; 0; t0; t1; i0; i1; f0; f1; 72].
  field_at [0x45; 0; t0; t1; i0; i1; f0; f1; 72; u8 protocol; c0; c1; s0; s1; s2; s3] [d0; d1; d2; d3]; [done|].
  pose proof (le4_length dst). cbn [length]. lia.
Qed.

(** The packet that leaves the machine. *)
Definition ip_packet (src dst protocol : Z) (payload : list Z) : list Z :=
  let total := 20 + Z.of_nat (length payload) in
  ip_header total protocol
    (be16_set (to_checksum (wsum (ip_header total protocol (be16_set 0) (le_bytes 4 src) dst)))) (le_bytes 4 src) dst ++ payload.

Lemma ip_header_bytes total protocol csum src dst :
  0 ≤ protocol < 2 ^ 8 → bytes csum → bytes src → bytes (ip_header total protocol csum src dst).
Proof.
  intros. unfold ip_header, bytes. rewrite !Forall_app.
  split_and!; first [by apply be16_bytes | by apply le_bytes_bytes | done | repeat constructor; lia].
Qed.

(** The sum of a header with its checksum. *)
Lemma wsum_ip_header total protocol csum src dst :
  length src = 4%nat →
  wsum (ip_header total protocol (be16_set csum) src dst) = wsum (ip_header total protocol (be16_set 0) src dst) + le_value (be16_set csum).
Proof.
  intros Hs. set (front := [0x45; 0] ++ be16_set total ++ be16_set 0x2137 ++ be16_set 0x4000 ++ [72; protocol]).
  assert (Hf : ∀ c, ip_header total protocol c src dst = front ++ c ++ src ++ le_bytes 4 dst)
    by (intros; unfold ip_header, front; by rewrite <-!app_assoc).
  assert (He : Nat.even (length front) = true).
  { replace (length front) with 10%nat; [done|]. apply Nat2Z.inj. unfold front. ip_length. }
  rewrite !Hf, !(wsum_app front), !(wsum_app (be16_set _)) by (done || apply even_be16). rewrite wsum_be16. change (wsum (be16_set 0)) with 0. lia.
Qed.

Lemma wsum_ip_header_pos total protocol csum src dst :
  0 ≤ protocol < 2 ^ 8 → bytes csum → bytes src → 0 < wsum (ip_header total protocol csum src dst).
Proof.
  intros Hp Hc Hs. pose proof (ip_header_bytes total protocol csum src dst Hp Hc Hs) as Hb. unfold ip_header in *.
  set (rest := be16_set total ++ _) in *. change ([0x45; 0] ++ rest) with (0x45 :: 0 :: rest) in *. change (wsum (0x45 :: 0 :: rest)) with (0x45 + 256 * 0 + wsum rest).
  inversion Hb as [|? ? _ Hb1]; subst. inversion Hb1 as [|? ? _ Hb2]; subst. pose proof (wsum_bound _ Hb2). lia.
Qed.

Section Delivery.
Context {W : Type} {L : Link W} {T : Transport W}.

(** Sending fills in source and checksum and hands the packet to the device. *)
Lemma send_packet devs protocol csum src dst payload len index dev w :
  length csum = 2%nat → length src = 4%nat → is_addr dst → 0 ≤ protocol < 2 ^ 8 → get_interface devs dst = Some (index, dev) →
  let total := 20 + Z.of_nat (length payload) in
  send devs (ip_header total protocol csum src dst ++ payload) len w =
  (err ← link_send index (ip_packet (addr dev) dst protocol payload) len;
   mret (err, ip_packet (addr dev) dst protocol payload)) w.
Proof.
  intros Hc Hs Hd Hp Hi total. set (front := [0x45; 0] ++ be16_set total ++ be16_set 0x2137 ++ be16_set 0x4000 ++ [72; protocol]).
  assert (Hfl : Z.of_nat (length front) = 10) by (unfold front; ip_length).
  assert (Hf : ∀ c s, ip_header total protocol c s dst ++ payload = front ++ c ++ s ++ le_bytes 4 dst ++ payload)
    by (intros; unfold ip_header, front; by rewrite <-!app_assoc).
  set (s' := le_bytes 4 (addr dev)). pose proof (le4_length (addr dev)) as Hs'. fold s' in Hs'.
  assert (Hg : get (ip_header total protocol csum src dst ++ payload) 16 4 = Done (le_bytes 4 dst)).
  { apply (get_field _ (front ++ csum ++ src) _ payload); [by rewrite Hf, <-!app_assoc|rewrite !length_app; lia|apply le4_length]. }
  unfold send. srun. rewrite le_value_bytes, (wrap_small _ dst), Hi by (done || lia).
  assert (H1 : put (ip_header total protocol csum src dst ++ payload) 12 s' = Done (ip_header total protocol csum s' dst ++ payload)).
  { rewrite (put_field _ (front ++ csum) src s' (le_bytes 4 dst ++ payload)); [by rewrite Hf, <-!app_assoc|by rewrite Hf, <-!app_assoc|rewrite length_app; lia|lia]. }
  assert (H2 : ∀ c c', length c = 2%nat → put (ip_header total protocol c s' dst ++ payload) 10 (be16_set c') =
                  Done (ip_header total protocol (be16_set c') s' dst ++ payload)).
  { intros c c' Hcl. rewrite (put_field _ front c (be16_set c') (s' ++ le_bytes 4 dst ++ payload)); [by rewrite !Hf|by rewrite Hf|done|].
    pose proof (be16_length c'). lia. }
  erewrite lift_bind by exact H1. erewrite lift_bind by (by apply H2).
  set (h0 := ip_header total protocol (be16_set 0) s' dst).
  assert (Hb0 : bytes h0) by (apply ip_header_bytes; [done|apply be16_bytes|by apply le_bytes_bytes]).
  assert (Hl0 : length h0 = 20%nat) by (apply ip_header_length; [done|lia]).
  assert (Hsum : sum_bytes (h0 ++ payload) header_size = Done (wsum h0)).
  { change header_size with (Z.of_nat 20). rewrite <-Hl0. apply sum_bytes_spec; [done|rewrite Hl0; lia]. }
  erewrite lift_bind by exact Hsum. erewrite lift_bind by (by apply H2). done.
Qed.

(** A packet is accepted by [dev] when its destination is one of the three
    addresses [parse] compares with. *)
Definition accepts (dev : netdev) (dst : Z) : Prop := dst = addr dev ∨ dst = IPv4_BROADCAST ∨ dst = broadcast dev.

Lemma parse_packet dev src dst protocol payload pad w :
  is_addr src → is_addr dst → 0 ≤ protocol < 2 ^ 8 → accepts dev dst →
  20 + Z.of_nat (length payload) + Z.of_nat (length pad) < 2 ^ 16 →
  parse dev (ip_packet src dst protocol payload ++ pad) (20 + Z.of_nat (length payload) + Z.of_nat (length pad)) w =
  (if protocol =? IPv4_TCP then tcp_parse (payload ++ pad) (Z.of_nat (length payload)) src dst
   else if protocol =? IPv4_UDP then udp_parse (payload ++ pad) (Z.of_nat (length payload)) src dst
   else mret tt) w.
Proof.
  intros Hsrc Hdst Hp Hacc Hlen. unfold ip_packet. set (total := 20 + Z.of_nat (length payload)). set (s := le_bytes 4 src).
  set (h0 := ip_header total protocol (be16_set 0) s dst). set (c := to_checksum (wsum h0)). set (h := ip_header total protocol (be16_set c) s dst).
  pose proof (le4_length src) as Hs. fold s in Hs. pose proof (be16_length c) as Hc.
  assert (Hl : length h = 20%nat) by (apply ip_header_length; lia).
  assert (Hb : bytes h) by (apply ip_header_bytes; [done|apply be16_bytes|by apply le_bytes_bytes]).
  set (l := (h ++ payload) ++ pad). unfold parse.
  assert (H0 : l.[0] = Done 0x45) by done. erewrite lift_bind by exact H0. cbv zeta. change (Z.land 0x45 0xF * 4) with 20.
  replace ((20 <? 20) || (total + Z.of_nat (length pad) <? 20)) with false by lia.
  assert (Hsplit : l = [0x45; 0] ++ be16_set total ++ (be16_set 0x2137 ++ be16_set 0x4000 ++ [72]) ++ [protocol] ++ be16_set c ++ s ++ le_bytes 4 dst ++ payload ++ pad)
    by (unfold l, h, ip_header; by rewrite <-!app_assoc).
  assert (H16 : get l 16 4 = Done (le_bytes 4 dst)).
  { eapply (get_field l ([0x45; 0] ++ be16_set total ++ (be16_set 0x2137 ++ be16_set 0x4000 ++ [72]) ++ [protocol] ++ be16_set c ++ s));
      [rewrite Hsplit; by rewrite <-!app_assoc|unfold s; ip_length|apply le4_length]. }
  assert (H12 : get l 12 4 = Done s).
  { eapply (get_field l ([0x45; 0] ++ be16_set total ++ (be16_set 0x2137 ++ be16_set 0x4000 ++ [72]) ++ [protocol] ++ be16_set c));
      [rewrite Hsplit; by rewrite <-!app_assoc|ip_length|done]. }
  assert (H2 : get l 2 2 = Done (be16_set total)) by (eapply (get_field l [0x45; 0]); [exact Hsplit|done|apply be16_length]).
  assert (H9 : l.[9] = Done protocol).
  { apply rd_Done. split; [lia|]. rewrite Hsplit. by destruct (length_2 (be16_set total)) as (? & ? & ->); [pose proof (be16_length total); lia|]. }
  assert (Hsum : sum_bytes l 20 = Done (wsum h)).
  { unfold l. rewrite <-app_assoc. change 20 with (Z.of_nat 20). rewrite <-Hl. apply sum_bytes_spec; [done|rewrite Hl; lia]. }
  assert (Hck : to_checksum (wsum h) = 0).
  { unfold h. rewrite wsum_ip_header by lia. fold h0. apply checksum_self.
    - pose proof (wsum_bound h0 ltac:(apply ip_header_bytes; [done|apply be16_bytes|by apply le_bytes_bytes])) as Hw.
      unfold h0 in Hw at 3. rewrite ip_header_length in Hw by (done || lia). lia.
    - apply wsum_ip_header_pos; [done|apply be16_bytes|by apply le_bytes_bytes]. }
  erewrite lift_bind by exact H16. cbv zeta. rewrite le_value_bytes, (wrap_small _ dst) by (done || lia).
  assert (Hnot : negb (dst =? addr dev) && negb (dst =? IPv4_BROADCAST) && negb (dst =? broadcast dev) = false).
  { destruct Hacc as [->|[->| ->]]; rewrite Z.eqb_refl; cbn; by rewrite ?andb_false_r. }
  rewrite Hnot. erewrite lift_bind by exact Hsum. rewrite Hck. cbn [negb Z.eqb]. erewrite lift_bind by exact H2. cbv zeta.
  rewrite be16_get_set by lia. replace (total <? 20) with false by lia.
  erewrite lift_bind by exact H9. erewrite lift_bind by exact H12. cbv zeta.
  unfold s. rewrite le_value_bytes, (wrap_small _ src) by (done || lia).
  replace (drop (Z.to_nat 20) l) with (payload ++ pad) by (unfold l; rewrite <-app_assoc; change (Z.to_nat 20) with 20%nat; by rewrite <-Hl, drop_app_length).
  replace (u16 (total `min` (total + Z.of_nat (length pad)) - 20)) with (Z.of_nat (length payload)) by (rewrite wrap_small; lia). done.
Qed.

(** A payload behind a header that [encapsulate] wrote into any
    20 bytes leaves through the interface of its destination as a packet which the
    parser of every device that accepts the destination hands, with the payload,
    its length and both addresses, to the transport layer of its protocol, whatever
    padding the link appends; any other protocol is ignored. *)
Lemma ipv4_roundtrip devs junk payload dst protocol index dev :
  length junk = 20%nat → is_addr dst → is_addr (addr dev) → 0 ≤ protocol < 2 ^ 8 →
  20 + Z.of_nat (length payload) < 2 ^ 16 → get_interface devs dst = Some (index, dev) →
  let len := encaps_len (Z.of_nat (length payload)) in
  ∃ p pkt, encapsulate (junk ++ payload) (Z.of_nat (length payload)) dst protocol = Done p ∧
    (∀ w, send devs p len w = (err ← link_send index pkt len; mret (err, pkt)) w) ∧
    ∀ peer pad w, accepts peer dst → len + Z.of_nat (length pad) < 2 ^ 16 →
      parse peer (pkt ++ pad) (len + Z.of_nat (length pad)) w =
      (if protocol =? IPv4_TCP then tcp_parse (payload ++ pad) (Z.of_nat (length payload)) (addr dev) dst
       else if protocol =? IPv4_UDP then udp_parse (payload ++ pad) (Z.of_nat (length payload)) (addr dev) dst
       else mret tt) w.
Proof.
  intros Hj Hdst Hdev Hp Hlen Hi len.
  destruct (encapsulate_header junk payload (Z.of_nat (length payload)) dst protocol Hj) as (c & s & Hc & Hs & He).
  exists (ip_header (20 + Z.of_nat (length payload)) protocol c s dst ++ payload), (ip_packet (addr dev) dst protocol payload).
  split_and!.
  - rewrite He, !wrap_small by (unfold header_size; lia). unfold header_size. by rewrite Z.add_comm.
  - intros w. by apply send_packet.
  - intros peer pad w Hacc Hpad. by apply parse_packet.
Qed.

End Delivery.

(** ** The retransmission queue *)

Section Retx.
Context {W : Type} {L : Link W} (devs : devices).

(** The device returns. *)
Hypothesis link_returns : ∀ index pkt len w, ∃ err w', link_send index pkt len w = Done (err, w').

Definition frame_ok (f : retx_frame) : Prop :=
  bytes (f_data f) ∧ Z.of_nat (length (f_data f)) = f_len f ∧ 20 ≤ f_len f < 2 ^ 16.

Definition queue_cost (q : list retx_frame) : Z := foldr (λ f n, frame_cost (f_len f) + n) 0 q.

(** The queue is accounted for, and no frame has used up its tries. *)
Definition retx_inv (s : layer W) : Prop :=
  m_retx_queue_size s = queue_cost (m_retx_queue s) ∧ m_retx_queue_size s ≤ MAX_RETX_QUEUE_SIZE ∧
  Forall (λ f, frame_ok f ∧ 0 ≤ tries f < MAX_RETX_TRIES) (m_retx_queue s).

Lemma frame_cost_bounds len : 0 ≤ len < 2 ^ 16 → 0 < frame_cost len < 2 ^ 17.
Proof.
  intros Hl. unfold frame_cost, sizeof_retx_frame, Heap.msize_total_len, Heap.ALLOC_SIZE.
  destruct (int_ceil_spec 64 len 16) as (_ & ? & _); [lia..|]. rewrite wrap_small; lia.
Qed.

Lemma queue_cost_nonneg q : Forall frame_ok q → 0 ≤ queue_cost q.
Proof.
  induction 1 as [|f q (_ & _ & Hl) _ IH]; simpl; [lia|]. pose proof (frame_cost_bounds (f_len f) ltac:(lia)). lia.
Qed.

Lemma queue_cost_app q q' : queue_cost (q ++ q') = queue_cost q + queue_cost q'.
Proof. induction q as [|f q IH]; simpl; lia. Qed.

Lemma sum_bytes_returns l n : bytes l → (n ≤ length l)%nat → Z.of_nat n < 2 ^ 16 → ∃ v, sum_bytes l (Z.of_nat n) = Done v.
Proof.
  intros Hl Hn Hlt. exists (wsum (take n l)).
  pose proof (sum_bytes_spec (take n l) (drop n l)) as Hs. rewrite take_drop, length_take_le in Hs by done.
  apply Hs; [by apply Forall_take|done].
Qed.

(** Sending a frame returns and leaves a frame. *)
Lemma send_frame data len w :
  bytes data → Z.of_nat (length data) = len → 20 ≤ len < 2 ^ 16 →
  ∃ err data' w', send devs data len w = Done ((err, data'), w') ∧ bytes data' ∧ Z.of_nat (length data') = len.
Proof.
  intros Hb Hl Hlen. unfold send. destruct (get_in_range data 16 4) as (d & Hd & _); [lia..|]. erewrite lift_bind by exact Hd.
  destruct (get_interface devs (le_value d)) as [[index dev]|]; [|by eexists _, _, _].
  pose proof (le4_length (addr dev)) as Ha.
  destruct (put_in_range data (le_bytes 4 (addr dev)) 12) as [b1 H1]; [lia..|]. pose proof (put_Done _ _ _ _ H1) as (_ & _ & Hl1 & _).
  destruct (put_in_range b1 (be16_set 0) 10) as [b2 H2]; [lia|rewrite be16_length; lia|]. pose proof (put_Done _ _ _ _ H2) as (_ & _ & Hl2 & _).
  assert (Hb2 : bytes b2) by (eapply put_bytes; [eapply put_bytes; [exact Hb|exact (le_bytes_bytes 4 (addr dev) ltac:(lia))|exact H1]|apply be16_bytes|exact H2]).
  destruct (sum_bytes_returns b2 20 Hb2) as [v Hv]; [lia..|].
  destruct (put_in_range b2 (be16_set (to_checksum v)) 10) as [b3 H3]; [lia|rewrite be16_length; lia|].
  pose proof (put_Done _ _ _ _ H3) as (_ & _ & Hl3 & _).
  destruct (link_returns index b3 len w) as (err & w' & Hw).
  exists err, b3, w'. split_and!; [|eapply put_bytes; [exact Hb2|apply be16_bytes|exact H3]|lia].
  erewrite lift_bind by exact H1. erewrite lift_bind by exact H2. erewrite lift_bind by exact Hv. erewrite lift_bind by exact H3.
  by rewrite run_bind, Hw.
Qed.

Lemma in_world_run {A} (m : stateM W A) (s : layer W) a w' :
  m (world s) = Done (a, w') → in_world m s = Done (a, mk_layer (m_retx_queue s) (m_retx_queue_size s) w').
Proof. intros Hm. unfold in_world. by rewrite Hm. Qed.

(** One pass: the frames it keeps have one try more, and the size follows. *)
Lemma retx_loop_spec q s k extra :
  Forall (λ f, frame_ok f ∧ k ≤ tries f < MAX_RETX_TRIES) q → 0 ≤ k → 0 ≤ extra →
  m_retx_queue_size s = queue_cost q + extra → m_retx_queue_size s ≤ MAX_RETX_QUEUE_SIZE →
  ∃ kept s', retx_loop devs q s = Done (kept, s') ∧ m_retx_queue s' = m_retx_queue s ∧
    m_retx_queue_size s' = queue_cost kept + extra ∧ m_retx_queue_size s' ≤ MAX_RETX_QUEUE_SIZE ∧
    Forall (λ f, frame_ok f ∧ k + 1 ≤ tries f < MAX_RETX_TRIES) kept.
Proof.
  unfold MAX_RETX_TRIES, MAX_RETX_QUEUE_SIZE. intros Hq Hk. revert s extra.
  induction Hq as [|f q [(Hb & Hl & Hlen) Ht] Hq IH]; intros s extra He Hsize Hmax.
  { by exists [], s. }
  destruct (send_frame (f_data f) (f_len f) (world s) Hb Hl Hlen) as (err & data & w' & Hw & Hb' & Hl').
  pose proof (frame_cost_bounds (f_len f) ltac:(lia)) as Hc.
  assert (Hq0 : 0 ≤ queue_cost q) by (apply queue_cost_nonneg; eapply Forall_impl; [exact Hq|by intros ? [? _]]).
  cbn [retx_loop]. cbv zeta. rewrite run_bind, (in_world_run _ _ _ _ Hw). cbn [fst snd]. rewrite (wrap_small 8) by lia.
  cbn [queue_cost foldr] in Hsize. fold (queue_cost q) in Hsize.
  destruct (bool_decide (err = ENONE) || (tries f + 1 =? MAX_RETX_TRIES)) eqn:E.
  - srun. cbn [m_retx_queue m_retx_queue_size world]. rewrite wrap_small by lia.
    destruct (IH (mk_layer (m_retx_queue s) (m_retx_queue_size s - frame_cost (f_len f)) w') extra) as (kept & s' & He' & ? & ? & ? & ?);
      cbn [m_retx_queue_size]; [lia..|]. exists kept, s'. by split_and!.
  - apply orb_false_iff in E as [_ E]. unfold MAX_RETX_TRIES in E. rewrite run_bind.
    destruct (IH (mk_layer (m_retx_queue s) (m_retx_queue_size s) w') (extra + frame_cost (f_len f))) as (kept & s' & He' & ? & ? & ? & ?);
      cbn [m_retx_queue_size]; [lia..|]. rewrite He'. cbn [fst snd]. eexists _, s'. split; [done|].
    cbn [queue_cost foldr f_len]. fold (queue_cost kept). split_and!; [done|lia|done|]. constructor; [|done].
    split; [split_and!; cbn; [done|lia..]|cbn; lia].
Qed.

Lemma retx_round s k :
  retx_inv s → 0 ≤ k → Forall (λ f, k ≤ tries f) (m_retx_queue s) →
  ∃ s', retx devs s = Done (bool_decide (m_retx_queue s' = []), s') ∧ retx_inv s' ∧ Forall (λ f, k + 1 ≤ tries f) (m_retx_queue s').
Proof.
  intros (Hsize & Hmax & Hq) Hk Ht. assert (Hboth : Forall (λ f, frame_ok f ∧ k ≤ tries f < MAX_RETX_TRIES) (m_retx_queue s)).
  { apply Forall_forall. intros f Hf. rewrite Forall_forall in Hq, Ht. destruct (Hq f Hf) as [? ?]. specialize (Ht f Hf). cbn in Ht. split; [done|lia]. }
  destruct (retx_loop_spec (m_retx_queue s) s k 0 Hboth Hk) as (kept & s' & He & Hsame & Hs' & Hm' & Hkept); [lia..|].
  exists (mk_layer kept (m_retx_queue_size s') (world s')). unfold retx. srun. rewrite run_bind, He. split_and!; [done| |].
  - split_and!; cbn [m_retx_queue m_retx_queue_size]; [lia|done|]. eapply Forall_impl; [exact Hkept|]. cbn. intros f (? & ? & ?). split; [done|lia].
  - eapply Forall_impl; [exact Hkept|]. cbn. intros f [_ ?]. lia.
Qed.

(** [n] wake-ups of the retransmission thread. *)
Fixpoint rounds (n : nat) : stateM (layer W) unit :=
  match n with O => mret tt | S n => _ ← retx devs; rounds n end.

Lemma rounds_spec n s k :
  retx_inv s → 0 ≤ k → Forall (λ f, k ≤ tries f) (m_retx_queue s) →
  ∃ s', rounds n s = Done (tt, s') ∧ retx_inv s' ∧ Forall (λ f, k + Z.of_nat n ≤ tries f) (m_retx_queue s').
Proof.
  revert s k. induction n as [|n IH]; intros s k Hs Hk Ht.
  - exists s. split_and!; [done..|]. by replace (k + Z.of_nat 0) with k by lia.
  - destruct (retx_round s k Hs Hk Ht) as (s1 & He & Hs1 & Ht1). cbn [rounds]. rewrite run_bind, He. cbn [fst snd].
    destruct (IH s1 (k + 1) Hs1) as (s2 & He2 & Hs2 & Ht2); [lia|done|]. exists s2. split_and!; [done..|].
    by replace (k + Z.of_nat (S n)) with (k + 1 + Z.of_nat n) by lia.
Qed.

(** The size of the retransmission queue is the sum of what its
    frames cost and stays within [MAX_RETX_QUEUE_SIZE]: [route] queues a packet
    only when the device asks for it and it fits, and drops it otherwise; [retx]
    keeps the account. *)
Lemma retx_queue_accounted s :
  retx_inv s →
  (∀ buffer len, bytes buffer → Z.of_nat (length buffer) = len → 20 ≤ len < 2 ^ 16 →
     ∃ err s', route devs buffer len s = Done (err, s') ∧ retx_inv s' ∧
       (m_retx_queue s' = m_retx_queue s ∨
        err = EAGAIN ∧ ∃ f, m_retx_queue s' = m_retx_queue s ++ [f] ∧ f_len f = len ∧ tries f = 0)) ∧
  (∃ b s', retx devs s = Done (b, s') ∧ retx_inv s').
Proof.
  intros Hs. pose proof Hs as (Hsize & Hmax & Hq). split.
  - intros buffer len Hb Hl Hlen. destruct (send_frame buffer len (world s) Hb Hl Hlen) as (err & data & w' & Hw & Hb' & Hl').
    unfold route. rewrite run_bind, (in_world_run _ _ _ _ Hw). cbn [fst snd]. destruct (decide (err = EAGAIN)) as [->|Hne].
    2:{ rewrite bool_decide_eq_false_2 by done. eexists _, _. split; [reflexivity|]. split; [done|]. by left. }
    rewrite bool_decide_eq_true_2 by done. unfold when. rewrite run_bind. unfold retx_add. cbn [m_retx_queue m_retx_queue_size world].
    pose proof (frame_cost_bounds len ltac:(lia)) as Hc.
    assert (Hq0 : 0 ≤ queue_cost (m_retx_queue s)) by (apply queue_cost_nonneg; eapply Forall_impl; [exact Hq|by intros ? [? _]]).
    unfold MAX_RETX_QUEUE_SIZE in *. rewrite (wrap_small 64) by lia. destruct (Z.gtb_spec (m_retx_queue_size s + frame_cost len) 65536).
    { eexists _, _. split; [reflexivity|]. split; [done|]. by left. }
    destruct (get_in_range data 0 len) as (bs & Hg & Hbl); [lia..|]. rewrite Hg. cbn [mbind outcome_bind fst snd].
    eexists _, _. split; [reflexivity|]. cbn [m_retx_queue]. split; [|right; split; [done|]; by eexists].
    split_and!; cbn [m_retx_queue m_retx_queue_size]; rewrite ?(wrap_small 32) by lia.
    + rewrite queue_cost_app. change (queue_cost [mk_frame 0 bs len]) with (frame_cost len + 0). lia.
    + unfold MAX_RETX_QUEUE_SIZE. lia.
    + apply Forall_app. split; [done|]. constructor; [|done]. split; [|done].
      split_and!; cbn; [by eapply get_bytes|lia..].
  - destruct (retx_round s 0 Hs) as (s' & ? & ? & _); [lia| |by eexists _, s'].
    eapply Forall_impl; [exact Hq|]. cbn. intros f [_ ?]. lia.
Qed.

End Retx.

(** ** What becomes of a frame *)

Section Lives.
Context {W : Type} {L : Link W} (devs : devices).
Hypothesis link_returns : ∀ index pkt len w, ∃ err w', link_send index pkt len w = Done (err, w').

(** The link, with the answers it gave. *)
Definition logged : Link (W * list error_t) := λ index pkt len w,
  '(err, w') ← link_send index pkt len w.1; Done (err, (w', w.2 ++ [err])).

(** The answers a frame gets until it leaves the queue: it is refused until the device
    accepts it or until it has been tried eight times. *)
Inductive life : Z → list error_t → Prop :=
| accepted n : life n [ENONE]
| given_up e : e ≠ ENONE → life 7 [e]
| again n e es : e ≠ ENONE → n < 7 → life (n + 1) es → life n (e :: es).
(** The answers of [n] passes, in each of which the frames that are left are sent in their
    order. *)
Definition columns (n : nat) (lives : list (list error_t)) : list error_t := seq 0 n ≫= λ r, omap (λ es, es !! r) lives.

(** A device takes the packets of the frame. *)
Definition routed (f : retx_frame) : Prop := ∃ d i dev, get (f_data f) 16 4 = Done d ∧ get_interface devs (le_value d) = Some (i, dev).

(** What one pass makes of the frames. *)
Inductive fates : list retx_frame → list error_t → list retx_frame → Prop :=
| fates_nil : fates [] [] []
| fates_accepted f q es k : fates q es k → fates (f :: q) (ENONE :: es) k
| fates_given_up f q e es k : e ≠ ENONE → tries f = 7 → fates q es k → fates (f :: q) (e :: es) k
| fates_kept f f' q e es k : e ≠ ENONE → tries f < 7 → tries f' = tries f + 1 → routed f' → fates q es k → fates (f :: q) (e :: es) (f' :: k).

Lemma logged_returns index pkt len w : ∃ err w', logged index pkt len w = Done (err, w').
Proof. unfold logged. destruct (link_returns index pkt len w.1) as (err & w' & ->). by eexists _, _. Qed.

Lemma send_logged data len w err data' w' : (∃ d i dev, get data 16 4 = Done d ∧ get_interface devs (le_value d) = Some (i, dev)) →
  send (H := logged) devs data len w = Done ((err, data'), w') → w'.2 = w.2 ++ [err] ∧ get data' 16 4 = get data 16 4.
Proof.
  intros (d & i & dev & Hd & Hi) He. unfold send in He. erewrite lift_bind in He by exact Hd. rewrite Hi in He. pose proof (le4_length (addr dev)) as Ha.
  apply sbind_Done in He as (b1 & w1 & H1 & He). apply sbind_Done in He as (b2 & w2 & H2 & He). apply sbind_Done in He as (v & w3 & H3 & He). apply sbind_Done in He as (b4 & w4 & H4 & He).
  apply sbind_Done in He as (e & w5 & H5 & He). injection He as <- <- <-. apply lift_Done_inv in H1 as [H1 ->], H2 as [H2 ->], H3 as [H3 ->], H4 as [H4 ->].
  unfold link_send, logged in H5. apply bind_Done in H5 as ([err' w6] & _ & [= <- <-]). split; [done|].
  rewrite (get_put_other _ _ _ _ 16 4 H4) by (rewrite be16_length; lia). rewrite (get_put_other _ _ _ _ 16 4 H2) by (rewrite be16_length; lia). by rewrite (get_put_other _ _ _ _ 16 4 H1) by lia.
Qed.

Lemma retx_loop_fates q (s : layer (W * list error_t)) kept s' :
  Forall (λ f, 0 ≤ tries f < 8 ∧ routed f) q → retx_loop (H := logged) devs q s = Done (kept, s') →
  ∃ es, fates q es kept ∧ (world s').2 = (world s).2 ++ es.
Proof.
  intros Hq. revert s kept s'. induction Hq as [|f q [Ht Hr] _ IH]; intros s kept s' He; cbn [retx_loop] in He.
  { injection He as <- <-. exists []. split; [constructor|by rewrite app_nil_r]. }
  cbv zeta in He. apply sbind_Done in He as ([err data] & s1 & H1 & He). unfold in_world in H1. apply bind_Done in H1 as ([[err1 data1] w1] & Hs & [= <- <- <-]).
  destruct (send_logged _ _ _ _ _ _ Hr Hs) as [Hlog Hget]. rewrite (wrap_small 8) in He by lia. cbn [fst snd] in He. unfold MAX_RETX_TRIES in He.
  destruct (bool_decide (err1 = ENONE) || (tries f + 1 =? 8)) eqn:E.
  - rewrite modify_bind in He. destruct (IH _ _ _ He) as (es & Hf & Hw). cbn [world] in Hw. exists (err1 :: es). split; [|rewrite Hw, Hlog, <-app_assoc; done].
    destruct (decide (err1 = ENONE)) as [->|Hne]; [by constructor|]. apply fates_given_up; [done| |done]. apply orb_true_iff in E as [E|E]; [by apply bool_decide_eq_true_1 in E|lia].
  - apply orb_false_iff in E as [E1 E2]. apply bool_decide_eq_false_1 in E1. apply sbind_Done in He as (k & s2 & H2 & He). injection He as <- <-. destruct (IH _ _ _ H2) as (es & Hf & Hw). cbn [world] in Hw.
    exists (err1 :: es). split; [|rewrite Hw, Hlog, <-app_assoc; done]. apply fates_kept; [done|lia|done| |done]. destruct Hr as (d & i & dev & Hd & Hi). exists d, i, dev. cbn. by rewrite Hget.
Qed.

(** The answers of a pass and of the passes that follow it. *)
Lemma fates_lives q es kept lives : fates q es kept → Forall2 (λ f l, life (tries f) l) kept lives →
  ∃ ls, Forall2 (λ f l, life (tries f) l) q ls ∧ omap (λ l, l !! 0%nat) ls = es ∧ ∀ r, omap (λ l, l !! S r) ls = omap (λ l, l !! r) lives.
Proof.
  intros Hf. revert lives. induction Hf as [|f q es k _ IH|f q e es k Hne Ht _ IH|f f' q e es k Hne Hlt Ht _ _ IH]; intros lives Hl.
  - inversion Hl; subst. exists []. by split_and!.
  - destruct (IH lives Hl) as (ls & H1 & H2 & H3). exists ([ENONE] :: ls). split_and!; [by constructor; [constructor|]|cbn; by rewrite H2|done].
  - destruct (IH lives Hl) as (ls & H1 & H2 & H3). exists ([e] :: ls). split_and!; [constructor; [rewrite Ht; by constructor|done]|cbn; by rewrite H2|done].
  - inversion Hl as [|? l0 ? lives' Hl0 Hl']; subst. destruct (IH lives' Hl') as (ls & H1 & H2 & H3). exists ((e :: l0) :: ls).
    split_and!; [constructor; [apply again; [done|done|by rewrite <-Ht]|done]|cbn; by rewrite H2|]. intros r. cbn. by rewrite H3.
Qed.

Lemma rounds_lives n (s : layer (W * list error_t)) : retx_inv s → Forall (λ f, 8 ≤ tries f + Z.of_nat n ∧ routed f) (m_retx_queue s) →
  ∃ w' lives, rounds (L := logged) devs n s = Done (tt, mk_layer [] 0 (w', (world s).2 ++ columns n lives)) ∧ Forall2 (λ f l, life (tries f) l) (m_retx_queue s) lives.
Proof.
  revert s. induction n as [|n IH]; intros s Hs Ht.
  - destruct Hs as (Hsize & _ & Hq). destruct s as [q sz [w log]]. cbn in *. destruct q as [|f q]; [subst sz; exists w, []; cbn; rewrite app_nil_r; by split|].
    inversion Hq as [|? ? [_ ?] _]; subst. inversion Ht as [|? ? [? _] _]; subst. unfold MAX_RETX_TRIES in *. lia.
  - destruct (retx_round (L := logged) devs logged_returns s 0 Hs) as (s1 & He & Hs1 & _); [lia|destruct Hs as (_ & _ & Hq); eapply Forall_impl; [exact Hq|]; cbn; intros f [_ ?]; lia|].
    pose proof He as Hr. unfold retx in Hr. rewrite gets_bind in Hr. apply sbind_Done in Hr as (kept & s2 & Hloop & Hr). rewrite modify_bind in Hr. injection Hr as _ <-.
    destruct (retx_loop_fates (m_retx_queue s) s kept s2) as (es & Hf & Hw); [|done|].
    { destruct Hs as (_ & _ & Hq). apply Forall_forall. intros f Hin. rewrite Forall_forall in Hq, Ht. destruct (Hq f Hin) as [_ ?], (Ht f Hin) as [_ ?]. by split. }
    destruct (IH (mk_layer kept (m_retx_queue_size s2) (world s2)) Hs1) as (w' & lives & Hrun & Hl).
    { cbn. clear -Hf Ht. induction Hf as [|f q es k _ IH|f q e es k _ _ _ IH|f f' q e es k Hne Hlt Ht' Hr _ IH]; [constructor|inversion Ht; subst; by apply IH..|].
      inversion Ht as [|? ? [? _] Ht2]; subst. constructor; [split; [lia|done]|by apply IH]. }
    destruct (fates_lives _ _ _ _ Hf Hl) as (ls & H1 & H2 & H3). exists w', ls. split; [|done]. cbn [rounds]. rewrite run_bind, He. cbn [fst snd]. rewrite Hrun. cbn [world].
    do 4 f_equal. rewrite Hw, <-app_assoc. f_equal. unfold columns. cbn [seq mbind list_bind]. rewrite H2. f_equal. rewrite <-fmap_S_seq. generalize (seq 0 n).
    induction l as [|r l IHl]; [done|]. cbn. rewrite <-H3. by f_equal.
Qed.

(** C36 (termination): whatever the devices answer, eight wake-ups of the retransmission
    thread empty the queue and bring its size back to zero.  The device is asked exactly
    once per wake-up for every frame that is left, in their order, and a frame leaves the
    queue with the first answer that accepts it, or with the answer that refuses it for
    the eighth time, and not before.  The frames have a device that takes them, and no
    other frame is added meanwhile. *)
Theorem retx_gives_up (s : layer (W * list error_t)) :
  retx_inv s → Forall routed (m_retx_queue s) →
  ∃ w' lives, rounds (L := logged) devs 8 s = Done (tt, mk_layer [] 0 (w', (world s).2 ++ columns 8 lives)) ∧
    Forall2 (λ f l, life (tries f) l) (m_retx_queue s) lives.
Proof.
  intros Hs Hr. apply rounds_lives; [done|]. destruct Hs as (_ & _ & Hq). apply Forall_forall. intros f Hin. rewrite Forall_forall in Hq, Hr. destruct (Hq f Hin) as [_ ?]. split; [lia|by apply Hr].
Qed.

End Lives.

(** ** Examples *)

(** The loopback device as [module_enter] sets it up. *)
Definition lo : netdev :=
  setMetric 1000000 (setIPv4Mask (ipv4 255 0 0 0) (setIPv4Address (ipv4 127 0 0 1) (mk_dev (replicate 6 0) 0 0 0 0 0))).
Definition demo_devices : devices := [Some OtherDevice; None; Some (NetDevice lo)].

(** A device that is always busy, and a transport layer that records payloads. *)
Definition busy_link : Link (list (Z * list Z)) := λ _ _ _ w, Done (EAGAIN, w).
Definition log_transport : Transport (list (Z * list Z)) := {|
  tcp_parse := λ buffer len _ _ w, Done (tt, (6, take (Z.to_nat len) buffer) :: w);
  udp_parse := λ buffer len _ _ w, Done (tt, (17, take (Z.to_nat len) buffer) :: w);
|}.

Lemma ipv4_roundtrip_witness :
  ∃ pkt, parse (H := log_transport) lo (pkt ++ [9; 9]) 25 [] = Done (tt, [(17, [1; 2; 3])]).
Proof.
  destruct (ipv4_roundtrip (L := busy_link) (T := log_transport) demo_devices (replicate 20 77) [1; 2; 3] (ipv4 127 0 0 1) 17 2 lo)
    as (p & pkt & _ & _ & Hp); [done|vm_compute; split; congruence..|vm_compute; reflexivity|vm_compute; reflexivity|].
  exists pkt. apply (Hp lo [9; 9] []); [left; vm_compute; reflexivity|vm_compute; reflexivity].
Defined.

Definition demo_layer : layer (list (Z * list Z)) :=
  mk_layer [mk_frame 6 (replicate 32 1) 32; mk_frame 0 (replicate 20 5) 20] (frame_cost 32 + frame_cost 20) [].

Lemma demo_layer_inv : retx_inv demo_layer.
Proof.
  split_and!; [vm_compute; reflexivity|vm_compute; congruence|].
  repeat constructor; vm_compute; congruence.
Qed.

(** A frame that was tried six times is refused twice more, another eight times. *)
Lemma demo_rounds : rounds (L := logged (L := busy_link)) demo_devices 8 (mk_layer (m_retx_queue demo_layer) (m_retx_queue_size demo_layer) ([], [])) =
  Done (tt, mk_layer [] 0 ([], replicate 10 EAGAIN)).
Proof. vm_compute. reflexivity. Qed.
Lemma retx_gives_up_witness :
  ∃ w', rounds (L := logged (L := busy_link)) demo_devices 8 (mk_layer (m_retx_queue demo_layer) (m_retx_queue_size demo_layer) ([], [])) = Done (tt, mk_layer [] 0 (w', replicate 10 EAGAIN)).
Proof.
  destruct (retx_gives_up (L := busy_link) demo_devices ltac:(intros; by eexists _, _) (mk_layer (m_retx_queue demo_layer) (m_retx_queue_size demo_layer) ([], []))) as (w' & lives & He & _).
  - destruct demo_layer_inv as (H1 & H2 & H3). split_and!; [exact H1|exact H2|exact H3].
  - apply Forall_cons. split; [exists [1; 1; 1; 1], 2, lo; split; [reflexivity|vm_compute; reflexivity]|].
    apply Forall_cons. split; [exists [5; 5; 5; 5], 2, lo; split; [reflexivity|vm_compute; reflexivity]|apply Forall_nil_2].
  - exists w'. pose proof He as Hr. rewrite demo_rounds in Hr. set (o := replicate 10 EAGAIN) in *. set (c := columns 8 lives) in *. clearbody o c. cbn [world snd app] in Hr.
    assert (Hc : o = c) by congruence. subst c. exact He.
Defined.

Lemma retx_queue_accounted_witness :
  ∃ err s', route (H := busy_link) demo_devices (replicate 24 0) 24 demo_layer = Done (err, s') ∧ retx_inv s'.
Proof.
  destruct (retx_queue_accounted (L := busy_link) demo_devices ltac:(intros; by eexists _, _) demo_layer demo_layer_inv) as [Hr _].
  destruct (Hr (replicate 24 0) 24) as (err & s' & He & Hi & _); [apply Forall_replicate; lia|done|lia|].
  exists err, s'. exact (conj He Hi).
Defined.

End Ipv4.
