(* ===== verification/Udp.v ===== *)
(** * UDP

    [UDPSocket] ([socket/inet/udp.cpp]), [UDPProtocol] ([protocol/inet/udp.cpp]),
    [UDPLayer] ([layer/transport/udp.cpp]) and the loopback device
    ([loopbackdev.hpp]) of [mod/core/netstack], on top of [Ports] and [Ipv4].  The
    sections under [sockets_lock] and [m_lock] are single steps. *)
From S2P Require Import Prelude Net Ports Ipv4.
Local Open Scope Z_scope.
Import Bytes Checksum Ports Ipv4.

(** ** The queue of datagrams

    A singly linked list of heap blocks with pointers to both ends. *)
Module DatagramQueue.

(** A [datagram] without its [next]; [len] is the length of [d_buffer]. *)
Record datagram := mk_datagram { d_source_address : Z; d_source_port : Z; d_buffer : list Z }.
(** A block of the heap: the datagram and the pointer to the next block. *)
Record node := mk_node { next : option nat; dgram : datagram }.

(** The blocks by their address; a freed block is [None]. *)
Record queue := mk_queue { blocks : list (option node); m_first_datagram : option nat; m_last_datagram : option nat }.

Definition empty : queue := mk_queue [] None None.

Definition deref (q : queue) (p : nat) : outcome node :=
  match blocks q !! p with Some (Some n) => Done n | _ => Fault end.

(** [packetReceived] from [Heap::malloc] on: the new block's [next] is null, since
    the memory is zeroed. *)
Definition push (q : queue) (d : datagram) : outcome queue :=
  let p := length (blocks q) in
  let bs := blocks q ++ [Some (mk_node None d)] in
  match m_last_datagram q with
  | Some l =>
      n ← deref q l;
      Done (mk_queue (<[l := Some (mk_node (Some p) (dgram n))]> bs) (m_first_datagram q) (Some p))
  | None => Done (mk_queue bs (Some p) (Some p))
  end.

(** [receiveFrom] from the end of its loop to [Heap::free]; [None] when the queue is
    empty. *)
Definition pop (q : queue) : outcome (option datagram * queue) :=
  match m_first_datagram q with
  | None => Done (None, q)
  | Some p =>
      n ← deref q p;
      let first := next n in
      let last := match first with None => None | Some _ => m_last_datagram q end in
      Done (Some (dgram n), mk_queue (<[p := None]> (blocks q)) first last)
  end.

(** The loop of the destructor; a block less on every turn. *)
Fixpoint free_all (fuel : nat) (q : queue) : outcome queue :=
  match fuel with
  | O => Fault
  | S fuel => r ← pop q; match r with (None, q) => Done q | (Some _, q) => free_all fuel q end
  end.

(** The blocks [ps] hold the datagrams [l] and are linked in this order. *)
Fixpoint chain (bs : list (option node)) (ps : list nat) (l : list datagram) : Prop :=
  match ps, l with
  | [], [] => True
  | p :: ps, d :: l => bs !! p = Some (Some (mk_node (head ps) d)) ∧ chain bs ps l
  | _, _ => False
  end.

Definition holds (q : queue) (l : list datagram) : Prop :=
  ∃ ps, chain (blocks q) ps l ∧ NoDup ps ∧ m_first_datagram q = head ps ∧ m_last_datagram q = last ps.

Lemma chain_bound bs ps l p : chain bs ps l → p ∈ ps → (p < length bs)%nat.
Proof.
  revert l. induction ps as [|p' ps IH]; intros [|d l]; simpl; try done; [by intros _ ?%elem_of_nil|].
  intros [Hp Hc] [->|Hin]%elem_of_cons; [by eapply lookup_lt_Some|by eapply IH].
Qed.

Lemma chain_ext bs bs' ps l : (∀ p, p ∈ ps → bs' !! p = bs !! p) → chain bs ps l → chain bs' ps l.
Proof.
  revert l. induction ps as [|p ps IH]; intros [|d l] He; simpl; try done. intros [Hp Hc].
  split; [by rewrite He by left|]. apply IH; [|done]. intros p' Hp'. apply He. by right.
Qed.

(** Linking a new block behind the last one. *)
Lemma chain_snoc bs ps z l d p node :
  chain bs (ps ++ [z]) l → NoDup (ps ++ [z]) → p ∉ ps ++ [z] → bs !! p = Some (Some (mk_node None d)) → bs !! z = Some (Some node) →
  chain (<[z := Some (mk_node (Some p) (dgram node))]> bs) ((ps ++ [z]) ++ [p]) (l ++ [d]).
Proof.
  revert l. induction ps as [|x ps IH]; intros l Hc Hnd Hp Hb Hz.
  - destruct l as [|d0 [|]]; simpl in Hc; [done| |naive_solver]. destruct Hc as [Hz' _]. simplify_eq. cbn [dgram app chain head].
    assert (z ≠ p) by (intros ->; apply Hp; left). split_and!; [|by rewrite list_lookup_insert_ne|done].
    apply list_lookup_insert_eq. by eapply lookup_lt_Some.
  - destruct l as [|d0 l]; [done|]. destruct Hc as [Hx Hc]. apply NoDup_cons in Hnd as [Hnx Hnd]. apply not_elem_of_cons in Hp as [Hpx Hp].
    cbn [app chain]. split.
    + rewrite list_lookup_insert_ne; [|intros <-; apply Hnx; by apply elem_of_app; right; left].
      rewrite Hx. do 3 f_equal. by destruct ps.
    + by apply IH.
Qed.

Lemma push_holds q l d : holds q l → ∃ q', push q d = Done q' ∧ holds q' (l ++ [d]).
Proof.
  intros (ps & Hc & Hnd & Hf & Hl). unfold push. destruct q as [bs f la]. cbn in *. subst.
  set (bs' := bs ++ [Some (mk_node None d)]).
  assert (Hc' : chain bs' ps l).
  { eapply chain_ext; [|exact Hc]. intros p Hp. apply lookup_app_l. by eapply chain_bound. }
  assert (Hfresh : length bs ∉ ps) by (intros Hp; pose proof (chain_bound _ _ _ _ Hc Hp); lia).
  assert (Hlook : bs' !! length bs = Some (Some (mk_node None d))) by (by apply list_lookup_middle).
  destruct ps as [|z ps _] using rev_ind.
  { destruct l; [|done]. cbn. eexists. split; [done|]. exists [length bs]. cbn. split_and!; [done..|by apply NoDup_singleton|done|done]. }
  rewrite last_snoc. assert (Hz : ∃ n, bs' !! z = Some (Some n)).
  { clear -Hc'. revert l Hc'. induction ps as [|x ps IH]; intros [|d0 l]; simpl; try done; [by intros [? _]; eexists|]. intros [_ H]. by eapply IH. }
  destruct Hz as [n Hz]. assert (Hzb : bs !! z = Some (Some n)).
  { unfold bs' in Hz. rewrite lookup_app_l in Hz; [done|]. eapply chain_bound; [exact Hc|]. apply elem_of_app; right; left. }
  unfold deref. cbn [blocks]. rewrite Hzb. cbn [mbind outcome_bind]. eexists. split; [done|]. exists ((ps ++ [z]) ++ [length bs]). cbn.
  split_and!; [by eapply chain_snoc| |by destruct ps|by rewrite last_snoc].
  apply NoDup_app. split_and!; [done|intros x Hx ->%list_elem_of_singleton; done|apply NoDup_singleton].
Qed.

Lemma pop_holds q d l : holds q (d :: l) → ∃ q', pop q = Done (Some d, q') ∧ holds q' l.
Proof.
  intros (ps & Hc & Hnd & Hf & Hl). destruct ps as [|p ps]; [done|]. destruct Hc as [Hp Hc]. apply NoDup_cons in Hnd as [Hnp Hnd].
  unfold pop, deref. rewrite Hf. cbn [head]. rewrite Hp. cbn [mbind outcome_bind dgram next]. eexists. split; [done|].
  exists ps. cbn. split_and!; [|done|done|].
  - eapply chain_ext; [|exact Hc]. intros x Hx. apply list_lookup_insert_ne. by intros <-.
  - rewrite Hl. destruct ps; [done|]. by rewrite last_cons_cons.
Qed.

Lemma pop_empty q : holds q [] → pop q = Done (None, q).
Proof. intros ([|] & Hc & _ & Hf & _); [|done]. unfold pop. by rewrite Hf. Qed.

Lemma free_all_holds q l fuel : holds q l → (length l < fuel)%nat → ∃ q', free_all fuel q = Done q' ∧ holds q' [].
Proof.
  revert q l. induction fuel as [|fuel IH]; intros q l Hq Hl; [lia|]. cbn [free_all]. destruct l as [|d l].
  - rewrite pop_empty by done. by exists q.
  - destruct (pop_holds q d l Hq) as (q' & -> & Hq'). cbn. apply (IH q' l Hq'). simpl in Hl. lia.
Qed.

(** The linked list of a socket's datagrams is a first-in
    first-out queue: [push] appends, [pop] takes the first datagram and frees its
    block, no freed block is read, and the destructor frees all of them. *)
Lemma datagram_queue_fifo q l :
  holds q l →
  (∀ d, ∃ q', push q d = Done q' ∧ holds q' (l ++ [d])) ∧
  (match l with
   | [] => pop q = Done (None, q)
   | d :: l => ∃ q', pop q = Done (Some d, q') ∧ holds q' l
   end) ∧
  ∃ q', free_all (S (length l)) q = Done q' ∧ holds q' [].
Proof.
  intros Hq. split_and!; [intros d; by apply push_holds| |apply (free_all_holds q l); [done|lia]].
  destruct l; [by apply pop_empty|by apply pop_holds].
Qed.

Lemma empty_holds : holds empty [].
Proof. exists []. by repeat split; try constructor. Qed.

Lemma datagram_queue_fifo_witness : ∃ q', push empty (mk_datagram 1 2 [3]) = Done q' ∧ holds q' [mk_datagram 1 2 [3]].
Proof. destruct (datagram_queue_fifo empty [] empty_holds) as (Hp & _ & _). exact (Hp (mk_datagram 1 2 [3])). Defined.

End DatagramQueue.

Module Udp.
Import DatagramQueue.

Definition UDP_SOCKET_BUFFER_SIZE : Z := 1048576.
Definition udp_header_size : Z := 8.

Record UDPSocket := mk_socket {
  source_address : Z;
  source_port : Z;
  destination_address : Z;
  destination_port : Z;
  m_buffered_size : Z;
  m_datagrams : queue;
  m_event_raised : nat;
}.

Definition new_socket : UDPSocket := mk_socket 0 0 0 0 0 empty 0.

Definition set_source (a p : Z) (s : UDPSocket) : UDPSocket :=
  mk_socket a p (destination_address s) (destination_port s) (m_buffered_size s) (m_datagrams s) (m_event_raised s).
Definition set_destination (a p : Z) (s : UDPSocket) : UDPSocket :=
  mk_socket (source_address s) (source_port s) a p (m_buffered_size s) (m_datagrams s) (m_event_raised s).
Definition set_queue (q : queue) (raised : nat) (s : UDPSocket) : UDPSocket :=
  mk_socket (source_address s) (source_port s) (destination_address s) (destination_port s) (m_buffered_size s) q
    (m_event_raised s + raised).

(** The socket objects by their address ([None] after [delete]), the vector
    [UDPProtocol::sockets] and the port table. *)
Record udp := mk_udp { objects : list (option UDPSocket); sockets : list nat; u_ports : ports }.

Abbreviation M := (stateM udp).

Definition this (p : nat) : M UDPSocket := λ u,
  match objects u !! p with Some (Some s) => Done (s, u) | _ => Fault end.
Definition put_socket (p : nat) (s : UDPSocket) : M unit :=
  modify (λ u, mk_udp (<[p := Some s]> (objects u)) (sockets u) (u_ports u)).
Definition in_ports {A} (m : stateM ports A) : M A := λ u,
  '(a, p) ← m (u_ports u); Done (a, mk_udp (objects u) (sockets u) p).

(** ** Sockets *)

(** [~UDPSocket]: the first entry of the vector that points to the socket goes. *)
Fixpoint erase_first (p : nat) (l : list nat) : list nat :=
  match l with [] => [] | x :: l => if bool_decide (x = p) then l else x :: erase_first p l end.

Definition destroy (p : nat) : M unit :=
  modify (λ u, mk_udp (objects u) (erase_first p (sockets u)) (u_ports u));;
  s ← this p;
  when (negb (source_port s =? 0)) (in_ports (freePort (source_port s)));;
  _ ← lift (free_all (S (length (blocks (m_datagrams s)))) (m_datagrams s));
  modify (λ u, mk_udp (<[p := None]> (objects u)) (sockets u) (u_ports u)).

Definition createSocket (dgram : bool) : M (error_t + nat) :=
  if negb dgram then mret (inl ESOCKTNOSUPPORT)
  else
    p ← gets (λ u, length (objects u));
    modify (λ u, mk_udp (objects u ++ [Some new_socket]) (sockets u) (u_ports u));;
    port ← in_ports allocateDynamicPort;
    if port =? 0 then destroy p;; mret (inl ENOMEM)
    else
      put_socket p (set_source 0 port new_socket);;
      modify (λ u, mk_udp (objects u) (sockets u ++ [p]) (u_ports u));;
      mret (inr p).

(** A [sockaddr_inet] of the domain [AF_INET]; [None] is one of another domain. *)
Definition connect (p : nat) (a : option (Z * Z)) : M error_t :=
  match a with
  | None => mret EINVAL
  | Some (addr, port) => s ← this p; put_socket p (set_destination addr port s);; mret ENONE
  end.

Definition bind (p : nat) (a : option (Z * Z)) : M error_t :=
  match a with
  | None => mret EINVAL
  | Some (addr, port) =>
      ok ← in_ports (allocatePort port);
      if negb ok then mret EADDRINUSE
      else
        s ← this p;
        when (negb (source_port s =? 0)) (in_ports (freePort (source_port s)));;
        put_socket p (set_source addr port s);;
        mret ENONE
  end.

Definition sock_packetReceived (p : nat) (src src_port : Z) (buffer : list Z) (len : Z) : M unit :=
  s ← this p;
  if u64 (m_buffered_size s + len) >? UDP_SOCKET_BUFFER_SIZE then mret tt
  else
    data ← lift (get buffer 0 len);
    q ← lift (push (m_datagrams s) (mk_datagram src src_port data));
    put_socket p (set_queue q 1 s).

(** [receiveFrom] from a [m_lock.acquire()] on: [None] is a call that waits, else the
    length of the datagram, the bytes copied and the sender. *)
Definition receiveFrom (p : nat) (len : Z) : M (option (Z * list Z * (Z * Z))) :=
  s ← this p;
  r ← lift (pop (m_datagrams s));
  match r with
  | (None, _) => mret None
  | (Some d, q) =>
      put_socket p (set_queue q 0 s);;
      let n := Z.of_nat (length (d_buffer d)) in
      data ← lift (get (d_buffer d) 0 (n `min` len));
      mret (Some (n, data, (d_source_address d, d_source_port d)))
  end.

(** ** The protocol *)

Definition wants (s : UDPSocket) (dst dst_port : Z) : bool :=
  (dst_port =? source_port s) && negb (negb (dst =? source_address s) && negb (source_address s =? IPv4_ANY)).

Fixpoint deliver (l : list nat) (src src_port dst dst_port : Z) (buffer : list Z) (len : Z) : M unit :=
  match l with
  | [] => mret tt
  | p :: l =>
      s ← this p;
      when (wants s dst dst_port) (sock_packetReceived p src src_port buffer len);;
      deliver l src src_port dst dst_port buffer len
  end.

Definition packetReceived (src src_port dst dst_port : Z) (buffer : list Z) (len : Z) : M unit :=
  if dst_port =? 0 then mret tt
  else l ← gets sockets; deliver l src src_port dst dst_port buffer len.

(** ** The layer *)

(** [udp_fake_ipv4_header] *)
Definition udp_fake_header (src dst : Z) (length_ : list Z) : list Z :=
  le_bytes 4 src ++ le_bytes 4 dst ++ [0; 17] ++ length_.

(** The sums of [UDPLayer::parse], over [total_length] bytes from the header on. *)
Definition checksum_ok (buffer : list Z) (src dst : Z) : outcome bool :=
  total_length ← get buffer 4 2;
  a ← sum_bytes (udp_fake_header src dst total_length) 12;
  b ← sum_bytes buffer (be16_get total_length);
  Done (to_checksum (u32 (a + b)) =? 0).

Definition UDPLayer_parse (buffer : list Z) (len src_addr dst_addr : Z) : M unit :=
  if len <? udp_header_size then mret tt
  else
    checksum ← lift (get buffer 6 2);
    ok ← (if negb (be16_get checksum =? 0) then lift (checksum_ok buffer src_addr dst_addr) else mret true);
    if negb ok then mret tt
    else
      sp ← lift (get buffer 0 2);
      dp ← lift (get buffer 2 2);
      packetReceived src_addr (be16_get sp) dst_addr (be16_get dp) (drop (Z.to_nat udp_header_size) buffer)
        (u16 (len - udp_header_size)).

(** ** Sending *)

Section Send.
(** [TCPLayer::parse] on the state of this file, and the drivers of the devices that
    are not the loopback device [lo_id]. *)
Context (TCPLayer_parse : list Z → Z → Z → Z → M unit) (driver : Link udp) (devs : devices) (lo_id : Z).

#[local] Instance transport : Transport udp := {| tcp_parse := TCPLayer_parse; udp_parse := UDPLayer_parse |}.

Definition ipv4_received (device_id : Z) (buffer : list Z) (len : Z) : M unit :=
  match get_net_device devs device_id with
  | None => mret tt
  | Some dev => parse dev buffer len
  end.

(** [Loopback::send] and [receive] of a packet of type [NET_IPv4]. *)
Definition Loopback_send (buffer : list Z) (len : Z) : M error_t :=
  ipv4_received lo_id buffer (u16 len);; mret ENONE.

#[local] Instance link : Link udp := λ index buffer len,
  if index =? lo_id then Loopback_send buffer len else driver index buffer len.

(** The packet of [sendTo]: the headers, the checksum over [destination_address] of
    the socket, and the data.  [packet] is what the stack holds where the array of
    that name lies. *)
Definition fill_packet (s : UDPSocket) (packet buffer : list Z) (len addr port dev_addr : Z) : outcome (list Z) :=
  packet ← encapsulate packet (u16 (udp_header_size + len)) addr IPv4_UDP;
  packet ← put packet 20 (be16_set (source_port s));
  packet ← put packet 22 (be16_set port);
  packet ← put packet 24 (be16_set (u16 (len + udp_header_size)));
  packet ← put packet 26 (be16_set 0);
  a ← sum_bytes (udp_fake_header dev_addr (destination_address s) (be16_set (u16 (len + udp_header_size)))) 12;
  b ← sum_bytes (drop 20 packet) 8;
  c ← sum_bytes buffer (u16 len);
  packet ← put packet 26 (be16_set (to_checksum (u32 (u32 (a + b) + c))));
  data ← get buffer 0 len;
  put packet 28 data.

Definition sendTo (p : nat) (packet : list Z) (buffer : option (list Z)) (len : Z) (dst_addr : option (Z * Z)) :
    stateM (layer udp) (error_t + Z) :=
  match buffer with
  | None => mret (inl EINVAL)
  | Some buffer =>
      s ← in_world (this p);
      match (match dst_addr with
             | Some (addr, port) => Some (addr, port)
             | None => if destination_port s =? 0 then None else Some (destination_address s, destination_port s)
             end) with
      | None => mret (inl ENOTCONN)
      | Some (addr, port) =>
          match get_interface devs addr with
          | None => mret (inl ENETUNREACH)
          | Some (_, dev) =>
              packet ← lift (fill_packet s packet buffer len addr port (Ipv4.addr dev));
              _ ← route devs packet (u16 (encaps_len (udp_header_size + len)));
              mret (inr len)
          end
      end
  end.

End Send.

(** ** The wire format *)

Definition udp_header (sp dp total csum : Z) : list Z := be16_set sp ++ be16_set dp ++ be16_set total ++ be16_set csum.

Lemma udp_header_length sp dp total csum : length (udp_header sp dp total csum) = 8%nat.
Proof. apply Nat2Z.inj. unfold udp_header. field_length. Qed.

Lemma udp_header_bytes sp dp total csum : bytes (udp_header sp dp total csum).
Proof. unfold udp_header, bytes. rewrite !Forall_app. split_and!; apply be16_bytes. Qed.

Lemma udp_fake_length src dst total : length (udp_fake_header src dst (be16_set total)) = 12%nat.
Proof. apply Nat2Z.inj. unfold udp_fake_header. field_length. Qed.

Lemma udp_fake_bytes src dst total : bytes (udp_fake_header src dst (be16_set total)).
Proof.
  unfold udp_fake_header, bytes. rewrite !Forall_app. split_and!; first [by apply le_bytes_bytes | repeat constructor; lia].
Qed.

Lemma even_le4 v : Nat.even (length (le_bytes 4 v)) = true.
Proof. pose proof (le4_length v). by replace (length (le_bytes 4 v)) with 4%nat by lia. Qed.

Lemma wsum_udp_fake src dst total :
  wsum (udp_fake_header src dst (be16_set total)) = wsum (le_bytes 4 src) + wsum (le_bytes 4 dst) + 4352 + wsum (be16_set total).
Proof. unfold udp_fake_header. rewrite !wsum_app by (done || apply even_le4). change (wsum [0; 17]) with 4352. lia. Qed.

Lemma wsum_udp sp dp total csum data :
  wsum (udp_header sp dp total csum ++ data) = wsum (udp_header sp dp total 0) + le_value (be16_set csum) + wsum data.
Proof.
  rewrite wsum_app by (by rewrite udp_header_length). unfold udp_header. rewrite !wsum_app by (apply even_be16).
  rewrite (wsum_be16 csum). change (wsum (be16_set 0)) with 0. lia.
Qed.

(** The sum over the two headers and the data, with an empty checksum. *)
Definition udp_sum (src dst sp dp : Z) (data : list Z) : Z :=
  let total := 8 + Z.of_nat (length data) in
  wsum (udp_fake_header src dst (be16_set total)) + wsum (udp_header sp dp total 0) + wsum data.

(** The checksum a sender computes for a destination [dst]. *)
Definition udp_checksum (src dst sp dp : Z) (data : list Z) : Z := to_checksum (udp_sum src dst sp dp data).

Definition udp_wire (sp dp csum : Z) (data : list Z) : list Z := udp_header sp dp (8 + Z.of_nat (length data)) csum ++ data.

Lemma udp_sum_bounds src dst sp dp data :
  bytes data → 8 + Z.of_nat (length data) < 2 ^ 16 → 0 < udp_sum src dst sp dp data < 2 ^ 32 - 131072.
Proof.
  intros Hd Hl. unfold udp_sum. set (total := 8 + _).
  pose proof (wsum_bound _ (udp_header_bytes sp dp total 0)) as Hh. rewrite udp_header_length in Hh.
  pose proof (wsum_bound _ (udp_fake_bytes src dst total)) as Hf. rewrite udp_fake_length in Hf. pose proof (wsum_bound _ Hd).
  rewrite wsum_udp_fake in *. pose proof (wsum_bound _ (le_bytes_bytes 4 src ltac:(lia))). pose proof (wsum_bound _ (le_bytes_bytes 4 dst ltac:(lia))).
  pose proof (wsum_bound _ (be16_bytes total)). lia.
Qed.

(** A sum that contains the checksum of another sum checks only when the sums agree
    modulo 65535. *)
Lemma checksum_other t t' :
  0 ≤ t < 2 ^ 32 → 0 ≤ t' → t' + 65535 < 2 ^ 32 →
  to_checksum (t' + le_value (be16_set (to_checksum t))) = 0 → (t' - t) mod 65535 = 0.
Proof.
  intros Ht H0 H1. destruct (fold_spec t Ht) as (Hf & Hmod & _). unfold to_checksum at 2. unfold be16_set.
  rewrite le_value_bytes, lnot_u16, bswap16_bswap16, (wrap_small (8 * 2)) by lia. unfold to_checksum.
  destruct (fold_spec (t' + (65535 - fold 3 t))) as (Hf' & Hmod' & _); [lia|]. rewrite lnot_u16 by lia. intros Hz.
  apply (f_equal bswap16) in Hz. rewrite bswap16_bswap16 in Hz by lia. change (bswap16 0) with 0 in Hz.
  apply Z.mod_divide in Hmod as [q Hq]; [|lia]. apply Z.mod_divide in Hmod' as [q' Hq']; [|lia].
  apply Z.mod_divide; [lia|]. exists (q - q'). lia.
Qed.

(** What the layer reads in such a packet. *)
Lemma udp_wire_fields sp dp csum data rest :
  let l := udp_wire sp dp csum data ++ rest in
  get l 0 2 = Done (be16_set sp) ∧ get l 2 2 = Done (be16_set dp) ∧
  get l 4 2 = Done (be16_set (8 + Z.of_nat (length data))) ∧ get l 6 2 = Done (be16_set csum).
Proof.
  unfold udp_wire, udp_header. set (total := 8 + _). cbv zeta. rewrite <-!app_assoc. split_and!.
  - eapply (get_field _ []); [done|done|apply be16_length].
  - eapply (get_field _ (be16_set sp)); [by rewrite <-?app_assoc|apply be16_length|apply be16_length].
  - eapply (get_field _ (be16_set sp ++ be16_set dp)); [by rewrite <-?app_assoc|field_length|apply be16_length].
  - eapply (get_field _ (be16_set sp ++ be16_set dp ++ be16_set total)); [by rewrite <-?app_assoc|field_length|apply be16_length].
Qed.

Lemma checksum_ok_wire src dst sp dp csum data :
  bytes data → 8 + Z.of_nat (length data) < 2 ^ 16 →
  checksum_ok (udp_wire sp dp csum data) src dst =
    Done (to_checksum (udp_sum src dst sp dp data + le_value (be16_set csum)) =? 0).
Proof.
  intros Hd Hl. destruct (udp_wire_fields sp dp csum data []) as (_ & _ & H4 & _). rewrite app_nil_r in H4. unfold checksum_ok. rewrite H4.
  cbn [mbind outcome_bind]. rewrite be16_get_set by lia. set (total := 8 + Z.of_nat (length data)) in *.
  pose proof (sum_bytes_spec _ [] (udp_fake_bytes src dst total)) as Hf. rewrite app_nil_r, udp_fake_length in Hf.
  change (Z.of_nat 12) with 12 in Hf. rewrite Hf by lia. cbn [mbind outcome_bind].
  assert (Hb : bytes (udp_wire sp dp csum data)) by (apply Forall_app; split; [apply udp_header_bytes|done]).
  pose proof (sum_bytes_spec _ [] Hb) as Hs. rewrite app_nil_r in Hs.
  assert (Hlen : Z.of_nat (length (udp_wire sp dp csum data)) = total) by (unfold udp_wire; rewrite length_app, udp_header_length; lia).
  rewrite Hlen in Hs. rewrite Hs by lia. cbn [mbind outcome_bind]. unfold udp_wire at 1. rewrite wsum_udp. do 2 f_equal.
  pose proof (udp_sum_bounds src dst sp dp data Hd Hl) as Hb'. pose proof (le_value_bound _ (be16_bytes csum)) as Hc. rewrite be16_length in Hc.
  unfold udp_sum in *. fold total in Hb'. fold total. rewrite wrap_small by lia. f_equal. lia.
Qed.

Section Loopback.
Context (TCPLayer_parse : list Z → Z → Z → Z → M unit) (driver : Link udp) (devs : devices) (lo_id : Z).

Lemma layer_delivers src dst sp dp data u :
  bytes data → 8 + Z.of_nat (length data) < 2 ^ 16 → 0 ≤ sp < 2 ^ 16 → 0 ≤ dp < 2 ^ 16 →
  UDPLayer_parse (udp_wire sp dp (udp_checksum src dst sp dp data) data) (8 + Z.of_nat (length data)) src dst u =
  packetReceived src sp dst dp data (Z.of_nat (length data)) u.
Proof.
  intros Hd Hl Hsp Hdp. set (c := udp_checksum src dst sp dp data). destruct (udp_wire_fields sp dp c data []) as (H0 & H2 & _ & H6).
  rewrite app_nil_r in *. unfold UDPLayer_parse, udp_header_size. replace (8 + Z.of_nat (length data) <? 8) with false by lia.
  erewrite lift_bind by exact H6.
  assert (Hok : (if negb (be16_get (be16_set c) =? 0) then lift (checksum_ok (udp_wire sp dp c data) src dst) else mret true) u = Done (true, u)).
  { destruct (negb _); [|done]. unfold lift. rewrite checksum_ok_wire by done. unfold c at 1, udp_checksum.
    pose proof (udp_sum_bounds src dst sp dp data Hd Hl). by rewrite checksum_self by lia. }
  rewrite run_bind, Hok. cbn [fst snd negb]. erewrite lift_bind by exact H0. erewrite lift_bind by exact H2.
  rewrite !be16_get_set by done. unfold udp_wire. change (Z.to_nat 8) with 8%nat.
  rewrite <-(udp_header_length sp dp (8 + Z.of_nat (length data)) c) at 1. rewrite drop_app_length.
  by replace (u16 (8 + Z.of_nat (length data) - 8)) with (Z.of_nat (length data)) by (rewrite wrap_small; lia).
Qed.

Lemma layer_drops src dst dst' sp dp data u :
  bytes data → 8 + Z.of_nat (length data) < 2 ^ 16 → udp_checksum src dst' sp dp data ≠ 0 →
  (wsum (le_bytes 4 dst) - wsum (le_bytes 4 dst')) mod 65535 ≠ 0 →
  UDPLayer_parse (udp_wire sp dp (udp_checksum src dst' sp dp data) data) (8 + Z.of_nat (length data)) src dst u = Done (tt, u).
Proof.
  intros Hd Hl Hnz Hne. set (c := udp_checksum src dst' sp dp data) in *. destruct (udp_wire_fields sp dp c data []) as (_ & _ & _ & H6).
  rewrite app_nil_r in *. unfold UDPLayer_parse, udp_header_size. replace (8 + Z.of_nat (length data) <? 8) with false by lia.
  erewrite lift_bind by exact H6. assert (Hc : 0 ≤ c < 2 ^ 16) by (apply wrap_bound; lia). rewrite be16_get_set by done.
  replace (negb (c =? 0)) with true by lia. rewrite run_bind. unfold lift at 1. rewrite checksum_ok_wire by done. cbn [mbind outcome_bind fst snd].
  destruct (Z.eqb_spec (to_checksum (udp_sum src dst sp dp data + le_value (be16_set c))) 0) as [E|]; [|done].
  pose proof (udp_sum_bounds src dst sp dp data Hd Hl). pose proof (udp_sum_bounds src dst' sp dp data Hd Hl).
  apply checksum_other in E; [|lia..]. exfalso. apply Hne. rewrite <-E. f_equal. unfold udp_sum. rewrite !wsum_udp_fake. lia.
Qed.

(** The bytes behind the IPv4 header, in the pieces [fill_packet] writes. *)
Lemma split_udp (r data : list Z) :
  length r = (8 + length data)%nat →
  ∃ a1 a2 a3 a4 area, r = a1 ++ a2 ++ a3 ++ a4 ++ area ∧ length a1 = 2%nat ∧ length a2 = 2%nat ∧
     length a3 = 2%nat ∧ length a4 = 2%nat ∧ length area = length data.
Proof.
  intros Hr. destruct r as [|x0 [|x1 [|x2 [|x3 [|x4 [|x5 [|x6 [|x7 r]]]]]]]]; simpl in Hr; try lia.
  exists [x0; x1], [x2; x3], [x4; x5], [x6; x7], r. split_and!; try done. lia.
Qed.

Lemma length_be16 v : length (be16_set v) = 2%nat.
Proof. pose proof (be16_length v). lia. Qed.

Lemma fill_sums src dst sp dp data area :
  bytes data → 28 + Z.of_nat (length data) < 2 ^ 16 →
  let total := 8 + Z.of_nat (length data) in
  sum_bytes (udp_fake_header src dst (be16_set total)) 12 = Done (wsum (udp_fake_header src dst (be16_set total))) ∧
  sum_bytes (udp_header sp dp total 0 ++ area) 8 = Done (wsum (udp_header sp dp total 0)) ∧
  sum_bytes data (Z.of_nat (length data)) = Done (wsum data).
Proof.
  intros Hd Hl total. split_and!.
  - pose proof (sum_bytes_spec _ [] (udp_fake_bytes src dst total)) as Hf. rewrite app_nil_r, udp_fake_length in Hf. apply Hf. lia.
  - pose proof (sum_bytes_spec _ area (udp_header_bytes sp dp total 0)) as Hh. rewrite udp_header_length in Hh. apply Hh. lia.
  - pose proof (sum_bytes_spec data [] Hd ltac:(lia)) as Hs. by rewrite app_nil_r in Hs.
Qed.

Lemma fill_packet_spec s packet data addr port dev_addr :
  bytes data → 28 + Z.of_nat (length data) < 2 ^ 16 → Z.of_nat (length packet) = 28 + Z.of_nat (length data) →
  ∃ csum src, length csum = 2%nat ∧ length src = 4%nat ∧
  fill_packet s packet data (Z.of_nat (length data)) addr port dev_addr =
  Done (ip_header (28 + Z.of_nat (length data)) IPv4_UDP csum src addr ++
        udp_wire (source_port s) port (udp_checksum dev_addr (destination_address s) (source_port s) port data) data).
Proof.
  intros Hd Hl Hpk. set (len := Z.of_nat (length data)) in *. unfold fill_packet, udp_header_size, header_size.
  rewrite (wrap_small 16 (8 + len)), (wrap_small 16 (len + 8)), (wrap_small 16 len), (Z.add_comm len 8) by lia.
  destruct (encapsulate_header (take 20 packet) (drop 20 packet) (8 + len) addr IPv4_UDP) as (c & sr & Hc & Hs & He); [rewrite length_take; lia|].
  exists c, sr. split_and!; [done..|]. rewrite take_drop in He. rewrite He, bind_ret. unfold header_size. rewrite (wrap_small 16), (wrap_small 8) by (unfold IPv4_UDP; lia).
  replace (8 + len + 20) with (28 + len) by lia.
  set (IH := ip_header _ _ c sr addr). assert (Hih : Z.of_nat (length IH) = 20) by (unfold IH; rewrite ip_header_length; done).
  destruct (split_udp (drop 20 packet) data) as (a1 & a2 & a3 & a4 & area & -> & H1 & H2 & H3 & H4 & H5); [rewrite length_drop; lia|].
  set (sp := source_port s). set (total := 8 + len).
  destruct (fill_sums dev_addr (destination_address s) sp port data area Hd Hl) as (Hf & Hh & Hdat). fold len total in Hf, Hh, Hdat.
  rewrite (put_field _ IH a1 _ (a2 ++ a3 ++ a4 ++ area)), bind_ret by (rewrite ?length_be16; done || lia).
  rewrite (put_field _ (IH ++ be16_set sp) a2 _ (a3 ++ a4 ++ area)), bind_ret by (rewrite ?length_app, ?length_be16, <-?app_assoc; done || lia).
  rewrite (put_field _ (IH ++ be16_set sp ++ be16_set port) a3 _ (a4 ++ area)), bind_ret by (rewrite ?length_app, ?length_be16, <-?app_assoc; done || lia).
  set (front := IH ++ be16_set sp ++ be16_set port ++ be16_set total).
  assert (Hfl : Z.of_nat (length front) = 26) by (unfold front; rewrite !length_app, !length_be16; lia).
  assert (Hdrop : ∀ x, drop 20 (front ++ be16_set x ++ area) = udp_header sp port total x ++ area).
  { intros x. unfold front. rewrite <-!app_assoc. replace 20%nat with (length IH) by lia. rewrite drop_app_length. unfold udp_header. by rewrite <-!app_assoc. }
  rewrite (put_field _ front a4 _ area), bind_ret by (unfold front; rewrite ?length_app, ?length_be16, <-?app_assoc; done || lia).
  rewrite Hf, bind_ret, Hdrop, Hh, bind_ret, Hdat, bind_ret.
  pose proof (udp_sum_bounds dev_addr (destination_address s) sp port data Hd ltac:(lia)) as Hsum. unfold udp_sum in Hsum. fold len total in Hsum.
  pose proof (wsum_bound _ Hd). pose proof (wsum_bound _ (udp_header_bytes sp port total 0)). pose proof (wsum_bound _ (udp_fake_bytes dev_addr (destination_address s) total)).
  rewrite (wrap_small 32 (_ + wsum (udp_header _ _ _ _))), (wrap_small 32) by lia.
  rewrite (put_field _ front (be16_set 0) _ area), bind_ret by (rewrite ?length_be16; done || lia).
  rewrite get_eq, bind_ret by lia. change (Z.to_nat 0) with 0%nat. rewrite drop_0, take_ge by lia.
  set (cs := to_checksum _). rewrite (put_field _ (front ++ be16_set cs) area data []) by (rewrite ?length_app, ?length_be16, ?app_nil_r, <-?app_assoc; done || lia).
  unfold udp_wire, udp_header, front, udp_checksum, udp_sum. fold len total. fold sp. rewrite app_nil_r, <-!app_assoc. done.
Qed.

Lemma udp_wire_length sp dp c data : Z.of_nat (length (udp_wire sp dp c data)) = 8 + Z.of_nat (length data).
Proof. unfold udp_wire. rewrite length_app, udp_header_length. lia. Qed.

(** Routing a packet whose interface is the loopback device is parsing it. *)
Lemma route_loopback csum src addr payload lo st :
  length csum = 2%nat → length src = 4%nat → is_addr addr → is_addr (Ipv4.addr lo) →
  get_interface devs addr = Some (lo_id, lo) → get_net_device devs lo_id = Some lo → accepts lo addr →
  20 + Z.of_nat (length payload) < 2 ^ 16 →
  let len := 20 + Z.of_nat (length payload) in
  route (H := link TCPLayer_parse driver devs lo_id) devs (ip_header len IPv4_UDP csum src addr ++ payload) len st =
  (in_world (UDPLayer_parse payload (Z.of_nat (length payload)) (Ipv4.addr lo) addr);; mret ENONE) st.
Proof.
  intros Hc Hs Ha Hla Hi Hlo Hacc Hl len. unfold route. rewrite !run_bind. unfold in_world.
  rewrite (send_packet devs IPv4_UDP csum src addr payload len lo_id lo) by done.
  rewrite run_bind. unfold link_send, link, Loopback_send. rewrite Z.eqb_refl, run_bind. unfold ipv4_received. rewrite Hlo.
  pose proof (parse_packet (T := transport TCPLayer_parse) lo (Ipv4.addr lo) addr IPv4_UDP payload [] (world st)) as Hpp.
  rewrite !app_nil_r in Hpp. change (Z.of_nat (length (@nil Z))) with 0 in Hpp. rewrite !Z.add_0_r in Hpp. fold len in Hpp.
  rewrite (wrap_small 16 len), Hpp by (done || lia || (unfold IPv4_UDP; lia)). change (IPv4_UDP =? IPv4_TCP) with false. change (IPv4_UDP =? IPv4_UDP) with true.
  unfold udp_parse, transport. by destruct (UDPLayer_parse _ _ _ _ _) as [[[] w]| |].
Qed.

(** [sendTo] through the loopback device is the receiving layer run on the packet,
    whose checksum is that of the connected address. *)
Lemma sendTo_loopback p s packet data dst_addr addr port lo st :
  objects (world st) !! p = Some (Some s) →
  (dst_addr = Some (addr, port) ∨ dst_addr = None ∧ destination_port s ≠ 0 ∧ addr = destination_address s ∧ port = destination_port s) →
  get_interface devs addr = Some (lo_id, lo) → get_net_device devs lo_id = Some lo → accepts lo addr →
  is_addr addr → is_addr (Ipv4.addr lo) → bytes data → 28 + Z.of_nat (length data) < 2 ^ 16 →
  Z.of_nat (length packet) = 28 + Z.of_nat (length data) →
  sendTo TCPLayer_parse driver devs lo_id p packet (Some data) (Z.of_nat (length data)) dst_addr st =
  (in_world (UDPLayer_parse (udp_wire (source_port s) port (udp_checksum (Ipv4.addr lo) (destination_address s) (source_port s) port data) data)
               (8 + Z.of_nat (length data)) (Ipv4.addr lo) addr);;
   mret (inr (Z.of_nat (length data)))) st.
Proof.
  intros Hp Hdst Hi Hlo Hacc Ha Hla Hd Hl Hpk. unfold sendTo.
  assert (Hthis : in_world (this p) st = Done (s, st)).
  { unfold in_world, this. rewrite Hp. cbn. by destruct st. }
  rewrite run_bind, Hthis. cbn [fst snd].
  assert (Hsel : (match dst_addr with Some (addr, port) => Some (addr, port)
    | None => if destination_port s =? 0 then None else Some (destination_address s, destination_port s) end) = Some (addr, port)).
  { destruct Hdst as [->|(-> & Hnz & -> & ->)]; [done|]. by replace (destination_port s =? 0) with false by lia. }
  rewrite Hsel, Hi. destruct (fill_packet_spec s packet data addr port (Ipv4.addr lo) Hd Hl Hpk) as (c & sr & Hc & Hs & Hfill).
  erewrite lift_bind by exact Hfill. set (payload := udp_wire _ _ _ _).
  assert (Hpl : Z.of_nat (length payload) = 8 + Z.of_nat (length data)) by apply udp_wire_length.
  unfold encaps_len, header_size, udp_header_size. rewrite wrap_small by lia.
  replace (28 + Z.of_nat (length data)) with (20 + Z.of_nat (length payload)) by lia. rewrite <-Hpl.
  rewrite !run_bind, (route_loopback c sr addr payload lo st) by (done || lia). rewrite run_bind.
  by destruct (in_world (UDPLayer_parse payload (Z.of_nat (length payload)) (Ipv4.addr lo) addr) st) as [[[] w]| |].
Qed.

End Loopback.

(** ** Delivery to sockets *)

Definition socket_ok (s : UDPSocket) : Prop := (∃ l, holds (m_datagrams s) l) ∧ m_buffered_size s = 0.

Lemma this_run p s u : objects u !! p = Some (Some s) → this p u = Done (s, u).
Proof. intros Hp. unfold this. by rewrite Hp. Qed.

Lemma sock_receives p s q src sp data rest u :
  objects u !! p = Some (Some s) → holds (m_datagrams s) q → m_buffered_size s = 0 → Z.of_nat (length data) < 2 ^ 16 →
  ∃ q', sock_packetReceived p src sp (data ++ rest) (Z.of_nat (length data)) u =
          Done (tt, mk_udp (<[p := Some (set_queue q' 1 s)]> (objects u)) (sockets u) (u_ports u)) ∧
        holds q' (q ++ [mk_datagram src sp data]).
Proof.
  intros Hp Hq Hb Hl. destruct (push_holds _ _ (mk_datagram src sp data) Hq) as (q' & Hpush & Hq'). exists q'. split; [|done].
  unfold sock_packetReceived, UDP_SOCKET_BUFFER_SIZE. rewrite run_bind, (this_run p s u Hp). cbn [fst snd].
  rewrite Hb, wrap_small by lia. replace (0 + Z.of_nat (length data) >? 1048576) with false by lia.
  erewrite lift_bind by (by apply (get_field _ [] data rest)). by erewrite lift_bind by exact Hpush.
Qed.

(** What a datagram does to the sockets of the vector. *)
Lemma deliver_spec l u src sp dst dp data rest :
  NoDup l → Z.of_nat (length data) < 2 ^ 16 →
  (∀ p, p ∈ l → ∃ s, objects u !! p = Some (Some s) ∧ socket_ok s) →
  ∃ u', deliver l src sp dst dp (data ++ rest) (Z.of_nat (length data)) u = Done (tt, u') ∧
    sockets u' = sockets u ∧ u_ports u' = u_ports u ∧ (∀ p, p ∉ l → objects u' !! p = objects u !! p) ∧
    ∀ p s q, p ∈ l → objects u !! p = Some (Some s) → holds (m_datagrams s) q →
      if wants s dst dp
      then ∃ q', objects u' !! p = Some (Some (set_queue q' 1 s)) ∧ holds q' (q ++ [mk_datagram src sp data])
      else objects u' !! p = Some (Some s).
Proof.
  revert u. induction l as [|p l IH]; intros u Hnd Hl Hlive.
  { exists u. split_and!; try done. intros p s q Hp. by apply elem_of_nil in Hp. }
  apply NoDup_cons in Hnd as [Hpl Hnd]. destruct (Hlive p ltac:(left)) as (s & Hp & (q & Hq) & Hb).
  assert (Hlive' : ∀ p', p' ∈ l → ∃ s, objects u !! p' = Some (Some s) ∧ socket_ok s) by (intros p' Hp'; apply Hlive; by right).
  cbn [deliver]. rewrite run_bind, (this_run p s u Hp). cbn [fst snd]. unfold when. destruct (wants s dst dp) eqn:Ew.
  - destruct (sock_receives p s q src sp data rest u Hp Hq Hb Hl) as (q' & He & Hq'). rewrite run_bind, He. cbn [fst snd].
    set (u1 := mk_udp _ _ _).
    destruct (IH u1 Hnd Hl) as (u' & He' & Hs' & Hp' & Hout & Hin).
    { intros p' Hp'. destruct (Hlive' p' Hp') as (s' & ? & ?). exists s'. split; [|done]. cbn. rewrite list_lookup_insert_ne; [done|]. by intros ->. }
    exists u'. split_and!; [done|done|done| |].
    + intros p' Hp''. rewrite not_elem_of_cons in Hp''. rewrite Hout by naive_solver. apply list_lookup_insert_ne. naive_solver.
    + intros p' s' q0 [->|Hp'']%elem_of_cons Hs'' Hq0.
      * simplify_eq. rewrite Ew. destruct (push_holds _ _ (mk_datagram src sp data) Hq0) as (q2 & Hp2 & Hq2).
        destruct (sock_receives p s q0 src sp data rest u Hp Hq0 Hb Hl) as (q3 & He3 & Hq3). rewrite He in He3. injection He3 as E3.
        exists q3. split; [|done]. rewrite Hout by done. cbn. rewrite E3. apply list_lookup_insert_eq. by eapply lookup_lt_Some.
      * apply (Hin p' s' q0 Hp''); [|done]. cbn. rewrite list_lookup_insert_ne; [done|]. by intros ->.
  - rewrite mret_bind. destruct (IH u Hnd Hl Hlive') as (u' & He' & Hs' & Hp' & Hout & Hin). exists u'. split_and!; [done|done|done| |].
    + intros p' Hp''. rewrite not_elem_of_cons in Hp''. apply Hout. naive_solver.
    + intros p' s' q0 [->|Hp'']%elem_of_cons Hs'' Hq0; [|by apply Hin]. simplify_eq. rewrite Ew. by rewrite Hout.
Qed.

(** ** The sockets and their ports *)

Definition udp_inv (u : udp) : Prop :=
  ports_inv (u_ports u) ∧ NoDup (sockets u) ∧ (∀ p, p ∈ sockets u → ∃ s, objects u !! p = Some (Some s)) ∧
  (∀ p s, objects u !! p = Some (Some s) → socket_ok s ∧ 0 ≤ source_port s < 65536 ∧
     (source_port s ≠ 0 → used (u_ports u) (source_port s) = true)) ∧
  (∀ p p' s s', objects u !! p = Some (Some s) → objects u !! p' = Some (Some s') →
     source_port s = source_port s' → source_port s ≠ 0 → p = p').

Definition udp_init : udp := mk_udp [] [] Ports.init.

(** The calls that change the state. *)
Inductive udp_step : udp → udp → Prop :=
| step_create b r u u' : createSocket b u = Done (r, u') → udp_step u u'
| step_destroy p u u' : destroy p u = Done (tt, u') → udp_step u u'
| step_connect p a r u u' : connect p a u = Done (r, u') → udp_step u u'
| step_bind p a r u u' :
    match a with Some (_, port) => 0 ≤ port < 65536 | None => True end → bind p a u = Done (r, u') → udp_step u u'
| step_packet src sp dst dp data rest u u' :
    Z.of_nat (length data) < 2 ^ 16 →
    packetReceived src sp dst dp (data ++ rest) (Z.of_nat (length data)) u = Done (tt, u') → udp_step u u'
| step_receive p n r u u' : receiveFrom p n u = Done (r, u') → udp_step u u'.

Lemma udp_init_inv : udp_inv udp_init.
Proof.
  split_and!; [apply init_ports|apply NoDup_nil_2|intros p Hp; by apply elem_of_nil in Hp|intros p s Hp; by destruct p|
    intros p p' s s' Hp; by destruct p].
Qed.

(** Only the contents of live sockets change, not their ports. *)
Lemma udp_inv_update u u' :
  udp_inv u → sockets u' = sockets u → u_ports u' = u_ports u →
  (∀ p, objects u' !! p = objects u !! p ∨
        ∃ s s', objects u !! p = Some (Some s) ∧ objects u' !! p = Some (Some s') ∧ source_port s' = source_port s ∧ socket_ok s') →
  udp_inv u'.
Proof.
  intros (Hp & Hnd & Hin & Hs & Hex) Hsock Hports Hobj.
  assert (Hback : ∀ p s', objects u' !! p = Some (Some s') → ∃ s, objects u !! p = Some (Some s) ∧ source_port s' = source_port s ∧ socket_ok s').
  { intros p s' Hs'. destruct (Hobj p) as [He|(s & s2 & H1 & H2 & H3 & H4)].
    - exists s'. rewrite <-He, Hs'. split_and!; [done..|]. by apply (Hs p); rewrite <-He.
    - simplify_eq. by exists s. }
  unfold udp_inv. rewrite Hsock, Hports. split_and!; try done.
  - intros p Hp'. destruct (Hin p Hp') as [s He]. destruct (Hobj p) as [->|(s1 & s2 & _ & -> & _)]; by eexists.
  - intros p s' Hs'. destruct (Hback p s' Hs') as (s & H1 & -> & H3). split; [done|]. by apply (Hs p).
  - intros p p' s s' H1 H2. destruct (Hback _ _ H1) as (t1 & ? & -> & _). destruct (Hback _ _ H2) as (t2 & ? & -> & _). by eapply Hex.
Qed.

Lemma inv_packet src sp dst dp data rest u u' :
  udp_inv u → Z.of_nat (length data) < 2 ^ 16 →
  packetReceived src sp dst dp (data ++ rest) (Z.of_nat (length data)) u = Done (tt, u') → udp_inv u'.
Proof.
  intros Hu Hl He. pose proof Hu as (_ & Hnd & Hin & Hs & _). unfold packetReceived in He. destruct (dp =? 0).
  { by injection He as ->. }
  rewrite gets_bind in He. destruct (deliver_spec (sockets u) u src sp dst dp data rest Hnd Hl) as (u1 & He1 & Hs1 & Hp1 & Hout & Hd).
  { intros p Hp. destruct (Hin p Hp) as [s Hps]. exists s. split; [done|]. by apply (Hs p). }
  rewrite He1 in He. injection He as ->. apply (udp_inv_update u); try done. intros p.
  destruct (decide (p ∈ sockets u)) as [Hp|Hp]; [|left; by apply Hout]. destruct (Hin p Hp) as [s Hps]. destruct (Hs p s Hps) as (((q & Hq) & Hb) & _).
  specialize (Hd p s q Hp Hps Hq). destruct (wants s dst dp); [|left; congruence]. destruct Hd as (q' & Hq' & Hh).
  right. exists s, (set_queue q' 1 s). split_and!; [done..|split; [by eexists|done]].
Qed.

Lemma inv_put p s s' u :
  udp_inv u → objects u !! p = Some (Some s) → source_port s' = source_port s → socket_ok s' →
  udp_inv (mk_udp (<[p := Some s']> (objects u)) (sockets u) (u_ports u)).
Proof.
  intros Hu Hp Hport Hok. apply (udp_inv_update u); try done. intros p'. cbn. destruct (decide (p = p')) as [->|].
  - right. exists s, s'. split_and!; try done. apply list_lookup_insert_eq. by eapply lookup_lt_Some.
  - left. by apply list_lookup_insert_ne.
Qed.

Lemma this_inv p s u u' : this p u = Done (s, u') → u' = u ∧ objects u !! p = Some (Some s).
Proof. unfold this. destruct (objects u !! p) as [[]|]; naive_solver. Qed.

Lemma udp_bind_inv {A B} (m : M A) (f : A → M B) u b u' :
  (m ≫= f) u = Done (b, u') → ∃ a u1, m u = Done (a, u1) ∧ f a u1 = Done (b, u').
Proof. rewrite run_bind. destruct (m u) as [[a u1]| |]; [|done..]. by eexists _, _. Qed.

Lemma inv_connect p a r u u' : udp_inv u → connect p a u = Done (r, u') → udp_inv u'.
Proof.
  intros Hu He. destruct a as [[addr port]|]; [|by injection He as _ ->]. apply udp_bind_inv in He as (s & u1 & [-> Hp]%this_inv & He).
  injection He as _ <-. apply (inv_put p s); try done. destruct Hu as (_ & _ & _ & Hs & _). exact (proj1 (Hs p s Hp)).
Qed.

Lemma inv_receive p n r u u' : udp_inv u → receiveFrom p n u = Done (r, u') → udp_inv u'.
Proof.
  intros Hu He. apply udp_bind_inv in He as (s & u1 & [-> Hp]%this_inv & He). pose proof Hu as (_ & _ & _ & Hs & _).
  destruct (Hs p s Hp) as (((l & Hl) & Hb) & _). destruct l as [|d l].
  - rewrite (lift_bind _ _ _ _ (pop_empty _ Hl)) in He. by injection He as _ ->.
  - destruct (pop_holds _ _ _ Hl) as (q & Hq & Hq'). erewrite lift_bind in He by exact Hq.
    apply udp_bind_inv in He as ([] & u1 & Hput & He). injection Hput as <-. apply udp_bind_inv in He as (x & u2 & Hx & He). unfold lift in Hx.
    destruct (get _ _ _); [|done..]. injection Hx as _ <-. injection He as _ <-.
    apply (inv_put p s); try done. split; [by exists l|done].
Qed.

(** Ports: a socket takes a port no other socket has. *)
Lemma inv_move p s s' ps u :
  udp_inv u → objects u !! p = Some (Some s) → ports_inv ps → socket_ok s' → 0 ≤ source_port s' < 65536 →
  (source_port s' ≠ 0 → used (u_ports u) (source_port s') = false) →
  (∀ j, 0 < j → used ps j = negb (bool_decide (source_port s ≠ 0 ∧ source_port s = j)) && ((source_port s' =? j) || used (u_ports u) j)) →
  udp_inv (mk_udp (<[p := Some s']> (objects u)) (sockets u) ps).
Proof.
  intros (Hp & Hnd & Hin & Hs & Hex) Hps Hpi Hok Hr Hfree Hused. destruct (Hs p s Hps) as (_ & Hsr & Hsu).
  assert (Hlen : (p < length (objects u))%nat) by (by eapply lookup_lt_Some).
  assert (Hcase : ∀ p' t, <[p := Some s']> (objects u) !! p' = Some (Some t) → (p' = p ∧ t = s') ∨ (p' ≠ p ∧ objects u !! p' = Some (Some t))).
  { intros p' t. destruct (decide (p = p')) as [->|]; [rewrite list_lookup_insert_eq by done; naive_solver|rewrite list_lookup_insert_ne by done; naive_solver]. }
  split_and!; cbn; try done.
  - intros p' Hp'. destruct (decide (p = p')) as [->|]; [rewrite list_lookup_insert_eq by done; by eexists|rewrite list_lookup_insert_ne by done; by apply Hin].
  - intros p' t [[-> ->]|[Hne Ht]]%Hcase.
    + split_and!; [done|lia..|]. intros Hnz. rewrite Hused, Z.eqb_refl by lia. cbn. rewrite andb_true_r.
      apply negb_true_iff, bool_decide_eq_false_2. intros [? E]. rewrite <-E in Hfree. rewrite Hsu in Hfree by done. naive_solver.
    + destruct (Hs p' t Ht) as (? & ? & Htu). split_and!; [done|lia..|]. intros Hnz. rewrite Hused by lia. rewrite Htu, orb_true_r, andb_true_r by done.
      apply negb_true_iff, bool_decide_eq_false_2. intros [? E]. apply Hne. symmetry. by apply (Hex p p' s t).
  - intros p1 p2 t1 t2 [[-> ->]|[Hne1 Ht1]]%Hcase [[-> ->]|[Hne2 Ht2]]%Hcase He Hnz; [done| | |by eapply Hex].
    + destruct (Hs p2 t2 Ht2) as (_ & _ & Htu). rewrite He in Hfree, Hnz. rewrite Htu in Hfree by done. naive_solver.
    + destruct (Hs p1 t1 Ht1) as (_ & _ & Htu). rewrite He in Htu, Hnz. rewrite Htu in Hfree by done. naive_solver.
Qed.

Lemma in_ports_run {A} (m : stateM ports A) u a ps :
  m (u_ports u) = Done (a, ps) → in_ports m u = Done (a, mk_udp (objects u) (sockets u) ps).
Proof. intros Hm. unfold in_ports. by rewrite Hm. Qed.

(** Giving the port of a socket back, when it has one. *)
Lemma release_port s u :
  ports_inv (u_ports u) → 0 ≤ source_port s < 65536 →
  ∃ ps, when (negb (source_port s =? 0)) (in_ports (freePort (source_port s))) u = Done (tt, mk_udp (objects u) (sockets u) ps) ∧
        ports_inv ps ∧ ∀ j, 0 < j → used ps j = negb (bool_decide (source_port s ≠ 0 ∧ source_port s = j)) && used (u_ports u) j.
Proof.
  intros Hp Hr. destruct (Z.eqb_spec (source_port s) 0) as [E|E]; cbn [negb when].
  - exists (u_ports u). split_and!; [by destruct u|done|]. intros j Hj. by rewrite bool_decide_eq_false_2 by naive_solver.
  - destruct (freePort_spec (u_ports u) (source_port s) Hp Hr) as (ps & He & Hps & _ & Hu). exists ps.
    split_and!; [by apply in_ports_run|done|]. intros j Hj. rewrite Hu by lia. do 2 f_equal.
    destruct (Z.eqb_spec (source_port s) j); [by rewrite bool_decide_eq_true_2|by rewrite bool_decide_eq_false_2 by naive_solver].
Qed.

Lemma inv_bind p a r u u' :
  udp_inv u → match a with Some (_, port) => 0 ≤ port < 65536 | None => True end → bind p a u = Done (r, u') → udp_inv u'.
Proof.
  intros Hu Ha He. destruct a as [[addr port]|]; [|by injection He as _ ->]. pose proof Hu as (Hp & _ & _ & Hs & _).
  apply udp_bind_inv in He as (ok & u1 & Hok & He). destruct (used (u_ports u) port) eqn:E.
  - rewrite (in_ports_run _ _ _ _ (allocatePort_used _ _ Hp Ha E)) in Hok. injection Hok as <- <-. injection He as _ <-. by destruct u.
  - destruct (allocatePort_free _ _ Hp Ha E) as (p1 & Hal & Hp1 & _ & Hu1). rewrite (in_ports_run _ _ _ _ Hal) in Hok. injection Hok as <- <-.
    cbn [negb] in He. apply udp_bind_inv in He as (s & u2 & [-> Hps]%this_inv & He). cbn in Hps. destruct (Hs p s Hps) as (Hok & Hr & _).
    destruct (release_port s (mk_udp (objects u) (sockets u) p1)) as (p2 & Hrel & Hp2 & Hu2); [done..|].
    rewrite run_bind, Hrel in He. injection He as _ <-. apply (inv_move p s); try done. intros j Hj. cbn. rewrite Hu2 by done. cbn [u_ports].
    by rewrite Hu1 by lia.
Qed.

Lemma elem_of_erase p x l : NoDup l → x ∈ erase_first p l ↔ x ∈ l ∧ x ≠ p.
Proof.
  induction 1 as [|y l Hy Hnd IH]; cbn [erase_first]; [set_solver|]. case_bool_decide as E; [subst; set_solver|].
  rewrite elem_of_cons, IH. set_solver.
Qed.

Lemma erase_NoDup p l : NoDup l → NoDup (erase_first p l).
Proof.
  induction 1 as [|y l Hy Hnd IH]; cbn [erase_first]; [constructor|]. case_bool_decide; [done|]. constructor; [|done].
  rewrite elem_of_erase by done. naive_solver.
Qed.

Lemma queue_blocks q l : holds q l → (length l < S (length (blocks q)))%nat.
Proof.
  intros (ps & Hc & Hnd & _). assert (Hlen : length ps = length l).
  { clear -Hc. revert l Hc. induction ps as [|p ps IH]; intros [|d l]; cbn; try done. intros [_ H]. f_equal. by apply IH. }
  enough (length ps ≤ length (blocks q))%nat by lia.
  pose proof (length_seq (length (blocks q)) 0) as Hsq. rewrite <-Hsq.
  apply submseteq_length, NoDup_submseteq; [done|]. intros p Hp. apply elem_of_seq. split; [lia|]. cbn. by eapply chain_bound.
Qed.

Lemma inv_destroy p u u' : udp_inv u → destroy p u = Done (tt, u') → udp_inv u'.
Proof.
  intros Hu He. pose proof Hu as (Hp & Hnd & Hin & Hs & Hex). unfold destroy in He. rewrite modify_bind in He.
  apply udp_bind_inv in He as (s & u2 & [-> Hps]%this_inv & He). cbn in Hps. destruct (Hs p s Hps) as (((l & Hl) & _) & Hr & _).
  destruct (release_port s (mk_udp (objects u) (erase_first p (sockets u)) (u_ports u))) as (ps & Hrel & Hpi & Hused); [done..|].
  rewrite run_bind, Hrel in He. cbn [fst snd] in He.
  destruct (free_all_holds _ _ (S (length (blocks (m_datagrams s)))) Hl (queue_blocks _ _ Hl)) as (q & Hq & _).
  rewrite (lift_bind _ _ _ _ Hq) in He. injection He as <-. cbn [objects sockets u_ports] in *.
  assert (Hlen : (p < length (objects u))%nat) by (by eapply lookup_lt_Some).
  assert (Hcase : ∀ p' t, <[p := None]> (objects u) !! p' = Some (Some t) → p' ≠ p ∧ objects u !! p' = Some (Some t)).
  { intros p' t. destruct (decide (p = p')) as [->|]; [by rewrite list_lookup_insert_eq|rewrite list_lookup_insert_ne by done; naive_solver]. }
  split_and!; cbn; [done|by apply erase_NoDup|..].
  - intros p' [Hp' Hne]%elem_of_erase; [|done]. rewrite list_lookup_insert_ne by done. by apply Hin.
  - intros p' t [Hne Ht]%Hcase. destruct (Hs p' t Ht) as (? & ? & Htu). split_and!; [done|lia..|]. intros Hnz.
    rewrite Hused, Htu, andb_true_r by lia. apply negb_true_iff, bool_decide_eq_false_2. intros [? E]. apply Hne. symmetry. by apply (Hex p p' s t).
  - intros p1 p2 t1 t2 [_ Ht1]%Hcase [_ Ht2]%Hcase. by eapply Hex.
Qed.

Lemma new_socket_ok a port : socket_ok (set_source a port new_socket).
Proof. split; [exists []; apply empty_holds|done]. Qed.

Lemma inv_create b r u u' : udp_inv u → createSocket b u = Done (r, u') → udp_inv u'.
Proof.
  intros Hu He. pose proof Hu as (Hp & Hnd & Hin & Hs & Hex). unfold createSocket in He. destruct b; [|by injection He as _ ->]. cbn [negb] in He.
  rewrite gets_bind, modify_bind in He. apply udp_bind_inv in He as (port & u1 & Hport & He). unfold in_ports in Hport. cbn in Hport.
  destruct (allocateDynamicPort (u_ports u)) as [[port' ps]| |] eqn:E; [|done..]. injection Hport as -> <-.
  destruct (dynamic_inv _ _ _ Hp E) as (Hr & Hfree & Hps & Hused). replace (port =? 0) with false in He by lia. injection He as _ <-. cbn.
  set (obj := <[_ := _]> _). assert (Hcase : ∀ p' t, obj !! p' = Some (Some t) →
     (p' = length (objects u) ∧ t = set_source 0 port new_socket) ∨ objects u !! p' = Some (Some t)).
  { intros p' t Ht. unfold obj in Ht. destruct (decide (p' = length (objects u))) as [->|Hne].
    - rewrite list_lookup_insert_eq in Ht by (rewrite length_app; simpl; lia). naive_solver.
    - rewrite list_lookup_insert_ne in Ht by done. apply lookup_app_Some in Ht as [|[Hge Ht]]; [by right|].
      destruct (p' - length (objects u))%nat as [|n] eqn:En; [lia|done]. }
  assert (Hold : ∀ p' x, objects u !! p' = Some x → obj !! p' = Some x).
  { intros p' x Hx. unfold obj. pose proof (lookup_lt_Some _ _ _ Hx). rewrite list_lookup_insert_ne by lia. by apply lookup_app_l_Some. }
  assert (Hnew : length (objects u) ∉ sockets u) by (intros [s Hx]%Hin; apply lookup_lt_Some in Hx; lia).
  split_and!; cbn; [done| |..].
  - apply NoDup_app. split_and!; [done|intros x Hx ->%list_elem_of_singleton; done|apply NoDup_singleton].
  - intros p' [Hp'| ->%list_elem_of_singleton]%elem_of_app; [destruct (Hin p' Hp') as [s Hx]; exists s; by apply Hold|].
    eexists. unfold obj. apply list_lookup_insert_eq. rewrite length_app. simpl. lia.
  - intros p' t [[-> ->]|Ht]%Hcase; cbn.
    + split_and!; [apply new_socket_ok|lia..|]. intros _. by rewrite Hused, Z.eqb_refl by lia.
    + destruct (Hs p' t Ht) as (? & ? & Htu). split_and!; [done|lia..|]. intros Hnz. rewrite Hused, Htu by lia. apply orb_true_r.
  - intros p1 p2 t1 t2 [[-> ->]|Ht1]%Hcase [[-> ->]|Ht2]%Hcase; cbn; [done| | |by eapply Hex].
    + intros Heq Hnz. destruct (Hs _ _ Ht2) as (_ & _ & Htu). rewrite <-Heq, Hfree in Htu. naive_solver.
    + intros Heq Hnz. destruct (Hs _ _ Ht1) as (_ & _ & Htu). rewrite Heq, Hfree in Htu. naive_solver lia.
Qed.

Lemma udp_step_inv u u' : udp_inv u → udp_step u u' → udp_inv u'.
Proof.
  intros Hu Hstep. destruct Hstep; [by eapply inv_create|by eapply inv_destroy|by eapply inv_connect|by eapply inv_bind|by eapply inv_packet|by eapply inv_receive].
Qed.

Lemma udp_reachable_inv u : rtc udp_step udp_init u → udp_inv u.
Proof.
  apply (rtc_ind_r (R := udp_step) udp_inv udp_init); [apply udp_init_inv|]. intros u1 u2 _ Hs Hi. by eapply udp_step_inv.
Qed.

(** However sockets are created, bound, connected, destroyed and
    delivered to, two live sockets never share a port, the port of every live socket
    is taken in the port table, the vector lists live sockets once each and their
    queues are well linked; so a datagram is wanted by at most one socket. *)
Lemma udp_ports_exclusive u :
  rtc udp_step udp_init u →
  udp_inv u ∧
  ∀ p p' s s' dst dp, objects u !! p = Some (Some s) → objects u !! p' = Some (Some s') → dp ≠ 0 →
    wants s dst dp = true → wants s' dst dp = true → p = p'.
Proof.
  intros Hu%udp_reachable_inv. split; [done|]. intros p p' s s' dst dp Hp Hp' Hdp. unfold wants.
  intros [E1%Z.eqb_eq _]%andb_true_iff [E2%Z.eqb_eq _]%andb_true_iff. destruct Hu as (_ & _ & _ & _ & Hex).
  apply (Hex p p' s s'); congruence.
Qed.

(** ** The stack end to end *)

(** C33 (functional): what a socket that is connected to an address of the loopback
    device sends, without giving another address in the call, is appended, with the sender's address and port, to the queue of every
    socket that wants it, byte for byte; every other socket is unchanged, and the
    call returns the length.  The packet is built, checksummed, routed, parsed and
    dispatched by the code of three layers. *)
Theorem udp_loopback_delivers tcp driver devs lo_id p s packet data lo st :
  udp_inv (world st) → objects (world st) !! p = Some (Some s) → 0 < destination_port s < 2 ^ 16 →
  get_interface devs (destination_address s) = Some (lo_id, lo) → get_net_device devs lo_id = Some lo →
  accepts lo (destination_address s) → is_addr (destination_address s) → is_addr (Ipv4.addr lo) →
  bytes data → 28 + Z.of_nat (length data) < 2 ^ 16 → Z.of_nat (length packet) = 28 + Z.of_nat (length data) →
  ∃ u', sendTo tcp driver devs lo_id p packet (Some data) (Z.of_nat (length data)) None st =
          Done (inr (Z.of_nat (length data)), mk_layer (m_retx_queue st) (m_retx_queue_size st) u') ∧
    ∀ r t q, r ∈ sockets (world st) → objects (world st) !! r = Some (Some t) → holds (m_datagrams t) q →
      if wants t (destination_address s) (destination_port s)
      then ∃ q', objects u' !! r = Some (Some (set_queue q' 1 t)) ∧
                 holds q' (q ++ [mk_datagram (Ipv4.addr lo) (source_port s) data])
      else objects u' !! r = Some (Some t).
Proof.
  intros Hu Hp Hdp Hi Hlo Hacc Ha Hla Hd Hl Hpk. pose proof Hu as (_ & Hnd & Hin & Hs & _). destruct (Hs p s Hp) as (_ & Hsp & _).
  rewrite (sendTo_loopback tcp driver devs lo_id p s packet data None (destination_address s) (destination_port s) lo st) by (try done; right; split_and!; done || lia).
  rewrite run_bind. unfold in_world. rewrite layer_delivers by (done || lia). unfold packetReceived.
  replace (destination_port s =? 0) with false by lia. rewrite gets_bind.
  destruct (deliver_spec (sockets (world st)) (world st) (Ipv4.addr lo) (source_port s) (destination_address s) (destination_port s) data []
    Hnd ltac:(lia)) as (u' & He & _ & _ & _ & Hd'); [intros r Hr; destruct (Hin r Hr) as [t Ht]; exists t; split; [done|by apply (Hs r)]|].
  rewrite app_nil_r in He. rewrite He. exists u'. split; [done|]. exact Hd'.
Qed.

(** [sendTo] computes the checksum over the connected address even when
    the packet goes to the address it was given.  Sent through the loopback device
    to an address whose words have another sum modulo 65535, the packet fails the
    check and is dropped: no socket changes, and the call reports success.  (A
    checksum of zero is not checked.) *)
Lemma udp_wrong_checksum_dropped tcp driver devs lo_id p s packet data addr port lo st :
  objects (world st) !! p = Some (Some s) → get_interface devs addr = Some (lo_id, lo) → get_net_device devs lo_id = Some lo →
  accepts lo addr → is_addr addr → is_addr (Ipv4.addr lo) → bytes data → 28 + Z.of_nat (length data) < 2 ^ 16 →
  Z.of_nat (length packet) = 28 + Z.of_nat (length data) →
  (wsum (le_bytes 4 addr) - wsum (le_bytes 4 (destination_address s))) mod 65535 ≠ 0 →
  udp_checksum (Ipv4.addr lo) (destination_address s) (source_port s) port data ≠ 0 →
  sendTo tcp driver devs lo_id p packet (Some data) (Z.of_nat (length data)) (Some (addr, port)) st =
    Done (inr (Z.of_nat (length data)), st).
Proof.
  intros Hp Hi Hlo Hacc Ha Hla Hd Hl Hpk Hne Hnz.
  rewrite (sendTo_loopback tcp driver devs lo_id p s packet data (Some (addr, port)) addr port lo st) by (try done; by left).
  rewrite run_bind. unfold in_world. rewrite layer_drops by (done || lia). by destruct st.
Qed.

(** The layer trusts the length field of the header: a packet with a
    checksum whose length field exceeds the bytes received makes it read behind the
    buffer, before any check of the length. *)
Lemma udp_length_overread buffer len src dst u csum total :
  8 ≤ len → Z.of_nat (length buffer) = len → bytes buffer →
  get buffer 4 2 = Done (be16_set total) → get buffer 6 2 = Done (be16_set csum) →
  0 < csum < 2 ^ 16 → len + 1 < total < 2 ^ 16 →
  UDPLayer_parse buffer len src dst u = Fault.
Proof.
  intros Hlen Hl Hb H4 H6 Hc Ht. unfold UDPLayer_parse, udp_header_size. replace (len <? 8) with false by lia.
  erewrite lift_bind by exact H6. rewrite be16_get_set by lia. replace (negb (csum =? 0)) with true by lia.
  rewrite run_bind. unfold lift at 1, checksum_ok. rewrite H4, bind_ret, be16_get_set by lia.
  pose proof (sum_bytes_spec _ [] (udp_fake_bytes src dst total)) as Hf. rewrite app_nil_r, udp_fake_length in Hf.
  change (Z.of_nat 12) with 12 in Hf. rewrite Hf, bind_ret by lia. unfold sum_bytes.
  pose proof (Z.div_mod total 2 ltac:(lia)). pose proof (Z.mod_pos_bound total 2 ltac:(lia)).
  by rewrite sum_words_fault by lia.
Qed.

(** ** Examples *)

(** Socket 0 connected to port 80 of the loopback address, socket 1 bound to it. *)
Definition demo_calls : M error_t :=
  _ ← createSocket true; _ ← createSocket true; _ ← bind 1 (Some (IPv4_ANY, 80));
  connect 0 (Some (ipv4 127 0 0 1, 80)).
Definition demo_udp : udp := match demo_calls udp_init with Done (_, u) => u | _ => udp_init end.
Definition demo_net : layer udp := mk_layer [] 0 demo_udp.
Definition demo_socket (p : nat) : UDPSocket := match objects demo_udp !! p with Some (Some s) => s | _ => new_socket end.
Definition no_tcp : list Z → Z → Z → Z → M unit := λ _ _ _ _, mret tt.
Definition no_driver : Link udp := λ _ _ _, mret ENOSYS.

Lemma demo_calls_run : demo_calls udp_init = Done (ENONE, demo_udp).
Proof. vm_compute. reflexivity. Qed.

Lemma udp_demo_reachable : rtc udp_step udp_init demo_udp.
Proof.
  pose proof demo_calls_run as He. unfold demo_calls in He.
  apply udp_bind_inv in He as (r1 & u1 & H1 & He). apply udp_bind_inv in He as (r2 & u2 & H2 & He). apply udp_bind_inv in He as (r3 & u3 & H3 & He).
  eapply rtc_l; [by eapply step_create|]. eapply rtc_l; [by eapply step_create|].
  eapply rtc_l; [eapply step_bind; [|exact H3]; cbn; lia|]. eapply rtc_l; [by eapply step_connect|]. apply rtc_refl.
Qed.

Lemma udp_ports_exclusive_witness : udp_inv demo_udp ∧ wants (demo_socket 1) (ipv4 127 0 0 1) 80 = true.
Proof. split; [exact (proj1 (udp_ports_exclusive demo_udp udp_demo_reachable))|vm_compute; reflexivity]. Defined.

Lemma udp_loopback_delivers_witness :
  ∃ u' q', sendTo no_tcp no_driver demo_devices 2 0 (replicate 31 9) (Some [1; 2; 3]) 3 None demo_net =
             Done (inr 3, mk_layer [] 0 u') ∧
           objects u' !! 1%nat = Some (Some (set_queue q' 1 (demo_socket 1))) ∧
           holds q' [mk_datagram (ipv4 127 0 0 1) 49152 [1; 2; 3]].
Proof.
  destruct (udp_loopback_delivers no_tcp no_driver demo_devices 2 0 (demo_socket 0) (replicate 31 9) [1; 2; 3] lo demo_net)
    as (u' & He & Hd).
  - exact (udp_reachable_inv _ udp_demo_reachable).
  - vm_compute. reflexivity.
  - vm_compute. split; reflexivity.
  - vm_compute. reflexivity.
  - vm_compute. reflexivity.
  - left. vm_compute. reflexivity.
  - vm_compute. split; congruence.
  - vm_compute. split; congruence.
  - repeat constructor; lia.
  - vm_compute. reflexivity.
  - vm_compute. reflexivity.
  - specialize (Hd 1%nat (demo_socket 1) [] ltac:(vm_compute; right; left) ltac:(vm_compute; reflexivity)).
    assert (Hh : holds (m_datagrams (demo_socket 1)) []) by (replace (m_datagrams (demo_socket 1)) with empty by (vm_compute; reflexivity); apply empty_holds).
    specialize (Hd Hh). replace (wants _ _ _) with true in Hd by (vm_compute; reflexivity). destruct Hd as (q' & Ho & Hq).
    exists u', q'. split_and!; [exact He|exact Ho|].
    replace (Ipv4.addr lo) with (ipv4 127 0 0 1) in Hq by (vm_compute; reflexivity).
    replace (source_port (demo_socket 0)) with 49152 in Hq by (vm_compute; reflexivity). exact Hq.
Defined.

Lemma udp_wrong_checksum_dropped_witness :
  sendTo no_tcp no_driver demo_devices 2 1 (replicate 31 9) (Some [1; 2; 3]) 3 (Some (ipv4 127 0 0 1, 80)) demo_net = Done (inr 3, demo_net).
Proof.
  apply (udp_wrong_checksum_dropped no_tcp no_driver demo_devices 2 1 (demo_socket 1) (replicate 31 9) [1; 2; 3] (ipv4 127 0 0 1) 80 lo demo_net).
  - vm_compute. reflexivity.
  - vm_compute. reflexivity.
  - vm_compute. reflexivity.
  - left. vm_compute. reflexivity.
  - vm_compute. split; congruence.
  - vm_compute. split; congruence.
  - repeat constructor; lia.
  - vm_compute. reflexivity.
  - vm_compute. reflexivity.
  - vm_compute. congruence.
  - vm_compute. congruence.
Defined.

Lemma udp_length_overread_witness : UDPLayer_parse [0; 1; 0; 80; 1; 0; 0; 7] 8 0 0 udp_init = Fault.
Proof.
  apply (udp_length_overread _ 8 0 0 udp_init 7 256); [lia|done|repeat constructor; lia|vm_compute; reflexivity|vm_compute; reflexivity|lia|lia].
Defined.

End Udp.
