(* ===== verification/Arp.v ===== *)
(** * ARP

    [ARPTable] and [ARPLayer] of [mod/core/netstack/layer/link]: the table of
    hardware addresses with its open queries, and the packets.  The calls run under
    [m_entries_lock] and [m_queries_lock]; [time] is [Sys::Time::uptime()]. *)
From S2P Require Import Prelude Net Ipv4.
Local Open Scope Z_scope.
Import Bytes Checksum Ipv4.

Module Arp.

Definition ARP_REFRESH_NS : Z := 10 * 1000000000.
Definition ARP_TIMEOUT_NS : Z := 15 * 1000000000.
Definition ARP_INTERVAL_NS : Z := 1 * 1000000000.
Definition ARP_RETRIES : Z := 5.
Definition ARP_ETHERNET : Z := 1.
Definition ETH_IPv4 : Z := 0x0800.
Definition ARP_REQUEST : Z := 1.
Definition ARP_REPLY : Z := 2.

Definition to_arp_uuid (hardware protocol : Z) : Z := u32 (hardware + Z.shiftl protocol 16).
Definition eth_ipv4_uuid : Z := to_arp_uuid ARP_ETHERNET ETH_IPv4.

(** ** The table *)

Record arp_entry := mk_entry { e_uuid : Z; set_at : Z; updating : bool; e_ipv4 : Z; e_mac : list Z }.
Record arp_query := mk_query { q_uuid : Z; retry_at : Z; retries : Z; q_ipv4 : Z }.
Record ARPTable := mk_table { m_entries : list arp_entry; m_queries : list arp_query }.

Definition is_entry (ipv4 : Z) (e : arp_entry) : bool := (e_uuid e =? eth_ipv4_uuid) && (e_ipv4 e =? ipv4).
Definition is_query (ipv4 : Z) (q : arp_query) : bool := (q_uuid q =? eth_ipv4_uuid) && (q_ipv4 q =? ipv4).

Definition query_mac (ipv4 : Z) (t : ARPTable) : ARPTable :=
  if existsb (is_query ipv4) (m_queries t) then t
  else mk_table (m_entries t) (m_queries t ++ [mk_query eth_ipv4_uuid 0 0 ipv4]).

(** The loops over [m_entries]: the first entry of the address and its index. *)
Fixpoint find_entry (ipv4 : Z) (l : list arp_entry) : option (nat * arp_entry) :=
  match l with
  | [] => None
  | e :: l => if is_entry ipv4 e then Some (0%nat, e) else prod_map S id <$> find_entry ipv4 l
  end.

(** An entry past its time erases the query with the index of the entry.  The call is one
    step here, as the rest of the table's calls: the code holds the lock of the entries for
    the whole of it, takes the lock of the queries inside [query_mac] only, and erases
    without it, so a query added or removed by another thread in that moment is not
    represented. *)
Definition get_mac (ipv4 time : Z) (t : ARPTable) : option (list Z) * ARPTable :=
  match find_entry ipv4 (m_entries t) with
  | None => (None, query_mac ipv4 t)
  | Some (i, e) =>
      if u64 (time - set_at e) >? ARP_TIMEOUT_NS then (None, query_mac ipv4 (mk_table (m_entries t) (delete i (m_queries t))))
      else if u64 (time - set_at e) >? ARP_REFRESH_NS then
        (Some (e_mac e),
         query_mac ipv4 (mk_table (<[i := mk_entry (e_uuid e) (set_at e) true (e_ipv4 e) (e_mac e)]> (m_entries t)) (m_queries t)))
      else (Some (e_mac e), t)
  end.

(** [updating] of a new entry is what the stack held ([garbage]). *)
Definition set_mac (garbage : bool) (ipv4 : Z) (mac : list Z) (time : Z) (t : ARPTable) : ARPTable :=
  let queries := filter (λ q, is_query ipv4 q = false) (m_queries t) in
  match find_entry ipv4 (m_entries t) with
  | Some (i, e) => mk_table (<[i := mk_entry (e_uuid e) time false (e_ipv4 e) mac]> (m_entries t)) queries
  | None => mk_table (m_entries t ++ [mk_entry eth_ipv4_uuid time garbage ipv4 mac]) queries
  end.

(** ** Packets *)

Definition footer : list Z := [97; 101; 120; 65; 69; 88; 97; 101; 120; 65; 69; 88].
Definition packet_size : Z := 40.

(** The 40 bytes of [arp_packet]. *)
Definition arp_packet (operation : Z) (source_mac : list Z) (source_ipv4 : Z) (destination_mac : list Z) (destination_ipv4 : Z) : list Z :=
  be16_set ARP_ETHERNET ++ be16_set ETH_IPv4 ++ [6; 4] ++ be16_set operation ++
  source_mac ++ le_bytes 4 source_ipv4 ++ destination_mac ++ le_bytes 4 destination_ipv4 ++ footer.

(** [send_mac_request]: the device and the packet it sends; [destination_mac] is not
    initialised ([junk]). *)
Definition send_mac_request (devs : devices) (junk : list Z) (ipv4 : Z) : option (Z * list Z) :=
  match get_interface devs ipv4 with
  | None => None
  | Some (index, dev) => Some (index, arp_packet ARP_REQUEST (mac dev) (addr dev) junk ipv4)
  end.

(** A turn of [loop] over the queries: the queries it keeps and what it sends. *)
Fixpoint loop_queries (devs : devices) (junk : list Z) (time : Z) (l : list arp_query) : list arp_query * list (Z * list Z) :=
  match l with
  | [] => ([], [])
  | q :: l =>
      let '(kept, sent) := loop_queries devs junk time l in
      if time <? retry_at q then (q :: kept, sent)
      else if retries q =? ARP_RETRIES then (kept, sent)
      else
        (mk_query (q_uuid q) (u64 (time + ARP_INTERVAL_NS)) (u32 (retries q + 1)) (q_ipv4 q) :: kept,
         (if q_uuid q =? eth_ipv4_uuid then option_list (send_mac_request devs junk (q_ipv4 q)) else []) ++ sent)
  end.

Definition loop (devs : devices) (junk : list Z) (time : Z) (t : ARPTable) : ARPTable * list (Z * list Z) :=
  let '(queries, sent) := loop_queries devs junk time (m_queries t) in (mk_table (m_entries t) queries, sent).

(** [handle_eth_ipv4]: the packet it sends on the device, if any. *)
Definition handle_eth_ipv4 (garbage : bool) (dev : netdev) (packet : list Z) (time : Z) : stateM ARPTable (option (list Z)) :=
  hl ← lift (packet.[4]);
  pl ← lift (packet.[5]);
  if negb (hl =? 6) || negb (pl =? 4) then mret None
  else
    op ← lift (get packet 6 2);
    if be16_get op =? ARP_REQUEST then
      dst ← lift (get packet 24 4);
      if negb (addr dev =? le_value dst) then mret None
      else
        copy ← lift (get packet 0 packet_size);
        copy ← lift (put copy 6 (be16_set ARP_REPLY));
        copy ← lift (put copy 14 (le_bytes 4 (addr dev)));
        copy ← lift (put copy 8 (mac dev));
        src ← lift (get packet 14 4);
        copy ← lift (put copy 24 src);
        src_mac ← lift (get packet 8 6);
        copy ← lift (put copy 18 src_mac);
        copy ← lift (put copy 28 footer);
        mret (Some copy)
    else if be16_get op =? ARP_REPLY then
      src ← lift (get packet 14 4);
      src_mac ← lift (get packet 8 6);
      modify (set_mac garbage (le_value src) src_mac time);;
      mret None
    else mret None.

Definition parse (garbage : bool) (dev : netdev) (buffer : list Z) (len time : Z) : stateM ARPTable (option (list Z)) :=
  hl ← lift (buffer.[4]);
  pl ← lift (buffer.[5]);
  if len <? 8 + hl + pl then mret None
  else
    hw ← lift (get buffer 0 2);
    proto ← lift (get buffer 2 2);
    if to_arp_uuid (be16_get hw) (be16_get proto) =? eth_ipv4_uuid then handle_eth_ipv4 garbage dev buffer time
    else mret None.

(** ** The table as a map *)

(** Every entry and query is one of Ethernet and IPv4, and an address has at most one
    of each. *)
Definition table_inv (t : ARPTable) : Prop :=
  Forall (λ e, e_uuid e = eth_ipv4_uuid) (m_entries t) ∧ NoDup (e_ipv4 <$> m_entries t) ∧
  Forall (λ q, q_uuid q = eth_ipv4_uuid ∧ 0 ≤ retries q ≤ ARP_RETRIES) (m_queries t) ∧ NoDup (q_ipv4 <$> m_queries t).

Definition empty_table : ARPTable := mk_table [] [].

Lemma find_entry_Some ipv4 l i e : find_entry ipv4 l = Some (i, e) → l !! i = Some e ∧ e_uuid e = eth_ipv4_uuid ∧ e_ipv4 e = ipv4.
Proof.
  revert i. induction l as [|e' l IH]; intros i; cbn [find_entry]; [done|]. destruct (is_entry ipv4 e') eqn:E.
  - intros [= <- <-]. apply andb_true_iff in E as [?%Z.eqb_eq ?%Z.eqb_eq]. done.
  - intros ([j e2] & Hf & [= -> ->])%fmap_Some. apply (IH j Hf).
Qed.

Lemma find_entry_None ipv4 l :
  Forall (λ e, e_uuid e = eth_ipv4_uuid) l → find_entry ipv4 l = None → ipv4 ∉ e_ipv4 <$> l.
Proof.
  induction 1 as [|e l He Hl IH]; cbn [find_entry]; [by intros _ ?%elem_of_nil|]. unfold is_entry. rewrite He, Z.eqb_refl. cbn [andb].
  destruct (Z.eqb_spec (e_ipv4 e) ipv4); [done|]. intros Hf%fmap_None. rewrite fmap_cons, not_elem_of_cons. auto.
Qed.

(** Storing an address at the entry of its key keeps the other keys. *)
Lemma entries_insert l i e uuid time b mac :
  l !! i = Some e → uuid = e_uuid e →
  e_ipv4 <$> <[i := mk_entry uuid time b (e_ipv4 e) mac]> l = e_ipv4 <$> l ∧
  (Forall (λ e, e_uuid e = eth_ipv4_uuid) l → Forall (λ e, e_uuid e = eth_ipv4_uuid) (<[i := mk_entry uuid time b (e_ipv4 e) mac]> l)).
Proof.
  intros Hi ->. split.
  - rewrite list_fmap_insert. cbn. apply list_insert_id. rewrite list_lookup_fmap, Hi. done.
  - intros Hl. apply Forall_insert; [done|]. exact (Forall_lookup_1 _ _ _ _ Hl Hi).
Qed.

Lemma find_entry_insert ipv4 l i e time b mac :
  find_entry ipv4 l = Some (i, e) →
  find_entry ipv4 (<[i := mk_entry (e_uuid e) time b (e_ipv4 e) mac]> l) = Some (i, mk_entry (e_uuid e) time b (e_ipv4 e) mac).
Proof.
  revert i. induction l as [|e' l IH]; intros i; cbn [find_entry]; [done|]. destruct (is_entry ipv4 e') eqn:E.
  - intros [= <- <-]. cbn. unfold is_entry in *. cbn. by rewrite E.
  - intros ([j e2] & Hf & [= -> ->])%fmap_Some. cbn. rewrite E, IH by done. done.
Qed.

Lemma find_entry_snoc ipv4 l e : find_entry ipv4 l = None → is_entry ipv4 e = true → find_entry ipv4 (l ++ [e]) = Some (length l, e).
Proof.
  induction l as [|e' l IH]; cbn [find_entry app]; [by intros _ ->|]. destruct (is_entry ipv4 e'); [done|].
  intros Hf%fmap_None He. by rewrite IH.
Qed.

Lemma query_inv ipv4 t : table_inv t → table_inv (query_mac ipv4 t).
Proof.
  intros (He & Hne & Hq & Hnq). unfold query_mac. destruct (existsb _ _) eqn:E; [done|]. split_and!; cbn; [done|done| |].
  - apply Forall_app. split; [done|]. repeat constructor; unfold ARP_RETRIES; cbn; lia.
  - rewrite fmap_app. cbn. apply NoDup_app. split_and!; [done| |apply NoDup_singleton].
    intros x Hx ->%list_elem_of_singleton. apply list_elem_of_fmap in Hx as (q & -> & Hin).
    assert (existsb (is_query (q_ipv4 q)) (m_queries t) = true); [|congruence]. apply existsb_exists. exists q.
    split; [by apply list_elem_of_In|]. rewrite Forall_forall in Hq. destruct (Hq q Hin) as [Hu _]. unfold is_query. by rewrite Hu, !Z.eqb_refl.
Qed.

Lemma delete_inv i t : table_inv t → table_inv (mk_table (m_entries t) (delete i (m_queries t))).
Proof.
  intros (He & Hne & Hq & Hnq). split_and!; cbn; [done|done|by apply Forall_delete|].
  rewrite list_fmap_delete. eapply sublist_NoDup; [exact Hnq|]. apply sublist_delete.
Qed.

Lemma loop_queries_kept devs junk time l :
  Forall (λ q, q_uuid q = eth_ipv4_uuid ∧ 0 ≤ retries q ≤ ARP_RETRIES) l →
  let kept := (loop_queries devs junk time l).1 in
  Forall (λ q, q_uuid q = eth_ipv4_uuid ∧ 0 ≤ retries q ≤ ARP_RETRIES) kept ∧ (q_ipv4 <$> kept) `sublist_of` (q_ipv4 <$> l).
Proof.
  unfold ARP_RETRIES. induction 1 as [|q l [Hu Hr] Hl IH]; cbn [loop_queries]; [done|].
  destruct (loop_queries devs junk time l) as [kept sent] eqn:E. cbn in IH. destruct IH as [IH1 IH2].
  destruct (time <? retry_at q); cbn; [split; [by constructor|by apply sublist_skip]|].
  unfold ARP_RETRIES. destruct (Z.eqb_spec (retries q) 5); cbn; [split; [done|by apply sublist_cons]|].
  split; [constructor; [|done]|by apply sublist_skip]. cbn. rewrite wrap_small by lia. split; [done|lia].
Qed.

(** C35 (type): looking an address up, storing one and the turns of the query
    thread keep one entry and one query per address, and no query is retried more
    than [ARP_RETRIES] times. *)
Theorem arp_table_inv t :
  table_inv t →
  (∀ ipv4 time, table_inv (get_mac ipv4 time t).2) ∧
  (∀ g ipv4 mac time, table_inv (set_mac g ipv4 mac time t)) ∧
  (∀ devs junk time, table_inv (loop devs junk time t).1).
Proof.
  intros Ht. pose proof Ht as (He & Hne & Hq & Hnq). split_and!.
  - intros ipv4 time. unfold get_mac. destruct (find_entry ipv4 (m_entries t)) as [[i e]|] eqn:Ef; [|by apply query_inv].
    apply find_entry_Some in Ef as (Hi & _ & _). destruct (_ >? _); [by apply query_inv, delete_inv|]. destruct (_ >? _); [|done].
    apply query_inv. destruct (entries_insert (m_entries t) i e (e_uuid e) (set_at e) true (e_mac e) Hi eq_refl) as [H1 H2].
    split_and!; cbn; [by apply H2|by rewrite H1|done|done].
  - intros g ipv4 mac time. unfold set_mac.
    assert (Hf : Forall (λ q, q_uuid q = eth_ipv4_uuid ∧ 0 ≤ retries q ≤ ARP_RETRIES) (filter (λ q, is_query ipv4 q = false) (m_queries t)) ∧
                 NoDup (q_ipv4 <$> filter (λ q, is_query ipv4 q = false) (m_queries t))).
    { rewrite Forall_forall in Hq. split; [apply Forall_forall; intros q [_ Hin]%list_elem_of_filter; by apply Hq|].
      eapply sublist_NoDup; [exact Hnq|]. apply fmap_sublist, sublist_filter. }
    destruct Hf as [Hf1 Hf2]. destruct (find_entry ipv4 (m_entries t)) as [[i e]|] eqn:Ef.
    + apply find_entry_Some in Ef as (Hi & _ & _). destruct (entries_insert (m_entries t) i e (e_uuid e) time false mac Hi eq_refl) as [H1 H2].
      split_and!; cbn; [by apply H2|by rewrite H1|done|done].
    + split_and!; cbn; [apply Forall_app; split; [done|by constructor]| |done|done].
      rewrite fmap_app. apply NoDup_app. split_and!; [done| |apply NoDup_singleton].
      intros x Hx ->%list_elem_of_singleton. by apply (find_entry_None ipv4 (m_entries t)).
  - intros devs junk time. unfold loop. destruct (loop_queries_kept devs junk time (m_queries t) Hq) as [H1 H2].
    destruct (loop_queries _ _ _ _) as [kept sent]. split_and!; cbn in *; [done|done|done|by eapply sublist_NoDup].
Qed.

Lemma arp_table_inv_witness : table_inv (get_mac 7 0 empty_table).2 ∧ m_queries (get_mac 7 0 empty_table).2 ≠ [].
Proof.
  split; [|done]. apply (proj1 (arp_table_inv empty_table ltac:(repeat split; constructor)) 7 0).
Defined.

(** An address that was stored is found, with nothing changed, for
    the next ten seconds; for five more it is still found and a query for it is open;
    after that it is not found, whatever else is in the table, and the open query of
    the same index as the entry is erased: a bug, as the code means to erase the
    entry. *)
Lemma arp_entry_ages g ipv4 mac time t now :
  table_inv t → 0 ≤ time ≤ now → now < 2 ^ 64 →
  let t1 := set_mac g ipv4 mac time t in
  (now - time ≤ ARP_REFRESH_NS → get_mac ipv4 now t1 = (Some mac, t1)) ∧
  (ARP_REFRESH_NS < now - time ≤ ARP_TIMEOUT_NS →
     (get_mac ipv4 now t1).1 = Some mac ∧ existsb (is_query ipv4) (m_queries (get_mac ipv4 now t1).2) = true) ∧
  (ARP_TIMEOUT_NS < now - time →
     ∃ i, e_ipv4 <$> m_entries t1 !! i = Some ipv4 ∧
       get_mac ipv4 now t1 = (None, query_mac ipv4 (mk_table (m_entries t1) (delete i (m_queries t1))))).
Proof.
  intros (He & _) Htime Hnow t1. unfold ARP_REFRESH_NS, ARP_TIMEOUT_NS.
  assert (Hf : ∃ i e, find_entry ipv4 (m_entries t1) = Some (i, e) ∧ set_at e = time ∧ e_mac e = mac).
  { unfold t1, set_mac. destruct (find_entry ipv4 (m_entries t)) as [[i e]|] eqn:Ef.
    - eexists i, _. cbn [m_entries]. by rewrite (find_entry_insert ipv4 (m_entries t) i e).
    - eexists _, _. cbn [m_entries]. rewrite find_entry_snoc; [done|done|]. unfold is_entry. cbn. by rewrite !Z.eqb_refl. }
  destruct Hf as (i & e & Hf & Hset & Hmac). unfold get_mac. rewrite Hf, Hset, Hmac. rewrite wrap_small by lia. unfold ARP_REFRESH_NS, ARP_TIMEOUT_NS.
  split_and!.
  - intros Hle. replace (now - time >? 15 * 1000000000) with false by lia. by replace (now - time >? 10 * 1000000000) with false by lia.
  - intros Hle. replace (now - time >? 15 * 1000000000) with false by lia. replace (now - time >? 10 * 1000000000) with true by lia. split; [done|].
    unfold query_mac. cbn [snd m_queries]. destruct (existsb (is_query ipv4) (m_queries t1)) eqn:Eq; [done|]. cbn [m_queries].
    rewrite existsb_app. unfold is_query at 2. cbn. by rewrite !Z.eqb_refl, orb_true_r.
  - intros Hgt. replace (now - time >? 15 * 1000000000) with true by lia. exists i. split; [|done].
    destruct (find_entry_Some _ _ _ _ Hf) as (-> & _ & <-). done.
Qed.

Lemma arp_entry_ages_witness : get_mac 7 3000000000 (set_mac false 7 [1] 5 empty_table) = (Some [1], set_mac false 7 [1] 5 empty_table).
Proof. apply (arp_entry_ages false 7 [1] 5 empty_table 3000000000); [repeat split; constructor|lia|lia|unfold ARP_REFRESH_NS; lia]. Defined.

(** ** Requests and replies *)

Abbreviation is_mac m := (length m = 6%nat).

(** The bytes before the operation. *)
Definition front : list Z := be16_set ARP_ETHERNET ++ be16_set ETH_IPv4 ++ [6; 4].

Section Fields.
Context (op : Z) (sm : list Z) (si : Z) (dm : list Z) (di : Z) (Hsm : is_mac sm) (Hdm : is_mac dm).

Lemma arp_packet_split : arp_packet op sm si dm di =
  front ++ be16_set op ++ sm ++ le_bytes 4 si ++ dm ++ le_bytes 4 di ++ footer.
Proof. unfold arp_packet, front. by rewrite <-!app_assoc. Qed.

Ltac arp_length := unfold front, footer; rewrite ?length_app, ?Nat2Z.inj_add, ?be16_length, ?le4_length, ?Hsm, ?Hdm; cbn [length]; lia.

Lemma arp_packet_length : Z.of_nat (length (arp_packet op sm si dm di)) = packet_size.
Proof. rewrite arp_packet_split. unfold packet_size. arp_length. Qed.

Lemma arp_packet_fields pad :
  let l := arp_packet op sm si dm di ++ pad in
  l.[4] = Done 6 ∧ l.[5] = Done 4 ∧ get l 0 2 = Done (be16_set ARP_ETHERNET) ∧ get l 2 2 = Done (be16_set ETH_IPv4) ∧
  get l 6 2 = Done (be16_set op) ∧ get l 8 6 = Done sm ∧ get l 14 4 = Done (le_bytes 4 si) ∧ get l 24 4 = Done (le_bytes 4 di).
Proof.
  intros l. unfold l. rewrite arp_packet_split. split_and!; [done|done|..].
  - apply (get_field _ [] _ (be16_set ETH_IPv4 ++ [6; 4] ++ be16_set op ++ sm ++ le_bytes 4 si ++ dm ++ le_bytes 4 di ++ footer ++ pad));
      [unfold front; by rewrite <-!app_assoc|done|apply be16_length].
  - eapply (get_field _ (be16_set ARP_ETHERNET)); [unfold front; by rewrite <-!app_assoc|done|apply be16_length].
  - eapply (get_field _ front); [by rewrite <-!app_assoc|done|apply be16_length].
  - eapply (get_field _ (front ++ be16_set op)); [by rewrite <-!app_assoc|arp_length|by rewrite Hsm].
  - eapply (get_field _ (front ++ be16_set op ++ sm)); [by rewrite <-!app_assoc|arp_length|apply le4_length].
  - eapply (get_field _ (front ++ be16_set op ++ sm ++ le_bytes 4 si ++ dm)); [by rewrite <-!app_assoc|arp_length|apply le4_length].
Qed.

(** The answer of [handle_eth_ipv4] to a request for the address of [dev]. *)
Lemma arp_request_answered g dev pad time t :
  op = ARP_REQUEST → di = addr dev → is_addr di → is_mac (mac dev) →
  parse g dev (arp_packet op sm si dm di ++ pad) (packet_size + Z.of_nat (length pad)) time t =
    Done (Some (arp_packet ARP_REPLY (mac dev) (addr dev) sm si), t).
Proof.
  intros Hop Hdi Hda Hmac. destruct (arp_packet_fields pad) as (H4 & H5 & H0 & H2 & H6 & H8 & H14 & H24). set (l := _ ++ pad) in *.
  unfold parse. erewrite lift_bind by exact H4. erewrite lift_bind by exact H5. unfold packet_size.
  destruct (Z.ltb_spec (40 + Z.of_nat (length pad)) (8 + 6 + 4)); [lia|].
  erewrite lift_bind by exact H0. erewrite lift_bind by exact H2.
  change (to_arp_uuid (be16_get (be16_set ARP_ETHERNET)) (be16_get (be16_set ETH_IPv4)) =? eth_ipv4_uuid) with true.
  unfold handle_eth_ipv4. erewrite lift_bind by exact H4. erewrite lift_bind by exact H5. cbn [Z.eqb Pos.eqb negb orb].
  erewrite lift_bind by exact H6. rewrite Hop. change (be16_get (be16_set ARP_REQUEST) =? ARP_REQUEST) with true. cbv iota.
  erewrite lift_bind by exact H24. rewrite le_value_bytes, wrap_small by (done || lia). rewrite Hdi, Z.eqb_refl. cbn [negb].
  assert (Hcopy : get l 0 packet_size = Done (front ++ be16_set op ++ sm ++ le_bytes 4 si ++ dm ++ le_bytes 4 di ++ footer)).
  { apply (get_field _ [] _ pad); [unfold l; by rewrite arp_packet_split|done|rewrite <-arp_packet_split; apply arp_packet_length]. }
  erewrite lift_bind by exact Hcopy.
  assert (Hb : ∀ v, length (be16_set v) = 2%nat) by (intros v; pose proof (be16_length v); lia).
  assert (Hl4 : ∀ v, length (le_bytes 4 v) = 4%nat) by (intros v; pose proof (le4_length v); lia).
  erewrite lift_bind by (apply (put_field _ front (be16_set op)); [done|done|by rewrite !Hb]).
  erewrite lift_bind by (apply (put_field _ (front ++ be16_set ARP_REPLY ++ sm) (le_bytes 4 si)); [by rewrite <-!app_assoc|arp_length|by rewrite !Hl4]).
  erewrite lift_bind by (apply (put_field _ (front ++ be16_set ARP_REPLY) sm); [by rewrite <-!app_assoc|arp_length|by rewrite Hsm, Hmac]).
  erewrite lift_bind by exact H14.
  erewrite lift_bind by (apply (put_field _ (front ++ be16_set ARP_REPLY ++ mac dev ++ le_bytes 4 (addr dev) ++ dm) (le_bytes 4 di));
    [by rewrite <-!app_assoc|rewrite !length_app, Hmac; arp_length|by rewrite !Hl4]).
  erewrite lift_bind by exact H8.
  erewrite lift_bind by (apply (put_field _ (front ++ be16_set ARP_REPLY ++ mac dev ++ le_bytes 4 (addr dev)) dm);
    [by rewrite <-!app_assoc|rewrite !length_app, Hmac; arp_length|by rewrite Hsm, Hdm]).
  erewrite lift_bind by (apply (put_field _ (front ++ be16_set ARP_REPLY ++ mac dev ++ le_bytes 4 (addr dev) ++ sm ++ le_bytes 4 si) footer footer []);
    [by rewrite app_nil_r, <-!app_assoc|rewrite !length_app, Hmac; arp_length|done]).
  unfold mret, stateM_ret. do 3 f_equal. unfold arp_packet, front. by rewrite app_nil_r, <-!app_assoc.
Qed.

Lemma arp_reply_stored g dev pad time t :
  op = ARP_REPLY → is_addr si →
  parse g dev (arp_packet op sm si dm di ++ pad) (packet_size + Z.of_nat (length pad)) time t = Done (None, set_mac g si sm time t).
Proof.
  intros Hop Hsi. destruct (arp_packet_fields pad) as (H4 & H5 & H0 & H2 & H6 & H8 & H14 & H24). set (l := _ ++ pad) in *.
  unfold parse. erewrite lift_bind by exact H4. erewrite lift_bind by exact H5. unfold packet_size.
  destruct (Z.ltb_spec (40 + Z.of_nat (length pad)) (8 + 6 + 4)); [lia|].
  erewrite lift_bind by exact H0. erewrite lift_bind by exact H2.
  change (to_arp_uuid (be16_get (be16_set ARP_ETHERNET)) (be16_get (be16_set ETH_IPv4)) =? eth_ipv4_uuid) with true.
  unfold handle_eth_ipv4. erewrite lift_bind by exact H4. erewrite lift_bind by exact H5. cbn [Z.eqb Pos.eqb negb orb].
  erewrite lift_bind by exact H6. rewrite Hop. change (be16_get (be16_set ARP_REPLY) =? ARP_REQUEST) with false. change (be16_get (be16_set ARP_REPLY) =? ARP_REPLY) with true. cbv iota.
  erewrite lift_bind by exact H14. erewrite lift_bind by exact H8. by rewrite le_value_bytes, wrap_small by (done || lia).
Qed.

End Fields.

(** C34 (functional): the exchange of two machines resolves an address: the request
    of the one, padded by the link, makes the other answer with its own hardware
    address to the asking machine; the answer is stored, ends the open query and is
    what [get_mac] finds for the next ten seconds. *)
Theorem arp_resolves g devs junk ipv4 index a b pad pad' t tb time now :
  get_interface devs ipv4 = Some (index, a) → addr b = ipv4 → is_addr ipv4 → is_addr (addr a) →
  is_mac (mac a) → is_mac (mac b) → is_mac junk → table_inv t →
  0 ≤ time ≤ now → now ≤ time + ARP_REFRESH_NS → now < 2 ^ 64 →
  ∃ request reply t', send_mac_request devs junk ipv4 = Some (index, request) ∧
    parse g b (request ++ pad) (packet_size + Z.of_nat (length pad)) time tb = Done (Some reply, tb) ∧
    parse g a (reply ++ pad') (packet_size + Z.of_nat (length pad')) time t = Done (None, t') ∧
    get_mac ipv4 now t' = (Some (mac b), t') ∧ existsb (is_query ipv4) (m_queries t') = false.
Proof.
  intros Hi Hb Hip Ha Hma Hmb Hj Ht Htime Hnow Hmax.
  exists (arp_packet ARP_REQUEST (mac a) (addr a) junk ipv4), (arp_packet ARP_REPLY (mac b) (addr b) (mac a) (addr a)), (set_mac g ipv4 (mac b) time t).
  split_and!.
  - unfold send_mac_request. by rewrite Hi.
  - by apply arp_request_answered.
  - rewrite arp_reply_stored by (done || by rewrite Hb). by rewrite Hb.
  - destruct Ht as [He _]. unfold get_mac, set_mac. destruct (find_entry ipv4 (m_entries t)) as [[i e]|] eqn:Ef; cbn [m_entries].
    + rewrite (find_entry_insert ipv4 (m_entries t) i e) by done. cbn [set_at e_mac]. unfold ARP_TIMEOUT_NS, ARP_REFRESH_NS in *. rewrite wrap_small by lia.
      replace (now - time >? 15 * 1000000000) with false by lia. by replace (now - time >? 10 * 1000000000) with false by lia.
    + rewrite find_entry_snoc by (done || (unfold is_entry; cbn; by rewrite !Z.eqb_refl)). cbn [set_at e_mac]. unfold ARP_TIMEOUT_NS, ARP_REFRESH_NS in *. rewrite wrap_small by lia.
      replace (now - time >? 15 * 1000000000) with false by lia. by replace (now - time >? 10 * 1000000000) with false by lia.
  - unfold set_mac. assert (Hq : existsb (is_query ipv4) (filter (λ q, is_query ipv4 q = false) (m_queries t)) = false).
    { induction (m_queries t) as [|q l IH]; [done|]. rewrite filter_cons. case_decide as E; [cbn; by rewrite E|done]. }
    destruct (find_entry ipv4 (m_entries t)) as [[i e]|]; done.
Qed.

Definition demo_host : netdev := setIPv4Address (ipv4 10 0 0 2) (mk_dev [2; 0; 0; 0; 0; 9] 0 0 0 0 0).
Definition demo_wire : devices :=
  [Some (NetDevice (setIPv4Mask (ipv4 255 255 255 0) (setIPv4Address (ipv4 10 0 0 1) (mk_dev [2; 0; 0; 0; 0; 1] 0 0 0 0 0))))].

Lemma arp_resolves_witness :
  ∃ index request reply t', send_mac_request demo_wire (replicate 6 0) (ipv4 10 0 0 2) = Some (index, request) ∧
    parse false demo_host (request ++ replicate 6 0) 46 100 empty_table = Done (Some reply, empty_table) ∧
    get_mac (ipv4 10 0 0 2) 200 t' = (Some [2; 0; 0; 0; 0; 9], t').
Proof.
  destruct (get_interface demo_wire (ipv4 10 0 0 2)) as [[index a]|] eqn:E; [|vm_compute in E; discriminate E].
  assert (Ha : is_addr (addr a) ∧ is_mac (mac a)) by (vm_compute in E; injection E as _ <-; vm_compute; split; [split; congruence|reflexivity]).
  destruct (arp_resolves false demo_wire (replicate 6 0) (ipv4 10 0 0 2) index a demo_host (replicate 6 0) [] empty_table empty_table 100 200)
    as (request & reply & t' & H1 & H2 & _ & H4 & _).
  - exact E.
  - vm_compute. reflexivity.
  - vm_compute. split; congruence.
  - apply Ha.
  - apply Ha.
  - reflexivity.
  - reflexivity.
  - repeat split; constructor.
  - lia.
  - unfold ARP_REFRESH_NS. lia.
  - lia.
  - exists index, request, reply, t'. split; [exact H1|]. split; [exact H2|exact H4].
Defined.

(** The 28 bytes of a request without padding: the answer copies a whole
    [arp_packet] of 40 bytes. *)
Example arp_unpadded_request_faults :
  parse false demo_host (take 28 (arp_packet ARP_REQUEST [2; 0; 0; 0; 0; 1] (ipv4 10 0 0 1) (replicate 6 0) (ipv4 10 0 0 2))) 28 100 empty_table = Fault.
Proof. vm_compute. reflexivity. Qed.

End Arp.
