(* ===== verification/Frames.v ===== *)
(** * The interface between paging and the physical allocator

    What [arch/x86_64/mem/paging.cpp] calls of [mem/phys.cpp], what it relies on,
    and that the allocator keeps it when memory is one region. *)
From S2P Require Import Prelude Locks Bitmap Phys.
Local Open Scope Z_scope.

Class FrameAllocator (A : Type) := {
  phys_alloc : A → Z → outcome (Z * A);
  phys_free : A → Z → Z → outcome A;
}.

(** The address of a frame: page aligned, not 0, inside the 52 bits an entry
    holds. *)
Definition is_frame (p : Z) : Prop := 0 < p < 2 ^ 52 ∧ p mod 4096 = 0.

(** With a frame left, a request for at most a page returns a frame that was not
    in use and now is; freeing a frame in use gives it back. *)
Class FrameLaws (A : Type) `{!FrameAllocator A} := {
  fa_inv : A → Prop;
  fa_used : A → Z → Prop;
  fa_left : A → Z;
  fa_left_nonneg a : fa_inv a → 0 ≤ fa_left a;
  fa_alloc a n : fa_inv a → 0 < n ≤ 4096 → 0 < fa_left a →
    ∃ p a', phys_alloc a n = Done (p, a') ∧ fa_inv a' ∧ fa_left a' = fa_left a - 1 ∧
      is_frame p ∧ ¬ fa_used a p ∧ ∀ q, fa_used a' q ↔ q = p ∨ fa_used a q;
  fa_free a p n : fa_inv a → 0 < n ≤ 4096 → fa_used a p →
    ∃ a', phys_free a p n = Done a' ∧ fa_inv a' ∧ fa_left a' = fa_left a + 1 ∧
      ∀ q, fa_used a' q ↔ fa_used a q ∧ q ≠ p;
}.

#[global] Instance Phys_frames : FrameAllocator Phys.Phys.state := {
  phys_alloc := Phys.Phys.alloc;
  phys_free := Phys.Phys.free;
}.

Module PhysFrames.
Import FramePiece Phys.

(** One region, inside the addressable 52 bits. *)
Definition one_region (s : state) : Prop :=
  Phys.inv s ∧ ∃ p, pieces s = [p] ∧ 0 < start p ∧ start p mod 4096 = 0 ∧ start p + size p * 4096 ≤ 2 ^ 52.

Definition used (s : state) (q : Z) : Prop :=
  ∃ p j, pieces s = [p] ∧ 0 ≤ j < size p ∧ bit_at (m_bitmap p) j = true ∧ q = start p + j * 4096.

Definition left_frames (s : state) : Z := match pieces s with p :: _ => frames_free p | [] => 0 end.

Lemma one_frame n : 0 < n ≤ 4096 → (n + (PAGE_SIZE - 1)) / PAGE_SIZE = 1.
Proof. intros. unfold PAGE_SIZE. symmetry. apply (Z.div_unique _ _ _ (n - 1)); lia. Qed.

Lemma count_pos ws n : 0 < count_free ws 0 n → ∃ j, 0 ≤ j < Z.of_nat n ∧ bit_at ws j = false.
Proof.
  induction n as [|n IH] using nat_ind; intros Hc; [simpl in Hc; lia|].
  replace (S n) with (n + 1)%nat in Hc by lia. rewrite count_free_app in Hc. cbn [count_free] in Hc. rewrite Z.add_0_l in Hc.
  destruct (bit_at ws (Z.of_nat n)) eqn:E; [|exists (Z.of_nat n); split; [lia|done]].
  destruct IH as (j & Hj & Hb); [lia|]. exists j. split; [lia|done].
Qed.

Lemma frame_addr p j : 0 < start p → start p mod 4096 = 0 → start p + size p * 4096 ≤ 2 ^ 52 → 0 ≤ j < size p →
  is_frame (start p + j * 4096).
Proof. intros. unfold is_frame. rewrite Z_mod_plus_full. split; [nia|done]. Qed.

Lemma count_nonneg ws i n : 0 ≤ count_free ws i n.
Proof. revert i. induction n as [|n IH]; intros i; cbn [count_free]; [lia|]. specialize (IH (i + 1)). destruct (bit_at _ _); lia. Qed.

Lemma left_nonneg s : one_region s → 0 ≤ left_frames s.
Proof.
  intros [(_ & _ & Hps) (p & Hp & _)]. unfold left_frames. rewrite Hp in *. apply Forall_cons in Hps as [[(_ & _ & _ & ->) _] _].
  apply count_nonneg.
Qed.

Lemma alloc_law s n :
  one_region s → 0 < n ≤ 4096 → 0 < left_frames s →
  ∃ p s', Phys.alloc s n = Done (p, s') ∧ one_region s' ∧ left_frames s' = left_frames s - 1 ∧
    is_frame p ∧ ¬ used s p ∧ ∀ q, used s' q ↔ q = p ∨ used s q.
Proof.
  intros [Hinv (p & Hp & Hst & Hal & Hend)] Hn Hl. unfold left_frames in Hl. rewrite Hp in Hl.
  pose proof Hinv as (_ & _ & Hps). rewrite Hp in Hps. apply Forall_cons in Hps as [[Hpi Hsm] _].
  pose proof Hpi as (_ & Hsz & _ & Hff).
  destruct (count_pos (m_bitmap p) (Z.to_nat (size p))) as (j0 & Hj0 & Hb0); [lia|].
  destruct (first_fit_exists (m_bitmap p) (size p) 1 j0) as (j & Hfit); [lia|lia|by intros i Hi; replace i with j0 by lia|].
  rewrite <-(one_frame n Hn) in Hfit.
  destruct (alloc_first s p [] n j Hinv Hp ltac:(lia) ltac:(unfold PAGE_SIZE; lia) Hfit) as (p' & Hpi' & Ht & Ha).
  rewrite (one_frame n Hn) in *. destruct Ht as (Ht1 & Ht2 & Ht3 & Ht4 & Ht5). destruct Hfit as (Hj & Hjs & Hfree & _).
  eexists _, _. split; [exact Ha|]. unfold PAGE_SIZE, left_frames. rewrite Hp. cbn [pieces]. split_and!.
  - split; [|exists p'; cbn [pieces]; rewrite Ht1, Ht2; done].
    split_and!; [done|done|]. cbn [pieces]. apply Forall_singleton. split; [done|]. unfold small. by rewrite Ht1, Ht2.
  - done.
  - unfold PAGE_SIZE. apply frame_addr; lia || done.
  - intros (q & i & Hq & Hi & Hb & Heq). simplify_eq. rewrite Hp in Hq. simplify_eq.
    replace i with j in Hb by lia. by rewrite Hfree in Hb by lia.
  - intros q. split.
    + intros (q' & i & Hq & Hi & Hb & ->). cbn [pieces] in Hq. simplify_eq. rewrite Ht1. rewrite Ht5 in Hb by lia.
      destruct (decide (i = j)) as [->|Hne]; [by left|right]. exists p, i. rewrite Ht2 in Hi.
      rewrite (proj2 (in_run_false j 1 i)), orb_false_r in Hb by lia. done.
    + intros [-> | (q' & i & Hq & Hi & Hb & ->)].
      * exists p', j. cbn [pieces]. rewrite Ht1, Ht2, Ht5 by lia. rewrite (proj2 (in_run_true j 1 j)), orb_true_r by lia.
        split_and!; done || lia.
      * rewrite Hp in Hq. simplify_eq. exists p', i. cbn [pieces]. rewrite Ht1, Ht2, Ht5, Hb by lia. done.
Qed.

Lemma free_law s q n :
  one_region s → 0 < n ≤ 4096 → used s q →
  ∃ s', Phys.free s q n = Done s' ∧ one_region s' ∧ left_frames s' = left_frames s + 1 ∧
    ∀ q', used s' q' ↔ used s q' ∧ q' ≠ q.
Proof.
  intros [Hinv (p & Hp & Hst & Hal & Hend)] Hn (p0 & j & Hp0 & Hj & Hb & ->). rewrite Hp in Hp0. simplify_eq.
  pose proof Hinv as (_ & _ & Hps). rewrite Hp in Hps. apply Forall_cons in Hps as [[Hpi Hsm] _].
  rewrite (free_first s p0 [] _ n Hinv Hp) by (unfold PAGE_SIZE; lia). rewrite (one_frame n Hn).
  replace ((start p0 + j * 4096 - start p0) / PAGE_SIZE) with j
    by (unfold PAGE_SIZE; replace (start p0 + j * 4096 - start p0) with (j * 4096) by lia; by rewrite Z.div_mul).
  destruct (FramePiece.free_spec p0 j 1 Hpi) as (p' & -> & Hpi' & (Ht1 & Ht2 & Ht3 & Ht4 & Ht5) & Hfr);
    [lia..|by intros i Hi; replace i with j by lia|].
  cbn [mbind outcome_bind]. eexists. split; [done|]. unfold left_frames. rewrite Hp. cbn [pieces]. split_and!.
  - split; [|exists p'; cbn [pieces]; rewrite <-Ht1, <-Ht2; done].
    split_and!; [done|done|]. cbn [pieces]. apply Forall_singleton. split; [done|]. unfold small. by rewrite <-Ht1, <-Ht2.
  - lia.
  - intros q'. split.
    + intros (p1 & i & Hq & Hi & Hbi & ->). cbn [pieces] in Hq. simplify_eq. rewrite <-Ht1.
      destruct (decide (i = j)) as [->|Hne]; [by rewrite Hfr in Hbi by lia|].
      split; [|lia]. exists p0, i. rewrite Ht5, Hbi by lia. rewrite Ht2. done.
    + intros [(p1 & i & Hq & Hi & Hbi & ->) Hne]. rewrite Hp in Hq. simplify_eq. exists p', i. cbn [pieces].
      rewrite Ht5 in Hbi by lia. rewrite (proj2 (in_run_false j 1 i)), orb_false_r in Hbi by lia.
      rewrite <-Ht1, <-Ht2. done.
Qed.

#[global] Instance Phys_laws : FrameLaws state := {
  fa_inv := one_region;
  fa_used := used;
  fa_left := left_frames;
  fa_left_nonneg := left_nonneg;
  fa_alloc := alloc_law;
  fa_free := free_law;
}.

End PhysFrames.
