(* ===== verification/Paging.v ===== *)
(** * Paging

    [arch/x86_64/mem/paging.cpp], once [ready] is set: the four-level page tables
    in physical memory, reached through the windows of [aim_pptr], and the
    [Pagemap] methods.  Frames come from a physical allocator with the interface
    [FrameAllocator].  The lock of a pagemap is the sequential one of [Locks]: a
    pagemap is identified by its [pageRoot], and [locked] holds the roots whose
    [m_lock] is taken. *)
From S2P Require Import Prelude Locks Math Phys Frames.
From stdpp Require Import functions.
Local Open Scope Z_scope.

Module Paging.

Definition PPTR_AMOUNT : Z := 256.
Definition MEM_PAGE_MASK : Z := 0xFFFFFFFFFFFFF000.
Definition PAGE_PRESENT : Z := 0x01.
Definition PAGE_WRITE : Z := 0x02.
Definition PAGE_USER : Z := 0x04.
Definition PAGE_NOPHYS : Z := 0x200.
Definition PAGE_EXEC : Z := 0x1000.
Definition PAGE_FIXED : Z := 0x2000.
Definition PAGE_ARBITRARY : Z := 0x4000.
(** The entry of a page mapped with [PAGE_ARBITRARY]. *)
Definition ARBITRARY : Z := 0x00AA000000000000.

Definition flag (e f : Z) : bool := negb (Z.land e f =? 0).

(** [vaddr >> shift & 0x1FF]. *)
Definition ix (shift virt_addr : Z) : Z := Z.land (Z.shiftr virt_addr shift) 0x1FF.

(** The frame an entry or an address points to: the MMU uses bits 12 to 51. *)
Definition frame_of (at_ : Z) : Z := Z.land at_ 0xFFFFFFFFFF000.

Record Pagemap := mk_pagemap { vstart : Z; vend : Z; pageRoot : Z; gflags : Z }.

(** Physical memory by frame and word, the allocator, which windows are taken,
    what they show, the pagemaps whose lock is held, and the ranges [recache]
    broadcast. *)
Record machine (A : Type) := mk_machine {
  mem : Z → Z → Z;
  phys : A;
  pptr_taken : list bool;
  window : list Z;
  locked : gset Z;
  recached : list (Z * Z);
}.
Arguments mk_machine {A}.
Arguments mem {A}. Arguments phys {A}. Arguments pptr_taken {A}. Arguments window {A}.
Arguments locked {A}. Arguments recached {A}.

Section Paging.
Context {A : Type} `{!FrameAllocator A}.

Abbreviation M := (stateM (machine A)).

Definition set_mem (m : Z → Z → Z) (s : machine A) : machine A :=
  mk_machine m (phys s) (pptr_taken s) (window s) (locked s) (recached s).
Definition set_phys (a : A) (s : machine A) : machine A :=
  mk_machine (mem s) a (pptr_taken s) (window s) (locked s) (recached s).
Definition set_pptr (t : list bool) (w : list Z) (s : machine A) : machine A :=
  mk_machine (mem s) (phys s) t w (locked s) (recached s).
Definition set_locked (l : gset Z) (s : machine A) : machine A :=
  mk_machine (mem s) (phys s) (pptr_taken s) (window s) l (recached s).
Definition set_recached (r : list (Z * Z)) (s : machine A) : machine A :=
  mk_machine (mem s) (phys s) (pptr_taken s) (window s) (locked s) r.

Definition upd_word (m : Z → Z → Z) (f i v : Z) : Z → Z → Z := <[f := <[i := v]> (m f)]> m.
(** [memset64] of the first [count] words of a frame. *)
Definition fill_words (m : Z → Z → Z) (f v count : Z) : Z → Z → Z :=
  <[f := λ i, if (0 <=? i) && (i <? count) then v else m f i]> m.

Definition Phys_alloc (amount : Z) : M Z := λ s, '(p, a) ← phys_alloc (phys s) amount; Done (p, set_phys a s).
Definition Phys_free (addr amount : Z) : M unit := λ s, a ← phys_free (phys s) addr amount; Done (tt, set_phys a s).

Definition lock_acquire (pm : Pagemap) : M unit := λ s,
  _ ← spin_acquire (bool_decide (pageRoot pm ∈ locked s)); Done (tt, set_locked ({[pageRoot pm]} ∪ locked s) s).
Definition lock_release (pm : Pagemap) : M unit := λ s,
  _ ← spin_release (bool_decide (pageRoot pm ∈ locked s)); Done (tt, set_locked (locked s ∖ {[pageRoot pm]}) s).
(** [AEX_ASSERT_PEDANTIC(!m_lock.tryAcquire())]. *)
Definition assert_locked (pm : Pagemap) : M unit := λ s,
  _ ← aex_assert (bool_decide (pageRoot pm ∈ locked s)); Done (tt, s).

(** ** Windows *)

Fixpoint first_free (l : list bool) (i : Z) : option Z :=
  match l with [] => None | b :: l => if b then first_free l (i + 1) else Some i end.

(** [alloc_pptr]: with no free window the loop gives up after 1000 tries. *)
Definition alloc_pptr : M Z := λ s,
  match first_free (pptr_taken s) 0 with
  | Some i => t ← (pptr_taken s).[i := true]; Done (i, set_pptr t (window s) s)
  | None => Panic "alloc_pptr is stuck"
  end.

Definition free_pptr (index : Z) : M unit := λ s,
  t ← (pptr_taken s).[index := false]; Done (tt, set_pptr t (window s) s).

Definition aim_pptr (index at_ : Z) : M unit := λ s,
  w ← (window s).[index := frame_of at_]; Done (tt, set_pptr (pptr_taken s) w s).

(** [table[i]] through window [index], read and written, and [memset64]. *)
Definition table_get (index i : Z) : M Z := λ s, f ← (window s).[index]; Done (mem s f i, s).
Definition table_set (index i v : Z) : M unit := λ s,
  f ← (window s).[index]; Done (tt, set_mem (upd_word (mem s) f i v) s).
Definition table_fill (index v count : Z) : M unit := λ s,
  f ← (window s).[index]; Done (tt, set_mem (fill_words (mem s) f v count) s).

(** ** Walking the tables *)

(** [inr tt] when the window shows the page table of [virt_addr]; [inl n] is
    [nullptr], with [n] added to [*skip_by]. *)
Definition find_table (root pptr virt_addr : Z) : M (Z + unit) :=
  aim_pptr pptr root;;
  e ← table_get pptr (ix 39 virt_addr);
  if e =? 0 then mret (inl 0x8000000000)
  else
    aim_pptr pptr (Z.land e MEM_PAGE_MASK);;
    e ← table_get pptr (ix 30 virt_addr);
    if e =? 0 then mret (inl 0x40000000)
    else
      aim_pptr pptr (Z.land e MEM_PAGE_MASK);;
      e ← table_get pptr (ix 21 virt_addr);
      if e =? 0 then mret (inl 0x200000)
      else aim_pptr pptr (Z.land e MEM_PAGE_MASK);; mret (inr tt).

Definition findTable (pm : Pagemap) (pptr virt_addr : Z) : M (Z + unit) := find_table (pageRoot pm) pptr virt_addr.

(** One turn of [findTableEnsure]. *)
Definition ensure_level (pptr virt_addr index_shift : Z) : M unit :=
  let index := ix index_shift virt_addr in
  e ← table_get pptr index;
  (if negb (flag e PAGE_PRESENT) then p ← Phys_alloc PAGE_SIZE; table_set pptr index p else mret tt);;
  e' ← table_get pptr index;
  table_set pptr index (Z.lor e' (Z.lor (Z.lor PAGE_USER PAGE_WRITE) PAGE_PRESENT));;
  e' ← table_get pptr index;
  aim_pptr pptr (Z.land e' MEM_PAGE_MASK);;
  when (negb (flag e PAGE_PRESENT)) (table_fill pptr 0 512).

Definition findTableEnsure (pm : Pagemap) (pptr virt_addr : Z) : M unit :=
  aim_pptr pptr (pageRoot pm);;
  ensure_level pptr virt_addr 39;;
  ensure_level pptr virt_addr 30;;
  ensure_level pptr virt_addr 21.

Definition assign (pm : Pagemap) (pptr virt phys flags : Z) : M unit :=
  assert_locked pm;;
  let vaddr := Z.land virt MEM_PAGE_MASK in
  let paddr := Z.land phys MEM_PAGE_MASK in
  findTableEnsure pm pptr vaddr;;
  table_set pptr (ix 12 vaddr) (Z.lor paddr flags).

Definition unassign (pm : Pagemap) (pptr virt : Z) : M Z :=
  lift (aex_assert (virt >=? vstart pm));;
  lift (aex_assert (virt <=? vend pm));;
  assert_locked pm;;
  let vaddr := Z.land virt MEM_PAGE_MASK in
  findTableEnsure pm pptr vaddr;;
  e ← table_get pptr (ix 12 vaddr);
  if flag e PAGE_NOPHYS then table_set pptr (ix 12 vaddr) 0;; mret 0
  else table_set pptr (ix 12 vaddr) 0;; mret (Z.land e MEM_PAGE_MASK).

Definition recache (virt bytes : Z) : M unit :=
  modify (λ s, set_recached (recached s ++ [(virt, u32 (u32 (u32 bytes + (PAGE_SIZE - 1)) / PAGE_SIZE))]) s).

(** [table[index]] of [findTable(addr & ~0xFFF)], 0 without a table. *)
Definition rawof_internal (pm : Pagemap) (pptr addr : Z) : M Z :=
  t ← findTable pm pptr (Z.land addr MEM_PAGE_MASK);
  match t with inl _ => mret 0 | inr _ => table_get pptr (ix 12 addr) end.

Definition paddrof_internal (pm : Pagemap) (pptr addr : Z) : M Z :=
  t ← findTable pm pptr (Z.land addr MEM_PAGE_MASK);
  match t with
  | inl _ => mret 0
  | inr _ =>
      e ← table_get pptr (ix 12 addr);
      if Z.land e MEM_PAGE_MASK =? 0 then mret 0
      else mret (u64 (Z.land e MEM_PAGE_MASK + Z.land addr 0xFFF))
  end.

Definition paddrof (pm : Pagemap) (addr : Z) : M Z :=
  pptr ← alloc_pptr;
  lock_acquire pm;;
  paddr ← paddrof_internal pm pptr addr;
  lock_release pm;;
  free_pptr pptr;;
  mret paddr.

(** [rawof]: the acquire is commented out, the release of the early return is
    not. *)
Definition rawof (pm : Pagemap) (addr : Z) : M Z :=
  pptr ← alloc_pptr;
  t ← findTable pm pptr (Z.land addr MEM_PAGE_MASK);
  match t with
  | inl _ => lock_release pm;; free_pptr pptr;; mret 0
  | inr _ => boi ← table_get pptr (ix 12 addr); free_pptr pptr;; mret boi
  end.

(** ** The search for unmapped pages *)

(** [index], [vaddr], [combo] and [start]. *)
Record cursor := mk_cursor { c_index : Z; c_vaddr : Z; c_combo : Z; c_start : Z }.

(** One turn of [while (vaddr < m_vend)]: [inr] is the return. *)
Definition contiguous_turn (pm : Pagemap) (pptr amount m_vend : Z) (c : cursor) : M (cursor + Z) :=
  if c_vaddr c <? m_vend then
    t ← (if c_index c >=? 512 then findTable pm pptr (c_vaddr c) else mret (inr tt));
    match t with
    | inl _ =>
        let combo := u64 (c_combo c + 512) in
        if combo >=? amount then mret (inr (c_start c))
        else mret (inl (mk_cursor 512 (u64 (c_vaddr c + PAGE_SIZE * 512)) combo (c_start c)))
    | inr _ =>
        let index := if c_index c >=? 512 then 0 else c_index c in
        e ← table_get pptr index;
        let vaddr := u64 (c_vaddr c + PAGE_SIZE) in
        if negb (e =? 0) then mret (inl (mk_cursor (index + 1) vaddr 0 vaddr))
        else
          let combo := u64 (c_combo c + 1) in
          if combo >=? amount then mret (inr (c_start c))
          else mret (inl (mk_cursor (index + 1) vaddr combo (c_start c)))
    end
  else mret (inr 0).

(** Every turn moves [vaddr] by at least a page, and there are [2 ^ 52] pages. *)
Definition contiguous_fuel : positive := 4503599627370497.

Definition contiguous_start (pm : Pagemap) (executable : bool) : Z :=
  if executable then
    if vstart pm =? 0xFFFF800000000000 then 0xFFFFFFFF80000000
    else if vend pm =? 0x00007FFFFFFFFFFF then 0x00007FFF80000000
    else vstart pm
  else vstart pm.

Definition findContiguous (pm : Pagemap) (pptr amount : Z) (executable : bool) : M Z :=
  if amount =? 0 then mret 0
  else
    let m_vstart := contiguous_start pm executable in
    t ← findTable pm pptr m_vstart;
    match t with inl _ => findTableEnsure pm pptr m_vstart | inr _ => mret tt end;;
    r ← siter contiguous_fuel (contiguous_turn pm pptr amount (vend pm)) (mk_cursor (ix 12 m_vstart) m_vstart 0 m_vstart);
    match r with inr start => mret start | inl _ => lift (Panic "findContiguous does not return") end.

(** ** The methods *)

Definition alloc_flags (pm : Pagemap) (flags : Z) : Z := Z.land (Z.lor (Z.lor flags PAGE_PRESENT) (gflags pm)) 0xFFF.

Definition find_pages (pm : Pagemap) (pptr amount flags source : Z) (executable : bool) : M Z :=
  if flag flags PAGE_FIXED then mret source else findContiguous pm pptr amount executable.

Definition alloc (pm : Pagemap) (bytes flags source : Z) : M Z :=
  if bytes =? 0 then mret 0
  else
    pptr ← alloc_pptr;
    lock_acquire pm;;
    let amount := ceiltopg_u64 bytes in
    start ← find_pages pm pptr amount flags source (flag flags PAGE_EXEC);
    if start =? 0 then lift (Panic "aa")
    else
      sfor (Z.to_nat amount) 0 (λ i,
        p ← Phys_alloc PAGE_SIZE;
        aim_pptr pptr p;; table_fill pptr 0 512;;
        assign pm pptr (u64 (start + i * PAGE_SIZE)) p (alloc_flags pm flags));;
      recache start bytes;;
      lock_release pm;;
      free_pptr pptr;;
      mret start.

Definition allocContinuous (pm : Pagemap) (bytes flags source : Z) : M Z :=
  if bytes =? 0 then mret 0
  else
    pptr ← alloc_pptr;
    lock_acquire pm;;
    let amount := ceiltopg_u64 bytes in
    start ← find_pages pm pptr amount flags source (flag flags PAGE_EXEC);
    paddr ← Phys_alloc (i32 bytes);
    sfor (Z.to_nat amount) 0 (λ i,
      let p := u64 (paddr + i * PAGE_SIZE) in
      aim_pptr pptr p;; table_fill pptr 0 512;;
      assign pm pptr (u64 (start + i * PAGE_SIZE)) p (alloc_flags pm flags));;
    recache start bytes;;
    lock_release pm;;
    free_pptr pptr;;
    mret start.

(** [map]: [amount] grows by one for an unaligned [paddr], after the search. *)
Definition map (pm : Pagemap) (bytes paddr flags source : Z) : M Z :=
  let flags := Z.lor flags (Z.lor PAGE_NOPHYS PAGE_PRESENT) in
  pptr ← alloc_pptr;
  lock_acquire pm;;
  let amount := ceiltopg_u64 bytes in
  start ← find_pages pm pptr amount flags source false;
  let offset := Z.land paddr 0xFFF in
  let amount := if offset >? 0 then amount + 1 else amount in
  let arbitrary := flag flags PAGE_ARBITRARY in
  let flags := if arbitrary then Z.land flags (Z.lnot PAGE_PRESENT) else flags in
  let flags := Z.land (u16 (Z.lor flags (gflags pm))) 0x0FFF in
  sfor (Z.to_nat amount) 0 (λ i,
    assign pm pptr (u64 (start + i * PAGE_SIZE))
      (if arbitrary then ARBITRARY else u64 (paddr + i * PAGE_SIZE - offset)) flags);;
  recache start (u64 (bytes + (if offset =? 0 then 0 else PAGE_SIZE)));;
  lock_release pm;;
  free_pptr pptr;;
  mret (u64 (start + offset)).

(** [free_phys] of [free]: the frames collected so far go back. *)
Fixpoint free_frames (l : list Z) : M unit :=
  match l with [] => mret tt | a :: l => Phys_free a PAGE_SIZE;; free_frames l end.

(** The loop of [free] over [n] pages from [vaddr] on, with the frames in
    [free_buff]. *)
Fixpoint free_loop (pm : Pagemap) (pptr addr bytes : Z) (n : nat) (vaddr : Z) (buff : list Z) : M (list Z) :=
  match n with
  | O => mret buff
  | S n =>
      raw ← rawof_internal pm pptr vaddr;
      when (negb (raw =? 0) && negb (Z.land raw MEM_PAGE_MASK =? ARBITRARY) && negb (flag raw PAGE_NOPHYS))
        (aim_pptr pptr (Z.land raw MEM_PAGE_MASK);; table_fill pptr 0x5A 512);;
      a ← unassign pm pptr vaddr;
      let next := u64 (vaddr + PAGE_SIZE) in
      if a =? 0 then free_loop pm pptr addr bytes n next buff
      else
        let buff := buff ++ [a] in
        if Z.of_nat (length buff) =? 256 then
          free_frames buff;; recache addr bytes;; free_loop pm pptr addr bytes n next []
        else free_loop pm pptr addr bytes n next buff
  end.

Definition free (pm : Pagemap) (addr bytes : Z) : M unit :=
  pptr ← alloc_pptr;
  lock_acquire pm;;
  buff ← free_loop pm pptr addr bytes (Z.to_nat (ceiltopg_u64 bytes)) addr [];
  free_frames buff;; recache addr bytes;;
  lock_release pm;;
  free_pptr pptr.

(** ** Pagemaps *)

(** [memcpy(&a[from], &b[from], 8 * n)] between two windows. *)
Definition copy_words (m : Z → Z → Z) (f g from n : Z) : Z → Z → Z :=
  <[f := λ i, if (from <=? i) && (i <? from + n) then m g i else m f i]> m.
Definition table_copy (dst src from n : Z) : M unit := λ s,
  f ← (window s).[dst]; g ← (window s).[src]; Done (tt, set_mem (copy_words (mem s) f g from n) s).

(** The root table of a new pagemap: the kernel's half is shared.  The new
    pagemap's lock is taken and released on an object nobody else has yet. *)
Definition new_root (kernel_pagemap : Pagemap) : M Z :=
  pptr_a ← alloc_pptr;
  pptr_b ← alloc_pptr;
  root ← Phys_alloc 1;
  aim_pptr pptr_a root;;
  aim_pptr pptr_b (pageRoot kernel_pagemap);;
  table_fill pptr_a 0 256;;
  table_copy pptr_a pptr_b 256 256;;
  free_pptr pptr_b;;
  free_pptr pptr_a;;
  mret root.

(** The constructors.  [raw] is what the object's memory held: [Pagemap()] sets
    only [pageRoot], and [Pagemap(start, end)] leaves [gflags]. *)
Definition Pagemap_default (kernel_pagemap raw : Pagemap) : M Pagemap :=
  root ← new_root kernel_pagemap; mret (mk_pagemap (vstart raw) (vend raw) root (gflags raw)).
Definition Pagemap_rooted (rootAddr : Z) : Pagemap := mk_pagemap 0 0x00007FFFFFFFFFFF rootAddr 0.
Definition create (kernel_pagemap raw : Pagemap) (start end_ : Z) : M Pagemap :=
  root ← new_root kernel_pagemap; mret (mk_pagemap start end_ root (gflags raw)).

(** The loops of [~Pagemap], from the innermost out. *)
Definition release_page (pt i : Z) : M unit :=
  e ← table_get pt i;
  if (e =? 0) || (e =? ARBITRARY) then mret tt
  else if flag e PAGE_NOPHYS then mret tt
  else Phys_free (Z.land e MEM_PAGE_MASK) 1.

Definition release_tables (pptr next : Z) (inner : M unit) (i : Z) : M unit :=
  e ← table_get pptr i;
  if e =? 0 then mret tt
  else
    aim_pptr next e;;
    inner;;
    e ← table_get pptr i;
    Phys_free (Z.land e MEM_PAGE_MASK) 1.

Definition destroy (pm : Pagemap) : M unit :=
  pptr_a ← alloc_pptr;
  pptr_b ← alloc_pptr;
  pptr_c ← alloc_pptr;
  pptr_d ← alloc_pptr;
  lock_acquire pm;;
  aim_pptr pptr_a (pageRoot pm);;
  let first := vstart pm / 0x1000000000000 in
  let last := vend pm / 0x1000000000000 + 1 in
  sfor (Z.to_nat (last - first)) first
    (release_tables pptr_a pptr_b
      (sfor 512 0 (release_tables pptr_b pptr_c
        (sfor 512 0 (release_tables pptr_c pptr_d (sfor 512 0 (release_page pptr_d)))))));;
  Phys_free (pageRoot pm) 1;;
  lock_release pm;;
  free_pptr pptr_d;; free_pptr pptr_c;; free_pptr pptr_b;; free_pptr pptr_a.

(** One entry of a table in [fork]. *)
Definition fork_entry (tsrc tdst src dst i : Z) : M unit :=
  e ← table_get tsrc i;
  if e =? 0 then mret tt
  else if flag e PAGE_NOPHYS then table_set tdst i e
  else
    dstaddr ← Phys_alloc PAGE_SIZE;
    aim_pptr dst dstaddr;;
    aim_pptr src (Z.land e MEM_PAGE_MASK);;
    table_copy dst src 0 512;;
    table_set tdst i (Z.lor dstaddr (Z.land e 0xFFF)).

(** One turn of [while (vaddr < vend)]. *)
Definition fork_turn (pm child : Pagemap) (tsrc tdst src dst vaddr : Z) : M (Z + unit) :=
  if vaddr <? vend pm then
    t ← find_table (pageRoot pm) tsrc vaddr;
    match t with
    | inl skip => mret (inl (u64 (vaddr + skip)))
    | inr _ =>
        findTableEnsure child tdst vaddr;;
        table_fill tdst 0 512;;
        sfor 512 0 (fork_entry tsrc tdst src dst);;
        mret (inl (u64 (vaddr + 512 * PAGE_SIZE)))
    end
  else mret (inr tt).

(** Every turn moves by at least 512 pages. *)
Definition fork_fuel : positive := 8796093022209.

Definition fork (kernel_pagemap raw pm : Pagemap) : M Pagemap :=
  tsrc ← alloc_pptr;
  tdst ← alloc_pptr;
  src ← alloc_pptr;
  dst ← alloc_pptr;
  lock_acquire pm;;
  child ← create kernel_pagemap raw (vstart pm) (vend pm);
  r ← siter fork_fuel (fork_turn pm child tsrc tdst src dst) 0;
  match r with inr _ => mret tt | inl _ => lift (Panic "fork does not return") end;;
  lock_release pm;;
  free_pptr dst;; free_pptr src;; free_pptr tdst;; free_pptr tsrc;;
  mret child.

(** [cleanup]: the page table of address 0 is cleared.  Without one [find_table]
    adds to [*skip_by], a null pointer. *)
Definition cleanup (kernel_pagemap : Pagemap) : M unit :=
  pptr ← alloc_pptr;
  t ← find_table (pageRoot kernel_pagemap) pptr 0;
  match t with inl _ => lift Fault | inr _ => table_fill pptr 0 512 end;;
  free_pptr pptr.

(** [create_first_levels]. *)
Definition create_first_levels (kernel_pagemap : Pagemap) : M unit :=
  pptr ← alloc_pptr;
  pptr_s ← alloc_pptr;
  aim_pptr pptr (pageRoot kernel_pagemap);;
  sfor 256 256 (λ i,
    e ← table_get pptr i;
    if negb (e =? 0) then mret tt
    else
      p ← Phys_alloc 4096;
      table_set pptr i p;;
      e ← table_get pptr i;
      aim_pptr pptr_s e;;
      table_fill pptr_s 0 512);;
  free_pptr pptr_s;;
  free_pptr pptr.

End Paging.

End Paging.
