(* ===== verification/PagingProps.v ===== *)
(** * Paging: theorems

    The page tables as the MMU walks them, and what the [Pagemap] methods do to
    the translation.  The lemmas are proved for any allocator that keeps the laws
    of [FrameLaws]. *)
From Stdlib Require FunctionalExtensionality.
From stdpp Require Import functions.
From S2P Require Import Prelude Locks Math Phys Frames Paging.
From stdpp Require Import list.
Local Open Scope Z_scope.
Import Paging.

Module PagingProps.

(** ** The walk of the MMU *)

Definition next (m : Z → Z → Z) (t i : Z) : option Z :=
  if flag (m t i) PAGE_PRESENT then Some (frame_of (m t i)) else None.

(** The table at the end of a path of indices from table [t]. *)
Fixpoint tbl (m : Z → Z → Z) (t : Z) (p : list Z) : option Z :=
  match p with
  | [] => Some t
  | i :: p => match next m t i with Some t' => tbl m t' p | None => None end
  end.

Definition vpath (v : Z) : list Z := [ix 39 v; ix 30 v; ix 21 v].

(** The entry that translates [v], 0 without one. *)
Definition hw (m : Z → Z → Z) (root v : Z) : Z :=
  match tbl m root (vpath v) with Some t => m t (ix 12 v) | None => 0 end.

(** The number of the page of [v]: bits 12 to 47. *)
Definition vpn (v : Z) : Z := (v / 4096) mod 2 ^ 36.

Lemma page_in_run w start n :
  (∃ k, 0 ≤ k < Z.of_nat n ∧ vpn w = vpn (start + k * 4096)) ∨ (∀ k, 0 ≤ k < Z.of_nat n → vpn w ≠ vpn (start + k * 4096)).
Proof.
  induction n as [|n [(k & Hk & He)|IH]]; [right; lia|left; exists k; split; [lia|done]|].
  destruct (decide (vpn w = vpn (start + Z.of_nat n * 4096))) as [He|He]; [left; exists (Z.of_nat n); split; [lia|done]|right].
  intros k Hk. destruct (decide (k = Z.of_nat n)) as [->|]; [done|]. apply IH. lia.
Qed.

(** *** Bits *)

Lemma ix_div s v : 0 ≤ s → ix s v = (v / 2 ^ s) mod 512.
Proof.
  intros. unfold ix. change 0x1FF with (Z.ones 9). rewrite Z.land_ones, Z.shiftr_div_pow2 by lia. done.
Qed.

Lemma ix_bound s v : 0 ≤ s → 0 ≤ ix s v < 512.
Proof. intros. rewrite ix_div by done. apply Z.mod_pos_bound. lia. Qed.

Lemma vpn_ix v : vpn v = ix 12 v + 512 * ix 21 v + 512 ^ 2 * ix 30 v + 512 ^ 3 * ix 39 v.
Proof.
  rewrite !ix_div by lia. unfold vpn.
  change (2 ^ 21) with (2 ^ 12 * 512). change (2 ^ 30) with (2 ^ 12 * 512 * 512). change (2 ^ 39) with (2 ^ 12 * 512 * 512 * 512).
  rewrite <-!Z.div_div by lia. change (2 ^ 12) with 4096. generalize (v / 4096) as n. intros n.
  change (2 ^ 36) with 68719476736. change (512 ^ 2) with 262144. change (512 ^ 3) with 134217728.
  Z.to_euclidean_division_equations. lia.
Qed.

(** The pages of one page table. *)
Lemma page_step v j : 0 ≤ j → ix 12 v + j < 512 → vpath (v + j * 4096) = vpath v ∧ ix 12 (v + j * 4096) = ix 12 v + j.
Proof.
  intros Hj Hb. unfold vpath. rewrite !ix_div in * by lia.
  change (2 ^ 21) with (2 ^ 12 * 512). change (2 ^ 30) with (2 ^ 12 * 512 * 512). change (2 ^ 39) with (2 ^ 12 * 512 * 512 * 512).
  change (2 ^ 12) with 4096 in *. rewrite <-!Z.div_div, Z.div_add by lia. revert Hb. generalize (v / 4096) as n. intros n Hb.
  replace ((n + j) / 512) with (n / 512) by (Z.to_euclidean_division_equations; lia).
  split; [done|]. Z.to_euclidean_division_equations. lia.
Qed.

Lemma page_wrap v j : 0 ≤ j → ix 12 v + j = 512 → ix 12 (v + j * 4096) = 0.
Proof.
  intros Hj Hb. rewrite !ix_div in * by lia. change (2 ^ 12) with 4096 in *. rewrite Z.div_add by lia.
  Z.to_euclidean_division_equations. lia.
Qed.

Lemma same_page v w : vpath v = vpath w ∧ ix 12 v = ix 12 w ↔ vpn v = vpn w.
Proof.
  rewrite !vpn_ix. unfold vpath.
  pose proof (ix_bound 12 v ltac:(lia)). pose proof (ix_bound 21 v ltac:(lia)). pose proof (ix_bound 30 v ltac:(lia)). pose proof (ix_bound 39 v ltac:(lia)).
  pose proof (ix_bound 12 w ltac:(lia)). pose proof (ix_bound 21 w ltac:(lia)). pose proof (ix_bound 30 w ltac:(lia)). pose proof (ix_bound 39 w ltac:(lia)).
  change (512 ^ 2) with 262144. change (512 ^ 3) with 134217728. split.
  - intros [[= -> -> ->] ->]. done.
  - intros He. assert (ix 39 v = ix 39 w) by lia. assert (ix 30 v = ix 30 w) by lia. assert (ix 21 v = ix 21 w) by lia.
    assert (ix 12 v = ix 12 w) by lia. split; congruence.
Qed.

Lemma vpn_distinct v j k : 0 ≤ j < 2 ^ 36 → 0 ≤ k < 2 ^ 36 → vpn (v + j * 4096) = vpn (v + k * 4096) → j = k.
Proof.
  intros Hj Hk. unfold vpn. rewrite !Z.div_add by lia. change (2 ^ 36) with 68719476736 in *.
  Z.to_euclidean_division_equations. lia.
Qed.

Lemma mask_testbit k : 0 ≤ k → Z.testbit MEM_PAGE_MASK k = (12 <=? k) && (k <? 64).
Proof.
  intros. change MEM_PAGE_MASK with (Z.shiftl (Z.ones 52) 12). rewrite Z.shiftl_spec by lia.
  destruct (decide (k < 12)); [rewrite Z.testbit_neg_r by lia; lia|]. rewrite Z.testbit_ones_nonneg by lia. lia.
Qed.

Lemma frame_testbit k : 0 ≤ k → Z.testbit 0xFFFFFFFFFF000 k = (12 <=? k) && (k <? 52).
Proof.
  intros. change 0xFFFFFFFFFF000 with (Z.shiftl (Z.ones 40) 12). rewrite Z.shiftl_spec by lia.
  destruct (decide (k < 12)); [rewrite Z.testbit_neg_r by lia; lia|]. rewrite Z.testbit_ones_nonneg by lia. lia.
Qed.

(** Equality of masked words, bit by bit. *)
Ltac bitwise k :=
  apply Z.bits_inj'; intros k ?;
  repeat first [rewrite Z.land_spec | rewrite Z.lor_spec | rewrite mask_testbit by lia | rewrite frame_testbit by lia].

Lemma frame_of_mask e : frame_of (Z.land e MEM_PAGE_MASK) = frame_of e.
Proof.
  unfold frame_of. bitwise k. destruct (Z.leb_spec 12 k), (Z.ltb_spec k 52), (Z.ltb_spec k 64); rewrite ?andb_true_r, ?andb_false_r; lia || done.
Qed.

Lemma ix_mask shift v : 12 ≤ shift ≤ 39 → ix shift (Z.land v MEM_PAGE_MASK) = ix shift v.
Proof.
  intros. unfold ix. change 0x1FF with (Z.ones 9). apply Z.bits_inj'. intros k Hk. rewrite !Z.land_spec.
  destruct (decide (k < 9)); [|rewrite Z.ones_spec_high, !andb_false_r by lia; done].
  rewrite !Z.shiftr_spec, Z.land_spec, mask_testbit by lia.
  replace ((12 <=? k + shift) && (k + shift <? 64)) with true by lia. by rewrite andb_true_r.
Qed.

Lemma vpath_mask v : vpath (Z.land v MEM_PAGE_MASK) = vpath v.
Proof. unfold vpath. by rewrite !ix_mask by lia. Qed.

Lemma low_testbit f k : 0 ≤ f < 4096 → 12 ≤ k → Z.testbit f k = false.
Proof. intros. apply (high_bits 12); lia. Qed.

Lemma frame_of_lor e f : 0 ≤ f < 4096 → frame_of (Z.lor e f) = frame_of e.
Proof.
  intros. unfold frame_of. bitwise k. destruct (Z.leb_spec 12 k); [|by rewrite !andb_false_r].
  by rewrite (low_testbit f), orb_false_r by lia.
Qed.

Lemma frame_bits p k : is_frame p → 0 ≤ k < 12 → Z.testbit p k = false.
Proof.
  intros [_ Hm] Hk. rewrite <-(Z.mod_pow2_bits_low p 12 k) by lia. change (2 ^ 12) with 4096. by rewrite Hm, Z.bits_0.
Qed.

Lemma frame_of_frame p : is_frame p → frame_of p = p.
Proof.
  intros Hp. pose proof Hp as [Hb _]. unfold frame_of. bitwise k.
  destruct (Z.leb_spec 12 k); [|by rewrite (frame_bits p k Hp) by lia].
  destruct (Z.ltb_spec k 52); [by rewrite andb_true_r|]. by rewrite (high_bits 52 p k) by lia.
Qed.

Lemma mask_frame p : is_frame p → Z.land p MEM_PAGE_MASK = p.
Proof.
  intros Hp. pose proof Hp as [Hb _]. bitwise k.
  destruct (Z.leb_spec 12 k); [|by rewrite (frame_bits p k Hp) by lia].
  destruct (Z.ltb_spec k 64); [by rewrite andb_true_r|]. by rewrite (high_bits 52 p k) by lia.
Qed.

Lemma flag_bit e k : 0 ≤ k → flag e (2 ^ k) = Z.testbit e k.
Proof.
  intros. unfold flag. destruct (Z.eqb_spec (Z.land e (2 ^ k)) 0) as [He|He]; simpl.
  - assert (Hb : Z.testbit (Z.land e (2 ^ k)) k = false) by (by rewrite He, Z.bits_0).
    rewrite Z.land_spec, Z.pow2_bits_true, andb_true_r in Hb by done. done.
  - destruct (Z.testbit e k) eqn:E; [done|]. exfalso. apply He. apply Z.bits_inj'. intros i Hi.
    rewrite Z.land_spec, Z.bits_0, Z.pow2_bits_eqb by done. destruct (Z.eqb_spec k i) as [<-|]; [by rewrite E|by rewrite andb_false_r].
Qed.

Lemma present_bit e : flag e PAGE_PRESENT = Z.testbit e 0.
Proof. apply (flag_bit e 0). done. Qed.

Lemma mask_entry p fl : is_frame p → 0 ≤ fl < 4096 → Z.land (Z.lor p fl) MEM_PAGE_MASK = p.
Proof.
  intros Hp Hfl. rewrite <-(mask_frame p Hp) at 2. bitwise k. destruct (Z.leb_spec 12 k); [|by rewrite !andb_false_r].
  by rewrite (low_testbit fl), orb_false_r by lia.
Qed.

Lemma nophys_entry p fl : is_frame p → flag (Z.lor p fl) PAGE_NOPHYS = flag fl PAGE_NOPHYS.
Proof.
  intros Hp. change PAGE_NOPHYS with (2 ^ 9). rewrite !flag_bit, Z.lor_spec by lia. by rewrite (frame_bits p 9 Hp) by lia.
Qed.

Lemma entry_nonzero p fl : is_frame p → Z.lor p fl ≠ 0.
Proof. intros [Hp _] [-> _]%Z.lor_eq_0_iff. lia. Qed.

Lemma present_lor e : flag (Z.lor e 7) PAGE_PRESENT = true.
Proof. rewrite present_bit, Z.lor_spec. apply orb_true_r. Qed.

Lemma hw_page m root v w : vpn v = vpn w → hw m root v = hw m root w.
Proof. intros [Hp Hi]%same_page. unfold hw. by rewrite Hp, Hi. Qed.

(** ** The tree of tables *)

Definition path (p : list Z) : Prop := Forall (λ i, 0 ≤ i < 512) p ∧ (length p ≤ 3)%nat.

Definition is_table (m : Z → Z → Z) (root t : Z) : Prop := ∃ p, path p ∧ tbl m root p = Some t.

(** A frame in use that is no table and holds zeroes: what an entry of an upper
    table may show when it is set without [PAGE_PRESENT]. *)
Definition stub (used : Z → Prop) (m : Z → Z → Z) (root q : Z) : Prop :=
  used q ∧ ¬ is_table m root q ∧ ∀ j, 0 ≤ j < 512 → m q j = 0.

(** The frame an entry of an upper table shows without being present. *)
Definition stubbed (m : Z → Z → Z) (root q : Z) : Prop :=
  ∃ p t i, path (p ++ [i]) ∧ tbl m root p = Some t ∧ m t i ≠ 0 ∧ flag (m t i) PAGE_PRESENT = false ∧ frame_of (m t i) = q.

(** What a walk reads. *)
Definition reached (m : Z → Z → Z) (root q : Z) : Prop := is_table m root q ∨ stubbed m root q.

(** Every table the MMU can reach is a frame in use, no two paths lead to the
    same table, and an entry of an upper table is 0, present, or shows a stub. *)
Definition tree (used : Z → Prop) (m : Z → Z → Z) (root : Z) : Prop :=
  (∀ p t, path p → tbl m root p = Some t → used t) ∧
  (∀ p q t, path p → path q → tbl m root p = Some t → tbl m root q = Some t → p = q) ∧
  (∀ q, stubbed m root q → stub used m root q).

Lemma tree_mono used used' m root : (∀ q, used q → used' q) → tree used m root → tree used' m root.
Proof.
  intros Hu (H1 & H2 & H3). split; [intros p t Hp Ht; by eapply Hu, H1|]. split; [done|].
  intros q Hq. destruct (H3 q Hq) as (? & ? & ?). split; [by apply Hu|done].
Qed.

(** Memory that changed only where no table and no stub is. *)
Lemma stub_agree used m m' root q :
  (∀ p, path p → tbl m' root p = tbl m root p) → (∀ j, m' q j = m q j) → stub used m root q → stub used m' root q.
Proof.
  intros Ht Hq (Hu & Hn & Hz). split; [done|]. split; [|intros j Hj; rewrite Hq; by apply Hz].
  intros (p & Hp & Hpt). apply Hn. exists p. rewrite Ht in Hpt by done. done.
Qed.

Lemma vpath_path v : path (vpath v).
Proof. split; [|done]. repeat constructor; apply ix_bound; lia. Qed.

Lemma path_prefix p q : path (p ++ q) → path p.
Proof. intros [Hf Hl]. apply Forall_app in Hf as [? _]. rewrite length_app in Hl. split; [done|lia]. Qed.

Lemma tbl_app m t p q : tbl m t (p ++ q) = match tbl m t p with Some t' => tbl m t' q | None => None end.
Proof. revert t. induction p as [|i p IH]; intros t; [done|]. simpl. destruct (next m t i); [apply IH|done]. Qed.

(** A walk depends only on the entries it passes. *)
Lemma tbl_agree m m' t p :
  (∀ q t' i r, p = q ++ i :: r → tbl m t q = Some t' → next m' t' i = next m t' i) → tbl m' t p = tbl m t p.
Proof.
  revert t. induction p as [|i p IH]; intros t H; [done|]. simpl.
  rewrite (H [] t i p) by done. destruct (next m t i) as [t'|] eqn:E; [|done].
  apply IH. intros q t'' j r -> Hq. apply (H (i :: q) t'' j r); [done|]. simpl. by rewrite E.
Qed.

Lemma upd_word_eq m f i v : upd_word m f i v f i = v.
Proof. unfold upd_word. by rewrite !fn_lookup_insert. Qed.
Lemma upd_word_ne m f i v f' i' : f' ≠ f ∨ i' ≠ i → upd_word m f i v f' i' = m f' i'.
Proof.
  intros Hne. unfold upd_word. destruct (decide (f' = f)) as [->|].
  - rewrite fn_lookup_insert. destruct Hne; [done|]. by rewrite fn_lookup_insert_ne.
  - by rewrite fn_lookup_insert_ne.
Qed.
Lemma upd_word_twice m f i v v' : upd_word (upd_word m f i v) f i v' = upd_word m f i v'.
Proof.
  apply FunctionalExtensionality.functional_extensionality. intros g.
  apply FunctionalExtensionality.functional_extensionality. intros j. destruct (decide (g = f ∧ j = i)) as [[-> ->]|Hne]; [by rewrite !upd_word_eq|].
  rewrite !upd_word_ne by (destruct (decide (g = f)); [right|left]; naive_solver). done.
Qed.
Lemma fill_words_in m f v n i : 0 ≤ i < n → fill_words m f v n f i = v.
Proof. intros. unfold fill_words. rewrite fn_lookup_insert. by destruct (Z.leb_spec 0 i), (Z.ltb_spec i n); try lia. Qed.
Lemma fill_words_ne m f v n f' i : f' ≠ f → fill_words m f v n f' i = m f' i.
Proof. intros. unfold fill_words. by rewrite fn_lookup_insert_ne. Qed.

Lemma walk_path_split p P I : path p → (∃ r, p = P ++ I :: r) ∨ (∀ r, p ≠ P ++ I :: r).
Proof.
  intros _. destruct (decide ((P ++ [I]) `prefix_of` p)) as [[r ->]|Hn].
  - left. exists r. by rewrite <-app_assoc.
  - right. intros r ->. apply Hn. exists r. by rewrite <-app_assoc.
Qed.

Section Tree.
Context (used : Z → Prop) (m : Z → Z → Z) (root : Z) (P : list Z) (T I : Z).
Hypothesis Htree : tree used m root.
Hypothesis HP : path (P ++ [I]).
Hypothesis HT : tbl m root P = Some T.

(** A leaf table is not on the way. *)
Lemma leaf_not_inner v t : tbl m root (vpath v) = Some t → t ≠ T.
Proof.
  intros Ht ->. destruct Htree as (_ & Hinj & _). pose proof (path_prefix _ _ HP).
  assert (Hv : vpath v = P) by (by apply (Hinj _ _ T); [apply vpath_path|..]).
  destruct HP as [_ Hl]. rewrite length_app, <-Hv in Hl. simpl in Hl. lia.
Qed.

(** Adding flags to a present entry. *)
Lemma add_flags :
  flag (m T I) PAGE_PRESENT = true →
  let m' := upd_word m T I (Z.lor (m T I) 7) in
  (∀ p, tbl m' root p = tbl m root p) ∧ tree used m' root ∧ (∀ v, hw m' root v = hw m root v) ∧
  tbl m' root (P ++ [I]) = Some (frame_of (m T I)) ∧ (∀ q, stubbed m' root q → stubbed m root q).
Proof.
  intros Hpr m'. assert (Hnext : ∀ t i, next m' t i = next m t i).
  { intros t i. unfold next, m'. destruct (decide (t = T ∧ i = I)) as [[-> ->]|Hne].
    - rewrite upd_word_eq, present_lor, Hpr. by rewrite frame_of_lor by lia.
    - rewrite upd_word_ne by (destruct (decide (t = T)); [right|left]; naive_solver). done. }
  assert (Htbl : ∀ p, tbl m' root p = tbl m root p) by (intros p; apply tbl_agree; intros; apply Hnext).
  assert (Hback : ∀ q, stubbed m' root q → stubbed m root q).
  { intros q (p & t & i & Hp & Ht & Hne & Hf & Hq). exists p, t, i. rewrite Htbl in Ht. split; [done|]. split; [done|].
    destruct (decide (t = T ∧ i = I)) as [[-> ->]|Hti]; [unfold m' in Hf; by rewrite upd_word_eq, present_lor in Hf|].
    unfold m' in Hne, Hf, Hq. by rewrite upd_word_ne in Hne, Hf, Hq by (destruct (decide (t = T)); [right|left]; naive_solver). }
  split; [done|]. split; [|split; [|split; [|done]]].
  - destruct Htree as (Hu & Hinj & Hstub). split; [intros p t Hp Ht; rewrite Htbl in Ht; by eapply Hu|].
    split; [intros p q t Hp Hq Hpt Hqt; rewrite Htbl in Hpt, Hqt; by eapply Hinj|].
    intros q Hq. pose proof (Hstub q (Hback q Hq)) as Hs. eapply stub_agree; [by intros; apply Htbl| |done].
    intros j. apply upd_word_ne. left. intros He. destruct Hs as (_ & Hs & _). apply Hs. exists P. rewrite He.
    split; [by eapply path_prefix|done].
  - intros v. unfold hw. rewrite Htbl. destruct (tbl m root (vpath v)) as [t|] eqn:E; [|done].
    apply upd_word_ne. left. by eapply leaf_not_inner.
  - rewrite Htbl, tbl_app, HT. simpl. unfold next. by rewrite Hpr.
Qed.

(** Hanging a fresh zeroed table into a missing entry. *)
Context (f : Z).
Hypothesis Hf : is_frame f.
Hypothesis Hfresh : ¬ used f.
Hypothesis Hnp : flag (m T I) PAGE_PRESENT = false.

Definition hung : Z → Z → Z := fill_words (upd_word m T I (Z.lor f 7)) f 0 512.

Lemma inner_used : used T.
Proof. destruct Htree as (Hu & _). apply (Hu P); [by eapply path_prefix|done]. Qed.

Lemma hung_other p : path p → (∀ r, p ≠ P ++ I :: r) → tbl hung root p = tbl m root p.
Proof.
  intros Hp Hno. apply tbl_agree. intros q t i r -> Hq.
  assert (Hpq : path q) by (by eapply path_prefix). destruct Htree as (Hu & Hinj & _).
  assert (t ≠ f) by (intros ->; apply Hfresh; by eapply Hu). unfold next, hung. rewrite !fill_words_ne by done.
  rewrite upd_word_ne; [done|]. destruct (decide (t = T)) as [->|]; [|by left]. right. intros ->.
  apply (Hno r). f_equal. by apply (Hinj _ _ T); [|eapply path_prefix|..].
Qed.

Lemma hung_new r : path (P ++ I :: r) → tbl hung root (P ++ I :: r) = match r with [] => Some f | _ => None end.
Proof.
  intros Hp. rewrite tbl_app, hung_other, HT.
  - simpl. assert (T ≠ f) by (intros He; apply Hfresh; rewrite <-He; apply inner_used).
    assert (Hn : next hung T I = Some f)
      by (unfold next, hung; rewrite !fill_words_ne, !upd_word_eq, present_lor by done; by rewrite frame_of_lor, frame_of_frame by (done || lia)).
    rewrite Hn.
    destruct r as [|i r]; [done|]. simpl. unfold next, hung. destruct Hp as [Hp _].
    apply Forall_app in Hp as [_ Hp]. apply Forall_cons_1 in Hp as [_ Hp]. apply Forall_cons_1 in Hp as [Hi _].
    by rewrite fill_words_in.
  - by eapply path_prefix.
  - intros r' He%(f_equal length). rewrite length_app in He. simpl in He. lia.
Qed.

Lemma hang_table :
  tree (λ q, q = f ∨ used q) hung root ∧ (∀ v, hw hung root v = hw m root v) ∧
  tbl hung root (P ++ [I]) = Some f ∧ (∀ p t, path p → tbl m root p = Some t → tbl hung root p = Some t) ∧
  (∀ p t, path p → tbl hung root p = Some t → t = f ∨ tbl m root p = Some t) ∧
  (∀ q, stubbed hung root q → stubbed m root q).
Proof.
  assert (Hold : ∀ r, tbl m root (P ++ I :: r) = None) by (intros r; rewrite tbl_app, HT; simpl; unfold next; by rewrite Hnp).
  assert (Hcase : ∀ p t, path p → tbl hung root p = Some t →
            (p = P ++ [I] ∧ t = f) ∨ (tbl m root p = Some t ∧ used t ∧ ∀ r, p ≠ P ++ I :: r)).
  { intros p t Hp Ht. destruct (walk_path_split p P I Hp) as [[r ->]|Hno].
    - rewrite hung_new in Ht by done. destruct r; [by simplify_eq; left|done].
    - right. rewrite hung_other in Ht by done. split_and!; [done| |done]. by eapply (proj1 Htree). }
  pose proof Htree as (_ & Hinj & Hstub).
  assert (Hst : ∀ q, stubbed hung root q → stubbed m root q).
  { intros q (p & t & i & Hp & Ht & Hne & Hpr & Hq). destruct (Hcase p t (path_prefix _ _ Hp) Ht) as [[-> ->]|(Htm & Htu & _)].
    - exfalso. apply Hne. unfold hung. rewrite fill_words_in; [done|]. destruct Hp as [Hp _]. apply Forall_app in Hp as [_ Hp].
      apply Forall_cons_1 in Hp as [? _]. lia.
    - exists p, t, i. split; [done|]. split; [done|]. assert (t ≠ f) by congruence.
      unfold hung in Hne, Hpr, Hq. rewrite !fill_words_ne in Hne, Hpr, Hq by done.
      destruct (decide (t = T ∧ i = I)) as [[-> ->]|Hti]; [by rewrite upd_word_eq, present_lor in Hpr|].
      by rewrite upd_word_ne in Hne, Hpr, Hq by (destruct (decide (t = T)); [right|left]; naive_solver). }
  split_and!; [| | | | |exact Hst].
  - split; [|split].
    + intros p t Hp Ht. destruct (Hcase p t Hp Ht) as [[_ ->]|(_ & Hu & _)]; [by left|by right].
    + intros p q t Hp Hq Hpt Hqt.
      destruct (Hcase p t Hp Hpt) as [[-> ->]|(Hpm & Hpu & _)], (Hcase q _ Hq Hqt) as [[-> Hqf]|(Hqm & Hqu & _)];
        [done|done|congruence|by eapply Hinj].
    + intros q Hq. destruct (Hstub q (Hst q Hq)) as (Hsu & Hsn & Hsz). assert (q ≠ f) by congruence.
      split; [by right|]. split.
      * intros (p' & Hp' & Ht'). destruct (Hcase p' _ Hp' Ht') as [[_ ?]|(? & _)]; [done|]. apply Hsn. by exists p'.
      * intros j Hj. unfold hung. rewrite fill_words_ne, upd_word_ne; [by apply Hsz| |done]. left. intros He.
        apply Hsn. exists P. rewrite <-He in HT. split; [by eapply path_prefix|congruence].
  - intros v. unfold hw. destruct (walk_path_split (vpath v) P I (vpath_path v)) as [[r Hr]|Hno].
    + rewrite Hr, Hold, hung_new by (rewrite <-Hr; apply vpath_path). destruct r; [|done].
      unfold hung. by rewrite fill_words_in by (apply ix_bound; lia).
    + rewrite hung_other by (done || apply vpath_path). destruct (tbl m root (vpath v)) as [t|] eqn:E; [|done].
      assert (t ≠ f) by (intros ->; apply Hfresh; eapply (proj1 Htree); [apply vpath_path|done]).
      unfold hung. rewrite fill_words_ne by done. apply upd_word_ne. left. by eapply leaf_not_inner.
  - by apply (hung_new []).
  - intros p t Hp Ht. destruct (walk_path_split p P I Hp) as [[r ->]|Hno]; [by rewrite Hold in Ht|]. by rewrite hung_other.
  - intros p t Hp Ht. destruct (Hcase p t Hp Ht) as [[_ ->]|(? & _ & _)]; [by left|by right].
Qed.

End Tree.

Lemma unused_unreached used m root f : tree used m root → ¬ used f → ¬ reached m root f.
Proof.
  intros (Hu & _ & Hstub) Hf [(p & Hp & Ht)|Hs]; [by apply Hf, (Hu p)|]. by destruct (Hstub f Hs).
Qed.

(** Filling a frame no walk reads. *)
Lemma tree_fill used m root f v n :
  tree used m root → ¬ reached m root f → let m' := fill_words m f v n in
  (∀ p, path p → tbl m' root p = tbl m root p) ∧ tree used m' root ∧ (∀ w, hw m' root w = hw m root w) ∧
  (∀ q, stubbed m' root q → stubbed m root q).
Proof.
  intros (Hu & Hinj & Hstub) Hf m'.
  assert (Hnt : ∀ p t, path p → tbl m root p = Some t → t ≠ f) by (intros p t Hp Ht ->; apply Hf; left; by exists p).
  assert (Htbl : ∀ p, path p → tbl m' root p = tbl m root p).
  { intros p Hp. apply tbl_agree. intros q t i r -> Hq. unfold next, m'. rewrite fill_words_ne; [done|].
    eapply Hnt, Hq. by eapply path_prefix. }
  assert (Hst : ∀ q, stubbed m' root q → stubbed m root q).
  { intros q (p & t & i & Hp & Ht & Hne & Hpr & Hq). rewrite Htbl in Ht by (by eapply path_prefix). exists p, t, i.
    assert (t ≠ f) by (eapply Hnt, Ht; by eapply path_prefix).
    unfold m' in Hne, Hpr, Hq. by rewrite !fill_words_ne in Hne, Hpr, Hq by done. }
  split; [done|]. split; [split; [|split]|split; [|exact Hst]].
  - intros p t Hp Ht. rewrite Htbl in Ht by done. by eapply Hu.
  - intros p q t Hp Hq Hpt Hqt. rewrite Htbl in Hpt, Hqt by done. by eapply Hinj.
  - intros q Hq. eapply stub_agree; [done| |exact (Hstub q (Hst q Hq))]. intros j. apply fill_words_ne.
    intros ->. apply Hf. right. by apply Hst.
  - intros w. unfold hw. rewrite Htbl by apply vpath_path. destruct (tbl m root (vpath w)) as [t|] eqn:E; [|done].
    apply fill_words_ne. eapply Hnt, E. apply vpath_path.
Qed.

(** A frame no walk reads may go. *)
Lemma tree_drop used m root f : tree used m root → ¬ reached m root f → tree (λ q, used q ∧ q ≠ f) m root.
Proof.
  intros (Hu & Hinj & Hstub) Hf. split; [|split; [done|]].
  - intros p t Hp Ht. split; [by eapply Hu|]. intros ->. apply Hf. left. by exists p.
  - intros q Hq. destruct (Hstub q Hq) as (Hq1 & Hq2). split; [|done]. split; [done|]. intros ->. apply Hf. by right.
Qed.

(** Writing an entry of a page table. *)
Lemma set_leaf used m root v t e :
  tree used m root → tbl m root (vpath v) = Some t →
  let m' := upd_word m t (ix 12 v) e in
  tree used m' root ∧ (∀ w, hw m' root w = if decide (vpn w = vpn v) then e else hw m root w) ∧
  (∀ p, path p → tbl m' root p = tbl m root p) ∧ (∀ q, stubbed m' root q → stubbed m root q).
Proof.
  intros (Hu & Hinj & Hstub) Ht m'.
  assert (Htbl : ∀ p, path p → tbl m' root p = tbl m root p).
  { intros p Hp. apply tbl_agree. intros q t' i r -> Hq. unfold next, m'.
    rewrite upd_word_ne; [done|]. left. intros ->.
    assert (He : q = vpath v) by (apply (Hinj _ _ t); [by eapply path_prefix|apply vpath_path|done..]).
    destruct Hp as [_ Hl]. rewrite He, length_app in Hl. simpl in Hl. lia. }
  assert (Hst : ∀ q, stubbed m' root q → stubbed m root q).
  { intros q (p & t' & i & Hp & Hpt & Hne & Hpr & Hq). rewrite Htbl in Hpt by (by eapply path_prefix). exists p, t', i.
    assert (t' ≠ t).
    { intros ->. assert (He : p = vpath v) by (apply (Hinj _ _ t); [by eapply path_prefix|apply vpath_path|done..]).
      destruct Hp as [_ Hl]. rewrite He, length_app in Hl. simpl in Hl. lia. }
    unfold m' in Hne, Hpr, Hq. by rewrite !upd_word_ne in Hne, Hpr, Hq by (by left). }
  split_and!; [| |done|done].
  - split; [intros p t' Hp Hpt; rewrite Htbl in Hpt by done; by eapply Hu|].
    split; [intros p q t' Hp Hq Hpt Hqt; rewrite Htbl in Hpt, Hqt by done; by eapply Hinj|].
    intros q Hq. pose proof (Hstub q (Hst q Hq)) as Hs. eapply stub_agree; [done| |done].
    intros j. apply upd_word_ne. left. intros He. destruct Hs as (_ & Hs & _). apply Hs. exists (vpath v).
    rewrite He. split; [apply vpath_path|done].
  - intros w. unfold hw. rewrite Htbl by apply vpath_path. case_decide as Hd.
    + apply same_page in Hd as [-> ->]. rewrite Ht. unfold m'. apply upd_word_eq.
    + destruct (tbl m root (vpath w)) as [t'|] eqn:E; [|done]. unfold m'. apply upd_word_ne.
      destruct (decide (t' = t)) as [->|]; [|by left]. right. intros He. apply Hd, same_page. split; [|done].
      apply (Hinj _ _ t); [apply vpath_path..|done|done].
Qed.

(** ** Methods *)

Ltac mfields :=
  cbv delta [set_mem set_phys set_pptr set_locked set_recached];
  cbn [fst snd mbind outcome_bind mret stateM_ret outcome_ret gets modify lift when mem phys pptr_taken window locked recached andb orb negb].
Ltac mrun := mfields; repeat (rewrite run_bind; mfields).

(** The next step of a run, with the state left folded. *)
Ltac mnext := cbn [fst snd]; rewrite ?run_bind; cbn [fst snd].

Section Methods.
Context {A : Type} `{!FrameAllocator A} `{!FrameLaws A}.
Implicit Types s : machine A.

(** The state a pagemap's methods work on. *)
Definition ok (root : Z) (s : machine A) : Prop :=
  fa_inv (phys s) ∧ is_frame root ∧ tree (fa_used (phys s)) (mem s) root ∧ length (window s) = 256%nat.

(** What changing entries and hanging in tables leaves alone: frames in use that
    no walk reads keep their contents, and stay so; at most [n] frames were
    taken, and only window [pptr] moved. *)
Definition moves (root pptr n : Z) (s s' : machine A) : Prop :=
  ok root s' ∧ (0 ≤ n ∧ (n = 0 → phys s' = phys s)) ∧ fa_left (phys s) - n ≤ fa_left (phys s') ∧
  (∀ q, fa_used (phys s) q → fa_used (phys s') q) ∧
  (∀ t, fa_used (phys s) t → ¬ reached (mem s) root t →
     ¬ reached (mem s') root t ∧ ∀ i, mem s' t i = mem s t i) ∧
  locked s' = locked s ∧ pptr_taken s' = pptr_taken s ∧ recached s' = recached s ∧
  (∀ j, j ≠ pptr → (window s').[j] = (window s).[j]).

(** The translation is the same. *)
Definition same_pages (root : Z) (s s' : machine A) : Prop := ∀ v, hw (mem s') root v = hw (mem s) root v.

Lemma moves_refl root pptr s : ok root s → moves root pptr 0 s s.
Proof. intros Hok. split; [done|]. split_and!; try done; lia. Qed.

Lemma moves_trans root pptr n k s1 s2 s3 :
  moves root pptr n s1 s2 → moves root pptr k s2 s3 → moves root pptr (n + k) s1 s3.
Proof.
  intros (_ & [H1 H2] & H3 & H4 & H5 & H6 & H7 & H8 & H9) (K1 & [K0 K2] & K3 & K4 & K5 & K6 & K7 & K8 & K9).
  split; [done|]. split; [split; [lia|intros; rewrite K2, H2 by lia; done]|]. split; [lia|]. split; [intros q Hq; by apply K4, H4|].
  split; [|split_and!; try congruence; intros j Hj; by rewrite K9, H9].
  intros t Hu Hn. destruct (H5 t Hu Hn) as [Hn' He]. destruct (K5 t (H4 t Hu) Hn') as [Hn'' He'].
  split; [done|]. intros i. by rewrite He', He.
Qed.

Lemma moves_le root pptr n k s s' : n ≤ k → moves root pptr n s s' → moves root pptr k s s'.
Proof.
  intros Hk (H1 & [H2 H3] & H4 & H5). split; [done|]. split; [split; [lia|intros; apply H3; lia]|]. split; [lia|done].
Qed.

Lemma moves_ok root pptr n s s' : moves root pptr n s s' → ok root s'.
Proof. by intros [? _]. Qed.

Lemma rd_insert {B} (l : list B) i b : 0 ≤ i < Z.of_nat (length l) → (<[Z.to_nat i := b]> l).[i] = Done b.
Proof. intros. apply rd_Done. split; [lia|]. apply list_lookup_insert_eq. lia. Qed.

Lemma rd_insert_ne {B} (l : list B) i j b : j ≠ i → (<[Z.to_nat i := b]> l).[j] = l.[j] ∨ j < 0 ∨ i < 0.
Proof.
  intros. destruct (decide (j < 0 ∨ i < 0)); [by right|left]. unfold rd. destruct (Z.ltb_spec j 0); [lia|].
  by rewrite list_lookup_insert_ne by lia.
Qed.

(** Aiming a window. *)
Lemma aim_ok s index at_ :
  0 ≤ index < 256 → length (window s) = 256%nat →
  ∃ w, aim_pptr index at_ s = Done (tt, set_pptr (pptr_taken s) w s) ∧ length w = 256%nat ∧
    w.[index] = Done (frame_of at_) ∧ ∀ j, j ≠ index → w.[j] = (window s).[j].
Proof.
  intros Hi Hl. unfold aim_pptr. rewrite wr_in_range by lia. cbn [mbind outcome_bind].
  exists (<[Z.to_nat index := frame_of at_]> (window s)). split_and!; [done|by rewrite length_insert|apply rd_insert; lia|].
  intros j Hj. destruct (rd_insert_ne (window s) index j (frame_of at_) Hj) as [?|[?|?]]; [done| |lia].
  unfold rd. by destruct (Z.ltb_spec j 0); [|lia].
Qed.

(** Moving the window. *)
Lemma moves_aim root pptr w s :
  ok root s → length w = 256%nat → (∀ j, j ≠ pptr → w.[j] = (window s).[j]) →
  moves root pptr 0 s (set_pptr (pptr_taken s) w s).
Proof. intros (? & ? & ? & ?) Hl Hw. split; [by split_and!|]. mfields. split_and!; try done; lia. Qed.

Definition missing (m : Z → Z → Z) (t i : Z) : Z := if flag (m t i) PAGE_PRESENT then 0 else 1.

Lemma ensure_level_spec root pptr v shift s P T :
  ok root s → 0 ≤ pptr < 256 → (window s).[pptr] = Done T → tbl (mem s) root P = Some T →
  path (P ++ [ix shift v]) → missing (mem s) T (ix shift v) ≤ fa_left (phys s) →
  ∃ s' T', ensure_level pptr v shift s = Done (tt, s') ∧ moves root pptr (missing (mem s) T (ix shift v)) s s' ∧
    same_pages root s s' ∧ (window s').[pptr] = Done T' ∧ tbl (mem s') root (P ++ [ix shift v]) = Some T' ∧
    (∀ p t, path p → tbl (mem s) root p = Some t → tbl (mem s') root p = Some t).
Proof.
  intros (Hinv & Hroot & Htree & Hwl) Hpptr Hw HT HP Hleft. unfold ensure_level. mrun.
  unfold table_get at 1. rewrite Hw. mrun. unfold missing in *. destruct (flag (mem s T (ix shift v)) PAGE_PRESENT) eqn:Epr; mrun.
  - unfold table_get at 1. rewrite Hw. mrun. unfold table_set at 1. rewrite Hw. mrun. unfold table_get. mfields. rewrite Hw. mrun.
    change (Z.lor (Z.lor PAGE_USER PAGE_WRITE) PAGE_PRESENT) with 7. rewrite upd_word_eq.
    match goal with |- context[aim_pptr pptr ?at_ ?s0] => destruct (aim_ok s0 pptr at_) as (w & -> & Hwl' & Hwi & Hwo); [done|done|] end.
    mrun.
    destruct (add_flags (fa_used (phys s)) (mem s) root P T (ix shift v) Htree HP HT Epr) as (Htbl & Htree' & Hhw & Hend & Hst).
    eexists _, (frame_of (mem s T (ix shift v))). split; [reflexivity|]. mfields.
    rewrite frame_of_mask, frame_of_lor in Hwi by lia.
    split; [|split; [done|]; split_and!; [done|done|]; intros p t _; by rewrite Htbl].
    split; [by split_and!|]. mfields. split; [done|]. split; [lia|]. split; [done|]. split; [|done]. intros t Hu Hnt. split.
    + intros [(p & Hp & Ht)|Hs]; [|apply Hnt; right; by apply Hst]. rewrite Htbl in Ht. apply Hnt. left. by exists p.
    + intros i. apply upd_word_ne. left. intros ->. apply Hnt. left. exists P. split; [by eapply path_prefix|done].
  - destruct (fa_alloc (phys s) PAGE_SIZE Hinv) as (f & a & Ha & Hinv' & Hleft' & Hf & Hfresh & Hused); [unfold PAGE_SIZE; lia|lia|].
    unfold Phys_alloc at 1. rewrite Ha. mrun.
    unfold table_set at 1. mfields. rewrite Hw. mrun. unfold table_get at 1. mfields. rewrite Hw. mrun.
    unfold table_set at 1. mfields. rewrite Hw. mrun. unfold table_get at 1. mfields. rewrite Hw. mrun.
    change (Z.lor (Z.lor PAGE_USER PAGE_WRITE) PAGE_PRESENT) with 7. rewrite !upd_word_twice, !upd_word_eq.
    match goal with |- context[aim_pptr pptr ?at_ ?s0] => destruct (aim_ok s0 pptr at_) as (w & -> & Hwl' & Hwi & Hwo); [done|done|] end.
    rewrite frame_of_mask, frame_of_lor, frame_of_frame in Hwi by (done || lia).
    mfields. unfold table_fill. mfields. rewrite Hwi. mfields.
    destruct (hang_table (fa_used (phys s)) (mem s) root P T (ix shift v) Htree HP HT f Hf Hfresh Epr) as (Htree' & Hhw & Hend & Hold & Hback & Hst).
    eexists _, f. split; [reflexivity|]. mfields. split; [|split; [exact Hhw|split; [done|split; [exact Hend|exact Hold]]]].
    split; [split_and!; mfields; try done; eapply tree_mono, Htree'; intros q; apply Hused|]. mfields.
    split; [done|]. split; [lia|]. split; [intros q Hq; apply Hused; by right|]. split; [|done].
    intros t Hu Hnt. assert (t ≠ f) by (by intros ->). split.
    + intros [(p & Hp & Ht)|Hs]; [|apply Hnt; right; by apply Hst]. destruct (Hback p t Hp Ht); [done|]. apply Hnt. left. by exists p.
    + intros i. rewrite fill_words_ne by done. apply upd_word_ne. left. intros ->. apply Hnt. left. exists P. split; [by eapply path_prefix|done].
Qed.

Lemma same_pages_trans root s1 s2 s3 : same_pages root s1 s2 → same_pages root s2 s3 → same_pages root s1 s3.
Proof. intros H1 H2 v. by rewrite H2, H1. Qed.

(** The tables the walk to [v] lacks, at most. *)
Definition cost (m : Z → Z → Z) (root v : Z) : Z := match tbl m root (vpath v) with Some _ => 0 | None => 3 end.

Lemma mapped_cost m root v : hw m root v ≠ 0 → cost m root v = 0.
Proof. unfold hw, cost. by destruct (tbl _ _ _). Qed.

(** One turn on the way to [v]: [c] frames when the walk is not complete yet. *)
Lemma ensure_step root pptr v shift s P r T c :
  ok root s → 0 ≤ pptr < 256 → (window s).[pptr] = Done T → tbl (mem s) root P = Some T →
  vpath v = P ++ ix shift v :: r → 0 ≤ c ≤ 1 → c ≤ fa_left (phys s) → (c = 0 → is_Some (tbl (mem s) root (vpath v))) →
  ∃ s' T', ensure_level pptr v shift s = Done (tt, s') ∧ moves root pptr c s s' ∧ same_pages root s s' ∧
    (window s').[pptr] = Done T' ∧ tbl (mem s') root (P ++ [ix shift v]) = Some T' ∧
    (c = 0 → is_Some (tbl (mem s') root (vpath v))).
Proof.
  intros Hok Hpptr Hw HT Hv Hc Hl Hs.
  assert (HP : path (P ++ [ix shift v])).
  { apply (path_prefix _ r). rewrite <-app_assoc. simpl. rewrite <-Hv. apply vpath_path. }
  assert (Hm : missing (mem s) T (ix shift v) ≤ c).
  { unfold missing. destruct (flag _ _) eqn:E; [lia|]. destruct (decide (c = 0)) as [Hc0|]; [|lia].
    destruct (Hs Hc0) as [t Ht]. rewrite Hv, tbl_app, HT in Ht. simpl in Ht. unfold next in Ht. by rewrite E in Ht. }
  destruct (ensure_level_spec root pptr v shift s P T) as (s' & T' & He & Hmv & Hsp & Hw' & HT' & Hk); [done..|lia|].
  exists s', T'. split_and!; try done; [by eapply moves_le|]. intros Hc0. destruct (Hs Hc0) as [t Ht].
  exists t. apply Hk; [apply vpath_path|done].
Qed.

Lemma findTableEnsure_spec pm pptr v s :
  ok (pageRoot pm) s → 0 ≤ pptr < 256 → cost (mem s) (pageRoot pm) v ≤ fa_left (phys s) →
  ∃ s' T, findTableEnsure pm pptr v s = Done (tt, s') ∧
    moves (pageRoot pm) pptr (cost (mem s) (pageRoot pm) v) s s' ∧ same_pages (pageRoot pm) s s' ∧
    (window s').[pptr] = Done T ∧ tbl (mem s') (pageRoot pm) (vpath v) = Some T.
Proof.
  set (root := pageRoot pm). intros Hok Hp Hl. unfold findTableEnsure. mrun. fold root.
  destruct (aim_ok s pptr root) as (w & -> & Hwl & Hwi & Hwo); [done|apply Hok|].
  pose proof Hok as (_ & Hroot & _ & _). rewrite frame_of_frame in Hwi by done. mnext.
  pose proof (moves_aim root pptr w s Hok Hwl Hwo) as M0. set (s0 := set_pptr (pptr_taken s) w s) in *.
  assert (Hc : ∃ c, 0 ≤ c ≤ 1 ∧ cost (mem s) root v = 3 * c ∧ (c = 0 → is_Some (tbl (mem s) root (vpath v)))).
  { unfold cost. destruct (tbl (mem s) root (vpath v)); [exists 0|exists 1]; split_and!; lia || eauto. }
  destruct Hc as (c & Hc & Hc3 & Hs). rewrite Hc3 in *.
  assert (L0 : 3 * c ≤ fa_left (phys s0)) by done.
  destruct (ensure_step root pptr v 39 s0 [] [ix 30 v; ix 21 v] root c) as (s1 & T1 & -> & M1 & P1 & W1 & R1 & S1);
    [by eapply moves_ok|done..|lia|done|]. mnext.
  pose proof M1 as (_ & _ & L1 & _).
  destruct (ensure_step root pptr v 30 s1 [ix 39 v] [ix 21 v] T1 c) as (s2 & T2 & -> & M2 & P2 & W2 & R2 & S2);
    [by eapply moves_ok|done..|lia|done|]. mnext.
  pose proof M2 as (_ & _ & L2 & _).
  destruct (ensure_step root pptr v 21 s2 [ix 39 v; ix 30 v] [] T2 c) as (s3 & T3 & -> & M3 & P3 & W3 & R3 & _);
    [by eapply moves_ok|done..|lia|done|].
  exists s3, T3. split; [done|]. split.
  - eapply moves_le; [|eapply moves_trans, M3; eapply moves_trans, M2; eapply moves_trans, M1; exact M0]. lia.
  - split; [|done]. eapply same_pages_trans, P3. eapply same_pages_trans, P2. exact P1.
Qed.

(** Writing the entry of [v] through a window on its page table. *)
Lemma moves_leaf root pptr v e s T :
  ok root s → tbl (mem s) root (vpath v) = Some T →
  moves root pptr 0 s (set_mem (upd_word (mem s) T (ix 12 v) e) s) ∧
  ∀ w, hw (upd_word (mem s) T (ix 12 v) e) root w = if decide (vpn w = vpn v) then e else hw (mem s) root w.
Proof.
  intros (Hinv & Hroot & Htree & Hwl) HT.
  destruct (set_leaf (fa_used (phys s)) (mem s) root v T e Htree HT) as (Htree' & Hhw & Htbl & Hst). split; [|done].
  split; [by split_and!|]. mfields. split; [done|]. split; [lia|]. split; [done|]. split; [|done]. intros t Hu Hnt. split.
  - intros [(p & Hp & Ht)|Hs]; [|apply Hnt; right; by apply Hst]. rewrite Htbl in Ht by done. apply Hnt. left. by exists p.
  - intros i. apply upd_word_ne. left. intros ->. apply Hnt. left. exists (vpath v). split; [apply vpath_path|done].
Qed.

Lemma lift_Done {B} (b : B) s : lift (Done b) s = Done (b, s).
Proof. reflexivity. Qed.

Lemma assert_locked_ok pm s : pageRoot pm ∈ locked s → assert_locked pm s = Done (tt, s).
Proof. intros. unfold assert_locked. by rewrite bool_decide_true. Qed.

Lemma assign_spec pm pptr v p flags s :
  ok (pageRoot pm) s → 0 ≤ pptr < 256 → pageRoot pm ∈ locked s → cost (mem s) (pageRoot pm) v ≤ fa_left (phys s) →
  ∃ s', assign pm pptr v p flags s = Done (tt, s') ∧ moves (pageRoot pm) pptr (cost (mem s) (pageRoot pm) v) s s' ∧
    ∀ w, hw (mem s') (pageRoot pm) w =
      if decide (vpn w = vpn v) then Z.lor (Z.land p MEM_PAGE_MASK) flags else hw (mem s) (pageRoot pm) w.
Proof.
  intros Hok Hp Hlk Hl. unfold assign. mnext. rewrite assert_locked_ok by done. mnext.
  assert (Hc : cost (mem s) (pageRoot pm) (Z.land v MEM_PAGE_MASK) = cost (mem s) (pageRoot pm) v) by (unfold cost; by rewrite vpath_mask).
  destruct (findTableEnsure_spec pm pptr (Z.land v MEM_PAGE_MASK) s) as (s1 & T & He & M1 & P1 & W1 & R1); [done|done|lia|].
  rewrite vpath_mask in R1. rewrite Hc in M1. rewrite He. mnext. unfold table_set. rewrite W1. mfields.
  rewrite ix_mask by lia. eexists. split; [reflexivity|]. mfields.
  destruct (moves_leaf (pageRoot pm) pptr v (Z.lor (Z.land p MEM_PAGE_MASK) flags) s1 T) as [M2 H2]; [by eapply moves_ok|done|].
  split; [|intros w; rewrite H2; by case_decide].
  eapply moves_le; [|exact (moves_trans _ _ _ _ _ _ _ M1 M2)]. lia.
Qed.

Lemma unassign_spec pm pptr v s :
  ok (pageRoot pm) s → 0 ≤ pptr < 256 → pageRoot pm ∈ locked s → cost (mem s) (pageRoot pm) v ≤ fa_left (phys s) →
  vstart pm ≤ v ≤ vend pm →
  let e := hw (mem s) (pageRoot pm) v in
  ∃ s', unassign pm pptr v s = Done (if flag e PAGE_NOPHYS then 0 else Z.land e MEM_PAGE_MASK, s') ∧
    moves (pageRoot pm) pptr (cost (mem s) (pageRoot pm) v) s s' ∧
    ∀ w, hw (mem s') (pageRoot pm) w = if decide (vpn w = vpn v) then 0 else hw (mem s) (pageRoot pm) w.
Proof.
  intros Hok Hp Hlk Hl Hv e. unfold unassign.
  replace (v >=? vstart pm) with true by lia. replace (v <=? vend pm) with true by lia.
  cbn [aex_assert]. rewrite !run_bind, lift_Done. mnext. rewrite lift_Done. mnext.
  rewrite assert_locked_ok by done. mnext.
  assert (Hc : cost (mem s) (pageRoot pm) (Z.land v MEM_PAGE_MASK) = cost (mem s) (pageRoot pm) v) by (unfold cost; by rewrite vpath_mask).
  destruct (findTableEnsure_spec pm pptr (Z.land v MEM_PAGE_MASK) s) as (s1 & T & He & M1 & P1 & W1 & R1); [done|done|lia|].
  rewrite vpath_mask in R1. rewrite Hc in M1. rewrite He. mnext. unfold table_get. rewrite W1. mfields.
  rewrite ix_mask by lia. assert (HeT : mem s1 T (ix 12 v) = e) by (unfold e; rewrite <-P1; unfold hw; by rewrite R1).
  rewrite HeT. destruct (moves_leaf (pageRoot pm) pptr v 0 s1 T) as [M2 H2]; [by eapply moves_ok|done|].
  exists (set_mem (upd_word (mem s1) T (ix 12 v) 0) s1). split.
  - destruct (flag e PAGE_NOPHYS); rewrite run_bind; unfold table_set; by rewrite W1.
  - split; [|intros w; mfields; rewrite H2; by case_decide].
    eapply moves_le; [|exact (moves_trans _ _ _ _ _ _ _ M1 M2)]. lia.
Qed.

(** The walk of [find_table], which follows entries that are not present too. *)
Definition shows (m : Z → Z → Z) (root v : Z) (P : list Z) (t : Z) : Prop :=
  tbl m root P = Some t ∨ ((∀ j, 0 ≤ j < 512 → m t j = 0) ∧ tbl m root (vpath v) = None).

Lemma shows_zero m root v P t i r :
  shows m root v P t → vpath v = P ++ i :: r → m t i = 0 → tbl m root (vpath v) = None.
Proof.
  intros [Ht|[_ ?]] Hv H0; [|done]. rewrite Hv, tbl_app, Ht. simpl. unfold next. by rewrite H0.
Qed.

Lemma shows_next used m root v P t i r :
  tree used m root → shows m root v P t → vpath v = P ++ i :: r → m t i ≠ 0 → shows m root v (P ++ [i]) (frame_of (m t i)).
Proof.
  intros (_ & _ & Hstub) Hs Hv Hne.
  assert (HP : path (P ++ [i])) by (apply (path_prefix _ r); rewrite <-app_assoc; simpl; rewrite <-Hv; apply vpath_path).
  assert (Hi : 0 ≤ i < 512) by (destruct HP as [HP _]; apply Forall_app in HP as [_ HP]; apply Forall_cons_1 in HP as [? _]; lia).
  destruct Hs as [Ht|[Hz _]]; [|by rewrite Hz in Hne]. destruct (flag (m t i) PAGE_PRESENT) eqn:E.
  - left. rewrite tbl_app, Ht. simpl. unfold next. by rewrite E.
  - right. split; [apply (Hstub (frame_of (m t i))); by exists P, t, i|]. rewrite Hv, tbl_app, Ht. simpl. unfold next. by rewrite E.
Qed.

Lemma shows_end m root v T u : shows m root v (vpath v) T → vpath u = vpath v → m T (ix 12 u) = hw m root u.
Proof.
  intros Hs Hu. unfold hw. rewrite Hu. destruct Hs as [->|[Hz ->]]; [done|]. apply Hz, ix_bound. lia.
Qed.

Lemma hw_none m root v u : tbl m root (vpath v) = None → vpath u = vpath v → hw m root u = 0.
Proof. intros Hn Hu. unfold hw. by rewrite Hu, Hn. Qed.

(** [aim_pptr] and the read after it. *)
Lemma aim_get s w0 pptr at_ :
  0 ≤ pptr < 256 → length w0 = 256%nat →
  ∃ w, aim_pptr pptr at_ (set_pptr (pptr_taken s) w0 s) = Done (tt, set_pptr (pptr_taken s) w s) ∧ length w = 256%nat ∧
    (∀ j, j ≠ pptr → w.[j] = w0.[j]) ∧ w.[pptr] = Done (frame_of at_) ∧
    ∀ i, table_get pptr i (set_pptr (pptr_taken s) w s) = Done (mem s (frame_of at_) i, set_pptr (pptr_taken s) w s).
Proof.
  intros Hp Hl. destruct (aim_ok (set_pptr (pptr_taken s) w0 s) pptr at_ Hp Hl) as (w & He & Hl' & Hw & Ho).
  exists w. split_and!; [exact He|done|exact Ho|done|]. intros i. unfold table_get. mfields. by rewrite Hw.
Qed.

Lemma table_get_at pptr i s T : (window s).[pptr] = Done T → table_get pptr i s = Done (mem s T i, s).
Proof. intros H. unfold table_get. by rewrite H. Qed.

Lemma set_pptr_same s : set_pptr (pptr_taken s) (window s) s = s.
Proof. by destruct s. Qed.

Lemma find_table_spec root pptr v s :
  ok root s → 0 ≤ pptr < 256 →
  ∃ r w, find_table root pptr v s = Done (r, set_pptr (pptr_taken s) w s) ∧ length w = 256%nat ∧
    (∀ j, j ≠ pptr → w.[j] = (window s).[j]) ∧
    match r with
    | inl _ => tbl (mem s) root (vpath v) = None
    | inr _ => ∃ T, w.[pptr] = Done T ∧ ∀ u, vpath u = vpath v → mem s T (ix 12 u) = hw (mem s) root u
    end.
Proof.
  intros (_ & Hroot & Htree & Hl) Hp. unfold find_table. rewrite run_bind.
  destruct (aim_get s (window s) pptr root Hp Hl) as (w1 & A1 & L1 & O1 & _ & G1).
  rewrite set_pptr_same in A1. rewrite A1. mnext. rewrite G1, frame_of_frame by done. mnext.
  assert (S1 : shows (mem s) root v [] root) by (by left).
  destruct (Z.eqb_spec (mem s root (ix 39 v)) 0) as [E1|E1].
  { exists (inl 0x8000000000), w1. split_and!; try done. by eapply (shows_zero _ _ _ [] root (ix 39 v) [ix 30 v; ix 21 v]). }
  pose proof (shows_next _ _ _ v [] root (ix 39 v) [ix 30 v; ix 21 v] Htree S1 eq_refl E1) as S2.
  rewrite run_bind. destruct (aim_get s w1 pptr (Z.land (mem s root (ix 39 v)) MEM_PAGE_MASK) Hp L1) as (w2 & -> & L2 & O2 & _ & G2).
  mnext. rewrite G2, frame_of_mask. mnext. set (t2 := frame_of (mem s root (ix 39 v))) in *.
  destruct (Z.eqb_spec (mem s t2 (ix 30 v)) 0) as [E2|E2].
  { exists (inl 0x40000000), w2. split_and!; [done|done|intros; by rewrite O2, O1|].
    by eapply (shows_zero _ _ _ [ix 39 v] t2 (ix 30 v) [ix 21 v]). }
  pose proof (shows_next _ _ _ v [ix 39 v] t2 (ix 30 v) [ix 21 v] Htree S2 eq_refl E2) as S3.
  rewrite run_bind. destruct (aim_get s w2 pptr (Z.land (mem s t2 (ix 30 v)) MEM_PAGE_MASK) Hp L2) as (w3 & -> & L3 & O3 & _ & G3).
  mnext. rewrite G3, frame_of_mask. mnext. set (t3 := frame_of (mem s t2 (ix 30 v))) in *.
  destruct (Z.eqb_spec (mem s t3 (ix 21 v)) 0) as [E3|E3].
  { exists (inl 0x200000), w3. split_and!; [done|done|intros; by rewrite O3, O2, O1|].
    by eapply (shows_zero _ _ _ [ix 39 v; ix 30 v] t3 (ix 21 v) []). }
  pose proof (shows_next _ _ _ v [ix 39 v; ix 30 v] t3 (ix 21 v) [] Htree S3 eq_refl E3) as S4.
  rewrite run_bind. destruct (aim_get s w3 pptr (Z.land (mem s t3 (ix 21 v)) MEM_PAGE_MASK) Hp L3) as (w4 & -> & L4 & O4 & W4 & _).
  mnext. exists (inr tt), w4. split_and!; [done|done|intros; by rewrite O4, O3, O2, O1|].
  rewrite frame_of_mask in W4. eexists. split; [exact W4|]. intros u. by apply shows_end.
Qed.

(** A window is free, and the pagemap's lock too. *)
Definition idle (root : Z) (s : machine A) : Prop :=
  length (pptr_taken s) = 256%nat ∧ false ∈ pptr_taken s ∧ root ∉ locked s.

Lemma first_free_spec l k : false ∈ l → ∃ i, first_free l k = Some (k + Z.of_nat i) ∧ l !! i = Some false.
Proof.
  revert k. induction l as [|b l IH]; intros k Hin; [by apply not_elem_of_nil in Hin|]. destruct b; simpl.
  - apply elem_of_cons in Hin as [|Hin]; [done|]. destruct (IH (k + 1) Hin) as (i & -> & Hi). exists (S i). split; [f_equal; lia|done].
  - exists 0%nat. split; [f_equal; lia|done].
Qed.

(** The method takes a window and the lock. *)
Definition entered (root pptr : Z) (s : machine A) : machine A :=
  set_locked ({[root]} ∪ locked s) (set_pptr (<[Z.to_nat pptr := true]> (pptr_taken s)) (window s) s).

Lemma alloc_pptr_ok root s : idle root s →
  ∃ pptr, 0 ≤ pptr < 256 ∧ pptr_taken s !! Z.to_nat pptr = Some false ∧
    alloc_pptr s = Done (pptr, set_pptr (<[Z.to_nat pptr := true]> (pptr_taken s)) (window s) s).
Proof.
  intros (Hl & Hin & _). destruct (first_free_spec _ 0 Hin) as (i & Hf & Hi).
  pose proof (lookup_lt_Some _ _ _ Hi). exists (Z.of_nat i). rewrite Nat2Z.id. split_and!; [lia..|done|].
  unfold alloc_pptr. rewrite Z.add_0_l in Hf. rewrite Hf, wr_in_range, Nat2Z.id by lia. done.
Qed.

Lemma lock_acquire_ok pm s : pageRoot pm ∉ locked s → lock_acquire pm s = Done (tt, set_locked ({[pageRoot pm]} ∪ locked s) s).
Proof. intros. unfold lock_acquire. by rewrite bool_decide_false. Qed.

Lemma lock_release_ok pm s : pageRoot pm ∈ locked s → lock_release pm s = Done (tt, set_locked (locked s ∖ {[pageRoot pm]}) s).
Proof. intros. unfold lock_release. by rewrite bool_decide_true. Qed.

Lemma free_pptr_ok pptr s : 0 ≤ pptr < Z.of_nat (length (pptr_taken s)) →
  free_pptr pptr s = Done (tt, set_pptr (<[Z.to_nat pptr := false]> (pptr_taken s)) (window s) s).
Proof. intros. unfold free_pptr. by rewrite wr_in_range. Qed.

Lemma enter_ok pm s : idle (pageRoot pm) s →
  ∃ pptr, 0 ≤ pptr < 256 ∧ pptr_taken s !! Z.to_nat pptr = Some false ∧
    ∀ B (k : Z → stateM (machine A) B),
      (p ← alloc_pptr; lock_acquire pm;; k p) s = k pptr (entered (pageRoot pm) pptr s).
Proof.
  intros Hi. destruct (alloc_pptr_ok _ _ Hi) as (pptr & Hp & Ht & Ha). exists pptr. split_and!; [lia..|done|].
  intros B k. rewrite run_bind, Ha. mnext. rewrite lock_acquire_ok by apply Hi. done.
Qed.

(** Releasing both gives back what [entered] took. *)
Definition left_ (s s' : machine A) : machine A := set_locked (locked s) (set_pptr (pptr_taken s) (window s') s').

Lemma leave_steps pm pptr s s' :
  idle (pageRoot pm) s → 0 ≤ pptr < 256 → pptr_taken s !! Z.to_nat pptr = Some false →
  locked s' = locked (entered (pageRoot pm) pptr s) → pptr_taken s' = pptr_taken (entered (pageRoot pm) pptr s) →
  ∃ s1, lock_release pm s' = Done (tt, s1) ∧ free_pptr pptr s1 = Done (tt, left_ s s').
Proof.
  intros (Hl & _ & Hn) Hp Ht Hlk Htk. unfold entered in *. simpl in Hlk, Htk. rewrite lock_release_ok by set_solver.
  eexists. split; [done|].
  rewrite free_pptr_ok by (simpl; rewrite Htk, length_insert; lia). do 2 f_equal. unfold left_, set_pptr, set_locked. simpl. f_equal.
  - rewrite Htk, list_insert_insert_eq. by apply list_insert_id.
  - rewrite Hlk. set_solver.
Qed.

Lemma unlock_ok {B} pm pptr s s' (k : stateM (machine A) B) :
  idle (pageRoot pm) s → 0 ≤ pptr < 256 → pptr_taken s !! Z.to_nat pptr = Some false →
  locked s' = locked (entered (pageRoot pm) pptr s) → pptr_taken s' = pptr_taken (entered (pageRoot pm) pptr s) →
  (lock_release pm;; free_pptr pptr;; k) s' = k (left_ s s').
Proof.
  intros H1 H2 H3 H4 H5. destruct (leave_steps pm pptr s s' H1 H2 H3 H4 H5) as (s1 & E1 & E2).
  rewrite run_bind, E1. mnext. by rewrite E2.
Qed.

(** ** Translation *)

(** The address the entry of [v] gives, 0 for an entry without a frame. *)
Definition translate (m : Z → Z → Z) (root v : Z) : Z :=
  let frame := Z.land (hw m root v) MEM_PAGE_MASK in
  if frame =? 0 then 0 else u64 (frame + v mod 4096).

Lemma low_offset v : Z.land v 0xFFF = v mod 4096.
Proof. change 0xFFF with (Z.ones 12). by rewrite Z.land_ones. Qed.

(** [paddrof] returns the address in the entry where the walk ends. *)
Lemma paddrof_translate pm addr s :
  ok (pageRoot pm) s → idle (pageRoot pm) s →
  ∃ w, paddrof pm addr s = Done (translate (mem s) (pageRoot pm) addr, set_pptr (pptr_taken s) w s) ∧ length w = 256%nat.
Proof.
  intros Hok Hi. destruct (enter_ok pm s Hi) as (pptr & Hp & Ht & Hk). unfold paddrof. rewrite Hk.
  unfold paddrof_internal. rewrite run_bind. rewrite run_bind.
  destruct (find_table_spec (pageRoot pm) pptr (Z.land addr MEM_PAGE_MASK) (entered (pageRoot pm) pptr s))
    as (r & w & Hf & Hwl & _ & Hr); [exact Hok|done|].
  unfold findTable. rewrite Hf. cbn [fst snd]. change (mem (entered (pageRoot pm) pptr s)) with (mem s) in Hr.
  rewrite vpath_mask in Hr. unfold translate. exists w. split; [|done].
  assert (Hleave : ∀ x : Z, (lock_release pm;; free_pptr pptr;; mret x) (set_pptr (pptr_taken (entered (pageRoot pm) pptr s)) w (entered (pageRoot pm) pptr s))
            = Done (x, set_pptr (pptr_taken s) w s)).
  { intros x. rewrite (unlock_ok pm pptr s) by done. by destruct s. }
  destruct r as [n|[]].
  - rewrite (hw_none _ _ addr addr Hr eq_refl). apply Hleave.
  - destruct Hr as (T & HT & Hr). rewrite run_bind, (table_get_at _ _ _ T) by done. cbn [fst snd].
    change (mem (set_pptr _ _ (entered (pageRoot pm) pptr s))) with (mem s). rewrite (Hr addr eq_refl).
    rewrite <-low_offset. destruct (_ =? 0); apply Hleave.
Qed.

Lemma mask_div e : 0 ≤ e < 2 ^ 64 → Z.land e MEM_PAGE_MASK = e / 4096 * 4096.
Proof.
  intros He. change 4096 with (2 ^ 12). rewrite <-Z.shiftr_div_pow2, <-Z.shiftl_mul_pow2 by lia. bitwise k. rewrite Z.shiftl_spec by lia. destruct (Z.leb_spec 12 k).
  - rewrite Z.shiftr_spec, Z.sub_add by lia. destruct (Z.ltb_spec k 64); [by rewrite andb_true_r|]. by rewrite (high_bits 64 e k) by lia.
  - by rewrite (Z.testbit_neg_r _ (k - 12)), andb_false_r by lia.
Qed.

(** The walk of the processor through the four levels of tables for 4 KiB pages: bit 0 of
    an entry says that it is present, bits 12 to 51 are the address it gives. *)
Inductive walk := Translates (e p : Z) | NotPresent (e : Z) | NoTable.
Fixpoint mmu (m : Z → Z → Z) (t : Z) (shifts : list Z) (v : Z) : walk :=
  match shifts with
  | [] => NoTable
  | shift :: rest =>
      let e := m t ((v / 2 ^ shift) mod 512) in
      let frame := e / 4096 mod 2 ^ 40 * 4096 in
      match rest with
      | [] => if Z.odd e then Translates e (frame + v mod 4096) else NotPresent e
      | _ => if Z.odd e then mmu m frame rest v else NoTable
      end
  end.
Definition levels : list Z := [39; 30; 21; 12].

Lemma present_odd e : flag e PAGE_PRESENT = Z.odd e.
Proof.
  unfold flag, PAGE_PRESENT. change 1 with (Z.ones 1). rewrite Z.land_ones by lia. change (2 ^ 1) with 2. rewrite Zmod_odd. by destruct (Z.odd e).
Qed.
Lemma frame_of_div e : frame_of e = e / 4096 mod 2 ^ 40 * 4096.
Proof.
  unfold frame_of. change 4096 with (2 ^ 12). rewrite <-Z.shiftr_div_pow2, <-Z.land_ones, <-Z.shiftl_mul_pow2 by lia. bitwise k. rewrite Z.shiftl_spec by lia. destruct (Z.leb_spec 12 k).
  - rewrite Z.land_spec, Z.shiftr_spec, Z.sub_add by lia. destruct (Z.ltb_spec k 52); [by rewrite Z.ones_spec_low by lia|]. by rewrite Z.ones_spec_high by lia.
  - by rewrite (Z.testbit_neg_r _ (k - 12)), andb_false_r by lia.
Qed.

(** The walk in terms of the last table. *)
Lemma mmu_tbl m root v :
  mmu m root levels v = match tbl m root (vpath v) with
  | Some t => let e := m t (ix 12 v) in if Z.odd e then Translates e (frame_of e + v mod 4096) else NotPresent e
  | None => NoTable
  end.
Proof.
  unfold levels, vpath. cbn [mmu tbl]. unfold next. rewrite !present_odd, <-!frame_of_div, <-!ix_div by lia. destruct (Z.odd (m root _)); [|done].
  rewrite !present_odd. destruct (Z.odd (m (frame_of _) _)); [|done]. rewrite !present_odd. by destruct (Z.odd (m (frame_of (m _ _)) _)).
Qed.

(** C3 (equivalence): for every address, mapped or not, [paddrof] compared with the walk of
    the processor.  Where the walk translates the address, [paddrof] returns the same
    physical address, 0 for the frame 0; where a table is missing it returns 0.  Where the
    tables are there but the last entry is not present it returns the address that stands
    in the entry, which the kernel leaves there for the pages that a fault fills in: the
    processor translates no such address.  Nothing changes but the view of the window. *)
Theorem paddrof_is_mmu_walk pm addr s :
  ok (pageRoot pm) s → idle (pageRoot pm) s →
  ∃ r w, paddrof pm addr s = Done (r, set_pptr (pptr_taken s) w s) ∧ length w = 256%nat ∧
    match mmu (mem s) (pageRoot pm) levels addr with
    | Translates e p => 0 ≤ e < 2 ^ 52 → r = if p <? 4096 then 0 else p
    | NotPresent e => 0 ≤ e < 2 ^ 64 → r = if e <? 4096 then 0 else e / 4096 * 4096 + addr mod 4096
    | NoTable => r = 0
    end.
Proof.
  intros Hok Hi. destruct (paddrof_translate pm addr s Hok Hi) as (w & He & Hw). exists (translate (mem s) (pageRoot pm) addr), w. split_and!; [done..|].
  rewrite mmu_tbl. unfold translate, hw. destruct (tbl (mem s) (pageRoot pm) (vpath addr)) as [t|]; [|done]. cbv zeta.
  set (e := mem s t (ix 12 addr)). assert (0 ≤ addr mod 4096 < 4096) by (apply Z.mod_pos_bound; lia). destruct (Z.odd e); intros Hb.
  - rewrite mask_div by lia. rewrite frame_of_div. rewrite (Z.mod_small (e / 4096)) by (split; [apply Z.div_pos; lia|apply Z.div_lt_upper_bound; lia]).
    assert (0 ≤ e / 4096 * 4096 ≤ e) by (Z.to_euclidean_division_equations; lia).
    destruct (Z.eqb_spec (e / 4096 * 4096) 0), (Z.ltb_spec (e / 4096 * 4096 + addr mod 4096) 4096); [done|lia|lia|]. apply wrap_small. lia.
  - rewrite mask_div by lia. assert (0 ≤ e / 4096 * 4096 ≤ e) by (Z.to_euclidean_division_equations; lia).
    destruct (Z.eqb_spec (e / 4096 * 4096) 0), (Z.ltb_spec e 4096); [done|Z.to_euclidean_division_equations; lia|Z.to_euclidean_division_equations; lia|].
    apply wrap_small. Z.to_euclidean_division_equations. lia.
Qed.

(** ** The search for unmapped pages *)

Section Search.
Context (pm : Pagemap) (pptr amount first q : Z) (s0 : machine A).
Let root := pageRoot pm.
Let entry := hw (mem s0) root.
Hypothesis Hok : ok root s0.
Hypothesis Hpptr : 0 ≤ pptr < 256.
Hypothesis Hamount : 0 < amount.
Hypothesis Hfirst : 0 ≤ first.
(** A run of free pages. *)
Hypothesis Hend : q + amount * 4096 ≤ 2 ^ 64.
Hypothesis Hvend : q + (amount - 1) * 4096 < vend pm.
Hypothesis Hfree : ∀ k, 0 ≤ k < amount → entry (q + k * 4096) = 0.

(** The window moved, nothing else. *)
Definition looked (s : machine A) : Prop :=
  ∃ w, s = set_pptr (pptr_taken s0) w s0 ∧ length w = 256%nat ∧ ∀ j, j ≠ pptr → w.[j] = (window s0).[j].

Definition found (r : Z) (s : machine A) : Prop :=
  looked s ∧ first ≤ r ≤ q ∧ (q - r) mod 4096 = 0 ∧ ∀ k, 0 ≤ k < amount → entry (r + k * 4096) = 0.

Definition searching (c : cursor) (s : machine A) : Prop :=
  looked s ∧ first ≤ c_start c ≤ q ∧ (q - c_start c) mod 4096 = 0 ∧ 0 ≤ c_combo c < amount ∧
  c_vaddr c = c_start c + c_combo c * 4096 ∧ (∀ k, 0 ≤ k < c_combo c → entry (c_start c + k * 4096) = 0) ∧
  (c_index c = 512 ∧ ix 12 (c_vaddr c) = 0 ∨
   c_index c = ix 12 (c_vaddr c) ∧ ∃ T, (window s).[pptr] = Done T ∧
     ∀ u, vpath u = vpath (c_vaddr c) → mem s0 T (ix 12 u) = entry u).

Definition distance (c : cursor) : Z := (q + amount * 4096 - c_vaddr c) / 4096.

(** The pages up to [k] more are free too. *)
Lemma run_extends start combo n :
  (∀ k, 0 ≤ k < combo → entry (start + k * 4096) = 0) →
  (∀ j, 0 ≤ j < n → entry (start + combo * 4096 + j * 4096) = 0) →
  ∀ k, 0 ≤ k < combo + n → entry (start + k * 4096) = 0.
Proof.
  intros H1 H2 k Hk. destruct (decide (k < combo)); [apply H1; lia|].
  replace (start + k * 4096) with (start + combo * 4096 + (k - combo) * 4096) by lia. apply H2. lia.
Qed.

(** The page under the cursor is read from a table that shows its entry. *)
Lemma page_turn c s index T :
  searching c s → index = ix 12 (c_vaddr c) → (window s).[pptr] = Done T →
  (∀ u, vpath u = vpath (c_vaddr c) → mem s0 T (ix 12 u) = entry u) →
  let r := if negb (entry (c_vaddr c) =? 0)
           then inl (mk_cursor (index + 1) (u64 (c_vaddr c + PAGE_SIZE)) 0 (u64 (c_vaddr c + PAGE_SIZE)))
           else if u64 (c_combo c + 1) >=? amount then inr (c_start c)
           else inl (mk_cursor (index + 1) (u64 (c_vaddr c + PAGE_SIZE)) (u64 (c_combo c + 1)) (c_start c)) in
  match r with inr r => found r s | inl c' => searching c' s ∧ distance c' < distance c end.
Proof.
  intros (Hlk & Hs & Hal & Hc & Hva & Hz & _) -> HT Hsh. cbv zeta. unfold PAGE_SIZE.
  set (start := c_start c) in *. set (combo := c_combo c) in *. set (vaddr := c_vaddr c) in *.
  pose proof (ix_bound 12 vaddr ltac:(lia)) as Hix.
  assert (Hnext : ix 12 vaddr + 1 = 512 ∧ ix 12 (vaddr + 4096) = 0 ∨
    ix 12 vaddr + 1 = ix 12 (vaddr + 4096) ∧ ∃ T, (window s).[pptr] = Done T ∧
     ∀ u, vpath u = vpath (vaddr + 4096) → mem s0 T (ix 12 u) = entry u).
  { replace (vaddr + 4096) with (vaddr + 1 * 4096) by lia. destruct (decide (ix 12 vaddr + 1 = 512)) as [He|He].
    - left. split; [done|]. by apply page_wrap.
    - right. destruct (page_step vaddr 1) as [Hp Hi]; [lia..|]. split; [done|]. exists T. split; [done|]. by rewrite Hp. }
  destruct (Z.eqb_spec (entry vaddr) 0) as [He|He]; cbn [negb].
  - rewrite (wrap_small 64 (combo + 1)) by lia.
    assert (Hrun : ∀ k, 0 ≤ k < combo + 1 → entry (start + k * 4096) = 0).
    { apply run_extends; [done|]. intros j Hj. replace j with 0 by lia. rewrite Z.add_0_r, <-Hva. done. }
    destruct (Z.geb_spec (combo + 1) amount).
    + split_and!; try done; try lia. intros k Hk. apply Hrun. lia.
    + rewrite wrap_small by lia. split; [|unfold distance; cbn [c_vaddr]; Z.to_euclidean_division_equations; lia].
      split_and!; cbn [c_start c_combo c_vaddr c_index]; try done; lia.
  - assert (vaddr < q).
    { destruct (decide (vaddr < q)); [done|]. exfalso. apply He. replace vaddr with (q + (vaddr - q) / 4096 * 4096).
      - apply Hfree. Z.to_euclidean_division_equations. lia.
      - Z.to_euclidean_division_equations. lia. }
    assert (vaddr + 4096 ≤ q ∧ (q - (vaddr + 4096)) mod 4096 = 0) as [Hq Hm] by (Z.to_euclidean_division_equations; lia).
    rewrite wrap_small by lia. split; [|unfold distance; cbn [c_vaddr]; Z.to_euclidean_division_equations; lia].
    split_and!; cbn [c_start c_combo c_vaddr c_index]; try done; try lia.
Qed.

(** A missing table: 512 free pages. *)
Lemma skip_turn c s :
  searching c s → ix 12 (c_vaddr c) = 0 → tbl (mem s0) root (vpath (c_vaddr c)) = None →
  let combo := u64 (c_combo c + 512) in
  if combo >=? amount then found (c_start c) s
  else let c' := mk_cursor 512 (u64 (c_vaddr c + PAGE_SIZE * 512)) combo (c_start c) in
    searching c' s ∧ distance c' < distance c.
Proof.
  intros (Hlk & Hs & Hal & Hc & Hva & Hz & _) Hix Hn. cbv zeta. unfold PAGE_SIZE.
  rewrite (wrap_small 64 (c_combo c + 512)) by lia.
  assert (Hrun : ∀ k, 0 ≤ k < c_combo c + 512 → entry (c_start c + k * 4096) = 0).
  { apply run_extends; [done|]. intros j Hj. rewrite <-Hva. apply (hw_none _ _ (c_vaddr c)); [done|].
    apply page_step; lia. }
  destruct (Z.geb_spec (c_combo c + 512) amount).
  - split_and!; try done; try lia. intros k Hk. apply Hrun. lia.
  - rewrite wrap_small by lia. split; [|unfold distance; cbn [c_vaddr]; Z.to_euclidean_division_equations; lia].
    split_and!; cbn [c_start c_combo c_vaddr c_index]; try done; try lia. left. split; [done|].
    replace (c_vaddr c + 4096 * 512) with (c_vaddr c + 512 * 4096) by lia. apply page_wrap; lia.
Qed.

Lemma search_turn_ok c s :
  searching c s → 0 ≤ distance c ∧
  ((∃ r s', contiguous_turn pm pptr amount (vend pm) c s = Done (inr r, s') ∧ found r s') ∨
   (∃ c' s', contiguous_turn pm pptr amount (vend pm) c s = Done (inl c', s') ∧ searching c' s' ∧ distance c' < distance c)).
Proof.
  intros Hinv. pose proof Hinv as (Hlk & Hs & _ & Hc & Hva & _ & Hix).
  assert (Hlt : c_vaddr c < q + amount * 4096) by lia.
  split; [unfold distance; apply Z.div_pos; lia|]. unfold contiguous_turn.
  replace (c_vaddr c <? vend pm) with true by lia. rewrite run_bind.
  destruct Hix as [[Hi Hix]|(Hi & T & HT & Hsh)].
  - rewrite Hi. change (512 >=? 512) with true. cbv iota. destruct Hlk as (w0 & -> & Hl0 & Ho0).
    destruct (find_table_spec root pptr (c_vaddr c) (set_pptr (pptr_taken s0) w0 s0)) as (r & w & Hf & Hl & Ho & Hr);
      [destruct Hok as (?&?&?&?); by split_and!|done|].
    unfold findTable. fold root. rewrite Hf. cbn [fst snd].
    change (mem (set_pptr (pptr_taken s0) w0 s0)) with (mem s0) in Hr. fold entry in Hr. change (set_pptr _ w _) with (set_pptr (pptr_taken s0) w s0).
    assert (Hinv' : searching c (set_pptr (pptr_taken s0) w s0)).
    { destruct Hinv as (_ & H1 & H2 & H3 & H4 & H5 & H6). split; [exists w; split_and!; [done|done|intros j Hj; rewrite Ho by done; by apply Ho0]|].
      split_and!; try done; try lia. }
    destruct r as [n|[]].
    + pose proof (skip_turn c _ Hinv' Hix Hr) as Hsk. cbv zeta in Hsk |- *. destruct (_ >=? amount); [left|right]; eauto.
    + destruct Hr as (T & HT & Hsh). rewrite run_bind, (table_get_at _ _ _ T) by done. cbn [fst snd].
      change (mem (set_pptr _ w s0)) with (mem s0). pose proof (page_turn c _ 0 T Hinv' (eq_sym Hix) HT Hsh) as Hpt.
      rewrite <-(Hsh (c_vaddr c) eq_refl), Hix in Hpt. cbv zeta in Hpt |- *.
      destruct (negb _); [right; eauto|]. destruct (_ >=? amount); [left|right]; eauto.
  - assert (Hb : c_index c < 512) by (rewrite Hi; apply ix_bound; lia).
    replace (c_index c >=? 512) with false by lia. cbv iota.
    cbn [mret stateM_ret fst snd]. rewrite run_bind, (table_get_at _ _ _ T) by done. cbn [fst snd].
    assert (Hm : mem s = mem s0) by (by destruct Hlk as (w & -> & _)). rewrite Hm.
    pose proof (page_turn c _ (c_index c) T Hinv Hi HT Hsh) as Hpt.
    rewrite <-(Hsh (c_vaddr c) eq_refl), <-Hi in Hpt. cbv zeta in Hpt |- *.
    destruct (negb _); [right; eauto|]. destruct (_ >=? amount); [left|right]; eauto.
Qed.

End Search.

(** [findContiguous] finds pages whenever there are any: if [amount] pages from
    [q] on are unmapped, it returns the start of such a run, at [q] or below. *)
Lemma findContiguous_spec pm pptr amount executable q s :
  let root := pageRoot pm in let first := contiguous_start pm executable in
  ok root s → 0 ≤ pptr < 256 → 0 < amount → 0 ≤ first ≤ q → (q - first) mod 4096 = 0 →
  q + amount * 4096 ≤ 2 ^ 64 → q + (amount - 1) * 4096 < vend pm →
  (∀ k, 0 ≤ k < amount → hw (mem s) root (q + k * 4096) = 0) → 3 ≤ fa_left (phys s) →
  ∃ start s', findContiguous pm pptr amount executable s = Done (start, s') ∧
    first ≤ start ≤ q ∧ (q - start) mod 4096 = 0 ∧ (∀ k, 0 ≤ k < amount → hw (mem s) root (start + k * 4096) = 0) ∧
    moves root pptr 3 s s' ∧ same_pages root s s'.
Proof.
  intros root first Hok Hp Ha Hq Hal He Hv Hz Hl. unfold findContiguous. replace (amount =? 0) with false by lia.
  rewrite run_bind. unfold findTable. fold first root.
  destruct (find_table_spec root pptr first s Hok Hp) as (r & w & -> & Hwl & Hwo & Hr). mnext.
  pose proof (moves_aim root pptr w s Hok Hwl Hwo) as M0. set (s1 := set_pptr (pptr_taken s) w s) in *.
  assert (Hens : ∃ s2 T, match r with inl _ => findTableEnsure pm pptr first | inr _ => mret tt end s1 = Done (tt, s2) ∧
    moves root pptr 3 s s2 ∧ same_pages root s s2 ∧ (window s2).[pptr] = Done T ∧
    ∀ u, vpath u = vpath first → mem s2 T (ix 12 u) = hw (mem s2) root u).
  { destruct r as [n|[]].
    - destruct (findTableEnsure_spec pm pptr first s1) as (s2 & T & -> & M1 & P1 & W1 & R1); [by eapply moves_ok|done| |].
      { unfold cost. destruct (tbl _ _ _); [|exact Hl]. change (phys s1) with (phys s). lia. }
      exists s2, T. split; [done|]. split_and!; [|exact P1|done|].
      + eapply moves_le; [|exact (moves_trans _ _ _ _ _ _ _ M0 M1)]. unfold cost. destruct (tbl _ _ _); lia.
      + intros u Hu. unfold hw. rewrite Hu. fold root in R1. by rewrite R1.
    - destruct Hr as (T & HT & Hr). exists s1, T. split_and!; [done| |done|done|done]. eapply moves_le; [|exact M0]. lia. }
  destruct Hens as (s2 & T & -> & M2 & P2 & W2 & Hsh). mnext.
  assert (Hz2 : ∀ k, 0 ≤ k < amount → hw (mem s2) root (q + k * 4096) = 0) by (intros k Hk; rewrite P2; by apply Hz).
  destruct (siter_ends (searching pm pptr amount first q s2) (found pm pptr amount first q s2) (distance amount q) contiguous_fuel
     (contiguous_turn pm pptr amount (vend pm)) (mk_cursor (ix 12 first) first 0 first) s2) as (start & s3 & -> & Hf).
  - intros c s'. apply search_turn_ok; try done; [by eapply moves_ok|lia].
  - split; [exists (window s2); split_and!; [by rewrite set_pptr_same|apply (moves_ok _ _ _ _ _ M2)|done]|].
    cbn [c_start c_combo c_vaddr c_index]. split_and!; try done; try lia. right. split; [done|]. by exists T.
  - unfold distance, contiguous_fuel. cbn [c_vaddr]. Z.to_euclidean_division_equations. lia.
  - mnext. destruct Hf as ((w3 & -> & Hl3 & Ho3) & Hs & Hm & Hzs). exists start. eexists. split; [reflexivity|].
    split_and!; try done; try lia; [intros k Hk; rewrite <-P2; by apply Hzs|].
    eapply moves_le; [|eapply moves_trans; [exact M2|by apply moves_aim; [eapply moves_ok|..]]]. lia.
Qed.

(** The search ends whenever there is something to find: if
    [amount] pages from [q] on are unmapped, [findContiguous] returns the start of
    such a run, at [q] or below, after at most one turn per page, and changes no
    translation. *)
Lemma findContiguous_terminates pm pptr amount executable q s :
  let root := pageRoot pm in let first := contiguous_start pm executable in
  ok root s → 0 ≤ pptr < 256 → 0 < amount → 0 ≤ first ≤ q → (q - first) mod 4096 = 0 →
  q + amount * 4096 ≤ 2 ^ 64 → q + (amount - 1) * 4096 < vend pm →
  (∀ k, 0 ≤ k < amount → hw (mem s) root (q + k * 4096) = 0) → 3 ≤ fa_left (phys s) →
  ∃ start s', findContiguous pm pptr amount executable s = Done (start, s') ∧
    first ≤ start ≤ q ∧ (∀ k, 0 ≤ k < amount → hw (mem s) root (start + k * 4096) = 0) ∧ same_pages root s s'.
Proof.
  intros root first Hok Hp Ha Hq Hal He Hv Hz Hl.
  destruct (findContiguous_spec pm pptr amount executable q s) as (start & s' & Hs & Hst & _ & Hfz & _ & Hsp); [done..|].
  by exists start, s'.
Qed.

(** ** Allocation *)

(** A zeroed frame nobody had, which no walk reads. *)
Definition fresh_frame (root : Z) (s s' : machine A) (p : Z) : Prop :=
  is_frame p ∧ ¬ fa_used (phys s) p ∧ fa_used (phys s') p ∧ ¬ reached (mem s') root p ∧
  ∀ i, 0 ≤ i < 512 → mem s' p i = 0.

Lemma fresh_page {B} root pptr s (k : Z → stateM (machine A) B) :
  ok root s → 0 ≤ pptr < 256 → 0 < fa_left (phys s) →
  ∃ p s', (p ← Phys_alloc PAGE_SIZE; aim_pptr pptr p;; table_fill pptr 0 512;; k p) s = k p s' ∧
    moves root pptr 1 s s' ∧ same_pages root s s' ∧ fresh_frame root s s' p.
Proof.
  intros (Hinv & Hroot & Htree & Hwl) Hp Hl.
  destruct (fa_alloc (phys s) PAGE_SIZE Hinv) as (p & a & Ha & Hinv' & Hleft & Hf & Hn & Hu); [unfold PAGE_SIZE; lia|lia|].
  assert (HA : Phys_alloc PAGE_SIZE s = Done (p, set_phys a s)) by (unfold Phys_alloc; by rewrite Ha).
  rewrite run_bind, HA. mnext.
  destruct (aim_ok (set_phys a s) pptr p Hp Hwl) as (w & -> & Hwl' & Hw & Hwo). mrun.
  rewrite frame_of_frame in Hw by done. unfold table_fill. mfields. rewrite Hw. mfields.
  destruct (tree_fill (fa_used (phys s)) (mem s) root p 0 512 Htree (unused_unreached _ _ _ _ Htree Hn)) as (Htbl & Htree' & Hhw & Hst).
  exists p. eexists. split; [reflexivity|]. mfields. split_and!; [|exact Hhw|].
  - split; [split_and!; mfields; try done; eapply tree_mono, Htree'; intros q Hq; apply Hu; by right|]. mfields. split; [split; [lia|done]|]. split; [lia|].
    split; [intros q Hq; apply Hu; by right|]. split; [|done]. intros t Ht Hnt. split.
    + intros [(p' & Hp' & Ht')|Hs]; [|apply Hnt; right; by apply Hst]. rewrite Htbl in Ht' by done. apply Hnt. left. by exists p'.
    + intros i. apply fill_words_ne. congruence.
  - split_and!; try done; try lia; mfields; [apply Hu; by left| |].
    + intros [(p' & Hp' & Ht')|Hs]; [rewrite Htbl in Ht' by done; apply Hn; by eapply (proj1 Htree)|].
      destruct Htree as (_ & _ & Hstub). by destruct (Hstub p (Hst p Hs)).
    + intros i Hi. by apply fill_words_in.
Qed.

(** The pages [start], [start + 4096], ... show the frames [fs], every other page
    what it showed before. *)
Definition maps_to (root start flags : Z) (fs : list Z) (s s' : machine A) : Prop :=
  (∀ k p, fs !! k = Some p → hw (mem s') root (start + Z.of_nat k * 4096) = Z.lor p flags) ∧
  (∀ w, (∀ k, 0 ≤ k < Z.of_nat (length fs) → vpn w ≠ vpn (start + k * 4096)) → hw (mem s') root w = hw (mem s) root w).

Lemma maps_to_snoc root start flags fs p s s' s'' :
  Z.of_nat (length fs) < 2 ^ 36 → maps_to root start flags fs s s' →
  (∀ w, hw (mem s'') root w =
     if decide (vpn w = vpn (start + Z.of_nat (length fs) * 4096)) then Z.lor p flags else hw (mem s') root w) →
  maps_to root start flags (fs ++ [p]) s s''.
Proof.
  intros Hlen [H1 H2] Hs. split.
  - intros k p' Hk. rewrite Hs. apply lookup_app_Some in Hk as [Hk|[Hge Hk]].
    + pose proof (lookup_lt_Some _ _ _ Hk). rewrite decide_False; [by apply H1|].
      intros He%vpn_distinct; lia.
    + apply list_lookup_singleton_Some in Hk as [Hk <-]. rewrite decide_True; [done|]. do 2 f_equal. lia.
  - intros w Hw. rewrite length_app in Hw. simpl in Hw. rewrite Hs. rewrite decide_False by (apply Hw; lia).
    apply H2. intros k Hk. apply Hw. lia.
Qed.

Lemma fresh_frame_moves root pptr n s s1 s2 p :
  fresh_frame root s s1 p → moves root pptr n s1 s2 → fresh_frame root s s2 p.
Proof.
  intros (H1 & H2 & H3 & H4 & H5) (_ & _ & _ & Hu & Hc & _). destruct (Hc p H3 H4) as [Hn He].
  split_and!; try done; [apply H1..|by apply Hu|]. intros i Hi. rewrite He. by apply H5.
Qed.

Lemma fresh_frame_back root pptr n s s1 s2 p :
  moves root pptr n s s1 → fresh_frame root s1 s2 p → fresh_frame root s s2 p.
Proof.
  intros (_ & _ & _ & Hu & _) (H1 & H2 & H3). split; [done|]. split; [intros Hp; apply H2; by apply Hu|done].
Qed.

Lemma alloc_loop pm pptr start flags amount s :
  let root := pageRoot pm in
  ok root s → 0 ≤ pptr < 256 → root ∈ locked s → 0 ≤ start → start + amount * 4096 ≤ 2 ^ 64 → 0 ≤ amount < 2 ^ 36 →
  4 * amount ≤ fa_left (phys s) →
  ∃ s' fs, sfor (Z.to_nat amount) 0 (λ i,
      p ← Phys_alloc PAGE_SIZE;
      aim_pptr pptr p;; table_fill pptr 0 512;;
      assign pm pptr (u64 (start + i * PAGE_SIZE)) p flags) s = Done (tt, s') ∧
    moves root pptr (4 * amount) s s' ∧ Z.of_nat (length fs) = amount ∧ NoDup fs ∧
    Forall (fresh_frame root s s') fs ∧ maps_to root start flags fs s s'.
Proof.
  intros root Hok Hp Hlk Hst Hend Ham Hl.
  destruct (sfor_keeps (λ i s', moves root pptr (4 * i) s s' ∧ ∃ fs, Z.of_nat (length fs) = i ∧ NoDup fs ∧
    Forall (fresh_frame root s s') fs ∧ maps_to root start flags fs s s') (Z.to_nat amount) 0
    (λ i, p ← Phys_alloc PAGE_SIZE; aim_pptr pptr p;; table_fill pptr 0 512;;
          assign pm pptr (u64 (start + i * PAGE_SIZE)) p flags) s) as (s' & He & Hm & fs & Hfs).
  - intros i si Hi (M & fs & Hlen & Hnd & Hfs & Hmap).
    assert (Hlsi : 4 ≤ fa_left (phys si)) by (destruct M as (_ & _ & ? & _); lia).
    destruct (fresh_page root pptr si (λ p, assign pm pptr (u64 (start + i * PAGE_SIZE)) p flags)) as (p & s1 & -> & M1 & P1 & F1);
      [by eapply moves_ok|done|lia|].
    destruct (assign_spec pm pptr (u64 (start + i * PAGE_SIZE)) p flags s1) as (s2 & -> & M2 & H2).
    { by eapply moves_ok. } { done. } { destruct M as (_&_&_&_&_&E1&_), M1 as (_&_&_&_&_&E2&_). fold root. by rewrite E2, E1. }
    { destruct M1 as (_ & _ & L1 & _). unfold cost. destruct (tbl _ _ _); lia. }
    fold root in M2, H2. assert (M2' : moves root pptr 3 s1 s2) by (eapply moves_le, M2; unfold cost; destruct (tbl _ _ _); lia).
    exists s2. split; [done|]. split; [eapply moves_le; [|eapply moves_trans, M2'; eapply moves_trans, M1; exact M]; lia|].
    assert (F2 : fresh_frame root s s2 p) by (eapply fresh_frame_moves, M2'; eapply fresh_frame_back, F1; exact M).
    exists (fs ++ [p]). rewrite length_app. split_and!; [simpl; lia| | |].
    + apply NoDup_app. split_and!; [done| |apply NoDup_singleton]. intros x Hx ->%list_elem_of_singleton.
      rewrite Forall_forall in Hfs. destruct (Hfs _ Hx) as (_ & _ & Hu & _). by destruct F1 as (_ & Hnu & _).
    + apply Forall_app. split; [|by apply Forall_singleton]. eapply Forall_impl; [exact Hfs|].
      intros x Hx. eapply fresh_frame_moves, M2'. eapply fresh_frame_moves, M1. done.
    + apply (maps_to_snoc root start flags fs p s s1); [lia| |].
      * destruct Hmap as [Ha Hb]. split; [intros k p' Hk; rewrite P1; by apply Ha|intros w Hw; rewrite P1; by apply Hb].
      * intros w. rewrite H2, mask_frame by apply F1. unfold PAGE_SIZE. rewrite wrap_small by lia. by rewrite Hlen.
  - split; [by apply moves_refl|]. exists []. split_and!; try done; constructor.
  - rewrite Z.add_0_l, Z2Nat.id in * by lia. destruct Hfs as (? & ? & ? & ?). by exists s', fs.
Qed.

(** [amount] unmapped pages from [q] on, where the search starting at [first]
    gets to. *)
Definition free_run (pm : Pagemap) (m : Z → Z → Z) (first amount q : Z) : Prop :=
  0 ≤ first ≤ q ∧ (q - first) mod 4096 = 0 ∧ q + amount * 4096 ≤ 2 ^ 64 ∧ q + (amount - 1) * 4096 < vend pm ∧
  ∀ k, 0 ≤ k < amount → hw m (pageRoot pm) (q + k * 4096) = 0.

Lemma ceiltopg_bounds bytes : 0 < bytes ≤ 2 ^ 48 - 4096 → 0 < ceiltopg_u64 bytes < 2 ^ 36.
Proof.
  intros. unfold ceiltopg_u64, PAGE_SIZE. rewrite wrap_small by lia. Z.to_euclidean_division_equations. lia.
Qed.

Lemma ok_entered root pptr s : ok root s → ok root (entered root pptr s).
Proof. done. Qed.

Lemma moves_out root pptr n s s' :
  moves root pptr n (entered root pptr s) s' → ok root (left_ s s') ∧ locked s' = locked (entered root pptr s) ∧
  pptr_taken s' = pptr_taken (entered root pptr s) ∧ recached s' = recached s.
Proof. intros (Hok & _ & _ & _ & _ & ? & ? & ? & _). done. Qed.

Lemma alloc_pages_spec pm bytes flags source q s :
  let root := pageRoot pm in let amount := ceiltopg_u64 bytes in
  let first := contiguous_start pm (flag flags PAGE_EXEC) in
  ok root s → idle root s → 0 < bytes ≤ 2 ^ 48 - 4096 → flag flags PAGE_FIXED = false →
  free_run pm (mem s) first amount q → (first = 0 → hw (mem s) root 0 ≠ 0) → 3 + 4 * amount ≤ fa_left (phys s) →
  ∃ start fs s', alloc pm bytes flags source s = Done (start, s') ∧
    first ≤ start ≤ q ∧ start ≠ 0 ∧ free_run pm (mem s) first amount start ∧
    Z.of_nat (length fs) = amount ∧ NoDup fs ∧ Forall (fresh_frame root s s') fs ∧
    maps_to root start (alloc_flags pm flags) fs s s' ∧ ok root s' ∧ idle root s'.
Proof.
  intros root amount first Hok Hi Hb Hfx (Hq & Hal & Hend & Hve & Hz) H0 Hl.
  pose proof (ceiltopg_bounds bytes Hb) as Ham. fold amount in Ham.
  destruct (enter_ok pm s Hi) as (pptr & Hp & Ht & Hk). unfold alloc. replace (bytes =? 0) with false by lia. rewrite Hk.
  rewrite run_bind. unfold find_pages. rewrite Hfx. fold amount.
  destruct (findContiguous_spec pm pptr amount (flag flags PAGE_EXEC) q (entered root pptr s))
    as (start & s1 & Hs1 & Hst & Hsa & Hsz & M1 & P1); [done|done|lia|done|done|done|done|done|change (phys (entered root pptr s)) with (phys s); lia|].
  change (mem (entered root pptr s)) with (mem s) in Hsz. fold root in Hsz, M1, P1. fold first in Hst. fold root. rewrite Hs1. mnext.
  assert (Hne : start ≠ 0). { intros He. apply (H0 ltac:(lia)). pose proof (Hsz 0 ltac:(lia)) as Hz0. by rewrite He in Hz0. }
  replace (start =? 0) with false by lia. rewrite run_bind.
  destruct (alloc_loop pm pptr start (alloc_flags pm flags) amount s1) as (s2 & fs & Hs2 & M2 & Hlen & Hnd & Hfr & Hmap).
  { by eapply moves_ok. } { done. } { destruct M1 as (_&_&_&_&_&E1&_). rewrite E1. set_solver. } { lia. } { lia. } { lia. }
  { destruct M1 as (_ & _ & L1 & _). change (phys (entered root pptr s)) with (phys s) in L1. lia. }
  rewrite Hs2. mnext. unfold recache at 1, modify at 1. mnext. fold root in M2, Hfr, Hmap.
  pose proof (moves_trans _ _ _ _ _ _ _ M1 M2) as M. destruct (moves_out _ _ _ _ _ M) as (Hok' & Hlk' & Htk' & Hre').
  match goal with |- context[lock_release pm ?s3] => set (s4 := s3) end.
  pose proof (unlock_ok pm pptr s s4 (mret start) Hi Hp Ht Hlk' Htk') as Hlv. rewrite run_bind in Hlv. rewrite Hlv.
  exists start, fs, (left_ s s4). split; [done|]. split; [done|]. split; [done|].
  split; [unfold free_run; split_and!; try done; try lia; Z.to_euclidean_division_equations; lia|].
  split; [done|]. split; [done|]. split.
  - eapply Forall_impl; [exact Hfr|]. intros p Hfp. exact (fresh_frame_back _ _ _ _ _ _ _ M1 Hfp).
  - split; [|split; [exact Hok'|split; [apply Hi|apply Hi]]]. destruct Hmap as [Ha Hb']. split; [exact Ha|].
    intros w Hw. etrans; [exact (Hb' w Hw)|]. apply P1.
Qed.

(** C4 (functional): with a run of unmapped pages and frames left, [alloc]
    returns the start of a run of unmapped pages, that one or one below it, and
    maps it to distinct, zeroed frames nobody had, with the asked flags; every
    other page keeps its translation, and the lock and the window are free again. *)
Theorem alloc_maps_fresh_pages pm bytes flags source q s :
  let root := pageRoot pm in let amount := ceiltopg_u64 bytes in
  let first := contiguous_start pm (flag flags PAGE_EXEC) in
  ok root s → idle root s → 0 < bytes ≤ 2 ^ 48 - 4096 → flag flags PAGE_FIXED = false →
  free_run pm (mem s) first amount q → (first = 0 → hw (mem s) root 0 ≠ 0) → 3 + 4 * amount ≤ fa_left (phys s) →
  ∃ start fs s', alloc pm bytes flags source s = Done (start, s') ∧
    first ≤ start ≤ q ∧ start ≠ 0 ∧ free_run pm (mem s) first amount start ∧
    Z.of_nat (length fs) = amount ∧ NoDup fs ∧ Forall (fresh_frame root s s') fs ∧
    maps_to root start (alloc_flags pm flags) fs s s' ∧ ok root s' ∧ idle root s'.
Proof. intros root amount first Hok Hi Hb Hfx Hrun H0 Hl. by apply alloc_pages_spec. Qed.

(** ** Mapping *)

Lemma mask_aligned p : 0 ≤ p < 2 ^ 64 → p mod 4096 = 0 → Z.land p MEM_PAGE_MASK = p.
Proof.
  intros Hp Hm. bitwise k. destruct (Z.leb_spec 12 k).
  - destruct (Z.ltb_spec k 64); [by rewrite andb_true_r|]. by rewrite (high_bits 64 p k) by lia.
  - rewrite andb_false_r. rewrite <-(Z.mod_pow2_bits_low p 12 k) by lia. change (2 ^ 12) with 4096. by rewrite Hm, Z.bits_0.
Qed.

Lemma assign_loop pm pptr start flags (g : Z → Z) (n : nat) s :
  let root := pageRoot pm in
  ok root s → 0 ≤ pptr < 256 → root ∈ locked s → 0 ≤ start → start + Z.of_nat n * 4096 ≤ 2 ^ 64 → Z.of_nat n < 2 ^ 36 →
  3 * Z.of_nat n ≤ fa_left (phys s) →
  ∃ s', sfor n 0 (λ i, assign pm pptr (u64 (start + i * PAGE_SIZE)) (g i) flags) s = Done (tt, s') ∧
    moves root pptr (3 * Z.of_nat n) s s' ∧
    maps_to root start flags ((λ i, Z.land (g i) MEM_PAGE_MASK) <$> seqZ 0 (Z.of_nat n)) s s'.
Proof.
  intros root Hok Hp Hlk Hst Hend Hn Hl.
  destruct (sfor_keeps (λ i s', 0 ≤ i ∧ moves root pptr (3 * i) s s' ∧
    maps_to root start flags ((λ i, Z.land (g i) MEM_PAGE_MASK) <$> seqZ 0 i) s s') n 0
    (λ i, assign pm pptr (u64 (start + i * PAGE_SIZE)) (g i) flags) s) as (s' & He & _ & Hm & Hmap).
  - intros i si Hi (_ & M & Hmap).
    destruct (assign_spec pm pptr (u64 (start + i * PAGE_SIZE)) (g i) flags si) as (s2 & -> & M2 & H2).
    { by eapply moves_ok. } { done. } { destruct M as (_&_&_&_&_&E1&_). fold root. by rewrite E1. }
    { destruct M as (_ & _ & L1 & _). unfold cost. destruct (tbl _ _ _); lia. }
    fold root in M2, H2. assert (M2' : moves root pptr 3 si s2) by (eapply moves_le, M2; unfold cost; destruct (tbl _ _ _); lia).
    exists s2. split; [done|]. split; [lia|]. split; [eapply moves_le; [|eapply moves_trans, M2'; exact M]; lia|].
    rewrite seqZ_app, fmap_app by lia. change (seqZ (0 + i) 1) with [0 + i]. cbn [fmap list_fmap]. rewrite Z.add_0_l.
    assert (Hlen : Z.of_nat (length ((λ i, Z.land (g i) MEM_PAGE_MASK) <$> seqZ 0 i)) = i) by (rewrite length_fmap, length_seqZ; lia).
    apply (maps_to_snoc root start flags _ _ s si); [lia|done|].
    intros w. rewrite H2, Hlen. unfold PAGE_SIZE. by rewrite wrap_small by lia.
  - split; [done|]. split; [by apply moves_refl|]. split; [done|]. done.
  - rewrite Z.add_0_l in *. by exists s'.
Qed.

(** The flags and the frames [map] writes. *)
Definition map_flags (pm : Pagemap) (flags : Z) : Z :=
  let flags := Z.lor flags (Z.lor PAGE_NOPHYS PAGE_PRESENT) in
  Z.land (u16 (Z.lor (if flag flags PAGE_ARBITRARY then Z.land flags (Z.lnot PAGE_PRESENT) else flags) (gflags pm))) 0x0FFF.
Definition map_frames (flags paddr n : Z) : list Z :=
  (λ i, if flag flags PAGE_ARBITRARY then ARBITRARY else paddr - paddr mod 4096 + i * 4096) <$> seqZ 0 n.

(** The pages [map] writes: one more than it looked for when [paddr] is not page
    aligned. *)
Definition map_amount (bytes paddr : Z) : Z :=
  ceiltopg_u64 bytes + (if paddr mod 4096 =? 0 then 0 else 1).

Lemma flag_lor_other e f k : 0 ≤ k → Z.testbit f k = false → flag (Z.lor e f) (2 ^ k) = flag e (2 ^ k).
Proof. intros Hk Hf. rewrite !flag_bit, Z.lor_spec, Hf, orb_false_r by done. done. Qed.

Lemma map_frames_masked flags paddr n :
  0 ≤ paddr → paddr + n * 4096 < 2 ^ 64 →
  (λ i, Z.land (if flag flags PAGE_ARBITRARY then ARBITRARY else u64 (paddr + i * PAGE_SIZE - Z.land paddr 0xFFF)) MEM_PAGE_MASK)
    <$> seqZ 0 n = map_frames flags paddr n.
Proof.
  intros Hp Hn. unfold map_frames. apply list_fmap_ext. intros k i Hi%list_elem_of_lookup_2%elem_of_seqZ.
  destruct (flag flags PAGE_ARBITRARY); [done|]. rewrite low_offset. unfold PAGE_SIZE.
  rewrite wrap_small by (Z.to_euclidean_division_equations; lia).
  rewrite mask_aligned by (Z.to_euclidean_division_equations; lia). lia.
Qed.

Lemma map_spec pm bytes paddr flags source q s :
  let root := pageRoot pm in let n := map_amount bytes paddr in
  ok root s → idle root s → 0 < bytes ≤ 2 ^ 48 - 8192 → flag flags PAGE_FIXED = false → 0 ≤ paddr → paddr + n * 4096 < 2 ^ 64 →
  free_run pm (mem s) (vstart pm) (ceiltopg_u64 bytes) q → q + n * 4096 ≤ 2 ^ 64 → 3 + 3 * n ≤ fa_left (phys s) →
  ∃ start s', map pm bytes paddr flags source s = Done (u64 (start + paddr mod 4096), s') ∧
    vstart pm ≤ start ≤ q ∧ (∀ k, 0 ≤ k < ceiltopg_u64 bytes → hw (mem s) root (start + k * 4096) = 0) ∧
    maps_to root start (map_flags pm flags) (map_frames flags paddr n) s s' ∧ ok root s' ∧ idle root s'.
Proof.
  intros root n Hok Hi Hb Hfx Hpa Hp64 (Hq & Hal & Hend & Hve & Hz) Hq64 Hl.
  assert (Ham : 0 < ceiltopg_u64 bytes < 2 ^ 36 - 1).
  { unfold ceiltopg_u64, PAGE_SIZE. rewrite wrap_small by lia. Z.to_euclidean_division_equations. lia. }
  assert (Hn : ceiltopg_u64 bytes ≤ n ≤ ceiltopg_u64 bytes + 1) by (unfold n, map_amount; destruct (_ =? 0); lia).
  destruct (enter_ok pm s Hi) as (pptr & Hp & Ht & Hk). unfold map. rewrite Hk. rewrite run_bind. unfold find_pages.
  change PAGE_FIXED with (2 ^ 13) in *. rewrite flag_lor_other, Hfx by done.
  destruct (findContiguous_spec pm pptr (ceiltopg_u64 bytes) false q (entered root pptr s))
    as (start & s1 & Hs1 & Hst & Hsa & Hsz & M1 & P1);
    [done|done|lia|done|done|done|done|done|change (phys (entered root pptr s)) with (phys s); lia|].
  change (mem (entered root pptr s)) with (mem s) in Hsz. change (contiguous_start pm false) with (vstart pm) in Hst.
  fold root in Hsz, M1, P1. fold root. rewrite Hs1. mnext.
  replace (if Z.land paddr 0xFFF >? 0 then ceiltopg_u64 bytes + 1 else ceiltopg_u64 bytes) with n.
  2: { rewrite low_offset. unfold n, map_amount. pose proof (Z.mod_pos_bound paddr 4096 ltac:(lia)).
       destruct (Z.eqb_spec (paddr mod 4096) 0), (Z.gtb_spec (paddr mod 4096) 0); lia. }
  change PAGE_ARBITRARY with (2 ^ 14). rewrite flag_lor_other by done. change (2 ^ 14) with PAGE_ARBITRARY.
  assert (Hfl : map_flags pm flags = Z.land (u16 (Z.lor (if flag flags PAGE_ARBITRARY
    then Z.land (Z.lor flags (Z.lor PAGE_NOPHYS PAGE_PRESENT)) (Z.lnot PAGE_PRESENT)
    else Z.lor flags (Z.lor PAGE_NOPHYS PAGE_PRESENT)) (gflags pm))) 0x0FFF).
  { unfold map_flags. change PAGE_ARBITRARY with (2 ^ 14). by rewrite flag_lor_other. }
  rewrite <-Hfl.
  destruct (assign_loop pm pptr start (map_flags pm flags)
    (λ i, if flag flags PAGE_ARBITRARY then ARBITRARY else u64 (paddr + i * PAGE_SIZE - Z.land paddr 0xFFF)) (Z.to_nat n) s1)
    as (s2 & -> & M2 & Hmap).
  { by eapply moves_ok. } { done. } { destruct M1 as (_&_&_&_&_&E1&_). rewrite E1. set_solver. } { lia. } { lia. } { lia. }
  { destruct M1 as (_ & _ & L1 & _). change (phys (entered root pptr s)) with (phys s) in L1. lia. }
  mnext. unfold recache at 1, modify at 1. mnext. fold root in M2, Hmap. rewrite Z2Nat.id, map_frames_masked in Hmap by lia.
  pose proof (moves_trans _ _ _ _ _ _ _ M1 M2) as M. destruct (moves_out _ _ _ _ _ M) as (Hok' & Hlk' & Htk' & Hre').
  match goal with |- context[lock_release pm ?s3] => set (s4 := s3) end.
  pose proof (unlock_ok pm pptr s s4 (mret (u64 (start + Z.land paddr 0xFFF))) Hi Hp Ht Hlk' Htk') as Hlv.
  rewrite run_bind in Hlv. rewrite Hlv. exists start, (left_ s s4). rewrite low_offset. split; [done|]. split; [done|].
  split; [done|]. split; [|split; [exact Hok'|split; [apply Hi|apply Hi]]]. destruct Hmap as [Ha Hb']. split; [exact Ha|].
  intros w Hw. etrans; [exact (Hb' w Hw)|]. apply P1.
Qed.

(** With a run of [ceiltopg bytes] unmapped pages, [map] maps
    pages from its start on to consecutive frames from the page of [paddr] on (or
    marks them with the arbitrary entry), with the asked flags, and returns the
    address of [paddr] there; every page outside the [map_amount] pages keeps its
    translation. *)
Lemma map_translates pm bytes paddr flags source q s :
  let root := pageRoot pm in let n := map_amount bytes paddr in
  ok root s → idle root s → 0 < bytes ≤ 2 ^ 48 - 8192 → flag flags PAGE_FIXED = false → 0 ≤ paddr → paddr + n * 4096 < 2 ^ 64 →
  free_run pm (mem s) (vstart pm) (ceiltopg_u64 bytes) q → q + n * 4096 ≤ 2 ^ 64 → 3 + 3 * n ≤ fa_left (phys s) →
  ∃ start s', map pm bytes paddr flags source s = Done (u64 (start + paddr mod 4096), s') ∧
    vstart pm ≤ start ≤ q ∧ (∀ k, 0 ≤ k < ceiltopg_u64 bytes → hw (mem s) root (start + k * 4096) = 0) ∧
    maps_to root start (map_flags pm flags) (map_frames flags paddr n) s s' ∧ ok root s' ∧ idle root s'.
Proof. intros. by apply (map_spec pm bytes paddr flags source q s). Qed.

(** ** Freeing *)

(** A frame in use for a page. *)
Definition page_frame (root : Z) (s : machine A) (p : Z) : Prop :=
  is_frame p ∧ fa_used (phys s) p ∧ ¬ reached (mem s) root p.

Lemma free_frames_spec root l s :
  ok root s → NoDup l → Forall (page_frame root s) l →
  ∃ a, free_frames l s = Done (tt, set_phys a s) ∧ ok root (set_phys a s) ∧
    fa_left a = fa_left (phys s) + Z.of_nat (length l) ∧ ∀ q, fa_used a q ↔ fa_used (phys s) q ∧ q ∉ l.
Proof.
  revert s. induction l as [|p l IH]; intros s Hok Hnd Hl.
  - exists (phys s). assert (set_phys (phys s) s = s) as -> by (by destruct s). split; [done|]. split; [done|].
    split; [simpl; lia|]. set_solver.
  - apply NoDup_cons in Hnd as [Hp Hnd]. apply Forall_cons in Hl as [(Hf & Hu & Hr) Hl].
    pose proof Hok as (Hinv & Hroot & Htree & Hwl).
    destruct (fa_free (phys s) p PAGE_SIZE Hinv) as (a & Ha & Hinv' & Hleft & Hused); [unfold PAGE_SIZE; lia|done|].
    assert (HF : Phys_free p PAGE_SIZE s = Done (tt, set_phys a s)) by (unfold Phys_free; by rewrite Ha).
    cbn [free_frames]. rewrite run_bind, HF. mnext.
    destruct (IH (set_phys a s)) as (a' & -> & Hok' & Hleft' & Hused').
    + split_and!; try done. mfields. eapply tree_mono, (tree_drop _ _ _ p Htree Hr). intros q Hq. by apply Hused.
    + done.
    + rewrite Forall_forall in Hl |- *. intros q Hq. destruct (Hl q Hq) as (Hqf & Hqu & Hqr). split_and!; [apply Hqf..| |done].
      mfields. apply Hused. split; [done|]. by intros ->.
    + exists a'. split; [done|]. split; [done|]. split; [mfields; simpl in *; lia|]. intros q. rewrite Hused'. mfields. rewrite Hused.
      set_solver.
Qed.

(** One page of [free]: its entry is cleared and its frame put aside. *)
Lemma free_page {B} pm pptr v s p fl (k : Z → stateM (machine A) B) :
  let root := pageRoot pm in
  ok root s → 0 ≤ pptr < 256 → root ∈ locked s → vstart pm ≤ v ≤ vend pm →
  hw (mem s) root v = Z.lor p fl → 0 ≤ fl < 4096 → flag fl PAGE_NOPHYS = false → page_frame root s p →
  ∃ s', (raw ← rawof_internal pm pptr v;
     when (negb (raw =? 0) && negb (Z.land raw MEM_PAGE_MASK =? ARBITRARY) && negb (flag raw PAGE_NOPHYS))
       (aim_pptr pptr (Z.land raw MEM_PAGE_MASK);; table_fill pptr 0x5A 512);;
     a ← unassign pm pptr v; k a) s = k p s' ∧
    ok root s' ∧ phys s' = phys s ∧ (∀ q, page_frame root s q → page_frame root s' q) ∧
    locked s' = locked s ∧ pptr_taken s' = pptr_taken s ∧ recached s' = recached s ∧
    ∀ w, hw (mem s') root w = if decide (vpn w = vpn v) then 0 else hw (mem s) root w.
Proof.
  intros root Hok Hp Hlk Hv He Hfl Hnp (Hf & Hu & Hr). rewrite run_bind. unfold rawof_internal. rewrite run_bind. unfold findTable.
  destruct (find_table_spec root pptr (Z.land v MEM_PAGE_MASK) s Hok Hp) as (r & w & Hfind & Hwl & Hwo & Hr').
  fold root. rewrite Hfind. mnext. rewrite vpath_mask in Hr'. pose proof (entry_nonzero p fl Hf) as Hne.
  destruct r as [n|[]]; [by rewrite (hw_none _ _ v v Hr' eq_refl) in He|]. destruct Hr' as (T & HT & Hsh).
  rewrite (table_get_at _ _ _ T) by done. mnext. change (mem (set_pptr _ w s)) with (mem s). rewrite (Hsh v eq_refl), He.
  rewrite mask_entry, nophys_entry, Hnp by done. replace (Z.lor p fl =? 0) with false by lia.
  replace (p =? ARBITRARY) with false by (unfold ARBITRARY; destruct Hf; lia). cbn [negb andb when]. rewrite run_bind.
  destruct (aim_get s w pptr p Hp Hwl) as (w' & -> & Hwl' & Hwo' & Hw' & _). mnext. unfold table_fill at 1.
  change (window (set_pptr _ w' s)) with w'. rewrite Hw', frame_of_frame by done. rewrite bind_ret. mnext.
  change (set_mem (fill_words (mem (set_pptr (pptr_taken s) w' s)) p 90 512) (set_pptr (pptr_taken s) w' s))
    with (mk_machine (fill_words (mem s) p 90 512) (phys s) (pptr_taken s) w' (locked s) (recached s)).
  set (s2 := mk_machine _ _ _ _ _ _). pose proof Hok as (Hinv & Hroot & Htree & _).
  destruct (tree_fill (fa_used (phys s)) (mem s) root p 90 512 Htree Hr) as (Htbl & Htree' & Hhw & Hst).
  assert (Hok2 : ok root s2) by (by split_and!).
  assert (Hc : cost (mem s2) root v = 0) by (apply mapped_cost; simpl; rewrite Hhw; by rewrite He).
  destruct (unassign_spec pm pptr v s2) as (s3 & Hun & M3 & Hh3); [done..| |done|].
  { fold root. rewrite Hc. by apply fa_left_nonneg. }
  fold root in Hun, M3, Hh3. change (hw (mem s2) root v) with (hw (fill_words (mem s) p 90 512) root v) in Hun.
  rewrite Hhw, He, nophys_entry, Hnp, mask_entry in Hun by done. rewrite Hun. mnext. exists s3. split; [done|].
  rewrite Hc in M3. destruct M3 as (Hok3 & [_ Hph] & _ & Hu3 & Hc3 & Hl3 & Ht3 & Hre3 & _).
  split; [done|]. split; [by rewrite Hph|]. split_and!; [| |done|done|].
  - intros q (Hqf & Hqu & Hqr). split; [done|]. rewrite Hph by done. split; [done|]. apply Hc3; [done|].
    intros [(p' & Hp' & Ht')|Hs']; apply Hqr; [left|right; by apply Hst]. exists p'. split; [done|]. by rewrite <-Htbl.
  - done.
  - intros w0. rewrite Hh3. case_decide; [done|]. apply Hhw.
Qed.

(** What [free] did to the pages from [v] on, so far. *)
Definition unmapped (root v n : Z) (m m' : Z → Z → Z) : Prop :=
  (∀ k, 0 ≤ k < n → hw m' root (v + k * 4096) = 0) ∧
  (∀ w, (∀ k, 0 ≤ k < n → vpn w ≠ vpn (v + k * 4096)) → hw m' root w = hw m root w).

Lemma unmapped_cons root v n m m1 m2 :
  0 ≤ n < 2 ^ 36 - 1 → (∀ w, hw m1 root w = if decide (vpn w = vpn v) then 0 else hw m root w) →
  unmapped root (v + 4096) n m1 m2 → unmapped root v (n + 1) m m2.
Proof.
  intros Hn H1 [H2 H3]. assert (Hsh : ∀ k, v + 4096 + k * 4096 = v + (k + 1) * 4096) by lia. split.
  - intros k Hk. destruct (decide (k = 0)) as [->|].
    + rewrite H3; [rewrite H1; by rewrite decide_True by (f_equal; lia)|].
      intros j Hj. rewrite Hsh. intros He%vpn_distinct; lia.
    + replace (v + k * 4096) with (v + 4096 + (k - 1) * 4096) by lia. apply H2. lia.
  - intros w Hw. rewrite H3.
    + rewrite H1, decide_False; [done|]. replace v with (v + 0 * 4096) by lia. apply Hw. lia.
    + intros k Hk. rewrite Hsh. apply Hw. lia.
Qed.

(** The frames of the pages from [v] on. *)
Definition shows_frames (root v fl : Z) (fs : list Z) (m : Z → Z → Z) : Prop :=
  ∀ k p, fs !! k = Some p → hw m root (v + Z.of_nat k * 4096) = Z.lor p fl.

Lemma shows_frames_cons root v fl p fs m m1 :
  Z.of_nat (length fs) < 2 ^ 36 - 1 → (∀ w, hw m1 root w = if decide (vpn w = vpn v) then 0 else hw m root w) →
  shows_frames root v fl (p :: fs) m → hw m root v = Z.lor p fl ∧ shows_frames root (v + 4096) fl fs m1.
Proof.
  intros Hn H1 H. split; [by rewrite <-(H 0%nat p eq_refl), Z.add_0_r|]. intros k q Hk. pose proof (lookup_lt_Some _ _ _ Hk).
  rewrite H1, decide_False.
  - replace (v + 4096 + Z.of_nat k * 4096) with (v + Z.of_nat (S k) * 4096) by lia. by apply H.
  - replace (v + 4096 + Z.of_nat k * 4096) with (v + (Z.of_nat k + 1) * 4096) by lia.
    replace v with (v + 0 * 4096) at 2 by lia. intros He%vpn_distinct; lia.
Qed.

Lemma free_pages_loop_spec pm pptr addr bytes fl fs v buff s :
  let root := pageRoot pm in
  ok root s → 0 ≤ pptr < 256 → root ∈ locked s → 0 ≤ fl < 4096 → flag fl PAGE_NOPHYS = false →
  0 ≤ vstart pm ≤ v → v + Z.of_nat (length fs) * 4096 ≤ vend pm + 4096 → v + Z.of_nat (length fs) * 4096 < 2 ^ 64 → Z.of_nat (length fs) < 2 ^ 36 →
  (length buff < 256)%nat → NoDup (buff ++ fs) → Forall (page_frame root s) (buff ++ fs) → shows_frames root v fl fs (mem s) →
  ∃ freed buff' s', free_loop pm pptr addr bytes (length fs) v buff s = Done (buff', s') ∧ buff ++ fs = freed ++ buff' ∧
    ok root s' ∧ Forall (page_frame root s') buff' ∧ fa_left (phys s') = fa_left (phys s) + Z.of_nat (length freed) ∧
    (∀ q, fa_used (phys s') q ↔ fa_used (phys s) q ∧ q ∉ freed) ∧ locked s' = locked s ∧ pptr_taken s' = pptr_taken s ∧
    unmapped root v (Z.of_nat (length fs)) (mem s) (mem s').
Proof.
  intros root. revert v buff s. induction fs as [|p fs IH]; intros v buff s Hok Hp Hlk Hfl Hnp Hvs Hve Hv64 Hlen Hbl Hnd Hpf Hsf.
  - exists [], buff, s. rewrite app_nil_r in *. simpl. split_and!; try done; [lia|set_solver|]. split; [intros; lia|done].
  - simpl in Hve, Hv64, Hlen. cbn [length free_loop].
    assert (Hpp : page_frame root s p) by (rewrite Forall_app, Forall_cons in Hpf; apply Hpf).
    destruct (free_page pm pptr v s p fl (λ a,
      if a =? 0 then free_loop pm pptr addr bytes (length fs) (u64 (v + PAGE_SIZE)) buff
      else if Z.of_nat (length (buff ++ [a])) =? 256 then
        free_frames (buff ++ [a]);; recache addr bytes;; free_loop pm pptr addr bytes (length fs) (u64 (v + PAGE_SIZE)) []
      else free_loop pm pptr addr bytes (length fs) (u64 (v + PAGE_SIZE)) (buff ++ [a])))
      as (s1 & Hs1 & Hok1 & Hph1 & Hpf1 & Hl1 & Ht1 & _ & Hh1); [done|done|done|lia| |done|done|done|].
    { by rewrite <-(Hsf 0%nat p eq_refl), Z.add_0_r. }
    cbv zeta in Hs1 |- *. rewrite Hs1. clear Hs1. destruct Hpp as ((Hpos & _) & _ & _). replace (p =? 0) with false by lia.
    unfold PAGE_SIZE. rewrite wrap_small by lia.
    destruct (shows_frames_cons root v fl p fs (mem s) (mem s1)) as [_ Hsf1]; [lia|done|done|].
    assert (Hun : ∀ m2, unmapped root (v + 4096) (Z.of_nat (length fs)) (mem s1) m2 → unmapped root v (Z.of_nat (S (length fs))) (mem s) m2).
    { intros m2 Hm2. rewrite Nat2Z.inj_succ. by eapply unmapped_cons; [lia|..]. }
    assert (Hpf' : Forall (page_frame root s1) (buff ++ p :: fs)) by (by eapply Forall_impl).
    assert (Hsp : buff ++ p :: fs = (buff ++ [p]) ++ fs) by (by rewrite <-app_assoc). rewrite Hsp in Hnd, Hpf' |- *. destruct (Z.eqb_spec (Z.of_nat (length (buff ++ [p]))) 256) as [E|E].
    + pose proof Hnd as (Hnd1 & _ & Hnd2)%NoDup_app. pose proof Hpf' as [Hpf2 Hpf3]%Forall_app. rewrite run_bind.
      destruct (free_frames_spec root (buff ++ [p]) s1 Hok1 Hnd1 Hpf2) as (a & -> & Hok2 & Hleft2 & Hused2). mnext.
      unfold recache at 1, modify at 1. mnext. set (s2 := set_recached _ _).
      destruct (IH (v + 4096) [] s2) as (freed & buff' & s' & Hl & Hsplit & Hok' & Hb' & Hleft' & Hused' & Hl' & Ht' & Hm');
        [done|done|simpl; by rewrite Hl1|done|done|lia..|simpl; lia|done| |exact Hsf1|].
      { rewrite Forall_forall in Hpf3 |- *. intros q Hq. destruct (Hpf3 q Hq) as (Hqf & Hqu & Hqr). split; [done|]. split; [|done].
        apply Hused2. split; [done|]. intros Hin. apply NoDup_app in Hnd as (_ & Hd & _). by apply (Hd q Hin). }
      exists (buff ++ [p] ++ freed), buff', s'. rewrite Hl. split_and!; [done| |done|done| | |by rewrite Hl'|by rewrite Ht'|by apply Hun].
      * simpl in Hsplit. rewrite Hsplit, !app_assoc. done.
      * rewrite Hleft'. simpl. rewrite Hleft2, Hph1, !length_app. simpl. lia.
      * intros q. rewrite Hused'. simpl. rewrite Hused2, Hph1. set_solver.
    + destruct (IH (v + 4096) (buff ++ [p]) s1) as (freed & buff' & s' & Hl & Hsplit & Hok' & Hb' & Hleft' & Hused' & Hl' & Ht' & Hm');
        [done|done|by rewrite Hl1|done|done|lia..| |done|done|done|].
      { rewrite length_app in E |- *. simpl in *. lia. }
      exists freed, buff', s'. rewrite Hl, <-Hph1. split_and!; try done; [by rewrite Hl'|by rewrite Ht'|by apply Hun].
Qed.

(** What [free] does to [fs], the frames of the pages from [addr] on. *)
Lemma free_pages_spec pm addr bytes fl fs s :
  let root := pageRoot pm in
  ok root s → idle root s → 0 ≤ fl < 4096 → flag fl PAGE_NOPHYS = false →
  Z.of_nat (length fs) = ceiltopg_u64 bytes → Z.of_nat (length fs) < 2 ^ 36 →
  0 ≤ vstart pm ≤ addr → addr + Z.of_nat (length fs) * 4096 ≤ vend pm + 4096 → addr + Z.of_nat (length fs) * 4096 < 2 ^ 64 →
  NoDup fs → Forall (page_frame root s) fs → shows_frames root addr fl fs (mem s) →
  ∃ s', free pm addr bytes s = Done (tt, s') ∧ ok root s' ∧ idle root s' ∧
    unmapped root addr (Z.of_nat (length fs)) (mem s) (mem s') ∧
    fa_left (phys s') = fa_left (phys s) + Z.of_nat (length fs) ∧
    (∀ q, fa_used (phys s') q ↔ fa_used (phys s) q ∧ q ∉ fs).
Proof.
  intros root Hok Hi Hfl Hnp Hlen Hmax Hvs Hve H64 Hnd Hpf Hsf. destruct (enter_ok pm s Hi) as (pptr & Hp & Ht & Hk).
  unfold free. rewrite Hk, run_bind, <-Hlen, Nat2Z.id.
  destruct (free_pages_loop_spec pm pptr addr bytes fl fs addr [] (entered root pptr s))
    as (freed & buff & s1 & Hs1 & Hsplit & Hok1 & Hb1 & Hleft1 & Hused1 & Hl1 & Ht1 & Hm1);
    [done|done|set_solver|done|done|lia..|simpl; lia|done|exact Hpf|exact Hsf|].
  fold root. rewrite Hs1. mnext. simpl in Hsplit. rewrite Hsplit in Hnd.
  pose proof Hnd as (_ & Hdisj & Hndb)%NoDup_app.
  destruct (free_frames_spec root buff s1 Hok1 Hndb Hb1) as (a & -> & Hok2 & Hleft2 & Hused2). mnext.
  unfold recache at 1, modify at 1. mnext. set (s3 := set_recached _ _).
  destruct (leave_steps pm pptr s s3 Hi Hp Ht Hl1 Ht1) as (s4 & -> & Hlv). cbn [snd]. rewrite Hlv. exists (left_ s s3).
  split; [done|]. split; [exact Hok2|]. split; [exact Hi|]. split; [exact Hm1|]. cbn [left_ phys set_locked set_pptr s3 set_recached set_phys].
  change (phys (entered root pptr s)) with (phys s) in *. split.
  - rewrite Hleft2, Hleft1, Hsplit, length_app. lia.
  - intros q. rewrite Hused2, Hused1, Hsplit. set_solver.
Qed.

(** [free] undoes [alloc]: the pages are unmapped again, every
    page translates as before the allocation, and the frames the pages got are
    no longer in use; what stays are the tables that were hung in. *)
Lemma alloc_free_restores pm bytes flags source q s :
  let root := pageRoot pm in let amount := ceiltopg_u64 bytes in
  let first := contiguous_start pm (flag flags PAGE_EXEC) in
  ok root s → idle root s → 0 < bytes ≤ 2 ^ 48 - 4096 → flag flags PAGE_FIXED = false →
  flag (alloc_flags pm flags) PAGE_NOPHYS = false → 0 ≤ vstart pm ≤ first →
  free_run pm (mem s) first amount q → q + amount * 4096 < 2 ^ 64 →
  (first = 0 → hw (mem s) root 0 ≠ 0) → 3 + 4 * amount ≤ fa_left (phys s) →
  ∃ start s1 s2 fs, alloc pm bytes flags source s = Done (start, s1) ∧ free pm start bytes s1 = Done (tt, s2) ∧
    (∀ w, hw (mem s2) root w = hw (mem s) root w) ∧ Forall (fresh_frame root s s1) fs ∧ Z.of_nat (length fs) = amount ∧
    (∀ p, fa_used (phys s2) p ↔ fa_used (phys s1) p ∧ p ∉ fs) ∧ fa_left (phys s2) = fa_left (phys s1) + amount.
Proof.
  intros root amount first Hok Hi Hb Hfx Hnp Hvs Hrun H64 H0 Hl.
  destruct (alloc_pages_spec pm bytes flags source q s) as (start & fs & s1 & Ha & Hst & _ & (_ & _ & _ & Hve & Hz) & Hlen & Hnd & Hfr & [Hm1 Hm2] & Hok1 & Hi1); [done..|].
  pose proof (ceiltopg_bounds bytes Hb) as Ham. fold amount root first in Ham, Hst, Hve, Hz, Hlen, Hfr, Hm1, Hm2, Hok1, Hi1.
  assert (Hafl : 0 ≤ alloc_flags pm flags < 4096).
  { unfold alloc_flags. change 0xFFF with (Z.ones 12). rewrite Z.land_ones by lia. apply Z.mod_pos_bound. lia. }
  destruct (free_pages_spec pm start bytes (alloc_flags pm flags) fs s1) as (s2 & Hf & _ & _ & [Hu1 Hu2] & Hleft & Hused);
    [done|done|done|done|done|lia|fold first in Hvs; lia|lia|lia|done| |exact Hm1|].
  { eapply Forall_impl; [exact Hfr|]. intros p (Hp1 & _ & Hp3 & Hp4 & _). by split_and!; try apply Hp1. }
  exists start, s1, s2, fs. rewrite Hleft, Hlen. split_and!; try done. intros w. fold root in Hu1, Hu2.
  destruct (page_in_run w start (length fs)) as [(k & Hk & Hw)|Hno].
  - rewrite !(hw_page _ _ w _ Hw), Hz, Hu1 by lia. done.
  - rewrite Hu2 by done. by apply Hm2.
Qed.

(** ** Deviations *)

(** [map] looks for [ceiltopg bytes] pages but writes one more when
    [paddr] is not page aligned: the page after the run it found is overwritten,
    whatever it was mapped to. *)
Lemma map_unaligned_overwrites pm bytes paddr flags source s :
  let root := pageRoot pm in let amount := ceiltopg_u64 bytes in
  ok root s → idle root s → 0 < bytes ≤ 2 ^ 48 - 8192 → flag flags PAGE_FIXED = false → flag flags PAGE_ARBITRARY = false →
  0 ≤ paddr → paddr mod 4096 ≠ 0 → paddr + (amount + 1) * 4096 < 2 ^ 64 →
  free_run pm (mem s) (vstart pm) amount (vstart pm) → vstart pm + (amount + 1) * 4096 ≤ 2 ^ 64 →
  3 + 3 * (amount + 1) ≤ fa_left (phys s) →
  ∃ a s', map pm bytes paddr flags source s = Done (a, s') ∧
    hw (mem s') root (vstart pm + amount * 4096) = Z.lor (paddr - paddr mod 4096 + amount * 4096) (map_flags pm flags).
Proof.
  intros root amount Hok Hi Hb Hfx Har Hpa Hun Hp64 Hrun Hq64 Hl.
  assert (Hn : map_amount bytes paddr = amount + 1) by (unfold map_amount; destruct (Z.eqb_spec (paddr mod 4096) 0); done).
  assert (Ham : 0 < amount) by (apply (ceiltopg_bounds bytes); lia).
  destruct (map_spec pm bytes paddr flags source (vstart pm) s) as (start & s' & He & Hst & _ & [Hm _] & _); try (rewrite Hn; lia); try done.
  exists (u64 (start + paddr mod 4096)), s'. split; [done|]. replace start with (vstart pm) in Hm by lia.
  specialize (Hm (Z.to_nat amount)). rewrite Hn, Z2Nat.id in Hm by lia. apply Hm. unfold map_frames.
  rewrite list_lookup_fmap, lookup_seqZ_lt by lia. simpl. rewrite Har. f_equal. lia.
Qed.

(** [rawof] of an address without a table stops the machine: the
    early return releases a lock that was never taken. *)
Lemma rawof_unmapped_panics pm addr s :
  ok (pageRoot pm) s → idle (pageRoot pm) s → mem s (pageRoot pm) (ix 39 addr) = 0 →
  rawof pm addr s = Panic "spinlock: Too many releases".
Proof.
  intros Hok Hi H0. destruct (alloc_pptr_ok _ _ Hi) as (pptr & Hp & _ & Ha). unfold rawof. rewrite run_bind, Ha. mnext.
  unfold findTable, find_table. rewrite run_bind. pose proof Hok as (_ & Hroot & _ & Hwl).
  set (s1 := set_pptr _ _ s). destruct (aim_get s1 (window s1) pptr (pageRoot pm) Hp Hwl) as (w & Haim & _ & _ & _ & Hg).
  rewrite set_pptr_same in Haim. rewrite Haim. mnext. rewrite Hg, frame_of_frame, ix_mask by (done || lia). mnext.
  change (mem s1) with (mem s). rewrite H0. change (0 =? 0) with true. cbv iota.
  cbn [mret stateM_ret fst snd]. rewrite run_bind. unfold lock_release. by rewrite bool_decide_false by apply Hi.
Qed.

(** A top-level entry of the kernel's half that [create_first_levels]
    filled is not marked present, so the first mapping below it replaces it: the
    page is mapped in the kernel's pagemap and not in a pagemap that copied the
    entry before. *)
Lemma kernel_mapping_not_shared kernel_pagemap child pptr v p flags s :
  let root := pageRoot kernel_pagemap in
  ok root s → 0 ≤ pptr < 256 → root ∈ locked s → 3 ≤ fa_left (phys s) →
  fa_used (phys s) child → ¬ reached (mem s) root child →
  mem s child (ix 39 v) = mem s root (ix 39 v) → flag (mem s root (ix 39 v)) PAGE_PRESENT = false →
  ∃ s', assign kernel_pagemap pptr v p flags s = Done (tt, s') ∧
    hw (mem s') root v = Z.lor (Z.land p MEM_PAGE_MASK) flags ∧ hw (mem s') child v = 0.
Proof.
  intros root Hok Hp Hlk Hl Hu Hr Hcopy Hpr.
  destruct (assign_spec kernel_pagemap pptr v p flags s) as (s' & He & (_ & _ & _ & _ & Hc & _) & Hh); [done..| |].
  { unfold cost. destruct (tbl _ _ _); lia. }
  exists s'. split; [done|]. split; [fold root in Hh; rewrite Hh; by rewrite decide_True|].
  destruct (Hc child Hu Hr) as [_ Hm]. unfold hw, vpath. cbn [tbl]. unfold next. by rewrite Hm, Hcopy, Hpr.
Qed.

Lemma sfor_one i body s : sfor 1 i body s = (body i;; mret tt) s.
Proof. reflexivity. Qed.

Lemma alloc_pptr_nth s n tk :
  pptr_taken s = replicate n true ++ false :: tk →
  alloc_pptr s = Done (Z.of_nat n, set_pptr (replicate n true ++ true :: tk) (window s) s).
Proof.
  intros Ht. unfold alloc_pptr. assert (Hf : first_free (pptr_taken s) 0 = Some (Z.of_nat n)).
  { rewrite Ht. replace (Z.of_nat n) with (0 + Z.of_nat n) by lia. generalize 0 as k. clear Ht.
    induction n as [|n IH]; intros k; simpl; [f_equal; lia|]. rewrite IH. f_equal. lia. }
  rewrite Hf, wr_in_range by (rewrite Ht, length_app, length_replicate; simpl; lia). rewrite bind_ret, Nat2Z.id, Ht.
  rewrite insert_app_r_alt by (rewrite length_replicate; lia). by rewrite length_replicate, Nat.sub_diag.
Qed.

(** The destructor divides the bounds by [2 ^ 48] where a slot of
    the top table spans [2 ^ 39] bytes, so of a user pagemap it visits slot 0
    only: with that slot empty every frame but the root stays in use, those of
    executable pages at [0x7FFF80000000], slot 255, among them. *)
Lemma destroy_visits_first_slot pm s tk :
  let root := pageRoot pm in
  ok root s → fa_used (phys s) root → vstart pm = 0 → vend pm = 0x7FFFFFFFFFFF → root ∉ locked s →
  pptr_taken s = false :: false :: false :: false :: tk → mem s root 0 = 0 →
  ∃ s', destroy pm s = Done (tt, s') ∧ ∀ q, fa_used (phys s') q ↔ fa_used (phys s) q ∧ q ≠ root.
Proof.
  intros root (Hinv & Hroot & Htree & Hwl) Hu Hvs Hve Hlk Htk H0. unfold destroy.
  destruct (fa_free (phys s) root 1 Hinv ltac:(lia) Hu) as (a & Ha & _ & _ & Hused).
  rewrite run_bind, (alloc_pptr_nth s 0 (false :: false :: false :: tk)) by done. mnext.
  rewrite (alloc_pptr_nth _ 1 (false :: false :: tk)) by done. mnext.
  rewrite (alloc_pptr_nth _ 2 (false :: tk)) by done. mnext.
  rewrite (alloc_pptr_nth _ 3 tk) by done. mnext.
  rewrite lock_acquire_ok by done. mnext. set (s1 := set_locked _ _).
  destruct (aim_ok s1 (Z.of_nat 0) root) as (w & Haim & _ & Hw & _); [lia|done|]. fold root. rewrite Haim. mnext.
  rewrite frame_of_frame in Hw by done. rewrite Hvs, Hve.
  change (Z.to_nat (0x7FFFFFFFFFFF / 0x1000000000000 + 1 - 0 / 0x1000000000000)) with 1%nat.
  change (0 / 0x1000000000000) with 0. rewrite sfor_one, run_bind. unfold release_tables at 1. rewrite run_bind. rewrite (table_get_at _ _ _ root) by done. cbn [fst snd].
  change (mem (set_pptr (pptr_taken s1) w s1)) with (mem s). rewrite H0. change (0 =? 0) with true. cbv iota.
  cbn [mret stateM_ret fst snd]. mnext.
  set (s2 := set_pptr (pptr_taken s1) w s1).
  assert (HF : Phys_free root 1 s2 = Done (tt, set_phys a s2)) by (unfold Phys_free, s2; simpl; by rewrite Ha).
  fold root. rewrite HF. mnext. rewrite lock_release_ok by set_solver. mnext.
  repeat (rewrite free_pptr_ok by (simpl; rewrite ?length_insert; simpl; lia); mnext).
  eexists. split; [reflexivity|]. exact Hused.
Qed.

End Methods.

(** ** A machine

    The allocator of [Phys] with one region of 64 frames, the first four in use;
    a pagemap with its root in the second; [child] in the third shares slot 300,
    which shows the fourth without being present. *)

Definition demo_phys : Phys.Phys.state := Phys.Phys.mk_state [Phys.Phys.demo_piece] 60 4 false.
Definition demo_root : Z := 0x101000.
Definition demo_child : Z := 0x102000.
Definition demo_pm : Pagemap := mk_pagemap 0xFFFF900000000000 0xFFFFFFFFFFFFFFFF demo_root 0.
Definition demo_user : Pagemap := mk_pagemap 0 0x7FFFFFFFFFFF demo_root 0.
Definition demo_mem (f i : Z) : Z :=
  if ((f =? demo_root) || (f =? demo_child)) && (i =? 300) then 0x103000 else 0.
Definition demo : machine Phys.Phys.state :=
  mk_machine demo_mem demo_phys (replicate 256 false) (replicate 256 0) ∅ [].

(** A root without present entries. *)
Lemma tree_flat used m root :
  used root → (∀ i, 0 ≤ i < 512 → flag (m root i) PAGE_PRESENT = false) →
  (∀ i, 0 ≤ i < 512 → m root i ≠ 0 → used (frame_of (m root i)) ∧ frame_of (m root i) ≠ root ∧
     ∀ j, 0 ≤ j < 512 → m (frame_of (m root i)) j = 0) → tree used m root.
Proof.
  intros Hu Hnp Hst. assert (Ht : ∀ p t, path p → tbl m root p = Some t → p = [] ∧ t = root).
  { intros [|i p] t [Hp _] Ht; [by simplify_eq/=|]. apply Forall_cons_1 in Hp as [Hi _]. simpl in Ht. unfold next in Ht.
    by rewrite Hnp in Ht. }
  split; [|split].
  - intros p t Hp Hpt. by destruct (Ht p t Hp Hpt) as [_ ->].
  - intros p q t Hp Hq Hpt Hqt. destruct (Ht p t Hp Hpt) as [-> _]. by destruct (Ht q t Hq Hqt) as [-> _].
  - intros q (p & t & i & Hp & Hpt & Hne & _ & <-). destruct (Ht p t (path_prefix _ _ Hp) Hpt) as [-> ->].
    destruct Hp as [Hp _]. apply Forall_cons_1 in Hp as [Hi _]. destruct (Hst i Hi Hne) as (H1 & H2 & H3).
    split; [done|]. split; [|done]. intros (p & Hp & Ht'). by destruct (Ht p _ Hp Ht') as [_ ?].
Qed.

Lemma demo_used j : 0 ≤ j < 4 → fa_used demo_phys (0x100000 + j * 4096).
Proof.
  intros Hj. exists Phys.Phys.demo_piece, j. split_and!; try done; try (simpl; lia).
  assert (j = 0 ∨ j = 1 ∨ j = 2 ∨ j = 3) as [->|[->|[->| ->]]] by lia; reflexivity.
Qed.

Lemma demo_one_region : fa_inv demo_phys.
Proof.
  split; [|exists Phys.Phys.demo_piece; by vm_compute]. split_and!; [done..|]. apply Forall_singleton.
  split; [apply Phys.Phys.demo_piece_inv|done].
Qed.

Lemma demo_entry i : demo_mem demo_root i = 0 ∨ i = 300 ∧ demo_mem demo_root i = 0x103000.
Proof. unfold demo_mem. rewrite Z.eqb_refl. simpl. destruct (Z.eqb_spec i 300); auto. Qed.

Lemma demo_ok : ok demo_root demo.
Proof.
  split; [apply demo_one_region|]. split; [done|]. split; [|done]. apply tree_flat.
  - apply (demo_used 1). lia.
  - intros i Hi. change (mem demo) with demo_mem. by destruct (demo_entry i) as [->|[-> ->]].
  - intros i Hi. change (mem demo) with demo_mem. destruct (demo_entry i) as [->|[-> ->]]; [done|]. intros _.
    split; [apply (demo_used 3); lia|]. split; [done|]. intros j Hj. done.
Qed.

Lemma demo_idle : idle demo_root demo.
Proof. split; [done|]. split; [|set_solver]. apply elem_of_replicate. split; [done|lia]. Qed.

(** Nothing is mapped. *)
Lemma demo_unmapped v : hw demo_mem demo_root v = 0.
Proof.
  unfold hw, vpath. cbn [tbl]. unfold next. by destruct (demo_entry (ix 39 v)) as [->|[_ ->]].
Qed.

Lemma demo_run amount : 0 < amount ≤ 1000 → free_run demo_pm demo_mem (vstart demo_pm) amount (vstart demo_pm).
Proof. intros. unfold free_run. simpl. split_and!; try done; try lia. intros. apply demo_unmapped. Qed.

(** The machine after two pages were allocated. *)
Definition demo_mapped : machine Phys.Phys.state := match alloc demo_pm 8192 PAGE_WRITE 0 demo with Done (_, s) => s | _ => demo end.
Lemma demo_mapped_ok : ok demo_root demo_mapped ∧ idle demo_root demo_mapped.
Proof.
  destruct (alloc_pages_spec demo_pm 8192 PAGE_WRITE 0 (vstart demo_pm) demo) as (start & fs & s' & He & _ & _ & _ & _ & _ & _ & _ & H);
    [apply demo_ok|apply demo_idle|done|done|by apply (demo_run 2)|done|done|]. unfold demo_mapped. by rewrite He.
Qed.

Lemma demo_mapped_walk : mmu (mem demo_mapped) demo_root levels 0xFFFF900000001123 = Translates 0x108003 0x108123.
Proof. vm_compute. reflexivity. Qed.

Lemma paddrof_is_mmu_walk_witness : ∃ s, paddrof demo_pm 0xFFFF900000001123 demo_mapped = Done (0x108123, s).
Proof.
  destruct (paddrof_is_mmu_walk demo_pm 0xFFFF900000001123 demo_mapped (proj1 demo_mapped_ok) (proj2 demo_mapped_ok)) as (r & w & He & _ & Hr).
  change (pageRoot demo_pm) with demo_root in Hr. rewrite demo_mapped_walk in Hr. rewrite Hr in He by lia. by exists (set_pptr (pptr_taken demo_mapped) w demo_mapped).
Defined.

Lemma findContiguous_terminates_witness :
  ∃ start s', findContiguous demo_pm 0 3 false demo = Done (start, s') ∧ vstart demo_pm ≤ start ≤ vstart demo_pm.
Proof.
  destruct (findContiguous_terminates demo_pm 0 3 false (vstart demo_pm) demo) as (start & s' & He & Hst & _);
    [apply demo_ok|done|done|done|done|done|done|intros; apply demo_unmapped|done|].
  exists start, s'. split; [exact He|exact Hst].
Defined.

Lemma alloc_maps_fresh_pages_witness :
  ∃ start fs s', alloc demo_pm 8192 PAGE_WRITE 0 demo = Done (start, s') ∧
    maps_to demo_root start 3 fs demo s' ∧ Z.of_nat (length fs) = 2.
Proof.
  destruct (alloc_maps_fresh_pages demo_pm 8192 PAGE_WRITE 0 (vstart demo_pm) demo)
    as (start & fs & s' & He & _ & _ & _ & Hl & _ & _ & Hm & _);
    [apply demo_ok|apply demo_idle|done|done|by apply (demo_run 2)|done|done|].
  exists start, fs, s'. split; [exact He|]. split; [exact Hm|exact Hl].
Defined.

Lemma alloc_free_restores_witness :
  ∃ start s1 s2, alloc demo_pm 8192 PAGE_WRITE 0 demo = Done (start, s1) ∧ free demo_pm start 8192 s1 = Done (tt, s2) ∧
    ∀ w, hw (mem s2) demo_root w = hw demo_mem demo_root w.
Proof.
  destruct (alloc_free_restores demo_pm 8192 PAGE_WRITE 0 (vstart demo_pm) demo)
    as (start & s1 & s2 & fs & Ha & Hf & Hm & _);
    [apply demo_ok|apply demo_idle|done|done|done|done|by apply (demo_run 2)|done|done|done|].
  exists start, s1, s2. split; [exact Ha|]. split; [exact Hf|exact Hm].
Defined.

Lemma map_translates_witness :
  ∃ start s', map demo_pm 4096 0xB8000 PAGE_WRITE 0 demo = Done (u64 (start + 0), s') ∧
    maps_to demo_root start 0x203 [0xB8000] demo s'.
Proof.
  destruct (map_translates demo_pm 4096 0xB8000 PAGE_WRITE 0 (vstart demo_pm) demo) as (start & s' & He & _ & _ & Hm & _);
    [apply demo_ok|apply demo_idle|done|done|done|done|by apply (demo_run 1)|done|done|].
  exists start, s'. split; [exact He|exact Hm].
Defined.

Lemma map_unaligned_overwrites_witness :
  ∃ a s', map demo_pm 4096 0xB8010 PAGE_WRITE 0 demo = Done (a, s') ∧
    hw (mem s') demo_root (0xFFFF900000000000 + 4096) = Z.lor 0xB9000 0x203.
Proof.
  apply (map_unaligned_overwrites demo_pm 4096 0xB8010 PAGE_WRITE 0 demo);
    [apply demo_ok|apply demo_idle|done|done|done|done|done|done|by apply (demo_run 1)|done|done].
Defined.

Lemma rawof_unmapped_panics_witness : rawof demo_pm 0xFFFF900000000000 demo = Panic "spinlock: Too many releases".
Proof. apply (rawof_unmapped_panics demo_pm 0xFFFF900000000000 demo demo_ok demo_idle eq_refl). Defined.

Lemma demo_child_unreached : ¬ reached demo_mem demo_root demo_child.
Proof.
  assert (Ht : ∀ p t, tbl demo_mem demo_root p = Some t → p = [] ∧ t = demo_root).
  { intros [|i p] t Ht; [by simplify_eq/=|]. simpl in Ht. unfold next in Ht. by destruct (demo_entry i) as [He|[_ He]]; rewrite He in Ht. }
  intros [(p & _ & [_ [=]]%Ht)|(p & t & i & _ & [-> ->]%Ht & Hne & _ & Hf)].
  destruct (demo_entry i) as [He|[_ He]]; rewrite He in *; [done|]. by vm_compute in Hf.
Qed.

Lemma kernel_mapping_not_shared_witness :
  ∃ s', assign demo_pm 0 0xFFFF960000000000 0xB8000 3 (set_locked {[demo_root]} demo) = Done (tt, s') ∧
    hw (mem s') demo_root 0xFFFF960000000000 = 0xB8003 ∧ hw (mem s') demo_child 0xFFFF960000000000 = 0.
Proof.
  apply (kernel_mapping_not_shared demo_pm demo_child 0 0xFFFF960000000000 0xB8000 3 (set_locked {[demo_root]} demo));
    [apply demo_ok|done|set_solver|done|apply (demo_used 2); done|apply demo_child_unreached|done|done].
Defined.

Lemma destroy_visits_first_slot_witness :
  ∃ s', destroy demo_user demo = Done (tt, s') ∧ ∀ q, fa_used (phys s') q ↔ fa_used demo_phys q ∧ q ≠ demo_root.
Proof.
  apply (destroy_visits_first_slot demo_user demo (replicate 252 false));
    [apply demo_ok|apply (demo_used 1); done|done|done|set_solver|done|done].
Defined.

End PagingProps.
