(* ===== verification/Block.v ===== *)
(** * Block handles

    [dev/blockhandle.cpp] and the open count of [dev/blockdevice.cpp]: byte
    addressed reads on top of a device that reads whole sectors.  The driver's
    [readBlock] is a parameter; its return code is ignored by the code.  The
    destination is the list of bytes at the address the caller passes. *)
From S2P Require Import Prelude Math.
Local Open Scope Z_scope.

Module BlockHandle.

Record BlockDevice := mk_device {
  sectorSize : Z;
  maxCombo : Z;
  readBlock : Z → Z → list Z;
}.

(** The destination, [block_bytes_read] of the process and the requests the device got. *)
Record transfer := mk_transfer {
  dest : list Z;
  block_bytes_read : Z;
  requests : list (Z * Z);
}.

Abbreviation M := (stateM transfer).

Definition isAligned (addr : Z) : bool := Z.land addr 1 =? 0.

Definition isPerfect (dev : BlockDevice) (start len : Z) : bool :=
  (start mod sectorSize dev =? 0) && (len mod sectorSize dev =? 0).

Definition account (n : Z) : M unit :=
  modify (λ s, mk_transfer (dest s) (u64 (block_bytes_read s + n)) (requests s)).

(** [m_dev->readBlock] into a buffer of the kernel. *)
Definition fetch (dev : BlockDevice) (sector count : Z) : M (list Z) := λ s,
  Done (readBlock dev sector count, mk_transfer (dest s) (block_bytes_read s) (requests s ++ [(sector, count)])).

(** [memcpy] to the destination, [off] bytes after its start. *)
Definition store (off : Z) (bs : list Z) : M unit := λ s,
  d ← put (dest s) off bs; Done (tt, mk_transfer d (block_bytes_read s) (requests s)).

(** [m_dev->readBlock] into the destination. *)
Definition fetch_to (dev : BlockDevice) (off sector count : Z) : M unit :=
  bs ← fetch dev sector count; store off bs.

(** [buffer] (as the distance from the address passed), [start], [len] and the
    pending request. *)
Record cursor := mk_cursor {
  c_off : Z;
  c_start : Z;
  c_len : Z;
  combo : bool;
  combo_start : Z;
  combo_count : Z;
}.

(** A turn of [while (!isAligned(buffer))]: [inr true] returns from [read],
    [inr false] leaves the loop. *)
Definition misaligned_turn (dev : BlockDevice) (base : Z) (c : cursor) : M (cursor + bool * cursor) :=
  if isAligned (base + c_off c) then mret (inr (false, c))
  else
    bs ← fetch dev (c_start c / sectorSize dev) 1;
    account (sectorSize dev);;
    let misaligned_len := u16 (Z.land (c_start c) (sectorSize dev - 1) `min` c_len c) in
    let misaligned_len := if misaligned_len =? 0 then u16 (c_len c) `min` sectorSize dev else misaligned_len in
    bs ← lift (get bs 0 misaligned_len);
    store (c_off c) bs;;
    let c' := mk_cursor (c_off c + misaligned_len) (u64 (c_start c + misaligned_len)) (u32 (c_len c - misaligned_len)) false 0 0 in
    if c_len c' =? 0 then mret (inr (true, c')) else mret (inl c').

(** The pending request, when there is one. *)
Definition flush (dev : BlockDevice) (counted : bool) (c : cursor) : M cursor :=
  fetch_to dev (c_off c) (combo_start c) (combo_count c);;
  when counted (account (u32 (combo_count c * sectorSize dev)));;
  mret (mk_cursor (c_off c + u32 (combo_count c * sectorSize dev)) (c_start c) (c_len c) false (combo_start c) (combo_count c)).

(** A turn of [while (len > 0)]. *)
Definition read_turn (dev : BlockDevice) (c : cursor) : M (cursor + cursor) :=
  if c_len c >? 0 then
    let offset := u32 (c_start c - int_floor 64 (c_start c) (sectorSize dev)) in
    let llen := u32 (sectorSize dev - offset) `min` c_len c in
    c ← (if combo c && (combo_count c =? maxCombo dev) then flush dev true c else mret c);
    c ← (if negb (isPerfect dev (c_start c) llen) then
           c ← (if combo c then flush dev false c else mret c);
           bs ← fetch dev (c_start c / sectorSize dev) 1;
           bs ← lift (get bs offset llen);
           store (c_off c) bs;;
           account (sectorSize dev);;
           mret (mk_cursor (c_off c + llen) (c_start c) (c_len c) (combo c) (combo_start c) (combo_count c))
         else
           let c := if combo c then c
                    else mk_cursor (c_off c) (c_start c) (c_len c) true (c_start c / sectorSize dev) 0 in
           mret (mk_cursor (c_off c) (c_start c) (c_len c) (combo c) (combo_start c) (u32 (combo_count c + 1))));
    mret (inl (mk_cursor (c_off c) (u64 (c_start c + llen)) (u32 (c_len c - llen)) (combo c) (combo_start c) (combo_count c)))
  else mret (inr c).

(** Every turn takes at least a byte of the 32-bit length. *)
Definition read_fuel : positive := 4294967296.

(** [BlockHandle::read] behind its assertions, into the bytes at address [base]. *)
Definition transfer_bytes (dev : BlockDevice) (base start len : Z) : M Z :=
  r ← siter read_fuel (misaligned_turn dev base) (mk_cursor 0 start len false 0 0);
  match r with
  | inl _ => lift (Panic "BlockHandle::read does not return")
  | inr (true, _) => mret 0
  | inr (false, c) =>
      r ← siter read_fuel (read_turn dev) c;
      match r with
      | inl _ => lift (Panic "BlockHandle::read does not return")
      | inr c => (if combo c then flush dev true c;; mret tt else mret tt);; mret 0
      end
  end.

(** A handle: its device, when the pointer is valid, and whether [m_shared] is set. *)
Record BlockHandle := mk_handle { m_dev : option BlockDevice; m_shared : bool }.

Definition read (h : BlockHandle) (base start len : Z) : M Z :=
  lift (aex_assert (bool_decide (is_Some (m_dev h))));;
  lift (aex_assert (m_shared h));;
  match m_dev h with
  | Some dev => transfer_bytes dev base start len
  | None => lift Fault
  end.

Definition write (h : BlockHandle) : M Z :=
  lift (aex_assert (bool_decide (is_Some (m_dev h))));;
  lift (Panic "Block::write is unimplemented, I'm too lazy atm").

Lemma read_opened dev base start len s : read (mk_handle (Some dev) true) base start len s = transfer_bytes dev base start len s.
Proof. done. Qed.

(** ** Handles *)

(** [m_init_counter] of the device, and [m_refs] of the state the copies of a
    handle share. *)
Record handles := mk_handles { m_init_counter : Z; m_refs : Z; inits : Z; releases : Z }.

(** [initBlock] is what the driver answers: 0 is [ENONE]. *)
Definition initExt (initBlock : Z) (h : handles) : Z * handles :=
  if m_init_counter h =? 0
  then (initBlock, mk_handles (i32 (m_init_counter h + 1)) (m_refs h) (inits h + 1) (releases h))
  else (0, mk_handles (i32 (m_init_counter h + 1)) (m_refs h) (inits h) (releases h)).

Definition releaseExt (h : handles) : outcome handles :=
  let counter := i32 (m_init_counter h - 1) in
  _ ← aex_assert (counter >=? 0);
  Done (mk_handles counter (m_refs h) (inits h) (if counter =? 0 then releases h + 1 else releases h)).

(** [open_block_handle]: [device] is what [devices.get] finds, with whether its
    type is [DEV_BLOCK]; [inl None] is the empty optional. *)
Definition open_block_handle (device : option bool) (initBlock : Z) (h : handles) : (option Z + unit) * handles :=
  match device with
  | Some true =>
      let '(error, h) := initExt initBlock h in
      if negb (error =? 0) then (inl (Some error), h)
      else (inr tt, mk_handles (m_init_counter h) 1 (inits h) (releases h))
  | _ => (inl None, h)
  end.

(** The copy constructor and the destructor. *)
Definition copy_handle (h : handles) : handles :=
  mk_handles (m_init_counter h) (i32 (m_refs h + 1)) (inits h) (releases h).
Definition destroy_handle (h : handles) : outcome handles :=
  let refs := i32 (m_refs h - 1) in
  let h := mk_handles (m_init_counter h) refs (inits h) (releases h) in
  if refs =? 0 then releaseExt h else Done h.

(** ** The bytes of the disk *)

Section Read.
Context (disk : Z → Z) (dev : BlockDevice).
Abbreviation ss := (sectorSize dev).

Definition slice (off n : Z) : list Z := disk <$> seqZ off n.

(** What a driver promises: whole sectors of the disk, in runs of at most [maxCombo].
    Nothing is known of a longer run. *)
Definition serves : Prop :=
  0 < ss < 2 ^ 16 ∧ 0 < maxCombo dev ∧ ∀ sector n, 0 ≤ sector → 0 ≤ n ≤ maxCombo dev → readBlock dev sector n = slice (sector * ss) (n * ss).

Lemma slice_length off n : 0 ≤ n → Z.of_nat (length (slice off n)) = n.
Proof. intros. unfold slice. rewrite length_fmap, length_seqZ. lia. Qed.

Lemma slice_app off n k : 0 ≤ n → 0 ≤ k → slice off (n + k) = slice off n ++ slice (off + n) k.
Proof. intros. unfold slice. by rewrite seqZ_app, fmap_app by lia. Qed.

(** Part of a slice. *)
Lemma slice_get off n o k : 0 ≤ o → 0 ≤ k → o + k ≤ n → get (slice off n) o k = Done (slice (off + o) k).
Proof.
  intros. rewrite get_eq by (rewrite ?slice_length; lia). f_equal.
  replace n with (o + (k + (n - o - k))) by lia. rewrite !slice_app by lia.
  pose proof (slice_length off o). pose proof (slice_length (off + o) k).
  rewrite drop_app_length' by lia. by rewrite take_app_length' by lia.
Qed.

Hypothesis Hserves : serves.
Context (start len : Z) (dest0 : list Z).
Hypothesis Hlen : 0 ≤ len < 2 ^ 32.
Hypothesis Hroom : len ≤ Z.of_nat (length dest0).
Hypothesis Hstart : 0 ≤ start ∧ start + len < 2 ^ 64.

(** The first [off] bytes are in place, the bytes behind the request untouched. *)
Definition filled (off : Z) (s : transfer) : Prop :=
  length (dest s) = length dest0 ∧ take (Z.to_nat off) (dest s) = slice start off ∧
  drop (Z.to_nat len) (dest s) = drop (Z.to_nat len) dest0.

Lemma store_ok off n s :
  filled off s → 0 ≤ off → 0 ≤ n → off + n ≤ len →
  ∃ s', store off (slice (start + off) n) s = Done (tt, s') ∧ filled (off + n) s'.
Proof.
  intros (Hl & Ht & Hd) Ho Hn Hb. pose proof (slice_length (start + off) n Hn) as Hsl. unfold store.
  rewrite put_eq by lia. eexists. split; [reflexivity|]. unfold filled; cbn [dest]. split_and!.
  - rewrite !length_app, length_take, length_drop. lia.
  - rewrite Ht, app_assoc, <-slice_app by lia. pose proof (slice_length start (off + n) ltac:(lia)).
    rewrite take_app_le by lia. apply take_ge. lia.
  - rewrite Ht, app_assoc, <-slice_app by lia. pose proof (slice_length start (off + n) ltac:(lia)).
    rewrite drop_app_ge by lia. rewrite drop_drop. rewrite <-Hd. f_equal. lia.
Qed.

(** The bytes of the pending request. *)
Definition pending (c : cursor) : Z := if combo c then combo_count c * ss else 0.

Definition reading (c : cursor) (s : transfer) : Prop :=
  filled (c_off c) s ∧ 0 ≤ c_off c ∧ 0 ≤ c_len c ∧ c_start c = start + c_off c + pending c ∧
  c_len c = len - c_off c - pending c ∧
  (combo c = true → 0 < combo_count c ≤ maxCombo dev ∧ combo_start c * ss = start + c_off c).

Lemma flush_ok counted c s :
  reading c s → combo c = true →
  ∃ c' s', flush dev counted c s = Done (c', s') ∧ reading c' s' ∧ combo c' = false ∧
    c_start c' = c_start c ∧ c_len c' = c_len c.
Proof.
  intros (Hf & Ho & Hl & Hs & Hle & Hc) Hco. destruct (Hc Hco) as [Hcnt Hcs]. unfold pending in *. rewrite Hco in *.
  destruct Hserves as (Hss & Hmx & Hrd).
  assert (0 ≤ combo_start c) by nia. assert (0 ≤ combo_count c * ss ≤ len) by nia.
  unfold flush, fetch_to. rewrite !run_bind. cbn [fetch]. rewrite Hrd, Hcs by lia. cbn [fst snd].
  destruct (store_ok (c_off c) (combo_count c * ss)
    (mk_transfer (dest s) (block_bytes_read s) (requests s ++ [(combo_start c, combo_count c)]))) as (s1 & -> & Hf1); [done|lia..|].
  cbn [fst snd]. rewrite wrap_small by lia.
  exists (mk_cursor (c_off c + combo_count c * ss) (c_start c) (c_len c) false (combo_start c) (combo_count c)).
  assert (Hr : ∀ s2, dest s2 = dest s1 →
    reading (mk_cursor (c_off c + combo_count c * ss) (c_start c) (c_len c) false (combo_start c) (combo_count c)) s2).
  { intros s2 H2. unfold reading, pending. cbn [c_off c_start c_len combo combo_start combo_count].
    split_and!; try done; try lia. by unfold filled in *; rewrite H2. }
  destruct counted; (eexists; split; [reflexivity|]); split_and!; try done; apply Hr; done.
Qed.

(** The flush of a request of the longest size. *)
Lemma maybe_flush b counted c s :
  reading c s → (b = true → combo c = true) →
  ∃ c' s', (if b then flush dev counted c else mret c) s = Done (c', s') ∧ reading c' s' ∧
    c_start c' = c_start c ∧ c_len c' = c_len c ∧ (b = true → combo c' = false) ∧ (b = false → c' = c).
Proof.
  intros Hr Hb. destruct b.
  - destruct (flush_ok counted c s Hr (Hb eq_refl)) as (c' & s' & He & Hr' & H1 & H2 & H3). by exists c', s'.
  - exists c, s. split_and!; done.
Qed.

Lemma reading_dest c s s' : dest s' = dest s → reading c s → reading c s'.
Proof. intros Hd (Hf & Hr). split; [|done]. unfold filled in *. by rewrite Hd. Qed.

(** One sector, or the part of it the request covers. *)
Lemma turn_ok c s :
  reading c s → 0 ≤ c_len c ∧
  ((∃ r s', read_turn dev c s = Done (inr r, s') ∧ reading r s' ∧ c_len r = 0) ∨
   (∃ c' s', read_turn dev c s = Done (inl c', s') ∧ reading c' s' ∧ c_len c' < c_len c)).
Proof.
  intros Hr. pose proof Hr as (_ & Ho & Hl & Hs & Hle & Hc). destruct Hserves as (Hss & Hmx & Hrd).
  assert (Hp : 0 ≤ pending c) by (unfold pending; destruct (combo c); [destruct Hc; [done|]; nia|lia]).
  split; [done|]. unfold read_turn. destruct (Z.gtb_spec (c_len c) 0); [right|left; exists c, s; split_and!; [done|done|lia]].
  set (st := c_start c) in *. assert (Hfl : int_floor 64 st ss = st / ss * ss) by (apply int_floor_spec; lia). rewrite Hfl.
  pose proof (Z.div_mod st ss ltac:(lia)) as Hdm. pose proof (Z.mod_pos_bound st ss ltac:(lia)) as Hmb.
  replace (st - st / ss * ss) with (st mod ss) by lia. rewrite (wrap_small 32 (st mod ss)), (wrap_small 32 (ss - st mod ss)) by lia.
  set (llen := (ss - st mod ss) `min` c_len c). assert (Hll : 0 < llen ≤ ss) by lia. cbv zeta. rewrite run_bind.
  destruct (maybe_flush (combo c && (combo_count c =? maxCombo dev)) true c s Hr) as (c1 & s1 & -> & Hr1 & Hs1 & Hl1 & Hfl1 & Hsame1).
  { by intros [? _]%andb_true_iff. }
  cbn [fst snd]. rewrite Hs1, Hl1. fold st. rewrite run_bind.
  assert (Hend : ∀ c2 s2, filled (c_off c2) s2 → 0 ≤ c_off c2 → c_start c2 = st → c_len c2 = c_len c →
      st + llen = start + c_off c2 + pending c2 →
      (combo c2 = true → 0 < combo_count c2 ≤ maxCombo dev ∧ combo_start c2 * ss = start + c_off c2) →
      reading (mk_cursor (c_off c2) (u64 (st + llen)) (u32 (c_len c - llen)) (combo c2) (combo_start c2) (combo_count c2)) s2).
  { intros c2 s2 H1 H2 H3 H4 H5 H6. rewrite !wrap_small by lia. unfold reading, pending in *.
    cbn [c_off c_start c_len combo combo_start combo_count]. split_and!; try done; lia. }
  destruct (isPerfect dev st llen) eqn:Ep; cbn [negb].
  - apply andb_true_iff in Ep as [Ep1%Z.eqb_eq Ep2%Z.eqb_eq].
    assert (llen = ss) as Ells by (pose proof (Z.div_mod llen ss ltac:(lia)); assert (llen / ss = 1 ∨ llen / ss = 0 ∨ 2 ≤ llen / ss) by (pose proof (Z.div_pos llen ss); lia); nia).
    pose proof Hr1 as (Hf1 & Ho1 & _ & Hst1 & Hle1 & Hc1). unfold pending in *. destruct (combo c1) eqn:Ec1.
    + destruct (Hc1 eq_refl) as [Hn1 Hcs1].
      assert (Hmore : combo_count c1 + 1 ≤ maxCombo dev).
      { destruct (combo c && (combo_count c =? maxCombo dev)) eqn:Eb; [specialize (Hfl1 eq_refl); congruence|]. specialize (Hsame1 eq_refl). subst c1. rewrite Ec1 in Eb. cbn [andb] in Eb. lia. }
      cbn [mret stateM_ret fst snd]. rewrite (wrap_small 32 (combo_count c1 + 1)) by nia.
      eexists _, s1. split; [reflexivity|]. cbn [c_off c_start c_len combo combo_start combo_count].
      split; [|rewrite wrap_small by lia; rewrite ?Hl1; lia]. rewrite ?Hs1, ?Hl1.
      apply (Hend (mk_cursor (c_off c1) st (c_len c) (combo c1) (combo_start c1) (combo_count c1 + 1))); try done;
        unfold pending; cbn [c_off c_start c_len combo combo_start combo_count]; rewrite ?Ec1; [nia|]. intros _. split; [lia|done].
    + cbn [mret stateM_ret fst snd c_off c_start c_len combo combo_start combo_count]. rewrite (wrap_small 32 (0 + 1)) by lia.
      eexists _, s1. split; [reflexivity|]. rewrite ?Hs1, ?Hl1.
      split; [|cbn [c_len]; rewrite wrap_small by lia; lia].
      apply (Hend (mk_cursor (c_off c1) st (c_len c) true (st / ss) (0 + 1))); try done;
        unfold pending; cbn [c_off c_start c_len combo combo_start combo_count]; [lia|]. intros _. split; [lia|]. lia.
  - rewrite run_bind. destruct (maybe_flush (combo c1) false c1 s1 Hr1) as (c2 & s2 & -> & Hr2 & Hs2 & Hl2 & Hcb & Hcb'); [done|].
    cbn [fst snd]. rewrite run_bind. cbn [fetch fst snd]. rewrite Hs2, Hs1. fold st. rewrite Hrd by (try apply Z.div_pos; lia).
    rewrite run_bind. rewrite slice_get by lia. change (lift (Done ?b) ?s) with (@Done (list Z * transfer) (b, s)). cbn [fst snd].
    rewrite run_bind. assert (Ec2 : combo c2 = false) by (destruct (combo c1) eqn:E; [by apply Hcb|by rewrite Hcb', E]).
    pose proof Hr2 as (Hf2 & Ho2 & _ & Hst2 & Hle2 & Hc2). unfold pending in Hst2, Hle2. rewrite Ec2 in Hst2, Hle2.
    replace (st / ss * ss + st mod ss) with (start + c_off c2) by lia.
    destruct (store_ok (c_off c2) llen (mk_transfer (dest s2) (block_bytes_read s2) (requests s2 ++ [(st / ss, 1)]))) as (s3 & -> & Hf3);
      [done|lia..|].
    cbn [fst snd]. rewrite run_bind. cbn [account modify fst snd mret stateM_ret c_off c_start c_len combo combo_start combo_count].
    eexists _, _. split; [reflexivity|]. rewrite ?Hs2, ?Hs1, ?Hl2, ?Hl1. split; [|cbn [c_len]; rewrite wrap_small by lia; lia].
    eapply reading_dest; [|apply (Hend (mk_cursor (c_off c2 + llen) st (c_len c) (combo c2) (combo_start c2) (combo_count c2)) s3)]; try done;
      unfold pending; cbn [c_off c_start c_len combo combo_start combo_count]; rewrite ?Ec2; try done; lia.
Qed.

Lemma reading_start s : dest s = dest0 → reading (mk_cursor 0 start len false 0 0) s.
Proof.
  intros Hd. unfold reading, pending. cbn [c_off c_start c_len combo combo_start combo_count].
  split_and!; try done; try lia. unfold filled. rewrite Hd. done.
Qed.

(** The second loop and the last request. *)
Lemma sectors_read s :
  dest s = dest0 →
  ∃ s', (r ← siter read_fuel (read_turn dev) (mk_cursor 0 start len false 0 0);
         match r with
         | inl _ => lift (Panic "BlockHandle::read does not return")
         | inr c => (if combo c then flush dev true c;; mret tt else mret tt);; mret 0
         end) s = Done (0, s') ∧ filled len s'.
Proof.
  intros Hd. rewrite run_bind.
  destruct (siter_ends reading (λ r s', reading r s' ∧ c_len r = 0) c_len read_fuel (read_turn dev) (mk_cursor 0 start len false 0 0) s)
    as (c & s1 & -> & Hr & H0); [apply turn_ok|by apply reading_start|cbn [c_len]; unfold read_fuel; lia|].
  cbn [fst snd]. rewrite run_bind. destruct (combo c) eqn:Ec.
  - destruct (flush_ok true c s1 Hr Ec) as (c2 & s2 & Hf & (Hf2 & _ & _ & _ & Hl2 & _) & Hc2 & _ & H2).
    rewrite run_bind, Hf. cbn [fst snd mret stateM_ret]. exists s2. split; [done|]. unfold pending in Hl2. rewrite Hc2, H2, H0 in Hl2.
    by replace len with (c_off c2) by lia.
  - cbn [fst snd mret stateM_ret]. exists s1. split; [done|]. destruct Hr as (Hf & _ & _ & _ & Hl & _). unfold pending in Hl.
    rewrite Ec, H0 in Hl. by replace len with (c_off c) by lia.
Qed.

End Read.

(** The bytes of the disk in a buffer. *)
Definition has_read (disk : Z → Z) (start len : Z) (s s' : transfer) : Prop :=
  length (dest s') = length (dest s) ∧ take (Z.to_nat len) (dest s') = slice disk start len ∧
  drop (Z.to_nat len) (dest s') = drop (Z.to_nat len) (dest s).

Lemma read_aligned disk dev base start len s :
  serves disk dev → isAligned base = true → 0 ≤ len < 2 ^ 32 → len ≤ Z.of_nat (length (dest s)) → 0 ≤ start → start + len < 2 ^ 64 →
  ∃ s', read (mk_handle (Some dev) true) base start len s = Done (0, s') ∧ has_read disk start len s s'.
Proof.
  intros Hd Hb Hl Hr Hs Hsl. rewrite read_opened. unfold transfer_bytes. rewrite run_bind.
  rewrite (siter_first _ _ _ _ (false, mk_cursor 0 start len false 0 0) s).
  2: { unfold misaligned_turn. cbn [c_off]. by rewrite Z.add_0_r, Hb. }
  cbn [fst snd]. destruct (sectors_read disk dev Hd start len (dest s) Hl Hr (conj Hs Hsl) s eq_refl) as (s' & He & H1 & H2 & H3).
  exists s'. split; [exact He|done].
Qed.

(** Into an odd address, sector by sector, as long as a turn never sees a length
    that is a multiple of 64 KiB. *)
Lemma read_odd_sectors disk dev base start len k s :
  serves disk dev → sectorSize dev = 2 ^ k → 1 ≤ k → isAligned base = false → 0 ≤ start → start + len < 2 ^ 64 →
  start mod sectorSize dev = 0 → len mod sectorSize dev = 0 → 0 < len < 65536 → len ≤ Z.of_nat (length (dest s)) →
  ∃ s', read (mk_handle (Some dev) true) base start len s = Done (0, s') ∧ has_read disk start len s s'.
Proof.
  intros (Hss & Hmx & Hrd) Hk Hk1 Hb Hs Hsl Hsm Hlm Hl Hr. rewrite read_opened. unfold transfer_bytes. rewrite run_bind. set (ss := sectorSize dev) in *.
  assert (Heven : ∀ q, isAligned (base + q * ss) = false).
  { intros q. unfold isAligned in *. apply Z.eqb_neq. apply Z.eqb_neq in Hb. change (Z.land ?x 1) with (Z.land x (Z.ones 1)) in *. rewrite Z.land_ones in * by lia.
    rewrite Hk. replace (2 ^ k) with (2 ^ (k - 1) * 2 ^ 1) by (rewrite <-Z.pow_add_r by lia; by replace (k - 1 + 1) with k by lia). by rewrite Z.mul_assoc, Z_mod_plus_full. }
  assert (Hland : ∀ q, Z.land (start + q * ss) (ss - 1) = 0).
  { intros q. rewrite Hk. replace (2 ^ k - 1) with (Z.ones k) by (rewrite Z.ones_equiv; lia). rewrite Z.land_ones by lia.
    rewrite <-Hk. fold ss. by rewrite Z_mod_plus_full. }
  set (Inv := λ (c : cursor) (t : transfer), ∃ q, c_off c = q * ss ∧ 0 ≤ q ∧ c_start c = start + q * ss ∧ c_len c = len - q * ss ∧ 0 < c_len c ∧
    filled disk start len (dest s) (q * ss) t).
  destruct (siter_ends Inv (λ r t, r.1 = true ∧ filled disk start len (dest s) len t) c_len read_fuel (misaligned_turn dev base)
    (mk_cursor 0 start len false 0 0) s) as ((b & c) & s1 & -> & Hb1 & Hf).
  - intros c t (q & Ho & Hq & Hst & Hle & Hpos & Hf). split; [lia|]. unfold misaligned_turn. rewrite Ho, Heven, Hst, Hland, run_bind. cbn [fetch fst snd].
    assert (Hqs : 0 ≤ q * ss ≤ len) by nia. rewrite Hrd; [|apply Z.div_pos; lia|lia]. fold ss. rewrite run_bind. cbn [account modify fst snd].
    assert (Hcl : ss ≤ c_len c).
    { apply Z.mod_divide in Hlm as [a Ha]; [|lia]. clear -Ha Hle Hpos Hss. assert (0 < a - q) by (destruct (Z.lt_ge_cases 0 (a - q)); [done|nia]). nia. }
    rewrite Z.min_l by lia. change (u16 0) with 0. cbn [Z.eqb]. rewrite (wrap_small 16) by lia. rewrite Z.min_r by lia. cbv zeta.
    assert (Hdiv : (start + q * ss) / ss * ss = start + q * ss).
    { pose proof (Z.div_mod (start + q * ss) ss ltac:(lia)). rewrite Z_mod_plus_full, Hsm in *. lia. }
    rewrite run_bind, Hdiv, slice_get by lia. change (lift (Done ?b) ?s) with (@Done (list Z * transfer) (b, s)). cbn [fst snd]. rewrite run_bind, Z.add_0_r.
    match goal with |- context [store _ _ ?u] => destruct (store_ok disk start len (dest s) Hr (q * ss) ss u) as (s2 & -> & Hf2) end;
      [exact Hf|lia..|]. cbn [fst snd]. rewrite (wrap_small 64), (wrap_small 32) by lia.
    cbn [c_len]. destruct (Z.eqb_spec (c_len c - ss) 0) as [E|E]; [left|right].
    + eexists _, s2. split; [reflexivity|]. split; [done|]. assert (q * ss + ss = len) as Eq by lia. by rewrite Eq in Hf2.
    + eexists _, s2. split; [reflexivity|]. cbn [c_len]. split; [|lia]. exists (q + 1). cbn. split_and!; try lia.
      by replace ((q + 1) * ss) with (q * ss + ss) by lia.
  - exists 0. cbn. split_and!; try lia. split_and!; done.
  - cbn [c_len]. unfold read_fuel. lia.
  - simpl in Hb1. subst b. cbn [fst snd]. exists s1. split; [done|]. destruct Hf as (H1 & H2 & H3). done.
Qed.

(** C12 (refinement): [read] into a word-aligned buffer, whatever the start and
    the length, is a byte read of the disk: it returns, the first [len] bytes of
    the buffer are the bytes of the disk from [start] on and the bytes behind
    them are untouched, although the device serves whole sectors only and answers
    only requests for runs of at most [maxCombo] sectors. *)
Theorem block_read_correct disk dev base start len s :
  serves disk dev → isAligned base = true → 0 ≤ len < 2 ^ 32 → len ≤ Z.of_nat (length (dest s)) → 0 ≤ start → start + len < 2 ^ 64 →
  ∃ s', read (mk_handle (Some dev) true) base start len s = Done (0, s') ∧ length (dest s') = length (dest s) ∧
    take (Z.to_nat len) (dest s') = slice disk start len ∧ drop (Z.to_nat len) (dest s') = drop (Z.to_nat len) (dest s).
Proof. exact (read_aligned disk dev base start len s). Qed.

(** Into an odd address, a read that starts inside a sector and
    is no longer than the distance from the start of that sector returns the first
    bytes of the sector instead of the bytes asked for. *)
Lemma odd_buffer_reads_sector_start disk dev base start len k s :
  serves disk dev → sectorSize dev = 2 ^ k → 0 ≤ k → isAligned base = false → 0 ≤ start →
  0 < len ≤ start mod sectorSize dev → len ≤ Z.of_nat (length (dest s)) →
  ∃ s', read (mk_handle (Some dev) true) base start len s = Done (0, s') ∧
    take (Z.to_nat len) (dest s') = slice disk (start / sectorSize dev * sectorSize dev) len.
Proof.
  intros (Hss & Hmx & Hrd) Hk Hk0 Hb Hs Hl Hr. set (ss := sectorSize dev) in *. pose proof (Z.mod_pos_bound start ss ltac:(lia)) as Hm.
  assert (Hland : Z.land start (ss - 1) = start mod ss).
  { rewrite Hk. replace (2 ^ k - 1) with (Z.ones k) by (rewrite Z.ones_equiv; lia). by rewrite Z.land_ones. }
  rewrite read_opened. unfold transfer_bytes. rewrite run_bind.
  destruct (put_in_range (dest s) (slice disk (start / ss * ss) len) 0) as [d Hput]; [lia|rewrite slice_length; lia|].
  pose proof (get_put_same _ _ _ _ Hput) as Hget. rewrite slice_length in Hget by lia.
  eexists. split.
  - erewrite siter_first.
    2: { unfold misaligned_turn. cbn [c_off c_start c_len]. rewrite Z.add_0_r, Hb. fold ss. rewrite run_bind. cbn [fetch fst snd].
         rewrite Hrd; [|apply Z.div_pos; lia|lia]. fold ss. rewrite run_bind. cbn [account modify fst snd]. rewrite Hland.
         replace ((start mod ss) `min` len) with len by lia. rewrite (wrap_small 16 len) by lia. replace (len =? 0) with false by lia.
         cbv zeta. rewrite run_bind, Z.mul_1_l, slice_get by lia. change (lift (Done ?b) ?s) with (@Done (list Z * transfer) (b, s)).
         cbn [fst snd]. rewrite run_bind, Z.add_0_r. unfold store at 1. cbn [dest]. rewrite Hput. cbn [fst snd mbind outcome_bind].
         rewrite Z.sub_diag, (wrap_small 32 0) by lia. cbn [Z.eqb]. reflexivity. }
    cbn [fst snd]. reflexivity.
  - cbn [dest]. apply get_Done in Hget as (_ & _ & Hlen & _ & _) . pose proof Hput as (_ & _ & _ & Hd)%put_Done.
    apply list_eq. intros i. destruct (decide (i < Z.to_nat len)%nat).
    + rewrite lookup_take_lt, Hd by lia. pose proof (slice_length disk (start / ss * ss) len ltac:(lia)).
      rewrite decide_True by lia. f_equal. lia.
    + pose proof (slice_length disk (start / ss * ss) len ltac:(lia)).
      rewrite !lookup_ge_None_2; [done|lia|rewrite length_take; lia].
Qed.

(** Into an odd address, a read of 64 KiB from the start of a
    sector never ends: the 16-bit length of a turn is 0, and no turn makes
    progress. *)
Lemma odd_buffer_64k_hangs disk dev base start s n :
  serves disk dev → isAligned base = false → 0 ≤ start < 2 ^ 64 → Z.land start (sectorSize dev - 1) = 0 →
  let c := mk_cursor 0 start 65536 false 0 0 in
  ∃ s', sturns n (misaligned_turn dev base) c s = Done (inl c, s') ∧ dest s' = dest s.
Proof.
  intros (Hss & Hmx & Hrd) Hb Hs Hl c. revert s. induction n as [|n IH]; intros s; [by exists s|].
  assert (Hturn : ∃ s1, misaligned_turn dev base c s = Done (inl c, s1) ∧ dest s1 = dest s).
  { unfold misaligned_turn, c. cbn [c_off c_start c_len]. rewrite Z.add_0_r, Hb, Hl. rewrite run_bind. cbn [fetch fst snd].
    rewrite run_bind. cbn [account modify fst snd]. change (u16 (0 `min` 65536)) with 0. change (u16 65536) with 0.
    change (0 =? 0) with true. cbv iota zeta. rewrite Z.min_l by lia. rewrite run_bind.
    rewrite Hrd; [|apply Z.div_pos; lia|lia]. rewrite slice_get by lia.
    change (lift (Done ?b) ?s) with (@Done (list Z * transfer) (b, s)). cbn [fst snd]. rewrite run_bind. unfold store at 1. cbn [dest].
    change (slice disk _ 0) with (@nil Z). rewrite put_eq by (cbn [length]; lia).
    rewrite bind_ret. cbn [fst snd c_len]. rewrite Z.sub_0_r. change (u32 65536) with 65536. change (65536 =? 0) with false. cbv iota.
    rewrite !Z.add_0_r, wrap_small by lia. eexists. split; [reflexivity|]. done. }
  destruct Hturn as (s1 & He & Hd). destruct (IH s1) as (s2 & He2 & Hd2). exists s2.
  cbn [sturns]. rewrite run_bind, He. cbn [fst snd]. split; [exact He2|by rewrite Hd2].
Qed.

(** ** Handles *)

(** A handle, copied [n] times and destroyed [n + 1] times, initialises the driver
    once and releases it once, at the last destruction. *)
Fixpoint repeat_copy (n : nat) (h : handles) : handles :=
  match n with O => h | S n => repeat_copy n (copy_handle h) end.
Fixpoint repeat_destroy (n : nat) (h : handles) : outcome handles :=
  match n with O => Done h | S n => h ← destroy_handle h; repeat_destroy n h end.

Lemma copies_destroyed n c r i k :
  1 ≤ c < 2 ^ 31 → 1 ≤ r → r + Z.of_nat n < 2 ^ 31 →
  repeat_destroy n (repeat_copy n (mk_handles c r i k)) = Done (mk_handles c r i k).
Proof.
  intros Hc. revert r. induction n as [|n IH]; intros r Hr Hb; [done|].
  assert (Hlast : ∀ m h, repeat_destroy (S m) h = (h ← repeat_destroy m h; destroy_handle h)).
  { induction m as [|m IHm]; intros h; [simpl; by destruct (destroy_handle h)|].
    change (repeat_destroy (S (S m)) h) with (h ← destroy_handle h; repeat_destroy (S m) h).
    cbn [repeat_destroy]. destruct (destroy_handle h) as [h'| |]; [|done..]. apply IHm. }
  rewrite Hlast. cbn [repeat_copy]. unfold copy_handle. cbn [m_init_counter m_refs inits releases].
  rewrite swrap_small by lia. rewrite IH by lia. cbn [mbind outcome_bind]. unfold destroy_handle.
  cbn [m_init_counter m_refs inits releases]. rewrite swrap_small by lia. replace (r + 1 - 1) with r by lia.
  by replace (r =? 0) with false by lia.
Qed.

Lemma handle_lifecycle n i k :
  Z.of_nat n < 2 ^ 31 - 1 →
  (h ← repeat_destroy n (repeat_copy n (open_block_handle (Some true) 0 (mk_handles 0 0 i k)).2); destroy_handle h) =
  Done (mk_handles 0 0 (i + 1) (k + 1)).
Proof. intros Hn. change ((open_block_handle _ _ _).2) with (mk_handles 1 1 (i + 1) k). by rewrite copies_destroyed by lia. Qed.

(** A driver that fails to initialise is counted as initialised: the next open
    succeeds without asking it again. *)
Lemma failed_init_counts error r i k :
  error ≠ 0 →
  ∃ h, open_block_handle (Some true) error (mk_handles 0 r i k) = (inl (Some error), h) ∧
    ∀ e, (open_block_handle (Some true) e h).1 = inr tt ∧ inits (open_block_handle (Some true) e h).2 = inits h.
Proof.
  intros He. eexists. split; [unfold open_block_handle, initExt; cbn; by replace (error =? 0) with false by lia|]. done.
Qed.

(** ** A disk *)

Definition demo_disk (off : Z) : Z := off mod 251.
Definition demo_device : BlockDevice := mk_device 512 4 (λ sector n, if n <=? 4 then slice demo_disk (sector * 512) (n * 512) else []).
Definition demo_transfer : transfer := mk_transfer (replicate 4000 0) 0 [].

Lemma demo_serves : serves demo_disk demo_device.
Proof. split; [done|]. split; [done|]. intros sector n _ [_ Hn]. change (maxCombo demo_device) with 4 in Hn. cbn [readBlock demo_device]. by rewrite (proj2 (Z.leb_le n 4) Hn). Qed.

Lemma block_read_correct_witness :
  ∃ s', read (mk_handle (Some demo_device) true) 0x1000 700 3000 demo_transfer = Done (0, s') ∧ take 3000 (dest s') = slice demo_disk 700 3000.
Proof.
  destruct (block_read_correct demo_disk demo_device 0x1000 700 3000 demo_transfer demo_serves) as (s' & He & _ & Ht & _);
    [done|done|by vm_compute|done|done|].
  exists s'. split; [exact He|exact Ht].
Defined.

Lemma odd_buffer_reads_sector_start_witness :
  ∃ s', read (mk_handle (Some demo_device) true) 0x1001 700 100 demo_transfer = Done (0, s') ∧ take 100 (dest s') = slice demo_disk 512 100.
Proof.
  apply (odd_buffer_reads_sector_start demo_disk demo_device 0x1001 700 100 9 demo_transfer demo_serves);
    [done|done|done|done|by vm_compute|by vm_compute].
Defined.

Lemma odd_buffer_64k_hangs_witness :
  let c := mk_cursor 0 1024 65536 false 0 0 in
  ∃ s', sturns 100 (misaligned_turn demo_device 0x1001) c demo_transfer = Done (inl c, s') ∧ dest s' = dest demo_transfer.
Proof. apply (odd_buffer_64k_hangs demo_disk demo_device 0x1001 1024 demo_transfer 100 demo_serves); done. Defined.

End BlockHandle.
