(* ===== verification/InodeFile.v ===== *)
(** * Files on inodes

    [fs/inodefile.hpp]: a file reads bytes through an inode that reads whole
    blocks; it keeps the block of its position in a cache.  The inode's
    [readBlocks] is a parameter of the file, since every file system has its own:
    given the address of the buffer, the first block and the number of blocks, it
    returns the bytes it stores there.  Its error code is ignored by the code. *)
From S2P Require Import Prelude Errno Math Block.
Local Open Scope Z_scope.
Import BlockHandle (cursor, mk_cursor, c_off, c_start, c_len, combo, combo_start, combo_count,
                    slice, slice_length, slice_app, slice_get, isAligned).

Module INodeFile.

Record inode := mk_inode {
  size : Z;
  node_readBlocks : Z → Z → Z → outcome (list Z);
}.

Record file := mk_file {
  m_pos : Z;
  m_block_size : Z;
  m_cached_block : Z;
  m_cache_buffer : list Z;
  m_inode : inode;
}.

Inductive seek_mode := SEEK_SET | SEEK_CURRENT | SEEK_END.

(** [INodeFile(inode)]; [block_size] is that of the control block. *)
Definition open (node : inode) (block_size : Z) : file :=
  mk_file 0 (u16 block_size) 0xFFFFFFFFFFFFFFFF (replicate (Z.to_nat (u16 block_size)) 0) node.

Definition set_pos (pos : Z) (f : file) : file :=
  mk_file pos (m_block_size f) (m_cached_block f) (m_cache_buffer f) (m_inode f).
Definition set_cache (block : Z) (buffer : list Z) (f : file) : file :=
  mk_file (m_pos f) (m_block_size f) block buffer (m_inode f).

(** ** Whole blocks *)

(** The state of [readBlocks] is the memory at the address it stores to. *)
Abbreviation M := (stateM (list Z)).

Definition store (off : Z) (bs : list Z) : M unit := λ d, d ← put d off bs; Done (tt, d).

Section Blocks.
Context (node : inode) (bsize : Z).

Definition isPerfect (start len : Z) : bool := (start mod bsize =? 0) && (len mod bsize =? 0).

(** [m_inode->readBlocks(buffer, combo_start, combo_count)]: the parameter of
    [INode::readBlocks] has 16 bits. *)
Definition flush (base : Z) (c : cursor) : M cursor :=
  bs ← lift (node_readBlocks node (base + c_off c) (combo_start c) (u16 (combo_count c)));
  store (c_off c) bs;;
  mret (mk_cursor (c_off c + u32 (combo_count c * bsize)) (c_start c) (c_len c) false (combo_start c) (combo_count c)).

(** A block read into [m_overflow_buffer], at address [overflow]. *)
Definition read_overflow (overflow block : Z) : outcome (list Z) :=
  bs ← node_readBlocks node overflow block 1;
  put (replicate (Z.to_nat bsize) 0) 0 bs.

Definition blocks_turn (base overflow : Z) (c : cursor) : M (cursor + cursor) :=
  if c_len c >? 0 then
    let offset := u32 (c_start c - int_floor 64 (c_start c) bsize) in
    let llen := u32 (bsize - offset) `min` c_len c in
    c ← (if negb (isPerfect (c_start c) llen) then
           c ← (if combo c then flush base c else mret c);
           bs ← lift (read_overflow overflow (c_start c / bsize));
           bs ← lift (get bs offset llen);
           store (c_off c) bs;;
           mret (mk_cursor (c_off c + llen) (c_start c) (c_len c) (combo c) (combo_start c) (combo_count c))
         else
           let c := if combo c then c
                    else mk_cursor (c_off c) (c_start c) (c_len c) true (c_start c / bsize) 0 in
           mret (mk_cursor (c_off c) (c_start c) (c_len c) (combo c) (combo_start c) (u32 (combo_count c + 1))));
    mret (inl (mk_cursor (c_off c) (u64 (c_start c + llen)) (u32 (c_len c - llen)) (combo c) (combo_start c) (combo_count c)))
  else mret (inr c).

(** Every turn takes at least a byte of the 32-bit length. *)
Definition blocks_fuel : positive := 4294967296.

Definition readBlocks (base overflow start len : Z) : M unit :=
  r ← siter blocks_fuel (blocks_turn base overflow) (mk_cursor 0 start (u32 len) false 0 0);
  match r with
  | inl _ => lift (Panic "readBlocks does not return")
  | inr c => if combo c then flush base c;; mret tt else mret tt
  end.

End Blocks.

(** ** The methods *)

(** The bytes of the block in the cache: their number, the file and the buffer. *)
Definition read_cached (count : Z) (f : file) (d : list Z) : outcome (Z * file * list Z) :=
  if u64 (m_pos f) / m_block_size f =? m_cached_block f then
    let offset := u16 (Z.land (m_pos f) (m_block_size f - 1)) in
    let len := u16 (u64 (m_block_size f - offset) `min` count) in
    bs ← get (m_cache_buffer f) offset len;
    d ← put d 0 bs;
    Done (len, set_pos (i64 (m_pos f + len)) f, d)
  else Done (0, f, d).

(** The block of the position, read into the cache unless it is there. *)
Definition refill_cache (overflow cache last_block : Z) (f : file) : outcome file :=
  buffer ←
    (if negb (last_block =? m_cached_block f) then
       '(_, b) ← readBlocks (m_inode f) (m_block_size f) cache overflow (u64 (last_block * m_block_size f)) (m_block_size f) (m_cache_buffer f);
       Done b
     else Done (m_cache_buffer f));
  Done (set_cache last_block buffer f).

(** [read] into the memory at [base]; [overflow] is the address of the overflow
    buffer of [readBlocks] and [cache] that of [m_cache_buffer]. *)
Definition read (base overflow cache count : Z) (f : file) (d : list Z) : outcome (Z * file * list Z) :=
  let requested_count := u32 count in
  let count := u64 (size (m_inode f) - m_pos f) `min` count in
  if count =? 0 then Done (0, f, d)
  else
    '(len, f, d) ← read_cached count f d;
    let count := count - len in
    if count =? 0 then Done (requested_count, f, d)
    else
      rest ← get d len (Z.of_nat (length d) - len);
      '(_, rest) ← readBlocks (m_inode f) (m_block_size f) (base + len) overflow (m_pos f) count rest;
      d ← put d len rest;
      let f := set_pos (i64 (m_pos f + count)) f in
      f ← refill_cache overflow cache (u64 (m_pos f) / m_block_size f) f;
      Done (count, f, d).

Definition seek (offset : Z) (mode : seek_mode) (f : file) : (error_t + Z) * file :=
  let new_pos := match mode with
    | SEEK_SET => offset
    | SEEK_CURRENT => i64 (m_pos f + offset)
    | SEEK_END => i64 (size (m_inode f) + offset)
    end in
  if (new_pos <? 0) || (new_pos >? size (m_inode f)) then (inl EINVAL, f)
  else (inr new_pos, set_pos new_pos f).

(** [dup]: the new file, with a cache buffer of its own. *)
Definition dup (f : file) : outcome file :=
  let d := open (m_inode f) (m_block_size f) in
  bs ← get (m_cache_buffer f) 0 (m_block_size f);
  buffer ← put (m_cache_buffer d) 0 bs;
  Done (set_cache (m_cached_block f) buffer (set_pos (m_pos f) d)).

(** ** Reading blocks *)

(** A transfer of [n] bytes to [base] that [BlockHandle::read] can end: an odd
    buffer must get fewer than 64 KiB (see [BlockHandle.odd_buffer_64k_hangs]). *)
Definition quiet (base n : Z) : Prop := isAligned base = true ∨ n < 65536.

Lemma aligned_mod x : isAligned x = true ↔ x mod 2 = 0.
Proof. unfold isAligned. change 1 with (Z.ones 1) at 1. rewrite Z.land_ones, Z.eqb_eq by lia. done. Qed.

Section Read.
Context (data : Z → Z) (node : inode) (bsize : Z).

(** What an inode promises: whole blocks of its data. *)
Definition serves_blocks : Prop :=
  0 < bsize < 2 ^ 16 ∧ bsize mod 2 = 0 ∧
  ∀ base start count, 0 ≤ start → start * bsize + count * bsize < 2 ^ 63 → 0 < count < 2 ^ 16 → quiet base (count * bsize) →
    node_readBlocks node base start count = Done (slice data (start * bsize) (count * bsize)).

(** A request of [len] bytes from [start] on to the address [base]. *)
Definition quiet_request (base start len : Z) : Prop :=
  len < 65536 ∨ isAligned base = true ∧ isAligned start = true.

Hypothesis Hserves : serves_blocks.
Context (base overflow start len : Z) (dest0 : list Z).
Hypothesis Hlen : 0 ≤ len < 2 ^ 32.
Hypothesis Hblocks : len < 65536 * bsize.
Hypothesis Hroom : len ≤ Z.of_nat (length dest0).
Hypothesis Hstart : 0 ≤ start ∧ start + len + bsize < 2 ^ 63.
Hypothesis Hquiet : quiet_request base start len.

Definition filled (off : Z) (d : list Z) : Prop :=
  length d = length dest0 ∧ take (Z.to_nat off) d = slice data start off ∧
  drop (Z.to_nat len) d = drop (Z.to_nat len) dest0.

Lemma store_fills off n d :
  filled off d → 0 ≤ off → 0 ≤ n → off + n ≤ len →
  ∃ d', store off (slice data (start + off) n) d = Done (tt, d') ∧ filled (off + n) d'.
Proof.
  intros (Hl & Ht & Hd) Ho Hn Hb. pose proof (slice_length data (start + off) n Hn) as Hsl. unfold store.
  rewrite put_eq by lia. eexists. split; [reflexivity|].
  pose proof (slice_length data start (off + n) ltac:(lia)). unfold filled. rewrite Ht, app_assoc, <-slice_app by lia. split_and!.
  - rewrite !length_app, length_drop. lia.
  - rewrite take_app_le by lia. apply take_ge. lia.
  - rewrite drop_app_ge by lia. rewrite drop_drop. rewrite <-Hd. f_equal. lia.
Qed.

Definition pending (c : cursor) : Z := if combo c then combo_count c * bsize else 0.

Definition reading (c : cursor) (d : list Z) : Prop :=
  filled (c_off c) d ∧ 0 ≤ c_off c ∧ 0 ≤ c_len c ∧ c_start c = start + c_off c + pending c ∧
  c_len c = len - c_off c - pending c ∧
  (combo c = true → 0 < combo_count c ∧ combo_start c * bsize = start + c_off c).

Lemma quiet_at off k n : k * bsize = start + off → n ≤ len → quiet (base + off) n.
Proof.
  intros Hk Hn. destruct Hserves as (_ & He & _). destruct Hquiet as [?|[Hb%aligned_mod Hs%aligned_mod]]; [right; lia|left].
  apply aligned_mod. assert (Hoff : off = k * bsize - start) by lia. rewrite Hoff, Z.add_sub_assoc.
  rewrite Zminus_mod, Hs, Zplus_mod, Hb, Zmult_mod, He, Z.mul_0_r. done.
Qed.

Lemma flush_fills c d :
  reading c d → combo c = true →
  ∃ c' d', flush node bsize base c d = Done (c', d') ∧ reading c' d' ∧ combo c' = false ∧
    c_start c' = c_start c ∧ c_len c' = c_len c.
Proof.
  intros (Hf & Ho & Hl & Hs & Hle & Hc) Hco. destruct (Hc Hco) as [Hcnt Hcs]. unfold pending in *. rewrite Hco in *.
  pose proof Hserves as (Hss & _ & Hrd). unfold flush.
  assert (0 ≤ combo_start c) by nia. assert (combo_count c < 65536) by nia.
  rewrite (wrap_small 16), run_bind, Hrd by (try eapply quiet_at; try exact Hcs; nia).
  change (lift (Done ?b) ?s) with (@Done (list Z * list Z) (b, s)). rewrite Hcs. cbn [fst snd]. rewrite run_bind.
  destruct (store_fills (c_off c) (combo_count c * bsize) d) as (d1 & -> & Hf1); [done|nia..|]. cbn [fst snd]. rewrite wrap_small by nia.
  eexists _, d1. split; [reflexivity|]. unfold reading, pending. cbn [c_off c_start c_len combo combo_start combo_count].
  split_and!; try done; nia.
Qed.

(** One block, or the part of it the request covers. *)
Lemma blocks_turn_ok c d :
  reading c d → 0 ≤ c_len c ∧
  ((∃ r d', blocks_turn node bsize base overflow c d = Done (inr r, d') ∧ reading r d' ∧ c_len r = 0) ∨
   (∃ c' d', blocks_turn node bsize base overflow c d = Done (inl c', d') ∧ reading c' d' ∧ c_len c' < c_len c)).
Proof.
  intros Hr. pose proof Hr as (_ & Ho & Hl & Hs & Hle & Hc). pose proof Hserves as (Hss & _ & Hrd).
  assert (Hp : 0 ≤ pending c) by (unfold pending; destruct (combo c); [destruct Hc; [done|]; nia|lia]).
  split; [done|]. unfold blocks_turn. destruct (Z.gtb_spec (c_len c) 0); [right|left; exists c, d; split_and!; [done|done|lia]].
  set (st := c_start c) in *. rewrite (proj1 (int_floor_spec 64 st bsize ltac:(lia) ltac:(lia))).
  pose proof (Z.div_mod st bsize ltac:(lia)) as Hdm. pose proof (Z.mod_pos_bound st bsize ltac:(lia)) as Hmb.
  replace (st - st / bsize * bsize) with (st mod bsize) by lia. rewrite (wrap_small 32 (st mod bsize)), (wrap_small 32 (bsize - st mod bsize)) by lia.
  set (llen := (bsize - st mod bsize) `min` c_len c). assert (Hll : 0 < llen ≤ bsize) by lia. cbv zeta. rewrite run_bind.
  assert (Hend : ∀ c2 d2, filled (c_off c2) d2 → 0 ≤ c_off c2 → c_start c2 = st → c_len c2 = c_len c →
      st + llen = start + c_off c2 + pending c2 →
      (combo c2 = true → 0 < combo_count c2 ∧ combo_start c2 * bsize = start + c_off c2) →
      reading (mk_cursor (c_off c2) (u64 (c_start c2 + llen)) (u32 (c_len c2 - llen)) (combo c2) (combo_start c2) (combo_count c2)) d2 ∧
      u32 (c_len c2 - llen) < c_len c).
  { intros c2 d2 H1 H2 H3 H4 H5 H6. rewrite H3, H4, !wrap_small by lia. unfold reading, pending in *.
    cbn [c_off c_start c_len combo combo_start combo_count]. split_and!; try done; lia. }
  destruct (isPerfect bsize st llen) eqn:Ep; cbn [negb].
  - apply andb_true_iff in Ep as [Ep1%Z.eqb_eq Ep2%Z.eqb_eq].
    assert (llen = bsize) as Ells by (destruct (decide (llen = bsize)); [done|rewrite Z.mod_small in Ep2; lia]).
    destruct Hr as (Hf & _). unfold pending in *. cbn [mret stateM_ret fst snd]. destruct (combo c) eqn:Ec.
    + destruct (Hc eq_refl) as [Hn1 Hcs1]. rewrite (wrap_small 32 (combo_count c + 1)) by nia.
      eexists _, d. split; [reflexivity|]. apply Hend; try done; unfold pending; cbn; rewrite ?Ec; [nia|]. intros _. split; [lia|done].
    + eexists _, d. split; [reflexivity|]. rewrite (wrap_small 32 (_ + 1)) by (cbn; lia).
      apply Hend; try done; unfold pending; cbn [combo combo_count combo_start c_off]; [lia|]. intros _. split; lia.
  - assert (Hfl : ∃ c2 d2, (if combo c then flush node bsize base c else mret c) d = Done (c2, d2) ∧ reading c2 d2 ∧ combo c2 = false ∧
      c_start c2 = st ∧ c_len c2 = c_len c).
    { destruct (combo c) eqn:Ec; [by apply flush_fills|]. exists c, d. by split_and!. }
    destruct Hfl as (c2 & d2 & He & (Hf2 & Ho2 & _ & Hst2 & Hle2 & _) & Ec2 & Hs2 & Hl2). unfold pending in Hst2, Hle2. rewrite Ec2 in Hst2, Hle2.
    rewrite run_bind, He. cbn [fst snd]. rewrite Hs2. erewrite lift_bind.
    2:{ unfold read_overflow. rewrite Hrd by (try (right; lia); try apply Z.div_pos; lia). rewrite bind_ret.
        pose proof (slice_length data (st / bsize * bsize) (1 * bsize) ltac:(lia)).
        rewrite put_eq by (rewrite ?length_replicate; lia). rewrite drop_ge by (rewrite length_replicate; lia). by rewrite app_nil_r. }
    cbn [take app Z.to_nat]. erewrite lift_bind by (apply slice_get; lia). rewrite run_bind.
    replace (st / bsize * bsize + st mod bsize) with (start + c_off c2) by lia.
    destruct (store_fills (c_off c2) llen d2) as (d3 & -> & Hf3); [done|lia..|]. cbn [fst snd].
    eexists _, d3. split; [reflexivity|]. apply Hend; cbn; try done; unfold pending; cbn; rewrite ?Ec2; try done; lia.
Qed.

(** [readBlocks] is a byte read of the data. *)
Lemma readBlocks_ok : ∃ d, readBlocks node bsize base overflow start len dest0 = Done (tt, d) ∧ filled len d.
Proof.
  unfold readBlocks. rewrite run_bind, wrap_small by lia.
  destruct (siter_ends reading (λ r d', reading r d' ∧ c_len r = 0) c_len blocks_fuel (blocks_turn node bsize base overflow)
    (mk_cursor 0 start len false 0 0) dest0) as (c & d1 & -> & Hr & H0); [apply blocks_turn_ok| |cbn [c_len]; unfold blocks_fuel; lia|].
  { unfold reading, pending, filled. cbn. split_and!; try done; lia. }
  cbn [fst snd]. destruct (combo c) eqn:Ec.
  - destruct (flush_fills c d1 Hr Ec) as (c2 & d2 & Hf & (Hf2 & _ & _ & _ & Hl2 & _) & Hc2 & _ & H2).
    rewrite run_bind, Hf. cbn [fst snd mret stateM_ret]. exists d2. split; [done|]. unfold pending in Hl2. rewrite Hc2, H2, H0 in Hl2.
    by replace len with (c_off c2) by lia.
  - exists d1. split; [done|]. destruct Hr as (Hf & _ & _ & _ & Hl & _). unfold pending in Hl.
    rewrite Ec, H0 in Hl. by replace len with (c_off c) by lia.
Qed.

End Read.

(** ** Files *)

(** The block of the cache is a block of the data; no block is cached at first. *)
Definition file_inv (data : Z → Z) (f : file) : Prop :=
  serves_blocks data (m_inode f) (m_block_size f) ∧ (∃ k, 0 ≤ k ∧ m_block_size f = 2 ^ k) ∧
  0 ≤ m_pos f ≤ size (m_inode f) ∧ size (m_inode f) < 2 ^ 62 ∧ Z.of_nat (length (m_cache_buffer f)) = m_block_size f ∧
  (m_cached_block f = 0xFFFFFFFFFFFFFFFF ∨
   0 ≤ m_cached_block f ∧ m_cache_buffer f = slice data (m_cached_block f * m_block_size f) (m_block_size f)).

(** How many of the next [n] bytes the cache holds. *)
Definition cached_part (f : file) (n : Z) : Z :=
  if m_pos f / m_block_size f =? m_cached_block f
  then (m_block_size f - m_pos f mod m_block_size f) `min` n else 0.

(** The bytes of a read from the position on. *)
Definition readable (f : file) (count : Z) : Z := (size (m_inode f) - m_pos f) `min` count.

Lemma open_inv data node bsize k :
  serves_blocks data node bsize → bsize = 2 ^ k → 0 ≤ k → 0 ≤ size node < 2 ^ 62 → file_inv data (open node bsize).
Proof.
  intros Hs Hk Hk0 Hsz. pose proof Hs as (Hb & _). unfold file_inv, open. cbn. rewrite wrap_small by lia.
  rewrite length_replicate. split_and!; try done; [by exists k|lia..|by left].
Qed.

Lemma cached_part_bound data f n : file_inv data f → 0 ≤ n → 0 ≤ cached_part f n ≤ n.
Proof.
  intros ((Hb & _) & _) Hn. unfold cached_part. pose proof (Z.mod_pos_bound (m_pos f) (m_block_size f) ltac:(lia)).
  destruct (_ =? _); lia.
Qed.

Lemma put_front (d bs : list Z) n : Z.of_nat (length bs) = n → n ≤ Z.of_nat (length d) → put d 0 bs = Done (bs ++ drop (Z.to_nat n) d).
Proof. intros Hl Hn. rewrite put_eq by lia. simpl. do 3 f_equal. lia. Qed.

Lemma read_cached_ok data f n d :
  file_inv data f → 0 < n ≤ size (m_inode f) - m_pos f → n ≤ Z.of_nat (length d) → let cp := cached_part f n in
  read_cached n f d = Done (cp, set_pos (m_pos f + cp) f, slice data (m_pos f) cp ++ drop (Z.to_nat cp) d).
Proof.
  intros Hf Hn Hd cp. pose proof Hf as ((Hb & _) & (k & Hk0 & Hk) & Hp & Hs & _ & Hc). pose proof (cached_part_bound data f n Hf ltac:(lia)) as Hcp. fold cp in Hcp.
  unfold read_cached. rewrite (wrap_small 64 (m_pos f)) by lia. subst cp. unfold cached_part in *. set (bs := m_block_size f) in *.
  pose proof (Z.mod_pos_bound (m_pos f) bs ltac:(lia)) as Hmod. pose proof (Z.div_mod (m_pos f) bs ltac:(lia)).
  destruct (Z.eqb_spec (m_pos f / bs) (m_cached_block f)) as [He|He]; [|rewrite Z.add_0_r; by destruct f].
  assert (m_pos f / bs ≤ m_pos f) by (apply Z.div_le_upper_bound; nia).
  assert (Hland : Z.land (m_pos f) (bs - 1) = m_pos f mod bs).
  { rewrite Hk. replace (2 ^ k - 1) with (Z.ones k) by (rewrite Z.ones_equiv; lia). by rewrite Z.land_ones. }
  rewrite Hland, (wrap_small 16 (m_pos f mod bs)), (wrap_small 64 (bs - _)), (wrap_small 16 (_ `min` _)) by lia. cbv zeta.
  destruct Hc as [Hc|[Hc0 Hc]]; [lia|]. rewrite Hc, slice_get, bind_ret by lia.
  replace (m_cached_block f * bs + m_pos f mod bs) with (m_pos f) by lia.
  rewrite (put_front _ _ _ (slice_length data (m_pos f) ((bs - m_pos f mod bs) `min` n) ltac:(lia))) by lia. rewrite bind_ret. by rewrite swrap_small by lia.
Qed.

Lemma refill_ok data f overflow cache :
  file_inv data f → let last := m_pos f / m_block_size f in
  ∃ b, refill_cache overflow cache last f = Done (set_cache last b f) ∧ file_inv data (set_cache last b f).
Proof.
  intros Hf last. pose proof Hf as (Hsv & Hk & Hp & Hs & Hl & Hc). pose proof Hsv as (Hb & _).
  pose proof (Z.div_mod (m_pos f) (m_block_size f) ltac:(lia)) as Hdm. pose proof (Z.mod_pos_bound (m_pos f) (m_block_size f) ltac:(lia)). fold last in Hdm.
  assert (0 ≤ last ≤ m_pos f) by (split; [apply Z.div_pos|apply Z.div_le_upper_bound]; nia).
  assert (Hinv : ∀ b, b = slice data (last * m_block_size f) (m_block_size f) → file_inv data (set_cache last b f)).
  { intros b Hb1. unfold file_inv. cbn. pose proof (slice_length data (last * m_block_size f) (m_block_size f) ltac:(lia)).
    split_and!; try done; try lia; [by rewrite Hb1|]. right. split; [lia|done]. }
  unfold refill_cache. destruct (Z.eqb_spec last (m_cached_block f)) as [He|Hne]; cbn [negb].
  - exists (m_cache_buffer f). split; [done|]. apply Hinv. destruct Hc as [?|[_ Hc]]; [lia|]. by rewrite He.
  - rewrite wrap_small by nia.
    destruct (readBlocks_ok data (m_inode f) (m_block_size f) Hsv cache overflow (last * m_block_size f) (m_block_size f) (m_cache_buffer f))
      as (b & -> & Hlb & Htk & _); [lia|lia|lia|nia|left; lia|].
    exists b. split; [done|]. apply Hinv. by rewrite take_ge in Htk by lia.
Qed.

Lemma quiet_rest data f base n :
  file_inv data f → quiet_request base (m_pos f) n → cached_part f n < n →
  quiet_request (base + cached_part f n) (m_pos f + cached_part f n) (n - cached_part f n).
Proof.
  intros ((Hb & He & _) & _ & Hp & _) Hq Hc. unfold cached_part in *. destruct (_ =? _); [|rewrite !Z.add_0_r; by rewrite Z.sub_0_r].
  pose proof (Z.mod_pos_bound (m_pos f) (m_block_size f) ltac:(lia)).
  destruct Hq as [?|[H1%aligned_mod H2%aligned_mod]]; [left; lia|right]. rewrite !aligned_mod.
  rewrite Z.min_l in * by lia. apply Z.mod_divide in H1 as [a Ha], H2 as [p Hp2], He as [c He]; [|lia..].
  rewrite (Z.mod_eq (m_pos f)) by lia. set (q := m_pos f / m_block_size f). rewrite Ha, Hp2, He. split.
  - replace (a * 2 + _) with ((a + c - p + c * q) * 2) by lia. by apply Z.mod_mul.
  - replace (p * 2 + _) with ((c + c * q) * 2) by lia. by apply Z.mod_mul.
Qed.

(** [read] with [n] bytes left before the end of the file, or
    asked for, stores the next [n] bytes of the file, moves the position by [n]
    and keeps the cache right, whatever part of the bytes was cached and however
    the blocks are grouped into requests.  The value returned is [n] only when
    nothing was cached: when the cache holds all of them it is the number asked
    for, even behind the end of the file, and else the bytes from the cache are
    not counted. *)
Lemma file_read_correct data base overflow cache count f d :
  file_inv data f → 0 ≤ count < 2 ^ 32 → let n := readable f count in
  n < 65536 * m_block_size f → n ≤ Z.of_nat (length d) → quiet_request base (m_pos f) n →
  ∃ f' d', read base overflow cache count f d =
      Done (if n =? 0 then 0 else if cached_part f n =? n then count else n - cached_part f n, f', d') ∧
    take (Z.to_nat n) d' = slice data (m_pos f) n ∧ drop (Z.to_nat n) d' = drop (Z.to_nat n) d ∧
    m_pos f' = m_pos f + n ∧ m_inode f' = m_inode f ∧ file_inv data f'.
Proof.
  intros Hf Hcount n Hn Hroom Hq. pose proof Hf as (Hsv & (k & Hk0 & Hk) & Hp & Hs & Hl & Hc). pose proof Hsv as (Hb & _).
  assert (Hn0 : 0 ≤ n ≤ size (m_inode f) - m_pos f) by (unfold n, readable; lia). unfold read. rewrite (wrap_small 64 (size _ - _)) by lia.
  fold (readable f count). fold n. cbv zeta. destruct (Z.eqb_spec n 0) as [H0|H0].
  { exists f, d. rewrite H0. change (Z.to_nat 0) with 0%nat. rewrite Z.add_0_r, take_0. by split_and!. }
  rewrite (read_cached_ok data), bind_ret by (done || lia).
  pose proof (cached_part_bound data f n Hf ltac:(lia)) as Hcp. pose proof (slice_length data (m_pos f) (cached_part f n) ltac:(lia)) as Hsl.
  assert (Hmove : ∀ m, 0 ≤ m ≤ n → file_inv data (set_pos (m_pos f + m) f)).
  { intros m Hm. split_and!; try done; cbn; [by exists k|lia..]. }
  destruct (Z.eqb_spec (cached_part f n) n) as [E|E].
  { rewrite E, Z.sub_diag, wrap_small in * by lia. cbn [Z.eqb]. eexists _, _. split; [reflexivity|].
    rewrite take_app_le, take_ge, drop_app_ge by lia. rewrite drop_drop. split_and!; try done; [f_equal; lia|]. apply Hmove. lia. }
  pose proof (quiet_rest data f base n Hf Hq ltac:(lia)) as Hq'. set (cp := cached_part f n) in *. replace (n - cp =? 0) with false by lia.
  rewrite get_eq, bind_ret, take_ge, drop_app_ge by (rewrite ?length_drop, ?length_app, ?length_drop; lia).
  replace (Z.to_nat cp - length _)%nat with 0%nat by lia. rewrite drop_0. cbn [m_pos m_inode m_block_size set_pos].
  destruct (readBlocks_ok data (m_inode f) (m_block_size f) Hsv (base + cp) overflow (m_pos f + cp) (n - cp) (drop (Z.to_nat cp) d)) as (d2 & -> & Hl2 & Ht2 & Hd2);
    [lia|lia|rewrite length_drop; lia|lia|done|].
  rewrite length_drop in Hl2. rewrite bind_ret, put_eq, bind_ret by (rewrite ?length_app, ?length_drop; lia).
  rewrite (swrap_small 64), (wrap_small 64) by lia. replace (m_pos f + cp + (n - cp)) with (m_pos f + n) by lia.
  destruct (refill_ok data (set_pos (m_pos f + n) f) overflow cache (Hmove n ltac:(lia))) as (b & He & Hb1). unfold set_pos in He, Hb1 |- *. cbn [m_pos m_block_size m_cached_block m_cache_buffer m_inode] in He, Hb1 |- *. rewrite He, bind_ret.
  rewrite take_app_le, (take_ge (slice _ _ _)), (drop_ge (_ ++ _)), app_nil_r by (rewrite ?length_app, ?length_drop; lia).
  eexists _, _. split; [reflexivity|].
  rewrite take_app_ge, drop_app_ge by lia. replace (Z.to_nat n - length (slice data (m_pos f) cp))%nat with (Z.to_nat (n - cp)) by lia.
  rewrite Ht2, Hd2, drop_drop, <-slice_app by lia. split_and!; try done; f_equal; lia.
Qed.

(** [seek] moves the position to a byte of the file or to its end, or fails and
    changes nothing; [dup] is a file with the same position and cache. *)
Lemma seek_dup_keep data f :
  file_inv data f →
  (∀ offset mode, match seek offset mode f with
     | (inr p, f') => f' = set_pos p f ∧ 0 ≤ p ≤ size (m_inode f) ∧ file_inv data f'
     | (inl e, f') => e = EINVAL ∧ f' = f
     end) ∧
  dup f = Done f.
Proof.
  intros Hf. pose proof Hf as (Hsv & Hk & Hp & Hs & Hl & Hc). pose proof Hsv as (Hb & _). split.
  - intros offset mode. unfold seek. set (p := match mode with SEEK_SET => _ | _ => _ end).
    destruct (Z.ltb_spec p 0); [done|]. rewrite Z.gtb_ltb. destruct (Z.ltb_spec (size (m_inode f)) p); [done|]. cbn [orb].
    split_and!; try done; lia.
  - unfold dup, open. rewrite (wrap_small 16) by lia. rewrite get_eq, bind_ret, drop_0, take_ge by lia. cbn [m_cache_buffer].
    rewrite (put_front _ _ (m_block_size f)) by (rewrite ?length_replicate; lia). rewrite drop_ge, app_nil_r by (rewrite length_replicate; lia).
    by destruct f.
Qed.

(** A seek past the end fails, a seek to the end succeeds. *)
Lemma seek_end_bounds data f :
  file_inv data f → (seek 0 SEEK_END f).1 = inr (size (m_inode f)) ∧ (seek 1 SEEK_END f).1 = inl EINVAL.
Proof.
  intros (_ & _ & Hp & Hs & _). unfold seek. rewrite Z.add_0_r, !swrap_small by lia.
  destruct (Z.ltb_spec (size (m_inode f)) 0); [lia|]. rewrite !Z.gtb_ltb, Z.ltb_irrefl.
  destruct (Z.ltb_spec (size (m_inode f) + 1) 0); [lia|]. destruct (Z.ltb_spec (size (m_inode f)) (size (m_inode f) + 1)); [done|lia].
Qed.

Definition demo_data (i : Z) : Z := i mod 251.
Definition demo_node : inode := mk_inode 3000 (λ _ start count, Done (slice demo_data (start * 2048) (count * 2048))).

Lemma demo_file_inv : file_inv demo_data (open demo_node 2048).
Proof. apply (open_inv _ _ _ 11); [|done|lia|cbn; lia]. split; [lia|]; split; [done|by intros]. Qed.

Lemma file_read_correct_witness :
  ∃ f' d', read 4096 8192 16384 3 (open demo_node 2048) [7; 7; 7; 7] = Done (3, f', d') ∧ take 3 d' = [0; 1; 2] ∧ m_pos f' = 3.
Proof.
  destruct (file_read_correct demo_data 4096 8192 16384 3 (open demo_node 2048) [7; 7; 7; 7] demo_file_inv) as (f' & d' & He & Ht & _ & Hp & _);
    [lia|vm_compute; reflexivity|vm_compute; congruence|left; vm_compute; reflexivity|].
  exists f', d'. split; [exact He|]. split; [exact Ht|exact Hp].
Defined.

(** Reading three bytes twice and then to the end: the last of the 3000 bytes are
    read, and the values returned are 3, 3, 952 and 100. *)
Example short_counts :
  (λ r, match r with Done (a, b, c, e, pos) => Some (a, b, c, e, pos) | _ => None end)
    ('(a, f, d) ← read 4096 8192 16384 3 (open demo_node 2048) (replicate 3000 0);
     '(b, f, d) ← read 4096 8192 16384 3 f d;
     '(c, f, d) ← read 4096 8192 16384 2994 f d;
     let '(_, f) := seek 2990 SEEK_SET f in
     '(e, f, d) ← read 4096 8192 16384 100 f d;
     Done (a, b, c, e, m_pos f)) = Some (3, 3, 952, 100, 3000).
Proof. vm_compute. reflexivity. Qed.

End INodeFile.
