(* ===== verification/Fs.v ===== *)
(** * Mounts, inodes and opening files

    [fs/fs.cpp], [fs/controlblock.cpp], [fs/file.cpp], [fs/devfile.cpp],
    [fs/inodedirectory.hpp] and the file system of devices, [fs/driver/devfs].
    What a file system provides is the record [ControlBlock]: its virtual methods
    [getINode], and [readDir] and [readBlocks] of its inodes, whose own data has
    the type [K]. *)
From S2P Require Import Prelude Errno Math Str Path Block InodeFile.
Local Open Scope Z_scope.
Import Str Path.

Module Fs.

(** [optional<T>]: an error code, [ENONE] for the empty one, or a value. *)
Abbreviation optional A := (error_t + A)%type.

Definition FT_UNKNOWN : Z := 0x00000000.
Definition FT_REGULAR : Z := 0x00010000.
Definition FT_DIRECTORY : Z := 0x00100000.
Definition FT_CHAR : Z := 0x00020000.
Definition FT_BLOCK : Z := 0x00060000.
Definition FT_NET : Z := 0x000A0000.

Definition is_directory (type : Z) : bool := Z.land type FT_DIRECTORY =? FT_DIRECTORY.
Definition is_block (type : Z) : bool := Z.land type FT_BLOCK =? FT_BLOCK.

Record dir_entry := mk_dir_entry { inode_id : Z; pos : Z; name : list Z; d_type : Z }.

(** [dir_entry()] and [dir_entry(name, pos, inode_id)], whose numbers are [int]s. *)
Definition no_entry : dir_entry := mk_dir_entry 0 0 (replicate (Z.to_nat MAX_FILENAME_LEN) 0) FT_UNKNOWN.
Definition new_dir_entry (n : list Z) (p id : Z) : outcome dir_entry :=
  buffer ← strncpy (name no_entry) n MAX_FILENAME_LEN;
  Done (mk_dir_entry (u64 (i32 id)) (i32 p) buffer FT_UNKNOWN).

Record INode (K : Type) := mk_inode { id : Z; type : Z; dev : Z; size : Z; kind : K }.
Arguments mk_inode {K}.
Arguments id {K}.
Arguments type {K}.
Arguments dev {K}.
Arguments size {K}.
Arguments kind {K}.

Definition set_id {K} (i : Z) (n : INode K) : INode K := mk_inode i (type n) (dev n) (size n) (kind n).

(** [readDir] takes and returns the position of the [dir_context]. *)
Record ControlBlock (K : Type) := mk_control_block {
  root_inode_id : Z;
  block_size : Z;
  getINode : option (INode K) → dir_entry → Z → outcome (optional (INode K));
  readDir : INode K → Z → outcome (optional dir_entry * Z);
  seekDir : INode K → Z → Z → error_t * Z;
  tellDir : INode K → Z → Z;
  readBlocks : INode K → Z → Z → Z → outcome (list Z);
}.
Arguments mk_control_block {K}.
Arguments root_inode_id {K}.
Arguments block_size {K}.
Arguments getINode {K}.
Arguments readDir {K}.
Arguments seekDir {K}.
Arguments tellDir {K}.
Arguments readBlocks {K}.

(** The methods [INode] itself has. *)
Definition INode_readDir {K} (_ : INode K) (ctx : Z) : outcome (optional dir_entry * Z) := Done (inl ENOSYS, ctx).
Definition INode_seekDir {K} (_ : INode K) (ctx p : Z) : error_t * Z := (ENOSYS, ctx).
Definition INode_tellDir {K} (_ : INode K) (ctx : Z) : Z := -1.
Definition INode_readBlocks {K} (_ : INode K) (base start count : Z) : outcome (list Z) := Done [].

(** ** [ControlBlock::findINode] *)

Section Find.
Context {K : Type} (cb : ControlBlock K).

(** The loop over the entries of a directory: the entry, [ENONE] when there is
    none.  The number of turns is bounded by [fuel]. *)
Fixpoint search (fuel : nat) (inode : INode K) (ctx : Z) (piece : list Z) : outcome (optional dir_entry) :=
  match fuel with
  | O => Panic "findINode does not return"
  | S fuel =>
      '(r, ctx) ← readDir cb inode ctx;
      match r with
      | inl e => Done (inl e)
      | inr d =>
          c ← strcmp (name d) piece;
          if negb (c =? 0) then search fuel inode ctx piece else Done (inr d)
      end
  end.

(** The loop over the pieces of the path. *)
Fixpoint find_loop (turns fuel : nat) (w : Walker) (inode : INode K) : outcome (optional (INode K)) :=
  match turns with
  | O => Panic "findINode does not return"
  | S turns =>
      '(piece, w) ← next w;
      match piece with
      | None => Done (inr inode)
      | Some piece =>
          r ← search fuel inode 0 piece;
          match r with
          | inl e => Done (inl (if decide (e = ENONE) then ENOENT else e))
          | inr d =>
              if negb (isFinal w) && negb (is_directory (d_type d)) then Done (inl ENOENT)
              else
                r ← getINode cb (Some inode) d (inode_id d);
                match r with
                | inl e => Done (inl e)
                | inr i => find_loop turns fuel w (set_id (inode_id d) i)
                end
          end
      end
  end.

(** Every piece has a character of the path, so that its length is enough. *)
Definition findINode (fuel : nat) (lpath : list Z) : outcome (optional (INode K)) :=
  r ← getINode cb None no_entry (root_inode_id cb);
  match r with
  | inl e => Done (inl e)
  | inr i => w ← walker lpath; find_loop (length lpath) fuel w (set_id (root_inode_id cb) i)
  end.

End Find.

(** ** Mounts *)

(** A control block of any file system. *)
Record any_control_block := pack { Kind : Type; control_block : ControlBlock Kind }.

Record Mount := mk_mount { mount_path : list Z; mount_cb : any_control_block }.

(** The loop of [find_mount] over [mounts], a [SmartArray] whose iterator skips
    empty slots: the last match and its length. *)
Fixpoint find_mount_loop (mounts : list (option Mount)) (path : list Z) (ret : option Mount) (max_len : Z)
  : outcome (option Mount * Z) :=
  match mounts with
  | [] => Done (ret, max_len)
  | None :: mounts => find_mount_loop mounts path ret max_len
  | Some m :: mounts =>
      n ← strlen (mount_path m);
      let mnt_len := n - 1 in
      p ← strlen path;
      s ← ends_with_slash path;
      let path_len := (p - (if (s : bool) then 1 else 0)) `max` 1 in
      if path_len <? mnt_len then find_mount_loop mounts path ret max_len
      else
        c ← memcmp (mount_path m) path (u64 mnt_len);
        if negb (c =? 0) then find_mount_loop mounts path ret max_len
        else if mnt_len <? max_len then find_mount_loop mounts path ret max_len
        else find_mount_loop mounts path (Some m) mnt_len
  end.

Definition find_mount (mounts : list (option Mount)) (path : list Z) : outcome (optional (Mount * list Z)) :=
  ok ← is_valid path;
  if negb ok then Done (inl EINVAL)
  else
    '(ret, max_len) ← find_mount_loop mounts path None 0;
    match ret with
    | Some m =>
        let new_path := drop (Z.to_nat max_len) path in
        c ← deref new_path;
        Done (inr (m, if c =? 0 then cstr [slash] else new_path))
    | None => Done (inl ENOENT)
    end.

(** A registered file system: its name and its [mount]. *)
Record Filesystem := mk_filesystem { fs_name : list Z; fs_mount : option (list Z) → outcome (optional any_control_block) }.

(** [SmartArray::addRef]: the first empty slot, or a new one. *)
Fixpoint addRef {A} (a : A) (l : list (option A)) : list (option A) :=
  match l with
  | [] => [Some a]
  | None :: l => Some a :: l
  | Some b :: l => Some b :: addRef a l
  end.

Fixpoint mount_loop (filesystems : list (option Filesystem)) (source : option (list Z)) (type_ : option (list Z))
  : outcome (option any_control_block) :=
  match filesystems with
  | [] => Done None
  | None :: filesystems => mount_loop filesystems source type_
  | Some fs :: filesystems =>
      c ← (match type_ with Some t => strcmp t (fs_name fs) | None => Done 0 end);
      if negb (c =? 0) then mount_loop filesystems source type_
      else
        res ← fs_mount fs source;
        match res with
        | inl _ => mount_loop filesystems source type_
        | inr cb => Done (Some cb)
        end
  end.

(** [FS::mount]: the error code and the new array of mounts. *)
Definition mount (filesystems : list (option Filesystem)) (source path type_ : option (list Z)) (mounts : list (option Mount))
  : outcome (error_t * list (option Mount)) :=
  match path with
  | None => Done (EINVAL, mounts)
  | Some p =>
      ok ← is_valid p;
      if negb ok then Done (EINVAL, mounts)
      else
        ok ← (match source with Some s => is_valid s | None => Done true end);
        if negb ok then Done (EINVAL, mounts)
        else
          res ← mount_loop filesystems source type_;
          match res with
          | None => Done (EINVAL, mounts)
          | Some cb =>
              buffer ← strncpy (replicate (Z.to_nat MAX_PATH_LEN) 0) p MAX_PATH_LEN;
              Done (ENONE, addRef (mk_mount buffer cb) mounts)
          end
  end.

(** ** Devices *)

Inductive dev_type_t := DEV_BLOCK | DEV_CHAR | DEV_NET.
Record Device := mk_device { dev_name : list Z; dev_type : dev_type_t }.

(** [SmartArray::get]. *)
Definition devices_get (devices : list (option Device)) (index : Z) : option Device :=
  if index <? 0 then None else mjoin (devices !! Z.to_nat index).

(** The inodes of the file system of devices: its directory, or a plain [INode]. *)
Inductive devfs_kind := DevFSRootINode | PlainINode.

Definition devfs_readDir (devices : list (option Device)) (inode : INode devfs_kind) (ctx : Z)
  : outcome (optional dir_entry * Z) :=
  match kind inode with
  | PlainINode => INode_readDir inode ctx
  | DevFSRootINode =>
      if i32 ctx <? Z.of_nat (length devices) then
        match devices_get devices (i32 ctx) with
        | None => Panic "DevFSRootINode::readDir does not return"
        | Some device =>
            let ctx := u64 (ctx + 1) in
            d ← new_dir_entry (dev_name device) (ctx - 1) (ctx + 1);
            Done (inr d, ctx)
        end
      else Done (inl ENONE, ctx)
  end.

Definition device_type (t : dev_type_t) : Z :=
  match t with DEV_BLOCK => FT_BLOCK | DEV_CHAR => FT_CHAR | DEV_NET => FT_NET end.

Definition devfs_getINode (devices : list (option Device)) (_ : option (INode devfs_kind)) (_ : dir_entry) (i : Z)
  : outcome (optional (INode devfs_kind)) :=
  if i =? 1 then Done (inr (mk_inode 0 FT_DIRECTORY (-1) 0 DevFSRootINode))
  else
    match devices_get devices (i32 (i - 2)) with
    | None => Done (inl ENOENT)
    | Some device =>
        Done (inr (mk_inode 0 (device_type (dev_type device)) (i32 (i - 2)) 0 PlainINode))
    end.

Definition devfs (devices : list (option Device)) : ControlBlock devfs_kind :=
  mk_control_block 1 0 (devfs_getINode devices) (devfs_readDir devices) INode_seekDir INode_tellDir INode_readBlocks.

(** [DevFS::mount]. *)
Definition devfs_mount (devices : list (option Device)) (source : option (list Z)) : outcome (optional any_control_block) :=
  match source with Some _ => Done (inl EINVAL) | None => Done (inr (pack _ (devfs devices))) end.

(** ** Files *)

(** [INodeDirectory]: an inode and its context. *)
Record INodeDirectory := mk_directory { dir_cb : any_control_block; m_inode : INode (Kind dir_cb); m_dir_ctx : Z }.

Inductive File :=
| ADirectory (d : INodeDirectory)
| AnINodeFile (f : INodeFile.file)
| ACharFile (device : Z).

Definition O_RD : Z := 1.

(** [INodeFile(inode)] for an inode of the control block. *)
Definition inode_file {K} (cb : ControlBlock K) (i : INode K) : INodeFile.file :=
  INodeFile.open (INodeFile.mk_inode (size i) (readBlocks cb i)) (block_size cb).

(** [File::open]; [open_char] is what the driver of a character device answers to
    [open_char_handle]. *)
Definition open (mounts : list (option Mount)) (devices : list (option Device)) (open_char : Z → Z → error_t)
    (fuel : nat) (path : list Z) (mode : Z) : outcome (optional File) :=
  mount_info ← find_mount mounts path;
  match mount_info with
  | inl e => Done (inl e)
  | inr (m, new_path) =>
      let cb := control_block (mount_cb m) in
      inode_try ← findINode cb fuel new_path;
      match inode_try with
      | inl e => Done (inl e)
      | inr inode =>
          if is_directory (type inode) then
            if negb (mode =? O_RD) then Done (inl EISDIR)
            else Done (inr (ADirectory (mk_directory (mount_cb m) inode 0)))
          else if negb (dev inode =? -1) then
            match devices_get devices (dev inode) with
            | None => Done (inl ENOENT)
            | Some device =>
                match dev_type device with
                | DEV_BLOCK => Done (inl EBOTHER)
                | DEV_CHAR =>
                    let e := open_char (dev inode) mode in
                    if decide (e = ENONE) then Done (inr (ACharFile (dev inode))) else Done (inl e)
                | DEV_NET => Done (inl ENOSYS)
                end
            end
          else Done (inr (AnINodeFile (inode_file cb inode)))
      end
  end.

(** [File::info]: the number, the type, the device and the size of the inode. *)
Definition info (mounts : list (option Mount)) (fuel : nat) (path : list Z) : outcome (optional (Z * Z * Z * Z)) :=
  mount_info ← find_mount mounts path;
  match mount_info with
  | inl e => Done (inl e)
  | inr (m, new_path) =>
      inode_try ← findINode (control_block (mount_cb m)) fuel new_path;
      match inode_try with
      | inl e => Done (inl e)
      | inr inode => Done (inr (id inode, type inode, dev inode, size inode))
      end
  end.

(** [INodeDirectory::readdir]. *)
Definition readdir (d : INodeDirectory) : outcome (optional dir_entry * INodeDirectory) :=
  '(r, ctx) ← readDir (control_block (dir_cb d)) (m_inode d) (m_dir_ctx d);
  Done (r, mk_directory (dir_cb d) (m_inode d) ctx).

(** [INodeDirectory::seekdir], [telldir] and [dup]. *)
Definition seekdir (d : INodeDirectory) (p : Z) : error_t * INodeDirectory :=
  let '(e, ctx) := seekDir (control_block (dir_cb d)) (m_inode d) (m_dir_ctx d) p in
  (e, mk_directory (dir_cb d) (m_inode d) ctx).
Definition telldir (d : INodeDirectory) : Z := tellDir (control_block (dir_cb d)) (m_inode d) (m_dir_ctx d).
Definition dup (d : INodeDirectory) : INodeDirectory := mk_directory (dir_cb d) (m_inode d) (m_dir_ctx d).

(** ** What a path names *)

Section Spec.
Context {K : Type} (cb : ControlBlock K).

Definition named (d : dir_entry) (n : list Z) : Prop := text n ∧ ∃ rest, name d = n ++ 0 :: rest.

(** The calls of [readDir] from the position [ctx] on return these entries, with
    these names, and then the empty optional. *)
Inductive lists (i : INode K) : Z → list (list Z * dir_entry) → Prop :=
| lists_end ctx ctx' : readDir cb i ctx = Done (inl ENONE, ctx') → lists i ctx []
| lists_next ctx ctx' n d l :
    readDir cb i ctx = Done (inr d, ctx') → named d n → lists i ctx' l → lists i ctx ((n, d) :: l).

(** The first entry of a name. *)
Fixpoint entry (l : list (list Z * dir_entry)) (p : list Z) : option dir_entry :=
  match l with
  | [] => None
  | (n, d) :: l => if decide (n = p) then Some d else entry l p
  end.

(** The walk from an inode along the pieces of a path: every piece but the last
    must name a directory. *)
Inductive resolves : INode K → list (list Z) → optional (INode K) → Prop :=
| resolves_end i : resolves i [] (inr i)
| resolves_missing i p ps l : lists i 0 l → entry l p = None → resolves i (p :: ps) (inl ENOENT)
| resolves_not_dir i p ps l d :
    lists i 0 l → entry l p = Some d → ps ≠ [] → is_directory (d_type d) = false → resolves i (p :: ps) (inl ENOENT)
| resolves_error i p ps l d e :
    lists i 0 l → entry l p = Some d → ps = [] ∨ is_directory (d_type d) = true →
    getINode cb (Some i) d (inode_id d) = Done (inl e) → resolves i (p :: ps) (inl e)
| resolves_step i p ps l d j r :
    lists i 0 l → entry l p = Some d → ps = [] ∨ is_directory (d_type d) = true →
    getINode cb (Some i) d (inode_id d) = Done (inr j) → resolves (set_id (inode_id d) j) ps r → resolves i (p :: ps) r.

Lemma search_lists fuel i ctx l p rest :
  lists i ctx l → text p → (length l < fuel)%nat →
  search cb fuel i ctx (p ++ 0 :: rest) = Done (match entry l p with Some d => inr d | None => inl ENONE end).
Proof.
  intros Hl Hp. revert fuel. induction Hl as [ctx ctx' He|ctx ctx' n d l He [Hn [r Hr]] Hl IH]; intros fuel Hf;
    (destruct fuel as [|fuel]; [simpl in Hf; lia|]); cbn [search]; rewrite He, bind_ret; [done|].
  rewrite Hr. destruct (strcmp_text n p r rest Hn Hp) as (z & -> & Hz). rewrite bind_ret. cbn [entry].
  destruct (Z.eqb_spec z 0) as [E|E]; cbn [negb].
  - by rewrite decide_True by (by apply Hz).
  - rewrite decide_False by (by intros ?%Hz). apply IH. simpl in Hf. lia.
Qed.

Lemma find_loop_resolves i ps r :
  resolves i ps r → ∃ N, ∀ fuel turns w suf, (N ≤ fuel)%nat → before w suf → pieces suf = ps →
    Forall (λ p, Z.of_nat (length p) < MAX_FILENAME_LEN) ps → (length suf < turns)%nat →
    m_level w + Z.of_nat (length ps) = m_levels w → find_loop cb turns fuel w i = Done r.
Proof.
  assert (Hstep : ∀ i p ps l turns fuel w suf, lists i 0 l → (length l < fuel)%nat → before w suf → pieces suf = p :: ps →
    Forall (λ p, Z.of_nat (length p) < MAX_FILENAME_LEN) (p :: ps) → (length suf < turns)%nat →
    m_level w + Z.of_nat (length (p :: ps)) = m_levels w →
    ∃ turns' w' suf', before w' suf' ∧ pieces suf' = ps ∧ (length suf' < turns')%nat ∧ m_level w' + Z.of_nat (length ps) = m_levels w' ∧
      find_loop cb turns fuel w i =
        match entry l p with
        | None => Done (inl ENOENT)
        | Some d =>
            if negb (bool_decide (ps = [])) && negb (is_directory (d_type d)) then Done (inl ENOENT)
            else r ← getINode cb (Some i) d (inode_id d);
                 match r with inl e => Done (inl e) | inr j => find_loop cb turns' fuel w' (set_id (inode_id d) j) end
        end).
  { intros i' p' ps' l turns fuel w suf Hl Hf Hb Hps Hall Ht Hlev. destruct turns as [|turns]; [lia|].
    pose proof (next_spec w suf Hb) as Hn. rewrite Hps in Hn. inversion Hall as [|? ? Hp _]; subst.
    destruct (Z.ltb_spec (Z.of_nat (length p')) MAX_FILENAME_LEN); [|lia].
    destruct Hn as (w' & rest & suf' & Hnext & Hb' & Hps' & Hpl & _ & Hl1 & Hl2 & Hlen).
    exists turns, w', suf'. cbn [length] in Hlev. split_and!; [done|done|lia|lia|]. cbn [find_loop]. rewrite Hnext, bind_ret.
    rewrite (search_lists _ _ _ _ _ _ Hl) by (done || by apply plain_text). rewrite bind_ret. destruct (entry l p') as [d|]; [|done].
    replace (isFinal w') with (bool_decide (ps' = [])); [done|]. unfold isFinal.
    destruct ps'; cbn [length] in *; [rewrite bool_decide_eq_true_2 by done; lia|rewrite bool_decide_eq_false_2 by done; lia]. }
  assert (Hdir : ∀ (ps : list (list Z)) d, ps = [] ∨ is_directory (d_type d) = true → negb (bool_decide (ps = [])) && negb (is_directory (d_type d)) = false).
  { intros ps' d [->|Hd]; [done|]. rewrite Hd. by destruct (bool_decide _). }
  induction 1 as [i|i p ps l Hl He|i p ps l d Hl He Hps Hd|i p ps l d e Hl He Hd Hg|i p ps l d j r Hl He Hd Hg _ [N IH]].
  - exists 0%nat. intros fuel turns w suf _ Hb Hps _ Ht _. destruct turns; [lia|]. pose proof (next_spec w suf Hb) as Hn. rewrite Hps in Hn.
    destruct Hn as (w' & Hn & _). cbn [find_loop]. by rewrite Hn.
  - exists (S (length l)). intros fuel turns w suf Hf Hb Hps Hall Ht Hlev.
    destruct (Hstep i p ps l turns fuel w suf) as (? & ? & ? & _ & _ & _ & _ & ->); [done|lia|done..|]. by rewrite He.
  - exists (S (length l)). intros fuel turns w suf Hf Hb Hps' Hall Ht Hlev.
    destruct (Hstep i p ps l turns fuel w suf) as (? & ? & ? & _ & _ & _ & _ & ->); [done|lia|done..|].
    by rewrite He, bool_decide_eq_false_2, Hd.
  - exists (S (length l)). intros fuel turns w suf Hf Hb Hps Hall Ht Hlev.
    destruct (Hstep i p ps l turns fuel w suf) as (? & ? & ? & _ & _ & _ & _ & ->); [done|lia|done..|]. by rewrite He, Hdir, Hg.
  - exists (N `max` S (length l))%nat. intros fuel turns w suf Hf Hb Hps Hall Ht Hlev.
    destruct (Hstep i p ps l turns fuel w suf) as (t' & w' & s' & Hb' & Hps' & Ht' & Hlev' & ->); [done|lia|done..|].
    rewrite He, Hdir, Hg, bind_ret by done. apply (IH fuel t' w' s'); try done; [lia|by inversion Hall].
Qed.

Lemma findINode_walks s root r :
  clean s → Forall (λ p, Z.of_nat (length p) < MAX_FILENAME_LEN) (pieces s) →
  getINode cb None no_entry (root_inode_id cb) = Done (inr root) →
  resolves (set_id (root_inode_id cb) root) (pieces s) r →
  ∃ N, ∀ fuel, (N ≤ fuel)%nat → findINode cb fuel (cstr s) = Done r.
Proof.
  intros Hs Hall Hroot [N HN]%find_loop_resolves. exists N. intros fuel Hf. unfold findINode. rewrite Hroot, bind_ret.
  destruct (walker_before s Hs) as (w & -> & Hb & Hl & Hls). rewrite bind_ret.
  apply (HN fuel _ w s); try done; [rewrite cstr_length; lia|lia].
Qed.

End Spec.

(** ** The file system of devices *)

(** The entry of the device at an index. *)
Definition device_entry (n : list Z) (k : Z) : dir_entry :=
  mk_dir_entry (k + 2) k (n ++ 0 :: drop (S (length n)) (name no_entry)) FT_UNKNOWN.

Definition device_named (d : Device) (n : list Z) : Prop :=
  text n ∧ Z.of_nat (length n) < MAX_FILENAME_LEN ∧ ∃ rest, dev_name d = n ++ 0 :: rest.

Lemma new_entry_ok n rest k i :
  text n → Z.of_nat (length n) < MAX_FILENAME_LEN → 0 ≤ k < 2 ^ 31 → 0 ≤ i < 2 ^ 31 →
  new_dir_entry (n ++ 0 :: rest) k i = Done (mk_dir_entry i k (n ++ 0 :: drop (S (length n)) (name no_entry)) FT_UNKNOWN).
Proof.
  intros Hn Hl Hk Hi. unfold new_dir_entry, MAX_FILENAME_LEN in *. rewrite strncpy_text by (done || lia || (cbn; lia)).
  rewrite bind_ret, !(swrap_small 32), wrap_small by lia. done.
Qed.

Lemma devices_at devices k : devices_get devices (Z.of_nat k) = mjoin (devices !! k).
Proof. unfold devices_get. destruct (Z.ltb_spec (Z.of_nat k) 0); [lia|]. by rewrite Nat2Z.id. Qed.

(** The directory of devices from an index on, when every slot holds a device. *)
Lemma devfs_lists devices names root k :
  Forall2 (λ d n, ∃ x, d = Some x ∧ device_named x n) devices names → Z.of_nat (length devices) + 2 < 2 ^ 31 → kind root = DevFSRootINode →
  (k ≤ length devices)%nat →
  lists (devfs devices) root (Z.of_nat k) (imap (λ j n, (n, device_entry n (Z.of_nat (k + j)))) (drop k names)).
Proof.
  intros Hd Hmax Hr. remember (length devices - k)%nat as m eqn:Em. revert k Em. induction m as [|m IH]; intros k Em Hk.
  - rewrite drop_ge by (rewrite <-(Forall2_length _ _ _ Hd); lia). apply lists_end with (Z.of_nat k). cbn. unfold devfs_readDir. rewrite Hr.
    rewrite swrap_small by lia. by destruct (Z.ltb_spec (Z.of_nat k) (Z.of_nat (length devices))); [lia|].
  - destruct (lookup_lt_is_Some_2 devices k ltac:(lia)) as [d Hk1]. destruct (Forall2_lookup_l _ _ _ _ _ Hd Hk1) as (n & Hk2 & x & -> & Hn & Hl & rest & Hx).
    rewrite (drop_S _ n) by done. rewrite imap_cons. eapply lists_next with (ctx' := Z.of_nat (S k)).
    + cbn. unfold devfs_readDir. rewrite Hr, swrap_small, devices_at by lia. destruct (Z.ltb_spec (Z.of_nat k) (Z.of_nat (length devices))); [|lia].
      rewrite Hk1. cbn [mjoin option_join]. rewrite wrap_small by lia. rewrite Hx, new_entry_ok by (done || lia). rewrite bind_ret.
      unfold device_entry. by replace (Z.of_nat k + 1 + 1) with (Z.of_nat (k + 0) + 2) by lia; replace (Z.of_nat k + 1 - 1) with (Z.of_nat (k + 0)) by lia; replace (Z.of_nat k + 1) with (Z.of_nat (S k)) by lia.
    + split; [done|]. by eexists.
    + specialize (IH (S k) ltac:(lia) ltac:(lia)). erewrite imap_ext; [exact IH|]. intros j n' _. cbn. do 2 f_equal. lia.
Qed.

(** An empty slot before the name stops the kernel: the loop of [readDir] steps
    over it without moving on. *)
Lemma devfs_empty_slot_hangs devices root k :
  devices !! k = Some None → Z.of_nat (length devices) < 2 ^ 31 → kind root = DevFSRootINode →
  devfs_readDir devices root (Z.of_nat k) = Panic "DevFSRootINode::readDir does not return".
Proof.
  intros Hk Hmax Hr. unfold devfs_readDir. pose proof (lookup_lt_Some _ _ _ Hk). rewrite Hr, swrap_small, devices_at, Hk by lia.
  by destruct (Z.ltb_spec (Z.of_nat k) (Z.of_nat (length devices))); [|lia].
Qed.

Lemma entry_imap names p k m :
  names !! k = Some p → (∀ j, (j < k)%nat → names !! j ≠ Some p) →
  entry (imap (λ j n, (n, device_entry n (Z.of_nat (m + j)))) names) p = Some (device_entry p (Z.of_nat (m + k))).
Proof.
  revert k m. induction names as [|n names IH]; intros k m Hk Hfirst; [done|]. rewrite imap_cons. cbn [entry]. destruct k as [|k].
  - injection Hk as ->. by rewrite decide_True.
  - rewrite decide_False by (intros ->; by apply (Hfirst 0%nat); [lia|]).
    erewrite imap_ext; [rewrite (IH k (S m)); [do 3 f_equal; lia|done|]|].
    + intros j Hj. apply (Hfirst (S j)). lia.
    + intros j n' _. cbn. do 3 f_equal. lia.
Qed.

(** In the file system of devices, a name leads to the first
    device that bears it, with the type of the device, and to [ENOENT] when no
    device bears it; the search returns. *)
Lemma devfs_finds_device devices names s p :
  Forall2 (λ d n, ∃ x, d = Some x ∧ device_named x n) devices names → Z.of_nat (length devices) + 2 < 2 ^ 31 →
  clean s → pieces s = [p] → Z.of_nat (length p) < MAX_FILENAME_LEN →
  ∃ N, ∀ fuel, (N ≤ fuel)%nat →
    (p ∉ names → findINode (devfs devices) fuel (cstr s) = Done (inl ENOENT)) ∧
    (∀ k x, names !! k = Some p → (∀ j, (j < k)%nat → names !! j ≠ Some p) → devices !! k = Some (Some x) →
       findINode (devfs devices) fuel (cstr s) = Done (inr (mk_inode (Z.of_nat k + 2) (device_type (dev_type x)) (Z.of_nat k) 0 PlainINode))).
Proof.
  intros Hd Hmax Hs Hps Hp. set (root := mk_inode 1 FT_DIRECTORY (-1) 0 DevFSRootINode).
  pose proof (devfs_lists devices names root 0 Hd Hmax eq_refl ltac:(lia)) as Hl. rewrite drop_0 in Hl.
  assert (Hall : Forall (λ p, Z.of_nat (length p) < MAX_FILENAME_LEN) (pieces s)) by (rewrite Hps; by constructor).
  assert (Hwalk : ∀ r, resolves (devfs devices) root [p] r → ∃ N, ∀ fuel, (N ≤ fuel)%nat → findINode (devfs devices) fuel (cstr s) = Done r).
  { intros r Hr. eapply findINode_walks; [done|done|reflexivity|]. by rewrite Hps. }
  destruct (decide (p ∈ names)) as [Hin|Hout].
  - assert (∃ k, names !! k = Some p ∧ ∀ j, (j < k)%nat → names !! j ≠ Some p) as (k & Hk & Hfirst).
    { clear -Hin. induction names as [|n names IH]; [by apply not_elem_of_nil in Hin|]. destruct (decide (n = p)) as [->|Hne].
      - exists 0%nat. split; [done|]. intros. lia.
      - apply elem_of_cons in Hin as [?|Hin]; [congruence|]. destruct (IH Hin) as (k & Hk & Hf). exists (S k). split; [done|].
        intros [|j] Hj; [cbn; congruence|]. apply Hf. lia. }
    destruct (Forall2_lookup_r _ _ _ _ _ Hd Hk) as (d & Hdk & x & -> & _). pose proof (lookup_lt_Some _ _ _ Hdk).
    destruct (Hwalk (inr (mk_inode (Z.of_nat k + 2) (device_type (dev_type x)) (Z.of_nat k) 0 PlainINode))) as [N HN].
    { eapply resolves_step with (j := mk_inode 0 (device_type (dev_type x)) (Z.of_nat k) 0 PlainINode); [exact Hl|by apply entry_imap|by left| |apply resolves_end]. cbn. unfold devfs_getINode.
      destruct (Z.eqb_spec (Z.of_nat k + 2) 1); [lia|]. rewrite swrap_small by lia. replace (Z.of_nat k + 2 - 2) with (Z.of_nat k) by lia.
      by rewrite devices_at, Hdk. }
    exists N. intros fuel Hf. split; [done|]. intros k' x' Hk' Hf' Hd'. replace k' with k in *; [replace x' with x by congruence; by apply HN|].
    destruct (Nat.lt_trichotomy k k') as [?|[?|?]]; [by destruct (Hf' k)|done|by destruct (Hfirst k')].
  - destruct (Hwalk (inl ENOENT)) as [N HN].
    { eapply resolves_missing; [exact Hl|]. generalize 0%nat. clear -Hout.
      induction names as [|n names IH]; intros m; [done|]. rewrite imap_cons. cbn [entry]. apply not_elem_of_cons in Hout as [Hne Hout].
      rewrite decide_False by congruence. erewrite imap_ext; [exact (IH Hout (S m))|]. intros j n' _. cbn. do 3 f_equal. lia. }
    exists N. intros fuel Hf. split; [by intros _; apply HN|]. intros k x Hk. destruct Hout. by eapply list_elem_of_lookup_2.
Qed.

(** ** The mount of a path *)

Lemma memcmp_loop_spec n i a b :
  0 ≤ i → i + Z.of_nat n ≤ Z.of_nat (length a) → i + Z.of_nat n ≤ Z.of_nat (length b) →
  ∃ z, memcmp_loop n i a b = Done z ∧ (z = 0 ↔ take n (drop (Z.to_nat i) a) = take n (drop (Z.to_nat i) b)).
Proof.
  revert i. induction n as [|n IH]; intros i Hi Ha Hb; [by exists 0|]. cbn [memcmp_loop].
  destruct (lookup_lt_is_Some_2 a (Z.to_nat i) ltac:(lia)) as [x Hx]. destruct (lookup_lt_is_Some_2 b (Z.to_nat i) ltac:(lia)) as [y Hy].
  rewrite (proj2 (rd_Done a i x)), bind_ret, (proj2 (rd_Done b i y)), bind_ret by (split; [lia|done]).
  rewrite (drop_S a x), (drop_S b y) by done. cbn [take].
  destruct (Z.ltb_spec x y); [exists (-1); split; [done|split; [done|intros [=]; lia]]|].
  rewrite Z.gtb_ltb. destruct (Z.ltb_spec y x); [exists 1; split; [done|split; [done|intros [=]; lia]]|].
  destruct (IH (i + 1)) as (z & -> & Hz); [lia..|]. exists z. split; [done|]. rewrite Hz.
  replace (Z.to_nat (i + 1)) with (S (Z.to_nat i)) by lia. replace y with x by lia. split; [by intros ->|by intros [= ->]].
Qed.

(** [m] is mounted at [dir], its path being written with a slash behind it, as in
    ["/dev/"] and ["/"]. *)
Definition mounted_at (m : Mount) (dir : list Z) : Prop :=
  text dir ∧ last dir ≠ Some slash ∧ Z.of_nat (length dir) < 2 ^ 31 ∧ ∃ rest, mount_path m = (dir ++ [slash]) ++ 0 :: rest.

Lemma ends_with_slash_spec s : text s → s ≠ [] → ends_with_slash (cstr s) = Done (bool_decide (last s = Some slash)).
Proof.
  intros Hs Hne. unfold ends_with_slash, cstr. rewrite strlen_text by done. rewrite bind_ret.
  destruct s as [|c s _] using rev_ind; [done|]. rewrite last_snoc, length_app. cbn [length].
  rewrite (proj2 (rd_Done _ _ c)), bind_ret.
  - f_equal. apply eq_bool_prop_intro. rewrite bool_decide_spec, Is_true_true, Z.eqb_eq. split; [by intros ->|by intros [=]].
  - split; [lia|]. rewrite <-app_assoc. by rewrite lookup_app_r, (proj2 (Nat.sub_0_le _ _)) by lia || (rewrite list_lookup_middle by lia; done).
Qed.

(** Whether a mount matches a path. *)
Lemma mount_turn m dir s mounts ret max_len :
  mounted_at m dir → clean s → s ≠ [] →
  find_mount_loop (Some m :: mounts) (cstr s) ret max_len =
    if bool_decide (dir `prefix_of` s) && negb (Z.of_nat (length dir) <? max_len)
    then find_mount_loop mounts (cstr s) (Some m) (Z.of_nat (length dir))
    else find_mount_loop mounts (cstr s) ret max_len.
Proof.
  intros (Hd & Hlast & Hmax & rest & Hm) Hs Hne. cbn [find_mount_loop].
  assert (Ht : text (dir ++ [slash])) by (apply Forall_app; split; [done|constructor; [unfold slash; lia|done]]).
  rewrite Hm, strlen_text, bind_ret by done. change (strlen (cstr s)) with (strlen (s ++ 0 :: [])).
  rewrite strlen_text, bind_ret, ends_with_slash_spec, bind_ret by done.
  rewrite length_app. cbn [length]. replace (Z.of_nat (length dir + 1) - 1) with (Z.of_nat (length dir)) by lia.
  assert (Hs0 : (0 < length s)%nat) by (destruct s; [done|simpl; lia]).
  set (path_len := (_ - (if bool_decide _ then 1 else 0)) `max` 1).
  assert (Hpl : dir `prefix_of` s → Z.of_nat (length dir) ≤ path_len).
  { intros [r ->]. unfold path_len. rewrite length_app. case_bool_decide as E; [|lia]. destruct r as [|c r]; [by rewrite app_nil_r in E|]. simpl. lia. }
  destruct (Z.ltb_spec path_len (Z.of_nat (length dir))) as [Hlt|Hge].
  { rewrite bool_decide_eq_false_2; [done|]. intros ?%Hpl. lia. }
  assert (path_len ≤ Z.of_nat (length s)) by (unfold path_len; case_bool_decide; lia).
  rewrite wrap_small by lia. unfold memcmp. rewrite Nat2Z.id.
  destruct (memcmp_loop_spec (length dir) 0 ((dir ++ [slash]) ++ 0 :: rest) (cstr s)) as (z & -> & Hz); [lia|rewrite !length_app; lia|rewrite cstr_length; lia|].
  rewrite bind_ret. change (Z.to_nat 0) with 0%nat in Hz. unfold cstr in Hz. rewrite !drop_0, <-app_assoc, take_app_length, (take_app_le s) in Hz by lia.
  destruct (Z.eqb_spec z 0) as [E|E]; cbn [negb].
  - apply Hz in E. rewrite bool_decide_eq_true_2 by (rewrite E; apply prefix_take). cbn [andb]. by destruct (_ <? _).
  - rewrite bool_decide_eq_false_2; [done|]. intros [r ->]. apply E, Hz. by rewrite take_app_length.
Qed.

(** The best match so far: a mount of [seen] at the longest prefix of the path. *)
Definition best_mount (s : list Z) (seen : list (option Mount)) (ret : option Mount) (max_len : Z) : Prop :=
  (∀ m dir, Some m ∈ seen → mounted_at m dir → dir `prefix_of` s → is_Some ret ∧ Z.of_nat (length dir) ≤ max_len) ∧
  match ret with
  | None => max_len = 0
  | Some m => Some m ∈ seen ∧ ∃ dir, mounted_at m dir ∧ dir `prefix_of` s ∧ max_len = Z.of_nat (length dir)
  end.

Lemma mounted_at_inj m dir dir' : mounted_at m dir → mounted_at m dir' → dir = dir'.
Proof.
  intros (Hd & _ & _ & r & Hr) (Hd' & _ & _ & r' & Hr'). rewrite Hr in Hr'. rewrite <-!app_assoc in Hr'. simpl in Hr'.
  assert (Ht : text (dir ++ [slash])) by (apply Forall_app; split; [done|constructor; [unfold slash; lia|done]]).
  assert (Ht' : text (dir' ++ [slash])) by (apply Forall_app; split; [done|constructor; [unfold slash; lia|done]]).
  pose proof (text_of_text (dir ++ [slash]) r Ht) as H1. pose proof (text_of_text (dir' ++ [slash]) r' Ht') as H2.
  rewrite <-app_assoc in H1, H2. simpl in H1, H2. rewrite Hr', H2 in H1. injection H1 as H1. by apply app_inj_2 in H1 as [-> _].
Qed.

Lemma find_mount_loop_spec s mounts seen ret max_len :
  (∀ m, Some m ∈ mounts → ∃ dir, mounted_at m dir) → clean s → s ≠ [] → best_mount s seen ret max_len →
  ∃ ret' max_len', find_mount_loop mounts (cstr s) ret max_len = Done (ret', max_len') ∧ best_mount s (seen ++ mounts) ret' max_len'.
Proof.
  intros Hm Hs Hne. revert seen ret max_len. induction mounts as [|[m|] mounts IH]; intros seen ret max_len [Hall Hret].
  - exists ret, max_len. rewrite app_nil_r. done.
  - destruct (Hm m) as [dir Hd]; [apply elem_of_cons; by left|]. rewrite (mount_turn m dir) by done.
    replace (seen ++ Some m :: mounts) with ((seen ++ [Some m]) ++ mounts) by (by rewrite <-app_assoc).
    assert (Hm' : ∀ m, Some m ∈ mounts → ∃ dir, mounted_at m dir) by (intros m' ?; apply Hm, elem_of_cons; by right).
    case_bool_decide as Hp; [destruct (Z.ltb_spec (Z.of_nat (length dir)) max_len) as [Hlt|Hge]|]; cbn [andb negb]; apply (IH Hm').
    + split; [|destruct ret; [|done]; destruct Hret as (Hin & dir' & Hx); split; [set_solver|by exists dir']].
      intros m' dir' [Hin|Heq]%elem_of_app Hd' Hp'; [by eapply Hall|]. apply list_elem_of_singleton in Heq as [= ->].
      pose proof (mounted_at_inj _ _ _ Hd Hd') as ->. split; [|lia]. destruct ret; [done|lia].
    + split; [|split; [set_solver|by exists dir]]. intros m' dir' [Hin|Heq]%elem_of_app Hd' Hp'.
      * split; [done|]. destruct (Hall _ _ Hin Hd' Hp'). lia.
      * apply list_elem_of_singleton in Heq as [= ->]. pose proof (mounted_at_inj _ _ _ Hd Hd') as ->. split; [done|lia].
    + split; [|destruct ret; [|done]; destruct Hret as (Hin & dir' & Hx); split; [set_solver|by exists dir']].
      intros m' dir' [Hin|Heq]%elem_of_app Hd' Hp'; [by eapply Hall|]. apply list_elem_of_singleton in Heq as [= ->].
      by pose proof (mounted_at_inj _ _ _ Hd Hd') as ->.
  - cbn [find_mount_loop]. replace (seen ++ None :: mounts) with ((seen ++ [None]) ++ mounts) by (by rewrite <-app_assoc).
    apply IH; [intros m' ?; apply Hm, elem_of_cons; by right|]. split.
    + intros m' dir' [Hin|Heq]%elem_of_app Hd' Hp'; [by eapply Hall|]. by apply list_elem_of_singleton in Heq.
    + destruct ret; [|done]. destruct Hret as (Hin & Hx). split; [set_solver|done].
Qed.

(** When all mount points are written with a slash behind them,
    [find_mount] of a valid path takes a mount whose directory is the longest
    prefix of the path among the mounts, and the rest of the path, ["/"] when
    nothing is left; it fails with [ENOENT] exactly when no mount is a prefix.  A
    prefix is one of characters, not of pieces. *)
Lemma find_mount_longest mounts s :
  (∀ m, Some m ∈ mounts → ∃ dir, mounted_at m dir) → clean s → is_valid (cstr s) = Done true →
  (∃ m dir s', Some m ∈ mounts ∧ mounted_at m dir ∧ s = dir ++ s' ∧
     find_mount mounts (cstr s) = Done (inr (m, cstr (if decide (s' = []) then [slash] else s'))) ∧
     ∀ m2 dir2, Some m2 ∈ mounts → mounted_at m2 dir2 → dir2 `prefix_of` s → Z.of_nat (length dir2) ≤ Z.of_nat (length dir)) ∨
  (find_mount mounts (cstr s) = Done (inl ENOENT) ∧ ∀ m dir, Some m ∈ mounts → mounted_at m dir → ¬ dir `prefix_of` s).
Proof.
  intros Hm Hs Hv. assert (Hne : s ≠ []) by (by intros ->).
  unfold find_mount. rewrite Hv, bind_ret. cbn [negb].
  destruct (find_mount_loop_spec s mounts [] None 0 Hm Hs Hne) as (ret & max_len & -> & Hall & Hret).
  { split; [|done]. intros m dir Hin. by apply not_elem_of_nil in Hin. }
  rewrite bind_ret. rewrite app_nil_l in *. destruct ret as [m|]; [left|right].
  - destruct Hret as (Hin & dir & Hd & [s' Hs'] & ->). exists m, dir, s'. rewrite Nat2Z.id.
    replace (drop (length dir) (cstr s)) with (cstr s') by (rewrite Hs'; unfold cstr; by rewrite <-app_assoc, drop_app_length).
    assert (Hc : deref (cstr s') = Done (match s' with c :: _ => c | [] => 0 end)) by (by destruct s').
    rewrite Hc, bind_ret. split_and!; [done|done|done| |by intros m2 dir2 Hi2 Hd2 Hp2; destruct (Hall m2 dir2 Hi2 Hd2 Hp2)].
    do 3 f_equal. destruct s' as [|c s']; [done|]. rewrite decide_False by done.
    destruct (Z.eqb_spec c 0) as [->|]; [|done]. rewrite Hs' in Hs. apply Forall_app in Hs as [_ Hs]. inversion Hs; lia.
  - split; [done|]. intros m dir Hin Hd Hp. by destruct (Hall m dir Hin Hd Hp) as [[? ?] _].
Qed.

(** ** Examples *)

Definition demo_devices : list (option Device) :=
  [Some (mk_device (cstr (lit "sra")) DEV_BLOCK); Some (mk_device (cstr (lit "tty0")) DEV_CHAR)].
Definition demo_mount (p : string) : Mount := mk_mount (cstr (lit p)) (pack _ (devfs demo_devices)).
Definition demo_mounts : list (option Mount) := [Some (demo_mount "/dev/"); Some (demo_mount "/")].

Lemma demo_mounted : ∀ m, Some m ∈ demo_mounts → ∃ dir, mounted_at m dir.
Proof.
  assert (H : ∀ dir, text (lit dir) → last (lit dir) ≠ Some slash → Z.of_nat (length (lit dir)) < 2 ^ 31 → lit (dir +:+ "/") = lit dir ++ [slash] →
    mounted_at (demo_mount (dir +:+ "/")) (lit dir)).
  { intros dir H1 H2 H3 H4. split_and!; [done..|]. exists []. cbn [mount_path demo_mount]. rewrite H4. done. }
  intros m [[= ->]|[[= ->]|[]%not_elem_of_nil]%elem_of_cons]%elem_of_cons.
  - exists (lit "/dev"). apply (H "/dev"); [|by vm_compute..|done]. repeat constructor; done.
  - exists (lit ""). apply (H ""); [|by vm_compute..|done]. constructor.
Qed.

Lemma find_mount_longest_witness : ∃ m new, find_mount demo_mounts (cstr (lit "/etc")) = Done (inr (m, new)).
Proof.
  destruct (find_mount_longest demo_mounts (lit "/etc") demo_mounted) as [(m & dir & s' & _ & _ & _ & -> & _)|[_ Hno]].
  - repeat constructor; done.
  - reflexivity.
  - by eexists _, _.
  - destruct (Hno (demo_mount "/") []); [right; left|split_and!; [constructor|done|done|by exists []]|apply prefix_nil].
Defined.

(** A path of the root file system that only starts with the characters of
    another mount point is looked up there. *)
Example mount_prefix_not_piece :
  match find_mount demo_mounts (cstr (lit "/devices/net")) with
  | Done (inr (m, new)) => Some (mount_path m, new)
  | _ => None
  end = Some (cstr (lit "/dev/"), cstr (lit "ices/net")).
Proof. vm_compute. reflexivity. Qed.

Definition demo_names : list (list Z) := [lit "sra"; lit "tty0"].

Lemma devfs_finds_device_witness :
  ∃ N, findINode (devfs demo_devices) N (cstr (lit "/tty0")) = Done (inr (mk_inode 3 FT_CHAR 1 0 PlainINode)).
Proof.
  destruct (devfs_finds_device demo_devices demo_names (lit "/tty0") (lit "tty0")) as [N HN].
  - repeat constructor; eexists; (split; [reflexivity|]); (split; [repeat constructor; done|]); (split; [reflexivity|]); by exists [].
  - reflexivity.
  - repeat constructor; done.
  - reflexivity.
  - reflexivity.
  - exists N. destruct (HN N ltac:(done)) as [_ H]. apply (H 1%nat (mk_device (cstr (lit "tty0")) DEV_CHAR)); [done| |done].
    intros [|j] Hj; [done|lia].
Defined.

End Fs.
