(* ===== verification/Iso.v ===== *)
(** * The ISO 9660 file system

    [mod/init/iso9660]: volume descriptors, directory records with the names of
    the System Use area, inodes and their blocks, on a block handle.  The
    addresses of the buffers on the stack are parameters, since [BlockHandle::read]
    depends on their parity. *)
From S2P Require Import Prelude Errno Math Str Path Block InodeFile Fs.
Local Open Scope Z_scope.
Import Str Path Fs.
Import BlockHandle (BlockDevice, sectorSize, mk_handle, mk_transfer, dest, serves, slice, slice_length, slice_app, slice_get, isAligned).

Module Iso9660.

Definition BLOCK_SIZE : Z := 2048.
Definition ISO_START : Z := BLOCK_SIZE * 0x10.
Definition PRIMARY_VOLUME_DESCRIPTOR : Z := 1.
Definition TERMINATOR : Z := 255.

(** The fields of [iso9660_dentry] the code reads; the name follows the 33 bytes. *)
Definition dentry_size : Z := 33.
Record iso9660_dentry := mk_dentry { len : Z; data_lba : Z; data_len : Z; flags : Z; name_len : Z }.

Definition read_dentry (bs : list Z) : outcome iso9660_dentry :=
  l ← bs.[0]; lba ← get bs 2 4; dlen ← get bs 10 4; fl ← bs.[25]; nl ← bs.[32];
  Done (mk_dentry l (le_value lba) (le_value dlen) fl nl).

Definition isDirectory (d : iso9660_dentry) : bool := Z.land (flags d) 2 >? 0.

(** [ISO9600DirectoryINode] and [ISO9600FileINode] hold their dentry. *)
Inductive iso_kind := IsoDirectory (d : iso9660_dentry) | IsoFile (d : iso9660_dentry).

Definition dir_inode (d : iso9660_dentry) : INode iso_kind := mk_inode 0 FT_DIRECTORY (-1) (data_len d) (IsoDirectory d).
Definition file_inode (d : iso9660_dentry) : INode iso_kind := mk_inode 0 FT_REGULAR (-1) (data_len d) (IsoFile d).

Section Volume.
Context (handle : BlockHandle.BlockHandle).

(** [block_handle.read] into [n] bytes at [addr]. *)
Definition disk_read (addr start n : Z) : outcome (list Z) :=
  '(_, s) ← BlockHandle.read handle addr start n (mk_transfer (replicate (Z.to_nat n) 0) 0 []);
  Done (dest s).

(** ** Directories *)

Definition clean_name (buffer : list Z) : list Z := (λ c, if c =? 59 then 0 else c) <$> buffer.

(** The entries of the System Use area from [lpos] on.  A turn moves on by a byte
    or more, unless the length of the entry is zero. *)
Fixpoint susp_loop (fuel : nat) (buffer name_buffer : list Z) (lpos max_len : Z) : outcome (list Z) :=
  match fuel with
  | O => Panic "readDir does not return"
  | S fuel =>
      if lpos <? max_len then
        c ← buffer.[lpos];
        if (c <? 65) || (c >? 90) then Done name_buffer
        else
          l ← buffer.[lpos + 2];
          sig ← get buffer lpos 2;
          if decide (sig = [67; 69]) then Panic "iso9660: CE encountered"
          else if decide (sig = [78; 77]) then
            name_buffer ← strncpy name_buffer (drop (Z.to_nat (lpos + 5)) buffer) (u64 ((l - 5 + 1) `min` 255));
            susp_loop fuel buffer name_buffer (lpos + l) max_len
          else susp_loop fuel buffer name_buffer (lpos + l) max_len
      else Done name_buffer
  end.

(** The name of the record in [buffer]; [junk] is what the stack holds. *)
Definition record_name (junk buffer : list Z) (nl : Z) : outcome (list Z) :=
  name_buffer ← junk.[MAX_FILENAME_LEN - 1 := 0];
  bs ← get buffer dentry_size ((MAX_FILENAME_LEN - 1) `min` nl);
  name_buffer ← put name_buffer 0 bs;
  name_buffer ← name_buffer.[nl := 0];
  let lpos := dentry_size + nl in
  let lpos := lpos + lpos mod 2 in
  susp_loop 256 buffer (clean_name name_buffer) lpos (255 - lpos).

Context (junk : list Z) (buffer_addr dentry_addr : Z).

(** A turn of the loop of [readDir]: the position, or the result. *)
Definition dir_turn (d : iso9660_dentry) (size ctx : Z) : outcome (Z + optional dir_entry * Z) :=
  if ctx <? size then
    buffer ← disk_read buffer_addr (u64 (u32 (data_lba d * BLOCK_SIZE) + ctx)) 256;
    ld ← read_dentry buffer;
    if len ld =? 0 then
      let ctx := int_floor 64 (u64 (ctx + BLOCK_SIZE)) BLOCK_SIZE in
      if ctx >=? size then Done (inr (inl ENONE, ctx)) else Done (inl ctx)
    else
      let ctx := u64 (ctx + len ld) in
      c0 ← buffer.[dentry_size];
      if (name_len ld =? 1) && ((c0 =? 0) || (c0 =? 1)) then Done (inl ctx)
      else
        name_buffer ← record_name junk buffer (name_len ld);
        e ← new_dir_entry name_buffer (ctx - len ld) (data_lba ld);
        Done (inr (inr (mk_dir_entry (inode_id e) (pos e) (name e) (if isDirectory ld then FT_DIRECTORY else FT_REGULAR)), ctx))
  else Done (inr (inl ENONE, ctx)).

(** Every turn moves on by a byte or more of the 32-bit size. *)
Definition dir_fuel : positive := 4294967297.

Definition iso_readDir (inode : INode iso_kind) (ctx : Z) : outcome (optional dir_entry * Z) :=
  match kind inode with
  | IsoFile _ => INode_readDir inode ctx
  | IsoDirectory d =>
      '(r, _) ← siter dir_fuel (λ ctx, lift (dir_turn d (size inode) ctx)) ctx tt;
      match r with inl _ => Panic "readDir does not return" | inr r => Done r end
  end.

(** [seekDir] compares the old position. *)
Definition iso_seekDir (inode : INode iso_kind) (ctx p : Z) : error_t * Z :=
  match kind inode with
  | IsoFile _ => INode_seekDir inode ctx p
  | IsoDirectory _ => if ctx >=? size inode then (ERANGE, ctx) else (ENONE, u64 p)
  end.
Definition iso_tellDir (inode : INode iso_kind) (ctx : Z) : Z :=
  match kind inode with IsoFile _ => INode_tellDir inode ctx | IsoDirectory _ => i64 ctx end.

(** ** Inodes *)

Definition iso_getINode (root : iso9660_dentry) (dir : option (INode iso_kind)) (e : dir_entry) (i : Z) : outcome (optional (INode iso_kind)) :=
  if i =? data_lba root then Done (inr (dir_inode root))
  else
    match dir with
    | Some (mk_inode _ _ _ _ (IsoDirectory d)) =>
        bs ← disk_read dentry_addr (u32 (u32 (data_lba d * BLOCK_SIZE) + pos e)) dentry_size;
        d ← read_dentry bs;
        Done (inr (if is_directory (d_type e) then dir_inode d else file_inode d))
    | _ => Fault
    end.

(** [readBlocks] of a file; that of a directory is the default. *)
Definition iso_readBlocks (inode : INode iso_kind) (base block count : Z) : outcome (list Z) :=
  match kind inode with
  | IsoFile d => disk_read base (u64 (u32 (data_lba d * BLOCK_SIZE) + u64 (block * BLOCK_SIZE))) (u32 (count * BLOCK_SIZE))
  | IsoDirectory _ => INode_readBlocks inode base block count
  end.

Definition iso9660 (root : iso9660_dentry) : ControlBlock iso_kind :=
  mk_control_block (data_lba root) BLOCK_SIZE (iso_getINode root) iso_readDir iso_seekDir iso_tellDir iso_readBlocks.

(** ** Mounting *)

(** The loop over the volume descriptors; [root_dentry] is uninitialised at first. *)
Fixpoint descriptors (turns : nat) (i : Z) (root_dentry : iso9660_dentry) : outcome (optional iso9660_dentry) :=
  match turns with
  | O => Done (inl EINVAL)
  | S turns =>
      buffer ← disk_read buffer_addr (ISO_START + BLOCK_SIZE * i) BLOCK_SIZE;
      c ← get buffer 1 5;
      if decide (c = lit "CD001") then
        t ← buffer.[0];
        if t =? TERMINATOR then Done (inr root_dentry)
        else if t =? PRIMARY_VOLUME_DESCRIPTOR then
          bs ← get buffer 156 34;
          root_dentry ← read_dentry bs;
          descriptors turns (i + 1) root_dentry
        else descriptors turns (i + 1) root_dentry
      else Done (inl EINVAL)
  end.

Definition mount_volume (root_junk : iso9660_dentry) : outcome (optional any_control_block) :=
  r ← descriptors 64 0 root_junk;
  match r with
  | inl e => Done (inl e)
  | inr root => Done (inr (pack _ (iso9660 root)))
  end.

End Volume.

(** [ISO9660::mount]; [open_handle] is what [open_block_handle] answers for a
    device. *)
Definition iso_mount (mounts : list (option Mount)) (fuel : nat) (open_handle : Z → option BlockHandle.BlockHandle)
    (junk : list Z) (buffer_addr dentry_addr : Z) (root_junk : iso9660_dentry) (source : option (list Z))
  : outcome (optional any_control_block) :=
  match source with
  | None => Done (inl EINVAL)
  | Some source =>
      info_try ← info mounts fuel source;
      match info_try with
      | inl e => Done (inl e)
      | inr (_, t, dev, _) =>
          if negb (is_block t) then Done (inl ENOTBLK)
          else match open_handle dev with
               | None => Done (inl ENOENT)
               | Some handle => mount_volume handle junk buffer_addr dentry_addr root_junk
               end
      end
  end.

(** ** Reading the disk *)

Lemma slice_rd (disk : Z → Z) off n i : 0 ≤ i < n → (slice disk off n).[i] = Done (disk (off + i)).
Proof.
  intros Hi. rewrite (proj2 (rd_Done _ _ (disk (off + i)))); [done|]. split; [lia|]. unfold slice. rewrite list_lookup_fmap, lookup_seqZ_lt by lia.
  cbn. do 2 f_equal. lia.
Qed.

Section Disk.
Context (disk : Z → Z) (dev : BlockDevice) (junk : list Z) (buffer_addr dentry_addr : Z).
Hypothesis Hbytes : ∀ i, 0 ≤ disk i < 256.
Hypothesis Hserves : serves disk dev.
Hypothesis Hsector : ∃ k, 1 ≤ k ≤ 11 ∧ sectorSize dev = 2 ^ k.
Hypothesis Hbuffer : isAligned buffer_addr = true.
Hypothesis Hdentry : isAligned dentry_addr = true.
Hypothesis Hjunk : length junk = 256%nat.
Abbreviation handle := (mk_handle (Some dev) true).

Lemma has_read_all start n s : BlockHandle.has_read disk start n (mk_transfer (replicate (Z.to_nat n) 0) 0 []) s → 0 ≤ n → dest s = slice disk start n.
Proof. intros (Hl & Ht & _) Hn. cbn in Hl. rewrite length_replicate in Hl. by rewrite take_ge in Ht by lia. Qed.

Lemma disk_read_ok addr start n :
  isAligned addr = true → 0 ≤ n < 2 ^ 32 → 0 ≤ start → start + n < 2 ^ 64 → disk_read handle addr start n = Done (slice disk start n).
Proof.
  intros Ha Hn Hs Hsn. unfold disk_read.
  destruct (BlockHandle.read_aligned disk dev addr start n (mk_transfer (replicate (Z.to_nat n) 0) 0 [])) as (s & -> & Hr);
    [done|done|done|cbn; rewrite length_replicate; lia|done|done|]. rewrite bind_ret. by rewrite (has_read_all start n s) by (done || lia).
Qed.

(** Whole blocks can be read into any buffer. *)
Lemma disk_read_blocks addr start n :
  INodeFile.quiet addr n → start mod BLOCK_SIZE = 0 → n mod BLOCK_SIZE = 0 → 0 < n < 2 ^ 32 → 0 ≤ start → start + n < 2 ^ 64 →
  disk_read handle addr start n = Done (slice disk start n).
Proof.
  intros Hq Hsm Hnm Hn Hs Hsn. destruct (isAligned addr) eqn:Ha; [apply disk_read_ok; done || lia|].
  destruct Hq as [?|Hq]; [congruence|]. unfold disk_read. destruct Hsector as (k & Hk & Hss).
  assert (Hdiv : ∀ x, x mod BLOCK_SIZE = 0 → x mod sectorSize dev = 0).
  { intros x [q ->]%Z.mod_divide; [|done]. rewrite Hss. unfold BLOCK_SIZE. change 2048 with (2 ^ 11). replace 11 with (11 - k + k) by lia.
    rewrite Z.pow_add_r, Z.mul_assoc by lia. apply Z.mod_mul. lia. }
  destruct (BlockHandle.read_odd_sectors disk dev addr start n k (mk_transfer (replicate (Z.to_nat n) 0) 0 [])) as (s & -> & Hr);
    try done; [lia|by apply Hdiv|by apply Hdiv|lia|cbn; rewrite length_replicate; lia|]. rewrite bind_ret. by rewrite (has_read_all start n s) by (done || lia).
Qed.

(** A directory record at an offset of the disk. *)
Definition dentry_at (off : Z) : iso9660_dentry :=
  mk_dentry (disk off) (le_value (slice disk (off + 2) 4)) (le_value (slice disk (off + 10) 4)) (disk (off + 25)) (disk (off + 32)).

Lemma read_dentry_slice off n : 33 ≤ n → read_dentry (slice disk off n) = Done (dentry_at off).
Proof.
  intros Hn. unfold read_dentry. rewrite !slice_rd, !slice_get by lia. cbn [mbind outcome_bind]. unfold dentry_at. by rewrite Z.add_0_r.
Qed.

(** ** Names *)

Definition holds_name (nb n : list Z) : Prop := length nb = 256%nat ∧ text n ∧ (length n < 256)%nat ∧ ∃ rest, nb = n ++ 0 :: rest.

(** The System Use area at [lpos]: it ends, or an entry follows; an [NM] entry
    gives the name. *)
Inductive susp (b : Z → Z) (max : Z) : Z → list Z → list Z → Prop :=
| susp_end lpos n : max ≤ lpos ∨ ¬ (65 ≤ b lpos ≤ 90) → susp b max lpos n n
| susp_other lpos n n' :
    lpos < max → 65 ≤ b lpos ≤ 90 → (b lpos, b (lpos + 1)) ≠ (67, 69) → (b lpos, b (lpos + 1)) ≠ (78, 77) → 0 < b (lpos + 2) →
    susp b max (lpos + b (lpos + 2)) n n' → susp b max lpos n n'
| susp_name lpos n m n' k :
    lpos < max → b lpos = 78 → b (lpos + 1) = 77 → 5 ≤ b (lpos + 2) → lpos + b (lpos + 2) ≤ k < 256 → b k = 0 →
    m = b <$> seqZ (lpos + 5) (b (lpos + 2) - 5) → text m →
    susp b max (lpos + b (lpos + 2)) m n' → susp b max lpos n n'.

Lemma strncpy_cut dst m rest z num :
  text m → strlen (m ++ rest) = Done z → Z.of_nat (length m) ≤ z → z < 2 ^ 31 → num = Z.of_nat (length m) + 1 →
  (length m < length dst)%nat → strncpy dst (m ++ rest) num = Done (m ++ 0 :: drop (S (length m)) dst).
Proof.
  intros Hm Hz Hle Hmax -> Hd. unfold strncpy. rewrite Hz, bind_ret. replace (Z.of_nat (length m) + 1 - 1) with (Z.of_nat (length m)) by lia.
  rewrite wrap_small, Z.min_r, swrap_small by lia. destruct (Z.ltb_spec (Z.of_nat (length m)) 0); [lia|].
  rewrite (copy_chars_spec _ m) by (try lia; intros k Hk; simpl; by rewrite lookup_app_l by lia). rewrite bind_ret. simpl. rewrite Nat2Z.id.
  rewrite wr_in_range by (rewrite length_app, length_drop; lia). rewrite Nat2Z.id. f_equal.
  rewrite insert_app_r_alt, Nat.sub_diag by lia. f_equal. destruct (drop (length m) dst) eqn:E.
  - apply (f_equal length) in E. rewrite length_drop in E. simpl in E. lia.
  - simpl. f_equal. replace (S (length m)) with (length m + 1)%nat by lia. rewrite <-drop_drop, E. done.
Qed.

(** A string that ends somewhere. *)
Lemma strlen_bounded m rest j :
  text m → rest !! j = Some 0 → ∃ z, strlen (m ++ rest) = Done z ∧ Z.of_nat (length m) ≤ z ≤ Z.of_nat (length m + j).
Proof.
  intros Hm Hj. unfold strlen.
  assert (Hrest : ∀ k, ∃ z, strlen_from rest k = Done z ∧ k ≤ z ≤ k + Z.of_nat j).
  { clear -Hj. revert j Hj. induction rest as [|c rest IH]; intros j Hj k; [done|]. cbn [strlen_from]. destruct (Z.eqb_spec c 0); [exists k; split; [done|lia]|].
    destruct j as [|j]; [injection Hj; congruence|]. destruct (IH j Hj (k + 1)) as (z & Hz & ?). exists z. split; [done|lia]. }
  assert (Hall : ∀ k, ∃ z, strlen_from (m ++ rest) k = Done z ∧ k + Z.of_nat (length m) ≤ z ≤ k + Z.of_nat (length m + j)).
  { clear -Hm Hrest. induction Hm as [|c m Hc Hm IH]; intros k; [destruct (Hrest k) as (z & Hz & ?); exists z; split; [exact Hz|simpl; lia]|].
    cbn [strlen_from app length]. destruct (Z.eqb_spec c 0); [lia|]. destruct (IH (k + 1)) as (z & -> & ?). exists z. split; [done|lia]. }
  destruct (Hall 0) as (z & Hz & ?). exists z. split; [done|lia].
Qed.

Lemma slice_drop off n k : 0 ≤ k ≤ n → drop (Z.to_nat k) (slice disk off n) = slice disk (off + k) (n - k).
Proof.
  intros Hk. replace n with (k + (n - k)) at 1 by lia. rewrite slice_app by lia.
  pose proof (slice_length disk off k ltac:(lia)). by rewrite drop_app_length' by lia.
Qed.

Lemma slice_lookup off n i : 0 ≤ i < n → slice disk off n !! Z.to_nat i = Some (disk (off + i)).
Proof. intros Hi. pose proof (slice_rd disk off n i Hi) as H. by apply rd_Done in H as [_ H]. Qed.

Lemma slice_two off : slice disk off 2 = [disk off; disk (off + 1)].
Proof. unfold slice. cbn. by rewrite (Z.add_comm off 1). Qed.

Lemma susp_ok off fuel nb lpos max n n' :
  susp (λ i, disk (off + i)) max lpos n n' → holds_name nb n → 34 ≤ lpos → max ≤ 250 → (Z.to_nat (256 - lpos) < fuel)%nat →
  ∃ nb', susp_loop fuel (slice disk off 256) nb lpos max = Done nb' ∧ holds_name nb' n'.
Proof.
  intros Hs. revert fuel nb. induction Hs as [lpos n Hend|lpos n n' Hlt Hc Hce Hnm Hl _ IH|lpos n m n' k Hlt H0 H1 Hl Hk Hz Hm Htm _ IH];
    intros fuel nb Hnb Hpos Hmax Hf; (destruct fuel as [|fuel]; [lia|]); cbn [susp_loop].
  - exists nb. split; [|done]. destruct (Z.ltb_spec lpos max); [|done]. destruct Hend as [?|Hc]; [lia|]. rewrite (slice_rd disk off 256 lpos) by lia. rewrite bind_ret.
    destruct (Z.ltb_spec (disk (off + lpos)) 65); [done|]. rewrite Z.gtb_ltb. by destruct (Z.ltb_spec 90 (disk (off + lpos))); [|lia].
  - destruct (Z.ltb_spec lpos max); [|lia]. rewrite !slice_rd, slice_get by lia. cbn [mbind outcome_bind].
    destruct (Z.ltb_spec (disk (off + lpos)) 65); [lia|]. rewrite Z.gtb_ltb. destruct (Z.ltb_spec 90 (disk (off + lpos))); [lia|]. cbn [orb].
    rewrite slice_two, <-Z.add_assoc.
    rewrite !decide_False by congruence. apply IH; [done|lia|done|lia].
  - destruct (Z.ltb_spec lpos max); [|lia]. rewrite !slice_rd, slice_get by lia. cbn [mbind outcome_bind]. rewrite H0. cbn [Z.ltb Z.gtb Z.compare Pos.compare Pos.compare_cont orb].
    rewrite slice_two, <-Z.add_assoc, H0, H1.
    rewrite decide_False, decide_True by done. rewrite slice_drop by lia.
    set (l := disk (off + (lpos + 2))) in *.
    assert (Hsplit : slice disk (off + (lpos + 5)) (256 - (lpos + 5)) = m ++ slice disk (off + (lpos + l)) (256 - (lpos + l))).
    { replace (256 - (lpos + 5)) with (l - 5 + (256 - (lpos + l))) by lia. rewrite slice_app by lia. f_equal; [|f_equal; lia].
      rewrite Hm. unfold slice. by rewrite <-fmap_add_seqZ, <-list_fmap_compose. }
    rewrite Hsplit. assert (Hml : Z.of_nat (length m) = l - 5) by (rewrite Hm, length_fmap, length_seqZ; lia).
    destruct (strlen_bounded m (slice disk (off + (lpos + l)) (256 - (lpos + l))) (Z.to_nat (k - (lpos + l))) Htm) as (z & Hzl & Hzb).
    { rewrite slice_lookup by lia. f_equal. rewrite <-Hz. f_equal. lia. }
    destruct Hnb as (Hnl & _ & _ & _).
    rewrite (strncpy_cut _ m _ z) by (done || lia || (rewrite wrap_small; lia)). rewrite bind_ret. apply IH; [|lia|done|lia].
    split_and!; [rewrite length_app; simpl; rewrite length_drop; lia|done|lia|by eexists].
Qed.

(** The part of a name before the version number. *)
Fixpoint base_name (raw : list Z) : list Z :=
  match raw with [] => [] | c :: raw => if c =? 59 then [] else c :: base_name raw end.

Lemma clean_name_base raw r :
  text raw → ∃ rest, clean_name (raw ++ 0 :: r) = base_name raw ++ 0 :: rest ∧ text (base_name raw) ∧ (length (base_name raw) ≤ length raw)%nat.
Proof.
  induction 1 as [|c raw Hc Hraw IH]; [by eexists; split_and!; [reflexivity|constructor|done]|].
  cbn [app base_name clean_name fmap list_fmap]. destruct (Z.eqb_spec c 59).
  - eexists. split_and!; [reflexivity|constructor|simpl; lia].
  - destruct IH as (rest & He & Ht & Hl). exists rest. fold (clean_name (raw ++ 0 :: r)). unfold clean_name in He |- *. rewrite He. split_and!; [done|by constructor|simpl; lia].
Qed.

(** The position of the System Use area of a record. *)
Definition susp_pos (nl : Z) : Z := let lpos := dentry_size + nl in lpos + lpos mod 2.

(** The name of the record at an offset of the disk. *)
Definition record_names (off : Z) (n : list Z) : Prop :=
  let nl := disk (off + 32) in let raw := slice disk (off + 33) nl in
  0 < nl ≤ 222 ∧ text raw ∧ susp (λ i, disk (off + i)) (255 - susp_pos nl) (susp_pos nl) (base_name raw) n.

Lemma record_name_ok off n :
  record_names off n → ∃ nb, record_name junk (slice disk off 256) (disk (off + 32)) = Done nb ∧ holds_name nb n.
Proof.
  intros (Hnl & Hraw & Hs). set (nl := disk (off + 32)) in *. set (raw := slice disk (off + 33) nl) in *. unfold record_name, MAX_FILENAME_LEN, dentry_size.
  rewrite wr_in_range, bind_ret, Z.min_r, slice_get, bind_ret by lia. fold raw. set (j := <[Z.to_nat (256 - 1) := 0]> junk).
  assert (Hj : length j = 256%nat) by (unfold j; by rewrite length_insert). pose proof (slice_length disk (off + 33) nl ltac:(lia)) as Hrl. fold raw in Hrl.
  rewrite (INodeFile.put_front _ _ nl), bind_ret by (done || lia). rewrite wr_in_range, bind_ret by (rewrite length_app, length_drop; lia).
  rewrite insert_app_r_alt by lia. replace (Z.to_nat nl - length raw)%nat with 0%nat by lia.
  destruct (drop (Z.to_nat nl) j) as [|c r] eqn:E; [apply (f_equal length) in E; rewrite length_drop in E; simpl in E; lia|]. cbn [insert list_insert].
  assert (Hr : length r = (255 - Z.to_nat nl)%nat) by (apply (f_equal length) in E; rewrite length_drop in E; simpl in E; lia).
  destruct (clean_name_base raw r Hraw) as (rest & Hc & Hbt & Hbl).
  assert (Hb : holds_name (clean_name (raw ++ 0 :: r)) (base_name raw)).
  { split_and!; [unfold clean_name; rewrite length_fmap, length_app; simpl; lia|done|lia|by exists rest]. }
  pose proof (Z.mod_pos_bound (33 + nl) 2 ltac:(lia)). unfold susp_pos, dentry_size in Hs.
  apply (susp_ok off 256 _ _ _ _ _ Hs Hb); lia.
Qed.

(** ** Directories *)

Lemma le4_bound off : 0 ≤ le_value (slice disk off 4) < 2 ^ 32.
Proof.
  pose proof (le_value_bound (slice disk off 4)) as H. rewrite slice_length in H by lia. apply H.
  unfold bytes, slice. apply Forall_fmap, Forall_forall. intros x _. apply (Hbytes x).
Qed.

(** The entry of the record at [p] of a directory whose data starts at [base]. *)
Definition record_entry (base p : Z) (n : list Z) : dir_entry :=
  let d := dentry_at (base + p) in
  mk_dir_entry (data_lba d) p (n ++ 0 :: drop (S (length n)) (name no_entry)) (if isDirectory d then FT_DIRECTORY else FT_REGULAR).

(** The records of a directory of [size] bytes at [base], from the position [p] on:
    the two records of the directory itself and its parent are left out, and a zero
    byte skips the rest of the block. *)
Inductive layout (base size : Z) : Z → list (list Z * dir_entry) → Prop :=
| layout_end p : size ≤ p → layout base size p []
| layout_gap p l :
    p < size → disk (base + p) = 0 → layout base size ((p + BLOCK_SIZE) / BLOCK_SIZE * BLOCK_SIZE) l → layout base size p l
| layout_dot p l :
    p < size → 0 < disk (base + p) → disk (base + p + 32) = 1 → disk (base + p + 33) = 0 ∨ disk (base + p + 33) = 1 →
    layout base size (p + disk (base + p)) l → layout base size p l
| layout_record p n l :
    p < size → 0 < disk (base + p) → record_names (base + p) n → ¬ (disk (base + p + 32) = 1 ∧ disk (base + p + 33) = 1) →
    data_lba (dentry_at (base + p)) < 2 ^ 31 →
    layout base size (p + disk (base + p)) l → layout base size p ((n, record_entry base p n) :: l).

(** A directory that lies in the first 4 GiB of the disk. *)
Definition small (d : iso9660_dentry) : Prop :=
  0 ≤ data_lba d ∧ 0 ≤ data_len d < 2 ^ 31 - 256 ∧ data_lba d * BLOCK_SIZE + data_len d + 256 < 2 ^ 32.

Definition base_of (d : iso9660_dentry) : Z := data_lba d * BLOCK_SIZE.

Abbreviation readDir_ := (iso_readDir handle junk buffer_addr).

Lemma dir_turn_start d ctx :
  small d → 0 ≤ ctx < data_len d →
  dir_turn handle junk buffer_addr d (data_len d) ctx =
    (let ld := dentry_at (base_of d + ctx) in
     if len ld =? 0 then
       let ctx := (ctx + BLOCK_SIZE) / BLOCK_SIZE * BLOCK_SIZE in
       if ctx >=? data_len d then Done (inr (inl ENONE, ctx)) else Done (inl ctx)
     else
       let ctx := ctx + len ld in
       let c0 := disk (base_of d + (ctx - len ld) + 33) in
       if (name_len ld =? 1) && ((c0 =? 0) || (c0 =? 1)) then Done (inl ctx)
       else
         name_buffer ← record_name junk (slice disk (base_of d + (ctx - len ld)) 256) (name_len ld);
         e ← new_dir_entry name_buffer (ctx - len ld) (data_lba ld);
         Done (inr (inr (mk_dir_entry (inode_id e) (pos e) (name e) (if isDirectory ld then FT_DIRECTORY else FT_REGULAR)), ctx))).
Proof.
  intros (Hlba & Hlen & Hmax) Hctx. unfold dir_turn, BLOCK_SIZE in *. destruct (Z.ltb_spec ctx (data_len d)); [|lia].
  rewrite (wrap_small 32) by lia. rewrite (wrap_small 64 (_ + ctx)) by lia. unfold base_of, BLOCK_SIZE.
  rewrite disk_read_ok, bind_ret, read_dentry_slice, bind_ret by (done || lia). cbv zeta.
  pose proof (Hbytes (data_lba d * 2048 + ctx)). assert (Hl : 0 ≤ len (dentry_at (data_lba d * 2048 + ctx)) < 256) by done.
  rewrite (wrap_small 64 (ctx + 2048)), (wrap_small 64 (ctx + len _)) by lia.
  destruct (int_floor_spec 64 (ctx + 2048) 2048 ltac:(lia) ltac:(lia)) as [-> _]. destruct (_ =? 0); [done|].
  replace (ctx + len (dentry_at (data_lba d * 2048 + ctx)) - len (dentry_at (data_lba d * 2048 + ctx))) with ctx by lia.
  by rewrite slice_rd, bind_ret by (unfold dentry_size; lia).
Qed.

Lemma layout_past base sz p l : layout base sz p l → sz ≤ p → l = [].
Proof. destruct 1; intros; [done|lia..]. Qed.

Lemma record_entry_named base p n : holds_name (name (record_entry base p n)) n → named (record_entry base p n) n.
Proof. intros (_ & Ht & _ & Hr). done. Qed.

(** What a call of [readDir] finds. *)
Definition finds (d : iso9660_dentry) (l : list (list Z * dir_entry)) (r : optional dir_entry * Z) : Prop :=
  match l with
  | [] => r.1 = inl ENONE
  | (n, e) :: l => r.1 = inr e ∧ named e n ∧ 0 ≤ r.2 ∧ layout (base_of d) (data_len d) r.2 l
  end.

Lemma dir_turns d m p l :
  small d → layout (base_of d) (data_len d) p l → 0 ≤ p → data_len d - p < Z.of_nat m → (0 < m)%nat →
  ∃ r, sturns m (λ ctx, lift (dir_turn handle junk buffer_addr d (data_len d) ctx)) p tt = Done (inr r, tt) ∧ finds d l r.
Proof.
  intros Hd Hl. revert m. pose proof Hd as (Hlba & Hlen & Hmax).
  induction Hl as [p Hp|p l Hp H0 Hl IH|p l Hp H0 Hn Hc Hl IH|p n l Hp H0 Hn Hc Hb Hl _]; intros m Hp0 Hm Hm0;
    (destruct m as [|m]; [lia|]); cbn [sturns]; rewrite run_bind; unfold lift at 1.
  - unfold dir_turn. destruct (Z.ltb_spec p (data_len d)); [lia|]. cbn. eexists. split; [reflexivity|done].
  - rewrite dir_turn_start by (done || lia). cbv zeta. cbn [len dentry_at]. rewrite H0. cbn [Z.eqb].
    set (p' := (p + BLOCK_SIZE) / BLOCK_SIZE * BLOCK_SIZE) in *.
    assert (p < p') by (unfold p', BLOCK_SIZE; pose proof (Z.div_mod (p + 2048) 2048 ltac:(lia)); pose proof (Z.mod_pos_bound (p + 2048) 2048 ltac:(lia)); lia).
    rewrite Z.geb_leb. destruct (Z.leb_spec (data_len d) p') as [Hge|Hlt]; cbn.
    + eexists. split; [reflexivity|]. by rewrite (layout_past _ _ _ _ Hl Hge).
    + apply IH; lia.
  - rewrite dir_turn_start by (done || lia). cbv zeta. cbn [len name_len dentry_at]. destruct (Z.eqb_spec (disk (base_of d + p)) 0); [lia|].
    replace (p + disk (base_of d + p) - disk (base_of d + p)) with p by lia. rewrite Hn. cbn [Z.eqb Pos.eqb andb].
    replace ((_ =? 0) || _) with true by (symmetry; apply orb_true_iff; rewrite !Z.eqb_eq; done). cbn. apply IH; lia.
  - rewrite dir_turn_start by (done || lia). cbv zeta. cbn [len name_len data_lba dentry_at] in *. destruct (Z.eqb_spec (disk (base_of d + p)) 0); [lia|].
    replace (p + disk (base_of d + p) - disk (base_of d + p)) with p by lia.
    destruct (record_name_ok _ _ Hn) as (nb & He & Hnb). destruct Hn as (Hnl & Hraw & _).
    replace ((disk (base_of d + p + 32) =? 1) && _) with false.
    2:{ symmetry. apply andb_false_iff. destruct (Z.eqb_spec (disk (base_of d + p + 32)) 1) as [E1|]; [right|by left].
        apply orb_false_iff. rewrite !Z.eqb_neq. split; [|naive_solver]. rewrite E1 in Hraw.
        pose proof (Forall_lookup_1 _ _ _ _ Hraw (slice_lookup (base_of d + p + 33) 1 0 ltac:(lia))) as H33. cbn beta in H33. rewrite Z.add_0_r in H33. lia. }
    destruct Hnb as (Hnbl & Ht & Hnlen & rest & ->). pose proof (le4_bound (base_of d + p + 2)). rewrite He, bind_ret, new_entry_ok, bind_ret by (done || unfold MAX_FILENAME_LEN; lia).
    cbn. eexists. split; [reflexivity|]. cbn. split_and!; [done|split; [done|by eexists]|lia|done].
Qed.

(** The directory is listed as it is laid out. *)
Lemma iso_lists root d inode p l :
  small d → kind inode = IsoDirectory d → size inode = data_len d → 0 ≤ p → layout (base_of d) (data_len d) p l →
  lists (iso9660 handle junk buffer_addr dentry_addr root) inode p l.
Proof.
  intros Hd Hk Hs. revert p. induction l as [|[n e] l IH]; intros p Hp Hl;
    destruct (dir_turns d (Pos.to_nat dir_fuel) p _ Hd Hl Hp) as ([r p'] & He & Hr);
    try (destruct Hd as (_ & ? & _); rewrite positive_nat_Z; unfold dir_fuel; lia); try apply Pos2Nat.is_pos;
    assert (Hread : readDir_ inode p = Done (r, p')) by (unfold iso_readDir; rewrite Hk, Hs, siter_turns; by rewrite He).
  - cbn in Hr. subst r. by eapply lists_end.
  - destruct Hr as (Hr1 & Hn & Hp' & Hl'). cbn in Hr1, Hp', Hl'. subst r. eapply lists_next; [exact Hread|done|by apply IH].
Qed.

(** ** Paths *)

(** The pieces [ps] lead from the directory [d] to an inode. *)
Inductive iso_path (root : iso9660_dentry) : iso9660_dentry → list (list Z) → iso_kind → Prop :=
| path_here d : iso_path root d [] (IsoDirectory d)
| path_file d l p n :
    small d → layout (base_of d) (data_len d) 0 l → entry l n = Some (record_entry (base_of d) p n) → 0 ≤ p < data_len d →
    let d' := dentry_at (base_of d + p) in
    isDirectory d' = false → data_lba d' ≠ data_lba root → iso_path root d [n] (IsoFile d')
| path_down d l p n ps k :
    small d → layout (base_of d) (data_len d) 0 l → entry l n = Some (record_entry (base_of d) p n) → 0 ≤ p < data_len d →
    let d' := dentry_at (base_of d + p) in
    isDirectory d' = true → data_lba d' ≠ data_lba root → iso_path root d' ps k → iso_path root d (n :: ps) k.

Definition inode_of (k : iso_kind) (i : Z) : INode iso_kind :=
  match k with IsoDirectory d => set_id i (dir_inode d) | IsoFile d => set_id i (file_inode d) end.

Lemma getINode_record root d p n i :
  small d → 0 ≤ p < data_len d → let d' := dentry_at (base_of d + p) in data_lba d' ≠ data_lba root →
  iso_getINode handle dentry_addr root (Some (inode_of (IsoDirectory d) i)) (record_entry (base_of d) p n) (data_lba d') =
    Done (inr (if isDirectory d' then dir_inode d' else file_inode d')).
Proof.
  intros (Hlba & Hlen & Hmax) Hp d' Hne. unfold iso_getINode. destruct (Z.eqb_spec (data_lba d') (data_lba root)); [done|].
  cbn [inode_of dir_inode set_id kind pos record_entry]. unfold base_of in *. unfold BLOCK_SIZE in *. rewrite (wrap_small 32 (data_lba d * 2048)), (wrap_small 32) by lia.
  rewrite disk_read_ok, bind_ret, read_dentry_slice, bind_ret by (done || unfold dentry_size; lia). cbn [d_type record_entry]. fold d'.
  by destruct (isDirectory d').
Qed.

Lemma iso_resolves root d ps k i :
  iso_path root d ps k → ∃ j, resolves (iso9660 handle junk buffer_addr dentry_addr root) (inode_of (IsoDirectory d) i) ps (inr (inode_of k j)).
Proof.
  intros Hp. revert i. induction Hp as [d|d l p n Hd Hl He Hp d' Hf Hne|d l p n ps k Hd Hl He Hp d' Hf Hne _ IH]; intros i.
  - exists i. apply resolves_end.
  - exists (data_lba d'). eapply resolves_step with (j := file_inode d').
    + by apply (iso_lists root d).
    + exact He.
    + by left.
    + cbn [getINode iso9660 inode_id record_entry]. rewrite getINode_record by done. fold d'. by rewrite Hf.
    + apply resolves_end.
  - destruct (IH (data_lba d')) as [j Hj]. exists j. eapply resolves_step with (j := dir_inode d').
    + by apply (iso_lists root d).
    + exact He.
    + right. cbn [d_type record_entry]. fold d'. by rewrite Hf.
    + cbn [getINode iso9660 inode_id record_entry]. rewrite getINode_record by done. fold d'. by rewrite Hf.
    + exact Hj.
Qed.

(** ** Files *)

(** The data of a file: its blocks lie one behind the other on the disk. *)
Lemma iso_serves d i :
  0 ≤ data_lba d → data_lba d * BLOCK_SIZE < 2 ^ 32 →
  INodeFile.serves_blocks (λ x, disk (base_of d + x)) (INodeFile.mk_inode (data_len d) (iso_readBlocks handle (inode_of (IsoFile d) i))) BLOCK_SIZE.
Proof.
  intros Hlba Hmax. split; [unfold BLOCK_SIZE; lia|]. split; [done|]. intros base start count Hs Hsum Hc Hq.
  cbn [INodeFile.node_readBlocks]. unfold iso_readBlocks. cbn [inode_of file_inode set_id kind]. unfold BLOCK_SIZE in *.
  rewrite (wrap_small 32 (data_lba d * 2048)), (wrap_small 32 (count * 2048)), (wrap_small 64 (start * 2048)), (wrap_small 64) by lia.
  rewrite disk_read_blocks; try done; try lia.
  - f_equal. unfold slice. rewrite <-fmap_add_seqZ, <-list_fmap_compose. done.
  - rewrite <-Z.mul_add_distr_r. by apply Z.mod_mul.
  - by apply Z.mod_mul.
Qed.

Lemma valid_pieces_short s :
  clean s → Z.of_nat (length s) < 2 ^ 31 → is_valid (cstr s) = Done true → Forall (λ p, Z.of_nat (length p) < MAX_FILENAME_LEN) (pieces s).
Proof.
  intros Hs Hmax Hv. rewrite is_valid_bounds_the_sum in Hv by done. injection Hv as [_ Hv%Z.leb_le]%andb_true_iff.
  unfold MAX_FILENAME_LEN. revert Hv. generalize (pieces s) as ps. induction ps as [|p ps IH]; [by constructor|].
  cbn [concat]. rewrite length_app. intros Hv. constructor; [lia|apply IH; lia].
Qed.

(** A file of the volume, opened by its path. *)
Lemma iso_opens mounts devices open_char m root d s mode :
  (∀ m, Some m ∈ mounts → ∃ dir, mounted_at m dir) → clean s → Z.of_nat (length s) < 2 ^ 31 → is_valid (cstr s) = Done true →
  Some m ∈ mounts → mounted_at m [] → mount_cb m = pack _ (iso9660 handle junk buffer_addr dentry_addr root) →
  (∀ m' dir, Some m' ∈ mounts → mounted_at m' dir → dir `prefix_of` s → m' = m) →
  iso_path root root (pieces s) (IsoFile d) →
  ∃ N j, ∀ fuel, (N ≤ fuel)%nat → open mounts devices open_char fuel (cstr s) mode =
    Done (inr (AnINodeFile (INodeFile.open (INodeFile.mk_inode (data_len d) (iso_readBlocks handle (inode_of (IsoFile d) j))) BLOCK_SIZE))).
Proof.
  intros Hm Hs Hmax Hv Hin Hroot Hcb Honly Hpath. destruct (iso_resolves root root (pieces s) _ (data_lba root) Hpath) as [j Hres].
  destruct (findINode_walks (iso9660 handle junk buffer_addr dentry_addr root) s (dir_inode root) (inr (inode_of (IsoFile d) j)) Hs) as [N HN];
    [by apply valid_pieces_short| |done|].
  { cbn. unfold iso_getINode. by rewrite Z.eqb_refl. }
  exists N, j. intros fuel Hf. unfold open.
  destruct (find_mount_longest mounts s Hm Hs Hv) as [(m' & dir & s' & Hin' & Hdir & Hs' & -> & _)|[_ Hno]].
  2:{ destruct (Hno m [] Hin Hroot). apply prefix_nil. }
  assert (m' = m) as -> by (apply (Honly m' dir); [done|done|by exists s']). pose proof (mounted_at_inj _ _ _ Hdir Hroot) as ->.
  rewrite app_nil_l in Hs'. subst s'. rewrite decide_False by (by intros ->). rewrite bind_ret. cbv zeta. rewrite Hcb. cbn [control_block Kind].
  by rewrite (HN fuel Hf), bind_ret.
Qed.

(** C11 (functional): a file of a mounted volume is read by its path: opening the
    path returns a file, and a first read of it stores the bytes the directory
    record points at, up to the end of the file, and returns their number.  The
    path is split and looked up directory by directory, the records are parsed and
    the bytes are fetched in sectors of the disk. *)
Theorem iso_file_reads mounts devices open_char m root d s mode :
  (∀ m, Some m ∈ mounts → ∃ dir, mounted_at m dir) → clean s → Z.of_nat (length s) < 2 ^ 31 → is_valid (cstr s) = Done true →
  Some m ∈ mounts → mounted_at m [] → mount_cb m = pack _ (iso9660 handle junk buffer_addr dentry_addr root) →
  (∀ m' dir, Some m' ∈ mounts → mounted_at m' dir → dir `prefix_of` s → m' = m) →
  iso_path root root (pieces s) (IsoFile d) →
  0 ≤ data_lba d → data_lba d * BLOCK_SIZE < 2 ^ 32 → 0 ≤ data_len d < 2 ^ 32 →
  ∃ N, ∀ fuel, (N ≤ fuel)%nat → ∃ f, open mounts devices open_char fuel (cstr s) mode = Done (inr (AnINodeFile f)) ∧
    ∀ base overflow cache count mem, 0 ≤ count < 2 ^ 32 → let n := data_len d `min` count in
      n < 65536 * BLOCK_SIZE → n ≤ Z.of_nat (length mem) → INodeFile.quiet_request base 0 n →
      ∃ f' mem', INodeFile.read base overflow cache count f mem = Done (n, f', mem') ∧ INodeFile.m_pos f' = n ∧
        take (Z.to_nat n) mem' = slice disk (data_lba d * BLOCK_SIZE) n ∧ drop (Z.to_nat n) mem' = drop (Z.to_nat n) mem.
Proof.
  intros Hm Hs Hmax Hv Hin Hroot Hcb Honly Hpath Hlba Hl32 Hlen.
  destruct (iso_opens mounts devices open_char m root d s mode) as (N & j & HN); [done..|]. exists N. intros fuel Hf. eexists. split; [by apply HN|].
  intros base overflow cache count mem Hc n Hn Hroom Hq. pose proof (iso_serves d j Hlba Hl32) as Hsv.
  pose proof (INodeFile.open_inv _ _ _ 11 Hsv eq_refl ltac:(lia) ltac:(cbn; lia)) as Hinv. set (f := INodeFile.open _ _) in *.
  assert (Hr : INodeFile.readable f count = n) by (unfold INodeFile.readable, n; cbn; lia).
  destruct (INodeFile.file_read_correct _ base overflow cache count f mem Hinv Hc) as (f' & mem' & He & Ht & Hd & Hp & _); rewrite Hr in *; [done..|].
  exists f', mem'. rewrite He, Hp. unfold INodeFile.cached_part. cbn [f INodeFile.open INodeFile.m_pos INodeFile.m_block_size INodeFile.m_cached_block] in *.
  change (0 / u16 BLOCK_SIZE =? 0xFFFFFFFFFFFFFFFF) with false. cbv iota. split_and!; [|done| |done].
  - rewrite Z.sub_0_r. by destruct (Z.eqb_spec n 0) as [->|]; [|destruct (Z.eqb_spec 0 n); [lia|done]].
  - rewrite Ht. unfold slice. replace (data_lba d * BLOCK_SIZE) with (base_of d + 0) by (unfold base_of; lia).
    rewrite <-fmap_add_seqZ, <-list_fmap_compose. done.
Qed.

(** ** Mounting *)

(** The type of the volume descriptor [i], and the root directory of the last
    primary descriptor among the first [n]. *)
Definition vd_off (i : Z) : Z := ISO_START + BLOCK_SIZE * i.
Fixpoint last_root (n : nat) (junk : iso9660_dentry) : iso9660_dentry :=
  match n with
  | O => junk
  | S n => if disk (vd_off (Z.of_nat n)) =? PRIMARY_VOLUME_DESCRIPTOR then dentry_at (vd_off (Z.of_nat n) + 156) else last_root n junk
  end.

Lemma descriptors_turns k turns n root_junk :
  (k + n < turns + k)%nat → (turns + k ≤ 64)%nat →
  (∀ i, (k ≤ i < k + n)%nat → slice disk (vd_off (Z.of_nat i) + 1) 5 = lit "CD001" ∧ disk (vd_off (Z.of_nat i)) ≠ TERMINATOR) →
  slice disk (vd_off (Z.of_nat (k + n)) + 1) 5 = lit "CD001" → disk (vd_off (Z.of_nat (k + n))) = TERMINATOR →
  descriptors handle buffer_addr turns (Z.of_nat k) (last_root k root_junk) = Done (inr (last_root (k + n) root_junk)).
Proof.
  revert k turns. induction n as [|n IH]; intros k turns Hn Ht Hall Hid Hty; (destruct turns as [|turns]; [lia|]); cbn [descriptors];
    fold (vd_off (Z.of_nat k)); rewrite disk_read_ok, bind_ret, (slice_get _ _ _ 1 5), bind_ret, slice_rd, Z.add_0_r by (done || unfold vd_off, ISO_START, BLOCK_SIZE; lia).
  - rewrite Nat.add_0_r in *. by rewrite decide_True, bind_ret, Hty by done.
  - destruct (Hall k ltac:(lia)) as [Hid' Hty']. rewrite decide_True, bind_ret by done. destruct (Z.eqb_spec (disk (vd_off (Z.of_nat k))) TERMINATOR); [done|].
    rewrite <-Nat.add_succ_comm in *. replace (Z.of_nat k + 1) with (Z.of_nat (S k)) by lia.
    assert (Hrec : ∀ r, r = last_root (S k) root_junk → descriptors handle buffer_addr turns (Z.of_nat (S k)) r = Done (inr (last_root (S k + n) root_junk))).
    { intros r ->. apply IH; [lia|lia| |done|done]. intros i Hi. apply Hall. lia. }
    destruct (_ =? PRIMARY_VOLUME_DESCRIPTOR) eqn:Ep.
    + rewrite slice_get, bind_ret, read_dentry_slice, bind_ret by (unfold BLOCK_SIZE; lia). apply Hrec. cbn [last_root]. by rewrite Ep.
    + apply Hrec. cbn [last_root]. by rewrite Ep.
Qed.

Lemma descriptors_bad turns i root_junk :
  0 ≤ i < 64 → slice disk (vd_off i + 1) 5 ≠ lit "CD001" → descriptors handle buffer_addr (S turns) i root_junk = Done (inl EINVAL).
Proof.
  intros Hi Hid. cbn [descriptors]. fold (vd_off i).
  rewrite disk_read_ok, bind_ret, (slice_get _ _ _ 1 5), bind_ret by (done || unfold vd_off, ISO_START, BLOCK_SIZE; lia). by rewrite decide_False.
Qed.

(** Mounting reads the volume descriptors up to the terminator and takes the root
    directory of the last primary one; a block without the identifier ends the
    attempt with [EINVAL]. *)
Lemma iso_mount_root n root_junk :
  (n < 64)%nat → (∀ i, (i < n)%nat → slice disk (vd_off (Z.of_nat i) + 1) 5 = lit "CD001" ∧ disk (vd_off (Z.of_nat i)) ≠ TERMINATOR) →
  (slice disk (vd_off (Z.of_nat n) + 1) 5 = lit "CD001" → disk (vd_off (Z.of_nat n)) = TERMINATOR →
     mount_volume handle junk buffer_addr dentry_addr root_junk = Done (inr (pack _ (iso9660 handle junk buffer_addr dentry_addr (last_root n root_junk))))) ∧
  (n = 0%nat → slice disk (vd_off 0 + 1) 5 ≠ lit "CD001" → mount_volume handle junk buffer_addr dentry_addr root_junk = Done (inl EINVAL)).
Proof.
  intros Hn Hall. unfold mount_volume. split.
  - intros Hid Hty. pose proof (descriptors_turns 0 64 n root_junk) as H. change (Z.of_nat 0) with 0 in H. cbn [last_root Nat.add] in H. rewrite H; [done|lia|lia|intros i Hi; apply Hall; lia|done|done].
  - intros _ Hid. by rewrite (descriptors_bad 63 0).
Qed.

(** ** Deviations *)

(** An entry of the System Use area with the length zero is never left. *)
Lemma susp_zero_hangs off fuel nb lpos max :
  0 ≤ lpos → lpos < max → max ≤ 250 → 65 ≤ disk (off + lpos) ≤ 90 → disk (off + (lpos + 1)) = 0 → disk (off + (lpos + 2)) = 0 →
  susp_loop fuel (slice disk off 256) nb lpos max = Panic "readDir does not return".
Proof.
  intros Hp Hlt Hmax Hc H1 H2. induction fuel as [|fuel IH]; [done|]. cbn [susp_loop]. destruct (Z.ltb_spec lpos max); [|lia].
  rewrite !slice_rd, slice_get by lia. cbn [mbind outcome_bind]. destruct (Z.ltb_spec (disk (off + lpos)) 65); [lia|].
  rewrite Z.gtb_ltb. destruct (Z.ltb_spec 90 (disk (off + lpos))); [lia|]. cbn [orb].
  rewrite slice_two, <-Z.add_assoc, H1, H2, Z.add_0_r. by rewrite !decide_False.
Qed.

(** The area is not bounded by the length of the record, so the record that
    follows is taken for an entry when its length is that of an upper-case letter:
    a record without an area, followed by one of 65 to 90 bytes whose data starts
    at a block number that is a multiple of 256, stops the kernel. *)
Lemma next_record_hangs d p :
  small d → 0 ≤ p < data_len d → let off := base_of d + p in let l := disk off in
  disk (off + 32) ≠ 1 → 0 < disk (off + 32) ≤ 60 → text (slice disk (off + 33) (disk (off + 32))) → l = susp_pos (disk (off + 32)) →
  65 ≤ len (dentry_at (off + l)) ≤ 90 → disk (off + (l + 1)) = 0 → disk (off + (l + 2)) = 0 →
  dir_turn handle junk buffer_addr d (data_len d) p = Panic "readDir does not return".
Proof.
  intros Hd Hp off l H32 Hnl Ht Hl Hlen H1 H2. rewrite dir_turn_start by done. cbv zeta. cbn [len name_len dentry_at]. fold off. fold l.
  assert (Hpos : 34 ≤ l ≤ 94) by (rewrite Hl; unfold susp_pos, dentry_size; pose proof (Z.mod_pos_bound (33 + disk (off + 32)) 2 ltac:(lia)); lia).
  destruct (Z.eqb_spec l 0); [lia|]. replace (p + l - l) with p by lia. fold off. destruct (Z.eqb_spec (disk (off + 32)) 1); [done|]. cbn [andb].
  unfold record_name, MAX_FILENAME_LEN, dentry_size. rewrite wr_in_range, bind_ret, Z.min_r, slice_get, bind_ret by lia.
  pose proof (slice_length disk (off + 33) (disk (off + 32)) ltac:(lia)).
  rewrite (INodeFile.put_front _ _ (disk (off + 32))), bind_ret by (rewrite ?length_insert; done || lia).
  rewrite wr_in_range, bind_ret by (rewrite length_app, length_drop, length_insert; lia).
  unfold susp_pos, dentry_size in Hl. rewrite <-Hl. rewrite susp_zero_hangs; [done|lia|lia|lia|exact Hlen|exact H1|exact H2].
Qed.

(** Block numbers are multiplied in 32 bits: behind 4 GiB a file reads the data of
    another one. *)
Lemma lba_wraps d1 d2 base block count :
  data_lba d2 = data_lba d1 + 2 ^ 21 → iso_readBlocks handle (file_inode d2) base block count = iso_readBlocks handle (file_inode d1) base block count.
Proof.
  intros He. assert (Hw : u32 (data_lba d2 * BLOCK_SIZE) = u32 (data_lba d1 * BLOCK_SIZE)).
  { unfold wrap, BLOCK_SIZE. rewrite He, Z.mul_add_distr_r. change (2 ^ 21 * 2048) with (1 * 2 ^ 32). by rewrite Z_mod_plus_full. }
  unfold iso_readBlocks. cbn [file_inode kind]. by rewrite Hw.
Qed.

End Disk.

(** A directory can be rewound to a position that was told while there are entries
    left, but not from its end: the old position is compared instead of the new. *)
Lemma seek_at_end_fails inode d ctx p :
  kind inode = IsoDirectory d → 0 ≤ ctx < 2 ^ 63 → 0 ≤ p < 2 ^ 63 →
  (ctx < size inode → iso_seekDir inode p (iso_tellDir inode ctx) = if p >=? size inode then (ERANGE, p) else (ENONE, ctx)) ∧
  (size inode ≤ ctx → iso_seekDir inode ctx p = (ERANGE, ctx)).
Proof.
  intros Hk Hc Hp. unfold iso_seekDir, iso_tellDir. rewrite Hk. split; intros Hs.
  - rewrite swrap_small by lia. by rewrite wrap_small by lia.
  - rewrite Z.geb_leb. by destruct (Z.leb_spec (size inode) ctx); [|lia].
Qed.

(** ** A volume *)

(** A root directory in block 20 with one file of five bytes in block 21. *)
Definition demo_record (name : list Z) (lba dlen fl : Z) : list Z :=
  [33 + Z.of_nat (length name); 0] ++ le_bytes 8 lba ++ le_bytes 8 dlen ++ replicate 7 0 ++ [fl; 0; 0] ++ replicate 4 0 ++ [Z.of_nat (length name)] ++ name.
Definition demo_dir : list Z := demo_record [0] 20 2048 2 ++ demo_record [1] 20 2048 2 ++ demo_record (lit "A.TXT;1") 21 5 0.
Definition demo_disk (i : Z) : Z :=
  if i <? 20 * 2048 then 0
  else if i <? 21 * 2048 then default 0 (demo_dir !! Z.to_nat (i - 20 * 2048))
  else default 0 (lit "hello" !! Z.to_nat (i - 21 * 2048)).
Definition demo_dev : BlockDevice := BlockHandle.mk_device 2048 8 (λ s n, slice demo_disk (s * 2048) (n * 2048)).
Definition demo_root : iso9660_dentry := mk_dentry 34 20 2048 2 1.
Definition demo_cb : ControlBlock iso_kind := iso9660 (mk_handle (Some demo_dev) true) (replicate 256 0) 4096 8192 demo_root.
Definition demo_iso_mounts : list (option Mount) := [Some (mk_mount (cstr (lit "/")) (pack _ demo_cb))].

Lemma demo_disk_bytes i : 0 ≤ demo_disk i < 256.
Proof.
  assert (H : ∀ l k, Forall (λ c, 0 ≤ c < 256) l → 0 ≤ default 0 (l !! k) < 256).
  { intros l k Hl. destruct (l !! k) eqn:E; cbn; [by eapply (Forall_lookup_1 _ _ _ _ Hl)|lia]. }
  unfold demo_disk. destruct (_ <? _); [lia|]. destruct (_ <? _); apply H; [|repeat constructor; done].
  vm_compute. repeat (apply Forall_cons; split; [split; [discriminate|reflexivity]|]). constructor.
Qed.

Lemma demo_layout : layout demo_disk (base_of demo_root) 2048 0 [(lit "A.TXT", record_entry demo_disk (base_of demo_root) 68 (lit "A.TXT"))].
Proof.
  apply layout_dot; [done|by vm_compute|by vm_compute|by left|]. change (0 + demo_disk _) with 34.
  apply layout_dot; [done|by vm_compute|by vm_compute|by right|]. change (34 + demo_disk _) with 68.
  apply layout_record; [done|by vm_compute| |by vm_compute; intros [? _]|by vm_compute|].
  - split; [by vm_compute|]. split; [vm_compute; repeat constructor; done|]. apply susp_end. right. vm_compute. by intros [? _].
  - change (68 + demo_disk _) with 108. apply layout_gap; [done|by vm_compute|]. apply layout_end. by vm_compute.
Qed.

Lemma iso_file_reads_witness :
  ∃ N f f' mem', open demo_iso_mounts [] (λ _ _, ENONE) N (cstr (lit "/A.TXT")) O_RD = Done (inr (AnINodeFile f)) ∧
    INodeFile.read 4096 8192 16384 100 f (replicate 100 0) = Done (5, f', mem') ∧ take 5 mem' = lit "hello".
Proof.
  assert (Hm : ∀ m dir, Some m ∈ demo_iso_mounts → mounted_at m dir → m = mk_mount (cstr (lit "/")) (pack _ demo_cb)).
  { intros m dir [[= ->]|[]%not_elem_of_nil]%elem_of_cons _. done. }
  assert (H0 : mounted_at (mk_mount (cstr (lit "/")) (pack _ demo_cb)) []).
  { split_and!; [constructor|done|done|by exists []]. }
  destruct (iso_file_reads demo_disk demo_dev (replicate 256 0) 4096 8192 demo_disk_bytes) with
    (mounts := demo_iso_mounts) (devices := @nil (option Device)) (open_char := λ _ _ : Z, ENONE) (m := mk_mount (cstr (lit "/")) (pack _ demo_cb))
    (root := demo_root) (d := dentry_at demo_disk (base_of demo_root + 68)) (s := lit "/A.TXT") (mode := O_RD) as [N HN]; try done.
  - exists 11. split; [lia|done].
  - intros m [[= ->]|[]%not_elem_of_nil]%elem_of_cons. by exists [].
  - repeat constructor; done.
  - apply elem_of_cons. by left.
  - intros m dir Hin Hd _. by apply (Hm m dir).
  - change (pieces (lit "/A.TXT")) with [lit "A.TXT"].
    eapply (path_file demo_disk demo_root demo_root _ 68 (lit "A.TXT")); [by split_and!; vm_compute|exact demo_layout|by vm_compute|done|by vm_compute|by vm_compute].
  - destruct (HN N ltac:(done)) as (f & Ho & Hr). destruct (Hr 4096 8192 16384 100 (replicate 100 0)) as (f' & mem' & He & _ & Ht & _);
      [lia|by vm_compute|by vm_compute|left; by vm_compute|]. exists N, f, f', mem'. split; [exact Ho|]. split; [exact He|]. etransitivity; [exact Ht|]. by vm_compute.
Defined.

End Iso9660.
