(* ===== verification/Elf.v ===== *)
(** * ELF images

    [kernel/elf.cpp] and [include/aex/elf.hpp]: the header, the program and section
    headers, the symbols and the relocations of an ELF image in memory.  The image is
    the list of its bytes; an access outside it is a [Fault]. *)
From S2P Require Import Prelude Str.
Local Open Scope Z_scope.

Module ELF.
Import Str.

(** ** Packed structures *)

(** The fields of a packed structure, little-endian, by their widths. *)
Fixpoint decode (ws : list nat) (bs : list Z) : list Z :=
  match ws with [] => [] | w :: ws => le_value (take w bs) :: decode ws (drop w bs) end.
Fixpoint encode (ws : list nat) (vs : list Z) : list Z :=
  match ws, vs with w :: ws, v :: vs => le_bytes (Z.of_nat w) v ++ encode ws vs | _, _ => [] end.

Definition sizeof (ws : list nat) : nat := list_sum ws.

(** [memcpy] of a structure out of the image. *)
Definition load (ws : list nat) (image : list Z) (off : Z) : outcome (list Z) :=
  bs ← get image off (Z.of_nat (sizeof ws)); Done (decode ws bs).

Definition BIT_32 : Z := 1.
Definition BIT_64 : Z := 2.
Definition EN_LITTLE : Z := 1.
Definition ISA_AMD64 : Z := 0x3E.
Definition PH_TLS : Z := 7.
Definition SC_RELOCA : Z := 4.
Definition SC_NO_DATA : Z := 8.
Definition SC_RELOC : Z := 9.
Definition SC_WRITE : Z := 1.
Definition SC_ALLOC : Z := 2.
Definition SC_EXECUTE : Z := 4.
Definition SB_LOCAL : Z := 0.
Definition SHN_ABS : Z := 0xFFF1.

(** [header]: the fields before the union, and the two members of the union. *)
Definition header_common : list nat := [4; 1; 1; 1; 1; 8; 2; 2; 4]%nat.
Definition header_union32 : list nat := [4; 4; 4; 4; 2; 2; 2; 2; 2; 2]%nat.
Definition header_union64 : list nat := [8; 8; 8; 4; 2; 2; 2; 2; 2; 2]%nat.

Record header := mk_header {
  bitness : Z; endianiness : Z; type : Z; instruction_set : Z;
  entry_position : Z; program_header_table_position : Z; section_header_table_position : Z;
  program_header_entry_count : Z; section_header_entry_count : Z; section_header_name_index : Z;
  entry_position32 : Z; section_header_table_position32 : Z; section_header_name_index32 : Z }.

Definition read_header (image : list Z) : outcome header :=
  c ← load header_common image 0;
  u64 ← load header_union64 image 24;
  u32 ← load header_union32 image 24;
  match c, u64, u32 with
  | [_; bits; endian; _; _; _; ty; isa; _], [entry; ph; sh; _; _; _; phnum; _; shnum; shstrndx], [entry32; _; sh32; _; _; _; _; _; _; shstrndx32] =>
      Done (mk_header bits endian ty isa entry ph sh phnum shnum shstrndx entry32 sh32 shstrndx32)
  | _, _, _ => Fault
  end.

Definition program_header64 : list nat := [4; 4; 8; 8; 8; 8; 8; 8]%nat.
Record program_header := mk_program {
  ph_type : Z; ph_flags : Z; ph_file_offset : Z; ph_address : Z; ph_file_size : Z; ph_memory_size : Z; ph_alignment : Z }.
Definition program_of (l : list Z) : outcome program_header :=
  match l with
  | [ty; fl; off; addr; _; fsz; msz; al] => Done (mk_program ty fl off addr fsz msz al)
  | _ => Fault
  end.

(** [section_header_agn]; [sc_name] is the memory its [name] points to. *)
Definition section_header64 : list nat := [4; 4; 4; 4; 8; 8; 8; 4; 4; 8; 8]%nat.
Definition section_header32 : list nat := [4; 4; 4; 4; 4; 4; 4; 4; 4; 4]%nat.
Record section_header := mk_section {
  sc_name : list Z; sc_type : Z; sc_flags : Z; sc_address : Z; sc_file_offset : Z; sc_size : Z; sc_link : Z; sc_info : Z;
  sc_alignment : Z; sc_member_size : Z }.
Definition section_of (names : list Z) (l : list Z) : outcome section_header :=
  match l with
  | [name_offset; ty; fl; _; addr; off; sz; link; info; al; mem] =>
      Done (mk_section (drop (Z.to_nat name_offset) names) ty fl addr off sz link info al mem)
  | _ => Fault
  end.

Definition symbol64 : list nat := [4; 1; 1; 2; 8; 8]%nat.
Record symbol := mk_symbol { st_name : list Z; section_index : Z; st_info : Z; st_other : Z; st_address : Z; st_size : Z }.

Definition relocation_addend64 : list nat := [8; 8; 8]%nat.
Record relocation := mk_relocation { r_addr : Z; arch_info : Z; addend : Z; target_section_id : Z; symbol_id : Z }.

(** ** The object *)

Record ELF := mk_elf {
  m_addr : list Z; m_header : header; section_names : list Z; entry : option Z;
  program_headers : list program_header; section_headers : list section_header;
  strings : option (list Z); symbols : list symbol; relocations : list relocation }.

(** [Vector::operator\[\]]: outside the vector it is the first element. *)
Definition vec {A} (l : list A) (i : Z) : outcome A :=
  if (i <? 0) || (i >=? Z.of_nat (length l)) then l.[0] else l.[i].

(** [count] structures of a table, one after the other. *)
Fixpoint load_table {A} (ws : list nat) (of_fields : list Z → outcome A) (image : list Z) (n : nat) (off : Z) : outcome (list A) :=
  match n with
  | O => Done []
  | S n =>
      fs ← load ws image off; a ← of_fields fs;
      l ← load_table ws of_fields image n (off + Z.of_nat (sizeof ws)); Done (a :: l)
  end.

(** [ELF(void* addr)]. *)
Definition create (image : list Z) : outcome ELF :=
  h ← read_header image;
  if negb (endianiness h =? EN_LITTLE) then Done (mk_elf image h [] None [] [] None [] [])
  else if bitness h =? BIT_32 then
    fs ← load section_header32 image (section_header_table_position32 h + section_header_name_index32 h * 40);
    off ← fs.[4]; sz ← fs.[5];
    names ← get image off sz;
    Done (mk_elf image h names (Some (entry_position32 h)) [] [] None [] [])
  else
    fs ← load section_header64 image (section_header_table_position h + section_header_name_index h * 64);
    off ← fs.[5]; sz ← fs.[6];
    names ← get image off sz;
    phs ← load_table program_header64 program_of image (Z.to_nat (program_header_entry_count h)) (program_header_table_position h);
    shs ← load_table section_header64 (section_of names) image (Z.to_nat (section_header_entry_count h)) (section_header_table_position h);
    Done (mk_elf image h names (Some (entry_position h)) phs shs None [] []).

Definition isValid (e : ELF) (desired_bitness desired_endianiness desired_isa : Z) : bool :=
  negb (negb (bitness (m_header e) =? desired_bitness) || negb (endianiness (m_header e) =? desired_endianiness) ||
        negb (instruction_set (m_header e) =? desired_isa)).

(** The first section of a name. *)
Fixpoint find_section (name : list Z) (i : Z) (l : list section_header) : outcome (option (Z * section_header)) :=
  match l with
  | [] => Done None
  | h :: l => r ← strcmp (sc_name h) name; if negb (r =? 0) then find_section name (i + 1) l else Done (Some (i, h))
  end.

Definition set_strings (s : list Z) (e : ELF) : ELF :=
  mk_elf (m_addr e) (m_header e) (section_names e) (entry e) (program_headers e) (section_headers e) (Some s) (symbols e) (relocations e).
Definition set_symbols (l : list symbol) (e : ELF) : ELF :=
  mk_elf (m_addr e) (m_header e) (section_names e) (entry e) (program_headers e) (section_headers e) (strings e) l (relocations e).
Definition set_relocations (l : list relocation) (e : ELF) : ELF :=
  mk_elf (m_addr e) (m_header e) (section_names e) (entry e) (program_headers e) (section_headers e) (strings e) (symbols e) l.

Definition loadStrings (e : ELF) : outcome ELF :=
  match strings e with
  | Some _ => Done e
  | None =>
      r ← find_section (cstr (lit ".strtab")) 0 (section_headers e);
      match r with
      | None => Done e
      | Some (_, h) => s ← get (m_addr e) (sc_file_offset h) (sc_size h); Done (set_strings s e)
      end
  end.

(** A symbol: one without a name of its own is named after its section. *)
Definition symbol_of (e : ELF) (l : list Z) : outcome symbol :=
  match l with
  | [name_offset; info; other; index; addr; sz] =>
      let nameless := h ← vec (section_headers e) index; Done (mk_symbol (sc_name h) index 0 0 0 0) in
      if name_offset =? 0 then nameless
      else
        match strings e with
        | None => Fault
        | Some s =>
            let name := drop (Z.to_nat name_offset) s in
            r ← strcmp name (cstr []);
            if r =? 0 then nameless else Done (mk_symbol name index info other addr sz)
        end
  | _ => Fault
  end.

(** [for (i = 0; i < size; i += sizeof)]. *)
Definition entries (size : Z) (ws : list nat) : nat := Z.to_nat ((size + Z.of_nat (sizeof ws) - 1) / Z.of_nat (sizeof ws)).

Definition loadSymbols64 (e : ELF) : outcome ELF :=
  r ← find_section (cstr (lit ".symtab")) 0 (section_headers e);
  match r with
  | None => Done e
  | Some (_, h) =>
      e ← loadStrings e;
      l ← load_table symbol64 (symbol_of e) (m_addr e) (entries (sc_size h) symbol64) (sc_file_offset h);
      Done (set_symbols (symbols e ++ l) e)
  end.
Definition loadSymbols (e : ELF) : outcome ELF := if bitness (m_header e) =? BIT_64 then loadSymbols64 e else Done e.

(** A relocation, or nothing when its symbol is 0. *)
Definition relocation_of (section : section_header) (symbol_table_id : Z) (l : list Z) : outcome (option relocation) :=
  match l with
  | [addr; info; add] =>
      let id := Z.shiftr info 32 in
      if id =? 0 then Done None
      else
        _ ← aex_assert (sc_link section =? symbol_table_id);
        Done (Some (mk_relocation addr info (i64 add) (sc_info section) id))
  | _ => Fault
  end.

Definition loadRelocationsFromSection64 (section : section_header) (e : ELF) : outcome ELF :=
  r ← find_section (cstr (lit ".symtab")) 0 (section_headers e);
  let id := match r with Some (i, _) => i | None => 0 end in
  l ← load_table relocation_addend64 (relocation_of section id) (m_addr e) (entries (sc_size section) relocation_addend64) (sc_file_offset section);
  Done (set_relocations (relocations e ++ omap (λ x, x) l) e).

Fixpoint relocation_sections (l : list section_header) (e : ELF) : outcome ELF :=
  match l with
  | [] => Done e
  | h :: l =>
      _ ← aex_assert (negb (sc_type h =? SC_RELOC));
      if negb (sc_type h =? SC_RELOCA) then relocation_sections l e
      else e ← loadRelocationsFromSection64 h e; relocation_sections l e
  end.
Definition loadRelocations64 (e : ELF) : outcome ELF := relocation_sections (section_headers e) e.
Definition loadRelocations (e : ELF) : outcome ELF := if bitness (m_header e) =? BIT_64 then loadRelocations64 e else Done e.

(** ** Reading what was written *)

(** The values fit the fields. *)
Definition fits (ws : list nat) (vs : list Z) : Prop := Forall2 (λ w v, 0 ≤ v < 2 ^ (8 * Z.of_nat w)) ws vs.

#[global] Instance fits_dec ws vs : Decision (fits ws vs).
Proof. unfold fits. apply _. Defined.

Lemma encode_length ws vs : fits ws vs → length (encode ws vs) = sizeof ws.
Proof.
  induction 1 as [|w v ws vs Hv _ IH]; [done|]. cbn [encode]. rewrite length_app, IH. pose proof (le_bytes_length (Z.of_nat w) v ltac:(lia)).
  change (sizeof (w :: ws)) with (w + sizeof ws)%nat. lia.
Qed.

Lemma decode_encode ws vs rest : fits ws vs → decode ws (encode ws vs ++ rest) = vs.
Proof.
  induction 1 as [|w v ws vs Hv _ IH]; [done|]. cbn [encode decode]. assert (Hl : length (le_bytes (Z.of_nat w) v) = w) by (pose proof (le_bytes_length (Z.of_nat w) v ltac:(lia)); lia).
  rewrite <-app_assoc, take_app_length' by done. rewrite drop_app_length' by done. rewrite le_value_bytes by lia. f_equal; [by apply wrap_small|done].
Qed.

(** [bs] is stored at [off]. *)
Definition holds (image : list Z) (off : Z) (bs : list Z) : Prop := get image off (Z.of_nat (length bs)) = Done bs.

Lemma load_holds ws vs image off : fits ws vs → holds image off (encode ws vs) → load ws image off = Done vs.
Proof.
  intros Hf Hh. unfold load. unfold holds in Hh. rewrite encode_length in Hh by done. rewrite Hh, bind_ret. f_equal.
  rewrite <-(app_nil_r (encode ws vs)). by apply decode_encode.
Qed.

(** The rows of a table that is stored at [off]. *)
Definition table_at (ws : list nat) (image : list Z) (off : Z) (rows : list (list Z)) : Prop :=
  ∀ i row, rows !! i = Some row → fits ws row ∧ holds image (off + Z.of_nat i * Z.of_nat (sizeof ws)) (encode ws row).

Lemma table_at_cons ws image off row rows :
  table_at ws image off (row :: rows) → (fits ws row ∧ holds image off (encode ws row)) ∧ table_at ws image (off + Z.of_nat (sizeof ws)) rows.
Proof.
  intros Ht. split; [specialize (Ht 0%nat row eq_refl); by rewrite Z.add_0_r in Ht|].
  intros i r Hr. specialize (Ht (S i) r Hr). by replace (off + Z.of_nat (sizeof ws) + Z.of_nat i * Z.of_nat (sizeof ws)) with (off + Z.of_nat (S i) * Z.of_nat (sizeof ws)) by lia.
Qed.

Lemma load_table_rows {A} ws (of_fields : list Z → outcome A) image off rows l :
  table_at ws image off rows → Forall2 (λ row a, of_fields row = Done a) rows l → load_table ws of_fields image (length rows) off = Done l.
Proof.
  intros Ht Hl. revert off Ht. induction Hl as [|row a rows l Ha _ IH]; intros off Ht; [done|]. apply table_at_cons in Ht as [[Hf Hh] Ht].
  cbn [length load_table]. by rewrite (load_holds ws row), bind_ret, Ha, bind_ret, (IH _ Ht).
Qed.

(** An image: the fields of the header, and the rows of the tables it points to. *)
Record layout := mk_layout {
  l_type : Z; l_isa : Z; l_entry : Z; l_phoff : Z; l_shoff : Z; l_shstrndx : Z;
  l_programs : list (list Z); l_sections : list (list Z); l_names : list Z }.

Definition header_rows (l : layout) : list Z * list Z :=
  ([0x464C457F; BIT_64; EN_LITTLE; 1; 0; 0; l_type l; l_isa l; 1],
   [l_entry l; l_phoff l; l_shoff l; 0; 64; 56; Z.of_nat (length (l_programs l)); 64; Z.of_nat (length (l_sections l)); l_shstrndx l]).

(** The image has this layout: the header at its start, the tables where the header
    says, the section names where the section of the names says. *)
Definition laid_out (image : list Z) (l : layout) : Prop :=
  fits header_common (header_rows l).1 ∧ fits header_union64 (header_rows l).2 ∧
  holds image 0 (encode header_common (header_rows l).1) ∧ holds image 24 (encode header_union64 (header_rows l).2) ∧
  table_at program_header64 image (l_phoff l) (l_programs l) ∧ table_at section_header64 image (l_shoff l) (l_sections l) ∧
  ∃ row off sz, l_sections l !! Z.to_nat (l_shstrndx l) = Some row ∧ row !! 5%nat = Some off ∧ row !! 6%nat = Some sz ∧
    sz = Z.of_nat (length (l_names l)) ∧ holds image off (l_names l).

Lemma fits_length ws vs : fits ws vs → length vs = length ws.
Proof. intros Hf. symmetry. by eapply Forall2_length. Qed.

(** The parts of a row. *)
Lemma rows_decoded {A} ws (f : list Z → outcome A) image off rows :
  (∀ row, fits ws row → ∃ a, f row = Done a) → table_at ws image off rows → ∃ l, Forall2 (λ row a, f row = Done a) rows l.
Proof.
  intros Hf. revert off. induction rows as [|row rows IH]; intros off Ht; [by exists []|]. apply table_at_cons in Ht as [[Hr _] Ht].
  destruct (Hf row Hr) as [a Ha], (IH _ Ht) as [l Hl]. exists (a :: l). by constructor.
Qed.

Lemma section_of_total names row : fits section_header64 row → ∃ s, section_of names row = Done s.
Proof. intros Hf%fits_length. do 11 (destruct row as [|? row]; [done|]). destruct row; [|done]. by eexists. Qed.
Lemma program_of_total row : fits program_header64 row → ∃ p, program_of row = Done p.
Proof. intros Hf%fits_length. do 8 (destruct row as [|? row]; [done|]). destruct row; [|done]. by eexists. Qed.

Lemma read_header_laid_out image l : laid_out image l → ∃ h, read_header image = Done h ∧
  bitness h = BIT_64 ∧ endianiness h = EN_LITTLE ∧ type h = l_type l ∧ instruction_set h = l_isa l ∧ entry_position h = l_entry l ∧
  program_header_table_position h = l_phoff l ∧ section_header_table_position h = l_shoff l ∧
  program_header_entry_count h = Z.of_nat (length (l_programs l)) ∧ section_header_entry_count h = Z.of_nat (length (l_sections l)) ∧
  section_header_name_index h = l_shstrndx l.
Proof.
  intros (Hf1 & Hf2 & H1 & H2 & _). unfold read_header. rewrite (load_holds _ _ _ _ Hf1 H1), bind_ret, (load_holds _ _ _ _ Hf2 H2), bind_ret.
  unfold load. unfold holds in H2. apply get_Done in H2 as (_ & _ & Hle & Hlen & _). rewrite encode_length in Hle by done. change (sizeof header_union64) with 40%nat in Hle.
  rewrite (get_eq image 24) by (cbn; lia). rewrite bind_ret. cbn [header_rows fst snd decode header_union32]. eexists. split; [reflexivity|]. done.
Qed.

(** The object of a well-formed image. *)
Lemma create_laid_out image l : laid_out image l → ∃ e, create image = Done e ∧
  m_addr e = image ∧ section_names e = l_names l ∧ entry e = Some (l_entry l) ∧ bitness (m_header e) = BIT_64 ∧
  isValid e BIT_64 EN_LITTLE (l_isa l) = true ∧ strings e = None ∧ symbols e = [] ∧ relocations e = [] ∧
  Forall2 (λ row p, program_of row = Done p) (l_programs l) (program_headers e) ∧
  Forall2 (λ row s, section_of (l_names l) row = Done s) (l_sections l) (section_headers e).
Proof.
  intros Hl. destruct (read_header_laid_out image l Hl) as (h & Hh & E1 & E2 & E3 & E4 & E5 & E6 & E7 & E8 & E9 & E10).
  destruct Hl as (_ & Hf2 & _ & _ & Hp & Hs & row & off & sz & Hrow & Ho & Hz & -> & Hn). destruct (Hs _ _ Hrow) as [Hfr Hhr].
  assert (Hidx : 0 ≤ l_shstrndx l) by (apply (Forall2_lookup_r _ _ _ 9%nat (l_shstrndx l)) in Hf2 as (w & _ & ?); [lia|done]).
  destruct (rows_decoded _ _ _ _ _ program_of_total Hp) as [phs Hphs]. destruct (rows_decoded _ _ _ _ _ (section_of_total (l_names l)) Hs) as [shs Hshs].
  unfold create. rewrite Hh, bind_ret, E1, E2, E5, E6, E7, E8, E9, E10. cbn [Z.eqb Pos.eqb negb EN_LITTLE BIT_64 BIT_32].
  rewrite Z2Nat.id in Hhr by done. change (Z.of_nat (sizeof section_header64)) with 64 in Hhr. rewrite (load_holds _ _ _ _ Hfr Hhr), bind_ret.
  rewrite (proj2 (rd_Done row 5 off)), bind_ret, (proj2 (rd_Done row 6 _)), bind_ret by (split; [lia|done]). unfold holds in Hn. rewrite Hn, bind_ret, !Nat2Z.id.
  rewrite (load_table_rows _ _ _ _ _ phs Hp Hphs), bind_ret, (load_table_rows _ _ _ _ _ shs Hs Hshs), bind_ret.
  eexists. split; [reflexivity|]. cbn [m_addr section_names entry m_header strings symbols relocations program_headers section_headers].
  unfold isValid. cbn [m_header]. rewrite E1, E2, E4, !Z.eqb_refl. by split_and!.
Qed.

Lemma rows_unique {A} (f : list Z → outcome A) rows l l' :
  Forall2 (λ row a, f row = Done a) rows l → Forall2 (λ row a, f row = Done a) rows l' → l = l'.
Proof.
  intros H. revert l'. induction H as [|row a rows l Ha _ IH]; intros l' H'; inversion H' as [|? a' ? l2 Ha' Hl']; subst; [done|].
  f_equal; [congruence|by apply IH].
Qed.

(** ** Names *)

(** The C string [t] is at the pointer [p]. *)
Definition named (t p : list Z) : Prop := text t ∧ ∃ rest, p = cstr t ++ rest.

Lemma strcmp_named a b p q : named a p → named b q → ∃ r, strcmp p q = Done r ∧ (r = 0 ↔ a = b).
Proof.
  intros [Ha [r1 ->]] [Hb [r2 ->]]. unfold cstr. rewrite <-!app_assoc. cbn [app]. by apply strcmp_text.
Qed.

Lemma cstr_named t : text t → named t (cstr t).
Proof. intros Ht. split; [done|]. exists []. by rewrite app_nil_r. Qed.

(** The search returns the first section of the name. *)
Lemma find_section_first t i l ns :
  text t → Forall2 (λ h n, named n (sc_name h)) l ns →
  find_section (cstr t) i l = Done (x ← list_find (λ n, n = t) ns; h ← l !! x.1; Some (i + Z.of_nat x.1, h)).
Proof.
  intros Ht Hl. revert i. induction Hl as [|h n l ns Hn _ IH]; intros i; [done|]. cbn [find_section list_find].
  destruct (strcmp_named n t _ _ Hn (cstr_named t Ht)) as (r & -> & Hr). rewrite bind_ret. destruct (decide (n = t)) as [->|Hne].
  - rewrite (proj2 Hr eq_refl). cbn. by rewrite Z.add_0_r.
  - destruct (Z.eqb_spec r 0) as [E|E]; [by apply Hr in E|]. cbn [negb]. rewrite IH. f_equal. cbn [mbind option_bind].
    destruct (list_find (λ n, n = t) ns) as [[j m]|]; [|done]. cbn. destruct (l !! j); [|done]. cbn. do 2 f_equal. lia.
Qed.

(** ** Symbols *)

(** What a row of the symbol table stands for: a symbol with a name in the string
    table, or one that is named after its section. *)
Definition stands_for (strs : list Z) (shs : list section_header) (row : list Z) (s : symbol) : Prop :=
  ∃ no info other idx addr sz, row = [no; info; other; idx; addr; sz] ∧
    ((no ≠ 0 ∧ (∃ t, t ≠ [] ∧ named t (drop (Z.to_nat no) strs)) ∧ s = mk_symbol (drop (Z.to_nat no) strs) idx info other addr sz) ∨
     (no = 0 ∧ ∃ h, 0 ≤ idx ∧ shs !! Z.to_nat idx = Some h ∧ s = mk_symbol (sc_name h) idx 0 0 0 0)).

Lemma stands_named t strs shs no info other idx addr sz :
  no ≠ 0 → t ≠ [] → named t (drop (Z.to_nat no) strs) → stands_for strs shs [no; info; other; idx; addr; sz] (mk_symbol (drop (Z.to_nat no) strs) idx info other addr sz).
Proof. intros. exists no, info, other, idx, addr, sz. split; [done|]. left. split_and!; [done|by exists t|done]. Qed.
Lemma stands_nameless strs shs info other idx addr sz h n :
  0 ≤ idx → shs !! Z.to_nat idx = Some h → n = sc_name h → stands_for strs shs [0; info; other; idx; addr; sz] (mk_symbol n idx 0 0 0 0).
Proof. intros ? ? ->. exists 0, info, other, idx, addr, sz. split; [done|]. right. split; [done|]. by exists h. Qed.

Lemma vec_lookup {A} (l : list A) i a : 0 ≤ i → l !! Z.to_nat i = Some a → vec l i = Done a.
Proof.
  intros Hi Hl. unfold vec. pose proof (lookup_lt_Some _ _ _ Hl). rewrite Z.geb_leb, (proj2 (Z.ltb_ge i 0)), (proj2 (Z.leb_gt _ _)) by lia. cbn [orb]. by apply rd_Done.
Qed.

Lemma symbol_of_row e strs row s : strings e = Some strs → stands_for strs (section_headers e) row s → symbol_of e row = Done s.
Proof.
  intros Hs (no & info & other & idx & addr & sz & -> & [(Hno & (t & Hne & Ht) & ->)|(-> & h & Hi & Hh & ->)]); cbn [symbol_of].
  - destruct (Z.eqb_spec no 0); [done|]. rewrite Hs. destruct (strcmp_named t [] _ _ Ht (cstr_named [] (Forall_nil_2 _))) as (r & -> & Hr). rewrite bind_ret.
    destruct (Z.eqb_spec r 0) as [E|E]; [by apply Hr in E|done].
  - cbn [Z.eqb]. by rewrite (vec_lookup _ _ _ Hi Hh).
Qed.

(** The section named [t] is the first of that name and has these contents. *)
Definition section_at (shs : list section_header) (ns : list (list Z)) (t : list Z) (h : section_header) : Prop :=
  ∃ i, list_find (λ n, n = t) ns = Some (i, t) ∧ shs !! i = Some h.

Lemma find_section_at t shs ns h :
  text t → Forall2 (λ h n, named n (sc_name h)) shs ns → section_at shs ns t h → ∃ i, find_section (cstr t) 0 shs = Done (Some (i, h)) ∧ shs !! Z.to_nat i = Some h ∧ 0 ≤ i.
Proof.
  intros Ht Hns (i & Hi & Hh). exists (Z.of_nat i). rewrite (find_section_first t 0 shs ns Ht Hns), Hi. cbn. rewrite Hh. cbn. rewrite Nat2Z.id. split_and!; [done|done|lia].
Qed.

Lemma entries_exact n ws : (0 < sizeof ws)%nat → entries (Z.of_nat n * Z.of_nat (sizeof ws)) ws = n.
Proof.
  intros Hw. unfold entries. replace (Z.of_nat n * Z.of_nat (sizeof ws) + Z.of_nat (sizeof ws) - 1) with (Z.of_nat (sizeof ws) - 1 + Z.of_nat n * Z.of_nat (sizeof ws)) by lia.
  rewrite Z.div_add, Z.div_small by lia. lia.
Qed.

Lemma lit_text s : forallb (λ c, (0 <? c) && (c <? 256)) (lit s) = true → text (lit s).
Proof. rewrite forallb_forall. intros Hb. apply Forall_forall. intros x Hx%list_elem_of_In. specialize (Hb x Hx). lia. Qed.

Lemma loadStrings_rows e ns strtab strs :
  strings e = None → Forall2 (λ h n, named n (sc_name h)) (section_headers e) ns → section_at (section_headers e) ns (lit ".strtab") strtab →
  sc_size strtab = Z.of_nat (length strs) → holds (m_addr e) (sc_file_offset strtab) strs → loadStrings e = Done (set_strings strs e).
Proof.
  intros Hs0 Hns Hstr Hsz Hh. unfold loadStrings. rewrite Hs0. destruct (find_section_at _ _ _ _ (lit_text ".strtab" eq_refl) Hns Hstr) as (j & -> & _).
  rewrite bind_ret, Hsz. unfold holds in Hh. by rewrite Hh.
Qed.

Lemma loadSymbols_rows e ns symtab strs rows l :
  bitness (m_header e) = BIT_64 → strings e = Some strs → Forall2 (λ h n, named n (sc_name h)) (section_headers e) ns →
  section_at (section_headers e) ns (lit ".symtab") symtab →
  sc_size symtab = Z.of_nat (length rows) * Z.of_nat (sizeof symbol64) → table_at symbol64 (m_addr e) (sc_file_offset symtab) rows →
  Forall2 (stands_for strs (section_headers e)) rows l →
  loadSymbols e = Done (set_symbols (symbols e ++ l) e).
Proof.
  intros Hb Hs0 Hns Hsym Hsz2 Ht Hl. unfold loadSymbols, loadSymbols64. rewrite Hb. cbn [Z.eqb Pos.eqb BIT_64].
  destruct (find_section_at _ _ _ _ (lit_text ".symtab" eq_refl) Hns Hsym) as (i & -> & _). rewrite bind_ret. unfold loadStrings. rewrite Hs0.
  rewrite bind_ret, Hsz2, entries_exact by (cbn; lia). rewrite (load_table_rows _ _ _ _ rows l Ht); [done|].
  eapply Forall2_impl; [exact Hl|]. intros row s Hrs. by eapply symbol_of_row.
Qed.

(** ** Relocations *)

(** The relocations of a section, from the rows of its table. *)
Definition relocs_of (h : section_header) (rows : list (list Z)) : list relocation :=
  omap (λ row, match row with
    | [addr; info; add] => if Z.shiftr info 32 =? 0 then None else Some (mk_relocation addr info (i64 add) (sc_info h) (Z.shiftr info 32))
    | _ => None
    end) rows.

Definition rela_at (image : list Z) (id : Z) (h : section_header) (rows : list (list Z)) : Prop :=
  sc_type h ≠ SC_RELOC ∧ (sc_type h ≠ SC_RELOCA → rows = []) ∧
  (sc_type h = SC_RELOCA → sc_link h = id ∧ sc_size h = Z.of_nat (length rows) * Z.of_nat (sizeof relocation_addend64) ∧
     table_at relocation_addend64 image (sc_file_offset h) rows).

Lemma loadRelocations_rows e ns symtab i tables :
  bitness (m_header e) = BIT_64 → Forall2 (λ h n, named n (sc_name h)) (section_headers e) ns →
  list_find (λ n, n = lit ".symtab") ns = Some (i, lit ".symtab") → section_headers e !! i = Some symtab →
  Forall2 (rela_at (m_addr e) (Z.of_nat i)) (section_headers e) tables →
  loadRelocations e = Done (set_relocations (relocations e ++ concat (zip_with relocs_of (section_headers e) tables)) e).
Proof.
  intros Hb Hns Hi Hsym. unfold loadRelocations, loadRelocations64. rewrite Hb. cbn [Z.eqb Pos.eqb BIT_64].
  assert (Hfind : find_section (cstr (lit ".symtab")) 0 (section_headers e) = Done (Some (Z.of_nat i, symtab))).
  { rewrite (find_section_first _ 0 _ ns (lit_text ".symtab" eq_refl) Hns), Hi. cbn. by rewrite Hsym. }
  assert (Hrun : ∀ l tables rs, Forall2 (rela_at (m_addr e) (Z.of_nat i)) l tables →
    relocation_sections l (set_relocations rs e) = Done (set_relocations (rs ++ concat (zip_with relocs_of l tables)) e)).
  { intros l tbs rs Hl. revert rs. induction Hl as [|h rows l tbs (Hne & Hno & Hyes) _ IH]; intros rs; cbn [relocation_sections zip_with concat]; [by rewrite app_nil_r|].
    rewrite aex_assert_true by (by apply negb_true_iff, Z.eqb_neq). rewrite bind_ret. destruct (Z.eqb_spec (sc_type h) SC_RELOCA) as [Et|Et]; cbn [negb].
    - destruct (Hyes Et) as (Hlink & Hsz & Htab). unfold loadRelocationsFromSection64. change (section_headers (set_relocations rs e)) with (section_headers e).
      rewrite Hfind, bind_ret. cbv zeta. rewrite Hsz, entries_exact by (cbn; lia). change (m_addr (set_relocations rs e)) with (m_addr e).
      assert (Hrows : ∃ os, Forall2 (λ row o, relocation_of h (Z.of_nat i) row = Done o) rows os ∧ omap (λ x, x) os = relocs_of h rows).
      { clear Hsz IH Hno Hyes. revert Htab. generalize (sc_file_offset h). induction rows as [|row rows IH]; intros off Htab; [by exists []|].
        apply table_at_cons in Htab as [[Hf _] Htab]. destruct (IH _ Htab) as (os & Hos & Ho). apply fits_length in Hf.
        destruct row as [|a [|b [|c [|]]]]; try done. unfold relocs_of. cbn [omap list_omap]. fold (relocs_of h rows).
        destruct (Z.shiftr b 32 =? 0) eqn:E0.
        - exists (None :: os). split; [constructor; [cbn; by rewrite E0|done]|done].
        - eexists (Some _ :: os). split; [constructor; [cbn; rewrite E0; rewrite aex_assert_true by (by apply Z.eqb_eq); by rewrite bind_ret|done]|]. cbn. by rewrite Ho. }
      destruct Hrows as (os & Hos & Ho). rewrite (load_table_rows _ _ _ _ rows os Htab Hos), !bind_ret, Ho. cbn [set_relocations relocations].
      change (set_relocations (rs ++ relocs_of h rows) (set_relocations rs e)) with (set_relocations (rs ++ relocs_of h rows) e). rewrite IH. by rewrite app_assoc.
    - rewrite (Hno Et). cbn [relocs_of omap list_omap app]. apply IH. }
  intros Ht. rewrite <-(Hrun _ _ _ Ht). f_equal. by destruct e.
Qed.

(** ** The whole image *)

(** The three steps of a client. *)
Definition read_image (image : list Z) : outcome ELF :=
  e ← create image; e ← loadStrings e; e ← loadSymbols e; loadRelocations e.

(** What the sections of an image hold: the string table, the symbol table and the
    relocation tables. *)
Record contents (image : list Z) (shs : list section_header) (strs : list Z) (syms : list symbol) (tables : list (list (list Z))) : Prop := mk_contents {
  c_names : list (list Z); c_symtab : nat; c_rows : list (list Z);
  c_named : Forall2 (λ h n, named n (sc_name h)) shs c_names;
  c_strtab : ∃ h, section_at shs c_names (lit ".strtab") h ∧ sc_size h = Z.of_nat (length strs) ∧ holds image (sc_file_offset h) strs;
  c_symbols : ∃ h, list_find (λ n, n = lit ".symtab") c_names = Some (c_symtab, lit ".symtab") ∧ shs !! c_symtab = Some h ∧
    sc_size h = Z.of_nat (length c_rows) * Z.of_nat (sizeof symbol64) ∧ table_at symbol64 image (sc_file_offset h) c_rows;
  c_stands : Forall2 (stands_for strs shs) c_rows syms;
  c_relocs : Forall2 (rela_at image (Z.of_nat c_symtab)) shs tables }.

Lemma read_image_laid_out image l shs strs syms tables :
  laid_out image l → Forall2 (λ row s, section_of (l_names l) row = Done s) (l_sections l) shs → contents image shs strs syms tables →
  ∃ e, read_image image = Done e ∧ isValid e BIT_64 EN_LITTLE (l_isa l) = true ∧ entry e = Some (l_entry l) ∧
    Forall2 (λ row p, program_of row = Done p) (l_programs l) (program_headers e) ∧ section_headers e = shs ∧
    strings e = Some strs ∧ symbols e = syms ∧ relocations e = concat (zip_with relocs_of shs tables).
Proof.
  intros Hl Hshs [ns i rows Hns (hstr & Hstr & Hsz & Hh) (hsym & Hi & Hsym & Hsz2 & Ht) Hst Hrel].
  destruct (create_laid_out image l Hl) as (e & He & Ha & _ & Hentry & Hb & Hv & Hs0 & Hy0 & Hr0 & Hp & Hs).
  assert (section_headers e = shs) as <- by (eapply rows_unique; [exact Hs|exact Hshs]). rewrite <-Ha in Hh, Ht, Hrel.
  unfold read_image. rewrite He, bind_ret, (loadStrings_rows e ns hstr strs) by done. rewrite bind_ret.
  set (e1 := set_strings strs e). rewrite (loadSymbols_rows e1 ns hsym strs rows syms) by (done || by exists i). rewrite bind_ret.
  set (e2 := set_symbols (symbols e1 ++ syms) e1). rewrite (loadRelocations_rows e2 ns hsym i tables) by done.
  eexists. split; [reflexivity|]. cbn. rewrite Hy0, Hr0. by split_and!.
Qed.

(** ** The format *)

(** A field of [w] bytes at the offset [o] of a structure at [off], with the value [v]. *)
Definition field (image : list Z) (off : Z) (f : Z * Z * Z) : Prop := let '(o, w, v) := f in 0 ≤ v < 2 ^ (8 * w) ∧ holds image (off + o) (le_bytes w v).
Definition stored (image : list Z) (off : Z) (fs : list (Z * Z * Z)) : Prop := Forall (field image off) fs.
(** Structures of [size] bytes, one after the other. *)
Definition stored_table {A} (size : Z) (fs : A → list (Z * Z * Z)) (image : list Z) (off : Z) (l : list A) : Prop :=
  ∀ i a, l !! i = Some a → stored image (off + Z.of_nat i * size) (fs a).

(** What an image describes: a section with the offset of its name. *)
Record description := mk_description {
  d_type : Z; d_isa : Z; d_entry : Z; d_phoff : Z; d_shoff : Z; d_shstrndx : Z;
  d_programs : list program_header; d_sections : list (Z * section_header); d_names : list Z }.

(** The structures of the format, field by field: offset, width and value. *)
Definition header_fields (d : description) : list (Z * Z * Z) :=
  [(0, 4, 0x464C457F); (4, 1, 2); (5, 1, 1); (6, 1, 1); (7, 1, 0); (8, 8, 0); (16, 2, d_type d); (18, 2, d_isa d); (20, 4, 1);
   (24, 8, d_entry d); (32, 8, d_phoff d); (40, 8, d_shoff d); (48, 4, 0); (52, 2, 64); (54, 2, 56); (56, 2, Z.of_nat (length (d_programs d)));
   (58, 2, 64); (60, 2, Z.of_nat (length (d_sections d))); (62, 2, d_shstrndx d)].
Definition program_fields (p : program_header) : list (Z * Z * Z) :=
  [(0, 4, ph_type p); (4, 4, ph_flags p); (8, 8, ph_file_offset p); (16, 8, ph_address p); (32, 8, ph_file_size p); (40, 8, ph_memory_size p); (48, 8, ph_alignment p)].
Definition section_fields (x : Z * section_header) : list (Z * Z * Z) :=
  [(0, 4, x.1); (4, 4, sc_type x.2); (8, 4, sc_flags x.2); (16, 8, sc_address x.2); (24, 8, sc_file_offset x.2); (32, 8, sc_size x.2); (40, 4, sc_link x.2);
   (44, 4, sc_info x.2); (48, 8, sc_alignment x.2); (56, 8, sc_member_size x.2)].
Definition symbol_fields (row : list Z) : list (Z * Z * Z) :=
  match row with [no; info; other; idx; addr; sz] => [(0, 4, no); (4, 1, info); (5, 1, other); (6, 2, idx); (8, 8, addr); (16, 8, sz)] | _ => [] end.
Definition relocation_fields (row : list Z) : list (Z * Z * Z) :=
  match row with [addr; info; add] => [(0, 8, addr); (8, 8, info); (16, 8, add)] | _ => [] end.

Definition image_has (image : list Z) (d : description) : Prop :=
  bytes image ∧ stored image 0 (header_fields d) ∧ stored_table 56 program_fields image (d_phoff d) (d_programs d) ∧
  stored_table 64 section_fields image (d_shoff d) (d_sections d) ∧ Forall (λ x, sc_name x.2 = drop (Z.to_nat x.1) (d_names d)) (d_sections d) ∧
  ∃ x, d_sections d !! Z.to_nat (d_shstrndx d) = Some x ∧ sc_size x.2 = Z.of_nat (length (d_names d)) ∧ holds image (sc_file_offset x.2) (d_names d).

(** The tables that the sections hold. *)
Definition relocations_stored (image : list Z) (id : Z) (h : section_header) (rows : list (list Z)) : Prop :=
  sc_type h ≠ 9 ∧ (sc_type h ≠ 4 → rows = []) ∧
  (sc_type h = 4 → sc_link h = id ∧ sc_size h = Z.of_nat (length rows) * 24 ∧ Forall (λ row, length row = 3%nat) rows ∧
     stored_table 24 relocation_fields image (sc_file_offset h) rows).
Record tables_stored (image : list Z) (shs : list section_header) (strs : list Z) (syms : list symbol) (tables : list (list (list Z))) : Prop := mk_tables_stored {
  t_names : list (list Z); t_symtab : nat; t_rows : list (list Z);
  t_named : Forall2 (λ h n, named n (sc_name h)) shs t_names;
  t_strtab : ∃ h, section_at shs t_names (lit ".strtab") h ∧ sc_size h = Z.of_nat (length strs) ∧ holds image (sc_file_offset h) strs;
  t_symbols : ∃ h, list_find (λ n, n = lit ".symtab") t_names = Some (t_symtab, lit ".symtab") ∧ shs !! t_symtab = Some h ∧
    sc_size h = Z.of_nat (length t_rows) * 24 ∧ stored_table 24 symbol_fields image (sc_file_offset h) t_rows;
  t_stands : Forall2 (stands_for strs shs) t_rows syms;
  t_relocs : Forall2 (relocations_stored image (Z.of_nat t_symtab)) shs tables }.

(** The relocations of a table, for the section that the section of the table names; one
    whose symbol is 0 is left out. *)
Definition linked (h : section_header) (rows : list (list Z)) : list relocation :=
  rows ≫= λ row, match row with
    | [addr; info; add] => if decide (info < 2 ^ 32) then [] else [mk_relocation addr info (if decide (add < 2 ^ 63) then add else add - 2 ^ 64) (sc_info h) (info / 2 ^ 32)]
    | _ => []
    end.

(** *** From the fields to the rows *)

Lemma holds_app image off a b : holds image off a → holds image (off + Z.of_nat (length a)) b → holds image off (a ++ b).
Proof.
  unfold holds. intros (Ha1 & Ha2 & Ha3 & _ & Ha)%get_Done (Hb1 & Hb2 & Hb3 & _ & Hb)%get_Done. apply get_Done. rewrite !length_app. split_and!; [lia|lia|lia|lia|].
  intros i Hi. destruct (decide (i < length a)%nat) as [Hl|Hl]; [rewrite lookup_app_l by done; by apply Ha|]. rewrite lookup_app_r by lia. rewrite Hb by lia. f_equal. lia.
Qed.

Fixpoint all_fields (ws : list nat) (vs : list Z) (o : Z) : list (Z * Z * Z) :=
  match ws, vs with w :: ws, v :: vs => (o, Z.of_nat w, v) :: all_fields ws vs (o + Z.of_nat w) | _, _ => [] end.

Lemma stored_encode ws vs image off o : length ws = length vs → 0 ≤ off + o ≤ Z.of_nat (length image) → stored image off (all_fields ws vs o) →
  fits ws vs ∧ holds image (off + o) (encode ws vs).
Proof.
  revert vs o. induction ws as [|w ws IH]; intros [|v vs] o Hl Ho Hs; try done.
  - split; [constructor|]. unfold holds. cbn [encode length]. by rewrite get_eq by lia.
  - apply Forall_cons in Hs as [[Hv Hh] Hs']. assert (Hlen : Z.of_nat (length (le_bytes (Z.of_nat w) v)) = Z.of_nat w) by (apply le_bytes_length; lia).
    pose proof Hh as (_ & _ & Hr & _)%get_Done. rewrite Hlen in Hr. destruct (IH vs (o + Z.of_nat w)) as [Hf Hh2]; [by injection Hl|lia|done|].
    split; [by constructor|]. cbn [encode]. apply holds_app; [done|]. rewrite Hlen. by replace (off + o + Z.of_nat w) with (off + (o + Z.of_nat w)) by lia.
Qed.

(** A field of which nothing is said. *)
Lemma some_field image off o w : bytes image → 0 ≤ w → 0 ≤ off + o → off + o + w ≤ Z.of_nat (length image) → ∃ v, field image off (o, w, v).
Proof.
  intros Hb Hw H0 H1. set (bs := take (Z.to_nat w) (drop (Z.to_nat (off + o)) image)). assert (Hl : Z.of_nat (length bs) = w) by (unfold bs; rewrite length_take, length_drop; lia).
  assert (Hbs : bytes bs) by (by apply Forall_take, Forall_drop). exists (le_value bs). split; [rewrite <-Hl; by apply le_value_bound|]. rewrite <-Hl, le_bytes_value by done.
  unfold holds. rewrite Hl. apply get_eq; lia.
Qed.

Lemma stored_range image off o w v fs : (o, w, v) ∈ fs → 0 ≤ w → stored image off fs → 0 ≤ off + o ∧ off + o + w ≤ Z.of_nat (length image).
Proof. intros Hin Hw Hs. apply (proj1 (Forall_forall _ _) Hs) in Hin as [_ (H1 & _ & H2 & _)%get_Done]. rewrite le_bytes_length in H2 by done. lia. Qed.

Lemma program_row image off p : bytes image → stored image off (program_fields p) →
  ∃ row, fits program_header64 row ∧ holds image off (encode program_header64 row) ∧ program_of row = Done p.
Proof.
  intros Hb Hs. pose proof (stored_range image off 0 4 _ _ ltac:(left) ltac:(lia) Hs) as R0. pose proof (stored_range image off 32 8 (ph_file_size p) _ ltac:(do 4 right; left) ltac:(lia) Hs) as R1.
  destruct (some_field image off 24 8 Hb) as [pa Hpa]; [lia..|]. exists [ph_type p; ph_flags p; ph_file_offset p; ph_address p; pa; ph_file_size p; ph_memory_size p; ph_alignment p].
  destruct (stored_encode program_header64 [ph_type p; ph_flags p; ph_file_offset p; ph_address p; pa; ph_file_size p; ph_memory_size p; ph_alignment p] image off 0) as [Hf Hh]; [done|lia| |].
  - do 4 (inversion Hs as [|? ? ? Hs']; subst; constructor; [done|]; clear Hs; rename Hs' into Hs). constructor; [done|exact Hs].
  - rewrite Z.add_0_r in Hh. by destruct p.
Qed.
Lemma section_row image off names x : bytes image → stored image off (section_fields x) → sc_name x.2 = drop (Z.to_nat x.1) names →
  ∃ row, fits section_header64 row ∧ holds image off (encode section_header64 row) ∧ section_of names row = Done x.2 ∧ row !! 5%nat = Some (sc_file_offset x.2) ∧ row !! 6%nat = Some (sc_size x.2).
Proof.
  destruct x as [no s]. cbn [fst snd]. intros Hb Hs Hn. pose proof (stored_range image off 0 4 _ _ ltac:(left) ltac:(lia) Hs) as R0. pose proof (stored_range image off 16 8 (sc_address s) _ ltac:(do 3 right; left) ltac:(lia) Hs) as R1.
  destruct (some_field image off 12 4 Hb) as [pa Hpa]; [lia..|]. set (row := [no; sc_type s; sc_flags s; pa; sc_address s; sc_file_offset s; sc_size s; sc_link s; sc_info s; sc_alignment s; sc_member_size s]). exists row.
  destruct (stored_encode section_header64 row image off 0) as [Hf Hh]; [done|lia| |].
  - do 3 (inversion Hs as [|? ? ? Hs']; subst; constructor; [done|]; clear Hs; rename Hs' into Hs). constructor; [done|exact Hs].
  - rewrite Z.add_0_r in Hh. split_and!; [done|done| |done|done]. cbn. rewrite <-Hn. by destruct s.
Qed.

Lemma table_rows {A} (size : Z) fs ws (P : list Z → A → Prop) image off (l : list A) :
  size = Z.of_nat (sizeof ws) → (∀ off a, a ∈ l → stored image off (fs a) → ∃ row, fits ws row ∧ holds image off (encode ws row) ∧ P row a) →
  stored_table size fs image off l → ∃ rows, table_at ws image off rows ∧ Forall2 P rows l.
Proof.
  intros ->. revert off. induction l as [|a l IH]; intros off Hrow Ht; [exists []; split; [by intros i row Hi|constructor]|].
  destruct (Hrow off a) as (row & Hf & Hh & Hp); [left|specialize (Ht 0%nat a eq_refl); by rewrite Z.add_0_r in Ht|].
  destruct (IH (off + Z.of_nat (sizeof ws))) as (rows & Hrows & Hl); [intros o b Hb; apply Hrow; by right|intros i b Hb; specialize (Ht (S i) b Hb)|].
  { by replace (off + Z.of_nat (sizeof ws) + Z.of_nat i * Z.of_nat (sizeof ws)) with (off + Z.of_nat (S i) * Z.of_nat (sizeof ws)) by lia. }
  exists (row :: rows). split; [|by constructor]. intros [|i] r Hr; [injection Hr as <-; by rewrite Z.add_0_r|]. specialize (Hrows i r Hr).
  by replace (off + Z.of_nat (S i) * Z.of_nat (sizeof ws)) with (off + Z.of_nat (sizeof ws) + Z.of_nat i * Z.of_nat (sizeof ws)) by lia.
Qed.
Lemma symbol_row strs shs image off row s : stands_for strs shs row s → stored image off (symbol_fields row) → fits symbol64 row ∧ holds image off (encode symbol64 row).
Proof.
  intros (no & info & other & idx & addr & sz & -> & _) Hs. pose proof (stored_range image off 0 4 _ _ ltac:(left) ltac:(lia) Hs) as R0.
  rewrite <-(Z.add_0_r off). by apply stored_encode; [|lia|].
Qed.
Lemma relocation_row image off row : length row = 3%nat → stored image off (relocation_fields row) →
  fits relocation_addend64 row ∧ holds image off (encode relocation_addend64 row).
Proof.
  intros Hl Hs. destruct row as [|a [|b [|c [|]]]]; try done. pose proof (stored_range image off 0 8 _ _ ltac:(left) ltac:(lia) Hs) as R0.
  rewrite <-(Z.add_0_r off). by apply stored_encode; [|lia|].
Qed.

Lemma relocs_linked image off h rows : Forall (λ row, length row = 3%nat) rows → stored_table 24 relocation_fields image off rows → relocs_of h rows = linked h rows.
Proof.
  intros Hl. revert off. induction Hl as [|row rows Hrow _ IH]; intros off Ht; [done|]. unfold linked. cbn [mbind list_bind]. fold (linked h rows).
  rewrite <-(IH (off + 24)) by (intros i r Hr; specialize (Ht (S i) r Hr); by replace (off + 24 + Z.of_nat i * 24) with (off + Z.of_nat (S i) * 24) by lia).
  specialize (Ht 0%nat row eq_refl). destruct row as [|a [|b [|c [|]]]]; try done. apply Forall_cons in Ht as [_ Ht]. apply Forall_cons in Ht as [[Hb _] Ht]. apply Forall_cons in Ht as [[Hc _] _].
  unfold relocs_of. cbn [omap list_omap]. rewrite !Z.shiftr_div_pow2 by lia. destruct (decide (b < 2 ^ 32)) as [Hlt|Hge].
  - rewrite (Z.div_small b) by lia. done.
  - destruct (Z.eqb_spec (b / 2 ^ 32) 0) as [E|E]; [apply Z.div_small_iff in E; lia|]. cbn [app]. do 2 f_equal. destruct (decide (c < 2 ^ 63)); [by apply swrap_small; lia|].
    unfold swrap. replace (c + 2 ^ (64 - 1)) with (c - 2 ^ 63 + 1 * 2 ^ 64) by lia. rewrite Z.mod_add, Z.mod_small by lia. lia.
Qed.

Lemma described_layout image d : image_has image d → ∃ l, laid_out image l ∧ l_isa l = d_isa d ∧ l_entry l = d_entry d ∧
  Forall2 (λ row p, program_of row = Done p) (l_programs l) (d_programs d) ∧ Forall2 (λ row s, section_of (l_names l) row = Done s) (l_sections l) (snd <$> d_sections d).
Proof.
  intros (Hb & Hh & Hp & Hs & Hn & x & Hx & Hsz & Hnames). rewrite Forall_forall in Hn.
  destruct (table_rows 56 program_fields program_header64 (λ row p, program_of row = Done p) image (d_phoff d) (d_programs d)) as (prows & Hpt & Hpl); [done|intros off p _; by apply program_row|done|].
  destruct (table_rows 64 section_fields section_header64 (λ row x, section_of (d_names d) row = Done x.2 ∧ row !! 5%nat = Some (sc_file_offset x.2) ∧ row !! 6%nat = Some (sc_size x.2)) image (d_shoff d) (d_sections d)) as (srows & Hst & Hsl);
    [done|intros off y Hy Hyf; apply section_row; [done|done|by apply Hn]|done|].
  exists (mk_layout (d_type d) (d_isa d) (d_entry d) (d_phoff d) (d_shoff d) (d_shstrndx d) prows srows (d_names d)). unfold laid_out. cbn [l_isa l_entry l_programs l_sections l_names l_phoff l_shoff l_shstrndx header_rows fst snd l_type].
  rewrite (Forall2_length _ _ _ Hpl), (Forall2_length _ _ _ Hsl).
  assert (Hlen : 64 ≤ Z.of_nat (length image)) by (destruct (stored_range image 0 62 2 (d_shstrndx d) _ ltac:(do 18 right; left) ltac:(lia) Hh); lia).
  set (l1 := [1179403647; BIT_64; EN_LITTLE; 1; 0; 0; d_type d; d_isa d; 1]). set (l2 := [d_entry d; d_phoff d; d_shoff d; 0; 64; 56; _; 64; _; d_shstrndx d]).
  assert (Hsplit : header_fields d = all_fields header_common l1 0 ++ all_fields header_union64 l2 24) by done. unfold stored in Hh. rewrite Hsplit in Hh. apply Forall_app in Hh as [Hh1 Hh2].
  destruct (stored_encode header_common l1 image 0 0) as [Hf1 He1]; [done|lia|done|]. destruct (stored_encode header_union64 l2 image 0 24) as [Hf2 He2]; [done|lia|done|].
  split_and!; try done.
  - destruct (Forall2_lookup_r _ _ _ _ _ Hsl Hx) as (row & Hrow & _ & H5 & H6). exists row, (sc_file_offset x.2), (sc_size x.2). by split_and!.
  - apply Forall2_fmap_r. eapply Forall2_impl; [exact Hsl|]. by intros row y [? _].
Qed.

Lemma tables_contents image shs strs syms tables : tables_stored image shs strs syms tables → contents image shs strs syms tables ∧ zip_with relocs_of shs tables = zip_with linked shs tables.
Proof.
  intros [ns i rows Hns Hstr (h & Hf & Hh & Hsz & Ht) Hst Hrel]. split.
  - apply (mk_contents _ _ _ _ _ ns i rows); [done|done| |done|].
    + exists h. split_and!; [done|done|done|]. intros j row Hj. destruct (Forall2_lookup_l _ _ _ _ _ Hst Hj) as (s & _ & Hs). by eapply symbol_row, Ht.
    + eapply Forall2_impl; [exact Hrel|]. intros h0 rs (H1 & H2 & H3). split_and!; [done|done|]. intros E. destruct (H3 E) as (K1 & K2 & K3 & K4). split_and!; [done|done|].
      intros j row Hj. apply relocation_row; [by apply (Forall_lookup_1 _ _ _ _ K3 Hj)|by apply K4].
  - clear -Hrel. induction Hrel as [|h rs shs tbs (H1 & H2 & H3) _ IH]; [done|]. cbn [zip_with]. f_equal; [|exact IH]. destruct (decide (sc_type h = 4)) as [E|E].
    + destruct (H3 E) as (_ & _ & K3 & K4). by eapply relocs_linked.
    + by rewrite (H2 E).
Qed.

(** C26 (roundtrip): for an image that stores, at the offsets and in the widths of the
    ELF64 format, a header, program headers, section headers, symbols and relocations
    with addends, the reader returns the same program headers, sections, strings and
    symbols, and the relocations that have a symbol, each in their order. *)
Theorem elf_roundtrip image d strs syms tables :
  image_has image d → tables_stored image (snd <$> d_sections d) strs syms tables →
  ∃ e, read_image image = Done e ∧ isValid e BIT_64 EN_LITTLE (d_isa d) = true ∧ entry e = Some (d_entry d) ∧
    program_headers e = d_programs d ∧ section_headers e = snd <$> d_sections d ∧
    strings e = Some strs ∧ symbols e = syms ∧ relocations e = concat (zip_with linked (snd <$> d_sections d) tables).
Proof.
  intros Hd Ht. destruct (described_layout image d Hd) as (l & Hl & <- & <- & Hp & Hs). destruct (tables_contents _ _ _ _ _ Ht) as [Hc <-].
  destruct (read_image_laid_out image l (snd <$> d_sections d) strs syms tables Hl Hs Hc) as (e & He & Hv & Hen & Hpe & Hrest).
  exists e. split_and!; [done|done|done| |by apply Hrest..]. symmetry. by eapply rows_unique.
Qed.

(** A module image: code, a pointer to the name of the module, the name, relocations
    for the pointer and for a call, and the tables. *)
Definition demo_names : list Z :=
  cstr (lit "") ++ cstr (lit ".text") ++ cstr (lit ".data") ++ cstr (lit ".rodata") ++ cstr (lit ".rela.data") ++ cstr (lit ".rela.text") ++
  cstr (lit ".symtab") ++ cstr (lit ".strtab") ++ cstr (lit ".shstrtab").
Definition demo_strings : list Z :=
  cstr (lit "") ++ cstr (lit "_Z12module_enterv") ++ cstr (lit "_Z11module_exitv") ++ cstr (lit "MODULE_NAME") ++ cstr (lit "f") ++ cstr (lit "printk").
Definition demo_symbols : list (list Z) :=
  [[0; 0; 0; 0; 0; 0]; [0; 3; 0; 3; 0; 0]; [1; 18; 0; 1; 0; 4]; [19; 18; 0; 1; 8; 4]; [36; 17; 0; 2; 0; 8]; [48; 18; 0; 1; 4; 4]; [50; 16; 0; 0; 0; 0]].
Definition demo_sections : list (list Z) :=
  [[0; 0; 0; 0; 0; 0; 0; 0; 0; 0; 0];
   [1; 1; 6; 0; 0; 64; 16; 0; 0; 16; 0];
   [7; 1; 3; 0; 0; 80; 8; 0; 0; 8; 0];
   [13; 1; 2; 0; 0; 88; 5; 0; 0; 1; 0];
   [21; 4; 64; 0; 0; 93; 24; 6; 2; 8; 24];
   [32; 4; 64; 0; 0; 117; 24; 6; 1; 8; 24];
   [43; 2; 0; 0; 0; 141; 168; 7; 5; 8; 24];
   [51; 3; 0; 0; 0; 309; 57; 0; 0; 1; 0];
   [59; 3; 0; 0; 0; 366; 69; 0; 0; 1; 0]].
Definition demo_tables : list (list (list Z)) := [[]; []; []; []; [[0; 0x100000001; 0]]; [[9; 0x600000002; 2 ^ 64 - 4]]; []; []; []].
Definition demo_layout : layout := mk_layout 1 ISA_AMD64 0 0 435 8 [] demo_sections demo_names.
Definition demo_image : list Z :=
  encode header_common (header_rows demo_layout).1 ++ encode header_union64 (header_rows demo_layout).2 ++ replicate 16 0x90 ++ replicate 8 0 ++ cstr (lit "demo") ++
  encode relocation_addend64 [0; 0x100000001; 0] ++ encode relocation_addend64 [9; 0x600000002; 2 ^ 64 - 4] ++
  concat (encode symbol64 <$> demo_symbols) ++ demo_strings ++ demo_names ++ concat (encode section_header64 <$> demo_sections).

Example demo_parts : (length demo_image, length demo_strings, length demo_names) = (1011, 57, 69)%nat.
Proof. vm_compute. reflexivity. Qed.
Definition demo_headers : list section_header :=
  omap (λ row, match section_of demo_names row with Done h => Some h | _ => None end) demo_sections.
Definition demo_name (off : nat) : list Z := drop off demo_strings.
Definition demo_syms : list symbol :=
  [mk_symbol demo_names 0 0 0 0 0; mk_symbol (drop 13 demo_names) 3 0 0 0 0; mk_symbol (demo_name 1) 1 18 0 0 4; mk_symbol (demo_name 19) 1 18 0 8 4;
   mk_symbol (demo_name 36) 2 17 0 0 8; mk_symbol (demo_name 48) 1 18 0 4 4; mk_symbol (demo_name 50) 0 16 0 0 0].
Definition demo_section_names : list (list Z) :=
  [lit ""; lit ".text"; lit ".data"; lit ".rodata"; lit ".rela.data"; lit ".rela.text"; lit ".symtab"; lit ".strtab"; lit ".shstrtab"].

Lemma table_at_nil ws image off : table_at ws image off [].
Proof. by intros i row Hi. Qed.
Lemma table_at_cons_2 ws image off row rows :
  fits ws row → holds image off (encode ws row) → table_at ws image (off + Z.of_nat (sizeof ws)) rows → table_at ws image off (row :: rows).
Proof.
  intros Hf Hh Ht [|i] r Hr; [injection Hr as <-; by rewrite Z.add_0_r|]. specialize (Ht i r Hr).
  by replace (off + Z.of_nat (S i) * Z.of_nat (sizeof ws)) with (off + Z.of_nat (sizeof ws) + Z.of_nat i * Z.of_nat (sizeof ws)) by lia.
Qed.

(** Closed instances of the predicates. *)
Ltac fits_tac := apply (bool_decide_unpack _); vm_compute; exact I.
Ltac rows_tac := repeat (apply table_at_cons_2; [fits_tac|vm_compute; reflexivity|]); apply table_at_nil.
Ltac named_tac := split; [apply lit_text; reflexivity|eexists; vm_compute; reflexivity].

Lemma demo_laid_out : laid_out demo_image demo_layout.
Proof.
  split_and!; [fits_tac|fits_tac|vm_compute; reflexivity|vm_compute; reflexivity|apply table_at_nil|rows_tac|].
  do 3 eexists. split_and!; [vm_compute; reflexivity|reflexivity|reflexivity|reflexivity|vm_compute; reflexivity].
Qed.

Lemma demo_stands : Forall2 (stands_for demo_strings demo_headers) demo_symbols demo_syms.
Proof.
  constructor; [eapply stands_nameless; [lia|reflexivity|reflexivity]|]. constructor; [eapply stands_nameless; [lia|reflexivity|reflexivity]|].
  constructor; [apply (stands_named (lit "_Z12module_enterv")); [done|done|named_tac]|].
  constructor; [apply (stands_named (lit "_Z11module_exitv")); [done|done|named_tac]|].
  constructor; [apply (stands_named (lit "MODULE_NAME")); [done|done|named_tac]|].
  constructor; [apply (stands_named (lit "f")); [done|done|named_tac]|].
  constructor; [apply (stands_named (lit "printk")); [done|done|named_tac]|]. constructor.
Qed.

Lemma demo_contents : contents demo_image demo_headers demo_strings demo_syms demo_tables.
Proof.
  apply (mk_contents _ _ _ _ _ demo_section_names 6 demo_symbols).
  - unfold demo_headers, demo_sections, demo_section_names. cbn [omap list_omap section_of].
    repeat (constructor; [named_tac|]). constructor.
  - eexists. split_and!; [exists 7%nat; split; [reflexivity|vm_compute; reflexivity]|reflexivity|vm_compute; reflexivity].
  - eexists. split_and!; [reflexivity|vm_compute; reflexivity|reflexivity|]. change (sc_file_offset _) with 141. rows_tac.
  - exact demo_stands.
  - repeat (constructor; [split_and!; [done|done|intros ?; first [done|split_and!; [reflexivity|reflexivity|rows_tac]]]|]). constructor.
Qed.

(** The same image with a program header at its end. *)
Definition demo_program : program_header := mk_program 1 5 64 0x400000 16 32 4096.
Definition demo_description : description :=
  mk_description 1 ISA_AMD64 0 1011 435 8 [demo_program] (zip [0; 1; 7; 13; 21; 32; 43; 51; 59] demo_headers) demo_names.
Definition demo_executable : list Z :=
  encode header_common [0x464C457F; 2; 1; 1; 0; 0; 1; ISA_AMD64; 1] ++ encode header_union64 [0; 1011; 435; 0; 64; 56; 1; 64; 9; 8] ++ drop 64 demo_image ++
  encode program_header64 [1; 5; 64; 0x400000; 0x1234; 16; 32; 4096].

#[global] Instance outcome_dec {A} `{!EqDecision A} : EqDecision (outcome A).
Proof. solve_decision. Defined.
#[global] Instance field_dec image off f : Decision (field image off f).
Proof. destruct f as [[o w] v]. unfold field, holds. apply _. Defined.
Lemma stored_table_all {A} size (fs : A → list (Z * Z * Z)) image off l :
  forallb (λ x, bool_decide (stored image (off + Z.of_nat x.1 * size) (fs x.2))) (zip (seq 0 (length l)) l) = true → stored_table size fs image off l.
Proof.
  rewrite forallb_forall. intros Hb i a Ha. assert (Hin : (i, a) ∈ zip (seq 0 (length l)) l).
  { apply list_elem_of_lookup. exists i. apply lookup_zip_Some. split; [|done]. apply lookup_seq. split; [done|by eapply lookup_lt_Some]. }
  apply list_elem_of_In, Hb, bool_decide_eq_true_1 in Hin. exact Hin.
Qed.

Lemma demo_has : image_has demo_executable demo_description.
Proof.
  split_and!; [apply (bool_decide_unpack _); vm_compute; exact I|apply (bool_decide_unpack _); vm_compute; exact I|apply stored_table_all; vm_compute; reflexivity|apply stored_table_all; vm_compute; reflexivity| |].
  - repeat (constructor; [vm_compute; reflexivity|]). constructor.
  - eexists. split_and!; [vm_compute; reflexivity|vm_compute; reflexivity|vm_compute; reflexivity].
Qed.
Lemma demo_stored : tables_stored demo_executable demo_headers demo_strings demo_syms demo_tables.
Proof.
  apply (mk_tables_stored _ _ _ _ _ demo_section_names 6 demo_symbols).
  - unfold demo_headers, demo_sections, demo_section_names. cbn [omap list_omap section_of].
    repeat (constructor; [named_tac|]). constructor.
  - eexists. split_and!; [exists 7%nat; split; [reflexivity|vm_compute; reflexivity]|reflexivity|vm_compute; reflexivity].
  - eexists. split_and!; [reflexivity|vm_compute; reflexivity|reflexivity|]. apply stored_table_all. vm_compute. reflexivity.
  - exact demo_stands.
  - repeat (constructor; [split_and!; [done|done|intros ?; first [done|split_and!; [reflexivity|reflexivity|by repeat constructor|apply stored_table_all; vm_compute; reflexivity]]]|]). constructor.
Qed.

Lemma elf_roundtrip_witness :
  ∃ e, read_image demo_executable = Done e ∧ isValid e BIT_64 EN_LITTLE ISA_AMD64 = true ∧ program_headers e = [demo_program] ∧ symbols e = demo_syms ∧
    relocations e = [mk_relocation 0 0x100000001 0 2 1; mk_relocation 9 0x600000002 (-4) 1 6].
Proof.
  destruct (elf_roundtrip demo_executable demo_description demo_strings demo_syms demo_tables) as (e & He & Hv & _ & Hp & _ & _ & Hs & Hr).
  - exact demo_has.
  - exact demo_stored.
  - exists e. rewrite Hr. split_and!; [exact He|exact Hv|exact Hp|exact Hs|vm_compute; reflexivity].
Defined.

End ELF.
