(* ===== verification/Modules.v ===== *)
(** * Kernel modules

    [kernel/module/relocator.cpp], [kernel/module/loader.cpp], [kernel/module.cpp] and
    the symbol tables of [kernel/debug.cpp]: modules are copied into memory, linked
    against their own symbols, the kernel and the other modules, and registered.
    Memory is a map from addresses to bytes; the pages of the sections come from a
    parameter that stands for [Pagemap::alloc]. *)
From stdpp Require Import sorting.
From S2P Require Import Prelude Errno Str Path Elf.
Local Open Scope Z_scope.

Module Modules.
Import Str Path ELF.

(** ** Memory *)

Abbreviation memory := (gmap Z Z).

Fixpoint store (a : Z) (bs : list Z) (m : memory) : outcome memory :=
  match bs with
  | [] => Done m
  | b :: bs => match m !! a with Some _ => store (a + 1) bs (<[a := b]> m) | None => Fault end
  end.
Fixpoint fetch (a : Z) (n : nat) (m : memory) : outcome (list Z) :=
  match n with
  | O => Done []
  | S n => match m !! a with Some b => bs ← fetch (a + 1) n m; Done (b :: bs) | None => Fault end
  end.

(** The C string at [a]; the bytes are at different addresses, so it ends within the
    size of the memory. *)
Fixpoint fetch_cstr (fuel : nat) (a : Z) (m : memory) : outcome (list Z) :=
  match fuel with
  | O => Fault
  | S fuel =>
      match m !! a with
      | Some b => if b =? 0 then Done [] else bs ← fetch_cstr fuel (a + 1) m; Done (b :: bs)
      | None => Fault
      end
  end.

(** ** Objects *)

Record module_symbol := mk_msym { ms_name : list Z; ms_addr : Z }.
Record module_section := mk_msec { s_addr : Z; s_size : Z }.

(** A module; [m_id] is its address, [m_name] the characters of its name. *)
Record Module_ := mk_module {
  m_id : Z; m_name : list Z; m_enter : Z; m_exit : Z;
  m_sections : list module_section; m_symbols : list module_symbol; references : list Z; referencedBy : list Z }.

Record kernel := mk_kernel {
  modules : list Module_; kernel_symbols : list module_symbol; global_symbols : list module_symbol; mem : memory; next_id : Z;
  symbols_loaded : bool }.

Definition name_len (m : Module_) : Z := Z.of_nat (length (m_name m)).

Definition set_references (r : list Z) (m : Module_) : Module_ :=
  mk_module (m_id m) (m_name m) (m_enter m) (m_exit m) (m_sections m) (m_symbols m) r (referencedBy m).
Definition set_referencedBy (r : list Z) (m : Module_) : Module_ :=
  mk_module (m_id m) (m_name m) (m_enter m) (m_exit m) (m_sections m) (m_symbols m) (references m) r.

Definition addReferencedBy (referencer : Z) (m : Module_) : Module_ :=
  if bool_decide (referencer ∈ referencedBy m) then m else set_referencedBy (referencedBy m ++ [referencer]) m.
Definition addReference (reference : Z) (m : Module_) : Module_ :=
  if bool_decide (reference ∈ references m) then m else set_references (references m ++ [reference]) m.
(** The loop returns at the first entry that is another module. *)
Definition removeReferencedBy (referencer : Z) (m : Module_) : Module_ :=
  match referencedBy m with
  | r :: l => if r =? referencer then set_referencedBy l m else m
  | [] => m
  end.

(** ** Symbols of the kernel and of modules *)

Fixpoint find_name (name : list Z) (l : list module_symbol) : outcome (option module_symbol) :=
  match l with
  | [] => Done None
  | s :: l => r ← strcmp (ms_name s) name; if r =? 0 then Done (Some s) else find_name name l
  end.

(** [Debug::name2addr]. *)
Definition name2addr (k : kernel) (name : list Z) : outcome Z :=
  if (length (kernel_symbols k) =? 0)%nat then Done 0
  else s ← find_name name (kernel_symbols k); Done (match s with Some s => ms_addr s | None => 0 end).

(** The symbols of a module without their prefix. *)
Definition clean (m : Module_) : list module_symbol :=
  (λ s, mk_msym (drop (Z.to_nat (1 + name_len m)) (ms_name s)) (ms_addr s)) <$> m_symbols m.

Fixpoint module_name2addr_raw (l : list Module_) (name : list Z) : outcome (option (Z * Z)) :=
  match l with
  | [] => Done None
  | m :: l =>
      s ← find_name name (clean m);
      match s with Some s => Done (Some (ms_addr s, m_id m)) | None => module_name2addr_raw l name end
  end.

(** The closest symbol at or below [addr], less than 0x2000 bytes away. *)
Fixpoint closest (addr delta : Z) (best : option module_symbol) (l : list module_symbol) : Z * option module_symbol :=
  match l with
  | [] => (delta, best)
  | s :: l =>
      if addr <? ms_addr s then closest addr delta best l
      else
        let new_delta := addr - ms_addr s in
        if (new_delta >=? delta) || (new_delta >=? 0x2000) then closest addr delta best l
        else closest addr new_delta (Some s) l
  end.
Definition module_addr2name (k : kernel) (addr : Z) : Z * option module_symbol :=
  closest addr 0x63756e74 None (concat (m_symbols <$> modules k)).
Definition addr2name (k : kernel) (addr : Z) (only_kernel : bool) : option (option module_symbol * Z) :=
  if (length (kernel_symbols k) =? 0)%nat then None
  else
    let kernel_match := let '(d, s) := closest addr 0x63756e74 None (kernel_symbols k) in (s, i32 d) in
    if only_kernel then Some kernel_match
    else match module_addr2name k addr with
         | (d, Some s) => Some (Some s, i32 d)
         | (_, None) => Some kernel_match
         end.

(** [register_dynamic_symbol] keeps the pointer of its caller. *)
Fixpoint set_symbol (name : list Z) (addr : Z) (l : list module_symbol) : outcome (list module_symbol) :=
  match l with
  | [] => Done [mk_msym name addr]
  | s :: l =>
      r ← strcmp name (ms_name s);
      if r =? 0 then Done (mk_msym (ms_name s) addr :: l) else l ← set_symbol name addr l; Done (s :: l)
  end.
Definition register_dynamic_symbol (name : list Z) (addr : Z) (k : kernel) : outcome kernel :=
  l ← set_symbol name addr (global_symbols k);
  Done (mk_kernel (modules k) (kernel_symbols k) l (mem k) (next_id k) (symbols_loaded k)).
Fixpoint get_symbol (name : list Z) (l : list module_symbol) : outcome Z :=
  match l with
  | [] => Done 0
  | s :: l => r ← strcmp name (ms_name s); if r =? 0 then Done (ms_addr s) else get_symbol name l
  end.
Definition get_dynamic_symbol (name : list Z) (k : kernel) : outcome Z := get_symbol name (global_symbols k).

(** [Debug::load_symbols]: the symbols of the kernel image that have an address. *)
Definition load_symbols (image : list Z) (k : kernel) : outcome kernel :=
  e ← create image;
  _ ← aex_assert (isValid e BIT_64 EN_LITTLE ISA_AMD64);
  e ← loadStrings e;
  e ← loadSymbols e;
  let l := (λ s, mk_msym (st_name s) (st_address s)) <$> filter (λ s, st_address s ≠ 0) (symbols e) in
  Done (mk_kernel (modules k) (kernel_symbols k ++ l) (global_symbols k) (mem k) (next_id k) true).

(** ** The relocator *)

Definition R_AMD64_64 : Z := 1.
Definition R_AMD64_PC32 : Z := 2.
Definition R_AMD64_PLT32 : Z := 4.
Definition R_AMD64_32S : Z := 11.

(** The address of the first section with the name of the symbol. *)
Fixpoint section_named (name : list Z) (i : Z) (shs : list section_header) (sections : list module_section) : outcome Z :=
  match shs with
  | [] => Done 0
  | h :: shs =>
      r ← strcmp name (sc_name h);
      if negb (r =? 0) then section_named name (i + 1) shs sections else s ← sections.[i]; Done (s_addr s)
  end.

(** The address of the first symbol of the module with the name that belongs to a
    section. *)
Fixpoint symbol_named (name : list Z) (l : list symbol) (sections : list module_section) : outcome Z :=
  match l with
  | [] => Done 0
  | b :: l =>
      if section_index b =? 0 then symbol_named name l sections
      else
        r ← strcmp name (st_name b);
        if negb (r =? 0) then symbol_named name l sections
        else s ← sections.[section_index b]; Done (u64 (s_addr s + st_address b))
  end.

(** The address of a symbol, and the other module it was found in. *)
Definition resolve (k : kernel) (e : ELF) (sections : list module_section) (s : symbol) : outcome (Z * option Z) :=
  SA ← section_named (st_name s) 0 (section_headers e) sections;
  if negb (SA =? 0) then Done (SA, None)
  else
    SA ← symbol_named (st_name s) (symbols e) sections;
    if negb (SA =? 0) then Done (SA, None)
    else if Z.shiftr (st_info s) 4 =? SB_LOCAL then Done (0, None)
    else
      SA ← name2addr k (st_name s);
      if negb (SA =? 0) then Done (SA, None)
      else
        r ← module_name2addr_raw (modules k) (st_name s);
        match r with Some (SA, id) => Done (SA, if SA =? 0 then None else Some id) | None => Done (0, None) end.

(** What a relocation stores at [P]. *)
Definition relocation_value (ty SA P A : Z) : outcome (list Z) :=
  if ty =? R_AMD64_64 then Done (le_bytes 8 (u64 (SA + A)))
  else if (ty =? R_AMD64_PC32) || (ty =? R_AMD64_PLT32) then Done (le_bytes 4 (u32 (SA - P + A)))
  else if ty =? R_AMD64_32S then Done (le_bytes 4 (u32 (SA + A)))
  else Panic "module: Unknown relocation type encountered".

Definition add_edge (module other : Z) (l : list Module_) : list Module_ :=
  (λ m, if m_id m =? other then addReferencedBy module m else m) <$> l.

(** The loop over the relocations: whether all symbols were found, the kernel and the
    module. *)
Fixpoint relocate_loop (e : ELF) (sections : list module_section) (rs : list relocation) (success : bool) (m : Module_) (k : kernel)
    : outcome (bool * Module_ * kernel) :=
  match rs with
  | [] => Done (success, m, k)
  | r :: rs =>
      s ← vec (symbols e) (i32 (symbol_id r));
      '(SA, other) ← resolve k e sections s;
      if SA =? 0 then relocate_loop e sections rs false m k
      else
        let '(m, ms) := match other with
          | Some id => (addReference id m, add_edge (m_id m) id (modules k))
          | None => (m, modules k)
          end in
        t ← sections.[target_section_id r];
        let P := u64 (s_addr t + r_addr r) in
        bs ← relocation_value (u32 (arch_info r)) SA P (addend r);
        mm ← store P bs (mem k);
        relocate_loop e sections rs success m (mk_kernel ms (kernel_symbols k) (global_symbols k) mm (next_id k) (symbols_loaded k))
  end.
Definition relocate (e : ELF) (sections : list module_section) (m : Module_) (k : kernel) : outcome (bool * Module_ * kernel) :=
  relocate_loop e sections (relocations e) true m k.

(** ** The loader *)

(** The last symbols of the three names the loader needs. *)
Fixpoint find_special (l : list symbol) (found : option symbol * option symbol * option symbol)
    : outcome (option symbol * option symbol * option symbol) :=
  match l with
  | [] => Done found
  | s :: l =>
      let '(enter, exit, name) := found in
      r ← strcmp (st_name s) (cstr (lit "_Z12module_enterv"));
      if r =? 0 then find_special l (Some s, exit, name)
      else
        r ← strcmp (st_name s) (cstr (lit "_Z11module_exitv"));
        if r =? 0 then find_special l (enter, Some s, name)
        else
          r ← strcmp (st_name s) (cstr (lit "MODULE_NAME"));
          if r =? 0 then find_special l (enter, exit, Some s) else find_special l found
  end.

Section Loader.
(** [Pagemap::alloc]: the address of [size] fresh bytes, which are zero. *)
Context (alloc : Z → memory → Z).

Fixpoint zeroed (a : Z) (n : nat) (m : memory) : memory :=
  match n with O => m | S n => zeroed (a + 1) n (<[a := 0]> m) end.

(** The sections with [SC_ALLOC] are copied; the others have no address. *)
Fixpoint load_sections (image : list Z) (shs : list section_header) (m : memory) : outcome (list module_section * memory) :=
  match shs with
  | [] => Done ([], m)
  | h :: shs =>
      if (Z.land (sc_flags h) SC_ALLOC =? 0) || (sc_size h =? 0) then
        '(l, m) ← load_sections image shs m; Done (mk_msec 0 0 :: l, m)
      else
        let ptr := alloc (sc_size h) m in
        let m := zeroed ptr (Z.to_nat (sc_size h)) m in
        m ← (if negb (sc_type h =? SC_NO_DATA) then bs ← get image (sc_file_offset h) (sc_size h); store ptr bs m else Done m);
        '(l, m) ← load_sections image shs m;
        Done (mk_msec ptr (sc_size h) :: l, m)
  end.

(** The symbols of the module: first those whose names do not start with a dot. *)
Definition dotted (s : symbol) : outcome bool := c ← deref (st_name s); Done (c =? 46).
Fixpoint plain_symbols (sections : list module_section) (l : list symbol) : outcome (list module_symbol) :=
  match l with
  | [] => Done []
  | s :: l =>
      d ← dotted s;
      if d : bool then plain_symbols sections l
      else
        a ← (if section_index s =? SHN_ABS then Done (st_address s)
             else t ← sections.[section_index s]; Done (u64 (s_addr t + st_address s)));
        r ← plain_symbols sections l; Done (mk_msym (st_name s) a :: r)
  end.
Fixpoint dotted_symbols (sections : list module_section) (l : list symbol) : outcome (list module_symbol) :=
  match l with
  | [] => Done []
  | s :: l =>
      d ← dotted s;
      if d : bool then
        t ← sections.[section_index s];
        r ← dotted_symbols sections l; Done (mk_msym (st_name s) (u64 (s_addr t + st_address s)) :: r)
      else dotted_symbols sections l
  end.

(** [name:symbol]. *)
Fixpoint qualify (name : list Z) (l : list module_symbol) : outcome (list module_symbol) :=
  match l with
  | [] => Done []
  | s :: l => t ← text_of (ms_name s); r ← qualify name l; Done (mk_msym (cstr (name ++ 58 :: t)) (ms_addr s) :: r)
  end.

(** [delete module]: the modules it refers to forget it. *)
Definition drop_module (m : Module_) (l : list Module_) : list Module_ :=
  (λ o, if bool_decide (m_id o ∈ references m) then removeReferencedBy (m_id m) o else o) <$> l.

Fixpoint already_loaded (name : list Z) (l : list Module_) : outcome bool :=
  match l with
  | [] => Done false
  | m :: l => r ← strcmp (cstr name) (cstr (m_name m)); if r =? 0 then Done true else already_loaded name l
  end.

Definition no_symbol : symbol := mk_symbol [] 0 0 0 0 0.

Definition address_of (sections : list module_section) (s : symbol) : outcome Z :=
  t ← sections.[section_index s]; Done (u64 (s_addr t + st_address s)).

(** [load_module]: the error, the kernel, and the function that is run. *)
Definition load_module (image : list Z) (k : kernel) : outcome (error_t * kernel * option Z) :=
  _ ← aex_assert (symbols_loaded k);
  e ← create image;
  if negb (isValid e BIT_64 EN_LITTLE ISA_AMD64) then Done (ENOEXEC, k, None)
  else
    e ← loadStrings e;
    e ← loadSymbols e;
    '(enter, exit, name) ← find_special (symbols e) (None, None, None);
    let '(enter, exit, name) := (default no_symbol enter, default no_symbol exit, default no_symbol name) in
    if (section_index enter =? 0) || (section_index exit =? 0) || (section_index name =? 0) then Done (ENOEXEC, k, None)
    else
      '(sections, mm) ← load_sections (m_addr e) (section_headers e) (mem k);
      l1 ← plain_symbols sections (symbols e);
      l2 ← dotted_symbols sections (symbols e);
      e ← loadRelocations e;
      let m := mk_module (next_id k) [] 0 0 (filter (λ s, s_size s ≠ 0) sections) (l1 ++ l2) [] [] in
      let k := mk_kernel (modules k) (kernel_symbols k) (global_symbols k) mm (next_id k + 1) (symbols_loaded k) in
      '(ok, m, k) ← relocate e sections m k;
      let dropped := mk_kernel (drop_module m (modules k)) (kernel_symbols k) (global_symbols k) (mem k) (next_id k) (symbols_loaded k) in
      if negb ok then Done (ENOSYS, dropped, None)
      else
        a ← address_of sections name;
        p ← fetch a 8 (mem k);
        nm ← fetch_cstr (S (base.size (mem k))) (le_value p) (mem k);
        en ← address_of sections enter;
        ex ← address_of sections exit;
        dup ← already_loaded nm (modules k);
        if dup : bool then Done (ENONE, dropped, None)
        else
          syms ← qualify nm (m_symbols m);
          let m := mk_module (m_id m) nm en ex (m_sections m) syms (references m) (referencedBy m) in
          Done (ENONE, mk_kernel (modules k ++ [m]) (kernel_symbols k) (global_symbols k) (mem k) (next_id k) (symbols_loaded k), Some en).

End Loader.

(** ** The order of the core modules *)

(** [get_order]: the number between the first and the second dot of a file name. *)
Fixpoint after_dot (name : list Z) : outcome (option (list Z)) :=
  match name with
  | [] => Fault
  | c :: name' => if c =? 0 then Done None else if c =? 46 then Done (Some name') else after_dot name'
  end.
Fixpoint number_part (pos : nat) (name : list Z) : outcome (list Z) :=
  match name with
  | [] => Fault
  | c :: name' =>
      if (c =? 0) || (c =? 46) || (pos =? 15)%nat then Done []
      else r ← number_part (S pos) name'; Done (c :: r)
  end.
Definition get_order (name : list Z) : outcome Z :=
  r ← after_dot name;
  match r with
  | None => Done 999999
  | Some p => ds ← number_part 0 p; stoi 32 10 (ds ++ replicate (16 - length ds) 0)
  end.

Record module_entry := mk_entry { e_name : list Z; e_order : Z }.

(** One pass of the inner loop, from the element [a] it compares next, and the passes. *)
Fixpoint bubble_from (a : module_entry) (l : list module_entry) : list module_entry :=
  match l with
  | [] => [a]
  | b :: l => if e_order a <=? e_order b then a :: bubble_from b l else b :: bubble_from a l
  end.
Definition bubble (l : list module_entry) : list module_entry := match l with a :: l => bubble_from a l | [] => [] end.
Definition sort_entries (l : list module_entry) : list module_entry := Nat.iter (length l - 1) bubble l.

(** The directory is a list of names and whether each is a regular file; [load] is
    [load_module] of a path.  The loader goes on after a module that fails; the
    names are short enough for the path to fit. *)
Fixpoint core_entries (ds : list (list Z * bool)) : outcome (list module_entry) :=
  match ds with
  | [] => Done []
  | (name, regular) :: ds =>
      if negb regular then core_entries ds
      else
        buffer ← strncpy (replicate (Z.to_nat MAX_FILENAME_LEN) 0) name MAX_FILENAME_LEN;
        order ← get_order name;
        l ← core_entries ds; Done (mk_entry buffer order :: l)
  end.
Fixpoint load_entries (load : list Z → kernel → outcome (error_t * kernel)) (l : list module_entry) (k : kernel) : outcome kernel :=
  match l with
  | [] => Done k
  | e :: l =>
      name ← canonize_path (e_name e) (cstr (lit "/sys/mod/core/")) (replicate (Z.to_nat MAX_PATH_LEN) 0) MAX_PATH_LEN;
      match name with
      | Some path => '(_, k) ← load path k; load_entries load l k
      | None => Fault
      end
  end.
Definition load_core_modules (load : list Z → kernel → outcome (error_t * kernel)) (dir : option (list (list Z * bool))) (k : kernel) : outcome kernel :=
  match dir with
  | None => Done k
  | Some ds => l ← core_entries ds; load_entries load (sort_entries l) k
  end.

(** ** Memory lemmas *)

Lemma store_spec a bs m :
  (∀ x, a ≤ x < a + Z.of_nat (length bs) → is_Some (m !! x)) →
  ∃ m', store a bs m = Done m' ∧ ∀ x, m' !! x = if decide (a ≤ x < a + Z.of_nat (length bs)) then bs !! Z.to_nat (x - a) else m !! x.
Proof.
  revert a m. induction bs as [|b bs IH]; intros a m Hm; cbn [store length].
  { exists m. split; [done|]. intros x. by rewrite decide_False by lia. }
  cbn [length] in Hm. destruct (Hm a ltac:(lia)) as [c ->].
  destruct (IH (a + 1) (<[a := b]> m)) as (m' & -> & Hl).
  { intros x Hx. rewrite lookup_insert_ne by lia. apply Hm. lia. }
  exists m'. split; [done|]. intros x. rewrite Hl. destruct (decide (x = a)) as [->|Hne].
  - rewrite decide_False, decide_True, lookup_insert_eq by lia. by rewrite Z.sub_diag.
  - rewrite lookup_insert_ne by done. destruct (decide (a + 1 ≤ x < a + 1 + Z.of_nat (length bs))).
    + rewrite decide_True by lia. replace (Z.to_nat (x - a)) with (S (Z.to_nat (x - (a + 1)))) by lia. done.
    + by rewrite decide_False by lia.
Qed.

Lemma fetch_spec a bs m : (∀ i b, bs !! i = Some b → m !! (a + Z.of_nat i) = Some b) → fetch a (length bs) m = Done bs.
Proof.
  revert a. induction bs as [|b bs IH]; intros a Hm; [done|]. cbn [length fetch]. specialize (Hm 0%nat b eq_refl) as H0. rewrite Z.add_0_r in H0. rewrite H0, IH; [done|].
  intros i c Hi. replace (a + 1 + Z.of_nat i) with (a + Z.of_nat (S i)) by lia. by apply Hm.
Qed.

(** ** Linking *)

(** A patch: the bytes [p.2] go to the address [p.1]. *)
Definition covers (p : Z * list Z) (x : Z) : Prop := p.1 ≤ x < p.1 + Z.of_nat (length p.2).

(** The relocation [r] stands for the patch [p]: its symbol has the address [SA], and
    the value depends on the type of the relocation. *)
Definition patch_of (k : kernel) (e : ELF) (sections : list module_section) (r : relocation) (p : Z * list Z) : Prop :=
  ∃ s SA other t, vec (symbols e) (i32 (symbol_id r)) = Done s ∧ resolve k e sections s = Done (SA, other) ∧ SA ≠ 0 ∧
    sections.[target_section_id r] = Done t ∧ p.1 = u64 (s_addr t + r_addr r) ∧ relocation_value (u32 (arch_info r)) SA p.1 (addend r) = Done p.2.

(** Kernels with the same symbols. *)
Definition same_symbols (k k' : kernel) : Prop :=
  kernel_symbols k' = kernel_symbols k ∧ Forall2 (λ m m', m_id m' = m_id m ∧ m_name m' = m_name m ∧ m_symbols m' = m_symbols m) (modules k) (modules k').

Lemma name2addr_raw_same l l' name :
  Forall2 (λ m m', m_id m' = m_id m ∧ m_name m' = m_name m ∧ m_symbols m' = m_symbols m) l l' → module_name2addr_raw l' name = module_name2addr_raw l name.
Proof.
  induction 1 as [|m m' l l' (E1 & E2 & E3) _ IH]; [done|]. cbn [module_name2addr_raw]. unfold clean, name_len. by rewrite E1, E2, E3, IH.
Qed.

Lemma resolve_same k k' e sections s : same_symbols k k' → resolve k' e sections s = resolve k e sections s.
Proof. intros [E1 E2]. unfold resolve, name2addr. by rewrite E1, (name2addr_raw_same _ _ _ E2). Qed.

Lemma add_edge_same a b l : Forall2 (λ m m', m_id m' = m_id m ∧ m_name m' = m_name m ∧ m_symbols m' = m_symbols m) l (add_edge a b l).
Proof.
  unfold add_edge. induction l as [|m l IH]; [constructor|]. constructor; [|done]. destruct (m_id m =? b); [|done].
  unfold addReferencedBy. by destruct (bool_decide _).
Qed.

Lemma same_trans l1 l2 l3 :
  Forall2 (λ m m', m_id m' = m_id m ∧ m_name m' = m_name m ∧ m_symbols m' = m_symbols m) l1 l2 →
  Forall2 (λ m m', m_id m' = m_id m ∧ m_name m' = m_name m ∧ m_symbols m' = m_symbols m) l2 l3 →
  Forall2 (λ m m', m_id m' = m_id m ∧ m_name m' = m_name m ∧ m_symbols m' = m_symbols m) l1 l3.
Proof.
  intros H. revert l3. induction H as [|m1 m2 l1 l2 (E1 & E2 & E3) _ IH]; intros l3 H3; inversion H3 as [|? m3 ? ? (F1 & F2 & F3) Hl]; subst; [constructor|].
  constructor; [|by apply IH]. by rewrite F1, F2, F3.
Qed.

Lemma same_refl k : same_symbols k k.
Proof. split; [done|]. induction (modules k); by constructor. Qed.

Lemma relocate_loop_links e sections rs ps b m k :
  Forall2 (patch_of k e sections) rs ps →
  (∀ p x, p ∈ ps → covers p x → is_Some (mem k !! x)) →
  (∀ i j p q x, ps !! i = Some p → ps !! j = Some q → covers p x → covers q x → i = j) →
  ∃ m' k', relocate_loop e sections rs b m k = Done (b, m', k') ∧ same_symbols k k' ∧ m_symbols m' = m_symbols m ∧ m_id m' = m_id m ∧
    (∀ p, p ∈ ps → fetch p.1 (length p.2) (mem k') = Done p.2) ∧ (∀ x, (∀ p, p ∈ ps → ¬ covers p x) → mem k' !! x = mem k !! x).
Proof.
  revert b m k ps. induction rs as [|r rs IH]; intros b0 m k ps Hps Hmap Hdis; inversion Hps as [|? p ? ps' Hp Hps']; subst.
  { exists m, k. split_and!; [done|apply same_refl|done|done|set_solver|done]. }
  destruct Hp as (s & SA & other & t & Hs & Hres & Hne & Ht & HP & Hval). cbn [relocate_loop]. rewrite Hs, bind_ret, Hres, bind_ret.
  destruct (Z.eqb_spec SA 0); [done|].
  set (mms := match other with Some id => (addReference id m, add_edge (m_id m) id (modules k)) | None => (m, modules k) end).
  assert (Hmms : m_symbols mms.1 = m_symbols m ∧ m_id mms.1 = m_id m ∧ same_symbols k (mk_kernel mms.2 (kernel_symbols k) (global_symbols k) (mem k) (next_id k) (symbols_loaded k))).
  { unfold mms. destruct other as [id|]; cbn; [|split_and!; [done|done|destruct (same_refl k); by split]]. unfold addReference. destruct (bool_decide _); (split_and!; [done|done|split; [done|apply add_edge_same]]). }
  destruct mms as [m1 ms1]. cbn [fst snd] in Hmms. destruct Hmms as (Em1 & Em2 & Hsame). rewrite Ht, bind_ret. cbv zeta. rewrite <-HP, Hval, bind_ret.
  destruct (store_spec p.1 p.2 (mem k)) as (mm & Hst & Hmm); [intros x Hx; apply (Hmap p x); [set_solver|done]|]. rewrite Hst, bind_ret.
  set (k1 := mk_kernel ms1 (kernel_symbols k) (global_symbols k) mm (next_id k) (symbols_loaded k)).
  assert (Hsame1 : same_symbols k k1) by (destruct Hsame; by split).
  assert (Hcov : ∀ q x, q ∈ ps' → covers q x → ¬ covers p x).
  { intros q x [j Hj]%list_elem_of_lookup Hq Hp. by pose proof (Hdis 0%nat (S j) p q x eq_refl Hj Hp Hq). }
  destruct (IH b0 m1 k1 ps') as (m' & k' & -> & Hs' & E1 & E2 & Hf & Hx).
  - eapply Forall2_impl; [exact Hps'|]. intros r0 p0 (s0 & SA0 & o0 & t0 & Q1 & Q2 & Q3). exists s0, SA0, o0, t0. rewrite (resolve_same k k1) by done. done.
  - intros q x Hq Hc. cbn. rewrite Hmm, decide_False by (by apply (Hcov q)). apply (Hmap q x); [set_solver|done].
  - intros i j q q' x Hi Hj H1 H2. by pose proof (Hdis (S i) (S j) q q' x Hi Hj H1 H2) as [= ->].
  - exists m', k'. split; [done|]. split; [destruct Hsame1 as [E3 E4], Hs' as [E5 E6]; split; [congruence|by eapply same_trans]|].
    split; [congruence|]. split; [congruence|]. split.
    + intros q [->|Hq]%elem_of_cons; [|by apply Hf]. apply fetch_spec. intros i c Hi. pose proof (lookup_lt_Some _ _ _ Hi).
      rewrite Hx by (intros q Hq Hc; apply (Hcov q _ Hq Hc); unfold covers; lia). cbn. rewrite Hmm, decide_True by lia. rewrite <-Hi. f_equal. lia.
    + intros x Hno. rewrite Hx by (intros q Hq; apply Hno; set_solver). cbn. rewrite Hmm, decide_False; [done|]. apply (Hno p). set_solver.
Qed.

(** ** Names *)

Lemma find_name_cons t n s l : text t → named n (ms_name s) →
  find_name (cstr t) (s :: l) = if decide (n = t) then Done (Some s) else find_name (cstr t) l.
Proof.
  intros Ht Hn. cbn [find_name]. destruct (strcmp_named n t _ _ Hn (cstr_named t Ht)) as (r & -> & Hr). rewrite bind_ret.
  destruct (decide (n = t)) as [->|Hne]; [by rewrite (proj2 Hr eq_refl)|]. destruct (Z.eqb_spec r 0) as [E|E]; [by apply Hr in E|done].
Qed.

Lemma find_name_absent t l ts : text t → Forall2 (λ s n, named n (ms_name s)) l ts → t ∉ ts → find_name (cstr t) l = Done None.
Proof.
  intros Ht. induction 1 as [|s n l ts Hn _ IH]; intros Hno; [done|]. apply not_elem_of_cons in Hno as [H1 H2].
  rewrite (find_name_cons t n) by done. rewrite decide_False by congruence. by apply IH.
Qed.

Lemma strlen_from_split p n k : strlen_from p k = Done n → ∃ t rest, p = t ++ 0 :: rest ∧ 0 ∉ t ∧ n = k + Z.of_nat (length t).
Proof.
  revert k. induction p as [|c p IH]; intros k; cbn [strlen_from]; [done|]. destruct (Z.eqb_spec c 0) as [->|Hc].
  - intros [= <-]. exists [], p. split_and!; [done|set_solver|cbn; lia].
  - intros He. destruct (IH _ He) as (t & rest & -> & Ht & ->). exists (c :: t), rest. split_and!; [done|set_solver|cbn; lia].
Qed.

Lemma text_of_named p t : bytes p → text_of p = Done t → named t p.
Proof.
  intros Hb Ht. apply bind_Done in Ht as (n & Hn & Hg). destruct (strlen_from_split _ _ _ Hn) as (t' & rest & -> & Hz & ->).
  rewrite Z.add_0_l, get_eq in Hg by (rewrite ?length_app; lia). rewrite Nat2Z.id, drop_0, take_app_length in Hg. injection Hg as <-.
  split; [|exists rest; unfold cstr; by rewrite <-app_assoc]. apply Forall_app in Hb as [Hb _]. apply Forall_forall. intros c Hc.
  pose proof (proj1 (Forall_forall _ _) Hb c Hc) as Hbc. cbn in Hbc. destruct (Z.eq_dec c 0) as [->|]; [done|lia].
Qed.

(** The symbols of a module, qualified and cleaned again. *)
Definition cleaned (nm : list Z) (l : list module_symbol) : list module_symbol :=
  (λ s, mk_msym (drop (Z.to_nat (1 + Z.of_nat (length nm))) (ms_name s)) (ms_addr s)) <$> l.

Lemma cleaned_cons nm t a l : cleaned nm (mk_msym (cstr (nm ++ 58 :: t)) a :: l) = mk_msym (cstr t) a :: cleaned nm l.
Proof.
  unfold cleaned. cbn [fmap list_fmap ms_name ms_addr]. do 2 f_equal. unfold cstr. rewrite <-app_assoc. cbn [app].
  replace (Z.to_nat (1 + Z.of_nat (length nm))) with (length nm + 1)%nat by lia. by rewrite <-drop_drop, drop_app_length.
Qed.

(** The first symbol of a name that is not local to the file is found under that
    name. *)
Lemma plain_symbol_found nm sections l l1 l2 q i s t :
  plain_symbols sections l = Done l1 → qualify nm (l1 ++ l2) = Done q → Forall (λ s, bytes (st_name s)) l →
  l !! i = Some s → named t (st_name s) → (∀ j s', (j < i)%nat → l !! j = Some s' → ¬ named t (st_name s')) →
  head t ≠ Some 46 → section_index s ≠ SHN_ABS →
  ∃ sec, sections.[section_index s] = Done sec ∧ find_name (cstr t) (cleaned nm q) = Done (Some (mk_msym (cstr t) (u64 (s_addr sec + st_address s)))).
Proof.
  intros Hp Hq Hb Hi Ht Hfirst Hdot Habs. revert i l1 q Hp Hq Hi Hfirst. induction Hb as [|s0 l Hb0 _ IH]; intros i l1 q Hp Hq Hi Hfirst; [done|].
  cbn [plain_symbols] in Hp. apply bind_Done in Hp as (d & Hd & Hp). unfold dotted in Hd. apply bind_Done in Hd as (c & Hc & [= <-]).
  assert (Hrest : ∀ j s', (j < pred i)%nat → l !! j = Some s' → ¬ named t (st_name s')) by (intros j s' Hj Hs'; apply (Hfirst (S j)); [lia|done]).
  destruct (Z.eqb_spec c 46) as [->|Hc46].
  - destruct i as [|i]; [injection Hi as ->|by apply (IH i l1 q)]. exfalso. destruct Ht as [_ [rest E]]. rewrite E in Hc. destruct t as [|x t]; [done|]. by injection Hc as ->.
  - apply bind_Done in Hp as (a & Ha & Hp). apply bind_Done in Hp as (r & Hr & [= <-]). cbn [app qualify] in Hq. apply bind_Done in Hq as (n & Hn & Hq).
    apply bind_Done in Hq as (q' & Hq' & [= <-]). cbn [ms_name ms_addr] in *. rewrite cleaned_cons. pose proof (text_of_named _ _ Hb0 Hn) as Hnn.
    destruct Ht as [Htt Htp]. rewrite (find_name_cons t n) by (done || by apply cstr_named; destruct Hnn).
    destruct i as [|i].
    + injection Hi as ->. destruct (Z.eqb_spec (section_index s) SHN_ABS); [done|]. apply bind_Done in Ha as (sec & Hsec & [= <-]). exists sec. split; [done|].
      destruct (strcmp_named n t _ _ Hnn (conj Htt Htp)) as (z & Hz & Hzz). destruct (strcmp_named t t _ _ (conj Htt Htp) (conj Htt Htp)) as (z2 & Hz2 & Hzz2).
      assert (n = t) as -> by (apply Hzz; rewrite Hz2 in Hz; injection Hz as <-; by apply Hzz2). by rewrite decide_True.
    + rewrite decide_False; [by apply (IH i r q')|]. intros ->. by apply (Hfirst 0%nat s0); [lia| |].
Qed.

(** The bytes of the names. *)
Lemma load_table_all {A} (P : A → Prop) ws (f : list Z → outcome A) image n off l :
  (∀ row a, f row = Done a → P a) → load_table ws f image n off = Done l → Forall P l.
Proof.
  intros Hf. revert off l. induction n as [|n IH]; intros off l; cbn [load_table]; [by intros [= <-]|]. intros He.
  apply bind_Done in He as (fs & _ & He). apply bind_Done in He as (a & Ha & He). apply bind_Done in He as (r & Hr & [= <-]). constructor; [by eapply Hf|by eapply IH].
Qed.

Lemma section_of_bytes names row h : bytes names → section_of names row = Done h → bytes (sc_name h).
Proof. intros Hb. unfold section_of. do 11 (destruct row as [|? row]; [done|]). destruct row; [|done]. intros [= <-]. by apply Forall_drop. Qed.

Definition parsed (image : list Z) (e : ELF) : Prop :=
  ∃ e0 e1, create image = Done e0 ∧ loadStrings e0 = Done e1 ∧ loadSymbols e1 = Done e.

Record elf_bytes (e : ELF) : Prop := {
  eb_addr : bytes (m_addr e); eb_sections : Forall (λ h, bytes (sc_name h)) (section_headers e);
  eb_strings : ∀ s, strings e = Some s → bytes s; eb_symbols : Forall (λ s, bytes (st_name s)) (symbols e) }.

Lemma create_bytes image e : bytes image → create image = Done e → elf_bytes e.
Proof.
  intros Hb He. unfold create in He. apply bind_Done in He as (h & _ & He). destruct (negb _); [injection He as <-; by constructor|].
  destruct (_ =? BIT_32).
  - repeat (apply bind_Done in He as (? & _ & He)). injection He as <-. by constructor.
  - apply bind_Done in He as (fs & _ & He). apply bind_Done in He as (off & _ & He). apply bind_Done in He as (sz & _ & He). apply bind_Done in He as (names & Hn & He).
    apply bind_Done in He as (phs & _ & He). apply bind_Done in He as (shs & Hshs & [= <-]). constructor; try done. cbn.
    eapply load_table_all; [|exact Hshs]. intros row a. apply section_of_bytes. by eapply get_bytes.
Qed.

Lemma loadStrings_bytes e e' : elf_bytes e → loadStrings e = Done e' → elf_bytes e' ∧ section_headers e' = section_headers e ∧ m_addr e' = m_addr e.
Proof.
  intros [H1 H2 H3 H4] He. unfold loadStrings in He. destruct (strings e) eqn:Es; [injection He as <-; split; [constructor; try done; by rewrite Es|done]|].
  apply bind_Done in He as (r & _ & He). destruct r as [[i h]|]; [|injection He as <-; split; [constructor; try done; by rewrite Es|done]].
  apply bind_Done in He as (s & Hs & [= <-]). split; [|done]. constructor; try done. cbn. intros s' [= <-]. by eapply get_bytes.
Qed.

Lemma symbol_of_bytes e row s : elf_bytes e → symbol_of e row = Done s → bytes (st_name s).
Proof.
  intros [H1 H2 H3 H4]. unfold symbol_of. do 6 (destruct row as [|? row]; [done|]). destruct row; [|done]. intros Hs.
  assert (Hv : ∀ i h, vec (section_headers e) i = Done h → bytes (sc_name h)).
  { intros i h Hv. unfold vec in Hv. destruct (_ || _); apply rd_Done in Hv as [_ Hv]; by apply (Forall_lookup_1 _ _ _ _ H2 Hv). }
  destruct (_ =? 0); [apply bind_Done in Hs as (h & Hh & [= <-]); by eapply Hv|]. destruct (strings e) as [strs|] eqn:Es; [|done].
  apply bind_Done in Hs as (r & _ & Hs). destruct (r =? 0); [apply bind_Done in Hs as (h & Hh & [= <-]); by eapply Hv|]. injection Hs as <-. cbn. by apply Forall_drop, H3.
Qed.

Lemma loadSymbols_bytes e e' : elf_bytes e → loadSymbols e = Done e' → elf_bytes e'.
Proof.
  intros He Hl. unfold loadSymbols, loadSymbols64 in Hl. destruct (_ =? BIT_64); [|by injection Hl as <-]. apply bind_Done in Hl as (r & _ & Hl).
  destruct r as [[i h]|]; [|by injection Hl as <-]. apply bind_Done in Hl as (e1 & Hs & Hl). destruct (loadStrings_bytes _ _ He Hs) as (He1 & _).
  apply bind_Done in Hl as (l & Hl & [= <-]). pose proof He1 as [H1 H2 H3 H4]. constructor; try done. cbn. apply Forall_app. split; [done|].
  eapply load_table_all; [|exact Hl]. intros row a. by apply symbol_of_bytes.
Qed.

Lemma parsed_bytes image e : bytes image → parsed image e → elf_bytes e.
Proof.
  intros Hb (e0 & e1 & H0 & H1 & H2). eapply loadSymbols_bytes; [|exact H2]. eapply loadStrings_bytes; [|exact H1]. by eapply create_bytes.
Qed.

(** ** The theorems *)

(** What linking promises.  The names of the sections and symbols of the image, of the
    kernel, and of the modules, whose symbols are called [module:symbol]. *)
Record names := mk_names { n_sections : list (list Z); n_symbols : list (list Z); n_kernel : list (list Z); n_modules : list (list (list Z)) }.
Definition names_of (k : kernel) (e : ELF) (n : names) : Prop :=
  Forall2 (λ h t, named t (sc_name h)) (section_headers e) (n_sections n) ∧ Forall2 (λ s t, named t (st_name s)) (symbols e) (n_symbols n) ∧
  Forall2 (λ s t, named t (ms_name s)) (kernel_symbols k) (n_kernel n) ∧
  Forall2 (λ m ts, Forall2 (λ s t, named (m_name m ++ 58 :: t) (ms_name s)) (m_symbols m) ts) (modules k) (n_modules n).

(** The first entry that is called [t]. *)
Definition first_of {A} (ts : list (list Z)) (l : list A) (t : list Z) (x : A) : Prop := ∃ i, l !! i = Some x ∧ ts !! i = Some t ∧ ∀ j, (j < i)%nat → ts !! j ≠ Some t.

(** The address that a name has among the sections, the symbols that are defined in a
    section, the symbols of the kernel and those of the modules; 0 when it has none. *)
Inductive section_address (sections : list module_section) (n : names) (t : list Z) : Z → Prop :=
| section_none : t ∉ n_sections n → section_address sections n t 0
| section_found x : first_of (n_sections n) sections t x → section_address sections n t (s_addr x).
Inductive symbol_address (sections : list module_section) (e : ELF) (n : names) (t : list Z) : Z → Prop :=
| symbol_none : (∀ i b, symbols e !! i = Some b → n_symbols n !! i = Some t → section_index b = 0) → symbol_address sections e n t 0
| symbol_found i b x : symbols e !! i = Some b → n_symbols n !! i = Some t → section_index b ≠ 0 → 0 ≤ section_index b →
    (∀ j b', (j < i)%nat → symbols e !! j = Some b' → n_symbols n !! j = Some t → section_index b' = 0) →
    sections !! Z.to_nat (section_index b) = Some x → symbol_address sections e n t ((s_addr x + st_address b) mod 2 ^ 64).
Inductive kernel_address (k : kernel) (n : names) (t : list Z) : Z → Prop :=
| kernel_none : t ∉ n_kernel n → kernel_address k n t 0
| kernel_found s : first_of (n_kernel n) (kernel_symbols k) t s → kernel_address k n t (ms_addr s).
Inductive module_address (k : kernel) (n : names) (t : list Z) : Z → Prop :=
| module_found i m ts s : modules k !! i = Some m → n_modules n !! i = Some ts → (∀ j ts', (j < i)%nat → n_modules n !! j = Some ts' → t ∉ ts') →
    first_of ts (m_symbols m) t s → module_address k n t (ms_addr s).

(** The address of a symbol: the first of these that is not 0; a local symbol is not
    looked for outside the image. *)
Inductive address (k : kernel) (e : ELF) (sections : list module_section) (n : names) (t : list Z) (s : symbol) : Z → Prop :=
| of_section a : section_address sections n t a → a ≠ 0 → address k e sections n t s a
| of_symbol a : section_address sections n t 0 → symbol_address sections e n t a → a ≠ 0 → address k e sections n t s a
| of_kernel a : section_address sections n t 0 → symbol_address sections e n t 0 → st_info s / 16 ≠ 0 → kernel_address k n t a → a ≠ 0 → address k e sections n t s a
| of_module a : section_address sections n t 0 → symbol_address sections e n t 0 → st_info s / 16 ≠ 0 → kernel_address k n t 0 → module_address k n t a → a ≠ 0 →
    address k e sections n t s a.

(** The width and the value of a relocation, from the processor supplement of the
    format: [R_X86_64_64], [R_X86_64_PC32], [R_X86_64_PLT32] and [R_X86_64_32S]. *)
Inductive relocated (S A P : Z) : Z → Z → Z → Prop :=
| rel_64 : relocated S A P 1 8 ((S + A) mod 2 ^ 64)
| rel_pc32 : relocated S A P 2 4 ((S + A - P) mod 2 ^ 32)
| rel_plt32 : relocated S A P 4 4 ((S + A - P) mod 2 ^ 32)
| rel_32s : relocated S A P 11 4 ((S + A) mod 2 ^ 32).

Definition patch (k : kernel) (e : ELF) (sections : list module_section) (n : names) (r : relocation) (p : Z * list Z) : Prop :=
  ∃ s t SA sec w v, 0 ≤ symbol_id r < 2 ^ 31 ∧ symbols e !! Z.to_nat (symbol_id r) = Some s ∧ n_symbols n !! Z.to_nat (symbol_id r) = Some t ∧
    address k e sections n t s SA ∧ 0 ≤ target_section_id r ∧ sections !! Z.to_nat (target_section_id r) = Some sec ∧
    p.1 = (s_addr sec + r_addr r) mod 2 ^ 64 ∧ relocated SA (addend r) p.1 (arch_info r mod 2 ^ 32) w v ∧ p.2 = le_bytes w v.

Lemma first_of_cons {A} ts (l : list A) t t0 x x0 : first_of (t0 :: ts) (x0 :: l) t x → (t0 = t ∧ x = x0) ∨ (t0 ≠ t ∧ first_of ts l t x).
Proof.
  intros ([|i] & Hx & Ht & Hf); [left; cbn in *; split; congruence|]. right. split; [intros ->; by apply (Hf 0%nat); [lia|]|]. exists i. split_and!; [done|done|]. intros j Hj. apply (Hf (S j)). lia.
Qed.

Lemma section_address_named name t shs sections n a : named t name → Forall2 (λ h t, named t (sc_name h)) shs (n_sections n) → section_address sections n t a → section_named name 0 shs sections = Done a.
Proof.
  intros Hn Hf Ha.
  assert (Hgen : ∀ shs ts i, Forall2 (λ h t, named t (sc_name h)) shs ts →
    (t ∉ ts → section_named name (Z.of_nat i) shs sections = Done 0) ∧ (∀ x, first_of ts (drop i sections) t x → section_named name (Z.of_nat i) shs sections = Done (s_addr x))).
  { intros l ts i Hl. revert i. induction Hl as [|h t0 l ts Hh _ IH]; intros i; cbn [section_named]; [split; [done|intros x (j & _ & [=] & _)]|].
    destruct (strcmp_named t t0 _ _ Hn Hh) as (r & -> & Hr). rewrite bind_ret. destruct (IH (S i)) as [IH1 IH2]. replace (Z.of_nat (S i)) with (Z.of_nat i + 1) in IH1, IH2 by lia. split.
    - intros [H1 H2]%not_elem_of_cons. destruct (Z.eqb_spec r 0) as [E|E]; [by apply Hr in E|]. by apply IH1.
    - intros x Hx. destruct (drop i sections) as [|x0 rest] eqn:Ed; [by destruct Hx as (j & Hj & _)|].
      assert (Hi : sections !! i = Some x0) by (rewrite <-(Nat.add_0_r i), <-lookup_drop, Ed; done). assert (Hd : drop (S i) sections = rest) by (rewrite <-Nat.add_1_r, <-drop_drop, Ed; done).
      apply first_of_cons in Hx as [[-> ->]|[Hne Hx]].
      + rewrite (proj2 Hr eq_refl). cbn [Z.eqb negb]. rewrite (proj2 (rd_Done _ _ _)) by (split; [lia|by rewrite Nat2Z.id]). done.
      + destruct (Z.eqb_spec r 0) as [E|E]; [apply Hr in E; congruence|]. apply IH2. by rewrite Hd. }
  destruct (Hgen shs (n_sections n) 0%nat Hf) as [H1 H2]. destruct Ha as [Hno|x Hx]; [by apply H1|by apply H2].
Qed.

Lemma symbol_address_named name t e sections n a : named t name → Forall2 (λ s t, named t (st_name s)) (symbols e) (n_symbols n) → symbol_address sections e n t a → symbol_named name (symbols e) sections = Done a.
Proof.
  intros Hn Hf Ha. destruct Ha as [Hno|i b x Hb Ht Hne Hpos Hfirst Hx].
  - revert Hno. induction Hf as [|s t0 l ts Hs _ IH]; intros Hno; [done|]. cbn [symbol_named]. specialize (IH (λ i, Hno (S i))). destruct (Z.eqb_spec (section_index s) 0) as [E|E]; [done|].
    destruct (strcmp_named t t0 _ _ Hn Hs) as (r & -> & Hr). rewrite bind_ret. destruct (Z.eqb_spec r 0) as [F|F]; [|done]. apply Hr in F as ->. by destruct E, (Hno 0%nat s).
  - revert i Hb Ht Hfirst. induction Hf as [|s t0 l ts Hs _ IH]; intros i Hb Ht Hfirst; [done|]. cbn [symbol_named]. destruct (strcmp_named t t0 _ _ Hn Hs) as (r & Hr0 & Hr). destruct i as [|i].
    + injection Hb as ->. injection Ht as ->. destruct (Z.eqb_spec (section_index b) 0); [done|]. rewrite Hr0, bind_ret, (proj2 Hr eq_refl). cbn [Z.eqb negb].
      rewrite (proj2 (rd_Done _ _ _)) by (split; [lia|done]). done.
    + assert (Hrest : symbol_named name l sections = Done ((s_addr x + st_address b) mod 2 ^ 64)) by (apply (IH i); [done|done|intros j b' Hj; apply (Hfirst (S j)); lia]).
      destruct (Z.eqb_spec (section_index s) 0) as [E|E]; [done|]. rewrite Hr0, bind_ret. destruct (Z.eqb_spec r 0) as [F|F]; [|done]. apply Hr in F as ->. destruct E. by apply (Hfirst 0%nat); [lia| |].
Qed.

(** The search among named symbols. *)
Lemma find_name_first name t l ts : named t name → Forall2 (λ s t, named t (ms_name s)) l ts →
  (t ∉ ts → find_name name l = Done None) ∧ (∀ s, first_of ts l t s → find_name name l = Done (Some s)).
Proof.
  intros Hn. induction 1 as [|s t0 l ts Hs _ [IH1 IH2]]; cbn [find_name]; [split; [done|intros s (j & [=] & _)]|].
  destruct (strcmp_named t0 t _ _ Hs Hn) as (r & -> & Hr). rewrite bind_ret. split.
  - intros [H1 H2]%not_elem_of_cons. destruct (Z.eqb_spec r 0) as [E|E]; [apply Hr in E; congruence|]. by apply IH1.
  - intros x [[-> ->]|[Hne Hx]]%first_of_cons; [by rewrite (proj2 Hr eq_refl)|]. destruct (Z.eqb_spec r 0) as [E|E]; [by apply Hr in E|]. by apply IH2.
Qed.

Lemma kernel_address_named name t k n a : named t name → Forall2 (λ s t, named t (ms_name s)) (kernel_symbols k) (n_kernel n) → kernel_address k n t a → name2addr k name = Done a.
Proof.
  intros Hn Hf Ha. unfold name2addr. destruct (find_name_first name t _ _ Hn Hf) as [H1 H2]. destruct Ha as [Hno|s Hs].
  - destruct (_ =? _)%nat; [done|]. by rewrite H1.
  - rewrite (H2 s Hs). destruct (Nat.eqb_spec (length (kernel_symbols k)) 0) as [E|E]; [|done]. destruct Hs as (i & Hi & _). apply lookup_lt_Some in Hi. lia.
Qed.

Lemma clean_named m ts : Forall2 (λ s t, named (m_name m ++ 58 :: t) (ms_name s)) (m_symbols m) ts → Forall2 (λ s t, named t (ms_name s)) (clean m) ts.
Proof.
  intros Hf. unfold clean. apply Forall2_fmap_l. eapply Forall2_impl; [exact Hf|]. intros s t [Ht [rest E]]. cbn [ms_name]. split; [by apply Forall_app in Ht as [_ Ht]; inversion Ht|].
  exists rest. rewrite E. unfold name_len, cstr. rewrite <-!app_assoc. cbn [app]. replace (Z.to_nat (1 + Z.of_nat (length (m_name m)))) with (length (m_name m) + 1)%nat by lia. by rewrite <-drop_drop, drop_app_length.
Qed.
Lemma module_address_named name t k n a : named t name → Forall2 (λ m ts, Forall2 (λ s t, named (m_name m ++ 58 :: t) (ms_name s)) (m_symbols m) ts) (modules k) (n_modules n) →
  module_address k n t a → ∃ id, module_name2addr_raw (modules k) name = Done (Some (a, id)).
Proof.
  intros Hn Hf [i m ts s Hm Hts Hno Hs]. exists (m_id m). revert i Hm Hts Hno. induction Hf as [|m0 ts0 ms tss Hm0 _ IH]; intros i Hm Hts Hno; [done|]. cbn [module_name2addr_raw].
  destruct (find_name_first name t _ _ Hn (clean_named m0 ts0 Hm0)) as [H1 H2]. destruct i as [|i].
  - injection Hm as ->. injection Hts as ->. destruct Hs as (j & Hj & Htj & Hfirst). rewrite (H2 (mk_msym (drop (Z.to_nat (1 + name_len m)) (ms_name s)) (ms_addr s))); [done|].
    exists j. split_and!; [|done|done]. unfold clean. by rewrite list_lookup_fmap, Hj.
  - rewrite H1 by (by apply (Hno 0%nat); [lia|]). rewrite bind_ret. apply (IH i); [done|done|]. intros j ts' Hj. apply (Hno (S j)). lia.
Qed.

Lemma patch_patch_of k e sections n r p : names_of k e n → patch k e sections n r p → patch_of k e sections r p.
Proof.
  intros (N1 & N2 & N3 & N4) (s & t & SA & sec & w & v & Hid & Hs & Ht & Ha & Hti & Hsec & HP & Hv & Hbs).
  destruct (Forall2_lookup_lr _ _ _ _ _ _ N2 Hs Ht) as [Htx Hrest]. pose proof (conj Htx Hrest : named t (st_name s)) as Hn.
  assert (Hres : ∃ other, resolve k e sections s = Done (SA, other) ∧ SA ≠ 0).
  { unfold resolve. assert (Hsec0 := λ a, section_address_named (st_name s) t (section_headers e) sections n a Hn N1).
    assert (Hsym0 := λ a, symbol_address_named (st_name s) t e sections n a Hn N2). assert (Hker0 := λ a, kernel_address_named (st_name s) t k n a Hn N3).
    assert (Hnz : ∀ a, a ≠ 0 → (a =? 0) = false) by (intros a; apply Z.eqb_neq).
    assert (Hl : st_info s / 16 ≠ 0 → (Z.shiftr (st_info s) 4 =? SB_LOCAL) = false) by (rewrite Z.shiftr_div_pow2 by lia; apply Hnz).
    destruct Ha as [a H1 Hne|a H1 H2 Hne|a H1 H2 Hloc H3 Hne|a H1 H2 Hloc H3 H4 Hne]; rewrite (Hsec0 _ H1), bind_ret.
    - rewrite (Hnz a) by done. by eexists.
    - rewrite (Hsym0 _ H2), bind_ret, (Hnz a) by done. by eexists.
    - rewrite (Hsym0 _ H2), bind_ret, (Hl Hloc), (Hker0 _ H3), bind_ret, (Hnz a) by done. by eexists.
    - rewrite (Hsym0 _ H2), bind_ret, (Hl Hloc), (Hker0 _ H3), bind_ret. destruct (module_address_named _ t k n a Hn N4 H4) as [id ->]. rewrite bind_ret, (Hnz a) by done. by eexists. }
  destruct Hres as (other & Hres & Hne). exists s, SA, other, sec. split_and!; [|done|done|by apply rd_Done|done|].
  - rewrite swrap_small by lia. apply vec_lookup; [lia|done].
  - unfold relocation_value. unfold wrap. rewrite Hbs. destruct Hv; cbn [Z.eqb Pos.eqb R_AMD64_64 R_AMD64_PC32 R_AMD64_PLT32 R_AMD64_32S orb]; do 3 f_equal; lia.
Qed.

(** C27 (functional): linking a module whose symbols can all be found stores at the place
    of every relocation the value of its type, [S + A] in 64 or 32 bits or [S + A - P] in
    32 bits, for the address [S] of its symbol, and changes no other byte.  A symbol has
    the address of the first section of its name, else of the first symbol of that name
    that the image defines, else, unless it is local, of the first kernel symbol, else of
    the first module that has one; an address 0 counts as none.  The places are in memory
    and do not overlap. *)
Theorem relocate_links e sections n ps m k :
  names_of k e n → Forall2 (patch k e sections n) (relocations e) ps →
  (∀ p x, p ∈ ps → covers p x → is_Some (mem k !! x)) →
  (∀ i j p q x, ps !! i = Some p → ps !! j = Some q → covers p x → covers q x → i = j) →
  ∃ m' k', relocate e sections m k = Done (true, m', k') ∧ same_symbols k k' ∧
    (∀ p, p ∈ ps → fetch p.1 (length p.2) (mem k') = Done p.2) ∧ (∀ x, (∀ p, p ∈ ps → ¬ covers p x) → mem k' !! x = mem k !! x).
Proof.
  intros Hn H1 H2 H3. destruct (relocate_loop_links e sections (relocations e) ps true m k) as (m' & k' & Hr & Hs & _ & _ & Hf & Hx); [|done|done|by exists m', k'].
  eapply Forall2_impl; [exact H1|]. intros r p. by apply patch_patch_of.
Qed.

(** Linking changes no symbol, whatever it finds. *)
Lemma relocate_loop_same e sections rs b m k b' m' k' :
  relocate_loop e sections rs b m k = Done (b', m', k') → same_symbols k k' ∧ m_symbols m' = m_symbols m ∧ m_id m' = m_id m.
Proof.
  revert b m k. induction rs as [|r rs IH]; intros b m k; cbn [relocate_loop]; [intros [= -> -> ->]; split; [apply same_refl|done]|]. intros He.
  apply bind_Done in He as (s & _ & He). apply bind_Done in He as ([SA other] & _ & He). destruct (SA =? 0); [by eapply IH|].
  assert (Hm : ∀ m1 ms, match other with Some id => (addReference id m, add_edge (m_id m) id (modules k)) | None => (m, modules k) end = (m1, ms) →
    m_symbols m1 = m_symbols m ∧ m_id m1 = m_id m ∧ ∀ mm, same_symbols k (mk_kernel ms (kernel_symbols k) (global_symbols k) mm (next_id k) (symbols_loaded k))).
  { intros m1 ms. destruct other as [id|]; intros [= <- <-]; [|destruct (same_refl k); split_and!; by try split]. unfold addReference.
    destruct (bool_decide _); (split_and!; [done|done|split; [done|apply add_edge_same]]). }
  destruct (match other with Some _ => _ | None => _ end) as [m1 ms]. destruct (Hm m1 ms eq_refl) as (E1 & E2 & Hs).
  apply bind_Done in He as (t & _ & He). apply bind_Done in He as (bs & _ & He). apply bind_Done in He as (mm & _ & He).
  destruct (IH _ _ _ He) as ([F1 F2] & F3 & F4). specialize (Hs mm) as [G1 G2]. split_and!; [split; [congruence|by eapply same_trans]|congruence|congruence].
Qed.

Lemma raw_app l l' name : module_name2addr_raw l name = Done None → module_name2addr_raw (l ++ l') name = module_name2addr_raw l' name.
Proof.
  induction l as [|m l IH]; [done|]. cbn [app module_name2addr_raw]. intros He. apply bind_Done in He as (s & -> & He). rewrite bind_ret. destruct s; [done|by apply IH].
Qed.

Lemma parsed_unique image e e' : parsed image e → parsed image e' → e' = e.
Proof. intros (a & b & H1 & H2 & H3) (a' & b' & H1' & H2' & H3'). congruence. Qed.

(** What a load that runs the module has done. *)
Lemma load_module_ran alloc image k k' en :
  load_module alloc image k = Done (ENONE, k', Some en) →
  ∃ e sections mm l1 l2 syms m, parsed image e ∧ load_sections alloc (m_addr e) (section_headers e) (mem k) = Done (sections, mm) ∧
    plain_symbols sections (symbols e) = Done l1 ∧ qualify (m_name m) (l1 ++ l2) = Done syms ∧ m_symbols m = syms ∧ m_id m = next_id k ∧ m_enter m = en ∧
    ∃ ms, modules k' = ms ++ [m] ∧ ∀ name, module_name2addr_raw ms name = module_name2addr_raw (modules k) name.
Proof.
  unfold load_module. intros He. apply bind_Done in He as ([] & _ & He). apply bind_Done in He as (e0 & H0 & He). destruct (negb _); [done|].
  apply bind_Done in He as (e1 & H1 & He). apply bind_Done in He as (e2 & H2 & He). apply bind_Done in He as ([[en0 ex0] nm0] & _ & He).
  destruct (_ || _); [done|]. apply bind_Done in He as ([sections mm] & Hsec & He). apply bind_Done in He as (l1 & Hl1 & He). apply bind_Done in He as (l2 & Hl2 & He).
  apply bind_Done in He as (e3 & H3 & He). apply bind_Done in He as ([[ok m] k1] & Hrel & He). destruct (relocate_loop_same _ _ _ _ _ _ _ _ _ Hrel) as ([_ Hs] & Hms & Hid).
  destruct (negb ok); [done|]. apply bind_Done in He as (a & _ & He). apply bind_Done in He as (p & _ & He). apply bind_Done in He as (nm & _ & He).
  apply bind_Done in He as (en1 & _ & He). apply bind_Done in He as (ex1 & _ & He). apply bind_Done in He as (dup & _ & He). destruct dup; [done|].
  apply bind_Done in He as (syms & Hq & [= <- <-]). cbn in Hms, Hid, Hs. rewrite Hms in Hq.
  exists e2, sections, mm, l1, l2, syms, (mk_module (m_id m) nm en1 ex1 (m_sections m) syms (references m) (referencedBy m)). split; [by exists e0, e1|]. do 2 (split; [done|]). split; [exact Hq|]. cbn. do 3 (split; [done|]).
  exists (modules k1). split; [done|]. intros name. by apply name2addr_raw_same.
Qed.

(** After a module was loaded, the first symbol of a name in its symbol
    table is found under that name, at its offset in the section that was loaded for
    it, unless an older module has the name. *)
Lemma loaded_symbols_found alloc image k k' en e i s t :
  bytes image → load_module alloc image k = Done (ENONE, k', Some en) → parsed image e →
  symbols e !! i = Some s → named t (st_name s) → (∀ j s', (j < i)%nat → symbols e !! j = Some s' → ¬ named t (st_name s')) →
  head t ≠ Some 46 → section_index s ≠ SHN_ABS → module_name2addr_raw (modules k) (cstr t) = Done None →
  ∃ sections mm sec, load_sections alloc (m_addr e) (section_headers e) (mem k) = Done (sections, mm) ∧ sections.[section_index s] = Done sec ∧
    module_name2addr_raw (modules k') (cstr t) = Done (Some (u64 (s_addr sec + st_address s), next_id k)).
Proof.
  intros Hb Hload Hp Hi Ht Hfirst Hdot Habs Hold.
  destruct (load_module_ran _ _ _ _ _ Hload) as (e' & sections & mm & l1 & l2 & syms & m & Hp' & Hsec & Hl1 & Hq & Hsy & Hid & _ & ms & Hms & Hraw).
  rewrite (parsed_unique _ _ _ Hp Hp') in *. destruct (parsed_bytes _ _ Hb Hp) as [_ _ _ Hsb].
  destruct (plain_symbol_found _ _ _ _ _ _ _ _ _ Hl1 Hq Hsb Hi Ht Hfirst Hdot Habs) as (sec & Hs & Hf).
  exists sections, mm, sec. do 2 (split; [done|]). rewrite Hms, raw_app by (by rewrite Hraw). cbn [module_name2addr_raw].
  replace (clean m) with (cleaned (m_name m) syms) by (by rewrite <-Hsy). rewrite Hf, bind_ret. cbn. by rewrite Hid.
Qed.

(** ** Other lookups *)

(** The symbol that is reported for an address is the nearest one at or below it, and
    there is one when some symbol is less than 0x2000 bytes below it. *)
Lemma closest_spec addr d best l d' best' :
  0 ≤ d → closest addr d best l = (d', best') →
  (∀ s, s ∈ l → ms_addr s ≤ addr → addr - ms_addr s < 0x2000 → d' ≤ addr - ms_addr s) ∧ d' ≤ d ∧
  ((d' = d ∧ best' = best) ∨ ∃ s, s ∈ l ∧ best' = Some s ∧ ms_addr s ≤ addr ∧ d' = addr - ms_addr s ∧ d' < 0x2000 ∧ d' < d).
Proof.
  revert d best. induction l as [|s l IH]; intros d best Hd; cbn [closest]; [intros [= <- <-]; split_and!; [set_solver|lia|by left]|].
  destruct (Z.ltb_spec addr (ms_addr s)) as [Hlt|Hge]; cbv zeta.
  - intros He. destruct (IH _ _ Hd He) as (H1 & H2 & H3). split_and!; [intros x [->|Hx]%elem_of_cons; [lia|by apply H1]|done|]. destruct H3 as [H3|(x & Hx & H3)]; [by left|right; exists x; set_solver].
  - rewrite !Z.geb_leb. destruct (Z.leb_spec d (addr - ms_addr s)), (Z.leb_spec 0x2000 (addr - ms_addr s)); cbn [orb]; intros He.
    all: try (destruct (IH _ _ Hd He) as (H1 & H2 & H3); split_and!; [intros x [->|Hx]%elem_of_cons; [lia|by apply H1]|done|];
      destruct H3 as [H3|(x & Hx & H3)]; [by left|right; exists x; set_solver]).
    destruct (IH (addr - ms_addr s) (Some s) ltac:(lia) He) as (H1 & H2 & H3). split_and!; [intros x [->|Hx]%elem_of_cons; [lia|by apply H1]|lia|].
    right. destruct H3 as [[-> ->]|(x & Hx & E & G1 & G2 & G3 & G4)]; [exists s; split_and!; [set_solver|done|lia|lia|lia|lia]|]. exists x. split_and!; [set_solver|done|lia|lia|lia|lia].
Qed.

(** A symbol that was registered is found, and the others stay. *)
Lemma set_symbol_get t u a l ts :
  text t → text u → Forall2 (λ s n, named n (ms_name s)) l ts →
  ∃ l', set_symbol (cstr t) a l = Done l' ∧ get_symbol (cstr u) l' = if decide (u = t) then Done a else get_symbol (cstr u) l.
Proof.
  intros Ht Hu. induction 1 as [|s n l ts Hn _ IH]; cbn [set_symbol get_symbol].
  - eexists. split; [done|]. cbn [get_symbol ms_name ms_addr]. destruct (strcmp_named u t _ _ (cstr_named u Hu) (cstr_named t Ht)) as (r & -> & Hr). rewrite bind_ret.
    destruct (decide (u = t)) as [E|E]; [by rewrite (proj2 Hr E)|]. destruct (Z.eqb_spec r 0) as [F|F]; [by apply Hr in F|done].
  - destruct (strcmp_named t n _ _ (cstr_named t Ht) Hn) as (r & -> & Hr). rewrite bind_ret.
    destruct (strcmp_named u n _ _ (cstr_named u Hu) Hn) as (z & Hz & Hzr). destruct (Z.eqb_spec r 0) as [E|E].
    + apply Hr in E as ->. eexists. split; [done|]. cbn [get_symbol ms_name ms_addr]. rewrite Hz, !bind_ret.
      destruct (decide (u = n)) as [F|F]; [by rewrite (proj2 Hzr F)|]. destruct (Z.eqb_spec z 0) as [G|G]; [by apply Hzr in G|done].
    + destruct IH as (l' & -> & Hl'). rewrite bind_ret. eexists. split; [done|]. cbn [get_symbol]. rewrite Hz, !bind_ret. destruct (Z.eqb_spec z 0) as [F|F]; [|done].
      apply Hzr in F as ->. rewrite decide_False; [done|]. intros ->. by apply E, Hr.
Qed.

(** [removeReferencedBy] removes a module only when it is the first entry. *)
Lemma removeReferencedBy_later r a l m : referencedBy m = r :: l → r ≠ a → removeReferencedBy a m = m.
Proof. intros E Hne. unfold removeReferencedBy. rewrite E. by rewrite (proj2 (Z.eqb_neq _ _) Hne). Qed.

(** Of two sections with one name the relocator takes the first. *)
Lemma section_named_first t h1 h2 s1 s2 shs ss :
  named t (sc_name h1) → text t → section_named (cstr t) 0 (h1 :: h2 :: shs) (s1 :: s2 :: ss) = Done (s_addr s1).
Proof.
  intros Hn Ht. cbn [section_named]. destruct (strcmp_named t t _ _ (cstr_named t Ht) Hn) as (r & -> & Hr). by rewrite bind_ret, (proj2 Hr eq_refl).
Qed.

(** A symbol whose index is neither a section nor [SHN_ABS], such as a common one, is
    read outside the array of the sections. *)
Lemma plain_symbols_reserved sections s l t :
  named t (st_name s) → t ≠ [] → head t ≠ Some 46 → section_index s ≠ SHN_ABS → Z.of_nat (length sections) ≤ section_index s → plain_symbols sections (s :: l) = Fault.
Proof.
  intros [_ [rest E]] Hne Hdot Habs Hi. cbn [plain_symbols]. unfold dotted. rewrite E. destruct t as [|c t]; [done|]. cbn [deref cstr app]. cbn.
  destruct (Z.eqb_spec c 46) as [->|_]; [done|]. destruct (Z.eqb_spec (section_index s) SHN_ABS); [done|].
  rewrite rd_out by lia. done.
Qed.

(** ** The order of the core modules *)

Definition not_after (a b : module_entry) : Prop := e_order a ≤ e_order b.

Lemma bubble_from_perm a l : bubble_from a l ≡ₚ a :: l.
Proof.
  revert a. induction l as [|b l IH]; intros a; [done|]. cbn [bubble_from]. destruct (_ <=? _); [by rewrite IH|]. rewrite IH. apply Permutation_swap.
Qed.

(** A pass moves the last of the largest elements to the end. *)
Lemma bubble_from_last a l : ∃ p x, bubble_from a l = p ++ [x] ∧ Forall (λ y, not_after y x) (a :: l).
Proof.
  unfold not_after. revert a. induction l as [|b l IH]; intros a; cbn [bubble_from].
  { exists [], a. split; [done|]. constructor; [lia|constructor]. }
  destruct (Z.leb_spec (e_order a) (e_order b)) as [Hle|Hlt].
  - destruct (IH b) as (p & x & -> & Hx). exists (a :: p), x. split; [done|]. apply Forall_cons in Hx as [Hb Hx]. constructor; [lia|by constructor].
  - destruct (IH a) as (p & x & -> & Hx). exists (b :: p), x. split; [done|]. apply Forall_cons in Hx as [Ha Hx]. constructor; [lia|]. constructor; [lia|done].
Qed.

(** A sorted end that is not before the rest stays. *)
Lemma bubble_from_app a l s : StronglySorted not_after s → (∀ x y, x ∈ a :: l → y ∈ s → not_after x y) → bubble_from a (l ++ s) = bubble_from a l ++ s.
Proof.
  intros Hs. revert a. induction l as [|b l IH]; intros a Hle.
  - cbn [app bubble_from]. assert (Hs' : StronglySorted not_after (a :: s)) by (constructor; [done|]; apply Forall_forall; intros y Hy; apply Hle; [set_solver|done]).
    clear Hs Hle. revert a Hs'. induction s as [|b s IHs]; intros a Hs'; [done|]. apply StronglySorted_inv in Hs' as [Hs' Hf]. apply Forall_cons in Hf as [Hf _].
    cbn [bubble_from]. unfold not_after in Hf. rewrite (proj2 (Z.leb_le _ _) Hf), (IHs b) by done. done.
  - cbn [app bubble_from]. destruct (_ <=? _); (rewrite IH; [done|]); intros x y Hx; apply Hle; set_solver.
Qed.

Lemma bubble_from_stable o a l : filter (λ x, e_order x = o) (bubble_from a l) = filter (λ x, e_order x = o) (a :: l).
Proof.
  revert a. induction l as [|b l IH]; intros a; [done|]. cbn [bubble_from]. destruct (Z.leb_spec (e_order a) (e_order b)) as [Hle|Hlt].
  - rewrite !(filter_cons _ a), IH. done.
  - rewrite (filter_cons _ b), IH, !filter_cons. destruct (decide (e_order b = o)), (decide (e_order a = o)); try done. lia.
Qed.

(** After [n] passes the last [n] elements are in place. *)
Definition settled (n : nat) (l : list module_entry) : Prop :=
  ∃ p s, l = p ++ s ∧ (length p ≤ length l - n)%nat ∧ StronglySorted not_after s ∧ ∀ x y, x ∈ p → y ∈ s → not_after x y.

Lemma bubble_settled n l : settled n l → settled (S n) (bubble l).
Proof.
  intros (p & s & -> & Hn & Hs & Hle). destruct p as [|a p].
  - exists [], s. cbn [app]. split_and!; [|cbn; lia|done|set_solver]. destruct s as [|a s]; [done|]. cbn [bubble].
    change s with ([] ++ s) at 1. rewrite (bubble_from_app a [] s); [done|by apply StronglySorted_inv in Hs as [? _]|]. apply StronglySorted_inv in Hs as [_ Hf]. rewrite Forall_forall in Hf. intros x y ->%list_elem_of_singleton. apply Hf.
  - cbn [app bubble]. rewrite bubble_from_app by done. pose proof (bubble_from_perm a p) as Hperm. destruct (bubble_from_last a p) as (q & x & E & Hx). rewrite E in *.
    pose proof (Permutation_length Hperm) as Hlen. rewrite length_app in Hlen. cbn in Hlen, Hn. rewrite length_app in Hn. rewrite Forall_forall in Hx.
    exists q, (x :: s). rewrite <-app_assoc. cbn [app]. rewrite !length_app. cbn [length]. split_and!; [done|lia| |].
    + constructor; [done|]. apply Forall_forall. intros y Hy. apply Hle; [|done]. rewrite <-Hperm. set_solver.
    + intros u y Hu [->|Hy]%elem_of_cons; [apply Hx|apply Hle; [|done]]; rewrite <-Hperm; set_solver.
Qed.

Lemma bubble_perm l : bubble l ≡ₚ l.
Proof. destruct l as [|a l]; [done|]. apply bubble_from_perm. Qed.
Lemma bubble_stable o l : filter (λ x, e_order x = o) (bubble l) = filter (λ x, e_order x = o) l.
Proof. destruct l as [|a l]; [done|]. apply bubble_from_stable. Qed.

Lemma settled_iter n l : settled n (Nat.iter n bubble l).
Proof.
  induction n as [|n IH]; [|by apply bubble_settled]. exists l, []. rewrite app_nil_r. split_and!; [done|cbn; lia|constructor|set_solver].
Qed.

(** The core modules are loaded in the order of their numbers: the
    list is the one that was read, ordered, and modules with the same number keep the
    order of the directory. *)
Lemma core_modules_sorted l :
  sort_entries l ≡ₚ l ∧ StronglySorted not_after (sort_entries l) ∧ ∀ o, filter (λ x, e_order x = o) (sort_entries l) = filter (λ x, e_order x = o) l.
Proof.
  unfold sort_entries. assert (Hp : ∀ n, Nat.iter n bubble l ≡ₚ l) by (induction n as [|n IH]; [done|]; cbn [Nat.iter nat_rect]; by rewrite bubble_perm).
  split; [apply Hp|]. split.
  - destruct (settled_iter (length l - 1) l) as (p & s & E & Hn & Hs & Hle). rewrite (Permutation_length (Hp _)) in Hn. rewrite E.
    destruct p as [|a [|b p]]; [done| |cbn in Hn; lia]. cbn [app]. constructor; [done|]. apply Forall_forall. intros y Hy. apply Hle; [set_solver|done].
  - intros o. generalize (length l - 1)%nat. induction n as [|n IH]; [done|]. cbn [Nat.iter nat_rect]. by rewrite bubble_stable.
Qed.

(** ** An example *)

(** Pages one after the other. *)
Definition demo_alloc (size : Z) (m : memory) : Z := 4096 * (1 + Z.of_nat (base.size m)).
Definition demo_kernel : kernel := mk_kernel [] [mk_msym (cstr (lit "printk")) 0x200000] [] ∅ 1 true.
Definition demo_loaded : outcome (error_t * kernel * option Z) := load_module demo_alloc demo_image demo_kernel.

Example demo_load_ok : (r ← demo_loaded; let '(err, k, en) := r in Done (err, en, length (modules k), base.size (mem k))) = Done (ENONE, Some 4096, 1%nat, 29%nat).
Proof. vm_compute. reflexivity. Qed.

Lemma demo_parsed : ∃ e, parsed demo_image e ∧ symbols e = demo_syms ∧ bytes demo_image.
Proof.
  destruct (create demo_image) as [e0| |] eqn:E0; [|vm_compute in E0; discriminate E0 ..]. destruct (loadStrings e0) as [e1| |] eqn:E1; [|vm_compute in E0; injection E0 as <-; vm_compute in E1; discriminate E1 ..].
  destruct (loadSymbols e1) as [e2| |] eqn:E2; [|vm_compute in E0; injection E0 as <-; vm_compute in E1; injection E1 as <-; vm_compute in E2; discriminate E2 ..].
  exists e2. split; [by exists e0, e1|]. split; [|apply (bool_decide_unpack _); vm_compute; exact I].
  vm_compute in E0. injection E0 as <-. vm_compute in E1. injection E1 as <-. vm_compute in E2. injection E2 as <-. vm_compute. reflexivity.
Qed.

Lemma demo_first j s' : (j < 5)%nat → demo_syms !! j = Some s' → ¬ named (lit "f") (st_name s').
Proof. intros Hj. do 5 (destruct j as [|j]; [intros [= <-]; intros [_ [rest E]]; discriminate E|]). lia. Qed.

Lemma loaded_symbols_found_witness :
  ∃ k' addr, load_module demo_alloc demo_image demo_kernel = Done (ENONE, k', Some 4096) ∧ module_name2addr_raw (modules k') (cstr (lit "f")) = Done (Some (addr, 1)).
Proof.
  destruct (load_module demo_alloc demo_image demo_kernel) as [[[err k'] en]| |] eqn:E; [|vm_compute in E; discriminate E ..].
  assert (err = ENONE ∧ en = Some 4096) as [-> ->] by (vm_compute in E; injection E as <- _ <-; done).
  destruct demo_parsed as (e & Hp & Hs & Hb).
  destruct (loaded_symbols_found demo_alloc demo_image demo_kernel k' 4096 e 5 (mk_symbol (demo_name 48) 1 18 0 4 4) (lit "f")) as (sections & mm & sec & _ & _ & Hf).
  - exact Hb.
  - exact E.
  - exact Hp.
  - rewrite Hs. reflexivity.
  - named_tac.
  - rewrite Hs. exact demo_first.
  - vm_compute. discriminate.
  - vm_compute. discriminate.
  - reflexivity.
  - exists k', (u64 (s_addr sec + 4)). split; [reflexivity|exact Hf].
Defined.

(** A call that is linked: the section is at 4096 and the function at 0x200000. *)
Definition demo_call : ELF :=
  mk_elf [] (mk_header 0 0 0 0 0 0 0 0 0 0 0 0 0) [] None [] [] None [mk_symbol (cstr (lit "printk")) 0 16 0 0 0] [mk_relocation 2 R_AMD64_PC32 (-4) 0 0].
Definition demo_linked : kernel := mk_kernel [] [mk_msym (cstr (lit "printk")) 0x200000] [] (zeroed 4096 8 ∅) 1 true.

Definition demo_sym_names : names := mk_names [] [lit "printk"] [lit "printk"] [].

Lemma relocate_links_witness :
  ∃ m' k', relocate demo_call [mk_msec 4096 8] (mk_module 1 [] 0 0 [] [] [] []) demo_linked = Done (true, m', k') ∧
    fetch 4098 4 (mem k') = Done (le_bytes 4 (0x200000 - 4098 - 4)) ∧ mem k' !! 4097 = Some 0.
Proof.
  destruct (relocate_links demo_call [mk_msec 4096 8] demo_sym_names [(4098, le_bytes 4 (0x200000 - 4098 - 4))] (mk_module 1 [] 0 0 [] [] [] []) demo_linked) as (m' & k' & Hr & _ & Hf & Hx).
  - split_and!; [constructor|constructor; [named_tac|constructor]|constructor; [named_tac|constructor]|constructor].
  - constructor; [|constructor]. exists (mk_symbol (cstr (lit "printk")) 0 16 0 0 0), (lit "printk"), 0x200000, (mk_msec 4096 8), 4, (0x200000 - 4098 - 4).
    split_and!; [done|done|reflexivity|reflexivity| |done|reflexivity|reflexivity|apply (rel_pc32 0x200000 (-4) 4098)|reflexivity].
    apply of_kernel; [apply section_none, not_elem_of_nil|apply symbol_none; intros [|i] b [= <-] _; reflexivity|done|apply (kernel_found demo_linked demo_sym_names _ (mk_msym (cstr (lit "printk")) 0x200000)); exists 0%nat; split_and!; [reflexivity|reflexivity|lia]|done].
  - intros p x ->%list_elem_of_singleton Hc. assert (Hr : 4098 ≤ x < 4102) by exact Hc. assert (x = 4098 ∨ x = 4099 ∨ x = 4100 ∨ x = 4101) as [-> | [-> | [-> | ->] ] ] by lia; vm_compute; by eexists.
  - intros [|i] [|j] p q x Hi Hj _ _; done.
  - exists m', k'. split_and!; [exact Hr|apply (Hf (4098, le_bytes 4 (0x200000 - 4098 - 4))), list_elem_of_singleton; reflexivity|].
    rewrite Hx; [vm_compute; reflexivity|]. intros p ->%list_elem_of_singleton [H1 H2]. cbn in H1. lia.
Defined.

End Modules.
