(* ===== verification/Exec.v ===== *)
(** * Running a program

    [arch/x86_64/mod/core/elf64exec/elf64executor.cpp]: the sections of an ELF image
    are copied into the pages of a process, page by page, through a window of the
    kernel on the frames, and the arguments are laid out for the new program.
    Physical memory is a map of bytes, and the page table of the process gives the
    frame of a page; a window that is longer than a frame runs into the frame that
    follows in physical memory.  Waiting for the other threads is not modelled. *)
From S2P Require Import Prelude Errno Math Str Elf Modules.
Local Open Scope Z_scope.

Module Exec.
Import Str ELF Modules.

Definition PAGE_SIZE : Z := 4096.

(** The frames of the pages of the process, by page number, physical memory, and the
    pages that were reserved without a frame. *)
Record space := mk_space { frames : gmap Z Z; ram : memory; reserved : list Z }.

(** [Pagemap::paddrof]. *)
Definition paddrof (v : Z) (s : space) : Z := match frames s !! (v / PAGE_SIZE) with Some f => f + v mod PAGE_SIZE | None => 0 end.
(** The byte that the process sees at [v]. *)
Definition user_byte (v : Z) (s : space) : option Z := f ← frames s !! (v / PAGE_SIZE); ram s !! (f + v mod PAGE_SIZE).

Section Exec.
(** [Phys::alloc] of a frame, and the addresses that [Pagemap::alloc] finds free. *)
Context (new_frame : space → Z) (free_pages : space → Z → Z).

(** A page at [v] with a new frame, which is zeroed. *)
Definition alloc_page (v : Z) (s : space) : space := let f := new_frame s in mk_space (<[v / PAGE_SIZE := f]> (frames s)) (zeroed f 4096 (ram s)) (reserved s).

(** [Pagemap::alloc] of a part of a page, at a fixed address. *)
Definition alloc (v : Z) (s : space) : outcome space := if v =? 0 then Panic "aa" else Done (alloc_page v s).

(** [memcpy] or [memset64] through the window on the physical address [p]. *)
Definition poke (p : Z) (bs : list Z) (s : space) : outcome space := m ← store p bs (ram s); Done (mk_space (frames s) m (reserved s)).

(** The inner loop: a section, from [ptr] to [end_], a part of a page at a time. *)
Fixpoint load_chunks (turns : nat) (image : list Z) (no_data : bool) (ptr end_ fptr : Z) (s : space) : outcome space :=
  if negb (ptr <? end_) then Done s
  else
    match turns with
    | O => Fault
    | S turns =>
        let chk_size := u64 (PAGE_SIZE - Z.land ptr 0x0FFF) `min` u64 (end_ - ptr) in
        s ← (if paddrof ptr s =? 0 then alloc ptr s else Done s);
        let paddr := paddrof ptr s in
        s ← (if no_data then poke paddr (replicate 4096 0) s else bs ← get image fptr chk_size; poke paddr bs s);
        load_chunks turns image no_data (u64 (ptr + chk_size)) end_ (u64 (fptr + chk_size)) s
    end.

Definition loaded (h : section_header) : bool := negb ((Z.land (sc_flags h) SC_ALLOC =? 0) || (sc_size h =? 0)).
Definition load_section (image : list Z) (h : section_header) (s : space) : outcome space :=
  if negb (loaded h) then Done s
  else load_chunks (Z.to_nat (sc_size h / PAGE_SIZE + 2)) image (sc_type h =? SC_NO_DATA) (sc_address h) (u64 (sc_address h + sc_size h)) (sc_file_offset h) s.
Fixpoint load_sections (image : list Z) (hs : list section_header) (s : space) : outcome space :=
  match hs with [] => Done s | h :: hs => s ← load_section image h s; load_sections image hs s end.

(** [kpanic] when a section is not present. *)
Fixpoint check_sections (hs : list section_header) (s : space) : outcome unit :=
  match hs with
  | [] => Done tt
  | h :: hs => if loaded h && (paddrof (sc_address h) s =? 0) then Panic "section not present" else check_sections hs s
  end.

Fixpoint tls_size (l : list program_header) (size : Z) : Z :=
  match l with [] => size | p :: l => tls_size l (if ph_type p =? PH_TLS then ph_memory_size p else size) end.

(** *** Arguments *)

(** [Pagemap::alloc] of [n] pages at [v]. *)
Fixpoint alloc_pages (n : nat) (v : Z) (s : space) : space := match n with O => s | S n => alloc_pages n (v + PAGE_SIZE) (alloc_page v s) end.

(** The number of the arguments, at most 32. *)
Fixpoint count_args (fuel : nat) (args : list (option (list Z))) : nat :=
  match fuel, args with S fuel, Some _ :: args => S (count_args fuel args) | _, _ => O end.

Fixpoint args_size (args : list (list Z)) (size : Z) : outcome Z :=
  match args with [] => Done size | a :: args => n ← strlen a; args_size args (i32 (size + int_ceil_i32 (i32 (n + 1)) 16)) end.

(** The loop that copies the strings and stores their addresses. *)
Fixpoint copy_args (i : Z) (args : list (list Z)) (usr krn string_offset : Z) (s : space) : outcome space :=
  match args with
  | [] => Done s
  | a :: args =>
      n ← strlen a;
      bs ← get a 0 (n + 1);
      s ← poke (krn + string_offset) bs s;
      s ← poke (krn + i * 8) (le_bytes 8 (u64 (usr + string_offset))) s;
      copy_args (i + 1) args usr krn (i32 (string_offset + int_ceil_i32 (n + 1) 16)) s
  end.
Definition setup_argv (argv : list (option (list Z))) (s : space) : outcome (Z * Z * space) :=
  let argc := count_args 32 argv in
  let args := omap (λ x, x) (take argc argv) in
  let string_offset := int_ceil_i32 ((Z.of_nat argc + 1) * 8) 16 in
  arg_size ← args_size args string_offset;
  let usr := free_pages s arg_size in
  let s := alloc_pages (Z.to_nat ((arg_size + PAGE_SIZE - 1) / PAGE_SIZE)) usr s in
  s ← copy_args 0 args usr (paddrof usr s) string_offset s;
  Done (Z.of_nat argc, usr, s).

(** *** [exec] of an image that was read *)

(** The page that is to stay without a frame; the address is not fixed. *)
Definition reserve_null (s : space) : space :=
  if paddrof 0 s =? 0 then mk_space (frames s) (ram s) (free_pages s PAGE_SIZE :: reserved s) else s.

Definition exec (image : list Z) (argv : list (option (list Z))) (s : space) : outcome (error_t * option (option Z * Z * Z * Z) * space) :=
  e ← create image;
  if negb (isValid e BIT_64 EN_LITTLE ISA_AMD64) then Done (ENOEXEC, None, s)
  else
    let tls := tls_size (program_headers e) 0 in
    s ← load_sections image (section_headers e) s;
    _ ← check_sections (section_headers e) s;
    let s := reserve_null s in
    '(argc, usr, s) ← setup_argv argv s;
    Done (ENONE, Some (entry e, tls, argc, usr), s).

(** ** What the process sees *)

(** Frames are whole pages of their own, in memory. *)
Record space_ok (s : space) : Prop := mk_space_ok {
  so_frame : ∀ p f, frames s !! p = Some f → 0 < f ∧ f mod PAGE_SIZE = 0 ∧ ∀ i, 0 ≤ i < PAGE_SIZE → is_Some (ram s !! (f + i));
  so_inj : ∀ p p' f, frames s !! p = Some f → frames s !! p' = Some f → p = p' }.

(** What the frame allocator promises: a frame no page has. *)
Hypothesis new_frame_fresh : ∀ s, space_ok s → 0 < new_frame s ∧ new_frame s mod PAGE_SIZE = 0 ∧ ∀ p, frames s !! p ≠ Some (new_frame s).

Lemma zeroed_lookup a n m x : zeroed a n m !! x = if decide (a ≤ x < a + Z.of_nat n) then Some 0 else m !! x.
Proof.
  revert a m. induction n as [|n IH]; intros a m; cbn [zeroed]; [by rewrite decide_False by lia|]. rewrite IH.
  destruct (decide (a + 1 ≤ x < a + 1 + Z.of_nat n)); [by rewrite decide_True by lia|]. destruct (decide (a = x)) as [->|Hne].
  - rewrite lookup_insert_eq, decide_True by lia. done.
  - rewrite lookup_insert_ne, decide_False by lia. done.
Qed.

(** Different pages have their bytes at different places. *)
Lemma frames_apart s p p' f f' i j : space_ok s → frames s !! p = Some f → frames s !! p' = Some f' → 0 ≤ i < PAGE_SIZE → 0 ≤ j < PAGE_SIZE →
  f + i = f' + j → p = p' ∧ i = j.
Proof.
  intros [Hf Hinj] Hp Hp' Hi Hj E. unfold PAGE_SIZE in *. destruct (Hf p f Hp) as (_ & M & _), (Hf p' f' Hp') as (_ & M' & _).
  pose proof (Z.div_mod f 4096 ltac:(lia)) as D. pose proof (Z.div_mod f' 4096 ltac:(lia)) as D'. assert (f = f') as <- by lia. split; [by eapply Hinj|lia].
Qed.

Lemma alloc_page_ok v s : space_ok s → frames s !! (v / PAGE_SIZE) = None → space_ok (alloc_page v s).
Proof.
  intros Hok Hno. destruct (new_frame_fresh s Hok) as (H1 & H2 & H3). pose proof Hok as [Hf Hinj]. unfold alloc_page. constructor; cbn [frames ram].
  - intros p f [[<- <-]|[Hne Hp]]%lookup_insert_Some.
    + split_and!; [exact H1|exact H2|]. intros i Hi. rewrite zeroed_lookup, decide_True by (unfold PAGE_SIZE in *; lia). by eexists.
    + destruct (Hf p f Hp) as (F1 & F2 & F3). split_and!; [exact F1|exact F2|]. intros i Hi. rewrite zeroed_lookup. destruct (decide _); [by eexists|by apply F3].
  - intros p p' f [[<- <-]|[Hne Hp]]%lookup_insert_Some [[<- E]|[Hne' Hp']]%lookup_insert_Some; [done|by apply H3 in Hp'|subst f; by apply H3 in Hp|by eapply Hinj].
Qed.

Lemma alloc_page_bytes v s x : space_ok s → frames s !! (v / PAGE_SIZE) = None →
  user_byte x (alloc_page v s) = if decide (x / PAGE_SIZE = v / PAGE_SIZE) then Some 0 else user_byte x s.
Proof.
  intros Hok Hno. destruct (new_frame_fresh s Hok) as (H1 & H2 & H3). unfold user_byte, alloc_page. cbn [frames ram]. pose proof (Z.mod_pos_bound x PAGE_SIZE ltac:(unfold PAGE_SIZE; lia)) as Hm.
  destruct (decide (x / PAGE_SIZE = v / PAGE_SIZE)) as [->|Hne].
  - rewrite lookup_insert_eq. cbn [mbind option_bind]. rewrite zeroed_lookup, decide_True by (unfold PAGE_SIZE in *; lia). done.
  - rewrite lookup_insert_ne by congruence. destruct (frames s !! (x / PAGE_SIZE)) as [f|] eqn:Ef; [|done]. cbn [mbind option_bind]. rewrite zeroed_lookup, decide_False; [done|].
    destruct (so_frame s Hok _ _ Ef) as (F1 & F2 & _). unfold PAGE_SIZE in *. pose proof (Z.div_mod f 4096 ltac:(lia)). pose proof (Z.div_mod (new_frame s) 4096 ltac:(lia)).
    assert (f ≠ new_frame s) by (intros ->; by apply H3 in Ef). lia.
Qed.

Lemma page_split v : v = v / PAGE_SIZE * PAGE_SIZE + v mod PAGE_SIZE ∧ 0 ≤ v mod PAGE_SIZE < PAGE_SIZE.
Proof. unfold PAGE_SIZE. pose proof (Z.div_mod v 4096 ltac:(lia)). pose proof (Z.mod_pos_bound v 4096 ltac:(lia)). lia. Qed.

(** A write within a page is seen there and nowhere else. *)
Lemma poke_ok v f bs s :
  space_ok s → frames s !! (v / PAGE_SIZE) = Some f → v mod PAGE_SIZE + Z.of_nat (length bs) ≤ PAGE_SIZE →
  ∃ s', poke (paddrof v s) bs s = Done s' ∧ space_ok s' ∧ frames s' = frames s ∧
    ∀ x, user_byte x s' = if decide (v ≤ x < v + Z.of_nat (length bs)) then bs !! Z.to_nat (x - v) else user_byte x s.
Proof.
  intros Hok Hf Hlen. pose proof Hok as [Hfr Hinj]. destruct (page_split v) as [Hv Hvm]. unfold poke, paddrof. rewrite Hf.
  destruct (store_spec (f + v mod PAGE_SIZE) bs (ram s)) as (m & -> & Hm).
  { intros x Hx. replace x with (f + (x - f)) by lia. apply (Hfr _ _ Hf). lia. }
  rewrite bind_ret. eexists. split; [reflexivity|]. split; [|split; [done|]].
  - constructor; cbn [frames ram]; [|done]. intros p g Hg. destruct (Hfr p g Hg) as (G1 & G2 & G3). split_and!; [done|done|]. intros i Hi. rewrite Hm. destruct (decide _) as [E|E]; [|by apply G3].
    apply lookup_lt_is_Some_2. lia.
  - intros x. destruct (page_split x) as [Hx Hxm]. unfold user_byte. cbn [frames ram]. destruct (frames s !! (x / PAGE_SIZE)) as [g|] eqn:Eg; cbn [mbind option_bind].
    + rewrite Hm. destruct (decide (v ≤ x < v + Z.of_nat (length bs))) as [E|E].
      * assert (Hpage : x / PAGE_SIZE = v / PAGE_SIZE) by (symmetry; unfold PAGE_SIZE in *; lia). assert (g = f) as -> by congruence. rewrite decide_True by lia. f_equal. lia.
      * rewrite decide_False; [done|]. intros Hin. destruct (frames_apart s _ _ g f (x mod PAGE_SIZE) (g + x mod PAGE_SIZE - f) Hok Eg Hf Hxm ltac:(lia) ltac:(lia)) as [Hp Hi]. rewrite Hp in Hx. lia.
    + rewrite decide_False; [done|]. intros E. assert (Hpage : x / PAGE_SIZE = v / PAGE_SIZE) by (symmetry; unfold PAGE_SIZE in *; lia). congruence.
Qed.

(** The page of [v] is there: it was, or it is new and zeroed. *)
Lemma ensure_ok v s : space_ok s → 0 < v → ∃ s1 f, (if paddrof v s =? 0 then alloc v s else Done s) = Done s1 ∧ space_ok s1 ∧ frames s1 !! (v / PAGE_SIZE) = Some f ∧
  ∀ x b, user_byte x s = Some b → user_byte x s1 = Some b.
Proof.
  intros Hok Hv. destruct (page_split v) as [_ Hvm]. unfold paddrof. destruct (frames s !! (v / PAGE_SIZE)) as [f|] eqn:Ef.
  - destruct (so_frame s Hok _ _ Ef) as (F1 & _). rewrite (proj2 (Z.eqb_neq _ 0)) by lia. by exists s, f.
  - cbn [Z.eqb]. unfold alloc. rewrite (proj2 (Z.eqb_neq v 0)) by lia. exists (alloc_page v s), (new_frame s). split_and!; [done|by apply alloc_page_ok|apply lookup_insert_eq|]. intros x b Hx. rewrite alloc_page_bytes by done.
    rewrite decide_False; [done|]. intros E. unfold user_byte in Hx. by rewrite E, Ef in Hx.
Qed.

(** Where a section that is loaded up to [end_] ends: pages are zeroed whole. *)
Definition section_end (no_data : bool) (end_ : Z) : Z := if no_data then (end_ + PAGE_SIZE - 1) / PAGE_SIZE * PAGE_SIZE else end_.

Lemma load_chunks_ok turns image no_data ptr end_ fptr s :
  space_ok s → 0 < ptr ≤ end_ → end_ + PAGE_SIZE < 2 ^ 64 → ptr = end_ ∨ end_ ≤ (ptr / PAGE_SIZE + Z.of_nat turns) * PAGE_SIZE →
  (no_data = true → ptr mod PAGE_SIZE = 0 ∨ ptr = end_) → (no_data = false → fptr + (end_ - ptr) ≤ Z.of_nat (length image)) → 0 ≤ fptr ∧ fptr + (end_ - ptr) < 2 ^ 63 →
  ∃ s', load_chunks turns image no_data ptr end_ fptr s = Done s' ∧ space_ok s' ∧
    (∀ x, ptr ≤ x < end_ → user_byte x s' = if no_data then Some 0 else image !! Z.to_nat (fptr + (x - ptr))) ∧
    (∀ x b, ¬ ptr ≤ x < section_end no_data end_ → user_byte x s = Some b → user_byte x s' = Some b).
Proof.
  revert ptr fptr s. induction turns as [|turns IH]; intros ptr fptr s Hok Hptr Hend Hturns Hal Himg Hfp; cbn [load_chunks].
  { destruct (page_split ptr) as [Hp Hpm]. destruct (Z.ltb_spec ptr end_); cbn [negb]; [unfold PAGE_SIZE in *; lia|]. exists s. split_and!; [done|done|intros; lia|done]. }
  destruct (Z.ltb_spec ptr end_) as [Hlt|Hge]; cbn [negb]; [|exists s; split_and!; [done|done|intros; lia|done]].
  assert (Hland : Z.land ptr 0x0FFF = ptr mod PAGE_SIZE) by (change 0x0FFF with (Z.ones 12); by rewrite Z.land_ones by lia).
  destruct (page_split ptr) as [Hp Hpm]. rewrite Hland. set (chk := u64 (PAGE_SIZE - ptr mod PAGE_SIZE) `min` u64 (end_ - ptr)).
  assert (Hchk : chk = (PAGE_SIZE - ptr mod PAGE_SIZE) `min` (end_ - ptr)) by (unfold chk; rewrite !wrap_small by (unfold PAGE_SIZE in *; lia); done).
  destruct (ensure_ok ptr s Hok ltac:(lia)) as (s1 & f & -> & Hok1 & Hf1 & Hkeep1). rewrite bind_ret.
  set (bs := if no_data then replicate 4096 0 else take (Z.to_nat chk) (drop (Z.to_nat fptr) image)).
  assert (Hbs : Z.of_nat (length bs) = if no_data then PAGE_SIZE else chk).
  { unfold bs. destruct no_data; [by rewrite length_replicate|]. specialize (Himg eq_refl). rewrite length_take, length_drop. unfold PAGE_SIZE in *. lia. }
  assert (Hpoke : (if no_data then poke (paddrof ptr s1) (replicate 4096 0) s1 else bs ← get image fptr chk; poke (paddrof ptr s1) bs s1) = poke (paddrof ptr s1) bs s1).
  { unfold bs. destruct no_data; [done|]. specialize (Himg eq_refl). rewrite get_eq, bind_ret by (unfold PAGE_SIZE in *; lia). done. }
  rewrite Hpoke. destruct (poke_ok ptr f bs s1 Hok1 Hf1) as (s2 & -> & Hok2 & _ & Hb2).
  { rewrite Hbs. destruct no_data; [destruct (Hal eq_refl) as [->|]; [unfold PAGE_SIZE; lia|lia]|lia]. }
  rewrite bind_ret. rewrite !wrap_small by (unfold PAGE_SIZE in *; lia).
  assert (Hnext : (ptr + chk = end_ ∧ ptr + chk ≤ (ptr / PAGE_SIZE + 1) * PAGE_SIZE) ∨ (ptr + chk) = (ptr / PAGE_SIZE + 1) * PAGE_SIZE ∧ ptr + chk ≤ end_) by lia.
  assert (Hdiv : (ptr + chk) = (ptr / PAGE_SIZE + 1) * PAGE_SIZE → (ptr + chk) / PAGE_SIZE = ptr / PAGE_SIZE + 1 ∧ (ptr + chk) mod PAGE_SIZE = 0) by (intros ->; split; [by rewrite Z.div_mul|by rewrite Z_mod_mult]).
  destruct (IH (ptr + chk) (fptr + chk) s2 Hok2) as (s' & -> & Hok' & Hin & Hout).
  - lia.
  - done.
  - destruct Hnext as [[E _]|[E _]]; [by left|right; destruct (Hdiv E) as [-> _]; lia].
  - intros _. destruct Hnext as [[E _]|[E _]]; [by right|left; by apply Hdiv].
  - intros E. specialize (Himg E). lia.
  - unfold PAGE_SIZE in *. lia.
  - exists s'. split_and!; [done|done| |].
    + intros x Hx. destruct (decide (ptr + chk ≤ x)) as [Hge|Hlt'].
      * rewrite Hin by lia. destruct no_data; [done|]. f_equal. lia.
      * assert (Hx2 : user_byte x s2 = if no_data then Some 0 else image !! Z.to_nat (fptr + (x - ptr))).
        { rewrite Hb2, decide_True by (rewrite Hbs; destruct no_data; lia). unfold bs. destruct no_data; [apply lookup_replicate_2; unfold PAGE_SIZE in *; lia|].
          rewrite lookup_take_lt by lia. rewrite lookup_drop. f_equal. lia. }
        destruct (if no_data then Some 0 else image !! Z.to_nat (fptr + (x - ptr))) as [b|] eqn:Eb.
        -- apply Hout; [lia|exact Hx2].
        -- exfalso. destruct no_data; [done|]. specialize (Himg eq_refl). apply lookup_ge_None_1 in Eb. lia.
    + intros x b Hx Hb. apply Hkeep1 in Hb. assert (Hbeg : ptr + chk ≤ section_end no_data end_ ∧ (no_data = true → ptr + PAGE_SIZE ≤ section_end no_data end_)).
      { unfold section_end. destruct no_data; [|split; [lia|done]]. destruct (Hal eq_refl) as [Ha|]; [|lia]. destruct (page_split (end_ + PAGE_SIZE - 1)) as [He Hem].
        unfold PAGE_SIZE in *. lia. }
      apply Hout; [lia|]. rewrite Hb2, decide_False; [done|]. rewrite Hbs. destruct no_data; [|lia]. destruct Hbeg as [_ Hbeg]. specialize (Hbeg eq_refl). lia.
Qed.

(** *** The sections *)

Definition no_data (h : section_header) : bool := sc_type h =? SC_NO_DATA.
(** Where the bytes that loading [h] may change end. *)
Definition extent_end (h : section_header) : Z := section_end (no_data h) (sc_address h + sc_size h).

(** A section within the address space and the image; one without data starts a page. *)
Record section_fits (image : list Z) (h : section_header) : Prop := mk_section_fits {
  sf_address : 0 < sc_address h ∧ 0 ≤ sc_size h ∧ sc_address h + sc_size h + PAGE_SIZE < 2 ^ 64;
  sf_aligned : no_data h = true → sc_address h mod PAGE_SIZE = 0;
  sf_image : no_data h = false → sc_file_offset h + sc_size h ≤ Z.of_nat (length image);
  sf_offset : 0 ≤ sc_file_offset h ∧ sc_file_offset h + sc_size h < 2 ^ 63 }.
Definition sections_fit (image : list Z) (hs : list section_header) : Prop := Forall (λ h, loaded h = true → section_fits image h) hs.
(** No byte belongs to two of them. *)
Definition apart (h h' : section_header) : Prop := extent_end h ≤ sc_address h' ∨ extent_end h' ≤ sc_address h.
Fixpoint sections_apart (hs : list section_header) : Prop :=
  match hs with [] => True | h :: hs => (loaded h = true → Forall (λ h', loaded h' = true → apart h h') hs) ∧ sections_apart hs end.

(** The process sees the section: its bytes of the image, or zeros. *)
Definition section_seen (image : list Z) (h : section_header) (s : space) : Prop :=
  ∀ k, 0 ≤ k < sc_size h → user_byte (sc_address h + k) s = if no_data h then Some 0 else image !! Z.to_nat (sc_file_offset h + k).
Definition sections_seen (image : list Z) (hs : list section_header) (s : space) : Prop := Forall (λ h, loaded h = true → section_seen image h s) hs.

(** Whatever is seen of [s] at the addresses of [P] is seen of [s']. *)
Definition keeps (P : Z → Prop) (s s' : space) : Prop := ∀ x b, P x → user_byte x s = Some b → user_byte x s' = Some b.

Lemma keeps_trans (P Q R : Z → Prop) s1 s2 s3 : keeps P s1 s2 → keeps Q s2 s3 → (∀ x, R x → P x ∧ Q x) → keeps R s1 s3.
Proof. intros H12 H23 HR x b [HP HQ]%HR Hb. by apply H23, H12. Qed.

Lemma loaded_size h : loaded h = true → sc_size h ≠ 0.
Proof. unfold loaded. destruct (Z.eqb_spec (sc_size h) 0); [by rewrite orb_true_r|done]. Qed.

Lemma load_section_ok image h s : space_ok s → loaded h = true → section_fits image h →
  ∃ s', load_section image h s = Done s' ∧ space_ok s' ∧ section_seen image h s' ∧ keeps (λ x, ¬ sc_address h ≤ x < extent_end h) s s'.
Proof.
  intros Hok Hl [(Ha1 & Ha2 & Ha3) Hal Himg Hoff]. unfold load_section. rewrite Hl. cbn [negb]. destruct (page_split (sc_address h)) as [Hp Hpm].
  destruct (page_split (sc_size h)) as [Hq Hqm]. rewrite wrap_small by (unfold PAGE_SIZE in *; lia).
  destruct (load_chunks_ok (Z.to_nat (sc_size h / PAGE_SIZE + 2)) image (no_data h) (sc_address h) (sc_address h + sc_size h) (sc_file_offset h) s) as (s' & E & Hok' & Hin & Hout).
  - done.
  - lia.
  - done.
  - right. unfold PAGE_SIZE in *. lia.
  - intros E. left. by apply Hal.
  - intros E. specialize (Himg E). lia.
  - lia.
  - exists s'. split_and!; [exact E|done| |exact Hout]. intros k Hk. rewrite Hin by lia. destruct (no_data h); [done|]. do 2 f_equal. lia.
Qed.

(** A section stays as it is when its bytes are kept. *)
Lemma section_kept image h (P : Z → Prop) s s' : section_fits image h → keeps P s s' → (∀ x, sc_address h ≤ x < sc_address h + sc_size h → P x) →
  section_seen image h s → section_seen image h s'.
Proof.
  intros [_ _ Himg [Hoff _]] Hk HP Hseen k Hr. specialize (Hseen k Hr).
  destruct (if no_data h then Some 0 else image !! Z.to_nat (sc_file_offset h + k)) as [b|] eqn:E; [by apply Hk; [apply HP; lia|]|].
  exfalso. destruct (no_data h); [done|]. apply lookup_ge_None_1 in E. specialize (Himg eq_refl). lia.
Qed.

Lemma extent_covers image h : section_fits image h → sc_address h + sc_size h ≤ extent_end h.
Proof.
  intros _. unfold extent_end, section_end. destruct (no_data h); [|lia]. destruct (page_split (sc_address h + sc_size h + PAGE_SIZE - 1)) as [He Hem]. lia.
Qed.

(** Every section that is loaded is seen in the end, and all else is kept. *)
Lemma load_sections_ok image hs s : space_ok s → sections_fit image hs → sections_apart hs →
  ∃ s', load_sections image hs s = Done s' ∧ space_ok s' ∧ sections_seen image hs s' ∧
    keeps (λ x, Forall (λ h, loaded h = true → ¬ sc_address h ≤ x < extent_end h) hs) s s'.
Proof.
  unfold sections_fit, sections_seen. intros Hok Hfit. revert s Hok. induction Hfit as [|h hs Hh Hhs IH]; intros s Hok Hap; cbn [load_sections].
  { exists s. split_and!; [done|done|constructor|by intros x b]. }
  destruct Hap as [Hap1 Hap2]. destruct (loaded h) eqn:El.
  - specialize (Hh eq_refl). specialize (Hap1 eq_refl). destruct (load_section_ok image h s Hok El Hh) as (s1 & -> & Hok1 & Hseen & Hkeep). rewrite bind_ret.
    destruct (IH s1 Hok1 Hap2) as (s2 & -> & Hok2 & Hall & Hkeep2). exists s2. split_and!; [done|done| |].
    + constructor; [|exact Hall]. intros _. eapply section_kept; [exact Hh|exact Hkeep2| |exact Hseen]. intros x Hx. cbn beta. rewrite Forall_forall in Hap1 |- *.
      intros h' Hin' El'. rewrite Forall_forall in Hhs. pose proof (extent_covers image h Hh). destruct (Hap1 h' Hin' El') as [H'|H']; lia.
    + eapply keeps_trans; [exact Hkeep|exact Hkeep2|]. cbn beta. intros x Hx. apply Forall_cons in Hx as [Hx1 Hx2]. split; [by apply Hx1|exact Hx2].
  - unfold load_section. rewrite El. cbn [negb]. rewrite bind_ret. destruct (IH s Hok Hap2) as (s2 & -> & Hok2 & Hall & Hkeep2). exists s2. split_and!; [done|done| |].
    + constructor; [by rewrite El|exact Hall].
    + eapply keeps_trans; [by intros x b _ Hb; exact Hb|exact Hkeep2|]. cbn beta. intros x Hx. apply Forall_cons in Hx as [_ Hx2]. by split; [exact I|].
Qed.

(** So the check that follows finds every section. *)
Lemma check_sections_ok image hs s : space_ok s → sections_fit image hs → sections_seen image hs s → check_sections hs s = Done tt.
Proof.
  intros Hok Hfit Hseen. induction hs as [|h hs IH]; cbn [check_sections]; [done|]. apply Forall_cons in Hfit as [Hf Hfit], Hseen as [Hs Hseen]. specialize (IH Hfit Hseen).
  destruct (loaded h) eqn:El; cbn [andb]; [|exact IH]. specialize (Hf eq_refl). specialize (Hs eq_refl). pose proof (loaded_size h El). destruct Hf as [(H1 & H2 & H3) Hal Himg [Hoff _]].
  specialize (Hs 0 ltac:(lia)). rewrite Z.add_0_r in Hs. unfold paddrof. unfold user_byte in Hs. destruct (page_split (sc_address h)) as [_ Hm].
  destruct (frames s !! (sc_address h / PAGE_SIZE)) as [f|] eqn:Ef.
  - destruct (so_frame s Hok _ _ Ef) as (F & _). by rewrite (proj2 (Z.eqb_neq _ 0)) by lia.
  - cbn [mbind option_bind] in Hs. exfalso. destruct (no_data h); [done|]. specialize (Himg eq_refl). symmetry in Hs. apply lookup_ge_None_1 in Hs. lia.
Qed.

(** *** The arguments *)

(** The process finds [bs] at [v]. *)
Definition sees (v : Z) (bs : list Z) (s : space) : Prop := ∀ k b, bs !! k = Some b → user_byte (v + Z.of_nat k) s = Some b.

Lemma sees_kept v bs (P : Z → Prop) s s' : keeps P s s' → (∀ x, v ≤ x < v + Z.of_nat (length bs) → P x) → sees v bs s → sees v bs s'.
Proof. intros Hk HP Hs k b Hb. apply Hk; [|by apply Hs]. apply HP. apply lookup_lt_Some in Hb. lia. Qed.

(** The room for a string, and for all of them with the vector. *)
Definition arg_room (a : list Z) : Z := int_ceil_i32 (Z.of_nat (length a) + 1) 16.
Definition rooms (args : list (list Z)) : Z := foldr (λ a n, arg_room a + n) 0 args.
Definition vector_room (argc : nat) : Z := int_ceil_i32 ((Z.of_nat argc + 1) * 8) 16.

Lemma arg_room_bounds a : Z.of_nat (length a) < 2 ^ 30 → Z.of_nat (length a) + 1 ≤ arg_room a < Z.of_nat (length a) + 17.
Proof. intros Hl. pose proof (int_ceil_i32_spec (Z.of_nat (length a) + 1) 16 ltac:(lia) ltac:(lia) ltac:(lia)). unfold arg_room. lia. Qed.

(** Strings whose rooms fit a page. *)
Definition short (args : list (list Z)) : Prop := Forall (λ a, text a ∧ Z.of_nat (length a) < PAGE_SIZE) args.
Lemma rooms_nonneg args : short args → 0 ≤ rooms args.
Proof.
  induction 1 as [|a args [_ Hl] _ IH]; cbn [rooms foldr]; [lia|]. pose proof (arg_room_bounds a ltac:(unfold PAGE_SIZE in *; lia)). fold (rooms args). lia.
Qed.

Lemma strlen_cstr a : text a → strlen (cstr a) = Done (Z.of_nat (length a)).
Proof. apply strlen_text. Qed.

Lemma args_size_ok args off : short args → 0 ≤ off → off + rooms args ≤ PAGE_SIZE → args_size (cstr <$> args) off = Done (off + rooms args).
Proof.
  intros Hs. revert off. induction Hs as [|a args [Ht Hl] Hs IH]; intros off Ho Hr; cbn [args_size fmap list_fmap rooms foldr]; [by rewrite Z.add_0_r|].
  cbn [rooms foldr] in Hr. fold (rooms args) in Hr |- *. pose proof (rooms_nonneg args Hs). pose proof (arg_room_bounds a ltac:(unfold PAGE_SIZE in *; lia)).
  rewrite strlen_cstr, bind_ret by done. rewrite (swrap_small 32 (_ + 1)) by (unfold PAGE_SIZE in *; lia). fold (arg_room a).
  rewrite swrap_small by (unfold PAGE_SIZE in *; lia). rewrite IH by lia. f_equal. lia.
Qed.

(** A write through the window, at an offset of the page at [usr]. *)
Lemma poke_page usr f off bs s : space_ok s → frames s !! (usr / PAGE_SIZE) = Some f → usr mod PAGE_SIZE = 0 → 0 ≤ off → off + Z.of_nat (length bs) ≤ PAGE_SIZE → off < PAGE_SIZE →
  ∃ s', poke (f + off) bs s = Done s' ∧ space_ok s' ∧ frames s' = frames s ∧ sees (usr + off) bs s' ∧ keeps (λ x, ¬ usr + off ≤ x < usr + off + Z.of_nat (length bs)) s s'.
Proof.
  intros Hok Hf Hal Ho Hl Hlt. assert (Hd : (usr + off) / PAGE_SIZE = usr / PAGE_SIZE ∧ (usr + off) mod PAGE_SIZE = off).
  { destruct (page_split usr) as [Hu _], (page_split (usr + off)) as [Hu' ?]. unfold PAGE_SIZE in *. lia. }
  destruct Hd as [Hd Hm]. assert (Hpa : paddrof (usr + off) s = f + off) by (unfold paddrof; by rewrite Hd, Hf, Hm).
  destruct (poke_ok (usr + off) f bs s Hok ltac:(by rewrite Hd) ltac:(lia)) as (s' & E & Hok' & Hfr & Hb). rewrite Hpa in E. exists s'. split_and!; [done|done|done| |].
  - intros k b Hk. pose proof (lookup_lt_Some _ _ _ Hk). rewrite Hb, decide_True by lia. rewrite <-Hk. f_equal. lia.
  - intros x b Hx Hxb. by rewrite Hb, decide_False.
Qed.

(** The vector from its [i]-th element on points to the strings. *)
Definition args_seen (i usr : Z) (args : list (list Z)) (s : space) : Prop :=
  ∀ j a, args !! j = Some a → ∃ p, sees (usr + (i + Z.of_nat j) * 8) (le_bytes 8 p) s ∧ sees p (cstr a) s.

Lemma args_seen_cons i usr a args p s : sees (usr + i * 8) (le_bytes 8 p) s → sees p (cstr a) s → args_seen (i + 1) usr args s → args_seen i usr (a :: args) s.
Proof.
  intros Hv Hp Hr [|j] b Hj; [injection Hj as <-; exists p; by rewrite Z.add_0_r|]. destruct (Hr j b Hj) as (q & Hq1 & Hq2). exists q.
  by replace (i + Z.of_nat (S j)) with (i + 1 + Z.of_nat j) by lia.
Qed.

Lemma copy_args_ok args i usr f off s : space_ok s → frames s !! (usr / PAGE_SIZE) = Some f → usr mod PAGE_SIZE = 0 → 0 < usr → usr + PAGE_SIZE < 2 ^ 64 →
  short args → 0 ≤ i → (i + Z.of_nat (length args)) * 8 ≤ off → off + rooms args ≤ PAGE_SIZE →
  ∃ s', copy_args i (cstr <$> args) usr f off s = Done s' ∧ space_ok s' ∧ args_seen i usr args s' ∧
    keeps (λ x, ¬ usr + i * 8 ≤ x < usr + (i + Z.of_nat (length args)) * 8 ∧ ¬ usr + off ≤ x < usr + PAGE_SIZE) s s'.
Proof.
  intros Hok Hf Hal Hu1 Hu2 Hs. revert i off s Hok Hf. induction Hs as [|a args [Ht Hl] Hs IH]; intros i off s Hok Hf Hi Hv Hr; cbn [copy_args fmap list_fmap].
  { exists s. split_and!; [done|done|by intros j b|by intros x b]. }
  cbn [rooms foldr length] in Hr, Hv. fold (rooms args) in Hr. pose proof (rooms_nonneg args Hs). pose proof (arg_room_bounds a ltac:(unfold PAGE_SIZE in *; lia)).
  assert (Hlen : Z.of_nat (length (cstr a)) = Z.of_nat (length a) + 1) by (unfold cstr; rewrite length_app; cbn; lia).
  rewrite strlen_cstr, bind_ret by done. rewrite get_eq, bind_ret, drop_0, take_ge by lia.
  destruct (so_frame s Hok _ _ Hf) as (Hf0 & _). rewrite wrap_small by lia.
  destruct (poke_page usr f off (cstr a) s Hok Hf Hal ltac:(lia) ltac:(lia) ltac:(lia)) as (s1 & -> & Hok1 & Hf1 & Hs1 & Hk1). rewrite bind_ret.
  pose proof (le_bytes_length 8 (usr + off) ltac:(lia)) as Hle. rewrite <-Hf1 in Hf.
  destruct (poke_page usr f (i * 8) (le_bytes 8 (usr + off)) s1 Hok1 Hf Hal ltac:(lia) ltac:(lia) ltac:(lia)) as (s2 & -> & Hok2 & Hf2 & Hs2 & Hk2). rewrite bind_ret. rewrite <-Hf2 in Hf.
  fold (arg_room a). rewrite (swrap_small 32) by (unfold PAGE_SIZE in *; lia).
  destruct (IH (i + 1) (off + arg_room a) s2 Hok2 Hf ltac:(lia) ltac:(lia) ltac:(lia)) as (s' & E & Hok' & Hseen & Hk'). exists s'. split_and!; [exact E|done| |].
  - apply (args_seen_cons _ _ _ _ (usr + off)); [| |done].
    + eapply sees_kept; [exact Hk'| |exact Hs2]. intros x. cbn beta. lia.
    + eapply sees_kept; [exact Hk'| |]; [intros x; cbn beta; lia|]. eapply sees_kept; [exact Hk2| |exact Hs1]. intros x. cbn beta. lia.
  - eapply keeps_trans; [exact Hk1|eapply (keeps_trans _ _ (λ x, ¬ usr + i * 8 ≤ x < usr + (i + Z.of_nat (S (length args))) * 8 ∧ ¬ usr + off ≤ x < usr + PAGE_SIZE)); [exact Hk2|exact Hk'|]|]; cbn beta; intros x Hx; cbn [length] in *; lia.
Qed.

Lemma count_args_ok args fuel : (length args ≤ fuel)%nat → count_args fuel ((Some ∘ cstr <$> args) ++ [None]) = length args.
Proof. revert fuel. induction args as [|a args IH]; intros [|fuel] Hl; cbn in Hl |- *; [done|done|lia|]. f_equal. apply IH. lia. Qed.

Lemma args_present args : omap (λ x : option (list Z), x) (take (length args) ((Some ∘ cstr <$> args) ++ [None])) = cstr <$> args.
Proof.
  rewrite take_app_le, take_ge by (rewrite length_fmap; lia). induction args as [|a args IH]; [done|]. cbn. f_equal. exact IH.
Qed.

(** What [findContiguous] promises of the address of a page: no page is there. *)
Definition page_free (v : Z) (s : space) : Prop := 0 < v ∧ v + PAGE_SIZE < 2 ^ 64 ∧ v mod PAGE_SIZE = 0 ∧ frames s !! (v / PAGE_SIZE) = None.
(** Arguments that fit a page, with the vector. *)
Definition args_fit (args : list (list Z)) : Prop := short args ∧ (length args ≤ 32)%nat ∧ vector_room (length args) + rooms args ≤ PAGE_SIZE.

(** The new program finds its arguments, and a null pointer behind them. *)
Lemma setup_argv_ok args s : let usr := free_pages s (vector_room (length args) + rooms args) in
  space_ok s → args_fit args → page_free usr s →
  ∃ s', setup_argv ((Some ∘ cstr <$> args) ++ [None]) s = Done (Z.of_nat (length args), usr, s') ∧ space_ok s' ∧
    args_seen 0 usr args s' ∧ sees (usr + Z.of_nat (length args) * 8) (replicate 8 0) s' ∧ keeps (λ _, True) s s'.
Proof.
  intros usr Hok (Hs & Hn & Hfit) (Hu1 & Hu2 & Hal & Hno). unfold setup_argv. rewrite count_args_ok, args_present by done. fold (vector_room (length args)).
  assert (Hv : (Z.of_nat (length args) + 1) * 8 ≤ vector_room (length args)) by (unfold vector_room; pose proof (int_ceil_i32_spec ((Z.of_nat (length args) + 1) * 8) 16 ltac:(lia) ltac:(lia) ltac:(lia)); lia).
  pose proof (rooms_nonneg args Hs). rewrite args_size_ok, bind_ret by (done || lia). fold usr.
  assert (Z.to_nat ((vector_room (length args) + rooms args + PAGE_SIZE - 1) / PAGE_SIZE) = 1%nat) as ->
    by (rewrite <-(Z.div_unique _ _ 1 (vector_room (length args) + rooms args - 1)) by (unfold PAGE_SIZE in *; lia); done). cbn [alloc_pages].
  pose proof (alloc_page_ok usr s Hok Hno) as Hok1. assert (Hf1 : frames (alloc_page usr s) !! (usr / PAGE_SIZE) = Some (new_frame s)) by apply lookup_insert_eq.
  assert (paddrof usr (alloc_page usr s) = new_frame s) as -> by (unfold paddrof; rewrite Hf1, Hal; lia).
  destruct (copy_args_ok args 0 usr (new_frame s) (vector_room (length args)) (alloc_page usr s)) as (s' & -> & Hok' & Hseen & Hk); [done|done|done|done|done|done|lia|lia|lia|].
  rewrite bind_ret. exists s'. split_and!; [done|done|done| |].
  - intros k b [-> Hk8]%lookup_replicate. apply Hk; [lia|]. rewrite alloc_page_bytes, decide_True; [done| |done|done].
    destruct (page_split usr) as [Hus _], (page_split (usr + Z.of_nat (length args) * 8 + Z.of_nat k)) as [Hx ?]. unfold PAGE_SIZE in *. lia.
  - intros x b _ Hb. destruct (decide (x / PAGE_SIZE = usr / PAGE_SIZE)) as [E|E]; [unfold user_byte in Hb; by rewrite E, Hno in Hb|].
    apply Hk; [|by rewrite alloc_page_bytes, decide_False by done]. destruct (page_split usr) as [Hus _], (page_split x) as [Hx ?]. unfold PAGE_SIZE in *. lia.
Qed.


End Exec.

(** ** A program *)

(** An allocator of frames that meets its promise: the frame after the last one. *)
Definition last_frame (l : list (Z * Z)) : Z := foldr Z.max 0 l.*2.
Definition next_frame (s : space) : Z := last_frame (map_to_list (frames s)) + PAGE_SIZE.

Lemma last_frame_ok l : Forall (λ pf : Z * Z, 0 < pf.2 ∧ pf.2 mod PAGE_SIZE = 0) l →
  0 ≤ last_frame l ∧ last_frame l mod PAGE_SIZE = 0 ∧ Forall (λ pf, pf.2 ≤ last_frame l) l.
Proof.
  induction 1 as [|[p f] l [H1 H2] Hl (IH1 & IH2 & IH3)]; [by split_and!|]. change (last_frame ((p, f) :: l)) with (f `max` last_frame l). cbn [snd] in H1, H2. split_and!.
  - lia.
  - by destruct (Z.max_spec f (last_frame l)) as [[_ ->]|[_ ->]].
  - constructor; cbn [snd]; [lia|]. eapply Forall_impl; [exact IH3|]. intros [? ?] ?. cbn [snd] in *. lia.
Qed.
Lemma next_frame_fresh s : space_ok s → 0 < next_frame s ∧ next_frame s mod PAGE_SIZE = 0 ∧ ∀ p, frames s !! p ≠ Some (next_frame s).
Proof.
  intros Hok. destruct (last_frame_ok (map_to_list (frames s))) as (H1 & H2 & H3).
  { apply Forall_forall. intros [p f] Hp%elem_of_map_to_list. by destruct (so_frame s Hok p f Hp) as (? & ? & _). }
  unfold next_frame. split_and!; [unfold PAGE_SIZE in *; lia|by rewrite <-Zplus_mod_idemp_l, H2|]. intros p Hp. rewrite Forall_forall in H3.
  specialize (H3 (p, last_frame (map_to_list (frames s)) + PAGE_SIZE)). cbn [snd] in H3. unfold PAGE_SIZE in *. pose proof (H3 (proj2 (elem_of_map_to_list _ _ _) Hp)). lia.
Qed.

(** Code across two pages, a section without data, the names. *)
Definition prog_names : list Z := cstr (lit "") ++ cstr (lit ".text") ++ cstr (lit ".bss") ++ cstr (lit ".shstrtab").
Definition prog_sections : list (list Z) :=
  [[0; 0; 0; 0; 0; 0; 0; 0; 0; 0; 0];
   [1; 1; 6; 0; 0x400FF8; 64; 16; 0; 0; 16; 0];
   [7; 8; 3; 0; 0x402000; 80; 24; 0; 0; 16; 0];
   [12; 3; 0; 0; 0; 80; 22; 0; 0; 1; 0]].
Definition prog_layout : layout := mk_layout 2 ISA_AMD64 0x400FF8 0 102 3 [] prog_sections prog_names.
Definition prog_code : list Z := [1; 2; 3; 4; 5; 6; 7; 8; 9; 10; 11; 12; 13; 14; 15; 16].
Definition prog_image : list Z :=
  encode header_common (header_rows prog_layout).1 ++ encode header_union64 (header_rows prog_layout).2 ++ prog_code ++ prog_names ++
  concat (encode section_header64 <$> prog_sections).
Definition prog_elf : ELF := match create prog_image with Done e => e | _ => mk_elf [] (mk_header 0 0 0 0 0 0 0 0 0 0 0 0 0) [] None [] [] None [] [] end.
Definition prog_args : list (list Z) := [lit "init"; lit "-v"].

Lemma prog_headers : section_headers prog_elf = omap (λ row, match section_of prog_names row with Done h => Some h | _ => None end) prog_sections.
Proof. vm_compute. reflexivity. Qed.
Lemma prog_fits : sections_fit prog_image (section_headers prog_elf).
Proof.
  rewrite prog_headers. unfold prog_sections. cbn [omap list_omap section_of]. repeat (constructor; [first [discriminate|intros _; by constructor; vm_compute]|]). constructor.
Qed.
Lemma prog_apart : sections_apart (section_headers prog_elf).
Proof.
  rewrite prog_headers. unfold prog_sections. cbn [omap list_omap section_of sections_apart].
  split_and!; try done; intros _; repeat (constructor; [first [discriminate|intros _; left; by vm_compute]|]); constructor.
Qed.
Definition frames_at (p : Z) (o : outcome space) : option Z := match o with Done s => frames s !! p | _ => None end.


(** ** Where a page does not suffice *)

Definition user_of (x : Z) (o : outcome space) : option Z := match o with Done s => user_byte x s | _ => None end.

(** 4096 bytes are zeroed from the start of a section without data, so one that does
    not start a page zeroes the beginning of the frame that follows: here the page at
    [0x500000] of the same process. *)
Example unaligned_bss_overruns :
  let s := mk_space {[0x500 := 8192]} (<[8192 := 7]> (zeroed 8192 4096 ∅)) [] in
  user_byte 0x500000 s = Some 7 ∧
  user_of 0x500000 (load_section (λ _, 4096) [] (mk_section [] SC_NO_DATA 3 0x402010 0 8 0 0 1 0) s) = Some 0.
Proof. vm_compute. done. Qed.

(** The window on the arguments covers consecutive physical memory, their pages need
    not: of a long argument the new program does not see what is behind its first page. *)
Definition far_frames (s : space) : Z := if decide (frames s = ∅) then 4096 else 0x10000.
Example long_argument_cut :
  match setup_argv far_frames (λ _ _, 0x7000000) [Some (cstr (replicate 5000 97)); None] (mk_space ∅ (zeroed 8192 4096 ∅) []) with
  | Done (_, usr, s) => user_byte (usr + 16) s = Some 97 ∧ user_byte (usr + 4095) s = Some 97 ∧ user_byte (usr + 4096) s = Some 0
  | _ => False
  end.
Proof. vm_compute. done. Qed.

End Exec.
