(* ===== verification/Smart.v ===== *)
(** * Smart pointers and arrays

    [include/aex/mem/smartptr.hpp] and [include/aex/mem/smartarray.hpp]: reference
    counts.  The state has the counters and the objects that are allocated, the smart
    pointers that exist (one that was destroyed or is null counts for nothing), an
    array, and the clean-ups that are due: a thread that takes a count to zero deletes
    the object in a later step, so the operations of other threads come in between.
    A counter or an object that is used after its deletion is a [Fault].  The
    destructor of an object is not modelled. *)
From S2P Require Import Prelude.
Local Open Scope Z_scope.

Module Smart.

(** ** The classes *)

Record SmartPointer := mk_sp { m_val : Z; m_refs : Z }.
Record element := mk_element { ptr : Z; shared : Z }.

Definition null : SmartPointer := mk_sp 0 0.
Definition no_element : element := mk_element 0 0.

Record state := mk_state {
  counters : gmap Z Z; objects : gset Z; pointers : list SmartPointer; m_elements : list element;
  due : list SmartPointer; next_counter : Z }.

Definition initial : state := mk_state ∅ ∅ [] [] [] 1.

Definition with_counters (m : gmap Z Z) (s : state) : state := mk_state m (objects s) (pointers s) (m_elements s) (due s) (next_counter s).
Definition with_pointers (l : list SmartPointer) (s : state) : state := mk_state (counters s) (objects s) l (m_elements s) (due s) (next_counter s).
Definition with_elements (l : list element) (s : state) : state := mk_state (counters s) (objects s) (pointers s) l (due s) (next_counter s).
Definition with_due (l : list SmartPointer) (s : state) : state := mk_state (counters s) (objects s) (pointers s) (m_elements s) l (next_counter s).

(** ** [ref_counter] *)

Definition increment (c : Z) (s : state) : outcome state :=
  match counters s !! c with Some n => Done (with_counters (<[c := i32 (n + 1)]> (counters s)) s) | None => Fault end.
Definition decrement (c : Z) (s : state) : outcome (bool * state) :=
  match counters s !! c with
  | Some n => Done (i32 (n - 1) =? 0, with_counters (<[c := i32 (n - 1)]> (counters s)) s)
  | None => Fault
  end.
Definition ref_count (c : Z) (s : state) : outcome Z := match counters s !! c with Some n => Done n | None => Fault end.

(** [new sp_shared(1)]. *)
Definition new_counter (s : state) : Z * state :=
  (next_counter s, mk_state (<[next_counter s := 1]> (counters s)) (objects s) (pointers s) (m_elements s) (due s) (next_counter s + 1)).

Definition delete_object (v : Z) (s : state) : outcome state :=
  if v =? 0 then Done s
  else if bool_decide (v ∈ objects s) then Done (mk_state (counters s) (objects s ∖ {[v]}) (pointers s) (m_elements s) (due s) (next_counter s))
  else Fault.
Definition delete_counter (c : Z) (s : state) : outcome state :=
  if c =? 0 then Done s
  else match counters s !! c with Some _ => Done (with_counters (delete c (counters s)) s) | None => Fault end.

(** ** [SmartPointer] *)

(** [new T], and [SmartPointer(T* val)]. *)
Definition new_object (v : Z) (s : state) : state := mk_state (counters s) ({[v]} ∪ objects s) (pointers s) (m_elements s) (due s) (next_counter s).
Definition construct (v : Z) (s : state) : state := let '(c, s) := new_counter s in with_pointers (pointers s ++ [mk_sp v c]) s.

(** [SmartPointer(const SmartPointer& sp)]. *)
Definition copy (i : Z) (s : state) : outcome state :=
  p ← (pointers s).[i];
  s ← (if negb (m_refs p =? 0) then increment (m_refs p) s else Done s);
  Done (with_pointers (pointers s ++ [p]) s).

Definition cleanup (p : SmartPointer) (s : state) : outcome state := s ← delete_object (m_val p) s; delete_counter (m_refs p) s.

(** The destructor, up to the end of [decrement]. *)
Definition drop_pointer (i : Z) (s : state) : outcome state :=
  p ← (pointers s).[i];
  l ← (pointers s).[i := null];
  let s := with_pointers l s in
  if m_refs p =? 0 then Done s
  else '(last, s) ← decrement (m_refs p) s; Done (if last : bool then with_due (p :: due s) s else s).
(** Its rest: one of the clean-ups that are due. *)
Definition finish (j : Z) (s : state) : outcome state :=
  p ← (due s).[j]; cleanup p (with_due (take (Z.to_nat j) (due s) ++ drop (S (Z.to_nat j)) (due s)) s).

(** The destructor without an interruption. *)
Definition destroy (i : Z) (s : state) : outcome state :=
  p ← (pointers s).[i];
  l ← (pointers s).[i := null];
  let s := with_pointers l s in
  if m_refs p =? 0 then Done s
  else '(last, s) ← decrement (m_refs p) s; if last : bool then cleanup p s else Done s.

(** [operator=]. *)
Definition assign (i j : Z) (s : state) : outcome state :=
  if i =? j then Done s
  else
    p ← (pointers s).[i];
    s ← (if negb (m_refs p =? 0) then '(last, s) ← decrement (m_refs p) s; if last : bool then cleanup p s else Done s else Done s);
    q ← (pointers s).[j];
    l ← (pointers s).[i := q];
    let s := with_pointers l s in
    if negb (m_refs q =? 0) then increment (m_refs q) s else Done s.

(** [defuse]: the pointer forgets its counter. *)
Definition defuse (i : Z) (s : state) : outcome state :=
  p ← (pointers s).[i]; l ← (pointers s).[i := mk_sp (m_val p) 0]; Done (with_pointers l s).

(** ** [SmartArray] *)

(** [get]: the new pointer is the last one. *)
Definition get_element (index : Z) (s : state) : outcome state :=
  if (index <? 0) || (index >=? Z.of_nat (length (m_elements s))) then Done (with_pointers (pointers s ++ [null]) s)
  else
    e ← (m_elements s).[index];
    if shared e =? 0 then Done (with_pointers (pointers s ++ [null]) s)
    else s ← increment (shared e) s; Done (with_pointers (pointers s ++ [mk_sp (ptr e) (shared e)]) s).

(** [findSlotOrMakeSlot]: the first free element, or a new one at the end. *)
Fixpoint free_slot (i : Z) (l : list element) (s : state) : outcome Z :=
  match l with
  | [] => Done i
  | e :: l =>
      if (ptr e =? 0) || (shared e =? 0) then Done i
      else n ← ref_count (shared e) s; if n =? 0 then Done i else free_slot (i + 1) l s
  end.
Definition findSlotOrMakeSlot (s : state) : outcome (Z * state) :=
  i ← free_slot 0 (m_elements s) s;
  Done (i, if i <? Z.of_nat (length (m_elements s)) then s else with_elements (m_elements s ++ [no_element]) s).

Definition addRef (v : Z) (s : state) : outcome (Z * state) :=
  '(index, s) ← findSlotOrMakeSlot s;
  let '(c, s) := new_counter s in
  l ← (m_elements s).[index := mk_element v c];
  Done (index, with_elements l s).
(** [addRef(T* ptr, sp_shared* counter)]. *)
Definition addRef_counter (v c : Z) (s : state) : outcome (Z * state) :=
  '(index, s) ← findSlotOrMakeSlot s;
  l ← (m_elements s).[index := mk_element v c];
  Done (index, with_elements l s).

(** [remove]: [die] of the element. *)
Definition die (e : element) (s : state) : outcome state :=
  if shared e =? 0 then Done s
  else '(last, s) ← decrement (shared e) s; if last : bool then s ← delete_object (ptr e) s; delete_counter (shared e) s else Done s.
Definition remove (index : Z) (s : state) : outcome state :=
  if (index <? 0) || (index >=? Z.of_nat (length (m_elements s))) then Done s
  else
    e ← (m_elements s).[index];
    s ← die e s;
    l ← (m_elements s).[index := no_element];
    Done (with_elements l s).

(** [Iterator::next]: [cur] is the pointer [m_current]; the result is the object and
    the new index.  The pointer that [get] returns is destroyed at the end of a turn.
    Each turn moves on, so one turn for each element and one more are enough. *)
Definition last_pointer (s : state) : Z := Z.of_nat (length (pointers s)) - 1.
Fixpoint next_from (fuel : nat) (index cur : Z) (s : state) : outcome (Z * Z * state) :=
  match fuel with
  | O => Fault
  | S fuel =>
      if index >=? Z.of_nat (length (m_elements s)) then Done (0, index, s)
      else
        s ← get_element index s;
        p ← (pointers s).[last_pointer s];
        if m_val p =? 0 then s ← destroy (last_pointer s) s; next_from fuel (index + 1) cur s
        else
          s ← assign cur (last_pointer s) s;
          s ← destroy (last_pointer s) s;
          Done (m_val p, index + 1, s)
  end.
Definition next (index cur : Z) (s : state) : outcome (Z * Z * state) := next_from (S (length (m_elements s))) index cur s.

(** ** The invariant *)

Definition handles (s : state) : list (Z * Z) :=
  ((λ p, (m_val p, m_refs p)) <$> pointers s) ++ ((λ e, (ptr e, shared e)) <$> m_elements s).
(** The handles that hold a count. *)
Definition counted (h : Z * Z) : bool := negb (h.2 =? 0).
Definition live (s : state) : list (Z * Z) := filter counted (handles s).
Definition waiting (s : state) : list (Z * Z) := (λ p, (m_val p, m_refs p)) <$> due s.

Definition count (c : Z) (l : list (Z * Z)) : nat := length (filter (λ h, h.2 = c) l).

(** [own] says which object a counter counts: each object has one counter, whose value
    is the number of handles; it is zero when the deletion is due. *)
Record ok (own : gmap Z Z) (refs : gmap Z Z) (objs : gset Z) (l w : list (Z * Z)) (next : Z) : Prop := mk_ok {
  ok_held : ∀ v c, (v, c) ∈ l ++ w → own !! c = Some v;
  ok_refs : ∀ c v, own !! c = Some v → refs !! c = Some (Z.of_nat (count c l)) ∧ (count c l = 0%nat ↔ c ∈ w.*2);
  ok_dom : ∀ c, own !! c = None → refs !! c = None;
  ok_inj : ∀ c c' v, own !! c = Some v → own !! c' = Some v → c = c';
  ok_objs : ∀ v, v ∈ objs ↔ ∃ c, own !! c = Some v;
  ok_due : NoDup w.*2;
  ok_next : ∀ c v, own !! c = Some v → 0 < c < next ∧ v ≠ 0;
  ok_pos : 0 < next }.

Definition inv (s : state) : Prop := ∃ own, ok own (counters s) (objects s) (live s) (waiting s) (next_counter s).

Lemma count_cons c h l : count c (h :: l) = ((if decide (h.2 = c) then 1 else 0) + count c l)%nat.
Proof. unfold count. rewrite filter_cons. by destruct (decide (h.2 = c)). Qed.

#[global] Instance count_perm c : Proper ((≡ₚ) ==> (=)) (count c).
Proof. intros l l' Hl. unfold count. by rewrite Hl. Qed.

Lemma count_zero c l : count c l = 0%nat ↔ c ∉ l.*2.
Proof.
  induction l as [|h l IH]; [split; [set_solver|done]|]. rewrite count_cons, fmap_cons, not_elem_of_cons. destruct (decide (h.2 = c)); [split; [lia|intros [? _]; congruence]|].
  rewrite Nat.add_0_l, IH. split; [intros; split; [congruence|done]|by intros [_ ?]].
Qed.

Lemma ok_perm own refs objs l l' w w' n : l ≡ₚ l' → w ≡ₚ w' → ok own refs objs l w n → ok own refs objs l' w' n.
Proof.
  intros Hl Hw [H1 H2 H3 H4 H5 H6 H7 H8]. constructor; try done.
  - intros v c. rewrite <-Hl, <-Hw. apply H1.
  - intros c v Hc. rewrite <-Hl, <-Hw. by apply (H2 c v).
  - by rewrite <-Hw.
Qed.

Lemma ok_new own refs objs l w n v :
  v ≠ 0 → v ∉ objs → ok own refs objs l w n → ok (<[n := v]> own) (<[n := 1]> refs) ({[v]} ∪ objs) ((v, n) :: l) w (n + 1).
Proof.
  intros Hv Hno [H1 H2 H3 H4 H5 H6 H7 H8].
  assert (Hn : own !! n = None) by (destruct (own !! n) as [x|] eqn:E; [|done]; apply H7 in E; lia).
  assert (Hnl : ∀ h, h ∈ l ++ w → h.2 ≠ n) by (intros [x c] Hh E; cbn in E; subst c; apply H1 in Hh; congruence).
  constructor.
  - intros x c [[= -> ->]|Hin]%elem_of_cons; [apply lookup_insert_eq|]. rewrite lookup_insert_ne; [by apply H1|]. symmetry. by apply (Hnl (x, c)).
  - intros c x Hc. rewrite count_cons. cbn [snd]. destruct (decide (n = c)) as [<-|Hne].
    + rewrite lookup_insert_eq. assert (count n l = 0%nat) as -> by (apply count_zero; intros [h [-> Hh]]%list_elem_of_fmap; apply (Hnl h); [set_solver|done]).
      split; [done|]. split; [lia|]. intros [h [-> Hh]]%list_elem_of_fmap. exfalso. apply (Hnl h); [set_solver|done].
    + rewrite lookup_insert_ne in Hc |- * by done. by apply (H2 c x).
  - intros c. rewrite !lookup_insert_None. intros [Hc Hne]. split; [by apply H3|done].
  - intros c c' x. rewrite !lookup_insert_Some. intros [[<- <-]|[Hc Hx]] [[<- E]|[Hc' Hx']]; [done| | |by eapply H4]; exfalso; apply Hno, H5; subst; by eexists.
  - intros x. rewrite elem_of_union, elem_of_singleton, H5. split.
    + intros [->|[c Hc]]; [exists n; apply lookup_insert_eq|]. exists c. rewrite lookup_insert_ne; [done|congruence].
    + intros [c Hc]. apply lookup_insert_Some in Hc as [[<- <-]|[_ Hc]]; [by left|right; by exists c].
  - done.
  - intros c x. rewrite lookup_insert_Some. intros [[<- <-]|[_ Hc]]; [split; [lia|done]|]. apply H7 in Hc as [? ?]. split; [lia|done].
  - lia.
Qed.

Lemma ok_more own refs objs l w n v c :
  (v, c) ∈ l → ok own refs objs l w n → ok own (<[c := Z.of_nat (count c l) + 1]> refs) objs ((v, c) :: l) w n.
Proof.
  intros Hin [H1 H2 H3 H4 H5 H6 H7 H8]. assert (Hc : own !! c = Some v) by (apply H1; set_solver).
  assert (Hpos : count c l ≠ 0%nat) by (rewrite count_zero; intros Hno; apply Hno, list_elem_of_fmap; by exists (v, c)).
  constructor; try done.
  - intros x d [[= -> ->]|Hx]%elem_of_cons; [done|]. by apply H1.
  - intros d x Hd. rewrite count_cons. cbn [snd]. destruct (H2 d x Hd) as [Hr Hw]. destruct (decide (c = d)) as [<-|Hne].
    + rewrite lookup_insert_eq. split; [f_equal; lia|]. rewrite <-Hw. lia.
    + by rewrite lookup_insert_ne.
  - intros d Hd. rewrite lookup_insert_ne; [by apply H3|congruence].
Qed.

Lemma ok_less own refs objs l w n v c :
  ok own refs objs ((v, c) :: l) w n →
  ok own (<[c := Z.of_nat (count c l)]> refs) objs l (if decide (count c l = 0%nat) then (v, c) :: w else w) n.
Proof.
  intros [H1 H2 H3 H4 H5 H6 H7 H8]. assert (Hc : own !! c = Some v) by (apply H1; set_solver).
  destruct (H2 c v Hc) as [_ Hw]. rewrite count_cons, decide_True in Hw by done.
  assert (Hcw : c ∉ w.*2) by (intros Hin; apply Hw in Hin; lia).
  constructor; try done.
  - intros x d Hx. apply H1. destruct (decide _); set_solver.
  - intros d x Hd. destruct (H2 d x Hd) as [Hr Hwd]. rewrite count_cons in Hr, Hwd. cbn [snd] in Hr, Hwd. destruct (decide (c = d)) as [<-|Hne].
    + rewrite lookup_insert_eq. split; [done|]. destruct (decide _) as [E|E]; [set_solver|]. split; [done|]. intros Hin. by apply Hcw in Hin.
    + rewrite lookup_insert_ne by done. split; [done|]. rewrite Nat.add_0_l in Hwd. rewrite Hwd. destruct (decide _); [|done]. rewrite fmap_cons, elem_of_cons. cbn. naive_solver.
  - intros d Hd. rewrite lookup_insert_ne; [by apply H3|congruence].
  - destruct (decide _); [|done]. rewrite fmap_cons. by constructor.
Qed.

Lemma ok_clean own refs objs l w n v c :
  ok own refs objs l ((v, c) :: w) n →
  v ≠ 0 ∧ c ≠ 0 ∧ v ∈ objs ∧ is_Some (refs !! c) ∧ ok (delete c own) (delete c refs) (objs ∖ {[v]}) l w n.
Proof.
  intros [H1 H2 H3 H4 H5 H6 H7 H8]. assert (Hc : own !! c = Some v) by (apply H1; set_solver). destruct (H2 c v Hc) as [Hr Hw]. destruct (H7 c v Hc) as [Hcp Hv].
  rewrite fmap_cons in H6. apply NoDup_cons in H6 as [Hnw Hnd]. cbn in Hnw.
  assert (Hz : count c l = 0%nat) by (apply Hw; set_solver). apply count_zero in Hz.
  split_and!; [done|lia|apply H5; by exists c|by eexists|]. constructor; try done.
  - intros x d Hx. rewrite lookup_delete_ne; [apply H1; set_solver|]. intros <-. apply elem_of_app in Hx as [Hx|Hx]; [apply Hz|apply Hnw]; apply list_elem_of_fmap; by exists (x, c).
  - intros d x. rewrite lookup_delete_Some. intros [Hne Hd]. rewrite lookup_delete_ne by done. destruct (H2 d x Hd) as [Hr' Hw']. split; [done|].
    rewrite Hw', fmap_cons, elem_of_cons. cbn. naive_solver.
  - intros d. rewrite !lookup_delete_None. intros [->|Hd]; [by left|right; by apply H3].
  - intros d d' x. rewrite !lookup_delete_Some. intros [_ Hd] [_ Hd']. by eapply H4.
  - intros x. rewrite elem_of_difference, elem_of_singleton, H5. split.
    + intros [[d Hd] Hx]. exists d. apply lookup_delete_Some. split; [congruence|done].
    + intros [d [Hne Hd]%lookup_delete_Some]. split; [by exists d|]. intros ->. apply Hne. by eapply H4.
  - intros d x [_ Hd]%lookup_delete_Some. by apply (H7 d x).
Qed.

(** ** Handles that come and go *)

Definition opt (h : Z * Z) : list (Z * Z) := filter counted [h].

Lemma opt_null v : opt (v, 0) = [].
Proof. done. Qed.
Lemma opt_some v c : c ≠ 0 → opt (v, c) = [(v, c)].
Proof. intros Hc. unfold opt, counted. rewrite filter_cons. cbn. by rewrite (proj2 (Z.eqb_neq c 0) Hc). Qed.

Lemma filter_counted_app h l : filter counted (l ++ [h]) ≡ₚ opt h ++ filter counted l.
Proof. rewrite filter_app. unfold opt. by rewrite Permutation_app_comm. Qed.

Lemma filter_counted_set {A} (f : A → Z * Z) l i x y :
  l !! i = Some x → opt (f x) ++ filter counted (f <$> <[i := y]> l) ≡ₚ opt (f y) ++ filter counted (f <$> l).
Proof.
  revert i. induction l as [|a l IH]; intros [|i] Hi; [done..|injection Hi as ->|]; cbn [insert list_insert fmap list_fmap].
  - change (f y :: (f <$> l)) with ([f y] ++ (f <$> l)). change (f x :: (f <$> l)) with ([f x] ++ (f <$> l)). rewrite !filter_app. fold (opt (f x)) (opt (f y)). apply Permutation_app_swap_app.
  - change (f a :: (f <$> <[i := y]> l)) with ([f a] ++ (f <$> <[i := y]> l)). change (f a :: (f <$> l)) with ([f a] ++ (f <$> l)). rewrite !filter_app. fold (opt (f a)).
    rewrite !(Permutation_app_swap_app _ (opt (f a))). by rewrite (IH i Hi).
Qed.

Lemma live_append p s : live (with_pointers (pointers s ++ [p]) s) ≡ₚ opt (m_val p, m_refs p) ++ live s.
Proof.
  unfold live, handles. cbn [pointers with_pointers m_elements]. rewrite fmap_app, !filter_app, app_assoc. f_equiv. cbn [fmap list_fmap].
  rewrite Permutation_app_comm. done.
Qed.
Lemma live_set i p q s : pointers s !! i = Some p →
  opt (m_val p, m_refs p) ++ live (with_pointers (<[i := q]> (pointers s)) s) ≡ₚ opt (m_val q, m_refs q) ++ live s.
Proof.
  intros Hi. unfold live, handles. cbn [pointers with_pointers m_elements]. rewrite !filter_app, !app_assoc. f_equiv.
  apply (filter_counted_set (λ p, (m_val p, m_refs p)) _ _ _ _ Hi).
Qed.
Lemma live_set_element i e f s : m_elements s !! i = Some e →
  opt (ptr e, shared e) ++ live (with_elements (<[i := f]> (m_elements s)) s) ≡ₚ opt (ptr f, shared f) ++ live s.
Proof.
  intros Hi. unfold live, handles. cbn [pointers with_elements m_elements]. rewrite !filter_app. rewrite !(Permutation_app_swap_app _ (filter counted (_ <$> pointers s))). f_equiv.
  apply (filter_counted_set (λ e, (ptr e, shared e)) _ _ _ _ Hi).
Qed.

Lemma live_pointer i p s : pointers s !! i = Some p → m_refs p ≠ 0 → (m_val p, m_refs p) ∈ live s.
Proof.
  intros Hi Hp. unfold live. apply list_elem_of_filter. split; [by apply Is_true_eq_left, negb_true_iff, Z.eqb_neq|]. unfold handles. apply elem_of_app. left.
  apply list_elem_of_fmap. exists p. split; [done|by eapply list_elem_of_lookup_2].
Qed.
Lemma live_element i e s : m_elements s !! i = Some e → shared e ≠ 0 → (ptr e, shared e) ∈ live s.
Proof.
  intros Hi Hp. unfold live. apply list_elem_of_filter. split; [by apply Is_true_eq_left, negb_true_iff, Z.eqb_neq|]. unfold handles. apply elem_of_app. right.
  apply list_elem_of_fmap. exists e. split; [done|by eapply list_elem_of_lookup_2].
Qed.

Lemma count_le c l : (count c l ≤ length l)%nat.
Proof. unfold count. apply length_filter. Qed.

(** Fewer handles than an [int] can count. *)
Definition few (l : list (Z * Z)) : Prop := Z.of_nat (length l) < 2 ^ 31 - 2.

(** One more handle for a counter that has one. *)
Lemma increment_ok own s l w v c :
  ok own (counters s) (objects s) l w (next_counter s) → (v, c) ∈ l → few l →
  ∃ m, increment c s = Done (with_counters m s) ∧ ok own m (objects s) ((v, c) :: l) w (next_counter s).
Proof.
  intros Hok Hin Hf. destruct (ok_refs _ _ _ _ _ _ Hok c v) as [Hr _]; [apply (ok_held _ _ _ _ _ _ Hok); set_solver|].
  unfold increment. rewrite Hr. pose proof (count_le c l). unfold few in Hf. rewrite swrap_small by lia.
  eexists. split; [reflexivity|]. by apply ok_more.
Qed.

(** One handle less: the counter goes down, and with the last handle the object and
    the counter go. *)
Lemma release_ok own s l w v c :
  ok own (counters s) (objects s) ((v, c) :: l) w (next_counter s) → few l →
  ∃ own' m o, ('(last, s) ← decrement c s; if last : bool then cleanup (mk_sp v c) s else Done s) =
      Done (mk_state m o (pointers s) (m_elements s) (due s) (next_counter s)) ∧ ok own' m o l w (next_counter s).
Proof.
  intros Hok Hf. destruct (ok_refs _ _ _ _ _ _ Hok c v) as [Hr _]; [apply (ok_held _ _ _ _ _ _ Hok); set_solver|].
  rewrite count_cons, decide_True in Hr by done. apply ok_less in Hok. unfold decrement. rewrite Hr. pose proof (count_le c l). unfold few in Hf.
  replace (Z.of_nat (1 + count c l) - 1) with (Z.of_nat (count c l)) by lia. rewrite swrap_small by lia. rewrite bind_ret.
  destruct (decide (count c l = 0%nat)) as [E|E].
  - rewrite E in *. cbn [Z.of_nat Z.eqb]. destruct (ok_clean _ _ _ _ _ _ _ _ Hok) as (Hv & Hc & Ho & [x Hx] & Hok').
    unfold cleanup, delete_object. cbn [m_val m_refs]. rewrite (proj2 (Z.eqb_neq v 0) Hv), bool_decide_true by done. rewrite bind_ret. unfold delete_counter. rewrite (proj2 (Z.eqb_neq c 0) Hc).
    cbn [counters with_counters]. rewrite Hx. do 3 eexists. split; [reflexivity|exact Hok'].
  - rewrite (proj2 (Z.eqb_neq _ 0)) by lia. exists own. do 2 eexists. split; [reflexivity|exact Hok].
Qed.

(** ** The operations keep the invariant *)

Lemma construct_inv v s : v ≠ 0 → v ∉ objects s → inv s → inv (construct v (new_object v s)).
Proof.
  intros Hv Hno [own Hok]. exists (<[next_counter s := v]> own). unfold construct. cbn [new_counter new_object].
  eapply ok_perm; [|reflexivity|eapply ok_new; done]. set (s1 := mk_state _ _ _ _ _ _). pose proof (next_counter s) as _.
  rewrite (live_append (mk_sp v (next_counter s)) s1). cbn [m_val m_refs]. rewrite opt_some; [done|]. pose proof (ok_pos _ _ _ _ _ _ Hok). lia.
Qed.

Lemma copy_inv i s : 0 ≤ i < Z.of_nat (length (pointers s)) → few (live s) → inv s → ∃ s', copy i s = Done s' ∧ inv s'.
Proof.
  intros Hi Hf [own Hok]. destruct (lookup_lt_is_Some_2 (pointers s) (Z.to_nat i)) as [p Hp]; [lia|]. unfold copy. rewrite (proj2 (rd_Done (pointers s) i p)) by (split; [lia|done]). rewrite bind_ret.
  destruct (Z.eqb_spec (m_refs p) 0) as [E|E]; cbn [negb].
  - rewrite bind_ret. eexists. split; [reflexivity|]. exists own. eapply ok_perm; [|reflexivity|exact Hok]. rewrite live_append, E, opt_null. done.
  - destruct (increment_ok _ _ _ _ _ _ Hok (live_pointer _ _ _ Hp E) Hf) as (m & -> & Hok'). rewrite bind_ret. eexists. split; [reflexivity|]. exists own.
    eapply ok_perm; [|reflexivity|exact Hok']. change (pointers (with_counters m s)) with (pointers s).
    pose proof (live_append p (with_counters m s)) as Hl. cbn [pointers with_counters] in Hl. rewrite opt_some in Hl by done. cbn [app] in Hl. rewrite Hl. done.
Qed.

Lemma get_element_inv i s : few (live s) → inv s → ∃ s' p, get_element i s = Done s' ∧ inv s' ∧ pointers s' = pointers s ++ [p] ∧ m_elements s' = m_elements s ∧
  live s' ≡ₚ opt (m_val p, m_refs p) ++ live s ∧
  p = match m_elements s !! Z.to_nat i with Some e => if (i <? 0) || (shared e =? 0) then null else mk_sp (ptr e) (shared e) | None => null end.
Proof.
  intros Hf [own Hok]. unfold get_element. assert (Hnull : inv (with_pointers (pointers s ++ [null]) s)).
  { exists own. eapply ok_perm; [|reflexivity|exact Hok]. by rewrite live_append. }
  destruct (Z.ltb_spec i 0) as [Hi|Hi]; cbn [orb].
  { exists (with_pointers (pointers s ++ [null]) s), null. split_and!; [done|done|done|done|apply live_append|by destruct (m_elements s !! Z.to_nat i)]. }
  rewrite Z.geb_leb. destruct (Z.leb_spec (Z.of_nat (length (m_elements s))) i) as [Hl|Hl].
  { exists (with_pointers (pointers s ++ [null]) s), null. split_and!; [done|done|done|done|apply live_append|]. rewrite lookup_ge_None_2; [done|lia]. }
  destruct (lookup_lt_is_Some_2 (m_elements s) (Z.to_nat i)) as [e He]; [lia|]. rewrite He. rewrite (proj2 (rd_Done (m_elements s) i e)) by (split; [lia|done]). rewrite bind_ret.
  destruct (Z.eqb_spec (shared e) 0) as [E|E].
  { exists (with_pointers (pointers s ++ [null]) s), null. split_and!; [done|done|done|done|apply live_append|done]. }
  destruct (increment_ok _ _ _ _ _ _ Hok (live_element _ _ _ He E) Hf) as (m & -> & Hok'). rewrite bind_ret. set (q := mk_sp (ptr e) (shared e)).
  pose proof (live_append q (with_counters m s)) as Ha. exists (with_pointers (pointers s ++ [q]) (with_counters m s)), q. split_and!; [done| |done|done|exact Ha|done].
  exists own. eapply ok_perm; [|reflexivity|exact Hok']. symmetry. cbn [pointers with_counters] in Ha. rewrite opt_some in Ha by done. exact Ha.
Qed.

Lemma few_perm l l' : l ≡ₚ l' → few l → few l'.
Proof. unfold few. by intros ->. Qed.
Lemma few_less h l : few (h :: l) → few l.
Proof. unfold few. cbn [length]. lia. Qed.

(** The pointer [i] becomes null; its handle is the first of the list, if it had one. *)
Lemma live_nulled i p s : pointers s !! i = Some p → opt (m_val p, m_refs p) ++ live (with_pointers (<[i := null]> (pointers s)) s) ≡ₚ live s.
Proof. intros Hp. by rewrite (live_set i p null s Hp). Qed.

Lemma drop_pointer_inv i s : 0 ≤ i < Z.of_nat (length (pointers s)) → few (live s) → inv s → ∃ s', drop_pointer i s = Done s' ∧ inv s'.
Proof.
  intros Hi Hf [own Hok]. destruct (lookup_lt_is_Some_2 (pointers s) (Z.to_nat i)) as [p Hp]; [lia|]. unfold drop_pointer.
  rewrite (proj2 (rd_Done (pointers s) i p)) by (split; [lia|done]). rewrite bind_ret, wr_in_range, bind_ret by lia. cbv zeta.
  pose proof (live_nulled _ _ _ Hp) as Hl. set (s1 := with_pointers _ s) in *. destruct (Z.eqb_spec (m_refs p) 0) as [E|E].
  - eexists. split; [reflexivity|]. exists own. eapply ok_perm; [|reflexivity|exact Hok]. rewrite <-Hl, E. done.
  - rewrite opt_some in Hl by done. cbn [app] in Hl. symmetry in Hl. eapply ok_perm in Hok; [|exact Hl|reflexivity]. eapply few_perm in Hf; [|exact Hl].
    destruct (ok_refs _ _ _ _ _ _ Hok (m_refs p) (m_val p)) as [Hr _]; [apply (ok_held _ _ _ _ _ _ Hok); set_solver|].
    rewrite count_cons, decide_True in Hr by done. apply ok_less in Hok. unfold decrement. change (counters s1) with (counters s). rewrite Hr.
    pose proof (count_le (m_refs p) (live s1)). unfold few in Hf. cbn [length] in Hf.
    replace (Z.of_nat (1 + count (m_refs p) (live s1)) - 1) with (Z.of_nat (count (m_refs p) (live s1))) by lia. rewrite swrap_small by lia. rewrite bind_ret.
    destruct (decide (count (m_refs p) (live s1) = 0%nat)) as [Ez|Ez].
    + rewrite Ez in *. cbn [Z.of_nat Z.eqb]. eexists. split; [reflexivity|]. exists own. exact Hok.
    + rewrite (proj2 (Z.eqb_neq _ 0)) by lia. eexists. split; [reflexivity|]. exists own. exact Hok.
Qed.

Lemma destroy_inv i s : 0 ≤ i < Z.of_nat (length (pointers s)) → few (live s) → inv s →
  ∃ s', destroy i s = Done s' ∧ inv s' ∧ length (pointers s') = length (pointers s) ∧ m_elements s' = m_elements s ∧
    (length (live s') ≤ length (live s))%nat ∧ (∀ p, pointers s !! Z.to_nat i = Some p → m_refs p ≠ 0 → (length (live s') < length (live s))%nat).
Proof.
  intros Hi Hf [own Hok]. destruct (lookup_lt_is_Some_2 (pointers s) (Z.to_nat i)) as [p Hp]; [lia|]. unfold destroy.
  rewrite (proj2 (rd_Done (pointers s) i p)) by (split; [lia|done]). rewrite bind_ret, wr_in_range, bind_ret by lia. cbv zeta.
  pose proof (live_nulled _ _ _ Hp) as Hl. set (s1 := with_pointers _ s) in *. assert (Hlen : length (pointers s1) = length (pointers s)) by apply length_insert.
  destruct (Z.eqb_spec (m_refs p) 0) as [E|E].
  - exists s1. rewrite E, opt_null in Hl. cbn [app] in Hl. split_and!; [done| |done|done|by rewrite Hl|intros p' Hp' ?; congruence]. exists own. eapply ok_perm; [|reflexivity|exact Hok]. by rewrite <-Hl.
  - rewrite opt_some in Hl by done. cbn [app] in Hl. pose proof (Permutation_length Hl) as Hll. cbn [length] in Hll. symmetry in Hl. eapply ok_perm in Hok; [|exact Hl|reflexivity]. eapply few_perm in Hf; [|exact Hl].
    destruct p as [v c]. cbn [m_val m_refs] in *.
    destruct (release_ok own s1 (live s1) (waiting s1) v c Hok (few_less _ _ Hf)) as (own' & m & o & -> & Hok').
    eexists. split; [reflexivity|]. split; [by exists own'|]. change (live (mk_state m o _ _ _ _)) with (live s1). split_and!; [done|done|lia|intros; lia].
Qed.

Lemma finish_inv j s : 0 ≤ j < Z.of_nat (length (due s)) → inv s → ∃ s', finish j s = Done s' ∧ inv s'.
Proof.
  intros Hj [own Hok]. destruct (lookup_lt_is_Some_2 (due s) (Z.to_nat j)) as [[v c] Hp]; [lia|]. unfold finish.
  rewrite (proj2 (rd_Done (due s) j (mk_sp v c))) by (split; [lia|done]). rewrite bind_ret. set (s1 := with_due _ s).
  assert (Hw : waiting s ≡ₚ (v, c) :: waiting s1).
  { unfold waiting. cbn [due s1 with_due]. rewrite <-(take_drop_middle _ _ _ Hp) at 1. rewrite !fmap_app. cbn [fmap list_fmap m_val m_refs]. symmetry. apply Permutation_middle. }
  eapply ok_perm in Hok; [|reflexivity|exact Hw]. destruct (ok_clean _ _ _ _ _ _ _ _ Hok) as (Hv & Hc & Ho & [x Hx] & Hok').
  unfold cleanup, delete_object. cbn [m_val m_refs]. rewrite (proj2 (Z.eqb_neq v 0) Hv), bool_decide_true by done. rewrite bind_ret. unfold delete_counter. rewrite (proj2 (Z.eqb_neq c 0) Hc).
  cbn [counters s1 with_due]. rewrite Hx. eexists. split; [reflexivity|]. exists (delete c own). exact Hok'.
Qed.

Lemma assign_inv i j s :
  0 ≤ i < Z.of_nat (length (pointers s)) → 0 ≤ j < Z.of_nat (length (pointers s)) → few (live s) → inv s →
  ∃ s', assign i j s = Done s' ∧ inv s' ∧ m_elements s' = m_elements s ∧ (length (live s') ≤ S (length (live s)))%nat ∧
    length (pointers s') = length (pointers s) ∧ (∀ k, k ≠ Z.to_nat i → pointers s' !! k = pointers s !! k).
Proof.
  intros Hi Hj Hf [own Hok]. unfold assign. destruct (Z.eqb_spec i j) as [->|Hne]; [exists s; split_and!; [done|by exists own|done|lia|done|done]|].
  destruct (lookup_lt_is_Some_2 (pointers s) (Z.to_nat i)) as [p Hp]; [lia|]. destruct (lookup_lt_is_Some_2 (pointers s) (Z.to_nat j)) as [q Hq]; [lia|].
  rewrite (proj2 (rd_Done (pointers s) i p)) by (split; [lia|done]). rewrite bind_ret. pose proof (live_nulled _ _ _ Hp) as Hl. set (l := live (with_pointers _ s)) in Hl.
  assert (Hmid : ∃ own' m o, (if negb (m_refs p =? 0) then '(last, s) ← decrement (m_refs p) s; if last : bool then cleanup p s else Done s else Done s) =
      Done (mk_state m o (pointers s) (m_elements s) (due s) (next_counter s)) ∧ ok own' m o l (waiting s) (next_counter s)).
  { destruct (Z.eqb_spec (m_refs p) 0) as [E|E]; cbn [negb].
    - exists own, (counters s), (objects s). split; [by destruct s|]. eapply ok_perm; [|reflexivity|exact Hok]. by rewrite <-Hl, E.
    - rewrite opt_some in Hl by done. cbn [app] in Hl. symmetry in Hl. eapply ok_perm in Hok; [|exact Hl|reflexivity]. eapply few_perm in Hf; [|exact Hl]. destruct p as [v c]. exact (release_ok own s l (waiting s) v c Hok (few_less _ _ Hf)). }
  assert (Hlq : m_refs q ≠ 0 → (m_val q, m_refs q) ∈ l).
  { intros E. apply (live_pointer (Z.to_nat j)); [|done]. cbn [pointers with_pointers]. rewrite list_lookup_insert_ne by lia. done. }
  assert (Hfl : few l) by (unfold few in *; pose proof (Permutation_length Hl) as Hpl; rewrite length_app in Hpl; lia).
  pose proof (Permutation_length Hl) as Hll. rewrite length_app in Hll.
  destruct Hmid as (own' & m & o & -> & Hok'). rewrite bind_ret. cbn [pointers]. rewrite (proj2 (rd_Done (pointers s) j q)) by (split; [lia|done]). rewrite bind_ret, wr_in_range, bind_ret by lia. cbv zeta.
  set (s1 := with_pointers _ _). assert (Hs1 : live s1 ≡ₚ opt (m_val q, m_refs q) ++ l).
  { pose proof (live_set (Z.to_nat i) null q (with_pointers (<[Z.to_nat i := null]> (pointers s)) s)) as Hs. cbn [pointers with_pointers] in Hs.
    rewrite list_insert_insert_eq in Hs. cbn [m_val m_refs null] in Hs. rewrite opt_null in Hs. apply Hs. apply list_lookup_insert_eq. lia. }
  assert (Hk : ∀ k, k ≠ Z.to_nat i → pointers s1 !! k = pointers s !! k) by (intros k Hk; cbn; by rewrite list_lookup_insert_ne by congruence).
  assert (Hlen : length (pointers s1) = length (pointers s)) by apply length_insert.
  destruct (Z.eqb_spec (m_refs q) 0) as [E|E]; cbn [negb].
  - exists s1. rewrite E, opt_null in Hs1. cbn [app] in Hs1. split_and!; [done| |done| rewrite Hs1; lia|done|done]. exists own'. eapply ok_perm; [|reflexivity|exact Hok']. by rewrite Hs1.
  - rewrite opt_some in Hs1 by done. destruct (increment_ok own' s1 l (waiting s) _ _ Hok' (Hlq E) Hfl) as (m' & -> & Hok2). eexists. split; [reflexivity|].
    split; [|change (live (with_counters m' s1)) with (live s1); split_and!; [done|rewrite Hs1; cbn [length app]; lia|done|done]]. exists own'. eapply ok_perm; [|reflexivity|exact Hok2]. change (live (with_counters m' s1)) with (live s1). by rewrite Hs1.
Qed.

(** *** The array *)

Lemma free_slot_spec own s l i k :
  ok own (counters s) (objects s) (live s) (waiting s) (next_counter s) → (∀ e, e ∈ l → e ∈ m_elements s) →
  free_slot i l s = Done k → i ≤ k ≤ i + Z.of_nat (length l) ∧ ∀ e, l !! Z.to_nat (k - i) = Some e → shared e = 0.
Proof.
  intros Hok. revert i. induction l as [|e l IH]; intros i Hin; cbn [free_slot length]; [intros [= <-]; split; [lia|]; by rewrite Z.sub_diag|].
  assert (He : shared e ≠ 0 → own !! shared e = Some (ptr e)).
  { intros E. apply (ok_held _ _ _ _ _ _ Hok), elem_of_app. left. destruct (proj1 (list_elem_of_lookup _ _) (Hin e ltac:(set_solver))) as [n Hn]. by eapply live_element. }
  destruct (Z.eqb_spec (shared e) 0) as [E|E].
  { rewrite orb_true_r. intros [= <-]. split; [lia|]. rewrite Z.sub_diag. by intros e' [= <-]. }
  destruct (ok_next _ _ _ _ _ _ Hok _ _ (He E)) as [_ Hp]. rewrite (proj2 (Z.eqb_neq (ptr e) 0) Hp). cbn [orb].
  destruct (ok_refs _ _ _ _ _ _ Hok _ _ (He E)) as [Hr Hw]. unfold ref_count. rewrite Hr, bind_ret.
  assert (Hc : count (shared e) (live s) ≠ 0%nat).
  { rewrite count_zero. intros Hno. apply Hno. apply list_elem_of_fmap. exists (ptr e, shared e). split; [done|]. destruct (proj1 (list_elem_of_lookup _ _) (Hin e ltac:(set_solver))) as [n Hn]. by eapply live_element. }
  rewrite (proj2 (Z.eqb_neq _ 0)) by lia. intros Hk. destruct (IH (i + 1) ltac:(set_solver) Hk) as [H1 H2]. split; [lia|]. intros e' He'. apply (H2 e').
  replace (Z.to_nat (k - i)) with (S (Z.to_nat (k - (i + 1)))) in He' by lia. exact He'.
Qed.

Lemma free_slot_total own s l i :
  ok own (counters s) (objects s) (live s) (waiting s) (next_counter s) → (∀ e, e ∈ l → e ∈ m_elements s) → ∃ k, free_slot i l s = Done k.
Proof.
  intros Hok. revert i. induction l as [|e l IH]; intros i Hin; cbn [free_slot]; [by eexists|]. destruct (Z.eqb_spec (shared e) 0) as [E|E]; [rewrite orb_true_r; by eexists|].
  destruct (ptr e =? 0); [by eexists|]. cbn [orb]. destruct (proj1 (list_elem_of_lookup _ _) (Hin e ltac:(set_solver))) as [n Hn].
  assert (He : own !! shared e = Some (ptr e)) by (apply (ok_held _ _ _ _ _ _ Hok), elem_of_app; left; by eapply live_element).
  unfold ref_count. rewrite (proj1 (ok_refs _ _ _ _ _ _ Hok _ _ He)), bind_ret. destruct (_ =? 0); [by eexists|]. apply IH. set_solver.
Qed.

(** A free slot: the handles stay. *)
Lemma slot_inv s : inv s → ∃ index s1 e, findSlotOrMakeSlot s = Done (index, s1) ∧ 0 ≤ index ∧ m_elements s1 !! Z.to_nat index = Some e ∧ shared e = 0 ∧
  live s1 ≡ₚ live s ∧ pointers s1 = pointers s ∧ counters s1 = counters s ∧ objects s1 = objects s ∧ due s1 = due s ∧ next_counter s1 = next_counter s.
Proof.
  intros [own Hok]. unfold findSlotOrMakeSlot. destruct (free_slot_total own s (m_elements s) 0 Hok ltac:(done)) as [k Hk]. rewrite Hk, bind_ret.
  destruct (free_slot_spec own s (m_elements s) 0 k Hok ltac:(done) Hk) as [Hr He]. rewrite Z.sub_0_r in He. destruct (Z.ltb_spec k (Z.of_nat (length (m_elements s)))) as [Hlt|Hge].
  - destruct (lookup_lt_is_Some_2 (m_elements s) (Z.to_nat k)) as [e Hke]; [lia|]. exists k, s, e. split_and!; try done; [lia|by apply He].
  - eexists k, _, no_element. split; [done|]. cbn [m_elements with_elements pointers counters objects due next_counter]. split_and!; try done; [lia|rewrite lookup_app_r by lia; by replace (Z.to_nat k - length (m_elements s))%nat with 0%nat by lia|].
    unfold live, handles. cbn [pointers with_elements m_elements]. rewrite fmap_app, !filter_app. cbn. by rewrite app_nil_r.
Qed.

Lemma addRef_inv v s : v ≠ 0 → v ∉ objects s → inv s → ∃ i s', addRef v (new_object v s) = Done (i, s') ∧ inv s' ∧
  (∀ x, (∃ j e, m_elements s !! j = Some e ∧ shared e ≠ 0 ∧ ptr e = x) → x ∈ objects s') ∧ m_elements s' !! Z.to_nat i = Some (mk_element v (next_counter s)).
Proof.
  intros Hv Hno [own Hok]. destruct (slot_inv s (ex_intro _ own Hok)) as (index & s1 & e & Hs & Hi & He & Hz & Hl & Ep & Ec & Eo & Ed & En).
  assert (Hs' : findSlotOrMakeSlot (new_object v s) = Done (index, new_object v s1)).
  { revert Hs. unfold findSlotOrMakeSlot. assert (Hsame : ∀ l i, free_slot i l (new_object v s) = free_slot i l s) by (induction l as [|a l IH]; intros i; [done|]; cbn [free_slot]; destruct (_ || _); [done|]; unfold ref_count; cbn [counters new_object]; destruct (counters s !! _); [|done]; rewrite !bind_ret; by rewrite IH).
    cbn [m_elements new_object]. rewrite Hsame. intros Hb. apply bind_Done in Hb as (k & -> & [= <- <-]). rewrite bind_ret. by destruct (k <? _). }
  unfold addRef. rewrite Hs', bind_ret. cbn [new_counter new_object m_elements next_counter]. pose proof (lookup_lt_Some _ _ _ He). rewrite wr_in_range, bind_ret by lia.
  eexists _, _. split; [reflexivity|]. split; [|split].
  - exists (<[next_counter s := v]> own). cbn [counters objects with_elements next_counter new_object]. rewrite Ec, Eo, En. eapply ok_perm; [| |by apply ok_new].
    + symmetry. pose proof (live_set_element (Z.to_nat index) e (mk_element v (next_counter s)) s1 He) as Hls. rewrite Hz, opt_null in Hls. cbn [app ptr shared] in Hls.
      rewrite opt_some in Hls by (pose proof (ok_pos _ _ _ _ _ _ Hok); lia). rewrite Hl in Hls. exact Hls.
    + unfold waiting. cbn [due with_elements new_object]. by rewrite Ed.
  - intros x (j & f & Hj & Hf & <-). cbn [objects with_elements new_object]. rewrite Eo. apply elem_of_union_r, (ok_objs _ _ _ _ _ _ Hok). exists (shared f). apply (ok_held _ _ _ _ _ _ Hok), elem_of_app. left. by eapply live_element.
  - cbn [m_elements with_elements]. rewrite <-En. apply list_lookup_insert_eq. lia.
Qed.

Lemma remove_inv i s : few (live s) → inv s → ∃ s', remove i s = Done s' ∧ inv s'.
Proof.
  intros Hf [own Hok]. unfold remove. destruct (Z.ltb_spec i 0); cbn [orb]; [exists s; split; [done|by exists own]|].
  rewrite Z.geb_leb. destruct (Z.leb_spec (Z.of_nat (length (m_elements s))) i); [exists s; split; [done|by exists own]|].
  destruct (lookup_lt_is_Some_2 (m_elements s) (Z.to_nat i)) as [e He]; [lia|]. rewrite (proj2 (rd_Done (m_elements s) i e)) by (split; [lia|done]). rewrite bind_ret.
  pose proof (live_set_element _ _ no_element s He) as Hl. cbn [ptr shared no_element] in Hl. rewrite opt_null in Hl. cbn [app] in Hl. set (s1 := with_elements _ s) in Hl.
  unfold die. destruct (Z.eqb_spec (shared e) 0) as [E|E].
  - rewrite bind_ret, wr_in_range, bind_ret by lia. eexists. split; [reflexivity|]. exists own. rewrite E, opt_null in Hl. cbn [app] in Hl. eapply ok_perm; [|reflexivity|exact Hok]. by rewrite <-Hl.
  - rewrite opt_some in Hl by done. cbn [app] in Hl. symmetry in Hl. eapply ok_perm in Hok; [|exact Hl|reflexivity]. eapply few_perm in Hf; [|exact Hl].
    destruct e as [v c]. cbn [ptr shared] in *. destruct (release_ok own s _ _ v c Hok (few_less _ _ Hf)) as (own' & m & o & Hrel & Hok'). unfold cleanup in Hrel. cbn [m_val m_refs] in Hrel.
    rewrite Hrel, bind_ret. cbn [m_elements]. rewrite wr_in_range, bind_ret by lia. eexists. split; [reflexivity|]. exists own'. exact Hok'.
Qed.

(** The first element from [index] on that is in use. *)
Definition first_used (l : list element) (index v i : Z) : Prop :=
  (∃ k e, index ≤ k ∧ l !! Z.to_nat k = Some e ∧ shared e ≠ 0 ∧ v = ptr e ∧ v ≠ 0 ∧ i = k + 1 ∧ ∀ j f, index ≤ j < k → l !! Z.to_nat j = Some f → shared f = 0) ∨
  (v = 0 ∧ ∀ j f, index ≤ j → l !! Z.to_nat j = Some f → shared f = 0).

Definition roomy (s : state) : Prop := Z.of_nat (length (live s)) < 2 ^ 31 - 8.

Lemma roomy_few s : roomy s → few (live s).
Proof. unfold roomy, few. lia. Qed.

Lemma next_from_inv fuel index cur s :
  0 ≤ index → (0 < fuel)%nat → Z.of_nat (length (m_elements s)) < index + Z.of_nat fuel → 0 ≤ cur < Z.of_nat (length (pointers s)) → roomy s → inv s →
  ∃ v i s', next_from fuel index cur s = Done (v, i, s') ∧ inv s' ∧ m_elements s' = m_elements s ∧ first_used (m_elements s) index v i.
Proof.
  revert index s. induction fuel as [|fuel IH]; intros index s Hidx Hpos Hfuel Hcur Hr Hinv; [lia|]. cbn [next_from]. rewrite Z.geb_leb.
  destruct (Z.leb_spec (Z.of_nat (length (m_elements s))) index) as [Hge|Hlt].
  { exists 0, index, s. split_and!; [done|done|done|]. right. split; [done|]. intros j f Hj Hl. apply lookup_lt_Some in Hl. lia. }
  destruct (get_element_inv index s (roomy_few _ Hr) Hinv) as (s1 & p & Hget & Hinv1 & Ep & Ee & El & Hp). rewrite Hget, bind_ret.
  assert (Hlast : last_pointer s1 = Z.of_nat (length (pointers s))) by (unfold last_pointer; rewrite Ep, length_app; cbn; lia).
  assert (Hplast : pointers s1 !! Z.to_nat (last_pointer s1) = Some p) by (rewrite Hlast, Nat2Z.id, Ep; by apply list_lookup_middle).
  rewrite (proj2 (rd_Done (pointers s1) (last_pointer s1) p)) by (split; [lia|done]). rewrite bind_ret.
  assert (Hlen1 : length (pointers s1) = S (length (pointers s))) by (rewrite Ep, length_app; cbn; lia).
  destruct (lookup_lt_is_Some_2 (m_elements s) (Z.to_nat index)) as [e He]; [lia|]. rewrite He in Hp. destruct (Z.ltb_spec index 0) as [|_]; [lia|]. cbn [orb] in Hp.
  destruct (Z.eqb_spec (shared e) 0) as [E|E]; subst p; cbn [m_val m_refs null] in *.
  - rewrite opt_null in El. cbn [Z.eqb app] in *. assert (Hr1 : roomy s1) by (unfold roomy in *; by rewrite El).
    destruct (destroy_inv (last_pointer s1) s1 ltac:(lia) (roomy_few _ Hr1) Hinv1) as (s2 & -> & Hinv2 & El2 & Ee2 & Hl2 & _). rewrite bind_ret.
    destruct (IH (index + 1) s2) as (v & i & s' & -> & Hinv' & Ee' & Hfirst); [lia|lia|rewrite Ee2, Ee; lia|lia|unfold roomy in *; lia|done|].
    exists v, i, s'. rewrite Ee2, Ee in *. split_and!; [done|done|done|]. destruct Hfirst as [(k & f & Hk & Hf & Hs & Hv & Hv0 & Hi & Hbef)|[-> Hno]].
    + left. exists k, f. split_and!; try done; [lia|]. intros j g Hj Hg. destruct (Z.eq_dec j index) as [->|]; [congruence|by apply (Hbef j); [lia|]].
    + right. split; [done|]. intros j g Hj Hg. destruct (Z.eq_dec j index) as [->|]; [congruence|by apply (Hno j); [lia|]].
  - destruct Hinv as [own Hok]. pose proof (ok_held _ _ _ _ _ _ Hok _ _ (proj2 (elem_of_app _ _ _) (or_introl (live_element _ _ _ He E)))) as Hown.
    destruct (ok_next _ _ _ _ _ _ Hok _ _ Hown) as [_ Hv0]. rewrite (proj2 (Z.eqb_neq _ 0) Hv0). rewrite opt_some in El by done. cbn [app] in El. pose proof (Permutation_length El) as Hll. cbn [length] in Hll.
    destruct (assign_inv cur (last_pointer s1) s1) as (s2 & -> & Hinv2 & Ee2 & Hl2 & Hlen2 & Hk2); [lia|lia|unfold roomy, few in *; lia|done|]. rewrite bind_ret.
    destruct (destroy_inv (last_pointer s2) s2) as (s3 & -> & Hinv3 & El3 & Ee3 & Hl3 & _); [unfold last_pointer; lia|unfold roomy, few in *; lia|done|]. rewrite bind_ret.
    exists (ptr e), (index + 1), s3. split_and!; [done|done|congruence|]. left. exists index, e. split_and!; try done. lia.
Qed.

(** [next] returns the next element that is in use. *)
Lemma next_visits index cur s : 0 ≤ index → 0 ≤ cur < Z.of_nat (length (pointers s)) → roomy s → inv s →
  ∃ v i s', next index cur s = Done (v, i, s') ∧ inv s' ∧ m_elements s' = m_elements s ∧ first_used (m_elements s) index v i.
Proof. intros. apply next_from_inv; try done; lia. Qed.

(** ** Runs *)

Inductive op := Construct (v : Z) | Copy (i : Z) | Drop (i : Z) | Finish (j : Z) | Assign (i j : Z) | Get (index : Z) | Add (v : Z) | Remove (index : Z) | Next (index cur : Z).

Definition run (o : op) (s : state) : outcome state :=
  match o with
  | Construct v => Done (construct v (new_object v s))
  | Copy i => copy i s
  | Drop i => drop_pointer i s
  | Finish j => finish j s
  | Assign i j => assign i j s
  | Get index => get_element index s
  | Add v => '(_, s) ← addRef v (new_object v s); Done s
  | Remove index => remove index s
  | Next index cur => '(_, _, s) ← next index cur s; Done s
  end.

(** What a program may do: it has the pointers it names, it hands over objects it has
    just allocated, and it has fewer handles than an [int] can count. *)
Definition allowed (o : op) (s : state) : Prop :=
  roomy s ∧
  match o with
  | Construct v | Add v => v ≠ 0 ∧ v ∉ objects s
  | Copy i | Drop i => 0 ≤ i < Z.of_nat (length (pointers s))
  | Finish j => 0 ≤ j < Z.of_nat (length (due s))
  | Assign i j => 0 ≤ i < Z.of_nat (length (pointers s)) ∧ 0 ≤ j < Z.of_nat (length (pointers s))
  | Get _ | Remove _ => True
  | Next index cur => 0 ≤ index ∧ 0 ≤ cur < Z.of_nat (length (pointers s))
  end.

Inductive reachable : state → Prop :=
| reach_initial : reachable initial
| reach_step o s s' : reachable s → allowed o s → run o s = Done s' → reachable s'.

Lemma run_inv o s : inv s → allowed o s → ∃ s', run o s = Done s' ∧ inv s'.
Proof.
  intros Hinv [Hr Ha]. pose proof (roomy_few _ Hr). destruct o; cbn [run allowed] in *.
  - destruct Ha. eexists. split; [done|by apply construct_inv].
  - by apply copy_inv.
  - by apply drop_pointer_inv.
  - by apply finish_inv.
  - destruct Ha as [Hi Hj]. destruct (assign_inv i j s Hi Hj) as (s' & -> & Hs' & _); [done|done|]. by exists s'.
  - destruct (get_element_inv index s) as (s' & p & -> & Hs' & _); [done|done|]. by exists s'.
  - destruct Ha. destruct (addRef_inv v s) as (i & s' & -> & Hs' & _); [done|done|done|]. by exists s'.
  - by apply remove_inv.
  - destruct Ha. destruct (next_visits index cur s) as (v & i & s' & -> & Hs' & _); [done|done|done|done|]. by exists s'.
Qed.

Lemma smart_reachable_inv s : reachable s → inv s.
Proof.
  induction 1 as [|o s s' _ IH Ha Hrun].
  - exists ∅. constructor; try done; [intros v c; cbn; set_solver|intros v; split; [set_solver|intros [c Hc]; set_solver]|constructor].
  - destruct (run_inv o s IH Ha) as (s2 & E & Hi). congruence.
Qed.

(** C18 (safety): however pointers are copied, assigned and destroyed and elements are
    added, fetched and removed, with the clean-ups of other threads in between: no
    operation touches a counter or an object that was deleted, or deletes one twice;
    the object of a pointer is there, and its count is the number of handles; and an
    object that has no handle is about to be deleted. *)
Theorem smart_pointers_safe s : reachable s →
  (∀ o, allowed o s → ∃ s', run o s = Done s') ∧
  (∀ v c, (v, c) ∈ live s → v ∈ objects s ∧ counters s !! c = Some (Z.of_nat (count c (live s)))) ∧
  (∀ v, v ∈ objects s → ∃ c, (v, c) ∈ live s ++ waiting s).
Proof.
  intros Hs%smart_reachable_inv. split; [intros o Ha; destruct (run_inv o s Hs Ha) as (s' & ? & _); by exists s'|]. destruct Hs as [own Hok]. split.
  - intros v c Hin. assert (Hown : own !! c = Some v) by (apply (ok_held _ _ _ _ _ _ Hok); set_solver).
    split; [apply (ok_objs _ _ _ _ _ _ Hok); by exists c|apply (ok_refs _ _ _ _ _ _ Hok c v Hown)].
  - intros v [c Hown]%(ok_objs _ _ _ _ _ _ Hok). exists c. destruct (ok_refs _ _ _ _ _ _ Hok c v Hown) as [_ Hw].
    assert (Hex : ∃ x, (x, c) ∈ live s ++ waiting s).
    { destruct (decide (count c (live s) = 0%nat)) as [E|E].
      - apply Hw in E. apply list_elem_of_fmap in E as ([x d] & -> & Hin). exists x. set_solver.
      - rewrite count_zero in E. apply dec_stable in E. apply list_elem_of_fmap in E as ([x d] & -> & Hin). exists x. set_solver. }
    destruct Hex as [x Hin]. pose proof (ok_held _ _ _ _ _ _ Hok _ _ Hin). congruence.
Qed.

(** An object is handed over, copied, stored in the array, and its last handle goes. *)
Definition demo_ops : list op := [Construct 7; Copy 0; Add 8; Get 0; Drop 0; Remove 0; Drop 1; Finish 0].
Fixpoint runs (l : list op) (s : state) : outcome state := match l with [] => Done s | o :: l => s ← run o s; runs l s end.

Example demo_smart_run : (s ← runs demo_ops initial; Done (elements (objects s), map_to_list (counters s), due s)) = Done ([8], [(2, 1)], []).
Proof. vm_compute. reflexivity. Qed.

Lemma demo_reachable_smart : reachable (construct 7 (new_object 7 initial)).
Proof. apply (reach_step (Construct 7) initial); [constructor|split; [reflexivity|split; [discriminate|set_solver]]|reflexivity]. Qed.

Lemma smart_pointers_safe_witness :
  let s := construct 7 (new_object 7 initial) in 7 ∈ objects s ∧ ∃ s', run (Copy 0) s = Done s'.
Proof.
  destruct (smart_pointers_safe (construct 7 (new_object 7 initial)) demo_reachable_smart) as (H1 & H2 & _). split.
  - apply (H2 7 1). vm_compute. left.
  - apply (H1 (Copy 0)). split; [reflexivity|]. cbn. lia.
Defined.

(** An object that two arrays own has two counters: it is deleted twice. *)
Example two_counters_fault :
  (let s := construct 7 (construct 7 (new_object 7 initial)) in s ← drop_pointer 0 s; s ← finish 0 s; s ← drop_pointer 1 s; finish 0 s) = Fault.
Proof. vm_compute. reflexivity. Qed.

End Smart.
