(* ===== verification/Devices.v ===== *)
(** * Device names and the device tree

    [dev/name.cpp]: names from a pattern such as [sd%], with letters or a number in
    the place of the percent sign; [dev/tree/]: devices, buses, drivers and their
    binding.  Both tables of names use the same code for two structures, which are the
    two instances of an interface here. *)
From S2P Require Import Prelude Str Elf.
Local Open Scope Z_scope.

Module Names.
Import Str ELF.

(** ** Incrementations *)

(** Memory of the stack that was not written. *)
Section Junk.
Context (junk : list Z).

Record letter_incrementation := mk_letter { l_pattern : list Z; l_current : list Z; l_start : Z }.

(** The loop of the constructor. *)
Fixpoint find_percent (fuel : nat) (i : Z) (current : list Z) : outcome (list Z * Z) :=
  match fuel with
  | O => Done (current, 0)
  | S fuel =>
      c ← current.[i];
      if c =? 0 then Panic "Invalid name pattern"
      else if c =? 37 then current ← current.[i := 97]; Done (current, i)
      else find_percent fuel (i + 1) current
  end.
Definition letter_new (pattern : list Z) : outcome letter_incrementation :=
  current ← memset junk 0 32;
  p ← strncpy junk pattern 32;
  current ← strncpy current pattern 32;
  '(current, start) ← find_percent 32 0 current;
  Done (mk_letter p current start).

(** The loop of [get]: the next letters, the lowest first. *)
Fixpoint advance (fuel : nat) (i : Z) (current : list Z) : outcome (list Z) :=
  match fuel with
  | O => Done current
  | S fuel =>
      c ← current.[i];
      if c =? 0 then current.[i := 97]
      else
        current ← current.[i := u8 (c + 1)];
        if char (u8 (c + 1)) >? 122 then current ← current.[i := 97]; advance fuel (i + 1) current
        else Done current
  end.
Definition letter_get (buffer : list Z) (len : Z) (a : letter_incrementation) : outcome (list Z * letter_incrementation) :=
  buffer ← strncpy buffer (l_current a) len;
  buffer ← buffer.[len - 1 := 0];
  current ← advance (32 - Z.to_nat (l_start a)) (l_start a) (l_current a);
  Done (buffer, mk_letter (l_pattern a) current (l_start a)).

Record number_incrementation := mk_number { n_pattern : list Z; n_base : list Z; n_current : Z }.

Definition number_new (pattern : list Z) : outcome number_incrementation :=
  p ← strncpy junk pattern 32;
  base ← strncpy junk pattern 32;
  Done (mk_number p ((λ c, if c =? 37 then 0 else c) <$> base) 0).
Definition number_get (buffer : list Z) (len : Z) (a : number_incrementation) : outcome (list Z * number_incrementation) :=
  buffer ← snprintf buffer len (cstr (lit "%s%i")) [Text 0x1000 (n_base a); Num (n_current a)];
  Done (buffer, mk_number (n_pattern a) (n_base a) (i32 (n_current a + 1))).

(** ** The tables *)

Class Incrementation (A : Type) := {
  inc_new : list Z → outcome A; inc_pattern : A → list Z; inc_get : list Z → Z → A → outcome (list Z * A) }.
#[export] Instance letters_inc : Incrementation letter_incrementation := {| inc_new := letter_new; inc_pattern := l_pattern; inc_get := letter_get |}.
#[export] Instance numbers_inc : Incrementation number_incrementation := {| inc_new := number_new; inc_pattern := n_pattern; inc_get := number_get |}.

Fixpoint name_increment `{Incrementation A} (buffer : list Z) (len : Z) (pattern : list Z) (l : list A) : outcome (list Z * list A) :=
  match l with
  | [] => a ← inc_new pattern; '(buffer, a) ← inc_get buffer len a; Done (buffer, [a])
  | a :: l =>
      r ← strcmp (inc_pattern a) pattern;
      if r =? 0 then '(buffer, a) ← inc_get buffer len a; Done (buffer, a :: l)
      else '(buffer, l) ← name_increment buffer len pattern l; Done (buffer, a :: l)
  end.
Definition name_letter_increment (buffer : list Z) (len : Z) (pattern : list Z) (l : list letter_incrementation) : outcome (list Z * list letter_incrementation) :=
  name_increment buffer len pattern l.
Definition name_number_increment (buffer : list Z) (len : Z) (pattern : list Z) (l : list number_incrementation) : outcome (list Z * list number_incrementation) :=
  name_increment buffer len pattern l.

(** ** What the names are *)

(** The part of a pattern before the percent sign. *)
Definition base_ok (b : list Z) : Prop := text b ∧ 37 ∉ b ∧ (length b ≤ 20)%nat.
Definition pattern_of (b : list Z) : list Z := b ++ [37].

(** The [n]-th name of a pattern is its base and [sfx n]: [rep b n a] says that [n]
    names were taken from [a]. *)
Class IncrementationLaws (A : Type) `{Incrementation A} (sfx : nat → list Z) := {
  rep : list Z → nat → A → Prop;
  rep_new b : base_ok b → ∃ a, inc_new (cstr (pattern_of b)) = Done a ∧ rep b 0 a;
  rep_pattern b n a : base_ok b → rep b n a → named (pattern_of b) (inc_pattern a);
  rep_get b n a buffer len : base_ok b → rep b n a → Z.of_nat n < 2 ^ 31 - 1 →
    Z.of_nat (length b + length (sfx n)) < len < 2 ^ 31 → Z.of_nat (length buffer) = len →
    ∃ buffer' a', inc_get buffer len a = Done (buffer', a') ∧ text_of buffer' = Done (b ++ sfx n) ∧ rep b (S n) a' }.

(** Calls one after the other, each with a buffer of [len] bytes. *)
Fixpoint calls `{Incrementation A} (buffer : list Z) (len : Z) (bs : list (list Z)) (l : list A) : outcome (list (list Z)) :=
  match bs with
  | [] => Done []
  | b :: bs =>
      '(buf, l) ← name_increment buffer len (cstr (pattern_of b)) l;
      t ← text_of buf;
      r ← calls buffer len bs l;
      Done (t :: r)
  end.

(** The names they should return: the number of earlier calls with the base counts. *)
Definition uses (b : list Z) (seen : list (list Z)) : nat := length (filter (λ x, x = b) seen).
Fixpoint names (sfx : nat → list Z) (seen bs : list (list Z)) : list (list Z) :=
  match bs with
  | [] => []
  | b :: bs => (b ++ sfx (uses b seen)) :: names sfx (b :: seen) bs
  end.

(** The table after the calls [seen]: an entry for each base. *)
Section Tables.
Context {A : Type} `{!Incrementation A} (sfx : nat → list Z) `{!IncrementationLaws A sfx}.

Definition table_ok (seen : list (list Z)) (l : list A) : Prop :=
  ∃ ks, Forall2 (λ b a, base_ok b ∧ rep b (uses b seen) a) ks l ∧ NoDup ks ∧ ∀ b, b ∈ ks ↔ b ∈ seen.

Lemma uses_cons b x seen : uses b (x :: seen) = ((if decide (x = b) then 1 else 0) + uses b seen)%nat.
Proof. unfold uses. rewrite filter_cons. by destruct (decide (x = b)). Qed.
Lemma uses_le b seen : (uses b seen ≤ length seen)%nat.
Proof. apply length_filter. Qed.
Lemma uses_absent b seen : b ∉ seen → uses b seen = 0%nat.
Proof.
  induction seen as [|x seen IH]; [done|]. intros [Hx Hs]%not_elem_of_cons. rewrite uses_cons, decide_False, IH by done. done.
Qed.

Lemma pattern_inj b b' : pattern_of b = pattern_of b' → b = b'.
Proof. unfold pattern_of. by intros [? _]%app_inj_tail. Qed.
Lemma pattern_text b : base_ok b → text (pattern_of b).
Proof. intros (Ht & _). apply Forall_app. split; [done|]. constructor; [lia|constructor]. Qed.

(** One call: the entries [ks] before the base stay. *)
Lemma increment_spec b seen ks l buffer len :
  base_ok b → Forall2 (λ b a, base_ok b ∧ rep b (uses b seen) a) ks l → NoDup ks → (b ∉ ks → b ∉ seen) → Z.of_nat (length seen) < 2 ^ 31 - 1 →
  Z.of_nat (length b + length (sfx (uses b seen))) < len < 2 ^ 31 → Z.of_nat (length buffer) = len →
  ∃ buffer' l' ks', name_increment buffer len (cstr (pattern_of b)) l = Done (buffer', l') ∧ text_of buffer' = Done (b ++ sfx (uses b seen)) ∧
    Forall2 (λ b' a, base_ok b' ∧ rep b' (uses b' (b :: seen)) a) ks' l' ∧ NoDup ks' ∧ ∀ x, x ∈ ks' ↔ x = b ∨ x ∈ ks.
Proof.
  intros Hb Hl. induction Hl as [|k a ks l [Hk Hrep] Hl IH]; intros Hnd Hno Hseen Hlen Hbuf; cbn [name_increment].
  - destruct (rep_new b Hb) as (a & -> & Ha). rewrite bind_ret. rewrite (uses_absent b seen) in * by (apply Hno; set_solver).
    destruct (rep_get b 0 a buffer len Hb Ha ltac:(lia) Hlen Hbuf) as (buf & a' & -> & Ht & Ha'). rewrite bind_ret. exists buf, [a'], [b].
    split_and!; [done|done| |apply NoDup_singleton|set_solver]. constructor; [|constructor]. split; [done|]. rewrite uses_cons, decide_True, (uses_absent b seen) by (done || apply Hno; set_solver). done.
  - destruct (strcmp_named _ _ _ _ (rep_pattern k _ a Hk Hrep) (cstr_named _ (pattern_text b Hb))) as (r & -> & Hr). rewrite bind_ret. apply NoDup_cons in Hnd as [Hkn Hnd].
    assert (Hother : ∀ ks, Forall (λ x, x ≠ b) ks → ∀ l, Forall2 (λ b a, base_ok b ∧ rep b (uses b seen) a) ks l → Forall2 (λ b' a, base_ok b' ∧ rep b' (uses b' (b :: seen)) a) ks l).
    { intros ks0 Hf l0 Hl0. induction Hl0 as [|x y ks0 l0 [Hx Hy] _ IH0]; [constructor|]. apply Forall_cons in Hf as [Hxb Hf]. constructor; [|by apply IH0]. split; [done|]. by rewrite uses_cons, decide_False. }
    destruct (Z.eqb_spec r 0) as [E|E].
    + apply Hr in E. apply pattern_inj in E as ->. pose proof (uses_le b seen).
      destruct (rep_get b _ a buffer len Hb Hrep ltac:(lia) Hlen Hbuf) as (buf & a' & -> & Ht & Ha'). rewrite bind_ret. exists buf, (a' :: l), (b :: ks).
      split_and!; [done|done| |by constructor|set_solver]. constructor; [split; [done|by rewrite uses_cons, decide_True]|]. apply Hother; [|done].
      apply Forall_forall. intros x Hx ->. done.
    + assert (Hkb : k ≠ b) by (intros ->; apply E, Hr; done). destruct (IH Hnd) as (buf & l' & ks' & -> & Ht & Hl' & Hnd' & Hin); [set_solver|done|done|done|]. rewrite bind_ret.
      exists buf, (a :: l'), (k :: ks'). split_and!; [done|done| | |set_solver].
      * constructor; [split; [done|by rewrite uses_cons, decide_False]|done].
      * constructor; [|done]. rewrite Hin. naive_solver.
Qed.

Lemma calls_spec bs seen l buffer len :
  Forall base_ok bs → table_ok seen l → Z.of_nat (length seen + length bs) < 2 ^ 31 - 1 → len < 2 ^ 31 → Z.of_nat (length buffer) = len →
  Forall (λ t, Z.of_nat (length t) < len) (names sfx seen bs) → calls buffer len bs l = Done (names sfx seen bs).
Proof.
  revert seen l. induction bs as [|b bs IH]; intros seen l Hbs (ks & Hl & Hnd & Hks) Hn Hlen Hbuf Hfit; [done|]. cbn [calls names] in *. apply Forall_cons in Hbs as [Hb Hbs].
  apply Forall_cons in Hfit as [Hf Hfit]. rewrite length_app in Hf. cbn [length] in Hn.
  destruct (increment_spec b seen ks l buffer len) as (buf & l' & ks' & -> & Ht & Hl' & Hnd' & Hin); [done|done|done|by rewrite Hks|lia|lia|done|].
  rewrite bind_ret, Ht, bind_ret, (IH (b :: seen) l'); [done|done| |cbn [length]; lia|done|done|done].
  exists ks'. split_and!; [done|done|]. intros x. rewrite Hin, Hks. set_solver.
Qed.

End Tables.

(** *** Letters *)

Fixpoint succ_letters (l : list Z) : list Z :=
  match l with [] => [97] | c :: l => if c <? 122 then c + 1 :: l else 97 :: succ_letters l end.
Fixpoint letters (n : nat) : list Z := match n with O => [97] | S n => succ_letters (letters n) end.

Definition letter (c : Z) : Prop := 97 ≤ c ≤ 122.
(** Letters are digits from 1 to 26, the lowest first. *)
Fixpoint letters_value (l : list Z) : Z := match l with [] => 0 | c :: l => c - 96 + 26 * letters_value l end.

Lemma succ_letters_ok l : Forall letter l → Forall letter (succ_letters l) ∧ letters_value (succ_letters l) = letters_value l + 1.
Proof.
  unfold letter. induction 1 as [|c l Hc Hl [IH1 IH2]]; cbn [succ_letters]; [split; [repeat constructor; lia|done]|].
  destruct (Z.ltb_spec c 122); cbn [letters_value]; split; [constructor; [lia|done]|lia|constructor; [lia|done]|lia].
Qed.
Lemma letters_ok n : Forall letter (letters n) ∧ letters_value (letters n) = Z.of_nat n + 1.
Proof.
  induction n as [|n [IH1 IH2]]; [split; [repeat constructor; unfold letter; lia|done]|]. cbn [letters]. destruct (succ_letters_ok _ IH1) as [H1 H2]. split; [done|lia].
Qed.
Lemma letters_inj n n' : letters n = letters n' → n = n'.
Proof. intros E. pose proof (proj2 (letters_ok n)) as H1. pose proof (proj2 (letters_ok n')) as H2. rewrite E in H1. lia. Qed.

Lemma letters_value_length l : Forall letter l → l ≠ [] → 26 ^ (Z.of_nat (length l) - 1) ≤ letters_value l.
Proof.
  unfold letter. induction 1 as [|c l Hc Hl IH]; [done|]. intros _. destruct l as [|d l]; [cbn; lia|]. specialize (IH ltac:(done)).
  change (letters_value (c :: d :: l)) with (c - 96 + 26 * letters_value (d :: l)). replace (Z.of_nat (length (c :: d :: l)) - 1) with (Z.succ (Z.of_nat (length (d :: l)) - 1)) by (cbn [length]; lia).
  rewrite Z.pow_succ_r by (cbn [length]; lia). lia.
Qed.
Lemma letters_length n : Z.of_nat n < 2 ^ 31 → (length (letters n) ≤ 7)%nat.
Proof.
  intros Hn. destruct (letters_ok n) as [Hl Hv]. destruct (decide (letters n = [])) as [->|Hne]; [cbn; lia|]. pose proof (letters_value_length _ Hl Hne) as Hle.
  destruct (decide (length (letters n) ≤ 7)%nat); [done|]. pose proof (Z.pow_le_mono_r 26 7 (Z.of_nat (length (letters n)) - 1) ltac:(lia) ltac:(lia)). lia.
Qed.

Lemma advance_letters pre ls k fuel :
  Forall letter ls → (length ls < fuel)%nat →
  ∃ k', advance fuel (Z.of_nat (length pre)) (pre ++ ls ++ replicate (S k) 0) = Done (pre ++ succ_letters ls ++ replicate k' 0) ∧ (length ls + S k = length (succ_letters ls) + k')%nat.
Proof.
  intros Hls. revert pre fuel. induction Hls as [|c ls Hc Hls IH]; intros pre fuel Hf; (destruct fuel as [|fuel]; [cbn in Hf; lia|]); cbn [advance].
  - cbn [app]. rewrite (proj2 (rd_Done _ (Z.of_nat (length pre)) 0)) by (split; [lia|rewrite Nat2Z.id; by apply list_lookup_middle]). rewrite bind_ret. cbn [Z.eqb].
    rewrite wr_in_range by (rewrite length_app; cbn; lia). exists k. rewrite Nat2Z.id, insert_app_r_alt, Nat.sub_diag by lia. split; [done|cbn; lia].
  - unfold letter in Hc. cbn [app]. rewrite (proj2 (rd_Done _ (Z.of_nat (length pre)) c)) by (split; [lia|rewrite Nat2Z.id; by apply list_lookup_middle]). rewrite bind_ret. destruct (Z.eqb_spec c 0); [lia|].
    rewrite wr_in_range by (rewrite length_app; cbn; lia). rewrite bind_ret, Nat2Z.id, insert_app_r_alt, Nat.sub_diag by lia. cbn [insert list_insert]. rewrite wrap_small, char_ascii by lia.
    cbn [succ_letters]. rewrite Z.gtb_ltb. destruct (Z.ltb_spec 122 (c + 1)), (Z.ltb_spec c 122); try lia.
    + rewrite wr_in_range by (rewrite length_app; cbn; lia). rewrite bind_ret, Nat2Z.id, insert_app_r_alt, Nat.sub_diag by lia. cbn [insert list_insert].
      destruct (IH (pre ++ [97]) fuel) as (k' & He & Hlen); [cbn in Hf; lia|]. rewrite length_app in He. cbn [length] in He. rewrite <-!app_assoc in He. cbn [app] in He.
      replace (Z.of_nat (length pre) + 1) with (Z.of_nat (length pre + 1)) by lia. exists k'. rewrite He. split; [done|cbn [length]; lia].
    + exists (S k). split; [done|cbn [length]; lia].
Qed.

Lemma find_percent_at pre b rest fuel :
  text b → 37 ∉ b → (length b < fuel)%nat →
  find_percent fuel (Z.of_nat (length pre)) (pre ++ b ++ 37 :: rest) = Done (pre ++ b ++ 97 :: rest, Z.of_nat (length pre + length b)).
Proof.
  intros Hb. revert pre fuel. induction Hb as [|c b Hc Hb IH]; intros pre fuel Hno Hf; (destruct fuel as [|fuel]; [cbn in Hf; lia|]); cbn [find_percent app].
  - rewrite (proj2 (rd_Done _ (Z.of_nat (length pre)) 37)) by (split; [lia|rewrite Nat2Z.id; by apply list_lookup_middle]). rewrite bind_ret. cbn [Z.eqb Pos.eqb].
    rewrite wr_in_range by (rewrite length_app; cbn; lia). rewrite bind_ret, Nat2Z.id, insert_app_r_alt, Nat.sub_diag by lia. cbn. by rewrite Nat.add_0_r.
  - apply not_elem_of_cons in Hno as [Hc37 Hno]. rewrite (proj2 (rd_Done _ (Z.of_nat (length pre)) c)) by (split; [lia|rewrite Nat2Z.id; by apply list_lookup_middle]). rewrite bind_ret.
    destruct (Z.eqb_spec c 0); [lia|]. destruct (Z.eqb_spec c 37); [done|]. cbn [length] in Hf. pose proof (IH (pre ++ [c]) fuel Hno ltac:(lia)) as He. rewrite length_app in He. cbn [length] in He. rewrite <-!app_assoc in He. cbn [app] in He.
    replace (Z.of_nat (length pre) + 1) with (Z.of_nat (length pre + 1)) by lia. rewrite He. cbn [length]. do 3 f_equal. lia.
Qed.

(** *** Numbers *)

Definition number_text (n : nat) : list Z :=
  match (b ← itos (Z.of_nat n) 10 tmp_buffer; text_of b) with Done t => t | _ => [] end.

Lemma number_text_itos n : Z.of_nat n < 2 ^ 31 → ∃ rest, itos (Z.of_nat n) 10 tmp_buffer = Done (number_text n ++ 0 :: rest) ∧ text (number_text n) ∧ (length (number_text n) < 72)%nat.
Proof.
  intros Hn. destruct (itos_spec (Z.of_nat n) 10 tmp_buffer) as (s & rest & E & Hs & _); [lia|lia|vm_compute; discriminate|].
  assert (Hst : text s) by (eapply Forall_impl; [exact Hs|]; intros; cbn in *; lia). unfold number_text. rewrite E, bind_ret. unfold cstr. rewrite <-app_assoc. cbn [app]. rewrite text_of_text by done. exists rest. split_and!; [done|done|].
  unfold itos in E. cbn [Z.ltb Z.gtb Z.compare Pos.compare Pos.compare_cont orb] in E. apply bind_Done in E as (ds & _ & E). apply put_Done in E as (_ & _ & E & _).
  unfold cstr in E. rewrite !length_app in E. cbn [length] in E. change (length tmp_buffer) with 72%nat in E. lia.
Qed.
Lemma number_text_inj n n' : Z.of_nat n < 2 ^ 31 → Z.of_nat n' < 2 ^ 31 → number_text n = number_text n' → n = n'.
Proof.
  intros Hn Hn' E. destruct (number_text_itos n Hn) as (r & H1 & Ht & _), (number_text_itos n' Hn') as (r' & H2 & _).
  pose proof (itos_stoi_roundtrip (Z.of_nat n) 33 tmp_buffer ltac:(lia) ltac:(lia) ltac:(vm_compute; discriminate)) as R1.
  pose proof (itos_stoi_roundtrip (Z.of_nat n') 33 tmp_buffer ltac:(lia) ltac:(lia) ltac:(vm_compute; discriminate)) as R2.
  rewrite H1, bind_ret in R1. rewrite H2, bind_ret, <-E in R2.
  assert (Hsame : ∀ t rest rest', stoi 33 10 (t ++ 0 :: rest) = stoi 33 10 (t ++ 0 :: rest')).
  { assert (Hloop : ∀ t acc rest rest', stoi_loop 33 10 acc (t ++ 0 :: rest) = stoi_loop 33 10 acc (t ++ 0 :: rest')) by (induction t as [|c t IH]; intros; [done|]; cbn [app stoi_loop]; by destruct (c =? 0)).
    intros t rest rest'. destruct t as [|c t]; [done|].
    assert (Hs : ∀ q, stoi 33 10 ((c :: t) ++ 0 :: q) = if c =? 45 then res ← stoi_loop 33 10 0 (t ++ 0 :: q); Done (swrap 33 (-1 * res)) else stoi_loop 33 10 0 ((c :: t) ++ 0 :: q)) by done.
    rewrite !Hs. by rewrite (Hloop t 0 rest rest'), (Hloop (c :: t) 0 rest rest'). }
  rewrite (Hsame _ r r') in R1. rewrite R1 in R2. injection R2 as ?. lia.
Qed.

(** *** The instances *)

Context (junk_size : length junk = 32%nat).

Lemma strncpy_pattern b dst : base_ok b → length dst = 32%nat →
  strncpy dst (cstr (pattern_of b)) 32 = Done (b ++ 37 :: 0 :: drop (S (S (length b))) dst).
Proof.
  intros (Ht & _ & Hl) Hd. unfold cstr, pattern_of. assert (Hp : length (b ++ [37]) = S (length b)) by (rewrite length_app; cbn; lia).
  rewrite (strncpy_text dst (b ++ [37]) [] 32); [|apply Forall_app; split; [done|constructor; [lia|constructor]]|lia|lia|lia].
  rewrite Hp, <-app_assoc. done.
Qed.

Lemma named_pattern b rest : base_ok b → named (pattern_of b) (b ++ 37 :: 0 :: rest).
Proof. intros Hb. split; [by apply pattern_text|]. exists rest. unfold cstr, pattern_of. by rewrite <-!app_assoc. Qed.

Definition letter_rep (b : list Z) (n : nat) (a : letter_incrementation) : Prop :=
  named (pattern_of b) (l_pattern a) ∧ l_start a = Z.of_nat (length b) ∧ length (l_current a) = 32%nat ∧ ∃ k, l_current a = b ++ letters n ++ replicate k 0.

#[export] Instance letter_laws : IncrementationLaws letter_incrementation letters.
Proof.
  refine {| rep := letter_rep |}.
  - intros b Hb. pose proof Hb as (Ht & Hp & Hl). cbn [inc_new letters_inc]. unfold letter_new. rewrite memset_buffer, bind_ret by done. rewrite (strncpy_pattern b junk), bind_ret by done.
    rewrite (strncpy_pattern b (replicate 32 0)), bind_ret by done. pose proof (find_percent_at [] b (0 :: drop (S (S (length b))) (replicate 32 0)) 32 Ht Hp ltac:(lia)) as Hfp. cbn [app length] in Hfp. change (Z.of_nat 0) with 0 in Hfp. rewrite Hfp, bind_ret. eexists. split; [reflexivity|]. cbn [app length Nat.add].
    split; [by apply named_pattern|]. split; [done|]. cbn [l_current]. rewrite drop_replicate. split.
    + rewrite length_app. cbn [length]. rewrite length_replicate. lia.
    + exists (S (32 - S (S (length b)))). done.
  - intros b n a _ [Hn _]. exact Hn.
  - intros b n a buffer len Hb (Hn & Hs & H32 & k & Hc) Hlt Hlen Hbuf. pose proof Hb as (Ht & _ & Hl). cbn [inc_get letters_inc]. unfold letter_get. pose proof (letters_length n ltac:(lia)) as Hll.
    assert (Hk : (length b + length (letters n) + k = 32)%nat) by (rewrite Hc, !length_app, length_replicate in H32; lia). destruct k as [|k]; [lia|].
    destruct (letters_ok n) as [Hlet _]. assert (Htext : text (b ++ letters n)) by (apply Forall_app; split; [done|]; eapply Forall_impl; [exact Hlet|]; unfold letter; intros; lia).
    rewrite Hc. cbn [replicate]. rewrite app_assoc. rewrite (strncpy_text buffer (b ++ letters n)) by (done || rewrite length_app; lia). rewrite bind_ret.
    set (d := drop _ buffer). assert (Hd : Z.of_nat (length ((b ++ letters n) ++ 0 :: d)) = len) by (rewrite length_app; unfold d; cbn [length]; rewrite length_drop, !length_app; lia).
    rewrite wr_in_range, bind_ret by lia. destruct (advance_letters b (letters n) k (32 - length b) Hlet ltac:(lia)) as (k' & He & Hk').
    rewrite Hs, Nat2Z.id, <-(app_assoc b (letters n) (0 :: replicate k 0)). cbn [replicate] in He. rewrite He, bind_ret. eexists _, _. split; [reflexivity|]. split.
    + rewrite insert_app_r_alt by (rewrite length_app in *; cbn [length] in Hd; lia).
      destruct (Z.to_nat (len - 1) - length (b ++ letters n))%nat as [|j] eqn:Ej; cbn [insert list_insert]; by apply text_of_text.
    + split; [done|]. split; [done|]. cbn [l_current]. split; [rewrite !length_app, length_replicate in *; cbn [letters]; lia|]. by exists k'.
Qed.

Definition number_rep (b : list Z) (n : nat) (a : number_incrementation) : Prop :=
  named (pattern_of b) (n_pattern a) ∧ n_current a = Z.of_nat n ∧ ∃ rest, n_base a = b ++ 0 :: rest.

Lemma padded_short t : Z.of_nat (length t) < 2 ^ 31 → padded 32 0 t = t.
Proof. intros Ht. unfold padded. rewrite swrap_small by lia. rewrite Z2Nat.nonpos by lia. done. Qed.

Lemma render_directive fuel fmt pc pl sz c rest args t args' :
  directive fmt = Done (pc, pl, sz, c :: rest) → incr (c :: rest) = Done rest → render_conv pc pl sz c args = Done (t, args') →
  render_loop (S fuel) (37 :: fmt) args = (c ← deref rest; if c =? 0 then Done t else r ← render_loop fuel rest args'; Done (t ++ r)).
Proof.
  intros Hd Hi Hc. cbn [render_loop]. change (deref (37 :: fmt)) with (Done 37). change (incr (37 :: fmt)) with (Done fmt). rewrite bind_ret. cbn [Z.eqb Pos.eqb].
  rewrite bind_ret, Hd, bind_ret. change (deref (c :: rest)) with (Done c). rewrite bind_ret, Hc, !bind_ret, Hi, bind_ret. done.
Qed.

Lemma render_number_name b rest n : base_ok b → Z.of_nat n < 2 ^ 31 →
  render (cstr (lit "%s%i")) [Text 0x1000 (b ++ 0 :: rest); Num (Z.of_nat n)] = Done (b ++ number_text n).
Proof.
  intros (Hb & _ & Hl) Hn. destruct (number_text_itos n Hn) as (r & Hi & Ht & Hnl).
  assert (Hrn : render_number 32 0 (i32 (Z.of_nat n)) 10 = Done (number_text n)).
  { rewrite swrap_small by lia. unfold render_number. rewrite Hi, bind_ret, text_of_text, bind_ret by done. by rewrite padded_short by lia. }
  change (cstr (lit "%s%i")) with [37; 115; 37; 105; 0]. unfold render. cbn [length].
  erewrite render_directive; [|reflexivity|reflexivity|unfold render_conv; cbn [Z.eqb Pos.eqb va_text]; rewrite bind_ret, text_of_text, bind_ret by done; reflexivity]. cbn [deref]. rewrite bind_ret. cbn [Z.eqb].
  erewrite render_directive; [|reflexivity|reflexivity|unfold render_conv; cbn [Z.eqb Pos.eqb va_num signed_of]; rewrite bind_ret, Hrn, bind_ret; reflexivity]. cbn [deref]. rewrite bind_ret. cbn [Z.eqb].
  rewrite bind_ret, padded_short by lia. done.
Qed.

#[export] Instance number_laws : IncrementationLaws number_incrementation number_text.
Proof.
  refine {| rep := number_rep |}.
  - intros b Hb. pose proof Hb as (Ht & Hp & Hl). cbn [inc_new numbers_inc]. unfold number_new. rewrite (strncpy_pattern b junk), !bind_ret by done. eexists. split; [reflexivity|].
    split; [by apply named_pattern|]. split; [done|]. cbn [n_base]. eexists. rewrite fmap_app. cbn [fmap list_fmap Z.eqb Pos.eqb]. f_equal.
    clear Ht Hl Hb. induction b as [|c b IH]; [done|]. apply not_elem_of_cons in Hp as [Hc Hp]. cbn [fmap list_fmap]. rewrite (proj2 (Z.eqb_neq c 37)) by congruence. f_equal. by apply IH.
  - intros b n a _ [Hn _]. exact Hn.
  - intros b n a buffer len Hb (Hn & Hc & rest & Hr) Hlt Hlen Hbuf. cbn [inc_get numbers_inc]. unfold number_get. rewrite Hc, Hr.
    rewrite (snprintf_stores buffer len _ _ (b ++ number_text n)); [|lia|lia|by apply render_number_name; [|lia]]. rewrite bind_ret. eexists _, _. split; [reflexivity|].
    destruct (number_text_itos n ltac:(lia)) as (r & _ & Ht & _). split.
    + rewrite take_ge by (rewrite length_app; lia). cbn [app]. apply text_of_text. destruct Hb as (Hb & _). by apply Forall_app.
    + split; [done|]. split; [|by exists rest]. cbn [n_current]. rewrite swrap_small; lia.
Qed.

Lemma names_lookup sfx seen bs i b : bs !! i = Some b → names sfx seen bs !! i = Some (b ++ sfx (uses b (rev (take i bs) ++ seen))).
Proof.
  revert seen i. induction bs as [|x bs IH]; intros seen [|i] Hi; [done..|by injection Hi as ->|]. cbn [names take rev]. rewrite <-app_assoc. cbn [lookup list_lookup]. by apply IH.
Qed.

Lemma uses_app b l l' : uses b (l ++ l') = (uses b l + uses b l')%nat.
Proof. unfold uses. by rewrite filter_app, length_app. Qed.

Lemma uses_grow b bs i j : bs !! i = Some b → (i < j)%nat → (uses b (rev (take i bs) ++ []) < uses b (rev (take j bs) ++ []))%nat.
Proof.
  intros Hi Hij. rewrite !app_nil_r. pose proof (lookup_lt_Some _ _ _ Hi). replace (take j bs) with (take i bs ++ [b] ++ take (j - S i) (drop (S i) bs)).
  - rewrite !rev_app_distr. cbn [rev app]. rewrite !uses_app, uses_cons, decide_True by done. lia.
  - replace j with (i + (1 + (j - S i)))%nat at 2 by lia. rewrite <-take_take_drop, <-take_take_drop. do 2 f_equal; [|by rewrite drop_drop, Nat.add_1_r]. rewrite (drop_S _ b) by done. done.
Qed.

Lemma names_distinct sfx bs b i j :
  (∀ n n', Z.of_nat n < 2 ^ 31 → Z.of_nat n' < 2 ^ 31 → sfx n = sfx n' → n = n') → Z.of_nat (length bs) < 2 ^ 31 →
  bs !! i = Some b → bs !! j = Some b → i ≠ j → names sfx [] bs !! i ≠ names sfx [] bs !! j.
Proof.
  intros Hinj Hlen Hi Hj Hij E. rewrite (names_lookup _ _ _ _ _ Hi), (names_lookup _ _ _ _ _ Hj) in E. injection E as E%app_inv_head.
  assert (Hb : ∀ k, Z.of_nat (uses b (rev (take k bs) ++ [])) < 2 ^ 31) by (intros k; pose proof (uses_le b (rev (take k bs) ++ [])) as Hle; rewrite app_nil_r, length_rev, length_take in Hle; rewrite app_nil_r; lia).
  apply Hinj in E; [|apply Hb|apply Hb]. destruct (Nat.lt_total i j) as [Hlt|[|Hlt]]; [pose proof (uses_grow b bs i j Hi Hlt); lia|done|pose proof (uses_grow b bs j i Hj Hlt); lia].
Qed.

(** C23 (functional): for any sequence of calls with any patterns, the [n]-th call with
    a pattern returns the base of the pattern and the [n]-th letters (a, b, ..., z, aa,
    ba, ...) or the number [n], so no two devices of a pattern get the same name. *)
Theorem device_names bs buffer len :
  Forall base_ok bs → Z.of_nat (length bs) < 2 ^ 31 - 1 → len < 2 ^ 31 → Z.of_nat (length buffer) = len →
  (Forall (λ t, Z.of_nat (length t) < len) (names letters [] bs) → calls (A := letter_incrementation) buffer len bs [] = Done (names letters [] bs)) ∧
  (Forall (λ t, Z.of_nat (length t) < len) (names number_text [] bs) → calls (A := number_incrementation) buffer len bs [] = Done (names number_text [] bs)) ∧
  (∀ b i j, bs !! i = Some b → bs !! j = Some b → i ≠ j →
     names letters [] bs !! i ≠ names letters [] bs !! j ∧ names number_text [] bs !! i ≠ names number_text [] bs !! j).
Proof.
  intros Hbs Hn Hlen Hbuf. split; [|split].
  - intros Hfit. apply (calls_spec letters); try done. exists []. split_and!; [constructor|constructor|set_solver].
  - intros Hfit. apply (calls_spec number_text); try done. exists []. split_and!; [constructor|constructor|set_solver].
  - intros b i j Hi Hj Hij. split; apply (names_distinct _ bs b); try done; try lia; [intros; by apply letters_inj|apply number_text_inj].
Qed.

End Junk.

Lemma device_names_witness :
  calls (A := letter_incrementation) (H := letters_inc (replicate 32 7)) (replicate 16 9) 16 [lit "sd"; lit "sr"; lit "sd"] [] = Done [lit "sda"; lit "sra"; lit "sdb"].
Proof.
  refine (proj1 (device_names (replicate 32 7) eq_refl [lit "sd"; lit "sr"; lit "sd"] (replicate 16 9) 16 _ _ _ _) _);
    [repeat (constructor; [split_and!; [apply lit_text; reflexivity|apply (bool_decide_unpack _); vm_compute; exact I|cbn; lia]|]); constructor|cbn; lia|lia|reflexivity|].
  apply (bool_decide_unpack _). vm_compute. exact I.
Defined.

End Names.

Module Tree.
Import Str ELF.

(** ** Devices and buses *)

Inductive type_t := MEMORY | IO | IRQ.
Record resource := mk_resource { r_type : type_t; r_start : Z; r_end : Z }.
(** [resource(type, value)]. *)
Definition single (ty : type_t) (value : Z) : resource := mk_resource ty value value.

(** Devices, drivers and buses are named by their addresses. *)
Record Device := mk_device { d_name : list Z; parent : option Z; children : list Z; m_resources : list resource }.
Record Bus := mk_bus { b_name : list Z; b_devices : list Z; b_drivers : list Z }.

(** The devices, the root, the buses, and the calls of [bind] so far. *)
Record tree := mk_tree { devices : gmap Z Device; root_device : option Z; buses : list Bus; bound : list (Z * Z) }.

Definition with_devices (m : gmap Z Device) (t : tree) : tree := mk_tree m (root_device t) (buses t) (bound t).
Definition with_buses (l : list Bus) (t : tree) : tree := mk_tree (devices t) (root_device t) l (bound t).

Definition device (d : Z) (t : tree) : outcome Device := match devices t !! d with Some x => Done x | None => Fault end.
Definition add_child (d child : Z) (t : tree) : outcome tree :=
  x ← device d t; Done (with_devices (<[d := mk_device (d_name x) (parent x) (children x ++ [child]) (m_resources x)]> (devices t)) t).

(** [Device(const char* name, Device* parent)] at the address [d]. *)
Definition new_device (d : Z) (name : list Z) (par : option Z) (t : tree) : outcome tree :=
  buffer ← strncpy (replicate 32 0) name 32;
  let par := match par with None => root_device t | Some p => Some p end in
  let t := with_devices (<[d := mk_device buffer par [] []]> (devices t)) t in
  match par with None => Done t | Some p => add_child p d t end.
Definition init (d : Z) (t : tree) : outcome tree :=
  t ← new_device d (cstr (lit "root")) None t; Done (mk_tree (devices t) (Some d) (buses t) (bound t)).

Definition add (r : resource) (d : Z) (t : tree) : outcome tree :=
  x ← device d t; Done (with_devices (<[d := mk_device (d_name x) (parent x) (children x) (m_resources x ++ [r])]> (devices t)) t).
Definition getResource (index d : Z) (t : tree) : outcome (option resource) :=
  x ← device d t;
  if (index <? 0) || (index >=? Z.of_nat (length (m_resources x))) then Done None else r ← (m_resources x).[index]; Done (Some r).
(** [Device::registerDevice]. *)
Definition adopt (d child : Z) (t : tree) : outcome tree :=
  x ← device child t;
  add_child d child (with_devices (<[child := mk_device (d_name x) (Some d) (children x) (m_resources x)]> (devices t)) t).

(** [Bus(const char* name)]. *)
Definition new_bus (name : list Z) (t : tree) : outcome tree :=
  buffer ← strncpy (replicate 32 0) name 32; Done (with_buses (buses t ++ [mk_bus buffer [] []]) t).

(** ** Binding *)

Section Binding.
(** [Driver::check]; [bind] is a call that is recorded. *)
Context (check : Z → Z → bool).

Definition bindDriver (driver dev : Z) (t : tree) : tree :=
  if negb (check driver dev) then t else mk_tree (devices t) (root_device t) (buses t) (bound t ++ [(driver, dev)]).
Fixpoint bind_drivers (drivers : list Z) (dev : Z) (t : tree) : tree :=
  match drivers with [] => t | d :: l => bind_drivers l dev (bindDriver d dev t) end.
Fixpoint bind_devices (driver : Z) (devs : list Z) (t : tree) : tree :=
  match devs with [] => t | d :: l => bind_devices driver l (bindDriver driver d t) end.

(** [Bus::registerDevice] and [Bus::registerDriver] of the bus [i]. *)
Definition registerDevice (i : nat) (b : Bus) (dev : Z) (t : tree) : tree :=
  bind_drivers (b_drivers b) dev (with_buses (<[i := mk_bus (b_name b) (b_devices b ++ [dev]) (b_drivers b)]> (buses t)) t).
Definition registerDriver (i : nat) (b : Bus) (driver : Z) (t : tree) : tree :=
  bind_devices driver (b_devices b) (with_buses (<[i := mk_bus (b_name b) (b_devices b) (b_drivers b ++ [driver])]> (buses t)) t).

(** The first bus of a name. *)
Fixpoint find_bus (name : list Z) (i : nat) (l : list Bus) : outcome (option (nat * Bus)) :=
  match l with
  | [] => Done None
  | b :: l => r ← strcmp (b_name b) name; if negb (r =? 0) then find_bus name (S i) l else Done (Some (i, b))
  end.
Definition register_device (bus_name : list Z) (dev : Z) (t : tree) : outcome (bool * tree) :=
  r ← find_bus bus_name 0 (buses t); Done (match r with Some (i, b) => (true, registerDevice i b dev t) | None => (false, t) end).
Definition register_driver (bus_name : list Z) (driver : Z) (t : tree) : outcome (bool * tree) :=
  r ← find_bus bus_name 0 (buses t); Done (match r with Some (i, b) => (true, registerDriver i b driver t) | None => (false, t) end).
Definition get_bus (bus_name : list Z) (t : tree) : outcome (option Bus) :=
  r ← find_bus bus_name 0 (buses t); Done (match r with Some (i, _) => buses t !! i | None => None end).
Definition bus_exists (bus_name : list Z) (t : tree) : outcome bool :=
  r ← find_bus bus_name 0 (buses t); Done (bool_decide (is_Some r)).

(** ** Who is bound *)

(** The drivers of a bus with the devices they accept. *)
Definition matches (drivers devs : list Z) : list (Z * Z) := drivers ≫= λ d, (λ x, (d, x)) <$> filter (check d) devs.
Definition pairs (b : Bus) : list (Z * Z) := matches (b_drivers b) (b_devices b).

Lemma bind_drivers_spec l dev t : bind_drivers l dev t = mk_tree (devices t) (root_device t) (buses t) (bound t ++ matches l [dev]).
Proof.
  revert t. induction l as [|d l IH]; intros t; cbn [bind_drivers]; [destruct t; cbn; by rewrite app_nil_r|]. rewrite IH. unfold matches, bindDriver. cbn [mbind list_bind]. rewrite filter_cons.
  destruct (check d dev); cbn; by rewrite <-?app_assoc.
Qed.
Lemma bind_devices_spec d l t : bind_devices d l t = mk_tree (devices t) (root_device t) (buses t) (bound t ++ matches [d] l).
Proof.
  revert t. induction l as [|x l IH]; intros t; cbn [bind_devices]; [destruct t; cbn; by rewrite app_nil_r|]. rewrite IH. unfold matches, bindDriver. cbn [mbind list_bind]. rewrite filter_cons.
  destruct (check d x); cbn; by rewrite <-?app_assoc.
Qed.

Lemma matches_device ds xs x : matches ds (xs ++ [x]) ≡ₚ matches ds xs ++ matches ds [x].
Proof.
  unfold matches. induction ds as [|d ds IH]; [done|]. cbn [mbind list_bind]. rewrite IH, filter_app, fmap_app, <-!app_assoc. f_equiv. rewrite !app_assoc. f_equiv. apply Permutation_app_comm.
Qed.
Lemma matches_driver ds d xs : matches (ds ++ [d]) xs = matches ds xs ++ matches [d] xs.
Proof. unfold matches. by rewrite bind_app. Qed.

Lemma flat_insert {A B} (f : A → list B) l i a a' new :
  l !! i = Some a → f a' ≡ₚ f a ++ new → (<[i := a']> l ≫= f) ≡ₚ (l ≫= f) ++ new.
Proof.
  intros Hi Hf. revert i Hi. induction l as [|x l IH]; intros [|i] Hi; [done..|injection Hi as ->|]; cbn [insert list_insert mbind list_bind].
  - change (mbind f l) with (l ≫= f). rewrite Hf, <-!app_assoc. f_equiv. apply Permutation_app_comm.
  - rewrite (IH i Hi). by rewrite app_assoc.
Qed.

Definition bound_ok (t : tree) : Prop := bound t ≡ₚ (buses t ≫= pairs).

Lemma registerDevice_ok i b dev t : buses t !! i = Some b → bound_ok t → bound_ok (registerDevice i b dev t).
Proof.
  unfold bound_ok, registerDevice. intros Hi Hok. rewrite bind_drivers_spec. cbn [bound buses with_buses]. rewrite Hok. symmetry. apply (flat_insert pairs _ _ b); [done|].
  unfold pairs. cbn [b_drivers b_devices]. apply matches_device.
Qed.
Lemma registerDriver_ok i b d t : buses t !! i = Some b → bound_ok t → bound_ok (registerDriver i b d t).
Proof.
  unfold bound_ok, registerDriver. intros Hi Hok. rewrite bind_devices_spec. cbn [bound buses with_buses]. rewrite Hok. symmetry. apply (flat_insert pairs _ _ b); [done|].
  unfold pairs. cbn [b_drivers b_devices]. by rewrite matches_driver.
Qed.

Lemma find_bus_lookup name n l i b : find_bus name n l = Done (Some (i, b)) → (n ≤ i)%nat ∧ l !! (i - n)%nat = Some b.
Proof.
  revert n. induction l as [|x l IH]; intros n; cbn [find_bus]; [done|]. intros He. apply bind_Done in He as (r & _ & He). destruct (r =? 0); cbn [negb] in He.
  - injection He as <- <-. rewrite Nat.sub_diag. done.
  - apply IH in He as [H1 H2]. split; [lia|]. by replace (i - n)%nat with (S (i - S n)) by lia.
Qed.

(** Any order of registrations. *)
Inductive op := NewBus (name : list Z) | RegisterDevice (bus : list Z) (dev : Z) | RegisterDriver (bus : list Z) (driver : Z).
Definition run (o : op) (t : tree) : outcome tree :=
  match o with
  | NewBus name => new_bus name t
  | RegisterDevice bus dev => '(_, t) ← register_device bus dev t; Done t
  | RegisterDriver bus driver => '(_, t) ← register_driver bus driver t; Done t
  end.
Fixpoint runs (l : list op) (t : tree) : outcome tree := match l with [] => Done t | o :: l => t ← run o t; runs l t end.

Lemma run_bound o t t' : bound_ok t → run o t = Done t' → bound_ok t'.
Proof.
  intros Hok. destruct o as [name|bus dev|bus d]; cbn [run].
  - intros He. apply bind_Done in He as (buf & _ & [= <-]). unfold bound_ok in *. cbn [bound buses with_buses]. rewrite bind_app. cbn. by rewrite app_nil_r.
  - intros He. apply bind_Done in He as ([ok t1] & He & [= <-]). apply bind_Done in He as (r & Hr & He). destruct r as [[i b]|]; [|by injection He as _ <-].
    injection He as _ <-. apply find_bus_lookup in Hr as [_ Hr]. rewrite Nat.sub_0_r in Hr. by apply registerDevice_ok.
  - intros He. apply bind_Done in He as ([ok t1] & He & [= <-]). apply bind_Done in He as (r & Hr & He). destruct r as [[i b]|]; [|by injection He as _ <-].
    injection He as _ <-. apply find_bus_lookup in Hr as [_ Hr]. rewrite Nat.sub_0_r in Hr. by apply registerDriver_ok.
Qed.

(** *** What the registrations stand for *)

(** A list of buses with their names as texts; a device or a driver goes to the first bus
    of the name it gives, and nowhere when there is none. *)
Record entry := mk_entry { e_name : list Z; e_devices : list Z; e_drivers : list Z }.
Fixpoint c_text (buffer : list Z) : list Z := match buffer with [] => [] | c :: l => if decide (c = 0) then [] else c :: c_text l end.
Fixpoint on_bus (n : list Z) (f : entry → entry) (l : list entry) : list entry :=
  match l with [] => [] | e :: l => if decide (e_name e = n) then f e :: l else e :: on_bus n f l end.
Definition register (o : op) (l : list entry) : list entry :=
  match o with
  | NewBus n => l ++ [mk_entry (c_text n) [] []]
  | RegisterDevice n d => on_bus (c_text n) (λ e, mk_entry (e_name e) (e_devices e ++ [d]) (e_drivers e)) l
  | RegisterDriver n d => on_bus (c_text n) (λ e, mk_entry (e_name e) (e_devices e) (e_drivers e ++ [d])) l
  end.
Definition register_all (ops : list op) (l : list entry) : list entry := fold_left (λ l o, register o l) ops l.
(** The pairs of a driver and a device of the same bus that the driver accepts. *)
Definition accepted (l : list entry) : list (Z * Z) := l ≫= λ e, matches (e_drivers e) (e_devices e).

Definition describes (b : Bus) (e : entry) : Prop := named (e_name e) (b_name b) ∧ b_devices b = e_devices e ∧ b_drivers b = e_drivers e.
Definition registered (t : tree) (l : list entry) : Prop := Forall2 describes (buses t) l.

(** Names that fit the field of a bus. *)
Definition op_name (o : op) : list Z := match o with NewBus n | RegisterDevice n _ | RegisterDriver n _ => n end.
Definition op_ok (o : op) : Prop := ∃ n, named n (op_name o) ∧ Z.of_nat (length n) < 32.

Lemma c_text_named n p : named n p → c_text p = n.
Proof.
  intros [Hn [r ->]]. unfold cstr. rewrite <-app_assoc. cbn [app]. induction Hn as [|c n Hc _ IH]; cbn [app c_text]; [done|].
  case_decide; [cbn in Hc; lia|]. by rewrite IH.
Qed.

(** The search is that of [on_bus]. *)
Lemma find_bus_first name n i bs l : named n name → Forall2 describes bs l →
  (∃ j b e, find_bus name i bs = Done (Some ((i + j)%nat, b)) ∧ bs !! j = Some b ∧ describes b e ∧ ∀ f, on_bus n f l = <[j := f e]> l) ∨
  (find_bus name i bs = Done None ∧ ∀ f, on_bus n f l = l).
Proof.
  intros Hn Hl. revert i. induction Hl as [|b e bs l Hb _ IH]; intros i; cbn [find_bus on_bus]; [by right|]. pose proof Hb as (Hm & _).
  destruct (strcmp_named (e_name e) n _ _ Hm Hn) as (z & -> & Hz). rewrite bind_ret. destruct (Z.eqb_spec z 0) as [->|Hz0]; cbn [negb].
  - left. exists 0%nat, b, e. rewrite Nat.add_0_r. split_and!; [done..|]. intros f. by rewrite decide_True by (by apply Hz).
  - assert (Hne : e_name e ≠ n) by tauto. destruct (IH (S i)) as [(j & b' & e' & He & Hj & Hd & Hf)|[He Hf]].
    + left. exists (S j), b', e'. replace (i + S j)%nat with (S i + j)%nat by lia. split_and!; [done..|]. intros f. by rewrite decide_False, Hf.
    + right. split; [done|]. intros f. by rewrite decide_False, Hf.
Qed.

Lemma run_refines o t l : op_ok o → registered t l → ∃ t', run o t = Done t' ∧ registered t' (register o l).
Proof.
  intros (n & Hn & Hlen) Ht. destruct o as [name|bus dev|bus d]; cbn [run op_name register] in *; rewrite (c_text_named n) by done.
  - destruct Hn as [Hn [r ->]]. unfold new_bus, cstr. rewrite <-app_assoc. cbn [app]. rewrite strncpy_text, bind_ret by (rewrite ?length_replicate; (done || lia)).
    eexists. split; [reflexivity|]. apply Forall2_app; [exact Ht|]. constructor; [|constructor]. split; [|done]. split; [done|]. eexists. cbn [b_name e_name]. unfold cstr. by rewrite <-app_assoc.
  - unfold register_device. destruct (find_bus_first bus n 0 (buses t) l Hn Ht) as [(j & b & e & -> & Hj & (H1 & H2 & H3) & ->)|[-> ->]]; [|by exists t].
    rewrite bind_ret. eexists. split; [reflexivity|]. unfold registered, registerDevice. rewrite bind_drivers_spec. apply Forall2_insert; [exact Ht|]. split_and!; cbn; [done|by rewrite H2|done].
  - unfold register_driver. destruct (find_bus_first bus n 0 (buses t) l Hn Ht) as [(j & b & e & -> & Hj & (H1 & H2 & H3) & ->)|[-> ->]]; [|by exists t].
    rewrite bind_ret. eexists. split; [reflexivity|]. unfold registered, registerDriver. rewrite bind_devices_spec. apply Forall2_insert; [exact Ht|]. split_and!; cbn; [done|done|by rewrite H3].
Qed.

Lemma registered_pairs t l : registered t l → (buses t ≫= pairs) = accepted l.
Proof. unfold accepted. intros Hl. induction Hl as [|b e bs l (_ & H1 & H2) _ IH]; [done|]. cbn [mbind list_bind]. rewrite <-IH. unfold pairs at 1. by rewrite H1, H2. Qed.

(** C19 (refinement): in whatever order buses, drivers and devices are registered, every
    call returns; each device and each driver is on the first bus of the name it gave, in
    the order of the registrations, and on no other; and the calls of [bind] are the pairs
    of a driver and a device of one bus that the driver accepts, each as often as the two
    were registered: a driver sees the devices that came before it as well as those that
    come after it. *)
Theorem drivers_bound ops t l :
  registered t l → bound t ≡ₚ accepted l → Forall op_ok ops →
  ∃ t', runs ops t = Done t' ∧ registered t' (register_all ops l) ∧ bound t' ≡ₚ accepted (register_all ops l).
Proof.
  intros Hr Hb Hops. assert (Hok : bound_ok t) by (unfold bound_ok; by rewrite Hb, (registered_pairs t l)). clear Hb. revert t l Hr Hok.
  induction Hops as [|o ops Ho _ IH]; intros t l Hr Hok; cbn [runs register_all fold_left]; [exists t; split_and!; [done..|]; by rewrite <-(registered_pairs t l)|].
  destruct (run_refines o t l Ho Hr) as (t1 & E & Hr1). rewrite E, bind_ret. apply IH; [done|by eapply run_bound].
Qed.

End Binding.

(** Two buses; a driver that comes between two devices. *)
Definition demo_check (driver dev : Z) : bool := dev >? 10.
Definition demo_ops : list op :=
  [NewBus (cstr (lit "isa")); NewBus (cstr (lit "pci")); RegisterDevice (cstr (lit "pci")) 11; RegisterDevice (cstr (lit "pci")) 5;
   RegisterDevice (cstr (lit "isa")) 13; RegisterDriver (cstr (lit "pci")) 1; RegisterDevice (cstr (lit "pci")) 12].
Definition no_tree : tree := mk_tree ∅ None [] [].

Lemma drivers_bound_witness : ∃ t, runs demo_check demo_ops no_tree = Done t ∧ bound t ≡ₚ [(1, 11); (1, 12)].
Proof.
  destruct (drivers_bound demo_check demo_ops no_tree []) as (t & E & _ & Hb).
  - constructor.
  - reflexivity.
  - repeat (constructor; [first [exists (lit "pci"); split; [split; [apply lit_text; reflexivity|exists []; reflexivity]|cbn; lia]
      |exists (lit "isa"); split; [split; [apply lit_text; reflexivity|exists []; reflexivity]|cbn; lia]]|]). constructor.
  - exists t. split; [exact E|]. rewrite Hb. vm_compute. reflexivity.
Defined.

(** *** Parents and children *)

(** A child is listed by its parent. *)
Definition family (t : tree) : Prop :=
  ∀ d x, devices t !! d = Some x → ∀ p, parent x = Some p → ∃ y, devices t !! p = Some y ∧ d ∈ children y.

Lemma add_child_family d p t t' x :
  devices t !! d = Some x → parent x = Some p → (∀ e y, e ≠ d → devices t !! e = Some y → ∀ q, parent y = Some q → ∃ z, devices t !! q = Some z ∧ e ∈ children z) →
  add_child p d t = Done t' → family t'.
Proof.
  intros Hd Hp Hrest He. unfold add_child in He. apply bind_Done in He as (y & Hy & [= <-]). unfold device in Hy. destruct (devices t !! p) as [y'|] eqn:Ey; [|done]. injection Hy as ->.
  assert (Hup : ∀ q z e, devices t !! q = Some z → e ∈ children z → ∃ z', <[p := mk_device (d_name y) (parent y) (children y ++ [d]) (m_resources y)]> (devices t) !! q = Some z' ∧ e ∈ children z').
  { intros q z e Hq Hin. destruct (decide (p = q)) as [<-|Hne]; [rewrite lookup_insert_eq; eexists; split; [done|]; cbn; assert (z = y) as -> by congruence; set_solver|].
    rewrite lookup_insert_ne by done. by exists z. }
  intros e z Hz q Hq. cbn [devices with_devices] in *. apply lookup_insert_Some in Hz as [[<- <-]|[Hne Hz]].
  - cbn [parent] in Hq. destruct (decide (p = d)) as [->|Hpd].
    + assert (y = x) as -> by congruence. rewrite Hp in Hq. injection Hq as <-. rewrite lookup_insert_eq. eexists. split; [done|]. cbn. set_solver.
    + destruct (Hrest p y Hpd Ey q Hq) as (w & Hw & Hin). by eapply Hup.
  - destruct (decide (e = d)) as [->|Hed].
    + assert (z = x) as -> by congruence. assert (q = p) as -> by congruence. rewrite lookup_insert_eq. eexists. split; [done|]. cbn. set_solver.
    + destruct (Hrest e z Hed Hz q Hq) as (w & Hw & Hin). by eapply Hup.
Qed.

(** New devices keep the tree: with a root, every later device has a parent. *)
Lemma new_device_family d name par t t' : devices t !! d = None → family t → new_device d name par t = Done t' → family t'.
Proof.
  intros Hd Hf He. unfold new_device in He. apply bind_Done in He as (buf & _ & He). set (q := match par with None => root_device t | Some p => Some p end) in He.
  assert (Hrest : ∀ e y, e ≠ d → <[d := mk_device buf q [] []]> (devices t) !! e = Some y → ∀ p, parent y = Some p → ∃ z, <[d := mk_device buf q [] []]> (devices t) !! p = Some z ∧ e ∈ children z).
  { intros e y Hne Hy p Hp. rewrite lookup_insert_ne in Hy by done. destruct (Hf e y Hy p Hp) as (z & Hz & Hin). exists z. split; [|done]. rewrite lookup_insert_ne by congruence. done. }
  destruct q as [p|] eqn:Eq.
  - eapply add_child_family; [| | |exact He]; [cbn; apply lookup_insert_eq|done|exact Hrest].
  - injection He as <-. intros e y Hy p Hp. cbn [devices with_devices] in *. destruct (decide (e = d)) as [->|Hne]; [rewrite lookup_insert_eq in Hy; by injection Hy as <-|by eapply Hrest].
Qed.

End Tree.
