(* ===== verification/Pci.v ===== *)
(** * PCI

    [arch/x86_64/sys/pci.cpp]: the configuration space behind the ports 0xCF8 and 0xCFC,
    the base address registers and the scan that puts the functions into the device
    tree; [sys/pci/resolv.cpp]: the names of the classes.  The hardware is a parameter:
    what a register holds and what a write does to it. *)
From S2P Require Import Prelude Errno Math Str Path Elf Modules Smart Devices.
Local Open Scope Z_scope.

Module Pci.
Import Str Tree.

Definition CONFIG_ADDRESS : Z := 0xCF8.
Definition CONFIG_DATA : Z := 0xCFC.

(** The fields of [PCIDevice]. *)
Record PCIDevice := mk_pci_device {
  p_class : Z; subclass : Z; prog_if : Z; device_id : Z; vendor_id : Z; p_bus : Z; p_device : Z; p_function : Z; interrupt_pin : Z }.

Section Pci.
(** The configuration registers, by the value in [CONFIG_ADDRESS]. *)
Context {H : Type} (cfg_read : Z → H → Z) (cfg_write : Z → Z → H → H).

(** The address latch, the hardware, the tree, the objects and the next address of one. *)
Record pci := mk_pci { latch : Z; hw : H; tr : tree; infos : gmap Z PCIDevice; next_object : Z }.
Local Abbreviation M := (stateM pci).

Definition outd (port v : Z) : M unit := λ s,
  if port =? CONFIG_ADDRESS then Done (tt, mk_pci v (hw s) (tr s) (infos s) (next_object s))
  else if port =? CONFIG_DATA then Done (tt, mk_pci (latch s) (cfg_write (latch s) v (hw s)) (tr s) (infos s) (next_object s))
  else Fault.
Definition ind (port : Z) : M Z := λ s, if port =? CONFIG_DATA then Done (u32 (cfg_read (latch s) (hw s)), s) else Fault.

(** [(bus << 16) | (device << 11) | (function << 8) | (offset & 0xFC) | (1 << 31)]. *)
Definition config_address (bus device function offset : Z) : Z :=
  u32 (Z.lor (Z.lor (Z.lor (Z.lor (Z.shiftl (u8 bus) 16) (Z.shiftl (u8 device) 11)) (Z.shiftl (u8 function) 8)) (Z.land (u8 offset) 0xFC)) (2 ^ 31)).

Definition read_dword (bus device function offset : Z) : M Z :=
  outd CONFIG_ADDRESS (config_address bus device function offset);; ind CONFIG_DATA.
Definition read_word (bus device function offset : Z) : M Z :=
  outd CONFIG_ADDRESS (config_address bus device function offset);; d ← ind CONFIG_DATA;
  mret (u16 (Z.land (Z.shiftr d (Z.land (u8 offset) 2 * 8)) 0xFFFF)).
Definition read_byte (bus device function offset : Z) : M Z :=
  outd CONFIG_ADDRESS (config_address bus device function offset);; d ← ind CONFIG_DATA;
  mret (u8 (Z.land (Z.shiftr d (Z.land (u8 offset) 3 * 8)) 0xFF)).

(** [data &= ~(mask << shift); data |= val << shift]. *)
Definition replace_bits (data mask v shift : Z) : Z := u32 (Z.lor (Z.land data (Z.lnot (Z.shiftl mask shift))) (Z.shiftl v shift)).
Definition write_byte (bus device function offset v : Z) : M unit :=
  outd CONFIG_ADDRESS (config_address bus device function offset);; d ← ind CONFIG_DATA;
  outd CONFIG_DATA (replace_bits d 0xFF (u8 v) (Z.land (u8 offset) 3 * 8)).
Definition write_word (bus device function offset v : Z) : M unit :=
  outd CONFIG_ADDRESS (config_address bus device function offset);; d ← ind CONFIG_DATA;
  outd CONFIG_DATA (replace_bits d 0xFFFF (u16 v) (Z.land (u8 offset) 2 * 8)).
Definition write_dword (bus device function offset v : Z) : M unit :=
  outd CONFIG_ADDRESS (config_address bus device function offset);; outd CONFIG_DATA (u32 v).

Definition get_vendor_id (bus device function : Z) : M Z := read_word bus device function 0x00.
Definition get_device_id (bus device function : Z) : M Z := read_word bus device function 0x02.
Definition get_class (bus device function : Z) : M Z := read_byte bus device function 0x0B.
Definition get_subclass (bus device function : Z) : M Z := read_byte bus device function 0x0A.
Definition get_prog_if (bus device function : Z) : M Z := read_byte bus device function 0x09.
Definition get_interrupt_pin (bus device function : Z) : M Z := read_byte bus device function 0x3C.
Definition set_interrupt_pin (bus device function pin : Z) : M unit := write_byte bus device function 0x3C pin.

Definition set_busmaster (bus device function : Z) (on : bool) : M unit :=
  d ← read_dword bus device function 0x04;
  write_dword bus device function 0x04 (if on then Z.lor d (Z.shiftl 1 2) else Z.land d (Z.lnot (Z.shiftl 1 2))).

(** *** Base address registers *)

Definition on_tree (f : tree → outcome tree) : M unit := λ s, t ← f (tr s); Done (tt, mk_pci (latch s) (hw s) t (infos s) (next_object s)).

(** One turn, with the offset of the next register as its result. *)
Definition bar_turn (bus device function dev offset : Z) : M Z :=
  bar0 ← read_dword bus device function offset;
  bar1 ← read_dword bus device function (offset + 4);
  let type := Z.land (Z.shiftr bar0 1) 0x03 in
  let io := Z.land bar0 0x01 >? 0 in
  if bar0 =? 0 then mret (offset + 4)
  else
    let mask := if io then 0xFFFFFFFC else 0xFFFFFFF0 in
    let addr := Z.land bar0 mask in
    let addr := if type =? 2 then Z.lor addr (u64 (Z.shiftl bar1 32)) else addr in
    write_dword bus device function offset 0xFFFFFFFF;;
    d ← read_dword bus device function offset;
    let len := u32 (u32 (Z.lnot (Z.land d mask)) + 1) in
    let len := if type =? 1 then Z.land len 0xFFFF else len in
    let len := if Z.land len 0xFFFF0000 >? 0 then Z.land len 0xFFFF else len in
    on_tree (add (mk_resource (if io then IO else MEMORY) addr (u64 (addr + len))) dev);;
    write_dword bus device function offset bar0;;
    mret (if type =? 2 then offset + 4 + 4 else offset + 4).
Fixpoint bars_from (n : nat) (bus device function dev offset : Z) : M unit :=
  match n with O => mret tt | S n => offset ← bar_turn bus device function dev offset; bars_from n bus device function dev (u32 offset) end.
Definition fill_bars (bus device function dev : Z) : M unit := bars_from 6 bus device function dev 16.

(** *** The scan *)

Section Scan.
(** [Driver::check]. *)
Context (check : Z → Z → bool).

Definition set_info (dev : Z) (x : PCIDevice) : M unit := λ s, Done (tt, mk_pci (latch s) (hw s) (tr s) (<[dev := x]> (infos s)) (next_object s)).
Definition new_object : M Z := λ s, Done (next_object s, mk_pci (latch s) (hw s) (tr s) (infos s) (next_object s + 1)).
(** [dev_bus->registerDevice] of the bus at index [i]. *)
Definition register (i : nat) (dev : Z) : M unit := on_tree (λ t, match buses t !! i with Some b => Done (registerDevice check i b dev t) | None => Fault end).

(** The turn for a function; the result is the pin for the next one. *)
Definition scan_function (pci_root : Z) (dev_bus : nat) (bus device function int_pin : Z) : M Z :=
  vendor ← get_vendor_id bus device function;
  if vendor =? 0xFFFF then mret int_pin
  else
    name ← lift (snprintf (replicate 32 0) 32 (cstr (lit "%02x.%02x.%02x")) [Num bus; Num device; Num function]);
    cl ← get_class bus device function;
    sub ← get_subclass bus device function;
    prog ← get_prog_if bus device function;
    dev ← new_object;
    on_tree (new_device dev name (Some pci_root));;
    did ← get_device_id bus device function;
    vid ← get_vendor_id bus device function;
    fill_bars bus device function dev;;
    pin ← get_interrupt_pin bus device function;
    let used := negb (pin =? 0) in
    when used (set_interrupt_pin bus device function int_pin);;
    set_info dev (mk_pci_device cl sub prog did vid (u8 bus) device function (if used then int_pin else 0));;
    register dev_bus dev;;
    mret (if used then if int_pin + 1 >? 4 then 1 else int_pin + 1 else int_pin).
Fixpoint scan_functions (n : nat) (pci_root : Z) (dev_bus : nat) (bus device function int_pin : Z) : M unit :=
  match n with
  | O => mret tt
  | S n => pin ← scan_function pci_root dev_bus bus device function int_pin; scan_functions n pci_root dev_bus bus device (function + 1) pin
  end.
Definition scan_device (pci_root : Z) (dev_bus : nat) (bus device : Z) : M unit :=
  vendor ← get_vendor_id bus device 0;
  if vendor =? 0xFFFF then mret tt else scan_functions 8 pci_root dev_bus bus device 0 1.
Definition scan_all_buses (pci_root : Z) (dev_bus : nat) : M unit :=
  sfor 256 0 (λ bus, sfor 32 0 (λ device, scan_device pci_root dev_bus bus device)).

End Scan.

(** ** Base addresses found *)

(** A base address register as the PCI standard has it: the bits below the size read as
    the flags, so writing ones shows the size. *)
Record bar := mk_bar { b_io : bool; b_size : Z; b_base : Z; b_flags : Z }.
Definition bar_value (b : bar) : Z := b_base b + b_flags b.
Definition probed (b : bar) : Z := 2 ^ 32 - b_size b + b_flags b.
Definition bar_ok (b : bar) : Prop :=
  0 < b_base b ∧ b_base b + b_size b < 2 ^ 32 ∧
  if b_io b then b_flags b = 1 ∧ b_base b mod 8 = 0 ∧ 0 < b_size b ≤ 256 ∧ b_size b mod 4 = 0
  else (b_flags b = 0 ∨ b_flags b = 8) ∧ b_base b mod 16 = 0 ∧ 0 < b_size b < 2 ^ 16 ∧ b_size b mod 16 = 0.
Definition bar_resource (b : bar) : resource := mk_resource (if b_io b then IO else MEMORY) (b_base b) (b_base b + b_size b).

Context (bus device function : Z).
Definition bar_address (i : Z) : Z := config_address bus device function (16 + 4 * i).
(** The registers of the function: a register that is absent reads as 0, one that is
    present shows its size and can be restored. *)
Definition has_bar (i : Z) (o : option bar) (h : H) : Prop :=
  match o with
  | None => cfg_read (bar_address i) h = 0
  | Some b =>
      cfg_read (bar_address i) h = bar_value b ∧ cfg_read (bar_address i) (cfg_write (bar_address i) 0xFFFFFFFF h) = probed b ∧
      cfg_write (bar_address i) (bar_value b) (cfg_write (bar_address i) 0xFFFFFFFF h) = h
  end.

Lemma land_high x k : 0 ≤ x < 2 ^ 32 → k = 2 ∨ k = 4 ∨ k = 16 → Z.land x (2 ^ 32 - 2 ^ k) = x - x mod 2 ^ k.
Proof.
  intros Hx Hk. assert (2 ^ 32 - 2 ^ k = Z.ldiff (Z.ones 32) (Z.ones k)) as -> by (destruct Hk as [->|[->| ->]]; reflexivity).
  assert (Hl : Z.land x (Z.ldiff (Z.ones 32) (Z.ones k)) = Z.ldiff x (Z.ones k)).
  { rewrite Z.ldiff_land, Z.land_assoc, Z.land_ones, (Z.mod_small x) by lia. by rewrite <-Z.ldiff_land. }
  assert (Hpos : 0 ≤ k ∧ 2 ^ k ≠ 0) by (destruct Hk as [->|[->| ->]]; lia). destruct Hpos as [Hk0 Hpk].
  rewrite Hl, Z.ldiff_ones_r, Z.shiftl_mul_pow2, Z.shiftr_div_pow2 by done. pose proof (Z.div_mod x (2 ^ k) Hpk).
  set (q := x / 2 ^ k) in *. nia.
Qed.

Lemma land_low x k m : m = Z.ones k → 0 ≤ k → Z.land x m = x mod 2 ^ k.
Proof. intros -> Hk. by apply Z.land_ones. Qed.

Lemma probe_size x n : 0 < n < 2 ^ 32 → x = 2 ^ 32 - n → u32 (u32 (Z.lnot x) + 1) = n.
Proof.
  intros Hn ->. unfold Z.lnot. replace (Z.pred (- (2 ^ 32 - n))) with (n - 1 + (-1) * 2 ^ 32) by lia. unfold wrap. rewrite Z_mod_plus_full, (Z.mod_small (n - 1)), Z.mod_small by lia. lia.
Qed.

Ltac pows := change (2 ^ 1) with 2 in *; change (2 ^ 2) with 4 in *; change (2 ^ 4) with 16 in *; change (2 ^ 16) with 65536 in *; change (2 ^ 32) with 4294967296 in *.

(** Linear arithmetic with quotients and remainders. *)
Ltac elia := Z.to_euclidean_division_equations; lia.

(** What the masks make of the two values of a register. *)
Lemma bar_decoded b : bar_ok b → let v := bar_value b in let mask := if b_io b then 0xFFFFFFFC else 0xFFFFFFF0 in
  0 < v < 2 ^ 32 ∧ 0 < probed b < 2 ^ 32 ∧ Z.land (Z.shiftr v 1) 0x03 = 0 ∧ (Z.land v 0x01 >? 0) = b_io b ∧ Z.land v mask = b_base b ∧
  u32 (u32 (Z.lnot (Z.land (probed b) mask)) + 1) = b_size b ∧ (Z.land (b_size b) 0xFFFF0000 >? 0) = false.
Proof.
  unfold bar_ok, bar_value, probed. cbv zeta. destruct (b_io b); intros (Hb & Hs & Hf & Ha & Hz & Hm);
    change 0xFFFF0000 with (2 ^ 32 - 2 ^ 16); rewrite (land_low _ 2 0x03), (land_low _ 1 0x01), Z.shiftr_div_pow2, (land_high (b_size b) 16) by (done || lia).
  - assert (4 ≤ b_size b) by elia. change 0xFFFFFFFC with (2 ^ 32 - 2 ^ 2). rewrite Hf, (land_high (b_base b + 1)), (land_high (2 ^ 32 - b_size b + 1)) by elia. pows. rewrite (probe_size _ (b_size b)) by elia. split_and!; elia.
  - assert (16 ≤ b_size b) by elia. change 0xFFFFFFF0 with (2 ^ 32 - 2 ^ 4). rewrite (land_high (b_base b + b_flags b)), (land_high (2 ^ 32 - b_size b + b_flags b)) by elia. pows. rewrite (probe_size _ (b_size b)) by elia. split_and!; elia.
Qed.

(** The ports, one access at a time. *)
Definition latched (a : Z) (s : pci) : pci := mk_pci a (hw s) (tr s) (infos s) (next_object s).
Lemma read_dword_eq offset s : let a := config_address bus device function offset in
  read_dword bus device function offset s = Done (u32 (cfg_read a (hw s)), latched a s).
Proof. reflexivity. Qed.
Lemma write_dword_eq offset v s : let a := config_address bus device function offset in
  write_dword bus device function offset v s = Done (tt, mk_pci a (cfg_write a (u32 v) (hw s)) (tr s) (infos s) (next_object s)).
Proof. reflexivity. Qed.

(** The tree with resources added to a device. *)
Definition with_resources (dev : Z) (x : Device) (l : list resource) (t : tree) : tree :=
  with_devices (<[dev := mk_device (d_name x) (parent x) (children x) (m_resources x ++ l)]> (devices t)) t.
Definition found (o : option bar) : list resource := match o with Some b => [bar_resource b] | None => [] end.

Lemma bar_turn_ok dev i o x s :
  0 ≤ i → has_bar i o (hw s) → (∀ b, o = Some b → bar_ok b) → devices (tr s) !! dev = Some x →
  ∃ a, bar_turn bus device function dev (16 + 4 * i) s =
    Done (16 + 4 * (i + 1), mk_pci a (hw s) (with_resources dev x (found o) (tr s)) (infos s) (next_object s)).
Proof.
  intros Hi Hbar Hok Hx. unfold bar_turn. rewrite run_bind, read_dword_eq. cbn [fst snd latched hw]. rewrite run_bind, read_dword_eq. cbn [fst snd latched hw]. fold (bar_address i). destruct o as [b|].
  - destruct Hbar as (H1 & H2 & H3). destruct (bar_decoded b (Hok b eq_refl)) as (Hv & Hp & Ht & Hio & Hm & Hl & Hz). rewrite H1, (wrap_small 32 (bar_value b)), Ht, Hio by lia. cbn [Z.eqb].
    rewrite (proj2 (Z.eqb_neq (bar_value b) 0)), Hm by lia. rewrite run_bind, write_dword_eq. cbn [fst snd latched hw]. fold (bar_address i). change (u32 0xFFFFFFFF) with 0xFFFFFFFF.
    rewrite run_bind, read_dword_eq. cbn [fst snd latched hw tr infos next_object]. fold (bar_address i). rewrite H2, (wrap_small 32 (probed b)), Hl, Hz by lia.
    rewrite run_bind. unfold on_tree, add, Tree.device. cbn [tr latched]. rewrite Hx. cbn [mbind outcome_bind fst snd latched hw infos next_object latch].
    rewrite run_bind, write_dword_eq. cbn [fst snd hw tr infos next_object]. fold (bar_address i). rewrite (wrap_small 32 (bar_value b)), H3 by lia. destruct (Hok b eq_refl) as (Hb & Hs & _).
    assert (0 < b_size b) by (destruct (Hok b eq_refl) as (_ & _ & Hk); destruct (b_io b); lia).
    rewrite (wrap_small 64) by lia. eexists. unfold with_resources, found, bar_resource, mret, stateM_ret. by replace (16 + 4 * i + 4) with (16 + 4 * (i + 1)) by lia.
  - rewrite Hbar. cbn [Z.eqb wrap]. change (u32 0 =? 0) with true. cbn iota. unfold with_resources, found. rewrite app_nil_r. eexists. unfold mret, stateM_ret, latched. cbn [hw tr infos next_object]. replace (16 + 4 * i + 4) with (16 + 4 * (i + 1)) by lia.
    destruct x as [n p c r]. cbn [d_name parent children m_resources]. rewrite insert_id by done. by destruct (tr s).
Qed.

Lemma with_resources_twice dev x l l' t : with_resources dev (mk_device (d_name x) (parent x) (children x) (m_resources x ++ l)) l' (with_resources dev x l t) = with_resources dev x (l ++ l') t.
Proof. unfold with_resources, with_devices. cbn. by rewrite insert_insert_eq, app_assoc. Qed.

Lemma bars_from_ok dev l i x s :
  0 ≤ i → i + Z.of_nat (length l) ≤ 6 → (∀ k o, l !! k = Some o → has_bar (i + Z.of_nat k) o (hw s) ∧ ∀ b, o = Some b → bar_ok b) → devices (tr s) !! dev = Some x →
  ∃ a, bars_from (length l) bus device function dev (16 + 4 * i) s =
    Done (tt, mk_pci a (hw s) (with_resources dev x (l ≫= found) (tr s)) (infos s) (next_object s)).
Proof.
  revert i x s. induction l as [|o l IH]; intros i x s Hi Hl Hb Hx; cbn [bars_from length].
  { exists (latch s). unfold with_resources. cbn [mbind list_bind]. rewrite app_nil_r. destruct x as [n p c r]. cbn [d_name parent children m_resources]. rewrite insert_id by done. by destruct s as [? ? [] ? ?]. }
  cbn [length] in Hl. destruct (Hb 0%nat o eq_refl) as [Hbar Hok]. rewrite Z.add_0_r in Hbar. destruct (bar_turn_ok dev i o x s Hi Hbar Hok Hx) as (a & Ha). rewrite run_bind, Ha. cbn [fst snd].
  rewrite wrap_small by lia.
  destruct (IH (i + 1) (mk_device (d_name x) (parent x) (children x) (m_resources x ++ found o)) (mk_pci a (hw s) (with_resources dev x (found o) (tr s)) (infos s) (next_object s))) as (a' & Ha').
  - lia.
  - lia.
  - intros k o' Hk. cbn [hw]. replace (i + 1 + Z.of_nat k) with (i + Z.of_nat (S k)) by lia. by apply Hb.
  - apply lookup_insert_eq.
  - exists a'. rewrite Ha'. cbn [hw tr infos next_object]. by rewrite with_resources_twice.
Qed.

(** C24 (functional): for a function whose six base address registers are 32-bit ones below
    64 KiB, or absent, [fill_bars] finds each range that the hardware decodes, as an I/O
    or a memory resource of the device and in their order, and leaves the registers of
    the function and the rest of the tree as they were. *)
Theorem bars_found dev l x s :
  length l = 6%nat → (∀ k o, l !! k = Some o → has_bar (Z.of_nat k) o (hw s) ∧ ∀ b, o = Some b → bar_ok b) → devices (tr s) !! dev = Some x →
  ∃ a, fill_bars bus device function dev s =
    Done (tt, mk_pci a (hw s) (with_resources dev x (bar_resource <$> omap (λ o, o) l) (tr s)) (infos s) (next_object s)).
Proof.
  intros Hl Hb Hx. destruct (bars_from_ok dev l 0 x s) as (a & Ha); [lia|lia|intros k o Hk; by apply Hb|done|]. assert (Hf : l ≫= found = bar_resource <$> omap (λ o, o) l) by (clear; induction l as [|[b|] l IH]; cbn; [done|by rewrite <-IH|exact IH]).
  rewrite Hl, Hf in Ha. by exists a.
Qed.

End Pci.
Arguments pci H : clear implicits.

(** ** Bytes of a register *)

(** The bits that [replace_bits] writes, and those it keeps. *)
Lemma replace_bits_testbit data n v shift k : 0 ≤ n → 0 ≤ shift → 0 ≤ k < 32 →
  Z.testbit (replace_bits data (Z.ones n) v shift) k = if (shift <=? k) && (k <? shift + n) then Z.testbit v (k - shift) else Z.testbit data k || ((shift + n <=? k) && Z.testbit v (k - shift)).
Proof.
  intros Hn Hs Hk. unfold replace_bits, wrap. rewrite Z.mod_pow2_bits_low, Z.lor_spec, Z.land_spec, Z.lnot_spec, !Z.shiftl_spec by lia.
  destruct (Z.leb_spec shift k) as [H1|H1]; cbn [andb].
  - rewrite Z.testbit_ones_nonneg by lia. destruct (Z.ltb_spec k (shift + n)) as [H2|H2].
    + rewrite (proj2 (Z.ltb_lt _ _)) by lia. by rewrite andb_false_r.
    + rewrite (proj2 (Z.ltb_ge _ _)), (proj2 (Z.leb_le _ _)) by lia. by rewrite andb_true_r.
  - rewrite !(Z.testbit_neg_r _ (k - shift)) by lia. by rewrite andb_false_r, andb_true_r.
Qed.

(** A byte that was written is read back, and the others stay. *)
Lemma replace_byte data v j k : 0 ≤ data < 2 ^ 32 → 0 ≤ v < 256 → 0 ≤ j < 4 → 0 ≤ k < 4 →
  Z.land (Z.shiftr (replace_bits data 0xFF v (j * 8)) (k * 8)) 0xFF = if k =? j then v else Z.land (Z.shiftr data (k * 8)) 0xFF.
Proof.
  intros Hd Hv Hj Hk. change 0xFF with (Z.ones 8). apply Z.bits_inj'. intros n Hn. rewrite Z.land_spec, Z.shiftr_spec by lia. rewrite Z.testbit_ones_nonneg by lia.
  destruct (Z.ltb_spec n 8) as [Hn8|Hn8].
  - rewrite andb_true_r, replace_bits_testbit by lia. destruct (Z.eqb_spec k j) as [->|Hne].
    + rewrite (proj2 (Z.leb_le _ _)), (proj2 (Z.ltb_lt _ _)) by lia. cbn [andb]. f_equal. lia.
    + rewrite Z.land_spec, Z.shiftr_spec, Z.testbit_ones_nonneg, (proj2 (Z.ltb_lt n 8)), andb_true_r by lia.
      replace ((j * 8 <=? n + k * 8) && (n + k * 8 <? j * 8 + 8)) with false by lia.
      destruct (Z.leb_spec (j * 8 + 8) (n + k * 8)); cbn [andb]; [|by rewrite orb_false_r].
      rewrite (Z.bits_above_log2 v (n + k * 8 - j * 8)), orb_false_r; [done|lia|]. destruct (decide (v = 0)) as [->|]; [cbn; lia|]. apply Z.log2_lt_pow2; [lia|]. eapply Z.lt_le_trans; [exact (proj2 Hv)|].
      change 256 with (2 ^ 8). apply Z.pow_le_mono_r; lia.
  - rewrite andb_false_r. destruct (k =? j); [|by rewrite Z.land_spec, Z.testbit_ones_nonneg, (proj2 (Z.ltb_ge n 8)), andb_false_r by lia].
    rewrite Z.bits_above_log2; [done|lia|]. destruct (decide (v = 0)) as [->|]; [cbn; lia|]. apply Z.log2_lt_pow2; [lia|]. eapply Z.lt_le_trans; [exact (proj2 Hv)|].
    change 256 with (2 ^ 8). apply Z.pow_le_mono_r; lia.
Qed.

(** ** A card *)

(** Registers that store, base address registers with their size and flags, and nothing
    where no function is. *)
Record card := mk_card { regs : gmap Z Z; sizes : gmap Z (Z * Z) }.
Definition card_read (a : Z) (h : card) : Z := default 0xFFFFFFFF (regs h !! a).
Definition card_write (a v : Z) (h : card) : card :=
  match regs h !! a, sizes h !! a with
  | Some _, Some (n, fl) => mk_card (<[a := Z.land v (2 ^ 32 - n) + fl]> (regs h)) (sizes h)
  | Some _, None => mk_card (<[a := v]> (regs h)) (sizes h)
  | None, _ => h
  end.
Definition card_of (rows : list (Z * Z)) (bs : list (Z * (Z * Z))) : card :=
  mk_card (list_to_map (prod_map (config_address 0 3 0) id <$> rows)) (list_to_map (prod_map (config_address 0 3 0) id <$> bs)).

Definition no_device (name : list Z) : Device := mk_device name None [] [].
Definition card_tree : tree := mk_tree {[1 := no_device (lit "pci"); 2 := no_device (lit "dev")]} None [mk_bus (cstr (lit "pci")) [] []] [].
Definition card_state (h : card) : pci card := mk_pci 0 h card_tree ∅ 3.

Definition demo_card : card := card_of [(0, 0x813910EC); (4, 0); (8, 0x02000010); (16, 0xC001); (20, 0xFEB00000); (24, 0); (28, 0); (32, 0); (36, 0); (40, 0); (60, 0)] [(16, (64, 1)); (20, (256, 0))].
Definition demo_bars : list (option bar) := [Some (mk_bar true 64 0xC000 1); Some (mk_bar false 256 0xFEB00000 0); None; None; None; None].

Lemma bars_found_witness :
  ∃ a t, fill_bars card_read card_write 0 3 0 2 (card_state demo_card) = Done (tt, mk_pci a demo_card t ∅ 3) ∧
    getResource 1 2 t = Done (Some (mk_resource MEMORY 0xFEB00000 0xFEB00100)).
Proof.
  destruct (bars_found card_read card_write 0 3 0 2 demo_bars (no_device (lit "dev")) (card_state demo_card)) as (a & Ha).
  - reflexivity.
  - intros [|[|[|[|[|[|k]]]]]] o Ho; (discriminate Ho || injection Ho as <-); (split; [|intros b [= <-]]); vm_compute; intuition congruence.
  - vm_compute. reflexivity.
  - eexists a, _. split; [exact Ha|]. vm_compute. reflexivity.
Defined.

(** The scan puts the function on the bus, with its name, its numbers and its resources. *)
Example card_scanned :
  match scan_device card_read card_write (λ _ _, true) 1 0 0 3 (card_state demo_card) with
  | Done (_, s) =>
      b_devices <$> buses (tr s) = [[3]] ∧ (x ← device 3 (tr s); text_of (d_name x)) = Done (lit "00.03.00") ∧ infos s !! 3 = Some (mk_pci_device 2 0 0 0x8139 0x10EC 0 3 0 0) ∧
      getResource 0 3 (tr s) = Done (Some (mk_resource IO 0xC000 0xC040)) ∧ hw s = demo_card
  | _ => False
  end.
Proof. vm_compute. done. Qed.

(** ** Deviations *)

Definition ranges (h : card) : outcome (list resource) := '(_, s) ← fill_bars card_read card_write 0 3 0 2 (card_state h); x ← device 2 (tr s); Done (m_resources x).

(** The size of a memory range of 64 KiB or more is cut to its low 16 bits. *)
Example large_range_empty : ranges (card_of [(16, 0xFE000000); (20, 0); (24, 0); (28, 0); (32, 0); (36, 0); (40, 0)] [(16, (0x100000, 0))]) = Done [mk_resource MEMORY 0xFE000000 0xFE000000].
Proof. vm_compute. reflexivity. Qed.

(** Bit 2 of an I/O address is taken for the type of a 64-bit register. *)
Example io_taken_for_wide : ranges (card_of [(16, 0xC005); (20, 0xC101); (24, 0); (28, 0); (32, 0); (36, 0); (40, 0); (44, 0)] [(16, (4, 1)); (20, (4, 1))]) = Done [mk_resource IO 0xC1010000C004 0xC1010000C008].
Proof. vm_compute. reflexivity. Qed.

(** Six turns are made also when registers are 64 bits wide: the subsystem identity at
    0x2C is written and taken for a register. *)
Example registers_overrun :
  ranges (card_of [(16, 0xFE000004); (20, 0); (24, 0xFE001004); (28, 0); (32, 0xFE002004); (36, 0); (40, 0); (44, 0x11001AF4); (48, 0); (52, 0)] [(16, (0x1000, 4)); (24, (0x1000, 4)); (32, (0x1000, 4))]) =
  Done [mk_resource MEMORY 0xFE000000 0xFE001000; mk_resource MEMORY 0xFE001000 0xFE002000; mk_resource MEMORY 0xFE002000 0xFE003000; mk_resource MEMORY 0x11001AF0 0x11001B00].
Proof. vm_compute. reflexivity. Qed.

(** ** Names of the classes *)

Local Open Scope string_scope.
Local Open Scope Z_scope.
Definition class_00 (sub prog : Z) : string :=
  if sub =? 0x00 then "Non-VGA-Compatible Unclassified"
  else if sub =? 0x01 then "VGA-Compatible Unclassified"
  else if sub =? 0x05 then "Image Coprocessor"
  else "Unclassified Device".
Definition class_01 (sub prog : Z) : string :=
  if sub =? 0x00 then "SCSI Bus Controller"
  else if sub =? 0x01 then "IDE Controller"
  else if sub =? 0x02 then "Floppy Disk Controller"
  else if sub =? 0x03 then "IPI Bus Controller"
  else if sub =? 0x04 then "RAID Controller"
  else if sub =? 0x05 then "ATA Controller"
  else if sub =? 0x06 then "SATA Controller"
  else if sub =? 0x07 then "SAS Controller"
  else if sub =? 0x08 then
    if prog =? 0x01 then "NVMHCI Controller" else if prog =? 0x02 then "NVMe Controller"
    else "Mass Storage Controller"
  else "Mass Storage Controller".
Definition class_02 (sub prog : Z) : string :=
  if sub =? 0x00 then "Ethernet Controller"
  else if sub =? 0x01 then "Token Ring Controller"
  else if sub =? 0x02 then "FDDI Controller"
  else if sub =? 0x03 then "ATM Controller"
  else if sub =? 0x04 then "ISDN Controller"
  else if sub =? 0x05 then "WorldFip Controller"
  else if sub =? 0x06 then "PICMG 2.14 Multi Computing Controller"
  else if sub =? 0x07 then "InfiniBand Controller"
  else if sub =? 0x08 then "Fabric Controller"
  else "Network Controller".
Definition class_03 (sub prog : Z) : string :=
  if sub =? 0x00 then
    if prog =? 0x00 then "VGA Controller" else if prog =? 0x01 then "8514 Controller"
    else "VGA Compatible Controller"
  else if sub =? 0x01 then "XGA Controller"
  else if sub =? 0x02 then "3D Controller"
  else "Display Controller".
Definition class_04 (sub prog : Z) : string :=
  if sub =? 0x00 then "Multimedia Video Controller"
  else if sub =? 0x01 then "Multimedia Audio Controller"
  else if sub =? 0x02 then "Computer Telephony Device"
  else if sub =? 0x03 then "Audio Device"
  else "Multimedia Controller".
Definition class_05 (sub prog : Z) : string :=
  if sub =? 0x00 then "RAM Controller"
  else if sub =? 0x01 then "Flash Controller"
  else "Memory Controller".
Definition class_06 (sub prog : Z) : string :=
  if sub =? 0x00 then "Host Bridge"
  else if sub =? 0x01 then "ISA Bridge"
  else if sub =? 0x02 then "EISA Bridge"
  else if sub =? 0x03 then "MCA Bridge"
  else if sub =? 0x04 then "PCI2PCI Bridge"
  else if sub =? 0x05 then "PCMCIA Bridge"
  else if sub =? 0x06 then "NuBus Bridge"
  else if sub =? 0x07 then "CardBus Bridge"
  else if sub =? 0x08 then "RACEway Bridge"
  else if sub =? 0x09 then "PCI2PCI Bridge"
  else if sub =? 0x0A then "InfiniBand2PCI Bridge"
  else "Bridge".
Definition class_07 (sub prog : Z) : string :=
  if sub =? 0x00 then
    if prog =? 0x00 then "8250 Serial Controller" else if prog =? 0x01 then "16450 Serial Controller"
    else if prog =? 0x02 then "16550 Serial Controller" else if prog =? 0x03 then "16650 Serial Controller"
    else if prog =? 0x04 then "16750 Serial Controller" else if prog =? 0x05 then "16850 Serial Controller"
    else if prog =? 0x06 then "16950 Serial Controller" else "Serial Controller"
  else if sub =? 0x01 then
    if prog =? 0x00 then "Standard Parallel Controller" else if prog =? 0x01 then "Bi-Directional Parallel Controller"
    else if prog =? 0x02 then "ECP Parallel Controller" else if prog =? 0x03 then "16650 Serial Controller"
    else if prog =? 0x04 then "IEEE 1284 Controller" else if prog =? 0xFE then "IEEE 1284 Target Device"
    else "Parallel Controller"
  else if sub =? 0x02 then "Multiport Serial Controller"
  else if sub =? 0x03 then
    if prog =? 0x00 then "Generic Modem" else if prog =? 0x01 then "16450 Modem"
    else if prog =? 0x02 then "16550 Modem" else if prog =? 0x03 then "16650 Modem"
    else if prog =? 0x04 then "16750 Modem" else "Modem"
  else if sub =? 0x04 then "GPIB Controller"
  else if sub =? 0x05 then "Smart Card Controller"
  else "Communication Controller".
Definition class_08 (sub prog : Z) : string :=
  if sub =? 0x00 then "PIC"
  else if sub =? 0x01 then "DMA Controller"
  else if sub =? 0x02 then "Timer"
  else if sub =? 0x03 then "RTC"
  else if sub =? 0x04 then "PCI Hot-Plug Controller"
  else if sub =? 0x05 then "SD Host Controller"
  else if sub =? 0x06 then "IOMMU Controller"
  else if sub =? 0x99 then "Timing Card"
  else "System Peripheral".
Definition class_09 (sub prog : Z) : string :=
  if sub =? 0x00 then "Keyboard Controller"
  else if sub =? 0x01 then "Digitizer Pen"
  else if sub =? 0x02 then "Mouse Controller"
  else if sub =? 0x03 then "Scanner Controller"
  else if sub =? 0x04 then
    if prog =? 0x00 then "Generic Gameport Controller" else if prog =? 0x10 then "Extended Gameport Controller"
    else "Gameport Controller"
  else "Input Device Controller".
Definition class_0A (sub prog : Z) : string :=
  if sub =? 0x00 then "Generic Docking Station"
  else "Docking Station".
Definition class_0B (sub prog : Z) : string :=
  if sub =? 0x00 then "386 Processor"
  else if sub =? 0x01 then "486 Processor"
  else if sub =? 0x02 then "Pentium Processor"
  else if sub =? 0x03 then "Pentium Pro Processor"
  else if sub =? 0x10 then "Alpha Processor"
  else if sub =? 0x20 then "PowerPC Processor"
  else if sub =? 0x30 then "MIPS Processor"
  else if sub =? 0x40 then "Co-Processor"
  else "Processor".
Definition class_0C (sub prog : Z) : string :=
  if sub =? 0x00 then
    if prog =? 0x00 then "FireWire Controller" else if prog =? 0x10 then "FireWire OHCI Controller"
    else "FireWire Controller"
  else if sub =? 0x01 then "ACCESS Bus"
  else if sub =? 0x02 then "SSA"
  else if sub =? 0x03 then
    if prog =? 0x00 then "USB UHCI Controller" else if prog =? 0x10 then "USB OHCI Controller"
    else if prog =? 0x20 then "USB EHCI Controller" else if prog =? 0x30 then "USB XHCI Controller"
    else if prog =? 0x40 then "USB4 Host Interface" else if prog =? 0xFE then "USB Device"
    else "USB Controller"
  else if sub =? 0x04 then "Fibre Channel"
  else if sub =? 0x05 then "SMBus"
  else if sub =? 0x06 then "Infiniband"
  else if sub =? 0x07 then
    if prog =? 0x00 then "IPMI SMIC" else if prog =? 0x01 then "IPMI KCS"
    else if prog =? 0x02 then "IPMI BT" else "IPMI Interface"
  else if sub =? 0x08 then "SERCOS Interface"
  else if sub =? 0x09 then "CANBUS"
  else "Bridge".
Definition class_0D (sub prog : Z) : string :=
  if sub =? 0x00 then "IRDA Controller"
  else if sub =? 0x01 then "Consumer IR Controller"
  else if sub =? 0x10 then "RF Controller"
  else if sub =? 0x11 then "Bluetooth Controller"
  else if sub =? 0x12 then "Broadband Controller"
  else if sub =? 0x20 then "802.1a Controller"
  else if sub =? 0x21 then "802.1b Controller"
  else "Wireless Controller".
Definition class_0E (sub prog : Z) : string := "I2O".
Definition class_0F (sub prog : Z) : string :=
  if sub =? 0x01 then "Satellite TV Controller"
  else if sub =? 0x02 then "Satellite Audio Controller"
  else if sub =? 0x03 then "Satellite Voice Controller"
  else if sub =? 0x04 then "Satellite Data Controller"
  else "Satellite Communication Controller".
Definition class_10 (sub prog : Z) : string :=
  if sub =? 0x00 then "Network and Computing Encryption Device"
  else if sub =? 0x10 then "Entertainment Encryption Device"
  else "Encryption Controller".
Definition class_11 (sub prog : Z) : string :=
  if sub =? 0x00 then "DPIO Module"
  else if sub =? 0x01 then "Performance Counters"
  else if sub =? 0x10 then "Communication Synchronizer"
  else if sub =? 0x20 then "Signal Processing Management"
  else "Signal Processing Controller".
Definition class_12 (sub prog : Z) : string :=
  if sub =? 0x00 then "Processing Accelerator"
  else if sub =? 0x01 then "AI Inference Accelerator"
  else "Processing Accelerator".
Definition class_13 (sub prog : Z) : string := "Non-Essential Instrumentation".
Definition class_40 (sub prog : Z) : string := "Co-Processor".
Definition resolve (cl sub prog : Z) : string :=
  if cl =? 0x00 then class_00 sub prog
  else if cl =? 0x01 then class_01 sub prog
  else if cl =? 0x02 then class_02 sub prog
  else if cl =? 0x03 then class_03 sub prog
  else if cl =? 0x04 then class_04 sub prog
  else if cl =? 0x05 then class_05 sub prog
  else if cl =? 0x06 then class_06 sub prog
  else if cl =? 0x07 then class_07 sub prog
  else if cl =? 0x08 then class_08 sub prog
  else if cl =? 0x09 then class_09 sub prog
  else if cl =? 0x0A then class_0A sub prog
  else if cl =? 0x0B then class_0B sub prog
  else if cl =? 0x0C then class_0C sub prog
  else if cl =? 0x0D then class_0D sub prog
  else if cl =? 0x0E then class_0E sub prog
  else if cl =? 0x0F then class_0F sub prog
  else if cl =? 0x10 then class_10 sub prog
  else if cl =? 0x11 then class_11 sub prog
  else if cl =? 0x12 then class_12 sub prog
  else if cl =? 0x13 then class_13 sub prog
  else if cl =? 0x40 then class_40 sub prog
  else "Unknown".


Lemma resolve_known cl sub prog : 0 ≤ cl → resolve cl sub prog = "Unknown"%string ↔ ¬ (cl ≤ 0x13 ∨ cl = 0x40).
Proof.
  intros Hcl. split.
  - intros E [Hle| ->]; [|vm_compute in E; discriminate E]. assert (Hin : cl ∈ seqZ 0 20) by (apply elem_of_seqZ; lia). change (seqZ 0 20) with [0; 1; 2; 3; 4; 5; 6; 7; 8; 9; 10; 11; 12; 13; 14; 15; 16; 17; 18; 19] in Hin.
    repeat (apply elem_of_cons in Hin as [-> | Hin]; [revert E; unfold resolve; cbn; unfold class_00, class_01, class_02, class_03, class_04, class_05, class_06, class_07, class_08, class_09, class_0A, class_0B, class_0C, class_0D, class_0E, class_0F, class_10, class_11, class_12, class_13, class_40; repeat case_match; by intros [=]|]). by apply not_elem_of_nil in Hin.
  - intros Hn. unfold resolve. by repeat (case_match eqn:E; [apply Z.eqb_eq in E; lia|clear E]).
Qed.

End Pci.
