(* ===== verification/Sched.v ===== *)
(** * The process and thread lists and the scheduler

    [proc/proc.cpp] and [proc/scheduler.cpp].  Pointers are integers, 0 is
    [nullptr], and following a pointer to nothing is a [Fault].  The functions run
    under [sched_lock], so each is one atomic step.  The context switch that
    follows [schedule] is not modelled: what it decides is [current_thread]. *)
From S2P Require Import Prelude Locks Event.
Local Open Scope Z_scope.

(** ** Circular lists

    The [next] and [prev] members and the [*_list_size], [_head] and [_tail]
    globals, which processes and threads have alike. *)
Module CircularList.

Record clist := mk_clist { links : gmap Z (Z * Z); size : Z; head : Z; tail : Z }.

Abbreviation M := (stateM clist).

Definition get_next (p : Z) : M Z := λ s, match links s !! p with Some l => Done (l.1, s) | None => Fault end.
Definition get_prev (p : Z) : M Z := λ s, match links s !! p with Some l => Done (l.2, s) | None => Fault end.
Definition set_links (m : gmap Z (Z * Z)) (s : clist) : clist := mk_clist m (size s) (head s) (tail s).
Definition set_next (p v : Z) : M unit := λ s,
  match links s !! p with Some l => Done (tt, set_links (<[p := (v, l.2)]> (links s)) s) | None => Fault end.
Definition set_prev (p v : Z) : M unit := λ s,
  match links s !! p with Some l => Done (tt, set_links (<[p := (l.1, v)]> (links s)) s) | None => Fault end.
Definition set_size (n : Z) : M unit := modify (λ s, mk_clist (links s) n (head s) (tail s)).
Definition set_head (p : Z) : M unit := modify (λ s, mk_clist (links s) (size s) p (tail s)).
Definition set_tail (p : Z) : M unit := modify (λ s, mk_clist (links s) (size s) (head s) p).

(** The part [add_process] and [add_thread] share. *)
Definition append (p : Z) : M unit :=
  n ← gets size; set_size (i32 (n + 1));;
  t ← gets tail; set_next t p;;
  h ← gets head; set_next p h;;
  t ← gets tail; set_prev p t;;
  set_tail p;;
  h ← gets head; t ← gets tail; set_prev h t.

(** The part [remove_process] and [remove_thread] share. *)
Definition unlink (p : Z) : M unit :=
  n ← gets size; lift (aex_assert (n >? 0));;
  n ← gets size; set_size (i32 (n - 1));;
  h ← gets head; (if h =? p then q ← get_next p; set_head q else mret tt);;
  t ← gets tail; (if t =? p then q ← get_prev p; set_tail q else mret tt);;
  a ← get_next p; b ← get_prev p; set_prev a b;;
  b ← get_prev p; a ← get_next p; set_next b a.

(** The process list, the static [counter] and whether [processes_lock] is held:
    [tryAcquire] of a free lock fails the assertion. *)
Record ptable := mk_ptable { process_list : clist; counter : Z; processes_lock : bool }.
Definition on_processes {A} (m : M A) : stateM ptable A := λ s,
  '(a, l) ← m (process_list s); Done (a, mk_ptable l (counter s) (processes_lock s)).
Definition next_pid : stateM ptable Z := λ s, Done (counter s, mk_ptable (process_list s) (i32 (counter s + 1)) (processes_lock s)).
Definition assert_processes_locked : stateM ptable unit := λ s, _ ← aex_assert (processes_lock s); Done (tt, s).

Definition add_process (process : Z) : stateM ptable Z :=
  lift (aex_assert (negb (process =? 0)));;
  assert_processes_locked;;
  h ← on_processes (gets head);
  (if h =? 0 then
     on_processes (
       n ← gets size; set_size (i32 (n + 1));;
       set_head process;; set_tail process;;
       set_next process process;; set_prev process process);;
     next_pid
   else on_processes (append process);; next_pid).

Definition remove_process (process : Z) : stateM ptable unit :=
  lift (aex_assert (negb (process =? 0)));;
  assert_processes_locked;;
  on_processes (unlink process).

Definition add_thread (thread : Z) : M unit :=
  n ← gets size; lift (aex_assert (n >? 0));;
  append thread.

(** [remove_thread] without the idle threads, which are the scheduler's.  The
    assertion on the size comes before they are fixed. *)
Definition remove_thread (thread : Z) : M unit := unlink thread;; set_next thread 0.

(** [get_process]: [pid] reads a process. *)
Fixpoint get_process_loop (pid_of : Z → outcome Z) (pid : Z) (n : nat) (process : Z) : M Z :=
  match n with
  | O => mret 0
  | S n =>
      q ← lift (pid_of process);
      if q =? pid then mret process
      else p ← get_next process; get_process_loop pid_of pid n p
  end.
Definition get_process (pid_of : Z → outcome Z) (pid : Z) : stateM ptable Z :=
  assert_processes_locked;;
  on_processes (h ← gets head; n ← gets size; get_process_loop pid_of pid (Z.to_nat n) h).

(** *** The list a ring of links stands for *)

Definition nxt (m : gmap Z (Z * Z)) (p : Z) : option Z := fst <$> m !! p.
Definition prv (m : gmap Z (Z * Z)) (p : Z) : option Z := snd <$> m !! p.
Definition link (m : gmap Z (Z * Z)) (a b : Z) : Prop := nxt m a = Some b ∧ prv m b = Some a.

Fixpoint chain (m : gmap Z (Z * Z)) (l : list Z) : Prop :=
  match l with
  | [] => True
  | a :: r => match r with [] => True | b :: _ => link m a b ∧ chain m r end
  end.

(** The links go round the list. *)
Definition cyc (m : gmap Z (Z * Z)) (l : list Z) : Prop :=
  match l with [] => True | h :: _ => chain m (l ++ [h]) end.

Definition ring (l : list Z) (s : clist) : Prop :=
  NoDup l ∧ l !! 0%nat = Some (head s) ∧ last l = Some (tail s) ∧ size s = Z.of_nat (length l) ∧ size s < 2 ^ 31 - 1 ∧
  cyc (links s) l.

Lemma chain_app m l1 x l2 : chain m (l1 ++ x :: l2) ↔ chain m (l1 ++ [x]) ∧ chain m (x :: l2).
Proof.
  induction l1 as [|a l1 IH]; [simpl; tauto|]. destruct l1 as [|b l1]; [simpl; tauto|].
  change (chain m ((a :: b :: l1) ++ x :: l2)) with (link m a b ∧ chain m ((b :: l1) ++ x :: l2)).
  change (chain m ((a :: b :: l1) ++ [x])) with (link m a b ∧ chain m ((b :: l1) ++ [x])). rewrite IH. tauto.
Qed.

Lemma chain_pair m a b l : chain m (a :: b :: l) ↔ link m a b ∧ chain m (b :: l).
Proof. done. Qed.

(** A chain depends on the [next] of all but its last element and on the [prev]
    of all but its first. *)
Lemma chain_agree m m' l x y :
  chain m (x :: l) → last (x :: l) = Some y → NoDup (x :: l) →
  (∀ a, a ∈ x :: l → a ≠ y → nxt m' a = nxt m a) → (∀ a, a ∈ x :: l → a ≠ x → prv m' a = prv m a) → chain m' (x :: l).
Proof.
  revert x. induction l as [|z l IH]; intros x Hc Hl Hnd Hn Hp; [done|]. apply chain_pair in Hc as [[H1 H2] Hc].
  apply NoDup_cons in Hnd as [Hx Hnd]. apply chain_pair. split.
  - assert (x ≠ y).
    { intros ->. apply Hx. change (last (y :: z :: l)) with (last (z :: l)) in Hl. by apply last_Some_elem_of in Hl. }
    split; [by rewrite Hn by (done || by left)|]. rewrite Hp; [done|right; by left|]. intros ->. apply Hx. by left.
  - apply IH; [done|done|done|intros a Ha; apply Hn; by right|]. intros a Ha Hz. apply Hp; [by right|].
    intros ->. by apply Hx.
Qed.

Lemma cyc_rotate m x l : cyc m (x :: l) ↔ cyc m (l ++ [x]).
Proof.
  destruct l as [|y l]; [done|]. change (cyc m (x :: y :: l)) with (chain m (x :: y :: l ++ [x])).
  change (cyc m ((y :: l) ++ [x])) with (chain m (((y :: l) ++ [x]) ++ [y])). rewrite <-app_assoc.
  change ([x] ++ [y]) with (x :: [y]). rewrite chain_app, chain_pair. simpl (chain m [x; y]). unfold app at 2. simpl. tauto.
Qed.

Lemma cyc_app m l1 l2 : cyc m (l1 ++ l2) ↔ cyc m (l2 ++ l1).
Proof.
  revert l2. induction l1 as [|x l1 IH]; intros l2; [by rewrite app_nil_r|].
  change ((x :: l1) ++ l2) with (x :: l1 ++ l2). rewrite cyc_rotate, <-app_assoc, IH, <-app_assoc. done.
Qed.

Lemma nxt_set m p v q l : m !! p = Some l → nxt (<[p := (v, l.2)]> m) q = if decide (q = p) then Some v else nxt m q.
Proof. intros Hl. unfold nxt. case_decide; subst; [by rewrite lookup_insert_eq|by rewrite lookup_insert_ne]. Qed.
Lemma prv_set_next m p v q l : m !! p = Some l → prv (<[p := (v, l.2)]> m) q = prv m q.
Proof.
  intros Hl. unfold prv. destruct (decide (q = p)) as [->|]; [by rewrite lookup_insert_eq, Hl|by rewrite lookup_insert_ne].
Qed.
Lemma prv_set m p v q l : m !! p = Some l → prv (<[p := (l.1, v)]> m) q = if decide (q = p) then Some v else prv m q.
Proof. intros Hl. unfold prv. case_decide; subst; [by rewrite lookup_insert_eq|by rewrite lookup_insert_ne]. Qed.
Lemma nxt_set_prev m p v q l : m !! p = Some l → nxt (<[p := (l.1, v)]> m) q = nxt m q.
Proof.
  intros Hl. unfold nxt. destruct (decide (q = p)) as [->|]; [by rewrite lookup_insert_eq, Hl|by rewrite lookup_insert_ne].
Qed.

(** The writes, in terms of [nxt] and [prv]. *)
Lemma set_next_ok p v s : is_Some (links s !! p) →
  ∃ m, set_next p v s = Done (tt, set_links m s) ∧ (∀ q, is_Some (m !! q) ↔ is_Some (links s !! q)) ∧
    (∀ q, nxt m q = if decide (q = p) then Some v else nxt (links s) q) ∧ (∀ q, prv m q = prv (links s) q).
Proof.
  intros [l Hl]. exists (<[p := (v, l.2)]> (links s)). unfold set_next. rewrite Hl. split_and!; [done| | |].
  - intros q. rewrite lookup_insert_is_Some'. naive_solver.
  - intros q. by apply nxt_set.
  - intros q. by apply prv_set_next.
Qed.
Lemma set_prev_ok p v s : is_Some (links s !! p) →
  ∃ m, set_prev p v s = Done (tt, set_links m s) ∧ (∀ q, is_Some (m !! q) ↔ is_Some (links s !! q)) ∧
    (∀ q, prv m q = if decide (q = p) then Some v else prv (links s) q) ∧ (∀ q, nxt m q = nxt (links s) q).
Proof.
  intros [l Hl]. exists (<[p := (l.1, v)]> (links s)). unfold set_prev. rewrite Hl. split_and!; [done| | |].
  - intros q. rewrite lookup_insert_is_Some'. naive_solver.
  - intros q. by apply prv_set.
  - intros q. by apply nxt_set_prev.
Qed.

Lemma get_next_ok p q s : nxt (links s) p = Some q → get_next p s = Done (q, s).
Proof. unfold nxt, get_next. intros (l & -> & <-)%fmap_Some. done. Qed.
Lemma get_prev_ok p q s : prv (links s) p = Some q → get_prev p s = Done (q, s).
Proof. unfold prv, get_prev. intros (l & -> & <-)%fmap_Some. done. Qed.

Lemma nxt_some m a b : nxt m a = Some b → is_Some (m !! a).
Proof. unfold nxt. intros (l & -> & _)%fmap_Some. by eexists. Qed.
Lemma prv_some m a b : prv m a = Some b → is_Some (m !! a).
Proof. unfold prv. intros (l & -> & _)%fmap_Some. by eexists. Qed.

(** The state after [n] writes keeps the other globals. *)
Lemma ring_head l s : ring l s → ∃ l', l = head s :: l'.
Proof. intros (_ & Hh & _). destruct l as [|h l']; [done|]. simpl in Hh. simplify_eq. by exists l'. Qed.

Lemma ring_tail l s : ring l s → ∃ l', l = l' ++ [tail s].
Proof. intros (_ & _ & Hl & _). by apply last_Some in Hl. Qed.

Lemma ring_elem l s p : ring l s → p ∈ l → ∃ a b, nxt (links s) p = Some a ∧ prv (links s) p = Some b ∧ a ∈ l ∧ b ∈ l.
Proof.
  intros (Hnd & _ & _ & _ & _ & Hc) Hp. apply list_elem_of_split in Hp as (l1 & l2 & ->). rewrite cyc_app in Hc.
  change ((p :: l2) ++ l1) with (p :: l2 ++ l1) in Hc. destruct (l2 ++ l1) as [|a r] eqn:E.
  - apply app_eq_nil in E as [-> ->]. simpl in Hc. destruct Hc as [[? ?] _]. exists p, p. split_and!; try done; by left.
  - destruct (exists_last (l := a :: r)) as (r' & y & Er); [done|]. rewrite Er in *.
    assert (Hin : ∀ z, z ∈ r' ++ [y] → z ∈ l1 ++ p :: l2) by (intros z; rewrite <-E; set_solver).
    change (cyc (links s) (p :: r' ++ [y])) with (chain (links s) (p :: (r' ++ [y]) ++ [p])) in Hc.
    exists a, y. split_and!.
    + rewrite <-Er in Hc. apply Hc.
    + rewrite <-app_assoc in Hc. change (p :: r' ++ [y] ++ [p]) with ((p :: r') ++ y :: [p]) in Hc.
      apply chain_app in Hc as [_ Hc]. apply Hc.
    + apply Hin. rewrite <-Er. by left.
    + apply Hin. set_solver.
Qed.

(** Running a step whose effect is known. *)
Ltac run := repeat (progress (rewrite ?run_bind; unfold set_links; cbn [gets modify set_size set_head set_tail set_links fst snd links size head tail mret stateM_ret])).

Lemma append_ring l s p :
  ring l s → p ∉ l → is_Some (links s !! p) → size s < 2 ^ 31 - 2 →
  ∃ s', append p s = Done (tt, s') ∧ ring (l ++ [p]) s'.
Proof.
  intros Hr Hp Hlk Hsz. destruct (ring_head _ _ Hr) as [lh Hlh]. destruct (ring_tail _ _ Hr) as [lt Hlt].
  pose proof Hr as (Hnd & Hh & Hl & Hs & _ & Hc). unfold append. run.
  assert (Ht : tail s ∈ l) by (rewrite Hlt; set_solver). assert (Hhd : head s ∈ l) by (rewrite Hlh; by left).
  destruct (ring_elem l s (tail s) Hr Ht) as (? & ? & Hn1 & _). destruct (ring_elem l s (head s) Hr Hhd) as (? & ? & Hn2 & _).
  destruct (set_next_ok (tail s) p (mk_clist (links s) (i32 (size s + 1)) (head s) (tail s))) as (m1 & -> & D1 & N1 & P1);
    [by eapply nxt_some|]. cbn [links] in D1, N1, P1. run.
  destruct (set_next_ok p (head s) (mk_clist m1 (i32 (size s + 1)) (head s) (tail s))) as (m2 & -> & D2 & N2 & P2);
    [by apply D1|]. cbn [links] in D2, N2, P2. run.
  destruct (set_prev_ok p (tail s) (mk_clist m2 (i32 (size s + 1)) (head s) (tail s))) as (m3 & -> & D3 & P3 & N3);
    [by apply D2, D1|]. cbn [links] in D3, N3, P3. run.
  destruct (set_prev_ok (head s) p (mk_clist m3 (i32 (size s + 1)) (head s) p)) as (m4 & -> & D4 & P4 & N4);
    [by apply D3, D2, D1; eapply nxt_some|]. cbn [links] in D4, N4, P4.
  exists (mk_clist m4 (i32 (size s + 1)) (head s) p). split; [done|].
  rewrite swrap_small by lia. unfold ring; cbn [links size head tail]. split; [|split_and!].
  - apply NoDup_app. split_and!; [done|set_solver|apply NoDup_singleton].
  - by rewrite lookup_app_l by (rewrite Hlh; simpl; lia).
  - by rewrite last_snoc.
  - rewrite length_app. simpl. lia.
  - lia.
  - rewrite Hlh. change (chain m4 (((head s :: lh) ++ [p]) ++ [head s])). rewrite <-app_assoc, <-Hlh, Hlt, <-app_assoc.
    change (chain m4 (lt ++ tail s :: [p; head s])). rewrite chain_app, <-Hlt.
    assert (Hne : p ≠ tail s ∧ p ≠ head s) by set_solver. split.
    + assert (Hcl : chain (links s) l).
      { rewrite Hlh in Hc. change (chain (links s) ((head s :: lh) ++ [head s])) in Hc. rewrite <-Hlh, Hlt, <-app_assoc in Hc.
        change (chain (links s) (lt ++ tail s :: [head s])) in Hc. apply chain_app in Hc as [Hc _]. by rewrite <-Hlt in Hc. }
      rewrite Hlh in Hcl |- *. eapply (chain_agree (links s) m4 lh (head s) (tail s)); [done|by rewrite <-Hlh|by rewrite <-Hlh| |].
      * intros a Ha Hat. rewrite N4, N3, N2, decide_False, N1, decide_False; [done|done|]. intros ->. apply Hp. by rewrite Hlh.
      * intros a Ha Hah. rewrite P4, decide_False, P3, decide_False, P2, P1; [done| |done]. intros ->. apply Hp. by rewrite Hlh.
    + split; [split|split; [split|done]].
      * rewrite N4, N3, N2, decide_False, N1, decide_True by naive_solver. done.
      * rewrite P4, decide_False, P3, decide_True by naive_solver. done.
      * rewrite N4, N3, N2, decide_True by done. done.
      * rewrite P4, decide_True by done. done.
Qed.

(** The ring without [p], when [p]'s neighbours are joined. *)
Lemma cyc_join m m' p a b r :
  cyc m (p :: r) → NoDup (p :: r) → r ≠ [] → nxt m p = Some a → prv m p = Some b →
  (∀ q, nxt m' q = if decide (q = b) then Some a else nxt m q) → (∀ q, prv m' q = if decide (q = a) then Some b else prv m q) →
  r !! 0%nat = Some a ∧ last r = Some b ∧ cyc m' r.
Proof.
  intros Hc Hnd Hr Ha Hb N P. destruct r as [|x r0]; [done|]. clear Hr.
  destruct (exists_last (l := x :: r0)) as (r' & y & Er); [done|].
  assert (Hc1 : link m p x ∧ chain m ((x :: r0) ++ [p])) by exact Hc. destruct Hc1 as [[Hx _] Hc1].
  rewrite Er, <-app_assoc in Hc1. change (r' ++ [y] ++ [p]) with (r' ++ y :: [p]) in Hc1. apply chain_app in Hc1 as [Hc1 [[Hy1 Hy2] _]].
  assert (x = a) as -> by congruence. assert (y = b) as -> by congruence. apply NoDup_cons in Hnd as [_ Hnd].
  assert (Hlast : last (a :: r0) = Some b) by (by rewrite Er, last_snoc). rewrite <-Er in Hc1.
  split_and!; [done|done|]. change (chain m' ((a :: r0) ++ [a])). rewrite Er, <-app_assoc.
  change (chain m' (r' ++ b :: [a])). rewrite chain_app, <-Er. split.
  - eapply (chain_agree m m' r0 a b); [done|done|done| |].
    + intros q _ Hq. by rewrite N, decide_False.
    + intros q _ Hq. by rewrite P, decide_False.
  - split; [|done]. split; [by rewrite N, decide_True|by rewrite P, decide_True].
Qed.

Lemma head_is_first l1 l2 p s : ring (l1 ++ p :: l2) s → head s = p ↔ l1 = [].
Proof.
  intros (Hnd & Hh & _). destruct l1 as [|x l1]; simpl in Hh; simplify_eq; [done|]. split; [|done]. intros He.
  simpl in Hnd. apply NoDup_cons in Hnd as [Hn _]. exfalso. rewrite He in Hn. apply Hn. apply elem_of_app. right. by left.
Qed.

Lemma tail_is_last l1 l2 p s : ring (l1 ++ p :: l2) s → tail s = p ↔ l2 = [].
Proof.
  intros (Hnd & _ & Hl & _). split.
  - intros <-. destruct l2 as [|x l2] using rev_ind; [done|]. exfalso.
    change (l1 ++ tail s :: l2 ++ [x]) with (l1 ++ (tail s :: l2) ++ [x]) in *. rewrite app_assoc in Hl, Hnd. rewrite last_snoc in Hl.
    simplify_eq. apply NoDup_app in Hnd as (_ & Hd & _). apply (Hd (tail s)); set_solver.
  - intros ->. rewrite last_snoc in Hl. by simplify_eq.
Qed.

Lemma unlink_ring l1 l2 p s :
  ring (l1 ++ p :: l2) s → l1 ++ l2 ≠ [] →
  ∃ s', unlink p s = Done (tt, s') ∧ ring (l1 ++ l2) s' ∧ is_Some (links s' !! p).
Proof.
  intros Hr Hne. pose proof Hr as (Hnd & Hh & Hl & Hs & Hsz & Hc). rewrite cyc_app in Hc. change ((p :: l2) ++ l1) with (p :: l2 ++ l1) in Hc.
  assert (Hp : p ∈ l1 ++ p :: l2) by (apply elem_of_app; right; by left).
  destruct (ring_elem _ s p Hr Hp) as (a & b & Ha & Hb & Hal & Hbl).
  destruct (ring_elem _ s a Hr Hal) as (a1 & a2 & Ha2 & _). destruct (ring_elem _ s b Hr Hbl) as (b1 & b2 & Hb2 & _).
  assert (Hndr : NoDup (p :: l2 ++ l1)) by (eapply NoDup_Permutation_proper; [|exact Hnd]; by rewrite (Permutation_app_comm l1)).
  assert (Hner : l2 ++ l1 ≠ []) by (destruct l1, l2; simpl in *; done).
  assert (Hpa : p ≠ a).
  { destruct (l2 ++ l1) as [|x r] eqn:E; [done|]. assert (Hlk : link (links s) p x) by apply Hc. destruct Hlk as [Hx1 _].
    assert (x = a) as -> by congruence. intros ->. apply NoDup_cons in Hndr as [Hn _]. apply Hn. by left. }
  pose (h' := if head s =? p then a else head s). pose (t' := if tail s =? p then b else tail s).
  destruct (set_prev_ok a b (mk_clist (links s) (i32 (size s - 1)) h' t')) as (m1 & E1 & D1 & P1 & N1); [by eapply nxt_some|].
  destruct (set_next_ok b a (mk_clist m1 (i32 (size s - 1)) h' t')) as (m2 & E2 & D2 & N2 & P2); [apply D1; by eapply nxt_some|].
  cbn [links] in D1, P1, N1, D2, N2, P2.
  assert (Hrun : unlink p s = Done (tt, mk_clist m2 (i32 (size s - 1)) h' t')).
  { assert (0 < size s) by (rewrite Hs, length_app; simpl; lia). unfold unlink. run.
    replace (size s >? 0) with true by lia. cbn [aex_assert]. run.
    change (lift (Done tt) ?s) with (@Done (unit * clist) (tt, s)). run.
    unfold h', t' in *. destruct (head s =? p) eqn:Eh, (tail s =? p) eqn:Et; run;
      repeat first [rewrite Et; run | rewrite (get_next_ok p a) by done; run | rewrite (get_prev_ok p b) by done; run];
      rewrite E1; run;
      (rewrite (get_prev_ok p b) by (cbn [links]; rewrite P1, decide_False; done)); run;
      (rewrite (get_next_ok p a) by (cbn [links]; rewrite N1; done)); run; exact E2. }
  destruct (cyc_join (links s) m2 p a b (l2 ++ l1)) as (Hf & Hlast & Hcy); try done.
  { intros q. by rewrite N2, N1. } { intros q. by rewrite P2, P1. }
  eexists. split; [exact Hrun|]. cbn [links]. split; [|apply D2, D1; by eapply nxt_some].
  rewrite swrap_small by (rewrite Hs, length_app in *; simpl in *; lia).
  unfold ring; cbn [links size head tail]. rewrite length_app in Hs. simpl in Hs. split_and!.
  - apply NoDup_cons in Hndr as [_ Hndr]. by rewrite Permutation_app_comm.
  - unfold h'. destruct (Z.eqb_spec (head s) p) as [He|He].
    + apply (head_is_first _ _ _ _ Hr) in He as ->. rewrite app_nil_r in Hf. exact Hf.
    + destruct l1 as [|x l1]; [exfalso; apply He; by apply (head_is_first _ _ _ _ Hr)|]. exact Hh.
  - unfold t'. destruct (Z.eqb_spec (tail s) p) as [He|He].
    + apply (tail_is_last _ _ _ _ Hr) in He as ->. by rewrite app_nil_r.
    + destruct l2 as [|x l2 _] using rev_ind; [exfalso; apply He; by apply (tail_is_last _ _ _ _ Hr)|].
      rewrite app_assoc, last_snoc. change (l1 ++ p :: l2 ++ [x]) with (l1 ++ (p :: l2) ++ [x]) in Hl. rewrite app_assoc, last_snoc in Hl. done.
  - rewrite length_app. lia.
  - lia.
  - by rewrite cyc_app.
Qed.

(** Writing [next] of a node outside the ring. *)
Lemma ring_set_other l s p v :
  ring l s → p ∉ l → is_Some (links s !! p) →
  ∃ s', set_next p v s = Done (tt, s') ∧ ring l s' ∧ nxt (links s') p = Some v ∧ size s' = size s ∧ head s' = head s.
Proof.
  intros Hr Hp Hl. destruct (set_next_ok p v s Hl) as (m & He & _ & N & P). eexists. split; [exact He|].
  destruct (ring_head _ _ Hr) as [l' Hl']. destruct Hr as (Hnd & H2 & H3 & H4 & H5 & Hc). split; [split_and!; try done|split_and!; try done; change (nxt m p = Some v); by rewrite N, decide_True].
  change (cyc m l). rewrite Hl' in Hc |- *. clear -Hc Hp N P Hl'.
  assert (Hin : ∀ q, q ∈ (head s :: l') ++ [head s] → q ≠ p) by (rewrite <-Hl'; intros q Hq ->; apply Hp; rewrite Hl' in Hq |- *; set_solver).
  change (chain m ((head s :: l') ++ [head s])). change (chain (links s) ((head s :: l') ++ [head s])) in Hc.
  revert Hin Hc. generalize ((head s :: l') ++ [head s]) as k. clear Hl'. induction k as [|x [|y k] IH]; intros Hin Hc; [done|done|].
  apply chain_pair in Hc as [[H1 H2] Hc]. apply chain_pair. split; [|apply IH; [intros q Hq; apply Hin; by right|done]].
  split; [rewrite N, decide_False by (apply Hin; by left); done|by rewrite P].
Qed.

(** The ring of threads is the list of threads: [add_thread]
    appends to it and [remove_thread] deletes from it, whichever the position, and
    leaves the removed thread with a null [next]. *)
Lemma thread_list_refines l s :
  ring l s →
  (∀ p, p ∉ l → is_Some (links s !! p) → size s < 2 ^ 31 - 2 →
     ∃ s', add_thread p s = Done (tt, s') ∧ ring (l ++ [p]) s') ∧
  (∀ l1 p l2, l = l1 ++ p :: l2 → l1 ++ l2 ≠ [] →
     ∃ s', remove_thread p s = Done (tt, s') ∧ ring (l1 ++ l2) s' ∧ nxt (links s') p = Some 0).
Proof.
  intros Hr. split.
  - intros p Hp Hl Hs. destruct (append_ring l s p Hr Hp Hl Hs) as (s' & He & Hr'). exists s'. split; [|done].
    unfold add_thread. run. destruct (ring_head _ _ Hr) as [l' ->]. destruct Hr as (_ & _ & _ & Hsz & _). simpl in Hsz.
    replace (size s >? 0) with true by lia. exact He.
  - intros l1 p l2 -> Hne. destruct (unlink_ring l1 l2 p s Hr Hne) as (s1 & He & Hr1 & Hl).
    assert (Hp : p ∉ l1 ++ l2).
    { destruct Hr as (Hnd & _). apply NoDup_app in Hnd as (_ & Hd & Hnd). apply NoDup_cons in Hnd as [Hn _].
      intros [Hin|Hin]%elem_of_app; [|done]. apply (Hd p Hin). by left. }
    destruct (ring_set_other _ s1 p 0 Hr1 Hp Hl) as (s2 & He2 & Hr2 & Hn & _). exists s2. split; [|done].
    unfold remove_thread. rewrite run_bind, He. exact He2.
Qed.

(** The first process of [l] with that pid, 0 when there is none. *)
Definition with_pid (pid_of : Z → Z) (pid : Z) (l : list Z) : Z :=
  default 0 (snd <$> list_find (λ p, pid_of p = pid) l).

Lemma get_process_loop_spec pid_of pid l1 l2 s :
  ring (l1 ++ l2) s → l2 ≠ [] →
  get_process_loop (λ p, Done (pid_of p)) pid (length l2) (default 0 (l2 !! 0%nat)) s = Done (with_pid pid_of pid l2, s).
Proof.
  revert l1. induction l2 as [|p l2 IH]; intros l1 Hr Hne; [done|]. cbn [length get_process_loop lookup list_lookup default].
  rewrite run_bind. change (lift (Done ?x) s) with (@Done (Z * clist) (x, s)). cbn [fst snd]. unfold with_pid. cbn [list_find].
  change (id p) with p.
  destruct (Z.eqb_spec (pid_of p) pid) as [E|E]; [by rewrite decide_True|]. rewrite decide_False by done.
  destruct (ring_elem _ s p Hr) as (a & b & Ha & _); [set_solver|]. rewrite run_bind, (get_next_ok p a) by done. cbn [fst snd].
  destruct l2 as [|q l2]; [done|]. assert (a = q) as ->.
  { pose proof Hr as (_ & _ & _ & _ & _ & Hc). rewrite cyc_app in Hc. assert (Hl : link (links s) p q) by apply Hc. destruct Hl. congruence. }
  pose proof (IH (l1 ++ [p])) as IHl. rewrite <-app_assoc in IHl. specialize (IHl Hr ltac:(done)). simpl (default _ _) in IHl.
  rewrite IHl. unfold with_pid. by destruct (list_find _ (q :: l2)) as [[i x]|].
Qed.

(** The process table: under [processes_lock] a new process gets the next pid and
    the end of the list, [get_process] finds the first process with a pid and
    [remove_process] deletes from the list. *)
Lemma process_list_refines l s pid_of :
  ring l (process_list s) → processes_lock s = true →
  (∀ p, p ≠ 0 → head (process_list s) ≠ 0 → p ∉ l → is_Some (links (process_list s) !! p) → size (process_list s) < 2 ^ 31 - 2 →
     ∃ s', add_process p s = Done (counter s, s') ∧ ring (l ++ [p]) (process_list s') ∧ counter s' = i32 (counter s + 1)) ∧
  (∀ pid, get_process (λ p, Done (pid_of p)) pid s = Done (with_pid pid_of pid l, s)) ∧
  (∀ l1 p l2, l = l1 ++ p :: l2 → p ≠ 0 → l1 ++ l2 ≠ [] →
     ∃ s', remove_process p s = Done (tt, s') ∧ ring (l1 ++ l2) (process_list s') ∧ counter s' = counter s).
Proof.
  intros Hr Hlk. destruct s as [pl c lk]. cbn [process_list processes_lock counter] in *. subst lk. split_and!.
  - intros p Hp Hh Hin Hl Hs. destruct (append_ring l pl p Hr Hin Hl Hs) as (pl' & He & Hr'). eexists. split.
    + unfold add_process. replace (p =? 0) with false by lia. rewrite run_bind. change (lift _ ?s) with (@Done (unit * ptable) (tt, s)).
      cbn [fst snd]. rewrite run_bind. change (assert_processes_locked ?s) with (@Done (unit * ptable) (tt, s)). cbn [fst snd]. rewrite run_bind.
      change (on_processes (gets head) (mk_ptable pl c true)) with (@Done (Z * ptable) (head pl, mk_ptable pl c true)). cbn [fst snd].
      replace (head pl =? 0) with false by lia. rewrite run_bind. unfold on_processes at 1. cbn [process_list]. rewrite He. reflexivity.
    + done.
  - intros pid. unfold get_process. rewrite run_bind. change (assert_processes_locked ?s) with (@Done (unit * ptable) (tt, s)). cbn [fst snd].
    unfold on_processes. cbn [process_list counter processes_lock]. run. destruct (ring_head _ _ Hr) as [l' Hl'].
    pose proof Hr as (_ & _ & _ & Hsz & _). rewrite Hsz, Nat2Z.id.
    pose proof (get_process_loop_spec pid_of pid [] l pl Hr) as Hg. rewrite Hl' in *. simpl (default _ _) in Hg.
    by rewrite Hg.
  - intros l1 p l2 -> Hp Hne. destruct (unlink_ring l1 l2 p pl Hr Hne) as (s1 & He & Hr1 & _). eexists. split.
    + unfold remove_process. replace (p =? 0) with false by lia. rewrite run_bind. change (lift _ ?s) with (@Done (unit * ptable) (tt, s)).
      cbn [fst snd]. rewrite run_bind. change (assert_processes_locked ?s) with (@Done (unit * ptable) (tt, s)). cbn [fst snd].
      unfold on_processes. cbn [process_list]. rewrite He. reflexivity.
    + done.
Qed.

(** A ring of one and a thread that is not on it yet. *)
Definition demo_one : clist := mk_clist (<[8 := (8, 8)]> (<[16 := (0, 0)]> ∅)) 1 8 8.

Lemma demo_one_ring : ring [8] demo_one.
Proof. split; [apply NoDup_singleton|]. split_and!; vm_compute; tauto. Qed.

Lemma thread_list_refines_witness : ∃ s', add_thread 16 demo_one = Done (tt, s') ∧ ring [8; 16] s'.
Proof.
  destruct (thread_list_refines [8] demo_one demo_one_ring) as [Hadd _].
  exact (Hadd 16 ltac:(set_solver) ltac:(by eexists) ltac:(done)).
Defined.

End CircularList.

Module Sched.
Import Threads CircularList.

(** The members of [Thread], [Process] and [CPU] the scheduler reads and writes;
    [m_pending_signals] by its count. *)
Record Thread := mk_thread {
  status : status_t;
  wakeup_at : Z;
  parent : Z;
  sched_counter : Z;
  m_critical : Z;
  lock : bool;
  m_aborting : bool;
  pending_signals : Z;
  in_signal : bool;
}.

Record Process := mk_process { nice : Z; cpu_affinity : Z; cpu_time_ns : Z }.

Record CPU := mk_cpu {
  current_thread : Z;
  should_yield : bool;
  in_interrupt : Z;
  measurement_start_ns : Z;
}.

Record sched := mk_sched {
  threads : gmap Z Thread;
  processes : gmap Z Process;
  thread_list : clist;
  idle_threads : list Z;
  cpus : list CPU;
  sched_lock : bool;
}.

Abbreviation M := (stateM sched).

Definition set_threads (m : gmap Z Thread) (s : sched) : sched :=
  mk_sched m (processes s) (thread_list s) (idle_threads s) (cpus s) (sched_lock s).
Definition set_list (l : clist) (s : sched) : sched :=
  mk_sched (threads s) (processes s) l (idle_threads s) (cpus s) (sched_lock s).
Definition set_cpus (l : list CPU) (s : sched) : sched :=
  mk_sched (threads s) (processes s) (thread_list s) (idle_threads s) l (sched_lock s).
Definition set_sched_lock (b : bool) (s : sched) : sched :=
  mk_sched (threads s) (processes s) (thread_list s) (idle_threads s) (cpus s) b.

Definition get_thread (p : Z) : M Thread := λ s, match threads s !! p with Some t => Done (t, s) | None => Fault end.
Definition put_thread (p : Z) (t : Thread) : M unit := modify (λ s, set_threads (<[p := t]> (threads s)) s).
Definition get_proc (p : Z) : M Process := λ s, match processes s !! p with Some t => Done (t, s) | None => Fault end.
Definition put_proc (p : Z) (x : Process) : M unit :=
  modify (λ s, mk_sched (threads s) (<[p := x]> (processes s)) (thread_list s) (idle_threads s) (cpus s) (sched_lock s)).
Definition get_cpu (id : Z) : M CPU := λ s, c ← (cpus s).[id]; Done (c, s).
Definition put_cpu (id : Z) (c : CPU) : M unit := λ s, l ← (cpus s).[id := c]; Done (tt, set_cpus l s).
Definition get_idle (id : Z) : M Z := λ s, i ← (idle_threads s).[id]; Done (i, s).
Definition set_thread_next (p q : Z) : M unit := λ s, '(_, l) ← set_next p q (thread_list s); Done (tt, set_list l s).
Definition thread_next (p : Z) : M Z := λ s, '(q, _) ← get_next p (thread_list s); Done (q, s).

Definition with_counter (t : Thread) (n : Z) : Thread :=
  mk_thread (status t) (wakeup_at t) (parent t) n (m_critical t) (lock t) (m_aborting t) (pending_signals t) (in_signal t).
Definition with_lock (t : Thread) (b : bool) : Thread :=
  mk_thread (status t) (wakeup_at t) (parent t) (sched_counter t) (m_critical t) b (m_aborting t) (pending_signals t) (in_signal t).
Definition with_status (t : Thread) (st : status_t) : Thread :=
  mk_thread st (wakeup_at t) (parent t) (sched_counter t) (m_critical t) (lock t) (m_aborting t) (pending_signals t) (in_signal t).

Definition interrupted (t : Thread) : bool := m_aborting t || (pending_signals t >? 0) && negb (in_signal t).
Definition masked (m_mask id : Z) : bool := Z.testbit m_mask id.

(** The credit of a thread when it is looked at. *)
Definition credit (t : Thread) (process : Process) : Z :=
  i32 (sched_counter t +
    (if nice process <? 0 then 1000000 + 50000 * - nice process else 1000000 - 25000 * nice process)).

(** The [switch]: whether the thread can run, and its status then. *)
Definition wakes (uptime : Z) (t : Thread) : option status_t :=
  match status t with
  | TS_RUNNABLE => Some TS_RUNNABLE
  | TS_BLOCKED => if interrupted t then Some TS_BLOCKED else None
  | TS_SLEEPING => if (uptime <? wakeup_at t) && negb (interrupted t) then None else Some TS_RUNNABLE
  | _ => None
  end.

(** One turn of the [for] loop on [thread]: whether the CPU switches to it. *)
Definition visit (id uptime thread : Z) : M bool :=
  t ← get_thread thread;
  match wakes uptime t with
  | None => mret false
  | Some st =>
      put_thread thread (with_status t st);;
      process ← get_proc (parent t);
      if masked (cpu_affinity process) id then mret false
      else
        let counter := credit t process in
        if counter <? 1000000 then mret false
        else if lock t then mret false
        else
          put_thread thread (with_counter (with_lock (with_status t st) true) (counter - 1000000));;
          lift (aex_assert (counter - 1000000 <? 25000000));;
          cpu ← get_cpu id;
          put_cpu id (mk_cpu thread (should_yield cpu) (in_interrupt cpu) (measurement_start_ns cpu));;
          mret true
  end.

(** The loop from the thread after [thread] on: [true] with the thread chosen,
    or [false] with the last one visited. *)
Fixpoint pick (id uptime : Z) (n : nat) (thread : Z) : M (bool * Z) :=
  match n with
  | O => mret (false, thread)
  | S n =>
      thread ← thread_next thread;
      b ← visit id uptime thread;
      if (b : bool) then mret (true, thread) else pick id uptime n thread
  end.

(** [sched_lock.releaseRaw(); cpu->in_interrupt--]. *)
Definition leave (id : Z) : M unit :=
  b ← gets sched_lock; lift (spin_release b);; modify (set_sched_lock false);;
  cpu ← get_cpu id;
  put_cpu id (mk_cpu (current_thread cpu) (should_yield cpu) (u8 (in_interrupt cpu - 1)) (measurement_start_ns cpu)).

(** No thread can run. *)
Definition run_idle (id thread : Z) : M unit :=
  idle ← get_idle id;
  h ← gets (λ s : sched, head (thread_list s));
  let thread := if thread =? idle then h else thread in
  t ← get_thread idle;
  put_thread idle (with_lock t true);;
  cpu ← get_cpu id;
  put_cpu id (mk_cpu idle (should_yield cpu) (in_interrupt cpu) (measurement_start_ns cpu));;
  set_thread_next idle thread;;
  leave id.

(** What follows once [sched_lock] is taken. *)
Definition switch (id uptime : Z) : M unit :=
  cpu ← get_cpu id;
  let thread := current_thread cpu in
  put_cpu id (mk_cpu thread (should_yield cpu) (u8 (in_interrupt cpu + 1)) uptime);;
  t ← get_thread thread;
  next ← thread_next thread;
  process ← get_proc (parent t);
  put_proc (parent t) (mk_process (nice process) (cpu_affinity process)
    (u64 (cpu_time_ns process + u64 (uptime - measurement_start_ns cpu))));;
  lift (spin_release (lock t));;
  put_thread thread (with_lock t false);;
  h ← gets (λ s : sched, head (thread_list s));
  n ← gets (λ s : sched, size (thread_list s));
  r ← pick id uptime (Z.to_nat (n + 1)) (if next =? 0 then h else thread);
  if (r : bool * Z).1 then leave id else run_idle id r.2.

Definition schedule (id uptime : Z) : M unit :=
  cpu ← get_cpu id;
  let thread := current_thread cpu in
  t ← get_thread thread;
  if 0 <? m_critical t then
    put_cpu id (mk_cpu thread true (in_interrupt cpu) (measurement_start_ns cpu))
  else
    let rich := sched_counter t >=? 1000000 in
    when rich (put_thread thread (with_counter t (sched_counter t - 1000000)));;
    if rich && bool_decide (status t = TS_RUNNABLE) then mret tt
    else
      b ← gets sched_lock;
      if (b : bool) then (if bool_decide (status t = TS_RUNNABLE) then mret tt else lift (spin_acquire b);; switch id uptime)
      else modify (set_sched_lock true);; switch id uptime.

Definition on_list (m : stateM clist unit) : M unit := λ s, '(_, l) ← m (thread_list s); Done (tt, set_list l s).
Definition add_thread (thread : Z) : M unit := on_list (CircularList.add_thread thread).

(** [remove_thread], the idle threads included. *)
Fixpoint skip_idles (thread : Z) (idles : list Z) : M unit :=
  match idles with
  | [] => mret tt
  | i :: idles =>
      q ← thread_next i;
      (if q =? thread then
         a ← thread_next thread; set_thread_next i a
       else mret tt);;
      skip_idles thread idles
  end.

Definition remove_thread (held_mutexes thread : Z) : M unit :=
  lift (aex_assert (held_mutexes =? 0));;
  n ← gets (λ s : sched, size (thread_list s)); lift (aex_assert (n >? 0));;
  l ← gets idle_threads; skip_idles thread l;;
  on_list (CircularList.remove_thread thread).

(** ** What [schedule] chooses *)

(** A thread the loop would switch to. *)
Definition eligible (id uptime : Z) (s : sched) (p : Z) : bool :=
  match threads s !! p with
  | Some t =>
      match wakes uptime t, processes s !! parent t with
      | Some _, Some process =>
          negb (masked (cpu_affinity process) id) && negb (credit t process <? 1000000) && negb (lock t)
      | _, _ => false
      end
  | None => false
  end.

(** The thread and its process are there, and its credit passes the assertion. *)
Definition known (s : sched) (p : Z) : Prop :=
  ∃ t process, threads s !! p = Some t ∧ processes s !! parent t = Some process ∧ credit t process - 1000000 < 25000000.

(** The loop may have marked sleepers runnable. *)
Definition touched (uptime : Z) (s s' : sched) : Prop :=
  (∃ ts, s' = set_threads ts s) ∧
  ∀ p, threads s' !! p = threads s !! p ∨
    ∃ t st, threads s !! p = Some t ∧ wakes uptime t = Some st ∧ threads s' !! p = Some (with_status t st).

Lemma touched_refl uptime s : touched uptime s s.
Proof. split; [exists (threads s); by destruct s|]. intros p. by left. Qed.

Lemma wakes_again uptime t st : wakes uptime t = Some st → wakes uptime (with_status t st) = Some st.
Proof.
  unfold wakes. destruct (status t); try done.
  - by intros [= <-].
  - destruct (_ && _); [done|]. by intros [= <-].
  - destruct (interrupted t) eqn:E; [|done]. intros [= <-]. cbn [status with_status].
    change (interrupted (with_status t TS_BLOCKED)) with (interrupted t). by rewrite E.
Qed.

Lemma touched_eligible id uptime s s' p : touched uptime s s' → eligible id uptime s' p = eligible id uptime s p.
Proof.
  intros [[ts ->] Ht]. unfold eligible. destruct (Ht p) as [->|(t & st & -> & Hw & ->)]; [done|].
  by rewrite (wakes_again _ _ _ Hw), Hw.
Qed.

Lemma touched_known uptime s s' p : touched uptime s s' → known s p → known s' p.
Proof.
  intros [[ts ->] Ht] (t & process & H1 & H2 & H3). destruct (Ht p) as [E|(t' & st & E & _ & E')].
  - exists t, process. rewrite E. done.
  - assert (t' = t) as -> by congruence. exists (with_status t st), process. rewrite E'. done.
Qed.

Lemma get_thread_ok p t s : threads s !! p = Some t → get_thread p s = Done (t, s).
Proof. unfold get_thread. by intros ->. Qed.
Lemma get_proc_ok p x s : processes s !! p = Some x → get_proc p s = Done (x, s).
Proof. unfold get_proc. by intros ->. Qed.
Lemma get_cpu_ok id c s : (cpus s).[id] = Done c → get_cpu id s = Done (c, s).
Proof. unfold get_cpu. by intros ->. Qed.
Lemma put_cpu_ok id c s : 0 ≤ id < Z.of_nat (length (cpus s)) → put_cpu id c s = Done (tt, set_cpus (<[Z.to_nat id := c]> (cpus s)) s).
Proof. intros. unfold put_cpu. by rewrite wr_in_range. Qed.

(** One turn, on a thread that is not eligible and on one that is. *)
Lemma visit_skips id uptime p s0 s :
  touched uptime s0 s → known s0 p → eligible id uptime s0 p = false →
  ∃ s', visit id uptime p s = Done (false, s') ∧ touched uptime s0 s'.
Proof.
  intros Ht Hk He. rewrite <-(touched_eligible _ _ _ _ p Ht) in He. destruct (touched_known _ _ _ _ Ht Hk) as (t & pr & Hp & Hpr & _).
  unfold visit. rewrite run_bind, (get_thread_ok p t) by done. cbn [fst snd]. unfold eligible in He. rewrite Hp, Hpr in He.
  destruct (wakes uptime t) as [st|] eqn:Hw; [|by exists s]. rewrite run_bind. cbn [put_thread modify fst snd].
  set (s1 := set_threads _ s). assert (Ht1 : touched uptime s0 s1).
  { destruct Ht as [[ts ->] Ht]. split; [by eexists|]. intros q. unfold s1. cbn [set_threads threads] in *.
    destruct (decide (q = p)) as [->|]; [|rewrite lookup_insert_ne by done; apply Ht]. rewrite lookup_insert_eq. right.
    destruct (Ht p) as [E|(t' & st' & E & Hw' & E')].
    - exists t, st. by rewrite <-E.
    - assert (t = with_status t' st') as -> by congruence. rewrite (wakes_again _ _ _ Hw') in Hw. simplify_eq. by exists t', st. }
  rewrite run_bind, (get_proc_ok (parent t) pr) by done. cbn [fst snd]. exists s1. split; [|done].
  destruct (masked _ _); [done|]. destruct (_ <? _); [done|]. by destruct (lock t).
Qed.

Lemma visit_takes id uptime p s0 s cpu :
  touched uptime s0 s → known s0 p → eligible id uptime s0 p = true → (cpus s0).[id] = Done cpu →
  ∃ s', visit id uptime p s = Done (true, s') ∧ sched_lock s' = sched_lock s0 ∧ thread_list s' = thread_list s0 ∧
    cpus s' = <[Z.to_nat id := mk_cpu p (should_yield cpu) (in_interrupt cpu) (measurement_start_ns cpu)]> (cpus s0) ∧
    processes s' = processes s0 ∧
    (∃ t0 pr t, threads s0 !! p = Some t0 ∧ processes s0 !! parent t0 = Some pr ∧ threads s' !! p = Some t ∧ lock t = true ∧
       sched_counter t = credit t0 pr - 1000000) ∧
    (∀ q t, threads s0 !! q = Some t → ∃ t', threads s' !! q = Some t' ∧ (q ≠ p → sched_counter t' = sched_counter t ∧ lock t' = lock t)).
Proof.
  intros Ht Hk He Hcpu. rewrite <-(touched_eligible _ _ _ _ p Ht) in He. destruct (touched_known _ _ _ _ Ht Hk) as (t & pr & Hp & Hpr & Hcr).
  unfold visit. rewrite run_bind, (get_thread_ok p t) by done. cbn [fst snd]. unfold eligible in He. rewrite Hp, Hpr in He.
  destruct (wakes uptime t) as [st|] eqn:Hw; [|done]. rewrite run_bind. cbn [put_thread modify fst snd].
  set (s1 := set_threads _ s). rewrite run_bind, (get_proc_ok (parent t) pr) by done. cbn [fst snd].
  destruct (masked _ _); [done|]. destruct (_ <? _); [done|]. destruct (lock t); [done|].
  rewrite run_bind. cbn [put_thread modify fst snd]. set (s2 := set_threads _ s1). rewrite run_bind.
  replace (credit t pr - 1000000 <? 25000000) with true by lia. change (lift (aex_assert true) s2) with (@Done (unit * sched) (tt, s2)).
  destruct Ht as [[ts ->] Ht]. cbn [fst snd]. assert (Hcpu2 : (cpus s2).[id] = Done cpu) by done.
  rewrite run_bind, (get_cpu_ok _ cpu) by done. cbn [fst snd]. apply rd_Done in Hcpu as [Hid Hlk].
  pose proof (lookup_lt_Some _ _ _ Hlk). rewrite run_bind, put_cpu_ok by (simpl; lia). cbn [fst snd mret stateM_ret].
  eexists. split; [reflexivity|]. cbn [set_cpus sched_lock thread_list cpus threads s2 s1 set_threads]. split_and!; try done.
  - destruct (Ht p) as [E|(t0 & st0 & E & _ & E')].
    + eexists t, pr, _. rewrite <-E. split_and!; [done|done|by rewrite lookup_insert_eq|done|done].
    + assert (t = with_status t0 st0) as -> by congruence. eexists t0, pr, _. split_and!; [done|done|by rewrite lookup_insert_eq|done|done].
  - intros q t0 Hq. destruct (decide (q = p)) as [->|Hne].
    + eexists. split; [by rewrite lookup_insert_eq|done].
    + rewrite !lookup_insert_ne by done. cbn [set_threads threads] in Ht. destruct (Ht q) as [E|(t' & st' & E & _ & E')].
      * exists t0. rewrite E. done.
      * exists (with_status t' st'). rewrite E'. split; [done|]. intros _. simplify_eq. done.
Qed.

(** The threads in the order the loop meets them. *)
Fixpoint follows (m : gmap Z (Z * Z)) (p : Z) (l : list Z) : Prop :=
  match l with [] => True | q :: l => nxt m p = Some q ∧ follows m q l end.

Lemma follows_app m p l x l' : follows m p (l ++ x :: l') ↔ follows m p (l ++ [x]) ∧ follows m x l'.
Proof. revert p. induction l as [|y l IH]; intros p; simpl; [tauto|]. rewrite IH. tauto. Qed.

Lemma chain_follows m p l : chain m (p :: l) → follows m p l.
Proof. revert p. induction l as [|x l IH]; intros p Hc; [done|]. apply chain_pair in Hc as [[Hn _] Hc]. split; [done|]. by apply IH. Qed.

Lemma ring_follows l1 c l2 s : ring (l1 ++ c :: l2) s → follows (links s) c (l2 ++ l1 ++ [c]).
Proof.
  intros (_ & _ & _ & _ & _ & Hc). rewrite cyc_app in Hc. rewrite app_assoc. apply chain_follows. exact Hc.
Qed.

Lemma thread_next_ok p q s : nxt (links (thread_list s)) p = Some q → thread_next p s = Done (q, s).
Proof. intros H. unfold thread_next. by rewrite (get_next_ok p q). Qed.

Lemma touched_list uptime s s' : touched uptime s s' → thread_list s' = thread_list s.
Proof. by intros [[ts ->] _]. Qed.

Lemma pick_first id uptime s0 s cpu p before q after n :
  touched uptime s0 s → follows (links (thread_list s0)) p (before ++ q :: after) →
  Forall (known s0) (before ++ [q]) → Forall (λ x, eligible id uptime s0 x = false) before → eligible id uptime s0 q = true →
  (cpus s0).[id] = Done cpu → (length before < n)%nat →
  ∃ s1 s', touched uptime s0 s1 ∧ visit id uptime q s1 = Done (true, s') ∧ pick id uptime n p s = Done ((true, q), s').
Proof.
  revert p s n. induction before as [|x before IH]; intros p s n Ht Hf Hk He Hq Hcpu Hn.
  - destruct n as [|n]; [simpl in Hn; lia|]. destruct Hf as [Hnx _]. cbn [pick]. apply Forall_cons in Hk as [Hk _].
    destruct (visit_takes id uptime q s0 s cpu Ht Hk Hq Hcpu) as (s' & Hv & _). exists s, s'. split_and!; [done|done|].
    rewrite run_bind, (thread_next_ok p q) by (by rewrite (touched_list _ _ _ Ht)). cbn [fst snd]. by rewrite run_bind, Hv.
  - destruct n as [|n]; [simpl in Hn; lia|]. destruct Hf as [Hnx Hf]. simpl in Hk. apply Forall_cons in Hk as [Hkx Hk].
    apply Forall_cons in He as [Hex He]. cbn [pick].
    destruct (visit_skips id uptime x s0 s Ht Hkx Hex) as (s1 & Hv & Ht1).
    destruct (IH x s1 n Ht1 Hf Hk He Hq Hcpu) as (s2 & s' & Ht2 & Hv2 & Hp); [simpl in Hn; lia|]. exists s2, s'. split_and!; [done|done|].
    rewrite run_bind, (thread_next_ok p x) by (by rewrite (touched_list _ _ _ Ht)). cbn [fst snd]. rewrite run_bind, Hv. exact Hp.
Qed.

Lemma pick_none id uptime s0 s p l :
  touched uptime s0 s → follows (links (thread_list s0)) p l → Forall (known s0) l →
  Forall (λ x, eligible id uptime s0 x = false) l →
  ∃ s', touched uptime s0 s' ∧ pick id uptime (length l) p s = Done ((false, default p (last l)), s').
Proof.
  revert p s. induction l as [|x l IH]; intros p s Ht Hf Hk He; [by exists s|].
  destruct Hf as [Hnx Hf]. apply Forall_cons in Hk as [Hkx Hk]. apply Forall_cons in He as [Hex He]. cbn [length pick].
  destruct (visit_skips id uptime x s0 s Ht Hkx Hex) as (s1 & Hv & Ht1). destruct (IH x s1 Ht1 Hf Hk He) as (s' & Ht' & Hp).
  exists s'. split; [done|]. rewrite run_bind, (thread_next_ok p x) by (by rewrite (touched_list _ _ _ Ht)). cbn [fst snd].
  rewrite run_bind, Hv. cbn [fst snd]. rewrite Hp. destruct l as [|z l]; [done|].
  rewrite last_cons_cons. destruct (last (z :: l)) eqn:E; [done|]. by apply last_None in E.
Qed.

(** The state with the current thread's lock free, which the loop starts from. *)
Definition released (c : Z) (t : Thread) (s : sched) : sched := set_threads (<[c := with_lock t false]> (threads s)) s.

(** What [switch] does before the loop. *)
Definition entered (id uptime c : Z) (t : Thread) (process : Process) (cpu : CPU) (s : sched) : sched :=
  mk_sched (<[c := with_lock t false]> (threads s))
    (<[parent t := mk_process (nice process) (cpu_affinity process)
         (u64 (cpu_time_ns process + u64 (uptime - measurement_start_ns cpu)))]> (processes s))
    (thread_list s) (idle_threads s)
    (<[Z.to_nat id := mk_cpu c (should_yield cpu) (u8 (in_interrupt cpu + 1)) uptime]> (cpus s)) true.

Lemma entered_eligible id uptime c t process cpu s p :
  processes s !! parent t = Some process →
  eligible id uptime (entered id uptime c t process cpu s) p = eligible id uptime (released c t s) p.
Proof.
  intros Hpr. unfold eligible. cbn [entered released set_threads threads processes]. destruct (<[c:=_]> (threads s) !! p) as [t'|]; [|done].
  destruct (wakes uptime t'); [|done]. destruct (decide (parent t' = parent t)) as [->|].
  - by rewrite lookup_insert_eq, Hpr.
  - by rewrite lookup_insert_ne.
Qed.

Lemma entered_known id uptime c t process cpu s p :
  threads s !! c = Some t → processes s !! parent t = Some process → known s p → known (entered id uptime c t process cpu s) p.
Proof.
  intros Hc Hpr (t' & pr' & H1 & H2 & H3).
  assert (Hex : ∃ pr, processes (entered id uptime c t process cpu s) !! parent t' = Some pr ∧ nice pr = nice pr').
  { cbn [entered processes]. destruct (decide (parent t' = parent t)) as [E|].
    - rewrite E, lookup_insert_eq. eexists. split; [done|]. simpl. congruence.
    - rewrite lookup_insert_ne by done. by exists pr'. }
  destruct Hex as (pr & Hp & Hn). destruct (decide (p = c)) as [->|].
  - assert (t' = t) as -> by congruence. exists (with_lock t false), pr. cbn [entered threads]. rewrite lookup_insert_eq.
    split_and!; [done|done|]. unfold credit in *. cbn [with_lock sched_counter]. by rewrite Hn.
  - exists t', pr. cbn [entered threads]. rewrite lookup_insert_ne by done. split_and!; [done|done|]. unfold credit in *. by rewrite Hn.
Qed.

(** What the thread chosen had before, and its credit. *)
Lemma entered_thread id uptime process cpu s c t p t0 pr0 :
  threads s !! c = Some t → processes s !! parent t = Some process →
  threads (entered id uptime c t process cpu s) !! p = Some t0 → processes (entered id uptime c t process cpu s) !! parent t0 = Some pr0 →
  ∃ tp prp, threads s !! p = Some tp ∧ processes s !! parent tp = Some prp ∧ credit t0 pr0 = credit tp prp.
Proof.
  intros Hc Hpr Ht0 Hpr0. cbn [entered threads processes] in *.
  assert (∃ tp, threads s !! p = Some tp ∧ parent tp = parent t0 ∧ sched_counter tp = sched_counter t0) as (tp & Htp & Hpar & Hcnt).
  { destruct (decide (p = c)) as [->|]; [rewrite lookup_insert_eq in Ht0; simplify_eq; by exists t|]. rewrite lookup_insert_ne in Ht0 by done. by exists t0. }
  assert (∃ prp, processes s !! parent t0 = Some prp ∧ nice prp = nice pr0) as (prp & Hprp & Hnice).
  { destruct (decide (parent t0 = parent t)) as [E|]; [rewrite E, lookup_insert_eq in Hpr0; simplify_eq; rewrite E; by exists process|]. rewrite lookup_insert_ne in Hpr0 by done. by exists pr0. }
  exists tp, prp. split_and!; [done|congruence|]. unfold credit. by rewrite Hcnt, Hnice.
Qed.

(** CPU [id] runs thread [c] of the ring, may switch, and nobody else holds
    [sched_lock]. *)
Definition runs (id : Z) (s : sched) (cpu : CPU) (l1 : list Z) (c : Z) (l2 : list Z) (t : Thread) : Prop :=
  ring (l1 ++ c :: l2) (thread_list s) ∧ 0 ∉ l1 ++ c :: l2 ∧ Forall (known s) (l1 ++ c :: l2) ∧
  (cpus s).[id] = Done cpu ∧ current_thread cpu = c ∧ threads s !! c = Some t ∧
  m_critical t = 0 ∧ sched_counter t < 1000000 ∧ lock t = true ∧ sched_lock s = false.

Lemma schedule_enters id uptime s cpu l1 c l2 t :
  runs id s cpu l1 c l2 t →
  ∃ process, processes s !! parent t = Some process ∧
    schedule id uptime s =
      (r ← pick id uptime (S (length (l2 ++ l1 ++ [c]))) c; if (r : bool * Z).1 then leave id else run_idle id r.2)
        (entered id uptime c t process cpu s).
Proof.
  intros (Hr & Hnz & Hk & Hcpu & Hcur & Ht & Hcrit & Hcnt & Hlk & Hsl).
  assert (Hkc : known s c) by (rewrite Forall_app, Forall_cons in Hk; apply Hk). destruct Hkc as (t' & process & Ht' & Hpr & _).
  assert (t' = t) as -> by congruence. exists process. split; [done|].
  pose proof Hcpu as [Hid Hlookup]%rd_Done. pose proof (lookup_lt_Some _ _ _ Hlookup) as Hlt.
  destruct (ring_elem _ _ c Hr) as (a & _ & Ha & _ & Hin & _); [apply elem_of_app; right; by left|].
  assert (a ≠ 0) by (intros ->; done). unfold schedule. rewrite run_bind, (get_cpu_ok _ cpu) by done. cbn [fst snd].
  rewrite Hcur, run_bind, (get_thread_ok c t) by done. cbn [fst snd]. rewrite Hcrit. change (0 <? 0) with false. cbv iota.
  replace (sched_counter t >=? 1000000) with false by lia. rewrite run_bind. cbn [when mret stateM_ret fst snd andb].
  rewrite run_bind. cbn [gets fst snd]. rewrite Hsl, run_bind. cbn [modify fst snd]. unfold switch.
  rewrite run_bind, (get_cpu_ok _ cpu) by done. cbn [fst snd]. rewrite Hcur, run_bind, put_cpu_ok by (simpl; lia). cbn [fst snd].
  rewrite run_bind, (get_thread_ok c t) by done. cbn [fst snd]. rewrite run_bind, (thread_next_ok c a) by done. cbn [fst snd].
  rewrite run_bind, (get_proc_ok (parent t) process) by done. cbn [fst snd]. rewrite run_bind. cbn [put_proc modify fst snd].
  rewrite run_bind, Hlk. change (lift (spin_release true) ?s) with (@Done (bool * sched) (false, s)). cbn [fst snd].
  rewrite run_bind. cbn [put_thread modify fst snd]. rewrite run_bind. cbn [gets fst snd]. rewrite run_bind. cbn [gets fst snd].
  replace (a =? 0) with false by lia. cbn [thread_list set_threads set_cpus set_sched_lock].
  destruct Hr as (_ & _ & _ & Hsz & _). replace (Z.to_nat (size (thread_list s) + 1)) with (S (length (l2 ++ l1 ++ [c]))); [done|].
  rewrite Hsz, !length_app in *. simpl. lia.
Qed.

(** Releasing [sched_lock] at the end. *)
Lemma leave_ok id cpu s : sched_lock s = true → (cpus s).[id] = Done cpu →
  ∃ s', leave id s = Done (tt, s') ∧ sched_lock s' = false ∧ threads s' = threads s ∧ thread_list s' = thread_list s ∧ processes s' = processes s ∧
    cpus s' = <[Z.to_nat id := mk_cpu (current_thread cpu) (should_yield cpu) (u8 (in_interrupt cpu - 1)) (measurement_start_ns cpu)]> (cpus s).
Proof.
  intros Hl Hc. pose proof Hc as [Hid Hlk]%rd_Done. pose proof (lookup_lt_Some _ _ _ Hlk). unfold leave. rewrite run_bind. cbn [gets fst snd].
  rewrite Hl, run_bind. change (lift (spin_release true) ?s) with (@Done (bool * sched) (false, s)). cbn [fst snd].
  rewrite run_bind. cbn [modify fst snd]. rewrite run_bind, (get_cpu_ok _ cpu) by done. cbn [fst snd]. rewrite put_cpu_ok by (simpl; lia).
  eexists. split; [reflexivity|]. by split_and!.
Qed.


(** When no thread of the ring can run, the CPU gets its own
    idle thread. *)
Lemma schedule_falls_back_to_idle id uptime s cpu l1 c l2 t idle ti :
  runs id s cpu l1 c l2 t → Forall (λ q, eligible id uptime (released c t s) q = false) (l2 ++ l1 ++ [c]) →
  (idle_threads s).[id] = Done idle → idle ∉ l1 ++ c :: l2 → threads s !! idle = Some ti → is_Some (links (thread_list s) !! idle) →
  ∃ s' cpu', schedule id uptime s = Done (tt, s') ∧ (cpus s').[id] = Done cpu' ∧ current_thread cpu' = idle ∧
    sched_lock s' = false ∧ ring (l1 ++ c :: l2) (thread_list s').
Proof.
  intros Hruns Hnone Hidle Hni Hti Hli. destruct (schedule_enters id uptime s cpu l1 c l2 t Hruns) as (process & Hpr & ->).
  destruct Hruns as (Hr & Hnz & Hk & Hcpu & Hcur & Ht & _). set (s0 := entered id uptime c t process cpu s).
  pose proof Hcpu as [Hid Hlk]%rd_Done. pose proof (lookup_lt_Some _ _ _ Hlk).
  destruct (ring_elem _ _ c Hr) as (a & _ & Ha & _ & Hin & _); [apply elem_of_app; right; by left|].
  assert (Hall : ∀ q, q ∈ (l2 ++ l1 ++ [c]) ++ [a] → q ∈ l1 ++ c :: l2) by set_solver.
  destruct (pick_none id uptime s0 s0 c ((l2 ++ l1 ++ [c]) ++ [a])) as (s1 & Ht1 & Hpick).
  - apply touched_refl.
  - rewrite <-!app_assoc, app_assoc. change ((l2 ++ l1) ++ [c] ++ [a]) with ((l2 ++ l1) ++ c :: [a]). apply follows_app.
    split; [rewrite <-app_assoc; by apply ring_follows|]. done.
  - rewrite Forall_forall in Hk |- *. intros q Hq. apply entered_known; [done|done|]. apply Hk. by apply Hall.
  - rewrite Forall_forall in Hnone |- *. intros q Hq. unfold s0. rewrite (entered_eligible _ _ _ _ _ _ _ _ Hpr). apply Hnone.
    apply Hall in Hq. set_solver.
  - rewrite length_app in Hpick. cbn [length] in Hpick. rewrite Nat.add_1_r in Hpick. rewrite run_bind, Hpick. cbn [fst snd].
    rewrite last_snoc. cbn [default]. unfold run_idle. destruct Ht1 as [[ts Hs1] Htch].
    assert (Hti1 : ∃ ti1, threads s1 !! idle = Some ti1).
    { assert (Hti0 : threads s0 !! idle = Some ti) by (cbn [s0 entered threads]; rewrite lookup_insert_ne; [done|intros ->; set_solver]).
      destruct (Htch idle) as [->|(? & ? & _ & _ & ->)]; eauto. }
    destruct Hti1 as [ti1 Hti1]. rewrite run_bind. unfold get_idle at 1. rewrite Hs1. cbn [set_threads idle_threads s0 entered]. rewrite Hidle, bind_ret.
    cbn [fst snd]. rewrite run_bind. cbn [gets fst snd]. rewrite <-Hs1. rewrite run_bind, (get_thread_ok idle ti1) by done. cbn [fst snd].
    rewrite run_bind. cbn [put_thread modify fst snd]. rewrite Hs1.
    set (cpu0 := mk_cpu c (should_yield cpu) (u8 (in_interrupt cpu + 1)) uptime).
    rewrite run_bind. match goal with |- context[get_cpu id ?x] => set (s2 := x) end. rewrite (get_cpu_ok id cpu0 s2)
      by (apply rd_Done; split; [done|]; apply list_lookup_insert_eq; lia). cbn [fst snd].
    rewrite run_bind, put_cpu_ok by (cbn [s2 s0 set_threads entered cpus]; rewrite length_insert; lia). cbn [fst snd]. rewrite run_bind.
    unfold set_thread_next at 1. cbn [set_cpus thread_list s2 s0 set_threads entered].
    match goal with |- context[set_next idle ?v _] => destruct (ring_set_other _ (thread_list s) idle v Hr Hni Hli) as (tl' & -> & Hr' & _) end.
    rewrite bind_ret. cbn [fst snd]. set (s3 := set_list _ _).
    destruct (leave_ok id (mk_cpu idle (should_yield cpu0) (in_interrupt cpu0) (measurement_start_ns cpu0)) s3) as (s4 & -> & Hl4 & _ & Htl4 & _ & Hc4).
    { done. } { cbn [s3 set_list cpus set_cpus]. apply rd_Done. split; [done|]. apply list_lookup_insert_eq. cbn [set_threads cpus s0 entered s2]. rewrite length_insert. lia. }
    eexists s4, _. split; [done|]. split; [rewrite Hc4; apply rd_Done; split; [done|]; apply list_lookup_insert_eq|split; [reflexivity|split; [done|by rewrite Htl4]]].
    cbn [s3 set_list cpus set_cpus s2 set_threads s0 entered]. rewrite !length_insert. lia.
Qed.

(** ** Threads that never run *)

(** A thread of a process with a positive nice value whose counter is below what
    the nice value takes, and that runs nowhere. *)
Definition starving (p : Z) (s : sched) : Prop :=
  (∃ t process, threads s !! p = Some t ∧ processes s !! parent t = Some process ∧
     0 < nice process ≤ 20 ∧ 0 ≤ sched_counter t < 25000 * nice process) ∧
  p ∉ idle_threads s ∧ ∀ i cpu, cpus s !! i = Some cpu → current_thread cpu ≠ p.

Lemma bind_inv {A B} (m : M A) (f : A → M B) s b s' :
  (m ≫= f) s = Done (b, s') → ∃ a s1, m s = Done (a, s1) ∧ f a s1 = Done (b, s').
Proof. rewrite run_bind. destruct (m s) as [[a s1]| |]; [|done..]. intros H. by exists a, s1. Qed.

Lemma get_thread_inv p t s s' : get_thread p s = Done (t, s') → s' = s ∧ threads s !! p = Some t.
Proof. unfold get_thread. destruct (threads s !! p); naive_solver. Qed.
Lemma get_proc_inv p t s s' : get_proc p s = Done (t, s') → s' = s ∧ processes s !! p = Some t.
Proof. unfold get_proc. destruct (processes s !! p); naive_solver. Qed.
Lemma get_cpu_inv id c s s' : get_cpu id s = Done (c, s') → s' = s ∧ cpus s !! Z.to_nat id = Some c.
Proof. unfold get_cpu. intros (a & [_ Ha]%rd_Done & E)%bind_Done. by simplify_eq. Qed.

Section Starving.
Context (p : Z).

Lemma put_thread_starving q t s :
  starving p s → (q = p → ∃ t0, threads s !! p = Some t0 ∧ sched_counter t = sched_counter t0 ∧ parent t = parent t0) →
  starving p (set_threads (<[q := t]> (threads s)) s).
Proof.
  intros ((t1 & pr & H1 & H2 & H3) & Hi & Hc) Hq. split; [|done]. cbn [set_threads threads processes].
  destruct (decide (q = p)) as [->|Hne].
  - destruct (Hq eq_refl) as (t0 & E & Es & Ep). assert (t0 = t1) as -> by congruence. exists t, pr.
    rewrite lookup_insert_eq, Es, Ep. done.
  - exists t1, pr. by rewrite lookup_insert_ne.
Qed.

Lemma put_other_starving q t s : q ≠ p → starving p s → starving p (set_threads (<[q := t]> (threads s)) s).
Proof. intros Hq Hst. by apply put_thread_starving. Qed.

Lemma put_cpu_starving id c s u s' : starving p s → current_thread c ≠ p → put_cpu id c s = Done (u, s') → starving p s'.
Proof.
  intros (H1 & Hi & Hc) Hne (l & [_ ->]%wr_Done & E)%bind_Done. simplify_eq. split; [done|]. split; [done|].
  intros i cpu. cbn [set_cpus cpus]. rewrite list_lookup_insert_Some. intros [(_ & <- & _)|[_ Hl]]; [done|by eapply Hc].
Qed.

Lemma put_proc_starving q x s :
  starving p s → (∀ y, processes s !! q = Some y → nice x = nice y) →
  starving p (mk_sched (threads s) (<[q := x]> (processes s)) (thread_list s) (idle_threads s) (cpus s) (sched_lock s)).
Proof.
  intros ((t & pr & H1 & H2 & H3) & Hi & Hc) Hx. split; [|done]. destruct (decide (q = parent t)) as [->|].
  - exists t, x. cbn [threads processes]. rewrite lookup_insert_eq, (Hx pr H2). done.
  - exists t, pr. cbn [threads processes]. by rewrite lookup_insert_ne.
Qed.

(** The loop passes it by. *)
Lemma visit_starving id uptime q s b s' :
  starving p s → visit id uptime q s = Done (b, s') → starving p s' ∧ (b = true → q ≠ p).
Proof.
  intros Hst H. unfold visit in H. apply bind_inv in H as (t & s1 & [-> Ht]%get_thread_inv & H).
  destruct (wakes uptime t) as [st|]; [|by injection H as <- <-]. apply bind_inv in H as (u & s1 & E & H). injection E as <- <-.
  set (s1 := set_threads _ s) in H. assert (Hst1 : starving p s1) by (apply put_thread_starving; [done|]; intros ->; by exists t).
  apply bind_inv in H as (pr & s2 & [-> Hpr]%get_proc_inv & H).
  destruct (masked _ _); [by injection H as <- <-|]. destruct (Z.ltb_spec (credit t pr) 1000000) as [|Hcr]; [by injection H as <- <-|].
  destruct (lock t); [by injection H as <- <-|]. assert (Hqp : q ≠ p).
  { intros ->. destruct Hst as ((t1 & pr1 & E1 & E2 & Hn & Hc) & _). assert (t1 = t) as -> by congruence.
    cbn [s1 set_threads processes] in Hpr. assert (pr1 = pr) as -> by congruence. unfold credit in Hcr.
    destruct (Z.ltb_spec (nice pr) 0); [lia|]. rewrite swrap_small in Hcr by lia. lia. }
  apply bind_inv in H as (u & s2 & E & H). injection E as <- <-. set (s2 := set_threads _ s1) in H.
  apply bind_inv in H as (u & s3 & E & H). assert (s3 = s2) as -> by (unfold lift in E; destruct (aex_assert _); [|done..]; by injection E).
  apply bind_inv in H as (cpu & s4 & [-> _]%get_cpu_inv & H). apply bind_inv in H as (u' & s4 & Hput & H). injection H as <- <-.
  split; [|done]. eapply put_cpu_starving, Hput; [|done]. exact (put_other_starving q _ s1 Hqp Hst1).
Qed.

Lemma thread_next_inv q x s s' : thread_next q s = Done (x, s') → s' = s.
Proof. unfold thread_next. destruct (get_next _ _) as [[? ?]| |]; naive_solver. Qed.

Lemma pick_starving id uptime n q s r s' :
  starving p s → pick id uptime n q s = Done (r, s') → starving p s'.
Proof.
  revert q s. induction n as [|n IH]; intros q s Hst H; cbn [pick] in H; [by injection H as <- <-|].
  apply bind_inv in H as (x & s1 & ->%thread_next_inv & H). apply bind_inv in H as (b & s2 & Hv & H).
  destruct (visit_starving _ _ _ _ _ _ Hst Hv) as [Hst1 _]. destruct b; [by injection H as <- <-|]. by eapply IH.
Qed.

Lemma leave_starving id s u s' : starving p s → leave id s = Done (u, s') → starving p s'.
Proof.
  intros Hst H. unfold leave in H. apply bind_inv in H as (b & s1 & E & H). injection E as <- <-.
  apply bind_inv in H as (b & s1 & E & H). assert (s1 = s) as -> by (unfold lift in E; destruct (spin_release _); [|done..]; by injection E).
  apply bind_inv in H as (b' & s1 & E' & H). injection E' as <- <-.
  apply bind_inv in H as (cpu & s1 & [-> Hc]%get_cpu_inv & H). eapply put_cpu_starving, H; [done|].
  destruct Hst as (_ & _ & Hn). exact (Hn _ _ Hc).
Qed.

Lemma run_idle_starving id q s u s' : starving p s → run_idle id q s = Done (u, s') → starving p s'.
Proof.
  intros Hst H. unfold run_idle in H. apply bind_inv in H as (idle & s1 & E & H). unfold get_idle in E.
  apply bind_Done in E as (i & [_ Hi]%rd_Done & E). injection E as <- <-.
  assert (Hip : i ≠ p) by (intros ->; destruct Hst as (_ & Hn & _); apply Hn; by eapply list_elem_of_lookup_2).
  apply bind_inv in H as (h & s1 & E & H). injection E as <- <-. apply bind_inv in H as (t & s1 & [-> _]%get_thread_inv & H).
  apply bind_inv in H as (u1 & s1 & E & H). injection E as <- <-. apply bind_inv in H as (cpu & s2 & [-> _]%get_cpu_inv & H).
  apply bind_inv in H as (u2 & s2 & Hput & H).
  assert (Hst2 : starving p s2) by (eapply put_cpu_starving, Hput; [exact (put_other_starving i _ s Hip Hst)|done]).
  apply bind_inv in H as (u3 & s3 & E & H). eapply leave_starving, H. unfold set_thread_next in E.
  apply bind_Done in E as ([? ?] & _ & E). by injection E as <- <-.
Qed.

Lemma switch_starving id uptime s u s' : starving p s → switch id uptime s = Done (u, s') → starving p s'.
Proof.
  intros Hst H. unfold switch in H. apply bind_inv in H as (cpu & s1 & [-> Hc]%get_cpu_inv & H).
  assert (Hne : current_thread cpu ≠ p) by (destruct Hst as (_ & _ & Hn); by eapply Hn).
  apply bind_inv in H as (u1 & s1 & Hput & H). assert (Hst1 : starving p s1) by (by eapply put_cpu_starving, Hput).
  apply bind_inv in H as (t & s2 & [-> Ht]%get_thread_inv & H). apply bind_inv in H as (nx & s2 & ->%thread_next_inv & H).
  apply bind_inv in H as (pr & s2 & [-> Hpr]%get_proc_inv & H). apply bind_inv in H as (u2 & s2 & E & H). injection E as <- <-.
  apply bind_inv in H as (b & s2 & E & H). set (s3 := mk_sched _ _ _ _ _ _) in E.
  assert (s2 = s3) as -> by (unfold lift in E; destruct (spin_release _); [|done..]; by injection E).
  assert (Hst3 : starving p s3) by (apply put_proc_starving; [done|]; intros y Hy; cbn; congruence).
  apply bind_inv in H as (u3 & s4 & E4 & H). injection E4 as <- <-. apply bind_inv in H as (h & s4 & E4 & H). injection E4 as <- <-.
  apply bind_inv in H as (n & s4 & E4 & H). injection E4 as <- <-. apply bind_inv in H as (r & s4 & Hp & H).
  assert (Hst4 : starving p s4) by (eapply pick_starving, Hp; exact (put_other_starving (current_thread cpu) _ s3 Hne Hst3)).
  destruct r as [[] q]; [by eapply leave_starving, H|by eapply run_idle_starving, H].
Qed.

Lemma schedule_starving id uptime s u s' : starving p s → schedule id uptime s = Done (u, s') → starving p s'.
Proof.
  intros Hst H. unfold schedule in H. apply bind_inv in H as (cpu & s1 & [-> Hc]%get_cpu_inv & H).
  assert (Hne : current_thread cpu ≠ p) by (destruct Hst as (_ & _ & Hn); by eapply Hn).
  apply bind_inv in H as (t & s1 & [-> Ht]%get_thread_inv & H). destruct (0 <? m_critical t); [by eapply put_cpu_starving, H|].
  apply bind_inv in H as (u1 & s1 & E & H). assert (Hst1 : starving p s1).
  { destruct (_ >=? _); injection E as <- <-; [exact (put_other_starving (current_thread cpu) _ s Hne Hst)|done]. }
  destruct (_ && _); [by injection H as <- <-|]. apply bind_inv in H as (b & s2 & E2 & H). injection E2 as <- <-.
  destruct (sched_lock s1) eqn:El.
  - destruct (bool_decide _); [by injection H as <- <-|]. apply bind_inv in H as (b & s2 & E2 & H). done.
  - apply bind_inv in H as (u2 & s2 & E2 & H). injection E2 as <- <-. by eapply switch_starving, H.
Qed.

End Starving.

(** Timer interrupts: the CPU and the time of each. *)
Fixpoint schedules (calls : list (Z * Z)) : M unit :=
  match calls with [] => mret tt | (id, uptime) :: calls => schedule id uptime;; schedules calls end.

(** A waiting thread of a process with a positive nice value is
    never chosen again once its counter is below [25000 * nice]: the credit of a
    turn is compared but never saved, so it stays below the limit whatever the
    number of interrupts and CPUs, runnable or not. *)
Lemma positive_nice_starves p calls s s' :
  starving p s → schedules calls s = Done (tt, s') → ∀ i cpu, cpus s' !! i = Some cpu → current_thread cpu ≠ p.
Proof.
  revert s. induction calls as [|[id uptime] calls IH]; intros s Hst H; cbn [schedules] in H.
  - injection H as <-. apply Hst.
  - apply bind_inv in H as ([] & s1 & H1 & H). eapply IH, H. by eapply schedule_starving.
Qed.

(** ** Two threads *)

(** Threads 8 and 16 of process 1 on the ring, idle thread 24; thread 8 runs. *)
Definition demo_thread (running : bool) : Thread := mk_thread TS_RUNNABLE 0 1 0 0 running false 0 false.
Definition demo_list : clist := mk_clist (<[8 := (16, 16)]> (<[16 := (8, 8)]> (<[24 := (8, 0)]> ∅))) 2 8 16.
Definition demo (nice : Z) : sched :=
  mk_sched (<[8 := demo_thread true]> (<[16 := demo_thread false]> (<[24 := demo_thread false]> ∅)))
    (<[1 := mk_process nice 0 0]> ∅) demo_list [24] [mk_cpu 8 false 0 0] false.

Lemma demo_ring : ring [8; 16] demo_list.
Proof.
  split; [apply NoDup_cons; split; [set_solver|apply NoDup_singleton]|]. split_and!; vm_compute; tauto.
Qed.

Lemma demo_runs : runs 0 (demo 0) (mk_cpu 8 false 0 0) [] 8 [16] (demo_thread true).
Proof.
  split; [apply demo_ring|]. split; [set_solver|]. split; [|split_and!; done].
  repeat apply Forall_cons_2; [| |apply Forall_nil_2]; eexists _, _; (split; [reflexivity|split; [reflexivity|by vm_compute]]).
Qed.


(** Both threads blocked: the idle thread. *)
Definition demo_blocked : sched :=
  mk_sched (<[8 := with_status (demo_thread true) TS_BLOCKED]> (<[16 := with_status (demo_thread false) TS_BLOCKED]>
      (<[24 := demo_thread false]> ∅)))
    (<[1 := mk_process 0 0 0]> ∅) demo_list [24] [mk_cpu 8 false 0 0] false.

Lemma demo_blocked_runs : runs 0 demo_blocked (mk_cpu 8 false 0 0) [] 8 [16] (with_status (demo_thread true) TS_BLOCKED).
Proof.
  split; [apply demo_ring|]. split; [set_solver|]. split; [|split_and!; done].
  repeat apply Forall_cons_2; [| |apply Forall_nil_2]; eexists _, _; (split; [reflexivity|split; [reflexivity|by vm_compute]]).
Qed.

Lemma schedule_falls_back_to_idle_witness :
  ∃ s' cpu', schedule 0 5 demo_blocked = Done (tt, s') ∧ (cpus s').[0] = Done cpu' ∧ current_thread cpu' = 24.
Proof.
  destruct (schedule_falls_back_to_idle 0 5 demo_blocked (mk_cpu 8 false 0 0) [] 8 [16] (with_status (demo_thread true) TS_BLOCKED) 24
    (demo_thread false) demo_blocked_runs) as (s' & cpu' & H1 & H2 & H3 & _);
    [repeat constructor; reflexivity|reflexivity|set_solver|reflexivity|by eexists|].
  exists s', cpu'. split_and!; [exact H1|exact H2|exact H3].
Defined.

Lemma positive_nice_starves_witness :
  ∃ s', schedules [(0, 5); (0, 6); (0, 7)] (demo 5) = Done (tt, s') ∧ ∀ i cpu, cpus s' !! i = Some cpu → current_thread cpu ≠ 16.
Proof.
  eexists. split; [vm_compute; reflexivity|].
  apply (positive_nice_starves 16 [(0, 5); (0, 6); (0, 7)] (demo 5)); [|vm_compute; reflexivity].
  split; [eexists _, _; split_and!; [reflexivity|reflexivity|done..]|]. split; [set_solver|].
  intros [|[|i]] cpu E; by simplify_eq/=.
Defined.

End Sched.
