(* ===== verification/Containers.v ===== *)
(** * Containers

    [include/aex/mem/vector.hpp] and [include/aex/mem/lazyvector.hpp].  The array
    is the list of its elements; [Heap::realloc] keeps the elements that fit and
    zeroes the others (realloc_correct and malloc_correct of Heap), and of size 0
    it gives the null pointer, the empty list.  [zero] is an element of zero
    bytes.  Destructors of the elements are not modelled. *)
From S2P Require Import Prelude Math.
Local Open Scope Z_scope.

(** [Heap::realloc] of an array to [n] elements. *)
Definition realloc {T} (zero : T) (l : list T) (n : Z) : list T :=
  take (Z.to_nat n) l ++ replicate (Z.to_nat n - length l) zero.

Lemma realloc_length {T} (zero : T) l n : 0 ≤ n → Z.of_nat (length (realloc zero l n)) = n.
Proof. intros. unfold realloc. rewrite length_app, length_take, length_replicate. lia. Qed.

Lemma realloc_take {T} (zero : T) l n k : (k ≤ length l)%nat → Z.of_nat k ≤ n → take k (realloc zero l n) = take k l.
Proof.
  intros. unfold realloc. rewrite take_app_le by (rewrite length_take; lia). rewrite take_take. f_equal. lia.
Qed.

Module Vector.

Section Vector.
Context {T : Type} (zero : T) (chunk_count minimum_allocation : Z).

Record Vector := mk_vector { m_mem_count : Z; m_count : Z; m_array : list T }.

Definition empty : Vector := mk_vector 0 0 [].

(** [operator\[\]] and [at]: outside the vector it is the first element, which
    must exist. *)
Definition at_ (v : Vector) (index : Z) : outcome T :=
  if (index <? 0) || (index >=? m_count v) then (m_array v).[0] else (m_array v).[index].

Definition push (v : Vector) (val : T) : outcome (Z * Vector) :=
  let m_count := i32 (m_count v + 1) in
  let new_mem_count := int_ceil_i32 m_count chunk_count in
  let '(mem_count, array) :=
    if negb (new_mem_count =? m_mem_count v) then (new_mem_count, realloc zero (m_array v) new_mem_count)
    else (m_mem_count v, m_array v) in
  array ← array.[m_count - 1 := val];
  Done (m_count - 1, mk_vector mem_count m_count array).

Definition deallocCheck (v : Vector) : Vector :=
  let new_mem_count := int_ceil_i32 (m_count v) chunk_count in
  if negb (new_mem_count =? m_mem_count v) && (new_mem_count >? minimum_allocation)
  then mk_vector new_mem_count (m_count v) (realloc zero (m_array v) new_mem_count) else v.

(** The forward [memcpy] of [copy_amount] elements down by one.  It reads one
    element behind the array, the bytes [behind]. *)
Definition shift_down (behind : T) (l : list T) (index copy_amount : Z) : outcome (list T) :=
  bs ← get (l ++ [behind]) (index + 1) copy_amount; put l index bs.

Definition erase (behind : T) (v : Vector) (index : Z) : outcome Vector :=
  if (index <? 0) || (index >=? m_count v) then Done v
  else
    let copy_amount := m_mem_count v - index in
    array ← shift_down behind (m_array v) index copy_amount;
    Done (deallocCheck (mk_vector (m_mem_count v) (m_count v - 1) array)).

Definition clear (v : Vector) : Vector :=
  let v := deallocCheck (mk_vector (m_mem_count v) 0 (m_array v)) in
  mk_vector (m_mem_count v) (m_count v) (replicate (length (m_array v)) zero).

(** ** The list a vector stands for *)

Definition contents (v : Vector) : list T := take (Z.to_nat (m_count v)) (m_array v).

Definition inv (v : Vector) : Prop :=
  0 ≤ m_count v ≤ m_mem_count v ∧ m_mem_count v < 2 ^ 31 ∧ Z.of_nat (length (m_array v)) = m_mem_count v.

Hypothesis Hchunk : 0 < chunk_count < 2 ^ 16.

Lemma ceil_bounds n : 0 ≤ n < 2 ^ 30 → n ≤ int_ceil_i32 n chunk_count < 2 ^ 31 - 1.
Proof.
  intros Hn. pose proof (int_ceil_i32_spec n chunk_count ltac:(lia) ltac:(lia) ltac:(lia)). lia.
Qed.

Lemma vector_push_spec v val :
  inv v → m_count v < 2 ^ 30 - 1 →
  ∃ v', push v val = Done (m_count v, v') ∧ inv v' ∧ contents v' = contents v ++ [val] ∧ m_count v' = m_count v + 1.
Proof.
  intros (Hc & Hm & Hl) Hb. unfold push. rewrite swrap_small by lia. pose proof (ceil_bounds (m_count v + 1) ltac:(lia)) as Hce.
  set (n := int_ceil_i32 (m_count v + 1) chunk_count) in *.
  assert (Harr : ∃ mem array, (if negb (n =? m_mem_count v) then (n, realloc zero (m_array v) n) else (m_mem_count v, m_array v)) = (mem, array) ∧
     Z.of_nat (length array) = mem ∧ m_count v + 1 ≤ mem < 2 ^ 31 ∧ take (Z.to_nat (m_count v)) array = contents v).
  { destruct (Z.eqb_spec n (m_mem_count v)) as [E|E]; cbn [negb]; eexists _, _; (split; [reflexivity|]).
    - split_and!; [done|lia..|done].
    - split_and!; [apply realloc_length; lia|lia..|]. apply realloc_take; lia. }
  destruct Harr as (mem & array & -> & Hla & Hmem & Hta). replace (m_count v + 1 - 1) with (m_count v) by lia.
  rewrite wr_in_range by lia. cbn [mbind outcome_bind]. eexists. split; [reflexivity|]. unfold inv, contents. cbn [m_count m_mem_count m_array].
  split_and!; try lia; [rewrite length_insert; lia|]. rewrite Z2Nat.inj_add by lia. change (Z.to_nat 1) with 1%nat. rewrite Nat.add_1_r.
  erewrite take_S_r by (apply list_lookup_insert_eq; lia). rewrite take_insert_ge by lia. by rewrite Hta.
Qed.

Lemma dealloc_spec v : inv v → m_count v < 2 ^ 30 → inv (deallocCheck v) ∧ contents (deallocCheck v) = contents v ∧ m_count (deallocCheck v) = m_count v.
Proof.
  intros (Hc & Hm & Hl) Hb. unfold deallocCheck. pose proof (ceil_bounds (m_count v) ltac:(lia)) as Hce. destruct (_ && _) eqn:E; [|done].
  unfold inv, contents. cbn [m_count m_mem_count m_array]. split_and!; try lia; [apply realloc_length; lia|]. apply realloc_take; lia.
Qed.

Lemma shift_spec behind l index :
  0 ≤ index < Z.of_nat (length l) →
  shift_down behind l index (Z.of_nat (length l) - index) = Done (take (Z.to_nat index) l ++ drop (S (Z.to_nat index)) l ++ [behind]).
Proof.
  intros Hi. unfold shift_down. rewrite get_eq by (rewrite ?length_app; simpl; lia). cbn [mbind outcome_bind].
  rewrite take_ge by (rewrite length_drop, length_app; simpl; lia). replace (Z.to_nat (index + 1)) with (S (Z.to_nat index)) by lia.
  rewrite drop_app_le by lia. rewrite put_eq by (rewrite ?length_app, ?length_drop; simpl; lia). f_equal. f_equal.
  rewrite (drop_ge l (Z.to_nat index + _)) by (rewrite ?length_app, ?length_drop; simpl; lia). by rewrite app_nil_r.
Qed.

Lemma vector_erase_spec behind v index :
  inv v → m_count v < 2 ^ 30 → 0 ≤ index < m_count v →
  ∃ v', erase behind v index = Done v' ∧ inv v' ∧ contents v' = delete (Z.to_nat index) (contents v).
Proof.
  intros (Hc & Hm & Hl) Hb Hi. unfold erase. replace ((index <? 0) || (index >=? m_count v)) with false by lia.
  rewrite <-Hl, shift_spec by lia. cbn [mbind outcome_bind]. eexists. split; [reflexivity|].
  set (array := take _ _ ++ _). assert (Hla : length array = length (m_array v)).
  { unfold array. rewrite !length_app, length_take, length_drop. simpl. lia. }
  destruct (dealloc_spec (mk_vector (Z.of_nat (length (m_array v))) (m_count v - 1) array)) as (Hinv & Hcon & _).
  { unfold inv. cbn [m_count m_mem_count m_array]. lia. } { cbn [m_count]. lia. }
  split; [done|]. rewrite Hcon. unfold contents. cbn [m_count m_array]. rewrite delete_take_drop, take_take, Nat.min_l by lia. unfold array.
  rewrite app_assoc, take_app_le by (rewrite length_app, length_take, length_drop; lia).
  rewrite take_app_ge by (rewrite length_take; lia). f_equal. rewrite length_take, Nat.min_l by lia.
  rewrite take_drop_commute. do 2 f_equal. lia.
Qed.

(** A vector is a list: [push] appends and returns the index,
    [erase] deletes the element at a valid index and is nothing at any other,
    whatever bytes lie behind the array, [clear] empties it, and [at] reads a
    valid index, through every growing and shrinking of the array. *)
Lemma vector_refines_list v :
  inv v → m_count v < 2 ^ 30 - 1 →
  (∀ val, ∃ v', push v val = Done (Z.of_nat (length (contents v)), v') ∧ inv v' ∧ contents v' = contents v ++ [val]) ∧
  (∀ behind index, ∃ v', erase behind v index = Done v' ∧ inv v' ∧
     contents v' = if decide (0 ≤ index < m_count v) then delete (Z.to_nat index) (contents v) else contents v) ∧
  (inv (clear v) ∧ contents (clear v) = []) ∧
  (∀ index a, contents v !! index = Some a → at_ v (Z.of_nat index) = Done a).
Proof.
  intros Hinv Hb. pose proof Hinv as (Hc & Hm & Hl).
  assert (Hlen : Z.of_nat (length (contents v)) = m_count v) by (unfold contents; rewrite length_take; lia).
  split_and!.
  - intros val. rewrite Hlen. destruct (vector_push_spec v val Hinv Hb) as (v' & H1 & H2 & H3 & _). by exists v'.
  - intros behind index. case_decide as Hi; [by apply vector_erase_spec; [done|lia|]|]. exists v. split; [|done]. unfold erase.
    by replace ((index <? 0) || (index >=? m_count v)) with true by lia.
  - destruct (dealloc_spec (mk_vector (m_mem_count v) 0 (m_array v))) as ((H1 & H2 & H3) & _ & H4); [unfold inv; simpl; lia|simpl; lia|].
    unfold inv, clear. cbn [m_count m_mem_count m_array]. split_and!; try lia. by rewrite length_replicate.
  - unfold clear, contents. cbn [m_count m_array]. destruct (dealloc_spec (mk_vector (m_mem_count v) 0 (m_array v))) as (_ & _ & H4);
      [unfold inv; simpl; lia|simpl; lia|]. by rewrite H4.
  - intros index a Ha. pose proof (lookup_lt_Some _ _ _ Ha). unfold at_.
    replace ((Z.of_nat index <? 0) || (Z.of_nat index >=? m_count v)) with false by lia. apply rd_Done. split; [lia|].
    rewrite Nat2Z.id. unfold contents in Ha. by rewrite lookup_take_Some in Ha; destruct Ha.
Qed.

End Vector.

(** Seventeen elements, in two chunks. *)
Definition demo : @Vector Z := mk_vector 32 17 (replicate 17 7 ++ replicate 15 0).

Lemma vector_demo_inv : inv demo.
Proof. by vm_compute. Qed.

Lemma vector_refines_list_witness :
  ∃ v', erase 0 16 (-1) 0x5A demo 3 = Done v' ∧ inv v' ∧ contents v' = delete 3%nat (contents demo).
Proof.
  destruct (vector_refines_list 0 16 (-1) ltac:(done) demo vector_demo_inv ltac:(done)) as (_ & Herase & _).
  exact (Herase 0x5A 3).
Defined.

End Vector.

Module LazyVector.

Section LazyVector.
Context {T : Type} (zero : T).

(** [optional<T>]; the array holds zeroed ones where nothing was stored. *)
Record slot := mk_slot { has_value : bool; value : T }.
Definition free_slot : slot := mk_slot false zero.

Record LazyVector := mk_lazy { m_count : Z; m_rcount : Z; m_array : list slot }.

Definition empty : LazyVector := mk_lazy 0 0 [].

(** [resize] after [m_count] changed. *)
Definition resize (v : LazyVector) : LazyVector :=
  mk_lazy (m_count v) (m_rcount v) (realloc free_slot (m_array v) (m_count v)).

Definition at_ (v : LazyVector) (index : Z) : outcome T :=
  s ← (m_array v).[if (index <? 0) || (index >=? m_count v) then 0 else index]; Done (value s).

Definition present (v : LazyVector) (index : Z) : outcome bool :=
  if (index <? 0) || (index >=? m_count v) then Done false
  else s ← (m_array v).[index]; Done (has_value s).

Definition set (v : LazyVector) (index : Z) (val : T) : outcome LazyVector :=
  let v := if index >=? m_count v then resize (mk_lazy (i32 (index + 1)) (m_rcount v) (m_array v)) else v in
  s ← (m_array v).[index];
  let rcount := if negb (has_value s) then i32 (m_rcount v + 1) else m_rcount v in
  a ← (m_array v).[index := mk_slot true val];
  _ ← aex_assert (rcount <=? m_count v);
  Done (mk_lazy (m_count v) rcount a).

(** The first free slot. *)
Fixpoint find_free (l : list slot) (i : Z) : option Z :=
  match l with [] => None | s :: l => if has_value s then find_free l (i + 1) else Some i end.

Definition push (v : LazyVector) (val : T) : outcome (Z * LazyVector) :=
  let rcount := i32 (m_rcount v + 1) in
  match find_free (m_array v) 0 with
  | Some i => a ← (m_array v).[i := mk_slot true val]; Done (i, mk_lazy (m_count v) rcount a)
  | None =>
      let v := resize (mk_lazy (i32 (m_count v + 1)) rcount (m_array v)) in
      a ← (m_array v).[m_count v - 1 := mk_slot true val];
      _ ← aex_assert (rcount <=? m_count v);
      Done (m_count v - 1, mk_lazy (m_count v) rcount a)
  end.

(** [while (m_count > 0 && !m_array\[m_count - 1\].has_value) m_count--]. *)
Fixpoint trim (l : list slot) (n : nat) : nat :=
  match n with
  | O => O
  | S n' => match l !! n' with Some s => if has_value s then n else trim l n' | None => n end
  end.

Definition erase (v : LazyVector) (index : Z) : outcome LazyVector :=
  if (index <? 0) || (index >=? m_count v) then Done v
  else
    let rcount := i32 (m_rcount v - 1) in
    a ← (m_array v).[index := free_slot];
    let count := Z.of_nat (trim a (Z.to_nat (m_count v))) in
    let v := if negb (count =? m_count v) then resize (mk_lazy count rcount a) else mk_lazy count rcount a in
    _ ← aex_assert (m_rcount v <=? m_count v);
    Done v.

(** [~LazyVector]. *)
Definition destroy (v : LazyVector) : LazyVector := resize (mk_lazy 0 0 (m_array v)).

(** ** The slots a vector stands for *)

Definition slot_view (s : slot) : option T := if has_value s then Some (value s) else None.
Definition contents (v : LazyVector) : list (option T) := slot_view <$> m_array v.

Fixpoint filled (l : list slot) : Z :=
  match l with [] => 0 | s :: l => (if has_value s then 1 else 0) + filled l end.

(** The counters count, and the last slot holds a value. *)
Definition inv (v : LazyVector) : Prop :=
  m_count v = Z.of_nat (length (m_array v)) ∧ m_rcount v = filled (m_array v) ∧ m_count v < 2 ^ 31 - 1 ∧
  ∀ s, last (m_array v) = Some s → has_value s = true.

Lemma filled_bound l : 0 ≤ filled l ≤ Z.of_nat (length l).
Proof. induction l as [|s l IH]; simpl; [lia|]. destruct (has_value s); lia. Qed.

Lemma filled_app l k : filled (l ++ k) = filled l + filled k.
Proof. induction l as [|s l IH]; simpl; [done|]. rewrite IH. lia. Qed.

Lemma filled_insert l i s s' : l !! i = Some s → filled (<[i := s']> l) = filled l - (if has_value s then 1 else 0) + (if has_value s' then 1 else 0).
Proof.
  revert i. induction l as [|x l IH]; intros i Hi; [done|]. destruct i as [|i]; simpl in *; [simplify_eq; lia|]. rewrite (IH i Hi). lia.
Qed.

Lemma filled_free n : filled (replicate n free_slot) = 0.
Proof. induction n; simpl; lia. Qed.

(** [push] takes the lowest free index. *)
Lemma find_free_spec l k :
  match find_free l k with
  | Some i => ∃ n s, i = k + Z.of_nat n ∧ l !! n = Some s ∧ has_value s = false ∧ ∀ m s, (m < n)%nat → l !! m = Some s → has_value s = true
  | None => ∀ s, s ∈ l → has_value s = true
  end.
Proof.
  revert k. induction l as [|x l IH]; intros k; simpl; [by intros s ?%elem_of_nil|]. destruct (has_value x) eqn:E.
  - specialize (IH (k + 1)). destruct (find_free l (k + 1)) as [i|].
    + destruct IH as (n & s & -> & Hn & Hs & Hlt). exists (S n), s. split_and!; [lia|done|done|]. intros [|m] s' Hm Hl; simpl in *; [by simplify_eq|].
      apply (Hlt m s'); [lia|done].
    + intros s [->|Hs]%elem_of_cons; [done|by apply IH].
  - exists 0%nat, x. split_and!; [lia|done|done|lia].
Qed.

Lemma lazy_push_spec v val :
  inv v → m_count v < 2 ^ 30 →
  ∃ i v', push v val = Done (Z.of_nat i, v') ∧ inv v' ∧
    (contents v !! i = Some None ∧ contents v' = <[i := Some val]> (contents v) ∨
     i = length (contents v) ∧ contents v' = contents v ++ [Some val]) ∧
    (∀ j, (j < i)%nat → ∃ x, contents v !! j = Some (Some x)).
Proof.
  intros (Hc & Hr & Hb & Hlast) Hsm. pose proof (filled_bound (m_array v)) as Hfb. unfold push. rewrite (swrap_small 32 (m_rcount v + 1)) by lia.
  pose proof (find_free_spec (m_array v) 0) as Hf. destruct (find_free (m_array v) 0) as [i|].
  - destruct Hf as (n & s & -> & Hn & Hs & Hlt). rewrite Z.add_0_l. pose proof (lookup_lt_Some _ _ _ Hn). rewrite wr_in_range by lia. rewrite Nat2Z.id.
    cbn [mbind outcome_bind]. exists n. eexists. split; [reflexivity|]. split_and!.
    + unfold inv; cbn [m_count m_rcount m_array]. rewrite length_insert, (filled_insert _ _ _ _ Hn), Hs. cbn [has_value]. split_and!; try lia.
      intros s' Hl. apply last_lookup in Hl || rewrite last_lookup in Hl. rewrite length_insert in Hl.
      apply list_lookup_insert_Some in Hl as [(_ & <- & _)|[_ Hl]]; [done|]. apply Hlast. by rewrite last_lookup.
    + left. unfold contents. cbn [m_array]. rewrite list_lookup_fmap, Hn, list_fmap_insert. simpl. unfold slot_view at 1. by rewrite Hs.
    + intros j Hj. destruct (lookup_lt_is_Some_2 (m_array v) j) as [x Hx]; [lia|]. exists (value x). unfold contents.
      rewrite list_lookup_fmap, Hx. simpl. unfold slot_view. by rewrite (Hlt j x Hj Hx).
  - rewrite (swrap_small 32 (m_count v + 1)) by lia. unfold resize. cbn [m_count m_rcount m_array].
    assert (Hre : realloc free_slot (m_array v) (m_count v + 1) = m_array v ++ [free_slot]).
    { unfold realloc. rewrite take_ge by lia. f_equal. by replace (Z.to_nat (m_count v + 1) - length (m_array v))%nat with 1%nat by lia. }
    rewrite Hre, wr_in_range by (rewrite length_app; simpl; lia). cbn [mbind outcome_bind].
    replace (m_rcount v + 1 <=? m_count v + 1) with true by lia. cbn [aex_assert mbind outcome_bind].
    replace (m_count v + 1 - 1) with (Z.of_nat (length (m_array v))) by lia. rewrite Nat2Z.id.
    assert (Hins : <[length (m_array v) := mk_slot true val]> (m_array v ++ [free_slot]) = m_array v ++ [mk_slot true val]).
    { rewrite insert_app_r_alt, Nat.sub_diag by lia. done. }
    rewrite Hins. exists (length (m_array v)). eexists. split; [reflexivity|]. split_and!.
    + unfold inv; cbn [m_count m_rcount m_array]. rewrite length_app, filled_app. simpl. split_and!; try lia.
      intros s. rewrite last_snoc. by intros [= <-].
    + right. unfold contents. cbn [m_array]. by rewrite length_fmap, fmap_app.
    + intros j Hj. destruct (lookup_lt_is_Some_2 (m_array v) j) as [x Hx]; [lia|]. exists (value x). unfold contents.
      rewrite list_lookup_fmap, Hx. simpl. unfold slot_view. by rewrite (Hf x) by (by eapply list_elem_of_lookup_2).
Qed.

(** *** The map from indices to values *)

Definition val (v : LazyVector) (i : nat) : option T := s ← m_array v !! i; slot_view s.

Lemma val_contents v i : val v i = mjoin (contents v !! i).
Proof. unfold val, contents. rewrite list_lookup_fmap. by destruct (m_array v !! i). Qed.

Lemma trim_spec l n :
  (n ≤ length l)%nat → (trim l n ≤ n)%nat ∧ (∀ j s, (trim l n ≤ j < n)%nat → l !! j = Some s → has_value s = false) ∧
  (∀ s, l !! (trim l n - 1)%nat = Some s → (0 < trim l n)%nat → has_value s = true).
Proof.
  induction n as [|n IH]; intros Hn; simpl; [split_and!; [lia|lia|lia]|].
  destruct (lookup_lt_is_Some_2 l n) as [x Hx]; [lia|]. rewrite Hx. destruct (has_value x) eqn:E.
  - split_and!; [lia|lia|]. intros s Hs _. replace (S n - 1)%nat with n in Hs by lia. by simplify_eq.
  - destruct IH as (H1 & H2 & H3); [lia|]. split_and!; [lia| |done]. intros j s Hj Hs.
    destruct (decide (j = n)) as [->|]; [by simplify_eq|]. apply (H2 j s); [lia|done].
Qed.

Lemma lazy_erase_spec v i x :
  inv v → val v i = Some x →
  ∃ v', erase v (Z.of_nat i) = Done v' ∧ inv v' ∧ ∀ j, val v' j = if decide (j = i) then None else val v j.
Proof.
  intros (Hc & Hr & Hb & Hlast) Hi. unfold val in Hi. apply bind_Some in Hi as (s & Hs & Hv). unfold slot_view in Hv.
  destruct (has_value s) eqn:Ehs; [|done]. pose proof (lookup_lt_Some _ _ _ Hs) as Hlt. pose proof (filled_bound (m_array v)).
  unfold erase. replace ((Z.of_nat i <? 0) || (Z.of_nat i >=? m_count v)) with false by lia.
  rewrite wr_in_range, Nat2Z.id by lia. cbn [mbind outcome_bind]. set (a := <[i := free_slot]> (m_array v)).
  assert (Hla : length a = length (m_array v)) by (unfold a; by rewrite length_insert).
  assert (Hfa : filled a = filled (m_array v) - 1) by (unfold a; rewrite (filled_insert _ _ _ _ Hs), Ehs; simpl; lia).
  pose proof (filled_bound a). rewrite (swrap_small 32 (m_rcount v - 1)) by lia.
  destruct (trim_spec a (Z.to_nat (m_count v))) as (Ht1 & Ht2 & Ht3); [lia|]. set (k := trim a (Z.to_nat (m_count v))) in *.
  assert (Htake : filled (take k a) = filled a).
  { assert (Hsp : filled a = filled (take k a) + filled (drop k a)) by (by rewrite <-filled_app, take_drop). rewrite Hsp. assert (Hd : ∀ l, (∀ s, s ∈ l → has_value s = false) → filled l = 0).
    { induction l as [|y l IH]; intros Hl; simpl; [done|]. rewrite (Hl y) by (by left). rewrite IH; [done|]. intros z Hz. apply Hl. by right. }
    rewrite (Hd (drop k a)); [lia|]. intros y [j Hj]%list_elem_of_lookup_1. rewrite lookup_drop in Hj. pose proof (lookup_lt_Some _ _ _ Hj).
    apply (Ht2 (k + j)%nat); [lia|done]. }
  pose proof (filled_bound (take k a)) as Hft. rewrite length_take in Hft.
  assert (Hfin : (if negb (Z.of_nat k =? m_count v) then resize (mk_lazy (Z.of_nat k) (m_rcount v - 1) a) else mk_lazy (Z.of_nat k) (m_rcount v - 1) a)
    = mk_lazy (Z.of_nat k) (m_rcount v - 1) (take k a)).
  { destruct (Z.eqb_spec (Z.of_nat k) (m_count v)); cbn [negb].
    - f_equal. symmetry. apply take_ge. lia.
    - unfold resize, realloc. cbn [m_count m_rcount m_array]. rewrite Nat2Z.id. f_equal.
      replace (k - length a)%nat with 0%nat by lia. by rewrite app_nil_r. }
  rewrite Hfin. cbn [m_count m_rcount]. replace (m_rcount v - 1 <=? Z.of_nat k) with true by lia. cbn [aex_assert mbind outcome_bind].
  eexists. split; [reflexivity|]. split.
  - unfold inv; cbn [m_count m_rcount m_array]. rewrite length_take. split_and!; try lia. intros y Hy. rewrite last_lookup, length_take in Hy.
    assert (0 < k)%nat by (destruct k; [by simpl in Hy|lia]). rewrite lookup_take_lt in Hy by lia. apply Ht3; [|done].
    by replace (k - 1)%nat with (pred (k `min` length a))%nat by lia.
  - intros j. unfold val. cbn [m_array]. destruct (decide (j < k)%nat) as [Hj|Hj].
    + rewrite lookup_take_lt by lia. unfold a. case_decide as E; [subst; by rewrite list_lookup_insert_eq by lia|by rewrite list_lookup_insert_ne].
    + rewrite lookup_ge_None_2 by (rewrite length_take; lia). simpl. case_decide; [done|].
      destruct (m_array v !! j) as [y|] eqn:Ey; [|done]. simpl. unfold slot_view. pose proof (lookup_lt_Some _ _ _ Ey).
      rewrite (Ht2 j y); [done|lia|]. unfold a. by rewrite list_lookup_insert_ne.
Qed.

Lemma set_spec v i x :
  inv v → m_count v < 2 ^ 30 → Z.of_nat i < 2 ^ 30 →
  ∃ v', set v (Z.of_nat i) x = Done v' ∧ inv v' ∧ ∀ j, val v' j = if decide (j = i) then Some x else val v j.
Proof.
  intros (Hc & Hr & Hb & Hlast) Hsm Hi. pose proof (filled_bound (m_array v)) as Hfb. unfold set.
  rewrite (swrap_small 32 (Z.of_nat i + 1)) by lia.
  set (w := if Z.of_nat i >=? m_count v then resize (mk_lazy (Z.of_nat i + 1) (m_rcount v) (m_array v)) else v).
  assert (Hw : m_count w = Z.of_nat (length (m_array w)) ∧ m_rcount w = filled (m_array w) ∧ m_count w < 2 ^ 31 - 1 ∧ Z.of_nat i < m_count w ∧
    (∀ j, val w j = val v j) ∧ (∀ s, last (m_array w) = Some s → has_value s = true ∨ S i = length (m_array w))).
  { unfold w. destruct (Z.geb_spec (Z.of_nat i) (m_count v)) as [Hge|Hlt]; [|split_and!; try done; try lia; intros s Hs; left; by apply Hlast].
    unfold resize. cbn [m_count m_rcount m_array].
    assert (Hre : realloc free_slot (m_array v) (Z.of_nat i + 1) = m_array v ++ replicate (S i - length (m_array v)) free_slot).
    { unfold realloc. rewrite take_ge by lia. do 3 f_equal. lia. }
    rewrite Hre, length_app, length_replicate, filled_app, filled_free. split_and!; try lia.
    intros j. unfold val. cbn [m_array]. destruct (decide (j < length (m_array v))%nat); [by rewrite lookup_app_l by lia|].
    rewrite (lookup_ge_None_2 (m_array v)) by lia. rewrite lookup_app_r by lia. simpl.
    destruct (replicate _ free_slot !! _) as [y|] eqn:Ey; [|done]. apply lookup_replicate in Ey as [-> _]. done. }
  destruct Hw as (W1 & W2 & W3 & W4 & W5 & W6). destruct (rd_in_range (m_array w) (Z.of_nat i)) as (s & -> & Hs); [lia|]. rewrite Nat2Z.id in Hs.
  pose proof (filled_bound (m_array w)). cbn [mbind outcome_bind]. rewrite wr_in_range by lia. cbn [mbind outcome_bind]. rewrite Nat2Z.id.
  pose proof (filled_insert (m_array w) i s (mk_slot true x) Hs) as Hfi. cbn [has_value] in Hfi.
  pose proof (filled_bound (<[i := mk_slot true x]> (m_array w))) as Hfb'. rewrite length_insert in Hfb'.
  assert (Hrc : (if negb (has_value s) then i32 (m_rcount w + 1) else m_rcount w) = filled (<[i := mk_slot true x]> (m_array w))).
  { destruct (has_value s); cbn [negb]; [lia|]. rewrite swrap_small by lia. lia. }
  rewrite Hrc. replace (filled (<[i := mk_slot true x]> (m_array w)) <=? m_count w) with true by lia. cbn [aex_assert mbind outcome_bind].
  eexists. split; [reflexivity|]. split.
  - unfold inv; cbn [m_count m_rcount m_array]. rewrite length_insert. split_and!; try lia. intros y Hy. rewrite last_lookup, length_insert in Hy.
    apply list_lookup_insert_Some in Hy as [(_ & <- & _)|[Hne Hy]]; [done|]. destruct (W6 y) as [?|?]; [by rewrite last_lookup|done|lia].
  - intros j. unfold val at 1. cbn [m_array]. case_decide as E; [subst; by rewrite list_lookup_insert_eq by lia|].
    rewrite list_lookup_insert_ne by done. apply W5.
Qed.

Lemma lazy_present v i : inv v → present v (Z.of_nat i) = Done (bool_decide (is_Some (val v i))).
Proof.
  intros (Hc & _). unfold present, val. destruct (m_array v !! i) as [s|] eqn:E.
  - pose proof (lookup_lt_Some _ _ _ E). replace ((Z.of_nat i <? 0) || (Z.of_nat i >=? m_count v)) with false by lia.
    rewrite (proj2 (rd_Done (m_array v) (Z.of_nat i) s)) by (rewrite Nat2Z.id; split; [lia|done]). simpl. unfold slot_view.
    by destruct (has_value s).
  - apply lookup_ge_None_1 in E. replace ((Z.of_nat i <? 0) || (Z.of_nat i >=? m_count v)) with true by lia. done.
Qed.

Lemma lazy_at v i x : inv v → val v i = Some x → at_ v (Z.of_nat i) = Done x.
Proof.
  intros (Hc & _) (s & E & Hv)%bind_Some. pose proof (lookup_lt_Some _ _ _ E). unfold at_.
  replace ((Z.of_nat i <? 0) || (Z.of_nat i >=? m_count v)) with false by lia.
  rewrite (proj2 (rd_Done (m_array v) (Z.of_nat i) s)) by (rewrite Nat2Z.id; split; [lia|done]). simpl. unfold slot_view in Hv.
  destruct (has_value s); by simplify_eq.
Qed.

(** Indices from [m_count] on are not bound. *)
Lemma lazy_beyond v i : inv v → m_count v ≤ Z.of_nat i → val v i = None.
Proof. intros (Hc & _) Hi. unfold val. by rewrite lookup_ge_None_2 by lia. Qed.

(** A lazy vector is a map from indices to values: [push] binds
    the lowest free index and returns it, [set] binds any index, [erase] unbinds
    a bound one, [present] and [at] read, and the counters stay the number of
    bindings and one more than the highest bound index. *)
Lemma lazyvector_refines_map v :
  inv v → m_count v < 2 ^ 30 →
  (∀ x, ∃ i v', push v x = Done (Z.of_nat i, v') ∧ inv v' ∧ val v i = None ∧ (∀ j, (j < i)%nat → is_Some (val v j)) ∧
     ∀ j, val v' j = if decide (j = i) then Some x else val v j) ∧
  (∀ i x, Z.of_nat i < 2 ^ 30 → ∃ v', set v (Z.of_nat i) x = Done v' ∧ inv v' ∧ ∀ j, val v' j = if decide (j = i) then Some x else val v j) ∧
  (∀ i x, val v i = Some x → ∃ v', erase v (Z.of_nat i) = Done v' ∧ inv v' ∧ ∀ j, val v' j = if decide (j = i) then None else val v j) ∧
  (∀ i, present v (Z.of_nat i) = Done (bool_decide (is_Some (val v i)))) ∧
  (∀ i x, val v i = Some x → at_ v (Z.of_nat i) = Done x).
Proof.
  intros Hinv Hb. pose proof Hinv as (Hc & _). split_and!.
  - intros x. destruct (lazy_push_spec v x Hinv Hb) as (i & v' & He & Hi & Hcase & Hlow). exists i, v'. split; [done|]. split; [done|].
    assert (Hnone : val v i = None).
    { rewrite val_contents. destruct Hcase as [[-> _]|[-> _]]; [done|]. by rewrite lookup_ge_None_2. }
    split; [done|]. split; [intros j Hj; destruct (Hlow j Hj) as [y Hy]; rewrite val_contents, Hy; by eexists|].
    intros j. rewrite !val_contents. destruct Hcase as [[Hn ->]|[-> ->]].
    + case_decide as E; [subst; by rewrite list_lookup_insert_eq by (by eapply lookup_lt_Some)|by rewrite list_lookup_insert_ne].
    + case_decide as E; [subst; by rewrite lookup_app_r, Nat.sub_diag by lia|]. destruct (decide (j < length (contents v))%nat).
      * by rewrite lookup_app_l.
      * rewrite !lookup_ge_None_2; [done|lia|rewrite length_app; simpl; lia].
  - intros i x Hi. by apply set_spec.
  - intros i x Hx. by eapply lazy_erase_spec.
  - intros i. by apply lazy_present.
  - intros i x Hx. by apply lazy_at.
Qed.

(** [erase] of an index below [count] that holds nothing still
    lowers [m_rcount], which then is no longer the number of values. *)
Lemma erase_absent_undercounts v i :
  inv v → Z.of_nat i < m_count v → val v i = None →
  ∃ v', erase v (Z.of_nat i) = Done v' ∧ m_rcount v' = filled (m_array v') - 1.
Proof.
  intros (Hc & Hr & Hb & Hlast) Hi Hn. destruct (lookup_lt_is_Some_2 (m_array v) i) as [s Hs]; [lia|].
  unfold val in Hn. rewrite Hs in Hn. simpl in Hn. unfold slot_view in Hn. destruct (has_value s) eqn:E; [done|].
  pose proof (filled_bound (m_array v)) as Hfb. unfold erase. replace ((Z.of_nat i <? 0) || (Z.of_nat i >=? m_count v)) with false by lia.
  rewrite wr_in_range, Nat2Z.id by lia. cbn [mbind outcome_bind]. rewrite swrap_small by lia. set (a := <[i := free_slot]> (m_array v)).
  assert (Hla : length a = length (m_array v)) by (unfold a; by rewrite length_insert).
  assert (Hfa : filled a = filled (m_array v)) by (unfold a; rewrite (filled_insert _ _ _ _ Hs), E; simpl; lia).
  assert (Htrim : trim a (Z.to_nat (m_count v)) = Z.to_nat (m_count v)).
  { replace (Z.to_nat (m_count v)) with (S (pred (length a))) by lia. cbn [trim].
    destruct (lookup_lt_is_Some_2 (m_array v) (pred (length a))) as [y Hy]; [lia|].
    assert (Hne : i ≠ pred (length a)).
    { intros Ei. assert (has_value s = true) by (apply Hlast; by rewrite last_lookup, <-Hla, <-Ei). congruence. }
    assert (Hay : a !! pred (length a) = Some y) by (change (<[i := free_slot]> (m_array v) !! pred (length a) = Some y); by rewrite list_lookup_insert_ne). rewrite Hay.
    by rewrite (Hlast y) by (by rewrite last_lookup, <-Hla). }
  rewrite Htrim, Z2Nat.id by lia. rewrite Z.eqb_refl. cbn [negb m_rcount m_count].
  replace (m_rcount v - 1 <=? m_count v) with true by lia. cbn [aex_assert mbind outcome_bind]. eexists. split; [reflexivity|].
  cbn [m_rcount m_array]. lia.
Qed.

End LazyVector.

(** Three values, the middle one erased. *)
Definition demo : @LazyVector Z := mk_lazy 3 2 [mk_slot true 10; mk_slot false 0; mk_slot true 30].

Lemma lazy_demo_inv : inv demo.
Proof. split_and!; [done|done|done|]. by intros s [= <-]. Qed.

Lemma lazyvector_refines_map_witness :
  ∃ i v', push 0 demo 20 = Done (Z.of_nat i, v') ∧ inv v' ∧ val demo i = None.
Proof.
  destruct (lazyvector_refines_map 0 demo lazy_demo_inv ltac:(done)) as (Hpush & _). destruct (Hpush 20) as (i & v' & H1 & H2 & H3 & _).
  exists i, v'. split; [exact H1|]. split; [exact H2|exact H3].
Defined.

Lemma erase_absent_undercounts_witness : ∃ v', erase 0 demo 1 = Done v' ∧ m_rcount v' = filled (m_array v') - 1.
Proof. exact (erase_absent_undercounts 0 demo 1 lazy_demo_inv ltac:(done) ltac:(done)). Defined.

End LazyVector.
