(* ===== verification/Mmap.v ===== *)
(** * Memory-mapped files

    [mem/mmap.cpp] and the page fault handler of [arch/x86_64/sys/cpu/fault.cpp]: a
    file is mapped without its pages; a fault reads the page into one of eight buffers,
    which the page table then shows at the place of the page.  Pages and buffers are
    shared: two pages may show one buffer, so the contents are kept per buffer.  The
    file is one of InodeFile.  The table of the regions of a process is a LazyVector. *)
From S2P Require Import Prelude Errno Math Block InodeFile Containers.
Local Open Scope Z_scope.
Import BlockHandle (slice, slice_length).

Module Mmap.
Import INodeFile.

Definition PAGE_SIZE : Z := 4096.
Definition CACHE_SLOTS : Z := 8.

(** ** Regions *)

(** [buffer] is the address of the page of the buffer. *)
Record cache_slot := mk_slot { id : Z; buffer : Z; referenced : Z }.
Record FileBackedMMapRegion := mk_region {
  start : Z; len : Z; m_file : file; m_offset : Z; cache_ptr : Z; cache : list cache_slot }.

(** The pages that are present, with the buffers they show, and the buffers. *)
Record space := mk_space { pages : gmap Z Z; buffers : gmap Z (list Z) }.

(** The constructor; [bufs] are the pages it allocates. *)
Definition new_region (addr length : Z) (f : file) (offset : Z) (bufs : list Z) : FileBackedMMapRegion :=
  mk_region addr length f offset 0 ((λ b, mk_slot (-1) b 0) <$> bufs).
Definition allocated (bufs : list Z) (s : space) : space := mk_space (pages s) (foldr (λ b m, <[b := replicate 4096 0]> m) (buffers s) bufs).

(** [findSlot]: the slot, and [cache_ptr]. *)
Fixpoint find_slot (turns : nat) (i prev ptr : Z) (c : list cache_slot) : outcome (Z * Z) :=
  match turns with
  | O => Done (-1, ptr)
  | S turns =>
      let old := ptr in
      let ptr := if ptr + 1 >=? CACHE_SLOTS then 0 else ptr + 1 in
      x ← c.[ptr];
      if id x =? i then Done (-1, ptr)
      else if id x =? prev then find_slot turns i prev ptr c
      else Done (old, ptr)
  end.
Definition findSlot (i : Z) (r : FileBackedMMapRegion) : outcome (Z * Z) :=
  find_slot 8 i (if i =? 0 then 0 else i32 (i - 1)) (cache_ptr r) (cache r).

Section Read.
(** The addresses of the overflow buffer and of the cache of the file. *)
Context (overflow file_cache : Z).

(** [FileBackedMMapRegion::read]. *)
Definition region_read (dst offset count : Z) (r : FileBackedMMapRegion) (s : space) : outcome (FileBackedMMapRegion * space) :=
  let i := u64 offset / PAGE_SIZE in
  '(slot, ptr) ← findSlot (i32 i) r;
  if slot =? -1 then Done (mk_region (start r) (len r) (m_file r) (m_offset r) ptr (cache r), s)
  else
    x ← (cache r).[slot];
    let ps := if negb (id x =? -1) then delete (referenced x) (pages s) else pages s in
    c ← (cache r).[slot := mk_slot (i32 i) (buffer x) dst];
    let '(_, f) := seek (i64 (m_offset r + offset)) SEEK_SET (m_file r) in
    match buffers s !! buffer x with
    | None => Fault
    | Some d =>
        '(_, f, d) ← read (buffer x) overflow file_cache count f d;
        Done (mk_region (start r) (len r) f (m_offset r) ptr c, mk_space (<[dst := buffer x]> ps) (<[buffer x := d]> (buffers s)))
    end.

(** The byte that the page table shows at [a]. *)
Definition shown (a : Z) (s : space) : option Z := b ← pages s !! int_floor 64 a PAGE_SIZE; d ← buffers s !! b; d !! Z.to_nat (a mod PAGE_SIZE).

(** A load: a page that is not present faults, the handler reads it, and the load is
    tried again. *)
Definition fault (a : Z) (r : FileBackedMMapRegion) (s : space) : outcome (FileBackedMMapRegion * space) :=
  let aligned := int_floor 64 a PAGE_SIZE in region_read aligned (u64 (aligned - start r)) PAGE_SIZE r s.
Definition access (a : Z) (r : FileBackedMMapRegion) (s : space) : outcome (Z * FileBackedMMapRegion * space) :=
  '(r, s) ← (match pages s !! int_floor 64 a PAGE_SIZE with Some _ => Done (r, s) | None => fault a r s end);
  match shown a s with Some v => Done (v, r, s) | None => Fault end.
Fixpoint accesses (l : list Z) (r : FileBackedMMapRegion) (s : space) : outcome (list Z) :=
  match l with
  | [] => Done []
  | a :: l => '(v, r, s) ← access a r s; vs ← accesses l r s; Done (v :: vs)
  end.

(** ** What a region shows *)

Definition page_of (r : FileBackedMMapRegion) (i : Z) : Z := start r + i * PAGE_SIZE.

(** The buffer of a slot in use is shown at its page and holds the bytes of the file. *)
Record region_ok (data : Z → Z) (r : FileBackedMMapRegion) (s : space) : Prop := mk_region_ok {
  ro_file : file_inv data (m_file r);
  ro_bounds : 0 ≤ start r ∧ start r mod PAGE_SIZE = 0 ∧ 0 < len r ∧ start r + len r + PAGE_SIZE < 2 ^ 64 ∧ len r < 2 ^ 40 ∧ 0 ≤ m_offset r < 2 ^ 60;
  ro_slots : length (cache r) = 8%nat ∧ 0 ≤ cache_ptr r < 8;
  ro_buffers : ∀ k x, cache r !! k = Some x → ∃ d, buffers s !! buffer x = Some d ∧ length d = 4096%nat;
  ro_distinct : ∀ k k' x x', cache r !! k = Some x → cache r !! k' = Some x' → buffer x = buffer x' → k = k';
  ro_used : ∀ k x, cache r !! k = Some x → id x = -1 ∨
    (0 ≤ id x < 2 ^ 30 ∧ referenced x = page_of r (id x) ∧ pages s !! referenced x = Some (buffer x) ∧
     ∀ d j, buffers s !! buffer x = Some d → 0 ≤ j < PAGE_SIZE → m_offset r + id x * PAGE_SIZE + j < size (m_inode (m_file r)) →
       d !! Z.to_nat j = Some (data (m_offset r + id x * PAGE_SIZE + j)));
  ro_pages : ∀ i b, 0 ≤ i → page_of r i < start r + len r → pages s !! page_of r i = Some b → ∃ k x, cache r !! k = Some x ∧ id x = i ∧ buffer x = b }.

(** The page of an address of the region. *)
Lemma page_facts data r s a : region_ok data r s → start r ≤ a < start r + len r →
  ∃ i, 0 ≤ i < 2 ^ 29 ∧ int_floor 64 a PAGE_SIZE = page_of r i ∧ page_of r i < start r + len r ∧ a = page_of r i + a mod PAGE_SIZE ∧ 0 ≤ a mod PAGE_SIZE < PAGE_SIZE.
Proof.
  intros [_ (H1 & H2 & H3 & H4 & H5 & H6) _ _ _ _ _] Ha. unfold page_of, PAGE_SIZE in *. exists ((a - start r) / 4096).
  pose proof (Z.div_mod a 4096 ltac:(lia)) as Hd. pose proof (Z.mod_pos_bound a 4096 ltac:(lia)) as Hm. pose proof (Z.div_mod (start r) 4096 ltac:(lia)) as Hs. rewrite H2 in Hs.
  assert (Hq : (a - start r) / 4096 = a / 4096 - start r / 4096).
  { replace (a - start r) with (a + (- (start r / 4096)) * 4096) by lia. rewrite Z.div_add by lia. lia. }
  rewrite Hq. unfold int_floor. rewrite wrap_small by lia. split_and!; lia.
Qed.

(** Slots in use have different pages. *)
Lemma ids_distinct data r s k k' x x' :
  region_ok data r s → cache r !! k = Some x → cache r !! k' = Some x' → id x = id x' → id x ≠ -1 → k = k'.
Proof.
  intros [_ _ _ _ Hd Hu _] Hk Hk' E Hne. destruct (Hu k x Hk) as [|(_ & R & P & _)]; [done|]. destruct (Hu k' x' Hk') as [|(_ & R' & P' & _)]; [congruence|].
  rewrite R, E in P. rewrite R' in P'. apply (Hd k k' x x' Hk Hk'). congruence.
Qed.

(** A page that no slot has finds a slot in at most two turns. *)
Lemma findSlot_finds data r s i :
  region_ok data r s → 0 ≤ i < 2 ^ 29 → (∀ k x, cache r !! k = Some x → id x ≠ i) → ∃ slot ptr, findSlot i r = Done (slot, ptr) ∧ 0 ≤ slot < 8 ∧ 0 ≤ ptr < 8.
Proof.
  intros Hok Hi Hno. pose proof Hok as [_ _ [Hl Hp] _ _ _ _]. unfold findSlot. set (prev := if i =? 0 then 0 else i32 (i - 1)).
  assert (Hprev : prev ≠ -1) by (unfold prev; destruct (Z.eqb_spec i 0); [lia|]; rewrite swrap_small by lia; lia).
  assert (Hslot : ∀ n, 0 ≤ n < 8 → ∃ x, cache r !! Z.to_nat n = Some x ∧ (cache r).[n] = Done x).
  { intros n Hn. destruct (lookup_lt_is_Some_2 (cache r) (Z.to_nat n)) as [x Hx]; [lia|]. exists x. split; [done|]. apply rd_Done. split; [lia|done]. }
  cbn [find_slot]. rewrite !Z.geb_leb. set (p1 := if CACHE_SLOTS <=? cache_ptr r + 1 then 0 else cache_ptr r + 1).
  assert (Hp1 : 0 ≤ p1 < 8) by (unfold p1, CACHE_SLOTS; destruct (Z.leb_spec 8 (cache_ptr r + 1)); lia).
  destruct (Hslot p1 Hp1) as (x1 & Hx1 & ->). rewrite bind_ret. rewrite (proj2 (Z.eqb_neq (id x1) i)) by (by eapply Hno).
  destruct (Z.eqb_spec (id x1) prev) as [E1|E1]; [|exists (cache_ptr r), p1; done].
  rewrite ?Z.geb_leb. set (p2 := if CACHE_SLOTS <=? p1 + 1 then 0 else p1 + 1).
  assert (Hp2 : 0 ≤ p2 < 8 ∧ p2 ≠ p1) by (unfold p2, CACHE_SLOTS; destruct (Z.leb_spec 8 (p1 + 1)); lia).
  destruct (Hslot p2 ltac:(lia)) as (x2 & Hx2 & ->). rewrite bind_ret. rewrite (proj2 (Z.eqb_neq (id x2) i)) by (by eapply Hno).
  destruct (Z.eqb_spec (id x2) prev) as [E2|E2]; [|exists p1, p2; split_and!; [reflexivity|lia..]].
  exfalso. assert (Z.to_nat p1 = Z.to_nat p2) by (eapply ids_distinct; [exact Hok|exact Hx1|exact Hx2|congruence|congruence]). lia.
Qed.

(** The file moves to the page, if it has it, and the buffer gets its bytes. *)
Lemma page_read data f off b d :
  file_inv data f → 0 ≤ off < 2 ^ 62 → length d = 4096%nat →
  ∃ n f' d', read b overflow file_cache PAGE_SIZE (seek off SEEK_SET f).2 d = Done (n, f', d') ∧ file_inv data f' ∧ m_inode f' = m_inode f ∧ length d' = 4096%nat ∧
    ∀ j, 0 ≤ j < PAGE_SIZE → off + j < size (m_inode f) → d' !! Z.to_nat j = Some (data (off + j)).
Proof.
  intros Hf Ho Hd. unfold PAGE_SIZE in *. destruct (seek_dup_keep data f Hf) as [Hseek _]. specialize (Hseek off SEEK_SET).
  assert (Hs : file_inv data (seek off SEEK_SET f).2 ∧ m_inode (seek off SEEK_SET f).2 = m_inode f ∧ (off ≤ size (m_inode f) → m_pos (seek off SEEK_SET f).2 = off)).
  { unfold seek in *. destruct ((off <? 0) || (off >? size (m_inode f))) eqn:E; [|destruct Hseek as (_ & _ & Hinv); by split_and!]. split_and!; [done|done|]. intros Hle.
    rewrite Z.gtb_ltb in E. destruct (Z.ltb_spec off 0), (Z.ltb_spec (size (m_inode f)) off); cbn [orb] in E; (done || lia). }
  destruct Hs as (Hinv & Hn & Hpos). set (g := (seek off SEEK_SET f).2) in *. pose proof Hinv as ((Hb & _) & _ & Hp & _).
  assert (Hr : 0 ≤ readable g 4096 ≤ 4096) by (unfold readable; lia).
  destruct (file_read_correct data b overflow file_cache 4096 g d Hinv) as (f' & d' & He & Ht & Hdr & _ & Hn' & Hinv'); [lia|lia|lia|left; lia|].
  pose proof (slice_length data (m_pos g) (readable g 4096) ltac:(lia)) as Hsl. rewrite <-Ht, length_take in Hsl.
  pose proof (f_equal length Hdr) as Hdl. rewrite !length_drop in Hdl.
  eexists _, f', d'. split; [exact He|]. split_and!; [done|congruence|lia|]. intros j Hj Hlt. rewrite Hpos in * by lia.
  assert (Hjr : j < readable g 4096) by (unfold readable; rewrite Hn, Hpos by lia; lia). rewrite <-(lookup_take_lt _ (Z.to_nat (readable g 4096))) by lia. rewrite Ht. unfold slice.
  rewrite list_lookup_fmap, lookup_seqZ_lt by lia. cbn. do 2 f_equal. lia.
Qed.

Lemma page_of_inj r i j : page_of r i = page_of r j → i = j.
Proof. unfold page_of, PAGE_SIZE. lia. Qed.

(** A page that is not present is read into a slot and shown; the others that are
    present stay, but for the one that had the slot. *)
Lemma region_read_ok data r s i :
  region_ok data r s → 0 ≤ i < 2 ^ 29 → page_of r i < start r + len r → pages s !! page_of r i = None →
  ∃ r' s', region_read (page_of r i) (i * PAGE_SIZE) PAGE_SIZE r s = Done (r', s') ∧ region_ok data r' s' ∧ is_Some (pages s' !! page_of r i) ∧
    start r' = start r ∧ len r' = len r ∧ m_offset r' = m_offset r ∧ m_inode (m_file r') = m_inode (m_file r).
Proof.
  intros Hok Hi Hin Habs. pose proof Hok as [Hf (B1 & B2 & B3 & B4 & B5 & B6) [Hl Hp] Hbuf Hdis Hused Hpages].
  assert (Hno : ∀ k x, cache r !! k = Some x → id x ≠ i).
  { intros k x Hk <-. destruct (Hused k x Hk) as [E|(_ & R & P & _)]; [lia|]. rewrite R, Habs in P. done. }
  destruct (findSlot_finds data r s i Hok Hi Hno) as (slot & ptr & Hfind & Hslot & Hptr).
  unfold region_read. unfold PAGE_SIZE in *. replace (i32 (u64 (i * 4096) / 4096)) with i by (rewrite wrap_small, Z.div_mul by lia; rewrite swrap_small; lia). rewrite Hfind, bind_ret. destruct (Z.eqb_spec slot (-1)) as [|_]; [lia|].
  destruct (lookup_lt_is_Some_2 (cache r) (Z.to_nat slot)) as [x Hx]; [lia|]. rewrite (proj2 (rd_Done (cache r) slot x)) by (split; [lia|done]). rewrite bind_ret, wr_in_range, bind_ret by lia.
  destruct (Hbuf _ _ Hx) as (d & Hd & Hdl). rewrite (swrap_small 64) by lia.
  destruct (page_read data (m_file r) (m_offset r + i * 4096) (buffer x) d Hf ltac:(lia) Hdl) as (n & f' & d' & Hread & Hf' & Hn' & Hdl' & Hdata).
  destruct (seek (m_offset r + i * 4096) SEEK_SET (m_file r)) as [res g] eqn:Eg. cbn [snd] in Hread. unfold PAGE_SIZE in Hread, Hdata. rewrite Hd, Hread, bind_ret.
  eexists _, _. split; [reflexivity|]. cbn [start len m_offset m_file pages buffers cache cache_ptr]. split; [|split_and!; try done; rewrite lookup_insert_eq; by eexists].
  set (x' := mk_slot i (buffer x) (page_of r i)). set (ps := if negb (id x =? -1) then delete (referenced x) (pages s) else pages s).
  assert (Hcase : ∀ k y, <[Z.to_nat slot := x']> (cache r) !! k = Some y → (k = Z.to_nat slot ∧ y = x') ∨ (k ≠ Z.to_nat slot ∧ cache r !! k = Some y)).
  { intros k y Hy. destruct (decide (k = Z.to_nat slot)) as [->|Hne]; [rewrite list_lookup_insert_eq in Hy by lia; left; split; congruence|]. rewrite list_lookup_insert_ne in Hy by congruence. by right. }
  assert (Hps : ∀ k y, k ≠ Z.to_nat slot → cache r !! k = Some y → id y ≠ -1 → <[page_of r i := buffer x]> ps !! referenced y = pages s !! referenced y).
  { intros k y Hk Hy Hid. destruct (Hused k y Hy) as [|(_ & R & P & _)]; [done|]. rewrite lookup_insert_ne by (rewrite R; intros E%page_of_inj; by apply (Hno k y Hy)).
    unfold ps. destruct (Z.eqb_spec (id x) (-1)) as [E|E]; cbn [negb]; [done|]. apply lookup_delete_ne. rewrite R. intros E2. destruct (Hused _ _ Hx) as [|(_ & Rx & _)]; [done|].
    rewrite Rx in E2. apply page_of_inj in E2. apply Hk. eapply ids_distinct; [exact Hok|exact Hy|exact Hx|congruence|done]. }
  constructor; cbn [start len m_offset m_file pages buffers cache cache_ptr].
  - done.
  - split_and!; (done || lia).
  - split; [by rewrite length_insert|lia].
  - intros k y Hy. destruct (decide (buffer y = buffer x)) as [->|Hne]; [exists d'; by rewrite lookup_insert_eq|]. rewrite lookup_insert_ne by congruence.
    destruct (Hcase k y Hy) as [[-> ->]|[_ Hy']]; [done|by eapply Hbuf].
  - intros k k' y y' Hy Hy' E. destruct (Hcase k y Hy) as [[-> ->]|[Hk Hyo]], (Hcase k' y' Hy') as [[-> ->]|[Hk' Hyo']]; [done| | |by eapply Hdis].
    + exfalso. apply Hk'. symmetry. by apply (Hdis _ _ x y' Hx Hyo').
    + exfalso. apply Hk. by apply (Hdis _ _ y x Hyo Hx).
  - intros k y Hy. destruct (Hcase k y Hy) as [[-> ->]|[Hk Hyo]].
    + right. cbn [id referenced buffer x']. split_and!; [lia|lia|done|apply lookup_insert_eq|]. intros e j He Hj Hlt. rewrite lookup_insert_eq in He. injection He as <-. rewrite Hn' in Hlt.
      exact (Hdata j Hj Hlt).
    + destruct (Hused k y Hyo) as [|(U1 & U2 & U3 & U4)]; [by left|right]. split_and!; [lia|lia|exact U2|rewrite (Hps k y Hk Hyo) by lia; done|].
      intros e j He Hj Hlt. rewrite lookup_insert_ne in He by (intros E; apply Hk; symmetry; by apply (Hdis _ _ x y Hx Hyo)). rewrite Hn' in Hlt. exact (U4 e j He Hj Hlt).
  - intros j b Hj Hlt Hb. unfold page_of in Hb, Hlt. cbn [start] in Hb, Hlt. fold (page_of r j) in Hb, Hlt. destruct (decide (j = i)) as [->|Hne].
    + rewrite lookup_insert_eq in Hb. injection Hb as <-. exists (Z.to_nat slot), x'. rewrite list_lookup_insert_eq by lia. done.
    + rewrite lookup_insert_ne in Hb by (intros E%page_of_inj; congruence). assert (Hb' : pages s !! page_of r j = Some b ∧ (id x ≠ -1 → referenced x ≠ page_of r j)).
      { unfold ps in Hb. destruct (Z.eqb_spec (id x) (-1)); cbn [negb] in Hb; [done|]. apply lookup_delete_Some in Hb as [? ?]. done. }
      destruct Hb' as [Hb' Hrx]. destruct (Hpages j b Hj Hlt Hb') as (k & y & Hk & E1 & E2). exists k, y. split; [|done]. rewrite list_lookup_insert_ne; [done|]. intros E. subst k.
      assert (y = x) as -> by congruence. destruct (Hused _ _ Hx) as [|(_ & R & _)]; [lia|]. apply Hrx; [lia|]. by rewrite R, E1.
Qed.

(** A page that is present shows the bytes of the file. *)
Lemma shown_data data r s i a :
  region_ok data r s → 0 ≤ i → page_of r i < start r + len r → int_floor 64 a PAGE_SIZE = page_of r i → a = page_of r i + a mod PAGE_SIZE → 0 ≤ a mod PAGE_SIZE < PAGE_SIZE →
  is_Some (pages s !! page_of r i) →
  ∃ v, shown a s = Some v ∧ (m_offset r + (a - start r) < size (m_inode (m_file r)) → v = data (m_offset r + (a - start r))).
Proof.
  intros Hok Hi Hin Hfl Ha Hm [b Hb]. pose proof Hok as [_ _ _ Hbuf _ Hused Hpages]. destruct (Hpages i b Hi Hin Hb) as (k & x & Hk & <- & <-).
  destruct (Hbuf k x Hk) as (d & Hd & Hdl). unfold shown. rewrite Hfl, Hb. cbn [mbind option_bind]. rewrite Hd. cbn [mbind option_bind]. unfold PAGE_SIZE in *.
  destruct (lookup_lt_is_Some_2 d (Z.to_nat (a mod 4096))) as [v Hv]; [lia|]. exists v. split; [done|]. intros Hlt. destruct (Hused k x Hk) as [|(_ & _ & _ & Hu)]; [lia|].
  unfold page_of, PAGE_SIZE in Ha. specialize (Hu d (a mod 4096) Hd Hm). unfold PAGE_SIZE in Hu. rewrite Hv in Hu. assert (E : m_offset r + id x * 4096 + a mod 4096 = m_offset r + (a - start r)) by lia.
  rewrite E in Hu. by injection (Hu Hlt) as ->.
Qed.

Lemma access_ok data r s a : region_ok data r s → start r ≤ a < start r + len r →
  ∃ v r' s', access a r s = Done (v, r', s') ∧ region_ok data r' s' ∧ (m_offset r + (a - start r) < size (m_inode (m_file r)) → v = data (m_offset r + (a - start r))) ∧
    start r' = start r ∧ len r' = len r ∧ m_offset r' = m_offset r ∧ m_inode (m_file r') = m_inode (m_file r).
Proof.
  intros Hok Ha. destruct (page_facts data r s a Hok Ha) as (i & Hi & Hfl & Hin & Heq & Hm). unfold access. rewrite Hfl. destruct (pages s !! page_of r i) as [b|] eqn:Eb.
  - rewrite bind_ret. destruct (shown_data data r s i a Hok ltac:(lia) Hin Hfl Heq Hm) as (v & -> & Hv); [by eexists|]. exists v, r, s. by split_and!.
  - unfold fault. rewrite Hfl. pose proof Hok as [_ (B1 & _ & _ & B4 & B5 & _) _ _ _ _ _]. replace (u64 (page_of r i - start r)) with (i * PAGE_SIZE) by (unfold page_of, PAGE_SIZE; rewrite wrap_small; lia).
    destruct (region_read_ok data r s i Hok Hi Hin Eb) as (r' & s' & -> & Hok' & Hpres & E1 & E2 & E3 & E4). rewrite bind_ret.
    assert (Hpg : page_of r' i = page_of r i) by (unfold page_of; by rewrite E1). rewrite <-Hpg in Hfl, Heq, Hpres, Hin. rewrite <-E1, <-E2 in Hin.
    destruct (shown_data data r' s' i a Hok' ltac:(lia) Hin Hfl Heq Hm Hpres) as (v & -> & Hv). exists v, r', s'. rewrite E1, E3, E4 in Hv. by split_and!.
Qed.

(** C14 (functional): loads from a mapped file in any order, each with the page fault it
    may take, all end and return the bytes of the file, although only eight pages are
    kept at a time and the page table shares their buffers. *)
Theorem mapped_file_reads data r s l :
  region_ok data r s → Forall (λ a, start r ≤ a < start r + len r ∧ m_offset r + (a - start r) < size (m_inode (m_file r))) l →
  accesses l r s = Done ((λ a, data (m_offset r + (a - start r))) <$> l).
Proof.
  intros Hok Hl. revert r s Hok Hl. induction l as [|a l IH]; intros r s Hok Hl; [done|]. apply Forall_cons in Hl as [[Ha Hs] Hl]. cbn [accesses fmap list_fmap].
  destruct (access_ok data r s a Hok Ha) as (v & r' & s' & -> & Hok' & Hv & E1 & E2 & E3 & E4). rewrite bind_ret, (IH r' s' Hok'), bind_ret.
  - by rewrite Hv, E1, E3.
  - by rewrite E1, E2, E3, E4.
Qed.

(** A new region. *)
Lemma new_region_ok data addr length_ f offset bufs s :
  file_inv data f → 0 ≤ addr → addr mod PAGE_SIZE = 0 → 0 < length_ < 2 ^ 40 → addr + length_ + PAGE_SIZE < 2 ^ 64 → 0 ≤ offset < 2 ^ 60 →
  length bufs = 8%nat → NoDup bufs → (∀ i, 0 ≤ i → addr + i * PAGE_SIZE < addr + length_ → pages s !! (addr + i * PAGE_SIZE) = None) →
  region_ok data (new_region addr length_ f offset bufs) (allocated bufs s).
Proof.
  intros Hf H1 H2 H3 H4 H5 Hb Hnd Habs. constructor; cbn [m_file new_region start len m_offset cache cache_ptr].
  - done.
  - split_and!; (done || lia).
  - rewrite length_fmap. split; [done|lia].
  - intros k x Hk. apply list_lookup_fmap_Some in Hk as (b & -> & Hk). cbn [buffer allocated buffers]. exists (replicate 4096 0). split; [|apply length_replicate].
    assert (Hin : b ∈ bufs) by (by eapply list_elem_of_lookup_2). clear -Hin. induction bufs as [|c bufs IH]; [by apply not_elem_of_nil in Hin|]. cbn [foldr]. destruct (decide (c = b)) as [->|Hne]; [apply lookup_insert_eq|].
    rewrite lookup_insert_ne by done. apply IH. apply elem_of_cons in Hin as [->|Hin]; [done|exact Hin].
  - intros k k' x x' Hk Hk' E. apply list_lookup_fmap_Some in Hk as (b & -> & Hk). apply list_lookup_fmap_Some in Hk' as (b' & -> & Hk'). cbn in E. subst b'. by eapply NoDup_lookup.
  - intros k x Hk. apply list_lookup_fmap_Some in Hk as (b & -> & Hk). by left.
  - intros i b Hi Hlt Hp. unfold page_of in *. cbn [start pages allocated] in *. by rewrite Habs in Hp.
Qed.

End Read.

(** A file of 3000 bytes at the address 0x10000. *)
Definition demo_region : FileBackedMMapRegion := new_region 0x10000 3000 (open demo_node 2048) 0 ((λ i, 0x100000 + i * 4096) <$> seqZ 0 8).
Definition demo_space : space := allocated ((λ i, 0x100000 + i * 4096) <$> seqZ 0 8) (mk_space ∅ ∅).

Lemma mapped_file_reads_witness : accesses 0 0 [0x10000 + 2999; 0x10000; 0x10000 + 251] demo_region demo_space = Done [demo_data 2999; demo_data 0; demo_data 251].
Proof.
  apply (mapped_file_reads 0 0 demo_data demo_region demo_space [0x10000 + 2999; 0x10000; 0x10000 + 251]).
  - apply new_region_ok; [exact demo_file_inv|lia|reflexivity|lia|unfold PAGE_SIZE; lia|lia|reflexivity|apply (bool_decide_unpack _); vm_compute; exact I|]. intros i Hi Hlt. reflexivity.
  - repeat (constructor; [split; [cbn; lia|reflexivity]|]). constructor.
Defined.

(** Ten pages through eight buffers: the first page is read again. *)
Example many_pages :
  (let node := mk_inode 50000 (λ _ start count, Done (slice demo_data (start * 2048) (count * 2048))) in
   let bufs := (λ i, 0x100000 + i * 4096) <$> seqZ 0 8 in
   let l := ((λ i, 0x10000 + i * 4096 + 17) <$> seqZ 0 10) ++ [0x10000 + 5; 0x10000 + 3 * 4096] in
   vs ← accesses 0 0 l (new_region 0x10000 50000 (open node 2048) 0 bufs) (allocated bufs (mk_space ∅ ∅));
   Done (bool_decide (vs = (λ a, demo_data (a - 0x10000)) <$> l))) = Done true.
Proof. vm_compute. reflexivity. Qed.

(** The slot after the returned one is compared with the page before: the slot that is
    returned in the second turn is the one that holds it. *)
Example findSlot_evicts_previous :
  findSlot 61 (mk_region 0 0 (open demo_node 2048) 0 0 ((λ i, mk_slot i 0 0) <$> [50; 60; 70; 71; 72; 73; 74; 75])) = Done (1, 2).
Proof. reflexivity. Qed.

(** ** The regions of a process *)

Definition PAGE_WRITE : Z := 2.
Definition PAGE_USER : Z := 4.
Definition PROT_WRITE : Z := 2.
Definition MAP_FIXED : Z := 4.
Definition MAP_ANONYMOUS : Z := 16.

Record MMapRegion := mk_mmap { rg_start : Z; rg_len : Z }.
Definition no_region : MMapRegion := mk_mmap 0 0.
Abbreviation regions := (@LazyVector.LazyVector MMapRegion).
Abbreviation val := (LazyVector.val (T := MMapRegion)).

(** [mmap]: [alloc] is [Pagemap::alloc], which gets the length and the flags, and a
    file answers [dup] and [mmap] with an error or a region. *)
Definition mmap (alloc : Z → Z → Z) (kernel : bool) (length prot flags : Z) (file : option (Z → error_t + MMapRegion)) (v : regions) : outcome ((error_t + Z) * regions) :=
  if negb (Z.land flags MAP_FIXED =? 0) then Panic "Not implemented"
  else if (Z.land flags MAP_ANONYMOUS =? 0) && negb (bool_decide (is_Some file)) then Done (inl EBADF, v)
  else
    let aflags := if kernel then 0 else PAGE_USER in
    let aflags := if negb (Z.land prot PROT_WRITE =? 0) then Z.lor aflags PAGE_WRITE else aflags in
    if negb (Z.land flags MAP_ANONYMOUS =? 0) then
      let r := mk_mmap (alloc length aflags) length in
      '(_, v) ← LazyVector.push no_region v r; Done (inr (rg_start r), v)
    else
      match file with
      | Some f =>
          match f aflags with
          | inr r => '(_, v) ← LazyVector.push no_region v r; Done (inr (rg_start r), v)
          | inl e => Done (inl e, v)
          end
      | None => Fault
      end.

Definition inside (a : Z) (r : MMapRegion) : bool := negb ((a <? rg_start r) || (a >=? u64 (rg_start r + rg_len r))).

(** The loops of [find_mmap_region] and [remove_region]. *)
Fixpoint find_from (turns : nat) (i a : Z) (v : regions) : outcome (option (Z * MMapRegion)) :=
  match turns with
  | O => Done None
  | S turns =>
      p ← LazyVector.present v i;
      if negb p then find_from turns (i + 1) a v
      else
        r ← LazyVector.at_ v i;
        if inside a r then Done (Some (i, r)) else find_from turns (i + 1) a v
  end.
Definition find_mmap_region (a : Z) (v : regions) : outcome (option MMapRegion) :=
  r ← find_from (Z.to_nat (LazyVector.m_count v)) 0 a v; Done (match r with Some (_, r) => Some r | None => None end).
Definition remove_region (a : Z) (v : regions) : outcome regions :=
  r ← find_from (Z.to_nat (LazyVector.m_count v)) 0 a v;
  match r with Some (i, _) => LazyVector.erase no_region v i | None => Done v end.
Definition munmap (a : Z) (v : regions) : outcome (error_t * regions) := v ← remove_region a v; Done (ENONE, v).

(** *** The page fault handler *)

Definition SIGSEGV : Z := 11.
Definition SEGV_MAPERR : Z := 0.
Definition SEGV_ACCERR : Z := 1.

(** [handle_page_fault]: unrecoverable, a signal, or a page of a region to read. *)
Inductive handled := Unhandled | Signalled (signo code addr : Z) | ReadPage (r : MMapRegion) (dst offset : Z).
Definition handle_page_fault (err a : Z) (user kernel : regions) : outcome handled :=
  let is_user := negb (Z.land err 4 =? 0) in
  r ← find_mmap_region a (if is_user then user else kernel);
  match r with
  | None => Done (if negb is_user then Unhandled else Signalled SIGSEGV (if negb (Z.land err 1 =? 0) then SEGV_ACCERR else SEGV_MAPERR) a)
  | Some r => let aligned := int_floor 64 a PAGE_SIZE in Done (ReadPage r aligned (u64 (aligned - rg_start r)))
  end.

(** *** Regions are found *)

Lemma find_from_spec turns i a v : LazyVector.inv v → LazyVector.m_count v ≤ Z.of_nat (i + turns) →
  match find_from turns (Z.of_nat i) a v with
  | Done (Some (k, r)) => ∃ n, k = Z.of_nat n ∧ val v n = Some r ∧ inside a r = true
  | Done None => ∀ n r, (i ≤ n)%nat → val v n = Some r → inside a r = false
  | _ => False
  end.
Proof.
  intros Hinv. revert i. induction turns as [|turns IH]; intros i Hn; cbn [find_from].
  - intros n r Hi Hr. rewrite LazyVector.lazy_beyond in Hr by (done || lia). done.
  - rewrite LazyVector.lazy_present, bind_ret by done. specialize (IH (S i) ltac:(lia)). replace (Z.of_nat (S i)) with (Z.of_nat i + 1) in IH by lia.
    destruct (val v i) as [r|] eqn:Er.
    + rewrite bool_decide_true by (by eexists). cbn [negb]. rewrite (LazyVector.lazy_at v i r), bind_ret by done. destruct (inside a r) eqn:Ein; [by exists i|].
      destruct (find_from turns _ a v) as [[[k r']|]| |]; try done. intros n r' Hin Hr. destruct (decide (n = i)) as [->|]; [congruence|]. by apply (IH n); [lia|].
    + rewrite bool_decide_false by (intros [? ?]; done). cbn [negb]. destruct (find_from turns _ a v) as [[[k r']|]| |]; try done.
      intros n r' Hin Hr. destruct (decide (n = i)) as [->|]; [congruence|]. by apply (IH n); [lia|].
Qed.

(** Regions do not overlap and end below the top of the address space. *)
Definition regions_ok (v : regions) : Prop :=
  LazyVector.inv v ∧ LazyVector.m_count v < 2 ^ 30 ∧ (∀ n r, val v n = Some r → 0 ≤ rg_start r ∧ 0 < rg_len r ∧ rg_start r + rg_len r < 2 ^ 64) ∧
  ∀ n n' r r' a, val v n = Some r → val v n' = Some r' → inside a r = true → inside a r' = true → n = n'.

Lemma inside_iff a r : 0 ≤ rg_start r → 0 < rg_len r → rg_start r + rg_len r < 2 ^ 64 → inside a r = true ↔ rg_start r ≤ a < rg_start r + rg_len r.
Proof. intros. unfold inside. rewrite wrap_small, Z.geb_leb by lia. destruct (Z.ltb_spec a (rg_start r)), (Z.leb_spec (rg_start r + rg_len r) a); cbn; split; (done || lia). Qed.

(** A fault in a region is for that region. *)
Lemma find_region n r a v : regions_ok v → val v n = Some r → rg_start r ≤ a < rg_start r + rg_len r → find_mmap_region a v = Done (Some r).
Proof.
  intros (Hinv & Hc & Hb & Hdis) Hr Ha. destruct (Hb n r Hr) as (B1 & B2 & B3). pose proof (proj2 (inside_iff a r B1 B2 B3) Ha) as Hin. unfold find_mmap_region.
  pose proof (find_from_spec (Z.to_nat (LazyVector.m_count v)) 0 a v Hinv ltac:(lia)) as Hf. destruct (find_from _ _ a v) as [[[k r']|]| |]; [| |done..].
  - destruct Hf as (m & -> & Hm & Hin'). rewrite bind_ret. cbn. by assert (m = n) as -> by (by eapply Hdis); simplify_eq.
  - specialize (Hf n r ltac:(lia) Hr). congruence.
Qed.

(** [munmap] removes the region of the address and no other. *)
Lemma munmap_removes n r a v : regions_ok v → val v n = Some r → rg_start r ≤ a < rg_start r + rg_len r →
  ∃ v', munmap a v = Done (ENONE, v') ∧ ∀ m, val v' m = if decide (m = n) then None else val v m.
Proof.
  intros Hok Hr Ha. pose proof Hok as (Hinv & Hc & Hb & Hdis). destruct (Hb n r Hr) as (B1 & B2 & B3). pose proof (proj2 (inside_iff a r B1 B2 B3) Ha) as Hin. unfold munmap, remove_region.
  pose proof (find_from_spec (Z.to_nat (LazyVector.m_count v)) 0 a v Hinv ltac:(lia)) as Hf. destruct (find_from _ _ a v) as [[[k r']|]| |]; [| |done..].
  - destruct Hf as (m & -> & Hm & Hin'). rewrite bind_ret. assert (m = n) as -> by (by eapply Hdis). destruct (LazyVector.lazyvector_refines_map no_region v Hinv Hc) as (_ & _ & He & _).
    destruct (He n r Hr) as (v' & -> & _ & Hv'). rewrite bind_ret. by exists v'.
  - specialize (Hf n r ltac:(lia) Hr). congruence.
Qed.

(** An anonymous mapping of a user that may write, at fresh addresses. *)
Lemma mmap_anonymous alloc length flags v :
  let addr := alloc length 6 in
  regions_ok v → Z.land flags MAP_FIXED = 0 → Z.land flags MAP_ANONYMOUS ≠ 0 → 0 ≤ addr → 0 < length → addr + length < 2 ^ 64 →
  (∀ n r a, val v n = Some r → inside a r = true → ¬ addr ≤ a < addr + length) →
  ∃ v' n, mmap alloc false length PROT_WRITE flags None v = Done (inr addr, v') ∧ val v n = None ∧
    (∀ m, val v' m = if decide (m = n) then Some (mk_mmap addr length) else val v m) ∧ (LazyVector.m_count v' < 2 ^ 30 → regions_ok v').
Proof.
  intros addr (Hinv & Hc & Hb & Hdis) Hfix Han H1 H2 H3 Hfresh. unfold mmap. rewrite Hfix, (proj2 (Z.eqb_neq _ 0) Han). cbn [Z.eqb negb andb]. cbv zeta. change (Z.land PROT_WRITE PROT_WRITE) with 2. cbn [Z.eqb negb].
  change (Z.lor PAGE_USER PAGE_WRITE) with 6. fold addr. destruct (LazyVector.lazyvector_refines_map no_region v Hinv Hc) as (Hp & _). destruct (Hp (mk_mmap addr length)) as (i & v' & -> & Hi & Hn & _ & Hv). rewrite bind_ret.
  exists v', i. split_and!; [done|done|done|]. intros Hc'. assert (Hsplit : ∀ m r, val v' m = Some r → (m = i ∧ r = mk_mmap addr length) ∨ val v m = Some r).
  { intros m r. rewrite Hv. destruct (decide (m = i)); [intros [= <-]; by left|by right]. }
  split_and!; [done|done| |].
  - intros m r [[_ ->]|Hm]%Hsplit; [cbn; lia|by eapply Hb].
  - intros m m' r r' a Hm Hm' Ha Ha'. destruct (Hsplit m r Hm) as [[-> ->]|Hmo], (Hsplit m' r' Hm') as [[-> ->]|Hmo']; [done| | |by eapply Hdis]; exfalso.
    + apply (Hfresh m' r' a Hmo' Ha'). by apply (inside_iff a (mk_mmap addr length)).
    + apply (Hfresh m r a Hmo Ha). by apply (inside_iff a (mk_mmap addr length)).
Qed.

(** A write to a page of a file mapping, which is present and read-only, is answered by
    reading the page again instead of a signal. *)
Lemma write_fault_retried n r a v kernel :
  regions_ok v → val v n = Some r → rg_start r ≤ a < rg_start r + rg_len r →
  handle_page_fault 7 a v kernel = Done (ReadPage r (int_floor 64 a PAGE_SIZE) (u64 (int_floor 64 a PAGE_SIZE - rg_start r))).
Proof. intros Hok Hr Ha. unfold handle_page_fault. change (negb (Z.land 7 4 =? 0)) with true. cbv zeta iota. by rewrite (find_region n r a v Hok Hr Ha), bind_ret. Qed.

End Mmap.
