(* ===== verification/Syscall.v ===== *)
(** * System calls

    [arch/x86_64/mod/core/syscall]: user identities ([sec.cpp]), and the calls on
    files ([fs.cpp], the pipe of [ipc.cpp], the descriptors of [fork] in [proc.cpp] and
    of [exec] in [proc/exec.cpp]) with the table of descriptors of a process.  Files
    are objects of any class with the operations of [File]; the table is any type with
    the operations of [LazyVector], so that the calls run on the vector of the code and
    on a finite map alike.  User memory is a map of bytes. *)
From S2P Require Import Prelude Errno Math Str Path Elf Modules Containers.
Local Open Scope Z_scope.

(** ** Identities *)

Module Sec.

Record ids := mk_ids { real_uid : Z; eff_uid : Z; saved_uid : Z; nice_value : Z; errno : error_t }.
Definition with_real (u : Z) (s : ids) : ids := mk_ids u (eff_uid s) (saved_uid s) (nice_value s) (errno s).
Definition with_eff (u : Z) (s : ids) : ids := mk_ids (real_uid s) u (saved_uid s) (nice_value s) (errno s).
Definition with_errno (e : error_t) (s : ids) : ids := mk_ids (real_uid s) (eff_uid s) (saved_uid s) (nice_value s) e.

Definition setruid (uid : Z) (s : ids) : Z * ids :=
  if eff_uid s =? 0 then (0, with_real uid s)
  else if (uid =? real_uid s) || (uid =? saved_uid s) then (0, with_real uid s)
  else (-1, with_errno EPERM s).

Definition seteuid (uid : Z) (s : ids) : Z * ids :=
  if eff_uid s =? 0 then (0, with_eff uid s)
  else if (uid =? real_uid s) || (uid =? saved_uid s) then (0, with_eff uid s)
  else (-1, with_errno EPERM s).

Definition setuid (uid : Z) (s : ids) : Z * ids :=
  if eff_uid s =? 0 then (0, mk_ids uid uid uid (nice_value s) (errno s))
  else if (uid =? real_uid s) || (uid =? saved_uid s) then (0, with_eff uid s)
  else (-1, with_errno EPERM s).

Definition setreuid (ruid euid : Z) (s : ids) : Z * ids :=
  if negb (inrange ruid (-1) (2 ^ 31 - 1)) || negb (inrange euid (-1) (2 ^ 31 - 1)) then (-1, with_errno EINVAL s)
  else
    let '(ret, s) := if negb (ruid =? -1) then let '(r, s) := setruid ruid s in (if r <? 0 then -1 else 0, s) else (0, s) in
    if negb (euid =? -1) then let '(r, s) := seteuid euid s in (if r <? 0 then -1 else ret, s) else (ret, s).

(** [nice]: a negative value needs the privilege. *)
Definition nice (n : Z) (s : ids) : Z * ids :=
  if (n <? 0) && negb (eff_uid s =? 0) then (-1, with_errno EPERM s)
  else if negb (inrange n (-19) 20) then (-1, with_errno EPERM s)
  else (n, mk_ids (real_uid s) (eff_uid s) (saved_uid s) n (errno s)).

Inductive call := Setuid (u : Z) | Seteuid (u : Z) | Setreuid (r e : Z) | Nice (n : Z).
Definition run (c : call) (s : ids) : Z * ids :=
  match c with Setuid u => setuid u s | Seteuid u => seteuid u s | Setreuid r e => setreuid r e s | Nice n => nice n s end.
Definition runs (l : list call) (s : ids) : ids := foldl (λ s c, (run c s).2) s l.

(** *** No way back to the privilege *)

Definition among (P : Z → Prop) (s : ids) : Prop := P (real_uid s) ∧ P (eff_uid s) ∧ P (saved_uid s).

Lemma allowed_uid P s uid : among P s → (uid =? real_uid s) || (uid =? saved_uid s) = true → P uid.
Proof. intros (Hr & _ & Hs) H. destruct (Z.eqb_spec uid (real_uid s)) as [->|]; [done|]. destruct (Z.eqb_spec uid (saved_uid s)) as [->|]; done. Qed.

Lemma eff_not_root P s : among P s → ¬ P 0 → eff_uid s =? 0 = false.
Proof. intros (_ & He & _) H0. apply Z.eqb_neq. by intros E; rewrite E in He. Qed.

Lemma setruid_among P uid s : among P s → ¬ P 0 → among P (setruid uid s).2.
Proof.
  intros Ha H0. pose proof Ha as (? & ? & ?). unfold setruid. rewrite (eff_not_root P s Ha H0). destruct (_ || _) eqn:E; [|done]. by split_and!; [apply (allowed_uid P s)|..].
Qed.
Lemma seteuid_among P uid s : among P s → ¬ P 0 → among P (seteuid uid s).2.
Proof.
  intros Ha H0. pose proof Ha as (? & ? & ?). unfold seteuid. rewrite (eff_not_root P s Ha H0). destruct (_ || _) eqn:E; [|done]. by split_and!; [|apply (allowed_uid P s)|].
Qed.
Lemma setuid_among P uid s : among P s → ¬ P 0 → among P (setuid uid s).2.
Proof.
  intros Ha H0. pose proof Ha as (? & ? & ?). unfold setuid. rewrite (eff_not_root P s Ha H0). destruct (_ || _) eqn:E; [|done]. by split_and!; [|apply (allowed_uid P s)|].
Qed.
Lemma setreuid_among P r e s : among P s → ¬ P 0 → among P (setreuid r e s).2.
Proof.
  intros Ha H0. unfold setreuid. destruct (_ || _); [done|]. set (x := if negb (r =? -1) then _ else _).
  assert (Hx : among P x.2) by (unfold x; destruct (negb (r =? -1)); [pose proof (setruid_among P r s Ha H0); by destruct (setruid r s)|done]).
  destruct x as [ret s1]. cbn [snd] in Hx. destruct (negb (e =? -1)); [pose proof (seteuid_among P e s1 Hx H0); by destruct (seteuid e s1)|done].
Qed.

Lemma run_among P c s : among P s → ¬ P 0 → among P (run c s).2.
Proof.
  intros Ha H0. destruct c; cbn [run]; [by apply setuid_among|by apply seteuid_among|by apply setreuid_among|].
  unfold nice. by destruct (_ && _); [|destruct (negb _)].
Qed.
(** Only [nice] changes the nice value. *)
Lemma run_nice P c s : among P s → ¬ P 0 → 0 ≤ nice_value s → 0 ≤ nice_value (run c s).2.
Proof.
  intros Ha H0 Hn. destruct c as [u|u|r e|n]; cbn [run].
  - unfold setuid. by destruct (_ =? 0); [|destruct (_ || _)].
  - unfold seteuid. by destruct (_ =? 0); [|destruct (_ || _)].
  - unfold setreuid, setruid, seteuid. repeat case_match; simplify_eq; done.
  - unfold nice. rewrite (eff_not_root P s Ha H0). cbn [negb]. rewrite andb_true_r. destruct (Z.ltb_spec n 0); [done|]. by destruct (negb _).
Qed.
Lemma runs_among P l s : among P s → ¬ P 0 → among P (runs l s) ∧ (0 ≤ nice_value s → 0 ≤ nice_value (runs l s)).
Proof.
  intros Ha H0. revert s Ha. induction l as [|c l IH]; intros s Ha; [done|]. cbn [runs foldl]. destruct (IH (run c s).2 (run_among P c s Ha H0)) as [H1 H2].
  split; [exact H1|]. intros Hn. apply H2. by apply (run_nice P).
Qed.

(** C22 (safety): a process none of whose identities is the superuser keeps, whatever
    calls it makes, only identities it had, so its effective identity never becomes the
    superuser and it never gets a negative nice value; and the superuser who calls
    [setuid] for another user has given up the privilege for good. *)
Theorem privilege_not_regained l s :
  (real_uid s ≠ 0 → eff_uid s ≠ 0 → saved_uid s ≠ 0 →
     among (λ u, u = real_uid s ∨ u = eff_uid s ∨ u = saved_uid s) (runs l s) ∧ eff_uid (runs l s) ≠ 0 ∧ (0 ≤ nice_value s → 0 ≤ nice_value (runs l s))) ∧
  (∀ u, eff_uid s = 0 → u ≠ 0 → eff_uid (runs (Setuid u :: l) s) = u).
Proof.
  split.
  - intros Hr He Hs. set (P := λ u, u = real_uid s ∨ u = eff_uid s ∨ u = saved_uid s). assert (H0 : ¬ P 0) by (unfold P; lia).
    destruct (runs_among P l s ltac:(unfold among, P; lia) H0) as [Ha Hn]. split_and!; [exact Ha| |exact Hn]. destruct Ha as (_ & Hp & _). intros E. by rewrite E in Hp.
  - intros u He Hu. cbn [runs foldl run]. unfold setuid at 1. rewrite He. cbn [Z.eqb snd]. fold (runs l).
    by destruct (runs_among (λ x, x = u) l (mk_ids u u u (nice_value s) (errno s))) as [(_ & Hp & _) _].
Qed.

(** A failed [setreuid] may have changed the real identity. *)
Example setreuid_half_done : setreuid 7 9 (mk_ids 5 5 7 0 ENONE) = (-1, mk_ids 7 5 7 0 EPERM).
Proof. vm_compute. reflexivity. Qed.

End Sec.

(** ** Descriptors *)

Module Syscall.
Import Str Path ELF Modules.

(** A descriptor: the file, by the number of its object, and its flags. *)
Record Descriptor := mk_desc { d_file : Z; d_flags : Z }.
Definition FD_CLOEXEC : Z := 1.
Definition F_DUPFD : Z := 1.
Definition F_GETFL : Z := 2.
Definition F_SETFL : Z := 3.

(** What the calls use of [LazyVector<Descriptor>]. *)
Class DescTable (T : Type) := {
  t_empty : T; t_count : T → Z; t_present : T → Z → outcome bool; t_at : T → Z → outcome Descriptor;
  t_push : T → Descriptor → outcome (Z * T); t_set : T → Z → Descriptor → outcome T; t_erase : T → Z → outcome T }.

(** What they use of [File]. *)
Class FileOps (F : Type) := {
  f_read : Z → list Z → F → outcome ((error_t + Z) * list Z * F); f_write : list Z → F → outcome ((error_t + Z) * F);
  f_ioctl : Z → Z → F → outcome ((error_t + Z) * F); f_seek : Z → Z → F → outcome ((error_t + Z) * F);
  f_dup : F → outcome ((error_t + F) * F); f_close : F → outcome (error_t * F); f_isatty : F → bool }.

Section Calls.
Context {T : Type} `{DescTable T} {F : Type} `{FileOps F}.
(** [File::open], [Pipe::create]; what uninitialised members and buffers hold, and what
    [canonize_path] leaves in its buffer when it fails. *)
Context (open_path : list Z → Z → error_t + F) (make_pipe : error_t + F * F) (junk : Z) (stack cut : list Z).

(** The calling process, the table of the child that [fork] makes, the file objects with
    their flags, the error number of the thread, user memory. *)
Record sys := mk_sys {
  descs : T; child : T; files : gmap Z (F * Z); next_file : Z; errno : error_t; m_cwd : list Z; umem : memory }.
Local Abbreviation M := (stateM sys).

Definition with_descs (v : T) (s : sys) : sys := mk_sys v (child s) (files s) (next_file s) (errno s) (m_cwd s) (umem s).
Definition with_child (v : T) (s : sys) : sys := mk_sys (descs s) v (files s) (next_file s) (errno s) (m_cwd s) (umem s).
Definition with_files (m : gmap Z (F * Z)) (n : Z) (s : sys) : sys := mk_sys (descs s) (child s) m n (errno s) (m_cwd s) (umem s).
Definition with_errno (e : error_t) (s : sys) : sys := mk_sys (descs s) (child s) (files s) (next_file s) e (m_cwd s) (umem s).
Definition with_cwd (p : list Z) (s : sys) : sys := mk_sys (descs s) (child s) (files s) (next_file s) (errno s) p (umem s).
Definition with_umem (m : memory) (s : sys) : sys := mk_sys (descs s) (child s) (files s) (next_file s) (errno s) (m_cwd s) m.

(** *** The table and the objects *)

Definition desc_count : M Z := gets (λ s, t_count (descs s)).
Definition desc_present (fd : Z) : M bool := λ s, b ← t_present (descs s) fd; Done (b, s).
Definition desc_at (fd : Z) : M Descriptor := λ s, d ← t_at (descs s) fd; Done (d, s).
Definition desc_push (d : Descriptor) : M Z := λ s, '(fd, v) ← t_push (descs s) d; Done (fd, with_descs v s).
Definition desc_set (fd : Z) (d : Descriptor) : M unit := λ s, v ← t_set (descs s) fd d; Done (tt, with_descs v s).
Definition desc_erase (fd : Z) : M unit := λ s, v ← t_erase (descs s) fd; Done (tt, with_descs v s).
Definition child_set (fd : Z) (d : Descriptor) : M unit := λ s, v ← t_set (child s) fd d; Done (tt, with_child v s).

Definition on_file {R} (id : Z) (op : F → outcome (R * F)) : M R := λ s,
  match files s !! id with
  | Some (f, fl) => '(r, f) ← op f; Done (r, with_files (<[id := (f, fl)]> (files s)) (next_file s) s)
  | None => Fault
  end.
Definition file_flags (id : Z) : M Z := λ s, match files s !! id with Some (_, fl) => Done (fl, s) | None => Fault end.
Definition set_file_flags (id fl : Z) : M unit := λ s,
  match files s !! id with Some (f, _) => Done (tt, with_files (<[id := (f, fl)]> (files s)) (next_file s) s) | None => Fault end.
Definition new_file (f : F) : M Z := λ s,
  Done (next_file s, with_files (<[next_file s := (f, junk)]> (files s)) (next_file s + 1) s).

(** *** [usr.hpp] *)

Definition fail (e : error_t) : M Z := modify (with_errno e);; mret (-1).
(** [USR_ENSURE_OPT] and [USR_ENSURE_R]. *)
Definition ensure_opt {A} (r : error_t + A) (k : A → M Z) : M Z := match r with inl e => fail e | inr a => k a end.
Definition ensure_r (b : bool) (e : error_t) (k : M Z) : M Z := if b then k else fail e.

Definition u2k (a n : Z) : M (list Z) := λ s, bs ← fetch a (Z.to_nat n) (umem s); Done (bs, s).
Definition k2u (a : Z) (bs : list Z) : M unit := λ s, m ← store a bs (umem s); Done (tt, with_umem m s).
Definition usr_strlen (a : Z) : M Z := λ s, t ← fetch_cstr (S (base.size (umem s))) a (umem s); Done (i32 (Z.of_nat (length t)), s).

(** [copy_and_canonize], with the string in the buffer; [File::open] and the like read
    the buffer up to its end. *)
Definition copy_and_canonize (usr_path : Z) : M (list Z) :=
  n ← usr_strlen usr_path;
  let len := (n + 1) `min` MAX_PATH_LEN in
  bs ← u2k usr_path (len + 1);
  buffer ← lift (put (replicate (Z.to_nat MAX_PATH_LEN) junk) 0 bs);
  buffer ← lift buffer.[len := 0];
  c ← lift buffer.[0];
  if negb (c =? slash) then
    path ← lift (text_of buffer);
    base ← gets m_cwd;
    r ← lift (canonize_path (cstr path) base (replicate (Z.to_nat MAX_PATH_LEN) junk) MAX_PATH_LEN);
    mret (default cut r)
  else mret buffer.

(** *** [fs.cpp] *)

Definition get_file (fd : Z) : M (error_t + Z) :=
  p ← desc_present fd; if negb p then mret (inl EBADF) else d ← desc_at fd; mret (inr (d_file d)).
Definition pop_file (fd : Z) : M (error_t + Z) :=
  p ← desc_present fd; if negb p then mret (inl EBADF) else d ← desc_at fd; desc_erase fd;; mret (inr (d_file d)).
Definition get_flags (fd : Z) : M (error_t + Z) :=
  p ← desc_present fd; if negb p then mret (inl EBADF) else d ← desc_at fd; mret (inr (d_flags d)).
Definition set_flags (fd flags : Z) : M unit :=
  p ← desc_present fd; if negb p then mret tt else d ← desc_at fd; desc_set fd (mk_desc (d_file d) flags).

Definition open (usr_path mode : Z) : M Z :=
  buffer ← copy_and_canonize usr_path;
  path ← lift (text_of buffer);
  ensure_opt (open_path path mode) (λ f, id ← new_file f; desc_push (mk_desc id junk)).

(** A read that succeeded has the error [ENONE], which is not [EINTR], so the loop ends
    after its first turn. *)
Definition read (fd usr_buf count : Z) : M Z :=
  r ← get_file fd;
  ensure_opt r (λ id,
    if 0 <? count then
      let len := count `min` 1024 in
      '(r, buffer) ← on_file id (λ f, '(r, d, f) ← f_read len stack f; Done (r, d, f));
      match r with
      | inl _ => fail EINVAL
      | inr n => bs ← lift (get buffer 0 len); k2u usr_buf bs;; mret n
      end
    else mret 0).

Fixpoint write_loop (turns : nat) (id usr_buf count i written : Z) : M Z :=
  if negb (i <? count) then mret written
  else
    match turns with
    | O => lift Fault
    | S turns =>
        bs ← u2k (usr_buf + i) ((count - i) `min` 1024);
        r ← on_file id (f_write bs);
        ensure_opt r (λ n, write_loop turns id usr_buf count (u64 (i + 1024)) (i64 (written + n)))
    end.
Definition write (fd usr_buf count : Z) : M Z :=
  r ← get_file fd; ensure_opt r (λ id, write_loop (Z.to_nat (count / 1024 + 1)) id usr_buf count 0 0).

(** [USR_ENSURE_ENONE] is 0 also when it stores the error. *)
Definition close (fd : Z) : M Z :=
  r ← get_file fd;
  ensure_opt r (λ id, e ← on_file id f_close; (if bool_decide (e = ENONE) then mret tt else modify (with_errno e));; mret 0).
Definition ioctl (fd rq v : Z) : M Z := r ← get_file fd; ensure_opt r (λ id, r ← on_file id (f_ioctl rq v); ensure_opt r mret).
Definition dup (fd : Z) : M Z :=
  r ← get_file fd; ensure_opt r (λ id, r ← on_file id f_dup; ensure_opt r (λ f, id ← new_file f; desc_push (mk_desc id junk))).
Definition dup2 (srcfd dstfd : Z) : M Z :=
  r ← get_file srcfd;
  ensure_opt r (λ id, r ← on_file id f_dup; ensure_opt r (λ f, id ← new_file f; desc_set dstfd (mk_desc id junk);; mret dstfd)).

(** [Process::set_cwd]; every byte of the block is overwritten. *)
Definition set_cwd (p : list Z) : M unit :=
  n ← lift (strlen p);
  let len := n `min` (MAX_PATH_LEN - 1) in
  b ← lift (strncpy (replicate (Z.to_nat (len + 1)) 0) p (len + 1)); modify (with_cwd b).
Definition chdir (usr_path : Z) : M Z :=
  n ← usr_strlen usr_path;
  let len := n `min` (MAX_PATH_LEN - 1) in
  bs ← u2k usr_path len;
  set_cwd (bs ++ [0]);; mret 0.
Definition getcwd (usr_buf buffer_len : Z) : M Z :=
  cwd ← gets m_cwd; n ← lift (strlen cwd);
  if n + 1 >? buffer_len then modify (with_errno ERANGE);; mret 0
  else bs ← lift (get cwd 0 (n + 1)); k2u usr_buf bs;; mret usr_buf.

Definition isatty (fd : Z) : M Z :=
  r ← get_file fd;
  match r with
  | inl e => modify (with_errno e);; mret 0
  | inr id =>
      tty ← on_file id (λ f, Done (f_isatty f, f));
      modify (with_errno (if tty then ENONE else ENOTTY));; mret (if tty : bool then 1 else 0)
  end.
Definition seek (fd pos mode : Z) : M Z :=
  r ← get_file fd;
  ensure_opt r (λ id, ensure_r ((mode >=? 0) && (mode <=? 2)) EINVAL (r ← on_file id (f_seek pos mode); ensure_opt r mret)).

Definition fcntl (fd cmd v : Z) : M Z :=
  r ← get_file fd;
  ensure_opt r (λ id, r ← get_flags fd; ensure_opt r (λ flags,
    if cmd =? F_DUPFD then dup fd
    else if cmd =? F_GETFL then fl ← file_flags id; mret (i32 (Z.lor (Z.land fl 0xFFFF) (i32 (flags * 2 ^ 16))))
    else if cmd =? F_SETFL then
      ensure_r (Z.land v (Z.lnot 0x10001) =? 0) EINVAL
        (set_flags fd (Z.shiftr v 16);; fl ← file_flags id; set_file_flags id (Z.lor fl (Z.land v 0xFFFF));; mret 0)
    else mret (-1))).

(** *** [pipe], [fork] and [exec] *)

Definition pipe (rp wp : Z) : M Z :=
  match make_pipe with
  | inl e => mret (error_code e)
  | inr (r, w) =>
      rid ← new_file r; wid ← new_file w;
      rfd ← desc_push (mk_desc rid junk); wfd ← desc_push (mk_desc wid junk);
      k2u rp (le_bytes 4 rfd);; k2u wp (le_bytes 4 wfd);; mret 0
  end.

(** The child gets a duplicate of every file; the value of a failed [dup] is null. *)
Definition fork_turn (i : Z) : M unit :=
  p ← desc_present i;
  if negb p then mret tt
  else
    d ← desc_at i;
    r ← on_file (d_file d) f_dup;
    match r with
    | inr f => id ← new_file f; child_set i (mk_desc id (d_flags d))
    | inl _ => child_set i (mk_desc 0 (d_flags d))
    end.
Definition fork_descs : M unit := modify (with_child t_empty);; n ← desc_count; sfor (Z.to_nat n) 0 fork_turn.

(** The count is read again in every turn; it falls when the last descriptor goes. *)
Fixpoint exec_loop (turns : nat) (i : Z) : M unit :=
  n ← desc_count;
  if negb (i <? n) then mret tt
  else
    match turns with
    | O => lift Fault
    | S turns =>
        p ← desc_present i;
        (if negb p then mret tt
         else
           d ← desc_at i;
           if negb (Z.land (d_flags d) FD_CLOEXEC =? 0) then _ ← on_file (d_file d) f_close; desc_erase i else mret tt);;
        exec_loop turns (i + 1)
    end.
Definition exec_descs (options : option (Z * Z * Z)) : M unit :=
  n ← desc_count;
  exec_loop (Z.to_nat n) 0;;
  match options with
  | Some (i, o, e) => desc_set 0 (mk_desc i junk);; desc_set 1 (mk_desc o junk);; desc_set 2 (mk_desc e junk)
  | None => mret tt
  end.

Inductive call :=
| Open (path mode : Z) | Read (fd buf count : Z) | Write (fd buf count : Z) | Close (fd : Z) | Ioctl (fd rq v : Z) | Dup (fd : Z) | Dup2 (src dst : Z)
| Chdir (path : Z) | Getcwd (buf len : Z) | Isatty (fd : Z) | Seek (fd pos mode : Z) | Fcntl (fd cmd v : Z) | Pipe (rp wp : Z) | Fork
| ExecDescs (options : option (Z * Z * Z)).

Definition run (c : call) : M Z :=
  match c with
  | Open p m => open p m | Read fd b n => read fd b n | Write fd b n => write fd b n | Close fd => close fd | Ioctl fd rq v => ioctl fd rq v
  | Dup fd => dup fd | Dup2 s d => dup2 s d | Chdir p => chdir p | Getcwd b n => getcwd b n | Isatty fd => isatty fd | Seek fd p m => seek fd p m
  | Fcntl fd c v => fcntl fd c v | Pipe r w => pipe r w | Fork => fork_descs;; mret 0 | ExecDescs o => exec_descs o;; mret 0
  end.
Fixpoint runs (l : list call) : M (list Z) :=
  match l with [] => mret [] | c :: l => r ← run c; rs ← runs l; mret (r :: rs) end.

End Calls.
Arguments sys T F : clear implicits.

(** ** Two tables *)

(** The vector of the code. *)
Definition no_desc : Descriptor := mk_desc 0 0.
#[export] Instance lazy_table : DescTable (@LazyVector.LazyVector Descriptor) := {|
  t_empty := LazyVector.empty; t_count := LazyVector.m_count; t_present := LazyVector.present; t_at := LazyVector.at_;
  t_push := LazyVector.push no_desc; t_set := LazyVector.set no_desc; t_erase := LazyVector.erase no_desc |}.

(** The specification: a finite map, where a new descriptor gets the lowest free number;
    numbers are below [limit], and nothing is said of a call that leaves the domain. *)
Definition limit : Z := 2 ^ 30 - 1.
Fixpoint lowest_from (fuel : nat) (i : Z) (m : gmap Z Descriptor) : Z :=
  match fuel with O => i | S fuel => match m !! i with Some _ => lowest_from fuel (i + 1) m | None => i end end.
Definition lowest (m : gmap Z Descriptor) : Z := lowest_from (base.size m) 0 m.
Definition highest (m : gmap Z Descriptor) : Z := foldr (λ p n, (p.1 + 1) `max` n) 0 (map_to_list m).
#[export] Instance map_table : DescTable (gmap Z Descriptor) := {|
  t_empty := ∅; t_count := highest; t_present := λ m i, Done (bool_decide (is_Some (m !! i)));
  t_at := λ m i, match m !! i with Some d => Done d | None => Fault end;
  t_push := λ m d, let i := lowest m in if i <? limit then Done (i, <[i := d]> m) else Fault;
  t_set := λ m i d, if (0 <=? i) && (i <? limit) then Done (<[i := d]> m) else Fault;
  t_erase := λ m i, match m !! i with Some _ => Done (delete i m) | None => Fault end |}.

(** The vector holds the bindings of the map. *)
Record table_rel (v : @LazyVector.LazyVector Descriptor) (m : gmap Z Descriptor) : Prop := mk_table_rel {
  tr_inv : LazyVector.inv v; tr_val : ∀ i, LazyVector.val v i = m !! Z.of_nat i;
  tr_keys : ∀ i d, m !! i = Some d → 0 ≤ i < limit }.

Lemma highest_spec m : (∀ i d, m !! i = Some d → 0 ≤ i) → 0 ≤ highest m ∧ (∀ i d, m !! i = Some d → i < highest m) ∧ (0 < highest m → is_Some (m !! (highest m - 1))).
Proof.
  intros Hk. unfold highest. assert (Hl : ∀ l : list (Z * Descriptor), Forall (λ p, 0 ≤ p.1) l → let h := foldr (λ p n, (p.1 + 1) `max` n) 0 l in
    0 ≤ h ∧ (∀ p, p ∈ l → p.1 < h) ∧ (0 < h → ∃ p, p ∈ l ∧ p.1 = h - 1)).
  { induction l as [|p l IH]; intros Hf h; [cbn in h; split_and!; [lia|intros q Hq; by apply not_elem_of_nil in Hq|lia]|]. apply Forall_cons in Hf as [Hp Hf]. destruct (IH Hf) as (H1 & H2 & H3).
    unfold h. cbn [foldr]. set (h0 := foldr _ 0 l) in *. split_and!; [lia|intros q [->|Hq]%elem_of_cons; [lia|specialize (H2 q Hq); lia]|].
    intros _. destruct (Z.max_spec (p.1 + 1) h0) as [[Hlt ->]|[Hge ->]]; [destruct (H3 ltac:(lia)) as (q & Hq & E); exists q; split; [by right|done]|exists p; split; [by left|lia]]. }
  destruct (Hl (map_to_list m)) as (H1 & H2 & H3).
  - apply Forall_forall. intros [i d] Hi%elem_of_map_to_list. by eapply Hk.
  - split_and!; [done|intros i d Hi%elem_of_map_to_list; by apply (H2 (i, d))|]. intros Hpos. destruct (H3 Hpos) as ([i d] & Hin%elem_of_map_to_list & E). cbn in E. rewrite <-E. by eexists.
Qed.

Lemma table_count v m : table_rel v m → LazyVector.m_count v = highest m.
Proof.
  intros [Hinv Hval Hk]. pose proof Hinv as (Hc & _ & _ & Hlast). destruct (highest_spec m) as (H1 & H2 & H3); [intros i d Hi; apply Hk in Hi; lia|].
  destruct (decide (LazyVector.m_count v < highest m)) as [Hlt|Hge].
  - destruct (H3 ltac:(lia)) as [d Hd]. replace (highest m - 1) with (Z.of_nat (Z.to_nat (highest m - 1))) in Hd by lia. rewrite <-Hval in Hd.
    rewrite (LazyVector.lazy_beyond v) in Hd; [done|done|lia].
  - destruct (decide (highest m < LazyVector.m_count v)) as [Hlt|]; [|lia]. exfalso.
    destruct (lookup_lt_is_Some_2 (LazyVector.m_array v) (pred (length (LazyVector.m_array v)))) as [x Hx]; [lia|]. pose proof (Hlast x ltac:(by rewrite last_lookup)) as Hv.
    assert (Hd : LazyVector.val v (pred (length (LazyVector.m_array v))) = Some (LazyVector.value x)) by (unfold LazyVector.val; rewrite Hx; cbn; unfold LazyVector.slot_view; by rewrite Hv).
    rewrite Hval in Hd. apply H2 in Hd. lia.
Qed.

(** The lowest number is the one the vector finds. *)
Lemma lowest_unique m i : m !! Z.of_nat i = None → (∀ j, (j < i)%nat → is_Some (m !! Z.of_nat j)) → lowest m = Z.of_nat i.
Proof.
  intros Hnone Hlow. assert (Hsize : (i ≤ base.size m)%nat).
  { rewrite <-size_dom. assert (Hsub : list_to_set (Z.of_nat <$> seq 0 i) ⊆ dom m).
    { intros x Hx%elem_of_list_to_set. apply list_elem_of_fmap in Hx as (j & -> & Hj%elem_of_seq). apply elem_of_dom, Hlow. lia. }
    apply subseteq_size in Hsub. rewrite size_list_to_set, length_fmap, length_seq in Hsub; [done|]. apply NoDup_fmap_2; [intros ? ? ?; lia|apply NoDup_seq]. }
  unfold lowest. assert (Hgen : ∀ fuel k, (k ≤ i)%nat → (i ≤ k + fuel)%nat → lowest_from fuel (Z.of_nat k) m = Z.of_nat i).
  { induction fuel as [|fuel IH]; intros k Hk Hf; cbn [lowest_from]; [lia|]. destruct (decide (k = i)) as [->|Hne]; [by rewrite Hnone|].
    destruct (Hlow k ltac:(lia)) as [d ->]. replace (Z.of_nat k + 1) with (Z.of_nat (S k)) by lia. apply IH; lia. }
  apply (Hgen _ 0%nat); lia.
Qed.

Lemma table_bound v m : table_rel v m → LazyVector.m_count v < 2 ^ 30.
Proof.
  intros Ht. rewrite (table_count v m Ht). destruct Ht as [_ _ Hk]. destruct (highest_spec m) as (H1 & H2 & H3); [intros i d Hi; apply Hk in Hi; lia|].
  destruct (decide (0 < highest m)) as [Hp|]; [|lia]. destruct (H3 Hp) as [d Hd]. apply Hk in Hd. unfold limit in Hd. lia.
Qed.

Lemma lookup_neg v m i : table_rel v m → i < 0 → m !! i = None.
Proof. intros [_ _ Hk] Hi. destruct (m !! i) as [d|] eqn:E; [|done]. apply Hk in E. lia. Qed.

(** *** The operations agree *)

Lemma table_present v m fd : table_rel v m → LazyVector.present v fd = Done (bool_decide (is_Some (m !! fd))).
Proof.
  intros Ht. destruct (decide (0 ≤ fd)) as [Hp|Hn].
  - rewrite <-(Z2Nat.id fd) by lia. rewrite LazyVector.lazy_present by apply Ht. by rewrite (tr_val v m Ht).
  - rewrite (lookup_neg v m fd Ht) by lia. unfold LazyVector.present. by destruct (Z.ltb_spec fd 0); [|lia].
Qed.
Lemma table_at v m fd d : table_rel v m → m !! fd = Some d → LazyVector.at_ v fd = Done d.
Proof.
  intros Ht Hd. pose proof (tr_keys v m Ht _ _ Hd). rewrite <-(Z2Nat.id fd) by lia. apply LazyVector.lazy_at; [apply Ht|]. by rewrite (tr_val v m Ht), Z2Nat.id by lia.
Qed.

(** A vector that binds [i] as the map does. *)
Lemma table_rel_insert v v' m i d : table_rel v m → Z.of_nat i < limit → LazyVector.inv v' → (∀ j, LazyVector.val v' j = if decide (j = i) then Some d else LazyVector.val v j) →
  table_rel v' (<[Z.of_nat i := d]> m).
Proof.
  intros [_ Hval Hk] Hi Hinv Hv. constructor; [done| |].
  - intros j. rewrite Hv. case_decide as E; [subst; by rewrite lookup_insert_eq|rewrite lookup_insert_ne by lia; apply Hval].
  - intros j x [[<- _]|[_ Hx]]%lookup_insert_Some; [lia|by eapply Hk].
Qed.

Lemma table_new v m d : table_rel v m → ∃ v', t_push v d = Done (lowest m, v') ∧ m !! lowest m = None ∧ (lowest m < limit → table_rel v' (<[lowest m := d]> m)).
Proof.
  intros Ht. destruct (LazyVector.lazyvector_refines_map no_desc v (tr_inv v m Ht) (table_bound v m Ht)) as (Hpush & _). destruct (Hpush d) as (k & v' & Hp & Hinv & Hnone & Hlow & Hv).
  rewrite (tr_val v m Ht) in Hnone. rewrite (lowest_unique m k Hnone) by (intros j Hj; rewrite <-(tr_val v m Ht); by apply Hlow).
  exists v'. split_and!; [exact Hp|done|]. intros Hk. by apply (table_rel_insert v).
Qed.
Lemma table_push v m d i m' : table_rel v m → t_push m d = Done (i, m') → ∃ v', t_push v d = Done (i, v') ∧ table_rel v' m'.
Proof.
  intros Ht E. destruct (table_new v m d Ht) as (v' & Hp & _ & Hrel). cbn [t_push map_table] in E. destruct (Z.ltb_spec (lowest m) limit); [|done]. injection E as <- <-.
  exists v'. by split; [|apply Hrel].
Qed.
Lemma table_set v m i d m' : table_rel v m → t_set m i d = Done m' → ∃ v', t_set v i d = Done v' ∧ table_rel v' m'.
Proof.
  intros Ht E. cbn [t_set map_table] in E. destruct (Z.leb_spec 0 i), (Z.ltb_spec i limit); try done. cbn [andb] in E. injection E as <-.
  destruct (LazyVector.lazyvector_refines_map no_desc v (tr_inv v m Ht) (table_bound v m Ht)) as (_ & Hset & _). destruct (Hset (Z.to_nat i) d) as (v' & Hp & Hinv & Hv); [unfold limit in *; lia|].
  rewrite Z2Nat.id in Hp by lia. exists v'. split; [exact Hp|]. rewrite <-(Z2Nat.id i) by lia. apply (table_rel_insert v); [done|lia|done|done].
Qed.
Lemma table_erase v m i m' : table_rel v m → t_erase m i = Done m' → ∃ v', t_erase v i = Done v' ∧ table_rel v' m'.
Proof.
  intros Ht E. cbn [t_erase map_table] in E. destruct (m !! i) as [d|] eqn:Ed; [|done]. injection E as <-. pose proof (tr_keys v m Ht _ _ Ed) as Hi.
  destruct (LazyVector.lazyvector_refines_map no_desc v (tr_inv v m Ht) (table_bound v m Ht)) as (_ & _ & Her & _).
  destruct (Her (Z.to_nat i) d) as (v' & Hp & Hinv & Hv); [by rewrite (tr_val v m Ht), Z2Nat.id by lia|]. rewrite Z2Nat.id in Hp by lia. exists v'. split; [exact Hp|]. constructor; [done| |].
  - intros j. rewrite Hv. case_decide as E; [subst; rewrite Z2Nat.id by lia; by rewrite lookup_delete_eq|rewrite lookup_delete_ne by lia; apply Ht].
  - intros j x [_ Hx]%lookup_delete_Some. by eapply Ht.
Qed.

(** ** Refinement *)

Section Refinement.
Context {F : Type} `{FileOps F} (open_path : list Z → Z → error_t + F) (make_pipe : error_t + F * F) (junk : Z) (stack cut : list Z).
Local Abbreviation V := (@LazyVector.LazyVector Descriptor).
Local Abbreviation G := (gmap Z Descriptor).

Record sys_rel (s : sys V F) (t : sys G F) : Prop := mk_sys_rel {
  sr_descs : table_rel (descs s) (descs t); sr_child : table_rel (child s) (child t); sr_files : files s = files t; sr_next : next_file s = next_file t;
  sr_errno : errno s = errno t; sr_cwd : m_cwd s = m_cwd t; sr_umem : umem s = umem t }.

(** What the code does on the map it does on the vector, with the same result. *)
Definition sim {A} (m : stateM (sys V F) A) (n : stateM (sys G F) A) : Prop :=
  ∀ s t r t', sys_rel s t → n t = Done (r, t') → ∃ s', m s = Done (r, s') ∧ sys_rel s' t'.

Lemma sim_ret {A} (a : A) : sim (mret a) (mret a).
Proof. intros s t r t' Hr [= <- <-]. by exists s. Qed.
Lemma sim_bind {A B} (m : stateM (sys V F) A) n (f : A → stateM (sys V F) B) g : sim m n → (∀ a, sim (f a) (g a)) → sim (m ≫= f) (n ≫= g).
Proof.
  intros Hm Hf s t r t' Hr He. rewrite run_bind in He. rewrite run_bind. destruct (n t) as [[a t1]| |] eqn:En; [|done|done]. destruct (Hm s t a t1 Hr En) as (s1 & -> & Hr1). by apply (Hf a s1 t1).
Qed.
Lemma sim_lift {A} (o : outcome A) : sim (lift o) (lift o).
Proof. intros s t r t' Hr He. unfold lift in He |- *. destruct o; [|done|done]. injection He as <- <-. by exists s. Qed.
(** A step that reads and writes the shared parts only. *)
Lemma sim_shared {A} (m : stateM (sys V F) A) n :
  (∀ s t, sys_rel s t → match n t with Done (r, t') => ∃ s', m s = Done (r, s') ∧ sys_rel s' t' | _ => True end) → sim m n.
Proof. intros Hm s t r t' Hr He. specialize (Hm s t Hr). by rewrite He in Hm. Qed.

Lemma sim_errno e : sim (modify (with_errno e)) (modify (with_errno e)).
Proof. apply sim_shared. intros s t []. eexists. split; [done|by constructor]. Qed.
Lemma sim_cwd p : sim (modify (with_cwd p)) (modify (with_cwd p)).
Proof. apply sim_shared. intros s t []. eexists. split; [done|by constructor]. Qed.
Lemma sim_get_cwd : sim (gets m_cwd) (gets m_cwd).
Proof. apply sim_shared. intros s t Hr. unfold gets. rewrite (sr_cwd s t Hr). by exists s. Qed.
Lemma sim_on_file {R} id (op : F → outcome (R * F)) : sim (on_file id op) (on_file id op).
Proof.
  apply sim_shared. intros s t Hr. pose proof Hr as []. unfold on_file. rewrite (sr_files s t Hr). destruct (files t !! id) as [[f fl]|]; [|done]. destruct (op f) as [[r f']| |]; cbn; [|done|done].
  eexists. split; [done|]. by constructor.
Qed.
Lemma sim_file_flags id : sim (file_flags id) (file_flags id).
Proof. apply sim_shared. intros s t Hr. unfold file_flags. rewrite (sr_files s t Hr). destruct (files t !! id) as [[f fl]|]; [|done]. by exists s. Qed.
Lemma sim_set_file_flags id fl : sim (set_file_flags id fl) (set_file_flags id fl).
Proof.
  apply sim_shared. intros s t Hr. pose proof Hr as []. unfold set_file_flags. rewrite (sr_files s t Hr). destruct (files t !! id) as [[f fl']|]; [|done]. eexists. split; [done|]. by constructor.
Qed.
Lemma sim_new_file f : sim (new_file junk f) (new_file junk f).
Proof. apply sim_shared. intros s t Hr. pose proof Hr as []. unfold new_file. rewrite (sr_next s t Hr), (sr_files s t Hr). eexists. split; [done|]. by constructor. Qed.
Lemma sim_u2k a n : sim (u2k a n) (u2k a n).
Proof. apply sim_shared. intros s t Hr. unfold u2k. rewrite (sr_umem s t Hr). destruct (fetch _ _ _); cbn; [by exists s|done|done]. Qed.
Lemma sim_k2u a bs : sim (k2u a bs) (k2u a bs).
Proof. apply sim_shared. intros s t Hr. pose proof Hr as []. unfold k2u. rewrite (sr_umem s t Hr). destruct (store _ _ _); cbn; [eexists; split; [done|by constructor]|done|done]. Qed.
Lemma sim_usr_strlen a : sim (usr_strlen a) (usr_strlen a).
Proof. apply sim_shared. intros s t Hr. unfold usr_strlen. rewrite (sr_umem s t Hr). destruct (fetch_cstr _ _ _); cbn; [by exists s|done|done]. Qed.

(** *** The table *)

Lemma sim_count : sim desc_count desc_count.
Proof. apply sim_shared. intros s t Hr. unfold desc_count, gets. cbn [t_count lazy_table map_table]. rewrite (table_count _ _ (sr_descs s t Hr)). by exists s. Qed.
Lemma sim_present fd : sim (desc_present fd) (desc_present fd).
Proof. apply sim_shared. intros s t Hr. unfold desc_present. cbn [t_present lazy_table map_table]. rewrite (table_present _ _ fd (sr_descs s t Hr)). by exists s. Qed.
Lemma sim_at fd : sim (desc_at fd) (desc_at fd).
Proof.
  apply sim_shared. intros s t Hr. unfold desc_at. cbn [t_at lazy_table map_table]. destruct (descs t !! fd) as [d|] eqn:E; [|done]. rewrite (table_at _ _ fd d (sr_descs s t Hr) E). by exists s.
Qed.
Lemma sim_push d : sim (desc_push d) (desc_push d).
Proof.
  intros s t r t' Hr He. pose proof Hr as []. unfold desc_push in He |- *. destruct (t_push (descs t) d) as [[i m']| |] eqn:E; [|done|done]. injection He as <- <-.
  destruct (table_push _ _ _ _ _ (sr_descs s t Hr) E) as (v' & -> & Hv). eexists. split; [reflexivity|]. by constructor.
Qed.
Lemma sim_set fd d : sim (desc_set fd d) (desc_set fd d).
Proof.
  intros s t r t' Hr He. pose proof Hr as []. unfold desc_set in He |- *. destruct (t_set (descs t) fd d) as [m'| |] eqn:E; [|done|done]. injection He as <- <-.
  destruct (table_set _ _ _ _ _ (sr_descs s t Hr) E) as (v' & -> & Hv). eexists. split; [reflexivity|]. by constructor.
Qed.
Lemma sim_erase fd : sim (desc_erase fd) (desc_erase fd).
Proof.
  intros s t r t' Hr He. pose proof Hr as []. unfold desc_erase in He |- *. destruct (t_erase (descs t) fd) as [m'| |] eqn:E; [|done|done]. injection He as <- <-.
  destruct (table_erase _ _ _ _ (sr_descs s t Hr) E) as (v' & -> & Hv). eexists. split; [reflexivity|]. by constructor.
Qed.
Lemma sim_child_set fd d : sim (child_set fd d) (child_set fd d).
Proof.
  intros s t r t' Hr He. pose proof Hr as []. unfold child_set in He |- *. destruct (t_set (child t) fd d) as [m'| |] eqn:E; [|done|done]. injection He as <- <-.
  destruct (table_set _ _ _ _ _ (sr_child s t Hr) E) as (v' & -> & Hv). eexists. split; [reflexivity|]. by constructor.
Qed.
Lemma sim_no_child : sim (modify (with_child t_empty)) (modify (with_child t_empty)).
Proof.
  apply sim_shared. intros s t []. eexists. split; [done|]. by constructor.
Qed.

(** *** The calls *)

Ltac sim_step := first
  [ apply sim_ret | apply sim_lift | apply sim_errno | apply sim_cwd | apply sim_get_cwd | apply sim_on_file | apply sim_file_flags | apply sim_set_file_flags | apply sim_new_file
  | apply sim_u2k | apply sim_k2u | apply sim_usr_strlen | apply sim_count | apply sim_present | apply sim_at | apply sim_push | apply sim_set | apply sim_erase | apply sim_child_set | apply sim_no_child
  | apply sim_bind; [|intros ?] | progress unfold ensure_opt, ensure_r, fail | case_match ].
Ltac sim_tac := repeat sim_step.

Lemma sim_write_loop turns id buf count i written : sim (write_loop turns id buf count i written) (write_loop turns id buf count i written).
Proof. revert i written. induction turns as [|turns IH]; intros i written; cbn [write_loop]; sim_tac. apply IH. Qed.
Lemma sim_exec_loop turns i : sim (exec_loop turns i) (exec_loop turns i).
Proof. revert i. induction turns as [|turns IH]; intros i; cbn [exec_loop]; sim_tac. apply IH. Qed.
Lemma sim_fork_turn i : sim (fork_turn junk i) (fork_turn junk i).
Proof. unfold fork_turn. sim_tac. Qed.
Lemma sim_fork n i : sim (sfor n i (fork_turn junk)) (sfor n i (fork_turn junk)).
Proof. revert i. induction n as [|n IH]; intros i; cbn [sfor]; [apply sim_ret|]. apply sim_bind; [apply sim_fork_turn|intros _; apply IH]. Qed.
Lemma sim_dup fd : sim (dup junk fd) (dup junk fd).
Proof. unfold dup, get_file. sim_tac. Qed.

Lemma sim_run c : sim (run open_path make_pipe junk stack cut c) (run open_path make_pipe junk stack cut c).
Proof.
  destruct c; cbn [run]; unfold open, copy_and_canonize, read, write, close, ioctl, dup2, chdir, set_cwd, getcwd, isatty, seek, fcntl, pipe, fork_descs, exec_descs, get_file, get_flags, set_flags;
    sim_tac; first [apply sim_write_loop|apply sim_dup|apply sim_fork|apply sim_exec_loop].
Qed.

(** *** [open] *)

(** User memory holds [bs] at [a]. *)
Definition at_user (a : Z) (bs : list Z) (m : memory) : Prop := ∀ i b, bs !! i = Some b → m !! (a + Z.of_nat i) = Some b.

Lemma at_user_size a bs m : at_user a bs m → (length bs ≤ base.size m)%nat.
Proof.
  intros Hm. rewrite <-size_dom. assert (Hsub : list_to_set ((λ i, a + Z.of_nat i) <$> seq 0 (length bs)) ⊆ dom m).
  { intros x Hx%elem_of_list_to_set. apply list_elem_of_fmap in Hx as (j & -> & Hj%elem_of_seq). destruct (lookup_lt_is_Some_2 bs j) as [b Hb]; [lia|].
    apply elem_of_dom. rewrite (Hm j b Hb). by eexists. }
  apply subseteq_size in Hsub. rewrite size_list_to_set, length_fmap, length_seq in Hsub; [done|]. apply NoDup_fmap_2; [intros ? ? ?; lia|apply NoDup_seq].
Qed.

Lemma fetch_cstr_text fuel a p rest m : text p → at_user a (p ++ 0 :: rest) m → (length p < fuel)%nat → fetch_cstr fuel a m = Done p.
Proof.
  intros Hp. revert fuel a. induction Hp as [|c p Hc Hp IH]; intros [|fuel] a Hm Hf; cbn [length] in Hf; [lia| |lia|]; cbn [fetch_cstr].
  - pose proof (Hm 0%nat 0 eq_refl) as E. rewrite Z.add_0_r in E. by rewrite E.
  - pose proof (Hm 0%nat c eq_refl) as E. rewrite Z.add_0_r in E. rewrite E, (proj2 (Z.eqb_neq c 0)) by lia. rewrite IH; [done| |lia].
    intros i b Hb. replace (a + 1 + Z.of_nat i) with (a + Z.of_nat (S i)) by lia. by apply Hm.
Qed.

(** A path that fits, and what it stands for in a working directory. *)
Record path_fits (p : list Z) (st0 : list (list Z)) : Prop := mk_path_fits {
  pf_text : text p ∧ p ≠ [] ∧ Z.of_nat (length p) + 2 ≤ MAX_PATH_LEN; pf_base : Forall (λ q, plain q ∧ q ≠ []) st0;
  pf_pieces : Forall (λ q, Z.of_nat (length q) < MAX_FILENAME_LEN) (pieces p); pf_wide : wide st0 + wide (pieces p) + 2 < MAX_PATH_LEN;
  pf_root : canon_stack (start_stack p st0) (pieces p) ≠ [] ∨ bool_decide (last p = Some slash) = true }.
Definition resolved (p : list Z) (st0 : list (list Z)) : list Z :=
  if bool_decide (head p = Some slash) then p
  else render_stack (canon_stack st0 (pieces p)) ++ if bool_decide (last p = Some slash) then [slash] else [].

Lemma copy_and_canonize_ok {T} `{DescTable T} (s : sys T F) a p st0 b :
  path_fits p st0 → m_cwd s = cstr (base_text st0) → at_user a (p ++ [0; b]) (umem s) →
  ∃ buffer, copy_and_canonize junk cut a s = Done (buffer, s) ∧ text_of buffer = Done (resolved p st0).
Proof.
  intros [(Hc & Hne & Hlen) Hst Hpc Hw Hroot] Hcwd Hm. unfold copy_and_canonize, MAX_PATH_LEN in *. pose proof (at_user_size _ _ _ Hm) as Hsize. rewrite length_app in Hsize. cbn [length] in Hsize.
  rewrite run_bind. unfold usr_strlen at 1. rewrite (fetch_cstr_text _ a p [b] (umem s) Hc Hm) by lia. rewrite bind_ret. cbn [fst snd]. rewrite swrap_small by lia.
  rewrite Z.min_l by lia. rewrite run_bind. unfold u2k at 1. replace (Z.to_nat (Z.of_nat (length p) + 1 + 1)) with (length (p ++ [0; b])) by (rewrite length_app; cbn; lia).
  rewrite (fetch_spec a _ _ Hm), bind_ret. cbn [fst snd]. erewrite lift_bind by (apply put_eq; [lia|rewrite length_app, length_replicate; cbn; lia]).
  change (take (Z.to_nat 0) _) with (@nil Z). cbn [app]. set (rest := drop _ _).
  erewrite lift_bind by (apply wr_in_range; rewrite !length_app; cbn; lia).
  assert (Hbuf : <[Z.to_nat (Z.of_nat (length p) + 1) := 0]> ((p ++ [0; b]) ++ rest) = p ++ 0 :: 0 :: rest).
  { replace (Z.to_nat (Z.of_nat (length p) + 1)) with (length p + 1)%nat by lia. rewrite <-app_assoc, insert_app_r. done. }
  rewrite Hbuf. destruct p as [|c p']; [done|]. erewrite lift_bind by reflexivity. unfold resolved. cbn [head]. destruct (Z.eqb_spec c slash) as [->|Hns]; cbn [negb].
  - rewrite bool_decide_true by done. eexists. split; [reflexivity|]. by apply text_of_text.
  - rewrite bool_decide_false by congruence. erewrite lift_bind by (by apply text_of_text). rewrite gets_bind, Hcwd.
    assert (Hss : start_stack (c :: p') st0 = st0) by (unfold start_stack; by rewrite (proj2 (Z.eqb_neq c slash))). rewrite Hss in Hroot.
    destruct (canonize_correct (c :: p') st0 (replicate (Z.to_nat 2048) junk) 2048) as (buffer' & Hcan & Htext); [done|done|done|done|by rewrite length_replicate|lia|by rewrite Hss|].
    erewrite lift_bind by exact Hcan. exists buffer'. rewrite Hss in Htext. split; [reflexivity|exact Htext].
Qed.

(** C21 (functional): [open] copies the path from user memory, resolves a relative one
    against the working directory, and returns the lowest free descriptor for the file
    that [File::open] gives; an error of [File::open] becomes the error number and the
    result -1, with the table as it was.  The path fits the buffers and does not
    lead to the root itself, unless it ends in a slash: of a relative one [canonize_path]
    would leave nothing.  The working directory has no slash at its end but that of the
    root. *)
Theorem open_call_resolves (s : sys V F) m a mode p st0 b :
  table_rel (descs s) m → path_fits p st0 → m_cwd s = cstr (base_text st0) → at_user a (p ++ [0; b]) (umem s) → lowest m < limit →
  match open_path (resolved p st0) mode with
  | inr f => ∃ s', open open_path junk cut a mode s = Done (lowest m, s') ∧ m !! lowest m = None ∧
      table_rel (descs s') (<[lowest m := mk_desc (next_file s) junk]> m) ∧ files s' = <[next_file s := (f, junk)]> (files s) ∧ errno s' = errno s
  | inl e => open open_path junk cut a mode s = Done (-1, with_errno e s)
  end.
Proof.
  intros Ht Hp Hcwd Hm Hlim. destruct (copy_and_canonize_ok s a p st0 b Hp Hcwd Hm) as (buffer & Hcopy & Htext). 
  assert (Ho : open open_path junk cut a mode s = ensure_opt (open_path (resolved p st0) mode) (λ f, id ← new_file junk f; desc_push (mk_desc id junk)) s).
  { unfold open.
    rewrite run_bind, Hcopy. cbn [fst snd]. by erewrite lift_bind by exact Htext. }
  unfold ensure_opt in Ho. destruct (open_path (resolved p st0) mode) as [e|f]; [exact Ho|]. rewrite run_bind in Ho. unfold new_file at 1 in Ho. cbn [fst snd] in Ho.
  unfold desc_push in Ho. cbn [descs with_files] in Ho. destruct (table_new (descs s) m (mk_desc (next_file s) junk) Ht) as (v' & Hpush & Hnone & Hrel).
  rewrite Hpush, bind_ret in Ho. eexists. split_and!; [exact Ho|done|by apply Hrel|done|done].
Qed.

(** *** [write] *)

(** A file that takes what it is given, at most 1024 bytes at a time. *)
Definition takes_all (out : F → list Z) : Prop :=
  ∀ bs f, Z.of_nat (length bs) ≤ 1024 → ∃ f', f_write bs f = Done (inr (Z.of_nat (length bs)), f') ∧ out f' = out f ++ bs.

Lemma write_loop_ok out turns (s : sys V F) id a bs i f fl :
  takes_all out → at_user a bs (umem s) → files s !! id = Some (f, fl) → Z.of_nat (length bs) < 2 ^ 62 → 0 ≤ i →
  Z.of_nat (length bs) - i ≤ 1024 * Z.of_nat turns →
  ∃ s' f', write_loop turns id a (Z.of_nat (length bs)) i (i `min` Z.of_nat (length bs)) s = Done (Z.of_nat (length bs), s') ∧
    files s' !! id = Some (f', fl) ∧ out f' = out f ++ drop (Z.to_nat i) bs ∧ descs s' = descs s ∧ errno s' = errno s.
Proof.
  intros Hout Hm. revert i s f Hm. induction turns as [|turns IH]; intros i s f Hm Hf Hb Hi Hturns; cbn [write_loop]; destruct (Z.ltb_spec i (Z.of_nat (length bs))) as [Hlt|Hge]; cbn [negb]; [lia| | |];
    [exists s, f; rewrite Z.min_r, drop_ge, app_nil_r by lia; by split_and!| |exists s, f; rewrite Z.min_r, drop_ge, app_nil_r by lia; by split_and!].
  set (n := (Z.of_nat (length bs) - i) `min` 1024). set (chunk := take (Z.to_nat n) (drop (Z.to_nat i) bs)).
  assert (Hlc : Z.of_nat (length chunk) = n) by (unfold chunk; rewrite length_take, length_drop; lia).
  rewrite run_bind. unfold u2k at 1. fold n. assert (En : Z.to_nat n = length chunk) by lia. rewrite En, (fetch_spec (a + i) chunk).
  2: { intros k x Hk. unfold chunk in Hk. apply lookup_take_Some in Hk as [Hk _]. rewrite lookup_drop in Hk. apply Hm in Hk. rewrite <-Hk. f_equal. lia. }
  rewrite bind_ret. cbn [fst snd]. rewrite run_bind. unfold on_file at 1. rewrite Hf. destruct (Hout chunk f ltac:(lia)) as (f' & -> & Hf'). rewrite bind_ret. cbn [fst snd ensure_opt].
  rewrite Hlc, Z.min_l by lia. rewrite swrap_small by lia. rewrite wrap_small by lia.
  set (s1 := with_files _ _ s). assert (Hwr : i + n = (i + 1024) `min` Z.of_nat (length bs)) by lia. rewrite Hwr.
  destruct (IH (i + 1024) s1 f') as (s' & f2 & E & H1 & H2 & H3 & H4); [done|by apply lookup_insert_eq|done|lia|lia|].
  exists s', f2. split_and!; [exact E|exact H1| |exact H3|exact H4]. rewrite H2, Hf', <-app_assoc. f_equal. unfold chunk.
  rewrite <-(take_drop (Z.to_nat n) (drop (Z.to_nat i) bs)) at 2. f_equal. rewrite drop_drop. destruct (decide (n = 1024)) as [E1|E1]; [f_equal; lia|rewrite !drop_ge by lia; done].
Qed.

(** The bytes of the caller reach the file in their order, whatever their number. *)
Lemma write_delivers out (s : sys V F) m fd d a bs f fl :
  takes_all out → table_rel (descs s) m → m !! fd = Some d → files s !! d_file d = Some (f, fl) → at_user a bs (umem s) → Z.of_nat (length bs) < 2 ^ 62 →
  ∃ s' f', write fd a (Z.of_nat (length bs)) s = Done (Z.of_nat (length bs), s') ∧ files s' !! d_file d = Some (f', fl) ∧ out f' = out f ++ bs ∧ descs s' = descs s.
Proof.
  intros Hout Ht Hd Hf Hm Hb. unfold write, get_file. rewrite !run_bind. unfold desc_present at 1. cbn [t_present lazy_table]. rewrite (table_present _ _ fd Ht), Hd, bool_decide_true by by eexists.
  rewrite bind_ret. cbn [fst snd negb]. rewrite run_bind. unfold desc_at at 1. cbn [t_at lazy_table]. rewrite (table_at _ _ fd d Ht Hd), bind_ret. cbn [fst snd ensure_opt].
  destruct (write_loop_ok out (Z.to_nat (Z.of_nat (length bs) / 1024 + 1)) s (d_file d) a bs 0 f fl) as (s' & f' & E & H1 & H2 & H3 & _); try done; [pose proof (Z.div_mod (Z.of_nat (length bs)) 1024 ltac:(lia)); pose proof (Z.mod_pos_bound (Z.of_nat (length bs)) 1024 ltac:(lia)); lia|].
  rewrite Z.min_l in E by lia. exists s', f'. rewrite drop_0 in H2. by split_and!.
Qed.

(** *** What the calls promise *)

(** The operations of a file return. *)
Record files_return : Prop := mk_files_return {
  fr_read : ∀ n d f, 0 < n ≤ Z.of_nat (length d) → ∃ r d' f', f_read n d f = Done (r, d', f') ∧ length d' = length d;
  fr_write : ∀ bs f, ∃ r f', f_write bs f = Done (r, f'); fr_ioctl : ∀ rq v f, ∃ r f', f_ioctl rq v f = Done (r, f');
  fr_seek : ∀ p m f, ∃ r f', f_seek p m f = Done (r, f'); fr_dup : ∀ f, ∃ r f', f_dup f = Done (r, f');
  fr_close : ∀ f, ∃ e f', f_close f = Done (e, f') }.

(** Every descriptor has a file object of its own. *)
Record owned (t : sys G F) : Prop := mk_owned {
  ow_num : ∀ fd d, descs t !! fd = Some d → 0 ≤ fd < limit; ow_file : ∀ fd d, descs t !! fd = Some d → is_Some (files t !! d_file d);
  ow_old : ∀ fd d, descs t !! fd = Some d → d_file d < next_file t;
  ow_own : ∀ fd fd' d d', descs t !! fd = Some d → descs t !! fd' = Some d' → d_file d = d_file d' → fd = fd' }.

(** A table with room for [n] more descriptors; memory that can be accessed. *)
Definition room (n : Z) (t : sys G F) : Prop := Z.of_nat (base.size (descs t)) + n ≤ limit.
Definition accessible (a n : Z) (t : sys G F) : Prop := ∀ x, a ≤ x < a + n → is_Some (umem t !! x).
(** The file of a descriptor: the number of the object, its state and its flags. *)
Definition file_of (fd : Z) (t : sys G F) : option (Z * F * Z) :=
  d ← descs t !! fd; '(f, fl) ← files t !! d_file d; Some (d_file d, f, fl).
Definition put_file (id : Z) (f : F) (fl : Z) (t : sys G F) : sys G F := with_files (<[id := (f, fl)]> (files t)) (next_file t) t.
(** A new object for [f], at the descriptor [fd]. *)
Definition install (fd : Z) (f : F) (t : sys G F) : sys G F :=
  with_descs (<[fd := mk_desc (next_file t) junk]> (descs t)) (with_files (<[next_file t := (f, junk)]> (files t)) (next_file t + 1) t).
(** The descriptors that go with [exec]. *)
Definition cloexec (d : Descriptor) : bool := Z.odd (d_flags d).

(** [EBADF] for a number that is free, or the operation on the file. *)
Definition with_file (fd bad : Z) (t : sys G F) (r : Z) (t' : sys G F) (k : Z → F → Z → Prop) : Prop :=
  match file_of fd t with None => r = bad ∧ t' = with_errno EBADF t | Some (id, f, fl) => k id f fl end.
Definition or_error {A} (v : error_t + A) (t : sys G F) (r : Z) (t' : sys G F) (k : A → Prop) : Prop :=
  match v with inl e => r = -1 ∧ t' = with_errno e t | inr a => k a end.

(** A duplicate of the file of [fd] at the number [dst]. *)
Definition dup_spec (fd dst : Z) (t : sys G F) (r : Z) (t' : sys G F) : Prop :=
  with_file fd (-1) t r t' (λ id f fl, ∃ v f', f_dup f = Done (v, f') ∧
    or_error v (put_file id f' fl t) r t' (λ g, r = dst ∧ t' = install dst g (put_file id f' fl t))).

(** The child has the numbers and the flags of its parent, each with a duplicate of the
    file, or with none when the duplicate cannot be made. *)
Definition fork_spec (t t' : sys G F) : Prop :=
  descs t' = descs t ∧ errno t' = errno t ∧ m_cwd t' = m_cwd t ∧ umem t' = umem t ∧
  ∀ fd, match file_of fd t with
        | None => child t' !! fd = None
        | Some (id, f, fl) => ∃ d d' v f', descs t !! fd = Some d ∧ child t' !! fd = Some d' ∧ d_flags d' = d_flags d ∧ f_dup f = Done (v, f') ∧
            match v with inl _ => d_file d' = 0 | inr g => next_file t ≤ d_file d' < next_file t' ∧ files t' !! d_file d' = Some (g, junk) end
        end.

(** The marked descriptors are gone and their files closed; the others are as they were. *)
Definition exec_spec (t t' : sys G F) : Prop :=
  child t' = child t ∧ errno t' = errno t ∧ m_cwd t' = m_cwd t ∧ umem t' = umem t ∧
  ∀ fd, match descs t !! fd with
        | None => descs t' !! fd = None
        | Some d => if cloexec d then descs t' !! fd = None ∧ ∃ f fl e f', files t !! d_file d = Some (f, fl) ∧ f_close f = Done (e, f') ∧ files t' !! d_file d = Some (f', fl)
                    else descs t' !! fd = Some d ∧ files t' !! d_file d = files t !! d_file d
        end.

(** What a call needs, and what it does. *)
Definition pre (c : call) (t : sys G F) : Prop :=
  match c with
  | Open a _ => room 1 t ∧ ∃ p st0 b, path_fits p st0 ∧ m_cwd t = cstr (base_text st0) ∧ at_user a (p ++ [0; b]) (umem t)
  | Read _ buf count => accessible buf (count `min` 1024) t
  | Write _ buf count => 0 ≤ count < 2 ^ 62 ∧ accessible buf count t
  | Dup _ | Fcntl _ _ _ => room 1 t
  | Dup2 _ dst => 0 ≤ dst < limit
  | Chdir a => ∃ p, text p ∧ Z.of_nat (length p) < MAX_PATH_LEN ∧ at_user a (p ++ [0]) (umem t)
  | Getcwd buf _ => ∃ p, text p ∧ m_cwd t = cstr p ∧ accessible buf (Z.of_nat (length p) + 1) t
  | Pipe rp wp => room 2 t ∧ accessible rp 4 t ∧ accessible wp 4 t
  | ExecDescs (Some (i, o, e)) => NoDup [i; o; e] ∧ Forall (λ id, is_Some (files t !! id) ∧ id < next_file t ∧ ∀ fd d, descs t !! fd = Some d → d_file d ≠ id) [i; o; e]
  | _ => True
  end.
Definition spec (c : call) (t : sys G F) (r : Z) (t' : sys G F) : Prop :=
  match c with
  | Open a mode => ∀ p st0 b, path_fits p st0 → m_cwd t = cstr (base_text st0) → at_user a (p ++ [0; b]) (umem t) →
      or_error (open_path (resolved p st0) mode) t r t' (λ f, r = lowest (descs t) ∧ t' = install (lowest (descs t)) f t)
  | Read fd buf count => with_file fd (-1) t r t' (λ id f fl,
      if 0 <? count then ∃ v d f', f_read (count `min` 1024) stack f = Done (v, d, f') ∧
        match v with
        | inl _ => r = -1 ∧ t' = with_errno EINVAL (put_file id f' fl t)
        | inr n => r = n ∧ ∃ mem, t' = with_umem mem (put_file id f' fl t) ∧
            ∀ x, mem !! x = if decide (buf ≤ x < buf + count `min` 1024) then d !! Z.to_nat (x - buf) else umem t !! x
        end
      else r = 0 ∧ t' = t)
  | Write fd _ _ => with_file fd (-1) t r t' (λ id f fl, ∃ f' e, t' = with_errno e (put_file id f' fl t) ∧ (r ≠ -1 → e = errno t))
  | Close fd => with_file fd (-1) t r t' (λ id f fl, ∃ e f', f_close f = Done (e, f') ∧ r = 0 ∧
      t' = if decide (e = ENONE) then put_file id f' fl t else with_errno e (put_file id f' fl t))
  | Ioctl fd rq v => with_file fd (-1) t r t' (λ id f fl, ∃ v' f', f_ioctl rq v f = Done (v', f') ∧ or_error v' (put_file id f' fl t) r t' (λ n, r = n ∧ t' = put_file id f' fl t))
  | Seek fd pos mode => with_file fd (-1) t r t' (λ id f fl,
      if decide (0 ≤ mode ≤ 2) then ∃ v f', f_seek pos mode f = Done (v, f') ∧ or_error v (put_file id f' fl t) r t' (λ n, r = n ∧ t' = put_file id f' fl t)
      else r = -1 ∧ t' = with_errno EINVAL t)
  | Isatty fd => with_file fd 0 t r t' (λ _ f _, if f_isatty f then r = 1 ∧ t' = with_errno ENONE t else r = 0 ∧ t' = with_errno ENOTTY t)
  | Dup fd => dup_spec fd (lowest (descs t)) t r t'
  | Dup2 src dst => dup_spec src dst t r t'
  | Chdir a => ∀ p, text p → Z.of_nat (length p) < MAX_PATH_LEN → at_user a (p ++ [0]) (umem t) → r = 0 ∧ t' = with_cwd (cstr p) t
  | Getcwd buf len => ∀ p, text p → m_cwd t = cstr p →
      if decide (Z.of_nat (length p) < len) then r = buf ∧ ∃ mem, t' = with_umem mem t ∧ at_user buf (cstr p) mem else r = 0 ∧ t' = with_errno ERANGE t
  | Fcntl fd cmd v => with_file fd (-1) t r t' (λ id f fl,
      if cmd =? 1 then dup_spec fd (lowest (descs t)) t r t'
      else if cmd =? 2 then t' = t ∧ ∃ d, descs t !! fd = Some d ∧ r = i32 (Z.lor (fl mod 2 ^ 16) (i32 (d_flags d * 2 ^ 16)))
      else if cmd =? 3 then
        if decide (v ∈ [0; 1; 2 ^ 16; 2 ^ 16 + 1]) then
          r = 0 ∧ t' = put_file id f (Z.lor fl (v mod 2 ^ 16)) (with_descs (<[fd := mk_desc id (v / 2 ^ 16)]> (descs t)) t)
        else r = -1 ∧ t' = with_errno EINVAL t
      else r = -1 ∧ t' = t)
  | Pipe rp wp =>
      match make_pipe with
      | inl e => r = error_code e ∧ t' = t
      | inr (rd, wr) => r = 0 ∧ ∃ mem, let t1 := install (lowest (descs t)) rd t in t' = with_umem mem (install (lowest (descs t1)) wr t1) ∧
          at_user wp (le_bytes 4 (lowest (descs t1))) mem ∧ (rp + 4 ≤ wp ∨ wp + 4 ≤ rp → at_user rp (le_bytes 4 (lowest (descs t))) mem) ∧ ∀ x, ¬ (rp ≤ x < rp + 4) → ¬ (wp ≤ x < wp + 4) → mem !! x = umem t !! x
      end
  | Fork => r = 0 ∧ fork_spec t t'
  | ExecDescs o => r = 0 ∧ ∃ t1, exec_spec t t1 ∧
      match o with
      | None => t' = t1
      | Some (i, o, e) => t' = with_descs (<[2 := mk_desc e junk]> (<[1 := mk_desc o junk]> (<[0 := mk_desc i junk]> (descs t1)))) t1
      end
  end.

(** *** The calls on the map *)

Lemma owned_with (t t' : sys G F) : owned t → descs t' = descs t → files t' = files t → next_file t' = next_file t → owned t'.
Proof. intros [? ? ? ?] Hd Hf Hn. constructor; rewrite ?Hd, ?Hf, ?Hn; eauto. Qed.
Lemma owned_put_file id f fl t : owned t → owned (put_file id f fl t).
Proof. intros [? Hf ? ?]. constructor; try done. intros fd d Hd. cbn. destruct (decide (id = d_file d)) as [->|]; [rewrite lookup_insert_eq; by eexists|rewrite lookup_insert_ne by done; by eapply Hf]. Qed.
Lemma owned_install fd f t : 0 ≤ fd < limit → owned t → owned (install fd f t).
Proof.
  intros Hfd [Hn Hf Ho Hw]. constructor; cbn.
  - intros fd' d [[<- <-]|[_ Hd]]%lookup_insert_Some; [done|by eapply Hn].
  - intros fd' d [[<- <-]|[_ Hd]]%lookup_insert_Some; cbn; [rewrite lookup_insert_eq; by eexists|]. pose proof (Ho _ _ Hd). rewrite lookup_insert_ne by lia. by eapply Hf.
  - intros fd' d [[<- <-]|[_ Hd]]%lookup_insert_Some; cbn; [lia|]. pose proof (Ho _ _ Hd). lia.
  - intros a b d d' [[<- <-]|[_ Hd]]%lookup_insert_Some [[<- <-]|[_ Hd']]%lookup_insert_Some; cbn; intros E; [done|pose proof (Ho _ _ Hd'); lia|pose proof (Ho _ _ Hd); lia|by eapply Hw].
Qed.

Lemma lowest_size m : 0 ≤ lowest m ≤ Z.of_nat (base.size m).
Proof.
  unfold lowest. assert (Hg : ∀ n i, i ≤ lowest_from n i m ≤ i + Z.of_nat n); [|specialize (Hg (base.size m) 0); lia].
  induction n as [|n IH]; intros i; cbn [lowest_from]; [lia|]. destruct (m !! i); [specialize (IH (i + 1)); lia|lia].
Qed.
Lemma push_run d (t : sys G F) : room 1 t → desc_push d t = Done (lowest (descs t), with_descs (<[lowest (descs t) := d]> (descs t)) t).
Proof. intros Hr. unfold desc_push. cbn [t_push map_table]. pose proof (lowest_size (descs t)). unfold room in Hr. destruct (Z.ltb_spec (lowest (descs t)) limit); [done|lia]. Qed.
Lemma set_run fd d (t : sys G F) : 0 ≤ fd < limit → desc_set fd d t = Done (tt, with_descs (<[fd := d]> (descs t)) t).
Proof. intros Hr. unfold desc_set. cbn [t_set map_table]. by rewrite (proj2 (Z.leb_le 0 fd)), (proj2 (Z.ltb_lt fd limit)) by lia. Qed.
Lemma get_file_run fd (t : sys G F) : get_file fd t = Done (match descs t !! fd with Some d => inr (d_file d) | None => inl EBADF end, t).
Proof. unfold get_file, desc_present, desc_at. rewrite run_bind. cbn. destruct (descs t !! fd) eqn:E; cbn; [|done]. rewrite run_bind. cbn. by rewrite E. Qed.
Lemma on_file_run {R} id (op : F → outcome (R * F)) (t : sys G F) f fl v f' : files t !! id = Some (f, fl) → op f = Done (v, f') → on_file id op t = Done (v, put_file id f' fl t).
Proof. intros Hf Ho. unfold on_file. by rewrite Hf, Ho. Qed.

(** A call on the file of a descriptor. *)
Lemma with_file_run fd t (k : Z → stateM (sys G F) Z) P :
  owned t → (∀ d f fl, descs t !! fd = Some d → files t !! d_file d = Some (f, fl) → file_of fd t = Some (d_file d, f, fl) →
    ∃ r t', k (d_file d) t = Done (r, t') ∧ owned t' ∧ P (d_file d) f fl r t') →
  ∃ r t', (v ← get_file fd; ensure_opt v k) t = Done (r, t') ∧ owned t' ∧ with_file fd (-1) t r t' (λ id f fl, P id f fl r t').
Proof.
  intros Ho Hk. rewrite run_bind, get_file_run. cbn [fst snd]. unfold with_file, file_of in *. destruct (descs t !! fd) as [d|] eqn:Ed; cbn [ensure_opt mbind option_bind].
  - destruct (ow_file t Ho fd d Ed) as [[f fl] Hf]. destruct (Hk d f fl eq_refl Hf) as (r & t' & Hr & Ho' & Hp); [cbn; by rewrite Hf|]. exists r, t'. by rewrite Hf.
  - exists (-1), (with_errno EBADF t). split_and!; [done|by apply (owned_with t)|done|done].
Qed.
(** An operation of the file whose result is the result of the call. *)
Lemma op_run {A} fd (op : F → outcome ((error_t + A) * F)) t (k : A → stateM (sys G F) Z) P :
  owned t → (∀ f, ∃ v f', op f = Done (v, f')) →
  (∀ d f fl f' a, descs t !! fd = Some d → files t !! d_file d = Some (f, fl) → op f = Done (inr a, f') →
    ∃ r t', k a (put_file (d_file d) f' fl t) = Done (r, t') ∧ owned t' ∧ P (d_file d) f' fl a r t') →
  ∃ r t', (v ← get_file fd; ensure_opt v (λ id, v ← on_file id op; ensure_opt v k)) t = Done (r, t') ∧ owned t' ∧
    with_file fd (-1) t r t' (λ id f fl, ∃ v f', op f = Done (v, f') ∧ or_error v (put_file id f' fl t) r t' (λ a, P id f' fl a r t')).
Proof.
  intros Ho Hop Hk. apply (with_file_run fd t _ (λ id f fl r t', ∃ v f', op f = Done (v, f') ∧ or_error v (put_file id f' fl t) r t' (λ a, P id f' fl a r t'))); [done|].
  intros d f fl Hd Hf _. destruct (Hop f) as (v & f' & Hv). rewrite run_bind, (on_file_run _ _ t f fl v f' Hf Hv). cbn [fst snd]. destruct v as [e|a]; cbn [ensure_opt].
  - exists (-1), (with_errno e (put_file (d_file d) f' fl t)). split_and!; [done|by apply (owned_with (put_file (d_file d) f' fl t)); [apply owned_put_file|..]|].
    exists (inl e), f'. done.
  - destruct (Hk d f fl f' a Hd Hf Hv) as (r & t' & Hr & Ho' & Hp). exists r, t'. split_and!; [done|done|]. by exists (inr a), f'.
Qed.

Lemma dup_run fd t : files_return → owned t → room 1 t → ∃ r t', dup junk fd t = Done (r, t') ∧ owned t' ∧ dup_spec fd (lowest (descs t)) t r t'.
Proof.
  intros Hfr Ho Hr. apply (op_run fd f_dup t (λ f, id ← new_file junk f; desc_push (mk_desc id junk)) (λ id f' fl g r t', r = lowest (descs t) ∧ t' = install (lowest (descs t)) g (put_file id f' fl t))); [done|apply Hfr|].
  intros d f fl f' g Hd Hf Hv. rewrite run_bind. cbn [new_file fst snd]. rewrite push_run by done. eexists _, _. split_and!; [reflexivity| |done|done].
  apply (owned_install (lowest (descs t)) g (put_file (d_file d) f' fl t)); [|by apply owned_put_file]. pose proof (lowest_size (descs t)). unfold room in Hr. lia.
Qed.
Lemma dup2_run src dst t : files_return → owned t → 0 ≤ dst < limit → ∃ r t', dup2 junk src dst t = Done (r, t') ∧ owned t' ∧ dup_spec src dst t r t'.
Proof.
  intros Hfr Ho Hr. apply (op_run src f_dup t (λ f, id ← new_file junk f; desc_set dst (mk_desc id junk);; mret dst) (λ id f' fl g r t', r = dst ∧ t' = install dst g (put_file id f' fl t))); [done|apply Hfr|].
  intros d f fl f' g Hd Hf Hv. rewrite run_bind. cbn [new_file fst snd]. rewrite run_bind, set_run by done. eexists _, _. split_and!; [reflexivity| |done|done].
  apply (owned_install dst g (put_file (d_file d) f' fl t)); [done|by apply owned_put_file].
Qed.

(** [fork] up to the number [i]. *)
Definition forked (i : Z) (t t' : sys G F) : Prop :=
  owned t' ∧ descs t' = descs t ∧ errno t' = errno t ∧ m_cwd t' = m_cwd t ∧ umem t' = umem t ∧ next_file t ≤ next_file t' ∧
  (∀ fd, i ≤ fd → child t' !! fd = None ∧ ∀ d, descs t !! fd = Some d → files t' !! d_file d = files t !! d_file d) ∧
  ∀ fd, fd < i → match file_of fd t with
        | None => child t' !! fd = None
        | Some (id, f, fl) => ∃ d d' v f', descs t !! fd = Some d ∧ child t' !! fd = Some d' ∧ d_flags d' = d_flags d ∧ f_dup f = Done (v, f') ∧
            match v with inl _ => d_file d' = 0 | inr g => next_file t ≤ d_file d' < next_file t' ∧ files t' !! d_file d' = Some (g, junk) end
        end.

Lemma fork_turn_run i t t1 : files_return → owned t → forked i t t1 → ∃ t', fork_turn junk i t1 = Done (tt, t') ∧ forked (i + 1) t t'.
Proof.
  intros Hfr Ht (Ho & Hd & He & Hc & Hu & Hn & Hlater & Hdone). unfold fork_turn, desc_present, desc_at. rewrite run_bind. cbn. rewrite Hd. destruct (descs t !! i) as [d|] eqn:Ed; cbn.
  2: { exists t1. split; [done|]. unfold forked. split_and!; try done; intros fd Hfd; [apply Hlater; lia|]. destruct (decide (fd < i)) as [Hlt|]; [by apply Hdone|].
       assert (fd = i) as -> by lia. unfold file_of. rewrite Ed. cbn. by apply Hlater. }
  rewrite run_bind. cbn. rewrite Hd, Ed. cbn. rewrite run_bind. destruct (ow_file t Ht i d Ed) as [[f fl] Hf]. destruct (Hlater i ltac:(lia)) as [_ Hsame]. pose proof Hf as Hf1. rewrite <-(Hsame d Ed) in Hf1.
  destruct (fr_dup Hfr f) as (v & f' & Hv). rewrite (on_file_run _ _ t1 f fl v f' Hf1 Hv). cbn [fst snd]. pose proof (ow_num t Ht i d Ed) as Hi.
  assert (Hset : ∀ x (u : sys G F), child_set i x u = Done (tt, with_child (<[i := x]> (child u)) u)).
  { intros x u. unfold child_set. cbn [t_set map_table]. by rewrite (proj2 (Z.leb_le 0 i)), (proj2 (Z.ltb_lt i limit)) by lia. }
  assert (Hfile : file_of i t = Some (d_file d, f, fl)) by (unfold file_of; rewrite Ed; cbn; by rewrite Hf).
  assert (Hrest : ∀ fd x, i + 1 ≤ fd → descs t !! fd = Some x → d_file d ≠ d_file x) by (intros fd x Hfd Hx E; pose proof (ow_own t Ht i fd d x Ed Hx E); lia).
  assert (Hold : ∀ fd x, descs t !! fd = Some x → d_file x < next_file t1) by (intros fd x Hx; apply (ow_old t1 Ho fd); by rewrite Hd).
  pose proof (owned_put_file (d_file d) f' fl t1 Ho) as Ho1. destruct v as [e|g].
  - rewrite Hset. eexists. split; [reflexivity|]. unfold forked. split_and!; try done; [by apply (owned_with (put_file (d_file d) f' fl t1))|..]; intros fd Hfd; cbn.
    + split; [rewrite lookup_insert_ne by lia; apply Hlater; lia|]. intros x Hx. rewrite lookup_insert_ne by (by eapply Hrest). apply (proj2 (Hlater fd ltac:(lia)) x Hx).
    + destruct (decide (fd = i)) as [->|Hne]; [rewrite Hfile; exists d, (mk_desc 0 (d_flags d)), (inl e), f'; by rewrite lookup_insert_eq|].
      specialize (Hdone fd ltac:(lia)). rewrite lookup_insert_ne by lia. destruct (file_of fd t) as [[[id0 f0] fl0]|]; [|done].
      destruct Hdone as (d0 & d' & v & f0' & H1 & H2 & H3 & H4 & H5). exists d0, d', v, f0'. split_and!; try done. destruct v as [|g]; [done|]. destruct H5 as [H5 H6]. split; [done|].
      rewrite lookup_insert_ne; [done|]. intros E. pose proof (ow_old t Ht i d Ed). lia.
  - rewrite run_bind. cbn [new_file fst snd]. rewrite Hset. eexists. split; [reflexivity|]. unfold forked. pose proof (owned_install i g _ Hi Ho1) as Ho2. cbn.
    split_and!; try done; [|lia|..].
    + constructor; cbn; [apply Ho1| |intros fd x Hx; rewrite Hd in Hx; specialize (Hold fd x Hx); lia|apply Ho1].
      intros fd x Hx. pose proof Hx as Hx'. rewrite Hd in Hx'. specialize (Hold fd x Hx'). rewrite lookup_insert_ne by lia. by apply (ow_file _ Ho1 fd).
    + intros fd Hfd. split; [rewrite lookup_insert_ne by lia; apply Hlater; lia|]. intros x Hx. specialize (Hold fd x Hx). rewrite lookup_insert_ne by lia. rewrite lookup_insert_ne by (by eapply Hrest). apply (proj2 (Hlater fd ltac:(lia)) x Hx).
    + intros fd Hfd. destruct (decide (fd = i)) as [->|Hne].
      { rewrite Hfile. exists d, (mk_desc (next_file t1) (d_flags d)), (inr g), f'. rewrite !lookup_insert_eq. split_and!; try done; cbn; lia. }
      specialize (Hdone fd ltac:(lia)). rewrite lookup_insert_ne by lia. destruct (file_of fd t) as [[[id0 f0] fl0]|]; [|done].
      destruct Hdone as (d0 & d' & v & f0' & H1 & H2 & H3 & H4 & H5). exists d0, d', v, f0'. split_and!; try done. destruct v as [|g0]; [done|]. destruct H5 as [H5 H6]. split; [lia|].
      rewrite lookup_insert_ne by lia. rewrite lookup_insert_ne; [done|]. intros E. pose proof (ow_old t Ht i d Ed). lia.
Qed.

Lemma highest_beyond t fd : owned t → highest (descs t) ≤ fd → descs t !! fd = None.
Proof. intros Ho Hfd. destruct (descs t !! fd) as [d|] eqn:E; [|done]. destruct (highest_spec (descs t)) as (_ & Hh & _); [intros i x Hi; apply (ow_num t Ho) in Hi; lia|]. apply Hh in E. lia. Qed.

Lemma fork_run t : files_return → owned t → ∃ t', fork_descs junk t = Done (tt, t') ∧ owned t' ∧ fork_spec t t'.
Proof.
  intros Hfr Ho. unfold fork_descs. rewrite modify_bind. unfold desc_count. rewrite gets_bind. cbn [t_count map_table descs with_child]. set (t0 := with_child t_empty t).
  assert (Hh : 0 ≤ highest (descs t)) by (destruct (highest_spec (descs t)); [intros i x Hi; apply (ow_num t Ho) in Hi; lia|done]).
  destruct (sfor_keeps (λ i t', forked i t t') (Z.to_nat (highest (descs t))) 0 (fork_turn junk) t0) as (t' & Hrun & Hf).
  - intros i u _ Hu. by apply fork_turn_run.
  - unfold forked. split_and!; try done; [by apply (owned_with t)|..]. intros fd Hfd. unfold file_of. destruct (descs t !! fd) as [d|] eqn:E; [|done]. apply (ow_num t Ho) in E. lia.
  - exists t'. split; [exact Hrun|]. rewrite Z2Nat.id, Z.add_0_l in Hf by done. destruct Hf as (Ho' & Hd & He & Hc & Hu & _ & Hlater & Hdone). split; [done|]. unfold fork_spec. split_and!; try done.
    intros fd. destruct (decide (fd < highest (descs t))) as [Hlt|Hge]; [by apply Hdone|]. unfold file_of. rewrite (highest_beyond t fd) by (done || lia). cbn. apply Hlater. lia.
Qed.

(** [exec] from the number [i] on. *)
Definition closed_from (i : Z) (t t' : sys G F) : Prop :=
  child t' = child t ∧ errno t' = errno t ∧ m_cwd t' = m_cwd t ∧ umem t' = umem t ∧ next_file t' = next_file t ∧
  (∀ id, (∀ fd d, descs t !! fd = Some d → d_file d ≠ id) → files t' !! id = files t !! id) ∧
  ∀ fd, match descs t !! fd with
        | None => descs t' !! fd = None
        | Some d => if bool_decide (i ≤ fd) && cloexec d then descs t' !! fd = None ∧ ∃ f fl e f', files t !! d_file d = Some (f, fl) ∧ f_close f = Done (e, f') ∧ files t' !! d_file d = Some (f', fl)
                    else descs t' !! fd = Some d ∧ files t' !! d_file d = files t !! d_file d
        end.

Lemma closed_refl i t : highest (descs t) ≤ i → owned t → closed_from i t t.
Proof.
  intros Hi Ho. unfold closed_from. split_and!; try done. intros fd. destruct (descs t !! fd) as [d|] eqn:E; [|done]. rewrite bool_decide_false; [done|].
  intros Hfd. rewrite (highest_beyond t fd) in E by (done || lia). done.
Qed.

Lemma cloexec_bit d : (Z.land (d_flags d) FD_CLOEXEC =? 0) = negb (cloexec d).
Proof. unfold cloexec, FD_CLOEXEC. change 1 with (Z.ones 1). rewrite Z.land_ones, <-Z.negb_even, negb_involutive by lia. change (2 ^ 1) with 2. rewrite Zmod_even. by destruct (Z.even _). Qed.

Lemma highest_delete m i : (∀ i d, m !! i = Some d → 0 ≤ i) → highest (delete i m) ≤ highest m.
Proof.
  intros Hm. destruct (highest_spec m Hm) as (H1 & H2 & _). destruct (highest_spec (delete i m)) as (_ & _ & H3); [intros j d [_ Hj]%lookup_delete_Some; by eapply Hm|].
  destruct (decide (0 < highest (delete i m))) as [Hp|]; [|lia]. destruct (H3 Hp) as [d [_ Hd]%lookup_delete_Some]. apply H2 in Hd. lia.
Qed.

Lemma owned_erase fd t : owned t → owned (with_descs (delete fd (descs t)) t).
Proof.
  intros [H1 H2 H3 H4]. constructor; cbn; [intros a d [_ Hd]%lookup_delete_Some; by eauto..|].
  intros a b d d' [_ Hd]%lookup_delete_Some [_ Hd']%lookup_delete_Some. by apply H4.
Qed.

(** A turn that closes nothing, and one that closes the descriptor [i]. *)
Lemma closed_skip i t t' : (∀ d, descs t !! i = Some d → cloexec d = false) → closed_from (i + 1) t t' → closed_from i t t'.
Proof.
  intros Hi (H1 & H2 & H3 & H4 & H5 & H6 & Hall). unfold closed_from. split_and!; try done. intros fd. specialize (Hall fd). destruct (descs t !! fd) as [d|] eqn:E; [|done].
  destruct (decide (fd = i)) as [->|Hne]; [rewrite (Hi d E), andb_false_r in *; done|]. by rewrite (bool_decide_ext (i ≤ fd) (i + 1 ≤ fd)) by lia.
Qed.
Lemma closed_one i d f fl e f' t t' : owned t → descs t !! i = Some d → cloexec d = true → files t !! d_file d = Some (f, fl) → f_close f = Done (e, f') →
  closed_from (i + 1) (with_descs (delete i (descs t)) (put_file (d_file d) f' fl t)) t' → closed_from i t t'.
Proof.
  intros Ho Hd Hcl Hf Hc (H1 & H2 & H3 & H4 & H5 & Hrest & Hall). cbn in *. unfold closed_from. split_and!; try done.
  - intros id Hid. rewrite Hrest by (intros fd x [_ Hx]%lookup_delete_Some; by eapply Hid). rewrite lookup_insert_ne; [done|]. by eapply Hid.
  - intros fd. specialize (Hall fd). destruct (decide (fd = i)) as [->|Hne].
    + rewrite lookup_delete_eq in Hall. rewrite Hd, bool_decide_true, Hcl by lia. cbn [andb]. split; [done|]. exists f, fl, e, f'. split_and!; [done..|].
      rewrite Hrest; [by rewrite lookup_insert_eq|]. intros fd x [Hne Hx]%lookup_delete_Some E. apply Hne. by apply (ow_own t Ho i fd d x).
    + rewrite lookup_delete_ne in Hall by done. destruct (descs t !! fd) as [x|] eqn:Ex; [|done]. rewrite (bool_decide_ext (i ≤ fd) (i + 1 ≤ fd)) by lia.
      rewrite lookup_insert_ne in Hall; [done|]. intros E. apply Hne. symmetry. by apply (ow_own t Ho i fd d x).
Qed.

Lemma exec_loop_run turns i t : files_return → owned t → 0 ≤ i → highest (descs t) ≤ i + Z.of_nat turns →
  ∃ t', exec_loop turns i t = Done (tt, t') ∧ owned t' ∧ closed_from i t t'.
Proof.
  intros Hfr. revert i t. induction turns as [|turns IH]; intros i t Ho Hi Hh; cbn [exec_loop]; unfold desc_count; rewrite gets_bind; cbn [t_count map_table];
    (destruct (Z.ltb_spec i (highest (descs t))) as [Hlt|Hge]; cbn [negb]; [try lia|exists t; split_and!; [done|done|by apply closed_refl]]).
  rewrite run_bind. unfold desc_present at 1. cbn [t_present map_table]. rewrite bind_ret. cbn [fst snd]. rewrite run_bind. destruct (descs t !! i) as [d|] eqn:Ed.
  2: { rewrite bool_decide_false by (by intros []). cbn. destruct (IH (i + 1) t Ho ltac:(lia) ltac:(lia)) as (t' & -> & Ho' & Hc). exists t'. split_and!; [done|done|]. apply closed_skip; [by intros d; rewrite Ed|done]. }
  rewrite bool_decide_true by by eexists. cbn [negb]. rewrite run_bind. unfold desc_at at 1. cbn [t_at map_table]. rewrite Ed. cbn [fst snd mbind outcome_bind]. rewrite cloexec_bit, negb_involutive.
  destruct (cloexec d) eqn:Ecl; cbn.
  - rewrite run_bind. destruct (ow_file t Ho i d Ed) as [[f fl] Hf]. destruct (fr_close Hfr f) as (e & f' & Hc). rewrite (on_file_run _ _ t f fl e f' Hf Hc). cbn [fst snd]. unfold desc_erase at 1. cbn [t_erase map_table descs put_file with_files]. rewrite Ed. cbn.
    destruct (IH (i + 1) (with_descs (delete i (descs t)) (put_file (d_file d) f' fl t))) as (t' & -> & Ho' & Hcl).
    { apply (owned_erase i (put_file (d_file d) f' fl t)). by apply owned_put_file. } { lia. }
    { cbn. pose proof (highest_delete (descs t) i ltac:(intros j x Hj; apply (ow_num t Ho) in Hj; lia)). lia. }
    exists t'. split_and!; [done|done|]. by eapply closed_one.
  - destruct (IH (i + 1) t Ho ltac:(lia) ltac:(lia)) as (t' & -> & Ho' & Hc). exists t'. split_and!; [done|done|]. apply closed_skip; [|done]. intros x Hx. rewrite Ed in Hx. by injection Hx as <-.
Qed.

Lemma exec_run o t : files_return → owned t → pre (ExecDescs o) t → ∃ t', exec_descs junk o t = Done (tt, t') ∧ owned t' ∧ spec (ExecDescs o) t 0 t'.
Proof.
  intros Hfr Ho Hp. unfold exec_descs, desc_count. rewrite gets_bind. cbn [t_count map_table]. rewrite run_bind.
  destruct (exec_loop_run (Z.to_nat (highest (descs t))) 0 t Hfr Ho ltac:(lia) ltac:(lia)) as (t1 & -> & Ho1 & Hc). cbn [fst snd].
  assert (Hs : exec_spec t t1).
  { destruct Hc as (H1 & H2 & H3 & H4 & _ & _ & Hall). unfold exec_spec. split_and!; try done. intros fd. specialize (Hall fd). destruct (descs t !! fd) as [d|] eqn:E; [|done].
    rewrite bool_decide_true in Hall by (apply (ow_num t Ho) in E; lia). done. }
  destruct o as [[[i o] e]|]; [|exists t1; split; [done|]; split; [done|]; split; [done|]; by exists t1].
  rewrite run_bind, set_run by (unfold limit; lia). cbn [fst snd]. rewrite run_bind, set_run by (unfold limit; lia). cbn [fst snd]. rewrite set_run by (unfold limit; lia). eexists. split; [reflexivity|]. split; [|split; [done|by exists t1]].
  destruct Hc as (_ & _ & _ & _ & Hn & Hfiles & Hall). destruct Hp as [Hnd Hf].
  assert (Hfresh : ∀ id, id ∈ [i; o; e] → is_Some (files t1 !! id) ∧ id < next_file t1 ∧ ∀ fd d, descs t1 !! fd = Some d → d_file d ≠ id).
  { intros id Hid. rewrite Forall_forall in Hf. destruct (Hf id Hid) as (K1 & K2 & K3). rewrite Hn, Hfiles by done. split_and!; [done|done|]. intros fd d Hd. specialize (Hall fd).
    destruct (descs t !! fd) as [x|] eqn:Ex; [|congruence]. destruct (_ && _); [destruct Hall; congruence|]. destruct Hall as [Hx _]. assert (d = x) as -> by congruence. by eapply K3. }
  assert (Hstep : ∀ fd id m, 0 ≤ fd < limit → owned (with_descs m t1) → is_Some (files t1 !! id) → id < next_file t1 → (∀ fd d, m !! fd = Some d → d_file d ≠ id) → owned (with_descs (<[fd := mk_desc id junk]> m) t1)).
  { intros fd id m Hfd [U1 U2 U3 U4] K1 K2 K3. cbn in *. constructor; cbn.
    - intros a x [[<- _]|[_ Hx]]%lookup_insert_Some; [done|by eapply U1].
    - intros a x [[_ <-]|[_ Hx]]%lookup_insert_Some; [done|]. by eapply U2.
    - intros a x [[_ <-]|[_ Hx]]%lookup_insert_Some; [done|]. by eapply U3.
    - intros a b x y [[<- <-]|[_ Hx]]%lookup_insert_Some [[<- <-]|[_ Hy]]%lookup_insert_Some E; [done|by destruct (K3 _ _ Hy)|by destruct (K3 _ _ Hx)|by eapply U4]. }
  inversion Hnd as [|? ? N1 Hnd2]; subst. inversion Hnd2 as [|? ? N2 _]; subst.
  destruct (Hfresh i ltac:(set_solver)) as (I1 & I2 & I3). destruct (Hfresh o ltac:(set_solver)) as (O1 & O2 & O3). destruct (Hfresh e ltac:(set_solver)) as (E1 & E2 & E3).
  cbn [with_descs]. apply (Hstep 2 e); [unfold limit; lia| |done|done|].
  - apply (Hstep 1 o); [unfold limit; lia| |done|done|].
    + apply Hstep; [unfold limit; lia|by apply (owned_with t1)|done..].
    + cbn. intros fd d [[_ <-]|[_ Hx]]%lookup_insert_Some; [cbn; set_solver|by eapply O3].
  - cbn. intros fd d [[_ <-]|[_ [[_ <-]|[_ Hx]]%lookup_insert_Some]]%lookup_insert_Some; [cbn; set_solver|cbn; set_solver|by eapply E3].
Qed.

(** *** Data from and to user memory *)

Lemma fetch_total a n m : (∀ x, a ≤ x < a + Z.of_nat n → is_Some (m !! x)) → ∃ bs, fetch a n m = Done bs.
Proof.
  revert a. induction n as [|n IH]; intros a Hm; cbn [fetch]; [by eexists|]. destruct (Hm a ltac:(lia)) as [b ->]. destruct (IH (a + 1)) as [bs ->]; [intros x Hx; apply Hm; lia|]. by eexists.
Qed.
Lemma k2u_run a bs (t : sys G F) : accessible a (Z.of_nat (length bs)) t →
  ∃ mem, k2u a bs t = Done (tt, with_umem mem t) ∧ ∀ x, mem !! x = if decide (a ≤ x < a + Z.of_nat (length bs)) then bs !! Z.to_nat (x - a) else umem t !! x.
Proof. intros Ha. unfold k2u. destruct (store_spec a bs (umem t) Ha) as (mem & -> & Hl). by exists mem. Qed.
Lemma stored_at_user a bs (mem m : memory) : (∀ x, mem !! x = if decide (a ≤ x < a + Z.of_nat (length bs)) then bs !! Z.to_nat (x - a) else m !! x) → at_user a bs mem.
Proof. intros Hm i b Hb. pose proof (lookup_lt_Some _ _ _ Hb). rewrite Hm, decide_True by lia. by replace (Z.to_nat (a + Z.of_nat i - a)) with i by lia. Qed.

Lemma put_put id f fl g (t : sys G F) : put_file id g fl (put_file id f fl t) = put_file id g fl t.
Proof. unfold put_file, with_files. cbn. by rewrite insert_insert_eq. Qed.
Lemma put_same id f fl (t : sys G F) : files t !! id = Some (f, fl) → put_file id f fl t = t.
Proof. intros Hf. unfold put_file, with_files. rewrite insert_id by done. by destruct t. Qed.

Lemma write_loop_run turns id a count i w t f fl : files_return → files t !! id = Some (f, fl) → 0 ≤ i → count < 2 ^ 62 → accessible a count t → count - i ≤ 1024 * Z.of_nat turns →
  ∃ r f' e, write_loop turns id a count i w t = Done (r, with_errno e (put_file id f' fl t)) ∧ (r ≠ -1 → e = errno t).
Proof.
  intros Hfr. revert i w t f. induction turns as [|turns IH]; intros i w t f Hf Hi Hc Ha Ht; cbn [write_loop]; (destruct (Z.ltb_spec i count); cbn [negb];
    [try lia|exists w, f, (errno t); split; [|done]; rewrite (put_same id f fl t Hf); by destruct t]).
  rewrite run_bind. unfold u2k at 1. destruct (fetch_total (a + i) (Z.to_nat ((count - i) `min` 1024)) (umem t)) as [bs ->]; [intros x Hx; apply Ha; lia|]. cbn [mbind outcome_bind fst snd].
  rewrite run_bind. destruct (fr_write Hfr bs f) as (v & f' & Hv). rewrite (on_file_run _ _ t f fl v f' Hf Hv). cbn [fst snd]. destruct v as [e|n]; cbn [ensure_opt]; [by exists (-1), f', e|].
  rewrite wrap_small by lia. destruct (IH (i + 1024) (i64 (w + n)) (put_file id f' fl t) f') as (r & f2 & e & -> & He); [by apply lookup_insert_eq|lia|done|done|lia|].
  exists r, f2, e. by rewrite put_put.
Qed.

Lemma chdir_run a p (t : sys G F) : text p → Z.of_nat (length p) < MAX_PATH_LEN → at_user a (p ++ [0]) (umem t) → chdir a t = Done (0, with_cwd (cstr p) t).
Proof.
  unfold MAX_PATH_LEN. intros Hp Hl Hm. pose proof (at_user_size _ _ _ Hm) as Hs. rewrite length_app in Hs. cbn in Hs. unfold chdir, MAX_PATH_LEN. rewrite run_bind. unfold usr_strlen at 1.
  rewrite (fetch_cstr_text _ a p [] (umem t) Hp Hm) by lia. cbn [mbind outcome_bind fst snd]. rewrite swrap_small by lia. rewrite Z.min_l by lia. rewrite run_bind. unfold u2k at 1.
  rewrite Nat2Z.id, (fetch_spec a p) by (intros i b Hb; apply Hm; by apply lookup_app_l_Some). cbn [mbind outcome_bind fst snd]. rewrite run_bind. unfold set_cwd, MAX_PATH_LEN.
  erewrite lift_bind by (by apply (strlen_text p [])). rewrite Z.min_l by lia. erewrite lift_bind by (apply (strncpy_text _ p []); rewrite ?length_replicate; (done || lia)).
  rewrite drop_ge by (rewrite length_replicate; lia). done.
Qed.

Lemma getcwd_run buf len p t : text p → m_cwd t = cstr p → accessible buf (Z.of_nat (length p) + 1) t →
  ∃ r t', getcwd buf len t = Done (r, t') ∧ (owned t → owned t') ∧ if decide (Z.of_nat (length p) < len) then r = buf ∧ ∃ mem, t' = with_umem mem t ∧ at_user buf (cstr p) mem else r = 0 ∧ t' = with_errno ERANGE t.
Proof.
  intros Hp Hc Ha. unfold getcwd. rewrite gets_bind, Hc. erewrite lift_bind by (by apply (strlen_text p [])). rewrite Z.gtb_ltb. destruct (Z.ltb_spec len (Z.of_nat (length p) + 1)).
  - eexists _, _. split; [reflexivity|]. split; [intros Ho; by apply (owned_with t)|]. by rewrite decide_False by lia.
  - assert (Hl : Z.of_nat (length (cstr p)) = Z.of_nat (length p) + 1) by (unfold cstr; rewrite length_app; cbn; lia).
    erewrite lift_bind by (apply get_eq; lia). rewrite <-Hl, Nat2Z.id, drop_0, firstn_all. rewrite run_bind. destruct (k2u_run buf (cstr p) t) as (mem & -> & Hmem); [by rewrite Hl|].
    eexists _, _. split; [reflexivity|]. split; [intros Ho; by apply (owned_with t)|]. rewrite decide_True by lia. split; [done|]. exists mem. split; [done|]. by eapply stored_at_user.
Qed.

Lemma read_run fd buf count t : files_return → length stack = 1024%nat → owned t → accessible buf (count `min` 1024) t →
  ∃ r t', read stack fd buf count t = Done (r, t') ∧ owned t' ∧ spec (Read fd buf count) t r t'.
Proof.
  intros Hfr Hst Ho Ha. apply (with_file_run fd t _ (λ id f fl r t', if 0 <? count then ∃ v d f', f_read (count `min` 1024) stack f = Done (v, d, f') ∧
        match v with
        | inl _ => r = -1 ∧ t' = with_errno EINVAL (put_file id f' fl t)
        | inr n => r = n ∧ ∃ mem, t' = with_umem mem (put_file id f' fl t) ∧
            ∀ x, mem !! x = if decide (buf ≤ x < buf + count `min` 1024) then d !! Z.to_nat (x - buf) else umem t !! x
        end
      else r = 0 ∧ t' = t)); [done|].
  intros d f fl Hd Hf _. destruct (Z.ltb_spec 0 count) as [Hc|Hc]; [|by eexists _, _]. rewrite run_bind. destruct (fr_read Hfr (count `min` 1024) stack f ltac:(lia)) as (v & b & f' & Hv & Hl).
  rewrite (on_file_run _ _ t f fl (v, b) f' Hf) by (by rewrite Hv). cbn [fst snd]. pose proof (owned_put_file (d_file d) f' fl t Ho) as Ho1. destruct v as [e|n].
  - eexists _, _. split; [reflexivity|]. split; [by apply (owned_with (put_file (d_file d) f' fl t))|]. by exists (inl e), b, f'.
  - erewrite lift_bind by (apply get_eq; lia). rewrite run_bind. set (bs := take _ _). assert (Hbs : Z.of_nat (length bs) = count `min` 1024) by (unfold bs; rewrite length_take, length_drop; lia).
    destruct (k2u_run buf bs (put_file (d_file d) f' fl t)) as (mem & -> & Hmem); [by rewrite Hbs|]. eexists _, _. split; [reflexivity|]. split; [by apply (owned_with (put_file (d_file d) f' fl t))|].
    exists (inr n), b, f'. split_and!; [done|done|]. exists mem. split; [done|]. intros x. rewrite Hmem, Hbs. case_decide; [|done]. unfold bs. rewrite drop_0, lookup_take_lt by lia. done.
Qed.

Lemma pipe_run rp wp t : owned t → pre (Pipe rp wp) t → ∃ r t', pipe make_pipe junk rp wp t = Done (r, t') ∧ owned t' ∧ spec (Pipe rp wp) t r t'.
Proof.
  intros Ho (Hr & Har & Haw). unfold pipe. cbn [spec]. destruct make_pipe as [e|[rd wr]]; [by eexists _, _|]. set (t1 := install (lowest (descs t)) rd t).
  assert (Hroom : room 1 t1) by (unfold room, t1 in *; cbn; pose proof (map_size_insert (lowest (descs t)) (mk_desc (next_file t) junk) (descs t)) as Hs; destruct (descs t !! lowest (descs t)); cbn in Hs; lia).
  pose proof (lowest_size (descs t)) as L1. pose proof (lowest_size (descs t1)) as L2. unfold room in Hr. assert (Ho1 : owned t1) by (apply owned_install; [lia|done]).
  assert (Ho2 : owned (install (lowest (descs t1)) wr t1)) by (apply owned_install; [unfold room in Hroom; lia|done]).
  rewrite run_bind. cbn [new_file fst snd]. rewrite run_bind. cbn [new_file fst snd]. rewrite run_bind, push_run by (unfold room; cbn; lia). cbn [fst snd]. rewrite run_bind.
  set (u := with_descs _ _). assert (Hu : room 1 u) by exact Hroom. rewrite push_run by done. cbn [fst snd]. change (lowest (descs u)) with (lowest (descs t1)).
  change (with_descs (<[lowest (descs t1) := _]> (descs u)) u) with (install (lowest (descs t1)) wr t1). set (t2 := install (lowest (descs t1)) wr t1).
  assert (Hlen : ∀ v, Z.of_nat (length (le_bytes 4 v)) = 4) by (intros v; by apply le_bytes_length).
  rewrite run_bind. match goal with |- context [k2u rp (le_bytes 4 ?x) ?y] => change x with (lowest (descs t)); change y with t2 end. destruct (k2u_run rp (le_bytes 4 (lowest (descs t))) t2) as (m1 & -> & H1); [by rewrite Hlen|]. cbn [fst snd]. rewrite run_bind.
  destruct (k2u_run wp (le_bytes 4 (lowest (descs t1))) (with_umem m1 t2)) as (m2 & E2 & H2).
  { rewrite Hlen. intros x Hx. cbn. rewrite H1. case_decide as Hd; [|by apply Haw]. rewrite Hlen in Hd. apply lookup_lt_is_Some. pose proof (Hlen (lowest (descs t))). lia. }
  rewrite E2. cbn. eexists _, _. split; [reflexivity|]. split; [by apply (owned_with t2)|]. split; [done|]. exists m2. split; [done|].
  rewrite Hlen in H1, H2. split; [apply (stored_at_user wp _ m2 m1); by rewrite Hlen|]. split.
  - intros Hdis i b Hb. pose proof (lookup_lt_Some _ _ _ Hb) as Hi. pose proof (Hlen (lowest (descs t))). rewrite H2, decide_False by lia. cbn. rewrite H1, decide_True by lia.
    by replace (Z.to_nat (rp + Z.of_nat i - rp)) with i by lia.
  - intros x Hx1 Hx2. rewrite H2, decide_False by done. cbn. by rewrite H1, decide_False by done.
Qed.

Lemma setfl_values v : Z.land v (Z.lnot 0x10001) = 0 ↔ v ∈ [0; 1; 2 ^ 16; 2 ^ 16 + 1].
Proof.
  split.
  - intros Hl. assert (Hv : v = Z.lor (Z.land v 1) (Z.land v (2 ^ 16))).
    { rewrite <-Z.land_lor_distr_r. change (Z.lor 1 (2 ^ 16)) with 0x10001. apply Z.bits_inj'. intros n Hn. rewrite Z.land_spec. apply (f_equal (λ z, Z.testbit z n)) in Hl.
      rewrite Z.land_spec, Z.lnot_spec, Z.bits_0 in Hl by done. by destruct (Z.testbit v n), (Z.testbit 0x10001 n). }
    assert (H1 : Z.land v 1 = 0 ∨ Z.land v 1 = 1) by (change (Z.land v 1) with (Z.land v (Z.ones 1)); rewrite Z.land_ones by lia; pose proof (Z.mod_pos_bound v (2 ^ 1) ltac:(lia)); lia).
    assert (H2 : Z.land v (2 ^ 16) = 0 ∨ Z.land v (2 ^ 16) = 2 ^ 16).
    { destruct (Z.testbit v 16) eqn:E; [right|left]; apply Z.bits_inj'; intros n Hn; rewrite Z.land_spec, Z.pow2_bits_eqb by lia; [|rewrite Z.bits_0]; destruct (Z.eqb_spec 16 n) as [<-|]; by rewrite ?E, ?andb_false_r. }
    rewrite Hv. destruct H1 as [->| ->], H2 as [->| ->]; apply (bool_decide_unpack _); vm_compute; exact I.
  - intros Hv. repeat (apply elem_of_cons in Hv as [->|Hv]; [done|]). by apply elem_of_nil in Hv.
Qed.

Lemma fcntl_run fd cmd v t : files_return → owned t → room 1 t → ∃ r t', fcntl junk fd cmd v t = Done (r, t') ∧ owned t' ∧ spec (Fcntl fd cmd v) t r t'.
Proof.
  intros Hfr Ho Hr. apply (with_file_run fd t _ (λ id f fl r t',
      if cmd =? 1 then dup_spec fd (lowest (descs t)) t r t'
      else if cmd =? 2 then t' = t ∧ ∃ d, descs t !! fd = Some d ∧ r = i32 (Z.lor (fl mod 2 ^ 16) (i32 (d_flags d * 2 ^ 16)))
      else if cmd =? 3 then
        if decide (v ∈ [0; 1; 2 ^ 16; 2 ^ 16 + 1]) then
          r = 0 ∧ t' = put_file id f (Z.lor fl (v mod 2 ^ 16)) (with_descs (<[fd := mk_desc id (v / 2 ^ 16)]> (descs t)) t)
        else r = -1 ∧ t' = with_errno EINVAL t
      else r = -1 ∧ t' = t)); [done|].
  intros d f fl Hd Hf _. assert (Hp : desc_present fd t = Done (true, t)) by (unfold desc_present; cbn; by rewrite Hd). assert (Hat : desc_at fd t = Done (d, t)) by (unfold desc_at; cbn; by rewrite Hd).
  assert (Hfl : file_flags (d_file d) t = Done (fl, t)) by (unfold file_flags; by rewrite Hf).
  rewrite run_bind. unfold get_flags at 1. rewrite run_bind, Hp. cbn [fst snd negb]. rewrite run_bind, Hat. cbn [fst snd]. unfold F_DUPFD, F_GETFL, F_SETFL, mret, stateM_ret at 1. cbn [ensure_opt fst snd].
  assert (Hlow : ∀ x, Z.land x 0xFFFF = x mod 2 ^ 16) by (intros x; change 0xFFFF with (Z.ones 16); by apply Z.land_ones).
  destruct (cmd =? 1); [by apply dup_run|]. destruct (cmd =? 2).
  { rewrite run_bind, Hfl. cbn [fst snd]. eexists _, _. split; [reflexivity|]. split_and!; [done|done|]. exists d. by rewrite Hlow. }
  destruct (cmd =? 3); [|by eexists _, _]. unfold ensure_r. destruct (decide (v ∈ _)) as [Hv|Hv].
  - rewrite (proj2 (setfl_values v) Hv). cbn [Z.eqb]. rewrite run_bind. unfold set_flags at 1. rewrite run_bind, Hp. cbn [fst snd negb]. rewrite run_bind, Hat. cbn [fst snd].
    rewrite set_run by (by apply (ow_num t Ho fd d)). cbn [fst snd]. rewrite run_bind. unfold file_flags at 1. cbn [files with_descs]. rewrite Hf. cbn [fst snd]. rewrite run_bind. unfold set_file_flags at 1. cbn [files with_descs]. rewrite Hf. cbn [fst snd].
    eexists _, _. split; [reflexivity|]. rewrite Hlow. rewrite Z.shiftr_div_pow2 by lia. split; [|done].
    apply (owned_put_file (d_file d) f (Z.lor fl (v mod 2 ^ 16)) (with_descs (<[fd := mk_desc (d_file d) (v / 2 ^ 16)]> (descs t)) t)).
    destruct Ho as [O1 O2 O3 O4]. constructor; cbn.
    + intros a x [[<- _]|[_ Hx]]%lookup_insert_Some; by eauto.
    + intros a x [[<- <-]|[_ Hx]]%lookup_insert_Some; cbn; by eauto.
    + intros a x [[<- <-]|[_ Hx]]%lookup_insert_Some; cbn; by eauto.
    + intros a b x y [[<- <-]|[_ Hx]]%lookup_insert_Some [[<- <-]|[_ Hy]]%lookup_insert_Some E; cbn in *; by eauto.
  - destruct (Z.eqb_spec (Z.land v (Z.lnot 0x10001)) 0) as [E|_]; [by apply setfl_values in E|]. eexists _, _. split; [reflexivity|]. split; [by apply (owned_with t)|done].
Qed.

Lemma open_run a mode p st0 b t : path_fits p st0 → m_cwd t = cstr (base_text st0) → at_user a (p ++ [0; b]) (umem t) → room 1 t →
  ∃ r t', open open_path junk cut a mode t = Done (r, t') ∧ (owned t → owned t') ∧
    or_error (open_path (resolved p st0) mode) t r t' (λ f, r = lowest (descs t) ∧ t' = install (lowest (descs t)) f t).
Proof.
  intros Hp Hc Hm Hr. destruct (copy_and_canonize_ok t a p st0 b Hp Hc Hm) as (buffer & Hcopy & Htext). unfold open. rewrite run_bind, Hcopy. cbn [fst snd]. erewrite lift_bind by exact Htext.
  destruct (open_path (resolved p st0) mode) as [e|f]; cbn [ensure_opt or_error].
  - eexists _, _. split; [reflexivity|]. split; [intros Ho; by apply (owned_with t)|done].
  - rewrite run_bind. cbn [new_file fst snd]. rewrite push_run by done. eexists _, _. split; [reflexivity|]. split; [|done]. intros Ho. apply (owned_install (lowest (descs t)) f t); [|done].
    pose proof (lowest_size (descs t)). unfold room in Hr. lia.
Qed.

Lemma call_run c t : files_return → length stack = 1024%nat → owned t → pre c t →
  ∃ r t', run open_path make_pipe junk stack cut c t = Done (r, t') ∧ owned t' ∧ spec c t r t'.
Proof.
  intros Hfr Hst Ho Hp. destruct c as [a mode|fd buf count|fd buf count|fd|fd rq v|fd|src dst|a|buf len|fd|fd pos mode|fd cmd v|rp wp| |o]; cbn [run]; cbn [pre] in Hp.
  - destruct Hp as (Hr & p & st0 & b & H1 & H2 & H3). destruct (open_run a mode p st0 b t H1 H2 H3 Hr) as (r & t' & He & Ho' & Hs). exists r, t'. split_and!; [done|by apply Ho'|].
    intros p' st' b' K1 K2 K3. destruct (open_run a mode p' st' b' t K1 K2 K3 Hr) as (r2 & t2 & He2 & _ & Hs2). rewrite He in He2. by injection He2 as <- <-.
  - by apply read_run.
  - apply (with_file_run fd t _ (λ id f fl r t', ∃ f' e, t' = with_errno e (put_file id f' fl t) ∧ (r ≠ -1 → e = errno t))); [done|]. intros d f fl Hd Hf _. destruct Hp as [Hc Ha].
    destruct (write_loop_run (Z.to_nat (count / 1024 + 1)) (d_file d) buf count 0 0 t f fl) as (r & f' & e & He & Hr); try done; [lia|Z.to_euclidean_division_equations; lia|].
    eexists _, _. split; [exact He|]. split; [apply (owned_with (put_file (d_file d) f' fl t)); [by apply owned_put_file|done..]|by exists f', e].
  - apply (with_file_run fd t _ (λ id f fl r t', ∃ e f', f_close f = Done (e, f') ∧ r = 0 ∧ t' = if decide (e = ENONE) then put_file id f' fl t else with_errno e (put_file id f' fl t))); [done|].
    intros d f fl Hd Hf _. destruct (fr_close Hfr f) as (e & f' & Hc). rewrite run_bind, (on_file_run _ _ t f fl e f' Hf Hc). cbn [fst snd]. rewrite run_bind. pose proof (owned_put_file (d_file d) f' fl t Ho) as Ho1. case_bool_decide as He.
    + eexists _, _. split; [reflexivity|]. split; [done|]. exists e, f'. by rewrite decide_True.
    + eexists _, _. split; [reflexivity|]. split; [by apply (owned_with (put_file (d_file d) f' fl t))|]. exists e, f'. by rewrite decide_False.
  - apply (op_run fd (f_ioctl rq v) t mret (λ id f' fl n r t', r = n ∧ t' = put_file id f' fl t)); [done|apply Hfr|]. intros d f fl f' n Hd Hf Hv. eexists _, _. split; [reflexivity|]. split; [by apply owned_put_file|done].
  - by apply dup_run.
  - by apply dup2_run.
  - destruct Hp as (p & H1 & H2 & H3). rewrite (chdir_run a p t H1 H2 H3). eexists _, _. split; [reflexivity|]. split; [by apply (owned_with t)|]. intros p' K1 K2 K3.
    pose proof (chdir_run a p t H1 H2 H3) as E. rewrite (chdir_run a p' t K1 K2 K3) in E. by injection E as <-.
  - destruct Hp as (p & H1 & H2 & H3). destruct (getcwd_run buf len p t H1 H2 H3) as (r & t' & He & Ho' & Hs). exists r, t'. split_and!; [done|by apply Ho'|].
    intros p' K1 K2. rewrite H2 in K2. unfold cstr in K2. by apply app_inj_2 in K2 as [<- _].
  - unfold isatty, spec, with_file. rewrite run_bind, get_file_run. cbn [fst snd]. destruct (descs t !! fd) as [d|] eqn:Ed.
    + destruct (ow_file t Ho fd d Ed) as [[f fl] Hf]. assert (file_of fd t = Some (d_file d, f, fl)) as -> by (unfold file_of; rewrite Ed; cbn; by rewrite Hf). rewrite run_bind. rewrite (on_file_run _ _ t f fl (f_isatty f) f Hf) by done. cbn [fst snd]. rewrite put_same by done.
      destruct (f_isatty f); eexists _, _; (split; [reflexivity|]); (split; [by apply (owned_with t)|done]).
    + assert (file_of fd t = None) as -> by (unfold file_of; by rewrite Ed). eexists _, _. split; [reflexivity|]. split; [by apply (owned_with t)|done].
  - apply (with_file_run fd t _ (λ id f fl r t', if decide (0 ≤ mode ≤ 2) then ∃ v f', f_seek pos mode f = Done (v, f') ∧ or_error v (put_file id f' fl t) r t' (λ n, r = n ∧ t' = put_file id f' fl t)
      else r = -1 ∧ t' = with_errno EINVAL t)); [done|]. intros d f fl Hd Hf _. unfold ensure_r. rewrite Z.geb_leb. destruct (decide (0 ≤ mode ≤ 2)) as [Hm|Hm].
    + rewrite (proj2 (Z.leb_le 0 mode)), (proj2 (Z.leb_le mode 2)) by lia. cbn [andb]. destruct (fr_seek Hfr pos mode f) as (v & f' & Hv). rewrite run_bind, (on_file_run _ _ t f fl v f' Hf Hv). cbn [fst snd].
      pose proof (owned_put_file (d_file d) f' fl t Ho) as Ho1. destruct v as [e|n]; eexists _, _; (split; [reflexivity|]).
      * split; [by apply (owned_with (put_file (d_file d) f' fl t))|by exists (inl e), f'].
      * split; [done|by exists (inr n), f'].
    + replace ((0 <=? mode) && (mode <=? 2)) with false by (symmetry; apply andb_false_iff; rewrite !Z.leb_gt; lia). eexists _, _. split; [reflexivity|]. split; [by apply (owned_with t)|done].
  - by apply fcntl_run.
  - by apply pipe_run.
  - rewrite run_bind. destruct (fork_run t Hfr Ho) as (t' & -> & Ho' & Hs). by eexists _, _.
  - rewrite run_bind. destruct (exec_run o t Hfr Ho Hp) as (t' & -> & Ho' & Hs). by eexists _, _.
Qed.

(** A sequence of calls, each of which finds what it needs in the state that the calls
    before it leave; and the states it goes through. *)
Fixpoint safe (l : list call) (t : sys G F) : Prop :=
  match l with [] => True | c :: l => pre c t ∧ ∀ r t', spec c t r t' → safe l t' end.
Inductive spec_runs : list call → sys G F → list Z → sys G F → Prop :=
| spec_end t : spec_runs [] t [] t
| spec_call c l t r t1 rs t' : spec c t r t1 → spec_runs l t1 rs t' → spec_runs (c :: l) t (r :: rs) t'.


End Refinement.

(** ** A file that keeps what is written *)

Record log := mk_log { text_of_log : list Z; log_closed : bool }.
#[export] Instance log_ops : FileOps log := {|
  f_read := λ n d f, let bs := take (Z.to_nat n) (text_of_log f) in d ← put d 0 bs; Done (inr (Z.of_nat (length bs)), d, mk_log (drop (length bs) (text_of_log f)) (log_closed f));
  f_write := λ bs f, Done (inr (Z.of_nat (length bs)), mk_log (text_of_log f ++ bs) (log_closed f));
  f_ioctl := λ _ _ f, Done (inl ENOTTY, f); f_seek := λ _ _ f, Done (inl ESPIPE, f); f_dup := λ f, Done (inr f, f);
  f_close := λ f, Done (ENONE, mk_log (text_of_log f) true); f_isatty := λ _, false |}.

Lemma log_takes_all : takes_all text_of_log.
Proof. intros bs f _. by eexists. Qed.

(** Only [/log] exists; memory holds the path ["log"] at 100, ["/x"] at 300, and bytes at 200. *)
Definition demo_open (p : list Z) (_ : Z) : error_t + log := if bool_decide (p = lit "/log") then inr (mk_log [] false) else inl ENOENT.
Definition demo_bytes (a : Z) (bs : list Z) : memory := list_to_map (zip (seqZ a (Z.of_nat (length bs))) bs).
Definition demo_mem : memory := demo_bytes 100 (lit "log" ++ [0; 0]) ∪ demo_bytes 200 [1; 2; 3; 4] ∪ demo_bytes 300 (lit "/x" ++ [0; 0]).
Definition demo_sys {T} `{DescTable T} : sys T log := mk_sys t_empty t_empty ∅ 1 ENONE (cstr (lit "/")) demo_mem.
Definition demo_calls : list call := [Open 100 1; Dup2 0 5; Fcntl 5 F_SETFL 0x10000; Fork; ExecDescs None; Dup2 0 1; Close 9].

Lemma demo_sys_rel : sys_rel demo_sys demo_sys.
Proof. by constructor. Qed.

Lemma log_returns : files_return.
Proof.
  constructor; intros; try by eexists _, _. eexists _, _, _. split.
  - cbn [f_read log_ops]. rewrite put_eq by (rewrite ?length_take; lia). rewrite bind_ret. reflexivity.
  - rewrite !length_app, length_take, !length_drop, !length_take. lia.
Qed.

Lemma demo_path : path_fits (lit "log") [].
Proof. constructor; [split_and!; [apply lit_text; reflexivity|done|by vm_compute]|constructor|apply (bool_decide_unpack _); vm_compute; exact I|by vm_compute|left; by vm_compute]. Qed.
Lemma demo_path_mem : at_user 100 (lit "log" ++ [0; 0]) demo_mem.
Proof. intros [|[|[|[|[|k]]]]] c Hc; try (injection Hc as <-; vm_compute; reflexivity). done. Qed.

Lemma demo_safe : safe demo_open (inl EMFILE) 0 (replicate 1024 0) demo_calls demo_sys.
Proof.
  split. { split; [by vm_compute|]. exists (lit "log"), [], 0. split_and!; [apply demo_path|done|apply demo_path_mem]. }
  intros r1 t1 H1. specialize (H1 (lit "log") [] 0 demo_path eq_refl demo_path_mem). assert (E : demo_open (resolved (lit "log") []) 1 = inr (mk_log [] false)) by reflexivity. rewrite E in H1. destruct H1 as [_ ->]. clear r1 E.
  split; [cbn; unfold limit; lia|]. intros r2 t2 (v & f' & [= <- <-] & _ & ->). split; [by vm_compute|]. intros r3 t3 _. split; [exact I|]. intros r4 t4 _. split; [exact I|]. intros r5 t5 _.
  split; [cbn; unfold limit; lia|]. intros r6 t6 _. split; [exact I|]. intros r7 t7 _. exact I.
Qed.


Lemma open_call_resolves_witness :
  ∃ s', open demo_open 0 [0] 100 1 (demo_sys (T := @LazyVector.LazyVector Descriptor)) = Done (0, s') ∧ files s' = <[1 := (mk_log [] false, 0)]> ∅.
Proof.
  pose proof (open_call_resolves demo_open 0 [0] (demo_sys (T := @LazyVector.LazyVector Descriptor)) ∅ 100 1 (lit "log") [] 0) as Ho.
  destruct Ho as (s' & E & _ & _ & Hf & _).
  - apply demo_sys_rel.
  - apply demo_path.
  - reflexivity.
  - apply demo_path_mem.
  - by vm_compute.
  - exists s'. split; [exact E|exact Hf].
Defined.

(** ** Deviations *)

(** [close] looks the file up with [get_file], not [pop_file]: the descriptor stays, and
    later calls reach the closed file. *)
Lemma close_keeps_descriptor {T} `{DescTable T} {F} `{FileOps F} fd (s : sys T F) r s' : close fd s = Done (r, s') → descs s' = descs s.
Proof.
  unfold close, get_file, desc_present, desc_at. rewrite !run_bind. destruct (t_present (descs s) fd) as [p| |]; cbn; [|done|done]. destruct p; cbn; [|by intros [= _ <-]].
  rewrite run_bind. destruct (t_at (descs s) fd) as [d| |]; cbn; [|done|done]. rewrite run_bind. unfold on_file. destruct (files s !! d_file d) as [[f fl]|]; [|done].
  destruct (f_close f) as [[e f']| |]; cbn; [|done|done]. rewrite run_bind. destruct (bool_decide (e = ENONE)); cbn; by intros [= _ <-].
Qed.

Definition demo_run (l : list call) : outcome (list Z * sys (@LazyVector.LazyVector Descriptor) log) :=
  runs demo_open (inl EMFILE) 0 (replicate 1024 77) [0] l demo_sys.
Definition shows (a n : Z) (o : outcome (list Z * sys (@LazyVector.LazyVector Descriptor) log)) : outcome (list Z) :=
  '(_, s) ← o; fetch a (Z.to_nat n) (umem s).

(** A short read still copies the whole chunk: the caller gets bytes of the kernel stack. *)
Example read_leaks_stack : shows 200 4 (demo_run [Open 100 1; Read 0 200 4]) = Done [77; 77; 77; 77].
Proof. vm_compute. reflexivity. Qed.

(** A negative destination of [dup2] is stored before the array. *)
Example dup2_negative_faults : demo_run [Open 100 1; Dup2 0 (-1)] = Fault.
Proof. vm_compute. reflexivity. Qed.

(** A path of [MAX_PATH_LEN - 1] characters overflows the buffer of [copy_and_canonize]. *)
Example long_path_overflows :
  copy_and_canonize 0 [0] 0 (mk_sys (T := @LazyVector.LazyVector Descriptor) (F := log) t_empty t_empty ∅ 1 ENONE (cstr (lit "/")) (demo_bytes 0 (replicate 2047 97 ++ [0; 0]))) = Fault.
Proof. vm_compute. reflexivity. Qed.

End Syscall.
