(* ===== verification/Ipc.v ===== *)
(** * Message queues and pipes

    [ipc/messagequeue.cpp] and [ipc/pipe.cpp], both on top of the circular buffer.
    A call of a message queue runs in sections between its yields, each one atomic
    under [m_lock].  [m_lock] is a spinlock, so the thread is critical while a
    section runs, and a call of the buffer that would have to wait fails the
    assertion of [Thread::yield]. *)
From S2P Require Import Prelude Ring.
Local Open Scope Z_scope.

Module MessageQueue.
Import CircularBuffer.

Definition MAX_WAITING_SIZE : Z := 65536 - 1.
Definition sizeof_message_header : Z := 8.

Record MessageQueue := mk_queue { m_circ_buffer : CircularBuffer; m_free : Z }.

Definition create : MessageQueue := mk_queue (CircularBuffer.create (MAX_WAITING_SIZE + 1)) MAX_WAITING_SIZE.

(** [message_header], as its bytes. *)
Definition header_bytes (pid len : Z) : list Z := le_bytes 4 pid ++ le_bytes 4 len.
Definition header_len (header : list Z) : outcome Z := bs ← get header 4 4; Done (i32 (le_value bs)).

(** A section of a call returns from the call or leaves it waiting. *)
Inductive answer (A : Type) := Returned (q : MessageQueue) (a : A) | Waits (q : MessageQueue).
Arguments Returned {A}. Arguments Waits {A}.

(** A call of the buffer under the spinlock. *)
Definition now {A} (s : section A) : outcome (A * CircularBuffer) :=
  match s with
  | Finished r a => Done (a, r)
  | Waiting _ _ _ => Panic "!thread->isCritical()"
  end.

(** [while (left > 0)]: every turn takes a byte at least. *)
Fixpoint discard (fuel : nat) (interrupted : bool) (r : CircularBuffer) (left : Z) : outcome CircularBuffer :=
  match fuel with
  | O => Done r
  | S fuel =>
      if left >? 0 then
        s ← CircularBuffer.read r (left `min` 32) (-1) interrupted;
        '(bs, r) ← now s;
        if (length bs =? 0)%nat then Done r else discard fuel interrupted r (left - left `min` 32)
      else Done r
  end.

(** The value returned and the bytes stored at [ptr]. *)
Definition readMessage (interrupted : bool) (q : MessageQueue) (len : Z) : outcome (answer (Z * list Z)) :=
  let total_len := i32 (len + sizeof_message_header) in
  if total_len >? MAX_WAITING_SIZE then Done (Returned q (0, []))
  else if MAX_WAITING_SIZE - m_free q <? total_len then Done (Waits q)
  else
    s ← CircularBuffer.read (m_circ_buffer q) sizeof_message_header (-1) interrupted;
    '(header, r) ← now s;
    s ← CircularBuffer.read r len (-1) interrupted;
    '(bs, r) ← now s;
    hlen ← header_len header;
    let left := i32 (hlen - len) in
    r ← discard (Z.to_nat left) interrupted r left;
    Done (Returned (mk_queue r (i32 (m_free q + total_len))) (hlen `min` len, bs)).

Definition writeMessage (interrupted : bool) (q : MessageQueue) (pid : Z) (bs : list Z) : outcome (answer unit) :=
  let len := Z.of_nat (length bs) in
  let total_len := i32 (len + sizeof_message_header) in
  if total_len >? MAX_WAITING_SIZE then Done (Returned q tt)
  else if m_free q <? total_len then Done (Waits q)
  else
    let free := i32 (m_free q - total_len) in
    s ← CircularBuffer.write (m_circ_buffer q) (header_bytes pid len) interrupted;
    '(_, r) ← now s;
    s ← CircularBuffer.write r bs interrupted;
    '(_, r) ← now s;
    Done (Returned (mk_queue r free) tt).

(** ** The queue of messages *)

Definition message_bytes (m : Z * list Z) : list Z := header_bytes m.1 (Z.of_nat (length m.2)) ++ m.2.

(** The buffer holds the messages [ms] and [m_free] counts the room they leave. *)
Definition holds (ms : list (Z * list Z)) (q : MessageQueue) : Prop :=
  wf (m_circ_buffer q) ∧ m_size (m_circ_buffer q) = MAX_WAITING_SIZE + 1 ∧
  contents (m_circ_buffer q) = concat (message_bytes <$> ms) ∧
  m_free q = MAX_WAITING_SIZE - Z.of_nat (length (contents (m_circ_buffer q))).

Lemma message_header_length pid len : length (header_bytes pid len) = 8%nat.
Proof.
  unfold header_bytes. rewrite length_app. pose proof (le_bytes_length 4 pid). pose proof (le_bytes_length 4 len). lia.
Qed.

Lemma header_len_bytes pid len : 0 ≤ len < 2 ^ 31 → header_len (header_bytes pid len) = Done len.
Proof.
  intros Hl. unfold header_len. pose proof (message_header_length pid len) as Hh. rewrite get_eq by lia. cbn [mbind outcome_bind].
  unfold header_bytes. pose proof (le_bytes_length 4 pid). pose proof (le_bytes_length 4 len).
  rewrite drop_app_length', take_ge, le_value_bytes, wrap_small, swrap_small by lia. done.
Qed.

(** The buffer under the lock: what is there is read, and what fits is written. *)
Lemma read_now r a b i :
  wf r → contents r = a ++ b → ∃ r', CircularBuffer.read r (Z.of_nat (length a)) (-1) i = Done (Finished r' a) ∧ wf r' ∧
    m_size r' = m_size r ∧ contents r' = b.
Proof.
  intros Hwf Hc. unfold CircularBuffer.read. destruct a as [|x a].
  { cbn. exists r. split_and!; done. }
  rewrite (proj2 (Z.leb_gt (Z.of_nat (length (x :: a))) 0)) by (rewrite length_cons; lia).
  destruct (read_loop_spec (S (Z.to_nat (Z.of_nat (length (x :: a))))) r [] (Z.of_nat (length (x :: a))) (-1) i)
    as (r' & Hw & Hs & Hc' & He); [done|lia..|]. unfold read_section. rewrite He.
  rewrite Hc, length_app in *. rewrite Z.min_l in * by lia. rewrite Nat2Z.id in *. rewrite take_app_length, drop_app_length in *.
  unfold read_result. rewrite Z.sub_diag. cbn. exists r'. split_and!; done.
Qed.

Lemma write_now r bs i :
  wf r → Z.of_nat (length (contents r)) + Z.of_nat (length bs) ≤ m_size r - 1 →
  ∃ n r', CircularBuffer.write r bs i = Done (Finished r' n) ∧ wf r' ∧ m_size r' = m_size r ∧ contents r' = contents r ++ bs.
Proof.
  intros Hwf Hb. unfold CircularBuffer.write. destruct bs as [|x bs].
  { cbn. exists 0, r. rewrite app_nil_r. split_and!; done. }
  rewrite (proj2 (Z.leb_gt (Z.of_nat (length (x :: bs))) 0)) by (rewrite length_cons; lia).
  destruct (write_loop_spec (S (length (x :: bs))) r (x :: bs) 0 i) as (r' & Hw & Hs & Hc' & He); [done|lia..|].
  unfold write_section. rewrite He. rewrite Z.min_l in * by lia. rewrite Nat2Z.id, firstn_all in Hc'.
  unfold write_result. rewrite Z.sub_diag. cbn. eexists _, r'. split_and!; done.
Qed.

Lemma discard_spec fuel i r a b :
  wf r → contents r = a ++ b → (length a ≤ fuel)%nat →
  ∃ r', discard fuel i r (Z.of_nat (length a)) = Done r' ∧ wf r' ∧ m_size r' = m_size r ∧ contents r' = b.
Proof.
  revert r a. induction fuel as [|fuel IH]; intros r a Hwf Hc Hf.
  { destruct a; [|simpl in Hf; lia]. exists r. split_and!; done. }
  destruct a as [|x a]; [exists r; split_and!; done|]. cbn [discard].
  rewrite (proj2 (Z.gtb_lt _ _)) by (rewrite length_cons; lia). set (l := x :: a) in *.
  set (n := Z.to_nat (Z.of_nat (length l) `min` 32)). assert (Hn : (0 < n ≤ length l)%nat) by (unfold n, l; rewrite length_cons; lia).
  assert (Hs : contents r = take n l ++ (drop n l ++ b)) by (by rewrite app_assoc, take_drop).
  destruct (read_now r _ _ i Hwf Hs) as (r1 & He & Hw1 & Hs1 & Hc1). rewrite length_take, Nat.min_l in He by lia.
  replace (Z.of_nat n) with (Z.of_nat (length l) `min` 32) in He by (unfold n; lia).
  rewrite He; cbn [now mbind outcome_bind]; rewrite ?bind_ret. rewrite length_take, Nat.min_l by lia.
  destruct (Nat.eqb_spec n 0); [lia|]. destruct (IH r1 (drop n l) Hw1 Hc1) as (r' & He' & Hw' & Hs' & Hc'); [rewrite length_drop; lia|].
  exists r'. split_and!; [|done|congruence|done]. rewrite <-He'. f_equal. rewrite length_drop. unfold n. lia.
Qed.

Lemma holds_fits ms q : holds ms q → 0 ≤ m_free q ≤ MAX_WAITING_SIZE.
Proof.
  intros (Hwf & Hs & _ & ->). rewrite contents_length by done. pose proof (distance_cases _ Hwf) as [? _]. lia.
Qed.

(** Reading [len] bytes or fewer than the first message has. *)
Lemma readMessage_prefix i q pid bs ms len :
  holds ((pid, bs) :: ms) q → 0 ≤ len ≤ Z.of_nat (length bs) →
  ∃ q', readMessage i q len = Done (Returned q' (len, take (Z.to_nat len) bs)) ∧
    wf (m_circ_buffer q') ∧ m_size (m_circ_buffer q') = MAX_WAITING_SIZE + 1 ∧
    contents (m_circ_buffer q') = concat (message_bytes <$> ms) ∧
    m_free q' = m_free q + len + sizeof_message_header.
Proof.
  intros Hq Hl. pose proof (holds_fits _ _ Hq) as Hf. destruct Hq as (Hwf & Hsz & Hc & Hfr). cbn [fmap list_fmap concat] in Hc.
  change (message_bytes (pid, bs)) with (header_bytes pid (Z.of_nat (length bs)) ++ bs) in Hc. rewrite <-!app_assoc in Hc.
  pose proof (message_header_length pid (Z.of_nat (length bs))) as Hh.
  assert (Hlen : Z.of_nat (length (contents (m_circ_buffer q))) = 8 + Z.of_nat (length bs) + Z.of_nat (length (concat (message_bytes <$> ms))))
    by (rewrite Hc, !length_app; lia).
  unfold MAX_WAITING_SIZE in *. unfold readMessage, sizeof_message_header, MAX_WAITING_SIZE.
  rewrite (swrap_small 32 (len + 8)) by lia. replace (len + 8 >? 65536 - 1) with false by lia.
  replace (65536 - 1 - m_free q <? len + 8) with false by lia.
  destruct (read_now _ _ _ i Hwf Hc) as (r1 & He1 & Hw1 & Hs1 & Hc1). rewrite Hh in He1. change (Z.of_nat 8) with 8 in He1.
  rewrite He1; cbn [now mbind outcome_bind]; rewrite ?bind_ret.
  rewrite <-(take_drop (Z.to_nat len) bs), <-app_assoc in Hc1.
  destruct (read_now _ _ _ i Hw1 Hc1) as (r2 & He2 & Hw2 & Hs2 & Hc2). rewrite length_take, Nat.min_l, Z2Nat.id in He2 by lia.
  rewrite He2; cbn [now mbind outcome_bind]; rewrite header_len_bytes by lia; rewrite bind_ret.
  rewrite (swrap_small 32 (_ - len)) by lia.
  destruct (discard_spec (Z.to_nat (Z.of_nat (length bs) - len)) i r2 _ _ Hw2 Hc2) as (r3 & He3 & Hw3 & Hs3 & Hc3); [rewrite length_drop; lia|].
  rewrite length_drop in He3. replace (Z.of_nat (length bs - Z.to_nat len)) with (Z.of_nat (length bs) - len) in He3 by lia.
  rewrite He3, bind_ret, Z.min_r by lia. eexists. split; [reflexivity|]. cbn [m_circ_buffer m_free].
  rewrite swrap_small by lia. split_and!; [done|congruence|done|lia].
Qed.

Lemma writeMessage_spec i q ms pid bs :
  holds ms q → Z.of_nat (length bs) + sizeof_message_header ≤ m_free q →
  ∃ q', writeMessage i q pid bs = Done (Returned q' tt) ∧ holds (ms ++ [(pid, bs)]) q'.
Proof.
  intros Hq Hl. pose proof (holds_fits _ _ Hq) as Hf. destruct Hq as (Hwf & Hsz & Hc & Hfr).
  pose proof (message_header_length pid (Z.of_nat (length bs))) as Hh.
  unfold sizeof_message_header, MAX_WAITING_SIZE in *. unfold writeMessage, sizeof_message_header, MAX_WAITING_SIZE.
  rewrite (swrap_small 32 (_ + 8)) by lia. replace (Z.of_nat (length bs) + 8 >? 65536 - 1) with false by lia.
  replace (m_free q <? Z.of_nat (length bs) + 8) with false by lia.
  destruct (write_now _ (header_bytes pid (Z.of_nat (length bs))) i Hwf) as (n1 & r1 & He1 & Hw1 & Hs1 & Hc1); [lia|].
  rewrite He1; cbn [now mbind outcome_bind]; rewrite ?bind_ret.
  destruct (write_now _ bs i Hw1) as (n2 & r2 & He2 & Hw2 & Hs2 & Hc2); [rewrite Hc1, length_app; lia|].
  rewrite He2; cbn [now mbind outcome_bind]; rewrite ?bind_ret. eexists. split; [reflexivity|]. unfold holds. cbn [m_circ_buffer m_free].
  rewrite swrap_small by lia. unfold MAX_WAITING_SIZE. split_and!; [done|congruence| |].
  - rewrite Hc2, Hc1, Hc, fmap_app, concat_app, <-app_assoc. cbn [fmap list_fmap concat]. by rewrite app_nil_r.
  - rewrite Hc2, Hc1, !length_app. lia.
Qed.

(** C10 (refinement): a message queue is a first-in first-out queue of messages:
    [writeMessage] appends the message of the sender when it fits, waits while it
    does not fit now, and drops it when it can never fit; [readMessage] waits on an
    empty queue and otherwise, asked for as many bytes as the first message has,
    returns them and takes the message off, and the count of free bytes stays
    exact. *)
Theorem message_queue_fifo ms q i :
  holds ms q →
  (∀ pid bs, Z.of_nat (length bs) < 2 ^ 31 - 8 →
     (m_free q < Z.of_nat (length bs) + 8 ≤ MAX_WAITING_SIZE → writeMessage i q pid bs = Done (Waits q)) ∧
     (MAX_WAITING_SIZE < Z.of_nat (length bs) + 8 → writeMessage i q pid bs = Done (Returned q tt)) ∧
     (Z.of_nat (length bs) + 8 ≤ m_free q →
        ∃ q', writeMessage i q pid bs = Done (Returned q' tt) ∧ holds (ms ++ [(pid, bs)]) q')) ∧
  (ms = [] → ∀ len, 0 ≤ len ≤ MAX_WAITING_SIZE - 8 → readMessage i q len = Done (Waits q)) ∧
  (∀ pid bs ms', ms = (pid, bs) :: ms' →
     ∃ q', readMessage i q (Z.of_nat (length bs)) = Done (Returned q' (Z.of_nat (length bs), bs)) ∧ holds ms' q').
Proof.
  intros Hq. pose proof (holds_fits _ _ Hq) as Hf. split; [intros pid bs Hb; split_and!|split].
  - intros Hl. unfold writeMessage, sizeof_message_header. rewrite swrap_small by lia.
    replace (_ >? MAX_WAITING_SIZE) with false by lia. by replace (m_free q <? _) with true by lia.
  - intros Hl. unfold writeMessage, sizeof_message_header. rewrite swrap_small by lia.
    by replace (_ >? MAX_WAITING_SIZE) with true by lia.
  - by apply writeMessage_spec.
  - intros -> len Hl. unfold MAX_WAITING_SIZE in *. destruct Hq as (_ & _ & Hc & Hfr). rewrite Hc in Hfr. simpl in Hfr. unfold MAX_WAITING_SIZE in Hfr.
    unfold readMessage, sizeof_message_header, MAX_WAITING_SIZE. rewrite swrap_small by lia.
    replace (len + 8 >? 65536 - 1) with false by lia. by replace (_ <? len + 8) with true by lia.
  - intros pid bs ms' ->. destruct (readMessage_prefix i q pid bs ms' (Z.of_nat (length bs)) Hq) as (q' & He & Hw & Hs & Hc & Hfr); [lia|].
    exists q'. rewrite Nat2Z.id, firstn_all in He. split; [exact He|]. split_and!; [done..|].
    destruct Hq as (_ & _ & Hcq & Hfq). rewrite Hfr, Hfq, Hc, Hcq. cbn [fmap list_fmap concat]. rewrite length_app.
    change (message_bytes (pid, bs)) with (header_bytes pid (Z.of_nat (length bs)) ++ bs). rewrite length_app, message_header_length.
    unfold sizeof_message_header. lia.
Qed.

(** A read that is shorter than the message drops the rest of the message, but
    gives back the room of the bytes it returned only: the queue loses the
    difference for ever. *)
Lemma short_read_leaks i q pid bs ms len :
  holds ((pid, bs) :: ms) q → 0 ≤ len < Z.of_nat (length bs) →
  ∃ q', readMessage i q len = Done (Returned q' (len, take (Z.to_nat len) bs)) ∧
    m_free q' = MAX_WAITING_SIZE - Z.of_nat (length (contents (m_circ_buffer q'))) - (Z.of_nat (length bs) - len).
Proof.
  intros Hq Hl. destruct (readMessage_prefix i q pid bs ms len Hq) as (q' & He & _ & _ & Hc & Hfr); [lia|].
  exists q'. split; [exact He|]. destruct Hq as (_ & _ & Hcq & Hfq). rewrite Hfr, Hfq, Hc, Hcq. cbn [fmap list_fmap concat].
  rewrite length_app. change (message_bytes (pid, bs)) with (header_bytes pid (Z.of_nat (length bs)) ++ bs).
  rewrite length_app, message_header_length. unfold sizeof_message_header. lia.
Qed.

Lemma create_holds : holds [] create.
Proof.
  destruct (create_wf (MAX_WAITING_SIZE + 1)) as [Hwf Hc]; [done|]. unfold holds, create. cbn [m_circ_buffer m_free].
  split_and!; [done|done|done|by rewrite Hc].
Qed.

Lemma message_queue_fifo_witness :
  ∃ q q', writeMessage false create 7 [1; 2; 3] = Done (Returned q tt) ∧ readMessage false q 3 = Done (Returned q' (3, [1; 2; 3])) ∧ holds [] q'.
Proof.
  destruct (message_queue_fifo [] create false create_holds) as (Hw & _ & _).
  destruct (Hw 7 [1; 2; 3] ltac:(done)) as (_ & _ & Hok). destruct (Hok ltac:(done)) as (q & Hwr & Hq).
  destruct (message_queue_fifo _ q false Hq) as (_ & _ & Hr). destruct (Hr 7 [1; 2; 3] [] eq_refl) as (q' & Hrd & Hq').
  exists q, q'. split_and!; [exact Hwr|exact Hrd|exact Hq'].
Defined.

End MessageQueue.

(** ** Pipes *)
Module Pipe.
Import CircularBuffer.

Definition PIPE_BUF : Z := 512.
Definition PIPE_SIZE : Z := 8192.

(** [Pipe::create]: both ends share the buffer. *)
Definition create : CircularBuffer := CircularBuffer.create PIPE_SIZE.

(** The first section of [PipeWriter::write]; [count] is the length of [buf]. *)
Definition write (buffer : CircularBuffer) (buf : list Z) (interrupted : bool) : outcome (section Z) :=
  if Z.of_nat (length buf) <=? PIPE_BUF then
    if Z.of_nat (length buf) <=? 0 then Done (Finished buffer 0) else writeAtomic_section buffer buf interrupted
  else CircularBuffer.write buffer buf interrupted.

(** The first section of [PipeReader::read]. *)
Definition read (buffer : CircularBuffer) (count : Z) (interrupted : bool) : outcome (section (list Z)) :=
  CircularBuffer.read buffer (i32 count) 1 interrupted.

(** A pipe delivers what it has: a reader of a pipe that is not empty gets at
    once as many of the oldest bytes as it asked for and there are; a writer of at
    most [PIPE_BUF] bytes adds all of them or, in this section, none. *)
Lemma pipe_delivers r i :
  wf r →
  (∀ count, contents r ≠ [] → 0 < count < 2 ^ 31 →
     let k := count `min` Z.of_nat (length (contents r)) in
     ∃ r', read r count i = Done (Finished r' (take (Z.to_nat k) (contents r))) ∧ wf r' ∧ contents r' = drop (Z.to_nat k) (contents r)) ∧
  (∀ bs, bs ≠ [] → Z.of_nat (length bs) ≤ PIPE_BUF →
     ∃ s, write r bs i = Done s ∧ wf (section_ring s) ∧
       (s = Finished (section_ring s) (Z.of_nat (length bs)) ∧ contents (section_ring s) = contents r ++ bs ∨ section_ring s = r ∧ section_val s = 0)).
Proof.
  intros Hwf. split.
  - intros count Hne Hc k. unfold read, CircularBuffer.read. rewrite swrap_small by lia. replace (count <=? 0) with false by lia.
    destruct (read_loop_spec (S (Z.to_nat count)) r [] count 1 i) as (r' & Hw & Hs & Hct & He); [done|lia..|].
    exists r'. split_and!; [|done|exact Hct]. unfold read_section. rewrite He. fold k. f_equal. cbn [app]. unfold read_result.
    assert (1 ≤ k ≤ Z.of_nat (length (contents r))) as Hk by (unfold k; destruct (contents r); [done|rewrite length_cons; lia]).
    clearbody k.
    rewrite (proj2 (Z.leb_le 1 (Z.of_nat (length (take (Z.to_nat k) (contents r)))))) by (rewrite length_take; lia).
    by rewrite orb_true_r, andb_false_r.
  - intros bs Hne Hb. unfold write. replace (Z.of_nat (length bs) <=? PIPE_BUF) with true by lia.
    assert (0 < Z.of_nat (length bs)) by (destruct bs; [done|rewrite length_cons; lia]). replace (Z.of_nat (length bs) <=? 0) with false by lia.
    pose proof (writeAtomic_spec r bs i Hwf Hne) as Hsp. cbv zeta in Hsp. destruct (_ && _) in Hsp.
    + destruct Hsp as (r' & He & Hw & _ & Hct). rewrite He. eexists. split; [reflexivity|]. cbn. split; [done|]. by left.
    + rewrite Hsp. eexists. split; [reflexivity|]. destruct (_ && i); cbn; (split; [done|by right]).
Qed.

End Pipe.
