(* ===== verification/Input.v ===== *)
(** * Keyboard input

    [arch/x86_64/mod/core/ps2/kb.cpp] and [translation.cpp]: scan codes to key
    codes; [dev/input.cpp], [dev/input/handle.cpp] and [dev/inputdevice.cpp]: the
    state of the keys, the modifiers and the lights, and the handles that receive
    events; [dev/input/default_keymap.cpp]: events to characters. *)
From S2P Require Import Prelude Str Ring Ipc.
Local Open Scope Z_scope.

(** ** Key codes *)

Inductive hid_keycode_t :=
| KEY_A | KEY_B | KEY_C | KEY_D | KEY_E | KEY_F | KEY_G | KEY_H | KEY_I | KEY_J | KEY_K | KEY_L
| KEY_M | KEY_N | KEY_O | KEY_P | KEY_Q | KEY_R | KEY_S | KEY_T | KEY_U | KEY_V | KEY_W | KEY_X
| KEY_Y | KEY_Z | KEY_1 | KEY_2 | KEY_3 | KEY_4 | KEY_5 | KEY_6 | KEY_7 | KEY_8 | KEY_9 | KEY_0
| KEY_RETURN | KEY_ESCAPE | KEY_BACKSPACE | KEY_TAB | KEY_SPACE | KEY_MINUS | KEY_EQUAL
| KEY_LEFTBRACE | KEY_RIGHTBRACE | KEY_BACKSLASH | KEY_BACKSLASH2 | KEY_SEMICOLON
| KEY_APOSTROPHE | KEY_GRAVE | KEY_COMMA | KEY_DOT | KEY_SLASH | KEY_CAPSLOCK | KEY_F1 | KEY_F2
| KEY_F3 | KEY_F4 | KEY_F5 | KEY_F6 | KEY_F7 | KEY_F8 | KEY_F9 | KEY_F10 | KEY_F11 | KEY_F12
| KEY_SYSRQ | KEY_SCROLLOCK | KEY_PAUSE | KEY_INSERT | KEY_HOME | KEY_PAGEUP | KEY_DELETE
| KEY_END | KEY_PAGEDOWN | KEY_RIGHT | KEY_LEFT | KEY_DOWN | KEY_UP | KEY_NUMLOCK | KEY_KPSLASH
| KEY_KPASTERISK | KEY_KPMINUS | KEY_KPPLUS | KEY_KPENTER | KEY_KP1 | KEY_KP2 | KEY_KP3
| KEY_KP4 | KEY_KP5 | KEY_KP6 | KEY_KP7 | KEY_KP8 | KEY_KP9 | KEY_KP0 | KEY_KPDOT | KEY_COMPOSE
| KEY_KPEQUAL | KEY_LEFTCTRL | KEY_LEFTSHIFT | KEY_LEFTALT | KEY_LEFTMETA | KEY_RIGHTCTRL
| KEY_RIGHTSHIFT | KEY_RIGHTALT | KEY_RIGHTMETA.

Definition keycode (k : hid_keycode_t) : Z :=
  match k with
  | KEY_A => 0x04 | KEY_B => 0x05 | KEY_C => 0x06 | KEY_D => 0x07 | KEY_E => 0x08
  | KEY_F => 0x09 | KEY_G => 0x0A | KEY_H => 0x0B | KEY_I => 0x0C | KEY_J => 0x0D
  | KEY_K => 0x0E | KEY_L => 0x0F | KEY_M => 0x10 | KEY_N => 0x11 | KEY_O => 0x12
  | KEY_P => 0x13 | KEY_Q => 0x14 | KEY_R => 0x15 | KEY_S => 0x16 | KEY_T => 0x17
  | KEY_U => 0x18 | KEY_V => 0x19 | KEY_W => 0x1A | KEY_X => 0x1B | KEY_Y => 0x1C
  | KEY_Z => 0x1D | KEY_1 => 0x1E | KEY_2 => 0x1F | KEY_3 => 0x20 | KEY_4 => 0x21
  | KEY_5 => 0x22 | KEY_6 => 0x23 | KEY_7 => 0x24 | KEY_8 => 0x25 | KEY_9 => 0x26
  | KEY_0 => 0x27 | KEY_RETURN => 0x28 | KEY_ESCAPE => 0x29 | KEY_BACKSPACE => 0x2A
  | KEY_TAB => 0x2B | KEY_SPACE => 0x2C | KEY_MINUS => 0x2D | KEY_EQUAL => 0x2E
  | KEY_LEFTBRACE => 0x2F | KEY_RIGHTBRACE => 0x30 | KEY_BACKSLASH => 0x31
  | KEY_BACKSLASH2 => 0x32 | KEY_SEMICOLON => 0x33 | KEY_APOSTROPHE => 0x34 | KEY_GRAVE => 0x35
  | KEY_COMMA => 0x36 | KEY_DOT => 0x37 | KEY_SLASH => 0x38 | KEY_CAPSLOCK => 0x39
  | KEY_F1 => 0x3A | KEY_F2 => 0x3B | KEY_F3 => 0x3C | KEY_F4 => 0x3D | KEY_F5 => 0x3E
  | KEY_F6 => 0x3F | KEY_F7 => 0x40 | KEY_F8 => 0x41 | KEY_F9 => 0x42 | KEY_F10 => 0x43
  | KEY_F11 => 0x44 | KEY_F12 => 0x45 | KEY_SYSRQ => 0x46 | KEY_SCROLLOCK => 0x47
  | KEY_PAUSE => 0x48 | KEY_INSERT => 0x49 | KEY_HOME => 0x4A | KEY_PAGEUP => 0x4B
  | KEY_DELETE => 0x4C | KEY_END => 0x4D | KEY_PAGEDOWN => 0x4E | KEY_RIGHT => 0x4F
  | KEY_LEFT => 0x50 | KEY_DOWN => 0x51 | KEY_UP => 0x52 | KEY_NUMLOCK => 0x53
  | KEY_KPSLASH => 0x54 | KEY_KPASTERISK => 0x55 | KEY_KPMINUS => 0x56 | KEY_KPPLUS => 0x57
  | KEY_KPENTER => 0x58 | KEY_KP1 => 0x59 | KEY_KP2 => 0x5A | KEY_KP3 => 0x5B | KEY_KP4 => 0x5C
  | KEY_KP5 => 0x5D | KEY_KP6 => 0x5E | KEY_KP7 => 0x5F | KEY_KP8 => 0x60 | KEY_KP9 => 0x61
  | KEY_KP0 => 0x62 | KEY_KPDOT => 0x63 | KEY_COMPOSE => 0x65 | KEY_KPEQUAL => 0x67
  | KEY_LEFTCTRL => 0xE0 | KEY_LEFTSHIFT => 0xE1 | KEY_LEFTALT => 0xE2 | KEY_LEFTMETA => 0xE3
  | KEY_RIGHTCTRL => 0xE4 | KEY_RIGHTSHIFT => 0xE5 | KEY_RIGHTALT => 0xE6
  | KEY_RIGHTMETA => 0xE7
  end.

(** An array of 256 entries from its initialisers; the others are zero. *)
Fixpoint initialiser {A} (zero : A) (l : list (Z * A)) (i : Z) : A :=
  match l with [] => zero | (j, a) :: l => if j =? i then a else initialiser zero l i end.
Definition table {A} (zero : A) (l : list (Z * A)) : list A := initialiser zero l <$> seqZ 0 256.

Module Ps2.

Definition translation_normal : list Z := table 0 [
  (0x01, keycode KEY_F9); (0x03, keycode KEY_F5); (0x04, keycode KEY_F3);
  (0x05, keycode KEY_F5); (0x06, keycode KEY_F2); (0x07, keycode KEY_F12);
  (0x09, keycode KEY_F10); (0x0A, keycode KEY_F8); (0x0B, keycode KEY_F6);
  (0x0C, keycode KEY_F4); (0x0D, keycode KEY_TAB); (0x0E, keycode KEY_GRAVE);
  (0x11, keycode KEY_LEFTALT); (0x12, keycode KEY_LEFTSHIFT); (0x14, keycode KEY_LEFTCTRL);
  (0x15, keycode KEY_Q); (0x16, keycode KEY_1); (0x1A, keycode KEY_Z); (0x1B, keycode KEY_S);
  (0x1C, keycode KEY_A); (0x1D, keycode KEY_W); (0x1E, keycode KEY_2); (0x21, keycode KEY_C);
  (0x22, keycode KEY_X); (0x23, keycode KEY_D); (0x24, keycode KEY_E); (0x25, keycode KEY_4);
  (0x26, keycode KEY_3); (0x29, keycode KEY_SPACE); (0x2A, keycode KEY_V);
  (0x2B, keycode KEY_F); (0x2C, keycode KEY_T); (0x2D, keycode KEY_R); (0x2E, keycode KEY_5);
  (0x31, keycode KEY_N); (0x32, keycode KEY_B); (0x33, keycode KEY_H); (0x34, keycode KEY_G);
  (0x35, keycode KEY_Y); (0x36, keycode KEY_6); (0x3A, keycode KEY_M); (0x3B, keycode KEY_J);
  (0x3C, keycode KEY_U); (0x3D, keycode KEY_7); (0x3E, keycode KEY_8);
  (0x41, keycode KEY_COMMA); (0x42, keycode KEY_K); (0x43, keycode KEY_I);
  (0x44, keycode KEY_O); (0x45, keycode KEY_0); (0x46, keycode KEY_9); (0x49, keycode KEY_DOT);
  (0x4A, keycode KEY_SLASH); (0x4B, keycode KEY_L); (0x4C, keycode KEY_SEMICOLON);
  (0x4D, keycode KEY_P); (0x4E, keycode KEY_MINUS); (0x52, keycode KEY_APOSTROPHE);
  (0x54, keycode KEY_LEFTBRACE); (0x55, keycode KEY_EQUAL); (0x58, keycode KEY_CAPSLOCK);
  (0x59, keycode KEY_RIGHTSHIFT); (0x5A, keycode KEY_RETURN); (0x5B, keycode KEY_RIGHTBRACE);
  (0x5D, keycode KEY_BACKSLASH); (0x66, keycode KEY_BACKSPACE); (0x69, keycode KEY_KP1);
  (0x6B, keycode KEY_KP4); (0x6C, keycode KEY_KP7); (0x70, keycode KEY_KP0);
  (0x71, keycode KEY_KPDOT); (0x72, keycode KEY_KP2); (0x73, keycode KEY_KP5);
  (0x74, keycode KEY_KP6); (0x75, keycode KEY_KP8); (0x76, keycode KEY_ESCAPE);
  (0x77, keycode KEY_NUMLOCK); (0x78, keycode KEY_F11); (0x79, keycode KEY_KPPLUS);
  (0x7A, keycode KEY_KP3); (0x7B, keycode KEY_KPMINUS); (0x7C, keycode KEY_KPASTERISK);
  (0x7D, keycode KEY_KP9); (0x7E, keycode KEY_SYSRQ); (0x83, keycode KEY_F7)].

Definition translation_extra : list Z := table 0 [(0x11, keycode KEY_RIGHTALT); (0x14, keycode KEY_RIGHTCTRL)].

(** The static variables of [kb_irq], and the call it makes. *)
Record keyboard := mk_keyboard { released : bool; extra : bool }.
Inductive action := Nothing | KeyPress (code : Z) | KeyRelease (code : Z).

Definition kb_irq (byte : Z) (kb : keyboard) : outcome (action * keyboard) :=
  if byte =? 0xE0 then Done (Nothing, mk_keyboard (released kb) true)
  else if byte =? 0xF0 then Done (Nothing, mk_keyboard true (extra kb))
  else
    translated ← (if extra kb then translation_extra else translation_normal).[byte];
    let idle := mk_keyboard false false in
    if translated =? 0 then Done (Nothing, idle)
    else if released kb then Done (KeyRelease translated, idle)
    else Done (KeyPress translated, idle).

End Ps2.

Module Input.
Import CircularBuffer.

Definition KEYMOD_NONE : Z := 0x00.
Definition KEYMOD_CAPSLOCK : Z := 0x01.
Definition KEYMOD_NUMLOCK : Z := 0x02.
Definition KEYMOD_SHIFT : Z := 0x08.
Definition KEYMOD_CTRL : Z := 0x10.
Definition KEYMOD_ALT : Z := 0x20.
Definition KEYMOD_ALTGR : Z := Z.lor KEYMOD_CTRL KEYMOD_ALT.
Definition KEYMOD_RELEASE : Z := 0x80.

(** ** Characters *)

Record key := mk_key {
  k_normal : Z; k_shift : Z; k_ctrl : Z; k_ctrl_alt : Z;
  k_capslock : Z; k_capslock_shift : Z; k_capslock_ctrl : Z; k_capslock_ctrl_alt : Z }.

Definition nullKey : key := mk_key 0 0 0 0 0 0 0 0.
Definition normalKey (lower upper : Z) : key := mk_key lower upper 0 0 upper lower 0 0.
Definition symbolKey1 (c : Z) : key := mk_key c c 0 0 c c 0 0.
Definition symbolKey (non_shift shift : Z) : key := mk_key non_shift shift 0 0 non_shift shift 0 0.

Definition default_keymap : list key := table nullKey [
  (keycode KEY_A, normalKey 97 65); (keycode KEY_B, normalKey 98 66);
  (keycode KEY_C, normalKey 99 67); (keycode KEY_D, normalKey 100 68);
  (keycode KEY_E, normalKey 101 69); (keycode KEY_F, normalKey 102 70);
  (keycode KEY_G, normalKey 103 71); (keycode KEY_H, normalKey 104 72);
  (keycode KEY_I, normalKey 105 73); (keycode KEY_J, normalKey 106 74);
  (keycode KEY_K, normalKey 107 75); (keycode KEY_L, normalKey 108 76);
  (keycode KEY_M, normalKey 109 77); (keycode KEY_N, normalKey 110 78);
  (keycode KEY_O, normalKey 111 79); (keycode KEY_P, normalKey 112 80);
  (keycode KEY_Q, normalKey 113 81); (keycode KEY_R, normalKey 114 82);
  (keycode KEY_S, normalKey 115 83); (keycode KEY_T, normalKey 116 84);
  (keycode KEY_U, normalKey 117 85); (keycode KEY_V, normalKey 118 86);
  (keycode KEY_W, normalKey 119 87); (keycode KEY_X, normalKey 120 88);
  (keycode KEY_Y, normalKey 121 89); (keycode KEY_Z, normalKey 122 90);
  (keycode KEY_1, symbolKey 49 33); (keycode KEY_2, symbolKey 50 64);
  (keycode KEY_3, symbolKey 51 35); (keycode KEY_4, symbolKey 52 36);
  (keycode KEY_5, symbolKey 53 37); (keycode KEY_6, symbolKey 54 94);
  (keycode KEY_7, symbolKey 55 38); (keycode KEY_8, symbolKey 56 42);
  (keycode KEY_9, symbolKey 57 40); (keycode KEY_0, symbolKey 48 41);
  (keycode KEY_RETURN, symbolKey1 13); (keycode KEY_ESCAPE, symbolKey1 27);
  (keycode KEY_BACKSPACE, symbolKey1 8); (keycode KEY_TAB, symbolKey1 9);
  (keycode KEY_SPACE, symbolKey1 32); (keycode KEY_MINUS, symbolKey 45 95);
  (keycode KEY_EQUAL, symbolKey 61 43); (keycode KEY_LEFTBRACE, symbolKey 91 123);
  (keycode KEY_RIGHTBRACE, symbolKey 93 125); (keycode KEY_BACKSLASH, symbolKey 92 124);
  (keycode KEY_BACKSLASH2, symbolKey 92 124); (keycode KEY_SEMICOLON, symbolKey 59 58);
  (keycode KEY_APOSTROPHE, symbolKey 39 34); (keycode KEY_GRAVE, symbolKey 96 126);
  (keycode KEY_COMMA, symbolKey 44 60); (keycode KEY_DOT, symbolKey 46 62);
  (keycode KEY_SLASH, symbolKey 47 63)].

Record event := mk_event { e_keycode : Z; e_mod : Z }.

Definition translate (m_keymap : list key) (e : event) : outcome Z :=
  k ← m_keymap.[e_keycode e];
  let caps := negb (Z.land (e_mod e) KEYMOD_CAPSLOCK =? 0) in
  if negb (Z.land (e_mod e) KEYMOD_ALTGR =? 0) then Done (if caps then k_capslock_ctrl_alt k else k_ctrl_alt k)
  else if negb (Z.land (e_mod e) KEYMOD_CTRL =? 0) then Done (if caps then k_capslock_ctrl k else k_ctrl k)
  else if negb (Z.land (e_mod e) KEYMOD_SHIFT =? 0) then Done (if caps then k_capslock_shift k else k_shift k)
  else Done (if caps then k_capslock k else k_normal k).

(** ** Handles *)

Record Handle := mk_handle { m_buffer : CircularBuffer; m_registered : bool }.

Definition event_bytes (e : event) : list Z := [e_keycode e; e_mod e].

(** [Handle::write]: nothing when there is no room. *)
Definition handle_write (h : Handle) (e : event) : outcome Handle :=
  if writeAvailable (m_buffer h) <? 2 then Done h
  else
    s ← CircularBuffer.write (m_buffer h) (event_bytes e) false;
    '(_, r) ← MessageQueue.now s;
    Done (mk_handle r (m_registered h)).

(** [Handle::read]: the event, or nothing when the reader waits. *)
Definition handle_read (h : Handle) : outcome (option event * Handle) :=
  s ← CircularBuffer.read (m_buffer h) 2 (-1) false;
  match s with
  | Finished r [c; m] => Done (Some (mk_event c m), mk_handle r (m_registered h))
  | Finished r _ | Waiting r _ _ => Done (None, mk_handle r (m_registered h))
  end.

(** ** The state of the keyboard *)

(** [objects] holds every handle, [handles] the registered ones, [leds] the lights
    every device was told. *)
Record input := mk_input {
  num_lock : bool; caps_lock : bool; pressed : list bool;
  shift : Z; ctrl : Z; alt : Z; altgr : Z;
  objects : list Handle; handles : list nat; leds : list Z }.

Definition initial : input := mk_input true false (replicate 256 false) 0 0 0 0 [] [] [].

Definition led_flags (s : input) : Z := Z.lor (if num_lock s then 1 else 0) (if caps_lock s then 2 else 0).

Definition update_leds (s : input) : input :=
  mk_input (num_lock s) (caps_lock s) (pressed s) (shift s) (ctrl s) (alt s) (altgr s) (objects s) (handles s)
    ((λ _, led_flags s) <$> leds s).

Definition get_mod (s : input) : Z :=
  let m := KEYMOD_NONE in
  let m := if num_lock s then Z.lor m KEYMOD_NUMLOCK else m in
  let m := if caps_lock s then Z.lor m KEYMOD_CAPSLOCK else m in
  let m := if negb (shift s =? 0) then Z.lor m KEYMOD_SHIFT else m in
  let m := if negb (ctrl s =? 0) then Z.lor m KEYMOD_CTRL else m in
  let m := if negb (alt s =? 0) then Z.lor m KEYMOD_ALT else m in
  if negb (altgr s =? 0) then Z.lor m KEYMOD_ALTGR else m.

(** The loop over the registered handles. *)
Fixpoint notify (hs : list nat) (e : event) (objs : list Handle) : outcome (list Handle) :=
  match hs with
  | [] => Done objs
  | h :: hs =>
      o ← objs.[Z.of_nat h]; o ← handle_write o e;
      notify hs e (<[h := o]> objs)
  end.

Definition set_objects (objs : list Handle) (s : input) : input :=
  mk_input (num_lock s) (caps_lock s) (pressed s) (shift s) (ctrl s) (alt s) (altgr s) objs (handles s) (leds s).
Definition set_pressed (code : Z) (b : bool) (s : input) : input :=
  mk_input (num_lock s) (caps_lock s) (<[Z.to_nat code := b]> (pressed s)) (shift s) (ctrl s) (alt s) (altgr s) (objects s) (handles s) (leds s).
Definition set_locks (n c : bool) (s : input) : input :=
  mk_input n c (pressed s) (shift s) (ctrl s) (alt s) (altgr s) (objects s) (handles s) (leds s).
Definition add_mods (dshift dctrl dalt daltgr : Z) (s : input) : input :=
  mk_input (num_lock s) (caps_lock s) (pressed s) (i32 (shift s + dshift)) (i32 (ctrl s + dctrl)) (i32 (alt s + dalt)) (i32 (altgr s + daltgr))
    (objects s) (handles s) (leds s).

(** [switch (code)] of [key_press]. *)
Definition press_switch (code : Z) (s : input) : input :=
  if code =? keycode KEY_NUMLOCK then update_leds (set_locks (negb (num_lock s)) (caps_lock s) s)
  else if code =? keycode KEY_CAPSLOCK then update_leds (set_locks (num_lock s) (negb (caps_lock s)) s)
  else if (code =? keycode KEY_LEFTSHIFT) || (code =? keycode KEY_RIGHTSHIFT) then add_mods 1 0 0 0 s
  else if (code =? keycode KEY_LEFTCTRL) || (code =? keycode KEY_RIGHTCTRL) then add_mods 0 1 0 0 s
  else if code =? keycode KEY_LEFTALT then add_mods 0 0 1 0 s
  else if code =? keycode KEY_RIGHTALT then add_mods 0 0 0 1 s
  else s.

Definition release_switch (code : Z) (s : input) : input :=
  if (code =? keycode KEY_LEFTSHIFT) || (code =? keycode KEY_RIGHTSHIFT) then add_mods (-1) 0 0 0 s
  else if (code =? keycode KEY_LEFTCTRL) || (code =? keycode KEY_RIGHTCTRL) then add_mods 0 (-1) 0 0 s
  else if code =? keycode KEY_LEFTALT then add_mods 0 0 (-1) 0 s
  else if code =? keycode KEY_RIGHTALT then add_mods 0 0 0 (-1) s
  else s.

Definition key_press (code : Z) (s : input) : outcome input :=
  objs ← notify (handles s) (mk_event code (get_mod s)) (objects s);
  let s := set_objects objs s in
  b ← (pressed s).[code];
  let s := if b : bool then s else press_switch code s in
  Done (set_pressed code true s).

Definition key_release (code : Z) (s : input) : outcome input :=
  objs ← notify (handles s) (mk_event code (Z.lor (get_mod s) KEYMOD_RELEASE)) (objects s);
  let s := set_objects objs s in
  b ← (pressed s).[code];
  let s := if b : bool then release_switch code s else s in
  Done (set_pressed code false s).

(** [Handle::getHandle] and [Handle::begin]. *)
Definition getHandle (buffer_size : Z) (s : input) : nat * input :=
  (length (objects s), set_objects (objects s ++ [mk_handle (CircularBuffer.create buffer_size) false]) s).
Definition begin_ (h : nat) (s : input) : outcome input :=
  o ← (objects s).[Z.of_nat h];
  if m_registered o then Done s
  else Done (mk_input (num_lock s) (caps_lock s) (pressed s) (shift s) (ctrl s) (alt s) (altgr s)
               (<[h := mk_handle (m_buffer o) true]> (objects s)) (handles s ++ [h]) (leds s)).

(** [unregister_handle]: every occurrence is erased. *)
Definition unregister_handle (h : nat) (s : input) : input :=
  mk_input (num_lock s) (caps_lock s) (pressed s) (shift s) (ctrl s) (alt s) (altgr s) (objects s)
    (filter (λ x, x ≠ h) (handles s)) (leds s).

Definition register_device (s : input) : input :=
  update_leds (mk_input (num_lock s) (caps_lock s) (pressed s) (shift s) (ctrl s) (alt s) (altgr s) (objects s) (handles s) (leds s ++ [0])).

(** The interrupt: [keyPress] and [keyRelease] of the device. *)
Definition irq (byte : Z) (st : Ps2.keyboard * input) : outcome (Ps2.keyboard * input) :=
  '(a, kb) ← Ps2.kb_irq byte st.1;
  match a with
  | Ps2.Nothing => Done (kb, st.2)
  | Ps2.KeyPress code => s ← key_press code st.2; Done (kb, s)
  | Ps2.KeyRelease code => s ← key_release code st.2; Done (kb, s)
  end.

Fixpoint irqs (bytes : list Z) (st : Ps2.keyboard * input) : outcome (Ps2.keyboard * input) :=
  match bytes with [] => Done st | b :: bytes => st ← irq b st; irqs bytes st end.

(** ** The invariant *)

Definition is_pressed (s : input) (code : Z) : bool := default false (pressed s !! Z.to_nat code).
Definition held (s : input) (k : hid_keycode_t) : Z := Z.b2z (is_pressed s (keycode k)).

(** The counters count the keys that are down. *)
Definition counted (s : input) : Prop :=
  length (pressed s) = 256%nat ∧
  shift s = held s KEY_LEFTSHIFT + held s KEY_RIGHTSHIFT ∧ ctrl s = held s KEY_LEFTCTRL + held s KEY_RIGHTCTRL ∧
  alt s = held s KEY_LEFTALT ∧ altgr s = held s KEY_RIGHTALT.

(** Every handle has a buffer of its own, the registered ones are listed once, and
    the lights of the devices show the locks. *)
Definition input_inv (s : input) : Prop :=
  counted s ∧ Forall (λ l, l = led_flags s) (leds s) ∧
  Forall (λ o, wf (m_buffer o)) (objects s) ∧ NoDup (handles s) ∧
  ∀ h, h ∈ handles s → ∃ o, objects s !! h = Some o ∧ m_registered o = true.

Lemma handle_write_ok o e : wf (m_buffer o) → ∃ o', handle_write o e = Done o' ∧ wf (m_buffer o') ∧ m_registered o' = m_registered o ∧
  m_size (m_buffer o') = m_size (m_buffer o) ∧
  contents (m_buffer o') = contents (m_buffer o) ++
    (if Z.of_nat (length (contents (m_buffer o))) + 2 <=? m_size (m_buffer o) - 1 then event_bytes e else []).
Proof.
  intros Hw. unfold handle_write. rewrite writeAvailable_eq by done. destruct (Z.ltb_spec (m_size (m_buffer o) - 1 - Z.of_nat (length (contents (m_buffer o)))) 2).
  - exists o. destruct (Z.leb_spec (Z.of_nat (length (contents (m_buffer o))) + 2) (m_size (m_buffer o) - 1)); [lia|]. by rewrite app_nil_r.
  - destruct (Z.leb_spec (Z.of_nat (length (contents (m_buffer o))) + 2) (m_size (m_buffer o) - 1)); [|lia].
    destruct (MessageQueue.write_now (m_buffer o) (event_bytes e) false Hw) as (n & r & -> & Hr & Hs & Hc); [cbn; lia|]. rewrite bind_ret. cbn.
    eexists. by split_and!.
Qed.

Lemma notify_ok hs e objs :
  Forall (λ o, wf (m_buffer o)) objs → (∀ h, h ∈ hs → (h < length objs)%nat) →
  ∃ objs', notify hs e objs = Done objs' ∧ Forall (λ o, wf (m_buffer o)) objs' ∧ length objs' = length objs ∧
    (m_registered <$> objs') = (m_registered <$> objs) ∧ ∀ h, h ∉ hs → objs' !! h = objs !! h.
Proof.
  revert objs. induction hs as [|h hs IH]; intros objs Hw Hh; [by exists objs|]. cbn [notify].
  destruct (lookup_lt_is_Some_2 objs h (Hh h ltac:(set_solver))) as [o Ho].
  rewrite (proj2 (rd_Done objs (Z.of_nat h) o)), bind_ret by (rewrite Nat2Z.id; split; [lia|done]).
  destruct (handle_write_ok o e (Forall_lookup_1 _ _ _ _ Hw Ho)) as (o' & -> & Hw' & Hr & _). rewrite bind_ret.
  destruct (IH (<[h := o']> objs)) as (objs' & -> & H1 & H2 & H3 & H4).
  - by apply Forall_insert.
  - intros h' Hin. rewrite length_insert. apply Hh. set_solver.
  - exists objs'. split_and!; [done|done|by rewrite H2, length_insert| |].
    + rewrite H3, list_fmap_insert. apply list_insert_id. by rewrite list_lookup_fmap, Ho, Hr.
    + intros h' Hn. apply not_elem_of_cons in Hn as [Hne Hn]. rewrite H4 by done. by apply list_lookup_insert_ne.
Qed.

Lemma handles_bound s h : input_inv s → h ∈ handles s → (h < length (objects s))%nat.
Proof. intros (_ & _ & _ & _ & Hh) Hin. destruct (Hh h Hin) as (o & Ho & _). by eapply lookup_lt_Some. Qed.

Lemma set_objects_inv objs s :
  input_inv s → Forall (λ o, wf (m_buffer o)) objs → (m_registered <$> objs) = (m_registered <$> objects s) → input_inv (set_objects objs s).
Proof.
  intros (Hc & Hl & Hw & Hn & Hh) Hw' Hr. split_and!; try done. cbn. intros h Hin. destruct (Hh h Hin) as (o & Ho & Hreg).
  assert (Hx : (m_registered <$> objs) !! h = Some true) by (by rewrite Hr, list_lookup_fmap, Ho; cbn; rewrite Hreg).
  rewrite list_lookup_fmap in Hx. destruct (objs !! h) as [o'|]; [|done]. exists o'. split; [done|]. by injection Hx.
Qed.

Lemma update_leds_inv s : counted s → Forall (λ o, wf (m_buffer o)) (objects s) → NoDup (handles s) →
  (∀ h, h ∈ handles s → ∃ o, objects s !! h = Some o ∧ m_registered o = true) → input_inv (update_leds s).
Proof. intros Hc Hw Hn Hh. split_and!; try done. cbn. apply Forall_fmap, Forall_forall. by intros. Qed.

(** Whether a key is down after another one changed. *)
Lemma is_pressed_insert s code b c :
  0 ≤ code < 256 → 0 ≤ c → length (pressed s) = 256%nat →
  is_pressed (set_pressed code b s) c = if code =? c then b else is_pressed s c.
Proof.
  intros Hcode Hc Hl. unfold is_pressed. cbn. destruct (Z.eqb_spec code c) as [->|Hne].
  - by rewrite list_lookup_insert_eq by lia.
  - by rewrite list_lookup_insert_ne by lia.
Qed.

Lemma pressed_at s code : 0 ≤ code < 256 → length (pressed s) = 256%nat → (pressed s).[code] = Done (is_pressed s code).
Proof.
  intros Hc Hl. destruct (lookup_lt_is_Some_2 (pressed s) (Z.to_nat code) ltac:(lia)) as [b Hb].
  unfold is_pressed. rewrite Hb. apply rd_Done. split; [lia|done].
Qed.

Lemma held_bound s k : 0 ≤ held s k ≤ 1.
Proof. unfold held. by destruct (is_pressed s _). Qed.

(** [switch] and the new state of the key keep the counters right. *)
Lemma switch_counted code (b : bool) s :
  0 ≤ code < 256 → counted s → is_pressed s code = negb b →
  counted (set_pressed code b (if b then press_switch code s else release_switch code s)).
Proof.
  intros Hcode (Hl & H1 & H2 & H3 & H4) Hp.
  pose proof (held_bound s KEY_LEFTSHIFT). pose proof (held_bound s KEY_RIGHTSHIFT). pose proof (held_bound s KEY_LEFTCTRL).
  pose proof (held_bound s KEY_RIGHTCTRL). pose proof (held_bound s KEY_LEFTALT). pose proof (held_bound s KEY_RIGHTALT).
  assert (Hsame : ∀ s', pressed s' = pressed s → length (pressed (set_pressed code b s')) = 256%nat) by (intros s' E; cbn; by rewrite length_insert, E).
  assert (Hheld : ∀ s' k, pressed s' = pressed s → held (set_pressed code b s') k = if code =? keycode k then Z.b2z b else held s k).
  { intros s' k E. unfold held. rewrite is_pressed_insert by (done || (by rewrite E) || (destruct k; cbn; lia)).
    destruct (_ =? _); [done|]. unfold is_pressed. by rewrite E. }
  assert (Hold : ∀ k, code = keycode k → held s k = Z.b2z (negb b)) by (intros k ->; unfold held; by rewrite Hp).
  assert (Hsel : ∀ s', pressed s' = pressed s →
    shift s' = (if code =? keycode KEY_LEFTSHIFT then Z.b2z b else held s KEY_LEFTSHIFT) + (if code =? keycode KEY_RIGHTSHIFT then Z.b2z b else held s KEY_RIGHTSHIFT) →
    ctrl s' = (if code =? keycode KEY_LEFTCTRL then Z.b2z b else held s KEY_LEFTCTRL) + (if code =? keycode KEY_RIGHTCTRL then Z.b2z b else held s KEY_RIGHTCTRL) →
    alt s' = (if code =? keycode KEY_LEFTALT then Z.b2z b else held s KEY_LEFTALT) →
    altgr s' = (if code =? keycode KEY_RIGHTALT then Z.b2z b else held s KEY_RIGHTALT) → counted (set_pressed code b s')).
  { intros s' E E1 E2 E3 E4. split_and!; [by apply Hsame|rewrite !Hheld by done; exact E1|rewrite !Hheld by done; exact E2|rewrite Hheld by done; exact E3|rewrite Hheld by done; exact E4]. }
  assert (Hmods : ∀ d, d = (if b then 1 else -1) → Z.b2z b = Z.b2z (negb b) + d) by (intros d ->; by destruct b).
  unfold press_switch, release_switch, update_leds, set_locks, add_mods.
  pose proof (Hold KEY_LEFTSHIFT). pose proof (Hold KEY_RIGHTSHIFT). pose proof (Hold KEY_LEFTCTRL). pose proof (Hold KEY_RIGHTCTRL).
  pose proof (Hold KEY_LEFTALT). pose proof (Hold KEY_RIGHTALT). cbn [keycode] in *.
  destruct b; cbn [negb Z.b2z] in *;
    repeat match goal with |- context [code =? ?n] => destruct (Z.eqb_spec code n); try (exfalso; lia); cbn [orb] end;
    apply Hsel; cbn [pressed shift ctrl alt altgr keycode]; try done;
    repeat match goal with |- context [code =? ?n] => destruct (Z.eqb_spec code n); try (exfalso; lia) end; rewrite ?swrap_small by lia; lia.
Qed.

Lemma set_pressed_same code b s : 0 ≤ code < 256 → counted s → is_pressed s code = b → set_pressed code b s = s.
Proof.
  intros Hc (Hl & _) Hb. pose proof (pressed_at s code Hc Hl) as Hr. rewrite Hb in Hr. apply rd_Done in Hr as [_ Hr].
  unfold set_pressed. rewrite list_insert_id by done. by destruct s.
Qed.

Lemma switch_inv code (b : bool) s :
  0 ≤ code < 256 → input_inv s → is_pressed s code = negb b →
  input_inv (set_pressed code b (if b then press_switch code s else release_switch code s)).
Proof.
  intros Hc Hi Hp. pose proof Hi as (Hcnt & Hl & Hw & Hn & Hh). pose proof (switch_counted code b s Hc Hcnt Hp) as Hcnt'. split_and!; [exact Hcnt'|..];
    unfold press_switch, release_switch; destruct b;
    repeat match goal with |- context [if ?c then _ else _] => destruct c end; try done; cbn; apply Forall_fmap, Forall_forall; by intros.
Qed.

(** A press or a release of a key. *)
Lemma key_ok code (b : bool) s :
  0 ≤ code < 256 → input_inv s →
  ∃ objs s', (if b then key_press code s else key_release code s) = Done s' ∧ input_inv s' ∧
    notify (handles s) (mk_event code (if b then get_mod s else Z.lor (get_mod s) KEYMOD_RELEASE)) (objects s) = Done objs ∧
    s' = set_pressed code b (if eqb (is_pressed s code) b then set_objects objs s
                             else if b then press_switch code (set_objects objs s) else release_switch code (set_objects objs s)).
Proof.
  intros Hc Hi. pose proof Hi as ((Hl & _) & _ & Hw & _).
  destruct (notify_ok (handles s) (mk_event code (if b then get_mod s else Z.lor (get_mod s) KEYMOD_RELEASE)) (objects s) Hw (λ h, handles_bound s h Hi))
    as (objs & Hn & Hw' & _ & Hr & _).
  pose proof (set_objects_inv objs s Hi Hw' Hr) as Hi'. pose proof Hi' as (Hc' & _). exists objs.
  assert (Hp : is_pressed (set_objects objs s) code = is_pressed s code) by done.
  assert (Hrun : (if b then key_press code s else key_release code s) =
    Done (set_pressed code b (if eqb (is_pressed s code) b then set_objects objs s
                             else if b then press_switch code (set_objects objs s) else release_switch code (set_objects objs s)))).
  { destruct b; [unfold key_press|unfold key_release]; rewrite Hn, bind_ret, pressed_at, bind_ret, Hp by done; by destruct (is_pressed s code). }
  eexists. split; [exact Hrun|]. split; [|done]. destruct (eqb (is_pressed s code) b) eqn:E.
  - apply eqb_prop in E. by rewrite set_pressed_same by (done || by rewrite Hp).
  - apply switch_inv; [done|done|]. rewrite Hp. by destruct (is_pressed s code), b.
Qed.

(** ** Reachable states *)

Lemma table_byte l i : Forall (λ p, 0 ≤ p.2 < 256) l → 0 ≤ initialiser 0 l i < 256.
Proof. induction 1 as [|[j a] l Ha _ IH]; cbn; [lia|]. by destruct (_ =? _). Qed.

Lemma kb_irq_ok byte kb : 0 ≤ byte < 256 →
  ∃ a kb', Ps2.kb_irq byte kb = Done (a, kb') ∧ match a with Ps2.Nothing => True | Ps2.KeyPress c | Ps2.KeyRelease c => 0 < c < 256 end.
Proof.
  intros Hb. unfold Ps2.kb_irq. destruct (_ =? 0xE0); [by eexists _, _|]. destruct (_ =? 0xF0); [by eexists _, _|].
  assert (Hrd : ∃ c, (if Ps2.extra kb then Ps2.translation_extra else Ps2.translation_normal).[byte] = Done c ∧ 0 ≤ c < 256).
  { assert (H : ∀ l, Forall (λ p, 0 ≤ p.2 < 256) l → ∃ c, (table 0 l).[byte] = Done c ∧ 0 ≤ c < 256).
    { intros l Hl. exists (initialiser 0 l byte). split; [|by apply table_byte]. apply rd_Done. split; [lia|]. unfold table.
      rewrite list_lookup_fmap, lookup_seqZ_lt by lia. cbn. do 2 f_equal. lia. }
    destruct (Ps2.extra kb); apply H; repeat constructor; cbn; lia. }
  destruct Hrd as (c & -> & Hc). rewrite bind_ret. destruct (Z.eqb_spec c 0); [by eexists _, _|].
  destruct (Ps2.released kb); (eexists _, _; split; [reflexivity|]; cbn; lia).
Qed.

(** A step, with the byte the keyboard sends in it. *)
Inductive input_step : list Z → Ps2.keyboard * input → Ps2.keyboard * input → Prop :=
| step_irq byte st st' : 0 ≤ byte < 256 → irq byte st = Done st' → input_step [byte] st st'
| step_handle kb s n h s' : 0 < n → getHandle n s = (h, s') → input_step [] (kb, s) (kb, s')
| step_begin kb s h s' : begin_ h s = Done s' → input_step [] (kb, s) (kb, s')
| step_read kb s h o e o' : objects s !! h = Some o → handle_read o = Done (e, o') → input_step [] (kb, s) (kb, set_objects (<[h := o']> (objects s)) s)
| step_unregister kb s h : input_step [] (kb, s) (kb, unregister_handle h s)
| step_device kb s : input_step [] (kb, s) (kb, register_device s).
(** The states after the keyboard has sent [bs]. *)
Inductive input_run : list Z → Ps2.keyboard * input → Prop :=
| run_start : input_run [] (Ps2.mk_keyboard false false, initial)
| run_step bs l st st' : input_run bs st → input_step l st st' → input_run (bs ++ l) st'.

(** *** What the bytes say

    The keyboard sends [0xE0] before the code of an extended key and [0xF0] before the
    code of a key that is released.  [down] are the keys, by their codes, that are down. *)
Record line := mk_line { after_e0 : bool; after_f0 : bool; down : gset (bool * Z) }.
Definition feed (l : line) (b : Z) : line :=
  if b =? 0xE0 then mk_line true (after_f0 l) (down l)
  else if b =? 0xF0 then mk_line (after_e0 l) true (down l)
  else mk_line false false (if after_f0 l then down l ∖ {[(after_e0 l, b)]} else {[(after_e0 l, b)]} ∪ down l).
Definition sent (bs : list Z) : line := foldl feed (mk_line false false ∅) bs.
Definition key_down (bs : list Z) (key : bool * Z) : bool := bool_decide (key ∈ down (sent bs)).

(** The modifier keys of the keyboard, with the codes of the kernel. *)
Definition modifier_keys : list (bool * Z * hid_keycode_t) :=
  [(false, 0x12, KEY_LEFTSHIFT); (false, 0x59, KEY_RIGHTSHIFT); (false, 0x14, KEY_LEFTCTRL); (true, 0x14, KEY_RIGHTCTRL);
   (false, 0x11, KEY_LEFTALT); (true, 0x11, KEY_RIGHTALT)].

Definition translated (ext : bool) (b : Z) : outcome Z := (if ext then Ps2.translation_extra else Ps2.translation_normal).[b].
Lemma translated_range ext b c : 0 ≤ b < 256 → translated ext b = Done c → 0 ≤ c < 256.
Proof.
  intros Hb Hc. assert (Hall : forallb (λ c, (0 <=? c) && (c <? 256)) (Ps2.translation_extra ++ Ps2.translation_normal) = true) by (vm_compute; reflexivity).
  rewrite forallb_app, andb_true_iff, !forallb_forall in Hall. destruct Hall as [H1 H2]. apply rd_Done in Hc as [_ Hc]. apply list_elem_of_lookup_2, list_elem_of_In in Hc.
  destruct ext; [specialize (H1 c Hc)|specialize (H2 c Hc)]; lia.
Qed.
(** No other key has the code of a modifier. *)
Definition only_modifier (ext : bool) (b : Z) : bool :=
  match translated ext b with
  | Done c => forallb (λ m, eqb (c =? keycode m.2) (bool_decide (m.1 = (ext, b)))) modifier_keys
  | _ => false
  end.
Lemma modifier_unique ext b c m : 0 ≤ b < 256 → translated ext b = Done c → m ∈ modifier_keys → (c = keycode m.2 ↔ m.1 = (ext, b)).
Proof.
  intros Hb Hc Hm. assert (Hall : forallb (λ b, only_modifier true b && only_modifier false b) (seqZ 0 256) = true) by (vm_compute; reflexivity).
  rewrite forallb_forall in Hall. specialize (Hall b). rewrite <-list_elem_of_In, elem_of_seqZ in Hall. specialize (Hall ltac:(lia)). apply andb_true_iff in Hall as [Ht Hf].
  assert (Ho : only_modifier ext b = true) by (by destruct ext). unfold only_modifier in Ho. rewrite Hc, forallb_forall in Ho. specialize (Ho m). rewrite <-list_elem_of_In in Ho.
  specialize (Ho Hm). apply eqb_prop in Ho. destruct (Z.eqb_spec c (keycode m.2)), (bool_decide_reflect (m.1 = (ext, b))); naive_solver.
Qed.

(** The kernel has seen the line: its flags, and the modifier keys that are down. *)
Definition follows (bs : list Z) (st : Ps2.keyboard * input) : Prop :=
  st.1 = Ps2.mk_keyboard (after_f0 (sent bs)) (after_e0 (sent bs)) ∧
  ∀ m, m ∈ modifier_keys → is_pressed st.2 (keycode m.2) = key_down bs m.1.

Lemma sent_snoc bs b : sent (bs ++ [b]) = feed (sent bs) b.
Proof. unfold sent. by rewrite foldl_app. Qed.

(** [unregister_handle] leaves [m_registered] of the handle set: it belongs to the
    destructor. *)
Lemma handle_read_ok o e o' : wf (m_buffer o) → handle_read o = Done (e, o') → wf (m_buffer o') ∧ m_registered o' = m_registered o.
Proof.
  intros Hw. unfold handle_read, CircularBuffer.read. cbn [Z.leb Z.compare]. unfold read_section.
  destruct (read_loop_spec (S (Z.to_nat 2)) (m_buffer o) [] 2 (-1) false) as (r & Hr & _ & _ & He); [done|lia..|].
  rewrite He, bind_ret. unfold read_result. intros H.
  destruct (_ && _); [by injection H as <- <-|]. destruct (_ ++ _) as [|c [|m [|? ?]]]; by injection H as <- <-.
Qed.

Lemma input_step_inv l st st' : input_step l st st' → input_inv st.2 → input_inv st'.2.
Proof.
  intros [byte [kb s] st2 Hb He|kb s n h s' Hn He|kb s h s' He|kb s h o e o' Ho He|kb s h|kb s] Hi; cbn [snd] in *; pose proof Hi as (Hc & Hl & Hw & Hnd & Hh).
  - unfold irq in He. destruct (kb_irq_ok byte kb Hb) as (a & kb' & Ha & Hcode). cbn [fst snd] in He. rewrite Ha, bind_ret in He.
    destruct a as [|c|c]; [by injection He as <-|..].
    + destruct (key_ok c true s ltac:(lia) Hi) as (objs & s' & Hk & Hi' & _). cbn in Hk. rewrite Hk, bind_ret in He. by injection He as <-.
    + destruct (key_ok c false s ltac:(lia) Hi) as (objs & s' & Hk & Hi' & _). cbn in Hk. rewrite Hk, bind_ret in He. by injection He as <-.
  - unfold getHandle in He. injection He as <- <-. split_and!; try done; cbn.
    + apply Forall_app. split; [done|]. constructor; [|done]. by apply create_wf.
    + intros h Hin. destruct (Hh h Hin) as (o & Ho & Hr). exists o. split; [by apply lookup_app_l_Some|done].
  - unfold begin_ in He. apply bind_Done in He as (o & Ho & He). apply rd_Done in Ho as [_ Ho]. rewrite Nat2Z.id in Ho.
    destruct (m_registered o) eqn:Er; injection He as <-; [done|]. split_and!; try done; cbn.
    + apply Forall_insert; [done|]. cbn. by apply (Forall_lookup_1 _ _ _ _ Hw Ho).
    + apply NoDup_app. split_and!; [done| |apply NoDup_singleton]. intros x Hx ->%list_elem_of_singleton. destruct (Hh h Hx) as (o2 & Ho2 & Hr2). congruence.
    + intros x [Hx|Hx]%elem_of_app.
      * destruct (Hh x Hx) as (o2 & Ho2 & Hr2). destruct (decide (x = h)) as [->|Hne]; [congruence|]. exists o2. by rewrite list_lookup_insert_ne.
      * apply list_elem_of_singleton in Hx as ->. eexists. split; [apply list_lookup_insert_eq; by eapply lookup_lt_Some|done].
  - destruct (handle_read_ok o e o' (Forall_lookup_1 _ _ _ _ Hw Ho) He) as [Hw' Hr]. apply set_objects_inv; [done|by apply Forall_insert|].
    rewrite list_fmap_insert. apply list_insert_id. by rewrite list_lookup_fmap, Ho, Hr.
  - split_and!; try done; cbn; [by apply NoDup_filter|]. intros x [_ Hx]%list_elem_of_filter. by apply Hh.
  - by apply update_leds_inv.
Qed.

Lemma initial_inv : input_inv initial.
Proof.
  assert (H : ∀ k, held initial k = 0).
  { intros k. unfold held, is_pressed. cbn [initial pressed]. destruct (replicate 256 false !! _) as [b|] eqn:E; [|done]. by apply lookup_replicate in E as [-> _]. }
  split_and!; [|constructor..|cbn; set_solver]. unfold counted. by rewrite !H.
Qed.

Lemma get_mod_bits s : input_inv s →
  Z.testbit (get_mod s) 3 = is_pressed s (keycode KEY_LEFTSHIFT) || is_pressed s (keycode KEY_RIGHTSHIFT) ∧
  Z.testbit (get_mod s) 4 = (is_pressed s (keycode KEY_LEFTCTRL) || is_pressed s (keycode KEY_RIGHTCTRL)) || is_pressed s (keycode KEY_RIGHTALT) ∧
  Z.testbit (get_mod s) 5 = is_pressed s (keycode KEY_LEFTALT) || is_pressed s (keycode KEY_RIGHTALT).
Proof.
  intros ((_ & H1 & H2 & H3 & H4) & _). unfold get_mod. rewrite H1, H2, H3, H4. unfold held.
  generalize (is_pressed s (keycode KEY_LEFTSHIFT)) (is_pressed s (keycode KEY_RIGHTSHIFT)) (is_pressed s (keycode KEY_LEFTCTRL))
    (is_pressed s (keycode KEY_RIGHTCTRL)) (is_pressed s (keycode KEY_LEFTALT)) (is_pressed s (keycode KEY_RIGHTALT)).
  by intros [] [] [] [] [] []; destruct (num_lock s), (caps_lock s).
Qed.

Lemma pressed_after code b s s' k objs :
  0 ≤ code < 256 → 0 ≤ k < 256 → length (pressed s) = 256%nat →
  s' = set_pressed code b (if eqb (is_pressed s code) b then set_objects objs s
         else if b then press_switch code (set_objects objs s) else release_switch code (set_objects objs s)) →
  is_pressed s' k = if k =? code then b else is_pressed s k.
Proof.
  intros Hc Hk Hl ->. assert (Hp : ∀ s0, pressed (set_pressed code b s0) = <[Z.to_nat code := b]> (pressed s0)) by done. unfold is_pressed. rewrite Hp.
  replace (pressed _) with (pressed s).
  2:{ unfold press_switch, release_switch. destruct (eqb _ b); [done|]. destruct b; repeat match goal with |- context [if ?c then _ else _] => destruct c end; done. }
  destruct (Z.eqb_spec k code) as [->|Hne]; [by rewrite list_lookup_insert_eq by lia|]. by rewrite list_lookup_insert_ne by lia.
Qed.

Lemma irq_follows bs byte st st' : 0 ≤ byte < 256 → input_inv st.2 → follows bs st → irq byte st = Done st' → follows (bs ++ [byte]) st'.
Proof.
  intros Hb Hi [Hkb Hm] He. destruct st as [kb s]. cbn [fst snd] in *. subst kb. unfold follows, key_down. rewrite sent_snoc. unfold irq in He. cbn [fst snd] in He. unfold Ps2.kb_irq in He. unfold feed.
  destruct (byte =? 0xE0); [injection He as <-; by split|]. destruct (byte =? 0xF0); [injection He as <-; by split|]. cbn [Ps2.extra Ps2.released] in He.
  set (l := sent bs) in *. fold (translated (after_e0 l) byte) in He. destruct (translated (after_e0 l) byte) as [c| |] eqn:Ec; [|done..]. rewrite bind_ret in He.
  cbn [after_e0 after_f0 down].
  assert (Hkeep : ∀ m, m ∈ modifier_keys → c ≠ keycode m.2 → bool_decide (m.1 ∈ (if after_f0 l then down l ∖ {[(after_e0 l, byte)]} else {[(after_e0 l, byte)]} ∪ down l)) = key_down bs m.1).
  { intros m Hin Hne. unfold key_down. fold l. apply bool_decide_ext. rewrite (modifier_unique _ _ _ _ Hb Ec Hin) in Hne. destruct (after_f0 l); set_solver. }
  assert (Hrange : ∀ m, m ∈ modifier_keys → 0 < keycode m.2 < 256) by (apply Forall_forall; repeat constructor).
  destruct (Z.eqb_spec c 0) as [->|Hc0].
  { injection He as <-. split; [done|]. intros m Hin. rewrite Hkeep; [by apply Hm|done|]. specialize (Hrange m Hin). lia. }
  assert (Hcr : 0 < c < 256) by (pose proof (translated_range _ _ _ Hb Ec); lia).
  assert (Hl : length (pressed s) = 256%nat) by apply Hi.
  assert (Hkey : ∀ s', (if after_f0 l then key_release c s else key_press c s) = Done s' → ∀ m, m ∈ modifier_keys → is_pressed s' (keycode m.2) =
    bool_decide (m.1 ∈ (if after_f0 l then down l ∖ {[(after_e0 l, byte)]} else {[(after_e0 l, byte)]} ∪ down l))).
  { intros s' Hk m Hin. destruct (key_ok c (negb (after_f0 l)) s ltac:(lia) Hi) as (objs & s2 & Hk2 & _ & _ & Hs2). assert (s2 = s') as -> by (destruct (after_f0 l); cbn in Hk2; congruence).
    specialize (Hrange m Hin). rewrite (pressed_after c (negb (after_f0 l)) s s' (keycode m.2) objs) by (done || lia). destruct (Z.eqb_spec (keycode m.2) c) as [<-|Hne].
    - rewrite (proj1 (modifier_unique _ _ _ m Hb Ec Hin) eq_refl). destruct (after_f0 l); cbn [negb]; symmetry; [apply bool_decide_eq_false|apply bool_decide_eq_true]; set_solver.
    - rewrite Hkeep by (done || congruence). by apply Hm. }
  destruct (after_f0 l); rewrite bind_ret in He; apply bind_Done in He as (s' & Hk & [= <-]); (split; [done|]); by apply Hkey.
Qed.

Lemma input_runs bs st : input_run bs st → input_inv st.2 ∧ follows bs st.
Proof.
  induction 1 as [|bs l st st' _ [Hi Hf] Hs].
  { split; [apply initial_inv|]. split; [done|]. intros m Hm. unfold key_down. cbn. rewrite bool_decide_false by set_solver. unfold is_pressed. cbn [initial pressed snd]. by destruct (replicate 256 false !! _) as [b|] eqn:E; [apply lookup_replicate in E as [-> _]|]. }
  split; [by eapply input_step_inv|]. destruct Hs as [byte [kb s] st2 Hb He|kb s n h s' Hn He|kb s h s' He|kb s h o e o' Ho He|kb s h|kb s]; rewrite ?app_nil_r; [by eapply irq_follows|..].
  - unfold getHandle in He. by injection He as <- <-.
  - unfold begin_ in He. apply bind_Done in He as (o & _ & He). destruct (m_registered o); by injection He as <-.
  - done.
  - done.
  - done.
Qed.

(** C28 (invariant): after any bytes of the keyboard, however handles and devices come and
    go, the interrupt handler returns, and the modifier flags of an event say which of the
    modifier keys are down according to these bytes: left and right shift, the control
    keys or AltGr, left alt or AltGr.  The counters count them, and the lights of every
    device show the locks. *)
Theorem modifiers_follow_keys bs st byte :
  input_run bs st → 0 ≤ byte < 256 →
  let s := st.2 in
  (∃ st', irq byte st = Done st') ∧
  shift s = Z.b2z (key_down bs (false, 0x12)) + Z.b2z (key_down bs (false, 0x59)) ∧
  ctrl s = Z.b2z (key_down bs (false, 0x14)) + Z.b2z (key_down bs (true, 0x14)) ∧
  alt s = Z.b2z (key_down bs (false, 0x11)) ∧ altgr s = Z.b2z (key_down bs (true, 0x11)) ∧
  Z.testbit (get_mod s) 3 = key_down bs (false, 0x12) || key_down bs (false, 0x59) ∧
  Z.testbit (get_mod s) 4 = (key_down bs (false, 0x14) || key_down bs (true, 0x14)) || key_down bs (true, 0x11) ∧
  Z.testbit (get_mod s) 5 = key_down bs (false, 0x11) || key_down bs (true, 0x11) ∧
  Forall (λ l, l = led_flags s) (leds s).
Proof.
  intros [Hi [_ Hm]]%input_runs Hb s. destruct (get_mod_bits s Hi) as (B3 & B4 & B5). pose proof Hi as ((_ & H1 & H2 & H3 & H4) & Hled & _). unfold held in *.
  assert (Hk : ∀ e c k, (e, c, k) ∈ modifier_keys → is_pressed s (keycode k) = key_down bs (e, c)) by (intros e c k Hin; exact (Hm (e, c, k) Hin)).
  fold s in H1, H2, H3, H4. assert (Hin : ∀ m, In m modifier_keys → m ∈ modifier_keys) by (intros m; apply list_elem_of_In).
  rewrite (Hk false 0x12 KEY_LEFTSHIFT), (Hk false 0x59 KEY_RIGHTSHIFT) in B3, H1 by (apply Hin; cbn; tauto).
  rewrite (Hk false 0x14 KEY_LEFTCTRL), (Hk true 0x14 KEY_RIGHTCTRL) in B4, H2 by (apply Hin; cbn; tauto).
  rewrite (Hk true 0x11 KEY_RIGHTALT) in B4, B5, H4 by (apply Hin; cbn; tauto). rewrite (Hk false 0x11 KEY_LEFTALT) in B5, H3 by (apply Hin; cbn; tauto).
  split_and!; try done.
  destruct st as [kb s']. cbn in s, Hi. unfold irq. destruct (kb_irq_ok byte kb Hb) as (a & kb' & Ha & Hc). cbn [fst snd]. rewrite Ha, bind_ret.
  destruct a as [|c|c]; [by eexists|..].
  - destruct (key_ok c true s' ltac:(lia) Hi) as (objs & s2 & Hk2 & _). cbn in Hk2. rewrite Hk2. by eexists.
  - destruct (key_ok c false s' ltac:(lia) Hi) as (objs & s2 & Hk2 & _). cbn in Hk2. rewrite Hk2. by eexists.
Qed.

(** ** Typing *)

(** The state without its handles and devices, which it does not depend on. *)
Definition mute (s : input) : input :=
  mk_input (num_lock s) (caps_lock s) (pressed s) (shift s) (ctrl s) (alt s) (altgr s) [] [] [].

(** The event of an interrupt, and those of a sequence of bytes. *)
Definition irq_event (byte : Z) (st : Ps2.keyboard * input) : list event :=
  match Ps2.kb_irq byte st.1 with
  | Done (Ps2.KeyPress c, _) => [mk_event c (get_mod st.2)]
  | Done (Ps2.KeyRelease c, _) => [mk_event c (Z.lor (get_mod st.2) KEYMOD_RELEASE)]
  | _ => []
  end.

Fixpoint emitted (bs : list Z) (st : Ps2.keyboard * input) : list event :=
  match bs with
  | [] => []
  | b :: bs => irq_event b st ++ match irq b st with Done st => emitted bs st | _ => [] end
  end.

Lemma mute_switch code (b : bool) s :
  mute (if b then press_switch code s else release_switch code s) = if b then press_switch code (mute s) else release_switch code (mute s).
Proof. unfold press_switch, release_switch. destruct b; repeat match goal with |- context [if ?c then _ else _] => destruct c end; done. Qed.

Lemma notify_one h e objs o :
  objs !! h = Some o → wf (m_buffer o) → Z.of_nat (length (contents (m_buffer o))) + 2 ≤ m_size (m_buffer o) - 1 →
  ∃ o', notify [h] e objs = Done (<[h := o']> objs) ∧ m_size (m_buffer o') = m_size (m_buffer o) ∧
    contents (m_buffer o') = contents (m_buffer o) ++ event_bytes e.
Proof.
  intros Ho Hw Hroom. cbn [notify]. rewrite (proj2 (rd_Done objs (Z.of_nat h) o)), bind_ret by (rewrite Nat2Z.id; split; [lia|done]).
  destruct (handle_write_ok o e Hw) as (o' & -> & _ & _ & Hs & Hc). rewrite bind_ret. exists o'. split; [done|]. split; [done|].
  by destruct (Z.leb_spec (Z.of_nat (length (contents (m_buffer o))) + 2) (m_size (m_buffer o) - 1)); [|lia].
Qed.

(** A key, seen by the one handle. *)
Lemma key_seen code (b : bool) s h o :
  0 ≤ code < 256 → input_inv s → handles s = [h] → objects s !! h = Some o →
  Z.of_nat (length (contents (m_buffer o))) + 2 ≤ m_size (m_buffer o) - 1 →
  let e := mk_event code (if b then get_mod s else Z.lor (get_mod s) KEYMOD_RELEASE) in
  ∃ s' o', (if b then key_press code s else key_release code s) = Done s' ∧ input_inv s' ∧ handles s' = [h] ∧ objects s' !! h = Some o' ∧
    (if b then key_press code (mute s) else key_release code (mute s)) = Done (mute s') ∧
    m_size (m_buffer o') = m_size (m_buffer o) ∧ contents (m_buffer o') = contents (m_buffer o) ++ event_bytes e.
Proof.
  intros Hc Hi Hh Ho Hroom e. destruct (key_ok code b s Hc Hi) as (objs & s' & Hk & Hi' & Hn & Hs'). fold e in Hn.
  pose proof Hi as ((Hl & _) & _ & Hw & _). rewrite Hh in Hn.
  destruct (notify_one h e (objects s) o Ho (Forall_lookup_1 _ _ _ _ Hw Ho) Hroom) as (o' & Hn' & Hsz & Hct). rewrite Hn' in Hn. injection Hn as <-.
  exists s', o'. split; [done|]. split; [done|].
  assert (Hobj : ∀ c x, handles (if b then press_switch c x else release_switch c x) = handles x ∧ objects (if b then press_switch c x else release_switch c x) = objects x).
  { intros c x. unfold press_switch, release_switch. destruct b; repeat match goal with |- context [if ?c then _ else _] => destruct c end; done. }
  assert (Hst : handles s' = [h] ∧ objects s' = <[h := o']> (objects s)).
  { rewrite Hs'. cbn. destruct (eqb _ b); [by cbn|]. destruct (Hobj code (set_objects (<[h := o']> (objects s)) s)) as [E1 E2]. by rewrite E1, E2. }
  destruct Hst as [E1 E2]. split; [done|]. rewrite E2. split; [apply list_lookup_insert_eq; by eapply lookup_lt_Some|].
  split; [|done]. rewrite Hs'. set (objs := <[h := o']> (objects s)).
  assert (Hrun : ∀ m : input, handles m = [] → pressed m = pressed s → set_objects (objects m) m = mute (set_objects objs s) →
    (if b then key_press code m else key_release code m) =
    Done (set_pressed code b (if eqb (is_pressed s code) b then mute (set_objects objs s)
      else if b then press_switch code (mute (set_objects objs s)) else release_switch code (mute (set_objects objs s))))).
  { intros m Em1 Em2 Em3. unfold key_press, key_release. rewrite Em1. cbn [notify]. rewrite !bind_ret, Em3.
    change (pressed (mute (set_objects objs s))) with (pressed s). rewrite (pressed_at s code Hc Hl), bind_ret.
    by destruct b, (is_pressed s code). }
  rewrite Hrun by done. do 1 f_equal. destruct (eqb _ b); [done|]. by rewrite <-mute_switch.
Qed.

Lemma irqs_seen bs kb s h o kb' s1 :
  input_inv s → handles s = [h] → objects s !! h = Some o → Forall (λ b, 0 ≤ b < 256) bs →
  Z.of_nat (length (contents (m_buffer o))) + 2 * Z.of_nat (length bs) ≤ m_size (m_buffer o) - 1 →
  irqs bs (kb, mute s) = Done (kb', s1) →
  ∃ s' o', irqs bs (kb, s) = Done (kb', s') ∧ mute s' = s1 ∧ input_inv s' ∧ handles s' = [h] ∧ objects s' !! h = Some o' ∧
    m_size (m_buffer o') = m_size (m_buffer o) ∧
    contents (m_buffer o') = contents (m_buffer o) ++ concat (event_bytes <$> emitted bs (kb, mute s)) ∧
    Z.of_nat (length (contents (m_buffer o'))) ≤ Z.of_nat (length (contents (m_buffer o))) + 2 * Z.of_nat (length bs).
Proof.
  intros Hi Hh Ho Hbs. revert kb s o Hi Hh Ho. induction Hbs as [|b bs Hb _ IH]; intros kb s o Hi Hh Ho Hroom Hrun; cbn [irqs emitted length] in *.
  - injection Hrun as <- <-. exists s, o. rewrite app_nil_r. split_and!; done || lia.
  - destruct (kb_irq_ok b kb Hb) as (a & kb1 & Ha & Hc).
    assert (Hkey : ∀ code (p : bool), 0 < code < 256 → a = (if p then Ps2.KeyPress code else Ps2.KeyRelease code) →
      ∃ s' o', irqs (b :: bs) (kb, s) = Done (kb', s') ∧ mute s' = s1 ∧ input_inv s' ∧ handles s' = [h] ∧ objects s' !! h = Some o' ∧
        m_size (m_buffer o') = m_size (m_buffer o) ∧
        contents (m_buffer o') = contents (m_buffer o) ++ concat (event_bytes <$> emitted (b :: bs) (kb, mute s)) ∧
        Z.of_nat (length (contents (m_buffer o'))) ≤ Z.of_nat (length (contents (m_buffer o))) + 2 * Z.of_nat (S (length bs))).
    { intros code p Hcode Hap. destruct (key_seen code p s h o ltac:(lia) Hi Hh Ho ltac:(lia)) as (s2 & o2 & Hk & Hi2 & Hh2 & Ho2 & Hm & Hsz & Hct).
      assert (Hirq : ∀ x y, (if p then key_press code x else key_release code x) = Done y → irq b (kb, x) = Done (kb1, y)).
      { intros x y Hxy. unfold irq. cbn [fst snd]. rewrite Ha, bind_ret, Hap. destruct p; by rewrite Hxy. }
      rewrite (Hirq (mute s) (mute s2) Hm), bind_ret in Hrun.
      assert (Hlen2 : Z.of_nat (length (contents (m_buffer o2))) = Z.of_nat (length (contents (m_buffer o))) + 2) by (rewrite Hct, length_app; cbn; lia).
      destruct (IH kb1 s2 o2 Hi2 Hh2 Ho2 ltac:(lia) Hrun) as (s' & o' & He & Hm' & Hi' & Hh' & Ho' & Hsz' & Hct' & Hlen').
      exists s', o'. cbn [irqs emitted]. rewrite (Hirq s s2 Hk), bind_ret, (Hirq (mute s) (mute s2) Hm). unfold irq_event. cbn [fst snd]. rewrite Ha.
      split_and!; [done|done|done|done|done|congruence| |lia]. rewrite Hct', Hct, Hap, <-app_assoc. destruct p; done. }
    destruct a as [|code|code]; [|by apply (Hkey code true)|by apply (Hkey code false)].
    assert (Hirq : ∀ x, irq b (kb, x) = Done (kb1, x)) by (intros x; unfold irq; cbn [fst snd]; by rewrite Ha).
    rewrite Hirq, bind_ret in Hrun. destruct (IH kb1 s o Hi Hh Ho ltac:(lia) Hrun) as (s' & o' & He & Hm' & Hi' & Hh' & Ho' & Hsz' & Hct' & Hlen').
    exists s', o'. rewrite !Hirq, bind_ret. unfold irq_event. cbn [fst snd]. rewrite Ha. split_and!; try done; lia.
Qed.

(** The US keyboard as its scan code set 2 has it: the make codes of its keys, row by row,
    with the characters printed on them.  The table is that of the hardware, not one of
    the kernel. *)
Definition make_codes : list Z :=
  [0x0E; 0x16; 0x1E; 0x26; 0x25; 0x2E; 0x36; 0x3D; 0x3E; 0x46; 0x45; 0x4E; 0x55] ++
  [0x15; 0x1D; 0x24; 0x2D; 0x2C; 0x35; 0x3C; 0x43; 0x44; 0x4D; 0x54; 0x5B; 0x5D] ++
  [0x1C; 0x1B; 0x23; 0x2B; 0x34; 0x33; 0x3B; 0x42; 0x4B; 0x4C; 0x52] ++
  [0x1A; 0x22; 0x21; 0x2A; 0x32; 0x31; 0x3A; 0x41; 0x49; 0x4A].
Definition plain_keys : list Z := Str.lit "`1234567890-=qwertyuiop[]\asdfghjkl;'zxcvbnm,./".
Definition shifted_keys : list Z := Str.lit "~!@#$%^&*()_+QWERTYUIOP{}|ASDFGHJKL:" ++ [34] ++ Str.lit "ZXCVBNM<>?".
(** Space, backspace, tab, return and escape. *)
Definition other_keys : list (Z * Z) := [(32, 0x29); (8, 0x66); (9, 0x0D); (13, 0x5A); (27, 0x76)].

Fixpoint code_of (c : Z) (l : list (Z * Z)) : option Z := match l with [] => None | (k, v) :: l => if k =? c then Some v else code_of c l end.
(** The bytes of a key that is pressed and released, with the left shift key around it
    where the character needs it. *)
Definition stroke (sc : Z) : list Z := [sc; 0xF0; sc].
Definition scan (c : Z) : list Z :=
  match code_of c (zip plain_keys make_codes ++ other_keys) with
  | Some sc => stroke sc
  | None => match code_of c (zip shifted_keys make_codes) with Some sc => [0x12] ++ stroke sc ++ [0xF0; 0x12] | None => [] end
  end.

(** The characters of the keyboard: what can be printed, and four others. *)
Definition typeable : list Z := seqZ 32 95 ++ [8; 9; 13; 27].

(** What a reader of the events sees: presses that stand for a character. *)
Fixpoint typed (evs : list event) : outcome (list Z) :=
  match evs with
  | [] => Done []
  | e :: evs =>
      if negb (Z.land (e_mod e) KEYMOD_RELEASE =? 0) then typed evs
      else c ← translate default_keymap e; cs ← typed evs; Done (if c =? 0 then cs else c :: cs)
  end.

Lemma typed_app a b : typed (a ++ b) = (x ← typed a; y ← typed b; Done (x ++ y)).
Proof.
  induction a as [|e a IH]; cbn [app typed]; [by destruct (typed b)|]. destruct (negb _); [done|]. destruct (translate default_keymap e); [|done..].
  cbn [mbind outcome_bind]. rewrite IH. destruct (typed a); [|done..]. cbn. destruct (typed b); [|done..]. cbn. by destruct (_ =? 0).
Qed.

Definition idle : Ps2.keyboard := Ps2.mk_keyboard false false.
Definition quiet (nl : bool) : input := mk_input nl false (replicate 256 false) 0 0 0 0 [] [] [].

Lemma character_typed c nl : c ∈ typeable →
  irqs (scan c) (idle, quiet nl) = Done (idle, quiet nl) ∧ typed (emitted (scan c) (idle, quiet nl)) = Done [c] ∧ Forall (λ b, 0 ≤ b < 256) (scan c) ∧
  Forall (λ e, Z.land (e_mod e) KEYMOD_CTRL = 0) (emitted (scan c) (idle, quiet nl)).
Proof.
  revert c. apply Forall_forall. let l := eval vm_compute in typeable in change typeable with l.
  repeat (apply Forall_cons; split; [destruct nl; vm_compute; (split; [reflexivity|split; [reflexivity|split; repeat constructor; discriminate]])|]). constructor.
Qed.

Lemma irqs_app a b st : irqs (a ++ b) st = (st ← irqs a st; irqs b st).
Proof. revert st. induction a as [|x a IH]; intros st; [done|]. cbn. destruct (irq x st); [|done..]. apply IH. Qed.

Lemma emitted_app a b st st' : irqs a st = Done st' → emitted (a ++ b) st = emitted a st ++ emitted b st'.
Proof.
  revert st. induction a as [|x a IH]; intros st; cbn; [by intros [= ->]|]. intros Hr. apply bind_Done in Hr as (st1 & -> & Hr).
  by rewrite (IH st1 Hr), app_assoc.
Qed.

Lemma text_typed text nl : Forall (.∈ typeable) text →
  irqs (concat (scan <$> text)) (idle, quiet nl) = Done (idle, quiet nl) ∧ typed (emitted (concat (scan <$> text)) (idle, quiet nl)) = Done text ∧
  Forall (λ b, 0 ≤ b < 256) (concat (scan <$> text)) ∧ Forall (λ e, Z.land (e_mod e) KEYMOD_CTRL = 0) (emitted (concat (scan <$> text)) (idle, quiet nl)).
Proof.
  induction 1 as [|c text Hc _ (IH1 & IH2 & IH3 & IH4)]; [done|]. destruct (character_typed c nl Hc) as (H1 & H2 & H3 & H4). cbn [fmap list_fmap concat].
  rewrite irqs_app, H1, bind_ret. split; [done|]. rewrite (emitted_app _ _ _ _ H1), typed_app, H2, bind_ret, IH2, bind_ret.
  split; [done|]. split; by apply Forall_app.
Qed.

(** A text typed on the keyboard arrives: the scan codes of its keys, pressed and
    released one after the other with the shift key where it is needed, put events
    into the buffer of a registered handle whose translation by the default keymap is
    the text, and leave no key down.  This holds for all printable characters, from
    every state with no key down and caps lock off, as long as the buffer has room. *)
Lemma typed_text_arrives text s h o :
  input_inv s → mute s = quiet (num_lock s) → handles s = [h] → objects s !! h = Some o → Forall (.∈ typeable) text →
  let bs := concat (scan <$> text) in
  Z.of_nat (length (contents (m_buffer o))) + 2 * Z.of_nat (length bs) ≤ m_size (m_buffer o) - 1 →
  ∃ s' o' evs, irqs bs (idle, s) = Done (idle, s') ∧ mute s' = mute s ∧ objects s' !! h = Some o' ∧ wf (m_buffer o') ∧
    contents (m_buffer o') = contents (m_buffer o) ++ concat (event_bytes <$> evs) ∧ typed evs = Done text ∧
    Forall (λ e, Z.land (e_mod e) KEYMOD_CTRL = 0) evs.
Proof.
  intros Hi Hm Hh Ho Ht bs Hroom. destruct (text_typed text (num_lock s) Ht) as (H1 & H2 & H3 & H4). rewrite <-Hm in H1.
  destruct (irqs_seen bs idle s h o idle (mute s) Hi Hh Ho H3 Hroom H1) as (s' & o' & He & Hm' & Hi' & _ & Ho' & _ & Hct & _).
  exists s', o', (emitted bs (idle, mute s)). split_and!; try done; [|by rewrite Hm..]. destruct Hi' as (_ & _ & Hw & _). by apply (Forall_lookup_1 _ _ _ _ Hw Ho').
Qed.

(** ** Two entries of the tables *)

(** [KEYMOD_ALTGR] contains [KEYMOD_CTRL], so [translate] takes the row of AltGr
    when only Ctrl is down, and the rows [ctrl] of the keymap are never read. *)
Lemma ctrl_row_unused keymap c m k :
  0 ≤ c → keymap !! Z.to_nat c = Some k → Z.land m KEYMOD_CTRL ≠ 0 →
  translate keymap (mk_event c m) = Done (if Z.land m KEYMOD_CAPSLOCK =? 0 then k_ctrl_alt k else k_capslock_ctrl_alt k).
Proof.
  intros Hc Hk Hm. unfold translate. cbn [e_keycode e_mod]. rewrite (proj2 (rd_Done keymap c k)), bind_ret by done.
  assert (Ha : Z.land m KEYMOD_ALTGR ≠ 0).
  { intros H0. apply Hm. change KEYMOD_CTRL with (Z.land KEYMOD_ALTGR KEYMOD_CTRL). by rewrite Z.land_assoc, H0. }
  apply Z.eqb_neq in Ha. rewrite Ha. cbn [negb]. by destruct (Z.land m KEYMOD_CAPSLOCK =? 0).
Qed.

(** The scan codes of F1 and F5 both stand for F5, and none for F1. *)
Example no_f1_key :
  Ps2.translation_normal !! 5%nat = Some (keycode KEY_F5) ∧ Ps2.translation_normal !! 3%nat = Some (keycode KEY_F5) ∧
  forallb (λ c, negb (c =? keycode KEY_F1)) (Ps2.translation_normal ++ Ps2.translation_extra) = true.
Proof. by vm_compute. Qed.

(** ** Witnesses *)

(** A handle with a buffer of 1024 bytes, waiting for events. *)
Definition listening : input :=
  mk_input true false (replicate 256 false) 0 0 0 0 [mk_handle (CircularBuffer.create 1024) true] [0%nat] [].

Lemma listening_reached : input_run [] (idle, listening).
Proof.
  apply (run_step [] [] (idle, (getHandle 1024 initial).2)); [|apply (step_begin idle _ 0%nat listening); reflexivity].
  apply (run_step [] [] (idle, initial)); [constructor|]. apply (step_handle idle initial 1024 0%nat); [lia|reflexivity].
Qed.

Lemma listening_inv : input_inv listening.
Proof. exact (proj1 (input_runs _ _ listening_reached)). Qed.

(** Right control and left shift are pressed, left shift is released. *)
Definition demo_bytes : list Z := [0xE0; 0x14; 0x12; 0xF0; 0x12].
Definition demo_state : Ps2.keyboard * input := match irqs demo_bytes (idle, listening) with Done st => st | _ => (idle, listening) end.
Lemma irqs_run bs bs' st st' : input_run bs st → Forall (λ b, 0 ≤ b < 256) bs' → irqs bs' st = Done st' → input_run (bs ++ bs') st'.
Proof.
  intros Hr Hb. revert bs st Hr. induction Hb as [|b bs' Hb _ IH]; intros bs st Hr; cbn [irqs]; [intros [= <-]; by rewrite app_nil_r|]. intros (st1 & H1 & H2)%bind_Done.
  replace (bs ++ b :: bs') with ((bs ++ [b]) ++ bs') by (by rewrite <-app_assoc). apply (IH _ st1); [|done]. eapply run_step; [exact Hr|]. by constructor.
Qed.
Lemma demo_state_run : input_run demo_bytes demo_state.
Proof. apply (irqs_run [] demo_bytes (idle, listening)); [exact listening_reached|repeat constructor; discriminate|vm_compute; reflexivity]. Qed.

Lemma modifiers_follow_keys_witness : shift demo_state.2 = 0 ∧ ctrl demo_state.2 = 1 ∧ Z.testbit (get_mod demo_state.2) 4 = true.
Proof.
  destruct (modifiers_follow_keys demo_bytes demo_state 0x12 demo_state_run ltac:(lia)) as (_ & H1 & H2 & _ & _ & _ & H4 & _).
  rewrite H1, H2, H4. clear. vm_compute. repeat split.
Defined.

End Input.
