(* ===== verification/Tty.v ===== *)
(** * Terminals

    [dev/tty/abstractor.cpp]: the parser of escape sequences in front of a virtual
    terminal; [dev/tty/tty.cpp]: printing of numbers and colours;
    [arch/x86_64/dev/tty/txtty.cpp] and [grtty.cpp]: the text and the graphics
    screen; [dev/tty.cpp] and [dev/tty/io.cpp]: the input of a virtual terminal;
    [dev/tty/cdev.cpp]: the character device; [kernel/printk.cpp]. *)
From S2P Require Import Prelude Errno Math Str Ring Ipc Input.
Local Open Scope Z_scope.

Inductive ansi_color_t :=
| ANSI_FG_BLACK | ANSI_FG_RED | ANSI_FG_GREEN | ANSI_FG_BROWN | ANSI_FG_BLUE | ANSI_FG_PURPLE | ANSI_FG_CYAN | ANSI_FG_GRAY
| ANSI_BG_BLACK | ANSI_BG_RED | ANSI_BG_GREEN | ANSI_BG_BROWN | ANSI_BG_BLUE | ANSI_BG_PURPLE | ANSI_BG_CYAN | ANSI_BG_GRAY
| ANSI_FG_DARK_GRAY | ANSI_FG_LIGHT_RED | ANSI_FG_LIGHT_GREEN | ANSI_FG_YELLOW | ANSI_FG_LIGHT_BLUE | ANSI_FG_LIGHT_PURPLE
| ANSI_FG_LIGHT_CYAN | ANSI_FG_WHITE
| ANSI_BG_DARK_GRAY | ANSI_BG_LIGHT_RED | ANSI_BG_LIGHT_GREEN | ANSI_BG_YELLOW | ANSI_BG_LIGHT_BLUE | ANSI_BG_LIGHT_PURPLE
| ANSI_BG_LIGHT_CYAN | ANSI_BG_WHITE.

Definition ansi_code (c : ansi_color_t) : Z :=
  match c with
  | ANSI_FG_BLACK => 30 | ANSI_FG_RED => 31 | ANSI_FG_GREEN => 32 | ANSI_FG_BROWN => 33
  | ANSI_FG_BLUE => 34 | ANSI_FG_PURPLE => 35 | ANSI_FG_CYAN => 36 | ANSI_FG_GRAY => 37
  | ANSI_BG_BLACK => 40 | ANSI_BG_RED => 41 | ANSI_BG_GREEN => 42 | ANSI_BG_BROWN => 43
  | ANSI_BG_BLUE => 44 | ANSI_BG_PURPLE => 45 | ANSI_BG_CYAN => 46 | ANSI_BG_GRAY => 47
  | ANSI_FG_DARK_GRAY => 90 | ANSI_FG_LIGHT_RED => 91 | ANSI_FG_LIGHT_GREEN => 92 | ANSI_FG_YELLOW => 93
  | ANSI_FG_LIGHT_BLUE => 94 | ANSI_FG_LIGHT_PURPLE => 95 | ANSI_FG_LIGHT_CYAN => 96 | ANSI_FG_WHITE => 97
  | ANSI_BG_DARK_GRAY => 100 | ANSI_BG_LIGHT_RED => 101 | ANSI_BG_LIGHT_GREEN => 102 | ANSI_BG_YELLOW => 103
  | ANSI_BG_LIGHT_BLUE => 104 | ANSI_BG_LIGHT_PURPLE => 105 | ANSI_BG_LIGHT_CYAN => 106 | ANSI_BG_WHITE => 107
  end.

Record tty_info := mk_tty_info { i_width : Z; i_height : Z; gr_width : Z; gr_height : Z; gr_depth : Z; gr_bytes : Z }.

(** What the virtual terminals implement. *)
Class VTTY (T : Type) := {
  vtty_write : Z → T → outcome T;
  vtty_color : Z → T → outcome T;
  vtty_scroll : Z → T → outcome T;
  vtty_clear : T → outcome T;
  setCursorX : Z → T → T;
  setCursorY : Z → T → T;
  vtty_text : T → outcome (bool * T);
  vtty_graphics : T → outcome (bool * T);
  vtty_info : T → tty_info }.

(** The choice of a colour from a table of sixteen. *)
Definition ansi_select {A} (table : list A) (set_fg set_bg : A → A * A) (ansi : Z) (both : A * A) : outcome (A * A) :=
  if (ansi >=? 30) && (ansi <=? 37) then c ← table.[ansi - 30]; Done (set_fg c)
  else if (ansi >=? 40) && (ansi <=? 47) then c ← table.[ansi - 40]; Done (set_bg c)
  else if (ansi >=? 90) && (ansi <=? 97) then c ← table.[ansi - 90 + 8]; Done (set_fg c)
  else if (ansi >=? 100) && (ansi <=? 107) then c ← table.[ansi - 100 + 8]; Done (set_bg c)
  else Done both.

Lemma ansi_select_total {A} (table : list A) f b ansi both : length table = 16%nat → ∃ c, ansi_select table f b ansi both = Done c.
Proof.
  intros Ht. unfold ansi_select. rewrite !Z.geb_leb.
  assert (Hin : ∀ i, 0 ≤ i < 16 → ∃ c, table.[i] = Done c) by (intros i Hi; destruct (rd_in_range table i ltac:(lia)) as (c & -> & _); by exists c).
  repeat match goal with |- context [(?a <=? ?b) && (?c <=? ?d)] => destruct (Z.leb_spec a b), (Z.leb_spec c d); cbn [andb]; try lia end;
    try (by eexists); match goal with |- context [table.[?i]] => destruct (Hin i ltac:(lia)) as [c ->]; by eexists end.
Qed.

(** ** The text screen *)

Module TxTTY.

Record vga_char := mk_char { ascii : Z; fg : Z; bg : Z }.

Record TxTTY := mk_tx {
  width : Z; height : Z; m_cursorx : Z; m_cursory : Z; m_bg : Z; m_fg : Z; m_output : list vga_char }.

Definition ansi_to_vga : list Z := [0; 4; 2; 6; 1; 5; 3; 7; 8; 12; 10; 14; 9; 13; 11; 15].

Definition set_cursor (x y : Z) (s : TxTTY) : TxTTY := mk_tx (width s) (height s) x y (m_bg s) (m_fg s) (m_output s).
Definition set_output (out : list vga_char) (s : TxTTY) : TxTTY :=
  mk_tx (width s) (height s) (m_cursorx s) (m_cursory s) (m_bg s) (m_fg s) out.
Definition set_colors (c : Z * Z) (s : TxTTY) : TxTTY :=
  mk_tx (width s) (height s) (m_cursorx s) (m_cursory s) c.2 c.1 (m_output s).

(** [TxTTY(void* output)]. *)
Definition create (output : list vga_char) : TxTTY := mk_tx 80 25 0 0 0 15 output.

Definition color (ansi : Z) (s : TxTTY) : outcome TxTTY :=
  c ← ansi_select ansi_to_vga (λ c, (c, m_bg s)) (λ c, (m_fg s, c)) ansi (m_fg s, m_bg s); Done (set_colors c s).

(** A cell in the colours of the screen; the fields are four bits wide. *)
Definition cell (c : Z) (s : TxTTY) : vga_char := mk_char c (wrap 4 (m_fg s)) (wrap 4 (m_bg s)).

(** [memcpy] goes from low to high addresses. *)
Fixpoint shift_cells (n : nat) (i w : Z) (out : list vga_char) : outcome (list vga_char) :=
  match n with
  | O => Done out
  | S n => c ← out.[i + w]; out ← out.[i := c]; shift_cells n (i + 1) w out
  end.
Fixpoint fill_cells (n : nat) (i : Z) (c : vga_char) (out : list vga_char) : outcome (list vga_char) :=
  match n with O => Done out | S n => out ← out.[i := c]; fill_cells n (i + 1) c out end.
Fixpoint shift_times (n : nat) (s : TxTTY) : outcome TxTTY :=
  match n with
  | O => Done s
  | S n => out ← shift_cells (Z.to_nat (width s * (height s - 1))) 0 (width s) (m_output s); shift_times n (set_output out s)
  end.

Definition scroll (amnt : Z) (s : TxTTY) : outcome TxTTY :=
  s ← shift_times (Z.to_nat amnt) s;
  out ← fill_cells (Z.to_nat (width s * height s - width s * (height s - 1))) (width s * (height s - 1)) (cell 32 s) (m_output s);
  Done (set_output out s).

(** The code writes to the fixed address of the video memory, which is [m_output]
    of a text screen. *)
Definition clear (s : TxTTY) : outcome TxTTY :=
  out ← fill_cells (Z.to_nat (80 * 25)) 0 (cell 0 s) (m_output s); Done (set_output out s).

Definition _write (c : Z) (s : TxTTY) : outcome TxTTY :=
  s ← (if c =? 10 then Done (set_cursor 0 (m_cursory s + 1) s)
       else if c =? 13 then Done (set_cursor 0 (m_cursory s) s)
       else
         out ← (m_output s).[m_cursorx s + m_cursory s * width s := cell c s];
         let s := set_cursor (m_cursorx s + 1) (m_cursory s) (set_output out s) in
         Done (if m_cursorx s >=? width s then set_cursor 0 (m_cursory s + 1) s else s));
  if m_cursory s >=? height s then scroll 1 (set_cursor (m_cursorx s) (m_cursory s - 1) s) else Done s.

#[global] Instance TxTTY_vtty : VTTY TxTTY := {
  vtty_write := _write; vtty_color := color; vtty_scroll := scroll; vtty_clear := clear;
  setCursorX x s := set_cursor x (m_cursory s) s; setCursorY y s := set_cursor (m_cursorx s) y s;
  vtty_text s := Done (true, s); vtty_graphics s := Done (false, s);
  vtty_info s := mk_tty_info (width s) (height s) 0 0 0 0 }.

(** *** Endless paper

    The reference: a terminal whose lines are never lost. *)

Record paper := mk_paper { lines : list (list vga_char); line : nat; column : nat; p_fg : Z; p_bg : Z }.

Section Paper.
Context (w : nat).

Definition blank (p : paper) : list vga_char := replicate w (mk_char 32 (wrap 4 (p_fg p)) (wrap 4 (p_bg p))).
Definition feed (p : paper) : paper :=
  mk_paper (if (length (lines p) <=? S (line p))%nat then lines p ++ [blank p] else lines p) (S (line p)) 0 (p_fg p) (p_bg p).
Definition type_ (c : Z) (p : paper) : paper :=
  if c =? 10 then feed p
  else if c =? 13 then mk_paper (lines p) (line p) 0 (p_fg p) (p_bg p)
  else
    let p := mk_paper (alter <[column p := mk_char c (wrap 4 (p_fg p)) (wrap 4 (p_bg p))]> (line p) (lines p)) (line p) (S (column p)) (p_fg p) (p_bg p) in
    if (w <=? column p)%nat then feed p else p.

(** The screen [s] shows the last lines of [p]. *)
Definition shows (p : paper) (s : TxTTY) : Prop :=
  ∃ k h, length (lines p) = (k + h)%nat ∧ Forall (λ l, length l = w) (lines p) ∧ (0 < w)%nat ∧ (0 < h)%nat ∧
    width s = Z.of_nat w ∧ height s = Z.of_nat h ∧ m_output s = concat (drop k (lines p)) ∧
    (column p < w)%nat ∧ (k ≤ line p < k + h)%nat ∧
    m_cursorx s = Z.of_nat (column p) ∧ m_cursory s = Z.of_nat (line p - k) ∧ m_fg s = p_fg p ∧ m_bg s = p_bg p.

(** *** Cells *)

Lemma shift_cells_spec n i out :
  (0 < w)%nat → (i + n + w ≤ length out)%nat →
  ∃ out', shift_cells n (Z.of_nat i) (Z.of_nat w) out = Done out' ∧
    ∀ j, out' !! j = if decide (i ≤ j < i + n)%nat then out !! (j + w)%nat else out !! j.
Proof.
  intros Hw. revert i out. induction n as [|n IH]; intros i out Hlen; cbn [shift_cells].
  - exists out. split; [done|]. intros j. by rewrite decide_False by lia.
  - destruct (rd_in_range out (Z.of_nat i + Z.of_nat w) ltac:(lia)) as (c & -> & Hc). rewrite bind_ret, wr_in_range, bind_ret by lia.
    replace (Z.to_nat (Z.of_nat i + Z.of_nat w)) with (i + w)%nat in Hc by lia. rewrite Nat2Z.id. replace (Z.of_nat i + 1) with (Z.of_nat (S i)) by lia.
    destruct (IH (S i) (<[i := c]> out)) as (out' & -> & Hl); [rewrite length_insert; lia|]. exists out'. split; [done|].
    intros j. rewrite Hl. destruct (decide (j = i)) as [->|Hne].
    + rewrite decide_False, decide_True by lia. rewrite Hc. apply list_lookup_insert_eq. lia.
    + destruct (decide (S i ≤ j < S i + n)%nat); [rewrite decide_True by lia|rewrite decide_False by lia]; by rewrite list_lookup_insert_ne by lia.
Qed.

Lemma fill_cells_spec n i c out :
  (i + n ≤ length out)%nat →
  ∃ out', fill_cells n (Z.of_nat i) c out = Done out' ∧ ∀ j, out' !! j = if decide (i ≤ j < i + n)%nat then Some c else out !! j.
Proof.
  revert i out. induction n as [|n IH]; intros i out Hlen; cbn [fill_cells].
  - exists out. split; [done|]. intros j. by rewrite decide_False by lia.
  - rewrite wr_in_range, bind_ret, Nat2Z.id by lia. replace (Z.of_nat i + 1) with (Z.of_nat (S i)) by lia.
    destruct (IH (S i) (<[i := c]> out)) as (out' & -> & Hl); [rewrite length_insert; lia|]. exists out'. split; [done|].
    intros j. rewrite Hl. destruct (decide (j = i)) as [->|Hne].
    + rewrite decide_False, decide_True by lia. apply list_lookup_insert_eq. lia.
    + rewrite list_lookup_insert_ne by lia. destruct (decide (S i ≤ j < S i + n)%nat); [rewrite decide_True by lia|rewrite decide_False by lia]; done.
Qed.

Lemma rows_length (rows : list (list vga_char)) : Forall (λ l, length l = w) rows → length (concat rows) = (length rows * w)%nat.
Proof. induction 1 as [|r rows Hr _ IH]; [done|]. cbn. rewrite length_app, Hr, IH. done. Qed.

Lemma concat_insert (rows : list (list vga_char)) x y c :
  Forall (λ l, length l = w) rows → (x < w)%nat → (y < length rows)%nat →
  <[(x + y * w)%nat := c]> (concat rows) = concat (alter <[x := c]> y rows).
Proof.
  intros Hr Hx. revert y. induction Hr as [|r rows Hl _ IH]; intros y Hy; cbn in Hy; [lia|]. destruct y as [|y]; cbn [concat].
  - change (alter <[x:=c]> 0%nat (r :: rows)) with (<[x := c]> r :: rows). cbn [concat]. rewrite insert_app_l by lia. f_equal. f_equal. lia.
  - change (alter <[x:=c]> (S y) (r :: rows)) with (r :: alter <[x := c]> y rows). cbn [concat].
    replace (x + S y * w)%nat with (length r + (x + y * w))%nat by lia. rewrite insert_app_r. f_equal. apply IH. lia.
Qed.

Lemma drop_alter_ge {A} (f : A → A) k i (l : list A) : (k ≤ i)%nat → drop k (alter f i l) = alter f (i - k)%nat (drop k l).
Proof.
  revert i l. induction k as [|k IH]; intros i l Hi; [by rewrite Nat.sub_0_r|]. destruct i as [|i]; [lia|]. destruct l as [|a l]; [done|].
  change (alter f (S i) (a :: l)) with (a :: alter f i l). cbn. apply IH. lia.
Qed.

(** Scrolling the rows by one. *)
Lemma scroll_rows s r rows :
  Forall (λ l, length l = w) (r :: rows) → (0 < w)%nat → width s = Z.of_nat w → height s = Z.of_nat (S (length rows)) → m_output s = concat (r :: rows) →
  scroll 1 s = Done (set_output (concat (rows ++ [replicate w (cell 32 s)])) s).
Proof.
  intros Hr Hw Ew Eh Eo. pose proof (rows_length _ Hr) as Hlen. pose proof (rows_length rows ltac:(by inversion Hr)) as Hlen2. cbn [length] in Hlen.
  assert (Hlr : length r = w) by (by inversion Hr). set (n := (length rows * w)%nat) in *.
  unfold scroll. change (Z.to_nat 1) with 1%nat. cbn [shift_times]. rewrite Ew, Eh, Eo. replace (Z.to_nat (Z.of_nat w * (Z.of_nat (S (length rows)) - 1))) with n by lia.
  destruct (shift_cells_spec n 0 (concat (r :: rows)) Hw ltac:(lia)) as (out1 & E1 & L1). change (Z.of_nat 0) with 0 in E1. rewrite E1, !bind_ret.
  assert (Hl1 : length out1 = (w + n)%nat).
  { apply Nat.le_antisymm; [apply lookup_ge_None; rewrite L1, decide_False by lia; apply lookup_ge_None_2; lia|].
    destruct (decide (length out1 < w + n)%nat) as [Hlt|]; [|lia]. assert (Hn : out1 !! length out1 = None) by (by apply lookup_ge_None).
    rewrite L1 in Hn. destruct (decide _); apply lookup_ge_None in Hn; lia. }
  cbn [set_output m_output width height m_bg m_fg]. rewrite Ew, Eh.
  replace (Z.to_nat _) with w by lia. replace (Z.of_nat w * (Z.of_nat (S (length rows)) - 1)) with (Z.of_nat n) by lia.
  destruct (fill_cells_spec w n (cell 32 (set_output out1 s)) out1 ltac:(lia)) as (out2 & -> & L2). rewrite bind_ret. change (set_output out2 (set_output out1 s)) with (set_output out2 s). do 2 f_equal.
  apply list_eq. intros j. rewrite L2, concat_app. cbn [concat]. rewrite app_nil_r, L1. cbn [concat].
  destruct (decide (n ≤ j < n + w)%nat) as [Hj|Hj].
  - rewrite lookup_app_r by lia. symmetry. apply lookup_replicate. split; [done|lia].
  - destruct (decide (j < n)%nat).
    + rewrite decide_True, lookup_app_r, lookup_app_l by lia. f_equal. lia.
    + rewrite decide_False by lia. rewrite !lookup_ge_None_2; [done|rewrite ?length_app, ?length_replicate; lia..].
Qed.

(** *** The refinement *)

Lemma feed_shows p s : shows p s → 
  ∃ s', (let s1 := set_cursor 0 (m_cursory s + 1) s in
         if m_cursory s1 >=? height s1 then scroll 1 (set_cursor (m_cursorx s1) (m_cursory s1 - 1) s1) else Done s1) = Done s' ∧ shows (feed p) s'.
Proof.
  intros (k & h & Hlen & Hf & Hw & Hh & Ew & Eh & Eo & Hc & Hl & Ex & Ey & E1 & E2). cbv zeta. cbn [set_cursor m_cursory height m_cursorx].
  rewrite Eh, Ey, Z.geb_leb. unfold feed. destruct (Z.leb_spec (Z.of_nat h) (Z.of_nat (line p - k) + 1)).
  - destruct (Nat.leb_spec (length (lines p)) (S (line p))); [|lia].
    destruct (drop k (lines p)) as [|r rows] eqn:Ed; [apply (f_equal length) in Ed; rewrite length_drop in Ed; cbn in Ed; lia|].
    assert (Hrow : Forall (λ l, length l = w) (r :: rows)) by (rewrite <-Ed; by apply Forall_drop).
    assert (Hn : length (r :: rows) = h) by (rewrite <-Ed, length_drop; lia).
    eexists. split; [apply (scroll_rows _ r rows); [done|done|done|cbn in *; lia|done]|].
    exists (S k), h. cbn [lines line column p_fg p_bg set_output set_cursor width height m_output m_cursorx m_cursory m_fg m_bg].
    split_and!; try done; try lia.
    + rewrite length_app. cbn. lia.
    + apply Forall_app. split; [done|]. constructor; [|done]. apply length_replicate.
    + rewrite drop_app_le by lia. replace (drop (S k) (lines p)) with rows by (by rewrite <-Nat.add_1_r, <-drop_drop, Ed).
      unfold blank, cell. cbn. by rewrite E1, E2.
  - destruct (Nat.leb_spec (length (lines p)) (S (line p))); [lia|]. eexists. split; [reflexivity|].
    exists k, h. cbn. split_and!; try done; lia.
Qed.

Lemma write_shows c p s : shows p s → ∃ s', _write c s = Done s' ∧ shows (type_ c p) s'.
Proof.
  intros Hs. unfold _write, type_. destruct (c =? 10); [rewrite bind_ret; by apply feed_shows|].
  pose proof Hs as (k & h & Hlen & Hf & Hw & Hh & Ew & Eh & Eo & Hc & Hl & Ex & Ey & E1 & E2).
  destruct (c =? 13).
  { rewrite bind_ret. cbn [set_cursor m_cursory height]. rewrite Z.geb_leb, (proj2 (Z.leb_gt _ _)) by lia. eexists. split; [reflexivity|].
    exists k, h. cbn. split_and!; try done; lia. }
  set (d := mk_char c (wrap 4 (p_fg p)) (wrap 4 (p_bg p))). set (p1 := mk_paper (alter <[column p := d]> (line p) (lines p)) (line p) (S (column p)) (p_fg p) (p_bg p)).
  assert (Hd : Forall (λ l, length l = w) (drop k (lines p))) by (by apply Forall_drop).
  assert (Hdl : length (drop k (lines p)) = h) by (rewrite length_drop; lia).
  assert (Hwr : (m_output s).[m_cursorx s + m_cursory s * width s := cell c s] = Done (concat (drop k (lines p1)))).
  { rewrite Eo, Ex, Ey, Ew, wr_in_range by (rewrite rows_length by done; nia). f_equal. cbn [lines p1]. rewrite drop_alter_ge by lia.
    rewrite <-(concat_insert _ _ _ _ Hd) by lia. unfold cell, d. rewrite E1, E2. f_equal. rewrite <-Nat2Z.inj_mul, <-Nat2Z.inj_add. apply Nat2Z.id. }
  rewrite Hwr, bind_ret. cbv zeta. cbn [set_cursor set_output m_cursorx width]. rewrite Ex, Ew, Z.geb_leb. cbn [column p1].
  assert (Hf1 : Forall (λ l, length l = w) (lines p1)).
  { cbn. apply Forall_alter; [done|]. intros l _ Hll. by rewrite length_insert. }
  assert (Hlen1 : length (lines p1) = (k + h)%nat) by (cbn; by rewrite length_alter).
  destruct (Nat.leb_spec w (S (column p))).
  - rewrite (proj2 (Z.leb_le _ _)), bind_ret by lia.
    assert (Hs1 : shows (mk_paper (lines p1) (line p) (column p) (p_fg p) (p_bg p)) (set_output (concat (drop k (lines p1))) s)).
    { exists k, h. cbn. split_and!; try done; lia. }
    destruct (feed_shows _ _ Hs1) as (s' & He & Hs'). exists s'. split; [exact He|exact Hs'].
  - rewrite (proj2 (Z.leb_gt _ _)), bind_ret by lia. cbn [m_cursory height set_cursor set_output]. rewrite Z.geb_leb, (proj2 (Z.leb_gt _ _)) by lia.
    eexists. split; [reflexivity|]. exists k, h. cbn in *. split_and!; try done; lia.
Qed.

(** A change of colour. *)
Definition recolor (ansi : Z) (p : paper) : paper :=
  match ansi_select ansi_to_vga (λ c, (c, p_bg p)) (λ c, (p_fg p, c)) ansi (p_fg p, p_bg p) with
  | Done c => mk_paper (lines p) (line p) (column p) c.1 c.2
  | _ => p
  end.

Lemma color_shows ansi p s : shows p s → ∃ s', color ansi s = Done s' ∧ shows (recolor ansi p) s'.
Proof.
  intros (k & h & Hlen & Hf & Hw & Hh & Ew & Eh & Eo & Hc & Hl & Ex & Ey & E1 & E2). unfold color, recolor. rewrite E1, E2.
  destruct (ansi_select_total ansi_to_vga (λ c, (c, p_bg p)) (λ c, (p_fg p, c)) ansi (p_fg p, p_bg p) eq_refl) as [c ->].
  rewrite bind_ret. eexists. split; [reflexivity|]. exists k, h. by cbn.
Qed.

End Paper.

End TxTTY.

(** ** The graphics screen *)

Module GrTTY.

Definition GLYPH_WIDTH : Z := 8.

(** [psf_font]: the height of a glyph and the rows of all glyphs. *)
Record psf1 := mk_psf { size : Z; data : list Z }.

Record GrTTY := mk_gr {
  width : Z; height : Z; m_cursorx : Z; m_cursory : Z; m_bg : Z; m_fg : Z; m_text : bool;
  m_px_width : Z; m_px_height : Z; m_output : list Z; m_double_buffer : list Z }.

(** [ansi_to_color] and [m_ega_to_color]. *)
Definition ansi_to_color : list Z := [
  0x050808; 0xAA0000; 0x00AA00; 0x7F4000; 0x0000AA; 0x7F00AA; 0x00AAAA; 0xAAAAAA;
  0x555555; 0xE02020; 0x20E020; 0xE0E020; 0x2020E0; 0x7F00E0; 0x20E0E0; 0xFFFFFF].
Definition m_ega_to_color : list Z := [
  0x050808; 0x0000AA; 0x00AA00; 0x00AAAA; 0xAA0000; 0x7F00AA; 0x7F4000; 0xAAAAAA;
  0x555555; 0x2020E0; 0x20E020; 0x20E0E0; 0xE02020; 0x7F00E0; 0xE0E020; 0xFFFFFF].
Definition RGB_BLACK : Z := 0x050808.
Definition RGB_WHITE : Z := 0xFFFFFF.

Definition set_cursor (x y : Z) (g : GrTTY) : GrTTY :=
  mk_gr (width g) (height g) x y (m_bg g) (m_fg g) (m_text g) (m_px_width g) (m_px_height g) (m_output g) (m_double_buffer g).
Definition set_colors (c : Z * Z) (g : GrTTY) : GrTTY :=
  mk_gr (width g) (height g) (m_cursorx g) (m_cursory g) c.2 c.1 (m_text g) (m_px_width g) (m_px_height g) (m_output g) (m_double_buffer g).
Definition set_mode (b : bool) (g : GrTTY) : GrTTY :=
  mk_gr (width g) (height g) (m_cursorx g) (m_cursory g) (m_bg g) (m_fg g) b (m_px_width g) (m_px_height g) (m_output g) (m_double_buffer g).
Definition set_pixels (out dbl : list Z) (g : GrTTY) : GrTTY :=
  mk_gr (width g) (height g) (m_cursorx g) (m_cursory g) (m_bg g) (m_fg g) (m_text g) (m_px_width g) (m_px_height g) out dbl.

Section Font.
Context (psf_font : psf1).

(** The eight pixels of a row, [cx] from 8 to 1. *)
Fixpoint put_row (cx : nat) (bits fg bg dst : Z) (buf : list Z) : outcome (list Z) :=
  match cx with
  | O => Done buf
  | S n =>
      buf ← buf.[dst := if negb (Z.land bits (Z.shiftl 1 (Z.of_nat cx)) =? 0) then fg else bg];
      put_row n bits fg bg (dst + 1) buf
  end.

(** [n] rows from [cy] on, in both buffers. *)
Fixpoint put_rows (n : nat) (cy current x y w fg bg : Z) (bufs : list Z * list Z) : outcome (list Z * list Z) :=
  match n with
  | O => Done bufs
  | S n =>
      bits ← (data psf_font).[current];
      let dst := x + u32 (w * u32 (y + cy)) in
      out ← put_row 8 bits fg bg dst bufs.1;
      dbl ← put_row 8 bits fg bg dst bufs.2;
      put_rows n (cy + 1) (current + 1) x y w fg bg (out, dbl)
  end.

Definition put (c x y fg bg : Z) (g : GrTTY) : outcome GrTTY :=
  let height := size psf_font in
  '(out, dbl) ← put_rows (Z.to_nat height) 0 (Str.char c * height) (u32 (x * GLYPH_WIDTH)) (u32 (y * height)) (m_px_width g) fg bg
    (m_output g, m_double_buffer g);
  Done (set_pixels out dbl g).

Definition color (ansi : Z) (g : GrTTY) : outcome GrTTY :=
  c ← ansi_select ansi_to_color (λ c, (c, m_bg g)) (λ c, (m_fg g, c)) ansi (m_fg g, m_bg g); Done (set_colors c g).

Definition scroll (amnt : Z) (g : GrTTY) : outcome GrTTY :=
  if m_text g then
    let lines := u32 (size psf_font * amnt) in
    bs ← get (m_double_buffer g) (u32 (m_px_width g * lines)) (u32 (m_px_width g * u32 (m_px_height g - lines)));
    dbl ← Prelude.put (m_double_buffer g) 0 bs;
    dbl ← Prelude.put dbl (u32 (m_px_width g * u32 (m_px_height g - size psf_font)))
            (replicate (Z.to_nat (u32 (m_px_width g * size psf_font))) (m_bg g));
    all ← get dbl 0 (u32 (m_px_width g * m_px_height g));
    out ← Prelude.put (m_output g) 0 all;
    Done (set_pixels out dbl g)
  else Done g.

(** Both buffers filled with a colour. *)
Definition fill (v : Z) (g : GrTTY) : outcome GrTTY :=
  let bs := replicate (Z.to_nat (u32 (m_px_width g * m_px_height g))) v in
  out ← Prelude.put (m_output g) 0 bs; dbl ← Prelude.put (m_double_buffer g) 0 bs; Done (set_pixels out dbl g).

Definition clear (g : GrTTY) : outcome GrTTY := fill (m_bg g) g.

Definition _write (c : Z) (g : GrTTY) : outcome GrTTY :=
  g ← (if c =? 10 then Done (set_cursor 0 (m_cursory g + 1) g)
       else if c =? 13 then Done (set_cursor 0 (m_cursory g) g)
       else
         g ← (if m_text g then put c (u32 (m_cursorx g)) (u32 (m_cursory g)) (m_fg g) (m_bg g) g else Done g);
         let g := set_cursor (m_cursorx g + 1) (m_cursory g) g in
         Done (if m_cursorx g >=? width g then set_cursor 0 (m_cursory g + 1) g else g));
  if m_cursory g >=? height g then scroll 1 (set_cursor (m_cursorx g) (m_cursory g - 1) g) else Done g.

Definition text (g : GrTTY) : outcome (bool * GrTTY) := Done (true, set_mode true g).
Definition graphics (g : GrTTY) : outcome (bool * GrTTY) := g ← fill 0 (set_mode false g); Done (true, g).

Definition info (g : GrTTY) : tty_info :=
  mk_tty_info (width g) (height g) (i32 (m_px_width g)) (i32 (m_px_height g)) 32 (i32 (u32 (u32 (m_px_width g * m_px_height g) * 4))).

(** [GrTTY(multiboot_info_t* mbinfo)], with the frame buffer mapped and the double
    buffer allocated. *)
Definition create (bpp px_width px_height : Z) : outcome GrTTY :=
  if negb (bpp =? 32) then Panic "ud2"
  else
    let pixels := replicate (Z.to_nat (u32 (px_width * px_height))) RGB_BLACK in
    Done (mk_gr (px_width / GLYPH_WIDTH) (px_height / size psf_font) 0 0 RGB_BLACK RGB_WHITE true px_width px_height pixels pixels).

(** The cells of the text screen, drawn one after the other. *)
Fixpoint draw_cells (n : nat) (i : Z) (cells : list TxTTY.vga_char) (g : GrTTY) : outcome GrTTY :=
  match n with
  | O => Done g
  | S n =>
      c ← cells.[i];
      fg ← m_ega_to_color.[TxTTY.fg c]; bg ← m_ega_to_color.[TxTTY.bg c];
      g ← put (TxTTY.ascii c) (i `mod` 80) (i / 80) fg bg g;
      draw_cells n (i + 1) cells g
  end.
Definition fromVGA (cells : list TxTTY.vga_char) (g : GrTTY) : outcome GrTTY :=
  g ← draw_cells (25 * 80) 0 cells g; Done (set_cursor (m_cursorx g) 25 g).

#[global] Instance GrTTY_vtty : VTTY GrTTY := {
  vtty_write := _write; vtty_color := color; vtty_scroll := scroll; vtty_clear := clear;
  setCursorX x g := set_cursor x (m_cursory g) g; setCursorY y g := set_cursor (m_cursorx g) y g;
  vtty_text := text; vtty_graphics := graphics; vtty_info := info }.

(** *** What is drawn *)

Lemma land_bit bits k : 0 ≤ k → (Z.land bits (Z.shiftl 1 k) =? 0) = negb (Z.testbit bits k).
Proof.
  intros Hk. destruct (Z.testbit bits k) eqn:E; cbn.
  - apply Z.eqb_neq. intros H0. apply (f_equal (λ z, Z.testbit z k)) in H0.
    rewrite Z.land_spec, E, Z.shiftl_spec, Z.sub_diag, Z.bits_0 in H0 by lia. done.
  - apply Z.eqb_eq, Z.bits_inj'. intros i Hi. rewrite Z.land_spec, Z.bits_0, Z.shiftl_spec by lia.
    destruct (Z.eq_dec i k) as [->|Hne]; [by rewrite E|]. change 1 with (2 ^ 0). rewrite (Z.pow2_bits_false 0) by lia. apply andb_false_r.
Qed.

Lemma put_row_spec n bits fg bg dst buf :
  0 ≤ dst → dst + Z.of_nat n ≤ Z.of_nat (length buf) →
  ∃ buf', put_row n bits fg bg dst buf = Done buf' ∧ length buf' = length buf ∧
    ∀ j, 0 ≤ j → buf' !! Z.to_nat j = if decide (dst ≤ j < dst + Z.of_nat n)
                          then Some (if Z.testbit bits (Z.of_nat n - (j - dst)) then fg else bg) else buf !! Z.to_nat j.
Proof.
  revert dst buf. induction n as [|n IH]; intros dst buf Hd Hlen; cbn [put_row].
  - exists buf. split_and!; [done|done|]. intros j _. by rewrite decide_False by lia.
  - rewrite land_bit, negb_involutive by lia. rewrite wr_in_range, bind_ret by lia.
    destruct (IH (dst + 1) (<[Z.to_nat dst := if Z.testbit bits (Z.of_nat (S n)) then fg else bg]> buf)) as (buf' & -> & Hl & Hj); [lia|rewrite length_insert; lia|].
    exists buf'. rewrite length_insert in Hl. split_and!; [done|done|]. intros j Hj0. rewrite Hj by done. destruct (decide (j = dst)) as [->|Hne].
    + rewrite decide_False, decide_True, list_lookup_insert_eq by lia. do 2 f_equal. by replace (Z.of_nat (S n) - (dst - dst)) with (Z.of_nat (S n)) by lia.
    + rewrite list_lookup_insert_ne by lia. destruct (decide (dst + 1 ≤ j < dst + 1 + Z.of_nat n)); [|by rewrite decide_False by lia].
      rewrite decide_True by lia. by replace (Z.of_nat (S n) - (j - dst)) with (Z.of_nat n - (j - (dst + 1))) by lia.
Qed.

(** A pixel of a buffer that is [w] pixels wide. *)
Definition pixel (w : Z) (buf : list Z) (px py : Z) : option Z := buf !! Z.to_nat (px + w * py).

Section Put.
Context (w h x y fg bg current : Z).
Hypothesis Hw : 0 ≤ x ∧ x + 8 ≤ w.
Hypothesis Hh : 0 ≤ y ∧ y + size psf_font ≤ h ∧ w * h < 2 ^ 32.
Hypothesis Hfont : 0 ≤ current ∧ current + size psf_font ≤ Z.of_nat (length (data psf_font)).

(** The buffer after [n] rows of the glyph. *)
Definition drawn (n : Z) (buf buf' : list Z) : Prop :=
  length buf' = length buf ∧ ∀ px py, 0 ≤ px < w → 0 ≤ py < h →
  pixel w buf' px py = if decide (x ≤ px < x + 8 ∧ y ≤ py < y + n)
    then bits ← data psf_font !! Z.to_nat (current + (py - y)); Some (if Z.testbit bits (8 - (px - x)) then fg else bg)
    else pixel w buf px py.

Lemma put_rows_spec n cy out dbl out1 dbl1 :
  Z.of_nat (length out) = w * h → Z.of_nat (length dbl) = w * h → 0 ≤ cy → cy + Z.of_nat n ≤ size psf_font →
  drawn cy out out1 → drawn cy dbl dbl1 →
  ∃ out' dbl', put_rows n cy (current + cy) x y w fg bg (out1, dbl1) = Done (out', dbl') ∧
    drawn (cy + Z.of_nat n) out out' ∧ drawn (cy + Z.of_nat n) dbl dbl' ∧ (out1 = dbl1 → out' = dbl').
Proof.
  intros Ho Hd. revert cy out1 dbl1. induction n as [|n IH]; intros cy out1 dbl1 Hcy Hn Ho1 Hd1; cbn [put_rows].
  { exists out1, dbl1. rewrite Z.add_0_r. done. }
  destruct (rd_in_range (data psf_font) (current + cy) ltac:(lia)) as (bits & -> & Hb). rewrite bind_ret. cbv zeta. cbn [fst snd].
  assert (Hdst : u32 (w * u32 (y + cy)) = w * (y + cy)).
  { rewrite (wrap_small 32 (y + cy)) by nia. apply wrap_small. nia. }
  rewrite Hdst.
  assert (Hrow : ∀ buf buf1, Z.of_nat (length buf) = w * h → drawn cy buf buf1 → ∃ buf2, put_row 8 bits fg bg (x + w * (y + cy)) buf1 = Done buf2 ∧ drawn (cy + 1) buf buf2).
  { intros buf buf1 Hl [Hl1 Hp]. destruct (put_row_spec 8 bits fg bg (x + w * (y + cy)) buf1) as (buf2 & -> & Hl2 & Hj); [nia|rewrite Hl1, Hl; nia|].
    exists buf2. split; [done|]. split; [congruence|]. intros px py Hpx Hpy. unfold pixel. rewrite Hj by nia.
    destruct (decide (py = y + cy)) as [->|Hne].
    - destruct (decide (x ≤ px < x + 8)).
      + rewrite decide_True, decide_True by nia. replace (current + (y + cy - y)) with (current + cy) by lia. rewrite Hb. replace (Z.of_nat 8 - (px + w * (y + cy) - (x + w * (y + cy)))) with (8 - (px - x)) by lia. done.
      + rewrite decide_False, decide_False by nia. fold (pixel w buf1 px (y + cy)). rewrite Hp, decide_False by (done || lia). done.
    - rewrite decide_False by nia. fold (pixel w buf1 px py). rewrite Hp by done.
      destruct (decide (x ≤ px < x + 8 ∧ y ≤ py < y + cy)); [by rewrite decide_True by lia|by rewrite decide_False by lia]. }
  destruct (Hrow out out1 Ho Ho1) as (out2 & E1 & Ho2). destruct (Hrow dbl dbl1 Hd Hd1) as (dbl2 & E2 & Hd2). rewrite E1, bind_ret, E2, bind_ret.
  replace (current + cy + 1) with (current + (cy + 1)) by lia.
  destruct (IH (cy + 1) out2 dbl2) as (out' & dbl' & -> & H1 & H2 & H3); [lia|lia|done|done|]. exists out', dbl'.
  replace (cy + Z.of_nat (S n)) with (cy + 1 + Z.of_nat n) by lia. split_and!; [done|done|done|]. intros ->. apply H3. congruence.
Qed.

End Put.

(** The screen: glyphs of 128 characters, whole cells of the screen, buffers of the
    right size, a cursor on the screen, and in text mode the same pixels in both
    buffers. *)
Record gr_inv (g : GrTTY) : Prop := {
  gi_font : 0 < size psf_font ∧ 128 * size psf_font ≤ Z.of_nat (length (data psf_font));
  gi_width : 0 < width g ∧ width g * GLYPH_WIDTH ≤ m_px_width g;
  gi_height : 0 < height g ∧ height g * size psf_font ≤ m_px_height g;
  gi_pixels : m_px_width g * m_px_height g < 2 ^ 32;
  gi_output : Z.of_nat (length (m_output g)) = m_px_width g * m_px_height g;
  gi_double : Z.of_nat (length (m_double_buffer g)) = m_px_width g * m_px_height g;
  gi_cursor : 0 ≤ m_cursorx g < width g ∧ 0 ≤ m_cursory g < height g;
  gi_mirror : m_text g = true → m_output g = m_double_buffer g }.

(** [put] draws the bits 8 to 1 of every row of the glyph into its cell, in both
    buffers, and changes no other pixel. *)
Lemma put_draws c x y fg bg g :
  gr_inv g → 0 ≤ c < 128 → 0 ≤ x < width g → 0 ≤ y < height g →
  ∃ out dbl, put c x y fg bg g = Done (set_pixels out dbl g) ∧
    drawn (m_px_width g) (m_px_height g) (x * 8) (y * size psf_font) fg bg (c * size psf_font) (size psf_font) (m_output g) out ∧
    drawn (m_px_width g) (m_px_height g) (x * 8) (y * size psf_font) fg bg (c * size psf_font) (size psf_font) (m_double_buffer g) dbl ∧
    (m_output g = m_double_buffer g → out = dbl).
Proof.
  intros [Hf Hw Hh Hp Ho Hd _ _] Hc Hx Hy. unfold put, GLYPH_WIDTH in *. rewrite Str.char_ascii by done.
  assert (Hpx : m_px_width g < 2 ^ 32) by nia. assert (Hpy : m_px_height g < 2 ^ 32) by nia.
  rewrite !wrap_small by nia.
  assert (Hz : ∀ buf, drawn (m_px_width g) (m_px_height g) (x * 8) (y * size psf_font) fg bg (c * size psf_font) 0 buf buf).
  { intros buf. split; [done|]. intros px py _ _. by rewrite decide_False by lia. }
  destruct (put_rows_spec (m_px_width g) (m_px_height g) (x * 8) (y * size psf_font) fg bg (c * size psf_font) ltac:(lia) ltac:(nia) ltac:(nia)
    (Z.to_nat (size psf_font)) 0 (m_output g) (m_double_buffer g) (m_output g) (m_double_buffer g) Ho Hd ltac:(lia) ltac:(lia) (Hz _) (Hz _))
    as (out & dbl & He & H1 & H2 & H3).
  rewrite Z.add_0_r in He. rewrite He, bind_ret. rewrite Z2Nat.id in H1, H2 by lia. by exists out, dbl.
Qed.

Lemma scroll_one_inv g : gr_inv g → ∃ g', scroll 1 g = Done g' ∧ gr_inv g' ∧ m_cursorx g' = m_cursorx g ∧ m_cursory g' = m_cursory g.
Proof.
  intros Hi. pose proof Hi as [Hf Hw Hh Hp Ho Hd Hc Hm]. unfold scroll, GLYPH_WIDTH in *. destruct (m_text g) eqn:Et; [|by exists g].
  set (s := size psf_font) in *. assert (Hs : s ≤ m_px_height g) by nia. assert (Hpx : 0 < m_px_width g < 2 ^ 32) by nia. assert (Hpy : 0 < m_px_height g < 2 ^ 32) by nia.
  rewrite Z.mul_1_r, (wrap_small 32 s), (wrap_small 32 (m_px_height g - s)), (wrap_small 32 (m_px_width g * s)), (wrap_small 32 (m_px_width g * (m_px_height g - s))),
    (wrap_small 32 (m_px_width g * m_px_height g)) by nia.
  destruct (get_in_range (m_double_buffer g) (m_px_width g * s) (m_px_width g * (m_px_height g - s))) as (bs & -> & Hbs); [nia..|]. rewrite bind_ret.
  rewrite put_eq, bind_ret by nia. set (dbl := _ ++ _).
  assert (Hl : length dbl = length (m_double_buffer g)) by (unfold dbl; rewrite !length_app, length_take, length_drop; nia).
  assert (Hrep : Z.of_nat (length (replicate (Z.to_nat (m_px_width g * s)) (m_bg g))) = m_px_width g * s) by (rewrite length_replicate; nia).
  destruct (Prelude.put dbl (m_px_width g * (m_px_height g - s)) (replicate (Z.to_nat (m_px_width g * s)) (m_bg g))) as [dbl2| |] eqn:E2;
    [|rewrite put_eq in E2 by nia; done..].
  apply put_Done in E2 as (_ & _ & Hl2 & _). rewrite bind_ret, get_eq, bind_ret by lia. change (Z.to_nat 0) with 0%nat. rewrite drop_0, take_ge by lia.
  rewrite put_eq, bind_ret by lia. change (Z.to_nat 0) with 0%nat. rewrite take_0, drop_ge, app_nil_r by lia. eexists. split; [reflexivity|].
  split; [|done]. constructor; cbn; unfold GLYPH_WIDTH; try done; lia.
Qed.

(** A character stays on the screen and goes into both buffers. *)
Lemma gr_write_inv c g : gr_inv g → 0 ≤ c < 128 → ∃ g', _write c g = Done g' ∧ gr_inv g'.
Proof.
  intros Hi Hc.
  assert (Hcur : ∀ x y, 0 ≤ x < width g → 0 ≤ y ≤ height g → ∀ g1, (∀ x y, 0 ≤ x < width g → 0 ≤ y < height g → gr_inv (set_cursor x y g1)) → height g1 = height g →
    ∃ g', (let g2 := set_cursor x y g1 in if m_cursory g2 >=? height g2 then scroll 1 (set_cursor (m_cursorx g2) (m_cursory g2 - 1) g2) else Done g2) = Done g' ∧ gr_inv g').
  { intros x y Hx Hy g1 Hg1 Eh. cbv zeta. cbn [set_cursor m_cursory height m_cursorx]. rewrite Eh, Z.geb_leb. pose proof (gi_height g Hi). destruct (Z.leb_spec (height g) y).
    - destruct (scroll_one_inv (set_cursor x (y - 1) g1) ltac:(apply Hg1; lia)) as (g' & He & Hg' & _). exists g'. split; [exact He|done].
    - eexists. split; [reflexivity|]. apply Hg1; lia. }
  pose proof (gi_cursor g Hi) as [Hx Hy].
  assert (Hset : ∀ x y, 0 ≤ x < width g → 0 ≤ y < height g → gr_inv (set_cursor x y g)) by (intros; destruct Hi; by constructor).
  unfold _write. destruct (c =? 10); [rewrite bind_ret; apply (Hcur 0 (m_cursory g + 1)); [lia|lia|done|done]|].
  destruct (c =? 13); [rewrite bind_ret; apply (Hcur 0 (m_cursory g)); [lia|lia|done|done]|].
  assert (Hput : ∃ g1, (if m_text g then put c (u32 (m_cursorx g)) (u32 (m_cursory g)) (m_fg g) (m_bg g) g else Done g) = Done g1 ∧
    (∀ x y, 0 ≤ x < width g → 0 ≤ y < height g → gr_inv (set_cursor x y g1)) ∧ height g1 = height g ∧ width g1 = width g ∧
    m_cursorx g1 = m_cursorx g ∧ m_cursory g1 = m_cursory g).
  { destruct (m_text g) eqn:Et; [|by exists g].
    pose proof (gi_width g Hi) as Hw. pose proof (gi_height g Hi). pose proof (gi_pixels g Hi). pose proof (gi_font g Hi). unfold GLYPH_WIDTH in *.
    rewrite !wrap_small by nia. destruct (put_draws c (m_cursorx g) (m_cursory g) (m_fg g) (m_bg g) g Hi Hc Hx Hy) as (out & dbl & -> & [Ho _] & [Hd _] & Hm).
    eexists. split; [reflexivity|]. split; [|done]. intros x y Hx2 Hy2. destruct Hi. constructor; cbn; try done; [by rewrite Ho|by rewrite Hd|]. intros _. auto. }
  destruct Hput as (g1 & -> & Hg1 & E1 & E2 & E3 & E4). rewrite !bind_ret. cbv zeta. cbn [set_cursor m_cursorx width]. rewrite E2, E3, E4.
  destruct (m_cursorx g + 1 >=? width g) eqn:E; rewrite Z.geb_leb in E.
  - apply (Hcur 0 (m_cursory g + 1)); [lia|lia|done|done].
  - apply Z.leb_gt in E. apply (Hcur (m_cursorx g + 1) (m_cursory g)); [lia|lia|done|done].
Qed.

(** The mask of the first pixel is bit 8 of a byte: the leftmost column of a cell is
    always background, and bit 0 of the font is never drawn. *)
Lemma first_column_blank w h x y fg bg current n buf buf' py bits :
  drawn w h x y fg bg current n buf buf' → 0 ≤ x < w → y ≤ py < y + n → 0 ≤ py < h →
  data psf_font !! Z.to_nat (current + (py - y)) = Some bits → 0 ≤ bits < 256 → pixel w buf' x py = Some bg.
Proof.
  intros [_ Hd] Hx Hy Hpy Hb Hbits. rewrite Hd, decide_True, Hb by lia. cbn. rewrite Z.sub_diag, Z.sub_0_r.
  rewrite <-(Z.mod_small bits (2 ^ 8)), Z.mod_pow2_bits_high by lia. done.
Qed.

End Font.

End GrTTY.

(** ** Escape sequences *)

Module Abstractor.
Import Str.

Inductive state := OUT | ANSI_CAT | ANSI_ARGS | ANSI_CODE.

Section Terminal.
Context {T : Type} `{VTTY T}.

(** [port] is what went out to the debug port 0xE9. *)
Record Abstractor := mk_abstractor {
  m_vtty : T; m_state : state; m_arg : Z; m_ptr : Z; m_args : list Z; m_cat : Z; m_code : Z; m_buffer : list Z; port : list Z }.

(** [Abstractor(VTTY* vtty)], in zeroed memory. *)
Definition create (v : T) : Abstractor := mk_abstractor v OUT 0 0 (replicate 8 0) 0 0 (replicate 32 0) [].

Definition set_vtty (v : T) (a : Abstractor) : Abstractor :=
  mk_abstractor v (m_state a) (m_arg a) (m_ptr a) (m_args a) (m_cat a) (m_code a) (m_buffer a) (port a).
Definition set_state (s : state) (a : Abstractor) : Abstractor :=
  mk_abstractor (m_vtty a) s (m_arg a) (m_ptr a) (m_args a) (m_cat a) (m_code a) (m_buffer a) (port a).
Definition set_cat (c : Z) (a : Abstractor) : Abstractor :=
  mk_abstractor (m_vtty a) (m_state a) (m_arg a) (m_ptr a) (m_args a) c (m_code a) (m_buffer a) (port a).
Definition set_code (c : Z) (a : Abstractor) : Abstractor :=
  mk_abstractor (m_vtty a) (m_state a) (m_arg a) (m_ptr a) (m_args a) (m_cat a) c (m_buffer a) (port a).
Definition set_arg (i : Z) (args : list Z) (a : Abstractor) : Abstractor :=
  mk_abstractor (m_vtty a) (m_state a) i (m_ptr a) args (m_cat a) (m_code a) (m_buffer a) (port a).
Definition set_buffer (p : Z) (b : list Z) (a : Abstractor) : Abstractor :=
  mk_abstractor (m_vtty a) (m_state a) (m_arg a) p (m_args a) (m_cat a) (m_code a) b (port a).
Definition outb (bs : list Z) (a : Abstractor) : Abstractor :=
  mk_abstractor (m_vtty a) (m_state a) (m_arg a) (m_ptr a) (m_args a) (m_cat a) (m_code a) (m_buffer a) (port a ++ bs).

Definition flush_ansi (a : Abstractor) : outcome Abstractor :=
  a ← (if m_cat a =? 91 then
         if m_code a =? 109 then c ← (m_args a).[0]; v ← vtty_color c (m_vtty a); Done (set_vtty v a)
         else if m_code a =? 72 then
           x ← (m_args a).[0]; y ← (m_args a).[1];
           Done (set_vtty (setCursorY y (setCursorX x (m_vtty a))) a)
         else Done a
       else Done a);
  Done (set_buffer 0 (m_buffer a) (set_arg 0 (m_args a) a)).

Definition _write (c : Z) (a : Abstractor) : outcome Abstractor :=
  let a := outb (if c =? 10 then [13; c] else [c]) a in
  match m_state a with
  | OUT =>
      if c =? 27 then Done (set_state ANSI_CAT a)
      else v ← vtty_write c (m_vtty a); Done (set_vtty v a)
  | ANSI_CAT =>
      b ← memset (m_buffer a) 0 32;
      Done (set_buffer (m_ptr a) b (set_state ANSI_ARGS (set_cat c a)))
  | ANSI_ARGS =>
      if negb (inrange (char c) 48 57) then
        v ← stoi 32 10 (m_buffer a);
        args ← (m_args a).[m_arg a := v];
        let i := m_arg a + 1 in
        let a := set_arg (if i =? 8 then i - 1 else i) args a in
        b ← memset (m_buffer a) 0 32;
        let a := set_buffer 0 b a in
        if inrange (char c) 58 59 then Done a
        else flush_ansi (set_state OUT (set_code c a))
      else
        let p := if m_ptr a =? 31 then m_ptr a - 1 else m_ptr a in
        b ← (m_buffer a).[p := c];
        Done (set_buffer (p + 1) b a)
  | ANSI_CODE => Done a
  end.

(** [write(char)], and the loop of [write(const char* str)]. *)
Definition write_char := _write.
Fixpoint write_from (n : nat) (i : Z) (str : list Z) (a : Abstractor) : outcome Abstractor :=
  match n with O => Done a | S n => c ← str.[i]; a ← _write c a; write_from n (i + 1) str a end.
Definition write_str (str : list Z) (a : Abstractor) : outcome Abstractor :=
  n ← strlen str; write_from (Z.to_nat n) 0 str a.

(** *** [TTY] *)

Definition color (ansi : Z) (a : Abstractor) : outcome Abstractor :=
  b ← snprintf (replicate 8 0) 8 (cstr (27 :: lit "[%im")) [Num ansi]; write_str b a.
Definition put_color (c : ansi_color_t) (a : Abstractor) : outcome Abstractor := color (ansi_code c) a.
Definition put_bool (val : bool) (a : Abstractor) : outcome Abstractor :=
  write_str (cstr (if val then lit "true" else lit "false")) a.

(** A number through a buffer of [n] bytes; the widths of the operators. *)
Definition put_number (n : nat) (v : Z) (a : Abstractor) : outcome Abstractor :=
  b ← itos v 10 (replicate n 0); write_str b a.
Definition put_int8 (v : Z) := put_number 8 (swrap 8 v).
Definition put_uint8 (v : Z) := put_number 8 (u8 v).
Definition put_int16 (v : Z) := put_number 8 (i16 v).
Definition put_uint16 (v : Z) := put_number 8 (u16 v).
Definition put_int32 (v : Z) := put_number 16 (i32 v).
Definition put_uint32 (v : Z) := put_number 16 (u32 v).
Definition put_int64 (v : Z) := put_number 32 (i64 v).
Definition put_uint64 (v : Z) := put_number 32 (u64 v).
Definition put_pointer (v : Z) (a : Abstractor) : outcome Abstractor :=
  b ← itos (u64 v) 16 (replicate 30 0); write_str (48 :: 120 :: b) a.

(** *** The parser *)

(** Bytes, one after the other. *)
Fixpoint write_bytes (bs : list Z) (a : Abstractor) : outcome Abstractor :=
  match bs with [] => Done a | c :: bs => a ← _write c a; write_bytes bs a end.

Lemma write_bytes_app b1 b2 a : write_bytes (b1 ++ b2) a = (a ← write_bytes b1 a; write_bytes b2 a).
Proof. revert a. induction b1 as [|c b1 IH]; intros a; [done|]. cbn. destruct (_write c a); [apply IH|done..]. Qed.


Lemma write_from_text pre s rest a : write_from (length s) (Z.of_nat (length pre)) (pre ++ s ++ rest) a = write_bytes s a.
Proof.
  revert pre a. induction s as [|c s IH]; intros pre a; [done|]. cbn [length write_from write_bytes].
  rewrite (proj2 (rd_Done _ (Z.of_nat (length pre)) c)), bind_ret by (split; [lia|]; by rewrite Nat2Z.id, lookup_app_r, Nat.sub_diag by lia).
  destruct (_write c a) as [a'| |]; [|done..]. rewrite !bind_ret, <-(IH (pre ++ [c]) a'), length_app, <-app_assoc. cbn [app length].
  f_equal. lia.
Qed.

Lemma write_str_text s rest a : text s → write_str (s ++ 0 :: rest) a = write_bytes s a.
Proof.
  intros Hs. unfold write_str. rewrite strlen_text by done. rewrite bind_ret, Nat2Z.id. apply (write_from_text [] s (0 :: rest)).
Qed.

(** *** Numbers *)

(** The decimal text of a number. *)
Definition decimal (v : Z) (s : list Z) : Prop :=
  ∃ ds, s = (if v <? 0 then [45] else []) ++ ds ∧ Forall (λ c, 48 ≤ c ≤ 57) ds ∧ dval ds = Z.abs v ∧ ds ≠ [].

Lemma itos_digits_short fuel n k ds : itos_digits fuel n 10 = Done ds → Z.abs n < 10 ^ Z.of_nat k → (0 < k)%nat → (length ds ≤ k)%nat.
Proof.
  revert n k ds. induction fuel as [|fuel IH]; intros n k ds; cbn [itos_digits]; [done|]. intros He Hn Hk. apply bind_Done in He as (c & _ & He).
  destruct (Z.eqb_spec (Z.quot n 10) 0) as [E|E]; [injection He as <-; cbn; lia|]. apply bind_Done in He as (ds' & He & [= <-]).
  assert (Hq : Z.abs (Z.quot n 10) = Z.abs n / 10) by (rewrite <-Z.quot_abs, Z.quot_div_nonneg by lia; done).
  assert (Z.abs n / 10 ≠ 0) by (intros E0; apply E; lia).
  destruct k as [|[|k]]; [lia|change (10 ^ Z.of_nat 1) with 10 in Hn; rewrite Z.div_small in H0 by lia; done|].
  cbn [length]. apply le_n_S, (IH (Z.quot n 10)); [done| |lia]. rewrite Hq. apply Z.div_lt_upper_bound; [lia|].
  rewrite Nat2Z.inj_succ, Z.pow_succ_r in Hn by lia. lia.
Qed.

Lemma put_number_prints n v k a :
  Z.abs v < 10 ^ Z.of_nat k → (0 < k)%nat → Z.abs v < 2 ^ 64 → (k + 2 ≤ n)%nat → ∃ s, put_number n v a = write_bytes s a ∧ decimal v s.
Proof.
  intros Hv Hk H64 Hn. destruct (itos_digits_spec 65 v 10 ltac:(lia)) as (ds & Hds & Hl & Hall & Hten); [lia..|]. destruct (Hten eq_refl) as [Hd Hdv].
  pose proof (itos_digits_short 65 v k ds Hds Hv Hk) as Hlen. set (sg := if v <? 0 then [45] else []).
  assert (Hsg : (length sg ≤ 1)%nat ∧ text sg) by (unfold sg; destruct (v <? 0); split; cbn; repeat constructor; lia).
  exists (sg ++ rev ds). split.
  - unfold put_number, itos. cbn [Z.ltb Z.gtb Z.compare orb]. rewrite andb_true_r, Hds, bind_ret. fold sg.
    rewrite put_eq by (rewrite ?length_app, ?length_rev, ?length_replicate; cbn; lia). change ((10 <? 2) || (10 >? 36)) with false. cbv iota. rewrite bind_ret.
    change (take (Z.to_nat 0) (replicate n 0)) with ([] : list Z). cbn [app]. rewrite <-!app_assoc, app_assoc. cbn [app]. apply write_str_text.
    apply Forall_app. split; [apply Hsg|]. apply Forall_rev. eapply Forall_impl; [exact Hall|]. cbn. lia.
  - exists (rev ds). split_and!; [done|by apply Forall_rev|done|]. intros E%(f_equal length). rewrite length_rev in E. cbn in E. lia.
Qed.

(** The operators print every number of their type in decimal: the local buffers
    are long enough. *)
Lemma numbers_fit x a :
  Forall (λ p, ∃ s, p.1 a = write_bytes s a ∧ decimal p.2 s)
    [(put_int8 x, swrap 8 x); (put_uint8 x, u8 x); (put_int16 x, i16 x); (put_uint16 x, u16 x);
     (put_int32 x, i32 x); (put_uint32 x, u32 x); (put_int64 x, i64 x); (put_uint64 x, u64 x)].
Proof.
  assert (Hs : ∀ w, 0 < w → Z.abs (swrap w x) ≤ 2 ^ (w - 1)) by (intros w Hw; pose proof (swrap_bound w x Hw); lia).
  assert (Hu : ∀ w, 0 ≤ w → 0 ≤ wrap w x < 2 ^ w) by (intros w Hw; by apply wrap_bound).
  pose proof (Hs 8). pose proof (Hs 16). pose proof (Hs 32). pose proof (Hs 64). pose proof (Hu 8). pose proof (Hu 16). pose proof (Hu 32). pose proof (Hu 64).
  constructor; [|constructor; [|constructor; [|constructor; [|constructor; [|constructor; [|constructor; [|constructor; [|constructor]]]]]]]]; cbn [fst snd].
  - apply (put_number_prints 8 _ 3); cbn; lia.
  - apply (put_number_prints 8 _ 3); cbn; lia.
  - apply (put_number_prints 8 _ 5); cbn; lia.
  - apply (put_number_prints 8 _ 5); cbn; lia.
  - apply (put_number_prints 16 _ 10); cbn; lia.
  - apply (put_number_prints 16 _ 10); cbn; lia.
  - apply (put_number_prints 32 _ 20); cbn; lia.
  - apply (put_number_prints 32 _ 20); cbn; lia.
Qed.

(** *** Safety of the parser *)

Record parser_inv (a : Abstractor) : Prop := {
  pi_arg : 0 ≤ m_arg a ≤ 7; pi_ptr : 0 ≤ m_ptr a ≤ 31; pi_args : length (m_args a) = 8%nat;
  pi_buffer : length (m_buffer a) = 32%nat; pi_end : m_buffer a !! 31%nat = Some 0 }.

Lemma stoi_terminated b : 0 ∈ b → ∃ v, stoi 32 10 b = Done v.
Proof.
  intros Hin.
  assert (Hloop : ∀ l r, 0 ∈ l → ∃ v, stoi_loop 32 10 r l = Done v).
  { induction l as [|c l IH]; intros r Hl; [by apply not_elem_of_nil in Hl|]. cbn [stoi_loop]. destruct (Z.eqb_spec c 0); [by eexists|].
    apply IH. apply elem_of_cons in Hl as [Hl|Hl]; [congruence|done]. }
  unfold stoi. destruct b as [|c b]; [by apply not_elem_of_nil in Hin|]. cbn [deref]. change (deref (c :: b)) with (Done c). rewrite bind_ret.
  destruct (Z.eqb_spec c 45) as [->|]; [|by apply Hloop]. cbn [drop]. rewrite drop_0. apply elem_of_cons in Hin as [Hin|Hin]; [done|].
  destruct (Hloop b 0 Hin) as [v ->]. rewrite bind_ret. by eexists.
Qed.

(** What a byte does to the virtual terminal. *)
Inductive effect (v : T) : T → Prop :=
| no_effect : effect v v
| written c v' : vtty_write c v = Done v' → effect v v'
| colored c v' : vtty_color c v = Done v' → effect v v'
| moved x y : effect v (setCursorY y (setCursorX x v)).

(** A byte keeps the indices of the parser in range, and its only effect is a
    character, a colour or a move; it fails only where the virtual terminal fails. *)
Lemma write_safe c a :
  parser_inv a → (∀ c, ∃ v, vtty_write c (m_vtty a) = Done v) → (∀ c, ∃ v, vtty_color c (m_vtty a) = Done v) →
  ∃ a', _write c a = Done a' ∧ parser_inv a' ∧ effect (m_vtty a) (m_vtty a').
Proof.
  intros [Ha Hp Hl Hb He] Hw Hc. unfold _write. set (a1 := outb _ a).
  assert (Hzero : replicate 32 0 !! 31%nat = Some 0) by done.
  change (m_state a1) with (m_state a). destruct (m_state a).
  - destruct (c =? 27); [eexists; split; [reflexivity|]; split; [by constructor|constructor]|].
    destruct (Hw c) as [v Hv]. change (m_vtty a1) with (m_vtty a). rewrite Hv, bind_ret. eexists. split; [reflexivity|].
    split; [by constructor|by eapply written].
  - change (m_buffer a1) with (m_buffer a). rewrite memset_buffer, bind_ret by done. eexists. split; [reflexivity|]. split; [by constructor|constructor].
  - destruct (inrange (char c) 48 57); cbn [negb].
    + change (m_buffer a1) with (m_buffer a). change (m_ptr a1) with (m_ptr a). set (p := if m_ptr a =? 31 then m_ptr a - 1 else m_ptr a).
      assert (Hp' : 0 ≤ p ≤ 30) by (unfold p; destruct (Z.eqb_spec (m_ptr a) 31); lia).
      rewrite wr_in_range, bind_ret by lia. eexists. split; [reflexivity|]. split; [|constructor].
      constructor; cbn; try done; [lia|by rewrite length_insert|]. by rewrite list_lookup_insert_ne by lia.
    + change (m_buffer a1) with (m_buffer a). change (m_args a1) with (m_args a). change (m_arg a1) with (m_arg a).
      destruct (stoi_terminated (m_buffer a)) as [v ->]; [by eapply list_elem_of_lookup_2|]. rewrite bind_ret, wr_in_range, bind_ret by lia.
      cbv zeta. cbn [set_arg m_buffer]. change (m_buffer a1) with (m_buffer a). rewrite memset_buffer, bind_ret by done.
      set (args := <[Z.to_nat (m_arg a) := v]> (m_args a)). assert (Hargs : length args = 8%nat) by (unfold args; by rewrite length_insert).
      set (i := if m_arg a + 1 =? 8 then m_arg a + 1 - 1 else m_arg a + 1). assert (Hi : 0 ≤ i ≤ 7) by (unfold i; destruct (Z.eqb_spec (m_arg a + 1) 8); lia).
      destruct (inrange (char c) 58 59); [eexists; split; [reflexivity|]; split; [by constructor|constructor]|].
      unfold flush_ansi. cbn [set_state set_code set_buffer set_arg m_cat m_code m_args m_vtty m_buffer].
      assert (Hrd : ∀ j, 0 ≤ j < 8 → ∃ x, args.[j] = Done x) by (intros j Hj; destruct (rd_in_range args j ltac:(lia)) as (x & -> & _); by eexists).
      destruct (_ =? 91); [|rewrite bind_ret; eexists; split; [reflexivity|]; split; [by constructor|constructor]].
      destruct (_ =? 109).
      * destruct (Hrd 0 ltac:(lia)) as [x ->]. rewrite bind_ret. destruct (Hc x) as [w Hcw]. change (m_vtty a1) with (m_vtty a). rewrite Hcw, !bind_ret.
        eexists. split; [reflexivity|]. split; [by constructor|by eapply colored].
      * destruct (_ =? 72); [|rewrite bind_ret; eexists; split; [reflexivity|]; split; [by constructor|constructor]].
        destruct (Hrd 0 ltac:(lia)) as [x ->], (Hrd 1 ltac:(lia)) as [y ->]. rewrite !bind_ret. eexists. split; [reflexivity|].
        split; [by constructor|apply moved].
  - eexists. split; [reflexivity|]. split; [by constructor|constructor].
Qed.

(** *** Colours *)

(** The parser between two sequences. *)
Definition ready (a : Abstractor) : Prop :=
  m_state a = OUT ∧ m_arg a = 0 ∧ m_ptr a = 0 ∧ length (m_args a) = 8%nat ∧ length (m_buffer a) = 32%nat.

(** The digits of an argument are collected. *)
Lemma digits_collected ds pre v i args cat code out :
  Forall (λ c, 48 ≤ c ≤ 57) ds → (length pre + length ds ≤ 31)%nat →
  write_bytes ds (mk_abstractor v ANSI_ARGS i (Z.of_nat (length pre)) args cat code (pre ++ replicate (32 - length pre) 0) out) =
  Done (mk_abstractor v ANSI_ARGS i (Z.of_nat (length (pre ++ ds))) args cat code ((pre ++ ds) ++ replicate (32 - length (pre ++ ds)) 0) (out ++ ds)).
Proof.
  intros Hd. revert pre out. induction Hd as [|c ds Hc _ IH]; intros pre out Hl; cbn [write_bytes]; [by rewrite !app_nil_r|]. cbn [length] in Hl.
  unfold _write. destruct (Z.eqb_spec c 10); [lia|]. cbn [outb m_state m_ptr m_buffer]. rewrite char_ascii by lia. unfold inrange.
  rewrite Z.geb_leb, (proj2 (Z.leb_le 48 c)), (proj2 (Z.leb_le c 57)) by lia. cbn [andb negb].
  destruct (Z.eqb_spec (Z.of_nat (length pre)) 31); [lia|]. rewrite wr_in_range, !bind_ret by (rewrite length_app, length_replicate; lia).
  rewrite Nat2Z.id, insert_app_r_alt, Nat.sub_diag by lia. replace (32 - length pre)%nat with (S (32 - length (pre ++ [c])))%nat by (rewrite length_app; cbn; lia).
  cbn [replicate insert list_insert]. unfold set_buffer, outb. cbn [m_vtty m_state m_arg m_args m_cat m_code port].
  replace (Z.of_nat (length pre) + 1) with (Z.of_nat (length (pre ++ [c]))) by (rewrite length_app; cbn; lia).
  change (pre ++ c :: replicate (32 - length (pre ++ [c])) 0) with (pre ++ [c] ++ replicate (32 - length (pre ++ [c])) 0).
  rewrite app_assoc, IH by (rewrite length_app; cbn; lia). by rewrite <-!app_assoc.
Qed.

(** A colour sequence sets the colour and nothing else, and the parser is ready for
    text again. *)
Lemma color_sequence ds a v :
  ready a → Forall (λ c, 48 ≤ c ≤ 57) ds → (length ds ≤ 31)%nat → dval ds < 2 ^ 31 → vtty_color (dval ds) (m_vtty a) = Done v →
  ∃ a', write_bytes ([27; 91] ++ ds ++ [109]) a = Done a' ∧ ready a' ∧ m_vtty a' = v ∧ port a' = port a ++ [27; 91] ++ ds ++ [109].
Proof.
  destruct a as [v0 st i p args cat code b out]. intros (Hs & Hi & Hp & Hargs & Hb) Hd Hl Hv Hc. cbn [m_state m_arg m_ptr m_args m_buffer m_vtty port] in *. subst st i p.
  destruct args as [|x0 args]; [done|].
  assert (He : write_bytes [27; 91] (mk_abstractor v0 OUT 0 0 (x0 :: args) cat code b out) =
    Done (mk_abstractor v0 ANSI_ARGS 0 (Z.of_nat (length (@nil Z))) (x0 :: args) 91 code ([] ++ replicate (32 - length (@nil Z)) 0) ((out ++ [27]) ++ [91]))).
  { cbn -[memset replicate]. by rewrite (memset_buffer b Hb). }
  rewrite write_bytes_app, He, bind_ret, write_bytes_app, digits_collected, bind_ret by (done || cbn; lia). cbn [write_bytes app]. unfold _write.
  cbn [Z.eqb Pos.eqb outb m_state]. change (inrange (char 109) 48 57) with false. change (inrange (char 109) 58 59) with false.
  cbn [negb outb m_buffer m_args m_arg set_arg].
  assert (Hst : stoi 32 10 (ds ++ replicate (32 - length ds) 0) = Done (dval ds)).
  { unfold stoi. replace (32 - length ds)%nat with (S (31 - length ds)) by lia. cbn [replicate].
    pose proof (stoi_loop_digits 32 ds 0 (replicate (31 - length ds) 0) ltac:(lia) Hd ltac:(lia) Hv) as Hst.
    destruct ds as [|c ds]; [exact Hst|]. change (deref ((c :: ds) ++ 0 :: replicate (31 - length (c :: ds)) 0)) with (Done c).
    rewrite bind_ret. inversion Hd as [|? ? Hc0 _]; subst. destruct (Z.eqb_spec c 45); [lia|]. exact Hst. }
  rewrite Hst, bind_ret. change ((x0 :: args).[0 := dval ds]) with (Done (dval ds :: args)). rewrite bind_ret. cbv zeta.
  rewrite memset_buffer, bind_ret by (rewrite length_app, length_replicate; lia). unfold flush_ansi.
  cbn [set_state set_code set_buffer set_arg m_cat m_code m_args m_vtty m_buffer Z.eqb Pos.eqb]. change ((dval ds :: args).[0]) with (Done (dval ds)). rewrite bind_ret.
  change ((109 =? 109)) with true. cbv iota. change (m_vtty (outb [109] ?x)) with (m_vtty x). cbn [outb m_vtty m_cat Z.eqb Pos.eqb]. rewrite Hc, !bind_ret.
  eexists. split; [reflexivity|]. unfold ready. cbn. split; [done|]. split; [done|]. by rewrite <-!app_assoc.
Qed.

(** [color] of every colour code. *)
Lemma color_understood c a v :
  ready a → vtty_color (ansi_code c) (m_vtty a) = Done v → ∃ a', put_color c a = Done a' ∧ ready a' ∧ m_vtty a' = v.
Proof.
  intros Hr Hv.
  assert (Hs : ∃ ds rest, snprintf (replicate 8 0) 8 (cstr (27 :: lit "[%im")) [Num (ansi_code c)] = Done (([27; 91] ++ ds ++ [109]) ++ 0 :: rest) ∧
    Forall (λ c, 48 ≤ c ≤ 57) ds ∧ (length ds ≤ 31)%nat ∧ dval ds = ansi_code c).
  { set (n := ansi_code c). exists (if n <? 100 then [48 + n / 10; 48 + n mod 10] else [48 + n / 100; 48 + n / 10 mod 10; 48 + n mod 10]),
      (if n <? 100 then [0; 0] else [0]).
    destruct c; vm_compute; (split; [reflexivity|]; split; [repeat constructor; discriminate|split; [lia|reflexivity]]). }
  destruct Hs as (ds & rest & Hs & Hd & Hl & Hn). unfold put_color, color. rewrite Hs, bind_ret, write_str_text.
  - rewrite <-Hn in Hv. destruct (color_sequence ds a v Hr Hd Hl) as (a' & He & H1 & H2 & _); [rewrite Hn; destruct c; done|done|]. by exists a'.
  - repeat (apply Forall_app; split); [repeat constructor|eapply Forall_impl; [exact Hd|cbn; lia]|repeat constructor].
Qed.

(** *** [printk] *)

(** [printk_common]: the padding, then the text. *)
Fixpoint put_pad (n : nat) (padchar : Z) (a : Abstractor) : outcome Abstractor :=
  match n with O => Done a | S n => a ← write_char padchar a; put_pad n padchar a end.
Definition printk_common (padchar padlen : Z) (buffer : list Z) (a : Abstractor) : outcome Abstractor :=
  n ← strlen buffer;
  a ← put_pad (Z.to_nat (padlen - n)) padchar a;
  write_str buffer a.

(** The marks of [PRINTK_INIT], [PRINTK_OK], [PRINTK_WARN] and [PRINTK_FAIL]. *)
Definition put_mark (l : string) (c : ansi_color_t) (s r : string) (a : Abstractor) : outcome Abstractor :=
  a ← put_color ANSI_FG_DARK_GRAY a; a ← write_str (cstr (lit l)) a; a ← put_color c a; a ← write_str (cstr (lit s)) a;
  a ← put_color ANSI_FG_DARK_GRAY a; a ← write_str (cstr (lit r)) a; put_color ANSI_FG_WHITE a.
Definition printk_mark (c : Z) (a : Abstractor) : outcome Abstractor :=
  if c =? 48 then put_mark " [ " ANSI_FG_LIGHT_BLUE "INIT" " ] " a
  else if c =? 49 then put_mark " [  " ANSI_FG_LIGHT_GREEN "OK" "  ] " a
  else if c =? 50 then put_mark " [ " ANSI_FG_YELLOW "WARN" " ] " a
  else if c =? 51 then put_mark " [ " ANSI_FG_LIGHT_RED "FAIL" " ] " a
  else Done a.

(** [if (newline)]: the rest of the format and the terminal. *)
Definition printk_start (newline : bool) (fmt : list Z) (a : Abstractor) : outcome (list Z * Abstractor) :=
  if newline then
    c ← deref fmt;
    if c =? 94 then
      c ← fmt.[1]; a ← printk_mark c a; fmt ← incr fmt; fmt ← incr fmt; Done (fmt, a)
    else a ← write_str (cstr (lit "  ")) a; Done (fmt, a)
  else Done (fmt, a).

(** The conversion character [c]; the arguments that are left and the terminal. *)
Definition printk_convert (padchar padlen : Z) (sz : size) (c : Z) (args : list arg) (a : Abstractor) : outcome (list arg * Abstractor) :=
  let number v base upper :=
    buffer ← itos v base tmp_buffer;
    printk_common padchar padlen (if upper : bool then toupper <$> buffer else buffer) a in
  if c =? 0 then Done (args, a)
  else if c =? 36 then a ← color (if padlen =? 0 then 97 else padlen) a; Done (args, a)
  else if c =? 115 then '(s, args) ← va_text args; a ← printk_common padchar padlen s a; Done (args, a)
  else if c =? 99 then '(v, args) ← va_num args; a ← printk_common padchar padlen [u8 v; 0] a; Done (args, a)
  else if c =? 105 then '(v, args) ← va_num args; a ← number (signed_of sz v) 10 false; Done (args, a)
  else if c =? 117 then '(v, args) ← va_num args; a ← number (unsigned_of sz v) 10 false; Done (args, a)
  else if c =? 120 then '(v, args) ← va_num args; a ← number (unsigned_of sz v) 16 false; Done (args, a)
  else if c =? 88 then '(v, args) ← va_num args; a ← number (unsigned_of sz v) 16 true; Done (args, a)
  else if c =? 112 then '(v, args) ← va_num args; a ← number (u64 v) 16 false; Done (args, a)
  else a ← write_char c a; Done (args, a).

(** The [do] loop, with as many turns as the format has bytes at most. *)
Fixpoint printk_loop (fuel : nat) (newline : bool) (fmt : list Z) (args : list arg) (a : Abstractor) : outcome (bool * Abstractor) :=
  match fuel with
  | O => Fault
  | S fuel =>
      c ← deref fmt;
      '(newline, fmt, args, a) ←
        (if c =? 37 then
           fmt ← incr fmt;
           '(padchar, padlen, sz, fmt) ← directive fmt;
           c ← deref fmt;
           '(args, a) ← printk_convert padchar padlen sz c args a;
           Done (newline, fmt, args, a)
         else
           a ← write_char c a;
           Done (newline || (c =? 10) || (c =? 13), fmt, args, a));
      fmt ← incr fmt;
      c ← deref fmt;
      if c =? 0 then Done (newline, a) else printk_loop fuel newline fmt args a
  end.

(** [printk] on the processor [cpu]; the static [newline] and the root terminal. *)
Definition printk (cpu faulted_cpu : Z) (fmt : list Z) (args : list arg) (st : bool * Abstractor) : outcome (bool * Abstractor) :=
  if negb (faulted_cpu =? -1) && negb (cpu =? faulted_cpu) then Done st
  else
    '(fmt, a) ← printk_start st.1 fmt st.2;
    printk_loop (length fmt) false fmt args a.

(** [printk] prints what [snprintf] would store. *)

Lemma put_pad_bytes n c a : put_pad n c a = write_bytes (replicate n c) a.
Proof. revert a. induction n as [|n IH]; intros a; [done|]. cbn. unfold write_char. destruct (_write c a); [apply IH|done..]. Qed.

Lemma write_str_of str s a : text_of str = Done s → write_str str a = write_bytes s a.
Proof.
  unfold text_of, write_str. intros Ht. apply bind_Done in Ht as (n & -> & Hg). rewrite bind_ret.
  apply get_Done in Hg as (_ & Hn & Hl & Hlen & Hs). assert (Hstr : str = s ++ drop (length s) str).
  { rewrite <-(take_drop (length s) str) at 1. f_equal. apply list_eq. intros i. destruct (decide (i < length s)%nat).
    - by rewrite lookup_take_lt, Hs by lia.
    - rewrite !lookup_ge_None_2; [done|lia|rewrite length_take; lia]. }
  replace (Z.to_nat n) with (length s) by lia. rewrite Hstr. apply (write_from_text [] s).
Qed.

Lemma printk_common_padded pc pl str s a : text_of str = Done s → - 2 ^ 31 ≤ pl - Z.of_nat (length s) < 2 ^ 31 →
  printk_common pc pl str a = write_bytes (padded pc pl s) a.
Proof.
  intros Ht Hb. pose proof (write_str_of str s) as Hw. pose proof Ht as Ht'. unfold text_of in Ht'. apply bind_Done in Ht' as (n & Hn & Hg).
  apply get_Done in Hg as (_ & _ & _ & Hlen & _). unfold printk_common, padded. rewrite Hn, bind_ret, put_pad_bytes, write_bytes_app.
  rewrite swrap_small by lia. replace (Z.to_nat (pl - n)) with (Z.to_nat ((pl - Z.of_nat (length s)) `max` 0)) by lia.
  destruct (write_bytes (replicate _ pc) a); [|done..]. rewrite !bind_ret. by apply Hw.
Qed.

(** What a format stands for: text to type, and colours to change to, which are the
    conversion [$] of [printk].  The text is that of [snprintf], which has no [$] and no
    [X]: hexadecimal digits in capitals. *)
Inductive piece := Typed (t : list Z) | Coloured (ansi : Z).
Definition capitals (t : list Z) : list Z := (λ c, if (97 <=? c) && (c <=? 122) then c - 32 else c) <$> t.
Definition pieces_conv (padchar padlen : Z) (sz : size) (c : Z) (args : list arg) : outcome (piece * list arg) :=
  if c =? 36 then Done (Coloured (if padlen =? 0 then 97 else padlen), args)
  else if c =? 88 then
    '(v, args) ← va_num args; tmp ← itos (unsigned_of sz v) 16 tmp_buffer; t ← text_of tmp; Done (Typed (padded padchar padlen (capitals t)), args)
  else '(t, args) ← render_conv padchar padlen sz c args; Done (Typed t, args).
Fixpoint pieces_loop (fuel : nat) (fmt : list Z) (args : list arg) : outcome (list piece) :=
  match fuel with
  | O => Fault
  | S fuel =>
      c ← deref fmt;
      '(t, fmt, args) ←
        (if c =? 37 then
           fmt ← incr fmt;
           '(padchar, padlen, sz, fmt) ← directive fmt;
           c ← deref fmt;
           '(t, args) ← pieces_conv padchar padlen sz c args;
           Done (t, fmt, args)
         else Done (Typed [c], fmt, args));
      fmt ← incr fmt;
      c ← deref fmt;
      if c =? 0 then Done [t] else r ← pieces_loop fuel fmt args; Done (t :: r)
  end.
Definition pieces (fmt : list Z) (args : list arg) : outcome (list piece) := pieces_loop (length fmt) fmt args.

(** The widths of the format do not overflow; strings of less than 2 GiB. *)
Definition widths_ok (fmt : list Z) : Prop :=
  ∀ k pc pl sz rest, directive (drop k fmt) = Done (pc, pl, sz, rest) → 0 ≤ pl < 2 ^ 31.
Definition short_args (args : list arg) : Prop :=
  Forall (λ x, match x with Text _ s => Z.of_nat (length s) < 2 ^ 31 | Num _ => True end) args.

Lemma widths_drop k fmt : widths_ok fmt → widths_ok (drop k fmt).
Proof. intros H3 j pc pl sz rest. rewrite drop_drop. apply H3. Qed.

Lemma toupper_zero c : toupper c = 0 ↔ c = 0.
Proof.
  unfold toupper, inrange, char. destruct (_ && _) eqn:E; [|done]. unfold swrap in *. split; intros Hc; exfalso; [|subst c; by vm_compute in E].
  revert Hc E. Z.to_euclidean_division_equations. lia.
Qed.
Lemma toupper_text buffer t : text_of buffer = Done t → Forall (λ c, 0 ≤ c < 128) t → text_of (toupper <$> buffer) = Done (capitals t).
Proof.
  intros Ht Hb. apply bind_Done in Ht as (n & Hn & Hg). unfold get in Hg. destruct (_ && _) eqn:E; [|done]. injection Hg as <-.
  assert (Hs : ∀ l k, strlen_from (toupper <$> l) k = strlen_from l k).
  { induction l as [|c l IH]; intros k; [done|]. rewrite fmap_cons. cbn [strlen_from]. rewrite IH.
    replace (toupper c =? 0) with (c =? 0); [done|]. apply eq_bool_prop_intro. rewrite !Is_true_true, !Z.eqb_eq. symmetry. apply toupper_zero. }
  unfold text_of, strlen. rewrite Hs. unfold strlen in Hn. rewrite Hn, bind_ret. unfold get. rewrite length_fmap, E. f_equal.
  change (Z.to_nat 0) with 0%nat in *. rewrite !drop_0 in *. rewrite <-fmap_take. unfold capitals. apply list_fmap_ext. intros i c Hc.
  pose proof (Forall_lookup_1 _ _ _ _ Hb Hc) as Hr. cbn in Hr. unfold toupper. rewrite (char_ascii c) by lia. unfold inrange.
  rewrite Z.geb_leb. destruct (Z.leb_spec 97 c), (Z.leb_spec c 122); [|done..]. cbn [andb]. apply char_ascii. lia.
Qed.

(** The digits of a number are of seven bits. *)
Lemma itos_ascii v base buf r : Forall (λ c, 0 ≤ c < 128) buf → itos v base buf = Done r → Forall (λ c, 0 ≤ c < 128) r.
Proof.
  assert (Hds : ∀ fuel n ds, itos_digits fuel n base = Done ds → Forall (λ c, 0 ≤ c < 128) ds).
  { induction fuel as [|fuel IH]; intros n ds; [done|]. cbn [itos_digits]. intros He. apply bind_Done in He as (c & Hc & He).
    assert (Hd : 0 ≤ c < 128).
    { apply rd_Done in Hc as [_ Hc]. assert (Hall : Forall (λ c, 0 ≤ c < 128) xtox_dictionary) by (apply (bool_decide_unpack _); vm_compute; exact I).
      exact (Forall_lookup_1 _ _ _ _ Hall Hc). }
    destruct (_ =? 0); [injection He as <-; by apply Forall_singleton|]. apply bind_Done in He as (ds' & Hd' & [= <-]). constructor; [done|by eapply IH]. }
  intros Hb. unfold itos. destruct (_ || _); intros He.
  - apply wr_Done in He as [_ ->]. apply Forall_insert; [done|lia].
  - apply bind_Done in He as (ds & Hd & He). apply Hds in Hd. unfold put in He. destruct (_ && _); [|done]. injection He as <-.
    rewrite !Forall_app. split_and!; [destruct (_ && _); repeat constructor; lia|by apply Forall_rev|repeat constructor; lia|by apply Forall_drop].
Qed.

Lemma incr_drop (p q : list Z) : incr p = Done q → q = drop 1 p.
Proof. destruct p; [done|]. by intros [= <-]. Qed.

Lemma width_loop_drop fmt tmp tmp' rest : width_loop fmt tmp = Done (tmp', rest) → ∃ k, rest = drop k fmt.
Proof.
  revert tmp. induction fmt as [|c fmt IH]; intros tmp; cbn [width_loop]; [done|]. destruct (_ && _).
  - destruct (_ <? 72); [|done]. intros [k ->]%IH. by exists (S k).
  - destruct (_ <? 72); [|done]. intros [= _ <-]. by exists 0%nat.
Qed.

Lemma directive_drop fmt pc pl sz rest : directive fmt = Done (pc, pl, sz, rest) → ∃ k, rest = drop k fmt.
Proof.
  unfold directive. intros He. apply bind_Done in He as (c & _ & He). apply bind_Done in He as ([p1 f1] & H1 & He).
  apply bind_Done in He as ([tmp f2] & [k2 ->]%width_loop_drop & He). apply bind_Done in He as (pl' & _ & He). apply bind_Done in He as (c2 & _ & He).
  assert (Hf : ∃ k, f1 = drop k fmt).
  { destruct (c =? 48); [apply bind_Done in H1 as (f & Hf & [= <- <-]); exists 1%nat; by apply incr_drop|]. injection H1 as <- <-. by exists 0%nat. }
  destruct Hf as [k1 ->]. destruct (c2 =? 108); [|destruct (c2 =? 104)].
  - apply bind_Done in He as (f & Hf & [= _ _ _ <-]). apply incr_drop in Hf as ->. rewrite !drop_drop. by eexists.
  - apply bind_Done in He as (f & Hf & [= _ _ _ <-]). apply incr_drop in Hf as ->. rewrite !drop_drop. by eexists.
  - injection He as _ _ _ <-. rewrite drop_drop. by eexists.
Qed.

Lemma text_of_length str s : text_of str = Done s → (length s ≤ length str)%nat.
Proof. intros Ht. apply bind_Done in Ht as (n & _ & Hg). apply get_Done in Hg as (? & ? & ? & ? & _). lia. Qed.

Lemma itos_length v base buf r : itos v base buf = Done r → length r = length buf.
Proof.
  unfold itos. destruct (_ || _); intros He.
  - apply wr_Done in He as [_ ->]. apply length_insert.
  - apply bind_Done in He as (ds & _ & He). by apply put_Done in He as (_ & _ & ? & _).
Qed.

Lemma printk_convert_renders pc pl sz c args t args' :
  render_conv pc pl sz c args = Done (t, args') → c ≠ 36 → c ≠ 88 → 0 ≤ pl < 2 ^ 31 → short_args args →
  (∀ a, printk_convert pc pl sz c args a = (a ← write_bytes t a; Done (args', a))) ∧ short_args args'.
Proof.
  intros He H36 H88 Hpl Hsh. unfold render_conv in He. unfold printk_convert.
  apply Z.eqb_neq in H36, H88. rewrite H36, H88.
  assert (Hnum : ∀ v base t a, render_number pc pl v base = Done t → (buffer ← itos v base tmp_buffer; printk_common pc pl buffer a) = write_bytes t a).
  { intros v base t0 a Hr. apply bind_Done in Hr as (tmp & Hi & Hr). apply bind_Done in Hr as (s & Hs & [= <-]). rewrite Hi, bind_ret.
    apply printk_common_padded; [done|]. pose proof (text_of_length _ _ Hs). apply itos_length in Hi. change (length tmp_buffer) with 72%nat in Hi. lia. }
  assert (Hva : ∀ v args', va_num args = Done (v, args') → short_args args').
  { intros v args1. destruct args as [|[]]; [done|..]; intros [= _ <-]; by inversion Hsh. }
  destruct (c =? 0); [injection He as <- <-; by split|]. destruct (c =? 115).
  { apply bind_Done in He as ([s args1] & Hv & He). apply bind_Done in He as (t1 & Ht & [= <- <-]).
    destruct args as [|[|addr s0] args]; [done|injection Hv as <- <-; done|]. injection Hv as <- <-. inversion Hsh as [|? ? Hs0 Hsh']; subst. split; [|done].
    intros a. cbn [va_text]. rewrite bind_ret, (printk_common_padded pc pl s0 t1) by (done || (pose proof (text_of_length _ _ Ht); lia)). done. }
  destruct (c =? 99).
  { apply bind_Done in He as ([v args1] & Hv & He). apply bind_Done in He as (t1 & Ht & [= <- <-]). split; [|by eapply Hva].
    intros a. rewrite Hv, bind_ret, (printk_common_padded pc pl [u8 v; 0] t1) by (done || (pose proof (text_of_length _ _ Ht); cbn in *; lia)). done. }
  destruct (c =? 105); [|destruct (c =? 117); [|destruct (c =? 120); [|destruct (c =? 112)]]];
    [apply bind_Done in He as ([v args1] & Hv & He); apply bind_Done in He as (t1 & Ht & [= <- <-]);
     (split; [intros a; by rewrite Hv, bind_ret, (Hnum _ _ _ a Ht)|by eapply Hva])..|].
  injection He as <- <-. split; [|done]. intros a. cbn [write_bytes]. unfold write_char. by destruct (_write c a).
Qed.

(** What is sent to the terminal for a piece. *)
Definition put_piece (x : piece) (a : Abstractor) : outcome Abstractor :=
  match x with Typed t => write_bytes t a | Coloured c => color c a end.
Fixpoint put_pieces (ps : list piece) (a : Abstractor) : outcome Abstractor :=
  match ps with [] => Done a | x :: ps => a ← put_piece x a; put_pieces ps a end.

Lemma printk_convert_pieces pc pl sz c args x args' :
  pieces_conv pc pl sz c args = Done (x, args') → 0 ≤ pl < 2 ^ 31 → short_args args →
  (∀ a, printk_convert pc pl sz c args a = (a ← put_piece x a; Done (args', a))) ∧ short_args args'.
Proof.
  unfold pieces_conv. intros He Hpl Hsh. destruct (Z.eqb_spec c 36) as [->|H36]; [by injection He as <- <-|]. destruct (Z.eqb_spec c 88) as [->|H88].
  - apply bind_Done in He as ([v args1] & Hv & He). apply bind_Done in He as (tmp & Hi & He). apply bind_Done in He as (t & Ht & [= <- <-]).
    assert (Hsh' : short_args args1) by (destruct args as [|[]]; [done|..]; injection Hv as _ <-; by inversion Hsh). split; [|done].
    intros a. unfold printk_convert. cbn [Z.eqb Pos.eqb]. rewrite Hv, bind_ret, Hi, bind_ret. cbn [put_piece].
    assert (Ha : Forall (λ c, 0 ≤ c < 128) tmp) by (eapply itos_ascii; [|exact Hi]; apply Forall_replicate; lia).
    apply toupper_text in Ht as Hu; [|apply bind_Done in Ht as (n & _ & Hg); unfold get in Hg; destruct (_ && _); [|done]; injection Hg as <-; by apply Forall_take, Forall_drop].
    rewrite (printk_common_padded pc pl _ (capitals t)); [done|done|]. pose proof (text_of_length _ _ Hu) as Hl. rewrite length_fmap in Hl.
    apply itos_length in Hi. change (length tmp_buffer) with 72%nat in Hi. lia.
  - apply bind_Done in He as ([t args1] & Hr & [= <- <-]). by apply (printk_convert_renders pc pl sz c args t args1).
Qed.

Lemma printk_loop_pieces fuel nl fmt args ps :
  pieces_loop fuel fmt args = Done ps → widths_ok fmt → short_args args →
  ∃ nl', ∀ a, printk_loop fuel nl fmt args a = (a ← put_pieces ps a; Done (nl', a)).
Proof.
  revert nl fmt args ps. induction fuel as [|fuel IH]; intros nl fmt args ps; cbn [pieces_loop]; [done|]. intros He Hp Hsh.
  apply bind_Done in He as (c & Hc & He). apply bind_Done in He as ([[t1 fmt1] args1] & H1 & He).
  apply bind_Done in He as (fmt2 & Hi & He). apply bind_Done in He as (c2 & Hc2 & He).
  assert (Hturn : ∃ nl1, (∀ a, (if c =? 37 then
           fmt ← incr fmt; '(padchar, padlen, sz, fmt) ← directive fmt; c ← deref fmt;
           '(args, a) ← printk_convert padchar padlen sz c args a; Done (nl, fmt, args, a)
         else a ← write_char c a; Done (nl || (c =? 10) || (c =? 13), fmt, args, a)) = (a ← put_piece t1 a; Done (nl1, fmt1, args1, a))) ∧
       widths_ok fmt1 ∧ short_args args1).
  { destruct (c =? 37).
    - apply bind_Done in H1 as (f1 & Hf1 & H1). apply incr_drop in Hf1 as Ef1. apply bind_Done in H1 as ([[[pc pl] sz] f2] & Hdir & H1).
      apply bind_Done in H1 as (c1 & Hc1 & H1). apply bind_Done in H1 as ([t0 args0] & Hconv & [= <- <- <-]).
      destruct (directive_drop _ _ _ _ _ Hdir) as [k Ef2]. pose proof (widths_drop 1 fmt Hp) as Hp1. rewrite <-Ef1 in Hp1. pose proof (widths_drop k _ Hp1) as Hp2.
      rewrite <-Ef2 in Hp2. pose proof (Hp1 0%nat pc pl sz _ Hdir) as Hb.
      exists nl. destruct (printk_convert_pieces pc pl sz c1 args t0 args0 Hconv Hb Hsh) as [Hcv Hsh0].
      split; [|done]. intros a. rewrite Hf1, bind_ret, Hdir, bind_ret, Hc1, bind_ret, Hcv. by destruct (put_piece t0 a).
    - injection H1 as <- <- <-. eexists. split; [|done]. intros a0. cbn [put_piece write_bytes]. unfold write_char. destruct (_write c a0); done. }
  destruct Hturn as (nl1 & Ht & Hp1 & Hsh1). apply incr_drop in Hi as Hd. pose proof (widths_drop 1 fmt1 Hp1) as Hp2. rewrite <-Hd in Hp2.
  destruct (c2 =? 0) eqn:E2.
  - injection He as <-. exists nl1. intros a. cbn [printk_loop put_pieces]. rewrite Hc, bind_ret, Ht.
    destruct (put_piece t1 a) as [a1| |]; [|done..]. rewrite !bind_ret, Hi, bind_ret, Hc2, bind_ret, E2. done.
  - apply bind_Done in He as (r & Hr & [= <-]). destruct (IH nl1 fmt2 args1 r Hr Hp2 Hsh1) as [nl' Hnl]. exists nl'. intros a. cbn [printk_loop put_pieces].
    rewrite Hc, bind_ret, Ht. destruct (put_piece t1 a) as [a1| |]; [|done..]. rewrite !bind_ret, Hi, bind_ret, Hc2, bind_ret, E2. apply Hnl.
Qed.

End Terminal.

(** ** The root terminal on a text screen *)

Section Screen.
Import TxTTY (paper, shows, type_, recolor, write_shows, color_shows).

Definition type_all (t : list Z) (p : paper) : paper := fold_left (λ p c, type_ 80 c p) t p.

Lemma text_shown t a p :
  ready a → shows 80 p (m_vtty a) → 27 ∉ t → ∃ a', write_bytes t a = Done a' ∧ ready a' ∧ shows 80 (type_all t p) (m_vtty a').
Proof.
  revert a p. induction t as [|c t IH]; intros a p Hr Hs Hn; [by exists a|]. apply not_elem_of_cons in Hn as [Hc Hn]. cbn [write_bytes].
  pose proof Hr as (Hst & _). unfold _write at 1. set (a1 := outb _ a). change (m_state a1) with (m_state a). rewrite Hst.
  destruct (Z.eqb_spec c 27); [done|]. change (m_vtty a1) with (m_vtty a). destruct (write_shows 80 c p _ Hs) as (v & Hv & Hs').
  change (vtty_write c (m_vtty a)) with (TxTTY._write c (m_vtty a)). rewrite Hv, !bind_ret. by apply IH.
Qed.

Lemma color_shown c a p : ready a → shows 80 p (m_vtty a) →
  ∃ a', put_color c a = Done a' ∧ ready a' ∧ shows 80 (recolor (ansi_code c) p) (m_vtty a').
Proof.
  intros Hr Hs. destruct (color_shows 80 (ansi_code c) p _ Hs) as (v & Hv & Hs'). destruct (@color_understood _ TxTTY.TxTTY_vtty c a v Hr Hv) as (a' & He & Hr' & <-). by exists a'.
Qed.

Lemma lit_shown s a p : text (lit s) → 27 ∉ lit s → ready a → shows 80 p (m_vtty a) →
  ∃ a', write_str (cstr (lit s)) a = Done a' ∧ ready a' ∧ shows 80 (type_all (lit s) p) (m_vtty a').
Proof. intros Ht Hn Hr Hs. unfold cstr. rewrite write_str_text by done. by apply text_shown. Qed.

(** What [printk] puts at the start of a line. *)
Definition mark_paper (l : string) (c : ansi_color_t) (s r : string) (p : paper) : paper :=
  recolor (ansi_code ANSI_FG_WHITE) (type_all (lit r) (recolor (ansi_code ANSI_FG_DARK_GRAY)
    (type_all (lit s) (recolor (ansi_code c) (type_all (lit l) (recolor (ansi_code ANSI_FG_DARK_GRAY) p)))))).
Definition marked (c : Z) (p : paper) : paper :=
  if c =? 48 then mark_paper " [ " ANSI_FG_LIGHT_BLUE "INIT" " ] " p
  else if c =? 49 then mark_paper " [  " ANSI_FG_LIGHT_GREEN "OK" "  ] " p
  else if c =? 50 then mark_paper " [ " ANSI_FG_YELLOW "WARN" " ] " p
  else if c =? 51 then mark_paper " [ " ANSI_FG_LIGHT_RED "FAIL" " ] " p
  else p.
Definition started (newline : bool) (fmt : list Z) (p : paper) : list Z * paper :=
  if newline then
    match fmt with
    | [] => ([], p)
    | c :: fmt' =>
        if c =? 94 then match fmt' with [] => ([], p) | m :: fmt' => (fmt', marked m p) end
        else (fmt, type_all (lit "  ") p)
    end
  else (fmt, p).

Lemma mark_shown l c s r a p :
  Forall (λ s, text (lit s) ∧ 27 ∉ lit s) [l; s; r] → ready a → shows 80 p (m_vtty a) →
  ∃ a', put_mark l c s r a = Done a' ∧ ready a' ∧ shows 80 (mark_paper l c s r p) (m_vtty a').
Proof.
  intros Hf Hr Hs. inversion Hf as [|? ? [Hl1 Hl2] Hf2]; subst. inversion Hf2 as [|? ? [Hs1 Hs2] Hf3]; subst. inversion Hf3 as [|? ? [Hr1 Hr2] _]; subst.
  unfold put_mark, mark_paper.
  destruct (color_shown ANSI_FG_DARK_GRAY a p Hr Hs) as (a1 & -> & R1 & S1). rewrite bind_ret.
  destruct (lit_shown l a1 _ Hl1 Hl2 R1 S1) as (a2 & -> & R2 & S2). rewrite bind_ret.
  destruct (color_shown c a2 _ R2 S2) as (a3 & -> & R3 & S3). rewrite bind_ret.
  destruct (lit_shown s a3 _ Hs1 Hs2 R3 S3) as (a4 & -> & R4 & S4). rewrite bind_ret.
  destruct (color_shown ANSI_FG_DARK_GRAY a4 _ R4 S4) as (a5 & -> & R5 & S5). rewrite bind_ret.
  destruct (lit_shown r a5 _ Hr1 Hr2 R5 S5) as (a6 & -> & R6 & S6). rewrite bind_ret.
  by apply color_shown.
Qed.

Lemma start_shown nl fmt a p rest p1 :
  ready a → shows 80 p (m_vtty a) → started nl fmt p = (rest, p1) → rest ≠ [] →
  ∃ a', printk_start nl fmt a = Done (rest, a') ∧ ready a' ∧ shows 80 p1 (m_vtty a').
Proof.
  intros Hr Hs Hst Hne. unfold printk_start, started in *. destruct nl; [|injection Hst as <- <-; by exists a].
  assert (Hlit : ∀ s, forallb (λ c, (0 <? c) && (c <? 256) && negb (c =? 27)) (lit s) = true → text (lit s) ∧ 27 ∉ lit s).
  { intros s Hb. rewrite forallb_forall in Hb. split.
    - apply Forall_forall. intros x Hx%list_elem_of_In. specialize (Hb x Hx). lia.
    - intros Hx%list_elem_of_In. by specialize (Hb 27 Hx). }
  assert (Hspace : ∃ a', write_str (cstr (lit "  ")) a = Done a' ∧ ready a' ∧ shows 80 (type_all (lit "  ") p) (m_vtty a')).
  { apply lit_shown; [apply Hlit; reflexivity|apply Hlit; reflexivity|done|done]. }
  destruct fmt as [|c fmt]; [injection Hst as <- _; done|]. cbn [deref]. rewrite bind_ret. destruct (Z.eqb_spec c 94) as [->|Hc].
  - destruct fmt as [|m f]; injection Hst as <- <-; [done|]. change ((94 :: m :: f).[1]) with (Done m). rewrite bind_ret.
    assert (Hm : ∃ a', printk_mark m a = Done a' ∧ ready a' ∧ shows 80 (marked m p) (m_vtty a')).
    { unfold printk_mark, marked. repeat (destruct (_ =? _); [apply mark_shown; [repeat (apply Forall_cons; split; [apply Hlit; reflexivity|]); constructor|done|done]|]). by exists a. }
    destruct Hm as (a' & -> & Hr' & Hs'). by exists a'.
  - injection Hst as <- <-. destruct Hspace as (a' & -> & ? & ?). rewrite bind_ret. by exists a'.
Qed.

(** The pieces of a message on paper. *)
Definition put_on (x : piece) (p : paper) : paper := match x with Typed t => type_all t p | Coloured c => recolor c p end.
Definition all_on (ps : list piece) (p : paper) : paper := fold_left (λ p x, put_on x p) ps p.
(** Text without escape characters, and the colours of [ansi_color_t]. *)
Definition printable (x : piece) : Prop := match x with Typed t => 27 ∉ t | Coloured c => ∃ col, c = ansi_code col end.

Lemma pieces_shown ps a p : ready a → shows 80 p (m_vtty a) → Forall printable ps →
  ∃ a', put_pieces ps a = Done a' ∧ ready a' ∧ shows 80 (all_on ps p) (m_vtty a').
Proof.
  intros Hr Hs Hf. revert a p Hr Hs. induction Hf as [|x ps Hx _ IH]; intros a p Hr Hs; [by exists a|]. cbn [put_pieces].
  assert (Ha : ∃ a', put_piece x a = Done a' ∧ ready a' ∧ shows 80 (put_on x p) (m_vtty a')).
  { destruct x as [t|c]; [by apply text_shown|]. destruct Hx as [col ->]. by apply color_shown. }
  destruct Ha as (a' & -> & Hr' & Hs'). rewrite bind_ret. by apply IH.
Qed.

(** A format without [$] and [X] is text only, that of [snprintf]. *)
Lemma pieces_render_loop fuel fmt args t : 36 ∉ fmt → 88 ∉ fmt → render_loop fuel fmt args = Done t →
  ∃ ts, pieces_loop fuel fmt args = Done (Typed <$> ts) ∧ concat ts = t.
Proof.
  revert fmt args t. induction fuel as [|fuel IH]; intros fmt args t; cbn [render_loop]; [done|]. intros N36 N88 He.
  apply bind_Done in He as (c & Hc & He). apply bind_Done in He as ([[t1 fmt1] args1] & H1 & He).
  apply bind_Done in He as (fmt2 & Hi & He). apply bind_Done in He as (c2 & Hc2 & He).
  assert (Hsub : ∀ k f, f = drop k fmt → 36 ∉ f ∧ 88 ∉ f) by (intros k f ->; split; intros (i & Hin)%list_elem_of_lookup; rewrite lookup_drop in Hin; apply list_elem_of_lookup_2 in Hin; done).
  assert (Hk : ∃ k, fmt1 = drop k fmt).
  { destruct (c =? 37); [|injection H1 as <- <- <-; by exists 0%nat]. apply bind_Done in H1 as (f1 & Hf1%incr_drop & H1). apply bind_Done in H1 as ([[[pc pl] sz] f2] & Hdir & H1).
    apply bind_Done in H1 as (c1 & Hc1 & H1). apply bind_Done in H1 as ([t0 args0] & Hconv & [= <- <- <-]).
    destruct (directive_drop _ _ _ _ _ Hdir) as [k ->]. rewrite Hf1, drop_drop. by eexists. }
  assert (Hturn : (if c =? 37 then
           fmt ← incr fmt; '(padchar, padlen, sz, fmt) ← directive fmt; c ← deref fmt;
           '(t, args) ← pieces_conv padchar padlen sz c args; Done (t, fmt, args)
         else Done (Typed [c], fmt, args)) = Done (Typed t1, fmt1, args1)).
  { destruct (c =? 37); [|by injection H1 as <- <- <-]. apply bind_Done in H1 as (f1 & Hf1 & H1). apply bind_Done in H1 as ([[[pc pl] sz] f2] & Hdir & H1).
    apply bind_Done in H1 as (c1 & Hc1 & H1). apply bind_Done in H1 as ([t0 args0] & Hconv & [= <- <- <-]).
    destruct Hk as [k Hk]. destruct (Hsub k _ Hk) as [M36 M88]. assert (Hin : c1 ∈ f2) by (destruct f2; [done|injection Hc1 as ->; left]).
    rewrite Hf1, bind_ret, Hdir, bind_ret, Hc1, bind_ret. unfold pieces_conv. destruct (Z.eqb_spec c1 36) as [->|]; [done|]. destruct (Z.eqb_spec c1 88) as [->|]; [done|].
    by rewrite Hconv. }
  cbn [pieces_loop]. rewrite Hc, bind_ret, Hturn, bind_ret, Hi, bind_ret, Hc2, bind_ret. destruct (c2 =? 0).
  - injection He as <-. exists [t1]. cbn. by rewrite app_nil_r.
  - apply bind_Done in He as (r & Hr & [= <-]). destruct Hk as [k ->]. apply incr_drop in Hi. rewrite drop_drop in Hi. destruct (Hsub _ _ Hi) as [M36 M88].
    destruct (IH _ _ _ M36 M88 Hr) as (ts & -> & <-). by exists (t1 :: ts).
Qed.

(** C16 (functional): a kernel message appears on the screen: after two blanks or the
    coloured mark at the start of a line, [printk] types the text that the format and its
    arguments stand for, in capitals for [%X], and changes the colour at every [%<n>$];
    for a format without [$] and [X] the text is what [snprintf] would store.  The
    screen shows the last 25 lines of everything typed so far.  The widths in the format
    are below 2^31, the string arguments below 2 GiB, the text has no escape character
    and the colours are those of [ansi_color_t]. *)
Theorem printk_on_screen cpu faulted_cpu fmt args nl a p rest p1 ps :
  faulted_cpu = -1 ∨ cpu = faulted_cpu → ready a → shows 80 p (m_vtty a) → started nl fmt p = (rest, p1) →
  pieces rest args = Done ps → widths_ok rest → short_args args → Forall printable ps →
  (∃ nl' a', printk cpu faulted_cpu fmt args (nl, a) = Done (nl', a') ∧ ready a' ∧ shows 80 (all_on ps p1) (m_vtty a')) ∧
  (∀ t, 36 ∉ rest → 88 ∉ rest → render rest args = Done t → all_on ps p1 = type_all t p1).
Proof.
  intros Hf Hr Hs Hst Ht Hp Hsh Hn. split; [|intros t N36 N88 Hrt; destruct (pieces_render_loop _ _ _ _ N36 N88 Hrt) as (ts & Hps & <-);
    unfold pieces in Ht; rewrite Ht in Hps; injection Hps as ->; clear; revert p1; induction ts as [|t ts IH]; intros p1; [done|]; cbn;
    rewrite IH; unfold type_all; by rewrite fold_left_app].
  unfold printk. cbn [fst snd].
  replace (negb (faulted_cpu =? -1) && negb (cpu =? faulted_cpu)) with false by (destruct Hf as [->| ->]; [done|rewrite Z.eqb_refl; by rewrite andb_false_r]).
  destruct (start_shown nl fmt a p rest p1 Hr Hs Hst) as (a1 & -> & Hr1 & Hs1); [by intros ->|]. rewrite bind_ret.
  destruct (printk_loop_pieces (length rest) false rest args ps Ht Hp Hsh) as [nl' ->].
  destruct (pieces_shown ps a1 p1 Hr1 Hs1 Hn) as (a2 & -> & Hr2 & Hs2). rewrite bind_ret. by exists nl', a2.
Qed.

(** *** Any output *)

Definition on_screen (v : TxTTY.TxTTY) : Prop :=
  0 ≤ TxTTY.m_cursorx v < TxTTY.width v ∧ 0 ≤ TxTTY.m_cursory v < TxTTY.height v.

(** A byte is written, and an escape sequence does not move the cursor off the
    screen. *)
Inductive tty_step (a a' : Abstractor) : Prop :=
| tty_byte c : _write c a = Done a' → on_screen (m_vtty a') → tty_step a a'.

Lemma effect_shown v v' : effect v v' → on_screen v' → (∃ p, shows 80 p v) → ∃ p, shows 80 p v'.
Proof.
  intros Hef [Hx Hy] [p Hs]. destruct Hef as [|c v' Hv|c v' Hv|x y]; [by exists p|..].
  - destruct (write_shows 80 c p v Hs) as (v1 & H1 & H2). change (TxTTY._write c v) with (vtty_write c v) in H1. rewrite Hv in H1. injection H1 as <-. by eexists.
  - destruct (color_shows 80 c p v Hs) as (v1 & H1 & H2). change (TxTTY.color c v) with (vtty_color c v) in H1. rewrite Hv in H1. injection H1 as <-. by eexists.
  - destruct Hs as (k & h & Hlen & Hf & Hw & Hh & Ew & Eh & Eo & Hc & Hl & Ex & Ey & E1 & E2). cbn in Hx, Hy.
    exists (TxTTY.mk_paper (TxTTY.lines p) (k + Z.to_nat y) (Z.to_nat x) (TxTTY.p_fg p) (TxTTY.p_bg p)). exists k, h. cbn. split_and!; try done; lia.
Qed.

Lemma screen_rows n out : length out = (n * 80)%nat → ∃ rows : list (list TxTTY.vga_char), length rows = n ∧ Forall (λ l, length l = 80%nat) rows ∧ concat rows = out.
Proof.
  revert out. induction n as [|n IH]; intros out Hl.
  - exists []. destruct out; [done|cbn in Hl; lia].
  - destruct (IH (drop 80 out)) as (rows & H1 & H2 & H3); [rewrite length_drop; lia|]. exists (take 80 out :: rows). cbn [length concat]. rewrite H3, take_drop.
    split_and!; [lia| |done]. constructor; [rewrite length_take; lia|done].
Qed.

Lemma fresh_shown out : length out = 2000%nat → ∃ p, shows 80 p (TxTTY.create out).
Proof.
  intros Hl. destruct (screen_rows 25 out ltac:(lia)) as (rows & H1 & H2 & <-). exists (TxTTY.mk_paper rows 0 0 15 0). exists 0%nat, 25%nat.
  split_and!; try done; cbn; lia.
Qed.

(** C17 (safety): no output harms the kernel: after any bytes, escape sequences cut
    short, with too many or too long arguments included, the next byte is written
    within the screen and within the buffers of the parser, as long as no cursor
    sequence has left the cursor outside the screen. *)
Theorem terminal_writes_safe out a c :
  length out = 2000%nat → rtc tty_step (create (TxTTY.create out)) a → ∃ a', _write c a = Done a' ∧ parser_inv a'.
Proof.
  intros Hl Hst.
  assert (Hok : ∀ c a, parser_inv a → (∃ p, shows 80 p (m_vtty a)) → ∃ a', _write c a = Done a' ∧ parser_inv a' ∧ effect (m_vtty a) (m_vtty a')).
  { intros c0 a0 Hp [p Hs]. apply write_safe; [done|..]; intros c1.
    - destruct (write_shows 80 c1 p _ Hs) as (v & Hv & _). by exists v.
    - destruct (color_shows 80 c1 p _ Hs) as (v & Hv & _). by exists v. }
  assert (Hinv : parser_inv a ∧ ∃ p, shows 80 p (m_vtty a)).
  { remember (create (TxTTY.create out)) as a0 eqn:E.
    assert (H0 : parser_inv a0 ∧ ∃ p, shows 80 p (m_vtty a0)) by (subst a0; split; [by constructor|by apply fresh_shown]). clear E.
    induction Hst as [|x y z [c0 Hc0 Hon] _ IH]; [done|]. apply IH. destruct H0 as [Hp Hs]. destruct (Hok c0 x Hp Hs) as (y' & Hy & Hp' & Hef).
    rewrite Hc0 in Hy. injection Hy as <-. split; [done|]. by apply (effect_shown (m_vtty x)). }
  destruct Hinv as [Hp Hs]. destruct (Hok c a Hp Hs) as (a' & He & Hp' & _). by exists a'.
Qed.

(** The position of a cursor sequence is not compared with the screen, so the next
    character goes outside the video memory. *)
Example cursor_leaves_screen out : length out = 2000%nat →
  write_bytes (27 :: lit "[200;200Hx") (create (TxTTY.create out)) = Fault.
Proof.
  intros Hl.
  assert (Hf : TxTTY._write 120 (TxTTY.mk_tx 80 25 200 200 0 15 out) = Fault).
  { unfold TxTTY._write, wr. change (120 =? 10) with false. change (120 =? 13) with false.
    cbn [TxTTY.m_output TxTTY.m_cursorx TxTTY.m_cursory TxTTY.width]. by rewrite (proj2 (Z.ltb_ge _ _)) by lia. }
  assert (Hm : write_bytes (27 :: lit "[200;200H") (create (TxTTY.create out)) =
    Done (mk_abstractor (TxTTY.mk_tx 80 25 200 200 0 15 out) OUT 0 0 [200; 200; 0; 0; 0; 0; 0; 0] 91 72 (replicate 32 0) (27 :: lit "[200;200H"))) by (vm_compute; reflexivity).
  change (27 :: lit "[200;200Hx") with ((27 :: lit "[200;200H") ++ [120]). rewrite write_bytes_app, Hm, bind_ret. cbn [write_bytes].
  unfold _write. cbn [outb m_state m_vtty Z.eqb Pos.eqb]. change (vtty_write 120) with (TxTTY._write 120). by rewrite Hf.
Qed.

(** *** Witnesses *)

Definition blank_line : list TxTTY.vga_char := replicate 80 (TxTTY.mk_char 32 15 0).
Definition blank_page : paper := TxTTY.mk_paper (replicate 25 blank_line) 0 0 15 0.
Definition root_tty : Abstractor := create (TxTTY.create (concat (replicate 25 blank_line))).

Lemma root_tty_ready : ready root_tty ∧ shows 80 blank_page (m_vtty root_tty).
Proof. split; [done|]. exists 0%nat, 25%nat. cbn [blank_page TxTTY.lines]. split_and!; try done; try (cbn; lia). by apply Forall_replicate. Qed.

Lemma all_on_cons x ps p : all_on (x :: ps) p = all_on ps (put_on x p).
Proof. done. Qed.
Lemma all_on_app ps qs p : all_on (ps ++ qs) p = all_on qs (all_on ps p).
Proof. apply fold_left_app. Qed.
Lemma type_all_app s t p : type_all (s ++ t) p = type_all t (type_all s p).
Proof. apply fold_left_app. Qed.
Lemma typed_on cs p : all_on ((λ c, Typed [c]) <$> cs) p = type_all cs p.
Proof. revert p. induction cs as [|c cs IH]; intros p; [done|]. rewrite fmap_cons, all_on_cons, IH. done. Qed.

(** A message with the mark [OK] at the start of a line, with a number in capitals, a
    colour and a string. *)
Definition demo_pieces : list piece :=
  ((λ c, Typed [c]) <$> lit "at 0x") ++ [Typed (lit "0FED")] ++ Typed [32] :: Coloured 92 :: Typed (lit "all") :: Coloured 97 :: [].
Lemma demo_pieces_on p : all_on demo_pieces p = recolor 97 (type_all (lit "all") (recolor 92 (type_all (lit "at 0x0FED ") p))).
Proof.
  unfold demo_pieces. rewrite !all_on_app, typed_on. generalize (eq_refl (lit "at 0x0FED ")). change (lit "at 0x0FED ") with (lit "at 0x" ++ lit "0FED" ++ [32]) at 1.
  intros <-. by rewrite !all_on_cons, !type_all_app.
Qed.
Lemma printk_on_screen_witness :
  ∃ nl' a', printk 0 (-1) (cstr (lit "^1at 0x%04X %92$%s%$")) [Num 4077; Text 0 (cstr (lit "all"))] (true, root_tty) = Done (nl', a') ∧
    shows 80 (recolor 97 (type_all (lit "all") (recolor 92 (type_all (lit "at 0x0FED ") (marked 49 blank_page))))) (m_vtty a').
Proof.
  destruct (printk_on_screen 0 (-1) (cstr (lit "^1at 0x%04X %92$%s%$")) [Num 4077; Text 0 (cstr (lit "all"))] true root_tty blank_page
    (cstr (lit "at 0x%04X %92$%s%$")) (marked 49 blank_page) demo_pieces) as [(nl' & a' & H1 & _ & H2) _].
  - by left.
  - apply root_tty_ready.
  - apply root_tty_ready.
  - reflexivity.
  - vm_compute. reflexivity.
  - intros k pc pl sz rest.
    do 20 (destruct k as [|k]; [intros Hd; vm_compute in Hd; try discriminate Hd; injection Hd as <- <- <- <-; lia|]). rewrite drop_ge by (cbn; lia). done.
  - repeat constructor.
  - repeat (apply Forall_cons; split; [first [apply (bool_decide_unpack _); vm_compute; exact I|by exists ANSI_FG_LIGHT_GREEN|by exists ANSI_FG_WHITE]|]). constructor.
  - exists nl', a'. split; [exact H1|]. revert H2. rewrite demo_pieces_on. exact id.
Defined.

Lemma terminal_writes_safe_witness : ∃ a', _write 109 root_tty = Done a' ∧ parser_inv a'.
Proof. apply (terminal_writes_safe (concat (replicate 25 blank_line)) root_tty 109); [reflexivity|apply rtc_refl]. Defined.

End Screen.

End Abstractor.

(** ** Input and the character device *)

Module TTYChar.
Import CircularBuffer Input.

(** What a virtual terminal has for its input. *)
Record VTTY_input := mk_vtty { m_inputBuffer : CircularBuffer; m_keymap : list key }.

Definition inputReady : VTTY_input := mk_vtty (CircularBuffer.create 2048) default_keymap.

(** A call of the buffer that finds room does not wait. *)
Definition settled {A} (s : section A) : CircularBuffer := match s with Finished r _ | Waiting r _ _ => r end.

Definition keyPress (e : event) (v : VTTY_input) : outcome VTTY_input :=
  if writeAvailable (m_inputBuffer v) =? 0 then Done v
  else if negb (Z.land (e_mod e) KEYMOD_CTRL =? 0) && ((e_keycode e >=? keycode KEY_A) && (e_keycode e <=? keycode KEY_Z)) then
    s ← CircularBuffer.write (m_inputBuffer v) [1 + (e_keycode e - keycode KEY_A)] false;
    Done (mk_vtty (settled s) (m_keymap v))
  else
    c ← translate (m_keymap v) e;
    if c =? 0 then Done v
    else s ← CircularBuffer.write (m_inputBuffer v) [c] false; Done (mk_vtty (settled s) (m_keymap v)).

(** [tty_loop] until it waits for the next event; [fuel] events at most. *)
Fixpoint tty_loop (fuel : nat) (h : Handle) (v : VTTY_input) : outcome (Handle * VTTY_input) :=
  match fuel with
  | O => Done (h, v)
  | S fuel =>
      '(e, h) ← handle_read h;
      match e with
      | None => Done (h, v)
      | Some e =>
          if negb (Z.land (e_mod e) KEYMOD_RELEASE =? 0) then tty_loop fuel h v
          else v ← keyPress e v; tty_loop fuel h v
      end
  end.

(** [VTTY::read] in the loop of [TTYChar::read], until it waits: the characters so
    far. *)
Fixpoint read (n : nat) (v : VTTY_input) : outcome (list Z * VTTY_input) :=
  match n with
  | O => Done ([], v)
  | S n =>
      s ← CircularBuffer.read (m_inputBuffer v) 1 (-1) false;
      match s with
      | Finished r [c] => '(cs, v) ← read n (mk_vtty r (m_keymap v)); Done (c :: cs, v)
      | Finished r _ | Waiting r _ _ => Done ([], mk_vtty r (m_keymap v))
      end
  end.

(** [TTYChar::write]. *)
Section Output.
Context {T : Type} `{VTTY T}.
Definition write (bs : list Z) (a : Abstractor.Abstractor) : outcome (Z * Abstractor.Abstractor) :=
  a ← Abstractor.write_bytes bs a; Done (Z.of_nat (length bs), a).

(** [ioctl]; [EINVAL] is the error of the optional. *)
Definition ioctl (rq val : Z) (a : Abstractor.Abstractor) : outcome ((error_t + Z) * Abstractor.Abstractor) :=
  let info := vtty_info (Abstractor.m_vtty a) in
  if rq =? 1 then
    if val =? 0 then '(b, v) ← vtty_text (Abstractor.m_vtty a); Done (inr (if b : bool then 0 else -1), Abstractor.set_vtty v a)
    else if val =? 1 then '(b, v) ← vtty_graphics (Abstractor.m_vtty a); Done (inr (if b : bool then 0 else -1), Abstractor.set_vtty v a)
    else Done (inl EINVAL, a)
  else if rq =? 2 then Done (inr (i_width info), a)
  else if rq =? 3 then Done (inr (i_height info), a)
  else if rq =? 4 then Done (inr (gr_width info), a)
  else if rq =? 5 then Done (inr (gr_height info), a)
  else if rq =? 6 then Done (inr (gr_depth info), a)
  else if rq =? 7 then Done (inr (gr_bytes info), a)
  else Done (inl EINVAL, a).
End Output.

(** [open] and [close]: nothing is ever pushed on [m_stack]. *)
Record device := mk_dev { m_stack : list Z; m_current : option Z; m_closed : bool }.
Definition open (handle : Z) (d : device) : error_t * device := (ENONE, mk_dev (m_stack d) (Some handle) (m_closed d)).
Fixpoint erase_first (handle : Z) (l : list Z) : list Z :=
  match l with [] => [] | h :: l => if h =? handle then l else h :: erase_first handle l end.
Definition close (handle : Z) (d : device) : error_t * device :=
  if m_closed d then (EINVAL, d)
  else let l := erase_first handle (m_stack d) in (ENONE, mk_dev l (head l) true).

(** Once a handle was closed no other can be: [m_closed] belongs to the device. *)
Lemma second_close_fails h1 h2 d : m_closed d = false → (close h2 (close h1 d).2).1 = EINVAL.
Proof. intros Hd. unfold close. by rewrite Hd. Qed.

(** *** From the keyboard to the reader *)

Lemma handle_read_event o e rest :
  wf (m_buffer o) → contents (m_buffer o) = event_bytes e ++ rest →
  ∃ o', handle_read o = Done (Some e, o') ∧ wf (m_buffer o') ∧ contents (m_buffer o') = rest.
Proof.
  intros Hw Hc. unfold handle_read. destruct (MessageQueue.read_now (m_buffer o) (event_bytes e) rest false Hw Hc) as (r & Hr & Hw' & _ & Hc').
  change (Z.of_nat (length (event_bytes e))) with 2 in Hr. rewrite Hr, bind_ret. eexists. split; [by destruct e|]. done.
Qed.

Lemma handle_read_empty o : wf (m_buffer o) → contents (m_buffer o) = [] → ∃ o', handle_read o = Done (None, o').
Proof.
  intros Hw Hc. unfold handle_read. destruct (read_correct (m_buffer o) 2 (-1) false Hw ltac:(lia)) as (r & _ & _ & ->).
  rewrite Hc. change (2 `min` Z.of_nat (length (@nil Z))) with 0. 
  unfold read_result. rewrite bind_ret. change (take (Z.to_nat 0) (@nil Z)) with (@nil Z). destruct (_ && _); by eexists.
Qed.

Lemma keyPress_char e c v :
  wf (m_inputBuffer v) → Z.land (e_mod e) KEYMOD_CTRL = 0 → translate (m_keymap v) e = Done c →
  (c ≠ 0 → Z.of_nat (length (contents (m_inputBuffer v))) < m_size (m_inputBuffer v) - 1) →
  ∃ v', keyPress e v = Done v' ∧ wf (m_inputBuffer v') ∧ m_keymap v' = m_keymap v ∧ m_size (m_inputBuffer v') = m_size (m_inputBuffer v) ∧
    contents (m_inputBuffer v') = contents (m_inputBuffer v) ++ (if c =? 0 then [] else [c]).
Proof.
  intros Hw Hctrl Ht Hroom. unfold keyPress. rewrite writeAvailable_eq by done. rewrite Hctrl. cbn [Z.eqb negb andb]. rewrite Ht, bind_ret.
  destruct (Z.eqb_spec c 0) as [->|Hc].
  { destruct (_ =? 0); exists v; by rewrite app_nil_r. }
  specialize (Hroom Hc). destruct (Z.eqb_spec (m_size (m_inputBuffer v) - 1 - Z.of_nat (length (contents (m_inputBuffer v)))) 0); [lia|].
  destruct (MessageQueue.write_now (m_inputBuffer v) [c] false Hw ltac:(cbn; lia)) as (n0 & r & -> & Hw' & Hs & Hc'). rewrite bind_ret. eexists. split; [reflexivity|]. done.
Qed.

Lemma tty_loop_types evs cs h v :
  wf (m_buffer h) → contents (m_buffer h) = concat (event_bytes <$> evs) → wf (m_inputBuffer v) → typed evs = Done cs → m_keymap v = default_keymap →
  Forall (λ e, Z.land (e_mod e) KEYMOD_CTRL = 0) evs →
  Z.of_nat (length (contents (m_inputBuffer v))) + Z.of_nat (length cs) ≤ m_size (m_inputBuffer v) - 1 →
  ∃ h' v', tty_loop (S (length evs)) h v = Done (h', v') ∧ wf (m_inputBuffer v') ∧ contents (m_inputBuffer v') = contents (m_inputBuffer v) ++ cs.
Proof.
  intros Hh Hc Hv Ht Hk Hf. revert h v cs Hh Hc Hv Ht Hk. induction Hf as [|e evs He _ IH]; intros h v cs Hh Hc Hv Ht Hk Hroom; cbn [length tty_loop].
  - injection Ht as <-. destruct (handle_read_empty h Hh Hc) as [h' ->]. rewrite bind_ret. exists h', v. by rewrite app_nil_r.
  - destruct (handle_read_event h e (concat (fmap (M := list) event_bytes evs)) Hh Hc) as (h1 & -> & Hh1 & Hc1). rewrite bind_ret. cbn [typed] in Ht.
    destruct (negb (Z.land (e_mod e) KEYMOD_RELEASE =? 0)); [by apply (IH h1)|].
    apply bind_Done in Ht as (c & Htr & Ht). apply bind_Done in Ht as (cs' & Ht & [= <-]).
    destruct (keyPress_char e c v Hv He) as (v1 & -> & Hw1 & Hk1 & Hs1 & Hct1).
    { by rewrite Hk. }
    { intros Hc0. destruct (Z.eqb_spec c 0); [done|]. cbn in Hroom. lia. }
    rewrite bind_ret. destruct (IH h1 v1 cs' Hh1 Hc1 Hw1 Ht) as (h' & v' & He' & Hw' & Hct').
    { by rewrite Hk1. }
    { rewrite Hct1, length_app, Hs1. destruct (Z.eqb_spec c 0); cbn in *; lia. }
    exists h', v'. split; [exact He'|]. split; [done|]. rewrite Hct', Hct1, <-app_assoc. by destruct (c =? 0).
Qed.

Lemma read_all cs rest v :
  wf (m_inputBuffer v) → contents (m_inputBuffer v) = cs ++ rest → ∃ v', read (length cs) v = Done (cs, v') ∧ contents (m_inputBuffer v') = rest.
Proof.
  revert v. induction cs as [|c cs IH]; intros v Hw Hc; cbn [length read]; [by exists v|].
  destruct (MessageQueue.read_now (m_inputBuffer v) [c] (cs ++ rest) false Hw Hc) as (r & Hr & Hw' & _ & Hc').
  change (Z.of_nat (length [c])) with 1 in Hr. rewrite Hr, bind_ret. destruct (IH (mk_vtty r (m_keymap v)) Hw' Hc') as (v' & -> & Hv'). rewrite bind_ret. by exists v'.
Qed.

(** C15 (functional): what is typed is read: the scan codes that a US keyboard sends for a
    text (set 2, with the left shift key around a character that needs it) go through the
    keyboard interrupt, the events of its keys through the handle of the terminal
    thread, and a read of the terminal device returns the text.  This holds for all
    printable characters, with no key down and caps lock off before, as long as the
    buffers have room. *)
Theorem typed_text_read text s h o v :
  input_inv s → mute s = quiet (num_lock s) → handles s = [h] → objects s !! h = Some o → contents (m_buffer o) = [] → Forall (.∈ typeable) text →
  let bs := concat (scan <$> text) in
  2 * Z.of_nat (length bs) ≤ m_size (m_buffer o) - 1 →
  wf (m_inputBuffer v) → m_keymap v = default_keymap → contents (m_inputBuffer v) = [] → Z.of_nat (length text) ≤ m_size (m_inputBuffer v) - 1 →
  ∃ s' o' o'' v' v'' n, irqs bs (idle, s) = Done (idle, s') ∧ mute s' = mute s ∧ objects s' !! h = Some o' ∧
    tty_loop n o' v = Done (o'', v') ∧ read (length text) v' = Done (text, v'') ∧ contents (m_inputBuffer v'') = [].
Proof.
  intros Hi Hm Hh Ho Hempty Ht bs Hroom Hv Hk Hve Hvr.
  destruct (typed_text_arrives text s h o Hi Hm Hh Ho Ht) as (s' & o' & evs & He & Hm' & Ho' & Hw' & Hc' & Hty & Hf); [rewrite Hempty; cbn [length]; fold bs; lia|].
  rewrite Hempty in Hc'. destruct (tty_loop_types evs text o' v Hw' Hc' Hv Hty Hk Hf) as (o'' & v' & Hl & Hwv & Hcv); [rewrite Hve; cbn; lia|].
  rewrite Hve in Hcv. destruct (read_all text [] v' Hwv) as (v'' & Hr & Hr'); [by rewrite app_nil_r|].
  exists s', o', o'', v', v'', (S (length evs)). done.
Qed.

(** "Hi!" *)
Lemma typed_text_read_witness :
  ∃ s' o' o'' v' v'' n, irqs (concat (scan <$> [72; 105; 33])) (idle, listening) = Done (idle, s') ∧ objects s' !! 0%nat = Some o' ∧
    tty_loop n o' inputReady = Done (o'', v') ∧ read 3 v' = Done ([72; 105; 33], v'').
Proof.
  destruct (typed_text_read [72; 105; 33] listening 0%nat (mk_handle (CircularBuffer.create 1024) true) inputReady)
    as (s' & o' & o'' & v' & v'' & n & H1 & _ & H2 & H3 & H4 & _).
  - exact listening_inv.
  - reflexivity.
  - reflexivity.
  - reflexivity.
  - apply (create_wf 1024). lia.
  - repeat constructor; apply list_elem_of_In; vm_compute; tauto.
  - vm_compute. discriminate.
  - apply (create_wf 2048). lia.
  - reflexivity.
  - apply (create_wf 2048). lia.
  - vm_compute. discriminate.
  - exists s', o', o'', v', v'', n. split; [exact H1|]. split; [exact H2|]. split; [exact H3|exact H4].
Defined.

End TTYChar.
