(* ===== verification/Thread.v ===== *)
(** * Threads: exit, join, detach and abort

    [proc/thread.cpp].  The functions run under the lock of the thread they are
    about, which the scheduler holds while that thread runs, so each is one step
    between its yields; [join] is cut at its yield.  A call is made by the thread
    [me].  A [yield] itself changes nothing here.  A pending signal is kept
    as the action the process has for it; the frame of a handler is in Signal.  Stacks,
    contexts and thread-local storage are not modelled. *)
From S2P Require Import Prelude Locks Event.
From stdpp Require Import gmap.
Local Open Scope Z_scope.

Module Life.
Import Threads.

Inductive error_t := ENONE | EINVAL | EDEADLK | EINTR.

(** What the process does with a signal. *)
Inductive sig_action := SIG_TERM | SIG_IGN | SIG_CORE | SIG_STOP | SIG_CONT | SIG_USER.
#[global] Instance sig_action_eq_dec : EqDecision sig_action.
Proof. solve_decision. Defined.

(** [Thread::state]. *)
Record state := mk_state { st_busy : Z; st_critical : Z; st_status : status_t }.

(** [joining] are the locals of a [join] that waits: the thread joined and the
    saved state. *)
Record Thread := mk_thread {
  status : status_t;
  m_busy : Z;
  m_critical : Z;
  m_joiner : option Z;
  m_detached : bool;
  m_aborting : bool;
  pending_signals : list sig_action;
  in_signal : bool;
  joining : option (Z * state);
}.

(** The threads of a process, its [thread_counter], the threads [finish] took off
    the lists and gave to the broker, and the calls of [parent->exit]. *)
Record process := mk_process {
  threads : gmap Z Thread;
  thread_counter : Z;
  finished : list Z;
  exits : Z;
}.

Abbreviation M := (stateM process).

Definition set_status (st : status_t) (t : Thread) : Thread :=
  mk_thread st (m_busy t) (m_critical t) (m_joiner t) (m_detached t) (m_aborting t) (pending_signals t) (in_signal t) (joining t).
Definition set_counts (busy critical : Z) (t : Thread) : Thread :=
  mk_thread (status t) busy critical (m_joiner t) (m_detached t) (m_aborting t) (pending_signals t) (in_signal t) (joining t).
Definition set_joiner (j : option Z) (t : Thread) : Thread :=
  mk_thread (status t) (m_busy t) (m_critical t) j (m_detached t) (m_aborting t) (pending_signals t) (in_signal t) (joining t).
Definition set_detached (t : Thread) : Thread :=
  mk_thread (status t) (m_busy t) (m_critical t) (m_joiner t) true (m_aborting t) (pending_signals t) (in_signal t) (joining t).
Definition set_aborting (t : Thread) : Thread :=
  mk_thread (status t) (m_busy t) (m_critical t) (m_joiner t) (m_detached t) true (pending_signals t) (in_signal t) (joining t).
Definition set_signals (l : list sig_action) (b : bool) (t : Thread) : Thread :=
  mk_thread (status t) (m_busy t) (m_critical t) (m_joiner t) (m_detached t) (m_aborting t) l b (joining t).
Definition set_joining (j : option (Z * state)) (t : Thread) : Thread :=
  mk_thread (status t) (m_busy t) (m_critical t) (m_joiner t) (m_detached t) (m_aborting t) (pending_signals t) (in_signal t) j.

Definition set_threads (m : gmap Z Thread) (s : process) : process := mk_process m (thread_counter s) (finished s) (exits s).

Definition get_thread (p : Z) : M Thread := λ s, match threads s !! p with Some t => Done (t, s) | None => Fault end.
Definition upd (p : Z) (f : Thread → Thread) : M unit := λ s,
  match threads s !! p with Some t => Done (tt, set_threads (<[p := f t]> (threads s)) s) | None => Fault end.

Definition addBusy (p : Z) : M unit := upd p (λ t, set_counts (u16 (m_busy t + 1)) (m_critical t) t).
Definition addCritical (p : Z) : M unit := upd p (λ t, set_counts (u16 (m_busy t + 1)) (u16 (m_critical t + 1)) t).
Definition subCritical (p : Z) : M unit := upd p (λ t, set_counts (u16 (m_busy t - 1)) (u16 (m_critical t - 1)) t).
Definition isBusy (t : Thread) : bool := m_busy t >? 0.
Definition interrupted (t : Thread) : bool := m_aborting t || (Z.of_nat (length (pending_signals t)) >? 0) && negb (in_signal t).

Definition setStatus (p : Z) (st : status_t) : M unit :=
  upd p (set_status st);;
  t ← get_thread p;
  when (bool_decide (st = TS_DEAD)) (lift (aex_assert (m_busy t <=? 1))).

Definition saveState (t : Thread) : state := mk_state (m_busy t) (m_critical t) (status t).
Definition loadState (p : Z) (st : state) : M unit :=
  upd p (λ t, set_status (st_status st) (set_counts (st_busy st) (st_critical st) t)).

(** [start]. *)
Definition start (p : Z) : M error_t :=
  t ← get_thread p;
  when (bool_decide (status t = TS_FRESH)) (upd p (set_status TS_RUNNABLE));;
  mret ENONE.

Definition finish (me p : Z) : M unit :=
  addCritical me;;
  t ← get_thread p;
  lift (aex_assert (bool_decide (status t = TS_DEAD)));;
  modify (λ s, mk_process (threads s) (thread_counter s) (finished s ++ [p]) (if thread_counter s =? 1 then exits s + 1 else exits s));;
  subCritical me.

(** [broker_cleanup] and [~Thread]. *)
Definition cleanup (p : Z) : M unit :=
  modify (λ s, mk_process (threads s) (i32 (thread_counter s - 1)) (finished s) (exits s)).

Definition wake_joiner (j : Z) : M unit := setStatus j TS_RUNNABLE.

(** The part of [_abort] before it looks at who waits: whether it goes on. *)
Definition mark_aborting (p : Z) (force : bool) : M bool :=
  upd p set_aborting;;
  when force (upd p set_detached);;
  t ← get_thread p; mret (negb (isBusy t)).

(** [Thread::exit] by [me]: [true] when the thread is gone, [false] when it is
    busy, which makes [_abort] return after the marks. *)
Definition exit (me : Z) : M bool :=
  t ← get_thread me;
  lift (aex_assert (Z.of_nat (length (pending_signals t)) =? 0));;
  if isBusy t then mark_aborting me false;; mret false
  else
    addCritical me;;
    setStatus me TS_DEAD;;
    t ← get_thread me;
    n ← gets thread_counter;
    match m_joiner t with
    | Some j => wake_joiner j
    | None => if m_detached t || (n =? 1) then finish me me else mret tt
    end;;
    subCritical me;;
    mret true.

Definition push_signal (p : Z) (a : sig_action) : M unit := upd p (λ t, set_signals (pending_signals t ++ [a]) (in_signal t) t).

(** [handleSignal] of the thread [p]; [current] is [Thread::current() == this].  Another
    caller has taken the lock of [p] already. *)
Definition handleSignal (current : bool) (p : Z) (a : sig_action) : M unit :=
  match a with
  | SIG_CORE | SIG_TERM => modify (λ s, mk_process (threads s) (thread_counter s) (finished s) (exits s + 1))
  | SIG_STOP | SIG_CONT => lift (Panic "Not implemented")
  | SIG_USER =>
      when (negb current) (lift (spin_acquire true);; mret tt);;
      t ← get_thread p;
      if (m_busy t =? 0) && negb (in_signal t) then upd p (λ t, set_status TS_RUNNABLE (set_signals (pending_signals t) true t))
      else push_signal p a
  | SIG_IGN => mret tt
  end.

(** [subBusy] of [p]: [true] when the thread exits. *)
Definition subBusy_of (current : bool) (p : Z) : M bool :=
  upd p (λ t, set_counts (u16 (m_busy t - 1)) (m_critical t) t);;
  t ← get_thread p;
  if negb (m_busy t =? 0) then mret false
  else
    gone ← (if current && m_aborting t then exit p else mret false);
    if gone : bool then mret true
    else
      addCritical p;;
      t ← get_thread p;
      match last (pending_signals t) with
      | Some a =>
          upd p (λ t, set_signals (take (length (pending_signals t) - 1) (pending_signals t)) (in_signal t) t);;
          subCritical p;;
          handleSignal current p a;;
          mret false
      | None => subCritical p;; mret false
      end.
Definition subBusy (me : Z) : M bool := subBusy_of true me.

(** [Thread::signal] of [p] by [me]. *)
Definition signal (me p : Z) (a : sig_action) : M unit :=
  when (p =? me) (addCritical me);;
  t ← get_thread p;
  (if isBusy t then push_signal p a else handleSignal (p =? me) p a);;
  when (p =? me) (subCritical me).

(** [sigret], a system call of [me], which the broker carries out. *)
Definition sigret (me : Z) : M error_t :=
  t ← get_thread me;
  if negb (in_signal t) then mret EINVAL
  else
    addBusy me;;
    subBusy_of false me;;
    upd me (λ t, set_signals (pending_signals t) false t);;
    mret ENONE.

Definition _abort (me p : Z) (force : bool) : M unit :=
  go ← mark_aborting p force;
  if (go : bool) then
    t ← get_thread p;
    match m_joiner t with
    | Some j => wake_joiner j
    | None =>
        if m_detached t then
          addBusy me;;
          setStatus p TS_DEAD;;
          finish me p;;
          subBusy me;; mret tt
        else mret tt
    end
  else mret tt.

Definition detach (me p : Z) : M error_t :=
  t ← get_thread p;
  if m_detached t || bool_decide (is_Some (m_joiner t)) then mret EINVAL
  else
    (if bool_decide (status t = TS_DEAD) then finish me p else mret tt);;
    upd p set_detached;;
    mret ENONE.

(** [join] up to its yield: [inl] returns, [inr] waits. *)
Definition join (me p : Z) : M (error_t + unit) :=
  t ← get_thread p;
  if m_detached t || bool_decide (is_Some (m_joiner t)) then mret (inl EINVAL)
  else
    c ← get_thread me;
    if (p =? me) || bool_decide (m_joiner c = Some p) then mret (inl EDEADLK)
    else
      addBusy me;;
      if bool_decide (status t = TS_DEAD) then finish me p;; subBusy me;; mret (inl ENONE)
      else
        c ← get_thread me;
        upd p (set_joiner (Some me));;
        setStatus me TS_BLOCKED;;
        upd me (set_joining (Some (p, saveState c)));;
        mret (inr tt).

(** The rest of [join], when [me] runs again. *)
Definition join_woken (me p : Z) (st : state) : M error_t :=
  upd me (set_joining None);;
  c ← get_thread me;
  if interrupted c then
    upd p (set_joiner None);;
    t ← get_thread p;
    (if bool_decide (status t = TS_DEAD) then finish me p
     else if m_aborting c then upd p set_detached else mret tt);;
    loadState me st;;
    subBusy me;;
    mret EINTR
  else
    t ← get_thread p;
    lift (aex_assert (negb (m_detached t)));;
    lift (aex_assert (bool_decide (status c = TS_RUNNABLE)));;
    finish me p;;
    loadState me st;;
    subBusy me;;
    mret ENONE.

(** A thread as [create] and [start] leave it. *)
Definition fresh : Thread := mk_thread TS_RUNNABLE 0 0 None false false [] false None.
Definition create (p : Z) (s : process) : process :=
  mk_process (<[p := fresh]> (threads s)) (i32 (thread_counter s + 1)) (finished s) (exits s).

(** ** Any interleaving

    Threads of a process create threads, exit, join and detach each other, send signals
    and return from handlers; nobody uses a thread that was given to the broker, and a
    call is made by a thread that is in no other one.  A thread that waits in [join] runs
    again when it is runnable or interrupted. *)

(** [me] runs, outside of any call. *)
Definition running (s : process) (me : Z) : Prop :=
  ∃ t, threads s !! me = Some t ∧ status t = TS_RUNNABLE ∧ joining t = None.

Inductive step : process → process → Prop :=
  | step_create s p : threads s !! p = None → step s (create p s)
  | step_exit s s' me b : running s me → exit me s = Done (b, s') → step s s'
  | step_join s s' me p r : running s me → p ∉ finished s → join me p s = Done (r, s') → step s s'
  | step_woken s s' me t p st e :
      threads s !! me = Some t → joining t = Some (p, st) → status t = TS_RUNNABLE ∨ interrupted t = true →
      join_woken me p st s = Done (e, s') → step s s'
  | step_detach s s' me p e : running s me → p ∉ finished s → detach me p s = Done (e, s') → step s s'
  | step_signal s s' me p t a :
      running s me → threads s !! p = Some t → status t ≠ TS_DEAD → signal me p a s = Done (tt, s') → step s s'
  | step_sigret s s' me e : running s me → sigret me s = Done (e, s') → step s s'
  | step_cleanup s s' p : p ∈ finished s → cleanup p s = Done (tt, s') → step s s'.

Definition init : process := mk_process {[0 := fresh]} 1 [] 0.

(** *** What each call does *)

Lemma upd_run p f s t : threads s !! p = Some t → upd p f s = Done (tt, set_threads (<[p := f t]> (threads s)) s).
Proof. intros Ht. unfold upd. by rewrite Ht. Qed.
Lemma get_run p s t : threads s !! p = Some t → get_thread p s = Done (t, s).
Proof. intros Ht. unfold get_thread. by rewrite Ht. Qed.
Lemma lift_run {A} (a : A) (s : process) : lift (Done a) s = Done (a, s).
Proof. done. Qed.

Lemma setStatus_run p st s t :
  threads s !! p = Some t → (st = TS_DEAD → m_busy t ≤ 1) →
  setStatus p st s = Done (tt, set_threads (<[p := set_status st t]> (threads s)) s).
Proof.
  intros Ht Hb. unfold setStatus. rewrite run_bind, (upd_run _ _ _ _ Ht). cbn [fst snd]. rewrite run_bind.
  rewrite (get_run p _ (set_status st t)) by (cbn; by rewrite lookup_insert_eq). cbn [fst snd m_busy set_status].
  case_bool_decide as Hd; [|done]. cbn [when]. by rewrite (proj2 (Z.leb_le _ _)) by auto.
Qed.

(** The critical section of [finish] leaves the counters as they were. *)
Lemma finish_run me p s c t :
  threads s !! me = Some c → 0 ≤ m_busy c < 2 ^ 16 - 1 → 0 ≤ m_critical c < 2 ^ 16 - 1 → threads s !! p = Some t → status t = TS_DEAD →
  finish me p s = Done (tt, mk_process (threads s) (thread_counter s) (finished s ++ [p]) (if thread_counter s =? 1 then exits s + 1 else exits s)).
Proof.
  intros Hc Hb Hcr Ht Hd. unfold finish, addCritical. rewrite run_bind, (upd_run _ _ _ _ Hc). cbn [fst snd]. rewrite !wrap_small by lia. rewrite run_bind.
  destruct (decide (p = me)) as [->|Hne].
  - rewrite Hc in Ht. injection Ht as ->.
    rewrite (get_run me _ (set_counts (m_busy t + 1) (m_critical t + 1) t)) by (cbn; by rewrite lookup_insert_eq).
    cbn [fst snd status set_counts]. rewrite bool_decide_true by done. rewrite run_bind. cbn [aex_assert]. rewrite lift_run. cbn [fst snd]. rewrite run_bind. cbn [modify fst snd].
    unfold subCritical. erewrite upd_run by (cbn; by rewrite lookup_insert_eq). cbn [threads set_threads thread_counter finished exits m_busy m_critical set_counts fst snd].
    rewrite insert_insert_eq, !wrap_small by lia.
    rewrite insert_id; [done|]. rewrite Hc, !Z.add_simpl_r. by destruct t.
  - rewrite (get_run p _ t) by (cbn; by rewrite lookup_insert_ne). cbn [fst snd]. rewrite bool_decide_true by done. rewrite run_bind. cbn [aex_assert]. rewrite lift_run. cbn [fst snd].
    rewrite run_bind. cbn [modify fst snd]. unfold subCritical. erewrite upd_run by (cbn; by rewrite lookup_insert_eq). cbn [threads set_threads thread_counter finished exits m_busy m_critical set_counts fst snd].
    rewrite insert_insert_eq, !wrap_small by lia. rewrite insert_id; [done|]. rewrite Hc, !Z.add_simpl_r. by destruct c.
Qed.

Definition with_finished (p : Z) (s : process) : process :=
  mk_process (threads s) (thread_counter s) (finished s ++ [p]) (if thread_counter s =? 1 then exits s + 1 else exits s).

(** A thread that exits: its joiner is woken, or it is finished, or it stays. *)
Lemma exit_run me s t :
  threads s !! me = Some t → m_busy t = 0 → m_critical t = 0 → pending_signals t = [] →
  match m_joiner t with
  | Some j => ∀ u, j ≠ me → threads s !! j = Some u →
      exit me s = Done (true, set_threads (<[me := set_status TS_DEAD t]> (<[j := set_status TS_RUNNABLE u]> (threads s))) s)
  | None =>
      exit me s = Done (true, let s' := set_threads (<[me := set_status TS_DEAD t]> (threads s)) s in
        if m_detached t || (thread_counter s =? 1) then with_finished me s' else s')
  end.
Proof.
  intros Ht Hb Hcr Hp.
  assert (Hhead : exit me s =
    (match m_joiner t with
     | Some j => wake_joiner j
     | None => if m_detached t || (thread_counter s =? 1) then finish me me else mret tt
     end;; subCritical me;; mret true) (set_threads (<[me := set_status TS_DEAD (set_counts 1 1 t)]> (threads s)) s)).
  { unfold exit. rewrite run_bind, (get_run _ _ _ Ht). cbn [fst snd]. rewrite Hp. change (Z.of_nat (length (@nil sig_action)) =? 0) with true. cbn [aex_assert]. rewrite run_bind, lift_run. cbn [fst snd].
    unfold isBusy. rewrite Hb. cbn [Z.gtb Z.compare]. rewrite run_bind. unfold addCritical. rewrite (upd_run _ _ _ _ Ht). cbn [fst snd]. rewrite Hb, Hcr.
    change (u16 (0 + 1)) with 1. rewrite run_bind.
    rewrite (setStatus_run me TS_DEAD _ (set_counts 1 1 t)); [|cbn; by rewrite lookup_insert_eq|done]. cbn [fst snd].
    rewrite run_bind. erewrite get_run by (cbn; by rewrite lookup_insert_eq). cbn [fst snd m_joiner m_detached set_status set_counts].
    rewrite run_bind. cbn [gets fst snd thread_counter set_threads threads]. by rewrite insert_insert_eq. }
  rewrite Hhead. clear Hhead.
  assert (Hsub : ∀ m s0, threads s0 = <[me := set_status TS_DEAD (set_counts 1 1 t)]> m →
    (subCritical me;; mret true) s0 = Done (true, set_threads (<[me := set_status TS_DEAD t]> m) s0)).
  { intros m s0 Hm. rewrite run_bind. unfold subCritical. erewrite upd_run by (rewrite Hm; by rewrite lookup_insert_eq). cbn. rewrite Hm, insert_insert_eq.
    change (u16 (1 - 1)) with 0. do 4 f_equal. destruct t; cbn in *. by subst. }
  destruct (m_joiner t) as [j|] eqn:Hj.
  - intros u Hne Hu. rewrite run_bind. unfold wake_joiner.
    rewrite (setStatus_run j TS_RUNNABLE _ u); [|cbn; by rewrite lookup_insert_ne|done]. cbn [fst snd].
    rewrite (Hsub (<[j := set_status TS_RUNNABLE u]> (threads s))); [|cbn; by rewrite insert_insert_ne]. done.
  - rewrite run_bind. destruct (m_detached t || (thread_counter s =? 1)) eqn:E.
    + rewrite (finish_run me me _ (set_status TS_DEAD (set_counts 1 1 t)) (set_status TS_DEAD (set_counts 1 1 t)));
        [|cbn; by rewrite ?lookup_insert_eq| done |done|cbn; by rewrite ?lookup_insert_eq|done].
      cbn [fst snd]. rewrite (Hsub (threads s)); done.
    + cbn [fst snd mret stateM_ret]. by rewrite (Hsub (threads s)).
Qed.

(** A thread outside of any call. *)
Definition calm (t : Thread) : Prop := m_busy t = 0 ∧ m_critical t = 0 ∧ m_aborting t = false.

Lemma counts_same t : m_busy t = 0 → m_critical t = 0 → set_counts 0 0 t = t.
Proof. destruct t; cbn. by intros -> ->. Qed.

Definition but_last (l : list sig_action) : list sig_action := take (length l - 1) l.
Lemma but_last_snoc l a : last l = Some a → but_last l ++ [a] = l.
Proof. intros (l' & ->)%last_Some. unfold but_last. rewrite length_app. cbn. by rewrite Nat.add_sub, take_app_length. Qed.

(** What [subBusy] makes of the signals of a thread at the end of its call: the latest one
    is taken, and put back when a handler runs already. *)
Definition take_signal (t : Thread) : list sig_action * bool * Z :=
  match last (pending_signals t) with
  | Some SIG_USER => if in_signal t then (pending_signals t, true, 0) else (but_last (pending_signals t), true, 0)
  | Some (SIG_TERM | SIG_CORE) => (but_last (pending_signals t), in_signal t, 1)
  | Some _ => (but_last (pending_signals t), in_signal t, 0)
  | None => (pending_signals t, in_signal t, 0)
  end.
Definition handled (me : Z) (s : process) : process :=
  match threads s !! me with
  | Some t => let '(l, b, n) := take_signal t in mk_process (<[me := set_signals l b t]> (threads s)) (thread_counter s) (finished s) (exits s + n)
  | None => s
  end.
(** The signal that is next has an action that is not implemented. *)
Definition stops (t : Thread) : bool := match last (pending_signals t) with Some (SIG_STOP | SIG_CONT) => true | _ => false end.
(** The end of a call of the thread that is [t] then. *)
Definition ends {R} (me : Z) (t : Thread) (r : R) (s : process) : outcome (R * process) := if stops t then Panic "Not implemented" else Done (r, handled me s).

Lemma set_signals_same t : set_signals (pending_signals t) (in_signal t) t = t.
Proof. by destruct t. Qed.

(** [subBusy] at the end of the only call the thread is in. *)
Lemma subBusy_run me s t :
  threads s !! me = Some t → m_busy t = 1 → m_critical t = 0 → m_aborting t = false → status t = TS_RUNNABLE →
  subBusy me s = ends me t false (set_threads (<[me := set_counts 0 0 t]> (threads s)) s).
Proof.
  intros Ht Hb Hcr Ha Hs. unfold subBusy, subBusy_of. rewrite run_bind, (upd_run _ _ _ _ Ht). cbn [fst snd]. rewrite Hb, Hcr. change (u16 (1 - 1)) with 0.
  rewrite run_bind. erewrite get_run by (cbn; by rewrite lookup_insert_eq). cbn [fst snd m_busy set_counts m_aborting]. cbn [Z.eqb negb]. rewrite Ha. cbn [andb]. rewrite run_bind. cbn [mret stateM_ret fst snd].
  rewrite run_bind. unfold addCritical. erewrite upd_run by (cbn; by rewrite lookup_insert_eq). cbn [fst snd set_threads threads thread_counter finished exits m_busy m_critical set_counts].
  rewrite insert_insert_eq. change (u16 (0 + 1)) with 1. rewrite run_bind. erewrite get_run by (cbn; by rewrite lookup_insert_eq). cbn [fst snd pending_signals set_counts].
  unfold ends, stops, handled. cbn [set_threads threads]. rewrite lookup_insert_eq. unfold take_signal. cbn [pending_signals in_signal set_counts].
  destruct (last (pending_signals t)) as [a|] eqn:El.
  2:{ unfold subCritical. rewrite run_bind. erewrite upd_run by (cbn; by rewrite lookup_insert_eq). cbn [fst snd set_threads threads thread_counter finished exits m_busy m_critical set_counts mret stateM_ret].
      change (u16 (1 - 1)) with 0. rewrite !insert_insert_eq, Z.add_0_r. done. }
  rewrite run_bind. erewrite upd_run by (cbn; by rewrite lookup_insert_eq). cbn [fst snd set_threads threads thread_counter finished exits]. rewrite insert_insert_eq, run_bind. unfold subCritical.
  erewrite upd_run by (cbn; by rewrite lookup_insert_eq). cbn [fst snd set_threads threads thread_counter finished exits m_busy m_critical set_counts set_signals pending_signals in_signal].
  change (u16 (1 - 1)) with 0. rewrite insert_insert_eq, run_bind. fold (but_last (pending_signals t)).
  assert (Hins : ∀ l b n, mk_process (<[me := set_signals l b (set_counts 0 0 t)]> (<[me := set_counts 0 0 t]> (threads s))) (thread_counter s) (finished s) n =
    mk_process (<[me := set_signals l b (set_counts 0 0 t)]> (threads s)) (thread_counter s) (finished s) n) by (intros; by rewrite insert_insert_eq).
  destruct a; [by rewrite Hins|by rewrite Hins, Z.add_0_r|by rewrite Hins|done|done|]. unfold handleSignal. rewrite run_bind. cbn [negb when mret stateM_ret fst snd].
  rewrite run_bind. erewrite get_run by (cbn; by rewrite lookup_insert_eq). cbn [fst snd m_busy set_counts set_signals in_signal]. cbn [Z.eqb andb].
  destruct (in_signal t) eqn:Ein; cbn [negb]; rewrite Hins, Z.add_0_r.
  - unfold push_signal. erewrite upd_run by (cbn; by rewrite lookup_insert_eq). cbn [fst snd mret stateM_ret pending_signals set_counts set_signals set_threads threads]. rewrite insert_insert_eq, but_last_snoc by done.
    cbn [in_signal]. done.
  - erewrite upd_run by (cbn; by rewrite lookup_insert_eq). cbn [fst snd mret stateM_ret pending_signals set_counts set_signals set_threads threads]. rewrite insert_insert_eq. cbn. unfold set_signals, set_status, set_counts, set_threads. cbn. by rewrite Hs.
Qed.

Definition waiting (p : Z) (c : Thread) : Thread :=
  set_joining (Some (p, mk_state 1 0 TS_RUNNABLE)) (set_status TS_BLOCKED (set_counts 1 0 c)).

Lemma join_run me p s c t :
  threads s !! me = Some c → calm c → status c = TS_RUNNABLE → threads s !! p = Some t →
  join me p s =
    if m_detached t || bool_decide (is_Some (m_joiner t)) then Done (inl EINVAL, s)
    else if (p =? me) || bool_decide (m_joiner c = Some p) then Done (inl EDEADLK, s)
    else if bool_decide (status t = TS_DEAD) then ends me c (inl ENONE) (with_finished p s)
    else Done (inr tt, set_threads (<[me := waiting p c]> (<[p := set_joiner (Some me) t]> (threads s))) s).
Proof.
  intros Hc (Hb & Hcr & Ha) Hs Ht. unfold join. rewrite run_bind, (get_run _ _ _ Ht). cbn [fst snd]. destruct (_ || _); [done|].
  rewrite run_bind, (get_run _ _ _ Hc). cbn [fst snd]. destruct (Z.eqb_spec p me) as [->|Hne]; [done|]. cbn [orb]. case_bool_decide; [done|].
  rewrite run_bind. unfold addBusy. rewrite (upd_run _ _ _ _ Hc). cbn [fst snd]. rewrite Hb, Hcr. change (u16 (0 + 1)) with 1.
  set (s1 := set_threads (<[me := set_counts 1 0 c]> (threads s)) s).
  assert (Hme1 : threads s1 !! me = Some (set_counts 1 0 c)) by (cbn; by rewrite lookup_insert_eq).
  assert (Hp1 : threads s1 !! p = Some t) by (cbn; by rewrite lookup_insert_ne).
  case_bool_decide as Hd.
  - rewrite run_bind, (finish_run me p s1 (set_counts 1 0 c) t) by done. cbn [fst snd]. rewrite run_bind.
    rewrite (subBusy_run me _ (set_counts 1 0 c)) by done. unfold ends. change (stops (set_counts 1 0 c)) with (stops c). destruct (stops c); [done|]. cbn [fst snd mret stateM_ret]. do 3 f_equal.
    unfold s1, with_finished, set_threads; cbn [threads thread_counter finished exits]. rewrite insert_insert_eq.
    change (set_counts 0 0 (set_counts 1 0 c)) with (set_counts 0 0 c). by rewrite counts_same, insert_id by done.
  - rewrite run_bind, (get_run _ _ _ Hme1). cbn [fst snd]. rewrite run_bind, (upd_run _ _ _ _ Hp1). cbn [fst snd].
    rewrite run_bind, (setStatus_run me TS_BLOCKED _ (set_counts 1 0 c)); [|cbn; rewrite lookup_insert_ne by done; by rewrite lookup_insert_eq|done].
    cbn [fst snd]. rewrite run_bind. erewrite upd_run by (cbn; by rewrite lookup_insert_eq). cbn [fst snd mret stateM_ret]. do 3 f_equal.
    unfold s1, set_threads; cbn [threads thread_counter finished exits]. f_equal. rewrite insert_insert_eq.
    rewrite (insert_insert_ne _ p me) by done. rewrite insert_insert_eq. f_equal. unfold saveState. cbn. by rewrite Hs.
Qed.

(** Running again: the thread joined is taken off, or the call was interrupted. *)
Lemma woken_run me p s c t :
  threads s !! me = Some (set_joining (Some (p, mk_state 1 0 TS_RUNNABLE)) c) → m_busy c = 1 → m_critical c = 0 → m_aborting c = false →
  me ≠ p → threads s !! p = Some t → m_detached t = false →
  interrupted c = true ∨ status c = TS_RUNNABLE ∧ status t = TS_DEAD →
  ∃ e, join_woken me p (mk_state 1 0 TS_RUNNABLE) s =
    let s' := set_threads (<[me := set_joining None (set_status TS_RUNNABLE (set_counts 0 0 c))]>
                (if interrupted c then <[p := set_joiner None t]> (threads s) else threads s)) s in
    ends me c e (if bool_decide (status t = TS_DEAD) then with_finished p s' else s').
Proof.
  intros Hc Hb Hcr Ha Hne Ht Hdt Hcase. unfold join_woken. rewrite run_bind, (upd_run _ _ _ _ Hc). cbn [fst snd].
  set (c1 := set_joining None (set_joining _ c)). set (s1 := set_threads (<[me := c1]> (threads s)) s).
  assert (Hme1 : threads s1 !! me = Some c1) by (cbn; by rewrite lookup_insert_eq).
  assert (Hp1 : threads s1 !! p = Some t) by (cbn; by rewrite lookup_insert_ne).
  rewrite run_bind, (get_run _ _ _ Hme1). cbn [fst snd]. change (interrupted c1) with (interrupted c). change (m_aborting c1) with (m_aborting c). rewrite Ha.
  assert (Htail : ∀ m s0, threads s0 = <[me := c1]> m → ∀ e : error_t,
    (loadState me (mk_state 1 0 TS_RUNNABLE);; subBusy me;; mret e) s0 = ends me c e (set_threads (<[me := set_joining None (set_status TS_RUNNABLE (set_counts 0 0 c))]> m) s0)).
  { intros m s0 Hm e. rewrite run_bind. unfold loadState. rewrite (upd_run _ _ _ c1) by (rewrite Hm; by rewrite lookup_insert_eq). cbn [fst snd]. rewrite run_bind.
    erewrite subBusy_run; [|cbn; by rewrite lookup_insert_eq|done|done|done|done]. unfold ends.
    match goal with |- context [stops ?x] => change (stops x) with (stops c) end. destruct (stops c); [done|]. cbn [fst snd mret stateM_ret]. do 3 f_equal. unfold set_threads; cbn [threads thread_counter finished exits]. by rewrite Hm, !insert_insert_eq. }
  destruct (interrupted c) eqn:Ei.
  - exists EINTR. rewrite run_bind, (upd_run _ _ _ _ Hp1). cbn [fst snd]. rewrite run_bind. erewrite get_run by (cbn; by rewrite lookup_insert_eq). cbn [fst snd status set_joiner].
    case_bool_decide as Hd.
    + rewrite run_bind. erewrite finish_run; [|cbn; rewrite lookup_insert_ne by done; by rewrite lookup_insert_eq|cbn; lia|cbn; lia|cbn; by rewrite lookup_insert_eq|done].
      cbn [fst snd]. rewrite (Htail (<[p := set_joiner None t]> (threads s))); [done|]. cbn. by rewrite insert_insert_ne.
    + rewrite run_bind. cbn [mret stateM_ret fst snd]. rewrite (Htail (<[p := set_joiner None t]> (threads s))); [done|]. cbn. by rewrite insert_insert_ne.
  - destruct Hcase as [?|[Hsc Hst]]; [done|]. exists ENONE. rewrite run_bind, (get_run _ _ _ Hp1). cbn [fst snd]. rewrite Hdt. cbn [negb aex_assert].
    rewrite run_bind, lift_run. cbn [fst snd]. change (status c1) with (status c). rewrite (bool_decide_true (status c = _)) by done. cbn [aex_assert].
    rewrite run_bind, lift_run. cbn [fst snd]. rewrite run_bind. rewrite (finish_run me p s1 c1 t); [|done|cbn; lia|cbn; lia|done|done]. cbn [fst snd].
    rewrite (Htail (threads s)) by done. by rewrite bool_decide_true.
Qed.

Lemma detach_run me p s c t :
  threads s !! me = Some c → calm c → threads s !! p = Some t →
  detach me p s = Done (
    if m_detached t || bool_decide (is_Some (m_joiner t)) then (EINVAL, s)
    else (ENONE, let s' := set_threads (<[p := set_detached t]> (threads s)) s in if bool_decide (status t = TS_DEAD) then with_finished p s' else s')).
Proof.
  intros Hc (Hb & Hcr & Ha) Ht. unfold detach. rewrite run_bind, (get_run _ _ _ Ht). cbn [fst snd]. destruct (_ || _); [done|]. rewrite run_bind.
  case_bool_decide as Hd.
  - rewrite (finish_run me p s c t); [|done|lia|lia|done|done]. cbn [fst snd]. rewrite run_bind. by rewrite (upd_run _ _ _ t).
  - cbn [mret stateM_ret fst snd]. rewrite run_bind. by rewrite (upd_run _ _ _ t).
Qed.

(** *** The invariant *)

(** A thread is outside of any call and runnable or dead, or waits in a [join] of a
    thread whose joiner it is and which is dead once it may run again; a finished
    thread is dead; a dead thread that is detached is finished; and the joiner of a
    thread that is not finished waits for it, and may run once it is dead. *)
Definition in_call (s : process) (p : Z) (t : Thread) : Prop :=
  match joining t with
  | None => m_busy t = 0 ∧ (status t = TS_RUNNABLE ∨ status t = TS_DEAD)
  | Some (q, st) =>
      m_busy t = 1 ∧ st = mk_state 1 0 TS_RUNNABLE ∧ q ≠ p ∧ q ∉ finished s ∧ (status t = TS_BLOCKED ∨ status t = TS_RUNNABLE) ∧
      ∃ u, threads s !! q = Some u ∧ m_joiner u = Some p ∧ m_detached u = false ∧ (status t = TS_RUNNABLE → status u = TS_DEAD)
  end.
Definition joined (s : process) (p : Z) (t : Thread) : Prop :=
  ∀ j, m_joiner t = Some j → p ∉ finished s →
    ∃ u st, threads s !! j = Some u ∧ joining u = Some (p, st) ∧ (status t = TS_DEAD → status u = TS_RUNNABLE).
Record good (s : process) (p : Z) (t : Thread) : Prop := mk_good {
  good_calm : m_critical t = 0 ∧ m_aborting t = false;
  good_finished : p ∈ finished s → status t = TS_DEAD;
  good_dead : status t = TS_DEAD → m_detached t = true → p ∈ finished s;
  good_call : in_call s p t;
  good_joiner : joined s p t;
}.
Record ok (s : process) : Prop := mk_ok {
  ok_nodup : NoDup (finished s);
  ok_dom : ∀ p, p ∈ finished s → is_Some (threads s !! p);
  ok_thread : ∀ p t, threads s !! p = Some t → good s p t;
}.

Lemma joining_alive s p t q st : good s p t → joining t = Some (q, st) → status t ≠ TS_DEAD.
Proof. intros [_ _ _ Hc _] Hj. unfold in_call in Hc. rewrite Hj in Hc. destruct Hc as (_ & _ & _ & _ & [->| ->] & _); done. Qed.

Lemma alive_unfinished s p t : good s p t → status t ≠ TS_DEAD → p ∉ finished s.
Proof. intros [_ Hf _ _ _] Hs Hin. by apply Hs, Hf. Qed.

(** A thread nobody touched: it is enough that the threads it refers to kept what
    it relies on. *)
Lemma good_other s s' p t :
  good s p t → (p ∈ finished s' ↔ p ∈ finished s) →
  (∀ q st, joining t = Some (q, st) → q ∉ finished s' ∧
     ∃ u, threads s' !! q = Some u ∧ m_joiner u = Some p ∧ m_detached u = false ∧ (status t = TS_RUNNABLE → status u = TS_DEAD)) →
  (∀ j u st, m_joiner t = Some j → p ∉ finished s → threads s !! j = Some u → joining u = Some (p, st) → (status t = TS_DEAD → status u = TS_RUNNABLE) →
     ∃ u' st', threads s' !! j = Some u' ∧ joining u' = Some (p, st') ∧ (status t = TS_DEAD → status u' = TS_RUNNABLE)) →
  good s' p t.
Proof.
  intros [Hc Hf Hd Hcall Hj] Hfin Hq Hjo. constructor; [done|naive_solver|naive_solver| |].
  - unfold in_call in *. destruct (joining t) as [[q st]|]; [|done]. destruct Hcall as (? & ? & ? & ? & ? & _).
    destruct (Hq q st eq_refl) as [? ?]. split_and!; done.
  - intros j Hjt Hnf. rewrite Hfin in Hnf. destruct (Hj j Hjt Hnf) as (u & st & Hu & Hju & Hs). by eapply Hjo.
Qed.

Lemma call_other s p t q st : good s p t → joining t = Some (q, st) →
  q ≠ p ∧ q ∉ finished s ∧ ∃ u, threads s !! q = Some u ∧ m_joiner u = Some p ∧ m_detached u = false ∧ (status t = TS_RUNNABLE → status u = TS_DEAD).
Proof. intros [_ _ _ Hc _] Hj. unfold in_call in Hc. rewrite Hj in Hc. destruct Hc as (_ & _ & ? & ? & _ & ?). done. Qed.

Lemma running_calm s me t : ok s → running s me → threads s !! me = Some t → calm t ∧ status t = TS_RUNNABLE ∧ joining t = None ∧ me ∉ finished s.
Proof.
  intros Hok (t' & Ht' & Hs & Hj) Ht. assert (t' = t) as -> by congruence. pose proof (ok_thread s Hok me t Ht) as Hg.
  assert (me ∉ finished s) by (eapply alive_unfinished; [done|by rewrite Hs]). pose proof (good_call _ _ _ Hg) as Hc. unfold in_call in Hc. rewrite Hj in Hc.
  destruct (good_calm _ _ _ Hg) as [? ?]. destruct Hc as [? _]. split_and!; done.
Qed.

(** [finish] of a dead thread nobody waits for any more, when the other threads
    are in order. *)
Lemma finish_ok s p t :
  NoDup (finished s) → (∀ q, q ∈ finished s → is_Some (threads s !! q)) → p ∉ finished s →
  threads s !! p = Some t → status t = TS_DEAD → joining t = None → calm t →
  (∀ q u, q ≠ p → threads s !! q = Some u → good s q u ∧ ∀ st, joining u ≠ Some (p, st)) →
  ok (with_finished p s).
Proof.
  intros Hnd Hdom Hnf Ht Hd Hj (Hb & Hcr & Ha) Hother. constructor; cbn [finished threads with_finished].
  - apply NoDup_app. split_and!; [done|set_solver|apply NoDup_singleton].
  - intros q [Hq| ->%list_elem_of_singleton]%elem_of_app; [by apply Hdom|by eexists].
  - intros q u Hu. destruct (decide (q = p)) as [->|Hne].
    + rewrite Ht in Hu. injection Hu as <-. constructor; cbn [finished with_finished]; [done|done|set_solver| |].
      * unfold in_call. rewrite Hj. split; [done|by right].
      * intros j ? Hn. exfalso. apply Hn. cbn. set_solver.
    + destruct (Hother q u Hne Hu) as [Hg Hnp]. eapply good_other; [exact Hg|cbn; set_solver| |].
      * intros r st Hr. destruct (call_other s q u r st Hg Hr) as (_ & Hrf & Hrest). split; [|exact Hrest].
        cbn. intros [?| ->%list_elem_of_singleton]%elem_of_app; [done|]. by eapply Hnp.
      * intros j v st _ _ Hv Hvj Hs. exists v, st. done.
Qed.

(** A thread [me] that is outside of any call dies: every other thread is in order. *)
Lemma die_others s me t p u :
  ok s → running s me → threads s !! me = Some t → m_joiner t = None → p ≠ me → threads s !! p = Some u →
  good (set_threads (<[me := set_status TS_DEAD t]> (threads s)) s) p u ∧ ∀ st, joining u ≠ Some (me, st).
Proof.
  intros Hok Hrun Ht Hj Hne Hu. pose proof (ok_thread s Hok p u Hu) as Hg. destruct (running_calm s me t Hok Hrun Ht) as (_ & _ & Hjt & _).
  assert (Hnm : ∀ st, joining u ≠ Some (me, st)).
  { intros st Hst. destruct (call_other s p u me st Hg Hst) as (_ & _ & v & Hv & Hvj & _). congruence. }
  split; [|done]. eapply good_other; [exact Hg|done| |].
  - intros q st Hq. destruct (call_other s p u q st Hg Hq) as (_ & Hqf & v & Hv & Hrest). split; [done|]. exists v.
    split; [|done]. cbn. rewrite lookup_insert_ne; [done|]. intros ->. by eapply Hnm.
  - intros j v st _ _ Hv Hvj Hs. exists v, st. split; [|done]. cbn. rewrite lookup_insert_ne; [done|]. intros ->. congruence.
Qed.

(** A thread with a signal pending cannot exit. *)
Lemma exit_pending s me t : threads s !! me = Some t → pending_signals t ≠ [] → exit me s = Panic "Assertion failed!".
Proof.
  intros Ht Hp. unfold exit. rewrite run_bind, (get_run _ _ _ Ht). cbn [fst snd]. destruct (pending_signals t) as [|a l]; [done|].
  rewrite (proj2 (Z.eqb_neq (Z.of_nat (length (a :: l))) 0)) by (cbn; lia). done.
Qed.

Lemma exit_step_ok s me b s' : ok s → running s me → exit me s = Done (b, s') → ok s'.
Proof.
  intros Hok Hrun He. pose proof Hrun as (t & Ht & _). assert (Hp : pending_signals t = []).
  { destruct (pending_signals t) as [|a l] eqn:E; [done|]. rewrite (exit_pending s me t Ht) in He; [done|]. by rewrite E. }
  destruct (running_calm s me t Hok Hrun Ht) as ((Hb & Hcr & Ha) & Hs & Hj & Hnf).
  pose proof (ok_thread s Hok me t Ht) as Hg. pose proof (exit_run me s t Ht Hb Hcr Hp) as Hrun'. destruct (m_joiner t) as [j|] eqn:Hjn.
  - destruct (good_joiner _ _ _ Hg j Hjn Hnf) as (u & st & Hu & Hju & _). assert (Hne : j ≠ me) by congruence.
    rewrite (Hrun' u Hne Hu) in He. injection He as _ <-. pose proof (ok_thread s Hok j u Hu) as Hgj.
    destruct (call_other s j u me st Hgj Hju) as (_ & _ & t' & Ht' & _ & Hdt & _). assert (t' = t) as -> by congruence.
    pose proof (joining_alive s j u me st Hgj Hju) as Hal.
    constructor; cbn [finished threads set_threads]; [apply Hok| |].
    { intros q Hq. rewrite !lookup_insert_is_Some'. right; right. by apply Hok. }
    intros p v Hv. destruct (decide (p = me)) as [->|Hpm]; [|destruct (decide (p = j)) as [->|Hpj]].
    + rewrite lookup_insert_eq in Hv. injection Hv as <-. constructor; cbn [status m_critical m_aborting m_detached m_joiner set_status finished set_threads]; [done|done|congruence| |].
      * unfold in_call. cbn. rewrite Hj. split; [done|by right].
      * intros k Hk _. cbn in Hk. assert (k = j) as -> by congruence. exists (set_status TS_RUNNABLE u), st. cbn.
        rewrite lookup_insert_ne by done. by rewrite lookup_insert_eq.
    + rewrite lookup_insert_ne, lookup_insert_eq in Hv by done. injection Hv as <-. destruct Hgj as [Hcj Hfj Hdj Hcallj Hjj].
      constructor; cbn [status m_critical m_aborting m_detached m_joiner set_status finished set_threads]; [done|intros Hin; by destruct (Hal (Hfj Hin))|done| |].
      * unfold in_call in *. cbn. rewrite Hju in *. destruct Hcallj as (? & ? & ? & ? & _ & _). split_and!; [done..|by right|].
        exists (set_status TS_DEAD t). rewrite lookup_insert_eq. split_and!; done.
      * intros k Hk Hkf. cbn in Hk. destruct (Hjj k Hk Hkf) as (w & st' & Hw & Hwj & _). exists w, st'. split_and!; [|done|done]. cbn.
        rewrite !lookup_insert_ne; [done| |]; congruence.
    + rewrite !lookup_insert_ne in Hv by done. pose proof (ok_thread s Hok p v Hv) as Hgp. eapply good_other; [exact Hgp|done| |].
      * intros q st' Hq. destruct (call_other s p v q st' Hgp Hq) as (_ & Hqf & w & Hw & Hwj & Hwd & Hws). split; [done|].
        destruct (decide (q = me)) as [->|Hqm]; [congruence|]. destruct (decide (q = j)) as [->|Hqj].
        -- exists (set_status TS_RUNNABLE u). cbn. rewrite lookup_insert_ne, lookup_insert_eq by done. assert (w = u) as -> by congruence. split_and!; [done..|].
           intros Hr. by destruct (Hal (Hws Hr)).
        -- exists w. cbn. rewrite !lookup_insert_ne by done. done.
      * intros k w st' Hk _ Hw Hwj Hws. exists w, st'. split; [|done]. cbn. rewrite !lookup_insert_ne; [done| |]; congruence.
  - rewrite Hrun' in He. injection He as _ <-. set (s1 := set_threads (<[me := set_status TS_DEAD t]> (threads s)) s).
    assert (Hdom : ∀ q, q ∈ finished s1 → is_Some (threads s1 !! q)) by (intros q Hq; cbn; rewrite lookup_insert_is_Some'; right; by apply Hok).
    assert (Hme : threads s1 !! me = Some (set_status TS_DEAD t)) by (cbn; by rewrite lookup_insert_eq).
    assert (Hoth : ∀ q u, q ≠ me → threads s1 !! q = Some u → good s1 q u ∧ ∀ st, joining u ≠ Some (me, st)).
    { intros q u Hq Hu. cbn in Hu. rewrite lookup_insert_ne in Hu by done. by apply die_others. }
    cbv zeta. destruct (m_detached t || (thread_counter s =? 1)) eqn:E.
    + eapply finish_ok; [apply Hok|exact Hdom|exact Hnf|exact Hme|done|done|done|exact Hoth].
    + constructor; [apply Hok|exact Hdom|]. intros q u Hu. destruct (decide (q = me)) as [->|Hq]; [|by apply Hoth].
      rewrite Hme in Hu. injection Hu as <-. apply orb_false_iff in E as [Ed _]. constructor; cbn [status m_critical m_aborting m_detached m_joiner set_status]; [done|done|congruence| |].
      * unfold in_call. cbn. rewrite Hj. split; [done|by right].
      * intros k Hk. cbn in Hk. congruence.
Qed.

(** The invariant says nothing about signals. *)
Lemma ok_signals s p t l b n :
  ok s → threads s !! p = Some t → ok (mk_process (<[p := set_signals l b t]> (threads s)) (thread_counter s) (finished s) n).
Proof.
  intros Hok Ht. set (s' := mk_process _ _ _ _). constructor; [apply Hok| |].
  { intros q Hq. cbn. rewrite lookup_insert_is_Some'. right. by apply Hok. }
  assert (Hk : ∀ q u, threads s !! q = Some u → ∃ u', threads s' !! q = Some u' ∧ m_joiner u' = m_joiner u ∧ m_detached u' = m_detached u ∧ status u' = status u ∧ joining u' = joining u).
  { intros q u Hu. cbn. destruct (decide (q = p)) as [->|]; [exists (set_signals l b t); rewrite lookup_insert_eq; replace u with t by congruence; done|exists u; by rewrite lookup_insert_ne]. }
  assert (Hg' : ∀ q u, threads s !! q = Some u → good s' q u).
  { intros q u Hu. pose proof (ok_thread s Hok q u Hu) as Hg. eapply good_other; [exact Hg|done| |].
    - intros r st Hr. destruct (call_other s q u r st Hg Hr) as (_ & ? & w & Hw & Hwj & Hwd & Hws). split; [done|]. destruct (Hk r w Hw) as (w' & ? & ? & ? & ? & ?). exists w'. split_and!; congruence || naive_solver congruence.
    - intros k w st _ _ Hw ? ?. destruct (Hk k w Hw) as (w' & ? & ? & ? & ? & ?). exists w', st. split_and!; congruence || naive_solver congruence. }
  intros q u Hu. destruct (decide (q = p)) as [->|]; [|cbn in Hu; rewrite lookup_insert_ne in Hu by done; by apply Hg'].
  cbn in Hu. rewrite lookup_insert_eq in Hu. injection Hu as <-. destruct (Hg' p t Ht) as [? ? ? ? ?]. by constructor.
Qed.

Lemma ok_handled me s : ok s → ok (handled me s).
Proof. intros Hok. unfold handled. destruct (threads s !! me) as [t|] eqn:Ht; [|done]. destruct (take_signal t) as [[l b] n]. by apply ok_signals. Qed.

Lemma ends_ok {R} me t (r r' : R) s s' : ends me t r s = Done (r', s') → ok s → ok s'.
Proof. unfold ends. destruct (stops t); [done|]. intros [= _ <-]. apply ok_handled. Qed.

Lemma join_step_ok s me p r s' : ok s → running s me → p ∉ finished s → join me p s = Done (r, s') → ok s'.
Proof.
  intros Hok Hrun Hpf He. destruct Hrun as (c & Hc & Hrest). assert (Hrun : running s me) by (by exists c).
  destruct (running_calm s me c Hok Hrun Hc) as (Hcalm & Hs & Hj & Hnf). pose proof (ok_thread s Hok me c Hc) as Hgc.
  destruct (threads s !! p) as [t|] eqn:Ht; [|unfold join in He; rewrite run_bind in He; unfold get_thread in He; by rewrite Ht in He].
  pose proof (ok_thread s Hok p t Ht) as Hgp. rewrite (join_run me p s c t Hc Hcalm Hs Ht) in He.
  destruct (m_detached t || _) eqn:E1; [by injection He as _ <-|]. apply orb_false_iff in E1 as [Ed Ej]. apply bool_decide_eq_false in Ej.
  assert (Hjn : m_joiner t = None) by (destruct (m_joiner t); [by destruct Ej; eexists|done]).
  destruct (_ || _) eqn:E2 in He; [by injection He as _ <-|]. apply orb_false_iff in E2 as [Epm Ejc]. apply bool_decide_eq_false in Ejc.
  assert (Hne : p ≠ me) by lia. assert (Hnp : ∀ q u st, threads s !! q = Some u → joining u ≠ Some (p, st)).
  { intros q u st Hu Hst. destruct (call_other s q u p st (ok_thread s Hok q u Hu) Hst) as (_ & _ & v & Hv & Hvj & _). congruence. }
  case_bool_decide as Hd.
  - apply ends_ok in He; [done|]. destruct (good_calm _ _ _ Hgp) as [? ?]. pose proof (good_call _ _ _ Hgp) as Hcall. unfold in_call in Hcall.
    assert (Hjt : joining t = None) by (destruct (joining t) as [[q st]|] eqn:E; [by destruct (joining_alive s p t q st Hgp E)|done]).
    rewrite Hjt in Hcall. destruct Hcall as [? _].
    eapply finish_ok; [apply Hok|apply Hok|done|exact Ht|done|done|done|]. intros q u _ Hu. split; [by apply Hok|]. intros st. by eapply Hnp.
  - injection He as _ <-. constructor; cbn [finished threads set_threads]; [apply Hok| |].
    { intros q Hq. rewrite !lookup_insert_is_Some'. right; right. by apply Hok. }
    intros q u Hu. destruct (decide (q = me)) as [->|Hqm]; [|destruct (decide (q = p)) as [->|Hqp]].
    + rewrite lookup_insert_eq in Hu. injection Hu as <-. destruct (good_calm _ _ _ Hgc) as [_ Hac].
      constructor; cbn [status m_critical m_aborting m_detached m_joiner set_status set_counts set_joining waiting finished set_threads]; [done|done|done| |].
      * unfold in_call. cbn. split_and!; [done|done|done|done|by left|]. exists (set_joiner (Some me) t). rewrite lookup_insert_ne, lookup_insert_eq by done. done.
      * intros k Hk _. cbn in Hk. destruct (good_joiner _ _ _ Hgc k Hk Hnf) as (w & st & Hw & Hwj & _). exists w, st. split_and!; [|done|done]. cbn.
        rewrite !lookup_insert_ne; [done| |]; congruence.
    + rewrite lookup_insert_ne, lookup_insert_eq in Hu by done. injection Hu as <-. destruct Hgp as [Hcp Hfp Hdp Hcallp Hjp].
      constructor; cbn [status m_critical m_aborting m_detached m_joiner set_joiner finished set_threads]; [done|done|done| |].
      * unfold in_call in *. cbn. destruct (joining t) as [[r' st]|] eqn:Ejt; [|done]. destruct Hcallp as (? & ? & ? & ? & ? & w & Hw & Hwj & ? & ?). split_and!; [done..|].
        exists w. split; [|done]. rewrite !lookup_insert_ne; [done| |]; congruence.
      * intros k Hk _. cbn in Hk. injection Hk as <-. eexists _, _. cbn. rewrite lookup_insert_eq. split_and!; [done|done|done].
    + rewrite !lookup_insert_ne in Hu by done. pose proof (ok_thread s Hok q u Hu) as Hgq. eapply good_other; [exact Hgq|done| |].
      * intros r' st Hr. destruct (call_other s q u r' st Hgq Hr) as (_ & Hrf & w & Hw & Hwj & Hwd & Hws). split; [done|].
        destruct (decide (r' = me)) as [->|Hrm].
        -- exists (waiting p c). cbn. rewrite lookup_insert_eq. assert (w = c) as -> by congruence. split_and!; [done..|]. intros Hr'. specialize (Hws Hr'). congruence.
        -- exists w. cbn. rewrite lookup_insert_ne by congruence. rewrite lookup_insert_ne by (intros ->; exact (Hnp q u st Hu Hr)). done.
      * intros k w st Hk _ Hw Hwj Hws. destruct (decide (k = me)) as [->|Hkm]; [congruence|]. destruct (decide (k = p)) as [->|Hkp].
        -- exists (set_joiner (Some me) w), st. cbn. rewrite lookup_insert_ne, lookup_insert_eq by done. assert (w = t) as -> by congruence. done.
        -- exists w, st. cbn. rewrite !lookup_insert_ne by done. done.
Qed.

Lemma detach_step_ok s me p e s' : ok s → running s me → p ∉ finished s → detach me p s = Done (e, s') → ok s'.
Proof.
  intros Hok Hrun Hpf He. destruct Hrun as (c & Hc & Hrest). assert (Hrun : running s me) by (by exists c).
  destruct (running_calm s me c Hok Hrun Hc) as (Hcalm & _ & _ & _).
  destruct (threads s !! p) as [t|] eqn:Ht; [|unfold detach in He; rewrite run_bind in He; unfold get_thread in He; by rewrite Ht in He].
  pose proof (ok_thread s Hok p t Ht) as Hgp. rewrite (detach_run me p s c t Hc Hcalm Ht) in He.
  destruct (m_detached t || _) eqn:E1; [by injection He as _ <-|]. apply orb_false_iff in E1 as [Ed Ej]. apply bool_decide_eq_false in Ej.
  assert (Hjn : m_joiner t = None) by (destruct (m_joiner t); [by destruct Ej; eexists|done]). injection He as _ <-. cbv zeta.
  set (s1 := set_threads (<[p := set_detached t]> (threads s)) s).
  assert (Hdom : ∀ q, q ∈ finished s1 → is_Some (threads s1 !! q)) by (intros q Hq; cbn; rewrite lookup_insert_is_Some'; right; by apply Hok).
  assert (Hp1 : threads s1 !! p = Some (set_detached t)) by (cbn; by rewrite lookup_insert_eq).
  assert (Hoth : ∀ q u, q ≠ p → threads s1 !! q = Some u → good s1 q u ∧ ∀ st, joining u ≠ Some (p, st)).
  { intros q u Hq Hu. cbn in Hu. rewrite lookup_insert_ne in Hu by done. pose proof (ok_thread s Hok q u Hu) as Hg.
    assert (Hnp : ∀ st, joining u ≠ Some (p, st)) by (intros st Hst; destruct (call_other s q u p st Hg Hst) as (_ & _ & v & Hv & Hvj & _); congruence).
    split; [|done]. eapply good_other; [exact Hg|done| |].
    - intros r st Hr. destruct (call_other s q u r st Hg Hr) as (_ & Hrf & w & Hw & Hws). split; [done|]. exists w. cbn. rewrite lookup_insert_ne; [done|]. intros ->. exact (Hnp st Hr).
    - intros k w st Hk _ Hw Hwj Hws. destruct (decide (k = p)) as [->|Hkp].
      + exists (set_detached t), st. assert (w = t) as -> by congruence. done.
      + exists w, st. cbn. by rewrite lookup_insert_ne. }
  case_bool_decide as Hd.
  - destruct (good_calm _ _ _ Hgp) as [? ?]. pose proof (good_call _ _ _ Hgp) as Hcall. unfold in_call in Hcall.
    assert (Hjt : joining t = None) by (destruct (joining t) as [[q st]|] eqn:E; [by destruct (joining_alive s p t q st Hgp E)|done]).
    rewrite Hjt in Hcall. destruct Hcall as [? _]. eapply finish_ok; [apply Hok|exact Hdom|done|exact Hp1|done|done|done|exact Hoth].
  - constructor; [apply Hok|exact Hdom|]. intros q u Hu. destruct (decide (q = p)) as [->|Hq]; [|by apply Hoth]. rewrite Hp1 in Hu. injection Hu as <-.
    destruct Hgp as [Hcp Hfp Hdp Hcallp Hjp]. constructor; cbn [status m_critical m_aborting m_detached m_joiner set_detached]; [done|done|done| |].
    + unfold in_call in *. cbn. destruct (joining t) as [[r' st]|] eqn:Ejt; [|done]. destruct Hcallp as (? & ? & ? & ? & ? & w & Hw & ?). split_and!; [done..|].
      exists w. by rewrite lookup_insert_ne.
    + intros k Hk. cbn in Hk. congruence.
Qed.

Lemma woken_step_ok s me c p st e s' :
  ok s → threads s !! me = Some c → joining c = Some (p, st) → status c = TS_RUNNABLE ∨ interrupted c = true →
  join_woken me p st s = Done (e, s') → ok s'.
Proof.
  intros Hok Hc Hjc Hgo He. pose proof (ok_thread s Hok me c Hc) as Hgc. destruct (good_calm _ _ _ Hgc) as [Hcr Hac].
  pose proof (joining_alive s me c p st Hgc Hjc) as Hal. pose proof (alive_unfinished s me c Hgc Hal) as Hmf.
  destruct (call_other s me c p st Hgc Hjc) as (Hpm & Hpf & t & Ht & Htj & Htd & Hts).
  pose proof (good_call _ _ _ Hgc) as Hcall. unfold in_call in Hcall. rewrite Hjc in Hcall. destruct Hcall as (Hb & -> & _).
  pose proof (ok_thread s Hok p t Ht) as Hgp.
  destruct (woken_run me p s c t) as (e' & Hrun); try done.
  { rewrite Hc. f_equal. destruct c; cbn in *. by rewrite Hjc. } { destruct Hgo as [?|?]; [right; auto|by left]. }
  rewrite Hrun in He. cbv zeta in He. apply ends_ok in He; [done|]. clear He Hrun.
  set (c' := set_joining None (set_status TS_RUNNABLE (set_counts 0 0 c))).
  set (m := if interrupted c then <[p := set_joiner None t]> (threads s) else threads s).
  set (s1 := set_threads (<[me := c']> m) s).
  (* what the others see *)
  assert (Hm : ∀ q, q ≠ p → m !! q = threads s !! q) by (intros q Hq; unfold m; destruct (interrupted c); [by rewrite lookup_insert_ne|done]).
  assert (Hmp : ∃ t', m !! p = Some t' ∧ joining t' = joining t ∧ status t' = status t ∧ m_detached t' = m_detached t ∧ calm t' = calm t ∧ m_busy t' = m_busy t ∧ m_critical t' = m_critical t ∧
    m_aborting t' = m_aborting t ∧ (interrupted c = true → m_joiner t' = None)).
  { unfold m. destruct (interrupted c); [exists (set_joiner None t); rewrite lookup_insert_eq|exists t]; split_and!; done. }
  destruct Hmp as (t' & Ht' & Hjt & Hst & Hdt & _ & Hbt & Hct & Hat & Hjnt).
  assert (Hdom : ∀ q, q ∈ finished s1 → is_Some (threads s1 !! q)).
  { intros q Hq. cbn. rewrite lookup_insert_is_Some'. right. destruct (decide (q = p)) as [->|]; [by eexists|rewrite Hm by done; by apply Hok]. }
  assert (Hp1 : threads s1 !! p = Some t') by (cbn; by rewrite lookup_insert_ne).
  assert (Hme1 : threads s1 !! me = Some c') by (cbn; by rewrite lookup_insert_eq).
  assert (Hsame : ∀ q, q ≠ p → q ≠ me → threads s1 !! q = threads s !! q) by (intros q ? ?; cbn; rewrite lookup_insert_ne by done; by apply Hm).
  (* the other threads are in order *)
  assert (Hoth : ∀ q u, q ≠ p → threads s1 !! q = Some u → good s1 q u ∧ ∀ st, joining u ≠ Some (p, st)).
  { intros q u Hq Hu. destruct (decide (q = me)) as [->|Hqm].
    - rewrite Hme1 in Hu. injection Hu as <-. split; [|done].
      constructor; cbn [status m_critical m_aborting m_detached m_joiner set_status set_counts set_joining c' finished set_threads s1]; [done|done|done| |].
      + unfold in_call. cbn. split; [done|by left].
      + intros k Hk _. cbn in Hk. destruct (good_joiner _ _ _ Hgc k Hk Hmf) as (w & st & Hw & Hwj & _).
        assert (k ≠ me) by congruence. destruct (decide (k = p)) as [->|Hkp].
        * exists t', st. split_and!; [done| |done]. rewrite Hjt. congruence.
        * exists w, st. rewrite Hsame by done. done.
    - rewrite Hsame in Hu by done. pose proof (ok_thread s Hok q u Hu) as Hg.
      assert (Hnp : ∀ st, joining u ≠ Some (p, st)).
      { intros st Hr. destruct (call_other s q u p st Hg Hr) as (_ & _ & w & Hw & Hwj & _). congruence. }
      split; [|done]. eapply good_other; [exact Hg|done| |].
      + intros r st Hr. destruct (call_other s q u r st Hg Hr) as (_ & Hrf & w & Hw & Hwj & Hwd & Hws). split; [done|].
        destruct (decide (r = me)) as [->|Hrm].
        * exists c'. split_and!; [done|cbn; congruence|cbn; congruence|]. intros Hx. assert (w = c) as -> by congruence. by destruct (Hal (Hws Hx)).
        * exists w. rewrite Hsame; [done| |done]. intros ->. exact (Hnp st Hr).
      + intros k w st Hk _ Hw Hwj Hws. assert (k ≠ me) by congruence. destruct (decide (k = p)) as [->|Hkp].
        * exists t', st. assert (w = t) as -> by congruence. rewrite Hjt, Hst. done.
        * exists w, st. rewrite Hsame by done. done. }
  destruct (good_calm _ _ _ Hgp) as [? ?]. case_bool_decide as Hd.
  - pose proof (good_call _ _ _ Hgp) as Hcall. unfold in_call in Hcall.
    assert (Hjtn : joining t = None) by (destruct (joining t) as [[q st]|] eqn:E; [by destruct (joining_alive s p t q st Hgp E)|done]).
    rewrite Hjtn in Hcall. destruct Hcall as [? _]. eapply finish_ok; [apply Hok|exact Hdom|exact Hpf|exact Hp1|congruence|congruence| |exact Hoth].
    split_and!; congruence.
  - assert (Hint : interrupted c = true) by (destruct Hgo as [Hr|?]; [by destruct (Hd (Hts Hr))|done]).
    constructor; [apply Hok|exact Hdom|]. intros q u Hu. destruct (decide (q = p)) as [->|Hq]; [|by apply Hoth]. rewrite Hp1 in Hu. injection Hu as <-.
    constructor; [split; congruence|intros Hin; rewrite Hst; by apply (good_finished _ _ _ Hgp)|congruence| |].
    + pose proof (good_call _ _ _ Hgp) as Hcall. unfold in_call in *. rewrite Hjt, Hbt, Hst. destruct (joining t) as [[r st]|] eqn:Ejt; [|done].
      destruct Hcall as (? & ? & ? & ? & ? & w & Hw & Hwj & Hwd & Hws). split_and!; [done..|]. destruct (decide (r = me)) as [->|Hrm].
      * exists c'. assert (w = c) as -> by congruence. split_and!; [done|done|done|]. intros Hx. by destruct (Hal (Hws Hx)).
      * exists w. rewrite Hsame by done. done.
    + intros k Hk. rewrite (Hjnt Hint) in Hk. done.
Qed.

(** States that differ in the signals of one thread. *)
Definition resignalled (p : Z) (s s' : process) : Prop :=
  ∃ t l b n, threads s !! p = Some t ∧ s' = mk_process (<[p := set_signals l b t]> (threads s)) (thread_counter s) (finished s) n.

Lemma resignalled_exits p t n s : threads s !! p = Some t → resignalled p s (mk_process (threads s) (thread_counter s) (finished s) n).
Proof. intros Ht. exists t, (pending_signals t), (in_signal t), n. split; [done|]. by rewrite set_signals_same, insert_id. Qed.

(** Another thread cannot make one enter its handler. *)
Lemma handle_other p a s t s' : threads s !! p = Some t → handleSignal false p a s = Done (tt, s') → resignalled p s s'.
Proof.
  intros Ht. destruct a; cbn; try done; intros [= <-]; [|destruct s|]; by eapply resignalled_exits.
Qed.

Lemma signal_run me p a s c t s' :
  threads s !! me = Some c → calm c → threads s !! p = Some t → signal me p a s = Done (tt, s') → resignalled p s s'.
Proof.
  intros Hc (Hb & Hcr & Ha) Ht. unfold signal. rewrite run_bind. destruct (Z.eqb_spec p me) as [->|Hne]; cbn [when].
  - assert (c = t) as -> by congruence. unfold addCritical. rewrite (upd_run _ _ _ _ Ht). cbn [fst snd]. rewrite Hb, Hcr. change (u16 (0 + 1)) with 1.
    rewrite run_bind. erewrite get_run by (cbn; by rewrite lookup_insert_eq). cbn [fst snd]. unfold isBusy. cbn [m_busy set_counts Z.gtb Z.compare].
    rewrite run_bind. unfold push_signal. erewrite upd_run by (cbn; by rewrite lookup_insert_eq). cbn [fst snd set_threads threads]. unfold subCritical.
    erewrite upd_run by (cbn; by rewrite lookup_insert_eq). cbn [m_busy m_critical set_counts set_signals]. change (u16 (1 - 1)) with 0. intros [= <-].
    exists t, (pending_signals t ++ [a]), (in_signal t), (exits s). split; [done|]. unfold set_threads; cbn. rewrite !insert_insert_eq. f_equal. f_equal. destruct t; cbn in *. by subst.
  - cbn [mret stateM_ret fst snd]. rewrite run_bind, (get_run _ _ _ Ht). cbn [fst snd]. rewrite run_bind. destruct (isBusy t).
    + unfold push_signal. rewrite (upd_run _ _ _ _ Ht). cbn. intros [= <-]. by exists t, (pending_signals t ++ [a]), (in_signal t), (exits s).
    + destruct (handleSignal false p a s) as [[[] s1]| |] eqn:E; [|done..]. cbn. intros [= <-]. by eapply handle_other.
Qed.

Lemma life_sigret_run me s c e s' : threads s !! me = Some c → calm c → sigret me s = Done (e, s') → s' = s ∨ resignalled me s s'.
Proof.
  intros Hc (Hb & Hcr & Ha). unfold sigret. rewrite run_bind, (get_run _ _ _ Hc). cbn [fst snd]. destruct (in_signal c) eqn:Ein; cbn [negb]; [|intros [= _ <-]; by left].
  rewrite run_bind. unfold addBusy. rewrite (upd_run _ _ _ _ Hc). cbn [fst snd]. rewrite Hb, Hcr. change (u16 (0 + 1)) with 1. intros He. right. revert He.
  unfold subBusy_of. rewrite run_bind, run_bind. erewrite upd_run by (cbn; by rewrite lookup_insert_eq). cbn [fst snd m_busy m_critical set_counts]. change (u16 (1 - 1)) with 0.
  rewrite run_bind. erewrite get_run by (cbn; by rewrite lookup_insert_eq). cbn [fst snd m_busy set_counts Z.eqb negb andb]. rewrite run_bind. cbn [mret stateM_ret fst snd].
  rewrite run_bind. unfold addCritical. erewrite upd_run by (cbn; by rewrite lookup_insert_eq). cbn [fst snd m_busy m_critical set_counts]. change (u16 (0 + 1)) with 1.
  rewrite run_bind. erewrite get_run by (cbn; by rewrite lookup_insert_eq). cbn [fst snd pending_signals set_counts].
  assert (Hend : ∀ l n s1, threads s1 = <[me := set_signals l true c]> (threads s) → thread_counter s1 = thread_counter s → finished s1 = finished s → exits s1 = n →
    (upd me (λ t, set_signals (pending_signals t) false t);; mret ENONE) s1 = Done (e, s') → resignalled me s s').
  { intros l n s1 Hm H1 H2 H3. rewrite run_bind. erewrite upd_run by (rewrite Hm; by rewrite lookup_insert_eq). cbn. intros [= _ <-]. exists c, l, false, n. split; [done|].
    unfold set_threads; cbn. by rewrite Hm, H1, H2, H3, insert_insert_eq. }
  assert (Hcc : ∀ l, set_counts 0 0 (set_signals l true c) = set_signals l true c) by (intros; destruct c; cbn in *; by subst).
  destruct (last (pending_signals c)) as [a|].
  - rewrite run_bind. erewrite upd_run by (cbn; by rewrite lookup_insert_eq). cbn [fst snd]. rewrite run_bind. unfold subCritical. erewrite upd_run by (cbn; by rewrite lookup_insert_eq).
    cbn [fst snd m_busy m_critical set_counts set_signals]. change (u16 (1 - 1)) with 0. rewrite run_bind.
    destruct a; cbn [handleSignal]; try done; cbn; (eapply Hend with (l := but_last (pending_signals c)); [|done..]); cbn; rewrite !insert_insert_eq; f_equal; rewrite <-Hcc; by destruct c; cbn in *; subst.
  - rewrite run_bind. unfold subCritical. erewrite upd_run by (cbn; by rewrite lookup_insert_eq). cbn [fst snd m_busy m_critical set_counts set_signals mret stateM_ret]. change (u16 (1 - 1)) with 0.
    apply Hend with (l := pending_signals c) (n := exits s); [|done..]. cbn. rewrite !insert_insert_eq. f_equal. destruct c; cbn in *; by subst.
Qed.

Lemma step_ok s s' : step s s' → ok s → ok s'.
Proof.
  intros Hstep Hok. destruct Hstep as [s p Hp|s s' me b Hrun He|s s' me p r Hrun Hp He|s s' me t p st e Ht Hj Hgo He|s s' me p e Hrun Hp He|s s' me p t a Hrun Ht Hs He|s s' me e Hrun He|s s' p Hp He].
  - assert (Hpf : p ∉ finished s) by (intros Hin; apply (ok_dom s Hok) in Hin as [? ?]; congruence).
    constructor; cbn [finished threads create]; [apply Hok| |].
    { intros q Hq. rewrite lookup_insert_is_Some'. right. by apply Hok. }
    intros q u Hu. destruct (decide (q = p)) as [->|Hne].
    + rewrite lookup_insert_eq in Hu. injection Hu as <-. constructor; cbn; [done|done|done|unfold in_call; cbn; split; [done|by left]|done].
    + rewrite lookup_insert_ne in Hu by done. pose proof (ok_thread s Hok q u Hu) as Hg. eapply good_other; [exact Hg|done| |].
      * intros r st Hr. destruct (call_other s q u r st Hg Hr) as (_ & ? & w & Hw & ?). split; [done|]. exists w. cbn. rewrite lookup_insert_ne by congruence. done.
      * intros k w st _ _ Hw ? ?. exists w, st. cbn. rewrite lookup_insert_ne by congruence. done.
  - by eapply exit_step_ok.
  - by eapply join_step_ok.
  - by eapply woken_step_ok.
  - by eapply detach_step_ok.
  - pose proof Hrun as (c & Hc & _). destruct (running_calm s me c Hok Hrun Hc) as (Hcalm & _).
    destruct (signal_run me p a s c t s' Hc Hcalm Ht He) as (t' & l & b & n & Ht' & ->). by apply ok_signals.
  - pose proof Hrun as (c & Hc & _). destruct (running_calm s me c Hok Hrun Hc) as (Hcalm & _).
    destruct (life_sigret_run me s c e s' Hc Hcalm He) as [->|(t' & l & b & n & Ht' & ->)]; [done|]. by apply ok_signals.
  - injection He as <-. constructor; [apply Hok|apply Hok|]. intros q u Hu. destruct (ok_thread s Hok q u Hu). by constructor.
Qed.

Lemma init_ok : ok init.
Proof.
  constructor; cbn [finished threads init]; [apply NoDup_nil_2|by intros p ?%elem_of_nil|].
  intros p t Ht. destruct (decide (p = 0)) as [->|]; [|by rewrite lookup_singleton_ne in Ht]. rewrite lookup_singleton_eq in Ht. injection Ht as <-.
  constructor; cbn; [done|by intros ?%elem_of_nil|done|unfold in_call; cbn; split; [done|by left]|done].
Qed.

Lemma reachable_ok s : rtc step init s → ok s.
Proof. intros Hr. apply (rtc_ind_r ok init) in Hr; [done|apply init_ok|]. intros a b _ Hst. by apply step_ok. Qed.


(** A thread that is waited for cannot be aborted: [_abort] of a
    thread outside of any call wakes the joiner although the thread is not dead,
    and the joiner fails the next assertion. *)
Lemma abort_joined_panics s k me p c t st force :
  rtc step init s → threads s !! me = Some c → joining c = Some (p, st) → interrupted c = false →
  threads s !! p = Some t → status t ≠ TS_DEAD → joining t = None →
  ∃ s', _abort k p force s = Done (tt, s') ∧ join_woken me p st s' = Panic "Assertion failed!".
Proof.
  intros Hok%reachable_ok Hc Hjc Hi Ht Hal Hjt. pose proof (ok_thread s Hok me c Hc) as Hgc. destruct (good_calm _ _ _ Hgc) as [Hcr Hac].
  destruct (call_other s me c p st Hgc Hjc) as (Hpm & Hpf & t' & Ht' & Htj & Htd & Hts). assert (t' = t) as -> by congruence.
  pose proof (good_call _ _ _ (ok_thread s Hok p t Ht)) as Hcall. unfold in_call in Hcall. rewrite Hjt in Hcall. destruct Hcall as [Hb _].
  set (t1 := if force then set_detached (set_aborting t) else set_aborting t).
  assert (Hmark : mark_aborting p force s = Done (true, set_threads (<[p := t1]> (threads s)) s)).
  { unfold mark_aborting. rewrite run_bind, (upd_run _ _ _ _ Ht). cbn [fst snd]. rewrite run_bind. unfold t1. destruct force; cbn [when].
    - erewrite upd_run by (cbn; by rewrite lookup_insert_eq). cbn [fst snd set_threads threads thread_counter finished exits]. rewrite insert_insert_eq, run_bind.
      erewrite get_run by (cbn; by rewrite lookup_insert_eq). cbn. unfold isBusy. cbn. by rewrite Hb.
    - cbn [mret stateM_ret fst snd]. rewrite run_bind. erewrite get_run by (cbn; by rewrite lookup_insert_eq). cbn. unfold isBusy. cbn. by rewrite Hb. }
  assert (Ht1 : m_joiner t1 = Some me ∧ status t1 = status t ∧ m_detached t1 = force) by (unfold t1; destruct force; cbn; done). destruct Ht1 as (Hj1 & Hs1 & Hd1).
  exists (set_threads (<[me := set_status TS_RUNNABLE c]> (<[p := t1]> (threads s))) s). split.
  { unfold _abort. rewrite run_bind, Hmark. cbn [fst snd]. rewrite run_bind. erewrite get_run by (cbn; by rewrite lookup_insert_eq). cbn [fst snd]. rewrite Hj1.
    unfold wake_joiner. rewrite (setStatus_run me TS_RUNNABLE _ c); [done|cbn; by rewrite lookup_insert_ne|done]. }
  unfold join_woken. rewrite run_bind. erewrite upd_run by (cbn; by rewrite lookup_insert_eq). cbn [fst snd set_threads threads thread_counter finished exits].
  rewrite insert_insert_eq, run_bind. erewrite get_run by (cbn; by rewrite lookup_insert_eq). cbn [fst snd].
  change (interrupted (set_joining None _)) with (interrupted c). rewrite Hi, run_bind.
  rewrite (get_run p _ t1) by (cbn; rewrite lookup_insert_ne by done; by rewrite lookup_insert_eq). cbn [fst snd]. rewrite Hd1.
  destruct force; [done|]. cbn [negb aex_assert]. rewrite run_bind, lift_run. cbn [fst snd]. rewrite bool_decide_true by done. cbn [aex_assert]. rewrite run_bind, lift_run. cbn [fst snd].
  rewrite run_bind. unfold finish. rewrite run_bind. unfold addCritical. erewrite upd_run by (cbn; by rewrite lookup_insert_eq). cbn [fst snd set_threads threads thread_counter finished exits].
  rewrite insert_insert_eq, run_bind. rewrite (get_run p _ t1) by (cbn; rewrite lookup_insert_ne by done; by rewrite lookup_insert_eq). cbn [fst snd].
  by rewrite bool_decide_false by congruence.
Qed.

(** ** Thread 0 creates thread 1 and joins it *)

Definition demo_two : process := create 1 init.
Definition demo_joined : process :=
  set_threads (<[0 := waiting 1 fresh]> (<[1 := set_joiner (Some 0) fresh]> (threads demo_two))) demo_two.

Lemma demo_joined_reachable : rtc step init demo_joined.
Proof.
  eapply rtc_l; [apply (step_create init 1); done|].
  eapply rtc_l; [|apply rtc_refl]. apply (step_join demo_two demo_joined 0 1 (inr tt)); [exists fresh; split_and!; done|set_solver|].
  rewrite (join_run 0 1 demo_two fresh fresh); done.
Qed.


(** Deviation: thread 1 sends two signals to thread 0, which waits in [join].  The call
    ends and delivers one of them; with the other still pending the exit of thread 0
    fails its assertion. *)
Definition then_ {A} (o : outcome (A * process)) : process := match o with Done (_, s) => s | _ => init end.
Definition demo_signalled : process := then_ (signal 1 0 SIG_IGN (then_ (signal 1 0 SIG_IGN demo_joined))).
Definition demo_returned : process := then_ (join_woken 0 1 (mk_state 1 0 TS_RUNNABLE) demo_signalled).
Lemma exit_signal_left_panics : rtc step init demo_returned ∧ running demo_returned 0 ∧ exit 0 demo_returned = Panic "Assertion failed!".
Proof.
  split_and!; [|eexists; split_and!; [vm_compute; reflexivity|done|done]|vm_compute; reflexivity].
  transitivity demo_joined; [apply demo_joined_reachable|].
  assert (Hrun : ∀ s t, threads s !! 1 = Some t → status t = TS_RUNNABLE → joining t = None → running s 1) by (intros s t; by exists t).
  eapply rtc_l; [eapply (step_signal _ _ 1 0 _ SIG_IGN); [eapply Hrun; [vm_compute; reflexivity|done|done]|vm_compute; reflexivity|done|vm_compute; reflexivity]|].
  eapply rtc_l; [eapply (step_signal _ _ 1 0 _ SIG_IGN); [eapply Hrun; [vm_compute; reflexivity|done|done]|vm_compute; reflexivity|done|vm_compute; reflexivity]|].
  eapply rtc_l; [eapply (step_woken _ _ 0); [vm_compute; reflexivity|done|by right|vm_compute; reflexivity]|]. apply rtc_refl.
Qed.

Lemma abort_joined_panics_witness :
  ∃ s', _abort 2 1 false demo_joined = Done (tt, s') ∧ join_woken 0 1 (mk_state 1 0 TS_RUNNABLE) s' = Panic "Assertion failed!".
Proof.
  apply (abort_joined_panics demo_joined 2 0 1 (waiting 1 fresh) (set_joiner (Some 0) fresh) (mk_state 1 0 TS_RUNNABLE) false demo_joined_reachable); done.
Defined.

End Life.
