(* ===== verification/Platform.v ===== *)
(** * The platform

    [Time]: calendar and clock ([sys/time.cpp], [arch/x86_64/sys/time/rtc.cpp]).
    [Acpi]: the tables of the firmware ([sys/acpi.cpp], [arch/x86_64/sys/acpi.cpp]) in
    physical memory, seen through windows of whole pages.  [Irq]: the handlers of an
    interrupt, which run in the thread they interrupt ([sys/irq.cpp]). *)
From S2P Require Import Prelude Errno Math Str Net Path Elf Modules Event Thread.
From stdpp Require Import gmap.
Local Open Scope Z_scope.

Module Time.
Import Bytes.

Definition day_count_for_each_month : list Z := [31; 28; 31; 30; 31; 30; 31; 31; 30; 31; 0; 0].

(** [for (int i = 0; i < month - 1; i++) day_since_jan1 += ...]. *)
Fixpoint add_months (n : nat) (i days : Z) : outcome Z :=
  match n with O => Done days | S n => c ← day_count_for_each_month.[i]; add_months n (i + 1) (u16 (days + c)) end.

(** The sum is in [uint32_t] from the years on. *)
Definition dt2epoch (year month day hour minute second : Z) : outcome Z :=
  let year_calc := u32 (year - 1900) in
  days ← add_months (Z.to_nat (month - 1)) 0 0;
  let day_since_jan1 := u16 (days + day) in
  Done (u32 (i32 (second + minute * 60 + hour * 3600 + day_since_jan1 * 86400) + u32 (u32 (year_calc - 70) * 31536000) +
    u32 (u32 (year_calc - 69) / 4 * 86400) - u32 (u32 (year_calc - 1) / 100 * 86400) + u32 (u32 (year_calc + 299) / 400 * 86400))).

Record date_time := mk_dt { year : Z; month : Z; day : Z; hour : Z; minute : Z; second : Z }.

(** The month of a day and the day in it; without a month the field keeps its 0. *)
Fixpoint find_month (n : nat) (i d : Z) : outcome (Z * Z) :=
  match n with
  | O => Done (0, d)
  | S n => c ← day_count_for_each_month.[i]; if d <? c then Done (i + 1, d) else find_month n (i + 1) (u16 (d - c))
  end.
Definition epoch2dt (epoch : Z) : outcome date_time :=
  let y := u32 (1970 + Z.quot epoch 31536000) in
  let year_calc := u32 (y - 1900) in
  let epoch := epoch - u32 (u32 (year_calc - 70) * 31536000) - u32 (u32 (year_calc - 69) / 4 * 86400) +
    u32 (u32 (year_calc - 1) / 100 * 86400) - u32 (u32 (year_calc + 299) / 400 * 86400) in
  '(m, d) ← find_month 12 0 (u16 (Z.quot epoch 86400));
  Done (mk_dt y m (u8 d) (u8 (Z.rem (Z.quot epoch 3600) 24)) (u8 (Z.rem (Z.quot epoch 60) 60)) (u8 (Z.rem epoch 60))).

(** *** The clock *)

(** [RTC::irq], on the bytes of the clock. *)
Definition rtc_irq (cmos : Z → Z) (century_index : Z) (normal_hour_format bcd : bool) : outcome Z :=
  let hours := cmos 0x04 in
  let pm := negb (Z.land hours 0x80 =? 0) in
  let hours := u8 (Z.land hours (Z.lnot 0x80)) in
  let from x := if bcd then u8 (fromBCD (swrap 8 x)) else x in
  let actual_year := u32 (from (cmos 0x09) + from (cmos century_index) * 100) in
  let hours := if negb normal_hour_format && pm then u8 (from hours + 12) else from hours in
  dt2epoch actual_year (from (cmos 0x08)) (from (cmos 0x07)) hours (from (cmos 0x02)) (from (cmos 0x00)).

(** ** The calendar *)

Definition leap (y : Z) : bool := (y mod 4 =? 0) && negb (y mod 100 =? 0) || (y mod 400 =? 0).
(** The days of the years 1970, 1971, ..., [n] of them. *)
Fixpoint days_of_years (n : nat) : Z := match n with O => 0 | S n => days_of_years n + if leap (1970 + Z.of_nat n) then 366 else 365 end.
Definition month_lengths (y : Z) : list Z := [31; if leap y then 29 else 28; 31; 30; 31; 30; 31; 31; 30; 31; 30; 31].
Definition sum (l : list Z) : Z := foldr Z.add 0 l.
Definition civil_days (y m d : Z) : Z := days_of_years (Z.to_nat (y - 1970)) + sum (take (Z.to_nat (m - 1)) (month_lengths y)) + (d - 1).
Definition civil_epoch (y m d h mi s : Z) : Z := civil_days y m d * 86400 + h * 3600 + mi * 60 + s.

(** The leap days before a year, in closed form. *)
Lemma days_of_years_closed n :
  let y := 1970 + Z.of_nat n in days_of_years n = 365 * Z.of_nat n + (y - 1969) / 4 - (y - 1901) / 100 + (y - 1601) / 400.
Proof.
  induction n as [|n IH]; [done|]. cbn [days_of_years]. rewrite IH. cbv zeta. set (y := 1970 + Z.of_nat n). replace (1970 + Z.of_nat (S n)) with (y + 1) by lia. replace (Z.of_nat (S n)) with (Z.of_nat n + 1) by lia.
  unfold leap. destruct (Z.eqb_spec (y mod 4) 0), (Z.eqb_spec (y mod 100) 0), (Z.eqb_spec (y mod 400) 0); cbn [andb negb orb]; Z.to_euclidean_division_equations; lia.
Qed.

(** The days before a month in the table of the code: the last two months are missing. *)
Definition table_days (m : Z) : Z := sum (take (Z.to_nat (m - 1)) day_count_for_each_month).
Lemma add_months_ok m : 1 ≤ m ≤ 12 → add_months (Z.to_nat (m - 1)) 0 0 = Done (table_days m) ∧ 0 ≤ table_days m ≤ 304.
Proof.
  intros Hm. assert (Hin : m ∈ seqZ 1 12) by (apply elem_of_seqZ; lia). change (seqZ 1 12) with [1; 2; 3; 4; 5; 6; 7; 8; 9; 10; 11; 12] in Hin.
  repeat (apply elem_of_cons in Hin as [->|Hin]; [vm_compute; intuition congruence|]). by apply not_elem_of_nil in Hin.
Qed.
Lemma table_days_civil y m : 1 ≤ m ≤ 12 →
  sum (take (Z.to_nat (m - 1)) (month_lengths y)) = table_days m + (if leap y && (2 <? m) then 1 else 0) + (if m =? 12 then 30 else 0).
Proof.
  intros Hm. assert (Hin : m ∈ seqZ 1 12) by (apply elem_of_seqZ; lia). change (seqZ 1 12) with [1; 2; 3; 4; 5; 6; 7; 8; 9; 10; 11; 12] in Hin. unfold month_lengths. destruct (leap y); cbn [andb];
    repeat (apply elem_of_cons in Hin as [->|Hin]; [reflexivity|]); by apply not_elem_of_nil in Hin.
Qed.

(** C25 (equivalence): for every date from 1970 to 2105 [dt2epoch] is the number of seconds
    of the calendar, up to three deviations that are stated: it is a day late, as it
    counts the day of the month from 1; a day early after February of a leap year, whose
    29th it does not count; and 30 days early in December, as its table of months ends
    with October. *)
Theorem dt2epoch_civil y m d h mi s :
  1970 ≤ y ≤ 2105 → 1 ≤ m ≤ 12 → 1 ≤ d ≤ 31 → 0 ≤ h < 24 → 0 ≤ mi < 60 → 0 ≤ s < 60 →
  dt2epoch y m d h mi s = Done (civil_epoch y m d h mi s + 86400 * (1 - (if leap y && (2 <? m) then 1 else 0) - (if m =? 12 then 30 else 0))).
Proof.
  intros Hy Hm Hd Hh Hmi Hs. unfold dt2epoch, civil_epoch, civil_days. destruct (add_months_ok m Hm) as [-> Hb]. rewrite bind_ret, (table_days_civil y m Hm), days_of_years_closed.
  replace (1970 + Z.of_nat (Z.to_nat (y - 1970))) with y by lia. rewrite Z2Nat.id by lia. 
  rewrite (wrap_small 16) by lia. rewrite (wrap_small 32 (y - 1900)) by lia. rewrite swrap_small by lia.
  replace (y - 1900 - 70) with (y - 1970) by lia. replace (y - 1900 - 69) with (y - 1969) by lia. replace (y - 1900 - 1) with (y - 1901) by lia. replace (y - 1900 + 299) with (y - 1601) by lia.
  assert (H4 : 0 ≤ (y - 1969) / 4 ≤ 34) by (Z.to_euclidean_division_equations; lia). assert (H100 : 0 ≤ (y - 1901) / 100 ≤ 2) by (Z.to_euclidean_division_equations; lia). assert (H400 : 0 ≤ (y - 1601) / 400 ≤ 1) by (Z.to_euclidean_division_equations; lia).
  rewrite !(wrap_small 32 (y - _)) by lia. rewrite (wrap_small 32 (_ * 31536000)), (wrap_small 32 ((y - 1969) / 4 * _)), (wrap_small 32 ((y - 1901) / 100 * _)), (wrap_small 32 ((y - 1601) / 400 * _)) by lia.
  assert (Hlate : 100 * ((y - 1901) / 100) ≤ y - 1901) by (apply Z.mul_div_le; lia). rewrite wrap_small by lia. f_equal. destruct (leap y && (2 <? m)), (m =? 12); lia.
Qed.

Lemma dt2epoch_civil_witness : dt2epoch 2021 7 4 12 30 15 = Done (civil_epoch 2021 7 4 12 30 15 + 86400).
Proof. rewrite dt2epoch_civil by lia. reflexivity. Defined.

(** *** Deviations *)

(** The first of November 2021 turned back: the fields are those of another day. *)
Example epoch2dt_november : (e ← dt2epoch 2021 11 1 0 0 0; epoch2dt e) = Done (mk_dt 2021 0 1 0 0 0).
Proof. vm_compute. reflexivity. Qed.
(** A clock with twelve hours: noon is 24 o'clock, and midnight is noon. *)
Example rtc_noon : rtc_irq (λ a, if a =? 4 then 0x8C else if (a =? 8) || (a =? 7) then 1 else if a =? 0x32 then 20 else 0) 0x32 false false = dt2epoch 2000 1 1 24 0 0.
Proof. vm_compute. reflexivity. Qed.

End Time.

Module Acpi.
Import Str ELF Modules.

Section Acpi.
(** Physical memory, which does not change. *)
Context (mem : memory).

(** What [map] of [bytes] at [paddr] makes accessible ends here: whole pages.  What lies
    behind is another mapping or none; an access there counts as a fault. *)
Definition window_end (paddr bytes : Z) : Z := paddr - paddr mod 4096 + ((bytes + 4095) / 4096 + (if paddr mod 4096 >? 0 then 1 else 0)) * 4096.
(** A little-endian field of a structure, within the window. *)
Definition field (wend a n : Z) : outcome Z := if a + n >? wend then Fault else bs ← fetch a (Z.to_nat n) mem; Done (le_value bs).

Fixpoint sum_from (n : nat) (wend a sum : Z) : outcome Z :=
  match n with O => Done sum | S n => b ← field wend a 1; sum_from n wend (a + 1) (u8 (sum + b)) end.
Definition validate_table (wend tbl len : Z) : outcome bool := s ← sum_from (Z.to_nat len) wend tbl 0; Done (s =? 0).

(** A table: its address and the end of its window. *)
Record acpi_table := mk_table { t_addr : Z; t_end : Z }.

Definition add_table (t : acpi_table) (tables : list acpi_table) : outcome (bool * list acpi_table) :=
  len ← field (t_end t) (t_addr t + 4) 4;
  ok ← validate_table (t_end t) (t_addr t) len;
  if negb ok then Done (false, tables) else Done (true, tables ++ [t]).

(** *** The root pointer *)

Definition RSD_PTR : list Z := lit "RSD PTR ".
Fixpoint find_from (n : nat) (i : Z) : outcome (option Z) :=
  match n with O => Done None | S n => bs ← fetch i 8 mem; if bool_decide (bs = RSD_PTR) then Done (Some i) else find_from n (i + 16) end.
Definition find_rsdptr : outcome (option Z) :=
  r ← find_from 64 0x00; if negb (default 0 r =? 0) then Done r else find_from 8192 0x000E0000.

Definition sizeof_rsdp : Z := 20.
Definition sizeof_xsdp : Z := 36.
Definition find_rsdp : outcome (option Z) :=
  p ← find_rsdptr;
  match p with
  | None => Done None
  | Some a =>
      let e := window_end a sizeof_rsdp in
      xok ← validate_table e a sizeof_xsdp;
      xaddr ← (if xok : bool then field e (a + 24) 8 else Done 0);
      if xok && negb (xaddr =? 0) then Done None
      else
        ok ← validate_table e a sizeof_rsdp;
        if negb ok then Done None else addr ← field e (a + 16) 4; Done (if addr =? 0 then None else Some a)
  end.
Definition find_xsdp : outcome (option Z) :=
  p ← find_rsdptr;
  match p with
  | None => Done None
  | Some a =>
      let e := window_end a sizeof_xsdp in
      ok ← validate_table e a sizeof_xsdp;
      if negb ok then Done None else addr ← field e (a + 24) 8; Done (if addr =? 0 then None else Some a)
  end.

(** *** The tables *)

(** A table that is mapped with its own length. *)
Definition map_table (addr : Z) : outcome acpi_table := len ← field (window_end addr 36) (addr + 4) 4; Done (mk_table addr (window_end addr len)).

Fixpoint add_pointers (turns : nat) (wide : bool) (root : acpi_table) (i len : Z) (tables : list acpi_table) : outcome (list acpi_table) :=
  if negb (i <? len) then Done tables
  else
    match turns with
    | O => Fault
    | S turns =>
        addr ← field (t_end root) (t_addr root + i) (if wide then 8 else 4);
        t ← (if wide then map_table addr else Done (mk_table addr (window_end addr 4096)));
        '(_, tables) ← add_table t tables;
        add_pointers turns wide root (if wide then i + 8 else i + 4) len tables
    end.

(** [memcmp] of the signature with the first four bytes of a table. *)
Fixpoint find_table (signature : list Z) (index : Z) (tables : list acpi_table) : outcome (option acpi_table) :=
  match tables with
  | [] => Done None
  | t :: tables =>
      bs ← fetch (t_addr t) 4 mem;
      if negb (bool_decide (bs = signature)) then find_table signature index tables
      else if index >? 0 then find_table signature (index - 1) tables else Done (Some t)
  end.

Definition facp_init (tables : list acpi_table) : outcome (list acpi_table) :=
  f ← find_table (lit "FACP") 0 tables;
  match f with
  | None => Panic "assertion failed"
  | Some f =>
      dsdt ← field (t_end f) (t_addr f + 40) 4;
      t ← map_table dsdt;
      '(_, tables) ← add_table t tables;
      pm ← field (t_end f) (t_addr f + 76) 4;
      if pm =? 0 then Panic "assertion failed" else Done tables
  end.

(** The root table with its window, [wide] for the one with 64-bit pointers. *)
Definition load_root (wide : bool) (root : acpi_table) : outcome (option (Z * list acpi_table)) :=
  '(ok, tables) ← add_table root [];
  if negb ok then Done None
  else
    revision ← field (t_end root) (t_addr root + 8) 1;
    len ← field (t_end root) (t_addr root + 4) 4;
    tables ← add_pointers (Z.to_nat (len / 4)) wide root 36 len tables;
    tables ← facp_init tables;
    Done (Some (revision, tables)).
Definition init : outcome (option (Z * list acpi_table)) :=
  x ← find_xsdp;
  match x with
  | Some a =>
      len ← field (window_end a sizeof_xsdp) (a + 20) 4; addr ← field (window_end a sizeof_xsdp) (a + 24) 8;
      load_root true (mk_table addr (window_end addr len))
  | None =>
      r ← find_rsdp;
      match r with
      | Some a => addr ← field (window_end a sizeof_rsdp) (a + 16) 4; load_root false (mk_table addr (window_end addr 4096))
      | None => Done None
      end
  end.

(** ** Valid tables *)

(** The bytes of the table that its length field covers sum to a multiple of 256. *)
Definition valid (t : acpi_table) : Prop := ∃ len, field (t_end t) (t_addr t + 4) 4 = Done len ∧ validate_table (t_end t) (t_addr t) len = Done true.

Lemma add_table_valid t l ok l' : Forall valid l → add_table t l = Done (ok, l') → Forall valid l' ∧ (l' = l ∨ l' = l ++ [t]).
Proof.
  intros Hl He. unfold add_table in He. apply bind_Done in He as (len & Hlen & He). apply bind_Done in He as (b & Hb & He). destruct b; cbn [negb] in He; injection He as <- <-; [|by split; [|left]].
  split; [|by right]. apply Forall_app. split; [done|]. constructor; [|constructor]. by exists len.
Qed.

Lemma add_pointers_valid turns wide root i len l l' : Forall valid l → add_pointers turns wide root i len l = Done l' → Forall valid l'.
Proof.
  revert i l. induction turns as [|turns IH]; intros i l Hl; cbn [add_pointers]; destruct (negb (i <? len)); [by intros [= <-]|done|by intros [= <-]|]. intros He.
  apply bind_Done in He as (addr & _ & He). apply bind_Done in He as (t & _ & He). apply bind_Done in He as ([ok l1] & Ha & He). apply add_table_valid in Ha as [Ha _]; [|done]. by eapply IH.
Qed.

(** Every table that [init] leaves is valid. *)
Lemma init_tables_valid rev tables : init = Done (Some (rev, tables)) → Forall valid tables.
Proof.
  assert (Hload : ∀ wide root, load_root wide root = Done (Some (rev, tables)) → Forall valid tables).
  { intros wide root He. unfold load_root in He. apply bind_Done in He as ([ok l] & Ha & He). apply add_table_valid in Ha as [Ha _]; [|constructor]. destruct ok; cbn [negb] in He; [|done].
    apply bind_Done in He as (r & _ & He). apply bind_Done in He as (len & _ & He). apply bind_Done in He as (l1 & H1 & He). apply add_pointers_valid in H1; [|done].
    apply bind_Done in He as (l2 & H2 & [= <- <-]). unfold facp_init in H2. apply bind_Done in H2 as ([f|] & _ & H2); [|done]. apply bind_Done in H2 as (dsdt & _ & H2). apply bind_Done in H2 as (t & _ & H2).
    apply bind_Done in H2 as ([ok2 l3] & H3 & H2). apply add_table_valid in H3 as [H3 _]; [|done]. apply bind_Done in H2 as (pm & _ & H2). by destruct (pm =? 0); [|injection H2 as <-]. }
  intros He. unfold init in He. apply bind_Done in He as ([a|] & _ & He).
  - apply bind_Done in He as (len & _ & He). apply bind_Done in He as (addr & _ & He). by eapply Hload.
  - apply bind_Done in He as ([a|] & _ & He); [|done]. apply bind_Done in He as (addr & _ & He). by eapply Hload.
Qed.

Definition has_signature (sg : list Z) (t : acpi_table) : bool := match fetch (t_addr t) 4 mem with Done bs => bool_decide (bs = sg) | _ => false end.
(** [find_table] is the table at [index] among those of the signature. *)
Lemma find_table_nth sg index tables :
  0 ≤ index → Forall (λ t, ∃ bs, fetch (t_addr t) 4 mem = Done bs) tables →
  find_table sg index tables = Done (filter (has_signature sg) tables !! Z.to_nat index).
Proof.
  intros Hi Hr. revert index Hi. induction Hr as [|t l [bs Hbs] _ IH]; intros index Hi; cbn [find_table]; [done|]. rewrite Hbs, bind_ret.
  assert (Hs : has_signature sg t = bool_decide (bs = sg)) by (unfold has_signature; by rewrite Hbs). rewrite filter_cons.
  destruct (bool_decide_reflect (bs = sg)) as [->|Hne]; cbn [negb].
  - rewrite decide_True by (by rewrite Hs). destruct (Z.gtb_spec index 0) as [Hgt|Hle]; [|by replace (Z.to_nat index) with 0%nat by lia]. rewrite IH by lia. by replace (Z.to_nat index) with (S (Z.to_nat (index - 1))) by lia.
  - rewrite decide_False by (rewrite Hs; auto). by apply IH.
Qed.

End Acpi.

(** *** A machine with the 32-bit root table *)

Definition checked (at_ : nat) (bs : list Z) : list Z := <[at_ := (- foldr Z.add 0 bs) mod 256]> bs.
Definition sdt (sg : string) (body : list Z) : list Z :=
  checked 9 (lit sg ++ le_bytes 4 (36 + Z.of_nat (length body)) ++ [1] ++ replicate 27 0 ++ body).
Definition place (a : Z) (bs : list Z) : memory := list_to_map (zip (seqZ a (Z.of_nat (length bs))) bs).
Definition firmware : memory :=
  place 0 (replicate 16 0 ++ checked 8 (RSD_PTR ++ replicate 8 0 ++ le_bytes 4 0x1000) ++ [1] ++ replicate 15 0) ∪
  place 0x1000 (sdt "RSDT" (le_bytes 4 0x2000 ++ le_bytes 4 0x4000)) ∪
  place 0x2000 (sdt "FACP" (replicate 4 0 ++ le_bytes 4 0x3000 ++ replicate 32 0 ++ le_bytes 4 0x608)) ∪
  place 0x3000 (sdt "DSDT" []) ∪ place 0x4000 (<[9%nat := 1]> (sdt "BAD " [])).
(** The table with the bad checksum is left out; the one that FACP names is added last. *)
Example firmware_found : init firmware = Done (Some (1, [mk_table 0x1000 0x2000; mk_table 0x2000 0x3000; mk_table 0x3000 0x4000])).
Proof. vm_compute. reflexivity. Qed.
(** A table longer than the page that is mapped of it is summed past the mapping. *)
Example long_table_faults : add_table (place 0x1000 (sdt "SSDT" (replicate 5000 0))) (mk_table 0x1000 (window_end 0x1000 4096)) [] = Fault.
Proof. vm_compute. reflexivity. Qed.

End Acpi.

Module Irq.
Import Threads Life.

Section Irq.
(** The functions that drivers register, and what a call of one does. *)
Context {F : Type} `{EqDecision F} (run : F → Z → M unit).

(** A [handler_array]: functions, which may be null, with their arguments. *)
Definition handler_array : Type := list (option F * Z).
Definition add (f : option F) (arg : Z) (h : handler_array) : handler_array := if bool_decide ((f, arg) ∈ h) then h else h ++ [(f, arg)].
Fixpoint call (h : handler_array) : M unit :=
  match h with [] => mret tt | (f, arg) :: h => match f with Some f => run f arg | None => mret tt end;; call h end.

(** [handle], in the thread [me] that the interrupt found. *)
Definition handle (me irq : Z) (handlers : list handler_array) : M unit :=
  lift (aex_assert (irq <? 32));;
  t ← get_thread me;
  let state := saveState t in
  upd me (λ t, set_counts (m_busy t) 1 t);;
  upd me (λ t, set_counts 0 (m_critical t) t);;
  setStatus me TS_RUNNABLE;;
  h ← lift (handlers.[irq]);
  call h;;
  loadState me state.
Definition register_handler (irq : Z) (f : option F) (arg : Z) (handlers : list handler_array) : outcome (list handler_array) :=
  h ← handlers.[irq]; handlers.[irq := add f arg h].

(** A handler is on the list once however often it was registered. *)
Lemma registered_once irq f arg (all : list handler_array) (h : handler_array) :
  Forall (@NoDup _) all → all !! Z.to_nat irq = Some h → 0 ≤ irq →
  ∃ all' h', register_handler irq f arg all = Done all' ∧ Forall (@NoDup _) all' ∧ all' !! Z.to_nat irq = Some h' ∧ (f, arg) ∈ h' ∧ ∀ p, p ∈ h → p ∈ h'.
Proof.
  intros Hnd Hh Hi. pose proof (lookup_lt_Some _ _ _ Hh) as Hlt. assert (Hr : all.[irq] = Done h) by by apply rd_Done. unfold register_handler. rewrite Hr, bind_ret, wr_in_range by lia.
  assert (Hadd : NoDup (add f arg h) ∧ (f, arg) ∈ add f arg h ∧ ∀ p, p ∈ h → p ∈ add f arg h).
  { pose proof (Forall_lookup_1 _ _ _ _ Hnd Hh) as Hn. unfold add. destruct (bool_decide_reflect ((f, arg) ∈ h)) as [Hin|Hin]; [done|]. split_and!; [|set_solver|set_solver].
    apply NoDup_app. split_and!; [done|set_solver|apply NoDup_singleton]. }
  destruct Hadd as (H1 & H2 & H3). eexists _, _. split_and!; [reflexivity|by apply Forall_insert|by apply list_lookup_insert_eq|exact H2|apply H3].
Qed.

(** A thread of the process stays one while a handler runs, and the handler returns. *)
Definition returns (me : Z) (f : F) : Prop := ∀ arg s, is_Some (threads s !! me) → ∃ s', run f arg s = Done (tt, s') ∧ is_Some (threads s' !! me).
Lemma call_returns me h s :
  (∀ f arg, (Some f, arg) ∈ h → returns me f) → is_Some (threads s !! me) → ∃ s', call h s = Done (tt, s') ∧ is_Some (threads s' !! me).
Proof.
  revert s. induction h as [|[[f|] arg] h IH]; intros s Hh Hs; cbn [call]; [by exists s| |].
  - destruct (Hh f arg (list_elem_of_here _ _) arg s Hs) as (s1 & H1 & Hs1). destruct (IH s1) as (s2 & H2 & Hs2); [intros g b Hg; eapply Hh; by right|done|]. exists s2. by rewrite run_bind, H1.
  - destruct (IH s) as (s2 & H2 & Hs2); [intros g b Hg; eapply Hh; by right|done|]. by exists s2.
Qed.

(** Whatever the handlers do to the thread they interrupt, it goes on with the status
    and the counters it had. *)
Lemma handle_restores me irq (all : list handler_array) (h : handler_array) s t :
  0 ≤ irq < 32 → all !! Z.to_nat irq = Some h → threads s !! me = Some t → (∀ f arg, (Some f, arg) ∈ h → returns me f) →
  ∃ s' t', handle me irq all s = Done (tt, s') ∧ threads s' !! me = Some t' ∧ saveState t' = saveState t.
Proof.
  intros Hirq Hh Ht Hret. assert (Hr : all.[irq] = Done h) by (apply rd_Done; split; [lia|done]).
  set (s1 := set_threads (<[me := set_status TS_RUNNABLE (set_counts 0 1 t)]> (threads s)) s).
  destruct (call_returns me h s1 Hret) as (s2 & H2 & [t2 Ht2]); [exists (set_status TS_RUNNABLE (set_counts 0 1 t)); apply lookup_insert_eq|].
  exists (set_threads (<[me := set_status (status t) (set_counts (m_busy t) (m_critical t) t2)]> (threads s2)) s2), (set_status (status t) (set_counts (m_busy t) (m_critical t) t2)).
  split_and!; [|apply lookup_insert_eq|done]. unfold handle. rewrite (lift_bind _ tt) by (replace (irq <? 32) with true by lia; done). rewrite run_bind. unfold get_thread. rewrite Ht. cbn [fst snd].
  rewrite run_bind, (upd_run _ _ _ _ Ht). cbn [fst snd]. rewrite run_bind. erewrite upd_run by (cbn; apply lookup_insert_eq). cbn [fst snd]. rewrite run_bind.
  erewrite setStatus_run by (cbn; first [apply lookup_insert_eq|done]). cbn [fst snd]. rewrite (lift_bind _ h) by done. rewrite run_bind.
  cbn [set_threads threads]. rewrite !insert_insert_eq.
  match goal with |- context [call h ?s0] => replace s0 with s1 by (subst s1; done) end. rewrite H2. cbn [fst snd]. unfold loadState. by rewrite (upd_run _ _ _ _ Ht2).
Qed.

End Irq.

End Irq.
