(* ===== verification/Process.v ===== *)
(** * Processes: exit, wait and the process tree

    [proc/process.cpp].  The process list is the list of its processes in ring
    order ([CircularList] of Sched shows that the ring is that list), and a process
    is named by its pid, which the invariant makes unique.  [exit_threaded] runs in
    three parts, each one step: it aborts the threads, releases the resources once
    the last thread is gone, and enters the table under [processes_lock].  Names,
    working directory, environment and page map are not modelled. *)
From S2P Require Import Prelude Event Containers.
Local Open Scope Z_scope.

Module ProcessTree.
Import Threads.

(** The error codes these functions use. *)
Inductive error_t := ENONE | ECHILD | EAGAIN | ESRCH | EINTR | EINVAL.
#[global] Instance error_t_eq : EqDecision error_t.
Proof. solve_decision. Defined.

Abbreviation lazy := (@LazyVector.LazyVector Z).

Record Process := mk_process {
  pid : Z;
  parent_pid : Z;
  status : status_t;
  ret_code : Z;
  m_exiting : bool;
  thread_counter : Z;
  threads : lazy;
  mmap_regions : lazy;
  descs : lazy;
  child_raised : Z;
}.

(** What is left to do of an [exit_threaded] the broker got. *)
Inductive phase := Queued | Aborting | Released.

(** The process list and the static [counter] of [add_process], the exits under
    way, and the calls made: [Thread::abort(true)], [delete region] and
    [file->close()]. *)
Record table := mk_table {
  procs : list Process;
  counter : Z;
  exits : list (Z * phase);
  aborted : list Z;
  deleted : list Z;
  closed : list Z;
}.

Definition with_pid (i : Z) (l : list Process) : option Process := snd <$> list_find (λ p, pid p = i) l.
Definition update (i : Z) (f : Process → Process) (l : list Process) : list Process :=
  (λ p, if pid p =? i then f p else p) <$> l.
Definition set_procs (l : list Process) (t : table) : table :=
  mk_table l (counter t) (exits t) (aborted t) (deleted t) (closed t).
Definition set_exits (l : list (Z * phase)) (t : table) : table :=
  mk_table (procs t) (counter t) l (aborted t) (deleted t) (closed t).

(** [Process::Process]. *)
Definition create (parent : Z) (t : table) : table :=
  mk_table (procs t ++ [mk_process (counter t) parent TS_FRESH 0 false 0 LazyVector.empty LazyVector.empty LazyVector.empty 0])
    (i32 (counter t + 1)) (exits t) (aborted t) (deleted t) (closed t).

Definition ready (i : Z) (t : table) : table :=
  set_procs (update i (λ p, mk_process (pid p) (parent_pid p) TS_RUNNABLE (ret_code p) (m_exiting p) (thread_counter p) (threads p)
    (mmap_regions p) (descs p) (child_raised p)) (procs t)) t.

(** [Process::exit], up to the loop that waits to be aborted. *)
Definition exit (i code : Z) (t : table) : table :=
  match with_pid i (procs t) with
  | None => t
  | Some p =>
      if m_exiting p then t
      else
        set_exits (exits t ++ [(i, Queued)])
          (set_procs (update i (λ p, mk_process (pid p) (parent_pid p) (status p) code true (thread_counter p) (threads p)
            (mmap_regions p) (descs p) (child_raised p)) (procs t)) t)
  end.

(** [for (int i = 0; i < v.count(); i++) if (v.present(i)) f(v.at(i))]. *)
Fixpoint visit (n : nat) (v : lazy) (i : Z) (done_ : list Z) : outcome (list Z) :=
  match n with
  | O => Done done_
  | S n =>
      if i <? LazyVector.m_count v then
        b ← LazyVector.present v i;
        if (b : bool) then x ← LazyVector.at_ v i; visit n v (i + 1) (done_ ++ [x])
        else visit n v (i + 1) done_
      else Done done_
  end.

(** The loop that erases and deletes the regions; [count] is read in every turn. *)
Fixpoint erase_all (n : nat) (v : lazy) (i : Z) (done_ : list Z) : outcome (lazy * list Z) :=
  match n with
  | O => Done (v, done_)
  | S n =>
      if i <? LazyVector.m_count v then
        b ← LazyVector.present v i;
        if (b : bool) then
          x ← LazyVector.at_ v i;
          v ← LazyVector.erase 0 v i;
          erase_all n v (i + 1) (done_ ++ [x])
        else erase_all n v (i + 1) done_
      else Done (v, done_)
  end.

(** The first part of [exit_threaded]. *)
Definition abort_threads (i : Z) (t : table) : outcome table :=
  match with_pid i (procs t) with
  | None => Fault
  | Some p =>
      l ← visit (Z.to_nat (LazyVector.m_count (threads p))) (threads p) 0 [];
      Done (mk_table (procs t) (counter t) (exits t) (aborted t ++ l) (deleted t) (closed t))
  end.

(** The second: the regions and the descriptors. *)
Definition release (i : Z) (t : table) : outcome table :=
  match with_pid i (procs t) with
  | None => Fault
  | Some p =>
      '(regions, l) ← erase_all (Z.to_nat (LazyVector.m_count (mmap_regions p))) (mmap_regions p) 0 [];
      c ← visit (Z.to_nat (LazyVector.m_count (descs p))) (descs p) 0 [];
      Done (mk_table
        (update i (λ p, mk_process (pid p) (parent_pid p) (status p) (ret_code p) (m_exiting p) (thread_counter p) (threads p)
           regions (descs p) (child_raised p)) (procs t))
        (counter t) (exits t) (aborted t) (deleted t ++ l) (closed t ++ c))
  end.

Definition set_dead (p : Process) : Process :=
  mk_process (pid p) (parent_pid p) TS_DEAD (ret_code p) (m_exiting p) (thread_counter p) (threads p) (mmap_regions p) (descs p) (child_raised p).
Definition set_parent (q : Z) (p : Process) : Process :=
  mk_process (pid p) q (status p) (ret_code p) (m_exiting p) (thread_counter p) (threads p) (mmap_regions p) (descs p) (child_raised p).
Definition raise_child (p : Process) : Process :=
  mk_process (pid p) (parent_pid p) (status p) (ret_code p) (m_exiting p) (thread_counter p) (threads p) (mmap_regions p) (descs p) (child_raised p + 1).

(** The third, under [processes_lock]: [get_process] of no process is a null
    pointer, which is followed. *)
Definition enter_dead (i : Z) (t : table) : outcome table :=
  match with_pid i (procs t) with
  | None => Fault
  | Some p =>
      let l := update i set_dead (procs t) in
      let l := (λ c, if parent_pid c =? i then set_parent (parent_pid p) c else c) <$> l in
      match with_pid i l with
      | None => Fault
      | Some p =>
          match with_pid (parent_pid p) l with
          | None => Fault
          | Some _ => Done (set_procs (update (parent_pid p) raise_child l) t)
          end
      end
  end.

(** The loop of [try_get]: the child found is taken off the list by its
    destructor. *)
Fixpoint try_get_loop (me : Z) (error : error_t) (l : list Process) : (error_t + Z * Z) * list Process :=
  match l with
  | [] => (inl error, [])
  | p :: l =>
      if negb (parent_pid p =? me) then let '(r, l) := try_get_loop me error l in (r, p :: l)
      else if negb (bool_decide (status p = TS_DEAD)) then let '(r, l) := try_get_loop me EAGAIN l in (r, p :: l)
      else (inr (pid p, ret_code p), l)
  end.
Definition try_get (me : Z) (t : table) : (error_t + Z * Z) * table :=
  let '(r, l) := try_get_loop me ECHILD (procs t) in (r, set_procs l t).

(** A turn of [Process::wait]: the call returns, or it waits for [child_event]. *)
Inductive waited := WReturns (r : error_t + Z * Z) | WBlocks.
Definition wait (me : Z) (t : table) : waited * table :=
  let '(val, t) := try_get me t in
  match val with
  | inl e => if bool_decide (e = ECHILD) then (WReturns (inl ECHILD), t) else (WBlocks, t)
  | inr v => (WReturns (inr v), t)
  end.
(** After the yield: return or another turn. *)
Definition wait_woken (interrupted : bool) (me : Z) (t : table) : waited * table :=
  if interrupted then (WReturns (inl EINTR), t) else wait me t.

(** [Process::kill]: [signal] is what [Process::signal] answers. *)
Definition kill (signal : Process → error_t) (i : Z) (t : table) : error_t :=
  match with_pid i (procs t) with
  | None => ESRCH
  | Some p => if bool_decide (status p = TS_FRESH) then ESRCH else signal p
  end.

(** [assoc] and [unassoc] on the vector of threads. *)
Definition assoc (thread : Z) (v : lazy) : outcome lazy := '(_, v) ← LazyVector.push 0 v thread; Done v.
Fixpoint unassoc_loop (n : nat) (thread : Z) (v : lazy) (i : Z) : outcome lazy :=
  match n with
  | O => Done v
  | S n =>
      b ← LazyVector.present v i;
      if negb (b : bool) then unassoc_loop n thread v (i + 1)
      else
        x ← LazyVector.at_ v i;
        if negb (x =? thread) then unassoc_loop n thread v (i + 1) else LazyVector.erase 0 v i
  end.
Definition unassoc (thread : Z) (v : lazy) : outcome lazy := unassoc_loop (Z.to_nat (LazyVector.m_count v)) thread v 0.

(** ** The process tree

    Every step is one of the sections above.  A process gets threads from its own
    threads, or from its creator before it exits, and is created by a thread of
    its parent; the idle process, pid 0, never exits. *)

Inductive step : table → table → Prop :=
  | step_create t q :
      q ∈ procs t → 0 < thread_counter q → counter t < 2 ^ 31 - 1 → step t (create (pid q) t)
  | step_ready t i : (∃ p, p ∈ procs t ∧ pid p = i ∧ status p = TS_FRESH) → step t (ready i t)
  | step_threads t p n :
      p ∈ procs t → (m_exiting p = false ∨ 0 < thread_counter p) → 0 ≤ n →
      step t (set_procs (update (pid p) (λ p, mk_process (pid p) (parent_pid p) (status p) (ret_code p) (m_exiting p) n (threads p)
        (mmap_regions p) (descs p) (child_raised p)) (procs t)) t)
  | step_exit t i code : i ≠ 0 → step t (exit i code t)
  | step_abort t i l1 l2 t' :
      exits t = l1 ++ (i, Queued) :: l2 → abort_threads i t = Done t' → step t (set_exits (l1 ++ (i, Aborting) :: l2) t')
  | step_release t i l1 l2 p t' :
      exits t = l1 ++ (i, Aborting) :: l2 → with_pid i (procs t) = Some p → thread_counter p = 0 →
      release i t = Done t' → step t (set_exits (l1 ++ (i, Released) :: l2) t')
  | step_dead t i l1 l2 t' :
      exits t = l1 ++ (i, Released) :: l2 → enter_dead i t = Done t' → step t (set_exits (l1 ++ l2) t')
  | step_wait t me : step t (wait me t).2.

Definition first_process (i : Z) : Process :=
  mk_process i 0 TS_RUNNABLE 0 false 1 LazyVector.empty LazyVector.empty LazyVector.empty 0.
Definition init : table := mk_table [first_process 0; first_process 1] 2 [] [] [] [].

(** A process that has entered its exit. *)
Definition leaving (t : table) (p : Process) : Prop :=
  status p = TS_DEAD ∨ ∃ ph, (pid p, ph) ∈ exits t.

Record inv (t : table) : Prop := mk_inv {
  inv_pids : NoDup (pid <$> procs t);
  inv_counter : ∀ p, p ∈ procs t → 0 ≤ pid p < counter t;
  inv_older : ∀ p, p ∈ procs t → pid p = 0 ∧ parent_pid p = 0 ∨ 0 ≤ parent_pid p < pid p;
  inv_parent : ∀ p, p ∈ procs t → ∃ q, q ∈ procs t ∧ pid q = parent_pid p ∧ status q ≠ TS_DEAD;
  inv_exits : NoDup (fst <$> exits t);
  inv_exiting : ∀ i ph, (i, ph) ∈ exits t → i ≠ 0 ∧ ∃ p, p ∈ procs t ∧ pid p = i ∧ status p ≠ TS_DEAD ∧ m_exiting p = true ∧ (ph = Released → thread_counter p = 0);
  inv_dead : ∀ p, p ∈ procs t → status p = TS_DEAD → m_exiting p = true ∧ thread_counter p = 0;
}.

Lemma with_pid_Some i l p : NoDup (pid <$> l) → with_pid i l = Some p ↔ p ∈ l ∧ pid p = i.
Proof.
  intros Hnd. unfold with_pid. split.
  - intros ([j x] & (Hj & Hx & _)%list_find_Some & ->)%fmap_Some. simpl. split; [by eapply list_elem_of_lookup_2|done].
  - intros [Hp Hi]. destruct (list_find (λ p, pid p = i) l) as [[j x]|] eqn:E.
    + apply list_find_Some in E as (Hj & Hx & _). simpl. f_equal. apply list_elem_of_lookup_1 in Hp as [k Hk].
      assert (j = k) as ->; [|congruence]. eapply (NoDup_lookup (pid <$> l)); [done|rewrite list_lookup_fmap, Hj; done|].
      rewrite list_lookup_fmap, Hk. simpl. congruence.
    + apply list_find_None in E. rewrite Forall_forall in E. by destruct (E p Hp).
Qed.

Lemma elem_update i f l p : p ∈ update i f l ↔ ∃ q, q ∈ l ∧ p = if pid q =? i then f q else q.
Proof. unfold update. rewrite list_elem_of_fmap. naive_solver. Qed.

Lemma update_pids i f l : (∀ p, pid (f p) = pid p) → pid <$> update i f l = pid <$> l.
Proof.
  intros Hf. unfold update. rewrite <-list_fmap_compose. apply list_fmap_ext. intros j p _. simpl. by destruct (pid p =? i).
Qed.

(** A change of members the tree does not depend on keeps the invariant. *)
Lemma inv_update t t' g :
  inv t → procs t' = g <$> procs t → counter t' = counter t → (∀ p, p ∈ procs t → pid (g p) = pid p ∧ parent_pid (g p) = parent_pid p) →
  (∀ p, p ∈ procs t → status (g p) = TS_DEAD ↔ status p = TS_DEAD) →
  (∀ p, p ∈ procs t → m_exiting p = true → m_exiting (g p) = true) → (∀ p, p ∈ procs t → leaving t' (g p) → thread_counter p = 0 → thread_counter (g p) = 0) →
  NoDup (fst <$> exits t') →
  (∀ i ph, (i, ph) ∈ exits t' → i ≠ 0 ∧ ∃ p, p ∈ procs t ∧ pid p = i ∧ status p ≠ TS_DEAD ∧ m_exiting (g p) = true ∧ (ph = Released → thread_counter p = 0)) →
  inv t'.
Proof.
  intros Hi Hp Hc Hid Hst Hex Hth Hnd Hexits.
  assert (Hin : ∀ p, p ∈ procs t' ↔ ∃ q, q ∈ procs t ∧ p = g q) by (intros p; rewrite Hp, list_elem_of_fmap; naive_solver).
  constructor.
  - rewrite Hp, <-list_fmap_compose. erewrite list_fmap_ext; [apply (inv_pids t Hi)|]. intros j p Hj. apply (Hid p). by eapply list_elem_of_lookup_2.
  - intros p (q & Hq & ->)%Hin. rewrite Hc. destruct (Hid q Hq) as [-> _]. by apply (inv_counter t Hi).
  - intros p (q & Hq & ->)%Hin. destruct (Hid q Hq) as [-> ->]. by apply (inv_older t Hi).
  - intros p (q & Hq & ->)%Hin. destruct (inv_parent t Hi q Hq) as (r & Hr & Hpr & Hs). exists (g r). split_and!; [apply Hin; by eexists| |].
    + destruct (Hid q Hq) as [_ ->]. by destruct (Hid r Hr) as [-> _].
    + by rewrite Hst.
  - done.
  - intros i ph Hiph. destruct (Hexits i ph Hiph) as (H0 & p & Hpp & Hpid & Hs & Hm & Ht). split; [done|]. exists (g p).
    split_and!; [apply Hin; by eexists| |by rewrite Hst|done|].
    + by destruct (Hid p Hpp) as [-> _].
    + intros ->. apply Hth; [done| |by apply Ht]. right. exists Released. destruct (Hid p Hpp) as [-> _]. by rewrite Hpid.
  - intros p (q & Hq & ->)%Hin Hd. pose proof Hd as Hd'. apply (Hst q Hq) in Hd as Hdq. destruct (inv_dead t Hi q Hq Hdq) as [H1 H2]. split; [by apply Hex|].
    apply Hth; [done|by left|done].
Qed.

Lemma pid_inj t p q : inv t → p ∈ procs t → q ∈ procs t → pid p = pid q → p = q.
Proof.
  intros Hi Hp Hq He.
  assert (with_pid (pid q) (procs t) = Some q) by (by apply with_pid_Some; [apply Hi|]).
  assert (with_pid (pid q) (procs t) = Some p) by (by apply with_pid_Some; [apply Hi|]). congruence.
Qed.

(** The phase of an exit moves on. *)
Lemma phase_moves t t' i l1 l2 ph ph' g :
  inv t → exits t = l1 ++ (i, ph) :: l2 → exits t' = l1 ++ (i, ph') :: l2 → procs t' = g <$> procs t → counter t' = counter t →
  (∀ p, p ∈ procs t → pid (g p) = pid p ∧ parent_pid (g p) = parent_pid p ∧ status (g p) = status p ∧ m_exiting (g p) = m_exiting p ∧ thread_counter (g p) = thread_counter p) →
  (ph' = Released → ∃ p, p ∈ procs t ∧ pid p = i ∧ thread_counter p = 0) → inv t'.
Proof.
  intros Hi He He' Hp Hc Hg Hr. apply (inv_update t t' g); try done.
  - intros p Hpp. destruct (Hg p Hpp) as (? & ? & _). done.
  - intros p Hpp. destruct (Hg p Hpp) as (_ & _ & -> & _). done.
  - intros p Hpp. destruct (Hg p Hpp) as (_ & _ & _ & -> & _). done.
  - intros p Hpp _. destruct (Hg p Hpp) as (_ & _ & _ & _ & ->). done.
  - pose proof (inv_exits t Hi) as Hnd. rewrite He in Hnd. rewrite He'. rewrite !fmap_app, !fmap_cons in *. done.
  - intros j ph0 Hj. rewrite He' in Hj. apply elem_of_app in Hj as [Hj|[Hj|Hj]%elem_of_cons].
    1,3: destruct (inv_exiting t Hi j ph0) as (H0 & p & Hpp & Hpid & Hs & Hm & Ht);
      [rewrite He; set_solver|split; [done|]; exists p; split_and!; try done; by destruct (Hg p Hpp) as (_ & _ & _ & -> & _)].
    injection Hj as -> ->. destruct (inv_exiting t Hi i ph) as (H0 & p & Hpp & Hpid & Hs & Hm & Ht); [rewrite He; set_solver|].
    split; [done|]. exists p. split_and!; try done; [by destruct (Hg p Hpp) as (_ & _ & _ & -> & _)|].
    intros ->. destruct (Hr eq_refl) as (q & Hq & Hqi & Hq0). rewrite (pid_inj t p q Hi); [done|done|done|congruence].
Qed.

Lemma create_inv t q : inv t → q ∈ procs t → 0 < thread_counter q → counter t < 2 ^ 31 - 1 → inv (create (pid q) t).
Proof.
  intros Hi Hq Hth Hc. pose proof (inv_counter t Hi q Hq) as Hqc. unfold create. rewrite swrap_small by lia.
  assert (Hqs : status q ≠ TS_DEAD) by (intros Hd; destruct (inv_dead t Hi q Hq Hd); lia). constructor; cbn [procs counter exits].
  - rewrite fmap_app. apply NoDup_app. split_and!; [apply Hi| |apply NoDup_singleton]. intros x (p & -> & Hp)%list_elem_of_fmap. cbn.
    rewrite list_elem_of_singleton. pose proof (inv_counter t Hi p Hp). lia.
  - intros p [Hp| ->%list_elem_of_singleton]%elem_of_app; [|cbn; lia]. pose proof (inv_counter t Hi p Hp). lia.
  - intros p [Hp| ->%list_elem_of_singleton]%elem_of_app; [by apply Hi|]. right. cbn. lia.
  - intros p [Hp| ->%list_elem_of_singleton]%elem_of_app.
    + destruct (inv_parent t Hi p Hp) as (r & Hr & ? & ?). exists r. split_and!; [set_solver|done..].
    + exists q. split_and!; [set_solver|done..].
  - apply Hi.
  - intros i ph Hp. destruct (inv_exiting t Hi i ph Hp) as (H0 & p & Hpp & Hrest). split; [done|]. exists p. split; [set_solver|done].
  - intros p [Hp| ->%list_elem_of_singleton]%elem_of_app; [by apply Hi|done].
Qed.

Lemma exit_inv t i code : inv t → i ≠ 0 → inv (exit i code t).
Proof.
  intros Hi H0. unfold exit. destruct (with_pid i (procs t)) as [p|] eqn:Hw; [|done]. apply with_pid_Some in Hw as [Hp Hpid]; [|apply Hi].
  destruct (m_exiting p) eqn:Hm; [done|].
  assert (Hfresh : ∀ ph, (i, ph) ∉ exits t).
  { intros ph Hin. destruct (inv_exiting t Hi i ph Hin) as (_ & q & Hq & Hqi & _ & Hqm & _). rewrite (pid_inj t q p Hi) in Hqm; [congruence|done|done|congruence]. }
  eapply (inv_update t); [done|reflexivity|done| | | | | |].
  - intros q Hq. cbn beta. by destruct (pid q =? i).
  - intros q Hq. cbn beta. by destruct (pid q =? i).
  - intros q Hq. cbn beta. by destruct (pid q =? i).
  - intros q Hq _. cbn beta. by destruct (pid q =? i).
  - cbn [exits set_exits]. rewrite fmap_app. apply NoDup_app. split_and!; [apply Hi| |apply NoDup_singleton].
    intros x ([j ph] & -> & Hin)%list_elem_of_fmap. cbn. rewrite list_elem_of_singleton. intros ->. by eapply Hfresh.
  - intros j ph [Hin|Hin]%elem_of_app.
    + destruct (inv_exiting t Hi j ph Hin) as (Hj0 & q & Hq & Hqi & Hs & Hqm & Ht). split; [done|]. exists q. split_and!; try done. cbn beta. by destruct (pid q =? i).
    + apply list_elem_of_singleton in Hin. injection Hin as -> ->. split; [done|]. exists p. split_and!; try done.
      * intros Hd. destruct (inv_dead t Hi p Hp Hd). congruence.
      * by rewrite Hpid, Z.eqb_refl.
Qed.

(** [try_get] takes the first dead child off the list, or says whether there are
    children at all. *)
Lemma try_get_loop_spec me e l :
  match try_get_loop me e l with
  | (inl e', l') =>
      l' = l ∧ (∀ p, p ∈ l → parent_pid p = me → status p ≠ TS_DEAD) ∧
      e' = (if existsb (λ p, parent_pid p =? me) l then EAGAIN else e)
  | (inr v, l') =>
      ∃ l1 p l2, l = l1 ++ p :: l2 ∧ l' = l1 ++ l2 ∧ parent_pid p = me ∧ status p = TS_DEAD ∧ v = (pid p, ret_code p) ∧
        ∀ q, q ∈ l1 → parent_pid q = me → status q ≠ TS_DEAD
  end.
Proof.
  revert e. induction l as [|p l IH]; intros e; [cbn; split_and!; [done|set_solver|done]|]. cbn [try_get_loop existsb].
  destruct (Z.eqb_spec (parent_pid p) me) as [Hp|Hp]; cbn [negb orb].
  - destruct (bool_decide_reflect (status p = TS_DEAD)) as [Hd|Hd]; cbn [negb].
    + exists [], p, l. split_and!; try done. set_solver.
    + specialize (IH EAGAIN). destruct (try_get_loop me EAGAIN l) as [[e'|v] l'].
      * destruct IH as (-> & Hl & ->). split_and!; [done| |by destruct (existsb _ l)]. intros q [->|Hq]%elem_of_cons; [done|by apply Hl].
      * destruct IH as (l1 & c & l2 & -> & -> & ? & ? & ? & Hl). exists (p :: l1), c, l2. split_and!; try done.
        intros q [->|Hq]%elem_of_cons; [done|by apply Hl].
  - specialize (IH e). destruct (try_get_loop me e l) as [[e'|v] l'].
    + destruct IH as (-> & Hl & ->). split_and!; [done| |done]. intros q [->|Hq]%elem_of_cons; [done|by apply Hl].
    + destruct IH as (l1 & c & l2 & -> & -> & ? & ? & ? & Hl). exists (p :: l1), c, l2. split_and!; try done.
      intros q [->|Hq]%elem_of_cons; [done|by apply Hl].
Qed.

Lemma wait_cases me t :
  (wait me t = (WReturns (inl ECHILD), t) ∧ ∀ p, p ∈ procs t → parent_pid p ≠ me) ∨
  (wait me t = (WBlocks, t) ∧ (∃ p, p ∈ procs t ∧ parent_pid p = me) ∧ ∀ p, p ∈ procs t → parent_pid p = me → status p ≠ TS_DEAD) ∨
  (∃ l1 p l2, procs t = l1 ++ p :: l2 ∧ parent_pid p = me ∧ status p = TS_DEAD ∧ wait me t = (WReturns (inr (pid p, ret_code p)), set_procs (l1 ++ l2) t) ∧
     ∀ q, q ∈ l1 → parent_pid q = me → status q ≠ TS_DEAD).
Proof.
  unfold wait, try_get. pose proof (try_get_loop_spec me ECHILD (procs t)) as H. destruct (try_get_loop me ECHILD (procs t)) as [[e|v] l].
  - destruct H as (-> & Hl & ->). replace (set_procs (procs t) t) with t by (by destruct t).
    destruct (existsb (λ p, parent_pid p =? me) (procs t)) eqn:E; [right; left|left].
    + split_and!; [done| |done]. apply existsb_exists in E as (p & Hp & Hme). exists p. split; [by apply list_elem_of_In|lia].
    + split; [done|]. intros p Hp Hme. rewrite <-not_true_iff_false, existsb_exists in E. apply E. exists p. split; [by apply list_elem_of_In|lia].
  - right; right. destruct H as (l1 & p & l2 & Hl & -> & ? & ? & -> & ?). exists l1, p, l2. split_and!; done.
Qed.

Lemma wait_inv t me : inv t → inv (wait me t).2.
Proof.
  intros Hi. destruct (wait_cases me t) as [[-> _]|[[-> _]|(l1 & p & l2 & Hl & Hme & Hd & -> & _)]]; [done|done|]. cbn [snd].
  assert (Hsub : ∀ q, q ∈ l1 ++ l2 → q ∈ procs t) by (rewrite Hl; set_solver).
  assert (Hkeep : ∀ q, q ∈ procs t → status q ≠ TS_DEAD → q ∈ l1 ++ l2) by (intros q; rewrite Hl; set_solver).
  assert (Hperm : procs t ≡ₚ p :: l1 ++ l2) by (by rewrite Hl, Permutation_middle).
  constructor; cbn [procs counter exits set_procs].
  - pose proof (inv_pids t Hi) as Hnd. rewrite Hperm in Hnd. rewrite fmap_cons in Hnd. by apply NoDup_cons in Hnd as [_ Hnd].
  - intros q Hq. apply (inv_counter t Hi). by apply Hsub.
  - intros q Hq. apply (inv_older t Hi). by apply Hsub.
  - intros q Hq. destruct (inv_parent t Hi q (Hsub q Hq)) as (r & Hr & Hpr & Hs). exists r. split_and!; [by apply Hkeep|done..].
  - apply Hi.
  - intros i ph Hin. destruct (inv_exiting t Hi i ph Hin) as (H0 & q & Hq & Hqi & Hs & Hrest). split; [done|]. exists q.
    split_and!; [by apply Hkeep|done|done|apply Hrest..].
  - intros q Hq. apply (inv_dead t Hi). by apply Hsub.
Qed.

(** What [enter_dead] of the process [P] does to each process. *)
Definition bury (P q : Process) : Process :=
  let q := if pid q =? pid P then set_dead q else q in
  let q := if parent_pid q =? pid P then set_parent (parent_pid P) q else q in
  if pid q =? parent_pid P then raise_child q else q.

Lemma bury_members P q :
  pid (bury P q) = pid q ∧ parent_pid (bury P q) = (if parent_pid q =? pid P then parent_pid P else parent_pid q) ∧
  status (bury P q) = (if pid q =? pid P then TS_DEAD else status q) ∧
  m_exiting (bury P q) = m_exiting q ∧ thread_counter (bury P q) = thread_counter q ∧ ret_code (bury P q) = ret_code q.
Proof.
  unfold bury. destruct (pid q =? pid P) eqn:E1; cbn; destruct (parent_pid q =? pid P) eqn:E2; cbn; rewrite ?E2; cbn;
    destruct (pid q =? parent_pid P); done.
Qed.

(** The parent is always found: the null pointer is not followed. *)
Lemma enter_dead_ok t i ph :
  inv t → (i, ph) ∈ exits t →
  ∃ P, P ∈ procs t ∧ pid P = i ∧ enter_dead i t = Done (set_procs (bury P <$> procs t) t).
Proof.
  intros Hi Hin. destruct (inv_exiting t Hi i ph Hin) as (H0 & P & HP & HPi & Hs & _ & _). exists P. split_and!; [done..|].
  destruct (inv_parent t Hi P HP) as (Q & HQ & HQp & HQs).
  destruct (inv_older t Hi P HP) as [[? _]|Hold]; [lia|]. unfold enter_dead.
  rewrite (proj2 (with_pid_Some i (procs t) P (inv_pids t Hi))) by done.
  set (l := (λ c, if parent_pid c =? i then _ else c) <$> update i set_dead (procs t)).
  assert (Hl : l = (λ q, let q := if pid q =? i then set_dead q else q in if parent_pid q =? i then set_parent (parent_pid P) q else q) <$> procs t).
  { unfold l, update. by rewrite <-list_fmap_compose. }
  assert (Hnd : NoDup (pid <$> l)).
  { rewrite Hl, <-list_fmap_compose. erewrite list_fmap_ext; [apply (inv_pids t Hi)|]. intros j q _. cbn.
    by destruct (pid q =? i); cbn; destruct (parent_pid q =? i). }
  assert (HPl : set_dead P ∈ l).
  { rewrite Hl. apply list_elem_of_fmap. exists P. split; [|done]. cbn. rewrite HPi, Z.eqb_refl. cbn. by replace (parent_pid P =? i) with false by lia. }
  rewrite (proj2 (with_pid_Some i l (set_dead P) Hnd)) by done. change (parent_pid (set_dead P)) with (parent_pid P).
  assert (HQl : ∃ Q', Q' ∈ l ∧ pid Q' = parent_pid P).
  { eexists. split; [rewrite Hl; apply list_elem_of_fmap; exists Q; split; [reflexivity|done]|]. cbn. replace (pid Q =? i) with false by lia.
    by destruct (parent_pid Q =? i). }
  destruct HQl as (Q' & HQ' & HQp'). rewrite (proj2 (with_pid_Some (parent_pid P) l Q' Hnd)) by done. do 2 f_equal.
  rewrite Hl. unfold update. rewrite <-list_fmap_compose. apply list_fmap_ext. intros j q _. unfold bury. by rewrite HPi.
Qed.

Lemma enter_dead_inv t i l1 l2 t' :
  inv t → exits t = l1 ++ (i, Released) :: l2 → enter_dead i t = Done t' → inv (set_exits (l1 ++ l2) t').
Proof.
  intros Hi He Hr. assert (Hin : (i, Released) ∈ exits t) by (rewrite He; set_solver).
  destruct (enter_dead_ok t i Released Hi Hin) as (P & HP & HPi & Hok). rewrite Hok in Hr. injection Hr as <-.
  destruct (inv_exiting t Hi i Released Hin) as (H0 & P' & HP' & HPi' & HPs & HPm & HPt).
  assert (P' = P) as -> by (apply (pid_inj t _ _ Hi); [done|done|congruence]). specialize (HPt eq_refl).
  destruct (inv_older t Hi P HP) as [[? _]|Hold]; [lia|]. destruct (inv_parent t Hi P HP) as (Q & HQ & HQp & HQs).
  pose proof (inv_exits t Hi) as Hnde. rewrite He in Hnde. rewrite fmap_app, fmap_cons in Hnde.
  assert (Hi12 : i ∉ fst <$> (l1 ++ l2)).
  { rewrite fmap_app. apply NoDup_app in Hnde as (_ & Hd & [Hn _]%NoDup_cons). intros [Hx|Hx]%elem_of_app; [|done]. apply (Hd i Hx). by left. }
  assert (Hmem : ∀ p, p ∈ bury P <$> procs t ↔ ∃ q, q ∈ procs t ∧ p = bury P q) by (intros p; rewrite list_elem_of_fmap; naive_solver).
  constructor; cbn [procs counter exits set_procs set_exits].
  - rewrite <-list_fmap_compose. erewrite list_fmap_ext; [apply (inv_pids t Hi)|]. intros j q _. apply bury_members.
  - intros p (q & Hq & ->)%Hmem. destruct (bury_members P q) as (-> & _). by apply (inv_counter t Hi).
  - intros p (q & Hq & ->)%Hmem. destruct (bury_members P q) as (-> & -> & _). pose proof (inv_older t Hi q Hq) as Hq'.
    destruct (Z.eqb_spec (parent_pid q) (pid P)); [|done]. destruct Hq' as [[? ?]|?]; lia.
  - intros p (q & Hq & ->)%Hmem. destruct (bury_members P q) as (_ & -> & _).
    assert (Hlive : ∀ r, r ∈ procs t → pid r ≠ i → status r ≠ TS_DEAD → bury P r ∈ bury P <$> procs t ∧ pid (bury P r) = pid r ∧ status (bury P r) ≠ TS_DEAD).
    { intros r Hr Hri Hrs. destruct (bury_members P r) as (-> & _ & -> & _). split_and!; [apply Hmem; by exists r|done|].
      by replace (pid r =? pid P) with false by lia. }
    destruct (Z.eqb_spec (parent_pid q) (pid P)) as [Hc|Hc].
    + exists (bury P Q). destruct (Hlive Q HQ) as (? & -> & ?); [lia|done|]. split_and!; done.
    + destruct (inv_parent t Hi q Hq) as (r & Hr & Hrp & Hrs). exists (bury P r). destruct (Hlive r Hr) as (? & -> & ?); [lia|done|]. split_and!; done.
  - rewrite fmap_app. apply NoDup_app in Hnde as (? & Hd & [_ ?]%NoDup_cons). apply NoDup_app. split_and!; [done| |done]. intros x Hx Hx2. apply (Hd x Hx). by right.
  - intros j ph Hj. assert (Hji : j ≠ i) by (intros ->; apply Hi12; apply list_elem_of_fmap; by exists (i, ph)).
    destruct (inv_exiting t Hi j ph) as (Hj0 & q & Hq & Hqj & Hqs & Hqm & Hqt); [rewrite He; set_solver|]. split; [done|]. exists (bury P q).
    destruct (bury_members P q) as (-> & _ & -> & -> & -> & _). split_and!; [apply Hmem; by exists q|done| |done|done].
    by replace (pid q =? pid P) with false by lia.
  - intros p (q & Hq & ->)%Hmem Hd. destruct (bury_members P q) as (_ & _ & Hst & Hm & Hth & _). rewrite Hm, Hth. rewrite Hst in Hd.
    destruct (Z.eqb_spec (pid q) (pid P)) as [Hqp|Hqp]; [|by apply (inv_dead t Hi q Hq)].
    rewrite (pid_inj t q P Hi Hq HP Hqp). done.
Qed.

Lemma step_inv t t' : step t t' → inv t → inv t'.
Proof.
  intros [t0 q Hq Hth Hc|t0 i Hfr|t0 p n Hp Hg Hn|t0 i code H0|t0 i l1 l2 t1 He Hr|t0 i l1 l2 p t1 He Hw Ht Hr|t0 i l1 l2 t1 He Hr|t0 me] Hi.
  - by apply create_inv.
  - destruct Hfr as (p & Hp & Hpi & Hfr). eapply (inv_update t0); [done|reflexivity|done|..]; try apply Hi; cbn beta.
    + intros q Hq. by destruct (pid q =? i).
    + intros q Hq. destruct (Z.eqb_spec (pid q) i) as [Hqi|]; [|done]. cbn. rewrite (pid_inj t0 q p Hi) by (done || congruence). by rewrite Hfr.
    + intros q Hq. by destruct (pid q =? i).
    + intros q Hq. by destruct (pid q =? i).
    + intros j ph Hj. destruct (inv_exiting t0 Hi j ph Hj) as (Hj0 & q & Hq & ? & ? & ? & ?). split; [done|]. exists q. split_and!; try done. by destruct (pid q =? i).
  - eapply (inv_update t0); [done|reflexivity|done|..]; try apply Hi; cbn beta.
    + intros q Hq. by destruct (pid q =? pid p).
    + intros q Hq. by destruct (pid q =? pid p).
    + intros q Hq. by destruct (pid q =? pid p).
    + intros q Hq Hl Hz. destruct (Z.eqb_spec (pid q) (pid p)) as [Hqp|]; [|done]. pose proof (pid_inj t0 q p Hi Hq Hp Hqp) as ->.
      exfalso. destruct Hg as [Hg|Hg]; [|lia]. destruct Hl as [Hl|[ph Hl]]; cbn in Hl.
      * destruct (inv_dead t0 Hi p Hp Hl). congruence.
      * destruct (inv_exiting t0 Hi _ ph Hl) as (_ & r & Hr & Hrp & _ & Hrm & _). rewrite (pid_inj t0 r p Hi Hr Hp Hrp) in Hrm. congruence.
    + intros j ph Hj. destruct (inv_exiting t0 Hi j ph Hj) as (Hj0 & q & Hq & ? & ? & ? & ?). split; [done|]. exists q. split_and!; try done. by destruct (pid q =? pid p).
  - by apply exit_inv.
  - unfold abort_threads in Hr. destruct (with_pid i (procs t0)) as [p|]; [|done]. apply bind_Done in Hr as (l & _ & [= <-]).
    eapply (phase_moves t0 _ i l1 l2 Queued Aborting (λ p, p)); try done. by rewrite list_fmap_id.
  - unfold release in Hr. rewrite Hw in Hr. apply bind_Done in Hr as ([regions dl] & _ & Hr). apply bind_Done in Hr as (c & _ & [= <-]).
    eapply (phase_moves t0 _ i l1 l2 Aborting Released); [done..|reflexivity|done| |].
    + intros q Hq. cbn beta. by destruct (pid q =? i).
    + intros _. apply with_pid_Some in Hw as [Hp Hpi]; [|apply Hi]. by exists p.
  - by eapply enter_dead_inv.
  - by apply wait_inv.
Qed.

Lemma init_inv : inv init.
Proof.
  constructor; cbn.
  - apply NoDup_cons. split; [set_solver|apply NoDup_singleton].
  - intros p. rewrite !elem_of_cons. intros [->|[->|?%elem_of_nil]]; cbn; [lia..|done].
  - intros p. rewrite !elem_of_cons. intros [->|[->|?%elem_of_nil]]; cbn; [by left|right; lia|done].
  - intros p. rewrite !elem_of_cons. intros [->|[->|?%elem_of_nil]]; [| |done]; (exists (first_process 0); split_and!; [by left|done|done]).
  - apply NoDup_nil_2.
  - intros i ph ?%elem_of_nil. done.
  - intros p. rewrite !elem_of_cons. intros [->|[->|?%elem_of_nil]]; done.
Qed.

Lemma reachable_inv t : rtc step init t → inv t.
Proof. intros Hr. apply (rtc_ind_r inv init) in Hr; [done|apply init_inv|]. intros s s' _ Hst. by apply step_inv. Qed.

(** The values of a vector, in order. *)
Definition values (v : lazy) (i n : nat) : list Z := omap (LazyVector.val v) (seq i n).

Lemma values_none v i n : (∀ j, (i ≤ j)%nat → LazyVector.val v j = None) → values v i n = [].
Proof. unfold values. revert i. induction n as [|n IH]; intros i Hn; [done|]. cbn. rewrite Hn by lia. apply IH. intros j Hj. apply Hn. lia. Qed.

Lemma visit_spec n v i d :
  LazyVector.inv v → visit n v (Z.of_nat i) d = Done (d ++ values v i n).
Proof.
  intros Hv. revert i d. induction n as [|n IH]; intros i d; cbn [visit]; [by rewrite app_nil_r|].
  destruct (Z.ltb_spec (Z.of_nat i) (LazyVector.m_count v)) as [Hi|Hi].
  - rewrite (LazyVector.lazy_present v i Hv). cbn [mbind outcome_bind]. unfold values. cbn [seq omap list_omap].
    replace (Z.of_nat i + 1) with (Z.of_nat (S i)) by lia. destruct (LazyVector.val v i) as [x|] eqn:E.
    + rewrite bool_decide_true by (by eexists). rewrite (LazyVector.lazy_at v i x Hv E). cbn [mbind outcome_bind]. rewrite IH, <-app_assoc. done.
    + rewrite bool_decide_false by (by intros [? ?]). by rewrite IH.
  - rewrite values_none; [by rewrite app_nil_r|]. intros j Hj. apply LazyVector.lazy_beyond; [done|lia].
Qed.

Lemma erase_all_spec n v i d :
  LazyVector.inv v → (∀ j, (j < i)%nat → LazyVector.val v j = None) → (∀ j, (i + n ≤ j)%nat → LazyVector.val v j = None) →
  ∃ v', erase_all n v (Z.of_nat i) d = Done (v', d ++ values v i n) ∧ LazyVector.inv v' ∧ ∀ j, LazyVector.val v' j = None.
Proof.
  revert v i d. induction n as [|n IH]; intros v i d Hv Hlo Hhi; cbn [erase_all].
  { exists v. rewrite app_nil_r. split_and!; [done|done|]. intros j. destruct (decide (j < i)%nat); [by apply Hlo|apply Hhi; lia]. }
  destruct (Z.ltb_spec (Z.of_nat i) (LazyVector.m_count v)) as [Hi|Hi].
  - rewrite (LazyVector.lazy_present v i Hv). cbn [mbind outcome_bind]. unfold values. cbn [seq omap list_omap].
    replace (Z.of_nat i + 1) with (Z.of_nat (S i)) by lia. destruct (LazyVector.val v i) as [x|] eqn:E.
    + rewrite bool_decide_true by (by eexists). rewrite (LazyVector.lazy_at v i x Hv E). cbn [mbind outcome_bind].
      destruct (LazyVector.lazy_erase_spec 0 v i x Hv E) as (v1 & -> & Hv1 & Hval). cbn [mbind outcome_bind].
      destruct (IH v1 (S i) (d ++ [x]) Hv1) as (v' & He & Hv' & Hn).
      { intros j Hj. rewrite Hval. case_decide; [done|]. apply Hlo. lia. }
      { intros j Hj. rewrite Hval. case_decide; [done|]. apply Hhi. lia. }
      exists v'. split_and!; [|done|done]. rewrite He, <-app_assoc. cbn [app]. do 4 f_equal. unfold values. apply list_omap_ext.
      apply Forall_Forall2_diag, Forall_forall. intros j Hj%elem_of_seq. rewrite Hval. by rewrite decide_False by lia.
    + rewrite bool_decide_false by (by intros [? ?]). apply IH; [done| |].
      * intros j Hj. destruct (decide (j = i)) as [->|]; [done|]. apply Hlo. lia.
      * intros j Hj. apply Hhi. lia.
  - assert (Hb : ∀ j, (i ≤ j)%nat → LazyVector.val v j = None) by (intros j Hj; apply LazyVector.lazy_beyond; [done|lia]).
    exists v. rewrite values_none, app_nil_r by done. split_and!; [done|done|]. intros j. destruct (decide (j < i)%nat); [by apply Hlo|apply Hb; lia].
Qed.

Definition all_values (v : lazy) : list Z := values v 0 (Z.to_nat (LazyVector.m_count v)).

(** C8 (invariant): the process tree stays a tree: whatever the order of
    creations, exits and waits, pids are unique, every process but the idle one has
    an older parent that is in the table and not dead, and an exit that reaches the
    table finds the parent whose event it raises. *)
Theorem process_tree_rooted t :
  rtc step init t →
  NoDup (pid <$> procs t) ∧
  (∀ p, p ∈ procs t → ∃ q, q ∈ procs t ∧ pid q = parent_pid p ∧ status q ≠ TS_DEAD ∧ (pid p = 0 ∨ pid q < pid p)) ∧
  (∀ i ph, (i, ph) ∈ exits t → ∃ t', enter_dead i t = Done t').
Proof.
  intros Hi%reachable_inv. split_and!; [apply Hi| |].
  - intros p Hp. destruct (inv_parent t Hi p Hp) as (q & Hq & Hqp & Hs). exists q. split_and!; [done..|].
    destruct (inv_older t Hi p Hp) as [[? _]|?]; [by left|right; lia].
  - intros i ph Hin. destruct (enter_dead_ok t i ph Hi Hin) as (P & _ & _ & ->). by eexists.
Qed.

(** The exit code reaches the parent: once the exit of a process
    has entered the table, its children are its parent's, and the parent's next
    [wait], if no other child of the two is dead, returns the pid and the code the
    process exited with and takes it off the table. *)
Lemma exit_status_reaches_parent t i ph p :
  rtc step init t → (i, ph) ∈ exits t → p ∈ procs t → pid p = i →
  (∀ q, q ∈ procs t → status q = TS_DEAD → parent_pid q ≠ i ∧ parent_pid q ≠ parent_pid p) →
  ∃ t', enter_dead i t = Done t' ∧ (∀ q, q ∈ procs t' → parent_pid q ≠ i) ∧
    (wait (parent_pid p) t').1 = WReturns (inr (i, ret_code p)) ∧ with_pid i (procs (wait (parent_pid p) t').2) = None.
Proof.
  intros Hi%reachable_inv Hin Hp Hpi Hother. destruct (enter_dead_ok t i ph Hi Hin) as (P & HP & HPi & ->).
  assert (P = p) as -> by (apply (pid_inj t _ _ Hi); [done|done|congruence]). eexists. split; [reflexivity|].
  destruct (inv_exiting t Hi i ph Hin) as (H0 & p' & Hp' & Hpi' & Hs & _).
  assert (p' = p) as -> by (apply (pid_inj t _ _ Hi); [done|done|congruence]).
  destruct (inv_older t Hi p Hp) as [[? _]|Hold]; [lia|].
  set (t' := set_procs (bury p <$> procs t) t).
  assert (Hdead : ∀ q, q ∈ procs t' → parent_pid q = parent_pid p → status q = TS_DEAD → q = bury p p).
  { intros q (q0 & -> & Hq0)%list_elem_of_fmap. destruct (bury_members p q0) as (_ & -> & -> & _).
    destruct (Z.eqb_spec (pid q0) (pid p)) as [E|E]; [intros _ _; f_equal; by apply (pid_inj t _ _ Hi)|].
    intros Hq1 Hq2. destruct (Hother q0 Hq0 Hq2) as [Ha Hb]. rewrite <-Hpi in Ha. destruct (Z.eqb_spec (parent_pid q0) (pid p)); [done|congruence]. }
  assert (Hbp : bury p p ∈ procs t' ∧ pid (bury p p) = i ∧ parent_pid (bury p p) = parent_pid p ∧ status (bury p p) = TS_DEAD ∧ ret_code (bury p p) = ret_code p).
  { destruct (bury_members p p) as (-> & -> & -> & _ & _ & ->). rewrite Z.eqb_refl. replace (parent_pid p =? pid p) with false by lia.
    split_and!; [apply list_elem_of_fmap; by exists p|done..]. }
  destruct Hbp as (Hb1 & Hb2 & Hb3 & Hb4 & Hb5). split.
  { intros q (q0 & -> & Hq0)%list_elem_of_fmap. destruct (bury_members p q0) as (_ & -> & _). destruct (Z.eqb_spec (parent_pid q0) (pid p)); lia. }
  destruct (wait_cases (parent_pid p) t') as [[_ Hn]|[[_ [_ Hn]]|(l1 & c & l2 & Hl & Hc & Hd & -> & _)]].
  - by destruct (Hn (bury p p)).
  - by destruct (Hn (bury p p)).
  - assert (Hc' : c = bury p p) by (apply Hdead; [rewrite Hl; set_solver|done|done]). subst c. cbn [fst snd procs set_procs]. rewrite Hb2, Hb5.
    split; [done|]. assert (Hnd : NoDup (pid <$> (l1 ++ bury p p :: l2))).
    { rewrite <-Hl. unfold t'. cbn [procs set_procs]. rewrite <-list_fmap_compose. erewrite list_fmap_ext; [apply (inv_pids t Hi)|]. intros j q _. apply bury_members. }
    rewrite fmap_app, fmap_cons in Hnd. apply NoDup_app in Hnd as (Hnd1 & Hd1 & [Hn2 Hnd2]%NoDup_cons).
    assert (Hnd' : NoDup (pid <$> (l1 ++ l2))) by (rewrite fmap_app; apply NoDup_app; split_and!; [done| |done]; intros x Hx Hx2; apply (Hd1 x Hx); by right).
    destruct (with_pid i (l1 ++ l2)) as [q|] eqn:E; [|done]. apply with_pid_Some in E as [Hq Hqi]; [|done]. exfalso.
    apply elem_of_app in Hq as [Hq|Hq].
    + apply (Hd1 (pid q)); [apply list_elem_of_fmap; by exists q|rewrite Hqi, <-Hb2; by left].
    + apply Hn2. rewrite Hb2, <-Hqi. apply list_elem_of_fmap. by exists q.
Qed.

(** The second part of an exit deletes every region and closes every descriptor,
    once and in order, and leaves no region behind. *)
Lemma release_frees_all i t p :
  inv t → p ∈ procs t → pid p = i → LazyVector.inv (mmap_regions p) → LazyVector.inv (descs p) →
  ∃ t', release i t = Done t' ∧ deleted t' = deleted t ++ all_values (mmap_regions p) ∧ closed t' = closed t ++ all_values (descs p) ∧
    ∀ q, q ∈ procs t' → pid q = i → ∀ j, LazyVector.val (mmap_regions q) j = None.
Proof.
  intros Hi Hp Hpi Hr Hd. unfold release. rewrite (proj2 (with_pid_Some i (procs t) p (inv_pids t Hi))) by done.
  destruct (erase_all_spec (Z.to_nat (LazyVector.m_count (mmap_regions p))) (mmap_regions p) 0 [] Hr) as (v' & He & _ & Hv).
  { lia. } { intros j Hj. apply LazyVector.lazy_beyond; [done|lia]. }
  change (Z.of_nat 0) with 0 in He. rewrite He. cbn [mbind outcome_bind]. pose proof (visit_spec (Z.to_nat (LazyVector.m_count (descs p))) (descs p) 0 [] Hd) as Hv2. change (Z.of_nat 0) with 0 in Hv2. rewrite Hv2. cbn [mbind outcome_bind]. eexists. split; [reflexivity|].
  cbn [deleted closed procs]. split_and!; [done|done|]. intros q (q0 & Hq0 & ->)%elem_update Hqi j.
  destruct (Z.eqb_spec (pid q0) i) as [E|E]; [apply Hv|done].
Qed.

(** ** A run: the kernel starts a process that exits with code 3 *)

Definition demo_exiting : table := exit 2 3 (create 1 init).

Lemma demo_reachable : rtc step init (set_exits [(2, Released)] demo_exiting).
Proof.
  eapply rtc_l; [apply (step_create init (first_process 1)); [set_solver|done|done]|].
  eapply rtc_l; [apply (step_exit _ 2 3); done|].
  eapply rtc_l; [apply (step_abort demo_exiting 2 [] [] demo_exiting); reflexivity|].
  eapply rtc_l; [apply (step_release _ 2 [] [] (mk_process 2 1 TS_FRESH 3 true 0 LazyVector.empty LazyVector.empty LazyVector.empty 0)
    (set_exits [(2, Aborting)] demo_exiting)); reflexivity|].
  apply rtc_refl.
Qed.

Lemma process_tree_rooted_witness : ∃ t', enter_dead 2 (set_exits [(2, Released)] demo_exiting) = Done t'.
Proof.
  destruct (process_tree_rooted (set_exits [(2, Released)] demo_exiting) demo_reachable) as (_ & _ & H).
  apply (H 2 Released). set_solver.
Defined.

Lemma exit_status_reaches_parent_witness :
  ∃ t', enter_dead 2 (set_exits [(2, Released)] demo_exiting) = Done t' ∧ (wait 1 t').1 = WReturns (inr (2, 3)).
Proof.
  destruct (exit_status_reaches_parent (set_exits [(2, Released)] demo_exiting) 2 Released
    (mk_process 2 1 TS_FRESH 3 true 0 LazyVector.empty LazyVector.empty LazyVector.empty 0) demo_reachable) as (t' & He & _ & Hw & _).
  - set_solver.
  - change (mk_process 2 1 TS_FRESH 3 true 0 LazyVector.empty LazyVector.empty LazyVector.empty 0 ∈
      [first_process 0; first_process 1; mk_process 2 1 TS_FRESH 3 true 0 LazyVector.empty LazyVector.empty LazyVector.empty 0]). set_solver.
  - done.
  - intros q Hq. change (q ∈ [first_process 0; first_process 1; mk_process 2 1 TS_FRESH 3 true 0 LazyVector.empty LazyVector.empty LazyVector.empty 0]) in Hq.
    rewrite !elem_of_cons in Hq. destruct Hq as [->|[->|[->|?%elem_of_nil]]]; done.
  - exists t'. split; [exact He|exact Hw].
Defined.

End ProcessTree.
