(* ===== verification/Signal.v ===== *)
(** * Signals

    [include/aex/ipc/signal.hpp], [ipc/process.cpp], [ipc/thread.cpp], the signal
    part of [Thread::subBusy] and [arch/x86_64/ipc/signal.cpp] with the user stack
    of [usr_stack.hpp].  A thread is looked at together with its process.  What the
    broker does for a thread ([signal_enter], [signal_exit]) is one step.  User
    memory is a byte store in which every address exists; the page the stack helper maps
    for a byte is the one that holds it, so a stack page that is not present, for which
    the helper would map a wrong frame, is not represented. *)
From stdpp Require Import functions.
From S2P Require Import Prelude Locks Math Event.
Local Open Scope Z_scope.

Module Signal.
Import Threads.

(** [signal_t] and [sig_action_t]. *)
Definition SIGHUP : Z := 1.
Definition SIGINT : Z := 2.
Definition SIGQUIT : Z := 3.
Definition SIGILL : Z := 4.
Definition SIGTRAP : Z := 5.
Definition SIGABRT : Z := 6.
Definition SIGBUS : Z := 7.
Definition SIGFPE : Z := 8.
Definition SIGKILL : Z := 9.
Definition SIGUSR1 : Z := 10.
Definition SIGSEGV : Z := 11.
Definition SIGUSR2 : Z := 12.
Definition SIGPIPE : Z := 13.
Definition SIGALRM : Z := 14.
Definition SIGTERM : Z := 15.
Definition SIGSTKFLT : Z := 16.
Definition SIGCHLD : Z := 17.
Definition SIGCONT : Z := 18.
Definition SIGSTOP : Z := 19.
Definition SIGTSTP : Z := 20.
Definition SIGTTIN : Z := 21.
Definition SIGTTOU : Z := 22.
Definition SIGURG : Z := 23.
Definition SIGXCPU : Z := 24.
Definition SIGXFSZ : Z := 25.
Definition SIGVTALRM : Z := 26.
Definition SIGPROF : Z := 27.
Definition SIGWINCH : Z := 28.
Definition SIGIO : Z := 29.
Definition SIGPWR : Z := 30.
Definition SIGSYS : Z := 31.

Definition SIG_TERM : Z := 0.
Definition SIG_IGN : Z := 1.
Definition SIG_CORE : Z := 2.
Definition SIG_STOP : Z := 3.
Definition SIG_CONT : Z := 4.
Definition SIG_DFL : Z := 5.
Definition SIG_USER : Z := 6.

Definition SA_SIGINFO : Z := 0x01.
Definition SA_RESTORER : Z := 0x02.

(** [siginfo_t]: its number and the bytes of the struct. *)
Record siginfo_t := mk_info { si_signo : Z; si_bytes : list Z }.

Record sigaction_usr := mk_usr { sa_handler : Z; sa_sigaction : Z; sa_mask : Z; sa_flags : Z; sa_restorer : Z }.
Record sigaction := mk_action { action : Z; handler : Z; restorer : Z; mask : Z; flags : Z }.

(** [sigaction::sigaction(const sigaction_usr&)]. *)
Definition of_user (act : sigaction_usr) : sigaction :=
  let action_pre := if negb (Z.land (sa_flags act) SA_SIGINFO =? 0) then sa_sigaction act else sa_handler act in
  mk_action (u8 (clamp action_pre SIG_TERM SIG_USER)) action_pre (sa_restorer act) (sa_mask act) (sa_flags act).

(** ** The table of a process *)

Definition set_action (id a : Z) (l : list sigaction) : outcome (list sigaction) :=
  s ← l.[id]; l.[id := mk_action a (handler s) (restorer s) (mask s) (flags s)].

(** [Process::ipc_init], assignment by assignment. *)
Definition ipc_init_actions : list (Z * Z) :=
  [(SIGABRT, SIG_CORE); (SIGALRM, SIG_TERM); (SIGBUS, SIG_CORE); (SIGCHLD, SIG_IGN); (SIGCONT, SIG_CONT); (SIGFPE, SIG_CORE);
   (SIGHUP, SIG_TERM); (SIGILL, SIG_CORE); (SIGINT, SIG_TERM); (SIGIO, SIG_TERM); (SIGKILL, SIG_TERM); (SIGPIPE, SIG_TERM);
   (SIGPROF, SIG_TERM); (SIGPWR, SIG_TERM); (SIGQUIT, SIG_CORE); (SIGSEGV, SIG_CORE); (SIGSTKFLT, SIG_TERM); (SIGSTOP, SIG_STOP);
   (SIGTSTP, SIG_STOP); (SIGSYS, SIG_CORE); (SIGTERM, SIG_TERM); (SIGTRAP, SIG_CORE); (SIGTTIN, SIG_STOP); (SIGTTOU, SIG_STOP);
   (SIGURG, SIG_IGN); (SIGUSR1, SIG_TERM); (SIGUSR2, SIG_TERM); (SIGVTALRM, SIG_TERM); (SIGXCPU, SIG_CORE); (SIGXFSZ, SIG_CORE);
   (SIGWINCH, SIG_IGN)].
Fixpoint set_actions (l : list (Z * Z)) (t : list sigaction) : outcome (list sigaction) :=
  match l with [] => Done t | (id, a) :: l => t ← set_action id a t; set_actions l t end.
Definition ipc_init (t : list sigaction) : outcome (list sigaction) := set_actions ipc_init_actions t.

(** [Process::sigaction(id)]: [None] is the empty optional. *)
Definition get_sigaction (t : list sigaction) (id : Z) : outcome (option sigaction) :=
  if negb (inrange id 1 SIGSYS) then Done None else s ← t.[id]; Done (Some s).

(** The table of [Process::sigaction(id, action)]; the array is filled up with 0. *)
Definition def : list Z :=
  [0; SIG_TERM; SIG_TERM; SIG_CORE; SIG_CORE; SIG_CORE; SIG_CORE; SIG_CORE;
   SIG_TERM; SIG_TERM; SIG_CORE; SIG_TERM; SIG_TERM; SIG_TERM; SIG_TERM; SIG_IGN;
   SIG_CONT; SIG_STOP; SIG_STOP; SIG_STOP; SIG_STOP; SIG_IGN; SIG_CORE; SIG_CORE;
   SIG_TERM; SIG_TERM; SIG_IGN; SIG_TERM; SIG_TERM; SIG_CORE; 0; 0].

Inductive error_t := ENONE | EINVAL.

Definition set_sigaction (t : list sigaction) (id : Z) (act : sigaction) : outcome (error_t * list sigaction) :=
  if negb (inrange id 1 SIGSYS) then Done (EINVAL, t)
  else if (id =? SIGKILL) || (id =? SIGSTOP) || (id =? SIGCONT) then Done (EINVAL, t)
  else
    t ← t.[id := act];
    if action act =? SIG_DFL then d ← def.[id]; t ← set_action id d t; Done (ENONE, t)
    else Done (ENONE, t).

(** ** Threads *)

Record Context := mk_context { rip : Z; rdi : Z; rsi : Z; rsp : Z; cs : Z; ss : Z; others : list Z }.

Record Thread := mk_thread {
  status : status_t;
  m_busy : Z;
  m_critical : Z;
  in_signal : bool;
  m_pending_signals : list siginfo_t;
  lock : bool;
  context : Context;
  context_aux : Context;
  kernel_stack : Z;
  kernel_stack_size : Z;
  aux_stack : Z;
  aux_stack_size : Z;
  saved_stack : Z;
}.

(** The thread, its process's [m_signals], the codes [Process::exit] was called
    with, and user memory. *)
Record env := mk_env { thread : Thread; m_signals : list sigaction; exits : list Z; user : Z → Z }.
Abbreviation M := (stateM env).

Definition set_thread (t : Thread) (e : env) : env := mk_env t (m_signals e) (exits e) (user e).
Definition upd (f : Thread → Thread) : M unit := modify (λ e, set_thread (f (thread e)) e).

Definition with_counts (busy critical : Z) (t : Thread) : Thread :=
  mk_thread (status t) busy critical (in_signal t) (m_pending_signals t) (lock t) (context t) (context_aux t)
    (kernel_stack t) (kernel_stack_size t) (aux_stack t) (aux_stack_size t) (saved_stack t).
Definition with_lock (b : bool) (t : Thread) : Thread :=
  mk_thread (status t) (m_busy t) (m_critical t) (in_signal t) (m_pending_signals t) b (context t) (context_aux t)
    (kernel_stack t) (kernel_stack_size t) (aux_stack t) (aux_stack_size t) (saved_stack t).
Definition with_in_signal (b : bool) (t : Thread) : Thread :=
  mk_thread (status t) (m_busy t) (m_critical t) b (m_pending_signals t) (lock t) (context t) (context_aux t)
    (kernel_stack t) (kernel_stack_size t) (aux_stack t) (aux_stack_size t) (saved_stack t).
Definition with_pending (l : list siginfo_t) (t : Thread) : Thread :=
  mk_thread (status t) (m_busy t) (m_critical t) (in_signal t) l (lock t) (context t) (context_aux t)
    (kernel_stack t) (kernel_stack_size t) (aux_stack t) (aux_stack_size t) (saved_stack t).

Definition addCritical : M unit := upd (λ t, with_counts (u16 (m_busy t + 1)) (u16 (m_critical t + 1)) t).
Definition subCritical : M unit := upd (λ t, with_counts (u16 (m_busy t - 1)) (u16 (m_critical t - 1)) t).
Definition lock_acquire : M unit :=
  b ← gets (λ e, lock (thread e)); b ← lift (spin_acquire b); upd (with_lock b).
Definition lock_release : M unit :=
  b ← gets (λ e, lock (thread e)); b ← lift (spin_release b); upd (with_lock b).

(** *** The frame of a handler *)

(** [usr_stack::push_byte] and [push]: the bytes from the last one on.  The page of the
    byte is taken to be present. *)
Definition push_byte (sp : Z * (Z → Z)) (b : Z) : Z * (Z → Z) :=
  let m_rsp := u64 (sp.1 - 1) in (m_rsp, <[m_rsp := b]> sp.2).
Definition push (sp : Z * (Z → Z)) (bs : list Z) : Z * (Z → Z) := foldl push_byte sp (rev bs).

(** [signal_context], without and with [info]. *)
Definition signal_context (trampoline : Z) (e : env) (id : Z) (act : sigaction) (info : option siginfo_t) : env :=
  let t := thread e in
  let sp := (saved_stack t, user e) in
  let sp := match info with Some i => push sp (si_bytes i) | None => sp end in
  let siginfo_rsp := sp.1 in
  let ret := if negb (Z.land (flags act) SA_RESTORER =? 0) then restorer act else trampoline in
  let sp := push sp (le_bytes 8 ret) in
  let c := context t in
  let c := mk_context (handler act) (u8 id) (match info with Some _ => siginfo_rsp | None => rsi c end) sp.1 0x23 0x1B (others c) in
  mk_env (mk_thread (status t) (m_busy t) (m_critical t) (in_signal t) (m_pending_signals t) (lock t) c (context_aux t)
    (kernel_stack t) (kernel_stack_size t) (aux_stack t) (aux_stack_size t) (saved_stack t)) (m_signals e) (exits e) sp.2.

(** The swap of the stacks, and the copies of the contexts. *)
Definition swap_stacks (t : Thread) : Thread :=
  mk_thread (status t) (m_busy t) (m_critical t) (in_signal t) (m_pending_signals t) (lock t) (context t) (context_aux t)
    (aux_stack t) (aux_stack_size t) (kernel_stack t) (kernel_stack_size t) (saved_stack t).

Definition signal_enter (trampoline : Z) (info : siginfo_t) : M unit :=
  lock_acquire;;
  tb ← gets m_signals;
  a ← lift (get_sigaction tb (si_signo info));
  act ← lift (match a with Some act => Done act | None => Fault end);
  upd (λ t, mk_thread TS_RUNNABLE (m_busy t) (m_critical t) (in_signal t) (m_pending_signals t) (lock t) (context t) (context t)
    (kernel_stack t) (kernel_stack_size t) (aux_stack t) (aux_stack_size t) (saved_stack t));;
  upd swap_stacks;;
  modify (λ e, signal_context trampoline e (si_signo info) act (if negb (Z.land (flags act) SA_SIGINFO =? 0) then Some info else None));;
  lock_release.

Definition enterSignal (trampoline : Z) (info : siginfo_t) : M unit :=
  upd (with_in_signal true);;
  signal_enter trampoline info.

(** [handleSignal]; [current] is [Thread::current() == this]. *)
Definition handleSignal (trampoline : Z) (current : bool) (info : siginfo_t) : M unit :=
  tb ← gets m_signals;
  a ← lift (get_sigaction tb (si_signo info));
  act ← lift (match a with Some act => Done act | None => Fault end);
  if action act =? SIG_CORE then
    modify (λ e, mk_env (thread e) (m_signals e) (exits e ++ [Z.lor (si_signo info) 0x80]) (user e))
  else if action act =? SIG_TERM then
    modify (λ e, mk_env (thread e) (m_signals e) (exits e ++ [si_signo info]) (user e))
  else if (action act =? SIG_STOP) || (action act =? SIG_CONT) then lift (Panic "Not implemented")
  else if action act =? SIG_USER then
    when (negb current) lock_acquire;;
    t ← gets thread;
    (if (m_busy t =? 0) && negb (in_signal t) then enterSignal trampoline info
     else upd (λ t, with_pending (m_pending_signals t ++ [info]) t));;
    when (negb current) lock_release
  else mret tt.

Definition _signal (trampoline : Z) (current : bool) (info : siginfo_t) : M error_t :=
  if negb (inrange (si_signo info) SIGHUP SIGSYS) then mret EINVAL
  else
    t ← gets thread;
    if m_busy t >? 0 then upd (λ t, with_pending (m_pending_signals t ++ [info]) t);; mret ENONE
    else handleSignal trampoline current info;; mret ENONE.

Definition signal (trampoline : Z) (current : bool) (info : siginfo_t) : M error_t :=
  if negb (inrange (si_signo info) SIGHUP SIGSYS) then mret EINVAL
  else
    (if current then addCritical else lock_acquire);;
    err ← _signal trampoline current info;
    (if current then subCritical else lock_release);;
    mret err.

(** [subBusy] of a thread that is not aborting. *)
Definition subBusy (trampoline : Z) (current : bool) : M unit :=
  upd (λ t, with_counts (u16 (m_busy t - 1)) (m_critical t) t);;
  t ← gets thread;
  if negb (m_busy t =? 0) then mret tt
  else
    addCritical;;
    t ← gets thread;
    match last (m_pending_signals t) with
    | Some info =>
        upd (λ t, with_pending (take (length (m_pending_signals t) - 1) (m_pending_signals t)) t);;
        subCritical;;
        handleSignal trampoline current info
    | None => subCritical
    end.

(** [signal_exit], by the broker. *)
Definition signal_exit (trampoline : Z) : M unit :=
  lock_acquire;;
  upd (λ t, mk_thread (status t) (m_busy t) (m_critical t) (in_signal t) (m_pending_signals t) (lock t) (context_aux t) (context_aux t)
    (kernel_stack t) (kernel_stack_size t) (aux_stack t) (aux_stack_size t) (saved_stack t));;
  upd swap_stacks;;
  subBusy trampoline false;;
  upd (with_in_signal false);;
  lock_release.

(** [sigret] by the thread itself, up to the broker call. *)
Definition sigret (trampoline : Z) : M error_t :=
  t ← gets thread;
  if negb (in_signal t) then mret EINVAL else signal_exit trampoline;; mret ENONE.

(** ** The default actions *)

Lemma set_action_spec id a l :
  0 ≤ id < Z.of_nat (length l) →
  ∃ l' s, set_action id a l = Done l' ∧ length l' = length l ∧ l' !! Z.to_nat id = Some s ∧ action s = a ∧
    ∀ j, j ≠ Z.to_nat id → l' !! j = l !! j.
Proof.
  intros Hi. unfold set_action. destruct (rd_in_range l id) as (s & -> & _); [lia|]. cbn [mbind outcome_bind]. rewrite wr_in_range by lia.
  eexists _, _. split; [reflexivity|]. rewrite length_insert. split_and!; [done|apply list_lookup_insert_eq; lia|done|].
  intros j Hj. by rewrite list_lookup_insert_ne.
Qed.

Lemma set_actions_spec acts l :
  NoDup (fst <$> acts) → (∀ id a, (id, a) ∈ acts → 0 ≤ id < Z.of_nat (length l)) →
  ∃ l', set_actions acts l = Done l' ∧ length l' = length l ∧ (∀ id a, (id, a) ∈ acts → ∃ s, l' !! Z.to_nat id = Some s ∧ action s = a) ∧
    ∀ j, (∀ id a, (id, a) ∈ acts → j ≠ Z.to_nat id) → l' !! j = l !! j.
Proof.
  revert l. induction acts as [|[id a] acts IH]; intros l Hnd Hin; [exists l; split_and!; [done|done|set_solver|done]|].
  rewrite fmap_cons in Hnd. apply NoDup_cons in Hnd as [Hn Hnd]. cbn [set_actions].
  destruct (set_action_spec id a l) as (l1 & s & -> & Hlen & Hs & Ha & Ho); [by apply (Hin id a); left|]. cbn [mbind outcome_bind].
  destruct (IH l1 Hnd) as (l' & -> & Hlen' & Hall & Hoth); [intros i b Hi; rewrite Hlen; apply (Hin i b); by right|].
  exists l'. split_and!; [done|congruence| |].
  - intros i b [[= -> ->]|Hi]%elem_of_cons; [|by apply Hall]. exists s. split; [|done]. rewrite Hoth; [done|]. intros i' b' Hi' He.
    apply Hn. apply list_elem_of_fmap. exists (i', b'). split; [|done]. cbn. pose proof (Hin i' b' ltac:(by right)). pose proof (Hin id a ltac:(by left)). lia.
  - intros j Hj. rewrite Hoth by (intros i b Hi; apply (Hj i b); by right). apply Ho. apply (Hj id a). by left.
Qed.

(** The signals whose entry of [def] is the action [ipc_init] gives them. *)
Definition restored : list Z := [SIGHUP; SIGINT; SIGQUIT; SIGILL; SIGTRAP; SIGABRT; SIGBUS; SIGUSR2; SIGPIPE; SIGALRM; SIGTSTP; SIGPROF; SIGPWR].

Lemma def_compared :
  forallb (λ '(id, a), (id =? SIGKILL) || (id =? SIGSTOP) || (id =? SIGCONT) ||
    match def.[id] with Done d => eqb (d =? a) (existsb (Z.eqb id) restored) | _ => false end) ipc_init_actions = true.
Proof. vm_compute. reflexivity. Qed.

(** Resetting a signal to [SIG_DFL] gives it back the action the
    process started with for thirteen signals only: the table of [sigaction] leaves
    out [SIGFPE] and is shifted from there on, so that for example [SIGTERM] is
    ignored and [SIGUSR1] dumps core. *)
Lemma sigaction_default_shifted t0 id act :
  length t0 = 32%nat → inrange id 1 SIGSYS = true → id ≠ SIGKILL → id ≠ SIGSTOP → id ≠ SIGCONT → action act = SIG_DFL →
  ∃ t t' s s', ipc_init t0 = Done t ∧ get_sigaction t id = Done (Some s) ∧ set_sigaction t id act = Done (ENONE, t') ∧
    get_sigaction t' id = Done (Some s') ∧ (action s' = action s ↔ id ∈ restored).
Proof.
  intros Hlen Hr Hk Hst Hc Ha. destruct (set_actions_spec ipc_init_actions t0) as (t & Hinit & Hlen' & Hall & _).
  { apply (bool_decide_unpack _). vm_compute. done. }
  { intros i a Hi. rewrite Hlen. assert (Hf : Forall (λ p, 0 ≤ p.1 < 32) ipc_init_actions) by (apply (bool_decide_unpack _); vm_compute; done).
    rewrite Forall_forall in Hf. exact (Hf _ Hi). }
  assert (Hid : 1 ≤ id ≤ 31) by (unfold inrange, SIGSYS in Hr; lia).
  assert (Hin : ∃ a, (id, a) ∈ ipc_init_actions).
  { assert (Hf : forallb (λ i, existsb (λ p, p.1 =? i) ipc_init_actions) (seqZ 1 31) = true) by (vm_compute; done).
    rewrite forallb_forall in Hf. specialize (Hf id). rewrite <-list_elem_of_In, elem_of_seqZ in Hf. specialize (Hf ltac:(lia)).
    apply existsb_exists in Hf as ([i a] & Hi%list_elem_of_In & Hx). exists a. cbn in Hx. assert (i = id) as -> by lia. done. }
  destruct Hin as [a Hin]. destruct (Hall id a Hin) as (s & Hs & Hsa).
  pose proof def_compared as Hcmp. rewrite forallb_forall in Hcmp. specialize (Hcmp (id, a)). rewrite <-list_elem_of_In in Hcmp. specialize (Hcmp Hin). cbv beta iota in Hcmp.
  assert (Hnk : (id =? SIGKILL) || (id =? SIGSTOP) || (id =? SIGCONT) = false) by (unfold SIGKILL, SIGSTOP, SIGCONT in *; lia). rewrite Hnk in Hcmp. cbn [orb] in Hcmp.
  destruct (def.[id]) as [d| |] eqn:Ed; [|done..].
  destruct (set_action_spec id d (<[Z.to_nat id := act]> t)) as (t' & s' & Hset & Hl2 & Hs' & Hsd & _); [rewrite length_insert; lia|].
  exists t, t', s, s'. unfold ipc_init. rewrite Hinit. unfold get_sigaction, set_sigaction. rewrite Hr. cbn [negb]. rewrite Hnk.
  rewrite (proj2 (rd_Done t id s)) by (split; [lia|done]). cbn [mbind outcome_bind]. rewrite wr_in_range by lia. cbn [mbind outcome_bind]. rewrite Ha, Z.eqb_refl, Ed.
  cbn [mbind outcome_bind]. rewrite Hset. cbn [mbind outcome_bind]. rewrite (proj2 (rd_Done t' id s')) by (split; [lia|done]). split_and!; [done..|].
  rewrite Hsd, Hsa. apply eqb_prop in Hcmp. split.
  - intros ->. rewrite Z.eqb_refl in Hcmp. symmetry in Hcmp. apply existsb_exists in Hcmp as (x & Hx%list_elem_of_In & Hix). assert (id = x) as -> by lia. done.
  - intros Hi. assert (He : existsb (Z.eqb id) restored = true) by (apply existsb_exists; exists id; split; [by apply list_elem_of_In|lia]). rewrite He in Hcmp. lia.
Qed.

Lemma sigaction_default_shifted_witness :
  ∃ t t' s s', ipc_init (replicate 32 (mk_action 0 0 0 0 0)) = Done t ∧ get_sigaction t SIGTERM = Done (Some s) ∧
    set_sigaction t SIGTERM (mk_action SIG_DFL 0 0 0 0) = Done (ENONE, t') ∧ get_sigaction t' SIGTERM = Done (Some s') ∧
    (action s' = action s ↔ SIGTERM ∈ restored).
Proof. apply (sigaction_default_shifted (replicate 32 (mk_action 0 0 0 0 0)) SIGTERM (mk_action SIG_DFL 0 0 0 0)); done. Defined.

(** ** Handlers *)

(** Pushing [bs] leaves them in order below the old stack pointer. *)
Lemma push_spec sp m bs :
  Z.of_nat (length bs) ≤ sp < 2 ^ 64 →
  (push (sp, m) bs).1 = sp - Z.of_nat (length bs) ∧
  (∀ i b, bs !! i = Some b → (push (sp, m) bs).2 (sp - Z.of_nat (length bs) + Z.of_nat i) = b) ∧
  (∀ a, a < sp - Z.of_nat (length bs) ∨ sp ≤ a → (push (sp, m) bs).2 a = m a).
Proof.
  unfold push. induction bs as [|b bs IH]; [cbn; intros; split_and!; [lia|done|done]|]. intros Hb. rewrite length_cons in *. cbn [rev].
  rewrite foldl_app. cbn [foldl]. destruct IH as (H1 & H2 & H3); [lia|]. set (r := foldl push_byte (sp, m) (rev bs)) in *.
  unfold push_byte. cbn [fst snd]. rewrite H1. rewrite wrap_small by lia.
  assert (Ha : sp - Z.of_nat (length bs) - 1 = sp - Z.of_nat (S (length bs))) by lia. rewrite Ha. split_and!; [done| |].
  - intros [|i] x Hx; cbn in Hx.
    + injection Hx as ->. rewrite Z.add_0_r. by rewrite fn_lookup_insert.
    + rewrite fn_lookup_insert_ne by lia. rewrite <-(H2 i x Hx). f_equal. lia.
  - intros a Hx. rewrite fn_lookup_insert_ne by lia. apply H3. lia.
Qed.

Lemma handle_user tr current info e act :
  get_sigaction (m_signals e) (si_signo info) = Done (Some act) → action act = SIG_USER →
  handleSignal tr current info e =
    (when (negb current) lock_acquire;;
     t ← gets thread;
     (if (m_busy t =? 0) && negb (in_signal t) then enterSignal tr info
      else upd (λ t, with_pending (m_pending_signals t ++ [info]) t));;
     when (negb current) lock_release) e.
Proof.
  intros Hg Ha. unfold handleSignal. rewrite run_bind. cbn [gets fst snd]. rewrite run_bind, Hg. change (lift (Done (Some act)) e) with (@Done (option sigaction * env) (Some act, e)).
  cbn [fst snd]. rewrite run_bind. change (lift (Done act) e) with (@Done (sigaction * env) (act, e)). cbn [fst snd]. by rewrite Ha.
Qed.

(** The thread a handler starts in. *)
Definition entered (tr : Z) (info : siginfo_t) (act : sigaction) (e : env) : env :=
  let t := thread e in
  let e1 := set_thread (mk_thread TS_RUNNABLE (m_busy t) (m_critical t) true (m_pending_signals t) (lock t) (context t) (context t)
    (aux_stack t) (aux_stack_size t) (kernel_stack t) (kernel_stack_size t) (saved_stack t)) e in
  signal_context tr e1 (si_signo info) act (if negb (Z.land (flags act) SA_SIGINFO =? 0) then Some info else None).

Lemma enter_run tr info act e :
  lock (thread e) = false → get_sigaction (m_signals e) (si_signo info) = Done (Some act) →
  enterSignal tr info e = Done (tt, entered tr info act e).
Proof.
  intros Hl Hg. destruct e as [t tb ex u]. destruct t as [st b cr ins pend lk ctx aux ks kss as_ ass ss_]. cbn in Hl, Hg. subst lk.
  unfold enterSignal. rewrite run_bind. cbn [upd modify fst snd]. unfold signal_enter, lock_acquire. rewrite run_bind, run_bind.
  cbn [gets fst snd thread set_thread with_in_signal lock]. rewrite run_bind. change (lift (spin_acquire false) ?e) with (@Done (bool * env) (true, e)).
  cbn [fst snd upd modify]. rewrite run_bind. cbn [gets fst snd m_signals set_thread]. rewrite run_bind, Hg.
  change (lift (Done (Some act)) ?e) with (@Done (option sigaction * env) (Some act, e)). cbn [fst snd]. rewrite run_bind.
  change (lift (Done act) ?e) with (@Done (sigaction * env) (act, e)). cbn [fst snd]. rewrite run_bind. cbn [upd modify fst snd]. rewrite run_bind.
  cbn [upd modify fst snd]. rewrite run_bind. cbn [modify fst snd]. unfold entered, signal_context.
  destruct (if negb (Z.land (flags act) SA_SIGINFO =? 0) then Some info else None); reflexivity.
Qed.

(** Leaving a handler, with no signal waiting. *)
Lemma sigret_run tr e :
  lock (thread e) = false → m_busy (thread e) = 1 → in_signal (thread e) = true → m_pending_signals (thread e) = [] →
  ∃ t, sigret tr e = Done (ENONE, set_thread t e) ∧ context t = context_aux (thread e) ∧ in_signal t = false ∧
    kernel_stack t = aux_stack (thread e) ∧ kernel_stack_size t = aux_stack_size (thread e) ∧
    aux_stack t = kernel_stack (thread e) ∧ aux_stack_size t = kernel_stack_size (thread e).
Proof.
  intros Hl Hb Hin Hp. destruct e as [t tb ex us]. destruct t as [st b cr ins pend lk ctx aux ks kss as_ ass ss_]. cbn in Hl, Hb, Hin, Hp. subst. eexists. split.
  - unfold sigret. rewrite run_bind. cbn [gets fst snd thread in_signal negb]. rewrite run_bind. unfold signal_exit, lock_acquire. rewrite run_bind, run_bind.
    cbn [gets fst snd thread lock]. rewrite run_bind. change (lift (spin_acquire false) ?e) with (@Done (bool * env) (true, e)). cbn [fst snd upd modify].
    rewrite run_bind. cbn [upd modify fst snd]. rewrite run_bind. cbn [upd modify fst snd]. rewrite run_bind. unfold subBusy. rewrite run_bind. cbn [upd modify fst snd].
    rewrite run_bind. cbn [gets fst snd thread set_thread with_counts swap_stacks with_lock m_busy m_critical]. change (u16 (1 - 1)) with 0. cbn [Z.eqb negb]. rewrite run_bind.
    cbn [addCritical upd modify fst snd]. rewrite run_bind. cbn [gets fst snd thread set_thread with_counts swap_stacks with_lock m_pending_signals last]. cbn [subCritical upd modify fst snd].
    rewrite run_bind. cbn [upd modify fst snd]. unfold lock_release. rewrite run_bind. cbn [gets fst snd thread set_thread with_counts swap_stacks with_lock with_in_signal lock].
    rewrite run_bind. change (lift (spin_release true) ?e) with (@Done (bool * env) (false, e)). cbn [fst snd upd modify mret stateM_ret thread set_thread m_signals exits user]. reflexivity.
  - cbn [context in_signal kernel_stack kernel_stack_size aux_stack aux_stack_size with_lock with_in_signal with_counts swap_stacks context_aux thread]. done.
Qed.

(** The frame of a handler: [n] bytes of [siginfo_t] below the top [top] of the user
    stack when the handler wants them ([SA_SIGINFO], bit 0), then the return address,
    which is the handler's own restorer ([SA_RESTORER], bit 1) or the trampoline; the
    registers of the call, the selectors of user mode, and nothing else changed. *)
Definition frame (tr : Z) (info : siginfo_t) (act : sigaction) (e e1 : env) : Prop :=
  let top := saved_stack (thread e) in let c := context (thread e) in let c1 := context (thread e1) in
  let n := if Z.testbit (flags act) 0 then Z.of_nat (length (si_bytes info)) else 0 in
  rip c1 = handler act ∧ rdi c1 = si_signo info ∧ rsi c1 = (if Z.testbit (flags act) 0 then top - n else rsi c) ∧ rsp c1 = top - n - 8 ∧
  cs c1 = 0x23 ∧ ss c1 = 0x1B ∧ others c1 = others c ∧
  (∀ i b, le_bytes 8 (if Z.testbit (flags act) 1 then restorer act else tr) !! i = Some b → user e1 (rsp c1 + Z.of_nat i) = b) ∧
  (Z.testbit (flags act) 0 = true → ∀ i b, si_bytes info !! i = Some b → user e1 (rsi c1 + Z.of_nat i) = b) ∧
  (∀ a, a < rsp c1 ∨ top ≤ a → user e1 a = user e a).

Lemma sa_flag_bit k x : 0 ≤ k → negb (Z.land x (2 ^ k) =? 0) = Z.testbit x k.
Proof.
  intros Hk. destruct (Z.testbit x k) eqn:E.
  - apply negb_true_iff, Z.eqb_neq. intros H0. apply (f_equal (λ z, Z.testbit z k)) in H0. rewrite Z.land_spec, Z.pow2_bits_true, E, Z.bits_0 in H0 by done. done.
  - apply negb_false_iff, Z.eqb_eq. apply Z.bits_inj'. intros n Hn. rewrite Z.land_spec, Z.pow2_bits_eqb, Z.bits_0 by done. destruct (Z.eqb_spec k n) as [<-|]; [by rewrite E|by rewrite andb_false_r].
Qed.

Lemma entered_frame tr info act e :
  0 ≤ si_signo info < 256 → Z.of_nat (length (si_bytes info)) + 8 ≤ saved_stack (thread e) < 2 ^ 64 → frame tr info act e (entered tr info act e).
Proof.
  intros Hsig Hsp. unfold frame, entered, signal_context. cbn [thread set_thread user m_signals exits saved_stack in_signal context rip rdi rsi rsp cs ss others context_aux].
  change SA_SIGINFO with (2 ^ 0). change SA_RESTORER with (2 ^ 1). rewrite !sa_flag_bit by lia. set (ret := if Z.testbit (flags act) 1 then restorer act else tr).
  pose proof (le_bytes_length 8 ret) as Hlen. destruct (Z.testbit (flags act) 0).
  - destruct (push_spec (saved_stack (thread e)) (user e) (si_bytes info)) as (P1 & P2 & P3); [lia|]. destruct (push (saved_stack (thread e), user e) (si_bytes info)) as [r m]. cbn [fst snd] in *.
    destruct (push_spec r m (le_bytes 8 ret)) as (H1 & H2 & H3); [lia|]. rewrite H1, P1, Hlen in * by lia. split_and!; try done; [by rewrite wrap_small by lia| |].
    + intros _ i b Hi. pose proof (lookup_lt_Some _ _ _ Hi). rewrite H3 by lia. by apply P2.
    + intros a Ha. rewrite H3 by lia. apply P3. lia.
  - destruct (push_spec (saved_stack (thread e)) (user e) (le_bytes 8 ret)) as (H1 & H2 & H3); [lia|]. cbn [fst snd]. rewrite H1, Hlen, Z.sub_0_r in * by lia.
    split_and!; try done; by rewrite wrap_small by lia.
Qed.


(** A signal with a handler for another thread that is not busy
    never returns: [handleSignal] acquires the lock [signal] already holds. *)
Lemma signal_other_thread_hangs tr info act e :
  lock (thread e) = false → m_busy (thread e) = 0 → inrange (si_signo info) SIGHUP SIGSYS = true →
  get_sigaction (m_signals e) (si_signo info) = Done (Some act) → action act = SIG_USER →
  signal tr false info e = Panic "spinlock hung".
Proof.
  intros Hl Hb Hr Hg Ha. unfold signal. rewrite Hr. cbn [negb]. rewrite run_bind. unfold lock_acquire at 1. rewrite run_bind. cbn [gets fst snd]. rewrite Hl, run_bind.
  change (lift (spin_acquire false) e) with (@Done (bool * env) (true, e)). cbn [fst snd]. cbn [upd modify fst snd]. rewrite run_bind.
  unfold _signal. rewrite Hr. cbn [negb]. rewrite run_bind. cbn [gets fst snd set_thread thread with_lock m_busy]. rewrite Hb. cbn [Z.gtb Z.compare]. rewrite run_bind.
  rewrite (handle_user tr false info _ act) by done. done.
Qed.

(** Signals that wait are delivered last in, first out. *)
Lemma pending_lifo tr current e infos info act :
  m_busy (thread e) = 1 → m_critical (thread e) = 0 → m_pending_signals (thread e) = infos ++ [info] →
  get_sigaction (m_signals e) (si_signo info) = Done (Some act) → action act = SIG_TERM →
  ∃ e', subBusy tr current e = Done (tt, e') ∧ m_pending_signals (thread e') = infos ∧ exits e' = exits e ++ [si_signo info].
Proof.
  intros Hb Hcr Hp Hg Ha. destruct e as [t tb ex us]. destruct t as [st b cr ins pend lk ctx aux ks kss as_ ass ss_]. cbn in *. subst.
  unfold subBusy. rewrite run_bind. cbn [upd modify gets fst snd thread set_thread with_counts m_busy m_critical]. change (u16 (1 - 1)) with 0.
  rewrite run_bind. cbn [gets fst snd thread set_thread with_counts m_busy]. cbn [Z.eqb negb]. rewrite run_bind. cbn [addCritical upd modify fst snd]. rewrite run_bind.
  cbn [gets fst snd thread set_thread with_counts m_pending_signals]. rewrite last_snoc. rewrite run_bind. cbn [upd modify fst snd]. rewrite run_bind. cbn [subCritical upd modify fst snd].
  unfold handleSignal. rewrite run_bind. cbn [gets fst snd m_signals set_thread]. rewrite run_bind. cbn [m_signals set_thread]. rewrite Hg.
  change (lift (Done (Some act)) ?e) with (@Done (option sigaction * env) (Some act, e)). cbn [fst snd]. rewrite run_bind.
  change (lift (Done act) ?e) with (@Done (sigaction * env) (act, e)). cbn [fst snd]. rewrite Ha. eexists. split; [reflexivity|]. cbn.
  rewrite length_app. cbn [length]. rewrite Nat.add_sub, take_app_length. done.
Qed.

(** ** A process that handles [SIGUSR1] *)

Definition demo_context : Context := mk_context 0x400000 1 2 0x7000 0x23 0x1B [].
Definition demo_env : env :=
  mk_env (mk_thread TS_RUNNABLE 0 0 false [] false demo_context demo_context 0x10000 0x4000 0x20000 0x1000 0x7000)
    (replicate 32 (mk_action SIG_USER 0x500000 0 0 SA_SIGINFO)) [] (λ _, 0).


Lemma signal_other_thread_hangs_witness :
  signal 0x900000 false (mk_info SIGUSR1 (replicate 72 0)) demo_env = Panic "spinlock hung".
Proof. apply (signal_other_thread_hangs 0x900000 (mk_info SIGUSR1 (replicate 72 0)) (mk_action SIG_USER 0x500000 0 0 SA_SIGINFO) demo_env); done. Defined.

End Signal.
